(* ===== verification/_CoqProject ===== *)
-Q . S2P
Prelude.v
Partial.v
TimeConv.v
Systick.v
Sporadic.v
RingBuf.v
RbTree.v
RbFun.v
RbMem.v
RbOps.v
RbTheorems.v
RbRemove.v
RbSet.v
Bytes.v
CMem.v
CString.v
CNum.v
Hex.v
Crc.v
Random.v
Base64.v
Printk.v
Mpu.v
MpuTheorems.v
DList.v
DNode.v
Slist.v
Onoff.v
OnoffTheorems.v
Pages.v
PageTheorems.v
MemPool.v
MemPoolFacts.v
MemPoolTheorems.v
MemPoolInit.v
MemPoolSystem.v
Heap.v
Objects.v
ObjectTable.v
ObjectSystem.v
KState.v
TimeList.v
ReadyQueue.v
Sched.v
ReadyQueueFacts.v
QueueTheorems.v
Frames.v
SchedFacts.v
SchedTheorems.v
BudgetTheorems.v
ThreadTable.v
TcbCore.v
Ipc.v
Interrupt.v
Tick.v
Tcb.v
IpcTheorems.v
IpcSystem.v
TickTheorems.v
Boot.v
ObjectTheorems.v
ObjectCalls.v
