(* ===== verification/Prelude.v ===== *)
(** * The WellsL4 microkernel

    A model of the core of the WellsL4 kernel ([src/wellsl4]) and the theorems that make it
    correct.  WellsL4 is a C microkernel for one ARM core: threads with sporadic-server
    budgets, a priority scheduler with domains, synchronous message passing over message
    nodes, signals over notification nodes, timers, interrupts, address spaces enforced by
    the memory protection unit, and a heap of kernel objects.

    ** The program and its model

    - Budgets ([src/model/sporadic.c]) keep, per scheduling context, a ring of refills.
      [Sporadic.v] models the routines on one [thread_sched]; the state is the record with
      the C fields, ticks are 64-bit words with wrap-around.
    - Time conversion ([inc/kernel/time.h]): [TimeConv.v].  The clock of the boards
      ([src/drivers/timer/cortex_m_systick.c]): [Systick.v], beside a counter that moves by
      any number of cycles before each register access.
    - Lists: [DNode.v] models the circular lists of [inc/sys/dlist.h] over a map of nodes;
      [DList.v] holds the theory of null-terminated lists threaded through structures.
    - Objects and globals ([inc/kernel_object.h], [inc/state/statedata.h]): [KState.v].
      Pointers are integers, each kind of object lives in a finite map, so a null or
      dangling access is a [Fault]; an array access out of range is a [Fault] too.
    - Timer events ([src/kernel/time.c]): [TimeList.v] (the delta list) and [Tick.v]
      (expiry and the deadline handler).
    - Queues ([inc/kernel/thread.h]): [ReadyQueue.v], with the bitmap, the ready queues per
      domain and priority, the release queue ordered by refill time, message queues and
      the predicates on the state word.
    - Scheduler ([src/kernel/thread.c], [swap.c], [preemption.c]): [Sched.v].  [schedule]
      wakes due threads, chooses a thread and writes it to [ready_thread]; the switch
      itself is the parameter [context_switch].
    - Threads ([src/object/tcb.c]): [ThreadTable.v] (lookup by id), [TcbCore.v] (life
      cycle, parameters, yielding, donation), [Tcb.v] (suspending, destroying, the system
      calls, and the privileged thread of [src/kernel/privilege.c]).
    - Messages and signals ([src/object/ipc.c]): [Ipc.v]; interrupts
      ([src/object/interrupt.c]): [Interrupt.v].
    - Address spaces ([src/object/anode.c], [arm_mpu_anode.c]): [Pages.v], on top of the
      driver of the protection unit ([arm_mpu.c], [arm_mpu_v7m.c], [arm_mpu_regions.c]) in
      [Mpu.v], whose state is the eight region registers; [user_access] is what the
      hardware grants for them.
    - Kernel memory: [MemPool.v] models the pool of [src/lib/sys/mempool.c], four-way broken
      blocks with a bit per block and a free list per level; [Heap.v] the allocator of
      [src/object/objecttype.c] on top of it.
    - Object table ([src/kernel/cspace.c], the rest of [objecttype.c], [src/object/cnode.c]):
      [Objects.v].  Registered objects are in a red/black tree and a list; the model joins
      the tree, the list, the descriptors, the bytes and the heap.  [ObjectCalls.v] adds
      the system calls on objects, untyped memory ([src/object/untype.c]) and the kernel
      interface page ([src/object/kip.c]) beside the scheduler's state and the protection
      unit.
    - Library ([src/lib/sys]): red/black trees in [RbTree.v] (nodes in memory with the
      colour in a pointer bit, the path array on the stack), ring buffers in [RingBuf.v],
      the routines of [string.c], [hex.c] and [dec.c] over the byte memory of [Bytes.v] in
      [CMem.v], [CString.v], [CNum.v] and [Hex.v], checksums ([crc.c]) in [Crc.v], base64
      text ([base64.c]) in [Base64.v], formatted output ([printk.c]) in [Printk.v], singly
      linked lists ([inc/sys/slist.h]) in [Slist.v] and, on top of them, on-off services
      ([onoff.c]) in [Onoff.v]: a service with its waiting clients, and a log of the
      transition functions and handlers it calls.
    - Boot ([src/kernel/boot.c], [set_new_thread], [arch_new_thread]): [Boot.v] builds the
      main, privileged and idle threads from zeroed variables and enters the main routine;
      the image (addresses, stacks, hooks and the registered initialisation routines) is the
      class [BootImage].  [Random.v] has the
      pseudo-random words of stack canaries.

    Every operation is one definition with the C name in a state and error monad [ST]:
    [Done] with a result and a state, or [Fail] with [Fault] (illegal memory access),
    [AssertFailed] (only in builds with [CONFIG_ASSERT]) or [OutOfFuel].  Build options are
    the class [Config] (for pages [PageConfig]); the machine is the class [Platform]; the
    interrupt controller, the page operations that IPC calls and the thread services that
    the scheduler model does not contain are the classes [IrqController], [Services] and
    [ThreadServices]; the allocator that pages use is the interface [FrameAlloc], the heap
    that the object table uses the interface [ObjectHeap], which [ObjectSystem.v] discharges
    with [Heap.v].  The build is the one the boards configure: one processor, no
    [USE_SWITCH], so spin locks leave no trace.

    ** What is proved

    Theorems are statements about complete runs, [m s = Done a s'] or [m s = Fail e]; they
    follow from total-correctness triples [wp].  [Partial.v] has the partial triples and
    the preorders that [Frames.v] uses to say what a scheduler routine leaves alone.
    - [Sporadic.v]: charging, splitting and merging terminate, stay inside the buffer and
      conserve the budget; the ring implements a bounded queue.
    - [TimeConv.v], [DNode.v], [TimeList.v]: exact rounding; the circular list implements a
      sequence; timers expire after the requested ticks when they are added in order, and
      what happens when they are not, or are removed.
    - [ReadyQueueFacts.v], [QueueTheorems.v]: [ReadyQ s q] abstracts the ready queues to a
      list per queue; insertion, removal and the bitmap search refine list operations, the
      release queue is a stable priority queue, message queues are first-in first-out.
    - [SchedFacts.v], [SchedTheorems.v]: [schedule] completes, installs a thread that no
      ready thread of the domain outranks, unless the running one is cooperative, and keeps
      the invariant [SchedWF]; [awaken], without assertions, releases exactly the due threads
      and loses none.
    - [BudgetTheorems.v]: charging consumed time conserves budgets and puts an exhausted
      thread in the right queue.
    - [ThreadTable.v]: the table stays sorted and lookup is exact.
    - [IpcTheorems.v]: [MsgNode s n st l] abstracts a message node to its state and the
      list of waiting threads; blocking, cancelling and rendezvous refine list operations.
      [IpcSystem.v]: all endpoints together, under any sequence of operations, refine
      abstract endpoints; a waiting thread is served after those ahead of it.
    - [TickTheorems.v]: a tick takes exactly the due deadlines off the list, brings the others
      nearer and asks for the health monitor.
    - [ObjectTheorems.v]: domains, the admission test of schedule control, signals.
    - [MpuTheorems.v], [PageTheorems.v]: after a switch unprivileged code may access exactly
      what the thread's page and stack grant; removing a partition, leaving a page or
      destroying it revokes at once; both for partitions whose sizes are powers of two, and
      what happens to others; buffer validation agrees with the hardware, except for the
      cases shown.
    - [MemPoolFacts.v], [MemPoolTheorems.v], [MemPoolInit.v], [MemPoolSystem.v], [Heap.v]:
      from zeroed memory and under any sequence of requests, the blocks handed out are
      disjoint and aligned, allocation fails only when no block of the level or above is
      free, and what is freed can be handed out again.
    - [ObjectTable.v], [ObjectSystem.v]: [Table s L R] says that tree and list hold the live
      objects [R]; allocation, lookup, release, iteration and access rights are exact on
      it, and every sequence of operations keeps it.  [ObjectCalls.v]: copies to and from
      user memory that no region cuts happen exactly if the hardware allows them; what the
      checks of the object calls refuse.
    - [RbFun.v], [RbMem.v], [RbOps.v], [RbTheorems.v], [RbRemove.v], [RbSet.v]: the trees
      stay balanced within the depth the path array allows and implement ordered sets.
    - [RingBuf.v], [CMem.v], [CString.v], [CNum.v], [Hex.v]: the ring buffer is a bounded
      queue; the routines compute their reference functions; text round trips.
    - [Crc.v], [Base64.v], [Slist.v], [Random.v]: checksums are remainders of division by
      their polynomials; decoding undoes encoding; the list implements a sequence; what
      the partial word of [set_random32] does.
    - [Printk.v]: a format whose field widths the code honours gives the text that the header
      promises, [render], with numbers as shortest numerals, and [emitted] is what the code
      makes of any format; a buffer gets the text cut and ended; output of user threads
      reaches the console complete.
    - [Systick.v]: while the counter runs, the ticks announced never run ahead of the cycles
      counted and the cycle count is exact at each reading; what is lost at the start and how
      the count is off after idling.
    - [OnoffTheorems.v]: [ORep] relates a service to one of six states; every sequence of
      operations refines the machine on them, and the transition functions are called in
      the order the header promises; a request that a stop overlooks.
    - [Boot.v]: boot establishes the invariant [SchedWF] that the scheduler's theorems
      assume, and the main thread keeps running; where a new thread's context lies.
    Theorems of kind error prove that the code stops or loses data on inputs it admits.

    ** Fuel

    Loops over linked structures run with fuel one more than the number of objects that
    can be linked; loops over arrays with the array length plus two; bisection with 33
    rounds for 32-bit bounds; the copy loop of [message_exchange], which ends when its
    32-bit bound wraps, with [2 ^ 32] rounds; tree loops with the number of nodes; list loops
    of the object table with the number of list nodes; bit counts with 33 rounds; pool loops
    with the number of levels; scans of strings and formats with the size of the memory plus one; the
    loops of the protection unit with its number of regions.  The theorems show that the
    fuel suffices.  [update_timelist] and the privileged thread take fuel as an argument,
    because a handler or a service may create new work.

    ** Not modelled

    System-call dispatch (generated stubs), device binding, exception reporting, the other
    drivers, assembly, the multiprocessor build, the parts of the library the kernel core does
    not call (JSON, file descriptors), the board package, the QP framework and the tools.
    There are no theorems on the deadlines of threads that do not run,
    [set_schedule_context] and interrupt delivery, and the object allocator of [KState.v] and [Pages.v] is not an instance of
    the object table.

    This file holds the shared base: machine words, the monad and its [wp] rules, the
    build configuration, and lemmas on bits and lists. *)

From Stdlib Require Import ZArith Lia Bool List.
From stdpp Require Import base tactics numbers list gmap.

Local Open Scope Z_scope.

(** ** Machine words *)

(** Unsigned C integers are mathematical integers kept in range by an explicit
    reduction after each operation that can leave it. *)
Definition u8 (z : Z) : Z := z mod 2 ^ 8.
Definition u16 (z : Z) : Z := z mod 2 ^ 16.
Definition u32 (z : Z) : Z := z mod 2 ^ 32.
Definition u64 (z : Z) : Z := z mod 2 ^ 64.

(** Two's complement reading of a 32-bit pattern ([sword_t], [s32_t]). *)
Definition s32 (z : Z) : Z := (z + 2 ^ 31) mod 2 ^ 32 - 2 ^ 31.

(** [BIT(n)] of [sys/util.h] and the bitwise complement at 32 bits. *)
Definition BIT (n : Z) : Z := Z.shiftl 1 n.
Definition not32 (z : Z) : Z := u32 (Z.lnot z).

Lemma u8_small z : 0 <= z < 2 ^ 8 -> u8 z = z.
Proof. apply Z.mod_small. Qed.

Lemma u16_small z : 0 <= z < 2 ^ 16 -> u16 z = z.
Proof. apply Z.mod_small. Qed.

Lemma u32_small z : 0 <= z < 2 ^ 32 -> u32 z = z.
Proof. apply Z.mod_small. Qed.

Lemma u64_small z : 0 <= z < 2 ^ 64 -> u64 z = z.
Proof. apply Z.mod_small. Qed.

Lemma s32_small z : - 2 ^ 31 <= z < 2 ^ 31 -> s32 z = z.
Proof. intros H. unfold s32. rewrite Z.mod_small; lia. Qed.

Lemma u32_range z : 0 <= u32 z < 2 ^ 32.
Proof. apply Z.mod_pos_bound. lia. Qed.

Lemma u64_range z : 0 <= u64 z < 2 ^ 64.
Proof. apply Z.mod_pos_bound. lia. Qed.

(** ** Failure-aware state passing *)

(** A kernel routine either completes or stops: an [assert] fires (only in
    builds with [CONFIG_ASSERT]), memory outside an object is touched (a null or
    dangling pointer, an index past an array), or the loop bound given to a
    non-structural loop is exhausted. *)
Inductive failure := AssertFailed | Fault | OutOfFuel.

Inductive outcome (S A : Type) :=
| Done (a : A) (s : S)
| Fail (e : failure).
Arguments Done {S A} a s.
Arguments Fail {S A} e.

Definition ST (S A : Type) := S -> outcome S A.

Global Instance ST_ret {S} : MRet (ST S) := fun A a s => Done a s.
Global Instance ST_bind {S} : MBind (ST S) := fun A B k m s =>
  match m s with
  | Done a s' => k a s'
  | Fail e => Fail e
  end.

Definition get {S} : ST S S := fun s => Done s s.
Definition gets {S A} (f : S -> A) : ST S A := fun s => Done (f s) s.
Definition modify {S} (f : S -> S) : ST S unit := fun s => Done tt (f s).
Definition fail {S A} (e : failure) : ST S A := fun _ => Fail e.
Definition skip {S} : ST S unit := mret tt.
Definition ofopt {S A} (o : option A) : ST S A :=
  match o with Some a => mret a | None => fail Fault end.
Definition when {S} (b : bool) (m : ST S unit) : ST S unit := if b then m else skip.

(** ** Build configuration *)

(** The Kconfig switches the modelled code depends on.  The development covers
    the uniprocessor build ([CONFIG_SMP] off, [CONFIG_USE_SWITCH] off); every
    other switch stays a parameter. *)
Class Config := {
  CONFIG_ASSERT : bool;
  CONFIG_NUM_DOMAINS : Z;
  CONFIG_SWAP_NONATOMIC : bool;
  CONFIG_PREEMPT_ENABLED : bool;
  CONFIG_SYS_CLOCK_TICKS_PER_SEC : Z;
}.

(** The board build of the repository: assertions compiled out, one domain. *)
Definition stm32_config : Config := {|
  CONFIG_ASSERT := false;
  CONFIG_NUM_DOMAINS := 1;
  CONFIG_SWAP_NONATOMIC := true;
  CONFIG_PREEMPT_ENABLED := true;
  CONFIG_SYS_CLOCK_TICKS_PER_SEC := 10000;
|}.

(** The same build with assertions compiled in. *)
Definition test_config : Config := {|
  CONFIG_ASSERT := true;
  CONFIG_NUM_DOMAINS := 1;
  CONFIG_SWAP_NONATOMIC := true;
  CONFIG_PREEMPT_ENABLED := true;
  CONFIG_SYS_CLOCK_TICKS_PER_SEC := 10000;
|}.

(** [assert(test)]: checked under [CONFIG_ASSERT], empty otherwise. *)
Definition assert_ `{Config} {S} (b : bool) : ST S unit :=
  if CONFIG_ASSERT && negb b then fail AssertFailed else skip.

(** [assert] of a condition that reads the state: evaluated only under [CONFIG_ASSERT]. *)
Definition assert_m `{Config} {S} (m : ST S bool) : ST S unit :=
  if CONFIG_ASSERT then b ← m; assert_ b else skip.

(** ** Total-correctness triples *)

(** [wp m Q s]: run from [s], [m] completes and its result and final state
    satisfy [Q].  No failure satisfies it. *)
Definition wp {S A} (m : ST S A) (Q : A -> S -> Prop) (s : S) : Prop :=
  match m s with
  | Done a s' => Q a s'
  | Fail _ => False
  end.

Section Wp.
Context {S : Type}.

Lemma wp_ret {A} (a : A) (Q : A -> S -> Prop) s : Q a s -> wp (mret a) Q s.
Proof. done. Qed.

Lemma wp_bind {A B} (m : ST S A) (k : A -> ST S B) (Q : B -> S -> Prop) s :
  wp m (fun a s' => wp (k a) Q s') s -> wp (m ≫= k) Q s.
Proof. unfold wp, mbind, ST_bind. destruct (m s); done. Qed.

Lemma wp_mono {A} (m : ST S A) (P Q : A -> S -> Prop) s :
  wp m P s -> (forall a s', P a s' -> Q a s') -> wp m Q s.
Proof. unfold wp. destruct (m s); auto. Qed.

Lemma wp_seq {A B} (m : ST S A) (k : A -> ST S B) P Q s :
  wp m P s -> (forall a s', P a s' -> wp (k a) Q s') -> wp (m ≫= k) Q s.
Proof. intros Hm Hk. apply wp_bind. by eapply wp_mono. Qed.

Lemma wp_get (Q : S -> S -> Prop) s : Q s s -> wp get Q s.
Proof. done. Qed.

Lemma wp_gets {A} (f : S -> A) (Q : A -> S -> Prop) s : Q (f s) s -> wp (gets f) Q s.
Proof. done. Qed.

Lemma wp_modify (f : S -> S) (Q : unit -> S -> Prop) s : Q tt (f s) -> wp (modify f) Q s.
Proof. done. Qed.

Lemma wp_skip (Q : unit -> S -> Prop) s : Q tt s -> wp skip Q s.
Proof. done. Qed.

Lemma wp_ofopt {A} (o : option A) a (Q : A -> S -> Prop) s :
  o = Some a -> Q a s -> wp (ofopt o) Q s.
Proof. by intros -> HQ. Qed.

Lemma wp_when (b : bool) (m : ST S unit) Q s :
  (b = true -> wp m Q s) -> (b = false -> Q tt s) -> wp (when b m) Q s.
Proof. destruct b; cbn; auto. Qed.

(** A true assertion is invisible in both builds. *)
Lemma wp_assert `{Config} (b : bool) (Q : unit -> S -> Prop) s :
  b = true -> Q tt s -> wp (assert_ b) Q s.
Proof. intros -> HQ. unfold assert_. by rewrite andb_false_r. Qed.

(** Without [CONFIG_ASSERT] every assertion is invisible. *)
Lemma wp_assert_off `{Config} (b : bool) (Q : unit -> S -> Prop) s :
  CONFIG_ASSERT = false -> Q tt s -> wp (assert_ b) Q s.
Proof. intros E HQ. unfold assert_. by rewrite E. Qed.

(** An assertion that holds whenever assertions are compiled in. *)
Lemma wp_assert_if `{Config} (b : bool) (Q : unit -> S -> Prop) s :
  (CONFIG_ASSERT = true -> b = true) -> Q tt s -> wp (assert_ b) Q s.
Proof.
  intros Hb HQ. destruct CONFIG_ASSERT eqn:E; [apply wp_assert|apply wp_assert_off]; auto.
Qed.

Lemma wp_assert_m `{Config} (m : ST S bool) (Q : unit -> S -> Prop) s :
  (CONFIG_ASSERT = true -> wp m (fun b s' => b = true /\ s' = s) s) -> Q tt s -> wp (assert_m m) Q s.
Proof.
  intros Hm HQ. unfold assert_m. destruct CONFIG_ASSERT eqn:E; [|done]. apply wp_bind.
  eapply wp_mono; [by apply Hm|]. intros b s' [-> ->]. by apply wp_assert.
Qed.

Lemma wp_run {A} (m : ST S A) Q s :
  wp m Q s <-> exists a s', m s = Done a s' /\ Q a s'.
Proof.
  unfold wp. destruct (m s) as [a s'|e]; split; [by eauto| |done|].
  - by intros (? & ? & [= -> ->] & HQ).
  - by intros (? & ? & [=] & _).
Qed.
End Wp.

(** Fold a sequence back to use a lemma about it. *)
Lemma wp_unbind {S A B} (m : ST S A) (k : A -> ST S B) (Q : B -> S -> Prop) s :
  wp (m ≫= k) Q s -> wp m (fun a s' => wp (k a) Q s') s.
Proof. unfold wp, mbind, ST_bind. by destruct (m s). Qed.

(** Regroup a sequence of three steps. *)
Lemma wp_unbind2 {S A B C} (m : ST S A) (k : A -> ST S B) (h : B -> ST S C) (Q : C -> S -> Prop) s :
  wp (m ≫= k) (fun b s' => wp (h b) Q s') s -> wp (m ≫= fun a => k a ≫= h) Q s.
Proof. unfold wp, mbind, ST_bind. destruct (m s) as [a s'|]; [by destruct (k a s')|done]. Qed.

(** ** Runs that stop *)

Definition fails {S A} (m : ST S A) (e : failure) (s : S) : Prop := m s = Fail e.

(** The part before the failing step completes. *)
Lemma fails_step {S A B} (m : ST S A) (k : A -> ST S B) e s :
  wp m (fun a s' => fails (k a) e s') s -> fails (m ≫= k) e s.
Proof. unfold wp, fails, mbind, ST_bind. by destruct (m s). Qed.

Lemma fails_bind {S A B} (m : ST S A) (k : A -> ST S B) e s : fails m e s -> fails (m ≫= k) e s.
Proof. unfold fails, mbind, ST_bind. by intros ->. Qed.

Lemma run_unit {S} (m : ST S unit) (Q : S -> Prop) s : wp m (fun _ => Q) s -> exists s', m s = Done tt s' /\ Q s'.
Proof. unfold wp. destruct (m s) as [[] s'|]; [|done]. by exists s'. Qed.

Lemma run_done {S A} (m : ST S A) a s s' : wp m (fun x y => x = a /\ y = s') s -> m s = Done a s'.
Proof. unfold wp. destruct (m s); [by intros [-> ->]|done]. Qed.

(** Step the program one bind at a time; a goal [wp (m ≫= k)] becomes a goal
    about [m] whose postcondition is the rest of the program. *)
Ltac wp_step :=
  lazymatch goal with
  | |- wp (mbind _ _) _ _ => apply wp_bind
  | |- wp (mret _) _ _ => apply wp_ret
  | |- wp skip _ _ => apply wp_skip
  | |- wp get _ _ => apply wp_get
  | |- wp (gets _) _ _ => apply wp_gets
  | |- wp (modify _) _ _ => apply wp_modify
  end.
Ltac wp_steps := repeat (wp_step; cbn beta).

(** ** Boolean reflection *)

Ltac zbool :=
  repeat match goal with
  | H : (_ && _)%bool = true |- _ => apply andb_true_iff in H as [? ?]
  | H : (_ || _)%bool = false |- _ => apply orb_false_iff in H as [? ?]
  | H : negb _ = true |- _ => apply negb_true_iff in H
  | H : negb _ = false |- _ => apply negb_false_iff in H
  | H : (_ <=? _)%Z = true |- _ => apply Z.leb_le in H
  | H : (_ <=? _)%Z = false |- _ => apply Z.leb_gt in H
  | H : (_ <? _)%Z = true |- _ => apply Z.ltb_lt in H
  | H : (_ <? _)%Z = false |- _ => apply Z.ltb_ge in H
  | H : (_ =? _)%Z = true |- _ => apply Z.eqb_eq in H
  | H : (_ =? _)%Z = false |- _ => apply Z.eqb_neq in H
  end.

(** Decide every integer comparison in the goal or the context. *)
Ltac zcases :=
  repeat match goal with
  | |- context [(?a <=? ?b)%Z] => destruct (Z.leb_spec a b)
  | |- context [(?a <? ?b)%Z] => destruct (Z.ltb_spec a b)
  | |- context [(?a =? ?b)%Z] => destruct (Z.eqb_spec a b)
  end.

(** Linear arithmetic over machine words: every reduction becomes a quotient and a
    remainder with a constant modulus. *)
Ltac word_lia :=
  unfold u8, u16, u32, u64, s32 in *;
  change (2 ^ 8) with 256 in *; change (2 ^ 16) with 65536 in *;
  change (2 ^ 31) with 2147483648 in *; change (2 ^ 32) with 4294967296 in *;
  change (2 ^ 64) with 18446744073709551616 in *;
  Z.to_euclidean_division_equations; lia.

Create HintDb wells discriminated.
#[export] Hint Resolve wp_ret wp_get wp_gets wp_modify wp_skip : wells.

(** ** Bit facts *)

Lemma range_of_mod w n : 0 <= n -> w mod 2 ^ n = w -> 0 <= w < 2 ^ n.
Proof. intros Hn <-. apply Z.mod_pos_bound. lia. Qed.

Lemma lor_range n a b : 0 <= n -> 0 <= a < 2 ^ n -> 0 <= b < 2 ^ n -> 0 <= Z.lor a b < 2 ^ n.
Proof.
  intros Hn Ha Hb. apply range_of_mod; [done|]. rewrite <-(Z.mod_small _ _ Ha), <-(Z.mod_small _ _ Hb).
  apply Z.bits_inj'. intros i Hi. rewrite Z.testbit_mod_pow2, !Z.lor_spec, !Z.testbit_mod_pow2 by done.
  by destruct (i <? n), (Z.testbit a i), (Z.testbit b i).
Qed.

Lemma land_range n a b : 0 <= n -> 0 <= a < 2 ^ n -> 0 <= Z.land a b < 2 ^ n.
Proof.
  intros Hn Ha. apply range_of_mod; [done|]. rewrite <-(Z.mod_small _ _ Ha).
  apply Z.bits_inj'. intros i Hi. rewrite Z.testbit_mod_pow2, !Z.land_spec, !Z.testbit_mod_pow2 by done.
  by destruct (i <? n), (Z.testbit a i), (Z.testbit b i).
Qed.

Lemma BIT_range k n : 0 <= k < n -> 0 <= BIT k < 2 ^ n.
Proof.
  intros Hk. unfold BIT. rewrite Z.shiftl_1_l. split; [apply Z.pow_nonneg; lia|].
  apply Z.pow_lt_mono_r; lia.
Qed.

Lemma BIT_testbit k i : 0 <= k -> Z.testbit (BIT k) i = (i =? k).
Proof. intros Hk. unfold BIT. rewrite Z.shiftl_1_l, Z.pow2_bits_eqb by done. apply Z.eqb_sym. Qed.

Lemma set_bit_testbit w k i : 0 <= k -> Z.testbit (Z.lor w (BIT k)) i = (i =? k) || Z.testbit w i.
Proof. intros. by rewrite Z.lor_spec, BIT_testbit, orb_comm. Qed.

Lemma clear_bit_testbit w k i :
  0 <= k -> 0 <= i < 32 -> Z.testbit (Z.land w (not32 (BIT k))) i = negb (i =? k) && Z.testbit w i.
Proof.
  intros Hk Hi. unfold not32, u32. rewrite Z.land_spec, Z.mod_pow2_bits_low by lia.
  rewrite Z.lnot_spec, BIT_testbit by lia. apply andb_comm.
Qed.

(** A word is zero exactly when none of its bits is set. *)
Lemma word_zero_bits n w :
  0 <= n -> 0 <= w < 2 ^ n -> (w = 0 <-> forall i, 0 <= i < n -> Z.testbit w i = false).
Proof.
  intros Hn Hw. split; [intros -> i _; apply Z.testbit_0_l|]. intros Hb. apply Z.bits_inj'. intros i Hi.
  rewrite Z.testbit_0_l. destruct (Z.ltb_spec i n); [apply Hb; lia|].
  rewrite <-(Z.mod_small _ _ Hw). apply Z.mod_pow2_bits_high. lia.
Qed.

(** Words with separate bits are added by [|]. *)
Lemma lor_add n a b : 0 <= n -> 0 <= a < 2 ^ n -> Z.lor a (b * 2 ^ n) = a + b * 2 ^ n.
Proof.
  intros Hn Ha. assert (Z.land a (b * 2 ^ n) = 0) as E.
  { apply Z.bits_inj'. intros i Hi. rewrite Z.land_spec, Z.bits_0. destruct (Z.ltb_spec i n).
    - by rewrite Z.mul_pow2_bits_low, andb_false_r by lia.
    - rewrite <-(Z.mod_small _ _ Ha), Z.mod_pow2_bits_high by lia. done. }
  by rewrite Z.add_nocarry_lxor, Z.lxor_lor.
Qed.

(** The position [Z.log2 w] is that of the highest set bit of a non-zero word. *)
Lemma highest_bit n w :
  0 <= w < 2 ^ n -> w <> 0 ->
  0 <= Z.log2 w < n /\ Z.testbit w (Z.log2 w) = true /\
  forall i, Z.testbit w i = true -> i <= Z.log2 w.
Proof.
  intros Hw H0. repeat split.
  - apply Z.log2_nonneg.
  - apply Z.log2_lt_pow2; lia.
  - apply Z.bit_log2. lia.
  - intros i Hi. destruct (Z.le_gt_cases i (Z.log2 w)) as [?|Hgt]; [done|].
    rewrite Z.bits_above_log2 in Hi by lia. done.
Qed.
