(* ===== verification/Partial.v ===== *)
(** * Partial correctness

    Triples for runs that complete ([pwp]), and [preserves R m]: every completed run of
    [m] relates its initial to its final state by the preorder [R]. *)

From Stdlib Require Import ZArith Lia Bool List.
From stdpp Require Import base tactics.
From S2P Require Import Prelude.

(** ** Partial-correctness triples *)

(** [pwp m Q s]: if [m] completes from [s], its result and final state satisfy [Q]. *)
Definition pwp {S A} (m : ST S A) (Q : A -> S -> Prop) (s : S) : Prop :=
  match m s with Done a s' => Q a s' | Fail _ => True end.

Section Pwp.
Context {S : Type}.

Lemma wp_pwp {A} (m : ST S A) (Q : A -> S -> Prop) s : wp m Q s -> pwp m Q s.
Proof. unfold wp, pwp. by destruct (m s). Qed.

Lemma pwp_run {A} (m : ST S A) (Q : A -> S -> Prop) s a s' : pwp m Q s -> m s = Done a s' -> Q a s'.
Proof. unfold pwp. intros HQ E. by rewrite E in HQ. Qed.

Lemma pwp_bind {A B} (m : ST S A) (k : A -> ST S B) (Q : B -> S -> Prop) s :
  pwp m (fun a s' => pwp (k a) Q s') s -> pwp (m ≫= k) Q s.
Proof. unfold pwp, mbind, ST_bind. by destruct (m s). Qed.

Lemma pwp_mono {A} (m : ST S A) (P Q : A -> S -> Prop) s :
  pwp m P s -> (forall a s', P a s' -> Q a s') -> pwp m Q s.
Proof. unfold pwp. destruct (m s); auto. Qed.

Lemma pwp_fail {A} e (Q : A -> S -> Prop) s : pwp (fail e) Q s.
Proof. done. Qed.

Lemma pwp_fails {A} e (m : ST S A) (Q : A -> S -> Prop) s : fails m e s -> pwp m Q s.
Proof. unfold pwp, fails. by intros ->. Qed.

Lemma pwp_assert `{Config} (b : bool) (Q : unit -> S -> Prop) s : Q tt s -> pwp (assert_ b) Q s.
Proof. intros HQ. unfold assert_. by destruct (CONFIG_ASSERT && negb b). Qed.

Lemma pwp_ofopt {A} (o : option A) (Q : A -> S -> Prop) s : (forall a, o = Some a -> Q a s) -> pwp (ofopt o) Q s.
Proof. intros HQ. unfold ofopt. destruct o; [by apply HQ|done]. Qed.
End Pwp.

(** Peel the binds that read or set the state and the assertions. *)
Ltac pwp_step :=
  lazymatch goal with
  | |- pwp (mbind _ _) _ _ => apply pwp_bind
  | |- pwp (mret _) _ _ => apply wp_pwp, wp_ret
  | |- pwp skip _ _ => apply wp_pwp, wp_skip
  | |- pwp get _ _ => apply wp_pwp, wp_get
  | |- pwp (gets _) _ _ => apply wp_pwp, wp_gets
  | |- pwp (modify _) _ _ => apply wp_pwp, wp_modify
  | |- pwp (assert_ _) _ _ => apply pwp_assert
  end.
Ltac pwp_steps := repeat (pwp_step; cbn beta).

(** ** Preserved relations *)

Definition preserves {S A} (R : S -> S -> Prop) (m : ST S A) : Prop := forall s, pwp m (fun _ => R s) s.

Section Preserves.
Context {S : Type} (R : S -> S -> Prop) `{!PreOrder R}.

Lemma preserves_ret {A} (a : A) : preserves R (mret a).
Proof. intros s. pwp_steps. reflexivity. Qed.

Lemma preserves_skip : preserves R skip.
Proof. apply preserves_ret. Qed.

Lemma preserves_get : preserves R get.
Proof. intros s. pwp_steps. reflexivity. Qed.

Lemma preserves_gets {A} (f : S -> A) : preserves R (gets f).
Proof. intros s. pwp_steps. reflexivity. Qed.

Lemma preserves_fail {A} e : preserves R (fail e : ST S A).
Proof. done. Qed.

Lemma preserves_assert `{Config} b : preserves R (assert_ b).
Proof. intros s. apply pwp_assert. cbn. reflexivity. Qed.

Lemma preserves_ofopt {A} (o : option A) : preserves R (ofopt o).
Proof. intros s. apply pwp_ofopt. intros a _. reflexivity. Qed.

Lemma preserves_modify f : (forall s, R s (f s)) -> preserves R (modify f).
Proof. intros Hf s. pwp_steps. apply Hf. Qed.

Lemma preserves_bind {A B} (m : ST S A) (k : A -> ST S B) :
  preserves R m -> (forall a, preserves R (k a)) -> preserves R (m ≫= k).
Proof.
  intros Hm Hk s. apply pwp_bind. eapply pwp_mono; [apply Hm|]. intros a s1 H1.
  eapply pwp_mono; [apply Hk|]. intros b s2 H2. by transitivity s1.
Qed.

(** Run a framed step, then the rest from any related state. *)
Lemma pwp_preserves {A} (m : ST S A) (Q : A -> S -> Prop) s :
  preserves R m -> (forall a s', R s s' -> Q a s') -> pwp m Q s.
Proof. intros Hm HQ. eapply pwp_mono; [apply Hm|]. auto. Qed.

(** The same from a state that is already related to the start [s0]. *)
Lemma pwp_then {A} (m : ST S A) (Q : A -> S -> Prop) s0 s :
  preserves R m -> R s0 s -> (forall a s', R s0 s' -> Q a s') -> pwp m Q s.
Proof. intros Hm Hs HQ. eapply pwp_mono; [apply Hm|]. cbn. intros a s' Hs'. apply HQ. by transitivity s. Qed.
End Preserves.

Create HintDb frames discriminated.
#[export] Hint Resolve preserves_ret preserves_skip preserves_get preserves_gets preserves_fail preserves_assert
  preserves_ofopt : frames.

Lemma preserves_assert_m `{Config} {S} (R : S -> S -> Prop) `{!PreOrder R} m :
  preserves R m -> preserves R (assert_m m).
Proof.
  intros Hm. unfold assert_m. destruct CONFIG_ASSERT; [|by apply preserves_skip].
  apply preserves_bind; [done|done|]. intros b. by apply preserves_assert.
Qed.

(** Cut a program into its accesses; the accesses are settled by the hint database. *)
Ltac frames :=
  repeat first
    [ progress intros
    | solve [auto with frames typeclass_instances]
    | apply preserves_assert_m; [typeclasses eauto|]
    | case_match
    | apply preserves_bind; [typeclasses eauto| |] ].
