(* ===== verification/TimeConv.v ===== *)
(** * Conversions between clock rates

    Models [tmcvt] of [inc/kernel/time.h] and the wrappers the kernel calls.  The
    three build-time expressions of [tmcvt] are proved to round the same exact
    quotient. *)

From Stdlib Require Import ZArith Lia Bool.
From stdpp Require Import base tactics numbers.
From S2P Require Import Prelude.

Local Open Scope Z_scope.

Definition tmcvt (t from_hz to_hz : Z) (const_hz result32 round_up round_off : bool) : Z :=
  let mul_ratio := const_hz && (from_hz <? to_hz) && (to_hz mod from_hz =? 0) in
  let div_ratio := const_hz && (to_hz <? from_hz) && (from_hz mod to_hz =? 0) in
  if from_hz =? to_hz then (if result32 then u32 t else t)
  else
    let off :=
      if negb mul_ratio then
        let rdivisor := if div_ratio then from_hz / to_hz else from_hz in
        if round_up then u32 (rdivisor - 1)
        else if round_off then rdivisor / 2
        else 0
      else 0 in
    if div_ratio then
      let t := u64 (t + off) in
      if result32 then u32 t / (from_hz / to_hz) else t / (from_hz / to_hz)
    else if mul_ratio then
      if result32 then u32 (u32 t * (to_hz / from_hz)) else u64 (t * (to_hz / from_hz))
    else
      if result32 then u32 (u64 (u64 (t * to_hz) + off) / from_hz)
      else u64 (u64 (t * to_hz) + off) / from_hz.

Definition Hms : Z := 1000.
Definition Hus : Z := 1000000.
Definition Hticks `{Config} : Z := CONFIG_SYS_CLOCK_TICKS_PER_SEC.

Definition k_us_to_ticks_ceil32 `{Config} (t : Z) : Z := u32 (tmcvt (u32 t) Hus Hticks true true true false).
Definition k_ms_to_ticks_ceil32 `{Config} (t : Z) : Z := u32 (tmcvt (u32 t) Hms Hticks true true true false).
Definition k_ticks_to_ms_floor64 `{Config} (t : Z) : Z := tmcvt t Hticks Hms true false false false.

(** The quotient [t * to_hz / from_hz] rounded up, to nearest (halves up) or down. *)
Definition rounded (t from_hz to_hz : Z) (round_up round_off : bool) : Z :=
  if round_up then (t * to_hz + (from_hz - 1)) / from_hz
  else if round_off then (t * to_hz + from_hz / 2) / from_hz
  else t * to_hz / from_hz.

(** Scaling dividend and divisor leaves a floor unchanged, also with a remainder below
    the scale. *)
Lemma div_scaled a b c e : 0 < b -> 0 < c -> 0 <= e < c -> (a * c + e) / (b * c) = a / b.
Proof.
  intros Hb Hc He. symmetry. apply (Z.div_unique _ _ _ ((a mod b) * c + e)).
  - left. pose proof (Z.mod_pos_bound a b Hb). nia.
  - pose proof (Z.div_mod a b ltac:(lia)). nia.
Qed.

(** The ratio expression rounds the same quotient when [to_hz] divides [from_hz]. *)
Lemma rounded_div_ratio t r c up off :
  0 < r -> 0 < c ->
  rounded t (r * c) c up off =
  (t + (if up then r - 1 else if off then r / 2 else 0)) / r.
Proof.
  intros Hr Hc. unfold rounded. destruct up; [|destruct off].
  - replace (t * c + (r * c - 1)) with ((t + (r - 1)) * c + (c - 1)) by lia. apply div_scaled; lia.
  - assert (E : r * c / 2 = r / 2 * c + (r mod 2) * c / 2).
    { rewrite (Z.div_mod r 2) at 1 by lia.
      replace ((2 * (r / 2) + r mod 2) * c) with (r mod 2 * c + (r / 2 * c) * 2) by lia.
      rewrite Z.div_add by lia. lia. }
    rewrite E. replace (t * c + (r / 2 * c + r mod 2 * c / 2)) with ((t + r / 2) * c + r mod 2 * c / 2) by lia.
    apply div_scaled; [done|done|].
    pose proof (Z.mod_pos_bound r 2 ltac:(lia)). assert (r mod 2 = 0 \/ r mod 2 = 1) as [->| ->] by lia.
    + change (0 * c / 2) with 0. lia.
    + rewrite Z.mul_1_l. pose proof (Z.div_pos c 2). pose proof (Z.div_lt c 2). lia.
  - rewrite Z.add_0_r. rewrite <-(Z.add_0_r (t * c)). apply div_scaled; lia.
Qed.

(** The product expression needs no rounding when [from_hz] divides [to_hz]. *)
Lemma rounded_mul_ratio t r c up off : 0 < r -> 0 < c -> rounded t c (r * c) up off = t * r.
Proof.
  intros Hr Hc. unfold rounded. rewrite Z.mul_assoc.
  destruct up; [|destruct off]; [symmetry; apply (Z.div_unique _ _ _ (c - 1)); [left; lia|lia]| |by rewrite Z.div_mul by lia].
  symmetry. apply (Z.div_unique _ _ _ (c / 2)); [|lia].
  left. split; [apply Z.div_pos; lia|apply Z.div_lt_upper_bound; lia].
Qed.

(** Lemma: clock-rate conversion is exact.  For every pair of rates, rounding mode and choice of
    compile-time shortcut, [tmcvt] returns the rounded quotient [t * to_hz / from_hz],
    as long as the intermediate product fits 64 bits (32 bits for the 32-bit result). *)
Theorem tmcvt_exact t from_hz to_hz (const_hz result32 round_up round_off : bool) :
  0 < from_hz < 2 ^ 32 -> 0 < to_hz < 2 ^ 32 -> 0 <= t ->
  t * to_hz + from_hz < (if result32 then 2 ^ 32 else 2 ^ 64) ->
  tmcvt t from_hz to_hz const_hz result32 round_up round_off = rounded t from_hz to_hz round_up round_off.
Proof.
  intros Hf Hto Ht Hb. unfold tmcvt.
  assert (Hb64 : t * to_hz + from_hz < 2 ^ 64) by (destruct result32; lia).
  assert (Htle : t <= t * to_hz) by nia.
  destruct (Z.eqb_spec from_hz to_hz) as [->|Hne].
  { replace (rounded t to_hz to_hz round_up round_off) with t.
    - destruct result32; [apply u32_small; lia|done].
    - rewrite <-(Z.mul_1_l to_hz) at 2. rewrite rounded_mul_ratio by lia. lia. }
  destruct (const_hz && (to_hz <? from_hz) && (from_hz mod to_hz =? 0)) eqn:Ediv; cbn zeta.
  - zbool. assert (E : from_hz = from_hz / to_hz * to_hz) by (pose proof (Z.div_mod from_hz to_hz); lia).
    set (r := from_hz / to_hz) in *. assert (Hr : 0 < r) by nia. assert (Hrf : r <= from_hz) by nia.
    rewrite (proj2 (Z.ltb_ge from_hz to_hz)) by lia. rewrite andb_false_r. cbn [negb andb].
    rewrite E, rounded_div_ratio by lia.
    assert (0 <= r / 2 < r) by (split; [apply Z.div_pos; lia|apply Z.div_lt; lia]).
    rewrite (u32_small (r - 1)) by lia. rewrite u64_small by (destruct round_up, round_off; lia).
    destruct result32; [|done]. rewrite u32_small; [done|]. destruct round_up, round_off; lia.
  - destruct (const_hz && (from_hz <? to_hz) && (to_hz mod from_hz =? 0)) eqn:Emul; cbn [negb].
    + zbool. assert (E : to_hz = to_hz / from_hz * from_hz) by (pose proof (Z.div_mod to_hz from_hz); lia).
      set (r := to_hz / from_hz) in *. assert (Hr : 0 < r) by nia.
      rewrite E, rounded_mul_ratio by lia. assert (t * r <= t * to_hz) by nia.
      destruct result32; [rewrite (u32_small t) by lia; apply u32_small; nia|apply u64_small; nia].
    + assert (0 <= from_hz / 2 < from_hz) by (split; [apply Z.div_pos; lia|apply Z.div_lt; lia]).
      rewrite (u32_small (from_hz - 1)) by lia. rewrite (u64_small (t * to_hz)) by nia.
      rewrite u64_small by (destruct round_up, round_off; nia).
      assert (Hq : forall o, 0 <= o < from_hz -> 0 <= (t * to_hz + o) / from_hz < 2 ^ 32 \/ result32 = false).
      { intros o Ho. destruct result32; [left|by right]. split; [apply Z.div_pos; nia|].
        apply Z.div_lt_upper_bound; nia. }
      unfold rounded. destruct round_up; [|destruct round_off]; rewrite ?Z.add_0_r.
      * destruct result32; [|done]. apply u32_small. destruct (Hq (from_hz - 1)); [lia|done|done].
      * destruct result32; [|done]. apply u32_small. destruct (Hq (from_hz / 2)); [lia|done|done].
      * destruct result32; [|done]. apply u32_small. destruct (Hq 0); rewrite ?Z.add_0_r in *; [lia|done|done].
Qed.

(** 1500 microseconds at 10 kHz ticks are 15 ticks; 32768 Hz cycles round up. *)
Lemma tmcvt_exact_witness :
  tmcvt 1500 1000000 10000 true true true false = rounded 1500 1000000 10000 true false /\
  tmcvt 1001 1000 32768 true false true false = rounded 1001 1000 32768 true false /\
  rounded 1001 1000 32768 true false = 32801.
Proof.
  split; [apply (tmcvt_exact 1500); lia|]. split; [apply (tmcvt_exact 1001); lia|reflexivity].
Defined.
