(* ===== verification/Systick.v ===== *)
(** * The system clock driver

    Models [src/drivers/timer/cortex_m_systick.c] for the tickless kernel, on the SysTick
    counter as the driver describes it: it counts down from [LOAD] to 0 and starts again,
    [COUNTFLAG] is set when it reaches 0 and cleared when [CTRL] is read, and a write to [VAL]
    clears both.  The field [cycles] counts the cycles the counter ran, for the theorems only.

    Time passes while the driver runs: [pace] holds, for each access to a register, the cycles
    that pass before it.  The ticks the driver announces with [update_timelist] are recorded.

    Proved: the cycles the driver reports are exact, however the accesses fall relative to the
    wrap of the counter; what it programs fits the counter and ends on a tick; the kernel is
    told of every whole tick and of no other; two states in which the count is off. *)

From Stdlib Require Import ZArith Lia ZifyBool Bool List.
From stdpp Require Import base tactics numbers list relations.
From S2P Require Import Prelude.

Local Open Scope Z_scope.

(** ** The counter *)

Record systick := mk_systick { LOAD : Z; VAL : Z; CTRL : Z; COUNTFLAG : bool; cycles : Z }.

Definition SysTick_CTRL_ENABLE_Msk : Z := 1.
Definition SysTick_CTRL_TICKINT_Msk : Z := 2.
Definition SysTick_CTRL_CLKSOURCE_Msk : Z := 4.
Definition SysTick_CTRL_COUNTFLAG_Msk : Z := 65536.

(** One cycle. *)
Definition count (h : systick) : systick :=
  if Z.testbit (CTRL h) 0 then
    mk_systick (LOAD h) (if VAL h =? 0 then LOAD h else VAL h - 1) (CTRL h) (COUNTFLAG h || (VAL h =? 1)) (cycles h + 1)
  else h.
Fixpoint run (d : nat) (h : systick) : systick := match d with O => h | S d => run d (count h) end.

(** ** The driver *)

Record clock := mk_clock {
  hw : systick; lastload_cycle : Z; current_cycle : Z; announced_cycle : Z; overflowed_cycle : Z;
  announcements : list Z; pace : list nat;
}.
Notation CM := (ST clock).

Class SysClock := { sys_clock_hw_cycles_per_sec : Z; SYS_CLOCK_TICKS_PER_SEC : Z; CONFIG_TICKLESS_IDLE : bool }.

Definition MAX_COUNTS : Z := 16777215.
Definition CLOSING_COUNTS : Z := 4278190080.
Definition FOREVER : Z := -1.

Definition set_hw (h : systick) (s : clock) := mk_clock h (lastload_cycle s) (current_cycle s) (announced_cycle s) (overflowed_cycle s) (announcements s) (pace s).
Definition set_lastload (v : Z) (s : clock) := mk_clock (hw s) (u32 v) (current_cycle s) (announced_cycle s) (overflowed_cycle s) (announcements s) (pace s).
Definition set_current (v : Z) (s : clock) := mk_clock (hw s) (lastload_cycle s) (u32 v) (announced_cycle s) (overflowed_cycle s) (announcements s) (pace s).
Definition set_announced (v : Z) (s : clock) := mk_clock (hw s) (lastload_cycle s) (current_cycle s) (u32 v) (overflowed_cycle s) (announcements s) (pace s).
Definition set_overflowed (v : Z) (s : clock) := mk_clock (hw s) (lastload_cycle s) (current_cycle s) (announced_cycle s) (u32 v) (announcements s) (pace s).

(** The cycles before an access. *)
Definition pass : CM unit := modify (fun s =>
  match pace s with
  | [] => s
  | d :: p => mk_clock (run d (hw s)) (lastload_cycle s) (current_cycle s) (announced_cycle s) (overflowed_cycle s) (announcements s) p
  end).

Definition read_VAL : CM Z := pass;; gets (fun s => VAL (hw s)).
Definition read_CTRL : CM Z :=
  pass;;
  s ← get;
  let h := hw s in
  modify (set_hw (mk_systick (LOAD h) (VAL h) (CTRL h) false (cycles h)));;
  mret (Z.lor (CTRL h) (if COUNTFLAG h then SysTick_CTRL_COUNTFLAG_Msk else 0)).
(** The reload value has 24 bits. *)
Definition write_LOAD (v : Z) : CM unit := pass;; modify (fun s => let h := hw s in set_hw (mk_systick (Z.land v MAX_COUNTS) (VAL h) (CTRL h) (COUNTFLAG h) (cycles h)) s).
(** The value written does not matter. *)
Definition write_VAL (v : Z) : CM unit := pass;; modify (fun s => let h := hw s in set_hw (mk_systick (LOAD h) 0 (CTRL h) false (cycles h)) s).
Definition write_CTRL (v : Z) : CM unit :=
  pass;; modify (fun s => let h := hw s in set_hw (mk_systick (LOAD h) (VAL h) (Z.land v (Z.lnot SysTick_CTRL_COUNTFLAG_Msk)) (COUNTFLAG h) (cycles h)) s).

Section Driver.
Context `{SysClock}.

Definition CYC_PER_TICK : Z := sys_clock_hw_cycles_per_sec / SYS_CLOCK_TICKS_PER_SEC.
Definition MAX_TICKS : Z := MAX_COUNTS / CYC_PER_TICK - 1.
Definition MAX_CYCLES : Z := MAX_TICKS * CYC_PER_TICK.
Definition MIN_DELAY : Z := Z.max 1024 (CYC_PER_TICK / 16).

Definition elapsed : CM Z :=
  val1 ← read_VAL;
  ctrl ← read_CTRL;
  val2 ← read_VAL;
  (if negb (Z.land ctrl SysTick_CTRL_COUNTFLAG_Msk =? 0) || (val1 <? val2) then
     l ← gets lastload_cycle;
     o ← gets overflowed_cycle;
     modify (set_overflowed (o + l));;
     read_CTRL;;
     skip
   else skip);;
  l ← gets lastload_cycle;
  o ← gets overflowed_cycle;
  mret (u32 (l - val2 + o)).

Definition update_timelist (ticks : Z) : CM unit := modify (fun s =>
  mk_clock (hw s) (lastload_cycle s) (current_cycle s) (announced_cycle s) (overflowed_cycle s) (announcements s ++ [ticks]) (pace s)).

Definition clock_isr : CM unit :=
  elapsed;;
  c ← gets current_cycle;
  o ← gets overflowed_cycle;
  modify (set_current (c + o));;
  modify (set_overflowed 0);;
  c ← gets current_cycle;
  a ← gets announced_cycle;
  let dticks := u32 (c - a) / CYC_PER_TICK in
  modify (set_announced (a + dticks * CYC_PER_TICK));;
  update_timelist dticks.

Definition clock_init : CM unit :=
  modify (set_lastload (CYC_PER_TICK - 1));;
  modify (set_overflowed 0);;
  l ← gets lastload_cycle;
  write_LOAD l;;
  write_VAL 0;;
  c ← read_CTRL;
  write_CTRL (Z.lor c (Z.lor (Z.lor SysTick_CTRL_ENABLE_Msk SysTick_CTRL_TICKINT_Msk) SysTick_CTRL_CLKSOURCE_Msk)).

Definition clock_set_timeout (ticks : Z) (idle : bool) : CM unit :=
  if CONFIG_TICKLESS_IDLE && idle && (ticks =? FOREVER) then
    c ← read_CTRL;
    write_CTRL (Z.land c (Z.lnot SysTick_CTRL_ENABLE_Msk));;
    modify (set_lastload CLOSING_COUNTS)
  else
    let ticks := if ticks =? FOREVER then MAX_TICKS else ticks in
    let ticks := Z.max (Z.min (ticks - 1) MAX_TICKS) 0 in
    pending ← elapsed;
    c ← gets current_cycle;
    modify (set_current (c + pending));;
    modify (set_overflowed 0);;
    c ← gets current_cycle;
    a ← gets announced_cycle;
    let unannounced := u32 (c - a) in
    (if s32 unannounced <? 0 then modify (set_lastload MIN_DELAY)
     else
       let delay := u32 (ticks * CYC_PER_TICK) in
       let delay := u32 (delay + unannounced) in
       let delay := u32 (u32 (delay + CYC_PER_TICK - 1) / CYC_PER_TICK * CYC_PER_TICK) in
       let delay := u32 (delay - unannounced) in
       let delay := Z.max delay MIN_DELAY in
       if delay >? MAX_CYCLES then modify (set_lastload MAX_CYCLES) else modify (set_lastload delay));;
    l ← gets lastload_cycle;
    write_LOAD (u32 (l - 1));;
    write_VAL 0.

Definition clock_elapsed : CM Z :=
  e ← elapsed;
  c ← gets current_cycle;
  a ← gets announced_cycle;
  mret (u32 (e + c - a) / CYC_PER_TICK).

Definition clock_cycle_get_32 : CM Z := e ← elapsed; c ← gets current_cycle; mret (u32 (e + c)).

Definition clock_idle_exit : CM unit :=
  l ← gets lastload_cycle;
  when (l =? CLOSING_COUNTS) (c ← read_CTRL; write_CTRL (Z.lor c SysTick_CTRL_ENABLE_Msk)).

Definition clock_disable : CM unit := c ← read_CTRL; write_CTRL (Z.land c (Z.lnot SysTick_CTRL_ENABLE_Msk)).

End Driver.

(** ** The counter in closed form *)

(** The value of a counter with period [P], [n] cycles after it was cleared. *)
Definition value (P n : Z) : Z := if n mod P =? 0 then 0 else P - n mod P.

Record Phase (h : systick) (P n : Z) : Prop := {
  ph_period : 2 <= P <= MAX_COUNTS + 1;
  ph_load : LOAD h = P - 1;
  ph_val : VAL h = value P n;
  ph_on : Z.testbit (CTRL h) 0 = true;
  ph_bits : Z.testbit (CTRL h) 16 = false;
  ph_pos : 0 <= n;
}.

Lemma next_mod P n : 2 <= P -> 0 <= n -> (n + 1) mod P = if n mod P =? P - 1 then 0 else n mod P + 1.
Proof.
  intros HP Hn. pose proof (Z.div_mod n P ltac:(lia)) as D. pose proof (Z.mod_pos_bound n P ltac:(lia)) as B. destruct (Z.eqb_spec (n mod P) (P - 1)) as [E|E].
  - symmetry. apply (Z.mod_unique _ _ (n / P + 1)); [lia|nia].
  - symmetry. apply (Z.mod_unique _ _ (n / P)); [lia|nia].
Qed.
Lemma next_div P n : 2 <= P -> 0 <= n -> (n + 1) / P = if n mod P =? P - 1 then n / P + 1 else n / P.
Proof.
  intros HP Hn. pose proof (Z.div_mod n P ltac:(lia)) as D. pose proof (Z.mod_pos_bound n P ltac:(lia)) as B. destruct (Z.eqb_spec (n mod P) (P - 1)) as [E|E].
  - symmetry. apply (Z.div_unique _ _ _ 0); [lia|nia].
  - symmetry. apply (Z.div_unique _ _ _ (n mod P + 1)); [lia|nia].
Qed.

Lemma count_phase h P n : Phase h P n ->
  Phase (count h) P (n + 1) /\ cycles (count h) = cycles h + 1 /\ COUNTFLAG (count h) = COUNTFLAG h || (n / P <? (n + 1) / P).
Proof.
  intros [HP HL HV On Hb Hn]. unfold count. rewrite On. cbn. pose proof (Z.mod_pos_bound n P ltac:(lia)) as B. rewrite HL, HV. unfold value.
  split; [|split; [done|f_equal]].
  - split; try done; cbn; [|lia]. unfold value. rewrite next_mod by lia.
    destruct (Z.eqb_spec (n mod P) 0) as [E|E]; [rewrite E|]; destruct (Z.eqb_spec (n mod P) (P - 1)) as [E2|E2]; repeat case_match; lia.
  - rewrite next_div by lia. destruct (Z.eqb_spec (n mod P) 0) as [E|E]; destruct (Z.eqb_spec (n mod P) (P - 1)) as [E2|E2]; lia.
Qed.

Lemma run_phase d : forall h P n, Phase h P n ->
  Phase (run d h) P (n + Z.of_nat d) /\ cycles (run d h) = cycles h + Z.of_nat d /\ COUNTFLAG (run d h) = COUNTFLAG h || (n / P <? (n + Z.of_nat d) / P).
Proof.
  induction d as [|d IH]; intros h P n Hh; cbn [run].
  - rewrite Z.add_0_r, Z.ltb_irrefl, orb_false_r. split; [done|]. lia.
  - destruct (count_phase h P n Hh) as (H1 & Ec & Ef). destruct (IH _ _ _ H1) as (H2 & Ec2 & Ef2). replace (n + Z.of_nat (S d)) with (n + 1 + Z.of_nat d) by lia.
    split; [done|]. split; [lia|]. rewrite Ef2, Ef, <-orb_assoc. f_equal. destruct Hh as [HP _ _ _ _ Hn].
    pose proof (Z.div_le_mono n (n + 1) P ltac:(lia) ltac:(lia)). pose proof (Z.div_le_mono (n + 1) (n + 1 + Z.of_nat d) P ltac:(lia) ltac:(lia)). lia.
Qed.

(** ** What the driver knows *)

(** The counter runs with the period the driver programmed and was cleared [n] cycles ago; the
    wraps since then are in [overflowed_cycle], but for one that only [COUNTFLAG] holds; up to
    the clearing, [current_cycle] has all cycles but [lag]. *)
Record Tracks (s : clock) (n lag : Z) : Prop := {
  tr_phase : Phase (hw s) (lastload_cycle s) n;
  tr_over : overflowed_cycle s = u32 (lastload_cycle s * (n / lastload_cycle s - (if COUNTFLAG (hw s) then 1 else 0)));
  tr_seen : COUNTFLAG (hw s) = true -> 1 <= n / lastload_cycle s;
  tr_current : current_cycle s = u32 (cycles (hw s) - n - lag);
}.

(** The accesses of [elapsed]: each takes a cycle or more, the two readings of the counter are
    less than a period apart, and at most one wrap is unseen until the last access (a counter
    that shows [VAL] started its period [P - VAL] cycles ago). *)
Record Timely (s : clock) (a b c d : nat) (rest : list nat) : Prop := {
  ti_pace : pace s = a :: b :: c :: d :: rest;
  ti_slow : (1 <= a /\ 1 <= b /\ 1 <= c)%nat;
  ti_fast : Z.of_nat (b + c) < lastload_cycle s;
  ti_wrap : ((lastload_cycle s - VAL (hw s)) mod lastload_cycle s + Z.of_nat (a + b + c + d)) / lastload_cycle s <= (if COUNTFLAG (hw s) then 0 else 1);
}.

(** The wraps to come, counted from the clearing. *)
Lemma wraps_to_come P n k : 2 <= P -> (n + k) / P = n / P + ((P - value P n) mod P + k) / P.
Proof.
  intros HP. assert (E : (P - value P n) mod P = n mod P).
  { pose proof (Z.mod_pos_bound n P ltac:(lia)). unfold value. destruct (Z.eqb_spec (n mod P) 0) as [->|]; [rewrite Z.sub_0_r; apply Z.mod_same; lia|]. replace (P - (P - n mod P)) with (n mod P) by lia. apply Z.mod_small. lia. }
  rewrite E. pose proof (Z.div_mod n P ltac:(lia)). replace (n + k) with (n mod P + k + n / P * P) by lia. rewrite Z.div_add by lia. lia.
Qed.

(** The same variables, at another time. *)
Record later (s s' : clock) : Prop := {
  la_load : lastload_cycle s' = lastload_cycle s;
  la_current : current_cycle s' = current_cycle s;
  la_announced : announced_cycle s' = announced_cycle s;
  la_log : announcements s' = announcements s;
}.

Definition adv (d : nat) (p : list nat) (s : clock) : clock :=
  mk_clock (run d (hw s)) (lastload_cycle s) (current_cycle s) (announced_cycle s) (overflowed_cycle s) (announcements s) p.
Definition unflag (s : clock) : clock := let h := hw s in set_hw (mk_systick (LOAD h) (VAL h) (CTRL h) false (cycles h)) s.

Lemma wp_pass d p s (Q : unit -> clock -> Prop) : pace s = d :: p -> Q tt (adv d p s) -> wp pass Q s.
Proof. intros E HQ. unfold pass. apply wp_modify. by rewrite E. Qed.
Lemma wp_read_VAL d p s (Q : Z -> clock -> Prop) : pace s = d :: p -> Q (VAL (run d (hw s))) (adv d p s) -> wp read_VAL Q s.
Proof. intros E HQ. unfold read_VAL. apply wp_bind. eapply wp_pass; [exact E|]. by apply wp_gets. Qed.
Lemma wp_read_CTRL d p s (Q : Z -> clock -> Prop) :
  pace s = d :: p -> Q (Z.lor (CTRL (run d (hw s))) (if COUNTFLAG (run d (hw s)) then SysTick_CTRL_COUNTFLAG_Msk else 0)) (unflag (adv d p s)) -> wp read_CTRL Q s.
Proof. intros E HQ. unfold read_CTRL. apply wp_bind. eapply wp_pass; [exact E|]. apply wp_bind, wp_get, wp_bind, wp_modify. by apply wp_ret. Qed.

(** The flag as the driver tests it. *)
Lemma flag_bit c (f : bool) : Z.testbit c 16 = false -> negb (Z.land (Z.lor c (if f then SysTick_CTRL_COUNTFLAG_Msk else 0)) SysTick_CTRL_COUNTFLAG_Msk =? 0) = f.
Proof.
  intros Hc. change SysTick_CTRL_COUNTFLAG_Msk with (2 ^ 16). rewrite Z.land_lor_distr_l.
  assert (E : Z.land c (2 ^ 16) = 0). { apply Z.bits_inj'. intros i Hi. rewrite Z.land_spec, Z.bits_0, Z.pow2_bits_eqb by lia. destruct (Z.eqb_spec 16 i) as [<-|]; [by rewrite Hc|by rewrite andb_false_r]. }
  rewrite E, Z.lor_0_l. by destruct f.
Qed.

Lemma phase_unflag h P n : Phase h P n -> Phase (mk_systick (LOAD h) (VAL h) (CTRL h) false (cycles h)) P n.
Proof. intros []. by split. Qed.

Lemma value_range P n : 2 <= P -> 0 <= value P n < P.
Proof. intros HP. unfold value. pose proof (Z.mod_pos_bound n P ltac:(lia)). case_match; lia. Qed.

(** When the counter shows less at first than afterwards, it has wrapped in between, unless it
    showed 0 first. *)
Lemma value_rises P x y : 2 <= P -> 0 <= x -> x <= y -> y - x < P -> x mod P <> 0 -> (value P x <? value P y) = (x / P <? y / P) && negb (y mod P =? 0).
Proof.
  intros HP Hx Hxy Hd Hr. unfold value. pose proof (Z.mod_pos_bound x P ltac:(lia)). pose proof (Z.mod_pos_bound y P ltac:(lia)).
  pose proof (Z.div_mod x P ltac:(lia)). pose proof (Z.div_mod y P ltac:(lia)). pose proof (Z.div_le_mono x y P ltac:(lia) Hxy).
  assert (y / P = x / P \/ y / P = x / P + 1) as [E|E] by nia; rewrite E in *; rewrite (proj2 (Z.eqb_neq _ _) Hr).
  - rewrite Z.ltb_irrefl. cbn [andb]. destruct (Z.eqb_spec (y mod P) 0); lia.
  - destruct (Z.eqb_spec (y mod P) 0); [lia|]. cbn [negb]. lia.
Qed.

(** The test of [elapsed], at times [x], [y], [z] and [w] after a clearing of which [n] was
    known: it tells whether the reading at [z] is past a wrap not yet counted. *)
Lemma wrap_seen P n (f : bool) x y z w :
  2 <= P -> 0 <= n -> n < x -> x < y -> y < z -> z <= w -> z - x < P -> (f = true -> 1 <= n / P) ->
  w / P <= n / P + (if f then 0 else 1) ->
  if f || (n / P <? y / P) || (value P x <? value P z)
  then z mod P <> 0 /\ z / P = n / P + (if f then 0 else 1) /\ w / P = z / P
  else f = false /\ y / P = n / P /\ (z / P = n / P /\ z mod P <> 0 \/ z / P = n / P + 1 /\ z mod P = 0).
Proof.
  intros HP Hn Hx Hy Hz Hw Hd Hf Hq. pose proof (Z.div_le_mono n x P ltac:(lia) ltac:(lia)). pose proof (Z.div_le_mono x y P ltac:(lia) ltac:(lia)).
  pose proof (Z.div_le_mono y z P ltac:(lia) ltac:(lia)). pose proof (Z.div_le_mono z w P ltac:(lia) ltac:(lia)).
  pose proof (Z.div_mod n P ltac:(lia)). pose proof (Z.mod_pos_bound n P ltac:(lia)). pose proof (Z.div_mod x P ltac:(lia)). pose proof (Z.mod_pos_bound x P ltac:(lia)).
  pose proof (Z.div_mod y P ltac:(lia)). pose proof (Z.mod_pos_bound y P ltac:(lia)). pose proof (Z.div_mod z P ltac:(lia)). pose proof (Z.mod_pos_bound z P ltac:(lia)).
  destruct f; cbn [orb].
  { assert (z / P = n / P) by lia. split; [|lia]. intros E. nia. }
  destruct (Z.ltb_spec (n / P) (y / P)) as [Hl|Hl]; cbn [orb].
  { assert (z / P = y / P /\ y / P = n / P + 1) as [E1 E2] by lia. split; [|lia]. intros E. nia. }
  assert (Hxr : x mod P <> 0). { intros E. assert (x / P = n / P) by lia. nia. }
  rewrite value_rises by (try done; lia). assert (x / P = n / P) as -> by lia. destruct (Z.ltb_spec (n / P) (z / P)) as [Hzl|Hzl]; cbn [andb].
  - destruct (Z.eqb_spec (z mod P) 0) as [E|E]; cbn [negb]; [|lia]. split; [done|]. split; [lia|]. right. lia.
  - split; [done|]. split; [lia|]. left. split; [lia|]. intros E. assert (z / P = n / P) by lia. nia.
Qed.

Lemma u32_eqm x y : (x - y) mod 2 ^ 32 = 0 -> u32 x = u32 y.
Proof. intros E. unfold u32. replace x with (y + (x - y)) by lia. rewrite Z.add_mod, E, Z.add_0_r, Z.mod_mod by lia. done. Qed.
Lemma u32_add_l x y : u32 (u32 x + y) = u32 (x + y).
Proof. apply Zplus_mod_idemp_l. Qed.
Lemma u32_add_r x y : u32 (x + u32 y) = u32 (x + y).
Proof. apply Zplus_mod_idemp_r. Qed.
Lemma u32_sub_r x y : u32 (x - u32 y) = u32 (x - y).
Proof. apply Zminus_mod_idemp_r. Qed.
Lemma u32_sub_l x y : u32 (u32 x - y) = u32 (x - y).
Proof. apply Zminus_mod_idemp_l. Qed.

(** [elapsed] returns the cycles since the counter was cleared, at its last reading of it. *)
Lemma wp_elapsed `{SysClock} s n lag a b c d rest (Q : Z -> clock -> Prop) :
  Tracks s n lag -> Timely s a b c d rest ->
  (forall s' x, let z := n + Z.of_nat (a + b + c) in
     Tracks s' (z + x) lag -> later s s' -> cycles (hw s') = cycles (hw s) + Z.of_nat (a + b + c) + x ->
     (x = 0 /\ pace s' = d :: rest \/ x = Z.of_nat d /\ pace s' = rest /\ COUNTFLAG (hw s') = false) -> Q (u32 z) s') ->
  wp elapsed Q s.
Proof.
  intros T [Ep Hs Hf Hw] HQ. destruct T as [Hp Ho Hseen Hc]. set (P := lastload_cycle s) in *. cbv zeta in HQ.
  destruct (run_phase a _ _ _ Hp) as (Ha & Ca & Fa). destruct (run_phase b _ _ _ Ha) as (Hb & Cb & Fb).
  destruct (run_phase c _ _ _ (phase_unflag _ _ _ Hb)) as (Hcc & Cc & Fc). destruct (run_phase d _ _ _ Hcc) as (Hd & Cd & Fd).
  unfold elapsed. apply wp_bind. eapply wp_read_VAL; [exact Ep|]. apply wp_bind. eapply wp_read_CTRL; [done|]. apply wp_bind. eapply wp_read_VAL; [done|].
  cbn [adv unflag set_hw hw]. rewrite flag_bit by apply Hb. rewrite (ph_val _ _ _ Ha), (ph_val _ _ _ Hcc). pose proof (ph_period _ _ _ Hp) as HP. pose proof (ph_pos _ _ _ Hp) as Hn.
  set (x := n + Z.of_nat a) in *. set (y := x + Z.of_nat b) in *. set (z := y + Z.of_nat c) in *. set (w := z + Z.of_nat d) in *.
  assert (Fb' : COUNTFLAG (run b (run a (hw s))) = COUNTFLAG (hw s) || (n / P <? y / P)).
  { rewrite Fb, Fa, <-orb_assoc. f_equal. pose proof (Z.div_le_mono n x P ltac:(lia) ltac:(lia)). pose proof (Z.div_le_mono x y P ltac:(lia) ltac:(lia)). lia. }
  assert (Ez : n + Z.of_nat (a + b + c) = z) by lia. assert (Ew : n + Z.of_nat (a + b + c + d) = w) by lia. rewrite Ez in HQ.
  assert (Hw' : w / P <= n / P + (if COUNTFLAG (hw s) then 0 else 1)). { rewrite <-Ew, wraps_to_come, <-(ph_val _ _ _ Hp) by lia. lia. }
  pose proof (wrap_seen P n (COUNTFLAG (hw s)) x y z w ltac:(lia) Hn ltac:(lia) ltac:(lia) ltac:(lia) ltac:(lia) ltac:(lia) Hseen Hw') as W. rewrite Fb'.
  pose proof (Z.div_mod z P ltac:(lia)) as Dz. apply wp_bind. destruct (_ || _ || _).
  - destruct W as (Wz & Wq & Ww). apply wp_bind, wp_gets, wp_bind, wp_gets, wp_bind, wp_modify, wp_bind. eapply wp_read_CTRL; [done|]. apply wp_skip, wp_bind, wp_gets, wp_bind, wp_gets, wp_ret.
    cbn [unflag adv set_hw set_overflowed lastload_cycle overflowed_cycle hw]. fold P.
    assert (Eo : u32 (overflowed_cycle s + P) = u32 (P * (z / P))). { rewrite Ho, u32_add_l, Wq. f_equal. destruct (COUNTFLAG (hw s)); lia. }
    rewrite Eo, u32_add_r. replace (P - value P z + P * (z / P)) with z by (unfold value; rewrite (proj2 (Z.eqb_neq _ _) Wz); lia).
    apply (HQ _ (Z.of_nat d)); [|done|cbn [hw cycles]; cbn in *; lia|by right]. split; cbn [hw lastload_cycle overflowed_cycle current_cycle COUNTFLAG cycles unflag adv set_hw set_overflowed]; fold P.
    + by apply phase_unflag.
    + fold w. by rewrite Ww, Z.sub_0_r.
    + done.
    + rewrite Hc. f_equal. cbn in *. lia.
  - destruct W as (Wf & Wy & Wz). wp_steps. cbn [unflag adv set_hw set_overflowed lastload_cycle overflowed_cycle hw]. fold P.
    rewrite Ho, Wf, Z.sub_0_r, u32_add_r. replace (P - value P z + P * (n / P)) with z.
    2: { unfold value. destruct Wz as [[Wq Wz]|[Wq Wz]]; [rewrite (proj2 (Z.eqb_neq _ _) Wz)|rewrite Wz; cbn [Z.eqb]]; lia. }
    apply (HQ _ 0); [|done|cbn [hw cycles]; cbn in *; lia|by left]. rewrite Z.add_0_r.
    assert (Fc' : COUNTFLAG (run c (mk_systick (LOAD (run b (run a (hw s)))) (VAL (run b (run a (hw s)))) (CTRL (run b (run a (hw s)))) false (cycles (run b (run a (hw s)))))) = (n / P <? z / P)).
    { rewrite Fc. cbn [COUNTFLAG orb]. fold z. by rewrite Wy. }
    split; cbn [hw lastload_cycle overflowed_cycle current_cycle COUNTFLAG cycles unflag adv set_hw set_overflowed]; fold P.
    + done.
    + rewrite Fc', Ho, Wf. f_equal. f_equal. destruct (Z.ltb_spec (n / P) (z / P)); lia.
    + rewrite Fc'. intros E%Z.ltb_lt. pose proof (Z.div_pos n P Hn ltac:(lia)). lia.
    + rewrite Hc. f_equal. cbn in *. lia.
Qed.

(** ** Operations *)

Section Operations.
Context `{SysClock}.

(** The counter accepts what the driver programs. *)
Class Settings : Prop := {
  cpt_pos : 2 <= CYC_PER_TICK;
  cpt_room : MIN_DELAY <= MAX_CYCLES;
}.

(** The cycles the kernel was told of. *)
Definition told (s : clock) : Z := CYC_PER_TICK * foldr Z.add 0 (announcements s).

(** The driver knows the time, and what it announced are whole ticks of it. *)
Record Clock (s : clock) (n lag : Z) : Prop := {
  ck_tracks : Tracks s n lag;
  ck_announced : announced_cycle s = u32 (told s);
  ck_told : told s <= cycles (hw s) - n - lag;
}.

Lemma told_snoc s l t : told (mk_clock (hw s) (lastload_cycle s) (current_cycle s) (announced_cycle s) (overflowed_cycle s) (l ++ [t]) (pace s)) = CYC_PER_TICK * foldr Z.add 0 l + CYC_PER_TICK * t.
Proof. unfold told. cbn. rewrite <-Z.mul_add_distr_l. f_equal. induction l as [|u l IH]; cbn; lia. Qed.

Lemma wp_cycle_get s n lag a b c d rest (Q : Z -> clock -> Prop) :
  Tracks s n lag -> Timely s a b c d rest ->
  (forall s' n', Tracks s' n' lag -> later s s' -> 0 <= cycles (hw s') - cycles (hw s) - Z.of_nat (a + b + c) -> Q (u32 (cycles (hw s) + Z.of_nat (a + b + c) - lag)) s') ->
  wp clock_cycle_get_32 Q s.
Proof.
  intros T Ti HQ. unfold clock_cycle_get_32. apply wp_bind. eapply wp_elapsed; [done..|]. intros s' x z T' L Ec Hx. wp_steps.
  rewrite (la_current _ _ L), (tr_current _ _ _ T), u32_add_l, u32_add_r. replace (z + _) with (cycles (hw s) + Z.of_nat (a + b + c) - lag) by (unfold z; lia).
  apply (HQ s' (z + x)); [done..|]. destruct Hx as [[-> _]|[-> _]]; lia.
Qed.

(** Moving whole periods from the counter to the count leaves the phase. *)
Lemma phase_shift h P n k : Phase h P n -> 0 <= n - P * k -> Phase h P (n - P * k).
Proof.
  intros [HP HL HV On Hb Hn] Hk. split; try done. rewrite HV. unfold value. replace (n - P * k) with (n + (- k) * P) by lia. by rewrite Z.mod_add by lia.
Qed.

Context `{!Settings}.

Lemma wp_isr s n lag a b c d rest (Q : unit -> clock -> Prop) :
  Clock s n lag -> Timely s a b c d rest -> cycles (hw s) + Z.of_nat (a + b + c + d) - lag - told s < 2 ^ 32 ->
  (forall s' n' t, Clock s' n' lag -> announcements s' = announcements s ++ [t] -> lastload_cycle s' = lastload_cycle s -> n' < lastload_cycle s + (if COUNTFLAG (hw s') then lastload_cycle s else 0) ->
     cycles (hw s') - n' - lag - told s' < CYC_PER_TICK -> Q tt s') ->
  wp clock_isr Q s.
Proof.
  intros [T Ea Ht] Ti Hmax HQ. unfold clock_isr. apply wp_bind. eapply wp_elapsed; [done..|]. intros s1 x z T1 L Ec Hx.
  wp_steps. cbn [set_current set_overflowed current_cycle announced_cycle overflowed_cycle].
  set (P := lastload_cycle s1). set (m := z + x). set (k := m / P - (if COUNTFLAG (hw s1) then 1 else 0)).
  pose proof (tr_phase _ _ _ T1) as Hp. fold P m in Hp. pose proof (ph_period _ _ _ Hp) as HP. pose proof (ph_pos _ _ _ Hp) as Hm.
  pose proof (Z.div_mod m P ltac:(lia)) as Dm. pose proof (Z.mod_pos_bound m P ltac:(lia)) as Bm. pose proof (Z.div_pos m P Hm ltac:(lia)) as Qm. assert (Hseen := tr_seen _ _ _ T1). fold P m in Hseen.
  assert (Hk : 0 <= k) by (unfold k; destruct (COUNTFLAG (hw s1)); [specialize (Hseen eq_refl)|]; lia).
  assert (Hkm : 0 <= m - P * k) by (unfold k; destruct (COUNTFLAG (hw s1)); lia).
  set (base := cycles (hw s1) - (m - P * k) - lag).
  assert (Eb : u32 (current_cycle s1 + overflowed_cycle s1) = u32 base).
  { rewrite (tr_current _ _ _ T1), (tr_over _ _ _ T1). fold P m k. rewrite u32_add_l, u32_add_r. f_equal. unfold base. lia. }
  rewrite Eb, (la_announced _ _ L), Ea, u32_sub_l, u32_sub_r.
  assert (Hb : 0 <= base - told s < 2 ^ 32). { unfold base. assert (x <= Z.of_nat d) by (destruct Hx as [[-> _]|[-> _]]; lia). unfold z, m in *. nia. }
  rewrite (u32_small (base - told s)) by done. set (dt := (base - told s) / CYC_PER_TICK). pose proof cpt_pos as Hcpt.
  pose proof (Z.div_mod (base - told s) CYC_PER_TICK ltac:(lia)) as Dd. pose proof (Z.mod_pos_bound (base - told s) CYC_PER_TICK ltac:(lia)) as Bd. fold dt in Dd.
  unfold update_timelist. apply wp_modify. cbn [set_current set_overflowed set_announced hw lastload_cycle current_cycle announced_cycle overflowed_cycle announcements pace].
  match goal with |- Q tt ?s' => set (s2 := s') end.
  assert (Et : told s2 = told s + CYC_PER_TICK * dt).
  { unfold s2. etransitivity; [apply (told_snoc s2)|]. unfold told. by rewrite (la_log _ _ L). }
  apply (HQ s2 (m - P * k) dt).
  - split; [split|..].
    + by apply phase_shift.
    + cbn. fold P. rewrite u32_small by lia. change (overflowed_cycle s2) with 0. replace (m - P * k) with (m + (- k) * P) by lia. rewrite Z.div_add by lia. unfold k. replace (P * _) with 0 by lia. done.
    + change (COUNTFLAG (hw s2)) with (COUNTFLAG (hw s1)). change (lastload_cycle s2) with P. intros E. replace (m - P * k) with (m + (- k) * P) by lia. rewrite Z.div_add by lia. unfold k. rewrite E. lia.
    + done.
    + change (announced_cycle s2) with (u32 (u32 (told s) + dt * CYC_PER_TICK)). rewrite Et, u32_add_l. f_equal. lia.
    + rewrite Et. change (cycles (hw s2)) with (cycles (hw s1)). fold base. lia.
  - unfold s2. cbn. by rewrite (la_log _ _ L).
  - apply (la_load _ _ L).
  - change (COUNTFLAG (hw s2)) with (COUNTFLAG (hw s1)). rewrite <-(la_load _ _ L). fold P. unfold k. destruct (COUNTFLAG (hw s1)); lia.
  - rewrite Et. change (cycles (hw s2)) with (cycles (hw s1)). fold base. lia.
Qed.

Lemma run_cycles d : forall h, Z.testbit (CTRL h) 0 = true -> cycles (run d h) = cycles h + Z.of_nat d /\ CTRL (run d h) = CTRL h /\ LOAD (run d h) = LOAD h.
Proof.
  induction d as [|d IH]; intros h On; cbn [run]; [split; [lia|done]|]. destruct (IH (count h)) as (E1 & E2 & E3); unfold count in *; rewrite On in *; cbn in *; [done|].
  rewrite E1, E2, E3. cbn. split; [lia|done].
Qed.

(** Any number of cycles may pass before an access. *)
Lemma wp_pass_any s (Q : unit -> clock -> Prop) : (forall d p, Q tt (adv d p s)) -> wp pass Q s.
Proof.
  intros HQ. unfold pass. apply wp_modify. destruct (pace s) as [|d p] eqn:E; [|apply HQ]. specialize (HQ O []). by destruct s; cbn in *; subst.
Qed.

(** The delay for [t] whole ticks when [u] cycles are not announced yet. *)
Definition tick_delay (t u : Z) : Z := (t * CYC_PER_TICK + u + CYC_PER_TICK - 1) / CYC_PER_TICK * CYC_PER_TICK - u.

Lemma tick_delay_range t u : t * CYC_PER_TICK <= tick_delay t u < (t + 1) * CYC_PER_TICK /\ (u + tick_delay t u) mod CYC_PER_TICK = 0.
Proof.
  pose proof cpt_pos as Hc. unfold tick_delay. generalize CYC_PER_TICK, Hc. intros P HP. pose proof (Z.div_mod (t * P + u + P - 1) P ltac:(lia)). pose proof (Z.mod_pos_bound (t * P + u + P - 1) P ltac:(lia)).
  set (v := t * P + u + P - 1) in *. split; [lia|]. replace (u + _) with (v / P * P) by lia. apply Z.mod_mul. lia.
Qed.

Lemma settings_range : 0 <= MAX_TICKS /\ CYC_PER_TICK < 2 ^ 24 /\ MAX_CYCLES < MAX_COUNTS.
Proof.
  pose proof cpt_pos as Hc. pose proof cpt_room as Hr. assert (Hm : 1024 <= MIN_DELAY) by (unfold MIN_DELAY; lia). unfold MAX_CYCLES, MAX_TICKS, MAX_COUNTS in *.
  revert Hr Hc. generalize CYC_PER_TICK, MIN_DELAY, Hm. intros P D HD Hr HP. pose proof (Z.div_mod 16777215 P ltac:(lia)). pose proof (Z.mod_pos_bound 16777215 P ltac:(lia)).
  assert (0 < 16777215 / P - 1) by nia. split; [lia|]. split; [|nia]. destruct (Z.lt_ge_cases P (2 ^ 24)); [done|]. rewrite Z.div_small in * by lia. lia.
Qed.

(** What is programmed for a request of [ticks] with [u] cycles not announced. *)
Definition wanted (ticks : Z) : Z := Z.max (Z.min ((if ticks =? FOREVER then MAX_TICKS else ticks) - 1) MAX_TICKS) 0.
Definition programmed (ticks u : Z) : Z :=
  if u <? 2 ^ 31 then Z.min (Z.max (tick_delay (wanted ticks) u) MIN_DELAY) MAX_CYCLES else MIN_DELAY.

Lemma programmed_range ticks u : MIN_DELAY <= programmed ticks u <= MAX_CYCLES.
Proof. pose proof cpt_room. unfold programmed. case_match; lia. Qed.

Lemma wp_set_timeout ticks idle s n lag a b c d rest (Q : unit -> clock -> Prop) :
  CONFIG_TICKLESS_IDLE && idle && (ticks =? FOREVER) = false ->
  Clock s n lag -> Timely s a b c d rest ->
  let t := cycles (hw s) + Z.of_nat (a + b + c) - lag in
  t - told s < 2 ^ 32 ->
  (forall s' g, 0 <= g -> Clock s' 0 (lag + g) -> lastload_cycle s' = programmed ticks (t - told s) -> announcements s' = announcements s ->
     cycles (hw s') = t + lag + g -> Q tt s') ->
  wp (clock_set_timeout ticks idle) Q s.
Proof.
  intros Hi [T Ea Ht] Ti t Hmax HQ. unfold clock_set_timeout. rewrite Hi. cbv zeta. fold (wanted ticks). apply wp_bind. eapply wp_elapsed; [done..|]. intros s1 x z T1 L Ec Hx.
  wp_steps. cbn [set_current set_overflowed current_cycle announced_cycle overflowed_cycle].
  pose proof cpt_pos as Hc. destruct settings_range as (Hmt & Hcpt & Hmc). assert (Hw : 0 <= wanted ticks <= MAX_TICKS) by (unfold wanted; lia).
  assert (Eu : u32 (u32 (current_cycle s1 + u32 z) - announced_cycle s1) = t - told s).
  { rewrite (la_current _ _ L), (la_announced _ _ L), (tr_current _ _ _ T), Ea, u32_add_r, u32_add_l, u32_sub_l, u32_sub_r. unfold t. rewrite u32_small; [unfold z; lia|]. unfold t, z in *. pose proof (ph_pos _ _ _ (tr_phase _ _ _ T)). lia. }
  rewrite Eu. set (u := t - told s) in *. assert (Hu : 0 <= u < 2 ^ 32) by (rewrite <-Eu; apply u32_range).
  assert (Hl : wp (if s32 u <? 0 then modify (set_lastload MIN_DELAY)
       else if Z.max (u32 (u32 (u32 (u32 (u32 (wanted ticks * CYC_PER_TICK) + u) + CYC_PER_TICK - 1) / CYC_PER_TICK * CYC_PER_TICK) - u)) MIN_DELAY >? MAX_CYCLES then modify (set_lastload MAX_CYCLES)
       else modify (set_lastload (Z.max (u32 (u32 (u32 (u32 (u32 (wanted ticks * CYC_PER_TICK) + u) + CYC_PER_TICK - 1) / CYC_PER_TICK * CYC_PER_TICK) - u)) MIN_DELAY)))
     (fun _ s' => s' = set_lastload (programmed ticks u) (set_overflowed 0 (set_current (current_cycle s1 + u32 z) s1))) (set_overflowed 0 (set_current (current_cycle s1 + u32 z) s1))).
  { assert (Hd : wanted ticks * CYC_PER_TICK <= MAX_CYCLES) by (unfold MAX_CYCLES; nia). unfold MAX_COUNTS in *. assert (H31 : s32 u <? 0 = negb (u <? 2 ^ 31)). { unfold s32. destruct (Z.ltb_spec u (2 ^ 31)); [rewrite Z.mod_small by lia; lia|]. replace (u + 2 ^ 31) with (u - 2 ^ 31 + 1 * 2 ^ 32) by lia. rewrite Z.mod_add, Z.mod_small by lia. lia. }
    rewrite H31. unfold programmed. destruct (Z.ltb_spec u (2 ^ 31)) as [Hlt|]; cbn [negb]; [|by apply wp_modify].
    destruct (tick_delay_range (wanted ticks) u) as [Hr _]. unfold tick_delay in *. rewrite (u32_small (wanted ticks * _)) by nia. rewrite (u32_small (_ + u)) by lia. rewrite (u32_small (_ - 1)) by lia.
    rewrite (u32_small (_ / _ * _)) by lia. rewrite (u32_small (_ - u)) by lia. rewrite Z.gtb_ltb. destruct (Z.ltb_spec MAX_CYCLES (Z.max (tick_delay (wanted ticks) u) MIN_DELAY)) as [Hg|Hg]; unfold tick_delay in Hg.
    - rewrite (proj2 (Z.ltb_lt _ _) Hg). apply wp_modify. by rewrite Z.min_r by lia.
    - rewrite (proj2 (Z.ltb_ge _ _) Hg). apply wp_modify. by rewrite Z.min_l by lia. }
  eapply wp_mono; [exact Hl|]. clear Hl. intros [] s2 ->. wp_steps. pose proof (programmed_range ticks u) as Hpr. cbn [lastload_cycle set_lastload].
  assert (1024 <= MIN_DELAY) by (unfold MIN_DELAY; lia). unfold MAX_COUNTS in *. rewrite (u32_small (programmed ticks u)), (u32_small (_ - 1)) by lia.
  unfold write_LOAD. apply wp_bind, wp_pass_any. intros d1 p1. apply wp_modify. unfold write_VAL. apply wp_bind, wp_pass_any. intros d2 p2. apply wp_modify.
  match goal with |- Q tt ?s' => set (s3 := s') end. pose proof (tr_phase _ _ _ T1) as Hp1.
  destruct (run_cycles d1 (hw s1) (ph_on _ _ _ Hp1)) as (C1 & O1 & L1).
  destruct (run_cycles d2 (mk_systick (Z.land (programmed ticks u - 1) MAX_COUNTS) (VAL (run d1 (hw s1))) (CTRL (run d1 (hw s1))) (COUNTFLAG (run d1 (hw s1))) (cycles (run d1 (hw s1))))) as (C2 & O2 & L2); [cbn; rewrite O1; apply Hp1|].
  cbn [cycles CTRL LOAD] in C2, O2, L2.
  assert (E3 : cycles (hw s3) = cycles (hw s1) + Z.of_nat d1 + Z.of_nat d2) by (etransitivity; [exact C2|lia]).
  assert (EP : lastload_cycle s3 = programmed ticks u) by (unfold s3; cbn -[u32]; apply u32_small; lia).
  apply (HQ s3 (x + Z.of_nat d1 + Z.of_nat d2)); [destruct Hx as [[-> _]|[-> _]]; lia| |done|apply (la_log _ _ L)|unfold t; lia].
  split; [split|..].
  - rewrite EP. split; [unfold MAX_COUNTS; lia| | | | |lia].
    + etransitivity; [exact L2|]. change MAX_COUNTS with (Z.ones 24). rewrite Z.land_ones by lia. apply Z.mod_small. lia.
    + unfold s3, value. cbn. by rewrite Z.mod_0_l by lia.
    + change (CTRL (hw s3)) with (CTRL (run d2 (mk_systick (Z.land (programmed ticks u - 1) MAX_COUNTS) (VAL (run d1 (hw s1))) (CTRL (run d1 (hw s1))) (COUNTFLAG (run d1 (hw s1))) (cycles (run d1 (hw s1)))))). rewrite O2, O1. apply Hp1.
    + change (CTRL (hw s3)) with (CTRL (run d2 (mk_systick (Z.land (programmed ticks u - 1) MAX_COUNTS) (VAL (run d1 (hw s1))) (CTRL (run d1 (hw s1))) (COUNTFLAG (run d1 (hw s1))) (cycles (run d1 (hw s1)))))). rewrite O2, O1. apply Hp1.
  - change (COUNTFLAG (hw s3)) with false. rewrite EP, Z.div_0_l by lia. rewrite Z.mul_0_r. done.
  - done.
  - change (current_cycle s3) with (u32 (current_cycle s1 + u32 z)). rewrite (la_current _ _ L), (tr_current _ _ _ T), u32_add_r, u32_add_l, E3, Ec. f_equal. unfold z. lia.
  - change (announced_cycle s3) with (announced_cycle s1). rewrite (la_announced _ _ L), Ea. unfold told. cbn. by rewrite (la_log _ _ L).
  - rewrite E3, Ec. change (told s3) with (told s1). assert (Et : told s1 = told s) by (unfold told; by rewrite (la_log _ _ L)). rewrite Et. unfold u, t in Hu. lia.
Qed.

End Operations.

(** ** Theorems *)

Definition with_pace (p : list nat) (s : clock) : clock :=
  mk_clock (hw s) (lastload_cycle s) (current_cycle s) (announced_cycle s) (overflowed_cycle s) (announcements s) p.

Lemma clock_with_pace `{SysClock} p s n lag : Clock s n lag -> Clock (with_pace p s) n lag.
Proof. intros [[] ]. by split; [split|..]. Qed.

(** The driver at work, with the cycles [lag] it has lost so far.  A step takes the pace of its
    register accesses, which must be timely, and comes before the cycles not announced
    overflow 32 bits. *)
Inductive cstep `{SysClock} : clock * Z -> clock * Z -> Prop :=
| step_isr s lag a b c d rest s' :
  let s0 := with_pace (a :: b :: c :: d :: rest) s in
  Timely s0 a b c d rest -> cycles (hw s) + Z.of_nat (a + b + c + d) - lag - told s < 2 ^ 32 ->
  clock_isr s0 = Done tt s' -> cstep (s, lag) (s', lag)
| step_set_timeout ticks idle s lag a b c d rest s' :
  let s0 := with_pace (a :: b :: c :: d :: rest) s in
  CONFIG_TICKLESS_IDLE && idle && (ticks =? FOREVER) = false ->
  Timely s0 a b c d rest -> cycles (hw s) + Z.of_nat (a + b + c + d) - lag - told s < 2 ^ 32 ->
  clock_set_timeout ticks idle s0 = Done tt s' ->
  cstep (s, lag) (s', lag + (cycles (hw s') - (cycles (hw s) + Z.of_nat (a + b + c))))
| step_cycle_get s lag a b c d rest t s' :
  let s0 := with_pace (a :: b :: c :: d :: rest) s in
  Timely s0 a b c d rest -> clock_cycle_get_32 s0 = Done t s' -> cstep (s, lag) (s', lag)
| step_elapsed s lag a b c d rest t s' :
  let s0 := with_pace (a :: b :: c :: d :: rest) s in
  Timely s0 a b c d rest -> clock_elapsed s0 = Done t s' -> cstep (s, lag) (s', lag)
| step_idle_exit s lag s' : clock_idle_exit s = Done tt s' -> cstep (s, lag) (s', lag).

Section Theorems.
Context `{SysClock, !Settings}.

(** A reading leaves the clock tracked. *)
Lemma wp_reading {A} (k : Z -> CM A) s n lag a b c d rest :
  (forall e s, exists r, k e s = Done r s) -> Clock s n lag -> Timely s a b c d rest -> wp (e ← elapsed; k e) (fun _ s' => exists n', Clock s' n' lag) s.
Proof.
  intros Hk [T Ea Ht] Ti. apply wp_bind. eapply wp_elapsed; [done..|]. intros s1 x z T1 L Ec Hx. destruct (Hk (u32 z) s1) as [r E]. unfold wp. rewrite E. exists (z + x).
  assert (Et : told s1 = told s) by (unfold told; by rewrite (la_log _ _ L)). split; [done|by rewrite (la_announced _ _ L), Et|]. rewrite Et, Ec. unfold z in *. lia.
Qed.

(** The counter of a tracked clock runs, so there is nothing to start. *)
Lemma idle_exit_running s n lag : Clock s n lag -> clock_idle_exit s = Done tt s.
Proof.
  intros [T _ _]. pose proof (ph_period _ _ _ (tr_phase _ _ _ T)) as HP. assert (Hne : lastload_cycle s =? CLOSING_COUNTS = false) by (apply Z.eqb_neq; unfold MAX_COUNTS, CLOSING_COUNTS in *; lia).
  apply run_done. unfold clock_idle_exit. apply wp_bind, wp_gets. rewrite Hne. by apply wp_skip.
Qed.

Lemma cstep_clock x y : cstep x y -> (exists n, Clock x.1 n x.2) -> (exists n, Clock y.1 n y.2) /\ x.2 <= y.2.
Proof.
  destruct 1 as [s lag a b c d rest s' s0 Ti Hm Er|ticks idle s lag a b c d rest s' s0 Hi Ti Hm Er|s lag a b c d rest t s' s0 Ti Er|s lag a b c d rest t s' s0 Ti Er|s lag s' Er]; cbn [fst snd]; intros [n Hc]; [apply (clock_with_pace (a :: b :: c :: d :: rest)) in Hc; fold s0 in Hc..|].
  - split; [|lia]. assert (W : wp clock_isr (fun _ s' => exists n', Clock s' n' lag) s0) by (eapply wp_isr; [done..|]; intros s1 n1 t C1 _ _ _ _; by exists n1).
    unfold wp in W. by rewrite Er in W.
  - assert (W : wp (clock_set_timeout ticks idle) (fun _ s' => Clock s' 0 (lag + (cycles (hw s') - (cycles (hw s) + Z.of_nat (a + b + c)))) /\ cycles (hw s) + Z.of_nat (a + b + c) <= cycles (hw s')) s0).
    { eapply wp_set_timeout; [done..|change (told s0) with (told s); change (hw s0) with (hw s); lia|]. intros s1 g Hg C1 _ _ E1. change (hw s0) with (hw s) in E1. split; [|lia].
      by replace (lag + (cycles (hw s1) - (cycles (hw s) + Z.of_nat (a + b + c)))) with (lag + g) by lia. }
    unfold wp in W. rewrite Er in W. destruct W as [W1 W2]. split; [by exists 0|lia].
  - split; [|lia]. assert (W := wp_reading (fun e => c ← gets current_cycle; mret (u32 (e + c))) s0 n lag a b c d rest ltac:(by eexists) Hc Ti). unfold wp in W. change (e ← elapsed; _) with clock_cycle_get_32 in W. by rewrite Er in W.
  - split; [|lia]. assert (W := wp_reading (fun e => c ← gets current_cycle; a ← gets announced_cycle; mret (u32 (e + c - a) / CYC_PER_TICK)) s0 n lag a b c d rest ltac:(by eexists) Hc Ti). unfold wp in W. change (e ← elapsed; _) with clock_elapsed in W. by rewrite Er in W.
  - rewrite (idle_exit_running _ _ _ Hc) in Er. injection Er as <-. split; [by exists n|lia].
Qed.

Lemma csteps_clock x y : rtc cstep x y -> (exists n, Clock x.1 n x.2) -> (exists n, Clock y.1 n y.2) /\ x.2 <= y.2.
Proof.
  induction 1 as [x|x y z S1 _ IH]; intros Hc; [split; [done|lia]|]. destruct (cstep_clock _ _ S1 Hc) as [H1 L1]. destruct (IH H1) as [H2 L2]. split; [done|lia].
Qed.

(** C33: While the counter runs: however interrupts, timeouts that do not stop it and readings
    follow each other, each serviced in time, and wherever their register accesses fall, from a
    state whose count is exact, the ticks announced to the kernel are never ahead of the cycles
    that passed, and the driver loses only cycles that pass while a timeout is programmed.  The
    first period after [clock_init] and the exit from a stop are not such states
    ([clock_init_loses_tick], [clock_idle_jumps]). *)
Theorem clock_never_ahead s lag s' lag' n :
  Clock s n lag -> rtc cstep (s, lag) (s', lag') -> (exists n', Clock s' n' lag') /\ lag <= lag' /\ told s' <= cycles (hw s') - lag'.
Proof.
  intros Hc S. destruct (csteps_clock _ _ S (ex_intro _ n Hc)) as [[n' C'] L]. split; [by exists n'|]. split; [exact L|]. pose proof (ck_told _ _ _ C'). pose proof (ph_pos _ _ _ (tr_phase _ _ _ (ck_tracks _ _ _ C'))). cbn in *. lia.
Qed.

(** C34: The cycle count is exact at the last reading of the counter, however the three accesses
    fall relative to a wrap, as long as each takes a cycle or more. *)
Theorem clock_cycle_exact s n lag a b c d rest :
  Tracks s n lag -> Timely s a b c d rest ->
  exists s' n', clock_cycle_get_32 s = Done (u32 (cycles (hw s) + Z.of_nat (a + b + c) - lag)) s' /\ Tracks s' n' lag.
Proof.
  intros T Ti. assert (W : wp clock_cycle_get_32 (fun r s' => r = u32 (cycles (hw s) + Z.of_nat (a + b + c) - lag) /\ exists n', Tracks s' n' lag) s).
  { eapply wp_cycle_get; [done..|]. intros s' n' T' _ _. split; [done|]. by exists n'. }
  apply wp_run in W as (r & s' & E & -> & n' & T'). by exists s', n'.
Qed.

(** The interrupt announces all whole ticks that are complete; less than a tick is left. *)
Theorem clock_isr_announces s n lag a b c d rest :
  Clock s n lag -> Timely s a b c d rest -> cycles (hw s) + Z.of_nat (a + b + c + d) - lag - told s < 2 ^ 32 ->
  exists s' n' t, clock_isr s = Done tt s' /\ Clock s' n' lag /\ announcements s' = announcements s ++ [t] /\
    n' < lastload_cycle s * (if COUNTFLAG (hw s') then 2 else 1) /\ cycles (hw s') - n' - lag - told s' < CYC_PER_TICK.
Proof.
  intros Hc Ti Hm. assert (W : wp clock_isr (fun _ s' => exists n' t, Clock s' n' lag /\ announcements s' = announcements s ++ [t] /\
    n' < lastload_cycle s * (if COUNTFLAG (hw s') then 2 else 1) /\ cycles (hw s') - n' - lag - told s' < CYC_PER_TICK) s).
  { eapply wp_isr; [done..|]. intros s' n' t C' Ea _ Hn Hr. exists n', t. split; [done|]. split; [done|]. split; [destruct (COUNTFLAG (hw s')); lia|done]. }
  apply wp_run in W as ([] & s' & E & n' & t & Hq). by exists s', n', t.
Qed.

(** A timeout is programmed within the counter's range, and unless it is cut to that range the
    interrupt comes on a tick, after the whole ticks asked for and before one more. *)
Theorem clock_timeout_programs ticks idle s n lag a b c d rest :
  CONFIG_TICKLESS_IDLE && idle && (ticks =? FOREVER) = false ->
  Clock s n lag -> Timely s a b c d rest ->
  let u := cycles (hw s) + Z.of_nat (a + b + c) - lag - told s in
  u < 2 ^ 32 ->
  exists s' lag', clock_set_timeout ticks idle s = Done tt s' /\ Clock s' 0 lag' /\ lag <= lag' /\
    MIN_DELAY <= lastload_cycle s' <= MAX_CYCLES /\ LOAD (hw s') = lastload_cycle s' - 1 /\ LOAD (hw s') < MAX_COUNTS /\
    (u < 2 ^ 31 -> MIN_DELAY < lastload_cycle s' < MAX_CYCLES ->
     (u + lastload_cycle s') mod CYC_PER_TICK = 0 /\ wanted ticks * CYC_PER_TICK <= lastload_cycle s' < (wanted ticks + 1) * CYC_PER_TICK).
Proof.
  intros Hi Hc Ti u Hm. assert (W : wp (clock_set_timeout ticks idle) (fun _ s' => exists lag', Clock s' 0 lag' /\ lag <= lag' /\ lastload_cycle s' = programmed ticks u) s).
  { eapply wp_set_timeout; [done..|]. intros s' g Hg C' El _ _. exists (lag + g). split; [done|]. split; [lia|done]. }
  apply wp_run in W as ([] & s' & E & lag' & C' & Hl & El). exists s', lag'. pose proof (programmed_range ticks u) as Hr. destruct settings_range as (_ & _ & Hmc).
  pose proof (ph_load _ _ _ (tr_phase _ _ _ (ck_tracks _ _ _ C'))) as HL. split; [done|]. split; [done|]. split; [done|]. split; [lia|]. split; [done|]. split; [lia|].
  intros Hu Hin. rewrite El in *. unfold programmed in *. rewrite (proj2 (Z.ltb_lt _ _) Hu) in *. destruct (tick_delay_range (wanted ticks) u) as [Hd Ha].
  replace (Z.min _ _) with (tick_delay (wanted ticks) u) in * by lia. done.
Qed.

End Theorems.

(** ** Two states in which the count is off *)

(** Accesses while no time passes. *)
Section Still.
Context (ld vl ct : Z) (fl : bool) (cy l cu an ov : Z) (ann : list Z).
Local Notation still h := (mk_clock h l cu an ov ann []).

Lemma wp_still_VAL (Q : Z -> clock -> Prop) : Q vl (still (mk_systick ld vl ct fl cy)) -> wp read_VAL Q (still (mk_systick ld vl ct fl cy)).
Proof. done. Qed.
Lemma wp_still_CTRL (Q : Z -> clock -> Prop) :
  Q (Z.lor ct (if fl then SysTick_CTRL_COUNTFLAG_Msk else 0)) (still (mk_systick ld vl ct false cy)) -> wp read_CTRL Q (still (mk_systick ld vl ct fl cy)).
Proof. done. Qed.
Lemma wp_still_set_LOAD v (Q : unit -> clock -> Prop) : Q tt (still (mk_systick (Z.land v MAX_COUNTS) vl ct fl cy)) -> wp (write_LOAD v) Q (still (mk_systick ld vl ct fl cy)).
Proof. done. Qed.
Lemma wp_still_set_VAL v (Q : unit -> clock -> Prop) : Q tt (still (mk_systick ld 0 ct false cy)) -> wp (write_VAL v) Q (still (mk_systick ld vl ct fl cy)).
Proof. done. Qed.
Lemma wp_still_set_CTRL v (Q : unit -> clock -> Prop) :
  Q tt (still (mk_systick ld vl (Z.land v (Z.lnot SysTick_CTRL_COUNTFLAG_Msk)) fl cy)) -> wp (write_CTRL v) Q (still (mk_systick ld vl ct fl cy)).
Proof. done. Qed.
End Still.

Ltac still :=
  repeat (first [wp_step | apply wp_still_VAL | apply wp_still_CTRL | apply wp_still_set_LOAD | apply wp_still_set_VAL | apply wp_still_set_CTRL];
          cbn beta; unfold set_lastload, set_overflowed, set_current, set_announced;
          cbn [hw lastload_cycle current_cycle announced_cycle overflowed_cycle announcements pace]).

Section Deviations.
Context `{SysClock}.

(** [clock_init] loads the counter with [CYC_PER_TICK - 1], a period of [CYC_PER_TICK], but
    counts [CYC_PER_TICK - 1] cycles for each wrap: the first interrupt, a whole tick later,
    announces no tick. *)
Theorem clock_init_loses_tick s a b c d :
  2 <= CYC_PER_TICK <= MAX_COUNTS + 1 -> CTRL (hw s) = 0 -> pace s = [] -> current_cycle s = announced_cycle s ->
  Z.of_nat (a + b + c + d) < CYC_PER_TICK ->
  exists s', (clock_init;; modify (adv (Z.to_nat CYC_PER_TICK) [a; b; c; d]);; clock_isr) s = Done tt s' /\
    announcements s' = announcements s ++ [0] /\ CYC_PER_TICK <= cycles (hw s') - cycles (hw s).
Proof.
  intros HP Hc Hp Hz Hd. set (P := CYC_PER_TICK) in *. unfold MAX_COUNTS in HP.
  cut (wp (clock_init;; modify (adv (Z.to_nat P) [a; b; c; d]);; clock_isr) (fun _ s' => announcements s' = announcements s ++ [0] /\ P <= cycles (hw s') - cycles (hw s)) s).
  { intros ([] & s' & E & Hq)%wp_run. by exists s'. }
  set (h0 := mk_systick (P - 1) 0 7 false (cycles (hw s))).
  assert (Wi : wp clock_init (fun _ s' => s' = mk_clock h0 (P - 1) (current_cycle s) (announced_cycle s) 0 (announcements s) []) s).
  { unfold h0. clear h0 Hz Hd. destruct s as [[ld vl ct fl cy] l cu an ov ann pc]. cbn in *. subst ct pc. unfold clock_init. fold P. still.
    rewrite (u32_small (P - 1)), (u32_small 0) by lia. do 2 f_equal. change MAX_COUNTS with (Z.ones 24). rewrite Z.land_ones by lia. apply Z.mod_small. lia. }
  eapply wp_seq; [exact Wi|]. intros _ s1 ->. apply wp_bind, wp_modify. unfold adv. cbn [hw lastload_cycle current_cycle announced_cycle overflowed_cycle announcements].
  assert (Ph0 : Phase h0 P 0) by (split; unfold h0, MAX_COUNTS; cbn; [lia|done|unfold value; by rewrite Z.mod_0_l by lia|done|done|lia]).
  destruct (run_phase (Z.to_nat P) _ _ _ Ph0) as (Ph1 & C1 & F1). set (h1 := run (Z.to_nat P) h0) in *. rewrite Z2Nat.id in * by lia. rewrite Z.add_0_l, Z.div_0_l, Z.div_same in F1 by lia.
  cbn [COUNTFLAG h0 orb Z.ltb Z.compare] in F1.
  destruct (run_phase a _ _ _ Ph1) as (Ph2 & C2 & F2). destruct (run_phase b _ _ _ Ph2) as (Ph3 & C3 & F3). rewrite F2, F1 in F3. cbn [orb] in F3.
  destruct (run_phase c _ _ _ (phase_unflag _ _ _ Ph3)) as (Ph4 & C4 & _). destruct (run_phase d _ _ _ Ph4) as (Ph5 & C5 & _).
  unfold clock_isr, elapsed. apply wp_bind, wp_bind. eapply wp_read_VAL; [done|]. apply wp_bind. eapply wp_read_CTRL; [done|]. apply wp_bind. eapply wp_read_VAL; [done|].
  cbn [adv unflag set_hw hw]. rewrite flag_bit by apply Ph3. rewrite F3. cbn [orb]. apply wp_bind, wp_bind, wp_gets, wp_bind, wp_gets, wp_bind, wp_modify, wp_bind. eapply wp_read_CTRL; [done|].
  wp_steps. unfold update_timelist. apply wp_modify. cbn -[u32 run CYC_PER_TICK cycles]. fold P. rewrite Hz.
  assert (Eo : u32 (u32 (announced_cycle s + u32 (P - 1)) - announced_cycle s) = P - 1). { rewrite u32_add_r, u32_sub_l. rewrite u32_small by lia. lia. }
  rewrite Z.add_0_l, Eo, Z.div_small by lia. split; [done|]. cbn [cycles] in *. unfold unflag, adv, set_hw, set_overflowed in *. cbn [hw cycles] in *. rewrite C5, C4, C3, C2, C1. cbn [cycles h0]. lia.
Qed.

(** After the idle thread has stopped the counter, [clock_idle_exit] starts it again but leaves
    the mark of the stop in [lastload_cycle], which the next reading takes for the period. *)
Theorem clock_idle_jumps s n lag :
  CONFIG_TICKLESS_IDLE = true -> Tracks s n lag -> COUNTFLAG (hw s) = false -> n mod lastload_cycle s <> 0 -> pace s = [] ->
  exists s1 s2, clock_cycle_get_32 s = Done (u32 (cycles (hw s) - lag)) s1 /\
    (clock_set_timeout FOREVER true;; clock_idle_exit;; clock_cycle_get_32) s = Done (u32 (cycles (hw s) - lag + (CLOSING_COUNTS - lastload_cycle s))) s2.
Proof.
  intros Hi T Hf Hn Hp. set (P := lastload_cycle s) in *. pose proof (tr_phase _ _ _ T) as Hph. fold P in Hph. pose proof (ph_period _ _ _ Hph) as HP.
  assert (Eo := tr_over _ _ _ T). rewrite Hf, Z.sub_0_r in Eo. fold P in Eo. assert (Ec := tr_current _ _ _ T). assert (Ev := ph_val _ _ _ Hph). unfold value in Ev. rewrite (proj2 (Z.eqb_neq _ _) Hn) in Ev.
  pose proof (Z.div_mod n P ltac:(lia)) as Dn.
  (* a reading while the period is taken to be [l] *)
  assert (Rd : forall l ct, pace s = [] -> Z.testbit ct 16 = false ->
    wp clock_cycle_get_32 (fun r _ => r = u32 (cycles (hw s) - lag + (l - P))) (mk_clock (mk_systick (LOAD (hw s)) (VAL (hw s)) ct false (cycles (hw s))) l (current_cycle s) (announced_cycle s) (overflowed_cycle s) (announcements s) [])).
  { intros l ct _ Hct. unfold clock_cycle_get_32, elapsed. still. pose proof (flag_bit ct false Hct) as Fb. cbv iota in Fb. rewrite Fb, Z.ltb_irrefl. cbn [orb]. still.
    rewrite Ec, Eo, Ev, (u32_add_r (l - _)), u32_add_l, u32_add_r. f_equal. lia. }
  assert (On := ph_on _ _ _ Hph). assert (Hb := ph_bits _ _ _ Hph).
  assert (W1 : wp clock_cycle_get_32 (fun r _ => r = u32 (cycles (hw s) - lag)) s).
  { specialize (Rd P (CTRL (hw s)) Hp Hb). rewrite Z.sub_diag, Z.add_0_r in Rd. destruct s as [[ld vl ct fl cy] l cu an ov log pc]. cbn in *. by subst. }
  assert (W2 : wp (clock_set_timeout FOREVER true;; clock_idle_exit;; clock_cycle_get_32) (fun r _ => r = u32 (cycles (hw s) - lag + (CLOSING_COUNTS - P))) s).
  { unfold clock_set_timeout. rewrite Hi. cbn [andb]. rewrite Z.eqb_refl. clear W1 T Hph Ev Eo Ec Dn. destruct s as [[ld vl ct fl cy] l cu an ov ann pc]. cbn [hw pace LOAD VAL CTRL COUNTFLAG cycles lastload_cycle current_cycle announced_cycle overflowed_cycle announcements] in *. fold P in Rd |- *. subst pc fl. still.
    unfold clock_idle_exit. still. change (u32 CLOSING_COUNTS =? CLOSING_COUNTS) with true. cbn [when]. still. apply Rd; [done|]. by rewrite Z.land_spec, andb_false_r. }
  apply wp_run in W1 as (r1 & s1 & E1 & ->). apply wp_run in W2 as (r2 & s2 & E2 & ->). by exists s1, s2.
Qed.

End Deviations.

(** ** Witnesses: 20 MHz and 10000 ticks per second *)

Definition demo_clock : SysClock := {| sys_clock_hw_cycles_per_sec := 20000000; SYS_CLOCK_TICKS_PER_SEC := 10000; CONFIG_TICKLESS_IDLE := true |}.

Lemma demo_settings : @Settings demo_clock.
Proof. split; by vm_compute. Qed.

(** 100 cycles into a period of two ticks. *)
Definition demo_start (p : list nat) : clock := mk_clock (mk_systick 3999 3900 7 false 100) 4000 0 0 0 [] p.

Lemma demo_start_ok p : @Clock demo_clock (demo_start p) 100 0.
Proof. split; [split; [split; by vm_compute|by vm_compute|done|by vm_compute]|by vm_compute|by vm_compute]. Qed.

(** A timeout of two ticks, and the interrupt it programs. *)
Definition demo_pace1 : list nat := [3; 2; 2; 1; 4; 2]%nat.
Definition demo_pace2 : list nat := [3900; 2; 2; 1]%nat.
Definition demo_mid : clock := match clock_set_timeout (H := demo_clock) 2 false (demo_start demo_pace1) with Done _ s => s | Fail _ => demo_start [] end.
Definition demo_end : clock := match clock_isr (H := demo_clock) (with_pace demo_pace2 demo_mid) with Done _ s => s | Fail _ => demo_start [] end.

Lemma demo_clock_run : rtc (@cstep demo_clock) (demo_start [], 0) (demo_end, 5).
Proof.
  eapply rtc_l; [apply (step_set_timeout 2 false (demo_start []) 0 3 2 2 1 [4; 2]%nat demo_mid)|eapply rtc_l; [|apply rtc_refl]]; [done|split; [done|lia|done|by vm_compute]|by vm_compute|by vm_compute|].
  match goal with |- cstep ?x _ => replace x with (demo_mid, 5) by by vm_compute end.
  apply (step_isr demo_mid 5 3900 2 2 1 [] demo_end); [split; [done|split; [apply Nat.leb_le; by vm_compute|lia]|by vm_compute|by vm_compute]|by vm_compute|by vm_compute].
Qed.

Lemma clock_never_ahead_witness : announcements demo_end = [2] /\ (exists n, @Clock demo_clock demo_end n 5) /\ 0 <= 5 /\ @told demo_clock demo_end <= cycles (hw demo_end) - 5.
Proof. split; [by vm_compute|]. exact (clock_never_ahead (H := demo_clock) (H0 := demo_settings) _ 0 _ 5 100 (demo_start_ok []) demo_clock_run). Defined.

Lemma clock_cycle_exact_witness : exists s' n', clock_cycle_get_32 (demo_start [3880; 12; 9; 4]%nat) = Done 4001 s' /\ Tracks s' n' 0.
Proof.
  assert (Ti : Timely (demo_start [3880; 12; 9; 4]%nat) 3880 12 9 4 []) by (split; [done|split_and!; apply Nat.leb_le; by vm_compute|by vm_compute|by vm_compute]).
  exact (clock_cycle_exact (H := demo_clock) _ _ _ _ _ _ _ _ (ck_tracks (H := demo_clock) _ _ _ (demo_start_ok _)) Ti).
Defined.

Lemma clock_isr_announces_witness :
  exists s' n' t, clock_isr (H := demo_clock) (demo_start [3900; 2; 2; 1]%nat) = Done tt s' /\ @Clock demo_clock s' n' 0 /\ announcements s' = [] ++ [t] /\
    n' < 4000 * (if COUNTFLAG (hw s') then 2 else 1) /\ cycles (hw s') - n' - 0 - @told demo_clock s' < @CYC_PER_TICK demo_clock.
Proof.
  assert (Ti : Timely (demo_start [3900; 2; 2; 1]%nat) 3900 2 2 1 []) by (split; [done|split_and!; apply Nat.leb_le; by vm_compute|by vm_compute|by vm_compute]).
  exact (clock_isr_announces (H := demo_clock) (H0 := demo_settings) _ _ _ _ _ _ _ _ (demo_start_ok _) Ti ltac:(by vm_compute)).
Defined.

Lemma clock_timeout_programs_witness :
  exists s' lag', clock_set_timeout (H := demo_clock) 2 false (demo_start demo_pace1) = Done tt s' /\ 0 <= lag' /\ LOAD (hw s') = lastload_cycle s' - 1.
Proof.
  assert (Ti : Timely (demo_start demo_pace1) 3 2 2 1 [4; 2]%nat) by (split; [done|split_and!; apply Nat.leb_le; by vm_compute|by vm_compute|by vm_compute]).
  destruct (clock_timeout_programs (H := demo_clock) (H0 := demo_settings) 2 false _ _ _ _ _ _ _ _ eq_refl (demo_start_ok _) Ti ltac:(by vm_compute)) as (s' & lag' & E & _ & Hl & _ & HL & _).
  exists s', lag'. by split.
Defined.

Lemma clock_init_loses_tick_witness :
  exists s', (clock_init (H := demo_clock);; modify (adv (Z.to_nat (@CYC_PER_TICK demo_clock)) [12; 2; 2; 3]%nat);; clock_isr (H := demo_clock)) (mk_clock (mk_systick 0 0 0 false 0) 0 0 0 0 [] []) = Done tt s' /\
    announcements s' = [] ++ [0] /\ @CYC_PER_TICK demo_clock <= cycles (hw s') - 0.
Proof. apply (clock_init_loses_tick (H := demo_clock) (mk_clock (mk_systick 0 0 0 false 0) 0 0 0 0 [] []) 12 2 2 3); by vm_compute. Defined.

Lemma clock_idle_jumps_witness :
  exists s1 s2, clock_cycle_get_32 (demo_start []) = Done 100 s1 /\
    (clock_set_timeout (H := demo_clock) FOREVER true;; clock_idle_exit;; clock_cycle_get_32) (demo_start []) = Done 4278186180 s2.
Proof.
  exact (clock_idle_jumps (H := demo_clock) (demo_start []) 100 0 eq_refl (ck_tracks (H := demo_clock) _ _ _ (demo_start_ok _)) eq_refl ltac:(by vm_compute) eq_refl).
Defined.
