(* ===== verification/Sporadic.v ===== *)
(** * Sporadic-server refill buffers

    Models [src/model/sporadic.c] and [inc/model/sporadic.h]: the circular buffer
    of budget replenishments inside a [struct thread_sched].  Every routine is a
    state transformer on one [thread_sched]; [current_time] is an argument.

    [Rep sc l] says that the ring buffer of [sc] holds the list [l], oldest refill
    first.  The [spec_*] functions describe each routine on that list, the
    [*_rep] lemmas show that the ring code implements them, and the theorems at
    the end of the file (budget conservation, ordering, termination) are proved
    on the lists and transported. *)

From Stdlib Require Import ZArith Lia Bool List.
From stdpp Require Import base tactics numbers list.
From S2P Require Import Prelude.

Local Open Scope Z_scope.

(** ** Constants of [default/default.h] and [kernel/time.h] *)

Definition KERNEL_WCET_SCALE : Z := 1.
Definition MIN_REFILLS : Z := 2.
Definition NUM_SCHED_REFILLS : Z := 8.
Definition get_kernel_wcet_ticks : Z := 10.
Definition get_timer_precision : Z := 0.
Definition get_max_ticks : Z := 2 ^ 64 - 1.
Definition MIN_BUDGET : Z := u64 (2 * get_kernel_wcet_ticks * KERNEL_WCET_SCALE).

Lemma MIN_BUDGET_eq : MIN_BUDGET = 20.
Proof. reflexivity. Qed.

(** ** Data *)

Record refill_t := mk_refill {
  refill_time : Z;
  refill_amount : Z;
}.

Record thread_sched := mk_sched {
  period : Z;
  consumed : Z;
  refill_max : Z;
  refill_head : Z;
  refill_tail : Z;
  refill_buffer : list refill_t;
}.

Definition set_period v sc := mk_sched v (consumed sc) (refill_max sc) (refill_head sc) (refill_tail sc) (refill_buffer sc).
Definition set_consumed v sc := mk_sched (period sc) v (refill_max sc) (refill_head sc) (refill_tail sc) (refill_buffer sc).
Definition set_refill_max v sc := mk_sched (period sc) (consumed sc) v (refill_head sc) (refill_tail sc) (refill_buffer sc).
Definition set_refill_head v sc := mk_sched (period sc) (consumed sc) (refill_max sc) v (refill_tail sc) (refill_buffer sc).
Definition set_refill_tail v sc := mk_sched (period sc) (consumed sc) (refill_max sc) (refill_head sc) v (refill_buffer sc).
Definition set_refill_buffer v sc := mk_sched (period sc) (consumed sc) (refill_max sc) (refill_head sc) (refill_tail sc) v.

Definition set_time v r := mk_refill v (refill_amount r).
Definition set_amount v r := mk_refill (refill_time r) v.

#[global] Instance refill_eq_dec : EqDecision refill_t.
Proof. solve_decision. Defined.

Notation SM := (ST thread_sched).
Notation get_sched := (get : ST thread_sched thread_sched) (only parsing).

(** ** Buffer accessors *)

Definition REFILL_INDEX (i : Z) : SM refill_t := fun sc =>
  match refill_buffer sc !! Z.to_nat i with
  | Some r => Done r sc
  | None => Fail Fault
  end.

Definition write_REFILL_INDEX (i : Z) (r : refill_t) : SM unit := fun sc =>
  match refill_buffer sc !! Z.to_nat i with
  | Some _ => Done tt (set_refill_buffer (<[Z.to_nat i := r]> (refill_buffer sc)) sc)
  | None => Fail Fault
  end.

Definition REFILL_HEAD : SM refill_t := h ← gets refill_head; REFILL_INDEX h.
Definition REFILL_TAIL : SM refill_t := t ← gets refill_tail; REFILL_INDEX t.
Definition write_REFILL_HEAD (r : refill_t) : SM unit := h ← gets refill_head; write_REFILL_INDEX h r.
Definition write_REFILL_TAIL (r : refill_t) : SM unit := t ← gets refill_tail; write_REFILL_INDEX t r.

(** ** Queries *)

Definition is_roundrobin (sc : thread_sched) : bool := period sc =? 0.

Definition refill_size (sc : thread_sched) : Z :=
  if refill_head sc <=? refill_tail sc
  then u32 (u32 (refill_tail sc - refill_head sc) + 1)
  else u32 (u32 (refill_tail sc + 1) + u32 (refill_max sc - refill_head sc)).

Definition refill_next (sc : thread_sched) (index : Z) : Z :=
  if index =? u32 (refill_max sc - 1) then 0 else u32 (index + 1).

Definition refill_full (sc : thread_sched) : bool := refill_size sc =? refill_max sc.

Definition refill_single (sc : thread_sched) : bool := refill_head sc =? refill_tail sc.

Definition refill_ready (current_time : Z) : SM bool :=
  h ← REFILL_HEAD; mret (refill_time h <=? u64 (current_time + get_kernel_wcet_ticks)).

Definition refill_capacity (usage : Z) : SM Z :=
  h ← REFILL_HEAD;
  mret (if refill_amount h <? usage then 0 else u64 (refill_amount h - usage)).

Definition refill_sufficient (usage : Z) : SM bool :=
  c ← refill_capacity usage; mret (MIN_BUDGET <=? c).

(** The two debugging walks over the buffer.  Their loops move an index from head
    to tail; [refill_max] steps are enough on a well-formed buffer. *)
Fixpoint refill_ordered_loop (fuel : nat) (current next : Z) : SM bool :=
  match fuel with
  | O => fail OutOfFuel
  | S fuel =>
    sc ← get_sched;
    if current =? refill_tail sc then mret true
    else
      rc ← REFILL_INDEX current;
      rn ← REFILL_INDEX next;
      if negb (refill_time rc <=? refill_time rn) then mret false
      else refill_ordered_loop fuel next (refill_next sc next)
  end.

Definition refill_ordered : SM bool :=
  sc ← get_sched;
  refill_ordered_loop (Z.to_nat (refill_max sc)) (refill_head sc)
    (refill_next sc (refill_head sc)).

Fixpoint refill_sum_loop (fuel : nat) (current sum : Z) : SM Z :=
  match fuel with
  | O => fail OutOfFuel
  | S fuel =>
    sc ← get_sched;
    if current =? refill_tail sc then mret sum
    else
      let current := refill_next sc current in
      r ← REFILL_INDEX current;
      refill_sum_loop fuel current (u64 (sum + refill_amount r))
  end.

Definition refill_sum : SM Z :=
  h ← REFILL_HEAD;
  sc ← get_sched;
  refill_sum_loop (Z.to_nat (refill_max sc)) (refill_head sc) (refill_amount h).

(** ** Updates *)

Section Ops.
Context `{Config}.

Definition refill_pop_head : SM refill_t :=
  sc ← get_sched;
  assert_ (negb (refill_single sc));;
  refill ← REFILL_HEAD;
  modify (fun sc => set_refill_head (refill_next sc (refill_head sc)) sc);;
  sc ← get_sched;
  assert_ (refill_head sc <? refill_max sc);;
  mret refill.

Definition refill_add_tail (refill : refill_t) : SM unit :=
  sc ← get_sched;
  assert_ (refill_size sc <? refill_max sc);;
  let new_tail := refill_next sc (refill_tail sc) in
  modify (set_refill_tail new_tail);;
  write_REFILL_TAIL refill;;
  assert_ (new_tail <? refill_max sc).

Definition maybe_add_empty_tail (current_time : Z) : SM unit :=
  sc ← get_sched;
  if is_roundrobin sc then
    refill_add_tail (mk_refill current_time 0);;
    sc ← get_sched;
    assert_ (refill_size sc =? MIN_REFILLS)
  else skip.

Definition refill_new (current_time max_refills budget period : Z) : SM unit :=
  modify (set_period period);;
  modify (set_refill_head 0);;
  modify (set_refill_tail 0);;
  modify (set_refill_max max_refills);;
  assert_ (MIN_BUDGET <? budget);;
  h ← REFILL_HEAD;
  write_REFILL_HEAD (set_amount budget h);;
  h ← REFILL_HEAD;
  write_REFILL_HEAD (set_time current_time h);;
  maybe_add_empty_tail current_time.

Definition refill_update (current_time new_period new_budget new_max_refills : Z) : SM unit :=
  sc ← get_sched;
  assert_ (0 <? refill_max sc);;
  h ← REFILL_HEAD;
  write_REFILL_INDEX 0 h;;
  modify (set_refill_head 0);;
  modify (fun sc => set_refill_tail (refill_head sc) sc);;
  modify (set_refill_max new_max_refills);;
  modify (set_period new_period);;
  ready ← refill_ready current_time;
  (if (ready : bool) then h ← REFILL_HEAD; write_REFILL_HEAD (set_time current_time h) else skip);;
  h ← REFILL_HEAD;
  if new_budget <=? refill_amount h then
    write_REFILL_HEAD (set_amount new_budget h);;
    maybe_add_empty_tail current_time
  else
    refill_add_tail (mk_refill (u64 (refill_time h + new_period))
                               (u64 (new_budget - refill_amount h))).

Definition schedule_used (new : refill_t) : SM unit :=
  sc ← get_sched;
  if (refill_amount new <? MIN_BUDGET) && negb (refill_single sc) then
    t ← REFILL_TAIL;
    write_REFILL_TAIL (set_amount (u64 (refill_amount t + refill_amount new)) t);;
    t ← REFILL_TAIL;
    write_REFILL_TAIL (set_time (Z.max (refill_time new) (refill_time t)) t)
  else
    t ← REFILL_TAIL;
    if refill_time new <=? refill_time t then
      write_REFILL_TAIL (set_amount (u64 (refill_amount t + refill_amount new)) t)
    else refill_add_tail new.

Definition refill_split_check (usage : Z) : SM unit :=
  assert_ (0 <? usage);;
  h ← REFILL_HEAD;
  assert_ (usage <=? refill_amount h);;
  sc ← get_sched;
  assert_ (0 <? period sc);;
  let remnant := u64 (refill_amount h - usage) in
  let new := mk_refill (u64 (refill_time h + period sc)) usage in
  if (refill_size sc =? refill_max sc) || (remnant <? MIN_BUDGET) then
    (if refill_single sc then
       write_REFILL_HEAD (set_amount (u64 (refill_amount new + remnant)) new)
     else
       refill_pop_head;;
       h ← REFILL_HEAD;
       write_REFILL_HEAD (set_amount (u64 (refill_amount h + remnant)) h);;
       schedule_used new);;
    ord ← (if CONFIG_ASSERT then refill_ordered else mret true);
    assert_ ord
  else
    assert_ (MIN_BUDGET <=? remnant);;
    write_REFILL_HEAD (set_amount remnant h);;
    schedule_used new.

(** [while (REFILL_HEAD.refill_amount <= usage)]: exhaust and reschedule whole
    refills; returns what is left of [usage]. *)
Fixpoint budget_exhaust_loop (fuel : nat) (usage : Z) : SM Z :=
  match fuel with
  | O => fail OutOfFuel
  | S fuel =>
    h ← REFILL_HEAD;
    if refill_amount h <=? usage then
      let usage := u64 (usage - refill_amount h) in
      sc ← get_sched;
      (if refill_single sc then
         write_REFILL_HEAD (set_time (u64 (refill_time h + period sc)) h)
       else
         old_head ← refill_pop_head;
         let old_head := set_time (u64 (refill_time old_head + period sc)) old_head in
         schedule_used old_head);;
      budget_exhaust_loop fuel usage
    else mret usage
  end.

(** [while (REFILL_HEAD.refill_amount < MIN_BUDGET || refill_full(sched))]. *)
Fixpoint budget_merge_loop (fuel : nat) : SM unit :=
  match fuel with
  | O => fail OutOfFuel
  | S fuel =>
    h ← REFILL_HEAD;
    sc ← get_sched;
    if (refill_amount h <? MIN_BUDGET) || refill_full sc then
      refill ← refill_pop_head;
      h ← REFILL_HEAD;
      write_REFILL_HEAD (set_amount (u64 (refill_amount h + refill_amount refill)) h);;
      budget_merge_loop fuel
    else skip
  end.

(** Loop bounds: every exhausting step uses up at least one tick or drops a
    leading empty refill, and every merging step shortens the buffer. *)
Definition exhaust_fuel (usage : Z) : nat := Z.to_nat (9 * usage + 10).
Definition merge_fuel : nat := 9.

(** [if (usage > 0) {...}]: an overrun delays the head and merges it with the next
    refill when the two overlap. *)
Definition budget_overrun (usage : Z) : SM unit :=
  if 0 <? usage then
    h ← REFILL_HEAD;
    write_REFILL_HEAD (set_time (u64 (refill_time h + usage)) h);;
    sc ← get_sched;
    if refill_single sc then skip
    else
      h ← REFILL_HEAD;
      n ← REFILL_INDEX (refill_next sc (refill_head sc));
      if refill_time n <=? u64 (refill_time h + refill_amount h) then
        refill ← refill_pop_head;
        h ← REFILL_HEAD;
        write_REFILL_HEAD (set_amount (u64 (refill_amount h + refill_amount refill)) h);;
        h ← REFILL_HEAD;
        write_REFILL_HEAD (set_time (refill_time refill) h)
      else skip
  else skip.

(** [capacity = refill_capacity(sched, usage); if (capacity > 0 && refill_ready(sched)) ...]. *)
Definition budget_charge_rest (current_time usage : Z) : SM unit :=
  capacity ← refill_capacity usage;
  if 0 <? capacity then
    ready ← refill_ready current_time;
    if (ready : bool) then
      assert_ (capacity <? MIN_BUDGET);;
      refill_split_check usage
    else skip
  else skip.

Definition refill_budget_check (current_time usage capacity : Z) : SM unit :=
  sc ← get_sched;
  assert_ ((capacity <? MIN_BUDGET) || refill_full sc);;
  assert_ (0 <? period sc);;
  usage ← (if capacity =? 0 then
             usage ← budget_exhaust_loop (exhaust_fuel usage) usage;
             budget_overrun usage;;
             mret usage
           else mret usage);
  budget_charge_rest current_time usage;;
  budget_merge_loop merge_fuel.

(** [while (!refill_single(sched))] of [refill_noblock_check]. *)
Fixpoint noblock_merge_loop (fuel : nat) (current_time : Z) : SM unit :=
  match fuel with
  | O => fail OutOfFuel
  | S fuel =>
    sc ← get_sched;
    if refill_single sc then skip
    else
      h ← REFILL_HEAD;
      let amount := refill_amount h in
      n ← REFILL_INDEX (refill_next sc (refill_head sc));
      if refill_time n <=? u64 (current_time + amount) then
        refill_pop_head;;
        h ← REFILL_HEAD;
        write_REFILL_HEAD (set_amount (u64 (refill_amount h + amount)) h);;
        h ← REFILL_HEAD;
        write_REFILL_HEAD (set_time current_time h);;
        noblock_merge_loop fuel current_time
      else skip
  end.

Definition refill_noblock_check (current_time : Z) : SM unit :=
  sc ← get_sched;
  if is_roundrobin sc then skip
  else
    ready ← refill_ready current_time;
    if (ready : bool) then
      h ← REFILL_HEAD;
      write_REFILL_HEAD (set_time current_time h);;
      noblock_merge_loop merge_fuel current_time;;
      suff ← refill_sufficient 0;
      assert_ suff
    else skip.

End Ops.

(** ** The list a ring buffer holds *)

(** Slot reached from [i] without passing the end of the ring more than once. *)
Definition ring (m i : Z) : Z := if i <? m then i else i - m.

Record Rep (sc : thread_sched) (l : list refill_t) : Prop := {
  rep_len : Z.of_nat (length (refill_buffer sc)) = NUM_SCHED_REFILLS;
  rep_max : 1 <= refill_max sc <= NUM_SCHED_REFILLS;
  rep_head : 0 <= refill_head sc < refill_max sc;
  rep_size : 1 <= Z.of_nat (length l) <= refill_max sc;
  rep_tail : refill_tail sc = ring (refill_max sc) (refill_head sc + Z.of_nat (length l) - 1);
  rep_at : forall k r, l !! k = Some r ->
    refill_buffer sc !! Z.to_nat (ring (refill_max sc) (refill_head sc + Z.of_nat k)) = Some r;
}.

Ltac unring := unfold ring, NUM_SCHED_REFILLS in *;
  repeat match goal with
  | |- context [(?a <? ?b)%Z] => destruct (Z.ltb_spec a b)
  | H : context [(?a <? ?b)%Z] |- _ => destruct (Z.ltb_spec a b)
  end.

Section RepLemmas.
Context (sc : thread_sched).

Lemma rep_next l i : Rep sc l -> 0 <= i < refill_max sc ->
  refill_next sc i = ring (refill_max sc) (i + 1).
Proof.
  intros R Hi. pose proof (rep_max _ _ R). unfold refill_next, NUM_SCHED_REFILLS in *.
  rewrite (u32_small (refill_max sc - 1)), (u32_small (i + 1)) by lia.
  unring; destruct (Z.eqb_spec i (refill_max sc - 1)); lia.
Qed.

Lemma rep_refill_size l : Rep sc l -> refill_size sc = Z.of_nat (length l).
Proof.
  intros [? ? ? ? Ht Ha]. clear Ha. unfold refill_size. rewrite Ht.
  unring; zcases; word_lia.
Qed.

Lemma rep_single l : Rep sc l -> refill_single sc = (Z.of_nat (length l) =? 1).
Proof.
  intros [? ? ? ? Ht Ha]. clear Ha. unfold refill_single. rewrite Ht. unring; zcases; lia.
Qed.

Lemma rep_full l : Rep sc l -> refill_full sc = (Z.of_nat (length l) =? refill_max sc).
Proof. intros R. unfold refill_full. by rewrite (rep_refill_size _ R). Qed.

Lemma rep_slot_lt l (k : nat) : Rep sc l -> Z.of_nat k < refill_max sc ->
  is_Some (refill_buffer sc !! Z.to_nat (ring (refill_max sc) (refill_head sc + Z.of_nat k))).
Proof.
  intros [? ? ? ? Ht Ha] Hk. clear Ha. apply lookup_lt_is_Some. unring; lia.
Qed.

(** The refill [k] steps behind the head. *)
Lemma rep_walk l (k : nat) : Rep sc l -> Z.of_nat k < refill_max sc ->
  Nat.iter k (refill_next sc) (refill_head sc) = ring (refill_max sc) (refill_head sc + Z.of_nat k).
Proof.
  intros R. pose proof (rep_head _ _ R). induction k as [|k IH]; intros Hk; cbn [Nat.iter nat_rect]; [unring; lia|].
  change (nat_rect _ _ _ k) with (Nat.iter k (refill_next sc) (refill_head sc)). rewrite IH, (rep_next l) by (try done; unring; lia). unring; lia.
Qed.
End RepLemmas.

(** Distinct positions of the list live in distinct slots. *)
Lemma ring_inj m h (j k : nat) :
  0 <= h < m -> Z.of_nat j < m -> Z.of_nat k < m ->
  Z.to_nat (ring m (h + Z.of_nat j)) = Z.to_nat (ring m (h + Z.of_nat k)) -> j = k.
Proof. intros. unring; lia. Qed.

(** Overwriting position [k] of the list is overwriting its slot. *)
Lemma rep_write sc l (k : nat) r : Rep sc l -> (k < length l)%nat ->
  Rep (set_refill_buffer
        (<[Z.to_nat (ring (refill_max sc) (refill_head sc + Z.of_nat k)) := r]>
          (refill_buffer sc)) sc) (<[k := r]> l).
Proof.
  intros R Hk. pose proof R as [Hl Hm Hh Hs Ht Ha]. split; cbn; rewrite ?length_insert; try done.
  intros j r' Hj. destruct (decide (k = j)) as [->|Hne].
  - rewrite list_lookup_insert_eq in Hj by done. simplify_eq.
    apply list_lookup_insert_eq. apply lookup_lt_is_Some, (rep_slot_lt _ l); [done|lia].
  - rewrite list_lookup_insert_ne in Hj by done.
    pose proof (lookup_lt_Some _ _ _ Hj).
    rewrite list_lookup_insert_ne; [by apply Ha|]. intros E.
    apply ring_inj in E; lia.
Qed.

Lemma rep_head_at sc r l : Rep sc (r :: l) -> refill_buffer sc !! Z.to_nat (refill_head sc) = Some r.
Proof.
  intros R. pose proof (rep_at _ _ R 0 r eq_refl) as E. pose proof (rep_head _ _ R).
  replace (ring (refill_max sc) (refill_head sc + Z.of_nat 0)) with (refill_head sc) in E;
    [done|]. unring; lia.
Qed.

Lemma rep_tail_at sc r l : Rep sc (l ++ [r]) -> refill_buffer sc !! Z.to_nat (refill_tail sc) = Some r.
Proof.
  intros R. rewrite (rep_tail _ _ R), length_app. cbn.
  rewrite <- (rep_at _ _ R (length l) r).
  - do 3 f_equal. lia.
  - by rewrite list_lookup_middle.
Qed.

Lemma rep_write_head sc r l r' : Rep sc (r :: l) ->
  Rep (set_refill_buffer (<[Z.to_nat (refill_head sc) := r']> (refill_buffer sc)) sc) (r' :: l).
Proof.
  intros R. pose proof (rep_write _ _ 0 r' R ltac:(cbn; lia)) as W.
  change (<[0%nat := r']> (r :: l)) with (r' :: l) in W. pose proof (rep_head _ _ R).
  replace (ring (refill_max sc) (refill_head sc + Z.of_nat 0)) with (refill_head sc) in W; [done|].
  unring; lia.
Qed.

Lemma rep_write_tail sc r l r' : Rep sc (l ++ [r]) ->
  Rep (set_refill_buffer (<[Z.to_nat (refill_tail sc) := r']> (refill_buffer sc)) sc) (l ++ [r']).
Proof.
  intros R. pose proof (rep_write _ _ (length l) r' R ltac:(rewrite length_app; cbn; lia)) as W.
  rewrite insert_app_r_alt, Nat.sub_diag in W by lia.
  change (<[0%nat := r']> [r]) with [r'] in W.
  rewrite (rep_tail _ _ R), length_app. cbn [length].
  by replace (refill_head sc + Z.of_nat (length l + 1) - 1)
    with (refill_head sc + Z.of_nat (length l)) by lia.
Qed.

Lemma rep_drop_head sc r1 r2 l : Rep sc (r1 :: r2 :: l) ->
  Rep (set_refill_head (ring (refill_max sc) (refill_head sc + 1)) sc) (r2 :: l).
Proof.
  intros [Hl Hm Hh Hs Ht Ha]. cbn [length] in *. split; cbn; try done; try lia.
  - unring; lia.
  - rewrite Ht. unring; lia.
  - intros k r Hk. rewrite <- (Ha (S k) r Hk). do 2 f_equal.
    pose proof (lookup_lt_Some _ _ _ Hk) as Hlt. cbn in Hlt. unring; lia.
Qed.

Lemma rep_grow sc l r : Rep sc l -> Z.of_nat (length l) < refill_max sc ->
  let t := ring (refill_max sc) (refill_tail sc + 1) in
  Rep (set_refill_buffer (<[Z.to_nat t := r]> (refill_buffer sc)) (set_refill_tail t sc)) (l ++ [r]).
Proof.
  intros R Hlt t. pose proof R as [Hl Hm Hh Hs Ht Ha].
  assert (Et : t = ring (refill_max sc) (refill_head sc + Z.of_nat (length l))).
  { unfold t. rewrite Ht. unring; lia. }
  split; cbn; rewrite ?length_insert, ?length_app; cbn; try done; try lia.
  - rewrite Et. f_equal. lia.
  - intros k r' Hk. pose proof (lookup_lt_Some _ _ _ Hk) as Hkl.
    rewrite length_app in Hkl. cbn in Hkl. rewrite Et.
    destruct (decide (k = length l)) as [->|Hne].
    + rewrite list_lookup_middle in Hk by done. simplify_eq.
      apply list_lookup_insert_eq. apply lookup_lt_is_Some, (rep_slot_lt _ l); [done|lia].
    + rewrite lookup_app_l in Hk by lia.
      rewrite list_lookup_insert_ne; [by apply Ha|]. intros E. apply ring_inj in E; lia.
Qed.

(** ** Triples for the buffer primitives *)

(** [Holds p m c l sc]: the buffer of [sc] holds [l]; the scalar fields are [p]
    (period), [m] (capacity) and [c] (consumed). *)
Definition Holds (p m c : Z) (l : list refill_t) (sc : thread_sched) : Prop :=
  Rep sc l /\ period sc = p /\ refill_max sc = m /\ consumed sc = c.

Section Triples.
Context `{Config} (p m c : Z).
Implicit Types (sc : thread_sched) (l : list refill_t) (r : refill_t).

Lemma wp_REFILL_HEAD r l (Q : refill_t -> thread_sched -> Prop) sc :
  Holds p m c (r :: l) sc -> Q r sc -> wp REFILL_HEAD Q sc.
Proof.
  intros [R _] HQ. unfold wp, REFILL_HEAD, mbind, ST_bind, gets, REFILL_INDEX.
  by rewrite (rep_head_at _ _ _ R).
Qed.

Lemma wp_REFILL_TAIL r l (Q : refill_t -> thread_sched -> Prop) sc :
  Holds p m c (l ++ [r]) sc -> Q r sc -> wp REFILL_TAIL Q sc.
Proof.
  intros [R _] HQ. unfold wp, REFILL_TAIL, mbind, ST_bind, gets, REFILL_INDEX.
  by rewrite (rep_tail_at _ _ _ R).
Qed.

Lemma wp_write_REFILL_HEAD r r' l (Q : unit -> thread_sched -> Prop) sc :
  Holds p m c (r :: l) sc ->
  (forall sc', Holds p m c (r' :: l) sc' -> Q tt sc') -> wp (write_REFILL_HEAD r') Q sc.
Proof.
  intros (R & ? & ? & ?) HQ.
  unfold wp, write_REFILL_HEAD, mbind, ST_bind, gets, write_REFILL_INDEX.
  rewrite (rep_head_at _ _ _ R). apply HQ. split; [by eapply rep_write_head|done].
Qed.

Lemma wp_write_REFILL_TAIL r r' l (Q : unit -> thread_sched -> Prop) sc :
  Holds p m c (l ++ [r]) sc ->
  (forall sc', Holds p m c (l ++ [r']) sc' -> Q tt sc') -> wp (write_REFILL_TAIL r') Q sc.
Proof.
  intros (R & ? & ? & ?) HQ.
  unfold wp, write_REFILL_TAIL, mbind, ST_bind, gets, write_REFILL_INDEX.
  rewrite (rep_tail_at _ _ _ R). apply HQ. split; [by eapply rep_write_tail|done].
Qed.

Lemma wp_REFILL_NEXT r1 r2 l (Q : refill_t -> thread_sched -> Prop) sc :
  Holds p m c (r1 :: r2 :: l) sc -> Q r2 sc ->
  wp (REFILL_INDEX (refill_next sc (refill_head sc))) Q sc.
Proof.
  intros [R _] HQ. unfold wp, REFILL_INDEX.
  rewrite (rep_next _ _ _ R) by apply R.
  pose proof (rep_at _ _ R 1 r2 eq_refl) as E. change (Z.of_nat 1) with 1 in E. by rewrite E.
Qed.

Lemma wp_refill_pop_head r1 r2 l (Q : refill_t -> thread_sched -> Prop) sc :
  Holds p m c (r1 :: r2 :: l) sc ->
  (forall sc', Holds p m c (r2 :: l) sc' -> Q r1 sc') -> wp refill_pop_head Q sc.
Proof.
  intros HH HQ. pose proof HH as (R & ? & ? & ?). unfold refill_pop_head.
  wp_steps. apply wp_assert.
  { rewrite (rep_single _ _ R). cbn [length]. zcases; [lia|done]. }
  wp_steps. eapply wp_REFILL_HEAD; [done|]. wp_steps.
  pose proof (rep_drop_head _ _ _ _ R) as R'. pose proof (rep_head _ _ R') as Hh.
  apply wp_assert.
  { apply Z.ltb_lt. cbn. rewrite (rep_next _ _ _ R) by apply R. apply Hh. }
  apply HQ. cbn. rewrite (rep_next _ _ _ R) by apply R. split; [done|]. cbn. auto.
Qed.

Lemma wp_refill_add_tail r l (Q : unit -> thread_sched -> Prop) sc :
  Holds p m c l sc -> Z.of_nat (length l) < m ->
  (forall sc', Holds p m c (l ++ [r]) sc' -> Q tt sc') -> wp (refill_add_tail r) Q sc.
Proof.
  intros HH Hlt HQ. pose proof HH as (R & ? & Hm & ?). unfold refill_add_tail.
  wp_steps. apply wp_assert.
  { rewrite (rep_refill_size _ _ R). apply Z.ltb_lt. lia. }
  assert (Ht : 0 <= refill_tail sc < refill_max sc).
  { rewrite (rep_tail _ _ R). destruct R. unring; lia. }
  pose proof (rep_grow _ _ r R ltac:(lia)) as R'.
  wp_steps. unfold wp at 1, write_REFILL_TAIL, mbind, ST_bind, gets, write_REFILL_INDEX.
  cbn [refill_tail set_refill_tail refill_buffer].
  rewrite (rep_next _ _ _ R) by done.
  destruct (refill_buffer sc !! _) eqn:E.
  - apply wp_assert.
    + apply Z.ltb_lt. destruct R. unring; lia.
    + apply HQ. split; [done|]. cbn. auto.
  - apply lookup_ge_None in E. destruct R. unring; lia.
Qed.
End Triples.

(** ** What the scheduling step does to the list *)

Fixpoint total (l : list refill_t) : Z :=
  match l with
  | [] => 0
  | r :: l => refill_amount r + total l
  end.

Fixpoint ordered (l : list refill_t) : Prop :=
  match l with
  | r1 :: ((r2 :: _) as l') => refill_time r1 <= refill_time r2 /\ ordered l'
  | _ => True
  end.

Definition refill_ok (r : refill_t) : Prop := 0 <= refill_time r < 2 ^ 64 /\ 0 <= refill_amount r.

(** Entries are in range and the whole budget fits a [ticks_t]. *)
Definition valid (l : list refill_t) : Prop := Forall refill_ok l /\ total l < 2 ^ 64.

Lemma total_app l1 l2 : total (l1 ++ l2) = total l1 + total l2.
Proof. induction l1; cbn; lia. Qed.

Lemma total_nonneg l : Forall refill_ok l -> 0 <= total l.
Proof. induction 1 as [|r l [? ?] ? IH]; cbn; lia. Qed.

Lemma ordered_snoc l t r : ordered (l ++ [t]) -> refill_time t <= refill_time r ->
  ordered (l ++ [t; r]).
Proof.
  induction l as [|a l IH]; cbn; [by intuition|].
  destruct l as [|b l]; cbn in *; intuition.
Qed.

Lemma ordered_raise_last l t r : ordered (l ++ [t]) -> refill_time t <= refill_time r ->
  ordered (l ++ [r]).
Proof.
  induction l as [|a l IH]; cbn; [done|].
  destruct l as [|b l]; cbn in *; intuition lia.
Qed.

Lemma ordered_tail r l : ordered (r :: l) -> ordered l.
Proof. destruct l; cbn; intuition. Qed.

Lemma ordered_lower_head r r' l : ordered (r :: l) -> refill_time r' <= refill_time r ->
  ordered (r' :: l).
Proof. destruct l; cbn; intuition lia. Qed.

(** [schedule_used] on the list [init ++ [t]]. *)
Definition spec_schedule_used (init : list refill_t) (t new : refill_t) : list refill_t :=
  let amount := u64 (refill_amount t + refill_amount new) in
  if (refill_amount new <? MIN_BUDGET) && (0 <? Z.of_nat (length init)) then
    init ++ [mk_refill (Z.max (refill_time new) (refill_time t)) amount]
  else if refill_time new <=? refill_time t then init ++ [set_amount amount t]
  else init ++ [t; new].

Lemma wp_schedule_used `{Config} p m c init t new (Q : unit -> thread_sched -> Prop) sc :
  Holds p m c (init ++ [t]) sc -> Z.of_nat (length (init ++ [t])) < m ->
  (forall sc', Holds p m c (spec_schedule_used init t new) sc' -> Q tt sc') ->
  wp (schedule_used new) Q sc.
Proof.
  intros HH Hlt HQ. unfold schedule_used. wp_steps.
  assert (Hs : negb (refill_single sc) = (0 <? Z.of_nat (length init))).
  { rewrite (rep_single _ _ (proj1 HH)), length_app. cbn [length].
    zcases; cbn; lia || done. }
  rewrite Hs. unfold spec_schedule_used in HQ.
  destruct ((refill_amount new <? MIN_BUDGET) && _).
  - wp_steps. eapply wp_REFILL_TAIL; [done|]. wp_steps.
    eapply wp_write_REFILL_TAIL; [done|]. intros sc1 H1. wp_steps.
    eapply wp_REFILL_TAIL; [done|]. by eapply wp_write_REFILL_TAIL.
  - wp_steps. eapply wp_REFILL_TAIL; [done|].
    destruct (refill_time new <=? refill_time t).
    + by eapply wp_write_REFILL_TAIL.
    + eapply wp_refill_add_tail; [done|done|]. by rewrite <- app_assoc.
Qed.

Lemma spec_schedule_used_length init t new :
  (length (init ++ [t]) <= length (spec_schedule_used init t new) <= S (length (init ++ [t])))%nat.
Proof.
  unfold spec_schedule_used. repeat case_match; rewrite !length_app; cbn; lia.
Qed.

(** Scheduling keeps every tick: the list gains exactly the amount scheduled. *)
Lemma spec_schedule_used_valid init t new :
  valid (init ++ [t]) -> refill_ok new -> total (init ++ [t]) + refill_amount new < 2 ^ 64 ->
  valid (spec_schedule_used init t new) /\
  total (spec_schedule_used init t new) = total (init ++ [t]) + refill_amount new.
Proof.
  intros [Hok Hsum] [Hnt Hna] Hlt. apply Forall_app in Hok as [Hi Ht].
  apply Forall_singleton in Ht as [Htt Hta].
  pose proof (total_nonneg _ Hi) as Hi0. rewrite total_app in *. cbn in *.
  assert (E : u64 (refill_amount t + refill_amount new) = refill_amount t + refill_amount new)
    by (apply u64_small; lia).
  unfold spec_schedule_used, valid. rewrite E.
  repeat case_match; rewrite total_app, Forall_app; cbn;
    (split; [split; [split; [done|]|lia]|lia]);
    repeat constructor; cbn; lia.
Qed.

Lemma spec_schedule_used_ordered init t new :
  ordered (init ++ [t]) -> ordered (spec_schedule_used init t new).
Proof.
  intros Ho. unfold spec_schedule_used. repeat case_match; zbool.
  - eapply ordered_raise_last; [done|]. cbn. lia.
  - eapply ordered_raise_last; [done|]. cbn. lia.
  - apply ordered_snoc; [done|]. lia.
Qed.

(** The same step on any non-empty list. *)
Definition spec_used (l : list refill_t) (new : refill_t) : list refill_t :=
  spec_schedule_used (removelast l) (List.last l new) new.

Lemma snoc_view (l : list refill_t) d : l <> [] -> l = removelast l ++ [List.last l d].
Proof. apply app_removelast_last. Qed.

(** Expose the last element of a non-empty list under [spec_used]. *)
Ltac expose_last l new :=
  let Hne := fresh in
  intros Hne; unfold spec_used;
  generalize (snoc_view l new Hne); clear Hne;
  generalize (removelast l) (List.last l new); intros ? ? ->.

Lemma wp_used `{Config} p m c l new (Q : unit -> thread_sched -> Prop) sc :
  l <> [] -> Holds p m c l sc -> Z.of_nat (length l) < m ->
  (forall sc', Holds p m c (spec_used l new) sc' -> Q tt sc') ->
  wp (schedule_used new) Q sc.
Proof. expose_last l new. apply wp_schedule_used. Qed.

Lemma spec_used_length l new : l <> [] ->
  (length l <= length (spec_used l new) <= S (length l))%nat.
Proof. expose_last l new. apply spec_schedule_used_length. Qed.

Lemma spec_used_valid l new : l <> [] ->
  valid l -> refill_ok new -> total l + refill_amount new < 2 ^ 64 ->
  valid (spec_used l new) /\ total (spec_used l new) = total l + refill_amount new.
Proof. expose_last l new. apply spec_schedule_used_valid. Qed.

Lemma spec_used_ordered l new : l <> [] -> ordered l -> ordered (spec_used l new).
Proof. expose_last l new. apply spec_schedule_used_ordered. Qed.

(** ** The debugging walks compute the order and the sum of the list *)

Lemma rep_position sc l k r rest : Rep sc l -> drop k l = r :: rest ->
  Z.of_nat (k + S (length rest)) = Z.of_nat (length l) /\
  refill_buffer sc !! Z.to_nat (ring (refill_max sc) (refill_head sc + Z.of_nat k)) = Some r /\
  (ring (refill_max sc) (refill_head sc + Z.of_nat k) =? refill_tail sc) =
    (Z.of_nat (length rest) =? 0).
Proof.
  intros R Hd. pose proof R as [? ? ? ? Ht Ha].
  assert (Hlk : l !! k = Some r) by (by rewrite <- (Nat.add_0_r k), <- lookup_drop, Hd).
  pose proof (f_equal length Hd) as Hlen. rewrite length_drop in Hlen. cbn in Hlen.
  pose proof (lookup_lt_Some _ _ _ Hlk).
  split; [lia|]. split; [by apply Ha|]. rewrite Ht. clear Ha. unring; zcases; lia.
Qed.

Lemma ring_next sc l k : Rep sc l -> Z.of_nat k < Z.of_nat (length l) ->
  refill_next sc (ring (refill_max sc) (refill_head sc + Z.of_nat k)) =
  ring (refill_max sc) (refill_head sc + Z.of_nat (S k)).
Proof.
  intros R Hk. destruct R as [? ? ? ? ? Ha] eqn:E. rewrite (rep_next _ l) by (done || unring; lia).
  clear Ha E. unring; lia.
Qed.

Lemma drop_next {A} (l : list A) k r rest : drop k l = r :: rest -> drop (S k) l = rest.
Proof. intros E. rewrite <- Nat.add_1_r, <- drop_drop, E. done. Qed.

Lemma wp_ordered_loop sc l fuel k r rest :
  Rep sc l -> drop k l = r :: rest -> (length rest < fuel)%nat ->
  wp (refill_ordered_loop fuel (ring (refill_max sc) (refill_head sc + Z.of_nat k))
       (refill_next sc (ring (refill_max sc) (refill_head sc + Z.of_nat k))))
     (fun b sc' => sc' = sc /\ (b = true <-> ordered (r :: rest))) sc.
Proof.
  intros R. revert k r rest. induction fuel as [|fuel IH]; intros k r rest Hd Hf; [lia|].
  destruct (rep_position _ _ _ _ _ R Hd) as (Hk & Hr & Ht). cbn [refill_ordered_loop].
  wp_steps. rewrite Ht. destruct rest as [|r2 rest]; [done|].
  destruct (Z.eqb_spec (Z.of_nat (length (r2 :: rest))) 0) as [E|_]; [cbn in E; lia|].
  pose proof (drop_next _ _ _ _ Hd) as Hd'.
  destruct (rep_position _ _ _ _ _ R Hd') as (_ & Hr2 & _).
  rewrite (ring_next _ l) by (done || lia).
  wp_steps. unfold wp at 1, REFILL_INDEX at 1. rewrite Hr.
  wp_steps. unfold wp at 1, REFILL_INDEX at 1. rewrite Hr2.
  destruct (Z.leb_spec (refill_time r) (refill_time r2)); cbn [negb].
  - eapply wp_mono; [apply IH; [done|cbn in *; lia]|]. cbn. intuition.
  - split; [done|]. cbn. intuition (discriminate || lia).
Qed.

Lemma wp_refill_ordered sc l : Rep sc l ->
  wp refill_ordered (fun b sc' => sc' = sc /\ (b = true <-> ordered l)) sc.
Proof.
  intros R. pose proof R as [? ? ? ? ? _]. destruct l as [|r l]; [cbn in *; lia|].
  pose proof (wp_ordered_loop sc (r :: l) (Z.to_nat (refill_max sc)) 0 r l R eq_refl) as W.
  replace (ring (refill_max sc) (refill_head sc + Z.of_nat 0)) with (refill_head sc) in W
    by (unring; lia).
  unfold refill_ordered. wp_steps. apply W. cbn in *. lia.
Qed.

Lemma wp_sum_loop sc l fuel k r rest acc :
  Rep sc l -> drop k l = r :: rest -> (length rest < fuel)%nat -> 0 <= acc < 2 ^ 64 ->
  wp (refill_sum_loop fuel (ring (refill_max sc) (refill_head sc + Z.of_nat k)) acc)
     (fun s sc' => sc' = sc /\ s = u64 (acc + total rest)) sc.
Proof.
  intros R. revert k r rest acc. induction fuel as [|fuel IH]; intros k r rest acc Hd Hf Hacc; [lia|].
  destruct (rep_position _ _ _ _ _ R Hd) as (Hk & _ & Ht). cbn [refill_sum_loop].
  wp_steps. rewrite Ht. destruct rest as [|r2 rest].
  { cbn. split; [done|]. rewrite Z.add_0_r. symmetry. by apply u64_small. }
  destruct (Z.eqb_spec (Z.of_nat (length (r2 :: rest))) 0) as [E|_]; [cbn in E; lia|].
  pose proof (drop_next _ _ _ _ Hd) as Hd'.
  destruct (rep_position _ _ _ _ _ R Hd') as (_ & Hr2 & _).
  rewrite (ring_next _ l) by (done || lia).
  wp_steps. unfold wp at 1, REFILL_INDEX at 1. rewrite Hr2.
  eapply wp_mono; [apply (IH _ _ _ _ Hd'); [cbn in *; lia|apply u64_range]|].
  intros s sc' [-> ->]. split; [done|]. cbn [total]. unfold u64.
  rewrite Zplus_mod_idemp_l. f_equal. lia.
Qed.

Lemma wp_refill_sum sc r l : Rep sc (r :: l) -> 0 <= refill_amount r < 2 ^ 64 ->
  wp refill_sum (fun s sc' => sc' = sc /\ s = u64 (total (r :: l))) sc.
Proof.
  intros R Hr. pose proof R as [? ? ? ? ? _].
  pose proof (wp_sum_loop sc (r :: l) (Z.to_nat (refill_max sc)) 0 r l (refill_amount r) R eq_refl) as W.
  replace (ring (refill_max sc) (refill_head sc + Z.of_nat 0)) with (refill_head sc) in W
    by (unring; lia).
  unfold refill_sum. wp_steps.
  eapply (wp_REFILL_HEAD (period sc) (refill_max sc) (consumed sc)); [by split|].
  wp_steps. apply W; [cbn in *; lia|done].
Qed.

(** ** Creating, updating and splitting *)

Definition spec_split (m p : Z) (h : refill_t) (rest : list refill_t) (usage : Z) : list refill_t :=
  let remnant := u64 (refill_amount h - usage) in
  let new := mk_refill (u64 (refill_time h + p)) usage in
  if (Z.of_nat (S (length rest)) =? m) || (remnant <? MIN_BUDGET) then
    match rest with
    | [] => [set_amount (u64 (usage + remnant)) new]
    | h2 :: rest' => spec_used (set_amount (u64 (refill_amount h2 + remnant)) h2 :: rest') new
    end
  else spec_used (set_amount remnant h :: rest) new.

(** In assertion builds the routine also demands a positive usage that fits the
    head, a positive period and an ordered result. *)
Lemma wp_refill_split_check `{Config} p m c h rest usage (Q : unit -> thread_sched -> Prop) sc :
  Holds p m c (h :: rest) sc ->
  (CONFIG_ASSERT = true ->
     0 < usage <= refill_amount h /\ 0 < p /\ ordered (spec_split m p h rest usage)) ->
  (forall sc', Holds p m c (spec_split m p h rest usage) sc' -> Q tt sc') ->
  wp (refill_split_check usage) Q sc.
Proof.
  intros HH HA HQ. pose proof HH as (R & Hp & Hm & Hc).
  pose proof (rep_size _ _ R) as Hsz. cbn [length] in Hsz. unfold refill_split_check.
  wp_steps. apply wp_assert_if; [intros E; apply Z.ltb_lt; destruct (HA E); lia|].
  wp_steps. eapply wp_REFILL_HEAD; [done|].
  wp_steps. apply wp_assert_if; [intros E; apply Z.leb_le; destruct (HA E); lia|].
  wp_steps. apply wp_assert_if; [intros E; apply Z.ltb_lt; destruct (HA E) as (?&?&?); lia|].
  rewrite (rep_refill_size _ _ R), Hp, Hm. cbn [length].
  assert (Hend : forall l sc', Holds p m c l sc' -> l = spec_split m p h rest usage ->
    wp (ord ← (if CONFIG_ASSERT then refill_ordered else mret true); assert_ ord) Q sc').
  { intros l sc' HH' ->. wp_steps. destruct CONFIG_ASSERT eqn:E.
    - eapply wp_mono; [apply wp_refill_ordered, HH'|]. intros b s [-> Hb].
      apply wp_assert; [|by apply HQ]. apply Hb. by destruct (HA eq_refl) as (_ & _ & ?).
    - wp_steps. apply wp_assert_off; [done|]. by apply HQ. }
  assert (Hsp : spec_split m p h rest usage = spec_split m p h rest usage) by done.
  unfold spec_split in Hsp at 2. destruct (_ || _) eqn:Eb.
  - wp_steps. rewrite (rep_single _ _ R). destruct rest as [|h2 rest].
    + eapply wp_write_REFILL_HEAD; [done|]. intros sc1 H1. by eapply Hend.
    + destruct (Z.eqb_spec (Z.of_nat (length (h :: h2 :: rest))) 1) as [E|_]; [cbn in E; lia|].
      wp_steps. eapply wp_refill_pop_head; [done|]. intros sc1 H1.
      wp_steps. eapply wp_REFILL_HEAD; [done|].
      wp_steps. eapply wp_write_REFILL_HEAD; [done|]. intros sc2 H2.
      eapply (wp_used _ _ _ (_ :: _)); [done|done|cbn [length] in *; lia|]. intros sc3 H3. by eapply Hend.
  - zbool. wp_steps. apply wp_assert; [apply Z.leb_le; lia|].
    wp_steps. eapply wp_write_REFILL_HEAD; [done|]. intros sc1 HH1.
    eapply (wp_used _ _ _ (_ :: _)); [done|done|cbn [length]; lia|]. intros sc2 H2. apply HQ. by rewrite Hsp.
Qed.

Lemma spec_split_valid m p h rest usage :
  valid (h :: rest) -> 0 <= usage <= refill_amount h ->
  valid (spec_split m p h rest usage) /\ total (spec_split m p h rest usage) = total (h :: rest).
Proof.
  intros [Hok Hlt] Hu. apply Forall_cons in Hok as [[Ht Ha] Hr].
  pose proof (total_nonneg _ Hr) as Hr0. cbn [total] in *.
  assert (Er : u64 (refill_amount h - usage) = refill_amount h - usage) by (apply u64_small; lia).
  assert (Hnew : refill_ok (mk_refill (u64 (refill_time h + p)) usage))
    by (split; cbn; [apply u64_range|lia]).
  unfold spec_split. rewrite Er. destruct (_ || _).
  - destruct rest as [|h2 rest].
    + rewrite u64_small by lia. cbn. split; [|lia].
      split; [|cbn; lia]. repeat constructor; cbn; apply u64_range || lia.
    + apply Forall_cons in Hr as [[Ht2 Ha2] Hr]. pose proof (total_nonneg _ Hr). cbn [total] in *.
      rewrite (u64_small (_ + _)) by lia.
      destruct (spec_used_valid (set_amount (refill_amount h2 + (refill_amount h - usage)) h2 :: rest)
        (mk_refill (u64 (refill_time h + p)) usage)) as [Hv Htot]; cbn [total set_amount refill_amount] in *.
      * done.
      * split; [|cbn; lia]. repeat constructor; cbn; try done; lia.
      * done.
      * lia.
      * split; [done|]. rewrite Htot. lia.
  - destruct (spec_used_valid (set_amount (refill_amount h - usage) h :: rest)
      (mk_refill (u64 (refill_time h + p)) usage)) as [Hv Htot]; cbn [total set_amount refill_amount] in *.
    + done.
    + split; [|cbn; lia]. repeat constructor; cbn; try done; lia.
    + done.
    + lia.
    + split; [done|]. rewrite Htot. lia.
Qed.

Lemma spec_split_ordered m p h rest usage :
  ordered (h :: rest) -> ordered (spec_split m p h rest usage).
Proof.
  intros Ho. unfold spec_split. destruct (_ || _).
  - destruct rest as [|h2 rest]; [done|]. apply spec_used_ordered; [done|].
    eapply ordered_lower_head; [by eapply ordered_tail|done].
  - apply spec_used_ordered; [done|]. by eapply ordered_lower_head.
Qed.

Lemma rep_one p m c h t b r :
  Z.of_nat (length b) = NUM_SCHED_REFILLS -> 1 <= m <= NUM_SCHED_REFILLS ->
  b !! 0%nat = Some r -> h = 0 -> t = 0 -> Rep (mk_sched p c m h t b) [r].
Proof.
  intros Hl Hm Hb -> ->. split; cbn; try done; try lia.
  - unring; lia.
  - intros [|k] r' Hk; [|done]. cbn in Hk. simplify_eq. unring; [done|lia].
Qed.

(** What a fresh or truncated buffer holds after [maybe_add_empty_tail]. *)
Definition with_empty_tail (p now : Z) (r : refill_t) : list refill_t :=
  if p =? 0 then [r; mk_refill now 0] else [r].

Lemma wp_maybe_add_empty_tail `{Config} p m c now r (Q : unit -> thread_sched -> Prop) sc :
  Holds p m c [r] sc -> (p = 0 -> MIN_REFILLS <= m) ->
  (forall sc', Holds p m c (with_empty_tail p now r) sc' -> Q tt sc') ->
  wp (maybe_add_empty_tail now) Q sc.
Proof.
  intros HH Hm HQ. pose proof HH as (R & Hp & _). unfold maybe_add_empty_tail.
  wp_steps. unfold is_roundrobin. rewrite Hp. unfold with_empty_tail in HQ.
  destruct (Z.eqb_spec p 0) as [->|]; [|by apply HQ].
  specialize (Hm eq_refl). wp_steps.
  eapply wp_refill_add_tail; [done|cbn; unfold MIN_REFILLS in Hm; lia|]. intros sc1 HH1.
  wp_steps. apply wp_assert; [|by apply HQ].
  by rewrite (rep_refill_size _ _ (proj1 HH1)).
Qed.

Lemma wp_refill_new `{Config} now m budget p (Q : unit -> thread_sched -> Prop) sc :
  Z.of_nat (length (refill_buffer sc)) = NUM_SCHED_REFILLS ->
  1 <= m <= NUM_SCHED_REFILLS -> (p = 0 -> MIN_REFILLS <= m) ->
  (CONFIG_ASSERT = true -> MIN_BUDGET < budget) ->
  (forall sc', Holds p m (consumed sc) (with_empty_tail p now (mk_refill now budget)) sc' -> Q tt sc') ->
  wp (refill_new now m budget p) Q sc.
Proof.
  intros Hl Hm Hrr HA HQ. unfold refill_new. wp_steps.
  apply wp_assert_if; [intros E; apply Z.ltb_lt; auto|].
  destruct (refill_buffer sc) as [|r0 b] eqn:Eb; [cbn in Hl; done|].
  assert (H0 : Holds p m (consumed sc) [r0]
    (set_refill_max m (set_refill_tail 0 (set_refill_head 0 (set_period p sc))))).
  { split; [|done]. unfold set_refill_max, set_refill_tail, set_refill_head, set_period; cbn.
    apply rep_one; rewrite ?Eb; done. }
  wp_steps. eapply wp_REFILL_HEAD; [done|].
  wp_steps. eapply wp_write_REFILL_HEAD; [done|]. intros sc1 H1.
  wp_steps. eapply wp_REFILL_HEAD; [done|].
  wp_steps. eapply wp_write_REFILL_HEAD; [done|]. intros sc2 H2.
  eapply wp_maybe_add_empty_tail; [done|done|]. done.
Qed.

(** The list left by [refill_update] from a buffer whose head was [h]. *)
Definition spec_update (now p' budget' : Z) (h : refill_t) : list refill_t :=
  let h' := if refill_time h <=? u64 (now + get_kernel_wcet_ticks) then set_time now h else h in
  if budget' <=? refill_amount h then with_empty_tail p' now (set_amount budget' h')
  else [h'; mk_refill (u64 (refill_time h' + p')) (u64 (budget' - refill_amount h'))].

Lemma wp_refill_update `{Config} p m c now p' budget' m' h rest
    (Q : unit -> thread_sched -> Prop) sc :
  Holds p m c (h :: rest) sc ->
  1 <= m' <= NUM_SCHED_REFILLS ->
  (p' = 0 \/ refill_amount h < budget' -> MIN_REFILLS <= m') ->
  (forall sc', Holds p' m' c (spec_update now p' budget' h) sc' -> Q tt sc') ->
  wp (refill_update now p' budget' m') Q sc.
Proof.
  intros HH Hm Hrr HQ. pose proof HH as (R & Hp & Hmm & Hc). unfold refill_update.
  wp_steps. apply wp_assert; [apply Z.ltb_lt; destruct R; lia|].
  wp_steps. eapply wp_REFILL_HEAD; [done|].
  wp_steps. unfold wp at 1, write_REFILL_INDEX. change (Z.to_nat 0) with 0%nat.
  destruct (refill_buffer sc !! 0%nat) as [r0|] eqn:E0;
    [|apply lookup_ge_None in E0; destruct R; unfold NUM_SCHED_REFILLS in *; lia].
  wp_steps. set (sc1 := set_period p' _).
  assert (H1 : Holds p' m' c [h] sc1).
  { split; [|done]. apply rep_one; cbn; rewrite ?length_insert; try done; [apply R|].
    apply list_lookup_insert_eq. by apply lookup_lt_Some in E0. }
  clearbody sc1. unfold refill_ready. wp_steps. eapply wp_REFILL_HEAD; [done|]. wp_steps.
  unfold spec_update in HQ. set (rdy := refill_time h <=? _) in *. clearbody rdy.
  set (h' := if rdy then set_time now h else h) in *.
  assert (Ha : refill_amount h' = refill_amount h) by (unfold h'; by destruct rdy).
  assert (Hstep : forall Q', (forall sc', Holds p' m' c [h'] sc' -> Q' tt sc') ->
    wp (if rdy then h ← REFILL_HEAD; write_REFILL_HEAD (set_time now h) else skip) Q' sc1).
  { intros Q' HQ'. unfold h' in HQ'. destruct rdy; [|by apply HQ'].
    wp_steps. eapply wp_REFILL_HEAD; [done|]. eapply wp_write_REFILL_HEAD; [done|]. done. }
  apply Hstep. intros sc2 H2. wp_steps. eapply wp_REFILL_HEAD; [done|].
  rewrite Ha. clearbody h'. destruct (Z.leb_spec budget' (refill_amount h)).
  - wp_steps. eapply wp_write_REFILL_HEAD; [done|]. intros sc3 H3.
    eapply wp_maybe_add_empty_tail; [done|auto|]. done.
  - eapply wp_refill_add_tail; [done|cbn; unfold MIN_REFILLS in Hrr; lia|].
    intros sc3 H3. apply HQ. by rewrite Ha.
Qed.

(** ** Merging refills that are already available *)

Fixpoint spec_noblock (now a : Z) (rest : list refill_t) : list refill_t :=
  match rest with
  | [] => [mk_refill now a]
  | n :: rest' =>
    if refill_time n <=? u64 (now + a) then spec_noblock now (u64 (refill_amount n + a)) rest'
    else mk_refill now a :: rest
  end.

Lemma wp_noblock_loop `{Config} p m c now fuel a rest (Q : unit -> thread_sched -> Prop) sc :
  Holds p m c (mk_refill now a :: rest) sc -> (length rest < fuel)%nat ->
  (forall sc', Holds p m c (spec_noblock now a rest) sc' -> Q tt sc') ->
  wp (noblock_merge_loop fuel now) Q sc.
Proof.
  revert a rest sc. induction fuel as [|fuel IH]; intros a rest sc HH Hf HQ; [lia|].
  cbn [noblock_merge_loop]. wp_steps. rewrite (rep_single _ _ (proj1 HH)).
  destruct rest as [|n rest]; [by apply HQ|].
  destruct (Z.eqb_spec (Z.of_nat (length (mk_refill now a :: n :: rest))) 1) as [E|_]; [cbn in E; lia|].
  wp_steps. eapply wp_REFILL_HEAD; [done|].
  wp_steps. eapply wp_REFILL_NEXT; [done|]. cbn [spec_noblock refill_amount] in *.
  destruct (refill_time n <=? u64 (now + a)); [|by apply HQ].
  wp_steps. eapply wp_refill_pop_head; [done|]. intros sc1 H1.
  wp_steps. eapply wp_REFILL_HEAD; [done|].
  wp_steps. eapply wp_write_REFILL_HEAD; [done|]. intros sc2 H2.
  wp_steps. eapply wp_REFILL_HEAD; [done|].
  wp_steps. eapply wp_write_REFILL_HEAD; [done|]. intros sc3 H3.
  eapply IH; [done|cbn in Hf; lia|done].
Qed.

(** Everything the merge promises: the budget is kept, the head is usable now, and
    what remains behind it starts strictly after the head would run out. *)
Lemma spec_noblock_props now a rest :
  0 <= now -> 0 <= a -> Forall refill_ok rest -> now + a + total rest < 2 ^ 64 ->
  ordered rest ->
  exists a' rest', spec_noblock now a rest = mk_refill now a' :: rest' /\
    a <= a' /\ a' + total rest' = a + total rest /\
    Forall refill_ok rest' /\ ordered (mk_refill now a' :: rest') /\
    (length rest' <= length rest)%nat /\
    (forall n l, rest' = n :: l -> now + a' < refill_time n).
Proof.
  revert a. induction rest as [|n rest IH]; intros a Hn Ha Hok Hlt Ho; cbn [spec_noblock].
  { exists a, []. repeat split; try done. }
  apply Forall_cons in Hok as [[Hnt Hna] Hok]. pose proof (total_nonneg _ Hok). cbn [total] in *.
  rewrite !u64_small by lia. destruct (Z.leb_spec (refill_time n) (now + a)).
  - destruct (IH (refill_amount n + a)) as (a' & rest' & E & ? & ? & ? & ? & ? & ?);
      [done|lia|done|lia|by eapply ordered_tail|].
    exists a', rest'. repeat (split; [done || lia || (cbn; lia)|]). done.
  - exists a, (n :: rest). repeat split; try done; cbn; try lia.
    + by constructor.
    + intros ? ? [= -> ->]. lia.
Qed.

Lemma wp_refill_noblock_check `{Config} p m c now h rest (Q : unit -> thread_sched -> Prop) sc :
  Holds p m c (h :: rest) sc ->
  (CONFIG_ASSERT = true -> 0 < p -> match spec_noblock now (refill_amount h) rest with
     | r :: _ => MIN_BUDGET <= refill_amount r < 2 ^ 64 | [] => False end) ->
  (forall sc', Holds p m c
     (if (p =? 0) || negb (refill_time h <=? u64 (now + get_kernel_wcet_ticks)) then h :: rest
      else spec_noblock now (refill_amount h) rest) sc' -> Q tt sc') ->
  0 <= p -> wp (refill_noblock_check now) Q sc.
Proof.
  intros HH HA HQ Hp0. pose proof HH as (R & Hp & Hm & _). unfold refill_noblock_check. wp_steps.
  unfold is_roundrobin. rewrite Hp. destruct (Z.eqb_spec p 0) as [->|]; [by apply HQ|].
  unfold refill_ready. wp_steps. eapply wp_REFILL_HEAD; [done|]. wp_steps.
  destruct (refill_time h <=? _); [|by apply HQ]. cbn [orb negb] in HQ.
  wp_steps. eapply wp_REFILL_HEAD; [done|].
  wp_steps. eapply wp_write_REFILL_HEAD; [done|]. intros sc1 H1. wp_steps.
  eapply wp_noblock_loop; [exact H1| |].
  { destruct R. cbn in rep_size0. unfold merge_fuel, NUM_SCHED_REFILLS in *. lia. }
  intros sc2 H2. unfold refill_sufficient, refill_capacity.
  destruct (spec_noblock now (refill_amount h) rest) as [|r0 l0] eqn:E.
  { destruct H2 as ([] & _). cbn in *. lia. }
  wp_steps. eapply wp_REFILL_HEAD; [done|]. wp_steps.
  apply wp_assert_if; [|by apply HQ]. intros HC. specialize (HA HC ltac:(lia)).
  destruct (Z.ltb_spec (refill_amount r0) 0); [rewrite MIN_BUDGET_eq in HA; lia|].
  rewrite u64_small by lia. apply Z.leb_le. lia.
Qed.

(** ** Charging more than the head holds *)

(** Number of empty refills in front of the first usable one. *)
Fixpoint lead0 (l : list refill_t) : nat :=
  match l with
  | r :: l => if refill_amount r =? 0 then S (lead0 l) else O
  | [] => O
  end.

Lemma lead0_le l : (lead0 l <= length l)%nat.
Proof. induction l; cbn; [lia|case_match; lia]. Qed.

Lemma lead0_amounts l1 l2 : refill_amount <$> l1 = refill_amount <$> l2 -> lead0 l1 = lead0 l2.
Proof.
  revert l2. induction l1 as [|r l1 IH]; intros [|r2 l2]; try done.
  cbn. intros [= -> E]. by rewrite (IH _ E).
Qed.

Lemma lead0_app l1 l2 : Forall refill_ok l1 -> 0 < total l1 -> lead0 (l1 ++ l2) = lead0 l1.
Proof.
  induction 1 as [|r l1 [? ?] ? IH]; cbn; [lia|]. intros.
  destruct (Z.eqb_spec (refill_amount r) 0); [|done]. rewrite IH; [done|lia].
Qed.

(** Rescheduling an empty refill puts no new empty refill in front. *)
Lemma lead0_used l new : l <> [] -> valid l -> 0 < total l -> refill_amount new = 0 ->
  lead0 (spec_used l new) = lead0 l.
Proof.
  expose_last l new. intros [Hok Hlt] Hpos Hz. pose proof Hok as Hok'.
  apply Forall_app in Hok as [Hi Ht]. apply Forall_singleton in Ht as [Ht Hta].
  pose proof (total_nonneg _ Hi). rewrite total_app in *. cbn [total] in *.
  unfold spec_schedule_used. rewrite Hz, Z.add_0_r, u64_small by lia.
  repeat case_match.
  - apply lead0_amounts. by rewrite !fmap_app.
  - apply lead0_amounts. by rewrite !fmap_app.
  - change [r; new] with ([r] ++ [new]). rewrite app_assoc. apply lead0_app; [done|].
    rewrite total_app. cbn. lia.
Qed.

Section BudgetCheck.
Context `{Config} (p m c : Z).

(** The exhausting loop stops with a head that still has budget left, and no tick
    is lost on the way. *)
Lemma wp_budget_exhaust_loop T fuel usage l sc :
  Holds p m c l sc -> valid l -> total l = T -> 0 < T -> 0 <= usage < 2 ^ 64 ->
  (Z.to_nat (9 * usage) + lead0 l < fuel)%nat ->
  wp (budget_exhaust_loop fuel usage)
     (fun u sc' => exists h rest, Holds p m c (h :: rest) sc' /\ valid (h :: rest) /\
        total (h :: rest) = T /\ 0 <= u <= usage /\ u < refill_amount h) sc.
Proof.
  revert usage l sc. induction fuel as [|fuel IH]; intros usage l sc HH Hv HT HT0 Hu Hf; [lia|].
  destruct l as [|h rest]; [cbn in HT; lia|].
  pose proof HH as (R & Hp & Hm & _). pose proof Hv as [Hok Hlt].
  apply Forall_cons in Hok as [[Ht Ha] Hrok]. pose proof (total_nonneg _ Hrok).
  cbn [budget_exhaust_loop]. wp_steps. eapply wp_REFILL_HEAD; [done|].
  destruct (Z.leb_spec (refill_amount h) usage); cycle 1.
  { wp_steps. exists h, rest. repeat (split; [done || lia|]). done. }
  wp_steps. rewrite (u64_small (usage - _)) by lia. rewrite (rep_single _ _ R).
  destruct rest as [|h2 rest].
  - change (Z.of_nat (length [h]) =? 1) with true. cbn [total] in *.
    eapply wp_write_REFILL_HEAD; [done|]. intros sc1 HH1.
    eapply wp_mono; [eapply IH; [exact HH1| | | | |]|].
    + split; [|cbn; lia]. repeat constructor; cbn; done || apply u64_range.
    + cbn. lia.
    + done.
    + lia.
    + cbn in Hf |- *. destruct (Z.eqb_spec (refill_amount h) 0); lia.
    + intros u sc' (h' & rest' & ? & ? & ? & ? & ?). exists h', rest'. intuition lia.
  - destruct (Z.eqb_spec (Z.of_nat (length (h :: h2 :: rest))) 1) as [E|_]; [cbn in E; lia|].
    wp_steps. eapply wp_refill_pop_head; [done|]. intros sc1 HH1.
    pose proof (rep_size _ _ R) as Hsz. cbn [length] in Hsz.
    set (new := set_time _ h).
    destruct (spec_used_valid (h2 :: rest) new) as [Hv' HT']; [done| | | |].
    { split; [done|]. cbn [total] in *. lia. }
    { split; cbn; [apply u64_range|lia]. }
    { cbn [total refill_amount set_time new] in *. lia. }
    cbn [refill_amount set_time new] in HT'.
    eapply (wp_used _ _ _ (_ :: _)); [done|exact HH1|cbn [length]; lia|]. intros sc2 HH2.
    eapply wp_mono; [eapply IH; [exact HH2|done| |done|lia|]|].
    + rewrite HT'. cbn [total] in *. lia.
    + destruct (Z.eqb_spec (refill_amount h) 0) as [E0|].
      * rewrite (lead0_used (h2 :: rest)); [|done| | |done].
        -- cbn [lead0] in Hf |- *. rewrite E0 in Hf |- *. cbn in Hf. cbn. lia.
        -- split; [done|]. cbn [total] in *. lia.
        -- cbn [total] in *. lia.
      * pose proof (lead0_le (spec_used (h2 :: rest) new)).
        pose proof (spec_used_length (h2 :: rest) new ltac:(done)).
        pose proof (rep_max _ _ R). unfold NUM_SCHED_REFILLS in *. cbn [length] in *. lia.
    + intros u sc' (h' & rest' & ? & ? & ? & ? & ?). exists h', rest'. intuition lia.
Qed.

(** The final loop ends with a head of at least [MIN_BUDGET] and a free slot. *)
Lemma wp_budget_merge_loop T fuel l sc :
  Holds p m c l sc -> valid l -> total l = T -> MIN_BUDGET <= T -> 2 <= m ->
  (length l <= fuel)%nat ->
  wp (budget_merge_loop fuel)
     (fun _ sc' => exists h rest, Holds p m c (h :: rest) sc' /\ valid (h :: rest) /\
        total (h :: rest) = T /\ MIN_BUDGET <= refill_amount h /\
        Z.of_nat (length (h :: rest)) < m) sc.
Proof.
  revert l sc. induction fuel as [|fuel IH]; intros l sc HH Hv HT HT0 Hm2 Hf.
  { destruct HH as ([] & _). destruct l; cbn in *; lia. }
  pose proof HH as (R & Hp & Hm & _).
  destruct l as [|h rest]; [destruct R; cbn in *; lia|]. pose proof Hv as [Hok Hlt].
  apply Forall_cons in Hok as [[Ht Ha] Hrok]. pose proof (total_nonneg _ Hrok).
  cbn [budget_merge_loop]. wp_steps. eapply wp_REFILL_HEAD; [done|]. wp_steps.
  rewrite (rep_full _ _ R), Hm. destruct (_ || _) eqn:Eb; cycle 1.
  { zbool. wp_steps. exists h, rest. pose proof (rep_size _ _ R).
    repeat (split; [done || lia|]). lia. }
  destruct rest as [|h2 rest].
  { exfalso. cbn [total length] in *.
    apply orb_true_iff in Eb as [Eb|Eb]; zbool; lia. }
  apply Forall_cons in Hrok as [[Ht2 Ha2] Hrok]. pose proof (total_nonneg _ Hrok).
  wp_steps. eapply wp_refill_pop_head; [done|]. intros sc1 HH1.
  wp_steps. eapply wp_REFILL_HEAD; [done|].
  wp_steps. eapply wp_write_REFILL_HEAD; [done|]. intros sc2 HH2. cbn [total] in *.
  rewrite u64_small in HH2 by lia.
  eapply IH; [exact HH2| | |done|done|cbn in Hf |- *; lia].
  - split; [repeat constructor; cbn; done || lia|]. cbn. lia.
  - cbn. lia.
Qed.

(** The merge of the two front refills after an overrun. *)
Lemma wp_overrun T usage h rest sc :
  Holds p m c (h :: rest) sc -> valid (h :: rest) -> total (h :: rest) = T ->
  wp (budget_overrun usage)
     (fun _ sc' => exists h' rest', Holds p m c (h' :: rest') sc' /\ valid (h' :: rest') /\
        total (h' :: rest') = T /\ refill_amount h <= refill_amount h') sc.
Proof.
  intros HH Hv HT. pose proof Hv as [Hok Hlt]. apply Forall_cons in Hok as [[Ht Ha] Hrok].
  pose proof (total_nonneg _ Hrok). cbn [total] in HT, Hlt. unfold budget_overrun.
  destruct (0 <? usage); [|by exists h, rest].
  wp_steps. eapply wp_REFILL_HEAD; [done|].
  wp_steps. eapply wp_write_REFILL_HEAD; [done|]. intros sc1 HH1. wp_steps.
  assert (Hh1 : refill_ok (set_time (u64 (refill_time h + usage)) h)) by (split; [apply u64_range|done]).
  assert (Hkeep : exists h' rest', Holds p m c (h' :: rest') sc1 /\ valid (h' :: rest') /\
        total (h' :: rest') = T /\ refill_amount h <= refill_amount h').
  { exists (set_time (u64 (refill_time h + usage)) h), rest. split; [done|].
    split; [split; [by constructor|cbn; lia]|]. cbn. lia. }
  rewrite (rep_single _ _ (proj1 HH1)). destruct rest as [|n rest]; [done|].
  destruct (Z.eqb_spec (Z.of_nat (length (set_time (u64 (refill_time h + usage)) h :: n :: rest))) 1)
    as [E|_]; [cbn in E; lia|].
  wp_steps. eapply wp_REFILL_HEAD; [done|]. wp_steps. eapply wp_REFILL_NEXT; [done|].
  destruct (refill_time n <=? _); [|done].
  apply Forall_cons in Hrok as [[Hnt Hna] Hrok]. pose proof (total_nonneg _ Hrok). cbn [total] in *.
  wp_steps. eapply wp_refill_pop_head; [done|]. intros sc2 HH2.
  wp_steps. eapply wp_REFILL_HEAD; [done|].
  wp_steps. eapply wp_write_REFILL_HEAD; [done|]. intros sc3 HH3.
  wp_steps. eapply wp_REFILL_HEAD; [done|]. eapply wp_write_REFILL_HEAD; [done|]. intros sc4 HH4.
  cbn [set_time set_amount refill_amount refill_time] in HH4. rewrite (u64_small (refill_amount n + refill_amount h)) in HH4 by lia.
  exists (mk_refill (u64 (refill_time h + usage)) (refill_amount n + refill_amount h)), rest.
  split; [done|]. split; [split; [constructor; [split; [apply u64_range|cbn; lia]|done]|cbn; lia]|].
  cbn. lia.
Qed.

(** Charging what is left to a head that can pay for it (assertions compiled out). *)
Lemma wp_budget_charge_rest now u h rest (Q : unit -> thread_sched -> Prop) sc :
  CONFIG_ASSERT = false ->
  Holds p m c (h :: rest) sc -> valid (h :: rest) -> 0 <= u <= refill_amount h ->
  (forall sc' l', Holds p m c l' sc' -> valid l' -> total l' = total (h :: rest) -> Q tt sc') ->
  wp (budget_charge_rest now u) Q sc.
Proof.
  intros HC HH Hv Hu HQ. unfold budget_charge_rest, refill_capacity, refill_ready.
  wp_steps. eapply wp_REFILL_HEAD; [done|]. wp_steps.
  destruct (0 <? _); [|by eapply HQ]. wp_steps.
  eapply wp_REFILL_HEAD; [done|]. wp_steps. destruct (refill_time h <=? _); [|by eapply HQ].
  wp_steps. apply wp_assert_off; [done|].
  eapply wp_refill_split_check; [done|by rewrite HC|]. intros sc' HH'.
  destruct (spec_split_valid m p h rest u Hv Hu) as [Hv' HT']. by eapply HQ.
Qed.

(** The value the callers pass as [capacity]. *)
Lemma wp_refill_capacity usage h rest (Q : Z -> thread_sched -> Prop) sc :
  Holds p m c (h :: rest) sc ->
  Q (if refill_amount h <? usage then 0 else u64 (refill_amount h - usage)) sc ->
  wp (refill_capacity usage) Q sc.
Proof. intros HH HQ. unfold refill_capacity. wp_steps. by eapply wp_REFILL_HEAD. Qed.

(** The first phase, whichever branch it takes, leaves a usage the head can pay. *)
Lemma wp_budget_first_phase usage capacity h rest (Q : Z -> thread_sched -> Prop) sc :
  Holds p m c (h :: rest) sc -> valid (h :: rest) -> 0 < total (h :: rest) -> 0 <= usage < 2 ^ 64 ->
  capacity = (if refill_amount h <? usage then 0 else u64 (refill_amount h - usage)) ->
  (forall u sc' h' rest', Holds p m c (h' :: rest') sc' -> valid (h' :: rest') ->
     total (h' :: rest') = total (h :: rest) -> 0 <= u <= refill_amount h' -> Q u sc') ->
  wp (if capacity =? 0 then
        usage ← budget_exhaust_loop (exhaust_fuel usage) usage; budget_overrun usage;; mret usage
      else mret usage) Q sc.
Proof.
  intros HH Hv HT Hu Hcap HQ.
  assert (Hamt : 0 <= refill_amount h < 2 ^ 64).
  { destruct Hv as [Hok Hlt]. apply Forall_cons in Hok as [[? ?] Hr].
    pose proof (total_nonneg _ Hr). cbn in Hlt. lia. }
  destruct (Z.eqb_spec capacity 0) as [E0|Hne]; cycle 1.
  { wp_steps. eapply HQ; [done|done|done|]. destruct (Z.ltb_spec (refill_amount h) usage); lia. }
  wp_steps. eapply wp_mono; [eapply (wp_budget_exhaust_loop (total (h :: rest))); try done|].
  { unfold exhaust_fuel. pose proof (lead0_le (h :: rest)). destruct HH as ([] & _).
    unfold NUM_SCHED_REFILLS in *. lia. }
  intros u sc1 (h1 & rest1 & HH1 & Hv1 & HT1 & Hu1 & Hlt1). wp_steps.
  eapply wp_mono; [by eapply wp_overrun|].
  intros _ sc2 (h2 & rest2 & HH2 & Hv2 & HT2 & Hle2). wp_steps.
  eapply HQ; [done|done|done|lia].
Qed.
End BudgetCheck.

(** ** Executable versions of the invariants *)

Definition repb (sc : thread_sched) (l : list refill_t) : bool :=
  (Z.of_nat (length (refill_buffer sc)) =? NUM_SCHED_REFILLS) &&
  (1 <=? refill_max sc) && (refill_max sc <=? NUM_SCHED_REFILLS) &&
  (0 <=? refill_head sc) && (refill_head sc <? refill_max sc) &&
  (1 <=? Z.of_nat (length l)) && (Z.of_nat (length l) <=? refill_max sc) &&
  (refill_tail sc =? ring (refill_max sc) (refill_head sc + Z.of_nat (length l) - 1)) &&
  forallb (fun k => bool_decide (refill_buffer sc !! Z.to_nat (ring (refill_max sc)
     (refill_head sc + Z.of_nat k)) = l !! k)) (seq 0 (length l)).

Lemma repb_sound sc l : repb sc l = true -> Rep sc l.
Proof.
  unfold repb. intros E. zbool. split; try lia. intros k r Hk.
  rewrite forallb_forall in H0. specialize (H0 k).
  rewrite bool_decide_eq_true in H0. rewrite <- Hk. apply H0, in_seq.
  apply lookup_lt_Some in Hk. lia.
Qed.

Definition validb (l : list refill_t) : bool :=
  forallb (fun r => (0 <=? refill_time r) && (refill_time r <? 2 ^ 64) && (0 <=? refill_amount r)) l
  && (total l <? 2 ^ 64).

Lemma validb_sound l : validb l = true -> valid l.
Proof.
  unfold validb, valid. intros E. apply andb_true_iff in E as [E1 E2]. split; [|by apply Z.ltb_lt].
  rewrite forallb_forall in E1. apply Forall_forall. intros r Hr.
  specialize (E1 r (proj1 (list_elem_of_In _ _) Hr)). zbool. split; lia.
Qed.

(** ** Theorems *)

(** C25: the head/tail index arithmetic implements a bounded FIFO queue that is never empty.
    On a buffer holding [r1 :: l], with [l] empty or not: [refill_size] is the number of queued
    refills, [refill_full] and [refill_single] tell whether the buffer is full and whether one
    refill is left, [refill_next] steps from the head through the refills in order up to the
    tail; [refill_pop_head] returns [r1] and leaves [l], which must not be empty;
    [refill_add_tail r] appends [r] where a slot is free.  Neither of these trips an assertion,
    leaves the array or changes the period, the capacity or the consumed time; in a build with
    assertions taking the last refill and adding to a full buffer are stopped. *)
Theorem refill_ring_refines_fifo `{Config} sc r1 l r :
  Rep sc (r1 :: l) ->
  refill_size sc = Z.of_nat (length (r1 :: l)) /\
  refill_full sc = (Z.of_nat (length (r1 :: l)) =? refill_max sc) /\
  refill_single sc = bool_decide (l = []) /\
  (forall k x, (r1 :: l) !! k = Some x -> REFILL_INDEX (Nat.iter k (refill_next sc) (refill_head sc)) sc = Done x sc) /\
  refill_tail sc = Nat.iter (length l) (refill_next sc) (refill_head sc) /\
  (l <> [] -> exists sc', refill_pop_head sc = Done r1 sc' /\ Holds (period sc) (refill_max sc) (consumed sc) l sc') /\
  (Z.of_nat (length (r1 :: l)) < refill_max sc ->
   exists sc', refill_add_tail r sc = Done tt sc' /\ Holds (period sc) (refill_max sc) (consumed sc) (r1 :: l ++ [r]) sc') /\
  (CONFIG_ASSERT = true -> l = [] -> refill_pop_head sc = Fail AssertFailed) /\
  (CONFIG_ASSERT = true -> Z.of_nat (length (r1 :: l)) = refill_max sc -> refill_add_tail r sc = Fail AssertFailed).
Proof.
  intros R. assert (HH : Holds (period sc) (refill_max sc) (consumed sc) (r1 :: l) sc) by done. pose proof (rep_size _ _ R) as Hsz. pose proof (rep_head _ _ R) as Hh.
  split_and!; [by apply rep_refill_size|by apply rep_full| | | | | | |].
  - rewrite (rep_single _ _ R). cbn [length]. destruct l as [|x l]; [done|]. cbn [length]. rewrite bool_decide_eq_false_2 by done. apply Z.eqb_neq. lia.
  - intros k x Hk. pose proof (lookup_lt_Some _ _ _ Hk). unfold REFILL_INDEX. rewrite (rep_walk _ _ _ R) by lia. by rewrite (rep_at _ _ R k x Hk).
  - cbn [length] in Hsz. rewrite (rep_walk _ _ _ R), (rep_tail _ _ R) by lia. cbn [length]. f_equal. lia.
  - destruct l as [|r2 l]; [done|]. intros _. assert (W : wp refill_pop_head (fun x sc' => x = r1 /\
      Holds (period sc) (refill_max sc) (consumed sc) (r2 :: l) sc') sc)
      by (by eapply wp_refill_pop_head).
    apply wp_run in W as (x & sc' & ? & -> & ?). eauto.
  - intros Hlt. assert (W : wp (refill_add_tail r) (fun _ sc' =>
      Holds (period sc) (refill_max sc) (consumed sc) (r1 :: l ++ [r]) sc') sc)
      by (by eapply wp_refill_add_tail).
    apply wp_run in W as ([] & sc' & ? & ?). eauto.
  - intros HA ->. unfold refill_pop_head, assert_, mbind, ST_bind, get. cbn. by rewrite HA, (rep_single _ _ R).
  - intros HA HF. unfold refill_add_tail, assert_, mbind, ST_bind, get. cbn. rewrite HA, (rep_refill_size _ _ R), HF. by rewrite Z.ltb_irrefl.
Qed.

(** Lemma: [refill_split_check] charges [usage] to the head refill without creating or
    losing a tick: it completes in every build, the buffer stays well formed, the sum
    of all refills is unchanged and the refills stay ordered by release time. *)
Theorem refill_split_check_conserves `{Config} sc h rest usage :
  Rep sc (h :: rest) -> valid (h :: rest) -> ordered (h :: rest) ->
  0 < period sc -> 0 < usage <= refill_amount h ->
  exists sc' l', refill_split_check usage sc = Done tt sc' /\
    Holds (period sc) (refill_max sc) (consumed sc) l' sc' /\
    valid l' /\ ordered l' /\ total l' = total (h :: rest).
Proof.
  intros R Hv Ho Hp Hu.
  destruct (spec_split_valid (refill_max sc) (period sc) h rest usage Hv ltac:(lia)) as [Hv' HT].
  pose proof (spec_split_ordered (refill_max sc) (period sc) h rest usage Ho) as Ho'.
  assert (W : wp (refill_split_check usage) (fun _ sc' => Holds (period sc) (refill_max sc) (consumed sc)
    (spec_split (refill_max sc) (period sc) h rest usage) sc') sc)
    by (eapply wp_refill_split_check; [done|auto|auto]).
  apply wp_run in W as ([] & sc' & ? & ?). eauto 10.
Qed.

(** Lemma: when the head refill is ready, [refill_noblock_check] (on a sporadic thread)
    completes without an assertion, keeps the budget and the ordering, releases the head
    at the current time, never shrinks it, and leaves behind it only refills that become
    available after the head would be used up. *)
Theorem refill_noblock_check_merges `{Config} now sc h rest :
  Rep sc (h :: rest) -> valid (h :: rest) -> ordered (h :: rest) ->
  0 < period sc -> 0 <= now -> now + total (h :: rest) < 2 ^ 64 ->
  MIN_BUDGET <= refill_amount h -> refill_time h <= u64 (now + get_kernel_wcet_ticks) ->
  exists sc' a' rest', refill_noblock_check now sc = Done tt sc' /\
    Holds (period sc) (refill_max sc) (consumed sc) (mk_refill now a' :: rest') sc' /\
    refill_amount h <= a' /\ ordered (mk_refill now a' :: rest') /\
    total (mk_refill now a' :: rest') = total (h :: rest) /\
    (forall n l, rest' = n :: l -> now + a' < refill_time n).
Proof.
  intros R [Hok Hlt] Ho Hp Hn Hsum Hmin Hrdy. apply Forall_cons in Hok as [[Ht Ha] Hrok].
  pose proof (total_nonneg _ Hrok). cbn [total] in *.
  destruct (spec_noblock_props now (refill_amount h) rest) as (a' & rest' & E & Hge & HT & Hok' & Ho' & _ & Hgap);
    [done|done|done|lia|by eapply ordered_tail|].
  pose proof (total_nonneg _ Hok').
  assert (W : wp (refill_noblock_check now) (fun _ sc' => Holds (period sc) (refill_max sc) (consumed sc)
    (mk_refill now a' :: rest') sc') sc).
  { eapply wp_refill_noblock_check; [done| | |lia].
    - intros _ _. rewrite E. cbn. lia.
    - rewrite E. apply Z.leb_le in Hrdy. rewrite Hrdy.
      destruct (Z.eqb_spec (period sc) 0); [lia|]. done. }
  apply wp_run in W as ([] & sc' & ? & ?). exists sc', a', rest'.
  repeat (split; [done || lia || (cbn; lia)|]). done.
Qed.

(** Charging with the capacity [refill_capacity] computed. *)
Lemma wp_refill_budget_check `{Config} now usage h rest (Q : unit -> thread_sched -> Prop) sc :
  CONFIG_ASSERT = false ->
  Rep sc (h :: rest) -> valid (h :: rest) -> MIN_BUDGET <= total (h :: rest) -> 2 <= refill_max sc -> 0 <= usage < 2 ^ 64 ->
  (forall sc' h' rest', Holds (period sc) (refill_max sc) (consumed sc) (h' :: rest') sc' -> valid (h' :: rest') ->
     total (h' :: rest') = total (h :: rest) -> MIN_BUDGET <= refill_amount h' ->
     Z.of_nat (length (h' :: rest')) < refill_max sc -> Q tt sc') ->
  wp (refill_budget_check now usage (if refill_amount h <? usage then 0 else u64 (refill_amount h - usage))) Q sc.
Proof.
  intros HC R Hv HT Hm Hu HQ. pose proof MIN_BUDGET_eq as HMB.
  set (p := period sc) in *. set (m := refill_max sc) in *. set (c := consumed sc) in *.
  assert (HH : Holds p m c (h :: rest) sc) by done.
  enough (W : wp (refill_budget_check now usage (if refill_amount h <? usage then 0 else u64 (refill_amount h - usage)))
    (fun _ sc' => exists h' rest', Holds p m c (h' :: rest') sc' /\ valid (h' :: rest') /\
        total (h' :: rest') = total (h :: rest) /\ MIN_BUDGET <= refill_amount h' /\
        Z.of_nat (length (h' :: rest')) < m) sc).
  { eapply wp_mono; [exact W|]. intros [] sc' (h' & rest' & ? & ? & ? & ? & ?). eauto. }
  unfold refill_budget_check. wp_steps. apply wp_assert_off; [done|].
  wp_steps. apply wp_assert_off; [done|]. apply wp_bind.
  eapply wp_budget_first_phase; [done|done|lia|done|done|].
  intros u sc1 h1 rest1 HH1 Hv1 HT1 Hu1. wp_steps.
  eapply wp_budget_charge_rest; [done..|]. intros sc2 l2 HH2 Hv2 HT2.
  eapply wp_budget_merge_loop; [done|done|lia|lia|done|].
  destruct HH2 as ([] & _). unfold merge_fuel, NUM_SCHED_REFILLS in *. lia.
Qed.

(** C24: [refill_budget_check], called with the capacity [refill_capacity] computed,
    terminates for every usage; it conserves the total budget, keeps the buffer well
    formed, and ends with a head of at least [MIN_BUDGET] ticks and at least one free
    slot, provided the buffer has two slots and the budget reaches [MIN_BUDGET]
    (build without [CONFIG_ASSERT]). *)
Theorem refill_budget_check_conserves `{Config} now usage capacity sc l :
  CONFIG_ASSERT = false ->
  Rep sc l -> valid l -> MIN_BUDGET <= total l -> 2 <= refill_max sc -> 0 <= usage < 2 ^ 64 ->
  refill_capacity usage sc = Done capacity sc ->
  exists sc' h rest, refill_budget_check now usage capacity sc = Done tt sc' /\
    Holds (period sc) (refill_max sc) (consumed sc) (h :: rest) sc' /\
    valid (h :: rest) /\ total (h :: rest) = total l /\
    MIN_BUDGET <= refill_amount h /\ Z.of_nat (length (h :: rest)) < refill_max sc.
Proof.
  intros HC R Hv HT Hm Hu Hcap. destruct l as [|h rest]; [destruct R; cbn in *; lia|].
  assert (Hcap' : wp (refill_capacity usage) (fun x _ => x = capacity ->
     capacity = if refill_amount h <? usage then 0 else u64 (refill_amount h - usage)) sc)
    by (by eapply wp_refill_capacity).
  unfold wp in Hcap'. rewrite Hcap in Hcap'. rewrite (Hcap' eq_refl).
  enough (W : wp (refill_budget_check now usage (if refill_amount h <? usage then 0 else u64 (refill_amount h - usage)))
    (fun _ sc' => exists h' rest', Holds (period sc) (refill_max sc) (consumed sc) (h' :: rest') sc' /\ valid (h' :: rest') /\
        total (h' :: rest') = total (h :: rest) /\ MIN_BUDGET <= refill_amount h' /\
        Z.of_nat (length (h' :: rest')) < refill_max sc) sc).
  { apply wp_run in W as ([] & sc' & ? & h' & rest' & ?). exists sc', h', rest'. intuition. }
  eapply wp_refill_budget_check; [done..|]. intros sc' h' rest'. eauto 10.
Qed.

(** Lemma: [refill_new] installs exactly the requested budget, usable from now, in one
    refill (plus the empty tail that tracks used time for a round-robin thread), and
    [refill_update] on an active thread leaves refills that sum to exactly the new
    budget, the first of them no larger than the old head, so the window constraint is
    not exceeded by the change. *)
Theorem refill_new_update_budget `{Config} now m budget p sc h rest :
  Rep sc (h :: rest) -> refill_ok h -> 0 <= now < 2 ^ 64 ->
  MIN_REFILLS <= m <= NUM_SCHED_REFILLS -> MIN_BUDGET < budget < 2 ^ 64 ->
  (exists sc' l', refill_new now m budget p sc = Done tt sc' /\
     Holds p m (consumed sc) l' sc' /\ total l' = budget /\ ordered l' /\
     l' = with_empty_tail p now (mk_refill now budget)) /\
  (exists sc' h' rest', refill_update now p budget m sc = Done tt sc' /\
     Holds p m (consumed sc) (h' :: rest') sc' /\ total (h' :: rest') = budget /\
     refill_amount h' <= refill_amount h).
Proof.
  intros R [Ht Ha] Hn Hm Hb. unfold MIN_REFILLS in Hm. pose proof MIN_BUDGET_eq. split.
  - assert (W : wp (refill_new now m budget p) (fun _ sc' => Holds p m (consumed sc)
      (with_empty_tail p now (mk_refill now budget)) sc') sc).
    { eapply wp_refill_new; [apply R|lia|unfold MIN_REFILLS; lia|lia|auto]. }
    apply wp_run in W as ([] & sc' & E & HH). exists sc', (with_empty_tail p now (mk_refill now budget)).
    split; [done|]. split; [done|]. clear HH. unfold with_empty_tail.
    destruct (p =? 0); cbn; repeat split; lia.
  - assert (W : wp (refill_update now p budget m) (fun _ sc' => Holds p m (consumed sc)
      (spec_update now p budget h) sc') sc).
    { eapply (wp_refill_update (period sc) (refill_max sc)); [done|lia|unfold MIN_REFILLS; lia|auto]. }
    apply wp_run in W as ([] & sc' & E & HH). unfold spec_update, with_empty_tail in *.
    set (h' := if _ <=? u64 _ then _ else _) in *.
    assert (Eh : refill_amount h' = refill_amount h) 
      by (unfold h'; by destruct (refill_time h <=? _)).
    clearbody h'. rewrite Eh in HH. destruct (Z.leb_spec budget (refill_amount h)).
    + destruct (p =? 0); do 3 eexists; (split; [done|]); (split; [done|]); cbn; lia.
    + rewrite (u64_small (budget - refill_amount h)) in HH by lia.
      do 3 eexists. split; [done|]. split; [done|]. cbn. lia.
Qed.

(** Lemma: the two sanity walks of [sporadic.c] are exact: on every well-formed buffer
    [refill_ordered] terminates and returns true exactly when release times do not
    decrease from head to tail, and [refill_sum] terminates with the sum of all amounts
    modulo the width of [ticks_t]; neither changes the buffer. *)
Theorem refill_walks_exact sc h rest :
  Rep sc (h :: rest) -> valid (h :: rest) ->
  (exists b, refill_ordered sc = Done b sc /\ (b = true <-> ordered (h :: rest))) /\
  refill_sum sc = Done (total (h :: rest)) sc.
Proof.
  intros R [Hok Hlt]. pose proof Hok as Hok'. apply Forall_cons in Hok as [[Ht Ha] Hr].
  pose proof (total_nonneg _ Hr). pose proof (total_nonneg _ Hok'). cbn [total] in *. split.
  - pose proof (wp_refill_ordered _ _ R) as W. apply wp_run in W as (b & s & E & -> & Hb). eauto.
  - pose proof (wp_refill_sum _ _ _ R ltac:(lia)) as W.
    apply wp_run in W as (x & s & E & -> & ->). rewrite E. cbn [total]. by rewrite u64_small by lia.
Qed.

(** Lemma: [refill_budget_check] contradicts its caller in assertion builds.  [check_budget]
    calls it for a sporadic thread whose buffer is full even when the head keeps at least
    [MIN_BUDGET] ticks; the entry assertion admits that call, but the later
    [assert(capacity < MIN_BUDGET)] then fails whenever the head refill is ready. *)
Theorem refill_budget_check_full_asserts `{Config} now usage sc h rest :
  CONFIG_ASSERT = true ->
  Rep sc (h :: rest) -> refill_full sc = true -> 0 < period sc ->
  0 <= usage -> usage + MIN_BUDGET <= refill_amount h < 2 ^ 64 ->
  refill_time h <= u64 (now + get_kernel_wcet_ticks) ->
  refill_budget_check now usage (refill_amount h - usage) sc = Fail AssertFailed.
Proof.
  intros HC R Hfull Hp Hu Ha Hrdy. pose proof MIN_BUDGET_eq.
  unfold refill_budget_check, budget_charge_rest, refill_capacity, refill_ready, REFILL_HEAD,
    REFILL_INDEX, gets, get, assert_, mbind, ST_bind, mret, ST_ret, skip, fail.
  rewrite HC, Hfull, orb_true_r. cbn [andb negb].
  apply Z.ltb_lt in Hp as ->. cbn [andb negb].
  destruct (Z.eqb_spec (refill_amount h - usage) 0); [lia|]. unfold mret, ST_ret.
  rewrite !(rep_head_at _ _ _ R). destruct (Z.ltb_spec (refill_amount h) usage); [lia|].
  rewrite u64_small by lia. destruct (Z.ltb_spec 0 (refill_amount h - usage)); [|lia].
  rewrite !(rep_head_at _ _ _ R). apply Z.leb_le in Hrdy as ->.
  destruct (Z.ltb_spec (refill_amount h - usage) MIN_BUDGET); [lia|done].
Qed.

(** *** Witnesses *)

Definition empty_slots (n : nat) : list refill_t := replicate n (mk_refill 0 0).

(** A sporadic context with three refills wrapped around the end of the ring. *)
Definition demo_sched : thread_sched :=
  mk_sched 1000 0 4 3 1 ([mk_refill 300 40; mk_refill 500 50; mk_refill 0 0; mk_refill 100 60] ++ empty_slots 4).
Definition demo_refills : list refill_t := [mk_refill 100 60; mk_refill 300 40; mk_refill 500 50].

Lemma demo_rep : Rep demo_sched demo_refills.
Proof. apply repb_sound. vm_compute. reflexivity. Qed.

Lemma demo_valid : valid demo_refills.
Proof. apply validb_sound. vm_compute. reflexivity. Qed.

Lemma demo_ordered : ordered demo_refills.
Proof. cbn. lia. Qed.

Lemma refill_ring_refines_fifo_witness :
  (exists sc', @refill_pop_head test_config demo_sched = Done (mk_refill 100 60) sc' /\ Holds 1000 4 0 [mk_refill 300 40; mk_refill 500 50] sc') /\
  (exists sc', @refill_add_tail test_config (mk_refill 700 1) demo_sched = Done tt sc' /\ Holds 1000 4 0 (demo_refills ++ [mk_refill 700 1]) sc').
Proof.
  destruct (@refill_ring_refines_fifo test_config demo_sched (mk_refill 100 60) [mk_refill 300 40; mk_refill 500 50] (mk_refill 700 1) demo_rep) as (_ & _ & _ & _ & _ & Hp & Ha & _).
  split; [by apply Hp|by apply Ha].
Defined.

Lemma refill_split_check_conserves_witness :
  exists sc' l', @refill_split_check test_config 25 demo_sched = Done tt sc' /\
    Holds 1000 4 0 l' sc' /\ valid l' /\ ordered l' /\ total l' = 150.
Proof.
  apply (@refill_split_check_conserves test_config demo_sched (mk_refill 100 60)
    [mk_refill 300 40; mk_refill 500 50] 25 demo_rep demo_valid demo_ordered); vm_compute; intuition discriminate.
Defined.

Lemma refill_noblock_check_merges_witness :
  exists sc' a' rest', @refill_noblock_check test_config 250 demo_sched = Done tt sc' /\
    Holds 1000 4 0 (mk_refill 250 a' :: rest') sc' /\
    60 <= a' /\ ordered (mk_refill 250 a' :: rest') /\
    total (mk_refill 250 a' :: rest') = 150 /\
    (forall n l, rest' = n :: l -> 250 + a' < refill_time n).
Proof.
  apply (@refill_noblock_check_merges test_config 250 demo_sched (mk_refill 100 60)
    [mk_refill 300 40; mk_refill 500 50] demo_rep demo_valid demo_ordered); vm_compute; intuition discriminate.
Defined.

Lemma refill_budget_check_conserves_witness :
  exists sc' h rest, @refill_budget_check stm32_config 400 155 0 demo_sched = Done tt sc' /\
    Holds 1000 4 0 (h :: rest) sc' /\ valid (h :: rest) /\ total (h :: rest) = 150 /\
    MIN_BUDGET <= refill_amount h /\ Z.of_nat (length (h :: rest)) < 4.
Proof.
  apply (@refill_budget_check_conserves stm32_config 400 155 0 demo_sched demo_refills
    eq_refl demo_rep demo_valid); vm_compute; intuition discriminate.
Defined.

Lemma refill_new_update_budget_witness :
  (exists sc' l', @refill_new test_config 7 2 100 0 demo_sched = Done tt sc' /\
     Holds 0 2 0 l' sc' /\ total l' = 100 /\ ordered l' /\
     l' = with_empty_tail 0 7 (mk_refill 7 100)) /\
  (exists sc' h' rest', @refill_update test_config 7 0 100 2 demo_sched = Done tt sc' /\
     Holds 0 2 0 (h' :: rest') sc' /\ total (h' :: rest') = 100 /\ refill_amount h' <= 60).
Proof.
  apply (@refill_new_update_budget test_config 7 2 100 0 demo_sched (mk_refill 100 60)
    [mk_refill 300 40; mk_refill 500 50] demo_rep); vm_compute; intuition discriminate.
Defined.

Lemma refill_walks_exact_witness :
  (exists b, refill_ordered demo_sched = Done b demo_sched /\ (b = true <-> ordered demo_refills)) /\
  refill_sum demo_sched = Done 150 demo_sched.
Proof.
  apply (refill_walks_exact demo_sched (mk_refill 100 60)
    [mk_refill 300 40; mk_refill 500 50] demo_rep demo_valid).
Defined.

Definition full_sched : thread_sched :=
  mk_sched 1000 0 2 0 1 ([mk_refill 100 60; mk_refill 300 40] ++ empty_slots 6).

Lemma refill_budget_check_full_asserts_witness :
  @refill_budget_check test_config 200 10 50 full_sched = Fail AssertFailed.
Proof.
  apply (@refill_budget_check_full_asserts test_config 200 10 full_sched (mk_refill 100 60)
    [mk_refill 300 40] eq_refl); [apply repb_sound; vm_compute; reflexivity|..];
  vm_compute; intuition discriminate.
Defined.
