(* ===== verification/RingBuf.v ===== *)
(** * Ring buffers

    Models [src/lib/sys/ring_buffer.c] and [inc/sys/ring_buffer.h]: a circular buffer used
    either for a stream of bytes (put and get, with or without copying) or for items, which
    are a header word and up to 255 data words.  One [struct ring_buf] is the state.

    The buffer area is a list of cells, bytes or words according to the mode; the header
    file forbids mixing the modes on one buffer.  The union [misc] is kept as its two words,
    so [dropped_put_count] and [tmp_tail] are the same word, as in the C union.

    [Ring b q] says that the buffer holds the sequence [q], oldest cell first;
    [Bytes b q p r] adds the state of unfinished claims: [p] is what stands in the cells
    claimed for writing behind [q], [r] the number of cells claimed for reading. *)

From Stdlib Require Import ZArith Lia Bool List.
From stdpp Require Import base tactics numbers list.
From S2P Require Import Prelude.

Local Open Scope Z_scope.

(** ** Data *)

Record ring_buf := mk_ring_buf {
  rb_head : Z;
  rb_tail : Z;
  misc_word0 : Z;
  misc_word1 : Z;
  rb_size : Z;
  rb_buf : list Z;
  rb_mask : Z;
}.

Definition with_rb_head v b := mk_ring_buf v (rb_tail b) (misc_word0 b) (misc_word1 b) (rb_size b) (rb_buf b) (rb_mask b).
Definition with_rb_tail v b := mk_ring_buf (rb_head b) v (misc_word0 b) (misc_word1 b) (rb_size b) (rb_buf b) (rb_mask b).
Definition with_misc_word0 v b := mk_ring_buf (rb_head b) (rb_tail b) v (misc_word1 b) (rb_size b) (rb_buf b) (rb_mask b).
Definition with_misc_word1 v b := mk_ring_buf (rb_head b) (rb_tail b) (misc_word0 b) v (rb_size b) (rb_buf b) (rb_mask b).
Definition with_rb_buf v b := mk_ring_buf (rb_head b) (rb_tail b) (misc_word0 b) (misc_word1 b) (rb_size b) v (rb_mask b).

(** The members of [union ring_buf_misc]. *)
Definition dropped_put_count := misc_word0.
Definition with_dropped_put_count := with_misc_word0.
Definition tmp_tail := misc_word0.
Definition with_tmp_tail := with_misc_word0.
Definition tmp_head := misc_word1.
Definition with_tmp_head := with_misc_word1.

Notation RB := (ST ring_buf).

Definition EAGAIN : Z := 11.
Definition EINVAL : Z := 22.
Definition EMSGSIZE : Z := 36.

(** ** Creation and queries *)

Definition is_power_of_two (x : Z) : bool := negb (x =? 0) && (Z.land x (u32 (x - 1)) =? 0).

(** [data] is the area the caller supplies. *)
Definition ring_buf_init (size : Z) (data : list Z) : ring_buf :=
  mk_ring_buf 0 0 0 0 size data (if is_power_of_two size then u32 (size - 1) else 0).

Definition ring_buf_custom_space_get (size head tail : Z) : Z :=
  if tail <? head then u32 (u32 (head - tail) - 1) else u32 (u32 (u32 (size - tail) + head) - 1).

Definition ring_buf_is_empty (b : ring_buf) : bool := rb_head b =? rb_tail b.

Definition ring_buf_reset : RB unit :=
  modify (with_rb_head 0);; modify (with_rb_tail 0);; modify (fun b => with_misc_word1 0 (with_misc_word0 0 b)).

Definition ring_buf_space_get (b : ring_buf) : Z := ring_buf_custom_space_get (rb_size b) (rb_head b) (rb_tail b).

Definition ring_buf_capacity_get (b : ring_buf) : Z := u32 (rb_size b - 1).

(** ** Memory *)

(** Overwrite the cells from [off] on by [src]. *)
Definition splice (off : nat) (src d : list Z) : list Z := take off d ++ src ++ drop (off + length src) d.

(** [memcpy] into the buffer area and out of it; touching a cell outside is a fault. *)
Definition memcpy_in (dst : Z) (data : list Z) (n : Z) : RB unit := fun b =>
  if (n <=? Z.of_nat (length data)) && (dst + n <=? Z.of_nat (length (rb_buf b)))
  then Done tt (with_rb_buf (splice (Z.to_nat dst) (take (Z.to_nat n) data) (rb_buf b)) b)
  else Fail Fault.

Definition memcpy_out (data : list Z) (pos : Z) (src n : Z) : RB (list Z) := fun b =>
  if (pos + n <=? Z.of_nat (length data)) && (src + n <=? Z.of_nat (length (rb_buf b)))
  then Done (splice (Z.to_nat pos) (take (Z.to_nat n) (drop (Z.to_nat src) (rb_buf b))) data) b
  else Fail Fault.

(** [buf->buf.buf32[index]]. *)
Definition buf32_get (index : Z) : RB Z := fun b =>
  match rb_buf b !! Z.to_nat index with Some x => Done x b | None => Fail Fault end.
Definition buf32_set (index x : Z) : RB unit := fun b =>
  match rb_buf b !! Z.to_nat index with
  | Some _ => Done tt (with_rb_buf (<[Z.to_nat index := x]> (rb_buf b)) b)
  | None => Fail Fault
  end.

(** ** Byte mode *)

Definition wrap (val max : Z) : Z := if max <=? val then u32 (val - max) else val.

(** Returns the offset that [*data] points to and the size allocated. *)
Definition ring_buf_put_claim (size : Z) : RB (Z * Z) :=
  b ← get;
  let space := ring_buf_custom_space_get (rb_size b) (rb_head b) (tmp_tail b) in
  let size := Z.min size space in
  let trail_size := u32 (rb_size b - tmp_tail b) in
  let allocated := Z.min trail_size size in
  let data := tmp_tail b in
  modify (with_tmp_tail (wrap (u32 (tmp_tail b + allocated)) (rb_size b)));;
  mret (data, allocated).

Definition ring_buf_put_finish (size : Z) : RB Z :=
  b ← get;
  if ring_buf_space_get b <? size then mret (- EINVAL)
  else
    modify (with_rb_tail (wrap (u32 (rb_tail b + size)) (rb_size b)));;
    b ← get;
    modify (with_tmp_tail (rb_tail b));;
    mret 0.

Fixpoint put_loop (fuel : nat) (data : list Z) (size total_size : Z) : RB Z :=
  match fuel with
  | O => fail OutOfFuel
  | S fuel =>
    '(dst, partial_size) ← ring_buf_put_claim size;
    memcpy_in dst data partial_size;;
    let total_size := u32 (total_size + partial_size) in
    let size := u32 (size - partial_size) in
    let data := drop (Z.to_nat partial_size) data in
    if negb (size =? 0) && negb (partial_size =? 0) then put_loop fuel data size total_size
    else mret total_size
  end.

Section Byte.
Context `{Config}.

(** A round that goes on takes at least one cell of the request: [size + 1] rounds are enough. *)
Definition ring_buf_put (data : list Z) (size : Z) : RB Z :=
  total_size ← put_loop (S (Z.to_nat size)) data size 0;
  err ← ring_buf_put_finish total_size;
  assert_ (err =? 0);;
  mret total_size.

Definition ring_buf_get_claim (size : Z) : RB (Z * Z) :=
  b ← get;
  let space := u32 (u32 (rb_size b - 1) - ring_buf_custom_space_get (rb_size b) (tmp_head b) (rb_tail b)) in
  let trail_size := u32 (rb_size b - tmp_head b) in
  let granted_size := Z.min size space in
  let granted_size := Z.min trail_size granted_size in
  let data := tmp_head b in
  modify (with_tmp_head (wrap (u32 (tmp_head b + granted_size)) (rb_size b)));;
  mret (data, granted_size).

Definition ring_buf_get_finish (size : Z) : RB Z :=
  b ← get;
  let allocated := u32 (u32 (rb_size b - 1) - ring_buf_space_get b) in
  if allocated <? size then mret (- EINVAL)
  else
    modify (with_rb_head (wrap (u32 (rb_head b + size)) (rb_size b)));;
    b ← get;
    modify (with_tmp_head (rb_head b));;
    mret 0.

(** [data] is the caller's whole output array; the pointer advances by [total_size]. *)
Fixpoint get_loop (fuel : nat) (data : list Z) (size total_size : Z) : RB (list Z * Z) :=
  match fuel with
  | O => fail OutOfFuel
  | S fuel =>
    '(src, partial_size) ← ring_buf_get_claim size;
    data ← memcpy_out data total_size src partial_size;
    let total_size := u32 (total_size + partial_size) in
    let size := u32 (size - partial_size) in
    if negb (size =? 0) && negb (partial_size =? 0) then get_loop fuel data size total_size
    else mret (data, total_size)
  end.

(** Returns the output array and the number of bytes read. *)
Definition ring_buf_get (data : list Z) (size : Z) : RB (list Z * Z) :=
  '(data, total_size) ← get_loop (S (Z.to_nat size)) data size 0;
  err ← ring_buf_get_finish total_size;
  assert_ (err =? 0);;
  mret (data, total_size).

End Byte.

(** ** Item mode *)

(** [struct ring_element]: bit fields packed from the least significant bit on. *)
Record ring_element := mk_ring_element { re_type : Z; re_length : Z; re_value : Z }.

Definition ring_element_word (e : ring_element) : Z :=
  Z.lor (Z.lor (re_type e) (Z.shiftl (re_length e) 16)) (Z.shiftl (re_value e) 24).

Definition ring_element_of (w : Z) : ring_element :=
  mk_ring_element (Z.land w (2 ^ 16 - 1)) (Z.land (Z.shiftr w 16) (2 ^ 8 - 1)) (Z.land (Z.shiftr w 24) (2 ^ 8 - 1)).

(** [(x) & mask] or [(x) % size], as [mask] says. *)
Definition ring_index (b : ring_buf) (x : Z) : Z :=
  if negb (rb_mask b =? 0) then Z.land x (rb_mask b) else x mod rb_size b.

(** [data[i]] of an array supplied by the caller. *)
Definition data_get (data : list Z) (i : Z) : RB Z := ofopt (data !! Z.to_nat i).
Definition data_set (data : list Z) (i x : Z) : RB (list Z) :=
  _ ← ofopt (data !! Z.to_nat i); mret (<[Z.to_nat i := x]> data).

Fixpoint item_put_loop (n : nat) (i : Z) (data : list Z) : RB unit :=
  match n with
  | O => skip
  | S n =>
    b ← get;
    let index := ring_index b (u32 (u32 (i + rb_tail b) + 1)) in
    x ← data_get data i;
    buf32_set index x;;
    item_put_loop n (i + 1) data
  end.

Definition ring_buf_item_put (type value : Z) (data : list Z) (size32 : Z) : RB Z :=
  b ← get;
  let space := ring_buf_space_get b in
  if size32 + 1 <=? space then
    buf32_set (rb_tail b) (ring_element_word (mk_ring_element type size32 value));;
    item_put_loop (Z.to_nat size32) 0 data;;
    modify (with_rb_tail (ring_index b (u32 (u32 (rb_tail b + size32) + 1))));;
    mret 0
  else
    modify (with_dropped_put_count (u32 (dropped_put_count b + 1)));;
    mret (- EMSGSIZE).

Fixpoint item_get_loop (n : nat) (i : Z) (data : list Z) : RB (list Z) :=
  match n with
  | O => mret data
  | S n =>
    b ← get;
    let index := ring_index b (u32 (u32 (i + rb_head b) + 1)) in
    x ← buf32_get index;
    data ← data_set data i x;
    item_get_loop n (i + 1) data
  end.

(** The result and the values of [*type], [*value], [data] and [*size32] afterwards. *)
Record item_out := mk_item_out { io_rc : Z; io_type : Z; io_value : Z; io_data : list Z; io_size32 : Z }.

Definition ring_buf_item_get (type value : Z) (data : list Z) (size32 : Z) : RB item_out :=
  b ← get;
  if ring_buf_is_empty b then mret (mk_item_out (- EAGAIN) type value data size32)
  else
    w ← buf32_get (rb_head b);
    let header := ring_element_of w in
    if size32 <? re_length header then mret (mk_item_out (- EMSGSIZE) type value data (re_length header))
    else
      data ← item_get_loop (Z.to_nat (re_length header)) 0 data;
      modify (with_rb_head (ring_index b (u32 (u32 (rb_head b + re_length header) + 1))));;
      mret (mk_item_out 0 (re_type header) (re_value header) data (re_length header)).

(** ** Arithmetic of the circle *)

(** One step around the circle is enough to reduce a sum of two positions. *)
Lemma mod_once size a : 0 <= a < 2 * size -> a mod size = if a <? size then a else a - size.
Proof.
  intros Ha. destruct (Z.ltb_spec a size); [by apply Z.mod_small; lia|].
  rewrite <-(Z.mod_small (a - size) size) by lia. rewrite <-(Z_mod_plus_full (a - size) 1). f_equal. lia.
Qed.

Lemma wrap_mod size a : 0 < size -> 0 <= a < 2 * size -> a < 2 ^ 32 -> wrap (u32 a) size = a mod size.
Proof. intros Hs Ha Hw. rewrite u32_small by lia. unfold wrap. rewrite mod_once by lia. zcases; [by lia|word_lia|done|lia]. Qed.

(** The free space behind [n] stored cells. *)
Lemma space_get_exact size head n :
  0 < size <= 2 ^ 31 -> 0 <= head < size -> 0 <= n < size ->
  ring_buf_custom_space_get size head ((head + n) mod size) = size - 1 - n.
Proof.
  intros Hs Hh Hn. rewrite mod_once by lia. unfold ring_buf_custom_space_get. zcases; word_lia.
Qed.

(** Positions of a run of cells that does not pass the end of the area. *)
Lemma mod_run size a j : 0 < size -> 0 <= j -> a mod size + j < size -> (a + j) mod size = a mod size + j.
Proof.
  intros Hs Hj Ha. rewrite <-Zplus_mod_idemp_l. apply Z.mod_small. pose proof (Z.mod_pos_bound a size). lia.
Qed.

Lemma mod_pos size a : 0 < size -> 0 <= a mod size < size.
Proof. intros. apply Z.mod_pos_bound. lia. Qed.

(** Different offsets below [size] are different cells. *)
Lemma mod_distinct size h i j : 0 < size -> 0 <= i < size -> 0 <= j < size -> (h + i) mod size = (h + j) mod size -> i = j.
Proof.
  intros Hs Hi Hj E. assert ((i - j) mod size = 0) as E0.
  { replace (i - j) with ((h + i) - (h + j)) by lia. rewrite Zminus_mod, E, Z.sub_diag. by apply Z.mod_0_l; lia. }
  apply Z.mod_divide in E0; [|lia]. destruct E0 as [k Hk]. assert (k = 0) by nia. lia.
Qed.

(** A power of two is reduced by its mask. *)
Lemma power_mask size x : 0 < size < 2 ^ 32 -> is_power_of_two size = true -> Z.land x (size - 1) = x mod size.
Proof.
  intros Hs Hp. unfold is_power_of_two in Hp. apply andb_true_iff in Hp as [_ Hp]. apply Z.eqb_eq in Hp.
  rewrite u32_small in Hp by lia. pose proof (Z.log2_nonneg size) as Hl.
  assert (size = 2 ^ Z.log2 size) as E.
  { destruct (Z.log2_spec size) as [H1 H2]; [lia|]. rewrite Z.pow_succ_r in H2 by done.
    destruct (Z.eq_dec size (2 ^ Z.log2 size)) as [|Hne]; [done|]. exfalso.
    assert (Z.testbit (Z.land size (size - 1)) (Z.log2 size) = true) as Hb.
    { rewrite Z.land_spec, (Z.bit_log2 size) by lia. cbn [andb].
      assert (Z.log2 (size - 1) = Z.log2 size) as <-.
      { apply Z.log2_unique; [done|]. rewrite Z.pow_succ_r by done. lia. }
      apply Z.bit_log2. pose proof (Z.pow_pos_nonneg 2 (Z.log2 size)). lia. }
    by rewrite Hp, Z.bits_0 in Hb. }
  rewrite E at 1. rewrite Z.sub_1_r, <-Z.ones_equiv.
  rewrite Z.land_ones by done. by rewrite <-E.
Qed.

(** ** Lists of cells *)

Lemma length_splice off src d : (off + length src <= length d)%nat -> length (splice off src d) = length d.
Proof. intros Hl. unfold splice. rewrite !length_app, length_take, length_drop. lia. Qed.

Lemma lookup_splice off src d i :
  (off + length src <= length d)%nat ->
  splice off src d !! i = if decide (off <= i < off + length src)%nat then src !! (i - off)%nat else d !! i.
Proof.
  intros Hl. unfold splice. case_decide as Hi.
  - rewrite lookup_app_r by (rewrite length_take; lia). rewrite length_take, Nat.min_l by lia.
    by rewrite lookup_app_l by lia.
  - destruct (decide (i < off)%nat).
    + rewrite lookup_app_l by (rewrite length_take; lia). by rewrite lookup_take_lt by lia.
    + rewrite lookup_app_r by (rewrite length_take; lia). rewrite length_take, Nat.min_l by lia.
      rewrite lookup_app_r by lia. rewrite lookup_drop. f_equal. lia.
Qed.

(** ** Cells around the circle *)

(** From position [h] on, the area [d] of [size] cells holds [q]. *)
Definition cells (size : Z) (d : list Z) (h : Z) (q : list Z) : Prop :=
  forall i x, q !! i = Some x -> d !! Z.to_nat ((h + Z.of_nat i) mod size) = Some x.

Section Cells.
Context (size : Z) (d : list Z).
Context (Hsize : 0 < size) (Hd : Z.of_nat (length d) = size).

Lemma cells_nil h : cells size d h [].
Proof. intros i x E. by rewrite lookup_nil in E. Qed.

Lemma cells_app h q1 q2 : cells size d h (q1 ++ q2) <-> cells size d h q1 /\ cells size d (h + Z.of_nat (length q1)) q2.
Proof.
  split.
  - intros Hc. split; intros i x E.
    + apply Hc. by apply lookup_app_l_Some.
    + replace (h + Z.of_nat (length q1) + Z.of_nat i) with (h + Z.of_nat (length q1 + i)%nat) by lia.
      apply Hc. rewrite lookup_app_r by lia. by replace (length q1 + i - length q1)%nat with i by lia.
  - intros [H1 H2] i x E. apply lookup_app_Some in E as [E|[Hi E]]; [by apply H1|].
    apply H2 in E. rewrite <-E. do 2 f_equal. f_equal. lia.
Qed.

Lemma cells_mod h q : cells size d (h mod size) q <-> cells size d h q.
Proof. unfold cells. split; intros Hc i x E; apply Hc in E; by rewrite <-E, ?Zplus_mod_idemp_l. Qed.

Lemma cells_exist h n : exists q, length q = n /\ cells size d h q.
Proof.
  induction n as [|n (q & Hq & Hc)]; [exists []; split; [done|apply cells_nil]|].
  destruct (lookup_lt_is_Some_2 d (Z.to_nat ((h + Z.of_nat n) mod size))) as [x Ex].
  { pose proof (mod_pos size (h + Z.of_nat n) Hsize). lia. }
  exists (q ++ [x]). split; [rewrite length_app; cbn; lia|]. apply cells_app. split; [done|].
  intros i y E. apply list_lookup_singleton_Some in E as [-> ->]. rewrite Hq, Z.add_0_r. done.
Qed.

(** A run that does not pass the end of the area is a contiguous piece of it. *)
Lemma cells_piece h q :
  h mod size + Z.of_nat (length q) <= size -> cells size d h q ->
  take (length q) (drop (Z.to_nat (h mod size)) d) = q.
Proof.
  intros Hr Hc. pose proof (mod_pos size h Hsize). apply list_eq. intros i. destruct (decide (i < length q)%nat) as [Hi|Hi].
  - rewrite lookup_take_lt, lookup_drop by done. destruct (lookup_lt_is_Some_2 q i Hi) as [x Ex]. rewrite Ex.
    apply Hc in Ex. rewrite mod_run in Ex by lia. rewrite <-Ex. f_equal. lia.
  - rewrite !lookup_ge_None_2; [done|lia|rewrite length_take; lia].
Qed.

(** Writing a contiguous piece behind [q] stores it there and keeps [q]. *)
Lemma cells_splice h q src :
  Z.of_nat (length q) + Z.of_nat (length src) <= size ->
  (h + Z.of_nat (length q)) mod size + Z.of_nat (length src) <= size ->
  cells size d h q ->
  cells size (splice (Z.to_nat ((h + Z.of_nat (length q)) mod size)) src d) h (q ++ src).
Proof.
  intros Hl Hr Hc. set (e := h + Z.of_nat (length q)) in *. pose proof (mod_pos size e Hsize) as He.
  assert (Hb : (Z.to_nat (e mod size) + length src <= length d)%nat) by lia.
  assert (Hpos : forall i, 0 <= (h + Z.of_nat i) mod size < size) by (intros; by apply mod_pos).
  intros i x E. rewrite lookup_splice by done. apply lookup_app_Some in E as [E|[Hi E]].
  - rewrite decide_False; [by apply Hc|]. intros [H1 H2]. pose proof (Hpos i). pose proof (lookup_lt_Some _ _ _ E) as Hlt.
    set (j := (h + Z.of_nat i) mod size - e mod size). assert (0 <= j < Z.of_nat (length src)) as Hj by (subst j; lia).
    assert ((h + Z.of_nat i) mod size = (h + (Z.of_nat (length q) + j)) mod size) as Eq.
    { replace (h + (Z.of_nat (length q) + j)) with (e + j) by (subst e; lia). rewrite (mod_run size e j) by lia. subst j. lia. }
    apply mod_distinct in Eq; lia.
  - pose proof (lookup_lt_Some _ _ _ E) as Hlt.
    replace (h + Z.of_nat i) with (e + Z.of_nat (i - length q)) by (subst e; lia). rewrite mod_run by lia.
    rewrite decide_True by lia. rewrite <-E. f_equal. lia.
Qed.

End Cells.

(** ** Representation *)

Record Ring (b : ring_buf) (q : list Z) : Prop := {
  rg_size : 0 < rb_size b <= 2 ^ 31;
  rg_area : Z.of_nat (length (rb_buf b)) = rb_size b;
  rg_head : 0 <= rb_head b < rb_size b;
  rg_tail : rb_tail b = (rb_head b + Z.of_nat (length q)) mod rb_size b;
  rg_fit : Z.of_nat (length q) < rb_size b;
  rg_cells : cells (rb_size b) (rb_buf b) (rb_head b) q;
}.

Record Bytes (b : ring_buf) (q p : list Z) (r : Z) : Prop := {
  by_ring : Ring b q;
  by_tail : tmp_tail b = (rb_head b + Z.of_nat (length (q ++ p))) mod rb_size b;
  by_fit : Z.of_nat (length (q ++ p)) < rb_size b;
  by_cells : cells (rb_size b) (rb_buf b) (rb_head b) (q ++ p);
  by_head : tmp_head b = (rb_head b + r) mod rb_size b;
  by_read : 0 <= r <= Z.of_nat (length q);
}.

Definition free (b : ring_buf) (q : list Z) : Z := rb_size b - 1 - Z.of_nat (length q).

Lemma ring_space b q : Ring b q -> ring_buf_space_get b = free b q.
Proof. intros R. unfold ring_buf_space_get. rewrite (rg_tail b q R). apply space_get_exact; [apply R|apply R|]. pose proof (rg_fit b q R). lia. Qed.

Lemma ring_empty b q : Ring b q -> ring_buf_is_empty b = bool_decide (q = []).
Proof.
  intros R. unfold ring_buf_is_empty. rewrite (rg_tail b q R). pose proof (rg_fit b q R). pose proof (rg_head b q R).
  rewrite mod_once by lia. case_bool_decide as E; [subst q; cbn [length]; zcases; lia|].
  assert (length q <> 0%nat) by (by intros ?%nil_length_inv). zcases; lia.
Qed.

(** ** Byte mode: claims *)

Section ByteFacts.
Context (b : ring_buf) (q p : list Z) (r : Z) (B : Bytes b q p r).

(** What a claim for writing can give: as much as is asked for, free, and contiguous. *)
Definition put_grant (n : Z) : Z := Z.min (rb_size b - tmp_tail b) (Z.min n (free b (q ++ p))).

Lemma bytes_bounds : 0 <= tmp_tail b < rb_size b /\ 0 <= tmp_head b < rb_size b /\ 0 <= free b (q ++ p).
Proof.
  pose proof (rg_size b q (by_ring _ _ _ _ B)). rewrite (by_tail _ _ _ _ B), (by_head _ _ _ _ B). pose proof (by_fit _ _ _ _ B).
  split; [apply mod_pos; lia|]. split; [apply mod_pos; lia|]. unfold free. lia.
Qed.

Lemma wp_put_claim n :
  0 <= n < 2 ^ 32 ->
  wp (ring_buf_put_claim n) (fun c b' => c = (tmp_tail b, put_grant n) /\ exists p', Z.of_nat (length p') = put_grant n /\
    Bytes b' q (p ++ p') r /\ rb_buf b' = rb_buf b /\ rb_size b' = rb_size b /\ rb_head b' = rb_head b) b.
Proof.
  intros Hn. pose proof (by_ring _ _ _ _ B) as R. destruct bytes_bounds as (Ht & Hh & Hf).
  pose proof (rg_size b q R). pose proof (rg_area b q R). pose proof (by_fit _ _ _ _ B) as Hfit.
  destruct (cells_exist (rb_size b) (rb_buf b) ltac:(lia) ltac:(done) (rb_head b + Z.of_nat (length (q ++ p))) (Z.to_nat (put_grant n))) as (p' & Hp' & Hc).
  assert (Hg : 0 <= put_grant n <= free b (q ++ p) /\ tmp_tail b + put_grant n <= rb_size b) by (unfold put_grant; lia).
  unfold ring_buf_put_claim. wp_steps.
  assert (ring_buf_custom_space_get (rb_size b) (rb_head b) (tmp_tail b) = free b (q ++ p)) as ->.
  { rewrite (by_tail _ _ _ _ B). apply space_get_exact; [done|apply R|lia]. }
  rewrite (u32_small (rb_size b - tmp_tail b)) by lia. change (Z.min _ (Z.min _ _)) with (put_grant n).
  split; [done|]. exists p'. split; [lia|]. split; [|done].
  assert (Hl : Z.of_nat (length (q ++ p ++ p')) = Z.of_nat (length (q ++ p)) + put_grant n) by (rewrite !length_app in *; lia).
  destruct B as [_ B2 B3 B4 B5 B6]. split; cbn.
  - by destruct R; split.
  - rewrite wrap_mod by lia. rewrite B2, Hl, Zplus_mod_idemp_l. f_equal. lia.
  - unfold free in *. lia.
  - rewrite app_assoc. by apply cells_app.
  - done.
  - done.
Qed.

(** What a claim for reading can give. *)
Definition get_grant (n : Z) : Z := Z.min (rb_size b - tmp_head b) (Z.min n (Z.of_nat (length q) - r)).

Lemma wp_get_claim n :
  0 <= n < 2 ^ 32 ->
  wp (ring_buf_get_claim n) (fun c b' => c = (tmp_head b, get_grant n) /\ Bytes b' q p (r + get_grant n) /\
    rb_buf b' = rb_buf b /\ rb_size b' = rb_size b /\ rb_head b' = rb_head b) b.
Proof.
  intros Hn. pose proof (by_ring _ _ _ _ B) as R. destruct bytes_bounds as (Ht & Hh & Hf).
  pose proof (rg_size b q R). pose proof (rg_fit b q R). pose proof (by_read _ _ _ _ B). pose proof (rg_head b q R).
  assert (Hg : 0 <= get_grant n <= Z.of_nat (length q) - r /\ tmp_head b + get_grant n <= rb_size b) by (unfold get_grant; lia).
  unfold ring_buf_get_claim. wp_steps.
  assert (ring_buf_custom_space_get (rb_size b) (tmp_head b) (rb_tail b) = rb_size b - 1 - (Z.of_nat (length q) - r)) as ->.
  { rewrite <-(space_get_exact (rb_size b) (tmp_head b)) by lia. f_equal.
    rewrite (rg_tail b q R), (by_head _ _ _ _ B), Zplus_mod_idemp_l. f_equal. lia. }
  rewrite (u32_small (rb_size b - 1)) by lia. replace (rb_size b - 1 - _) with (Z.of_nat (length q) - r) by lia.
  rewrite !u32_small by lia. change (Z.min _ (Z.min _ _)) with (get_grant n). split; [done|]. split; [|done].
  destruct B as [_ B2 B3 B4 B5 B6]. split; cbn; [by destruct R; split|done|done|done| |lia].
  rewrite <-(u32_small (tmp_head b + _)) by lia. rewrite wrap_mod by lia. rewrite B5, Zplus_mod_idemp_l. f_equal. lia.
Qed.

(** The claimed bytes can be read in place. *)
Lemma get_piece n : 0 <= n ->
  take (Z.to_nat (get_grant n)) (drop (Z.to_nat (tmp_head b)) (rb_buf b)) = take (Z.to_nat (get_grant n)) (drop (Z.to_nat r) q).
Proof.
  intros Hn. pose proof (by_ring _ _ _ _ B) as R. destruct bytes_bounds as (Ht & Hh & Hf).
  pose proof (rg_size b q R). pose proof (by_read _ _ _ _ B). pose proof (rg_area b q R).
  assert (Hg : 0 <= get_grant n <= Z.of_nat (length q) - r /\ tmp_head b + get_grant n <= rb_size b) by (unfold get_grant; lia).
  set (x := take (Z.to_nat (get_grant n)) (drop (Z.to_nat r) q)).
  assert (Hx : Z.of_nat (length x) = get_grant n) by (subst x; rewrite length_take, length_drop; lia).
  replace (Z.to_nat (get_grant n)) with (length x) by lia. rewrite (by_head _ _ _ _ B) in *.
  apply cells_piece; [lia|lia|]. pose proof (rg_cells b q R) as Hc.
  rewrite <-(take_drop (Z.to_nat r) q) in Hc. apply cells_app in Hc as [_ Hc].
  rewrite length_take, Nat.min_l in Hc by lia. rewrite <-(take_drop (Z.to_nat (get_grant n)) (drop _ q)) in Hc.
  apply cells_app in Hc as [Hc _]. by rewrite Z2Nat.id in Hc by lia.
Qed.

(** Confirming a write makes the cells part of the contents. *)
Lemma wp_put_finish p1 :
  Z.of_nat (length (q ++ p1)) < rb_size b -> cells (rb_size b) (rb_buf b) (rb_head b) (q ++ p1) ->
  wp (ring_buf_put_finish (Z.of_nat (length p1))) (fun rc b' => rc = 0 /\ Bytes b' (q ++ p1) [] r /\ rb_size b' = rb_size b) b.
Proof.
  intros Hl Hc. pose proof (by_ring _ _ _ _ B) as R. pose proof (rg_size b q R). pose proof (rg_head b q R).
  rewrite length_app in Hl. unfold ring_buf_put_finish. wp_steps. rewrite (ring_space b q R). unfold free.
  rewrite (proj2 (Z.ltb_ge _ _)) by lia. wp_steps. split; [done|]. split; [|done].
  assert (Ht : wrap (u32 (rb_tail b + Z.of_nat (length p1))) (rb_size b) = (rb_head b + Z.of_nat (length (q ++ p1))) mod rb_size b).
  { pose proof (mod_pos (rb_size b) (rb_head b + Z.of_nat (length q))). rewrite (rg_tail b q R).
    rewrite wrap_mod by lia. rewrite Zplus_mod_idemp_l, length_app. f_equal. lia. }
  destruct B as [_ _ _ _ B5 B6]. rewrite !length_app in *. split; cbn; rewrite ?app_nil_r, ?length_app; [|done|lia|done|done|lia].
  destruct R. split; cbn; rewrite ?length_app; [done|done|done|done|lia|done].
Qed.

(** Confirming a read drops the cells. *)
Lemma wp_get_finish n :
  0 <= n <= Z.of_nat (length q) ->
  wp (ring_buf_get_finish n) (fun rc b' => rc = 0 /\ Bytes b' (drop (Z.to_nat n) q) p 0 /\ rb_size b' = rb_size b) b.
Proof.
  intros Hn. pose proof (by_ring _ _ _ _ B) as R. pose proof (rg_size b q R). pose proof (rg_head b q R). pose proof (rg_fit b q R).
  unfold ring_buf_get_finish. wp_steps. rewrite (ring_space b q R). unfold free.
  rewrite (u32_small (rb_size b - 1)) by lia. rewrite u32_small by lia. rewrite (proj2 (Z.ltb_ge _ _)) by lia. wp_steps. split; [done|]. split; [|done].
  assert (Hh : wrap (u32 (rb_head b + n)) (rb_size b) = (rb_head b + n) mod rb_size b) by (apply wrap_mod; lia).
  assert (Hcut : forall l, (length (drop (Z.to_nat n) q ++ l) = length (q ++ l) - Z.to_nat n)%nat) by (intros; rewrite !length_app, length_drop; lia).
  assert (Hcells : forall l, cells (rb_size b) (rb_buf b) (rb_head b) (q ++ l) -> cells (rb_size b) (rb_buf b) ((rb_head b + n) mod rb_size b) (drop (Z.to_nat n) q ++ l)).
  { intros l Hc. rewrite <-(take_drop (Z.to_nat n) q), <-app_assoc in Hc. apply cells_app in Hc as [_ Hc].
    rewrite length_take, Nat.min_l in Hc by lia. rewrite Z2Nat.id in Hc by lia. by apply cells_mod. }
  pose proof (mod_pos (rb_size b) (rb_head b + n)) as Hm. destruct B as [_ B2 B3 B4 B5 B6]. pose proof (Hcut p) as Hp. unfold tmp_tail in B2.
  pose proof (length_app q p). split; cbn; rewrite ?Hh.
  - destruct R as [R1 R2 R3 R4 R5 R6]. split; cbn; rewrite ?Hh; [done|done|lia| |rewrite length_drop; lia|].
    + rewrite R4, Zplus_mod_idemp_l, length_drop. f_equal. lia.
    + rewrite <-(app_nil_r (drop _ _)). apply Hcells. by rewrite app_nil_r.
  - rewrite B2, Hp, Zplus_mod_idemp_l. f_equal. lia.
  - lia.
  - by apply Hcells.
  - by rewrite Z.add_0_r, Z.mod_mod by lia.
  - lia.
Qed.

End ByteFacts.

(** ** Byte mode: copying *)

Lemma wp_memcpy_in b q p p' r data :
  Bytes b q (p ++ p') r ->
  let dst := (rb_head b + Z.of_nat (length (q ++ p))) mod rb_size b in
  dst + Z.of_nat (length p') <= rb_size b -> (length p' <= length data)%nat ->
  wp (memcpy_in dst data (Z.of_nat (length p')))
     (fun _ b' => Bytes b' q (p ++ take (length p') data) r /\ rb_size b' = rb_size b /\ rb_head b' = rb_head b) b.
Proof.
  intros B dst Hd Hl. pose proof (by_ring _ _ _ _ B) as R. pose proof (rg_size b q R). pose proof (rg_area b q R) as Ha.
  pose proof (mod_pos (rb_size b) (rb_head b + Z.of_nat (length (q ++ p)))) as Hp. fold dst in Hp.
  unfold wp, memcpy_in. rewrite (proj2 (Z.leb_le _ _)), (proj2 (Z.leb_le _ _)) by lia. cbn [andb]. rewrite Nat2Z.id.
  set (src := take (length p') data). assert (Hs : length src = length p') by (subst src; rewrite length_take; lia).
  destruct B as [_ B2 B3 B4 B5 B6]. rewrite !app_assoc in *. assert (Hlen : length ((q ++ p) ++ src) = length ((q ++ p) ++ p')) by (rewrite !(length_app (q ++ p)); lia).
  assert (Hc : cells (rb_size b) (splice (Z.to_nat dst) src (rb_buf b)) (rb_head b) ((q ++ p) ++ src)).
  { pose proof (length_app (q ++ p) p'). apply cells_splice; [lia|done|lia|lia|]. by apply cells_app in B4 as [B4 _]. }
  split; [|done]. split; cbn.
  - destruct R as [R1 R2 R3 R4 R5 R6]. split; cbn; [done| |done|done|done|].
    + rewrite length_splice; lia.
    + rewrite <-app_assoc in Hc. by apply cells_app in Hc as [Hc _].
  - by rewrite app_assoc, Hlen.
  - by rewrite app_assoc, Hlen.
  - by rewrite app_assoc.
  - done.
  - done.
Qed.

(** The copying loop takes as much as is asked for and fits. *)
Lemma wp_put_loop fuel : forall b q p r data size total,
  Bytes b q p r -> 0 <= size < 2 ^ 32 -> size <= Z.of_nat (length data) -> total = Z.of_nat (length p) -> (Z.to_nat size < fuel)%nat ->
  let k := Z.min size (free b (q ++ p)) in
  wp (put_loop fuel data size total)
     (fun t b' => t = total + k /\ Bytes b' q (p ++ take (Z.to_nat k) data) r /\ rb_size b' = rb_size b) b.
Proof.
  induction fuel as [|fuel IH]; intros b q p r data size total B Hn Hd -> Hf k; [lia|].
  destruct (bytes_bounds b q p r B) as (Ht & _ & Hfr). pose proof (rg_size b q (by_ring _ _ _ _ B)) as Hs.
  pose proof (by_tail _ _ _ _ B) as Et. pose proof (by_fit _ _ _ _ B) as Hfit. pose proof (length_app q p) as Hqp.
  cbn [put_loop]. eapply wp_seq; [by apply wp_put_claim|]. intros [dst a] b1 ([= -> ->] & p' & Hp' & B1 & Eb & Es & Eh).
  set (a := put_grant b q p size) in *. assert (Ha : 0 <= a <= k /\ (a = 0 -> k = 0)) by (subst a k; unfold put_grant; lia).
  assert (Hat : a <= rb_size b - tmp_tail b) by (subst a; unfold put_grant; lia).
  rewrite <-Hp'. rewrite Et. rewrite <-Es, <-Eh. eapply wp_seq.
  { apply (wp_memcpy_in b1 q p p' r data); [done|rewrite Eh, Es, <-Et; lia|lia]. }
  intros _ b2 (B2 & Es2 & _). rewrite Nat2Z.id, Hp', !u32_small by lia. set (p2 := take (length p') data) in *.
  assert (Hp2 : Z.of_nat (length p2) = a) by (subst p2; rewrite length_take; lia).
  assert (Hfree2 : free b2 (q ++ p ++ p2) = free b (q ++ p) - a) by (unfold free; rewrite app_assoc, (length_app (q ++ p)); lia).
  destruct (negb (size - a =? 0) && negb (a =? 0)) eqn:Hgo; zbool.
  - eapply wp_mono; [apply (IH b2 q (p ++ p2) r); [done|lia|rewrite length_drop; lia|rewrite length_app; lia|lia]|].
    cbn beta. intros t b3 (-> & B3 & Es3). rewrite Hfree2 in B3 |- *. split; [subst k; lia|]. split; [|congruence].
    rewrite <-app_assoc in B3. subst p2. rewrite take_take_drop in B3.
    by replace (length p' + _)%nat with (Z.to_nat k) in B3 by (subst k; lia).
  - apply wp_ret. assert (a = k) as E by (apply andb_false_iff in Hgo as [Hgo|Hgo]; zbool; subst k; lia).
    split; [lia|]. split; [|congruence]. by replace (Z.to_nat k) with (length p') by lia.
Qed.

(** The output array [data] with [x] written at [pos]. *)
Lemma splice_next (pos : nat) x y (data : list Z) :
  (pos + length x + length y <= length data)%nat -> splice (pos + length x) y (splice pos x data) = splice pos (x ++ y) data.
Proof.
  intros Hl. apply list_eq. intros i. rewrite !lookup_splice by (rewrite ?length_splice, ?length_app; lia).
  rewrite length_app. repeat case_decide; try lia; [|by rewrite lookup_app_l by lia|done].
  rewrite lookup_app_r by lia. f_equal. lia.
Qed.

Lemma splice_nil pos (data : list Z) : splice pos [] data = data.
Proof. unfold splice. cbn. by rewrite Nat.add_0_r, take_drop. Qed.

(** [r] bytes were read before. *)
Lemma wp_get_loop fuel : forall b q p r data size total,
  Bytes b q p r -> 0 <= size < 2 ^ 32 -> 0 <= total -> total + size <= Z.of_nat (length data) -> total + size < 2 ^ 32 -> (Z.to_nat size < fuel)%nat ->
  let k := Z.min size (Z.of_nat (length q) - r) in
  wp (get_loop fuel data size total)
     (fun t b' => t = (splice (Z.to_nat total) (take (Z.to_nat k) (drop (Z.to_nat r) q)) data, total + k) /\
        Bytes b' q p (r + k) /\ rb_size b' = rb_size b) b.
Proof.
  induction fuel as [|fuel IH]; intros b q p r data size total B Hn Ht Hd Hw Hf k; [lia|].
  destruct (bytes_bounds b q p r B) as (_ & Hh & _). pose proof (by_ring _ _ _ _ B) as R. pose proof (rg_size b q R) as Hs.
  pose proof (by_read _ _ _ _ B) as Hr. pose proof (rg_area b q R) as Harea.
  cbn [get_loop]. eapply wp_seq; [by apply (wp_get_claim b q p r B)|]. intros [src a] b1 ([= -> ->] & B1 & Eb & Es & Eh).
  pose proof (get_piece b q p r B size ltac:(lia)) as Hpiece. set (a := get_grant b q r size) in *.
  assert (Ha : 0 <= a <= k /\ (a = 0 -> k = 0) /\ a <= rb_size b - tmp_head b) by (subst a k; unfold get_grant; lia).
  set (x := take (Z.to_nat a) (drop (Z.to_nat r) q)) in *.
  assert (Hx : Z.of_nat (length x) = a) by (subst x; rewrite length_take, length_drop; lia).
  unfold memcpy_out at 1. apply wp_bind. unfold wp at 1. rewrite Eb. rewrite !(proj2 (Z.leb_le _ _)) by lia. cbn [andb]. rewrite Hpiece.
  rewrite !u32_small by lia. destruct (negb (size - a =? 0) && negb (a =? 0)) eqn:Hgo; zbool.
  - eapply wp_mono; [apply (IH b1 q p (r + a)); [done|lia|lia|rewrite length_splice; lia|lia|lia]|].
    cbn beta. intros t b3 (-> & B3 & Es3). replace (r + a + _) with (r + k) in B3 by (subst k; lia).
    split; [|split; [done|congruence]]. f_equal; [|subst k; lia].
    replace (Z.to_nat (total + a)) with (Z.to_nat total + length x)%nat by lia.
    rewrite splice_next by (rewrite ?length_take, ?length_drop; lia). f_equal. subst x.
    replace (Z.to_nat (r + a)) with (Z.to_nat r + Z.to_nat a)%nat by lia. rewrite <-drop_drop, take_take_drop. f_equal. subst k. lia.
  - apply wp_ret. assert (a = k) as E by (apply andb_false_iff in Hgo as [Hgo|Hgo]; zbool; subst k; lia).
    subst x. rewrite E in *. done.
Qed.

Section ByteOps.
Context `{Config}.

(** [put] appends what fits. *)
Lemma wp_ring_buf_put b q r data size :
  Bytes b q [] r -> 0 <= size < 2 ^ 32 -> size <= Z.of_nat (length data) ->
  let k := Z.min size (free b q) in
  wp (ring_buf_put data size) (fun n b' => n = k /\ Bytes b' (q ++ take (Z.to_nat k) data) [] r /\ rb_size b' = rb_size b) b.
Proof.
  intros B Hn Hd k. unfold ring_buf_put. destruct (bytes_bounds b q [] r B) as (_ & _ & Hfr). rewrite app_nil_r in Hfr.
  eapply wp_seq; [apply (wp_put_loop _ b q [] r); [done|lia|lia|done|lia]|]. rewrite app_nil_r. fold k. cbn [app length Z.of_nat].
  intros t b1 (-> & B1 & Es). set (x := take (Z.to_nat k) data) in *. assert (Hx : Z.of_nat (length x) = k) by (subst x k; rewrite length_take; lia).
  rewrite Z.add_0_l, <-Hx.
  eapply wp_seq; [apply (wp_put_finish b1 q x r B1 x); apply B1|]. intros rc b2 (-> & B2 & Es2).
  apply wp_bind, wp_assert; [done|]. apply wp_ret. split; [done|]. split; [done|congruence].
Qed.

(** [get] delivers and removes the oldest bytes. *)
Lemma wp_ring_buf_get b q p data size :
  Bytes b q p 0 -> 0 <= size < 2 ^ 32 -> size <= Z.of_nat (length data) ->
  let k := Z.min size (Z.of_nat (length q)) in
  wp (ring_buf_get data size)
     (fun o b' => o = (take (Z.to_nat k) q ++ drop (Z.to_nat k) data, k) /\ Bytes b' (drop (Z.to_nat k) q) p 0 /\ rb_size b' = rb_size b) b.
Proof.
  intros B Hn Hd k. unfold ring_buf_get. eapply wp_seq; [apply (wp_get_loop _ b q p 0); [done|lia|lia|lia|lia|lia]|].
  rewrite Z.sub_0_r. fold k. rewrite drop_0. cbn [Z.add]. intros o b1 (-> & B1 & Es).
  eapply wp_seq; [apply (wp_get_finish b1 q p k B1 k); subst k; lia|]. intros rc b2 (-> & B2 & Es2).
  apply wp_bind, wp_assert; [done|]. apply wp_ret. split; [|split; [done|congruence]]. f_equal.
  unfold splice. cbn [Z.to_nat take app]. rewrite length_take, Nat.min_l by (subst k; lia). done.
Qed.

(** Whatever the state, the copying loops end. *)
Lemma put_claim_grants b size dst a b' :
  0 <= size -> ring_buf_put_claim size b = Done (dst, a) b' -> 0 <= a <= size.
Proof.
  intros Hn [= <- <- <-]. pose proof (u32_range (rb_size b - tmp_tail b)).
  assert (0 <= ring_buf_custom_space_get (rb_size b) (rb_head b) (tmp_tail b)) by (unfold ring_buf_custom_space_get; case_match; apply u32_range). lia.
Qed.

Lemma get_claim_grants b size dst a b' :
  0 <= size -> ring_buf_get_claim size b = Done (dst, a) b' -> 0 <= a <= size.
Proof. intros Hn [= <- <- <-]. pose proof (u32_range (rb_size b - tmp_head b)). match goal with |- context [u32 (u32 ?x - ?y)] => pose proof (u32_range (u32 x - y)) end. lia. Qed.

Lemma put_loop_ends fuel : forall data size total b,
  0 <= size < 2 ^ 32 -> (Z.to_nat size < fuel)%nat -> put_loop fuel data size total b <> Fail OutOfFuel.
Proof.
  induction fuel as [|fuel IH]; intros data size total b Hn Hf; [lia|]. cbn [put_loop]. unfold mbind, ST_bind.
  destruct (ring_buf_put_claim size b) as [[dst a] b1|] eqn:E; [|done]. apply put_claim_grants in E; [|lia].
  unfold memcpy_in. destruct (_ && _); [|done]. destruct (negb _ && _) eqn:Hgo; [|done]. zbool. rewrite (u32_small (size - a)) in * by lia. apply IH; lia.
Qed.

Lemma get_loop_ends fuel : forall data size total b,
  0 <= size < 2 ^ 32 -> (Z.to_nat size < fuel)%nat -> get_loop fuel data size total b <> Fail OutOfFuel.
Proof.
  induction fuel as [|fuel IH]; intros data size total b Hn Hf; [lia|]. cbn [get_loop]. unfold mbind, ST_bind.
  destruct (ring_buf_get_claim size b) as [[src a] b1|] eqn:E; [|done]. apply get_claim_grants in E; [|lia].
  unfold memcpy_out. destruct (_ && _); [|done]. destruct (negb _ && _) eqn:Hgo; [|done]. zbool. rewrite (u32_small (size - a)) in * by lia. apply IH; lia.
Qed.

(** Confirming never stops, and an assertion is not a loop. *)
Lemma put_finish_done n b : exists rc b', ring_buf_put_finish n b = Done rc b'.
Proof. unfold ring_buf_put_finish, mbind, ST_bind, get. destruct (_ <? n); by do 2 eexists. Qed.

Lemma get_finish_done n b : exists rc b', ring_buf_get_finish n b = Done rc b'.
Proof. unfold ring_buf_get_finish, mbind, ST_bind, get. destruct (_ <? n); by do 2 eexists. Qed.

Lemma assert_ends {A} t (a : A) (b : ring_buf) : (assert_ t;; mret a) b <> Fail OutOfFuel.
Proof. unfold mbind, ST_bind, assert_. by destruct (CONFIG_ASSERT && negb t). Qed.

End ByteOps.

(** ** Item mode: headers and positions *)

Definition element_ok (e : ring_element) : Prop :=
  0 <= re_type e < 2 ^ 16 /\ 0 <= re_length e < 2 ^ 8 /\ 0 <= re_value e < 2 ^ 8.

(** The bit fields of a header word are separate. *)
Lemma header_roundtrip e : element_ok e -> ring_element_of (ring_element_word e) = e.
Proof.
  destruct e as [t l v]. intros (Ht & Hl & Hv). cbn in *. unfold ring_element_of, ring_element_word. cbn.
  change (2 ^ 16 - 1) with (Z.ones 16). change (2 ^ 8 - 1) with (Z.ones 8). rewrite !Z.land_ones by lia.
  rewrite !Z.shiftl_mul_pow2, !Z.shiftr_div_pow2 by lia.
  rewrite (lor_add 16 t l), (lor_add 24 _ v) by lia.
  f_equal; Z.to_euclidean_division_equations; lia.
Qed.

(** Without a mask, or with the mask of a power of two, positions are reduced modulo [size]. *)
Definition mask_ok (b : ring_buf) : Prop :=
  rb_mask b = 0 \/ is_power_of_two (rb_size b) = true /\ rb_mask b = rb_size b - 1.

Lemma ring_index_mod b x : mask_ok b -> 0 < rb_size b <= 2 ^ 31 -> ring_index b x = x mod rb_size b.
Proof.
  intros [E|[Hp E]] Hs; unfold ring_index; rewrite E; [done|]. destruct (Z.eqb_spec (rb_size b - 1) 0) as [E1|E1]; [done|].
  cbn [negb]. apply power_mask; [lia|done].
Qed.

Lemma splice_one off x d : (off < length d)%nat -> splice off [x] d = <[off := x]> d.
Proof.
  intros Hl. apply list_eq. intros i. rewrite lookup_splice by (cbn; lia). cbn [length]. case_decide as Hi.
  - replace i with off by lia. by rewrite Nat.sub_diag, list_lookup_insert_eq.
  - by rewrite list_lookup_insert_ne by lia.
Qed.

(** Storing one more cell behind [q]. *)
Lemma cells_store size d h q x :
  0 < size -> Z.of_nat (length d) = size -> Z.of_nat (length q) < size -> cells size d h q ->
  let e := Z.to_nat ((h + Z.of_nat (length q)) mod size) in
  is_Some (d !! e) /\ length (<[e := x]> d) = length d /\ cells size (<[e := x]> d) h (q ++ [x]).
Proof.
  intros Hs Hd Hq Hc e. pose proof (mod_pos size (h + Z.of_nat (length q)) Hs). assert (He : (e < length d)%nat) by (subst e; lia).
  split; [by apply lookup_lt_is_Some_2|]. split; [by rewrite length_insert|]. rewrite <-splice_one by done.
  apply cells_splice; [done|done|cbn; lia|cbn; lia|done].
Qed.

Lemma ring_index_buf d b x : ring_index (with_rb_buf d b) x = ring_index b x.
Proof. done. Qed.

(** The state of a buffer whose area is [d] while an item is written. *)
Lemma wp_item_put_loop b q : Ring b q -> mask_ok b -> forall n i w d data,
  length d = length (rb_buf b) -> cells (rb_size b) d (rb_head b) (q ++ w) -> length w = S i -> (i + n <= length data)%nat ->
  Z.of_nat (i + n) < 2 ^ 8 -> Z.of_nat (length q + S (i + n)) < rb_size b ->
  wp (item_put_loop n (Z.of_nat i) data) (fun _ b' => exists d', b' = with_rb_buf d' b /\ length d' = length (rb_buf b) /\
     cells (rb_size b) d' (rb_head b) (q ++ w ++ take n (drop i data))) (with_rb_buf d b).
Proof.
  intros R Hm. pose proof (rg_size b q R). pose proof (rg_area b q R). pose proof (rg_head b q R).
  induction n as [|n IH]; intros i w d data Hd Hc Hw Hl Hi Hfit.
  - apply wp_skip. exists d. by rewrite take_0, app_nil_r.
  - destruct (lookup_lt_is_Some_2 data i ltac:(lia)) as [x Ex]. cbn [item_put_loop]. wp_steps. cbn [rb_tail with_rb_buf].
    unfold data_get. rewrite Nat2Z.id. eapply wp_ofopt; [done|]. rewrite ring_index_buf, ring_index_mod by done.
    pose proof (rg_fit b q R). pose proof (mod_pos (rb_size b) (rb_head b + Z.of_nat (length q))) as Hp. rewrite (rg_tail b q R).
    rewrite (u32_small (Z.of_nat i + _)), u32_small by lia.
    assert (((Z.of_nat i + (rb_head b + Z.of_nat (length q)) mod rb_size b + 1) mod rb_size b)
      = (rb_head b + Z.of_nat (length (q ++ w))) mod rb_size b) as ->.
    { rewrite length_app, Hw. rewrite <-Z.add_assoc, (Z.add_comm (Z.of_nat i)), <-Z.add_assoc, Zplus_mod_idemp_l. f_equal. lia. }
    destruct (cells_store (rb_size b) d (rb_head b) (q ++ w) x) as ([y Ey] & Hd' & Hc'); [lia|lia|rewrite length_app; lia|done|].
    apply wp_bind. unfold wp at 1, buf32_set. cbn [rb_buf with_rb_buf]. rewrite Ey.
    replace (Z.of_nat i + 1) with (Z.of_nat (S i)) by lia. rewrite <-app_assoc in Hc'.
    eapply wp_mono; [apply (IH (S i) (w ++ [x]) _ data); [by rewrite Hd'|done|rewrite length_app; cbn; lia|lia|lia|lia]|].
    cbn beta. intros _ b' (d' & -> & Hld & Hcd). exists d'. split; [done|]. split; [done|].
    rewrite (drop_S data x i Ex). by rewrite <-app_assoc in Hcd.
Qed.

(** Reading an item back copies its words into the caller's array. *)
Lemma wp_item_get_loop b h words : cells (rb_size b) (rb_buf b) (rb_head b) (h :: words) -> mask_ok b ->
  0 < rb_size b <= 2 ^ 31 -> 0 <= rb_head b < rb_size b -> forall n i data,
  (i + n <= length words)%nat -> (i + n <= length data)%nat -> Z.of_nat (i + n) < 2 ^ 8 ->
  wp (item_get_loop n (Z.of_nat i) data) (fun data' b' => b' = b /\ data' = splice i (take n (drop i words)) data) b.
Proof.
  intros Hc Hm Hs Hh. induction n as [|n IH]; intros i data Hw Hd Hi.
  - apply wp_ret. by rewrite take_0, splice_nil.
  - destruct (lookup_lt_is_Some_2 words i ltac:(lia)) as [x Ex]. destruct (lookup_lt_is_Some_2 data i ltac:(lia)) as [y Ey].
    cbn [item_get_loop]. wp_steps. rewrite (u32_small (Z.of_nat i + _)), u32_small, ring_index_mod by (done || lia).
    pose proof (Hc (S i) x Ex) as Hx. unfold wp at 1, buf32_get.
    replace (Z.of_nat i + rb_head b + 1) with (rb_head b + Z.of_nat (S i)) by lia. rewrite Hx.
    unfold data_set. rewrite Nat2Z.id. apply wp_bind, wp_bind. eapply wp_ofopt; [done|]. apply wp_ret.
    replace (Z.of_nat i + 1) with (Z.of_nat (S i)) by lia.
    eapply wp_mono; [apply IH; [lia|rewrite length_insert; lia|lia]|]. cbn beta. intros data' b' [-> ->]. split; [done|].
    rewrite (drop_S words x i Ex). cbn [take]. rewrite <-(splice_one i x data) by lia.
    replace (S i) with (i + length [x])%nat at 1 by (cbn; lia).
    rewrite (splice_next i [x]); [done|]. rewrite length_take, length_drop. cbn. lia.
Qed.

(** ** Items *)

Record ring_item := mk_item { it_type : Z; it_value : Z; it_data : list Z }.

Definition item_ok (it : ring_item) : Prop :=
  0 <= it_type it < 2 ^ 16 /\ 0 <= it_value it < 2 ^ 8 /\ Z.of_nat (length (it_data it)) < 2 ^ 8.

Definition item_header (it : ring_item) : ring_element :=
  mk_ring_element (it_type it) (Z.of_nat (length (it_data it))) (it_value it).

Definition item_words (it : ring_item) : list Z := ring_element_word (item_header it) :: it_data it.

(** The buffer holds the items [l], oldest first. *)
Record Items (b : ring_buf) (l : list ring_item) : Prop := {
  im_ring : Ring b (concat (item_words <$> l));
  im_mask : mask_ok b;
  im_items : Forall item_ok l;
}.

Lemma header_item it : item_ok it -> ring_element_of (ring_element_word (item_header it)) = item_header it.
Proof. intros (? & ? & ?). apply header_roundtrip. unfold element_ok, item_header. cbn. lia. Qed.

Definition item_free (b : ring_buf) (l : list ring_item) : Z := free b (concat (item_words <$> l)).

Lemma wp_item_put b l it data :
  Items b l -> item_ok it -> take (length (it_data it)) data = it_data it ->
  let n := Z.of_nat (length (it_data it)) in
  wp (ring_buf_item_put (it_type it) (it_value it) data n)
     (fun rc b' => rb_size b' = rb_size b /\
        (n < item_free b l /\ rc = 0 /\ Items b' (l ++ [it]) \/
         item_free b l <= n /\ rc = - EMSGSIZE /\ b' = with_dropped_put_count (u32 (dropped_put_count b + 1)) b)) b.
Proof.
  intros [R Hm Hl] Hit Hdata n. set (q := concat _) in *. pose proof (rg_size b q R). pose proof (rg_area b q R). pose proof (rg_head b q R).
  pose proof (rg_fit b q R). unfold ring_buf_item_put. wp_steps. rewrite (ring_space b q R).
  destruct (Z.leb_spec (n + 1) (free b q)) as [Hfit|Hfit]; wp_steps; [|split; [done|right; unfold item_free; fold q; split; [lia|done]]].
  assert (Hlen : (length (it_data it) <= length data)%nat) by (rewrite <-Hdata, length_take; lia).
  destruct (cells_store (rb_size b) (rb_buf b) (rb_head b) q (ring_element_word (item_header it))) as ([y Ey] & Hd' & Hc'); [lia|lia|lia|apply R|].
  rewrite <-(rg_tail b q R) in Ey, Hd', Hc'. unfold wp at 1, buf32_set. rewrite Ey. fold (item_header it). unfold free in Hfit.
  apply wp_bind. subst n. rewrite Nat2Z.id. pose proof Hit as (Ht1 & Ht2 & Ht3).
  eapply wp_mono; [apply (wp_item_put_loop b q R Hm (length (it_data it)) 0 [_] _ data Hd' Hc'); [done|lia|lia|lia]|].
  cbn beta. intros _ b' (d' & -> & Hld & Hcd). wp_steps. split; [done|]. left. unfold item_free. fold q. unfold free. split; [lia|]. split; [done|].
  rewrite drop_0, Hdata in Hcd.
  assert (Eq : concat (item_words <$> l ++ [it]) = q ++ item_words it) by (rewrite fmap_app, concat_app; cbn; by rewrite app_nil_r).
  assert (Hql : length (q ++ item_words it) = (length q + S (length (it_data it)))%nat) by (rewrite length_app; cbn; lia).
  split; [|done|apply Forall_app_2; [done|by apply Forall_singleton]]. rewrite Eq. split; cbn [rb_size rb_buf rb_head rb_tail with_rb_tail with_rb_buf]; [done|lia|done| |lia|done].
  pose proof (mod_pos (rb_size b) (rb_head b + Z.of_nat (length q))) as Hp. rewrite (rg_tail b q R).
  rewrite ring_index_mod, (u32_small (_ + Z.of_nat _)), u32_small by (done || lia). rewrite <-Z.add_assoc, Zplus_mod_idemp_l. f_equal. lia.
Qed.

Lemma wp_item_get b l type value data size32 :
  Items b l -> 0 <= size32 <= Z.of_nat (length data) -> size32 < 2 ^ 8 ->
  wp (ring_buf_item_get type value data size32) (fun o b' =>
     match l with
     | [] => b' = b /\ o = mk_item_out (- EAGAIN) type value data size32
     | it :: l' =>
       let n := Z.of_nat (length (it_data it)) in
       if size32 <? n then b' = b /\ o = mk_item_out (- EMSGSIZE) type value data n
       else Items b' l' /\ rb_size b' = rb_size b /\
            o = mk_item_out 0 (it_type it) (it_value it) (it_data it ++ drop (length (it_data it)) data) n
     end) b.
Proof.
  intros [R Hm Hl] Hsz Hb. unfold ring_buf_item_get. wp_steps. rewrite (ring_empty b _ R).
  destruct l as [|it l]; [done|]. inversion Hl as [|? ? Hit Hl']; subst.
  rewrite fmap_cons, concat_cons in *. set (q := concat (item_words <$> l)) in *.
  rewrite bool_decide_eq_false_2 by done. pose proof (rg_size b _ R) as Hs. pose proof (rg_head b _ R) as Hh. pose proof (rg_fit b _ R) as Hfit.
  pose proof (rg_cells b _ R) as Hc. apply cells_app in Hc as [Hc1 Hc2].
  pose proof (Hc1 0%nat _ eq_refl) as Hw. cbn in Hw. rewrite Z.add_0_r, Z.mod_small in Hw by lia.
  apply wp_bind. unfold wp at 1, buf32_get. rewrite Hw, (header_item it Hit). cbn [re_length item_header].
  destruct (size32 <? Z.of_nat (length (it_data it))) eqn:E; zbool; [by apply wp_ret|].
  pose proof Hit as (Ht1 & Ht2 & Ht3). rewrite Nat2Z.id.
  eapply wp_seq; [apply (wp_item_get_loop b _ _ Hc1 Hm Hs Hh _ 0 data); [lia|lia|lia]|].
  cbn beta. intros o b' [-> ->]. wp_steps. rewrite drop_0, firstn_all. cbn [re_type re_value]. split; [|done].
  assert (Hlen : length (item_words it) = S (length (it_data it))) by done.
  assert (Ei : ring_index b (u32 (u32 (rb_head b + Z.of_nat (length (it_data it))) + 1)) = (rb_head b + Z.of_nat (length (item_words it))) mod rb_size b).
  { rewrite ring_index_mod, (u32_small (_ + Z.of_nat _)), u32_small by (done || lia). f_equal. lia. }
  rewrite Ei. pose proof (mod_pos (rb_size b) (rb_head b + Z.of_nat (length (item_words it)))) as Hp. rewrite length_app in Hfit.
  split; [|done|done]. fold q. destruct R as [R1 R2 R3 R4 R5 R6]. split; cbn [rb_size rb_buf rb_head rb_tail with_rb_head]; [done|done|lia| |lia|by apply cells_mod].
  rewrite R4, length_app, Zplus_mod_idemp_l. f_equal. lia.
Qed.

(** ** Theorems *)

Lemma init_ring size area : 0 < size <= 2 ^ 31 -> Z.of_nat (length area) = size -> Ring (ring_buf_init size area) [].
Proof. intros Hs Ha. split; cbn; [done|done|lia|by rewrite Z.mod_small by lia|lia|apply cells_nil]. Qed.

Lemma init_bytes size area : 0 < size <= 2 ^ 31 -> Z.of_nat (length area) = size -> Bytes (ring_buf_init size area) [] [] 0.
Proof. intros Hs Ha. split; [by apply init_ring|..]; cbn; [by rewrite Z.mod_small by lia|lia|apply cells_nil|by rewrite Z.mod_small by lia|lia]. Qed.

Lemma init_items size area : 0 < size <= 2 ^ 31 -> Z.of_nat (length area) = size -> Items (ring_buf_init size area) [].
Proof.
  intros Hs Ha. split; [by apply init_ring| |done]. unfold mask_ok. cbn. destruct (is_power_of_two size); [|by left].
  right. by rewrite u32_small by lia.
Qed.

(** What a byte-mode client sees of one call. *)
Inductive byte_op := OpPut (data : list Z) (size : Z) | OpGet (data : list Z) (size : Z).

Definition op_ok (o : byte_op) : Prop :=
  match o with OpPut d n | OpGet d n => 0 <= n < 2 ^ 32 /\ n <= Z.of_nat (length d) end.

Section ByteTheorems.
Context `{Config}.

(** C36: the byte mode is a bounded queue.  On a buffer that holds the bytes [q], put appends as
    many of the given bytes as there is space and says how many; get delivers the oldest
    bytes in order, removes them and touches nothing else of the output; the queries are
    exact; reset empties the buffer.  No assertion fires and no cell outside is touched. *)
Theorem ring_buf_refines_fifo b q data size :
  Bytes b q [] 0 -> 0 <= size < 2 ^ 32 -> size <= Z.of_nat (length data) ->
  (ring_buf_capacity_get b = rb_size b - 1 /\ ring_buf_space_get b = rb_size b - 1 - Z.of_nat (length q) /\
   ring_buf_is_empty b = bool_decide (q = [])) /\
  (exists b', let k := Z.min size (rb_size b - 1 - Z.of_nat (length q)) in
     ring_buf_put data size b = Done k b' /\ Bytes b' (q ++ take (Z.to_nat k) data) [] 0 /\ rb_size b' = rb_size b) /\
  (exists b', let k := Z.min size (Z.of_nat (length q)) in
     ring_buf_get data size b = Done (take (Z.to_nat k) q ++ drop (Z.to_nat k) data, k) b' /\
     Bytes b' (drop (Z.to_nat k) q) [] 0 /\ rb_size b' = rb_size b) /\
  (exists b', ring_buf_reset b = Done tt b' /\ Bytes b' [] [] 0 /\ rb_size b' = rb_size b).
Proof.
  intros B Hn Hd. pose proof (by_ring _ _ _ _ B) as R. pose proof (rg_size b q R) as Hs. split; [split; [|split]|split; [|split]].
  - unfold ring_buf_capacity_get. apply u32_small. lia.
  - by apply ring_space.
  - by apply ring_empty.
  - pose proof (wp_ring_buf_put b q 0 data size B Hn Hd) as Hp. apply wp_run in Hp as (k & b' & E & -> & B'). by exists b'.
  - pose proof (wp_ring_buf_get b q [] data size B Hn Hd) as Hp. apply wp_run in Hp as (k & b' & E & -> & B'). by exists b'.
  - eexists. split; [done|]. split; [|done]. split; cbn; [|by rewrite Z.mod_small by lia|lia|apply cells_nil|by rewrite Z.mod_small by lia|lia].
    split; cbn; [done|apply R|lia|by rewrite Z.mod_small by lia|lia|apply cells_nil].
Qed.

(** Run calls one after the other; collect the bytes accepted and the bytes delivered. *)
Fixpoint byte_run (ops : list byte_op) (b : ring_buf) : option (list Z * list Z * ring_buf) :=
  match ops with
  | [] => Some ([], [], b)
  | OpPut data size :: ops =>
    match ring_buf_put data size b with
    | Done k b' => '(acc, del, b'') ← byte_run ops b'; Some (take (Z.to_nat k) data ++ acc, del, b'')
    | Fail _ => None
    end
  | OpGet data size :: ops =>
    match ring_buf_get data size b with
    | Done (out, k) b' => '(acc, del, b'') ← byte_run ops b'; Some (acc, take (Z.to_nat k) out ++ del, b'')
    | Fail _ => None
    end
  end.

Lemma byte_run_stream ops : forall b q,
  Bytes b q [] 0 -> Forall op_ok ops ->
  exists acc del b' q', byte_run ops b = Some (acc, del, b') /\ Bytes b' q' [] 0 /\ q ++ acc = del ++ q'.
Proof.
  induction ops as [|o ops IH]; intros b q B Hok.
  { exists [], [], b, q. by rewrite app_nil_r. }
  inversion Hok as [|? ? Ho Hok']; subst. destruct o as [data size|data size]; destruct Ho as [Hn Hd]; cbn [byte_run].
  - pose proof (wp_ring_buf_put b q 0 data size B Hn Hd) as Hp. apply wp_run in Hp as (k & b1 & -> & -> & B1 & _).
    destruct (IH b1 _ B1 Hok') as (acc & del & b' & q' & -> & B' & E). do 4 eexists. split; [done|]. split; [done|].
    by rewrite app_assoc.
  - pose proof (wp_ring_buf_get b q [] data size B Hn Hd) as Hp. apply wp_run in Hp as (o & b1 & -> & -> & B1 & _).
    destruct (IH b1 _ B1 Hok') as (acc & del & b' & q' & -> & B' & E). do 4 eexists. split; [done|]. split; [done|].
    rewrite take_app_length' by (rewrite length_take; lia). rewrite <-app_assoc, <-E, app_assoc. by rewrite take_drop.
Qed.

(** Lemma: what goes in comes out.  From an initialised buffer of any size, through any sequence
    of put and get calls with requests of any size, every call completes, and the bytes
    delivered followed by the bytes still stored are exactly the bytes accepted, in order. *)
Theorem ring_buf_stream_roundtrip size area ops :
  0 < size <= 2 ^ 31 -> Z.of_nat (length area) = size -> Forall op_ok ops ->
  exists acc del b q, byte_run ops (ring_buf_init size area) = Some (acc, del, b) /\ Bytes b q [] 0 /\ acc = del ++ q.
Proof. intros Hs Ha Hok. by apply (byte_run_stream ops _ [] (init_bytes size area Hs Ha)). Qed.

(** Lemma: the copying loops end.  Whatever the fields of the buffer hold, put and get leave their
    loops after at most one round per requested byte and one more. *)
Theorem ring_buf_terminates b data size :
  0 <= size < 2 ^ 32 -> ring_buf_put data size b <> Fail OutOfFuel /\ ring_buf_get data size b <> Fail OutOfFuel.
Proof.
  intros Hn. pose proof (put_loop_ends (S (Z.to_nat size)) data size 0 b Hn ltac:(lia)) as Hp.
  pose proof (get_loop_ends (S (Z.to_nat size)) data size 0 b Hn ltac:(lia)) as Hg.
  unfold ring_buf_put, ring_buf_get, mbind, ST_bind. split.
  - destruct (put_loop _ _ _ _ b) as [t b1|e]; [|congruence]. destruct (put_finish_done t b1) as (rc & b2 & ->). by apply assert_ends.
  - destruct (get_loop _ _ _ _ b) as [[d t] b1|e]; [|congruence]. destruct (get_finish_done t b1) as (rc & b2 & ->). by apply assert_ends.
Qed.

(** Lemma: claims in place.  Writing anything into the cells a put claim grants changes neither the
    stored bytes nor earlier claims, and finishing makes exactly the first [n] claimed
    bytes readable; a get claim grants the next unread bytes where they stand, and
    finishing removes exactly [n]; finishing more than there is room or contents for is
    refused and changes nothing. *)
Theorem ring_buf_claims_safe b q p r n :
  Bytes b q p r -> 0 <= n < 2 ^ 32 ->
  (exists dst a b1, ring_buf_put_claim n b = Done (dst, a) b1 /\ 0 <= a <= n /\ forall src, Z.of_nat (length src) = a ->
     exists b2, memcpy_in dst src a b1 = Done tt b2 /\ Bytes b2 q (p ++ src) r) /\
  (n <= Z.of_nat (length p) -> exists b1, ring_buf_put_finish n b = Done 0 b1 /\ Bytes b1 (q ++ take (Z.to_nat n) p) [] r) /\
  (rb_size b - 1 - Z.of_nat (length q) < n -> ring_buf_put_finish n b = Done (- EINVAL) b) /\
  (exists src a b1, ring_buf_get_claim n b = Done (src, a) b1 /\ 0 <= a <= n /\ Bytes b1 q p (r + a) /\
     take (Z.to_nat a) (drop (Z.to_nat src) (rb_buf b)) = take (Z.to_nat a) (drop (Z.to_nat r) q)) /\
  (n <= Z.of_nat (length q) -> exists b1, ring_buf_get_finish n b = Done 0 b1 /\ Bytes b1 (drop (Z.to_nat n) q) p 0) /\
  (Z.of_nat (length q) < n -> ring_buf_get_finish n b = Done (- EINVAL) b).
Proof.
  intros B Hn. pose proof (by_ring _ _ _ _ B) as R. pose proof (rg_size b q R) as Hs. pose proof (rg_fit b q R) as Hf.
  destruct (bytes_bounds b q p r B) as (Ht & Hh & Hfr). pose proof (by_read _ _ _ _ B) as Hr. repeat split.
  - pose proof (wp_put_claim b q p r B n Hn) as Hc. apply wp_run in Hc as (c & b1 & E & -> & p' & Hp' & B1 & Eb & Es & Eh).
    do 3 eexists. split; [done|]. split; [unfold put_grant; lia|]. intros src Hsrc. rewrite <-Hp'.
    assert (length src = length p') as Hl by lia. pose proof (wp_memcpy_in b1 q p p' r src B1) as Hw. cbn zeta in Hw.
    rewrite Eh, Es, <-(by_tail _ _ _ _ B) in Hw. destruct (run_unit _ (fun b2 => Bytes b2 q (p ++ src) r) b1
      (wp_mono _ _ (fun _ b2 => Bytes b2 q (p ++ src) r) b1 (Hw ltac:(rewrite Hp'; unfold put_grant; lia) ltac:(lia))
      ltac:(intros [] b2 (B2 & _); revert B2; rewrite <-Hl, firstn_all; done))) as (b2 & E2 & B2). by exists b2.
  - intros Hnp. set (p1 := take (Z.to_nat n) p). assert (Hp1 : Z.of_nat (length p1) = n) by (subst p1; rewrite length_take; lia).
    pose proof (wp_put_finish b q p r B p1) as Hw. pose proof (by_fit _ _ _ _ B) as Hfit. pose proof (by_cells _ _ _ _ B) as Hc.
    rewrite <-(take_drop (Z.to_nat n) p), app_assoc in Hc. apply cells_app in Hc as [Hc _]. rewrite length_app in Hfit. rewrite Hp1 in Hw.
    apply wp_run in Hw as (rc & b1 & E & -> & B1 & _); [by exists b1|rewrite length_app; lia|done].
  - intros Hno. unfold ring_buf_put_finish, get, mbind, ST_bind. rewrite (ring_space b q R). unfold free. by rewrite (proj2 (Z.ltb_lt _ _)) by lia.
  - pose proof (wp_get_claim b q p r B n Hn) as Hc. apply wp_run in Hc as (c & b1 & E & -> & B1 & _). do 3 eexists. split; [done|].
    split; [unfold get_grant; lia|]. split; [done|]. apply (get_piece b q p r B). lia.
  - intros Hnq. pose proof (wp_get_finish b q p r B n ltac:(lia)) as Hw. apply wp_run in Hw as (rc & b1 & E & -> & B1 & _). by exists b1.
  - intros Hno. unfold ring_buf_get_finish, get, mbind, ST_bind. rewrite (ring_space b q R). unfold free.
    rewrite (u32_small (rb_size b - 1)), u32_small by lia. by rewrite (proj2 (Z.ltb_lt _ _)) by lia.
Qed.

End ByteTheorems.

(** Calls on a buffer in item mode; a get offers an array of [size32] words. *)
Inductive item_op := OpItemPut (it : ring_item) | OpItemGet (data : list Z) (size32 : Z).

Definition item_op_ok (o : item_op) : Prop :=
  match o with OpItemPut it => item_ok it | OpItemGet d n => 0 <= n <= Z.of_nat (length d) /\ n < 2 ^ 8 end.

(** The item a successful get delivers. *)
Definition delivered (o : item_out) : list ring_item :=
  if io_rc o =? 0 then [mk_item (io_type o) (io_value o) (take (Z.to_nat (io_size32 o)) (io_data o))] else [].

(** Run calls one after the other; collect the items accepted and the items delivered. *)
Fixpoint item_run (ops : list item_op) (b : ring_buf) : option (list ring_item * list ring_item * ring_buf) :=
  match ops with
  | [] => Some ([], [], b)
  | OpItemPut it :: ops =>
    match ring_buf_item_put (it_type it) (it_value it) (it_data it) (Z.of_nat (length (it_data it))) b with
    | Done rc b' => '(acc, del, b'') ← item_run ops b'; Some ((if rc =? 0 then [it] else []) ++ acc, del, b'')
    | Fail _ => None
    end
  | OpItemGet data size32 :: ops =>
    match ring_buf_item_get 0 0 data size32 b with
    | Done o b' => '(acc, del, b'') ← item_run ops b'; Some (acc, delivered o ++ del, b'')
    | Fail _ => None
    end
  end.

Lemma items_drop b l n : Items b l -> Items (with_dropped_put_count n b) l.
Proof. intros [[R1 R2 R3 R4 R5 R6] Hm Hl]. by split; [split|..]. Qed.

Lemma delivered_item it data type value n :
  n = Z.of_nat (length (it_data it)) -> type = it_type it -> value = it_value it ->
  delivered (mk_item_out 0 type value (it_data it ++ data) n) = [it].
Proof. intros -> -> ->. unfold delivered. cbn. rewrite Nat2Z.id, take_app_length. by destruct it. Qed.

Lemma item_run_stream ops : forall b l,
  Items b l -> Forall item_op_ok ops ->
  exists acc del b' l', item_run ops b = Some (acc, del, b') /\ Items b' l' /\ l ++ acc = del ++ l'.
Proof.
  induction ops as [|o ops IH]; intros b l I Hok; [exists [], [], b, l; by rewrite app_nil_r|].
  inversion Hok as [|? ? Ho Hok']; subst. destruct o as [it|data size32]; cbn [item_run].
  - pose proof (wp_item_put b l it (it_data it) I Ho (firstn_all _)) as Hp.
    apply wp_run in Hp as (rc & b1 & -> & _ & [(_ & -> & I1)|(_ & -> & ->)]).
    + destruct (IH b1 _ I1 Hok') as (acc & del & b' & l' & -> & I' & E). do 4 eexists. split; [done|]. split; [done|].
      by rewrite <-E, <-app_assoc.
    + destruct (IH _ _ (items_drop b l (u32 (dropped_put_count b + 1)) I) Hok') as (acc & del & b' & l' & -> & I' & E). do 4 eexists. by split.
  - destruct Ho as [Hn Hb]. pose proof (wp_item_get b l 0 0 data size32 I Hn Hb) as Hp. apply wp_run in Hp as (o & b1 & -> & Hp). cbn zeta in Hp.
    destruct l as [|it l]; [destruct Hp as [-> ->]|destruct (size32 <? _); [destruct Hp as [-> ->]|destruct Hp as (I1 & _ & ->)]].
    1,2: destruct (IH _ _ I Hok') as (acc & del & b' & l' & -> & I' & E); do 4 eexists; by split.
    destruct (IH _ _ I1 Hok') as (acc & del & b' & l' & -> & I' & E). do 4 eexists. split; [done|]. split; [done|].
    rewrite delivered_item by done. cbn. by rewrite E.
Qed.

(** Lemma: items survive the buffer.  In item mode, through any sequence of calls on an initialised
    buffer whose size may be a power of two or not, every call completes and the items
    delivered followed by the items still stored are the items accepted, with type, value
    and all words intact and in order.  An item is accepted exactly when its words and its
    header fit, a rejected one is only counted; a get from an empty buffer or into an array
    that is too short changes nothing and says why, and how many words are needed. *)
Theorem ring_buf_items_roundtrip size area ops :
  0 < size <= 2 ^ 31 -> Z.of_nat (length area) = size -> Forall item_op_ok ops ->
  exists acc del b l, item_run ops (ring_buf_init size area) = Some (acc, del, b) /\ Items b l /\ acc = del ++ l /\
  (forall it, item_ok it -> let n := Z.of_nat (length (it_data it)) in exists rc b',
     ring_buf_item_put (it_type it) (it_value it) (it_data it) n b = Done rc b' /\
     (n < item_free b l /\ rc = 0 /\ Items b' (l ++ [it]) \/
      item_free b l <= n /\ rc = - EMSGSIZE /\ b' = with_dropped_put_count (u32 (dropped_put_count b + 1)) b)) /\
  (l = [] -> forall ty v d n, 0 <= n <= Z.of_nat (length d) -> n < 2 ^ 8 ->
     ring_buf_item_get ty v d n b = Done (mk_item_out (- EAGAIN) ty v d n) b) /\
  (forall it l', l = it :: l' -> forall ty v d n, 0 <= n <= Z.of_nat (length d) -> n < Z.of_nat (length (it_data it)) -> n < 2 ^ 8 ->
     ring_buf_item_get ty v d n b = Done (mk_item_out (- EMSGSIZE) ty v d (Z.of_nat (length (it_data it)))) b).
Proof.
  intros Hs Ha Hok. destruct (item_run_stream ops _ [] (init_items size area Hs Ha) Hok) as (acc & del & b & l & E & I & El).
  exists acc, del, b, l. repeat (split; [done|]). split; [|split].
  - intros it Hit. pose proof (wp_item_put b l it (it_data it) I Hit (firstn_all _)) as Hp. apply wp_run in Hp as (rc & b1 & E1 & _ & Hp).
    by exists rc, b1.
  - intros -> ty v d n Hn Hb. pose proof (wp_item_get b [] ty v d n I Hn Hb) as Hp. apply wp_run in Hp as (o & b1 & E1 & -> & ->). done.
  - intros it l' -> ty v d n Hn Hlt Hb. pose proof (wp_item_get b _ ty v d n I Hn Hb) as Hp. apply wp_run in Hp as (o & b1 & E1 & Hp). cbn zeta in Hp.
    rewrite (proj2 (Z.ltb_lt _ _)) in Hp by done. by destruct Hp as [-> ->].
Qed.

(** ** Witnesses *)

Section RingWitnesses.
Local Existing Instance test_config.

Definition demo_area : list Z := replicate 5 0.
Definition ring5 : ring_buf := ring_buf_init 5 demo_area.
Definition demo_bytes : Bytes ring5 [] [] 0 := init_bytes 5 demo_area ltac:(lia) eq_refl.

(** Three puts and two gets on five cells: the contents wrap around the end. *)
Definition demo_ops : list byte_op :=
  [OpPut [1; 2; 3] 3; OpGet [0; 0] 2; OpPut [4; 5; 6; 7] 4; OpGet [0; 0; 0; 0; 0; 0] 6; OpPut [8] 1].

Example demo_run : exists b, byte_run demo_ops ring5 = Some ([1; 2; 3; 4; 5; 6; 8], [1; 2; 3; 4; 5; 6], b).
Proof. eexists. vm_compute. reflexivity. Qed.

Lemma ring_buf_refines_fifo_witness :
  exists b', ring_buf_put [1; 2; 3; 4; 5; 6] 6 ring5 = Done 4 b' /\ Bytes b' [1; 2; 3; 4] [] 0.
Proof.
  destruct (ring_buf_refines_fifo ring5 [] [1; 2; 3; 4; 5; 6] 6 demo_bytes ltac:(lia) ltac:(cbn; lia)) as (_ & (b' & E & B & _) & _).
  exists b'. exact (conj E B).
Defined.

Lemma ring_buf_stream_roundtrip_witness :
  exists acc del b q, byte_run demo_ops ring5 = Some (acc, del, b) /\ acc = del ++ q.
Proof.
  destruct (ring_buf_stream_roundtrip 5 demo_area demo_ops ltac:(lia) eq_refl) as (acc & del & b & q & E & _ & El).
  - repeat constructor; cbn; lia.
  - exists acc, del, b, q. exact (conj E El).
Defined.

Lemma ring_buf_terminates_witness : ring_buf_put [7; 7] 2 ring5 <> Fail OutOfFuel.
Proof. exact (proj1 (ring_buf_terminates ring5 [7; 7] 2 ltac:(lia))). Defined.

Lemma ring_buf_claims_safe_witness :
  ring_buf_put_finish 5 ring5 = Done (- EINVAL) ring5.
Proof. exact (proj1 (proj2 (proj2 (ring_buf_claims_safe ring5 [] [] 0 5 demo_bytes ltac:(lia)))) ltac:(cbn; lia)). Defined.

Definition demo_items : list item_op :=
  [OpItemPut (mk_item 7 9 [11; 12]); OpItemGet [0] 1; OpItemGet [0; 0; 0] 3; OpItemPut (mk_item 1 2 [3; 4; 5])].

Lemma ring_buf_items_roundtrip_witness :
  exists acc del b l, item_run demo_items ring5 = Some (acc, del, b) /\ acc = del ++ l.
Proof.
  destruct (ring_buf_items_roundtrip 5 demo_area demo_items ltac:(lia) eq_refl) as (acc & del & b & l & E & _ & El & _).
  - unfold demo_items, item_op_ok, item_ok. repeat constructor; cbn; lia.
  - exists acc, del, b, l. exact (conj E El).
Defined.

Example demo_items_run : exists b,
  item_run demo_items ring5 = Some ([mk_item 7 9 [11; 12]; mk_item 1 2 [3; 4; 5]], [mk_item 7 9 [11; 12]], b).
Proof. eexists. vm_compute. reflexivity. Qed.

End RingWitnesses.
