(* ===== verification/RbTree.v ===== *)
(** * Red/black trees

    Models [src/lib/sys/rb.c] and [inc/sys/rb.h], the balanced trees that index the kernel's
    dynamic objects.  Nodes are intrusive: a node is two child pointers, and bit 0 of the
    left one holds the colour.  There are no parent pointers; an operation that changes the
    tree keeps the path from the root in an array on the C stack with [max_depth + 1]
    entries.  The state is the memory of the nodes, the fields of [struct rbtree] and that
    array; an entry that was not written yet is [None] and reading it, like an index outside
    the array, is a [Fault].  [side] is an [int] used as a truth value. *)

From Stdlib Require Import ZArith Lia Bool List.
From stdpp Require Import base tactics numbers list gmap.
From S2P Require Import Prelude.

Local Open Scope Z_scope.

(** ** Data *)

Record rbnode := mk_rbnode { children0 : Z; children1 : Z }.

Record rbtree := mk_rbtree {
  rb_nodes : gmap Z rbnode;
  rb_root : Z;
  rb_max_depth : Z;
  rb_stack : list (option Z);
}.

Definition with_rb_nodes v t := mk_rbtree v (rb_root t) (rb_max_depth t) (rb_stack t).
Definition with_rb_root v t := mk_rbtree (rb_nodes t) v (rb_max_depth t) (rb_stack t).
Definition with_rb_max_depth v t := mk_rbtree (rb_nodes t) (rb_root t) v (rb_stack t).
Definition with_rb_stack v t := mk_rbtree (rb_nodes t) (rb_root t) (rb_max_depth t) v.

Inductive rb_color := RED | BLACK.
#[global] Instance rb_color_eq_dec : EqDecision rb_color.
Proof. solve_decision. Defined.

Definition color_bit (c : rb_color) : Z := match c with RED => 0 | BLACK => 1 end.

Notation RBM := (ST rbtree).

(** ** Access to nodes and to the array *)

Definition rd_rbnode (n : Z) : RBM rbnode := t ← (get : RBM rbtree); ofopt (rb_nodes t !! n).
Definition wr_rbnode (n : Z) (v : rbnode) : RBM unit :=
  rd_rbnode n;; modify (fun t => with_rb_nodes (<[n := v]> (rb_nodes t)) t).

Definition array_get (l : list (option Z)) (i : Z) : option Z :=
  if i <? 0 then None else match l !! Z.to_nat i with Some (Some x) => Some x | _ => None end.
Definition array_set (l : list (option Z)) (i x : Z) : option (list (option Z)) :=
  if i <? 0 then None else if (Z.to_nat i <? length l)%nat then Some (<[Z.to_nat i := Some x]> l) else None.

Definition stack_get (i : Z) : RBM Z := t ← (get : RBM rbtree); ofopt (array_get (rb_stack t) i).
Definition stack_set (i x : Z) : RBM unit :=
  t ← (get : RBM rbtree); l ← ofopt (array_set (rb_stack t) i x); modify (with_rb_stack l).

Section Rb.
Context `{Config}.
(** [tree->lessthan_fn]. *)
Context (lessthan_fn : Z -> Z -> bool).

Definition get_child (n : Z) (side : bool) : RBM Z :=
  assert_ (negb (n =? 0));;
  v ← rd_rbnode n;
  mret (if side then children1 v else Z.land (children0 v) (not32 1)).

Definition set_child (n : Z) (side : bool) (val : Z) : RBM unit :=
  assert_ (negb (n =? 0));;
  v ← rd_rbnode n;
  if side then wr_rbnode n (mk_rbnode (children0 v) val)
  else wr_rbnode n (mk_rbnode (Z.lor val (Z.land (children0 v) 1)) (children1 v)).

Definition get_color (n : Z) : RBM rb_color :=
  assert_ (negb (n =? 0));;
  v ← rd_rbnode n;
  mret (if Z.land (children0 v) 1 =? 0 then RED else BLACK).

Definition is_black (n : Z) : RBM bool := c ← get_color n; mret (bool_decide (c = BLACK)).
Definition is_red (n : Z) : RBM bool := c ← get_color n; mret (bool_decide (c = RED)).

(** [c == NULL || is_black(c)] and [c != NULL && is_red(c)]. *)
Definition child_black (c : Z) : RBM bool := if c =? 0 then mret true else is_black c.
Definition child_red (c : Z) : RBM bool := if c =? 0 then mret false else is_red c.

Definition set_color (n : Z) (color : rb_color) : RBM unit :=
  assert_ (negb (n =? 0));;
  v ← rd_rbnode n;
  wr_rbnode n (mk_rbnode (Z.lor (Z.land (children0 v) (not32 1)) (color_bit color)) (children1 v)).

(** ** Searching *)

(** Every round but the last pushes an entry. *)
Fixpoint find_loop (fuel : nat) (node sz : Z) : RBM Z :=
  match fuel with
  | O => fail OutOfFuel
  | S fuel =>
    top ← stack_get (sz - 1);
    if top =? node then mret sz
    else
      let side := negb (lessthan_fn node top) in
      ch ← get_child top side;
      if negb (ch =? 0) then stack_set sz ch;; find_loop fuel node (sz + 1)
      else mret sz
  end.

Definition find_and_stack (node : Z) : RBM Z :=
  t ← (get : RBM rbtree);
  stack_set 0 (rb_root t);;
  find_loop (S (length (rb_stack t))) node 1.

Fixpoint minmax_loop (fuel : nat) (n : Z) (side : bool) : RBM Z :=
  match fuel with
  | O => fail OutOfFuel
  | S fuel =>
    if n =? 0 then mret n
    else
      c ← get_child n side;
      if c =? 0 then mret n else n ← get_child n side; minmax_loop fuel n side
  end.

Definition rb_get_minmax (side : bool) : RBM Z :=
  t ← (get : RBM rbtree); minmax_loop (S (size (rb_nodes t))) (rb_root t) side.

Definition rb_get_min : RBM Z := rb_get_minmax false.
Definition rb_get_max : RBM Z := rb_get_minmax true.

Definition get_side (parent child : Z) : RBM bool :=
  assert_m (l ← get_child parent false; r ← get_child parent true; mret ((l =? child) || (r =? child)));;
  r ← get_child parent true;
  mret (r =? child).

Fixpoint contains_loop (fuel : nat) (n node : Z) : RBM bool :=
  match fuel with
  | O => fail OutOfFuel
  | S fuel =>
    if negb (n =? 0) && negb (n =? node) then
      n ← get_child n (lessthan_fn n node); contains_loop fuel n node
    else mret (n =? node)
  end.

Definition rb_contains (node : Z) : RBM bool :=
  t ← (get : RBM rbtree); contains_loop (S (size (rb_nodes t))) (rb_root t) node.

Definition rb_child (node : Z) (side : bool) : RBM Z := get_child node side.
Definition rb_is_black (node : Z) : RBM bool := is_black node.

(** [visit_fn] is the caller's; [cookie] is what it works on. *)
Section Visit.
Context {C : Type} (visit_fn : Z -> C -> RBM C).

Fixpoint rb_walk_of (fuel : nat) (node : Z) (cookie : C) : RBM C :=
  match fuel with
  | O => fail OutOfFuel
  | S fuel =>
    if node =? 0 then mret cookie
    else
      l ← get_child node false; cookie ← rb_walk_of fuel l cookie;
      cookie ← visit_fn node cookie;
      r ← get_child node true; rb_walk_of fuel r cookie
  end.

Definition rb_walk (cookie : C) : RBM C :=
  t ← (get : RBM rbtree); rb_walk_of (S (size (rb_nodes t))) (rb_root t) cookie.

End Visit.

(** ** Iteration *)

(** The entries of [is_left] are 0 and 1. *)
Record rb_foreach := mk_rb_foreach { fe_stack : list (option Z); fe_is_left : list (option Z); fe_top : Z }.

Definition with_fe_top v f := mk_rb_foreach (fe_stack f) (fe_is_left f) v.

(** [_RB_FOREACH_INIT]: the two arrays have [max_depth] entries. *)
Definition rb_foreach_init : RBM rb_foreach :=
  t ← (get : RBM rbtree);
  mret (mk_rb_foreach (replicate (Z.to_nat (rb_max_depth t)) None) (replicate (Z.to_nat (rb_max_depth t)) None) (-1)).

Definition fe_push (n left : Z) (f : rb_foreach) : RBM rb_foreach :=
  let top := fe_top f + 1 in
  s ← ofopt (array_set (fe_stack f) top n);
  b ← ofopt (array_set (fe_is_left f) top left);
  mret (mk_rb_foreach s b top).

Fixpoint limb_loop (fuel : nat) (n : Z) (f : rb_foreach) : RBM rb_foreach :=
  match fuel with
  | O => fail OutOfFuel
  | S fuel =>
    n ← get_child n false;
    if negb (n =? 0) then f ← fe_push n 1 f; limb_loop fuel n f else mret f
  end.

Definition stack_left_limb (n : Z) (f : rb_foreach) : RBM (Z * rb_foreach) :=
  f ← fe_push n 0 f;
  t ← (get : RBM rbtree);
  f ← limb_loop (S (size (rb_nodes t))) n f;
  x ← ofopt (array_get (fe_stack f) (fe_top f));
  mret (x, f).

(** [top] falls in every round. *)
Fixpoint climb_loop (fuel : nat) (f : rb_foreach) : RBM rb_foreach :=
  match fuel with
  | O => fail OutOfFuel
  | S fuel =>
    if 0 <? fe_top f then
      l ← ofopt (array_get (fe_is_left f) (fe_top f));
      if l =? 0 then climb_loop fuel (with_fe_top (fe_top f - 1) f) else mret f
    else mret f
  end.

Definition rb_foreach_next (f : rb_foreach) : RBM (Z * rb_foreach) :=
  t ← (get : RBM rbtree);
  if rb_root t =? 0 then mret (0, f)
  else if fe_top f =? -1 then stack_left_limb (rb_root t) f
  else
    cur ← ofopt (array_get (fe_stack f) (fe_top f));
    n ← get_child cur true;
    if negb (n =? 0) then stack_left_limb n f
    else
      l ← ofopt (array_get (fe_is_left f) (fe_top f));
      if negb (l =? 0) then
        let f := with_fe_top (fe_top f - 1) f in
        x ← ofopt (array_get (fe_stack f) (fe_top f)); mret (x, f)
      else
        f ← climb_loop (S (Z.to_nat (fe_top f))) f;
        let f := with_fe_top (fe_top f - 1) f in
        if 0 <=? fe_top f then x ← ofopt (array_get (fe_stack f) (fe_top f)); mret (x, f)
        else mret (0, f).

(** [RB_FOR_EACH] with the loop's body; every round but the last visits another node. *)
Section ForEach.
Context {C : Type} (body : Z -> C -> RBM C).

Fixpoint for_each_loop (fuel : nat) (f : rb_foreach) (cookie : C) : RBM C :=
  match fuel with
  | O => fail OutOfFuel
  | S fuel =>
    '(node, f) ← rb_foreach_next f;
    if node =? 0 then mret cookie else cookie ← body node cookie; for_each_loop fuel f cookie
  end.

Definition rb_for_each (cookie : C) : RBM C :=
  f ← rb_foreach_init; t ← (get : RBM rbtree); for_each_loop (S (size (rb_nodes t))) f cookie.

End ForEach.

(** ** Rotation *)

Definition rotate (stacksz : Z) : RBM unit :=
  assert_ (2 <=? stacksz);;
  parent ← stack_get (stacksz - 2);
  child ← stack_get (stacksz - 1);
  side ← get_side parent child;
  a ← get_child child side;
  b ← get_child child (negb side);
  (if 3 <=? stacksz then
     grandparent ← stack_get (stacksz - 3);
     gs ← get_side grandparent parent;
     set_child grandparent gs child
   else skip);;
  set_child child side a;;
  set_child child (negb side) parent;;
  set_child parent side b;;
  stack_set (stacksz - 2) child;;
  stack_set (stacksz - 1) parent.

(** ** Insertion *)

(** The array shrinks by two entries in every round that goes on. *)
Fixpoint fix_extra_red (fuel : nat) (stacksz : Z) : RBM unit :=
  match fuel with
  | O => fail OutOfFuel
  | S fuel =>
    if 1 <? stacksz then
      node ← stack_get (stacksz - 1);
      parent ← stack_get (stacksz - 2);
      assert_m (c0 ← get_child node false; if c0 =? 0 then mret true else c0 ← get_child node false; is_black c0);;
      assert_m (c1 ← get_child node true; if c1 =? 0 then mret true else c1 ← get_child node true; is_black c1);;
      pb ← is_black parent;
      if (pb : bool) then skip
      else
        assert_ (2 <=? stacksz);;
        grandparent ← stack_get (stacksz - 3);
        side ← get_side grandparent parent;
        aunt ← get_child grandparent (negb side);
        ar ← child_red aunt;
        if (ar : bool) then
          set_color grandparent RED;;
          set_color parent BLACK;;
          set_color aunt BLACK;;
          fix_extra_red fuel (stacksz - 2)
        else
          parent_side ← get_side parent node;
          (if negb (Bool.eqb parent_side side) then rotate stacksz;; stack_get (stacksz - 1);; skip else skip);;
          rotate (stacksz - 1);;
          x ← stack_get (stacksz - 3); set_color x BLACK;;
          y ← stack_get (stacksz - 2); set_color y RED
    else
      x ← stack_get 0; set_color x BLACK
  end.

Definition rb_node_init (node : Z) : RBM unit :=
  v ← rd_rbnode node; wr_rbnode node (mk_rbnode 0 (children1 v));;
  v ← rd_rbnode node; wr_rbnode node (mk_rbnode (children0 v) 0).

(** The array local to an operation, uninitialised. *)
Definition new_stack : RBM unit :=
  modify (fun t => with_rb_stack (replicate (Z.to_nat (rb_max_depth t + 1)) None) t).
Definition drop_stack : RBM unit := modify (with_rb_stack []).

Definition rb_insert (node : Z) : RBM unit :=
  set_child node false 0;;
  set_child node true 0;;
  t ← (get : RBM rbtree);
  if rb_root t =? 0 then
    modify (with_rb_root node);;
    modify (with_rb_max_depth 1);;
    set_color node BLACK
  else
    new_stack;;
    stacksz ← find_and_stack node;
    parent ← stack_get (stacksz - 1);
    let side := negb (lessthan_fn node parent) in
    set_child parent side node;;
    set_color node RED;;
    stack_set stacksz node;;
    let stacksz := stacksz + 1 in
    fix_extra_red (Z.to_nat stacksz) stacksz;;
    t ← (get : RBM rbtree);
    (if rb_max_depth t <? stacksz then modify (with_rb_max_depth stacksz) else skip);;
    x ← stack_get 0;
    modify (with_rb_root x);;
    assert_m (t ← (get : RBM rbtree); is_black (rb_root t));;
    drop_stack.

(** ** Removal *)

(** The last part of a round: the child of the sibling far from [n] is red. *)
Definition lift_sibling (n parent sib outer : Z) (n_side : bool) (stacksz null_node : Z) : RBM unit :=
  assert_m (is_red outer);;
  c ← get_color parent;
  set_color sib c;;
  set_color parent BLACK;;
  set_color outer BLACK;;
  stack_set (stacksz - 1) sib;;
  rotate stacksz;;
  (if n =? null_node then set_child parent n_side 0 else skip).

(** The part of a round after the sibling was made black; [continue] is the next round. *)
Definition settle_sibling (continue : Z -> RBM unit) (n parent sib : Z) (n_side : bool) (stacksz null_node : Z) : RBM unit :=
  assert_ (negb (sib =? 0));;
  c0 ← get_child sib false;
  c1 ← get_child sib true;
  b0 ← child_black c0;
  b01 ← (if (b0 : bool) then child_black c1 else mret false);
  if (b01 : bool) then
    (if n =? null_node then set_child parent n_side 0 else skip);;
    set_color sib RED;;
    pb ← is_black parent;
    if (pb : bool) then continue (stacksz - 1) else set_color parent BLACK
  else
    assert_m (r0 ← child_red c0; if (r0 : bool) then mret true else child_red c1);;
    outer ← get_child sib (negb n_side);
    ored ← child_red outer;
    if negb ored then
      inner ← get_child sib n_side;
      stack_set (stacksz - 1) sib;;
      stack_set stacksz inner;;
      let stacksz := stacksz + 1 in
      rotate stacksz;;
      set_color sib RED;;
      set_color inner BLACK;;
      sib ← stack_get (stacksz - 2);
      outer ← get_child sib (negb n_side);
      stack_set (stacksz - 2) n;;
      let stacksz := stacksz - 1 in
      lift_sibling n parent sib outer n_side stacksz null_node
    else lift_sibling n parent sib outer n_side stacksz null_node.

(** The array shrinks by one entry in every round that goes on. *)
Fixpoint fix_missing_black (fuel : nat) (stacksz null_node : Z) : RBM unit :=
  match fuel with
  | O => fail OutOfFuel
  | S fuel =>
    if 1 <? stacksz then
      n ← stack_get (stacksz - 1);
      parent ← stack_get (stacksz - 2);
      n_side ← get_side parent n;
      sib ← get_child parent (negb n_side);
      assert_m (is_black n);;
      sb ← is_black sib;
      if negb sb then
        stack_set (stacksz - 1) sib;;
        rotate stacksz;;
        set_color parent RED;;
        set_color sib BLACK;;
        stack_set stacksz n;;
        let stacksz := stacksz + 1 in
        parent ← stack_get (stacksz - 2);
        sib ← get_child parent (negb n_side);
        settle_sibling (fun sz => fix_missing_black fuel sz null_node) n parent sib n_side stacksz null_node
      else settle_sibling (fun sz => fix_missing_black fuel sz null_node) n parent sib n_side stacksz null_node
    else skip
  end.

(** Walks down the right children of [node2], pushing them. *)
Fixpoint biggest_loop (fuel : nat) (node2 stacksz : Z) : RBM (Z * Z) :=
  match fuel with
  | O => fail OutOfFuel
  | S fuel =>
    c ← get_child node2 true;
    if negb (c =? 0) then
      node2 ← get_child node2 true;
      stack_set stacksz node2;;
      biggest_loop fuel node2 (stacksz + 1)
    else mret (node2, stacksz)
  end.

(** Exchanges the positions of a node with two children and the biggest node of its left
    subtree; returns the number of entries of the array, at whose end [node] is then. *)
Definition swap_with_biggest (node stacksz : Z) : RBM Z :=
  let stacksz0 := stacksz in
  node2 ← get_child node false;
  hiparent ← (if 1 <? stacksz then stack_get (stacksz - 2) else mret 0);
  stack_set stacksz node2;;
  t ← (get : RBM rbtree);
  '(node2, stacksz) ← biggest_loop (S (length (rb_stack t))) node2 (stacksz + 1);
  loparent ← stack_get (stacksz - 2);
  (if negb (hiparent =? 0) then side ← get_side hiparent node; set_child hiparent side node2
   else modify (with_rb_root node2));;
  (if loparent =? node then
     c ← get_child node2 false; set_child node false c;;
     set_child node2 false node
   else
     side ← get_side loparent node2; set_child loparent side node;;
     tmp ← get_child node false;
     c ← get_child node2 false; set_child node false c;;
     set_child node2 false tmp);;
  c ← get_child node true; set_child node2 true c;;
  set_child node true 0;;
  tmp ← stack_get (stacksz0 - 1);
  x ← stack_get (stacksz - 1); stack_set (stacksz0 - 1) x;;
  stack_set (stacksz - 1) tmp;;
  ctmp ← get_color node;
  c2 ← get_color node2; set_color node c2;;
  set_color node2 ctmp;;
  mret stacksz.

(** The second part of [rb_remove]: [node], at the end of the array, has at most one child. *)
Definition cut_node (node stacksz : Z) : RBM unit :=
  assert_m (c0 ← get_child node false; if c0 =? 0 then mret true else c1 ← get_child node true; mret (c1 =? 0));;
  child ← get_child node false;
  child ← (if child =? 0 then get_child node true else mret child);
  if stacksz <? 2 then
    modify (with_rb_root child);;
    (if negb (child =? 0) then set_color child BLACK else modify (with_rb_max_depth 0));;
    drop_stack
  else
    parent ← stack_get (stacksz - 2);
    (if child =? 0 then
       nb ← is_black node;
       if (nb : bool) then fix_missing_black (Z.to_nat stacksz) stacksz node
       else side ← get_side parent node; set_child parent side 0
     else
       side ← get_side parent node; set_child parent side child;;
       nr ← is_red node;
       r ← (if (nr : bool) then mret true else is_red child);
       if (r : bool) then set_color child BLACK
       else
         stack_set (stacksz - 1) child;;
         fix_missing_black (Z.to_nat stacksz) stacksz 0);;
    x ← stack_get 0;
    modify (with_rb_root x);;
    drop_stack.

Definition rb_remove (node : Z) : RBM unit :=
  new_stack;;
  stacksz ← find_and_stack node;
  x ← stack_get (stacksz - 1);
  if negb (node =? x) then drop_stack
  else
    c0 ← get_child node false;
    c1 ← (if c0 =? 0 then mret 0 else get_child node true);
    stacksz ← (if negb (c0 =? 0) && negb (c1 =? 0) then swap_with_biggest node stacksz else mret stacksz);
    cut_node node stacksz.

End Rb.
