(* ===== verification/RbFun.v ===== *)
(** * Red/black trees as values

    The trees that [RbTree.v] keeps in memory, as an inductive type, with the path from the
    root as a list of frames, innermost first.  [fix_red] and [fix_black] are what the two
    repair loops of [rb.c] do to such a tree; here it is shown that they keep the order, the
    colour rules and the black height, and how much they can deepen the tree.

    [rb n c t]: [t] obeys the colour rules, its root has colour [c] (an empty tree counts as
    black) and every path has [n] black nodes.  [rbc N ctx n k]: [ctx] completes a tree with
    [n] black nodes per path to a valid one with [N]; [k] is the colour of the node above the
    hole, and a hole below a red node or at the root takes only a black tree. *)

From Stdlib Require Import ZArith Lia Bool List.
From stdpp Require Import base tactics numbers list gmap.
From S2P Require Import Prelude RbTree.

(** ** Trees and paths *)

Definition black (c : rb_color) : bool := match c with BLACK => true | RED => false end.

Inductive tree := Leaf | Node (c : rb_color) (l : tree) (a : Z) (r : tree).

#[global] Instance tree_eq_dec : EqDecision tree.
Proof. solve_decision. Defined.

Definition root_addr (t : tree) : Z := match t with Leaf => 0%Z | Node _ _ a _ => a end.
Definition root_color (t : tree) : rb_color := match t with Leaf => BLACK | Node c _ _ _ => c end.
Definition paint (c : rb_color) (t : tree) : tree := match t with Leaf => Leaf | Node _ l a r => Node c l a r end.

Fixpoint inorder (t : tree) : list Z :=
  match t with Leaf => [] | Node _ l a r => inorder l ++ a :: inorder r end.
Fixpoint height (t : tree) : nat :=
  match t with Leaf => 0 | Node _ l _ r => S (Nat.max (height l) (height r)) end.

(** A node whose subtree on [side] is [t] and whose other subtree is [s]. *)
Definition node (c : rb_color) (side : bool) (t : tree) (a : Z) (s : tree) : tree :=
  if side then Node c s a t else Node c t a s.

Record frame := mk_frame { f_side : bool; f_color : rb_color; f_addr : Z; f_sib : tree }.

Fixpoint plug (ctx : list frame) (t : tree) : tree :=
  match ctx with
  | [] => t
  | f :: ctx => plug ctx (node (f_color f) (f_side f) t (f_addr f) (f_sib f))
  end.

Lemma plug_app ctx1 ctx2 t : plug (ctx1 ++ ctx2) t = plug ctx2 (plug ctx1 t).
Proof. revert t. induction ctx1 as [|f ctx1 IH]; intros t; cbn; [done|apply IH]. Qed.

(** Every non-empty tree is a [node], seen from either side. *)
Lemma node_view side t : t <> Leaf -> exists c x a y, t = node c side x a y.
Proof. destruct t as [|c l a r]; [done|]. intros _. destruct side; [by exists c, r, a, l|by exists c, l, a, r]. Qed.

Lemma node_flip c side t a s : node c (negb side) t a s = node c side s a t.
Proof. by destruct side. Qed.

Lemma root_addr_node c side t a s : root_addr (node c side t a s) = a.
Proof. by destruct side. Qed.
Lemma root_color_node c side t a s : root_color (node c side t a s) = c.
Proof. by destruct side. Qed.
Lemma paint_node c' c side t a s : paint c' (node c side t a s) = node c' side t a s.
Proof. by destruct side. Qed.
Lemma node_not_leaf c side t a s : node c side t a s <> Leaf.
Proof. by destruct side. Qed.
Lemma root_addr_paint c t : root_addr (paint c t) = root_addr t.
Proof. by destruct t. Qed.

Lemma inorder_node c side t a s :
  inorder (node c side t a s) = if side then inorder s ++ a :: inorder t else inorder t ++ a :: inorder s.
Proof. by destruct side. Qed.
Lemma inorder_paint c t : inorder (paint c t) = inorder t.
Proof. by destruct t. Qed.
Lemma height_node c side t a s : height (node c side t a s) = S (Nat.max (height t) (height s)).
Proof. destruct side; cbn; lia. Qed.
Lemma height_paint c t : height (paint c t) = height t.
Proof. by destruct t. Qed.

(** The order of a plugged tree is that of the plugged part with what the path adds. *)
Lemma inorder_plug ctx t t' : inorder t = inorder t' -> inorder (plug ctx t) = inorder (plug ctx t').
Proof. revert t t'. induction ctx as [|f ctx IH]; intros t t' E; cbn; [done|]. apply IH. by rewrite !inorder_node, E. Qed.

Fixpoint before (ctx : list frame) : list Z :=
  match ctx with [] => [] | f :: ctx => before ctx ++ (if f_side f then inorder (f_sib f) ++ [f_addr f] else []) end.
Fixpoint after (ctx : list frame) : list Z :=
  match ctx with [] => [] | f :: ctx => (if f_side f then [] else f_addr f :: inorder (f_sib f)) ++ after ctx end.

Lemma inorder_plug_split ctx t : inorder (plug ctx t) = before ctx ++ inorder t ++ after ctx.
Proof.
  revert t. induction ctx as [|f ctx IH]; intros t; cbn; [by rewrite app_nil_r|]. rewrite IH, inorder_node.
  destruct (f_side f); cbn; by rewrite <-!app_assoc.
Qed.

(** The depth the path alone reaches. *)
Fixpoint ctx_height (ctx : list frame) : nat :=
  match ctx with [] => 0 | f :: ctx => Nat.max (length ctx + S (height (f_sib f))) (ctx_height ctx) end.

Lemma ctx_height_length ctx : length ctx <= ctx_height ctx.
Proof. induction ctx; cbn; lia. Qed.

Lemma height_plug ctx t : height (plug ctx t) = Nat.max (length ctx + height t) (ctx_height ctx).
Proof.
  revert t. induction ctx as [|f ctx IH]; intros t; cbn; [lia|]. rewrite IH, height_node. lia.
Qed.

(** ** Colour rules *)

Inductive rb : nat -> rb_color -> tree -> Prop :=
| rb_leaf : rb 0 BLACK Leaf
| rb_red n l a r : rb n BLACK l -> rb n BLACK r -> rb n RED (Node RED l a r)
| rb_black n cl cr l a r : rb n cl l -> rb n cr r -> rb (S n) BLACK (Node BLACK l a r).

Inductive rbc (N : nat) : list frame -> nat -> rb_color -> Prop :=
| rbc_root : rbc N [] N RED
| rbc_black side a s ctx n k c : rbc N ctx (S n) k -> rb n c s -> rbc N (mk_frame side BLACK a s :: ctx) n BLACK
| rbc_red side a s ctx n : rbc N ctx n BLACK -> rb n BLACK s -> rbc N (mk_frame side RED a s :: ctx) n RED.

Lemma rb_node_red n side t a s : rb n BLACK t -> rb n BLACK s -> rb n RED (node RED side t a s).
Proof. intros. destruct side; by constructor. Qed.
Lemma rb_node_black n side t a s c c' : rb n c t -> rb n c' s -> rb (S n) BLACK (node BLACK side t a s).
Proof. intros. destruct side; by econstructor. Qed.

Lemma rb_node_inv n c side t a s c' : rb n c' (node c side t a s) ->
  c' = c /\ match c with
            | RED => rb n BLACK t /\ rb n BLACK s
            | BLACK => exists m ct cs, n = S m /\ rb m ct t /\ rb m cs s
            end.
Proof.
  intros R. destruct side; inversion R; subst; split; try done.
  all: eexists _, _, _; split; [done|split; eassumption].
Qed.

Lemma rb_root_color n c t : rb n c t -> root_color t = c.
Proof. by destruct 1. Qed.

(** A black tree painted red, and back. *)
Lemma rb_paint_black n t : rb n RED t -> rb (S n) BLACK (paint BLACK t).
Proof. inversion 1; subst. by econstructor. Qed.

Lemma rb_height n c t : rb n c t -> height t <= 2 * n + match c with RED => 1 | BLACK => 0 end.
Proof. induction 1; cbn; [lia|lia|]. destruct cl, cr; lia. Qed.

Lemma rbc_plug N ctx n k : rbc N ctx n k -> forall c t, rb n c t -> (k = RED -> c = BLACK) -> rb N BLACK (plug ctx t).
Proof.
  induction 1 as [|side a s ctx n k cs Hctx IH Hs|side a s ctx n Hctx IH Hs]; intros c t Ht Hk; cbn.
  - by rewrite <-(Hk eq_refl).
  - apply (IH BLACK); [|done]. by eapply rb_node_black.
  - rewrite (Hk eq_refl) in Ht. apply (IH RED); [|done]. by apply rb_node_red.
Qed.

(** Taking a valid tree apart along a path. *)
Lemma plug_rbc N ctx : forall t, rb N BLACK (plug ctx t) -> exists n k c, rbc N ctx n k /\ rb n c t /\ (k = RED -> c = BLACK).
Proof.
  induction ctx as [|f ctx IH]; intros t R; cbn in R; [by exists N, RED, BLACK; repeat constructor|].
  destruct (IH _ R) as (n & k & c & Hctx & Ht & Hk). apply rb_node_inv in Ht as [-> Ht]. destruct f as [side cf a s]. cbn in *.
  destruct cf.
  - destruct Ht as [Ht Hs]. exists n, RED, BLACK. destruct k; [by specialize (Hk eq_refl)|]. by repeat constructor.
  - destruct Ht as (m & ct & cs & -> & Ht & Hs). exists m, BLACK, ct. by repeat econstructor.
Qed.

(** A path of [N - n] black nodes has at most as many red ones. *)
Lemma rbc_length N ctx n k : rbc N ctx n k -> 2 * n + length ctx + match k with BLACK => 1 | RED => 0 end <= 2 * N.
Proof. induction 1 as [|side a s ctx n k c Hctx IH Hs|side a s ctx n Hctx IH Hs]; cbn; [lia|destruct k; lia|lia]. Qed.

(** ** Repair after an insertion *)

(** The node at the hole is red; its parent may be red too. *)
Fixpoint fix_red (ctx : list frame) (t : tree) : tree :=
  match ctx with
  | [] => paint BLACK t
  | f :: g :: ctx' =>
    match f_color f with
    | BLACK => plug ctx t
    | RED =>
      match f_sib g with
      | Node RED _ _ _ =>
        fix_red ctx' (node RED (f_side g) (node BLACK (f_side f) t (f_addr f) (f_sib f)) (f_addr g) (paint BLACK (f_sib g)))
      | _ =>
        let side := f_side g in
        if Bool.eqb (f_side f) side
        then plug ctx' (node BLACK side t (f_addr f) (node RED side (f_sib f) (f_addr g) (f_sib g)))
        else match t with
             | Leaf => Leaf
             | Node _ l a r =>
               let '(x, y) := if side then (r, l) else (l, r) in
               plug ctx' (node BLACK side (node RED side (f_sib f) (f_addr f) x) a (node RED side y (f_addr g) (f_sib g)))
             end
      end
    end
  | [f] => plug ctx t
  end.

(** Induction two frames at a time. *)
Lemma ctx_ind2 (P : list frame -> Prop) :
  P [] -> (forall f, P [f]) -> (forall f g ctx, P ctx -> P (f :: g :: ctx)) -> forall ctx, P ctx.
Proof.
  intros H0 H1 H2. assert (forall ctx, P ctx /\ forall f, P (f :: ctx)) as HP; [|by intros ctx; apply HP].
  induction ctx as [|g ctx [IH1 IH2]]; [by split|]. split; [done|]. intros f. by apply H2.
Qed.

Lemma fix_red_case f g ctx t side x a y :
  f_color f = RED -> root_color (f_sib g) = BLACK -> f_side g = side -> t = node RED side x a y ->
  fix_red (f :: g :: ctx) t =
    if Bool.eqb (f_side f) side
    then plug ctx (node BLACK side t (f_addr f) (node RED side (f_sib f) (f_addr g) (f_sib g)))
    else plug ctx (node BLACK side (node RED side (f_sib f) (f_addr f) x) a (node RED side y (f_addr g) (f_sib g))).
Proof.
  intros Ef Eg <- ->. cbn [fix_red]. rewrite Ef. destruct (f_sib g) as [|[] ? ? ?] eqn:E; [..|done|];
    destruct (Bool.eqb _ _); (done || by destruct (f_side g)).
Qed.

Lemma fix_red_recolor f g ctx t :
  f_color f = RED -> root_color (f_sib g) = RED ->
  fix_red (f :: g :: ctx) t =
    fix_red ctx (node RED (f_side g) (node BLACK (f_side f) t (f_addr f) (f_sib f)) (f_addr g) (paint BLACK (f_sib g))).
Proof. intros Ef Eg. cbn [fix_red]. rewrite Ef. by destruct (f_sib g) as [|[] ? ? ?]. Qed.

Lemma fix_red_black f ctx t : f_color f = BLACK -> fix_red (f :: ctx) t = plug (f :: ctx) t.
Proof. intros E. destruct ctx; cbn [fix_red]; by rewrite ?E. Qed.

Lemma fix_red_inorder ctx : forall t, t <> Leaf -> inorder (fix_red ctx t) = inorder (plug ctx t).
Proof.
  induction ctx as [|f|f g ctx IH] using ctx_ind2; intros t Ht; [by cbn; rewrite inorder_paint|done|].
  destruct (f_color f) eqn:Ef; [|by rewrite fix_red_black]. destruct (root_color (f_sib g)) eqn:Eg.
  - rewrite fix_red_recolor, IH by (done || apply node_not_leaf). cbn [plug]. apply inorder_plug. by rewrite !inorder_node, inorder_paint.
  - destruct (node_view (f_side g) t Ht) as (c & x & a & y & Et). cbn [fix_red plug]. rewrite Ef.
    destruct f as [sf cf P s], g as [sg cg G u]; cbn in *. subst.
    destruct u as [|[] ? ? ?]; [..|done|]; destruct sf, sg; cbn; apply inorder_plug; cbn; by rewrite <-?app_assoc; cbn; rewrite <-?app_assoc.
Qed.

(** The black height grows only when the repair reaches the root. *)
Lemma fix_red_rb N ctx : forall n k t, rbc N ctx n k -> rb n RED t ->
  exists N', rb N' BLACK (fix_red ctx t) /\ (N' = N \/ N' = S N /\ length ctx + 2 * n = 2 * N).
Proof.
  induction ctx as [|f|f g ctx IH] using ctx_ind2; intros n k t Hc Ht.
  - inversion Hc; subst. exists (S n). split; [by apply rb_paint_black|]. right. cbn. lia.
  - inversion Hc as [|? ? ? ? ? ? ? Hc' Hs|? ? ? ? ? Hc' Hs]; subst; [|inversion Hc'].
    exists N. split; [|by left]. rewrite fix_red_black by done. by apply (rbc_plug _ _ _ _ Hc RED).
  - inversion Hc as [|sf P s ? ? ? ? Hc' Hs|sf P s ? ? Hc' Hs]; subst.
    { exists N. split; [|by left]. rewrite fix_red_black by done. by apply (rbc_plug _ _ _ _ Hc RED). }
    inversion Hc' as [|sg G u ? ? k' cu Hc2 Hu|]; subst. destruct (root_color u) eqn:Eu; pose proof (rb_root_color _ _ _ Hu) as Eu'.
    + rewrite fix_red_recolor by done. cbn [f_side f_addr f_sib]. assert (cu = RED) as -> by congruence.
      apply rb_paint_black in Hu. destruct (IH (S n) k' (node RED sg (node BLACK sf t P s) G (paint BLACK u)) Hc2) as (N' & HN & Hl).
      { apply rb_node_red; [|done]. by eapply rb_node_black. }
      exists N'. split; [done|]. destruct Hl as [|[? ?]]; [by left|]. right. cbn. split; [done|lia].
    + destruct (node_view sg t) as (c & x & a & y & Et); [by intros ->; inversion Ht|]. subst t.
      pose proof (rb_root_color _ _ _ Ht) as Ec. rewrite root_color_node in Ec. subst c.
      rewrite (fix_red_case _ _ _ _ sg x a y) by done. apply rb_node_inv in Ht as Hxy. destruct Hxy as (_ & Hx & Hy).
      assert (cu = BLACK) as -> by congruence. exists N. split; [|by left]. cbn [f_side f_addr f_sib].
      destruct (Bool.eqb sf sg); eapply rbc_plug; try done; eapply rb_node_black; first [done|by apply rb_node_red].
Qed.

Lemma fix_red_height N ctx : forall n k t, rbc N ctx n k -> rb n RED t ->
  height (fix_red ctx t) <= Nat.max (height (plug ctx t)) (length ctx + 1 + 2 * n).
Proof.
  induction ctx as [|f|f g ctx IH] using ctx_ind2; intros n k t Hc Ht; [cbn; rewrite height_paint; lia|cbn; lia|].
  inversion Hc as [|sf P s ? ? ? ? Hc' Hs|sf P s ? ? Hc' Hs]; subst; [rewrite fix_red_black by done; lia|].
  inversion Hc' as [|sg G u ? ? k' cu Hc2 Hu|]; subst. pose proof (rb_root_color _ _ _ Hu) as Eu. destruct cu.
  - rewrite fix_red_recolor by done. cbn [f_side f_addr f_sib]. apply rb_paint_black in Hu.
    assert (Ht2 : rb (S n) RED (node RED sg (node BLACK sf t P s) G (paint BLACK u))).
    { apply rb_node_red; [|done]. by eapply rb_node_black. }
    specialize (IH _ _ _ Hc2 Ht2). cbn [plug f_side f_addr f_sib f_color length].
    rewrite height_plug in IH |- *. rewrite !height_node, height_paint in IH. rewrite !height_node. lia.
  - destruct (node_view sg t) as (c & x & a & y & Et); [by intros ->; inversion Ht|]. subst t.
    pose proof (rb_root_color _ _ _ Ht) as Ec. rewrite root_color_node in Ec. subst c.
    rewrite (fix_red_case _ _ _ _ sg x a y) by done. cbn [f_side f_addr f_sib plug f_color length].
    apply rb_height in Hu. destruct (Bool.eqb sf sg); rewrite !height_plug, !height_node; lia.
Qed.

(** ** Repair after a removal *)

Definition sub (side : bool) (t : tree) : tree :=
  match t with Leaf => Leaf | Node _ l _ r => if side then r else l end.

Lemma sub_node side c t a s : sub side (node c side t a s) = t.
Proof. by destruct side. Qed.
Lemma sub_node_other side c t a s : sub (negb side) (node c side t a s) = s.
Proof. by destruct side. Qed.

(** Parent [P] of colour [cp] lacks a black node on [side], where [t] is; its other child
    [sib] is black.  The result says whether the parent's tree as a whole still lacks one. *)
Definition settle (side : bool) (cp : rb_color) (P : Z) (sib t : tree) : tree * bool :=
  let i := sub side sib in
  let o := sub (negb side) sib in
  if black (root_color i) && black (root_color o) then (node BLACK side t P (paint RED sib), black cp)
  else if negb (black (root_color o))
  then (node cp side (node BLACK side t P i) (root_addr sib) (paint BLACK o), false)
  else (node cp side (node BLACK side t P (sub side i)) (root_addr i) (node BLACK side (sub (negb side) i) (root_addr sib) o), false).

(** A red sibling is first turned above the parent, whose next sibling is black. *)
Fixpoint fix_black (ctx : list frame) (t : tree) : tree :=
  match ctx with
  | [] => t
  | f :: ctx =>
    let side := f_side f in
    let sib := f_sib f in
    if negb (black (root_color sib))
    then plug ctx (node BLACK side (settle side RED (f_addr f) (sub side sib) t).1 (root_addr sib) (sub (negb side) sib))
    else let '(t', up) := settle side (f_color f) (f_addr f) sib t in
         if up then fix_black ctx t' else plug ctx t'
  end.

Lemma settle_inorder side cp P cs i S o t :
  inorder (settle side cp P (node cs side i S o) t).1 = inorder (node cp side t P (node cs side i S o)).
Proof.
  unfold settle. rewrite sub_node, sub_node_other, root_addr_node.
  destruct (root_color i) eqn:Ei, (root_color o) eqn:Eo; cbn.
  2: { destruct i as [|ci x I y]; [done|]. destruct side; cbn; rewrite <-?app_assoc; cbn; by rewrite <-?app_assoc. }
  3: { by destruct side. }
  all: destruct side; cbn; rewrite inorder_paint, <-?app_assoc; cbn; by rewrite <-?app_assoc.
Qed.

Lemma settle_height side cp P cs i S o t :
  height (settle side cp P (node cs side i S o) t).1 <= Nat.max (height (node cp side t P (node cs side i S o))) (2 + height t).
Proof.
  unfold settle. rewrite sub_node, sub_node_other, root_addr_node, !height_node.
  destruct (_ && _); cbn [fst]; [rewrite height_node, height_paint, height_node; lia|].
  destruct (negb _); cbn [fst]; rewrite !height_node, ?height_paint; [lia|].
  destruct i as [|ci x I y]; cbn; [lia|]. destruct side; cbn; lia.
Qed.

Lemma settle_rb n side cp P sib t :
  rb (S n) BLACK sib -> rb n BLACK t ->
  let '(t', up) := settle side cp P sib t in
  if up then cp = BLACK /\ rb (S n) BLACK t'
  else exists c', rb (S n + match cp with BLACK => 1 | RED => 0 end) c' t' /\ (cp = BLACK -> c' = BLACK).
Proof.
  intros Hsib Ht. destruct (node_view side sib) as (c & i & S & o & E); [by intros ->; inversion Hsib|]. subst sib.
  pose proof (rb_root_color _ _ _ Hsib) as Ec. rewrite root_color_node in Ec. subst c.
  apply rb_node_inv in Hsib as (_ & m & ci & co & E & Hi & Ho). injection E as <-. unfold settle.
  rewrite sub_node, sub_node_other, root_addr_node, paint_node, (rb_root_color _ _ _ Hi), (rb_root_color _ _ _ Ho).
  destruct co; [|destruct ci]; cbn.
  - rewrite ?andb_false_r. exists cp. assert (rb (1 + n) BLACK (paint BLACK o)) by (by apply rb_paint_black). split; [|by intros ->].
    destruct cp; [rewrite Nat.add_0_r; apply rb_node_red|rewrite Nat.add_1_r; eapply rb_node_black]; try done; by eapply rb_node_black.
  - destruct (node_view side i) as (c & x & I & y & ->); [by intros ->; inversion Hi|].
    apply rb_node_inv in Hi as [<- [Hx Hy]]. rewrite sub_node, sub_node_other, root_addr_node. exists cp. split; [|by intros ->].
    destruct cp; [rewrite Nat.add_0_r; apply rb_node_red|rewrite Nat.add_1_r; eapply rb_node_black]; by eapply rb_node_black.
  - assert (rb (1 + n) BLACK (node BLACK side t P (node RED side i S o))) as Hr.
    { eapply rb_node_black; [done|]. by apply rb_node_red. }
    destruct cp; [|done]. exists BLACK. rewrite Nat.add_0_r. done.
Qed.

Lemma fix_black_inorder N ctx : forall n k t, rbc N ctx (S n) k -> rb n BLACK t -> inorder (fix_black ctx t) = inorder (plug ctx t).
Proof.
  induction ctx as [|f ctx IH]; intros n k t Hc Ht; [done|]. cbn [fix_black plug]. destruct f as [side cp P sib]. cbn in *.
  assert (Hsib : exists cs, rb (S n) cs sib) by (inversion Hc; subst; eauto). destruct Hsib as [cs Hsib].
  destruct (node_view side sib) as (c & i & S & o & E); [by intros ->; inversion Hsib|]. subst sib.
  pose proof (rb_root_color _ _ _ Hsib) as Ec. rewrite root_color_node in Ec. subst c. rewrite root_color_node.
  destruct cs; cbn [negb black].
  - rewrite sub_node, sub_node_other, root_addr_node. apply inorder_plug. apply rb_node_inv in Hsib as (_ & Hi & Ho).
    destruct (node_view side i) as (ci & x & I & y & E); [by intros ->; inversion Hi|]. subst i.
    rewrite (inorder_node _ side (fst _)), settle_inorder. destruct side; cbn; rewrite <-?app_assoc; cbn; by rewrite <-?app_assoc.
  - pose proof (settle_inorder side cp P BLACK i S o t) as Ho.
    pose proof (settle_rb n side cp P (node BLACK side i S o) t Hsib Ht) as Hr.
    destruct (settle _ _ _ _ _) as [t' []]; cbn in Ho.
    + destruct Hr as [-> Hr]. inversion Hc as [|? ? ? ? ? k' ? Hc' ?|]; subst. rewrite (IH _ _ _ Hc' Hr). by apply inorder_plug.
    + by apply inorder_plug.
Qed.

Lemma fix_black_rb N ctx : forall n k t, rbc N ctx (S n) k -> rb n BLACK t ->
  exists N', rb N' BLACK (fix_black ctx t) /\ (N' = N \/ N = S N').
Proof.
  induction ctx as [|f ctx IH]; intros n k t Hc Ht.
  { inversion Hc; subst. exists n. split; [done|by right]. }
  destruct f as [side cp P sib]. cbn [fix_black f_side f_color f_addr f_sib].
  assert (Hsib : exists cs, rb (S n) cs sib) by (inversion Hc; subst; eauto). destruct Hsib as [cs Hsib].
  rewrite (rb_root_color _ _ _ Hsib). destruct cs; cbn [negb black].
  - destruct (node_view side sib) as (c & i & S & o & E); [by intros ->; inversion Hsib|]. subst sib.
    pose proof (rb_root_color _ _ _ Hsib) as Ec. rewrite root_color_node in Ec. subst c.
    rewrite sub_node, sub_node_other, root_addr_node. apply rb_node_inv in Hsib as (_ & Hi & Ho).
    inversion Hc as [|? ? ? ? ? k' ? Hc' Hs'|? ? ? ? ? Hc' Hs']; subst; [|by apply rb_root_color in Hs'; rewrite root_color_node in Hs'].
    pose proof (settle_rb n side RED P i t Hi Ht) as Hr. destruct (settle side RED P i t) as [t' []] eqn:E; cbn [fst]; [by destruct Hr|].
    destruct Hr as (c' & Hr & _). rewrite Nat.add_0_r in Hr. exists N. split; [|by left]. eapply rbc_plug; [done| |done]. by eapply rb_node_black.
  - pose proof (settle_rb n side cp P sib t Hsib Ht) as Hr.
    destruct (settle side cp P sib t) as [t' []] eqn:E.
    + destruct Hr as [-> Hr]. inversion Hc as [|? ? ? ? ? k' ? Hc' ?|]; subst. by apply (IH _ _ _ Hc').
    + destruct Hr as (c' & Hr & Hcp). exists N. split; [|by left].
      inversion Hc as [|? ? ? ? ? k' ? Hc' Hs'|? ? ? ? ? Hc' Hs']; subst.
      * rewrite Nat.add_1_r in Hr. eapply rbc_plug; [done|done|]. by intros _; apply Hcp.
      * rewrite Nat.add_0_r in Hr. by eapply rbc_plug.
Qed.

(** What the rotations push down is short of a black node, so the tree stays within twice
    its black height. *)
Lemma fix_black_height N ctx : forall n k t, rbc N ctx (S n) k -> rb n BLACK t ->
  height (fix_black ctx t) <= Nat.max (height (plug ctx t)) (2 * N - 1).
Proof.
  induction ctx as [|f ctx IH]; intros n k t Hc Ht; [cbn; lia|].
  destruct f as [side cp P sib]. cbn [fix_black plug f_side f_color f_addr f_sib].
  assert (Hsib : exists cs, rb (S n) cs sib) by (inversion Hc; subst; eauto). destruct Hsib as [cs Hsib].
  pose proof (rb_height _ _ _ Ht) as Hh. cbn in Hh. destruct (node_view side sib) as (c & i & S & o & E); [by intros ->; inversion Hsib|]. subst sib.
  pose proof (rb_root_color _ _ _ Hsib) as Ec. rewrite root_color_node in Ec. subst c. rewrite root_color_node.
  assert (Hlen : 2 * n + 3 + length ctx <= 2 * N /\ (cp = BLACK -> 2 * n + 4 + length ctx <= 2 * N)).
  { inversion Hc as [|? ? ? ? ? k' ? Hc' Hs'|? ? ? ? ? Hc' Hs']; subst; apply rbc_length in Hc'; [destruct k'; split; lia|by split; [lia|]]. }
  destruct cs; cbn [negb black].
  - rewrite sub_node, sub_node_other, root_addr_node. apply rb_node_inv in Hsib as (_ & Hi & Ho).
    assert (cp = BLACK) as ->. { destruct cp; [|done]. inversion Hc as [| |? ? ? ? ? Hc' Hs']; subst. apply rb_root_color in Hs'. by rewrite root_color_node in Hs'. }
    destruct (node_view side i) as (ci & x & I & y & E); [by intros ->; inversion Hi|]. subst i.
    pose proof (settle_height side RED P ci x I y t) as Hs. rewrite !height_plug, !height_node in *. destruct Hlen as [_ Hlen]. specialize (Hlen eq_refl). lia.
  - pose proof (settle_height side cp P BLACK i S o t) as Hs.
    pose proof (settle_rb n side cp P (node BLACK side i S o) t Hsib Ht) as Hr. destruct Hlen as [Hlen _].
    assert (Hst : height (settle side cp P (node BLACK side i S o) t).1 <= Nat.max (height (node cp side t P (node BLACK side i S o))) (2 + height t)) by done.
    destruct (settle _ _ _ _ _) as [t' []] eqn:E; cbn [fst] in *.
    + destruct Hr as [-> Hr]. inversion Hc as [|? ? ? ? ? k' ? Hc' ?|]; subst. specialize (IH _ _ _ Hc' Hr). rewrite !height_plug in *.
      lia.
    + rewrite !height_plug. lia.
Qed.
