(* ===== verification/RbMem.v ===== *)
(** * Red/black trees in memory

    [rep m t]: the nodes of the tree value [t] stand in the memory [m] with the children and
    colours that [t] says.  [repc m ctx p] is the same for a path whose hole holds the
    address [p].  [Zip st sz ctx t] is the state inside an operation of [rb.c]: the memory
    holds [plug ctx t] and the first [sz] entries of the array are the path to [t]. *)

From Stdlib Require Import ZArith Lia Bool List.
From stdpp Require Import base tactics numbers list gmap.
From S2P Require Import Prelude RbTree RbFun.

Local Open Scope Z_scope.

(** ** Child words *)

Definition ptr_ok (a : Z) : Prop := 0 <= a < 2 ^ 32 /\ Z.even a = true.
Definition addr_ok (a : Z) : Prop := a <> 0 /\ ptr_ok a.

(** A node with colour [c] and children [l] and [r]. *)
Definition rbn (c : rb_color) (l r : Z) : rbnode := mk_rbnode (Z.lor l (color_bit c)) r.

Lemma even_bit0 a : Z.even a = true -> Z.testbit a 0 = false.
Proof. intros E. by rewrite Z.bit0_odd, <-Z.negb_even, E. Qed.

Lemma color_bit_high c i : 0 < i -> Z.testbit (color_bit c) i = false.
Proof. intros Hi. destruct c; cbn [color_bit]; [apply Z.bits_0|]. change 1 with (2 ^ 0). apply Z.pow2_bits_false. lia. Qed.

Lemma ptr_high a i : ptr_ok a -> 32 <= i -> Z.testbit a i = false.
Proof. intros [Ha _] Hi. rewrite <-(Z.mod_small _ _ Ha). apply Z.mod_pow2_bits_high. lia. Qed.

Lemma mask_child l c : ptr_ok l -> Z.land (Z.lor l (color_bit c)) (not32 1) = l.
Proof.
  intros Hl. apply Z.bits_inj'. intros i Hi. rewrite Z.land_spec, Z.lor_spec. destruct (Z.eq_dec i 0) as [->|Hi0].
  - rewrite (even_bit0 l) by apply Hl. by rewrite andb_false_r.
  - rewrite color_bit_high, orb_false_r by lia. destruct (Z.ltb_spec i 32) as [Hlt|Hge].
    + unfold not32, u32. rewrite Z.mod_pow2_bits_low, Z.lnot_spec by lia. change 1 with (2 ^ 0).
      rewrite Z.pow2_bits_false by lia. by rewrite andb_true_r.
    + by rewrite (ptr_high l) by done.
Qed.

Lemma mask_color l c : ptr_ok l -> Z.land (Z.lor l (color_bit c)) 1 = color_bit c.
Proof.
  intros Hl. change 1 with (Z.ones 1) at 1. rewrite Z.land_ones by lia. apply Z.bits_inj'. intros i Hi.
  rewrite Z.testbit_mod_pow2, Z.lor_spec by lia. destruct (Z.eq_dec i 0) as [->|Hi0].
  - rewrite (even_bit0 l) by apply Hl. done.
  - rewrite (color_bit_high c) by lia. by rewrite (proj2 (Z.ltb_ge _ _)) by lia.
Qed.

Lemma ptr_ok_null : ptr_ok 0.
Proof. by split. Qed.
#[export] Hint Resolve ptr_ok_null : core.

(** ** Node primitives *)

Section Primitives.
Context `{Config}.
Implicit Types (st : rbtree).

Lemma wp_rd_rbnode n v (Q : rbnode -> rbtree -> Prop) st : rb_nodes st !! n = Some v -> Q v st -> wp (rd_rbnode n) Q st.
Proof. intros E HQ. unfold rd_rbnode. wp_steps. by eapply wp_ofopt. Qed.

Lemma wp_wr_rbnode n v' v (Q : unit -> rbtree -> Prop) st :
  rb_nodes st !! n = Some v -> Q tt (with_rb_nodes (<[n := v']> (rb_nodes st)) st) -> wp (wr_rbnode n v') Q st.
Proof. intros E HQ. unfold wr_rbnode. apply wp_bind. eapply wp_rd_rbnode; [done|]. by apply wp_modify. Qed.

Lemma wp_nonnull n (Q : unit -> rbtree -> Prop) st : n <> 0 -> Q tt st -> wp (assert_ (negb (n =? 0))) Q st.
Proof. intros Hn HQ. apply wp_assert; [|done]. by apply negb_true_iff, Z.eqb_neq. Qed.

Lemma wp_get_child n (side : bool) c l r (Q : Z -> rbtree -> Prop) st :
  rb_nodes st !! n = Some (rbn c l r) -> n <> 0 -> ptr_ok l -> Q (if side then r else l) st -> wp (get_child n side) Q st.
Proof.
  intros E Hn Hl HQ. unfold get_child. apply wp_bind, wp_nonnull; [done|]. apply wp_bind. eapply wp_rd_rbnode; [done|].
  apply wp_ret. cbn. by rewrite mask_child.
Qed.

Lemma wp_set_child n (side : bool) v c l r (Q : unit -> rbtree -> Prop) st :
  rb_nodes st !! n = Some (rbn c l r) -> n <> 0 -> ptr_ok l ->
  Q tt (with_rb_nodes (<[n := if side then rbn c l v else rbn c v r]> (rb_nodes st)) st) -> wp (set_child n side v) Q st.
Proof.
  intros E Hn Hl HQ. unfold set_child. apply wp_bind, wp_nonnull; [done|]. apply wp_bind. eapply wp_rd_rbnode; [done|]. cbn.
  destruct side; (eapply wp_wr_rbnode; [done|]); [done|]. by rewrite mask_color.
Qed.

Lemma wp_get_color n c l r (Q : rb_color -> rbtree -> Prop) st :
  rb_nodes st !! n = Some (rbn c l r) -> n <> 0 -> ptr_ok l -> Q c st -> wp (get_color n) Q st.
Proof.
  intros E Hn Hl HQ. unfold get_color. apply wp_bind, wp_nonnull; [done|]. apply wp_bind. eapply wp_rd_rbnode; [done|].
  apply wp_ret. cbn. rewrite mask_color by done. by destruct c.
Qed.

Lemma wp_is_black n c l r (Q : bool -> rbtree -> Prop) st :
  rb_nodes st !! n = Some (rbn c l r) -> n <> 0 -> ptr_ok l -> Q (black c) st -> wp (is_black n) Q st.
Proof. intros E Hn Hl HQ. unfold is_black. apply wp_bind. eapply wp_get_color; [done..|]. apply wp_ret. by destruct c. Qed.

Lemma wp_is_red n c l r (Q : bool -> rbtree -> Prop) st :
  rb_nodes st !! n = Some (rbn c l r) -> n <> 0 -> ptr_ok l -> Q (negb (black c)) st -> wp (is_red n) Q st.
Proof. intros E Hn Hl HQ. unfold is_red. apply wp_bind. eapply wp_get_color; [done..|]. apply wp_ret. by destruct c. Qed.

Lemma wp_set_color n c' c l r (Q : unit -> rbtree -> Prop) st :
  rb_nodes st !! n = Some (rbn c l r) -> n <> 0 -> ptr_ok l ->
  Q tt (with_rb_nodes (<[n := rbn c' l r]> (rb_nodes st)) st) -> wp (set_color n c') Q st.
Proof.
  intros E Hn Hl HQ. unfold set_color. apply wp_bind, wp_nonnull; [done|]. apply wp_bind. eapply wp_rd_rbnode; [done|]. cbn.
  eapply wp_wr_rbnode; [done|]. by rewrite mask_child.
Qed.

Lemma wp_get_side p ch c l r (Q : bool -> rbtree -> Prop) st :
  rb_nodes st !! p = Some (rbn c l r) -> p <> 0 -> ptr_ok l -> l = ch \/ r = ch -> Q (r =? ch) st -> wp (get_side p ch) Q st.
Proof.
  intros E Hn Hl Hch HQ. unfold get_side. apply wp_bind, wp_assert_m.
  - intros _. apply wp_bind. eapply wp_get_child; [done..|]. apply wp_bind. eapply wp_get_child; [done..|]. apply wp_ret. split; [|done].
    destruct Hch as [->| ->]; by rewrite Z.eqb_refl, ?orb_true_r.
  - apply wp_bind. eapply wp_get_child; [done..|]. by apply wp_ret.
Qed.

(** ** The array *)

(** The array starts with [l]. *)
Definition on_stack (st : rbtree) (l : list Z) : Prop :=
  forall i x, l !! i = Some x -> rb_stack st !! i = Some (Some x).

Lemma wp_stack_get i x l (Q : Z -> rbtree -> Prop) st :
  on_stack st l -> 0 <= i -> l !! Z.to_nat i = Some x -> Q x st -> wp (stack_get i) Q st.
Proof.
  intros Hs Hi E HQ. unfold stack_get. wp_steps. eapply wp_ofopt; [|done]. unfold array_get.
  rewrite (proj2 (Z.ltb_ge _ _)) by lia. by rewrite (Hs _ _ E).
Qed.

Definition set_entry (i : nat) (x : Z) st : rbtree := with_rb_stack (<[i := Some x]> (rb_stack st)) st.

Lemma wp_stack_set i x (Q : unit -> rbtree -> Prop) st :
  0 <= i < Z.of_nat (length (rb_stack st)) -> Q tt (set_entry (Z.to_nat i) x st) -> wp (stack_set i x) Q st.
Proof.
  intros Hi HQ. unfold stack_set. wp_steps. eapply wp_ofopt; [|by apply wp_modify]. unfold array_set.
  rewrite (proj2 (Z.ltb_ge _ _)) by lia. by rewrite (proj2 (Nat.ltb_lt _ _)) by lia.
Qed.

Lemma on_stack_prefix st l l' : on_stack st (l ++ l') -> on_stack st l.
Proof. intros Hs i x E. apply Hs. by apply lookup_app_l_Some. Qed.

Lemma on_stack_push st l x : on_stack st l -> (length l < length (rb_stack st))%nat -> on_stack (set_entry (length l) x st) (l ++ [x]).
Proof.
  intros Hs Hl i y E. cbn. apply lookup_app_Some in E as [E|[Hi E]].
  - rewrite list_lookup_insert_ne; [by apply Hs|]. apply lookup_lt_Some in E. lia.
  - apply list_lookup_singleton_Some in E as [E <-]. replace i with (length l) by lia. by apply list_lookup_insert_eq.
Qed.

End Primitives.

(** ** Trees and paths in memory *)

(** The words of a node whose child on [side] is [p] and whose other child is [q]. *)
Definition cell (c : rb_color) (side : bool) (p q : Z) : rbnode := if side then rbn c q p else rbn c p q.

Fixpoint rep (m : gmap Z rbnode) (t : tree) : Prop :=
  match t with
  | Leaf => True
  | Node c l a r => m !! a = Some (rbn c (root_addr l) (root_addr r)) /\ addr_ok a /\ rep m l /\ rep m r
  end.

Fixpoint repc (m : gmap Z rbnode) (ctx : list frame) (p : Z) : Prop :=
  match ctx with
  | [] => True
  | f :: ctx => m !! f_addr f = Some (cell (f_color f) (f_side f) p (root_addr (f_sib f))) /\ addr_ok (f_addr f) /\
                rep m (f_sib f) /\ repc m ctx (f_addr f)
  end.

Section Rep.
Implicit Types (m : gmap Z rbnode).

Lemma rep_node m c side t a s :
  rep m (node c side t a s) <-> m !! a = Some (cell c side (root_addr t) (root_addr s)) /\ addr_ok a /\ rep m t /\ rep m s.
Proof. destruct side; cbn; tauto. Qed.

Lemma rep_plug m ctx : forall t, rep m (plug ctx t) <-> repc m ctx (root_addr t) /\ rep m t.
Proof. induction ctx as [|f ctx IH]; intros t; cbn; [tauto|]. rewrite IH, rep_node, root_addr_node. tauto. Qed.

Lemma rep_ok m t : rep m t -> t <> Leaf -> addr_ok (root_addr t).
Proof. destruct t; [done|]. by intros (_ & ? & _) _. Qed.

Lemma rep_ptr m t : rep m t -> ptr_ok (root_addr t).
Proof. intros Hr. destruct t; [done|]. by apply (rep_ok m). Qed.

Lemma rep_null m t : rep m t -> (root_addr t =? 0) = match t with Leaf => true | _ => false end.
Proof. intros Hr. destruct t as [|c l a r]; [done|]. apply Z.eqb_neq. by apply (rep_ok m) in Hr as [? _]. Qed.

Lemma rep_frame m m' t : (forall a, a ∈ inorder t -> m' !! a = m !! a) -> rep m t -> rep m' t.
Proof.
  induction t as [|c l IHl a r IHr]; intros Hm; cbn; [done|]. intros (E & Ha & Hl & Hr).
  rewrite (Hm a) by (apply elem_of_app; right; apply elem_of_cons; by left). split; [done|]. split; [done|].
  split; [apply IHl|apply IHr]; try done; intros b Hb; apply Hm, elem_of_app; [by left|right; apply elem_of_cons; by right].
Qed.

Lemma rep_insert m t a v : a ∉ inorder t -> rep m t -> rep (<[a := v]> m) t.
Proof. intros Ha. apply rep_frame. intros b Hb. apply lookup_insert_ne. by intros ->. Qed.

(** The nodes of a path. *)
Definition cnodes (ctx : list frame) : list Z := before ctx ++ after ctx.

Lemma cnodes_cons f ctx a : a ∈ cnodes (f :: ctx) <-> a = f_addr f \/ a ∈ inorder (f_sib f) \/ a ∈ cnodes ctx.
Proof. unfold cnodes. cbn. destruct (f_side f); rewrite !elem_of_app, ?elem_of_cons, ?elem_of_app, ?list_elem_of_singleton, ?elem_of_nil; tauto. Qed.

Lemma repc_frame m m' ctx p : (forall a, a ∈ cnodes ctx -> m' !! a = m !! a) -> repc m ctx p -> repc m' ctx p.
Proof.
  revert p. induction ctx as [|f ctx IH]; intros p Hm; cbn; [done|]. intros (E & Ha & Hs & Hc).
  rewrite (Hm (f_addr f)) by (apply cnodes_cons; by left). split; [done|]. split; [done|].
  split; [eapply rep_frame; [|done]|apply IH; [|done]]; intros b Hb; apply Hm, cnodes_cons; tauto.
Qed.

Lemma repc_insert m ctx p a v : a ∉ cnodes ctx -> repc m ctx p -> repc (<[a := v]> m) ctx p.
Proof. intros Ha. apply repc_frame. intros b Hb. apply lookup_insert_ne. by intros ->. Qed.

(** A path and what stands in its hole have no node in common, and no node occurs twice. *)
Record apart (ctx : list frame) (l : list Z) : Prop := {
  ap_in : NoDup l;
  ap_ctx : NoDup (cnodes ctx);
  ap_disj : forall a, a ∈ l -> a ∉ cnodes ctx;
}.

Lemma nodup_plug ctx t : NoDup (inorder (plug ctx t)) <-> apart ctx (inorder t).
Proof.
  rewrite inorder_plug_split. assert (Hp : before ctx ++ inorder t ++ after ctx ≡ₚ inorder t ++ cnodes ctx).
  { unfold cnodes. by rewrite !app_assoc, (Permutation_app_comm (before ctx) (inorder t)). }
  rewrite Hp, NoDup_app. split; [intros (? & ? & ?); by split|intros [? ? ?]; by repeat split].
Qed.

Lemma apart_cons f ctx l :
  apart (f :: ctx) l -> f_addr f ∉ inorder (f_sib f) /\ f_addr f ∉ cnodes ctx /\ f_addr f ∉ l /\
  (forall a, a ∈ inorder (f_sib f) -> a ∉ cnodes ctx /\ a ∉ l) /\ apart ctx l /\ NoDup (inorder (f_sib f)).
Proof.
  intros [H1 H2 H3]. assert (Hp : cnodes (f :: ctx) ≡ₚ f_addr f :: inorder (f_sib f) ++ cnodes ctx).
  { unfold cnodes. cbn. destruct (f_side f); solve_Permutation. }
  rewrite Hp, NoDup_cons, NoDup_app in H2. destruct H2 as (Ha & Hs & Hd & Hc).
  assert (H3' : forall a, a ∈ l -> a <> f_addr f /\ a ∉ inorder (f_sib f) /\ a ∉ cnodes ctx).
  { intros a Hin. specialize (H3 a Hin). rewrite cnodes_cons in H3. tauto. }
  rewrite not_elem_of_app in Ha. split; [tauto|]. split; [tauto|]. split; [intros Hin; by destruct (H3' _ Hin)|].
  split; [|split; [|done]].
  - intros a Hin. split; [by apply Hd|]. intros Hl. by destruct (H3' _ Hl) as (_ & ? & _).
  - split; [done|done|]. intros a Hin. by destruct (H3' _ Hin) as (_ & _ & ?).
Qed.

(** Let the node above the hole point to [p]. *)
Definition retarget (ctx : list frame) (p : Z) (m : gmap Z rbnode) : gmap Z rbnode :=
  match ctx with
  | [] => m
  | f :: _ => <[f_addr f := cell (f_color f) (f_side f) p (root_addr (f_sib f))]> m
  end.

Lemma repc_retarget m ctx p p' l : apart ctx l -> repc m ctx p -> repc (retarget ctx p' m) ctx p'.
Proof.
  intros Hap. destruct ctx as [|f ctx]; [done|]. intros (_ & Ha & Hs & Hc). apply apart_cons in Hap as (H1 & H2 & _).
  cbn. split; [apply lookup_insert_eq|]. split; [done|]. split; [by apply rep_insert|by apply repc_insert].
Qed.

Lemma retarget_other ctx p m a : a ∉ cnodes ctx -> retarget ctx p m !! a = m !! a.
Proof. intros Ha. destruct ctx as [|f ctx]; [done|]. apply lookup_insert_ne. intros <-. apply Ha, cnodes_cons. by left. Qed.

End Rep.

(** ** The state inside an operation *)

(** The addresses from the root down to [p]. *)
Fixpoint path (ctx : list frame) (p : Z) : list Z :=
  match ctx with [] => [p] | f :: ctx => path ctx (f_addr f) ++ [p] end.

Lemma length_path ctx p : length (path ctx p) = S (length ctx).
Proof. revert p. induction ctx as [|f ctx IH]; intros p; cbn; [done|]. rewrite length_app, IH. cbn. lia. Qed.

Lemma path_last ctx p : path ctx p !! length ctx = Some p.
Proof. destruct ctx as [|f ctx]; [done|]. cbn. rewrite lookup_app_r by (rewrite length_path; lia). by rewrite length_path, Nat.sub_diag. Qed.

Lemma path_above f ctx p : path (f :: ctx) p !! length ctx = Some (f_addr f).
Proof. cbn. rewrite lookup_app_l by (rewrite length_path; lia). apply path_last. Qed.

Lemma path_root ctx t : path ctx (root_addr t) !! 0%nat = Some (root_addr (plug ctx t)).
Proof.
  revert t. induction ctx as [|f ctx IH]; intros t; [done|]. cbn [path plug].
  rewrite lookup_app_l by (rewrite length_path; lia). rewrite <-IH. by rewrite root_addr_node.
Qed.

Record Zip (st : rbtree) (sz : Z) (ctx : list frame) (t : tree) : Prop := {
  z_rep : rep (rb_nodes st) (plug ctx t);
  z_nodup : NoDup (inorder (plug ctx t));
  z_leaf : t <> Leaf;
  z_sz : sz = Z.of_nat (S (length ctx));
  z_stack : on_stack st (path ctx (root_addr t));
}.

(** Everything but nodes and array entries stays. *)
Record same_tree (st st' : rbtree) : Prop := {
  st_root : rb_root st' = rb_root st;
  st_depth : rb_max_depth st' = rb_max_depth st;
  st_length : length (rb_stack st') = length (rb_stack st);
}.

#[export] Instance same_tree_preorder : PreOrder same_tree.
Proof. split; [by intros|]. intros a b c [? ? ?] [? ? ?]. split; congruence. Qed.

Lemma same_nodes st m : same_tree st (with_rb_nodes m st).
Proof. done. Qed.
Lemma same_entry st i x : same_tree st (set_entry i x st).
Proof. split; [done|done|]. cbn. apply length_insert. Qed.

Section Zippers.
Context `{Config}.
Implicit Types (st : rbtree).

Lemma zip_parts st sz ctx t : Zip st sz ctx t -> repc (rb_nodes st) ctx (root_addr t) /\ rep (rb_nodes st) t /\ apart ctx (inorder t).
Proof. intros [Hr Hn _ _ _]. apply rep_plug in Hr as [? ?]. by apply nodup_plug in Hn. Qed.

(** Changing what the hole holds and the memory with it, the array staying. *)
Lemma zip_top st sz ctx t (Q : Z -> rbtree -> Prop) : Zip st sz ctx t -> Q (root_addr t) st -> wp (stack_get (sz - 1)) Q st.
Proof.
  intros [_ _ _ -> Hs] HQ. eapply wp_stack_get; [done|lia| |done]. replace (Z.to_nat _) with (length ctx) by lia. apply path_last.
Qed.

Lemma zip_parent st sz f ctx t (Q : Z -> rbtree -> Prop) : Zip st sz (f :: ctx) t -> Q (f_addr f) st -> wp (stack_get (sz - 2)) Q st.
Proof.
  intros [_ _ _ -> Hs] HQ. cbn in *. eapply wp_stack_get; [done|lia| |done].
  replace (Z.to_nat _) with (length ctx) by lia. apply (path_above f).
Qed.

Lemma zip_grandparent st sz f g ctx t (Q : Z -> rbtree -> Prop) :
  Zip st sz (f :: g :: ctx) t -> Q (f_addr g) st -> wp (stack_get (sz - 3)) Q st.
Proof.
  intros [_ _ _ -> Hs] HQ. cbn in *. eapply wp_stack_get; [by apply on_stack_prefix in Hs|lia| |done].
  replace (Z.to_nat _) with (length ctx) by lia. apply (path_above g).
Qed.

Lemma zip_bottom st sz ctx t (Q : Z -> rbtree -> Prop) :
  Zip st sz ctx t -> Q (root_addr (plug ctx t)) st -> wp (stack_get 0) Q st.
Proof. intros Hz HQ. eapply wp_stack_get; [apply Hz|lia|apply path_root|done]. Qed.

(** Moving up: the entry below stays in the array. *)
Lemma zip_up st sz f ctx t :
  Zip st sz (f :: ctx) t -> Zip st (sz - 1) ctx (node (f_color f) (f_side f) t (f_addr f) (f_sib f)).
Proof.
  intros [Hr Hn Hl -> Hs]. split; [done|done|apply node_not_leaf|cbn; lia|]. rewrite root_addr_node.
  by apply on_stack_prefix in Hs.
Qed.

(** Moving down pushes an entry. *)
Lemma zip_down st sz ctx c side x a y i :
  Zip st sz ctx (node c side x a y) -> x <> Leaf -> (S (length ctx) < length (rb_stack st))%nat -> i = S (length ctx) ->
  Zip (set_entry i (root_addr x) st) (sz + 1) (mk_frame side c a y :: ctx) x.
Proof.
  intros [Hr Hn Hl -> Hs] Hx Hlen ->. split; [done|done|done|cbn; lia|]. rewrite root_addr_node in Hs. cbn.
  rewrite <-(length_path ctx a). apply on_stack_push; [done|]. by rewrite length_path.
Qed.

(** Going over to the sibling replaces the top entry. *)
Lemma zip_across st sz f ctx t i :
  Zip st sz (f :: ctx) t -> f_sib f <> Leaf -> (S (length ctx) < length (rb_stack st))%nat -> i = S (length ctx) ->
  Zip (set_entry i (root_addr (f_sib f)) st) sz (mk_frame (negb (f_side f)) (f_color f) (f_addr f) t :: ctx) (f_sib f).
Proof.
  intros Hz Hx Hlen ->. apply zip_up in Hz. rewrite <-node_flip in Hz. apply (zip_down _ _ _ _ _ _ _ _ (S (length ctx))) in Hz; [|done..].
  by replace (sz - 1 + 1) with sz in Hz by lia.
Qed.

(** The top entry does not matter. *)
Lemma zip_entries st st' sz ctx t :
  Zip st sz ctx t -> rb_nodes st' = rb_nodes st -> on_stack st' (path ctx (root_addr t)) -> Zip st' sz ctx t.
Proof. intros [Hr Hn Hl -> Hs] E Hs'. by split; rewrite ?E. Qed.

(** The side of the hole. *)
Lemma wp_hole_side m f ctx p (Q : bool -> rbtree -> Prop) st :
  rb_nodes st = m -> repc m (f :: ctx) p -> ptr_ok p -> p <> 0 -> p <> root_addr (f_sib f) -> Q (f_side f) st -> wp (get_side (f_addr f) p) Q st.
Proof.
  intros Em (E & [Ha Ha'] & Hs & _) Hp Hp0 Hne HQ. subst m. unfold cell in E. apply rep_ptr in Hs.
  destruct (f_side f) eqn:Es; (eapply wp_get_side; [done|done|done|by (left + right)|]); [by rewrite Z.eqb_refl|].
  by rewrite (proj2 (Z.eqb_neq _ _)).
Qed.

Lemma apart_sib f ctx t l : apart (f :: ctx) l -> root_addr t ∈ l -> t <> Leaf -> root_addr t <> root_addr (f_sib f) \/ f_sib f = Leaf.
Proof.
  intros Hap Hin Ht. destruct (f_sib f) as [|c l' b r] eqn:E; [by right|]. left. cbn. apply apart_cons in Hap as (_ & _ & _ & Hd & _).
  rewrite E in Hd. intros Eb. destruct (Hd b) as [_ Hn]; [cbn; apply elem_of_app; right; apply elem_of_cons; by left|].
  apply Hn. by rewrite <-Eb.
Qed.

Lemma root_in t : t <> Leaf -> root_addr t ∈ inorder t.
Proof. destruct t; [done|]. intros _. cbn. apply elem_of_app. right. apply elem_of_cons. by left. Qed.

Lemma zip_side st sz f ctx t (Q : bool -> rbtree -> Prop) :
  Zip st sz (f :: ctx) t -> Q (f_side f) st -> wp (get_side (f_addr f) (root_addr t)) Q st.
Proof.
  intros Hz HQ. pose proof (z_leaf _ _ _ _ Hz) as Hl. destruct (zip_parts _ _ _ _ Hz) as (Hc & Hr & Hap).
  pose proof (rep_ok _ _ Hr Hl) as [Hn Hp]. eapply wp_hole_side; [done|done|done|done| |done].
  destruct (apart_sib f ctx t _ Hap (root_in t Hl) Hl) as [|E]; [done|by rewrite E].
Qed.

End Zippers.

(** ** Rotation *)

Section Rotation.
Context `{Config}.
Implicit Types (st : rbtree).

Lemma stack_room st sz ctx t : Zip st sz ctx t -> (length ctx < length (rb_stack st))%nat.
Proof. intros Hz. eapply lookup_lt_Some. apply (z_stack _ _ _ _ Hz). apply path_last. Qed.

(** The step that makes the grandparent, if there is one, point to the child. *)
Lemma wp_retarget st sz ctx p p' l (Q : unit -> rbtree -> Prop) :
  repc (rb_nodes st) ctx p -> addr_ok p -> on_stack st (path ctx p) -> sz = Z.of_nat (S (S (length ctx))) -> apart ctx l -> p ∈ l ->
  Q tt (with_rb_nodes (retarget ctx p' (rb_nodes st)) st) ->
  wp (if 3 <=? sz then grandparent ← stack_get (sz - 3); gs ← get_side grandparent p; set_child grandparent gs p' else skip) Q st.
Proof.
  intros Hc Hp Hs -> Hap Hin HQ. destruct ctx as [|g ctx].
  { rewrite (proj2 (Z.leb_gt _ _)) by (cbn; lia). apply wp_skip. cbn in HQ. by destruct st. }
  rewrite (proj2 (Z.leb_le _ _)) by (cbn; lia). apply wp_bind.
  eapply wp_stack_get; [apply (on_stack_prefix _ _ _ Hs)|cbn; lia|replace (Z.to_nat _) with (length ctx) by (cbn; lia); apply path_last|].
  apply wp_bind. eapply wp_hole_side; [done|done|apply Hp|apply Hp| |].
  { pose proof Hap as Hap'. apply apart_cons in Hap' as (_ & _ & _ & Hd & _). destruct (f_sib g) as [|cs l' b r] eqn:E; [apply Hp|]. cbn. intros ->.
    destruct (Hd b) as [_ Hn]; [|done]. cbn. apply elem_of_app. right. apply elem_of_cons. by left. }
  destruct Hc as (E & Ha & Hsib & _). apply rep_ptr in Hsib. unfold cell in E.
  cbn in HQ. destruct Hp as [_ Hp]. destruct (f_side g); (eapply wp_set_child; [done|apply Ha|done|done]).
Qed.

Lemma wp_get_cell n c side p q (Q : Z -> rbtree -> Prop) st :
  rb_nodes st !! n = Some (cell c side p q) -> n <> 0 -> ptr_ok p -> ptr_ok q -> Q p st -> wp (get_child n side) Q st.
Proof. intros E Hn Hp Hq HQ. unfold cell in E. destruct side; by eapply wp_get_child. Qed.

Lemma wp_get_cell_other n c side p q (Q : Z -> rbtree -> Prop) st :
  rb_nodes st !! n = Some (cell c side p q) -> n <> 0 -> ptr_ok p -> ptr_ok q -> Q q st -> wp (get_child n (negb side)) Q st.
Proof. intros E Hn Hp Hq HQ. unfold cell in E. destruct side; by eapply wp_get_child. Qed.

Lemma wp_set_cell n v c side p q (Q : unit -> rbtree -> Prop) st :
  rb_nodes st !! n = Some (cell c side p q) -> n <> 0 -> ptr_ok p -> ptr_ok q ->
  Q tt (with_rb_nodes (<[n := cell c side v q]> (rb_nodes st)) st) -> wp (set_child n side v) Q st.
Proof. intros E Hn Hp Hq HQ. unfold cell in *. destruct side; by eapply wp_set_child. Qed.

Lemma wp_set_cell_other n v c side p q (Q : unit -> rbtree -> Prop) st :
  rb_nodes st !! n = Some (cell c side p q) -> n <> 0 -> ptr_ok p -> ptr_ok q ->
  Q tt (with_rb_nodes (<[n := cell c side p v]> (rb_nodes st)) st) -> wp (set_child n (negb side) v) Q st.
Proof. intros E Hn Hp Hq HQ. unfold cell in *. destruct side; by eapply wp_set_child. Qed.

(** Membership in the parts of a node. *)
Lemma in_node c side t a s x : x ∈ inorder (node c side t a s) <-> x = a \/ x ∈ inorder t \/ x ∈ inorder s.
Proof. destruct side; cbn; rewrite elem_of_app, elem_of_cons; tauto. Qed.

Lemma nodup_node c side t a s :
  NoDup (inorder (node c side t a s)) <-> a ∉ inorder t /\ a ∉ inorder s /\ NoDup (inorder t) /\ NoDup (inorder s) /\ (forall x, x ∈ inorder t -> x ∉ inorder s).
Proof.
  destruct side; cbn; rewrite NoDup_app, NoDup_cons; setoid_rewrite elem_of_cons; split.
  - intros (Hs & Hd & Ha & Ht). repeat split; try done; [intros Hin; apply (Hd a Hin); by left|]. intros x Hx Hx'. apply (Hd x Hx'). by right.
  - intros (Ha & Ha' & Ht & Hs & Hd). repeat split; try done. intros x Hx [->|Hx']; [done|]. by apply (Hd x).
  - intros (Ht & Hd & Ha & Hs). repeat split; try done; [intros Hin; apply (Hd a Hin); by left|]. intros x Hx Hx'. apply (Hd x Hx). by right.
  - intros (Ha & Ha' & Ht & Hs & Hd). repeat split; try done. intros x Hx [->|Hx']; [done|]. by apply (Hd x).
Qed.

Lemma rotation_order ctx cp side cc a C b P s :
  inorder (plug ctx (node cc side a C (node cp side b P s))) = inorder (plug ctx (node cp side (node cc side a C b) P s)).
Proof. apply inorder_plug. destruct side; cbn; by rewrite <-app_assoc. Qed.

(** The nodes after a rotation. *)
Definition rotated ctx cp side cc a C b P s (m : gmap Z rbnode) : gmap Z rbnode :=
  <[P := cell cp side (root_addr b) (root_addr s)]> (<[C := cell cc side (root_addr a) P]>
    (<[C := cell cc side (root_addr a) (root_addr b)]> (retarget ctx C m))).

Lemma rep_rotated ctx cp side cc a C b P s m :
  rep m (plug ctx (node cp side (node cc side a C b) P s)) -> NoDup (inorder (plug ctx (node cp side (node cc side a C b) P s))) ->
  rep (rotated ctx cp side cc a C b P s m) (plug ctx (node cc side a C (node cp side b P s))).
Proof.
  intros Hr Hn. apply rep_plug in Hr as [Hc Hr]. apply nodup_plug in Hn as Hap. pose proof (ap_in _ _ Hap) as Hi. pose proof (ap_disj _ _ Hap) as Hd.
  rewrite root_addr_node in Hc. apply rep_node in Hr as (EP & HP & Hr & Hs). apply rep_node in Hr as (EC & HC & Ha & Hb).
  apply nodup_node in Hi as (HPt & HPs & Hnt & Hns & Hts). apply nodup_node in Hnt as (HCa & HCb & _ & _ & Hab).
  setoid_rewrite in_node in HPt. setoid_rewrite in_node in Hts. setoid_rewrite in_node in Hd. setoid_rewrite in_node in Hd.
  assert (HCP : C <> P) by naive_solver.
  assert (Hkeep : forall x, x <> C -> x <> P -> x ∉ cnodes ctx -> rotated ctx cp side cc a C b P s m !! x = m !! x).
  { intros x H1 H2 H3. unfold rotated. rewrite !lookup_insert_ne by done. by apply retarget_other. }
  assert (Hsub : forall t, (forall x, x ∈ inorder t -> x <> C /\ x <> P /\ x ∉ cnodes ctx) -> rep m t -> rep (rotated ctx cp side cc a C b P s m) t).
  { intros t Ht. apply rep_frame. intros x Hx. destruct (Ht x Hx) as (? & ? & ?). by apply Hkeep. }
  apply rep_plug. rewrite root_addr_node, !rep_node, root_addr_node. unfold rotated at 2 4. rewrite lookup_insert_ne, lookup_insert_eq, lookup_insert_eq by done.
  assert (repc (retarget ctx C m) ctx C) as Hc' by (by eapply repc_retarget).
  split; [|repeat split; try done; try apply HC; try apply HP].
  - unfold rotated. apply repc_insert; [naive_solver|]. apply repc_insert; [naive_solver|]. apply repc_insert; [naive_solver|]. done.
  - apply Hsub; [|done]. intros x Hx. repeat split; [by intros ->|intros ->; naive_solver|naive_solver].
  - apply Hsub; [|done]. intros x Hx. repeat split; [by intros ->|intros ->; naive_solver|naive_solver].
  - apply Hsub; [|done]. intros x Hx. repeat split; [intros ->; naive_solver|by intros ->|naive_solver].
Qed.

Lemma wp_rotate st sz f ctx cc a C b (Q : unit -> rbtree -> Prop) :
  Zip st sz (f :: ctx) (node cc (f_side f) a C b) ->
  (forall st', same_tree st st' ->
     Zip st' sz (mk_frame (negb (f_side f)) cc C a :: ctx) (node (f_color f) (f_side f) b (f_addr f) (f_sib f)) -> Q tt st') ->
  wp (rotate sz) Q st.
Proof.
  intros Hz HQ. pose proof (stack_room _ _ _ _ Hz) as Hroom. destruct (zip_parts _ _ _ _ Hz) as (Hc & Hr & Hap).
  pose proof (z_sz _ _ _ _ Hz) as Hsz. cbn [length] in *. unfold rotate. rewrite root_addr_node in Hc.
  apply wp_bind, wp_assert; [apply Z.leb_le; lia|]. apply wp_bind. eapply zip_parent; [done|]. apply wp_bind. eapply zip_top; [done|].
  apply wp_bind. eapply zip_side; [done|]. rewrite root_addr_node. destruct f as [side cp P s]. cbn [f_side f_color f_addr f_sib] in *.
  pose proof Hr as Hr'. apply rep_node in Hr' as (EC & HC & Ha & Hb). destruct Hc as (EP & HP & Hs & Hc). cbn [f_side f_color f_addr f_sib] in *.
  pose proof (rep_ptr _ _ Ha) as Hpa. pose proof (rep_ptr _ _ Hb) as Hpb. pose proof (rep_ptr _ _ Hs) as Hps.
  apply wp_bind. eapply wp_get_cell; [done|apply HC|done|done|]. apply wp_bind. eapply wp_get_cell_other; [done|apply HC|done|done|].
  pose proof (z_rep _ _ _ _ Hz) as Hzr. pose proof (z_nodup _ _ _ _ Hz) as Hzn. cbn [plug f_side f_color f_addr f_sib] in Hzr, Hzn.
  apply nodup_plug in Hzn as Hap2. pose proof (ap_disj _ _ Hap2) as Hd. setoid_rewrite in_node in Hd. setoid_rewrite in_node in Hd.
  pose proof (ap_in _ _ Hap2) as Hi. apply nodup_node in Hi as (HPt & _). rewrite in_node in HPt.
  assert (HCP : C <> P) by naive_solver. pose proof (z_stack _ _ _ _ Hz) as Hst. cbn [path f_addr] in Hst.
  apply wp_bind. eapply wp_retarget; [exact Hc|done|by apply on_stack_prefix in Hst|lia|exact Hap2|apply in_node; by left|].
  apply wp_bind. eapply wp_set_cell; [cbn; rewrite retarget_other by naive_solver; done|apply HC|done|done|]. cbn [rb_nodes with_rb_nodes].
  apply wp_bind. eapply wp_set_cell_other; [cbn; apply lookup_insert_eq|apply HC|done|done|]. cbn [rb_nodes with_rb_nodes].
  apply wp_bind. eapply wp_set_cell.
  { cbn. rewrite !lookup_insert_ne by done. rewrite retarget_other by naive_solver. done. } { apply HP. } { apply HC. } { done. }
  apply wp_bind, wp_stack_set; [cbn; lia|]. apply wp_stack_set; [cbn; rewrite length_insert; lia|].
  apply HQ; [by split; cbn; rewrite ?length_insert|].
  replace (Z.to_nat (sz - 2)) with (length ctx) by lia. replace (Z.to_nat (sz - 1)) with (S (length ctx)) by lia. split.
  - cbn. rewrite node_flip. by apply (rep_rotated ctx cp side cc a C b P s).
  - cbn [plug f_side f_color f_addr f_sib]. rewrite node_flip. by rewrite rotation_order.
  - apply node_not_leaf.
  - done.
  - cbn [path f_addr]. rewrite root_addr_node. set (st1 := with_rb_nodes _ _).
    assert (Hs1 : on_stack (set_entry (length ctx) C st1) (path ctx C)).
    { destruct ctx as [|g ctx]; cbn [path]; [intros i x Ex; apply list_lookup_singleton_Some in Ex as [-> ->]; apply list_lookup_insert_eq; cbn; lia|].
      apply on_stack_prefix in Hst. cbn [path] in Hst. apply on_stack_prefix in Hst. cbn [length] in *.
      replace (S (length ctx)) with (length (path ctx (f_addr g))) by apply length_path. apply on_stack_push; [exact Hst|rewrite length_path; cbn; lia]. }
    replace (S (length ctx)) with (length (path ctx C)) by apply length_path. apply on_stack_push; [exact Hs1|]. rewrite length_path. cbn. rewrite length_insert. lia.
Qed.

End Rotation.

(** ** Recolouring *)

Section Painting.
Context `{Config}.
Implicit Types (st : rbtree).

Lemma path_addrs ctx ctx' p : f_addr <$> ctx = f_addr <$> ctx' -> path ctx p = path ctx' p.
Proof.
  revert ctx' p. induction ctx as [|f ctx IH]; intros [|g ctx'] p E; try done. injection E as E1 E2. cbn. rewrite E1. f_equal. by apply IH.
Qed.

(** The memory changed, the path did not. *)
Lemma zip_rebuild st sz ctx t ctx' t' m' :
  Zip st sz ctx t -> rep m' (plug ctx' t') -> inorder (plug ctx' t') = inorder (plug ctx t) -> t' <> Leaf ->
  root_addr t' = root_addr t -> f_addr <$> ctx' = f_addr <$> ctx -> Zip (with_rb_nodes m' st) sz ctx' t'.
Proof.
  intros [Hr Hn Hl -> Hs] Hr' Ho Hl' Ea Ef. split; [done|by rewrite Ho|done| |].
  - by rewrite <-(length_fmap f_addr ctx), <-Ef, length_fmap.
  - rewrite Ea. rewrite (path_addrs _ _ _ Ef). exact Hs.
Qed.

Lemma wp_paint st ctx t c (Q : unit -> rbtree -> Prop) :
  rep (rb_nodes st) (plug ctx t) -> NoDup (inorder (plug ctx t)) -> t <> Leaf ->
  (forall m', rep m' (plug ctx (paint c t)) -> Q tt (with_rb_nodes m' st)) -> wp (set_color (root_addr t) c) Q st.
Proof.
  intros Hr Hn Hl HQ. apply rep_plug in Hr as [Hc Hr]. apply nodup_plug in Hn as [Hi _ Hd]. destruct t as [|c0 l a r]; [done|].
  cbn in Hr. destruct Hr as (E & Ha & Hrl & Hrr). cbn. eapply wp_set_color; [done|apply Ha|by apply rep_ptr in Hrl|]. apply HQ. apply rep_plug.
  apply (nodup_node c0 false) in Hi as (H1 & H2 & _). cbn. split; [|split; [apply lookup_insert_eq|split; [done|split; by apply rep_insert]]].
  apply repc_insert; [|done]. apply Hd. cbn. apply elem_of_app. right. apply elem_of_cons. by left.
Qed.

Lemma inorder_paint_plug ctx c t : inorder (plug ctx (paint c t)) = inorder (plug ctx t).
Proof. apply inorder_plug, inorder_paint. Qed.

Lemma paint_not_leaf c t : t <> Leaf -> paint c t <> Leaf.
Proof. by destruct t. Qed.

Context (st : rbtree) (sz : Z).

Lemma zip_paint_top ctx t c (Q : unit -> rbtree -> Prop) :
  Zip st sz ctx t -> (forall m', Zip (with_rb_nodes m' st) sz ctx (paint c t) -> Q tt (with_rb_nodes m' st)) -> wp (set_color (root_addr t) c) Q st.
Proof.
  intros Hz HQ. eapply (wp_paint st ctx); [apply Hz..|]. intros m' Hm. apply HQ.
  eapply zip_rebuild; [done|done|apply inorder_paint_plug|by apply paint_not_leaf, Hz|apply root_addr_paint|done].
Qed.

Lemma zip_paint_parent f ctx t c (Q : unit -> rbtree -> Prop) :
  Zip st sz (f :: ctx) t ->
  (forall m', Zip (with_rb_nodes m' st) sz (mk_frame (f_side f) c (f_addr f) (f_sib f) :: ctx) t -> Q tt (with_rb_nodes m' st)) ->
  wp (set_color (f_addr f) c) Q st.
Proof.
  intros Hz HQ. pose proof (zip_up _ _ _ _ _ Hz) as Hz'.
  rewrite <-(root_addr_node (f_color f) (f_side f) t (f_addr f) (f_sib f)). eapply (wp_paint st ctx); [apply Hz'..|].
  intros m' Hm. apply HQ. eapply zip_rebuild; [done| | |apply Hz|done|done]; cbn [plug f_side f_addr f_sib f_color]; rewrite <-(paint_node c (f_color f)); [done|].
  apply inorder_paint_plug.
Qed.

Lemma plug_sib f ctx t : plug (f :: ctx) t = plug (mk_frame (negb (f_side f)) (f_color f) (f_addr f) t :: ctx) (f_sib f).
Proof. cbn. by rewrite node_flip. Qed.

Lemma zip_paint_sib f ctx t c (Q : unit -> rbtree -> Prop) :
  Zip st sz (f :: ctx) t -> f_sib f <> Leaf ->
  (forall m', Zip (with_rb_nodes m' st) sz (mk_frame (f_side f) (f_color f) (f_addr f) (paint c (f_sib f)) :: ctx) t -> Q tt (with_rb_nodes m' st)) ->
  wp (set_color (root_addr (f_sib f)) c) Q st.
Proof.
  intros Hz Hl HQ. pose proof (z_rep _ _ _ _ Hz) as Hr. pose proof (z_nodup _ _ _ _ Hz) as Hn. rewrite plug_sib in Hr, Hn.
  eapply wp_paint; [done|done|done|]. intros m' Hm. apply HQ. eapply zip_rebuild; [done| | |apply Hz|done|done]; rewrite plug_sib; cbn [f_side f_addr f_sib f_color]; [done|].
  rewrite inorder_paint_plug. by rewrite <-plug_sib.
Qed.

Lemma zip_paint_grandparent f g ctx t c (Q : unit -> rbtree -> Prop) :
  Zip st sz (f :: g :: ctx) t ->
  (forall m', Zip (with_rb_nodes m' st) sz (f :: mk_frame (f_side g) c (f_addr g) (f_sib g) :: ctx) t -> Q tt (with_rb_nodes m' st)) ->
  wp (set_color (f_addr g) c) Q st.
Proof.
  intros Hz HQ. pose proof (zip_up _ _ _ _ _ (zip_up _ _ _ _ _ Hz)) as Hz'. set (p := node (f_color f) (f_side f) t (f_addr f) (f_sib f)) in *.
  rewrite <-(root_addr_node (f_color g) (f_side g) p (f_addr g) (f_sib g)). eapply (wp_paint st ctx); [apply Hz'..|].
  intros m' Hm. apply HQ. eapply zip_rebuild; [done| | |apply Hz|done|done]; cbn [plug f_side f_addr f_sib f_color]; fold p; rewrite <-(paint_node c (f_color g)); [done|].
  apply inorder_paint_plug.
Qed.

Lemma zip_paint_aunt f g ctx t c (Q : unit -> rbtree -> Prop) :
  Zip st sz (f :: g :: ctx) t -> f_sib g <> Leaf ->
  (forall m', Zip (with_rb_nodes m' st) sz (f :: mk_frame (f_side g) (f_color g) (f_addr g) (paint c (f_sib g)) :: ctx) t -> Q tt (with_rb_nodes m' st)) ->
  wp (set_color (root_addr (f_sib g)) c) Q st.
Proof.
  intros Hz Hl HQ. pose proof (z_rep _ _ _ _ Hz) as Hr. pose proof (z_nodup _ _ _ _ Hz) as Hn. cbn [plug] in Hr, Hn.
  set (p := node (f_color f) (f_side f) t (f_addr f) (f_sib f)) in *. change (rep (rb_nodes st) (plug (g :: ctx) p)) in Hr. change (NoDup (inorder (plug (g :: ctx) p))) in Hn.
  rewrite plug_sib in Hr, Hn. eapply wp_paint; [done|done|done|]. intros m' Hm. apply HQ.
  assert (E : forall x, plug (f :: mk_frame (f_side g) (f_color g) (f_addr g) x :: ctx) t = plug (mk_frame (negb (f_side g)) (f_color g) (f_addr g) p :: ctx) x).
  { intros x. cbn. by rewrite node_flip. }
  eapply zip_rebuild; [done| | |apply Hz|done|done]; rewrite E; [done|]. rewrite inorder_paint_plug, <-E. by destruct g.
Qed.

End Painting.
