(* ===== verification/RbOps.v ===== *)
(** * The repair loops of [rb.c] implement [fix_red] and [fix_black] *)

From Stdlib Require Import ZArith Lia Bool List.
From stdpp Require Import base tactics numbers list gmap.
From S2P Require Import Prelude RbTree RbFun RbMem.

Local Open Scope Z_scope.

(** After an operation: the memory holds [T] and the array starts at its root. *)
Record Rooted (st st' : rbtree) (T : tree) : Prop := {
  ro_same : same_tree st st';
  ro_rep : rep (rb_nodes st') T;
  ro_stack : on_stack st' [root_addr T];
}.

Section Loops.
Context `{Config}.
Implicit Types (st : rbtree).

Lemma zip_rooted st0 st sz ctx t : same_tree st0 st -> Zip st sz ctx t -> Rooted st0 st (plug ctx t).
Proof.
  intros Hs Hz. split; [done|apply Hz|]. intros i x E. apply list_lookup_singleton_Some in E as [-> <-].
  apply (z_stack _ _ _ _ Hz). apply path_root.
Qed.

Lemma rooted_trans st0 st1 st2 T : same_tree st0 st1 -> Rooted st1 st2 T -> Rooted st0 st2 T.
Proof. intros H1 [? ? ?]. split; [by etrans|done|done]. Qed.

(** The colour of a subtree that may be empty. *)
Lemma wp_child_black t (Q : bool -> rbtree -> Prop) st :
  rep (rb_nodes st) t -> Q (black (root_color t)) st -> wp (child_black (root_addr t)) Q st.
Proof.
  intros Hr HQ. unfold child_black. rewrite (rep_null _ _ Hr). destruct t as [|c l a r]; [by apply wp_ret|].
  destruct Hr as (E & Ha & Hl & _). eapply wp_is_black; [done|apply Ha|by apply rep_ptr in Hl|done].
Qed.

Lemma wp_child_red t (Q : bool -> rbtree -> Prop) st :
  rep (rb_nodes st) t -> Q (negb (black (root_color t))) st -> wp (child_red (root_addr t)) Q st.
Proof.
  intros Hr HQ. unfold child_red. rewrite (rep_null _ _ Hr). destruct t as [|c l a r]; [by apply wp_ret|].
  destruct Hr as (E & Ha & Hl & _). eapply wp_is_red; [done|apply Ha|by apply rep_ptr in Hl|done].
Qed.

Lemma wp_get_sub t (side : bool) (Q : Z -> rbtree -> Prop) st :
  rep (rb_nodes st) t -> t <> Leaf -> Q (root_addr (sub side t)) st -> wp (get_child (root_addr t) side) Q st.
Proof.
  intros Hr Hl HQ. destruct t as [|c l a r]; [done|]. destruct Hr as (E & Ha & Hrl & Hrr).
  eapply wp_get_child; [done|apply Ha|by apply rep_ptr in Hrl|]. by destruct side.
Qed.

Lemma wp_root_black t (Q : bool -> rbtree -> Prop) st :
  rep (rb_nodes st) t -> t <> Leaf -> Q (black (root_color t)) st -> wp (is_black (root_addr t)) Q st.
Proof.
  intros Hr Hl HQ. destruct t as [|c l a r]; [done|]. destruct Hr as (E & Ha & Hrl & _).
  eapply wp_is_black; [done|apply Ha|by apply rep_ptr in Hrl|done].
Qed.

Lemma wp_root_red t (Q : bool -> rbtree -> Prop) st :
  rep (rb_nodes st) t -> t <> Leaf -> Q (negb (black (root_color t))) st -> wp (is_red (root_addr t)) Q st.
Proof.
  intros Hr Hl HQ. destruct t as [|c l a r]; [done|]. destruct Hr as (E & Ha & Hrl & _).
  eapply wp_is_red; [done|apply Ha|by apply rep_ptr in Hrl|done].
Qed.

Lemma wp_root_color t (Q : rb_color -> rbtree -> Prop) st :
  rep (rb_nodes st) t -> t <> Leaf -> Q (root_color t) st -> wp (get_color (root_addr t)) Q st.
Proof.
  intros Hr Hl HQ. destruct t as [|c l a r]; [done|]. destruct Hr as (E & Ha & Hrl & _).
  eapply wp_get_color; [done|apply Ha|by apply rep_ptr in Hrl|done].
Qed.

(** The same for a node given by its parts. *)
Lemma wp_node_sub c side x a y (s : bool) (Q : Z -> rbtree -> Prop) st :
  rep (rb_nodes st) (node c side x a y) -> Q (root_addr (sub s (node c side x a y))) st -> wp (get_child a s) Q st.
Proof. intros Hr HQ. rewrite <-(root_addr_node c side x a y). apply wp_get_sub; [done|apply node_not_leaf|done]. Qed.

Lemma wp_node_black c side x a y (Q : bool -> rbtree -> Prop) st :
  rep (rb_nodes st) (node c side x a y) -> Q (black c) st -> wp (is_black a) Q st.
Proof. intros Hr HQ. rewrite <-(root_addr_node c side x a y). apply wp_root_black; [done|apply node_not_leaf|by rewrite root_color_node]. Qed.

Lemma wp_node_color c side x a y (Q : rb_color -> rbtree -> Prop) st :
  rep (rb_nodes st) (node c side x a y) -> Q c st -> wp (get_color a) Q st.
Proof. intros Hr HQ. rewrite <-(root_addr_node c side x a y). apply wp_root_color; [done|apply node_not_leaf|by rewrite root_color_node]. Qed.

Lemma wp_paint_node ctx c' c side x a y (Q : unit -> rbtree -> Prop) st :
  rep (rb_nodes st) (plug ctx (node c side x a y)) -> NoDup (inorder (plug ctx (node c side x a y))) ->
  (forall m', rep m' (plug ctx (node c' side x a y)) -> Q tt (with_rb_nodes m' st)) -> wp (set_color a c') Q st.
Proof.
  intros Hr Hn HQ. rewrite <-(root_addr_node c side x a y). eapply wp_paint; [done|done|apply node_not_leaf|]. intros m' Hm. rewrite paint_node in Hm. by apply HQ.
Qed.

Lemma zip_paint_node st sz ctx c' c side x a y (Q : unit -> rbtree -> Prop) :
  Zip st sz ctx (node c side x a y) ->
  (forall m', Zip (with_rb_nodes m' st) sz ctx (node c' side x a y) -> Q tt (with_rb_nodes m' st)) -> wp (set_color a c') Q st.
Proof.
  intros Hz HQ. rewrite <-(root_addr_node c side x a y). eapply zip_paint_top; [done|]. intros m' Hm. rewrite paint_node in Hm. by apply HQ.
Qed.

Lemma rep_sub m side t : rep m t -> rep m (sub side t).
Proof. destruct t; [done|]. intros (_ & _ & ? & ?). by destruct side. Qed.

(** The node above the hole and its other child, seen as trees. *)
Lemma zip_parent_tree st sz f ctx t : Zip st sz (f :: ctx) t -> rep (rb_nodes st) (node (f_color f) (f_side f) t (f_addr f) (f_sib f)).
Proof. intros Hz. apply zip_up in Hz. by apply zip_parts in Hz as (_ & ? & _). Qed.

Lemma zip_parent_black st sz f ctx t (Q : bool -> rbtree -> Prop) :
  Zip st sz (f :: ctx) t -> Q (black (f_color f)) st -> wp (is_black (f_addr f)) Q st.
Proof.
  intros Hz HQ. apply zip_parent_tree in Hz. rewrite <-(root_addr_node (f_color f) (f_side f) t (f_addr f) (f_sib f)).
  apply wp_root_black; [done|apply node_not_leaf|]. by rewrite root_color_node.
Qed.

Lemma zip_sib st sz f ctx t (Q : Z -> rbtree -> Prop) :
  Zip st sz (f :: ctx) t -> Q (root_addr (f_sib f)) st -> wp (get_child (f_addr f) (negb (f_side f))) Q st.
Proof.
  intros Hz HQ. apply zip_parent_tree in Hz. rewrite <-(root_addr_node (f_color f) (f_side f) t (f_addr f) (f_sib f)).
  apply wp_get_sub; [done|apply node_not_leaf|]. by rewrite sub_node_other.
Qed.

Lemma zip_sib_rep st sz f ctx t : Zip st sz (f :: ctx) t -> rep (rb_nodes st) (f_sib f).
Proof. intros Hz. apply zip_parent_tree in Hz. by apply rep_node in Hz as (_ & _ & _ & ?). Qed.

(** The loop's assertion on the children of a red node. *)
Lemma wp_assert_child t side n (Q : unit -> rbtree -> Prop) st :
  rep (rb_nodes st) t -> rb n RED t -> Q tt st ->
  wp (assert_m (c ← get_child (root_addr t) side; if c =? 0 then mret true else c ← get_child (root_addr t) side; is_black c)) Q st.
Proof.
  intros Hr Ht HQ. assert (Hl : t <> Leaf) by (by intros ->; inversion Ht). apply wp_assert_m; [|done]. intros _. apply wp_bind.
  apply wp_get_sub; [done|done|]. pose proof (rep_sub _ side _ Hr) as Hrs. rewrite (rep_null _ _ Hrs).
  assert (root_color (sub side t) = BLACK) as Hb by (inversion Ht; subst; destruct side; by eapply rb_root_color).
  destruct (sub side t) as [|c l a r] eqn:E; [by apply wp_ret|]. apply wp_bind. apply wp_get_sub; [done|done|]. rewrite E.
  apply wp_root_black; [done|done|]. by rewrite Hb.
Qed.

Lemma wp_fix_extra_red N ctx : forall fuel st sz n k t,
  Zip st sz ctx t -> rbc N ctx n k -> rb n RED t -> (Z.to_nat sz <= fuel)%nat ->
  wp (fix_extra_red fuel sz) (fun _ st' => Rooted st st' (fix_red ctx t)) st.
Proof.
  induction ctx as [|f|f g ctx IH] using ctx_ind2; intros fuel st sz n k t Hz Hc Ht Hf; pose proof (z_sz _ _ _ _ Hz) as Hsz; cbn in Hsz;
    (destruct fuel as [|fuel]; [lia|]); cbn [fix_extra_red].
  - rewrite (proj2 (Z.ltb_ge _ _)) by lia. apply wp_bind. eapply zip_bottom; [done|]. eapply zip_paint_top; [done|].
    intros m' Hz'. by apply (zip_rooted _ _ _ _ _ (same_nodes _ _) Hz').
  - rewrite (proj2 (Z.ltb_lt _ _)) by lia. destruct (zip_parts _ _ _ _ Hz) as (_ & Hr & _).
    apply wp_bind. eapply zip_top; [done|]. apply wp_bind. eapply zip_parent; [done|].
    apply wp_bind. eapply wp_assert_child; [done|done|]. apply wp_bind. eapply wp_assert_child; [done|done|].
    apply wp_bind. eapply zip_parent_black; [done|]. inversion Hc as [|? ? ? ? ? ? ? Hc' Hs|? ? ? ? ? Hc' Hs]; subst; [|inversion Hc'].
    cbn [black f_color]. apply wp_skip. by apply (zip_rooted _ _ _ _ _ (reflexivity _) Hz).
  - rewrite (proj2 (Z.ltb_lt _ _)) by lia. destruct (zip_parts _ _ _ _ Hz) as (_ & Hr & _).
    apply wp_bind. eapply zip_top; [done|]. apply wp_bind. eapply zip_parent; [done|].
    apply wp_bind. eapply wp_assert_child; [done|done|]. apply wp_bind. eapply wp_assert_child; [done|done|].
    apply wp_bind. eapply zip_parent_black; [done|]. inversion Hc as [|sf P s ? ? k' cs Hc' Hs|sf P s ? ? Hc' Hs]; subst; cbn [black f_color].
    { apply wp_skip. rewrite fix_red_black by done. by apply (zip_rooted _ _ _ _ _ (reflexivity _) Hz). }
    inversion Hc' as [|sg G u ? ? k' cu Hc2 Hu|]; subst. pose proof (rb_root_color _ _ _ Hu) as Eu.
    apply wp_bind, wp_assert; [apply Z.leb_le; lia|]. apply wp_bind. eapply zip_grandparent; [done|]. apply wp_bind.
    pose proof (zip_up _ _ _ _ _ Hz) as Hzp. cbn [f_color f_side f_addr f_sib] in *.
    pose proof (zip_side _ _ _ _ _ (fun b s => b = sg /\ s = st) Hzp (conj eq_refl eq_refl)) as Hside. rewrite root_addr_node in Hside. cbn in Hside.
    eapply wp_mono; [exact Hside|]. intros ? ? [-> ->]. apply wp_bind. eapply (zip_sib _ _ (mk_frame sg BLACK G u)); [done|]. cbn [f_sib].
    apply wp_bind. eapply wp_child_red; [by apply (zip_sib_rep _ _ _ _ _ Hzp)|]. rewrite Eu. destruct cu; cbn [negb black].
    + rewrite fix_red_recolor by done. assert (Hul : u <> Leaf) by (by intros ->; inversion Hu).
      apply wp_bind. eapply (zip_paint_grandparent st _ _ (mk_frame sg BLACK G u)); [done|]. intros m1 Hz1.
      apply wp_bind. eapply (zip_paint_parent _ _ (mk_frame sf RED P s)); [done|]. intros m2 Hz2. cbn [f_side f_addr f_sib f_color] in *.
      apply wp_bind. eapply (zip_paint_aunt _ _ _ (mk_frame sg RED G u)); [done|done|]. intros m3 Hz3. cbn [f_side f_addr f_sib f_color] in *.
      apply zip_up in Hz3. apply zip_up in Hz3. cbn [f_side f_addr f_sib f_color] in Hz3.
      eapply wp_mono; [eapply IH; [replace (Z.of_nat _ - 2) with (Z.of_nat (S (S (S (length ctx)))) - 1 - 1) by lia; exact Hz3|done| |lia]|].
      * apply rb_node_red; [by eapply rb_node_black|]. by apply rb_paint_black.
      * intros [] st' HR. refine (rooted_trans _ _ _ _ _ HR). by split.
    + destruct (node_view sg t) as (c & x & a & y & Et); [by intros ->; inversion Ht|].
      assert (c = RED) as -> by (rewrite Et in Ht; by apply rb_node_inv in Ht as [<- _]).
      rewrite (fix_red_case _ _ _ _ sg x a y) by done. cbn [f_side f_addr f_sib f_color] in *.
      apply wp_bind. eapply (zip_side _ _ (mk_frame sf RED P s)); [done|]. cbn [f_side]. apply wp_bind.
      set (Hfin := fun st' => exists C a' b', same_tree st st' /\ Zip st' (Z.of_nat (S (S (S (length ctx)))) - 1) (mk_frame sg BLACK G u :: ctx) (node RED sg a' C b') /\
         (if Bool.eqb sf sg then plug ctx (node BLACK sg t P (node RED sg s G u)) else plug ctx (node BLACK sg (node RED sg s P x) a (node RED sg y G u)))
         = plug ctx (node BLACK sg a' C (node RED sg b' G u))).
      assert (Hmid : wp (if negb (Bool.eqb sf sg) then rotate (Z.of_nat (S (S (S (length ctx)))));; stack_get (Z.of_nat (S (S (S (length ctx)))) - 1);; skip else skip) (fun _ => Hfin) st).
      { destruct (Bool.eqb sf sg) eqn:Esd; cbn [negb].
        - apply eqb_prop in Esd as ->. apply wp_skip. exists P, t, s. done.
        - apply eqb_false_iff in Esd. assert (sf = negb sg) as -> by (by destruct sf, sg). subst t. rewrite <-node_flip in Hz.
          apply wp_bind. eapply (wp_rotate _ _ (mk_frame (negb sg) RED P s)); [done|]. intros st1 Hs1 Hz1. cbn [f_side f_addr f_sib f_color] in *.
          apply wp_bind. eapply zip_top; [done|]. apply wp_skip. rewrite negb_involutive in Hz1. exists a, (node RED (negb sg) x P s), y.
          split; [done|]. split; [apply zip_up in Hz1; exact Hz1|]. by rewrite node_flip. }
      eapply wp_mono; [exact Hmid|]. intros [] st1 (C & a' & b' & Hs1 & Hz1 & ->).
      apply wp_bind. eapply (wp_rotate _ _ (mk_frame sg BLACK G u)); [exact Hz1|]. intros st2 Hs2 Hz2. cbn [f_side f_addr f_sib f_color] in *.
      apply wp_bind. replace (Z.of_nat (S (S (S (length ctx)))) - 3) with (Z.of_nat (S (S (S (length ctx)))) - 1 - 2) by lia.
      eapply zip_parent; [exact Hz2|]. apply wp_bind. eapply zip_paint_parent; [exact Hz2|]. intros m3 Hz3.
      apply wp_bind. replace (Z.of_nat (S (S (S (length ctx)))) - 2) with (Z.of_nat (S (S (S (length ctx)))) - 1 - 1) by lia.
      eapply zip_top; [exact Hz3|]. eapply zip_paint_top; [exact Hz3|]. intros m4 Hz4. rewrite paint_node in Hz4.
      assert (Hs4 : same_tree st (with_rb_nodes m4 (with_rb_nodes m3 st2))) by (by transitivity st1; [|transitivity st2]).
      pose proof (zip_rooted _ _ _ _ _ Hs4 Hz4) as HR. cbn [plug f_side f_addr f_sib f_color] in HR. by rewrite node_flip in HR.
Qed.

(** ** Removal *)

(** Cutting off what stands in the hole. *)
Lemma wp_detach st f ctx t (Q : unit -> rbtree -> Prop) :
  rep (rb_nodes st) (plug (f :: ctx) t) -> NoDup (inorder (plug (f :: ctx) t)) ->
  (forall m', rep m' (plug (f :: ctx) Leaf) -> Q tt (with_rb_nodes m' st)) -> wp (set_child (f_addr f) (f_side f) 0) Q st.
Proof.
  intros Hr Hn HQ. apply rep_plug in Hr as [Hc Hr]. apply nodup_plug in Hn as Hap. pose proof Hc as (E & Ha & Hs & _).
  eapply wp_set_cell; [done|apply Ha|by apply rep_ptr in Hr|by apply rep_ptr in Hs|]. apply HQ, rep_plug. split; [|done].
  exact (repc_retarget _ (f :: ctx) _ 0 _ Hap Hc).
Qed.

(** The node at the hole, in memory [t], counts as [t']: it is either in its place for good,
    or the removed node itself, which goes away as soon as its parent is settled. *)
Definition stands_for (null : Z) (l : list Z) (t t' : tree) : Prop :=
  t' = t /\ null ∉ l \/ t' = Leaf /\ t = Node BLACK Leaf null Leaf.

Lemma wp_drop_null st sz f ctx t t' null (Q : unit -> rbtree -> Prop) :
  rep (rb_nodes st) (plug (f :: ctx) t) -> NoDup (inorder (plug (f :: ctx) t)) ->
  stands_for null (inorder (plug (f :: ctx) t)) t t' -> t <> Leaf -> on_stack st (path ctx (f_addr f)) -> sz = Z.of_nat (S (length ctx)) ->
  (forall m', Zip (with_rb_nodes m' st) sz ctx (node (f_color f) (f_side f) t' (f_addr f) (f_sib f)) ->
     NoDup (inorder (plug (f :: ctx) t')) -> null ∉ inorder (plug (f :: ctx) t') -> Q tt (with_rb_nodes m' st)) ->
  wp (if root_addr t =? null then set_child (f_addr f) (f_side f) 0 else skip) Q st.
Proof.
  intros Hr Hn [[-> Hnull]|[-> ->]] Hl Hs -> HQ.
  - rewrite (proj2 (Z.eqb_neq _ _)). 2: { intros <-. apply Hnull. rewrite inorder_plug_split, !elem_of_app. right. left. by apply root_in. }
    apply wp_skip. replace st with (with_rb_nodes (rb_nodes st) st) by (by destruct st). apply HQ; [|done|done].
    split; [done|done|apply node_not_leaf|done|by rewrite root_addr_node].
  - cbn [root_addr]. rewrite Z.eqb_refl. eapply wp_detach; [done|done|]. intros m' Hm.
    assert (Hsub : inorder (plug (f :: ctx) (Node BLACK Leaf null Leaf)) ≡ₚ null :: inorder (plug (f :: ctx) Leaf)).
    { rewrite !inorder_plug_split. cbn. solve_Permutation. }
    rewrite Hsub, NoDup_cons in Hn. destruct Hn as [Hni Hn].
    apply HQ; [|done|done]. split; [done|done|apply node_not_leaf|done|by rewrite root_addr_node].
Qed.

Lemma wp_lift_sibling st sz f ctx t t' null i S o (Q : unit -> rbtree -> Prop) :
  Zip st sz (f :: ctx) t -> f_sib f = node BLACK (f_side f) i S o -> root_color o = RED ->
  stands_for null (inorder (plug (f :: ctx) t)) t t' ->
  (forall st', Rooted st st' (plug ctx (node (f_color f) (f_side f) (node BLACK (f_side f) t' (f_addr f) i) S (paint BLACK o))) -> Q tt st') ->
  wp (lift_sibling (root_addr t) (f_addr f) S (root_addr o) (f_side f) sz null) Q st.
Proof.
  intros Hz Esib Ho Hnull HQ. destruct f as [side cp P sib]. cbn [f_side f_color f_addr f_sib] in *. subst sib.
  assert (Hol : o <> Leaf) by (by intros ->). pose proof (zip_sib_rep _ _ _ _ _ Hz) as Hrs. cbn [f_sib] in Hrs. apply rep_node in Hrs as (_ & HS & Hri & Hro).
  pose proof (stack_room _ _ _ _ Hz) as Hroom. pose proof (z_sz _ _ _ _ Hz) as Hsz. cbn [length] in *. unfold lift_sibling.
  apply wp_bind, wp_assert_m; [intros _; apply wp_root_red; [done|done|by rewrite Ho]|].
  apply wp_bind. pose proof (zip_parent_tree _ _ _ _ _ Hz) as Hpt. cbn [f_side f_color f_addr f_sib] in Hpt.
  eapply wp_node_color; [done|].
  apply wp_bind. pose proof (zip_paint_sib st sz (mk_frame side cp P (node BLACK side i S o)) ctx t cp) as Hp. cbn [f_side f_color f_addr f_sib] in Hp. rewrite root_addr_node in Hp.
  eapply Hp; [done|apply node_not_leaf|]. intros m1 Hz1. rewrite paint_node in Hz1.
  apply wp_bind. eapply (zip_paint_parent _ _ (mk_frame side cp P (node cp side i S o))); [done|]. intros m2 Hz2. cbn [f_side f_color f_addr f_sib] in Hz2.
  assert (Eo : forall x, plug (mk_frame side BLACK P (node cp side i S x) :: ctx) t = plug (mk_frame (negb side) cp S i :: mk_frame (negb side) BLACK P t :: ctx) x).
  { intros x. cbn. by rewrite !node_flip. }
  apply wp_bind. eapply (wp_paint _ (mk_frame (negb side) cp S i :: mk_frame (negb side) BLACK P t :: ctx)); [rewrite <-Eo; apply Hz2|rewrite <-Eo; apply Hz2|done|].
  intros m3 Hm3. rewrite <-Eo in Hm3. set (o' := paint BLACK o) in *. set (st3 := with_rb_nodes m3 _) in *.
  assert (Hz3 : Zip st3 sz (mk_frame side BLACK P (node cp side i S o') :: ctx) t).
  { eapply zip_rebuild; [done|done| |apply Hz2|done|done]. rewrite !Eo. apply inorder_paint_plug. }
  assert (Hnull3 : stands_for null (inorder (plug (mk_frame side BLACK P (node cp side i S o') :: ctx) t)) t t').
  { destruct Hnull as [[-> Hni]|[-> ->]]; [|by right]. left. split; [done|]. intros Hin. apply Hni. revert Hin. subst o'.
    rewrite !inorder_plug_split. cbn. by destruct side; cbn; rewrite inorder_paint. }
  apply wp_bind, wp_stack_set; [cbn; lia|]. replace (Z.to_nat (sz - 1)) with (Datatypes.S (length ctx)) by lia.
  pose proof (zip_across _ _ _ _ _ (Datatypes.S (length ctx)) Hz3 (node_not_leaf _ _ _ _ _) Hroom eq_refl) as Hz4. cbn [f_side f_color f_addr f_sib] in Hz4.
  rewrite root_addr_node in Hz4. rewrite <-node_flip in Hz4. apply wp_bind. eapply (wp_rotate _ _ (mk_frame (negb side) BLACK P t)); [exact Hz4|].
  intros st5 Hs5 Hz5. cbn [f_side f_color f_addr f_sib] in Hz5. rewrite node_flip, negb_involutive in Hz5.
  pose proof (z_rep _ _ _ _ Hz5) as Hr5. pose proof (z_nodup _ _ _ _ Hz5) as Hn5.
  change (plug (?g :: ctx) (node BLACK side t P i)) with (plug (mk_frame side BLACK P i :: g :: ctx) t) in Hr5, Hn5.
  assert (Hs : same_tree st st5). { etrans; [|exact Hs5]. split; [done|done|]. cbn. by rewrite length_insert. }
  eapply (wp_drop_null _ sz (mk_frame side BLACK P i) (mk_frame side cp S o' :: ctx) t t' null); [exact Hr5|exact Hn5| |apply Hz| |done|].
  - destruct Hnull3 as [[-> Hni]|[-> ->]]; [|by right]. left. split; [done|].
    replace (inorder _) with (inorder (plug (mk_frame side BLACK P (node cp side i S o') :: ctx) t)); [done|].
    cbn [plug f_side f_color f_addr f_sib]. apply inorder_plug. destruct side; cbn; rewrite <-?app_assoc; cbn; by rewrite <-?app_assoc.
  - pose proof (z_stack _ _ _ _ Hz5) as Hst. by rewrite root_addr_node in Hst.
  - intros m6 Hz6 _ _. apply HQ. apply (rooted_trans st st5); [done|]. exact (zip_rooted st5 _ _ _ _ (same_nodes st5 m6) Hz6).
Qed.

(** Whether both children of the sibling are black. *)
Lemma wp_both_black side c i a o (Q : bool -> rbtree -> Prop) st :
  rep (rb_nodes st) (node c side i a o) ->
  Q (black (root_color i) && black (root_color o)) st ->
  wp (b0 ← child_black (root_addr (sub false (node c side i a o)));
      if (b0 : bool) then child_black (root_addr (sub true (node c side i a o))) else mret false) Q st.
Proof.
  intros Hr HQ. apply rep_node in Hr as (_ & _ & Hi & Ho). destruct side; cbn [node sub].
  - apply wp_bind, wp_child_black; [done|]. rewrite andb_comm in HQ. destruct (black (root_color o)); [by apply wp_child_black|by apply wp_ret].
  - apply wp_bind, wp_child_black; [done|]. destruct (black (root_color i)); [by apply wp_child_black|by apply wp_ret].
Qed.

Lemma wp_one_red side c i a o (Q : unit -> rbtree -> Prop) st :
  rep (rb_nodes st) (node c side i a o) -> black (root_color i) && black (root_color o) = false -> Q tt st ->
  wp (assert_m (r0 ← child_red (root_addr (sub false (node c side i a o)));
      if (r0 : bool) then mret true else child_red (root_addr (sub true (node c side i a o))))) Q st.
Proof.
  intros Hr Hb HQ. apply wp_assert_m; [|done]. intros _. apply rep_node in Hr as (_ & _ & Hi & Ho). destruct side; cbn [node sub].
  - apply wp_bind, wp_child_red; [done|]. destruct (black (root_color o)); [apply wp_child_red; [done|]; by destruct (black (root_color i))|by apply wp_ret].
  - apply wp_bind, wp_child_red; [done|]. destruct (black (root_color i)); [apply wp_child_red; [done|]; by destruct (black (root_color o))|by apply wp_ret].
Qed.

Lemma wp_settle_sibling st sz f ctx t t' null n cont (Q : unit -> rbtree -> Prop) :
  Zip st sz (f :: ctx) t -> rb (S n) BLACK (f_sib f) -> stands_for null (inorder (plug (f :: ctx) t)) t t' ->
  (length ctx + 1 + height (f_sib f) < length (rb_stack st))%nat ->
  (let '(T, up) := settle (f_side f) (f_color f) (f_addr f) (f_sib f) t' in
   if up then forall st', same_tree st st' -> Zip st' (sz - 1) ctx T -> null ∉ inorder (plug ctx T) -> wp (cont (sz - 1)) Q st'
   else forall st', Rooted st st' (plug ctx T) -> Q tt st') ->
  wp (settle_sibling cont (root_addr t) (f_addr f) (root_addr (f_sib f)) (f_side f) sz null) Q st.
Proof.
  intros Hz Hsib Hnull Hlen HQ. pose proof (zip_sib_rep _ _ _ _ _ Hz) as Hrs. pose proof (z_sz _ _ _ _ Hz) as Hsz.
  destruct f as [side cp P sib]. cbn [f_side f_color f_addr f_sib length] in *.
  destruct (node_view side sib) as (c & i & S & o & E); [by intros ->; inversion Hsib|]. subst sib.
  assert (c = BLACK) as -> by (by apply rb_node_inv in Hsib as [<- _]). unfold settle_sibling. rewrite root_addr_node.
  assert (HS : addr_ok S) by (by apply rep_node in Hrs as (_ & ? & _)). pose proof Hrs as Hrio. apply rep_node in Hrio as (_ & _ & Hri & Hro).
  apply wp_bind, wp_assert; [by apply negb_true_iff, Z.eqb_neq, HS|].
  apply wp_bind. eapply wp_node_sub; [done|]. apply wp_bind. eapply wp_node_sub; [done|].
  apply wp_unbind2. eapply wp_both_black; [done|]. unfold settle in HQ. rewrite sub_node, sub_node_other, root_addr_node in HQ.
  destruct (black (root_color i) && black (root_color o)) eqn:Eb.
  - apply wp_bind. eapply (wp_drop_null st (sz - 1) (mk_frame side cp P (node BLACK side i S o)) ctx t t'); [apply Hz|apply Hz|done|apply Hz| |lia|].
    { pose proof (z_stack _ _ _ _ Hz) as Hst. by apply on_stack_prefix in Hst. }
    cbn [f_side f_color f_addr f_sib]. intros m1 Hz1 Hn1 Hni. apply wp_bind.
    assert (Ep : forall c x, plug ctx (node c side t' P x) = plug (mk_frame (negb side) c P t' :: ctx) x) by (intros; cbn; by rewrite node_flip).
    eapply (wp_paint_node (mk_frame (negb side) cp P t' :: ctx)); [rewrite <-Ep; apply Hz1|rewrite <-Ep; apply Hz1|].
    intros m2 Hm2. rewrite <-Ep in Hm2. rewrite paint_node in HQ.
    assert (Eo : forall c, inorder (plug ctx (node c side t' P (node RED side i S o))) = inorder (plug ctx (node cp side t' P (node BLACK side i S o)))).
    { intros c. apply inorder_plug. by destruct side. }
    assert (Hz2 : Zip (with_rb_nodes m2 (with_rb_nodes m1 st)) (sz - 1) ctx (node cp side t' P (node RED side i S o))).
    { eapply zip_rebuild; [done|done|apply Eo|apply node_not_leaf|by rewrite !root_addr_node|done]. }
    apply wp_bind. destruct (zip_parts _ _ _ _ Hz2) as (_ & Hr2 & _). eapply wp_node_black; [done|]. destruct cp; cbn [black] in *.
    + eapply zip_paint_node; [exact Hz2|]. intros m3 Hz3. apply HQ. eapply zip_rooted; [|exact Hz3]. by split.
    + apply HQ; [by split|done|]. rewrite Eo. exact Hni.
  - apply wp_bind. eapply wp_one_red; [done|done|]. apply wp_bind. eapply wp_node_sub; [done|]. rewrite sub_node_other.
    apply wp_bind, wp_child_red; [done|]. destruct (black (root_color o)) eqn:Eo; cbn [negb] in *.
    + rewrite andb_true_r in Eb. apply wp_bind. eapply wp_node_sub; [done|]. rewrite sub_node.
      destruct (node_view side i) as (ci & x & I & y & Ei); [by intros ->|]. subst i. rewrite root_color_node in Eb. destruct ci; [|done].
      rewrite sub_node, sub_node_other, root_addr_node in HQ. rewrite !height_node in Hlen. rewrite root_addr_node.
      apply wp_bind, wp_stack_set; [lia|]. apply wp_bind, wp_stack_set; [cbn; rewrite length_insert; lia|].
      replace (Z.to_nat (sz - 1)) with (Datatypes.S (length ctx)) by lia. replace (Z.to_nat sz) with (Datatypes.S (Datatypes.S (length ctx))) by lia.
      pose proof (zip_across _ _ _ _ _ (Datatypes.S (length ctx)) Hz (node_not_leaf _ _ _ _ _) ltac:(lia) eq_refl) as Hz1. cbn [f_side f_color f_addr f_sib] in Hz1. rewrite root_addr_node in Hz1.
      apply (zip_down _ _ _ _ _ _ _ _ (Datatypes.S (Datatypes.S (length ctx)))) in Hz1; [|apply node_not_leaf|cbn; rewrite length_insert; lia|done]. rewrite root_addr_node in Hz1.
      apply wp_bind. eapply (wp_rotate _ _ (mk_frame side BLACK S o)); [exact Hz1|]. intros st2 Hs2 Hz2. cbn [f_side f_color f_addr f_sib] in Hz2.
      apply wp_bind. eapply zip_paint_node; [exact Hz2|]. intros m3 Hz3.
      apply wp_bind. eapply (zip_paint_parent _ _ (mk_frame (negb side) RED I x)); [exact Hz3|]. intros m4 Hz4. cbn [f_side f_color f_addr f_sib] in Hz4.
      apply wp_bind. eapply zip_parent; [exact Hz4|]. cbn [f_addr]. pose proof (zip_up _ _ _ _ _ Hz4) as Hz5. cbn [f_side f_color f_addr f_sib] in Hz5. rewrite node_flip in Hz5.
      apply wp_bind. destruct (zip_parts _ _ _ _ Hz5) as (_ & Hr5 & _). eapply wp_node_sub; [done|]. rewrite sub_node_other.
      assert (Hlen2 : length (rb_stack st2) = length (rb_stack st)) by (destruct Hs2 as [_ _ ->]; cbn; by rewrite !length_insert).
      apply wp_bind, wp_stack_set; [cbn; lia|]. replace (Z.to_nat (sz + 1 - 2)) with (Datatypes.S (length ctx)) by lia.
      pose proof (zip_across _ _ _ _ _ (Datatypes.S (length ctx)) Hz5 (z_leaf _ _ _ _ Hz) ltac:(cbn; lia) eq_refl) as Hz6. cbn [f_side f_color f_addr f_sib] in Hz6. rewrite negb_involutive in Hz6.
      replace (sz + 1 - 1) with sz in * by lia. set (st6 := set_entry (Datatypes.S (length ctx)) (root_addr t) (with_rb_nodes m4 (with_rb_nodes m3 st2))) in *.
      eapply (wp_lift_sibling st6 sz (mk_frame side cp P (node BLACK side x I (node RED side y S o))) ctx t t' null x I (node RED side y S o)); [exact Hz6|done|by rewrite root_color_node| |].
      * destruct Hnull as [[-> Hni]|[-> ->]]; [|by right]. left. split; [done|]. replace (inorder _) with (inorder (plug (mk_frame side cp P (node BLACK side (node RED side x I y) S o) :: ctx) t)); [done|].
        cbn [plug f_side f_color f_addr f_sib]. apply inorder_plug. destruct side; cbn; rewrite <-?app_assoc; cbn; by rewrite <-?app_assoc.
      * cbn [f_side f_color f_addr f_sib]. rewrite paint_node. intros st7 HR. apply HQ. eapply rooted_trans; [|exact HR]. subst st6. split; [apply Hs2|apply Hs2|]. cbn. rewrite length_insert. apply Hlen2.
    + eapply (wp_lift_sibling st sz (mk_frame side cp P (node BLACK side i S o))); [exact Hz|done|by destruct (root_color o)|done|]. exact HQ.
Qed.

Lemma stands_height null l t t' : stands_for null l t t' -> (height t' <= height t)%nat.
Proof. intros [[-> _]|[-> ->]]; cbn; lia. Qed.

(** A settled tree that still lacks a black node is not deeper. *)
Lemma settle_up_height side cp P sib t T : settle side cp P sib t = (T, true) -> height T = height (node cp side t P sib).
Proof.
  unfold settle. destruct (_ && _); [|destruct (negb _); by intros [=]]. intros [= <- _]. by rewrite !height_node, height_paint.
Qed.

Lemma wp_fix_missing_black N ctx : forall fuel st sz n k t t' null,
  Zip st sz ctx t -> rbc N ctx (S n) k -> rb n BLACK t' -> root_color t = BLACK -> stands_for null (inorder (plug ctx t)) t t' ->
  (t' = Leaf -> ctx <> []) -> (height (plug ctx t) < length (rb_stack st))%nat -> (Z.to_nat sz <= fuel)%nat ->
  wp (fix_missing_black fuel sz null) (fun _ st' => Rooted st st' (fix_black ctx t')) st.
Proof.
  induction ctx as [|f ctx IH]; intros fuel st sz n k t t' null Hz Hc Ht Hb Hnull Hne Hlen Hf; pose proof (z_sz _ _ _ _ Hz) as Hsz; cbn [length] in *;
    (destruct fuel as [|fuel]; [lia|]); cbn [fix_missing_black].
  { rewrite (proj2 (Z.ltb_ge _ _)) by lia. apply wp_skip. destruct Hnull as [[-> _]|[-> _]]; [|by destruct Hne].
    by apply (zip_rooted _ _ _ [] _ (reflexivity _) Hz). }
  rewrite (proj2 (Z.ltb_lt _ _)) by lia. apply wp_bind. eapply zip_top; [done|]. apply wp_bind. eapply zip_parent; [done|].
  apply wp_bind. eapply zip_side; [done|]. apply wp_bind. eapply zip_sib; [done|].
  destruct (zip_parts _ _ _ _ Hz) as (_ & Hr & _). pose proof (z_leaf _ _ _ _ Hz) as Hl. pose proof (zip_sib_rep _ _ _ _ _ Hz) as Hrs.
  apply wp_bind, wp_assert_m; [intros _; apply wp_root_black; [done|done|by rewrite Hb]|].
  destruct f as [side cp P sib]. cbn [f_side f_color f_addr f_sib] in *.
  assert (Hsib : exists cs, rb (S n) cs sib) by (inversion Hc; subst; eauto). destruct Hsib as [cs Hsib].
  assert (Hsl : sib <> Leaf) by (by intros ->; inversion Hsib). pose proof (rb_root_color _ _ _ Hsib) as Ec.
  apply wp_bind, wp_root_black; [done|done|]. rewrite Ec. cbn [fix_black f_side f_color f_addr f_sib]. rewrite Ec.
  rewrite height_plug in Hlen. cbn [length ctx_height f_sib] in Hlen. pose proof (stack_room _ _ _ _ Hz) as Hroom. cbn [length] in Hroom.
  destruct cs; cbn [black negb].
  - destruct (node_view side sib) as (c & i & S & o & E); [done|]. subst sib. rewrite root_color_node in Ec. subst c.
    apply rb_node_inv in Hsib as (_ & Hi & Ho). rewrite sub_node, sub_node_other, root_addr_node. rewrite !height_node in Hlen.
    assert (Hih : (1 <= height i)%nat) by (inversion Hi; subst; cbn; lia).
    assert (cp = BLACK) as ->. { destruct cp; [|done]. inversion Hc as [| |? ? ? ? ? Hc' Hs']; subst. apply rb_root_color in Hs'. by rewrite root_color_node in Hs'. }
    apply wp_bind, wp_stack_set; [lia|]. replace (Z.to_nat (sz - 1)) with (Datatypes.S (length ctx)) by lia.
    pose proof (zip_across _ _ _ _ _ (Datatypes.S (length ctx)) Hz (node_not_leaf _ _ _ _ _) Hroom eq_refl) as Hz1. cbn [f_side f_color f_addr f_sib] in Hz1.
    rewrite root_addr_node, <-node_flip in Hz1. apply wp_bind. eapply (wp_rotate _ _ (mk_frame (negb side) BLACK P t)); [exact Hz1|].
    intros st2 Hs2 Hz2. cbn [f_side f_color f_addr f_sib] in Hz2. rewrite node_flip, negb_involutive in Hz2.
    apply wp_bind. eapply zip_paint_node; [exact Hz2|]. intros m3 Hz3. apply wp_bind. eapply (zip_paint_parent _ _ (mk_frame side RED S o)); [exact Hz3|].
    intros m4 Hz4. cbn [f_side f_color f_addr f_sib] in Hz4.
    assert (Hlen4 : length (rb_stack st2) = length (rb_stack st)) by (destruct Hs2 as [_ _ ->]; cbn; by rewrite length_insert).
    apply wp_bind, wp_stack_set; [cbn; lia|]. replace (Z.to_nat sz) with (Datatypes.S (Datatypes.S (length ctx))) by lia.
    apply (zip_down _ _ _ _ _ _ _ _ (Datatypes.S (Datatypes.S (length ctx)))) in Hz4; [|done|cbn; lia|done].
    apply wp_bind. eapply zip_parent; [exact Hz4|]. cbn [f_addr]. apply wp_bind. eapply (zip_sib _ _ (mk_frame side RED P i)); [exact Hz4|]. cbn [f_sib].
    eapply (wp_settle_sibling _ _ (mk_frame side RED P i) _ t t' null n); [exact Hz4|done| |cbn; rewrite length_insert; lia|].
    + destruct Hnull as [[-> Hni]|[-> ->]]; [|by right]. left. split; [done|]. replace (inorder _) with (inorder (plug (mk_frame side BLACK P (node RED side i S o) :: ctx) t)); [done|].
      cbn [plug f_side f_color f_addr f_sib]. apply inorder_plug. destruct side; cbn; rewrite <-?app_assoc; cbn; by rewrite <-?app_assoc.
    + cbn [f_side f_color f_addr f_sib]. pose proof (settle_rb n side RED P i t' Hi Ht) as Hsr. destruct (settle side RED P i t') as [T []]; [by destruct Hsr|].
      intros st5 HR. cbn [plug f_side f_color f_addr f_sib] in HR. refine (rooted_trans _ _ _ _ _ HR). split; [apply Hs2|apply Hs2|]. cbn. rewrite length_insert. apply Hlen4.
  - eapply (wp_settle_sibling _ _ (mk_frame side cp P sib) ctx t t' null n); [exact Hz|done|done|cbn; lia|]. cbn [f_side f_color f_addr f_sib].
    pose proof (settle_rb n side cp P sib t' Hsib Ht) as Hsr. destruct (settle side cp P sib t') as [T []] eqn:Est; [|done].
    destruct Hsr as [-> HT]. inversion Hc as [|? ? ? ? ? k' ? Hc' ?|]; subst. intros st1 Hs1 Hz1 Hni.
    eapply wp_mono; [eapply (IH fuel st1 _ _ _ T T null Hz1 Hc' HT)|].
    + by apply rb_root_color in HT.
    + by left.
    + intros ->. by inversion HT.
    + apply settle_up_height in Est. rewrite height_plug, Est, height_node. pose proof (stands_height _ _ _ _ Hnull). destruct Hs1 as [_ _ ->]. lia.
    + lia.
    + intros [] st2 HR. by apply (rooted_trans _ st1).
Qed.

End Loops.
