(* ===== verification/RbTheorems.v ===== *)
(** * Red/black trees: search, insertion and removal

    [Tree st T N]: the tree object holds the value [T], in the order of [lessthan_fn],
    balanced with [N] black nodes per path, and [max_depth] is large enough for the arrays
    that the operations allocate: at least the height, and at least [2 N - 1].  The second
    bound makes the first one survive the rotations of a removal. *)

From Stdlib Require Import ZArith Lia Bool List Sorted.
From stdpp Require Import base tactics numbers list sorting gmap.
From S2P Require Import Prelude RbTree RbFun RbMem RbOps.

Local Open Scope Z_scope.

(** What the callback of a tree must promise: a strict total order on the nodes. *)
Class LessThan (lessthan_fn : Z -> Z -> bool) := {
  lt_irrefl : forall a, lessthan_fn a a = false;
  lt_trans : forall a b c, lessthan_fn a b = true -> lessthan_fn b c = true -> lessthan_fn a c = true;
  lt_total : forall a b, a <> b -> lessthan_fn a b = false -> lessthan_fn b a = true;
}.

(** [k_node_lessthan] of [kernel/cspace.c]: the order of addresses. *)
Definition k_node_lessthan (a b : Z) : bool := a <? b.
#[export] Instance k_node_lessthan_order : LessThan k_node_lessthan.
Proof.
  unfold k_node_lessthan. split; intros; repeat match goal with H : (_ <? _) = true |- _ => apply Z.ltb_lt in H | H : (_ <? _) = false |- _ => apply Z.ltb_ge in H end.
  - apply Z.ltb_irrefl.
  - apply Z.ltb_lt. lia.
  - apply Z.ltb_lt. lia.
Qed.

Section Search.
Context `{Config} (lessthan_fn : Z -> Z -> bool) `{!LessThan lessthan_fn}.
Implicit Types (st : rbtree).

Notation lt a b := (lessthan_fn a b = true).
Definition sorted (l : list Z) : Prop := StronglySorted (fun a b => lt a b) l.

Record Tree st (T : tree) (N : nat) : Prop := {
  t_rep : rep (rb_nodes st) T;
  t_root : rb_root st = root_addr T;
  t_sorted : sorted (inorder T);
  t_rb : rb N BLACK T;
  t_depth : Z.of_nat (height T) <= rb_max_depth st;
  t_black : 2 * Z.of_nat N - 1 <= rb_max_depth st;
}.

(** ** Order *)

Lemma sorted_app l1 l2 : sorted (l1 ++ l2) <-> sorted l1 /\ sorted l2 /\ (forall a b, a ∈ l1 -> b ∈ l2 -> lt a b).
Proof.
  unfold sorted. induction l1 as [|x l1 IH]; cbn.
  - split; [intros Hs; split; [constructor|split; [done|]]; intros a b Ha; by apply elem_of_nil in Ha|tauto].
  - split.
    + intros Hs. inversion Hs as [|? ? Hs' Hf]; subst. apply IH in Hs' as (H1 & H2 & H3). rewrite Forall_app in Hf. destruct Hf as [Hf1 Hf2].
      rewrite Forall_forall in Hf2. split; [by constructor|]. split; [done|]. intros a b [->|Ha]%elem_of_cons Hb; [by apply Hf2|by apply H3].
    + intros (H1 & H2 & H3). inversion H1 as [|? ? Hs' Hf]; subst. constructor.
      * apply IH. split; [done|]. split; [done|]. intros a b Ha. apply H3. apply elem_of_cons. by right.
      * apply Forall_app. split; [done|]. apply Forall_forall. intros b Hb. apply H3; [apply elem_of_cons; by left|done].
Qed.

Lemma sorted_nodup l : sorted l -> NoDup l.
Proof.
  induction 1 as [|a l Hs IH Hf]; constructor; [|done]. intros Ha. rewrite Forall_forall in Hf. specialize (Hf a Ha).
  by rewrite lt_irrefl in Hf.
Qed.

(** ** Searching *)

(** Where the search for [x] in [t] ends. *)
Fixpoint descend (x : Z) (ctx : list frame) (t : tree) : list frame * tree :=
  match t with
  | Leaf => (ctx, Leaf)
  | Node c l a r =>
    if a =? x then (ctx, t)
    else if lessthan_fn x a then descend x (mk_frame false c a r :: ctx) l
    else descend x (mk_frame true c a l :: ctx) r
  end.

Lemma plug_descend x t : forall ctx ctx' t', descend x ctx t = (ctx', t') -> plug ctx' t' = plug ctx t.
Proof.
  induction t as [|c l IHl a r IHr]; intros ctx ctx' t' E; cbn in E; [by injection E as <- <-|].
  destruct (a =? x); [by injection E as <- <-|]. destruct (lessthan_fn x a); [apply IHl in E|apply IHr in E]; by rewrite E.
Qed.

(** Everything left of the path is smaller, everything right of it is larger. *)
Definition around (x : Z) (ctx : list frame) : Prop :=
  (forall a, a ∈ before ctx -> lt a x) /\ (forall a, a ∈ after ctx -> lt x a).

Lemma descend_around x t : forall ctx ctx' t',
  sorted (inorder (plug ctx t)) -> around x ctx -> descend x ctx t = (ctx', t') -> around x ctx'.
Proof.
  induction t as [|c l IHl a r IHr]; intros ctx ctx' t' Hs Ha E; cbn in E; [by injection E as <- <-|].
  destruct (Z.eqb_spec a x) as [Ex|Ex]; [by injection E as <- <-|].
  rewrite inorder_plug_split in Hs. apply sorted_app in Hs as Hs2. destruct Hs2 as (_ & Hs2 & _). apply sorted_app in Hs2 as (Hs2 & _ & _).
  cbn in Hs2. apply sorted_app in Hs2 as (_ & Hs3 & Hla). inversion Hs3 as [|? ? _ Hf]; subst. rewrite Forall_forall in Hf.
  destruct Ha as [Hb Haf]. destruct (lessthan_fn x a) eqn:El.
  - eapply IHl; [|split|exact E]; [cbn; by rewrite inorder_plug_split| |]; cbn.
    + intros b. rewrite app_nil_r. apply Hb.
    + intros b. rewrite elem_of_cons, elem_of_app. intros [->|[Hin|Hin]]; [done| |by apply Haf]. eapply lt_trans; [done|by apply Hf].
  - assert (lt a x) as Hax by (apply lt_total; [by intros ->|done]).
    eapply IHr; [|split|exact E]; [cbn; by rewrite inorder_plug_split| |]; cbn.
    + intros b. rewrite !elem_of_app, list_elem_of_singleton. intros [Hin|[Hin| ->]]; [by apply Hb| |done].
      eapply lt_trans; [apply Hla; [done|apply elem_of_cons; by left]|done].
    + intros b. apply Haf.
Qed.

Lemma around_root x : around x [].
Proof. split; intros a Ha; by apply elem_of_nil in Ha. Qed.

Lemma descend_found x t : forall ctx ctx' t', descend x ctx t = (ctx', t') -> t' = Leaf \/ root_addr t' = x /\ t' <> Leaf.
Proof.
  induction t as [|c l IHl a r IHr]; intros ctx ctx' t' E; cbn in E; [injection E as <- <-; by left|].
  destruct (Z.eqb_spec a x) as [Ex|Ex]; [injection E as <- <-; by right|]. destruct (lessthan_fn x a); eauto.
Qed.

(** The search decides membership. *)
Lemma descend_member x T ctx' t' :
  sorted (inorder T) -> descend x [] T = (ctx', t') -> (x ∈ inorder T <-> t' <> Leaf).
Proof.
  intros Hs E. pose proof (plug_descend _ _ _ _ _ E) as Ep. cbn in Ep. pose proof (descend_around x T [] ctx' t' Hs (around_root x) E) as [Hb Ha].
  rewrite <-Ep, inorder_plug_split, !elem_of_app. split.
  - intros [Hin|[Hin|Hin]]; [apply Hb in Hin; by rewrite lt_irrefl in Hin| |apply Ha in Hin; by rewrite lt_irrefl in Hin].
    intros ->. by apply elem_of_nil in Hin.
  - intros Hl. right. left. destruct (descend_found _ _ _ _ _ E) as [|[<- _]]; [done|]. by apply root_in.
Qed.

(** The last frame of an unsuccessful search. *)
Lemma descend_side x t : forall ctx ctx', descend x ctx t = (ctx', Leaf) -> t <> Leaf ->
  exists f c, ctx' = f :: c /\ f_side f = negb (lessthan_fn x (f_addr f)).
Proof.
  induction t as [|c l IHl a r IHr]; intros ctx ctx' E Hl; [done|]. cbn in E. destruct (a =? x); [done|].
  destruct (lessthan_fn x a) eqn:El.
  - destruct l as [|cl ll al rl]; [|by eapply IHl]. cbn in E. injection E as <-. eexists _, _. split; [done|]. cbn. by rewrite El.
  - destruct r as [|cl ll al rl]; [|by eapply IHr]. cbn in E. injection E as <-. eexists _, _. split; [done|]. cbn. by rewrite El.
Qed.

(** [find_and_stack] pushes the nodes of the search. *)
Definition found_at st (sz : Z) (ctx' : list frame) (t' : tree) : Prop :=
  match t', ctx' with
  | Leaf, f :: c => Zip st sz c (node (f_color f) (f_side f) Leaf (f_addr f) (f_sib f))
  | Leaf, [] => False
  | _, _ => Zip st sz ctx' t'
  end.

Lemma wp_find_loop x t : forall fuel st sz ctx ctx' t',
  Zip st sz ctx t -> descend x ctx t = (ctx', t') -> (length ctx + height t <= length (rb_stack st))%nat -> (height t <= fuel)%nat ->
  wp (find_loop lessthan_fn fuel x sz) (fun sz' st' => same_tree st st' /\ rb_nodes st' = rb_nodes st /\ found_at st' sz' ctx' t') st.
Proof.
  induction t as [|c l IHl a r IHr]; intros fuel st sz ctx ctx' t' Hz E Hlen Hf; [by destruct (z_leaf _ _ _ _ Hz)|].
  pose proof (z_sz _ _ _ _ Hz) as Hsz. cbn [height] in *. destruct fuel as [|fuel]; [lia|]. cbn [find_loop]. apply wp_bind. eapply zip_top; [done|].
  cbn [root_addr]. cbn in E. destruct (a =? x) eqn:Ex; [injection E as <- <-; by apply wp_ret|].
  destruct (zip_parts _ _ _ _ Hz) as (_ & Hr & _). pose proof Hr as (_ & _ & Hrl & Hrr).
  apply wp_bind. change a with (root_addr (Node c l a r)) at 1. apply wp_get_sub; [done|done|]. cbn [sub root_addr].
  assert (Hgo : forall side y z fuel, Node c l a r = node c side y a z -> (height y < height (Node c l a r))%nat -> descend x (mk_frame side c a z :: ctx) y = (ctx', t') ->
     rep (rb_nodes st) y ->
     (forall st1, Zip st1 (sz + 1) (mk_frame side c a z :: ctx) y -> length (rb_stack st1) = length (rb_stack st) ->
       wp (find_loop lessthan_fn fuel x (sz + 1)) (fun sz' st' => same_tree st1 st' /\ rb_nodes st' = rb_nodes st1 /\ found_at st' sz' ctx' t') st1) ->
     wp (if negb (root_addr y =? 0) then stack_set sz (root_addr y);; find_loop lessthan_fn fuel x (sz + 1) else mret sz)
        (fun sz' st' => same_tree st st' /\ rb_nodes st' = rb_nodes st /\ found_at st' sz' ctx' t') st).
  { intros side y z fuel0 En Hh Ed Hry Hrec. rewrite (rep_null _ _ Hry). destruct y as [|cy ly ay ry] eqn:Ey; cbn [negb].
    - cbn in Ed. injection Ed as <- <-. apply wp_ret. split; [done|]. split; [done|]. cbn. by rewrite <-En.
    - rewrite <-Ey in *. assert (y <> Leaf) as Hyl by (by rewrite Ey). cbn [height] in Hh.
      assert (Hroom : (S (length ctx) < length (rb_stack st))%nat) by (rewrite Ey in Hh; cbn in Hh; lia).
      apply wp_bind, wp_stack_set; [lia|]. replace (Z.to_nat sz) with (S (length ctx)) by lia. rewrite En in Hz.
      pose proof (zip_down _ _ _ _ _ _ _ _ (S (length ctx)) Hz Hyl Hroom eq_refl) as Hz1.
      eapply wp_mono; [apply Hrec; [done|cbn; by rewrite length_insert]|]. intros sz' st' (Hs & En' & Hfd). split; [|split; [done|done]].
      etrans; [apply same_entry|done]. }
  destruct (lessthan_fn x a); cbn [negb].
  - apply (Hgo false l r fuel); [done|cbn; lia|done|done|]. intros st1 Hz1 Hl1. apply IHl with (ctx := mk_frame false c a r :: ctx); [done|done|cbn; lia|lia].
  - apply (Hgo true r l fuel); [done|cbn; lia|done|done|]. intros st1 Hz1 Hl1. apply IHr with (ctx := mk_frame true c a l :: ctx); [done|done|cbn; lia|lia].
Qed.

Lemma tree_depth st T N : Tree st T N -> 0 <= rb_max_depth st.
Proof. intros HT. pose proof (t_depth _ _ _ HT). lia. Qed.

Lemma tree_nodup st T N : Tree st T N -> NoDup (inorder T).
Proof. intros HT. by apply sorted_nodup, HT. Qed.

(** The array an operation on [st] starts with. *)
Definition fresh st : rbtree := with_rb_stack (replicate (Z.to_nat (rb_max_depth st + 1)) None) st.

Lemma wp_find st T N x ctx' t' (Q : Z -> rbtree -> Prop) :
  Tree st T N -> T <> Leaf -> descend x [] T = (ctx', t') ->
  (forall sz st', same_tree (fresh st) st' -> rb_nodes st' = rb_nodes st -> found_at st' sz ctx' t' -> Q sz st') ->
  wp (find_and_stack lessthan_fn x) Q (fresh st).
Proof.
  intros HT Hl E HQ. pose proof (t_depth _ _ _ HT) as Hd. pose proof (tree_depth _ _ _ HT) as H0.
  unfold find_and_stack. apply wp_bind, wp_get. apply wp_bind, wp_stack_set; [cbn; rewrite length_replicate; lia|].
  cbn [rb_root fresh with_rb_stack rb_stack]. rewrite (t_root _ _ _ HT). change (Z.to_nat 0) with 0%nat. set (st1 := set_entry 0 _ _).
  assert (Hlen : length (rb_stack st1) = Z.to_nat (rb_max_depth st + 1)) by (cbn; by rewrite length_insert, length_replicate).
  assert (Hz : Zip st1 1 [] T).
  { split; [apply HT|by apply (tree_nodup _ _ _ HT)|done|done|]. intros i y Ey. apply list_lookup_singleton_Some in Ey as [-> <-].
    cbn. apply list_lookup_insert_eq. rewrite length_replicate. lia. }
  rewrite length_replicate. eapply wp_mono; [apply (wp_find_loop x T _ st1 1 [] ctx' t' Hz E)|]; [rewrite Hlen; cbn; lia|lia|].
  intros sz st' (Hs & En & Hf). apply HQ; [|done|done]. etrans; [apply same_entry|done].
Qed.

(** ** Membership *)

Lemma wp_contains_loop x t : forall fuel st, rep (rb_nodes st) t -> sorted (inorder t) -> (height t < fuel)%nat -> x <> 0 ->
  wp (contains_loop lessthan_fn fuel (root_addr t) x) (fun b st' => st' = st /\ b = bool_decide (x ∈ inorder t)) st.
Proof.
  induction t as [|c l IHl a r IHr]; intros fuel st Hr Hs Hf Hx; (destruct fuel as [|fuel]; [lia|]); cbn [contains_loop root_addr].
  { apply wp_ret. split; [done|]. rewrite bool_decide_eq_false_2 by apply not_elem_of_nil. by apply Z.eqb_neq. }
  pose proof Hr as (_ & [Ha _] & Hrl & Hrr). rewrite (proj2 (Z.eqb_neq a 0)) by done. cbn [negb andb height] in *.
  cbn [inorder] in Hs. pose proof (sorted_nodup _ Hs) as Hnd. pose proof Hs as Hs'. apply sorted_app in Hs' as (Hsl & Hsr & Hlr). inversion Hsr as [|? ? Hsr' Hf']; subst. rewrite Forall_forall in Hf'.
  destruct (Z.eqb_spec a x) as [->|Hax]; cbn [negb].
  { apply wp_ret. split; [done|]. rewrite bool_decide_eq_true_2; [done|]. cbn. rewrite elem_of_app, elem_of_cons. tauto. }
  apply wp_bind. change a with (root_addr (Node c l a r)) at 1. apply wp_get_sub; [done|done|]. cbn [sub]. destruct (lessthan_fn a x) eqn:El.
  - eapply wp_mono; [apply IHr; [done|done|lia|done]|]. intros b st' [-> ->]. split; [done|]. apply bool_decide_ext. cbn. rewrite elem_of_app, elem_of_cons.
    split; [tauto|]. intros [Hin|[->|Hin]]; [|done|done]. exfalso. pose proof (Hlr x a Hin ltac:(apply elem_of_cons; by left)) as Hxa.
    pose proof (lt_trans _ _ _ El Hxa) as Hc. by rewrite lt_irrefl in Hc.
  - assert (lt x a) as Hxa by (by apply lt_total). eapply wp_mono; [apply IHl; [done|done|lia|done]|]. intros b st' [-> ->]. split; [done|]. apply bool_decide_ext. cbn. rewrite elem_of_app, elem_of_cons.
    split; [tauto|]. intros [Hin|[->|Hin]]; [done|done|]. exfalso. pose proof (Hf' x Hin) as Hc. pose proof (lt_trans _ _ _ Hc Hxa) as Hcc. by rewrite lt_irrefl in Hcc.
Qed.

(** The loops over nodes have enough fuel. *)
Lemma rep_subset m t : rep m t -> forall a, a ∈ inorder t -> a ∈ dom m.
Proof.
  induction t as [|c l IHl a r IHr]; intros Hr b Hb; [by apply elem_of_nil in Hb|]. destruct Hr as (E & _ & Hl & Hr).
  cbn in Hb. rewrite elem_of_app, elem_of_cons in Hb. destruct Hb as [Hb|[->|Hb]]; [by apply IHl| |by apply IHr]. by apply elem_of_dom.
Qed.

Lemma height_inorder t : (height t <= length (inorder t))%nat.
Proof. induction t as [|c l IHl a r IHr]; cbn; [lia|]. rewrite length_app. cbn. lia. Qed.

Lemma rep_size m t : rep m t -> NoDup (inorder t) -> (height t <= size m)%nat.
Proof.
  intros Hr Hn. etrans; [apply height_inorder|]. rewrite <-size_dom. rewrite <-(size_list_to_set (C := gset Z)) by done.
  apply subseteq_size. intros a Ha. apply elem_of_list_to_set in Ha. by apply (rep_subset _ _ Hr).
Qed.

Lemma wp_rb_contains st T N x : Tree st T N -> x <> 0 ->
  wp (rb_contains lessthan_fn x) (fun b st' => st' = st /\ b = bool_decide (x ∈ inorder T)) st.
Proof.
  intros HT Hx. unfold rb_contains. apply wp_bind, wp_get. rewrite (t_root _ _ _ HT). apply wp_contains_loop; [apply HT|apply HT| |done].
  pose proof (rep_size _ _ (t_rep _ _ _ HT) (tree_nodup _ _ _ HT)). lia.
Qed.

(** ** Insertion *)

Lemma wp_attach st f ctx x c (Q : unit -> rbtree -> Prop) :
  rep (rb_nodes st) (plug (f :: ctx) Leaf) -> NoDup (inorder (plug (f :: ctx) Leaf)) -> rb_nodes st !! x = Some (rbn c 0 0) -> addr_ok x ->
  x ∉ inorder (plug (f :: ctx) Leaf) ->
  (forall m', rep m' (plug (f :: ctx) (Node c Leaf x Leaf)) -> Q tt (with_rb_nodes m' st)) -> wp (set_child (f_addr f) (f_side f) x) Q st.
Proof.
  intros Hr Hn Ex Hx Hni HQ. apply rep_plug in Hr as [Hc _]. apply nodup_plug in Hn as Hap. pose proof Hc as (E & Ha & Hs & _).
  eapply wp_set_cell; [done|apply Ha|done|by apply rep_ptr in Hs|]. apply HQ, rep_plug. split.
  - exact (repc_retarget _ (f :: ctx) _ x _ Hap Hc).
  - cbn. rewrite lookup_insert_ne; [done|]. intros <-. apply Hni. rewrite inorder_plug_split. cbn. rewrite !elem_of_app. destruct (f_side f); cbn; rewrite ?elem_of_app, ?elem_of_cons; tauto.
Qed.

(** Clearing the children of a node keeps its colour bit. *)
Lemma wp_clear_children st x v (Q : unit -> rbtree -> Prop) :
  rb_nodes st !! x = Some v -> x <> 0 ->
  (forall c m', m' !! x = Some (rbn c 0 0) -> (forall a, a <> x -> m' !! a = rb_nodes st !! a) -> Q tt (with_rb_nodes m' st)) ->
  wp (set_child x false 0;; set_child x true 0) Q st.
Proof.
  intros E Hx HQ. apply wp_bind. unfold set_child at 1. apply wp_bind, wp_nonnull; [done|]. apply wp_bind. eapply wp_rd_rbnode; [done|].
  eapply wp_wr_rbnode; [done|]. set (c := if Z.land (children0 v) 1 =? 0 then RED else BLACK).
  assert (Ec : Z.lor 0 (Z.land (children0 v) 1) = Z.lor 0 (color_bit c)).
  { subst c. rewrite !Z.lor_0_l. change 1 with (Z.ones 1). rewrite Z.land_ones by lia. destruct (Z.mod_pos_bound (children0 v) (2 ^ 1)); [lia|].
    destruct (Z.eqb_spec (children0 v mod 2 ^ 1) 0) as [->|Hne]; [done|]. cbn. lia. }
  rewrite Ec. eapply (wp_set_child _ _ _ c 0 (children1 v)); [cbn; apply lookup_insert_eq|done|done|]. cbn [rb_nodes with_rb_nodes].
  apply (HQ c); [apply lookup_insert_eq|]. intros a Ha. by rewrite !lookup_insert_ne.
Qed.

Lemma tree_frame st m' T N : Tree st T N -> (forall a, a ∈ inorder T -> m' !! a = rb_nodes st !! a) -> Tree (with_rb_nodes m' st) T N.
Proof. intros [? ? ? ? ? ?] Hm. split; try done. by eapply rep_frame. Qed.

Lemma tree_sorted_insert x ctx : around x ctx -> sorted (inorder (plug ctx Leaf)) -> sorted (inorder (plug ctx (Node RED Leaf x Leaf))).
Proof.
  intros [Hb Ha]. rewrite !inorder_plug_split. cbn. intros Hs. apply sorted_app in Hs as (H1 & H2 & H3). apply sorted_app. split; [done|]. split.
  - constructor; [done|]. by apply Forall_forall.
  - intros a b Hin [->|Hin']%elem_of_cons; [by apply Hb|by apply H3].
Qed.

Lemma wp_rb_insert st T N x :
  Tree st T N -> x ∉ inorder T -> addr_ok x -> is_Some (rb_nodes st !! x) ->
  wp (rb_insert lessthan_fn x) (fun _ st' => (exists T' N' l1 l2, Tree st' T' N' /\ inorder T = l1 ++ l2 /\ inorder T' = l1 ++ x :: l2) /\
    rb_max_depth st' <= Z.max (rb_max_depth st) (Z.of_nat (height T) + 1)) st.
Proof.
  intros HT Hx Hok [v Ev]. unfold rb_insert. apply wp_unbind2. eapply wp_clear_children; [done|apply Hok|].
  intros c m1 E1 Hm1. apply (tree_frame _ m1) in HT; [|intros a Ha; apply Hm1; by intros ->]. set (st1 := with_rb_nodes m1 st) in *. clear Ev Hm1.
  apply wp_bind, wp_get. rewrite (t_root _ _ _ HT), (rep_null _ _ (t_rep _ _ _ HT)). destruct (decide (T = Leaf)) as [->|Hl].
  - apply wp_bind, wp_modify. apply wp_bind, wp_modify. eapply wp_set_color; [exact E1|apply Hok|done|].
    split; [|cbn; lia]. exists (Node BLACK Leaf x Leaf), 1%nat, [], []. split; [|done]. split; cbn; [|done|repeat constructor|by repeat econstructor|lia|lia].
    rewrite lookup_insert_eq. done.
  - replace (match T with Leaf => true | _ => false end) with false by (by destruct T). apply wp_bind, wp_modify. fold (fresh st1).
    destruct (descend x [] T) as [ctx' t'] eqn:Ed. pose proof (descend_member x T ctx' t' (t_sorted _ _ _ HT) Ed) as Hmem.
    assert (t' = Leaf) as -> by (destruct t'; [done|by exfalso; apply Hx, Hmem]).
    destruct (descend_side x T [] ctx' Ed Hl) as (f & ctx & -> & Hside). pose proof (plug_descend x T [] _ _ Ed) as Ep. cbn [plug] in Ep.
    pose proof (descend_around x T [] _ _ (t_sorted _ _ _ HT) (around_root x) Ed) as Har.
    apply wp_bind. eapply wp_find; [done|done|done|]. intros sz st2 Hs2 En2 Hz2. cbn in Hz2.
    apply wp_bind. eapply zip_top; [exact Hz2|]. rewrite root_addr_node, <-Hside.
    pose proof (t_rep _ _ _ HT) as Hr. rewrite <-Ep in Hr. pose proof (tree_nodup _ _ _ HT) as Hnd. rewrite <-Ep in Hnd.
    change (plug ctx _) with (plug (f :: ctx) Leaf) in Hr, Hnd, Ep.
    apply wp_bind. eapply wp_attach; [by rewrite En2|done|by rewrite En2|done|by rewrite Ep|]. intros m3 Hm3.
    assert (Hnd3 : NoDup (inorder (plug (f :: ctx) (Node RED Leaf x Leaf)))).
    { apply sorted_nodup, tree_sorted_insert; [done|]. rewrite Ep. apply HT. }
    assert (Hnd3' : NoDup (inorder (plug (f :: ctx) (Node c Leaf x Leaf)))) by (by rewrite (inorder_plug _ _ (Node RED Leaf x Leaf))).
    apply wp_bind. change x with (root_addr (Node c Leaf x Leaf)) at 1. eapply (wp_paint _ (f :: ctx)); [done|done|done|]. intros m4 Hm4. cbn [paint] in Hm4.
    pose proof (z_sz _ _ _ _ Hz2) as Hsz. pose proof (z_stack _ _ _ _ Hz2) as Hst. rewrite root_addr_node in Hst.
    assert (Hlen2 : length (rb_stack st2) = Z.to_nat (rb_max_depth st1 + 1)) by (destruct Hs2 as [_ _ ->]; cbn; by rewrite length_replicate).
    assert (Hdep : (length ctx + 1 <= height T)%nat) by (rewrite <-Ep; cbn [plug]; rewrite height_plug, height_node; lia).
    pose proof (t_depth _ _ _ HT) as Htd. pose proof (t_black _ _ _ HT) as Htb.
    apply wp_bind, wp_stack_set; [cbn; lia|]. replace (Z.to_nat sz) with (S (length ctx)) by lia. set (st5 := set_entry _ _ _).
    assert (Hz5 : Zip st5 (sz + 1) (f :: ctx) (Node RED Leaf x Leaf)).
    { split; [done|done|done|cbn; lia|]. cbn [path root_addr]. subst st5. rewrite <-(length_path ctx (f_addr f)). apply on_stack_push; [done|]. rewrite length_path. cbn. lia. }
    pose proof (t_rb _ _ _ HT) as Hrb. rewrite <-Ep in Hrb. apply plug_rbc in Hrb as (n & k & cl & Hctx & Hleaf & _). inversion Hleaf; subst n cl.
    assert (Hred : rb 0 RED (Node RED Leaf x Leaf)) by (by repeat constructor).
    apply wp_bind. eapply wp_mono; [apply (wp_fix_extra_red N (f :: ctx) _ st5 _ 0%nat k); [done|done|done|lia]|].
    intros [] st6 [Hs6 Hr6 Ht6]. apply wp_bind, wp_get.
    assert (Hmd6 : rb_max_depth st6 = rb_max_depth st1) by (destruct Hs6 as [_ -> _]; destruct Hs2 as [_ E _]; cbn in *; congruence).
    destruct (fix_red_rb N (f :: ctx) 0 k _ Hctx Hred) as (N' & HN' & HNN). pose proof (fix_red_height N (f :: ctx) 0 k _ Hctx Hred) as Hfh.
    rewrite height_plug in Hfh. pose proof (f_equal height Ep) as Eh. rewrite height_plug in Eh. cbn [height length Nat.mul] in *.
    assert (Hfl : fix_red (f :: ctx) (Node RED Leaf x Leaf) <> Leaf).
    { intros E. pose proof (fix_red_inorder (f :: ctx) (Node RED Leaf x Leaf) ltac:(done)) as Eo. rewrite E, inorder_plug_split in Eo. by apply app_cons_not_nil in Eo. }
    assert (Hmd : wp (if rb_max_depth st6 <? sz + 1 then modify (with_rb_max_depth (sz + 1)) else skip)
      (fun _ st7 => st7 = with_rb_max_depth (Z.max (rb_max_depth st1) (sz + 1)) st6) st6).
    { rewrite <-Hmd6. destruct (Z.ltb_spec (rb_max_depth st6) (sz + 1)).
      - apply wp_modify. by rewrite Z.max_r by lia.
      - apply wp_skip. rewrite Z.max_l by lia. by destruct st6. }
    apply wp_bind. eapply wp_mono; [exact Hmd|]. intros [] st7 ->. apply wp_bind.
    eapply wp_stack_get; [exact Ht6|lia|done|]. apply wp_bind, wp_modify. apply wp_bind, wp_assert_m.
    { intros _. apply wp_bind, wp_get. cbn [rb_root with_rb_root]. apply wp_root_black; [done|done|].
      by rewrite (rb_root_color _ _ _ HN'). }
    apply wp_modify. split; [|cbn; change (rb_max_depth st1) with (rb_max_depth st); lia].
    exists (fix_red (f :: ctx) (Node RED Leaf x Leaf)), N', (before (f :: ctx)), (after (f :: ctx)).
    split; [|split; [by rewrite <-Ep, inorder_plug_split|rewrite fix_red_inorder by done; by rewrite inorder_plug_split]].
    split; cbn [rb_nodes rb_root rb_max_depth with_rb_stack with_rb_root with_rb_max_depth]; [done|done| |done|lia|lia].
    rewrite fix_red_inorder by done. apply tree_sorted_insert; [done|]. rewrite Ep. apply HT.
Qed.

End Search.
