(* ===== verification/RbRemove.v ===== *)
(** * Red/black trees: removal

    A node with two children first changes places with the biggest node of its left
    subtree; a node with at most one child is then cut out and the colours are repaired. *)

From Stdlib Require Import ZArith Lia Bool List.
From stdpp Require Import base tactics numbers list gmap.
From S2P Require Import Prelude RbTree RbFun RbMem RbOps RbTheorems.

Local Open Scope Z_scope.

(** ** The biggest node of a subtree *)

Fixpoint rightmost (ctx : list frame) (t : tree) : list frame * tree :=
  match t with
  | Leaf => (ctx, Leaf)
  | Node c l a r => match r with Leaf => (ctx, t) | _ => rightmost (mk_frame true c a l :: ctx) r end
  end.

Lemma rightmost_spec t : forall ctx ctx' t', rightmost ctx t = (ctx', t') -> t <> Leaf ->
  plug ctx' t' = plug ctx t /\ after ctx' = after ctx /\ exists c l a, t' = Node c l a Leaf.
Proof.
  induction t as [|c l _ a r IHr]; intros ctx ctx' t' E Hl; [done|]. cbn in E. destruct r as [|cr lr ar rr] eqn:Er.
  - injection E as <- <-. split; [done|]. split; [done|]. by exists c, l, a.
  - rewrite <-Er in *. destruct (IHr _ _ _ E) as (E1 & E2 & E3); [by rewrite Er|]. split; [by rewrite E1|]. split; [by rewrite E2|done].
Qed.

Section Remove.
Context `{Config}.
Implicit Types (st : rbtree).

Lemma wp_biggest_loop base t : forall fuel st sz ctx ctx' t' (Q : Z * Z -> rbtree -> Prop),
  Zip st sz (ctx ++ base) t -> rightmost ctx t = (ctx', t') -> (length (ctx ++ base) + height t <= length (rb_stack st))%nat -> (height t <= fuel)%nat ->
  (forall sz' st', same_tree st st' -> rb_nodes st' = rb_nodes st -> Zip st' sz' (ctx' ++ base) t' -> Q (root_addr t', sz') st') ->
  wp (biggest_loop fuel (root_addr t) sz) Q st.
Proof.
  induction t as [|c l _ a r IHr]; intros fuel st sz ctx ctx' t' Q Hz E Hlen Hf HQ; [by destruct (z_leaf _ _ _ _ Hz)|].
  pose proof (z_sz _ _ _ _ Hz) as Hsz. cbn [height] in *. destruct fuel as [|fuel]; [lia|]. cbn [biggest_loop].
  destruct (zip_parts _ _ _ _ Hz) as (_ & Hr & _). pose proof Hr as (_ & _ & Hrl & Hrr).
  apply wp_bind. apply wp_get_sub; [done|done|]. cbn [sub]. rewrite (rep_null _ _ Hrr). cbn [rightmost] in E.
  destruct r as [|cr lr ar rr] eqn:Er; cbn [negb].
  - injection E as <- <-. apply wp_ret. by apply (HQ sz st).
  - rewrite <-Er in *. assert (Hrn : r <> Leaf) by (by rewrite Er). assert (Hh : (1 <= height r)%nat) by (rewrite Er; cbn; lia).
    apply wp_bind, wp_get_sub; [done|done|]. cbn [sub]. apply wp_bind, wp_stack_set; [lia|]. replace (Z.to_nat sz) with (S (length (ctx ++ base))) by lia.
    change (Node c l a r) with (node c true r a l) in Hz.
    pose proof (zip_down _ _ _ _ _ _ _ _ (S (length (ctx ++ base))) Hz Hrn ltac:(lia) eq_refl) as Hz1.
    eapply (IHr fuel _ _ (mk_frame true c a l :: ctx) ctx' t'); [exact Hz1|done|cbn; rewrite length_insert; lia|lia|].
    intros sz' st' Hs En Hz'. apply HQ; [|done|done]. etrans; [apply same_entry|done].
Qed.

(** ** Exchanging two nodes *)

Lemma in_plug ctx t a : a ∈ inorder (plug ctx t) <-> a ∈ inorder t \/ a ∈ cnodes ctx.
Proof. rewrite inorder_plug_split. unfold cnodes. rewrite !elem_of_app. tauto. Qed.

Section Swap.
Context (ctx ctx2 : list frame) (c c2 : rb_color) (x b : Z) (l2 r : tree).

Definition swap_before : tree := plug (mk_frame false c x r :: ctx) (plug ctx2 (Node c2 l2 b Leaf)).
Definition swap_after : tree := plug (mk_frame false c b r :: ctx) (plug ctx2 (Node c2 l2 x Leaf)).

(** All the nodes involved are different. *)
Record swap_apart : Prop := {
  sa_x : x ∉ inorder r /\ x ∉ cnodes ctx /\ x ∉ cnodes ctx2 /\ x ∉ inorder l2 /\ x <> b;
  sa_b : b ∉ inorder r /\ b ∉ cnodes ctx /\ b ∉ cnodes ctx2 /\ b ∉ inorder l2;
  sa_ctx2 : forall a, a ∈ cnodes ctx2 -> a ∉ cnodes ctx /\ a ∉ inorder r /\ a ∉ inorder l2;
  sa_l2 : forall a, a ∈ inorder l2 -> a ∉ cnodes ctx /\ a ∉ inorder r;
  sa_r : forall a, a ∈ inorder r -> a ∉ cnodes ctx;
  sa_path : apart ctx [x; b] /\ apart ctx2 [x; b];
}.

Lemma swap_nodup : NoDup (inorder swap_before) -> swap_apart.
Proof.
  intros Hn. apply nodup_plug in Hn. pose proof (ap_in _ _ Hn) as Hi. apply apart_cons in Hn as (H1 & H2 & H3 & H4 & H5 & H6). cbn [f_addr f_sib] in *.
  apply nodup_plug in Hi. destruct Hi as [Hi1 Hi2 Hi3]. setoid_rewrite in_plug in H4. rewrite in_plug in H3.
  destruct H5 as [_ Hc1 Hc2]. setoid_rewrite in_plug in Hc2.
  assert (Hin2 : forall a, a ∈ inorder (Node c2 l2 b Leaf) <-> a ∈ inorder l2 \/ a = b) by (intros; cbn; by rewrite elem_of_app, list_elem_of_singleton).
  setoid_rewrite Hin2 in H4. setoid_rewrite Hin2 in Hi3. setoid_rewrite Hin2 in Hc2. rewrite Hin2 in H3. cbn [inorder] in Hi1. rewrite NoDup_app in Hi1. destruct Hi1 as (_ & Hi4 & _).
  setoid_rewrite list_elem_of_singleton in Hi4.
  assert (Hb : b ∉ inorder r) by (intros Hb; destruct (H4 b Hb) as [_ Hn]; tauto). assert (Hxb : x <> b) by tauto.
  pose proof (Hi3 b (or_intror eq_refl)) as Hb2. pose proof (Hc2 b (or_introl (or_intror eq_refl))) as Hb1. split.
  - tauto.
  - repeat split; [exact Hb|exact Hb1|exact Hb2|]. intros Hin. by apply (Hi4 b).
  - intros a Ha. split; [apply Hc2; tauto|]. split; [intros Hin; destruct (H4 a Hin); tauto|]. intros Hin. apply (Hi3 a); tauto.
  - intros a Ha. split; [apply Hc2; tauto|]. intros Hin. destruct (H4 a Hin). tauto.
  - intros a Ha. by apply H4.
  - assert (Hnd : NoDup [x; b]) by (repeat constructor; rewrite ?list_elem_of_singleton; [done|apply not_elem_of_nil]).
    split; split; try done; intros a; rewrite elem_of_cons, list_elem_of_singleton; intros [->| ->]; tauto.
Qed.

Lemma swap_rep m m' :
  rep m swap_before -> NoDup (inorder swap_before) ->
  m' !! x = Some (rbn c2 (root_addr l2) 0) -> m' !! b = Some (rbn c (root_addr (plug ctx2 (Node c2 l2 x Leaf))) (root_addr r)) ->
  (forall a, a <> x -> a <> b -> m' !! a = retarget ctx2 x (retarget ctx b m) !! a) -> rep m' swap_after.
Proof.
  intros Hr Hn Ex Eb Hm. destruct (swap_nodup Hn) as [(X1 & X2 & X3 & X4 & X5) (B1 & B2 & B3 & B4) C2 L2 R [Hap Hap2]].
  apply rep_plug in Hr as [Hc Hr]. destruct Hc as (_ & Hx & Hrr & Hc). cbn [f_side f_color f_addr f_sib] in *.
  apply rep_plug in Hr as [Hc2 Hr2]. destruct Hr2 as (_ & Hb & Hl2 & _). cbn [root_addr] in Hc2.
  assert (Hsub : forall t, (forall a, a ∈ inorder t -> a <> x /\ a <> b /\ a ∉ cnodes ctx /\ a ∉ cnodes ctx2) -> rep m t -> rep m' t).
  { intros t Ht. apply rep_frame. intros a Ha. destruct (Ht a Ha) as (? & ? & ? & ?). by rewrite Hm, !retarget_other. }
  apply rep_plug. split.
  - cbn. split; [done|]. split; [done|]. split.
    + apply Hsub; [|done]. intros a Ha. repeat split; [by intros ->|by intros ->|by apply R|]. intros Hin. by destruct (C2 a Hin) as (_ & ? & _).
    + eapply repc_frame; [|exact (repc_retarget m ctx x b [x; b] Hap Hc)]. intros a Ha.
      rewrite Hm by (by intros ->). apply retarget_other. intros Hin. by destruct (C2 a Hin).
  - apply rep_plug. split.
    + eapply repc_frame; [|eapply (repc_retarget (retarget ctx b m) ctx2 b x [x; b] Hap2)].
      * intros a Ha. apply Hm; by intros ->.
      * eapply repc_frame; [|exact Hc2]. intros a Ha. apply retarget_other. by apply C2.
    + cbn. split; [done|]. split; [done|]. split; [|done]. apply Hsub; [|done].
      intros a Ha. repeat split; [by intros ->|by intros ->|by apply L2|]. intros Hin. by destruct (C2 a Hin) as (_ & _ & ?).
Qed.

Lemma root_plug_cons f ctx' t t' : root_addr (plug (f :: ctx') t) = root_addr (plug (f :: ctx') t').
Proof. revert f t t'. induction ctx' as [|g ctx' IH]; intros f t t'; cbn [plug]; [by rewrite !root_addr_node|]. apply IH. Qed.

(** What stands in memory before the exchange. *)
Record swap_cells (m : gmap Z rbnode) : Prop := {
  sc_x : m !! x = Some (rbn c (root_addr (plug ctx2 (Node c2 l2 b Leaf))) (root_addr r));
  sc_b : m !! b = Some (rbn c2 (root_addr l2) 0);
  sc_ok : addr_ok x /\ addr_ok b /\ ptr_ok (root_addr l2) /\ ptr_ok (root_addr r) /\ ptr_ok (root_addr (plug ctx2 (Node c2 l2 b Leaf)));
  sc_ctx : repc m ctx x;
  sc_ctx2 : repc m ctx2 b;
}.

Lemma swap_read m : rep m swap_before -> swap_cells m.
Proof.
  intros Hr. apply rep_plug in Hr as [(E & Hx & Hrr & Hc) Hr]. cbn [f_side f_color f_addr f_sib] in *. pose proof (rep_ptr _ _ Hr) as Hp.
  apply rep_plug in Hr as [Hc2 (Eb & Hb & Hl2 & _)]. split; [done|done| |done|done].
  split; [done|]. split; [done|]. split; [by eapply rep_ptr|]. split; [by eapply rep_ptr|done].
Qed.

(** The lower parent, or the upper node itself, takes the other child. *)
Lemma wp_swap_low st (Q : unit -> rbtree -> Prop) :
  swap_cells (rb_nodes st) -> swap_apart ->
  (forall m', m' !! x = Some (rbn c (root_addr l2) (root_addr r)) ->
     m' !! b = Some (rbn c2 (root_addr (plug ctx2 (Node c2 l2 x Leaf))) 0) ->
     (forall a, a <> x -> a <> b -> m' !! a = retarget ctx2 x (rb_nodes st) !! a) -> Q tt (with_rb_nodes m' st)) ->
  wp (if match ctx2 with [] => x | f :: _ => f_addr f end =? x then
        c ← get_child b false; set_child x false c;; set_child b false x
      else
        side ← get_side match ctx2 with [] => x | f :: _ => f_addr f end b; set_child match ctx2 with [] => x | f :: _ => f_addr f end side x;;
        tmp ← get_child x false; c ← get_child b false; set_child x false c;; set_child b false tmp) Q st.
Proof.
  intros [Ex Eb ([Hx0 Hx] & [Hb0 Hb] & Hl2 & Hr & Hp) _ Hc2] [(X1 & X2 & X3 & X4 & X5) (B1 & B2 & B3 & B4) C2 L2 R [Hap Hap2]] HQ. destruct ctx2 as [|f rest].
  - rewrite Z.eqb_refl. apply wp_bind. eapply wp_get_child; [exact Eb|done|done|]. apply wp_bind. eapply wp_set_child; [exact Ex|done|exact Hb|]. cbn [rb_nodes with_rb_nodes].
    eapply wp_set_child; [cbn; rewrite lookup_insert_ne by done; exact Eb|done|done|]. apply HQ; cbn.
    + by rewrite lookup_insert_ne, lookup_insert_eq by done.
    + by rewrite lookup_insert_eq.
    + intros a Ha1 Ha2. by rewrite !lookup_insert_ne by done.
  - assert (Hfx : f_addr f <> x) by (intros Ef; apply X3, cnodes_cons; by left). assert (Hfb : f_addr f <> b) by (intros Ef; apply B3, cnodes_cons; by left).
    rewrite (proj2 (Z.eqb_neq _ _)) by done. apply wp_bind. eapply wp_hole_side; [done|exact Hc2|done|done| |].
    { destruct (f_sib f) as [|cs ls s rs] eqn:Es; [done|]. cbn. intros ->. apply B3, cnodes_cons. right. left. rewrite Es. apply (root_in (Node cs ls s rs)). done. }
    destruct Hc2 as (Ef & [Hf0 Hf] & Hsib & Hrest). apply rep_ptr in Hsib. apply wp_bind. eapply wp_set_cell; [exact Ef|done|done|done|]. cbn [rb_nodes with_rb_nodes].
    apply wp_bind. eapply wp_get_child; [cbn; rewrite lookup_insert_ne by done; exact Ex|done|done|].
    apply wp_bind. eapply wp_get_child; [cbn; rewrite lookup_insert_ne by done; exact Eb|done|done|].
    apply wp_bind. eapply wp_set_child; [cbn; rewrite lookup_insert_ne by done; exact Ex|done|done|]. cbn [rb_nodes with_rb_nodes].
    eapply wp_set_child; [cbn; rewrite !lookup_insert_ne by done; exact Eb|done|done|]. apply HQ.
    + cbn. by rewrite lookup_insert_ne, lookup_insert_eq by done.
    + cbn [rb_nodes with_rb_nodes]. rewrite lookup_insert_eq. do 2 f_equal. apply (root_plug_cons f rest).
    + intros a Ha1 Ha2. cbn. by rewrite (lookup_insert_ne _ b), (lookup_insert_ne _ x) by done.
Qed.

End Swap.

(** The upper parent, or the root pointer, takes the lower node. *)
Lemma wp_swap_high st ctx x b l (Q : unit -> rbtree -> Prop) :
  repc (rb_nodes st) ctx x -> addr_ok x -> apart ctx l -> x ∈ l ->
  (forall root, Q tt (with_rb_nodes (retarget ctx b (rb_nodes st)) (with_rb_root root st))) ->
  wp (if negb (match ctx with [] => 0 | f :: _ => f_addr f end =? 0) then side ← get_side match ctx with [] => 0 | f :: _ => f_addr f end x; set_child match ctx with [] => 0 | f :: _ => f_addr f end side b
      else modify (with_rb_root b)) Q st.
Proof.
  intros Hc [Hx0 Hx] Hap Hin HQ. destruct ctx as [|f ctx]; cbn [negb Z.eqb].
  { apply wp_modify. specialize (HQ b). cbn in HQ. by destruct st. }
  pose proof Hc as (E & [Ha0 Ha] & Hs & _). rewrite (proj2 (Z.eqb_neq _ _)) by done. cbn [negb]. apply wp_bind.
  eapply wp_hole_side; [done|exact Hc|done|done| |].
  { apply apart_cons in Hap as (_ & _ & _ & Hd & _). destruct (f_sib f) as [|cs ls s rs] eqn:Es; [done|]. cbn. intros ->.
    destruct (Hd s) as [_ ?]; [apply (root_in (Node cs ls s rs)); done|done]. }
  apply rep_ptr in Hs. eapply wp_set_cell; [exact E|done|done|done|]. specialize (HQ (rb_root st)). by destruct st.
Qed.

(** The array after the exchange. *)
Lemma swap_entries st ctx2 F x b ctx i j :
  on_stack st (path (ctx2 ++ F :: ctx) b) -> i = length ctx -> j = length (ctx2 ++ F :: ctx) ->
  on_stack (set_entry j x (set_entry i b st)) (path (ctx2 ++ mk_frame (f_side F) (f_color F) b (f_sib F) :: ctx) x).
Proof.
  intros Hs -> ->. assert (Hlen : (length (ctx2 ++ F :: ctx) < length (rb_stack st))%nat) by (eapply lookup_lt_Some, Hs, path_last).
  assert (Hgen : forall ctx2 p q, on_stack st (path (ctx2 ++ F :: ctx) p) -> forall k y, path (ctx2 ++ mk_frame (f_side F) (f_color F) b (f_sib F) :: ctx) q !! k = Some y ->
    k <> length (ctx2 ++ F :: ctx) -> <[length ctx := Some b]> (rb_stack st) !! k = Some (Some y)).
  { clear Hs Hlen ctx2. induction ctx2 as [|g ctx2 IH]; intros p q Hs k y Hk Hne; cbn in Hk, Hs, Hne.
    - pose proof (on_stack_prefix _ _ _ Hs) as Hs'. assert (Hl : (length ctx < length (rb_stack st))%nat) by (eapply lookup_lt_Some, Hs', path_last).
      assert (k < S (length ctx))%nat as Hk'. { apply lookup_lt_Some in Hk. rewrite length_app, length_path in Hk. cbn in Hk. lia. }
      rewrite lookup_app_l in Hk by (rewrite length_path; lia). destruct (decide (k = length ctx)) as [->|Hkn].
      + rewrite path_last in Hk. injection Hk as <-. by apply list_lookup_insert_eq.
      + rewrite list_lookup_insert_ne by done. destruct ctx as [|h ctx]; [cbn in *; lia|]. cbn [path f_addr] in Hk, Hs'. cbn [length] in *.
        apply Hs'. rewrite lookup_app_l by (rewrite length_path; lia). rewrite lookup_app_l in Hk by (rewrite length_path; lia). done.
    - pose proof (on_stack_prefix _ _ _ Hs) as Hs'. destruct (decide (k = length (ctx2 ++ F :: ctx))) as [->|Hkn].
      + assert (E : length (ctx2 ++ F :: ctx) = length (ctx2 ++ mk_frame (f_side F) (f_color F) b (f_sib F) :: ctx)) by (rewrite !length_app; done).
        rewrite lookup_app_l in Hk by (rewrite length_path; lia). rewrite E, path_last in Hk. injection Hk as <-.
        rewrite list_lookup_insert_ne by (rewrite length_app; cbn; lia). apply Hs'. apply path_last.
      + assert (k < length (ctx2 ++ F :: ctx))%nat as Hk'. { apply lookup_lt_Some in Hk. rewrite length_app, length_path, length_app in Hk. rewrite length_app in *. cbn in *. lia. }
        rewrite lookup_app_l in Hk by (rewrite length_path; rewrite length_app in *; cbn in *; lia). by apply (IH _ _ Hs' k y Hk). }
  intros k y Hk. cbn. destruct (decide (k = length (ctx2 ++ F :: ctx))) as [->|Hne].
  - rewrite list_lookup_insert_eq by (rewrite length_insert; done).
    assert (E : length (ctx2 ++ F :: ctx) = length (ctx2 ++ mk_frame (f_side F) (f_color F) b (f_sib F) :: ctx)) by (rewrite !length_app; done).
    rewrite E, path_last in Hk. by injection Hk as <-.
  - rewrite list_lookup_insert_ne by done. by apply (Hgen ctx2 b x Hs k y Hk).
Qed.

(** What an exchange leaves of the state. *)
Definition same_dims (st st' : rbtree) : Prop := rb_max_depth st' = rb_max_depth st /\ length (rb_stack st') = length (rb_stack st).

Lemma wp_swap_with_biggest st sz ctx c l x r (Q : Z -> rbtree -> Prop) :
  Zip st sz ctx (Node c l x r) -> l <> Leaf -> (height (plug ctx (Node c l x r)) < length (rb_stack st))%nat ->
  (forall ctx2 c2 l2 b sz' st', l = plug ctx2 (Node c2 l2 b Leaf) -> after ctx2 = [] -> same_dims st st' ->
     Zip st' sz' (ctx2 ++ mk_frame false c b r :: ctx) (Node c2 l2 x Leaf) -> Q sz' st') ->
  wp (swap_with_biggest x sz) Q st.
Proof.
  intros Hz Hl Hlen HQ. pose proof (z_sz _ _ _ _ Hz) as Hsz. destruct (zip_parts _ _ _ _ Hz) as (Hc & Hr & Hap).
  pose proof (stack_room _ _ _ _ Hz) as Hroom. rewrite height_plug in Hlen. cbn [height] in Hlen. assert (Hlh : (1 <= height l)%nat) by (destruct l; [done|cbn; lia]).
  unfold swap_with_biggest. apply wp_bind. change x with (root_addr (Node c l x r)) at 1. apply wp_get_sub; [done|done|]. cbn [sub].
  set (hp := match ctx with [] => 0 | f :: _ => f_addr f end).
  assert (Hhp : wp (if 1 <? sz then stack_get (sz - 2) else mret 0) (fun v st' => v = hp /\ st' = st) st).
  { subst hp. destruct ctx as [|g ctx]; cbn in Hsz; [rewrite (proj2 (Z.ltb_ge _ _)) by lia; by apply wp_ret|].
    rewrite (proj2 (Z.ltb_lt _ _)) by lia. by eapply zip_parent. }
  apply wp_bind. eapply wp_mono; [exact Hhp|]. intros ? ? [-> ->]. apply wp_bind, wp_stack_set; [lia|]. replace (Z.to_nat sz) with (S (length ctx)) by lia.
  change (Node c l x r) with (node c false l x r) in Hz. pose proof (zip_down _ _ _ _ _ _ _ _ (S (length ctx)) Hz Hl ltac:(lia) eq_refl) as Hz1.
  set (st1 := set_entry _ _ st) in *. assert (Hl1 : length (rb_stack st1) = length (rb_stack st)) by (cbn; by rewrite length_insert).
  apply wp_bind, wp_get. destruct (rightmost [] l) as [ctx2 t2] eqn:Erm. destruct (rightmost_spec _ _ _ _ Erm Hl) as (Ep & Eaf & c2 & l2 & b & ->). cbn in Ep, Eaf.
  apply wp_bind. eapply (wp_biggest_loop (mk_frame false c x r :: ctx) l _ st1 _ []); [exact Hz1|exact Erm|cbn [app length]; lia|lia|].
  intros sz2 st2 Hs2 En2 Hz2. cbn [root_addr]. pose proof (z_rep _ _ _ _ Hz2) as Hr2. pose proof (z_nodup _ _ _ _ Hz2) as Hn2. rewrite plug_app in Hr2, Hn2.
  fold (swap_before ctx ctx2 c c2 x b l2 r) in Hr2, Hn2. pose proof (swap_nodup _ _ _ _ _ _ _ _ Hn2) as Hsa. pose proof (swap_read _ _ _ _ _ _ _ _ _ Hr2) as Hsc.
  assert (Hlp : forall Q', Q' match ctx2 with [] => x | f :: _ => f_addr f end st2 -> wp (stack_get (sz2 - 2)) Q' st2).
  { intros Q' HQ'. destruct ctx2 as [|g rest]; cbn [app] in Hz2; by eapply zip_parent. }
  apply wp_bind, Hlp. clear Hlp. destruct (sa_path _ _ _ _ _ _ Hsa) as [Hapc Hapc2]. pose proof (sa_x _ _ _ _ _ _ Hsa) as (X1 & X2 & X3 & X4 & X5). pose proof (sa_b _ _ _ _ _ _ Hsa) as (B1 & B2 & B3 & B4).
  destruct (sc_ok _ _ _ _ _ _ _ _ _ Hsc) as (Hx & Hb & Hpl2 & Hpr & Hpp).
  apply wp_bind. eapply (wp_swap_high st2 ctx x b [x; b]); [apply Hsc|done|done|apply elem_of_cons; by left|]. intros root. set (m3 := retarget ctx b (rb_nodes st2)).
  assert (Hsc3 : swap_cells ctx ctx2 c c2 x b l2 r (rb_nodes st2)) by done.
  apply wp_bind. eapply (wp_swap_low [] ctx2 c c2 x b l2 r); [| |].
  { destruct Hsc as [S1 S2 S3 S4 S5]. split; cbn [rb_nodes with_rb_nodes]; subst m3; [by rewrite retarget_other|by rewrite retarget_other|done|done|].
    eapply repc_frame; [|exact S5]. intros a Ha. apply retarget_other. by destruct (sa_ctx2 _ _ _ _ _ _ Hsa a Ha). }
  { split; [repeat split; try done; apply not_elem_of_nil|repeat split; try done; apply not_elem_of_nil| | | |].
    - intros a Ha. destruct (sa_ctx2 _ _ _ _ _ _ Hsa a Ha) as (_ & ? & ?). split; [apply not_elem_of_nil|done].
    - intros a Ha. destruct (sa_l2 _ _ _ _ _ _ Hsa a Ha) as (_ & ?). split; [apply not_elem_of_nil|done].
    - intros a Ha. apply not_elem_of_nil.
    - split; [|done]. split; [apply Hapc|constructor|]. intros a _. apply not_elem_of_nil. }
  cbn [rb_nodes with_rb_nodes]. intros m4 Ex4 Eb4 Hm4. set (tmp := root_addr (plug ctx2 (Node c2 l2 x Leaf))) in *.
  assert (Hpt : ptr_ok tmp). { subst tmp. destruct ctx2 as [|g rest]; [apply Hx|]. by rewrite (root_plug_cons g rest _ (Node c2 l2 b Leaf)). }
  apply wp_bind. eapply wp_get_child; [exact Ex4|apply Hx|done|]. apply wp_bind. eapply wp_set_child; [exact Eb4|apply Hb|done|]. cbn [rb_nodes with_rb_nodes].
  apply wp_bind. eapply wp_set_child; [cbn; rewrite lookup_insert_ne by done; exact Ex4|apply Hx|done|]. cbn [rb_nodes with_rb_nodes].
  set (m5 := <[x := _]> _). pose proof (z_stack _ _ _ _ Hz2) as Hst2. cbn [root_addr] in Hst2. pose proof (z_sz _ _ _ _ Hz2) as Hsz2.
  pose proof (stack_room _ _ _ _ Hz2) as Hroom2. assert (Hlen2 : length (rb_stack st2) = length (rb_stack st)) by (destruct Hs2 as [_ _ ->]; done).
  apply wp_bind. eapply (wp_stack_get _ x (path (ctx2 ++ mk_frame false c x r :: ctx) b)); [exact Hst2|lia| |].
  { replace (Z.to_nat (sz - 1)) with (length ctx) by lia. clear -Hst2. induction ctx2 as [|g ctx2 IH] in b, Hst2 |- *; cbn; [apply (path_above (mk_frame false c x r))|].
    rewrite lookup_app_l by (rewrite length_path, length_app; cbn; lia). cbn in Hst2. apply on_stack_prefix in Hst2. by apply IH. }
  apply wp_bind. eapply (wp_stack_get _ b (path (ctx2 ++ mk_frame false c x r :: ctx) b)); [exact Hst2|lia|replace (Z.to_nat (sz2 - 1)) with (length (ctx2 ++ mk_frame false c x r :: ctx)) by lia; apply path_last|].
  apply wp_bind, wp_stack_set; [cbn; lia|]. apply wp_bind, wp_stack_set; [cbn; rewrite length_insert; lia|].
  replace (Z.to_nat (sz - 1)) with (length ctx) by lia. replace (Z.to_nat (sz2 - 1)) with (length (ctx2 ++ mk_frame false c x r :: ctx)) by lia.
  assert (Ex5 : m5 !! x = Some (rbn c (root_addr l2) 0)) by apply lookup_insert_eq.
  assert (Eb5 : m5 !! b = Some (rbn c2 tmp (root_addr r))) by (subst m5; rewrite lookup_insert_ne by done; apply lookup_insert_eq).
  apply wp_bind. eapply wp_get_color; [exact Ex5|apply Hx|done|]. apply wp_bind. eapply wp_get_color; [exact Eb5|apply Hb|done|].
  apply wp_bind. eapply wp_set_color; [exact Ex5|apply Hx|done|]. cbn [rb_nodes set_entry with_rb_nodes with_rb_stack].
  apply wp_bind. eapply wp_set_color; [cbn; rewrite lookup_insert_ne by done; exact Eb5|apply Hb|done|]. cbn [rb_nodes with_rb_nodes].
  apply wp_ret. set (m6 := <[b := _]> _). eapply (HQ ctx2 c2 l2 b); [by rewrite Ep|done| |].
  { split; cbn; [by destruct Hs2 as [_ -> _]|by rewrite !length_insert]. }
  assert (Hr6 : rep m6 (swap_after ctx ctx2 c c2 x b l2 r)).
  { eapply swap_rep; [exact Hr2|exact Hn2| | |].
    - subst m6. rewrite lookup_insert_ne by done. apply lookup_insert_eq.
    - subst m6. apply lookup_insert_eq.
    - intros a Ha1 Ha2. subst m6 m5. rewrite !lookup_insert_ne by done. by apply Hm4. }
  split; [by rewrite plug_app| |done|rewrite Hsz2, !length_app; cbn; lia|].
  - rewrite plug_app. unfold swap_before in Hn2. assert (Hperm : inorder (plug (mk_frame false c b r :: ctx) (plug ctx2 (Node c2 l2 x Leaf))) ≡ₚ inorder (plug (mk_frame false c x r :: ctx) (plug ctx2 (Node c2 l2 b Leaf)))).
    { rewrite !inorder_plug_split. cbn. rewrite ?inorder_plug_split. cbn. solve_Permutation. }
    by rewrite Hperm.
  - cbn [root_addr]. intros k y Hk. pose proof (swap_entries st2 ctx2 (mk_frame false c x r) x b ctx _ _ Hst2 eq_refl eq_refl k y Hk) as E. exact E.
Qed.

(** ** Cutting a node out *)

(** The result of removing a node from a tree of value [T] that leaves the sequence [l]. *)
Record Cut (st st' : rbtree) (T : tree) (N : nat) (l : list Z) (T' : tree) (N' : nat) : Prop := {
  cu_rep : rep (rb_nodes st') T';
  cu_root : rb_root st' = root_addr T';
  cu_list : inorder T' = l;
  cu_rb : rb N' BLACK T';
  cu_black : (N' <= N)%nat;
  cu_height : (height T' <= Nat.max (height T) (2 * N - 1))%nat;
  cu_depth : rb_max_depth st' = rb_max_depth st \/ T' = Leaf /\ rb_max_depth st' = 0;
}.

Lemma height_plug_le ctx t t' : (height t <= height t')%nat -> (height (plug ctx t) <= height (plug ctx t'))%nat.
Proof. rewrite !height_plug. lia. Qed.

(** The end of the operation: the root comes from the array, the array goes. *)
Lemma wp_finish st (Q : unit -> rbtree -> Prop) T :
  on_stack st [root_addr T] -> Q tt (with_rb_stack [] (with_rb_root (root_addr T) st)) -> wp (x ← stack_get 0; modify (with_rb_root x);; drop_stack) Q st.
Proof. intros Hs HQ. apply wp_bind. eapply wp_stack_get; [exact Hs|lia|done|]. apply wp_bind, wp_modify. by apply wp_modify. Qed.

Lemma rooted_cut st st1 T N l T' N' :
  Rooted st st1 T' -> inorder T' = l -> rb N' BLACK T' -> (N' <= N)%nat -> (height T' <= Nat.max (height T) (2 * N - 1))%nat ->
  Cut st (with_rb_stack [] (with_rb_root (root_addr T') st1)) T N l T' N'.
Proof. intros [Hs Hr _] Hl Hrb HN Hh. split; [done|done|done|done|done|done|]. left. apply Hs. Qed.

(** The hole of a path that is not the root. *)
Lemma hole_rooted st st' f ctx t : same_tree st st' -> rep (rb_nodes st') (plug (f :: ctx) t) -> on_stack st' (path ctx (f_addr f)) -> Rooted st st' (plug (f :: ctx) t).
Proof.
  intros Hs Hr Hst. split; [done|done|]. intros i y E. apply list_lookup_singleton_Some in E as [-> <-]. apply Hst.
  cbn [plug]. rewrite <-path_root. by rewrite root_addr_node.
Qed.

Lemma wp_cut_leaf st sz f ctx c x N (Q : unit -> rbtree -> Prop) :
  Zip st sz (f :: ctx) (Node c Leaf x Leaf) -> rb N BLACK (plug (f :: ctx) (Node c Leaf x Leaf)) ->
  (height (plug (f :: ctx) (Node c Leaf x Leaf)) < length (rb_stack st))%nat ->
  (forall st' T' N', Rooted st st' T' -> inorder T' = before (f :: ctx) ++ after (f :: ctx) -> rb N' BLACK T' -> (N' <= N)%nat ->
     (height T' <= Nat.max (height (plug (f :: ctx) (Node c Leaf x Leaf))) (2 * N - 1))%nat -> Q tt st') ->
  wp (nb ← is_black x; if (nb : bool) then fix_missing_black (Z.to_nat sz) sz x else side ← get_side (f_addr f) x; set_child (f_addr f) side 0) Q st.
Proof.
  intros Hz Hrb Hlen HQ. pose proof (plug_rbc _ _ _ Hrb) as (n & k & c' & Hctx & Hn & Hk). destruct (zip_parts _ _ _ _ Hz) as (_ & Hr & _).
  assert (Hle : (height (plug (f :: ctx) Leaf) <= height (plug (f :: ctx) (Node c Leaf x Leaf)))%nat) by (apply height_plug_le; cbn; lia).
  assert (El : inorder (plug (f :: ctx) Leaf) = before (f :: ctx) ++ after (f :: ctx)) by (by rewrite inorder_plug_split).
  apply wp_bind. change x with (root_addr (Node c Leaf x Leaf)) at 1. apply wp_root_black; [done|done|]. cbn [root_color]. destruct c; cbn [black].
  - inversion Hn as [|? ? ? ? Hn1 _|]; subst. inversion Hn1; subst. apply wp_bind. change x with (root_addr (Node RED Leaf x Leaf)). eapply zip_side; [exact Hz|].
    eapply wp_detach; [apply Hz|apply Hz|]. intros m' Hm. apply (HQ _ (plug (f :: ctx) Leaf) N).
    + apply hole_rooted; [done|done|]. pose proof (z_stack _ _ _ _ Hz) as Hst. by apply on_stack_prefix in Hst.
    + done.
    + eapply rbc_plug; [exact Hctx|constructor|done].
    + done.
    + lia.
  - inversion Hn as [| |? ? ? ? ? ? Hn1 Hn2]; subst. inversion Hn1; subst.
    eapply wp_mono; [eapply (wp_fix_missing_black N (f :: ctx) _ st sz 0%nat k (Node BLACK Leaf x Leaf) Leaf x Hz Hctx); [constructor|done|by right|done|done|lia]|].
    intros [] st' HR. destruct (fix_black_rb N (f :: ctx) 0 k Leaf Hctx ltac:(constructor)) as (N' & HN' & HNN).
    pose proof (fix_black_height N (f :: ctx) 0 k Leaf Hctx ltac:(constructor)) as Hh.
    apply (HQ _ (fix_black (f :: ctx) Leaf) N'); [done| |done|lia|lia].
    rewrite (fix_black_inorder N (f :: ctx) 0 k Leaf Hctx ltac:(constructor)). done.
Qed.

(** A node with one child in a balanced tree is black, and the child is a red leaf. *)
Lemma single_child n k side ch x : rb n k (node k side ch x Leaf) -> ch <> Leaf ->
  k = BLACK /\ n = 1%nat /\ exists y, ch = Node RED Leaf y Leaf.
Proof.
  intros R Hl. apply rb_node_inv in R as [_ R]. destruct k.
  - destruct R as [R1 R2]. inversion R2; subst. inversion R1; subst; done.
  - destruct R as (m & ct & cs & -> & R1 & R2). inversion R2; subst. inversion R1 as [|? ? ? ? Ra Rb|]; subst; [done|].
    inversion Ra; inversion Rb; subst. eauto.
Qed.

(** Reading the only child. *)
Lemma wp_only_child st c side ch x (Q : Z -> rbtree -> Prop) :
  rep (rb_nodes st) (node c side ch x Leaf) -> Q (root_addr ch) st ->
  wp (child ← get_child x false; if child =? 0 then get_child x true else mret child) Q st.
Proof.
  intros Hr HQ. rewrite <-(root_addr_node c side ch x Leaf). pose proof Hr as Hr'. apply rep_node in Hr' as (_ & _ & Hch & _).
  apply wp_bind. apply wp_get_sub; [done|apply node_not_leaf|]. destruct side; cbn [sub node root_addr Z.eqb].
  - by apply (wp_get_sub (Node c Leaf x ch) true).
  - rewrite (rep_null _ _ Hch). destruct ch as [|cc lc y rc]; [|by apply wp_ret]. apply (wp_get_sub (Node c Leaf x Leaf) true); [done|done|done].
Qed.

Lemma wp_assert_single st c side ch x (Q : unit -> rbtree -> Prop) :
  rep (rb_nodes st) (node c side ch x Leaf) -> Q tt st ->
  wp (assert_m (c0 ← get_child x false; if c0 =? 0 then mret true else c1 ← get_child x true; mret (c1 =? 0))) Q st.
Proof.
  intros Hr HQ. apply wp_assert_m; [|done]. intros _. rewrite <-(root_addr_node c side ch x Leaf).
  pose proof Hr as Hr'. apply rep_node in Hr' as (_ & _ & Hch & _). apply wp_bind. apply wp_get_sub; [done|apply node_not_leaf|].
  destruct side; cbn [sub node root_addr Z.eqb]; [by apply wp_ret|]. destruct (_ =? 0); [by apply wp_ret|].
  apply wp_bind. apply (wp_get_sub (Node c ch x Leaf) true); [done|done|]. by apply wp_ret.
Qed.

(** The parent takes the child of the node that goes. *)
Lemma wp_promote st f ctx c side ch x (Q : unit -> rbtree -> Prop) :
  rep (rb_nodes st) (plug (f :: ctx) (node c side ch x Leaf)) -> NoDup (inorder (plug (f :: ctx) (node c side ch x Leaf))) ->
  (forall m', rep m' (plug (f :: ctx) ch) -> m' !! x = rb_nodes st !! x -> Q tt (with_rb_nodes m' st)) ->
  wp (set_child (f_addr f) (f_side f) (root_addr ch)) Q st.
Proof.
  intros Hr Hn HQ. apply rep_plug in Hr as [Hc Hr]. apply nodup_plug in Hn as Hap. pose proof Hc as (E & Ha & Hs & _).
  pose proof Hap as Hap'. apply apart_cons in Hap' as (_ & _ & Hf & _). setoid_rewrite in_node in Hf.
  eapply wp_set_cell; [done|apply Ha|by apply rep_ptr in Hr|by apply rep_ptr in Hs|]. apply HQ.
  - apply rep_plug. split; [exact (repc_retarget _ (f :: ctx) _ _ _ Hap Hc)|]. apply rep_node in Hr as (_ & _ & Hch & _). apply rep_insert; [tauto|done].
  - rewrite lookup_insert_ne; [done|]. tauto.
Qed.

Lemma nodup_cut ctx c side ch x : NoDup (inorder (plug ctx (node c side ch x Leaf))) -> NoDup (inorder (plug ctx ch)).
Proof.
  rewrite !inorder_plug_split, inorder_node. intros Hn. destruct side; cbn in Hn.
  - rewrite <-Permutation_middle in Hn. by apply NoDup_cons in Hn as [_ Hn].
  - rewrite <-!app_assoc in Hn. cbn in Hn. assert (Hp : before ctx ++ inorder ch ++ x :: after ctx ≡ₚ x :: before ctx ++ inorder ch ++ after ctx) by solve_Permutation.
    rewrite Hp in Hn. by apply NoDup_cons in Hn as [_ Hn].
Qed.

(** The root goes. *)
Lemma wp_cut_root st c side ch x N (Q : unit -> rbtree -> Prop) :
  rep (rb_nodes st) (node c side ch x Leaf) -> NoDup (inorder (node c side ch x Leaf)) -> rb N BLACK (node c side ch x Leaf) ->
  (forall st' T' N', Cut st st' (node c side ch x Leaf) N (inorder ch) T' N' -> Q tt st') ->
  wp (modify (with_rb_root (root_addr ch));; (if negb (root_addr ch =? 0) then set_color (root_addr ch) BLACK else modify (with_rb_max_depth 0));; drop_stack) Q st.
Proof.
  intros Hr Hn Hrb HQ. pose proof (proj1 (proj2 (proj2 (proj1 (rep_node _ _ _ _ _ _) Hr)))) as Hch. apply (nodup_cut []) in Hn. cbn [plug] in Hn.
  apply rb_node_inv in Hrb as Hk. destruct Hk as [<- _]. apply wp_bind, wp_modify. rewrite (rep_null _ _ Hch). destruct (decide (ch = Leaf)) as [->|Hl]; cbn [negb].
  - apply wp_bind, wp_modify. apply wp_modify. apply (HQ _ Leaf 0%nat). split; [done|done|done|constructor|lia|cbn; lia|by right].
  - destruct (single_child _ _ _ _ _ Hrb Hl) as (_ & -> & y & ->). cbn [negb]. apply wp_bind.
    apply (wp_paint _ [] (Node RED Leaf y Leaf)); [exact Hch|done|done|]. intros m' Hm. cbn [plug paint] in Hm. apply wp_modify.
    apply (HQ _ (Node BLACK Leaf y Leaf) 1%nat). split; [done|done|done|by repeat econstructor|done|cbn; rewrite height_node; cbn; lia|by left].
Qed.

Lemma wp_cut_node st sz ctx c side ch x N (Q : unit -> rbtree -> Prop) :
  Zip st sz ctx (node c side ch x Leaf) -> rb N BLACK (plug ctx (node c side ch x Leaf)) ->
  (height (plug ctx (node c side ch x Leaf)) < length (rb_stack st))%nat ->
  (forall st' T' N', Cut st st' (plug ctx (node c side ch x Leaf)) N (before ctx ++ inorder ch ++ after ctx) T' N' -> Q tt st') ->
  wp (cut_node x sz) Q st.
Proof.
  intros Hz Hrb Hlen HQ. pose proof (z_sz _ _ _ _ Hz) as Hsz. destruct (zip_parts _ _ _ _ Hz) as (_ & Hr & _). unfold cut_node.
  apply wp_bind. eapply wp_assert_single; [exact Hr|]. apply wp_unbind2. eapply wp_only_child; [exact Hr|].
  pose proof (proj1 (proj2 (proj2 (proj1 (rep_node _ _ _ _ _ _) Hr)))) as Hch. destruct ctx as [|f ctx]; cbn [length] in Hsz.
  { rewrite (proj2 (Z.ltb_lt _ _)) by lia. eapply wp_cut_root; [exact Hr|apply (z_nodup _ _ _ _ Hz)|exact Hrb|]. cbn in HQ. by rewrite app_nil_r in HQ. }
  rewrite (proj2 (Z.ltb_ge _ _)) by lia. apply wp_bind. eapply zip_parent; [exact Hz|]. apply wp_bind. rewrite (rep_null _ _ Hch).
  assert (Hend : forall st' T' N', Rooted st st' T' -> inorder T' = before (f :: ctx) ++ inorder ch ++ after (f :: ctx) -> rb N' BLACK T' -> (N' <= N)%nat ->
    (height T' <= Nat.max (height (plug (f :: ctx) (node c side ch x Leaf))) (2 * N - 1))%nat -> wp (x ← stack_get 0; modify (with_rb_root x);; drop_stack) Q st').
  { intros st' T' N' HR El Hb HN Hh. eapply wp_finish; [apply HR|]. eapply HQ, rooted_cut; done. }
  destruct (decide (ch = Leaf)) as [->|Hl].
  - replace (node c side Leaf x Leaf) with (Node c Leaf x Leaf) in * by (by destruct side). eapply wp_cut_leaf; [exact Hz|exact Hrb|exact Hlen|]. exact Hend.
  - apply plug_rbc in Hrb as (n & k & c' & Hctx & Hn & Hk). apply rb_node_inv in Hn as Hc'. destruct Hc' as [-> _].
    destruct (single_child _ _ _ _ _ Hn Hl) as (-> & -> & y & ->). apply wp_bind.
    rewrite <-(root_addr_node BLACK side (Node RED Leaf y Leaf) x Leaf) at 1. eapply zip_side; [exact Hz|].
    apply wp_bind. eapply wp_promote; [apply Hz|apply Hz|]. intros m1 Hm1 Em1. pose proof (nodup_cut _ _ _ _ _ (z_nodup _ _ _ _ Hz)) as Hnd.
    pose proof (proj2 (proj1 (rep_plug _ _ _) Hm1)) as Hch1.
    apply rep_node in Hr as (Ex & [Hx0 Hx] & _).
    assert (Hcell : exists l r, m1 !! x = Some (rbn BLACK l r) /\ ptr_ok l).
    { rewrite Em1, Ex. apply rep_ptr in Hch. destruct side; cbn; eauto. }
    destruct Hcell as (lx & rx & Ex1 & Hpx). apply wp_bind. eapply wp_is_red; [exact Ex1|done|done|].
    cbn [black negb]. apply wp_bind. apply (wp_root_red (Node RED Leaf y Leaf)); [exact Hch1|done|]. cbn [root_color black negb].
    apply (wp_paint _ (f :: ctx) (Node RED Leaf y Leaf)); [exact Hm1|exact Hnd|done|]. intros m2 Hm2. cbn [paint] in Hm2.
    apply (Hend _ (plug (f :: ctx) (Node BLACK Leaf y Leaf)) N).
    + apply hole_rooted; [done|exact Hm2|]. pose proof (z_stack _ _ _ _ Hz) as Hst. by apply on_stack_prefix in Hst.
    + by rewrite inorder_plug_split.
    + eapply rbc_plug; [exact Hctx|by repeat econstructor|done].
    + done.
    + etrans; [|apply Nat.le_max_l]. apply height_plug_le. rewrite height_node. cbn. lia.
Qed.

End Remove.

(** ** The whole operation *)

(** A tree without its addresses: what the colour rules see. *)
Fixpoint shape (t : tree) : tree := match t with Leaf => Leaf | Node c l _ r => Node c (shape l) 0 (shape r) end.
Definition fshape (f : frame) : frame := mk_frame (f_side f) (f_color f) 0 (shape (f_sib f)).

Lemma shape_plug ctx t : shape (plug ctx t) = plug (fshape <$> ctx) (shape t).
Proof.
  revert t. induction ctx as [|f ctx IH]; intros t; [done|]. cbn [plug fmap list_fmap]. rewrite IH. f_equal. unfold node. cbn. by destruct (f_side f).
Qed.

Lemma rb_shape t : forall t' n c, shape t = shape t' -> rb n c t -> rb n c t'.
Proof.
  induction t as [|c l IHl a r IHr]; intros [|c' l' a' r'] n k E R; try done. cbn in E. injection E as <- El Er.
  inversion R; subst; econstructor; eauto.
Qed.

Lemma height_shape t : height (shape t) = height t.
Proof. induction t as [|c l IHl a r IHr]; cbn; [done|]. by rewrite IHl, IHr. Qed.

Lemma before_app ctx1 ctx2 : before (ctx1 ++ ctx2) = before ctx2 ++ before ctx1.
Proof. induction ctx1 as [|f ctx1 IH]; cbn; [by rewrite app_nil_r|]. by rewrite IH, <-app_assoc. Qed.

Lemma after_app ctx1 ctx2 : after (ctx1 ++ ctx2) = after ctx1 ++ after ctx2.
Proof. induction ctx1 as [|f ctx1 IH]; cbn; [done|]. by rewrite IH, app_assoc. Qed.

Section RemoveOp.
Context `{Config} (lessthan_fn : Z -> Z -> bool) `{!LessThan lessthan_fn}.
Implicit Types (st : rbtree).

Lemma cut_tree st0 st1 st' T T1 N l1 x l2 T' N' :
  Tree lessthan_fn st0 T N -> inorder T = l1 ++ x :: l2 -> (height T1 <= height T)%nat -> rb_max_depth st1 = rb_max_depth st0 ->
  Cut st1 st' T1 N (l1 ++ l2) T' N' -> Tree lessthan_fn st' T' N'.
Proof.
  intros HT E Hh Hd [Hr Hroot Hl Hrb HN Hh' Hdep]. pose proof (t_sorted _ _ _ _ HT) as Hs. pose proof (t_depth _ _ _ _ HT). pose proof (t_black _ _ _ _ HT).
  split; [done|done| |done| |].
  - rewrite Hl. rewrite E in Hs. apply sorted_app in Hs as (Hs1 & Hs2 & Hs3). inversion Hs2; subst. apply sorted_app. split; [done|]. split; [done|].
    intros a b Ha Hb. apply Hs3; [done|]. apply elem_of_cons. by right.
  - destruct Hdep as [->|[-> ->]]; [lia|done].
  - destruct Hdep as [->|[-> ->]]; [lia|]. inversion Hrb; subst. lia.
Qed.

Lemma cut_depth st0 st1 st' T T1 N N1 l T' N' :
  Tree lessthan_fn st0 T N -> Cut st1 st' T1 N1 l T' N' -> rb_max_depth st1 = rb_max_depth st0 -> rb_max_depth st' <= rb_max_depth st0.
Proof. intros HT [_ _ _ _ _ _ Hd] E. pose proof (t_depth _ _ _ _ HT). destruct Hd as [->|[_ ->]]; lia. Qed.

(** A node with two children. *)
Lemma wp_remove_two st0 st T N sz ctx c l x r (Q : unit -> rbtree -> Prop) :
  Tree lessthan_fn st0 T N -> T = plug ctx (Node c l x r) -> Zip st sz ctx (Node c l x r) -> l <> Leaf ->
  rb_max_depth st = rb_max_depth st0 -> (height T < length (rb_stack st))%nat ->
  (forall st' T' N', Tree lessthan_fn st' T' N' -> inorder T' = (before ctx ++ inorder l) ++ inorder r ++ after ctx -> rb_max_depth st' <= rb_max_depth st0 -> Q tt st') ->
  wp (stacksz ← swap_with_biggest x sz; cut_node x stacksz) Q st.
Proof.
  intros HT E Hz Hl Hd Hlen HQ. apply wp_bind. eapply wp_swap_with_biggest; [exact Hz|done|by rewrite <-E|].
  intros ctx2 c2 l2 b sz' st' El Eaf [Hd' Hlen'] Hz'. set (ctx' := ctx2 ++ mk_frame false c b r :: ctx) in *.
  assert (Esh : shape T = shape (plug ctx' (Node c2 l2 x Leaf))).
  { subst ctx'. rewrite E, El, plug_app. cbn [plug]. unfold node. cbn [f_side f_color f_addr f_sib]. rewrite !(shape_plug ctx). cbn. by rewrite !(shape_plug ctx2). }
  assert (Hh : height (plug ctx' (Node c2 l2 x Leaf)) = height T) by (by rewrite <-!(height_shape (plug _ _)), <-Esh, height_shape).
  eapply (wp_cut_node _ _ ctx' c2 false l2); [exact Hz'|eapply rb_shape; [exact Esh|apply HT]|cbn [node]; lia|]. intros st2 T' N' HC. cbn [node] in HC.
  assert (Eseq : before ctx' ++ inorder l2 ++ after ctx' = (before ctx ++ inorder l) ++ inorder r ++ after ctx).
  { subst ctx'. rewrite before_app, after_app, Eaf, El, inorder_plug_split, Eaf. cbn. rewrite ?app_nil_r, <-!app_assoc. cbn. done. }
  rewrite Eseq in HC. eapply (HQ _ T' N'); [|apply HC|apply (cut_depth _ _ _ _ _ _ _ _ _ _ HT HC); congruence]. eapply (cut_tree st0 st' _ T); [done| | | |exact HC]; [|lia|congruence].
  rewrite E, inorder_plug_split. cbn. by rewrite <-!app_assoc.
Qed.

(** A node with at most one child. *)
Lemma wp_remove_one st0 st T N sz ctx c side ch x (Q : unit -> rbtree -> Prop) :
  Tree lessthan_fn st0 T N -> T = plug ctx (node c side ch x Leaf) -> Zip st sz ctx (node c side ch x Leaf) ->
  rb_max_depth st = rb_max_depth st0 -> (height T < length (rb_stack st))%nat ->
  (forall st' T' N', Tree lessthan_fn st' T' N' -> inorder T' = before ctx ++ inorder ch ++ after ctx -> rb_max_depth st' <= rb_max_depth st0 -> Q tt st') ->
  wp (cut_node x sz) Q st.
Proof.
  intros HT E Hz Hd Hlen HQ. pose proof (t_rb _ _ _ _ HT) as Hrb. rewrite E in Hrb. eapply wp_cut_node; [exact Hz|exact Hrb|by rewrite <-E|].
  intros st' T' N' HC. rewrite <-E in HC. eapply (HQ _ T' N'); [|apply HC|by apply (cut_depth _ _ _ _ _ _ _ _ _ _ HT HC)]. destruct side; cbn [node] in *.
  - eapply (cut_tree st0 st _ T T N (before ctx) x (inorder ch ++ after ctx)); [done| |done|done|exact HC]. by rewrite E, inorder_plug_split.
  - eapply (cut_tree st0 st _ T T N (before ctx ++ inorder ch) x (after ctx)); [done| |done|done|by rewrite <-app_assoc]. by rewrite E, inorder_plug_split; cbn; rewrite <-!app_assoc.
Qed.

Lemma filter_notin (x : Z) (l : list Z) : x ∉ l -> filter (fun a => a <> x) l = l.
Proof.
  induction l as [|a l IH]; intros Hn; [done|]. rewrite elem_of_cons in Hn. rewrite filter_cons_True by (intros ->; tauto). f_equal. tauto.
Qed.

Lemma filter_out (x : Z) (l1 l2 : list Z) : NoDup (l1 ++ x :: l2) -> filter (fun a => a <> x) (l1 ++ x :: l2) = l1 ++ l2.
Proof.
  intros Hn. rewrite NoDup_app, NoDup_cons in Hn. destruct Hn as (_ & Hd & Hx & _). rewrite filter_app, filter_cons_False by tauto.
  rewrite !filter_notin; [done|done|]. intros Hin. apply (Hd x Hin). apply elem_of_cons. by left.
Qed.

(** Found: the node has two children, or at most one. *)
Lemma wp_remove_found st0 st T N sz ctx c l x r :
  Tree lessthan_fn st0 T N -> T = plug ctx (Node c l x r) -> Zip st sz ctx (Node c l x r) ->
  rb_max_depth st = rb_max_depth st0 -> (height T < length (rb_stack st))%nat ->
  wp (c0 ← get_child x false; c1 ← (if c0 =? 0 then mret 0 else get_child x true);
      stacksz ← (if negb (c0 =? 0) && negb (c1 =? 0) then swap_with_biggest x sz else mret sz); cut_node x stacksz)
     (fun _ st' => (exists T' N', Tree lessthan_fn st' T' N' /\ inorder T' = filter (fun a => a <> x) (inorder T)) /\ rb_max_depth st' <= rb_max_depth st0) st.
Proof.
  intros HT E Hz Hd Hlen. pose proof (tree_nodup _ _ _ _ HT) as Hnd. rewrite E, inorder_plug_split in Hnd. cbn in Hnd.
  assert (Efil : filter (fun a => a <> x) (inorder T) = (before ctx ++ inorder l) ++ inorder r ++ after ctx).
  { rewrite E, inorder_plug_split. cbn. rewrite <-app_assoc in *. cbn in *. rewrite app_assoc in *. by apply filter_out. }
  rewrite Efil. destruct (zip_parts _ _ _ _ Hz) as (_ & Hr & _). pose proof Hr as (_ & _ & Hrl & Hrr).
  apply wp_bind. apply (wp_get_sub (Node c l x r)); [done|done|]. cbn [sub]. rewrite (rep_null _ _ Hrl). destruct (decide (l = Leaf)) as [->|Hl].
  - apply wp_bind, wp_ret. cbn [negb andb]. apply wp_bind, wp_ret. eapply (wp_remove_one st0 st T N sz ctx c true r); [done|done|done|done|done|].
    intros st' T' N' HT' E' Hd'. split; [|done]. exists T', N'. split; [done|]. by rewrite E', app_nil_r.
  - replace (match l with Leaf => true | _ => false end) with false by (by destruct l). apply wp_bind. apply (wp_get_sub (Node c l x r)); [done|done|]. cbn [sub].
    rewrite (rep_null _ _ Hrr). cbn [negb andb]. destruct (decide (r = Leaf)) as [->|Hr'].
    + cbn [negb]. apply wp_bind, wp_ret. eapply (wp_remove_one st0 st T N sz ctx c false l); [done|done|done|done|done|].
      intros st' T' N' HT' E' Hd'. split; [|done]. exists T', N'. split; [done|]. by rewrite E', app_assoc.
    + replace (negb match r with Leaf => true | _ => false end) with true by (by destruct r).
      eapply (wp_remove_two st0 st T N sz ctx c l x r); [done|done|done|done|done|done|]. intros st' T' N' HT' E' Hd'. split; [|done]. by exists T', N'.
Qed.

Lemma wp_rb_remove st T N x :
  Tree lessthan_fn st T N -> T <> Leaf ->
  wp (rb_remove lessthan_fn x)
     (fun _ st' => (exists T' N', Tree lessthan_fn st' T' N' /\ inorder T' = filter (fun a => a <> x) (inorder T)) /\ rb_max_depth st' <= rb_max_depth st) st.
Proof.
  intros HT Hl. unfold rb_remove. apply wp_bind, wp_modify. fold (fresh st). destruct (descend lessthan_fn x [] T) as [ctx t] eqn:Ed.
  pose proof (plug_descend _ _ _ _ _ _ Ed) as Ep. cbn in Ep. pose proof (descend_member _ _ _ _ _ (t_sorted _ _ _ _ HT) Ed) as Hmem.
  apply wp_bind. eapply (wp_find lessthan_fn st T N x); [done|done|exact Ed|]. intros sz st1 Hs1 En1 Hf.
  assert (Hd1 : rb_max_depth st1 = rb_max_depth st) by (by destruct Hs1 as [_ -> _]).
  assert (Hl1 : length (rb_stack st1) = Z.to_nat (rb_max_depth st + 1)) by (destruct Hs1 as [_ _ ->]; cbn; by rewrite length_replicate).
  pose proof (t_depth _ _ _ _ HT) as Htd. apply wp_bind. destruct (descend_found _ _ _ _ _ _ Ed) as [->|[Ex Hx]].
  - destruct (descend_side _ _ _ _ _ Ed Hl) as (f & c & -> & _). cbn in Hf. eapply zip_top; [exact Hf|]. rewrite root_addr_node.
    assert (Hni : x ∉ inorder T) by (intros Hin; by apply Hmem).
    rewrite (proj2 (Z.eqb_neq _ _)). 2: { intros ->. apply Hni. rewrite <-Ep. cbn [plug]. apply in_plug. left. apply in_node. by left. }
    apply wp_modify. split; [|cbn; lia]. exists T, N. split; [|by rewrite filter_notin]. destruct HT as [Ha Hb Hc He Hg Hi]. split; cbn; rewrite ?En1, ?Hd1; try done.
    destruct Hs1 as [-> _ _]. done.
  - destruct t as [|c l a r]; [done|]. cbn in Ex. subst a. cbn in Hf. eapply zip_top; [exact Hf|]. cbn [root_addr]. rewrite Z.eqb_refl. cbn [negb].
    eapply wp_remove_found; [done|by rewrite Ep|exact Hf|done|lia].
Qed.

End RemoveOp.
