(* ===== verification/RbSet.v ===== *)
(** * Red/black trees: enumeration, and the ordered set they implement

    [rb_get_min], [rb_get_max], [rb_walk] and [RB_FOR_EACH] report the nodes in the order of
    [lessthan_fn].  An abstract tree is a finite set of nodes; every legal sequence of
    operations on it is what the code computes, from the empty tree on. *)

From Stdlib Require Import ZArith Lia Bool List Sorted.
From stdpp Require Import base tactics numbers list sorting gmap fin_sets.
From S2P Require Import Prelude Partial RbTree RbFun RbMem RbOps RbTheorems RbRemove.

Local Open Scope Z_scope.

Section Enumerate.
Context `{Config}.
Implicit Types (st : rbtree).

(** ** The ends of the order *)

Definition end_of (side : bool) (l : list Z) : Z := default 0 (if side then last l else head l).

Lemma end_of_node c (side : bool) l a r :
  end_of side (inorder (Node c l a r)) = if decide (sub side (Node c l a r) = Leaf) then a else end_of side (inorder (sub side (Node c l a r))).
Proof.
  unfold end_of. destruct side; cbn [sub inorder].
  - rewrite last_app_cons. destruct (decide (r = Leaf)) as [->|Hr]; [done|]. rewrite last_cons.
    destruct r as [|cr lr ar rr]; [done|]. cbn [inorder]. rewrite last_app_cons, last_cons. by destruct (last (inorder rr)).
  - destruct (decide (l = Leaf)) as [->|Hl]; [done|]. destruct l as [|cl ll al rl]; [done|]. cbn. by destruct (inorder ll).
Qed.

Lemma wp_minmax_loop (side : bool) t : forall fuel st, rep (rb_nodes st) t -> (height t < fuel)%nat ->
  wp (minmax_loop fuel (root_addr t) side) (fun n st' => st' = st /\ n = end_of side (inorder t)) st.
Proof.
  induction t as [|c l IHl a r IHr]; intros fuel st Hr Hf; (destruct fuel as [|fuel]; [lia|]); cbn [minmax_loop].
  { apply wp_ret. split; [done|]. by destruct side. }
  rewrite (rep_null _ _ Hr). pose proof (rep_sub _ side _ Hr) as Hs. apply wp_bind, wp_get_sub; [done|done|]. rewrite (rep_null _ _ Hs), end_of_node.
  destruct (decide (sub side (Node c l a r) = Leaf)) as [->|Hl]; [by apply wp_ret|].
  replace (match sub side (Node c l a r) with Leaf => true | _ => false end) with false by (by destruct (sub side (Node c l a r))).
  apply wp_bind, wp_get_sub; [done|done|]. cbn [height] in Hf. destruct side; cbn [sub] in *; [apply IHr|apply IHl]; (done || lia).
Qed.

(** ** The recursive walk *)

Section Walk.
Context {C : Type} (visit : Z -> C -> RBM C) (g : Z -> C -> C).

Lemma wp_walk_of t : forall fuel st c0, rep (rb_nodes st) t -> (height t < fuel)%nat ->
  (forall n c, n ∈ inorder t -> visit n c st = Done (g n c) st) ->
  wp (rb_walk_of visit fuel (root_addr t) c0) (fun c st' => st' = st /\ c = foldl (fun c n => g n c) c0 (inorder t)) st.
Proof.
  induction t as [|c l IHl a r IHr]; intros fuel st c0 Hr Hf Hv; (destruct fuel as [|fuel]; [lia|]); cbn [rb_walk_of]; [by apply wp_ret|].
  rewrite (rep_null _ _ Hr). pose proof Hr as (_ & _ & Hrl & Hrr). cbn [height] in Hf.
  assert (Hin : forall n, n ∈ inorder (Node c l a r) <-> n ∈ inorder l \/ n = a \/ n ∈ inorder r) by (intros; cbn; by rewrite elem_of_app, elem_of_cons).
  apply wp_bind, wp_get_sub; [done|done|]. cbn [sub]. apply wp_bind. eapply wp_mono.
  { apply IHl; [done|lia|]. intros n k Hn. apply Hv, Hin. by left. }
  intros ? ? [-> ->]. apply wp_bind. unfold wp at 1. rewrite Hv by (apply Hin; right; by left).
  apply wp_bind, wp_get_sub; [done|done|]. cbn [sub]. eapply wp_mono.
  { apply IHr; [done|lia|]. intros n k Hn. apply Hv, Hin. right. by right. }
  intros ? ? [-> ->]. split; [done|]. cbn [inorder]. by rewrite foldl_app.
Qed.

End Walk.

(** ** The iterator *)

Definition holds (l : list Z) (arr : list (option Z)) : Prop := forall i x, l !! i = Some x -> arr !! i = Some (Some x).

Lemma holds_get l arr i x : holds l arr -> 0 <= i -> l !! Z.to_nat i = Some x -> array_get arr i = Some x.
Proof. intros Hh Hi E. unfold array_get. rewrite (proj2 (Z.ltb_ge _ _)) by lia. by rewrite (Hh _ _ E). Qed.

Lemma holds_push l arr i x :
  holds l arr -> i = Z.of_nat (length l) -> (length l < length arr)%nat ->
  array_set arr i x = Some (<[length l := Some x]> arr) /\ holds (l ++ [x]) (<[length l := Some x]> arr).
Proof.
  intros Hh -> Hl. unfold array_set. rewrite (proj2 (Z.ltb_ge _ _)) by lia. rewrite Nat2Z.id, (proj2 (Nat.ltb_lt _ _)) by done. split; [done|].
  intros k y E. apply lookup_app_Some in E as [E|[Hk E]].
  - rewrite list_lookup_insert_ne; [by apply Hh|]. apply lookup_lt_Some in E. lia.
  - apply list_lookup_singleton_Some in E as [E <-]. replace k with (length l) by lia. by apply list_lookup_insert_eq.
Qed.

Lemma holds_prefix l l' arr : holds (l ++ l') arr -> holds l arr.
Proof. intros Hh i x E. apply Hh. by apply lookup_app_l_Some. Qed.

(** [is_left] along a path. *)
Fixpoint flags (ctx : list frame) : list Z :=
  match ctx with [] => [0] | f :: ctx => flags ctx ++ [if f_side f then 0 else 1] end.

Lemma length_flags ctx : length (flags ctx) = S (length ctx).
Proof. induction ctx as [|f ctx IH]; cbn; [done|]. rewrite length_app, IH. cbn. lia. Qed.

Lemma flags_last f ctx : flags (f :: ctx) !! S (length ctx) = Some (if f_side f then 0 else 1).
Proof. cbn. rewrite lookup_app_r by (rewrite length_flags; lia). rewrite length_flags. by rewrite Nat.sub_diag. Qed.

(** The iterator stands on the node [p] at the end of the path [ctx]; its arrays have [cap] entries. *)
Record Iter (cap : nat) (f : rb_foreach) (ctx : list frame) (p : Z) : Prop := {
  it_top : fe_top f = Z.of_nat (length ctx);
  it_path : holds (path ctx p) (fe_stack f);
  it_flags : holds (flags ctx) (fe_is_left f);
  it_stack : length (fe_stack f) = cap;
  it_left : length (fe_is_left f) = cap;
}.

Lemma iter_cur cap f ctx p : Iter cap f ctx p -> array_get (fe_stack f) (fe_top f) = Some p.
Proof. intros [Et Hp _ _ _]. eapply holds_get; [done|lia|]. rewrite Et, Nat2Z.id. apply path_last. Qed.

Lemma iter_up cap f g ctx p : Iter cap f (g :: ctx) p -> Iter cap (with_fe_top (fe_top f - 1) f) ctx (f_addr g).
Proof.
  intros [Et Hp Hf Hs Hl]. split; cbn in *; [lia|by apply holds_prefix in Hp|by apply holds_prefix in Hf|done|done].
Qed.

Lemma wp_push cap f ctx p n (side : bool) c s (Q : rb_foreach -> rbtree -> Prop) st :
  Iter cap f ctx p -> (S (length ctx) < cap)%nat ->
  (forall f', Iter cap f' (mk_frame side c p s :: ctx) n -> Q f' st) -> wp (fe_push n (if side then 0 else 1) f) Q st.
Proof.
  intros [Et Hp Hf Hs Hl] Hlen HQ. unfold fe_push.
  destruct (holds_push (path ctx p) (fe_stack f) (fe_top f + 1) n) as [E1 H1]; [done|rewrite length_path; lia|rewrite length_path; lia|].
  destruct (holds_push (flags ctx) (fe_is_left f) (fe_top f + 1) (if side then 0 else 1)) as [E2 H2]; [done|rewrite length_flags; lia|rewrite length_flags; lia|].
  apply wp_bind. eapply wp_ofopt; [exact E1|]. apply wp_bind. eapply wp_ofopt; [exact E2|]. apply wp_ret. apply HQ.
  split; cbn; [rewrite Et; lia|done|done|by rewrite length_insert|by rewrite length_insert].
Qed.

(** The leftmost node of a subtree. *)
Fixpoint leftmost (ctx : list frame) (t : tree) : list frame * tree :=
  match t with
  | Leaf => (ctx, Leaf)
  | Node c l a r => match l with Leaf => (ctx, t) | _ => leftmost (mk_frame false c a r :: ctx) l end
  end.

Lemma leftmost_spec t : forall ctx ctx' t', leftmost ctx t = (ctx', t') -> t <> Leaf ->
  plug ctx' t' = plug ctx t /\ exists c a r, t' = Node c Leaf a r /\ inorder t ++ after ctx = a :: inorder r ++ after ctx'.
Proof.
  induction t as [|c l IHl a r _]; intros ctx ctx' t' E Hl; [done|]. cbn in E. destruct l as [|cl ll al rl] eqn:El.
  - injection E as <- <-. split; [done|]. by exists c, a, r.
  - rewrite <-El in *. destruct (IHl _ _ _ E) as (E1 & c1 & a1 & r1 & -> & E2); [by rewrite El|]. split; [by rewrite E1|].
    exists c1, a1, r1. split; [done|]. rewrite <-E2. cbn. by rewrite <-app_assoc.
Qed.

Lemma wp_limb_loop cap t : forall fuel st f ctx ctx' t',
  Iter cap f ctx (root_addr t) -> rep (rb_nodes st) t -> t <> Leaf -> leftmost ctx t = (ctx', t') ->
  (length ctx + height t <= cap)%nat -> (height t < fuel)%nat ->
  wp (limb_loop fuel (root_addr t) f) (fun f' st' => st' = st /\ Iter cap f' ctx' (root_addr t')) st.
Proof.
  induction t as [|c l IHl a r _]; intros fuel st f ctx ctx' t' Hi Hr Hl E Hlen Hf; [done|]. destruct fuel as [|fuel]; [lia|]. cbn [limb_loop].
  pose proof Hr as (_ & _ & Hrl & _). apply wp_bind, wp_get_sub; [done|done|]. cbn [sub]. rewrite (rep_null _ _ Hrl). cbn [leftmost height] in *.
  destruct l as [|cl ll al rl] eqn:El; cbn [negb].
  - injection E as <- <-. by apply wp_ret.
  - rewrite <-El in *. assert (Hh : (1 <= height l)%nat) by (rewrite El; cbn; lia). apply wp_bind.
    eapply (wp_push _ _ _ _ _ false c r); [exact Hi|lia|]. intros f' Hi'. eapply IHl; [exact Hi'|done|by rewrite El|exact E|cbn; lia|lia].
Qed.

(** The node that an iterator without right subtree goes to. *)
Fixpoint climb (ctx : list frame) : list frame :=
  match ctx with [] => [] | g :: ctx' => if f_side g then climb ctx' else ctx end.

Lemma after_climb ctx : after (climb ctx) = after ctx.
Proof. induction ctx as [|g ctx IH]; [done|]. cbn. destruct (f_side g) eqn:E; [done|]. cbn. by rewrite E. Qed.

Lemma climb_head ctx g ctx' : climb ctx = g :: ctx' -> f_side g = false.
Proof. induction ctx as [|h ctx IH]; [done|]. cbn. destruct (f_side h) eqn:E; [done|]. by intros [= <- _]. Qed.

Lemma plug_climb ctx t : exists t', plug ctx t = plug (climb ctx) t'.
Proof. revert t. induction ctx as [|g ctx IH]; intros t; [by exists t|]. cbn [climb]. destruct (f_side g); [apply IH|by exists t]. Qed.

Lemma wp_climb_loop cap ctx : forall fuel st f p, Iter cap f ctx p -> (length ctx < fuel)%nat ->
  wp (climb_loop fuel f) (fun f' st' => st' = st /\ exists p', Iter cap f' (climb ctx) p') st.
Proof.
  induction ctx as [|g ctx IH]; intros fuel st f p Hi Hf; (destruct fuel as [|fuel]; [cbn in *; lia|]); cbn [climb_loop]; pose proof (it_top _ _ _ _ Hi) as Et; cbn in Et.
  - rewrite Et. apply wp_ret. split; [done|]. by exists p.
  - rewrite (proj2 (Z.ltb_lt _ _)) by lia. apply wp_bind. eapply wp_ofopt.
    { eapply holds_get; [apply Hi|lia|]. replace (Z.to_nat (fe_top f)) with (S (length ctx)) by lia. apply flags_last. }
    cbn [climb]. destruct (f_side g); cbn [Z.eqb].
    + eapply IH; [by eapply iter_up|cbn in *; lia].
    + apply wp_ret. split; [done|]. by exists p.
Qed.

(** Where the iterator stands, and what is still to come. *)
Definition at_node (cap : nat) (T : tree) (f : rb_foreach) (y : Z) (rest : list Z) : Prop :=
  exists ctx c l r, Iter cap f ctx y /\ plug ctx (Node c l y r) = T /\ rest = inorder r ++ after ctx.

Definition stepped (cap : nat) (T : tree) (todo : list Z) (res : Z * rb_foreach) : Prop :=
  match todo with [] => res.1 = 0 | y :: rest => res.1 = y /\ at_node cap T res.2 y rest end.

Lemma wp_left_limb cap T st f ctx t :
  rep (rb_nodes st) T -> NoDup (inorder T) -> t <> Leaf -> plug ctx t = T -> (height T <= cap)%nat ->
  (forall (Q : rb_foreach -> rbtree -> Prop), (forall f', Iter cap f' ctx (root_addr t) -> Q f' st) -> wp (fe_push (root_addr t) 0 f) Q st) ->
  wp (stack_left_limb (root_addr t) f) (fun res st' => st' = st /\ stepped cap T (inorder t ++ after ctx) res) st.
Proof.
  intros HrT Hnd Hl E Hcap Hpush. unfold stack_left_limb. apply wp_bind, Hpush. intros f1 Hi1. apply wp_bind, wp_get.
  assert (Hr : rep (rb_nodes st) t) by (subst T; by apply rep_plug in HrT as [_ ?]). pose proof (rep_size _ _ HrT Hnd) as Hsz.
  assert (Hh : (length ctx + height t <= height T)%nat) by (rewrite <-E, height_plug; lia).
  destruct (leftmost ctx t) as [ctx' t'] eqn:El. destruct (leftmost_spec _ _ _ _ El Hl) as (Ep & c & a & r & -> & Eo).
  apply wp_bind. eapply wp_mono; [eapply wp_limb_loop; [exact Hi1|done|done|exact El|lia|lia]|]. intros f2 st' [-> Hi2].
  apply wp_bind. eapply wp_ofopt; [by eapply iter_cur|]. apply wp_ret. split; [done|]. rewrite Eo. split; [done|]. cbn.
  exists ctx', c, Leaf, r. split; [exact Hi2|]. split; [by rewrite Ep|done].
Qed.

Context (st : rbtree) (T : tree) (cap : nat).
Hypothesis (HrT : rep (rb_nodes st) T) (HndT : NoDup (inorder T)) (Hroot : rb_root st = root_addr T) (Hcap : (height T <= cap)%nat).

Lemma root_not_null : T <> Leaf -> (rb_root st =? 0) = false.
Proof. intros Hl. rewrite Hroot, (rep_null _ _ HrT). by destruct T. Qed.

Lemma wp_foreach_next f y rest : at_node cap T f y rest ->
  wp (rb_foreach_next f) (fun res st' => st' = st /\ stepped cap T rest res) st.
Proof.
  intros (ctx & c & l & r & Hi & Ep & ->). unfold rb_foreach_next. apply wp_bind, wp_get. pose proof (it_top _ _ _ _ Hi) as Et.
  assert (Hl : T <> Leaf) by (intros E; rewrite E in Ep; pose proof (f_equal inorder Ep) as Eo; rewrite inorder_plug_split in Eo; cbn in Eo; destruct (before ctx), (inorder l); done).
  rewrite root_not_null by done. rewrite (proj2 (Z.eqb_neq _ _)) by lia. apply wp_bind. eapply wp_ofopt; [by eapply iter_cur|].
  assert (Hr : rep (rb_nodes st) (Node c l y r)) by (pose proof HrT as HrT'; rewrite <-Ep in HrT'; by apply rep_plug in HrT' as [_ ?]). pose proof Hr as (_ & _ & _ & Hrr).
  apply wp_bind. apply (wp_get_sub (Node c l y r)); [done|done|]. cbn [sub]. rewrite (rep_null _ _ Hrr). destruct (decide (r = Leaf)) as [->|Hrl]; cbn [negb].
  - cbn [inorder app]. destruct ctx as [|g ctx].
    + apply wp_bind. eapply wp_ofopt; [eapply (holds_get [0]); [apply Hi|lia|by rewrite Et]|]. cbn [negb Z.eqb]. rewrite Et.
      apply wp_bind. cbn [length climb_loop Z.to_nat Z.of_nat]. rewrite Et. apply wp_ret.
      cbn [fe_top with_fe_top]. rewrite Et. by apply wp_ret.
    + apply wp_bind. eapply wp_ofopt; [eapply holds_get; [apply Hi|lia|]; rewrite Et, Nat2Z.id; apply flags_last|].
      destruct (f_side g) eqn:Eg; cbn [negb Z.eqb].
      * apply wp_bind. eapply wp_mono; [eapply wp_climb_loop; [exact Hi|rewrite Et, Nat2Z.id; lia]|]. intros f' st' [-> [p' Hi']].
        rewrite <-after_climb. destruct (plug_climb (g :: ctx) (Node c l y Leaf)) as [t' Et']. rewrite Ep in Et'.
        destruct (climb (g :: ctx)) as [|h ctx'] eqn:Ec; pose proof (it_top _ _ _ _ Hi') as Et2; cbn [length] in Et2; cbn [fe_top with_fe_top].
        { rewrite (proj2 (Z.leb_gt _ _)) by lia. by apply wp_ret. }
        rewrite (proj2 (Z.leb_le _ _)) by lia. pose proof (climb_head _ _ _ Ec) as Eh. pose proof (iter_up _ _ _ _ _ Hi') as Hi2.
        apply wp_bind. eapply wp_ofopt; [exact (iter_cur _ _ _ _ Hi2)|]. apply wp_ret. split; [done|]. cbn [after]. rewrite Eh. cbn. split; [done|].
        exists ctx', (f_color h), t', (f_sib h). split; [exact Hi2|]. split; [|done]. rewrite Et'. cbn [plug]. unfold node. by rewrite Eh.
      * pose proof (iter_up _ _ _ _ _ Hi) as Hi2. apply wp_bind. eapply wp_ofopt; [exact (iter_cur _ _ _ _ Hi2)|]. apply wp_ret. split; [done|].
        cbn [after]. rewrite Eg. cbn. split; [done|]. exists ctx, (f_color g), (Node c l y Leaf), (f_sib g). split; [exact Hi2|]. split; [|done].
        rewrite <-Ep. cbn [plug]. unfold node. by rewrite Eg.
  - replace (negb match r with Leaf => true | _ => false end) with true by (by destruct r).
    assert (Hroom : (S (length ctx) < cap)%nat).
    { pose proof Hcap as Hcap'. rewrite <-Ep, height_plug in Hcap'. cbn in Hcap'. assert (1 <= height r)%nat by (destruct r; [done|cbn; lia]). lia. }
    apply (wp_left_limb cap T st f (mk_frame true c y l :: ctx) r); [done|done|done|exact Ep|done|].
    intros Q HQ. by apply (wp_push cap f ctx y (root_addr r) true c l).
Qed.

Section Body.
Context {C : Type} (body : Z -> C -> RBM C) (g : Z -> C -> C).
Hypothesis (Hbody : forall n c, n ∈ inorder T -> body n c st = Done (g n c) st).

Lemma member_not_null n : n ∈ inorder T -> n <> 0.
Proof.
  clear Hcap Hbody HndT Hroot. revert HrT. generalize T. intros t. induction t as [|c l IHl a r IHr]; cbn; [by rewrite elem_of_nil|].
  rewrite elem_of_app, elem_of_cons. intros (_ & [Ha _] & Hl & Hr) [Hin|[->|Hin]]; [by apply IHl|done|by apply IHr].
Qed.

Lemma wp_for_each_step k f c0 todo (Q : C -> rbtree -> Prop) :
  wp (rb_foreach_next f) (fun res st' => st' = st /\ stepped cap T todo res) st -> (forall n, n ∈ todo -> n ∈ inorder T) ->
  match todo with
  | [] => Q c0 st
  | y :: rest => forall f', at_node cap T f' y rest -> wp (for_each_loop body k f' (g y c0)) Q st
  end -> wp (for_each_loop body (S k) f c0) Q st.
Proof.
  intros Hn Hin Hk. cbn [for_each_loop]. apply wp_bind. eapply wp_mono; [exact Hn|]. intros [n f'] st' [-> Hs]. destruct todo as [|y rest]; cbn in Hs.
  - subst n. by apply wp_ret.
  - destruct Hs as [-> Ha]. assert (Hy : y ∈ inorder T) by (apply Hin, elem_of_cons; by left). rewrite (proj2 (Z.eqb_neq _ _)) by (by apply member_not_null).
    apply wp_bind. unfold wp at 1. rewrite Hbody by done. by apply Hk.
Qed.

Lemma wp_for_each_loop rest : forall fuel f y c0, at_node cap T f y rest -> (length rest < fuel)%nat ->
  wp (for_each_loop body fuel f c0) (fun c st' => st' = st /\ c = foldl (fun c n => g n c) c0 rest) st.
Proof.
  induction rest as [|z rest IH]; intros fuel f y c0 Ha Hf; (destruct fuel as [|fuel]; [lia|]);
    (eapply wp_for_each_step; [by eapply wp_foreach_next| |]).
  - intros n Hn. by apply elem_of_nil in Hn.
  - done.
  - intros n Hn. destruct Ha as (ctx & c & l & r & _ & <- & E). rewrite inorder_plug_split. cbn. rewrite !elem_of_app, elem_of_cons. rewrite E, elem_of_app in Hn. tauto.
  - intros f' Ha'. eapply IH; [exact Ha'|cbn in Hf; lia].
Qed.

Lemma rep_count : (length (inorder T) <= size (rb_nodes st))%nat.
Proof.
  rewrite <-size_dom. rewrite <-(size_list_to_set (C := gset Z)) by done.
  apply subseteq_size. intros a Ha. apply elem_of_list_to_set in Ha. by apply (rep_subset _ _ HrT).
Qed.

Lemma wp_for_each c0 : cap = Z.to_nat (rb_max_depth st) ->
  wp (rb_for_each body c0) (fun c st' => st' = st /\ c = foldl (fun c n => g n c) c0 (inorder T)) st.
Proof.
  intros Ecap. unfold rb_for_each, rb_foreach_init. apply wp_bind, wp_bind, wp_get. apply wp_ret. apply wp_bind, wp_get.
  pose proof rep_count as Hc. set (f0 := mk_rb_foreach _ _ _). eapply (wp_for_each_step _ _ _ (inorder T)); [|done|].
  - unfold rb_foreach_next. apply wp_bind, wp_get. destruct (decide (T = Leaf)) as [->|Hl].
    { rewrite Hroot. cbn [root_addr Z.eqb]. apply wp_ret. done. }
    rewrite root_not_null by done. change (fe_top f0 =? -1) with true. cbn iota. rewrite Hroot.
    replace (inorder T) with (inorder T ++ after []) by apply app_nil_r. apply (wp_left_limb cap T st f0 [] T); [done|done|done|done|done|].
    intros Q HQ. assert (Hpos : (0 < cap)%nat) by (destruct T; [done|cbn in Hcap; lia]).
    assert (Hnil : forall arr, holds [] arr) by (intros arr i x E; done).
    destruct (holds_push [] (fe_stack f0) 0 (root_addr T)) as [E1 S1]; [done|done|cbn; rewrite length_replicate; lia|].
    destruct (holds_push [] (fe_is_left f0) 0 0) as [E2 S2]; [done|done|cbn; rewrite length_replicate; lia|].
    unfold fe_push. apply wp_bind. eapply wp_ofopt; [exact E1|]. apply wp_bind. eapply wp_ofopt; [exact E2|]. apply wp_ret. apply HQ.
    split; cbn; [done|done|done|rewrite length_insert, length_replicate; lia|rewrite length_insert, length_replicate; lia].
  - pose proof wp_for_each_loop as Hloop. destruct (inorder T) as [|y rest] eqn:E; [done|]. intros f' Ha.
    eapply wp_mono; [eapply Hloop; [exact Ha|cbn in Hc; lia]|]. by intros ? ? [-> ->].
Qed.

End Body.

End Enumerate.

(** ** The memory of the nodes stays allocated *)

Definition same_dom (st st' : rbtree) : Prop := dom (rb_nodes st') = dom (rb_nodes st).

#[export] Instance same_dom_preorder : PreOrder same_dom.
Proof. split; [done|]. intros s1 s2 s3 H1 H2. unfold same_dom in *. congruence. Qed.

Section Dom.
Context `{Config} (lessthan_fn : Z -> Z -> bool).
Notation pd := (preserves same_dom).

Lemma dom_wr n v : pd (wr_rbnode n v).
Proof.
  intros s. unfold wr_rbnode, rd_rbnode. apply pwp_bind, pwp_bind. pwp_steps. apply pwp_ofopt. intros x E. pwp_steps.
  unfold same_dom. cbn. apply elem_of_dom_2 in E. rewrite dom_insert_L. set_solver.
Qed.

Lemma dom_modify f : (forall s, rb_nodes (f s) = rb_nodes s) -> pd (modify f).
Proof. intros Hf. apply preserves_modify. intros s. unfold same_dom. by rewrite Hf. Qed.

Lemma dom_stack_set i x : pd (stack_set i x).
Proof. unfold stack_set. frames. by apply dom_modify. Qed.

#[local] Hint Resolve dom_wr dom_stack_set : frames.
#[local] Hint Extern 1 (preserves same_dom (modify _)) => by apply dom_modify : frames.

Lemma dom_get_child n b : pd (get_child n b).
Proof. unfold get_child, rd_rbnode. frames. Qed.
Lemma dom_set_child n b v : pd (set_child n b v).
Proof. unfold set_child, rd_rbnode. frames. Qed.
Lemma dom_get_color n : pd (get_color n).
Proof. unfold get_color, rd_rbnode. frames. Qed.
Lemma dom_set_color n c : pd (set_color n c).
Proof. unfold set_color, rd_rbnode. frames. Qed.
#[local] Hint Resolve dom_get_child dom_set_child dom_get_color dom_set_color : frames.

Lemma dom_get_side p c : pd (get_side p c).
Proof. unfold get_side. frames. Qed.
#[local] Hint Resolve dom_get_side : frames.

Lemma dom_rotate sz : pd (rotate sz).
Proof. unfold rotate, stack_get. frames. Qed.
#[local] Hint Resolve dom_rotate : frames.

Lemma dom_find_loop x fuel : forall sz, pd (find_loop lessthan_fn fuel x sz).
Proof. induction fuel as [|fuel IH]; intros sz; cbn [find_loop]; unfold stack_get; frames. Qed.
#[local] Hint Resolve dom_find_loop : frames.

Lemma dom_find x : pd (find_and_stack lessthan_fn x).
Proof. unfold find_and_stack. frames. Qed.

Lemma dom_fix_extra_red fuel : forall sz, pd (fix_extra_red fuel sz).
Proof. induction fuel as [|fuel IH]; intros sz; cbn [fix_extra_red]; unfold stack_get, is_black, child_red, is_red; frames. Qed.

Lemma dom_fix_missing_black fuel null : forall sz, pd (fix_missing_black fuel sz null).
Proof.
  induction fuel as [|fuel IH]; intros sz; cbn [fix_missing_black]; unfold settle_sibling, lift_sibling, stack_get, is_black, child_black, child_red, is_red; frames.
Qed.

Lemma dom_biggest fuel : forall n sz, pd (biggest_loop fuel n sz).
Proof. induction fuel as [|fuel IH]; intros n sz; cbn [biggest_loop]; frames. Qed.

#[local] Hint Resolve dom_find dom_fix_extra_red dom_fix_missing_black dom_biggest : frames.

Lemma dom_insert x : pd (rb_insert lessthan_fn x).
Proof. unfold rb_insert, new_stack, drop_stack, stack_get, is_black. frames. Qed.

Lemma dom_swap x sz : pd (swap_with_biggest x sz).
Proof. unfold swap_with_biggest, stack_get. frames. Qed.

Lemma dom_cut x sz : pd (cut_node x sz).
Proof. unfold cut_node, drop_stack, stack_get, is_black, is_red. frames. Qed.
#[local] Hint Resolve dom_swap dom_cut : frames.

Lemma dom_remove x : pd (rb_remove lessthan_fn x).
Proof. unfold rb_remove, new_stack, drop_stack, stack_get. frames. Qed.

End Dom.

(** ** Counting *)

(** A tree with [n] black nodes per path has at least [2^n - 1] nodes. *)
Lemma rb_count n c t : rb n c t -> (2 ^ n <= length (inorder t) + 1)%nat.
Proof.
  induction 1 as [|n l a r _ IHl _ IHr|n cl cr l a r _ IHl _ IHr]; cbn [inorder]; rewrite ?length_app; cbn; [lia|lia|].
  rewrite Nat.add_0_r. lia.
Qed.

Lemma rb_log n c t : rb n c t -> (n <= Nat.log2 (length (inorder t) + 1))%nat.
Proof. intros R. apply rb_count in R. apply Nat.log2_le_pow2; lia. Qed.

(** ** The ordered set *)

Lemma log2_limit n : Z.of_nat n <= 2 ^ 29 -> (Nat.log2 n <= 29)%nat.
Proof.
  intros Hn. destruct (decide (n = 0%nat)) as [->|Hz]; [cbn; lia|]. enough (Nat.log2 n < 30)%nat by lia.
  apply Nat.log2_lt_pow2; [lia|]. apply Nat2Z.inj_lt. rewrite Nat2Z.inj_pow. lia.
Qed.

(** [MAX_RBTREE_DEPTH] with 32-bit pointers: [PBITS] is 32, [TBITS] is 2. *)
Definition MAX_RBTREE_DEPTH : Z := 2 * (32 - 2 - 1) + 1.

Inductive rb_op := Insert (x : Z) | Remove (x : Z) | Contains (x : Z) | GetMin | GetMax | Walk | ForEach.

Section OrderedSet.
Context `{Config} (lessthan_fn : Z -> Z -> bool) `{!LessThan lessthan_fn}.
Implicit Types (st : rbtree) (D M : gset Z).

Definition le_node (a b : Z) : Prop := a = b \/ lessthan_fn a b = true.
#[local] Instance le_node_dec a b : Decision (le_node a b).
Proof. unfold le_node. solve_decision. Defined.

(** The nodes of a set in the order of the tree. *)
Definition order (M : gset Z) : list Z := merge_sort le_node (elements M).

#[local] Instance le_node_trans : Transitive le_node.
Proof. intros a b c [->|Hab] [->|Hbc]; [by left|by right|by right|]. right. by eapply lt_trans. Qed.
#[local] Instance le_node_antisym : AntiSymm (=) le_node.
Proof.
  intros a b [->|Hab] [Hba|Hba]; try done. pose proof (lt_trans _ _ _ Hab Hba) as Hc. by rewrite lt_irrefl in Hc.
Qed.
#[local] Instance le_node_total : Total le_node.
Proof.
  intros a b. destruct (decide (a = b)) as [->|Hab]; [left; by left|]. destruct (lessthan_fn a b) eqn:E; [left; by right|].
  right. right. by apply lt_total.
Qed.

Lemma order_sorted l : sorted lessthan_fn l -> order (list_to_set l) = l.
Proof.
  intros Hs. pose proof (sorted_nodup lessthan_fn _ Hs) as Hnd. apply (StronglySorted_unique le_node).
  - by apply StronglySorted_merge_sort; apply _.
  - clear Hnd. induction Hs as [|a l Hs IH Hf]; constructor; [done|]. eapply Forall_impl; [exact Hf|]. intros b Hb. by right.
  - unfold order. rewrite merge_sort_Permutation. by apply elements_list_to_set.
Qed.

(** What is asked of a caller, in the abstract state: the nodes are memory of its own, a
    node is not inserted twice, nothing is removed from an empty tree. *)
Definition set_ok D M (op : rb_op) : Prop :=
  match op with
  | Insert x => x ∈ D /\ x ∉ M /\ addr_ok x
  | Remove x => M <> ∅
  | Contains x => x <> 0
  | _ => True
  end.

Definition set_step M (op : rb_op) : gset Z * list Z :=
  match op with
  | Insert x => ({[x]} ∪ M, [])
  | Remove x => (M ∖ {[x]}, [])
  | Contains x => (M, [if decide (x ∈ M) then 1 else 0])
  | GetMin => (M, [default 0 (head (order M))])
  | GetMax => (M, [default 0 (last (order M))])
  | Walk | ForEach => (M, order M)
  end.

Fixpoint set_legal D M (ops : list rb_op) : Prop :=
  match ops with [] => True | op :: ops => set_ok D M op /\ set_legal D (set_step M op).1 ops end.
#[export] Instance set_ok_dec D M op : Decision (set_ok D M op).
Proof. destruct op; cbn; unfold addr_ok, ptr_ok; apply _. Defined.
#[export] Instance set_legal_dec D ops : forall M, Decision (set_legal D M ops).
Proof. induction ops as [|op ops IH]; intros M; cbn; apply _. Defined.

Fixpoint set_run M (ops : list rb_op) : list (list Z) * gset Z :=
  match ops with
  | [] => ([], M)
  | op :: ops => let '(M', out) := set_step M op in let '(outs, M'') := set_run M' ops in (out :: outs, M'')
  end.

(** The code. *)
Definition collect (n : Z) (c : list Z) : RBM (list Z) := mret (c ++ [n]).

Definition run_op (op : rb_op) : RBM (list Z) :=
  match op with
  | Insert x => rb_insert lessthan_fn x;; mret []
  | Remove x => rb_remove lessthan_fn x;; mret []
  | Contains x => b ← rb_contains lessthan_fn x; mret [if b : bool then 1 else 0]
  | GetMin => n ← rb_get_min; mret [n]
  | GetMax => n ← rb_get_max; mret [n]
  | Walk => rb_walk collect []
  | ForEach => rb_for_each collect []
  end.

Fixpoint run_ops (ops : list rb_op) : RBM (list (list Z)) :=
  match ops with [] => mret [] | op :: ops => out ← run_op op; outs ← run_ops ops; mret (out :: outs) end.

(** The tree object holds the set [M]; [D] is the memory of nodes. *)
Record SetRep D st M : Prop := {
  sr_tree : exists T N, Tree lessthan_fn st T N /\ M = list_to_set (inorder T);
  sr_dom : dom (rb_nodes st) = D;
  sr_depth : rb_max_depth st <= 2 * Z.of_nat (Nat.log2 (size D)) + 1;
}.

Lemma wp_with_dom {A} (m : RBM A) (Q : A -> rbtree -> Prop) st :
  preserves same_dom m -> wp m Q st -> wp m (fun a st' => Q a st' /\ dom (rb_nodes st') = dom (rb_nodes st)) st.
Proof. intros Hp. specialize (Hp st). unfold wp, pwp in *. destruct (m st); [|done]. by intros HQ. Qed.

Lemma insert_depth D st T N x : Tree lessthan_fn st T N -> dom (rb_nodes st) = D -> x ∈ D -> x ∉ inorder T ->
  Z.of_nat (height T) + 1 <= 2 * Z.of_nat (Nat.log2 (size D)) + 1.
Proof.
  intros HT HD Hx Hni. pose proof (rb_height _ _ _ (t_rb _ _ _ _ HT)) as Hh. pose proof (rb_log _ _ _ (t_rb _ _ _ _ HT)) as Hn.
  cbn in Hh. enough (Nat.log2 (length (inorder T) + 1) <= Nat.log2 (size D))%nat by lia. apply Nat.log2_le_mono.
  pose proof (tree_nodup _ _ _ _ HT) as Hnd. replace (length (inorder T) + 1)%nat with (size (list_to_set (x :: inorder T) : gset Z)).
  - apply subseteq_size. intros a. rewrite elem_of_list_to_set, elem_of_cons. intros [->|Ha]; [done|]. rewrite <-HD. by eapply rep_subset; [apply HT|].
  - rewrite size_list_to_set; [cbn; lia|]. by apply NoDup_cons.
Qed.

Lemma wp_insert_op D st M x : SetRep D st M -> set_ok D M (Insert x) ->
  wp (run_op (Insert x)) (fun out st' => out = [] /\ SetRep D st' ({[x]} ∪ M)) st.
Proof.
  intros [(T & N & HT & ->) HD Hd] (HxD & HxM & Hok). rewrite elem_of_list_to_set in HxM. cbn [run_op]. apply wp_bind. eapply wp_mono.
  { eapply wp_with_dom; [apply dom_insert|]. apply (wp_rb_insert lessthan_fn st T N x); [done|done|done|]. apply elem_of_dom. by rewrite HD. }
  intros [] st' [[(T' & N' & l1 & l2 & HT' & E & E') Hd'] Hdom]. apply wp_ret. split; [done|]. pose proof (insert_depth D st T N x HT HD HxD HxM). split.
  - exists T', N'. split; [done|]. rewrite E, E'. set_solver.
  - congruence.
  - lia.
Qed.

Lemma wp_remove_op D st M x : SetRep D st M -> set_ok D M (Remove x) ->
  wp (run_op (Remove x)) (fun out st' => out = [] /\ SetRep D st' (M ∖ {[x]})) st.
Proof.
  intros [(T & N & HT & ->) HD Hd] Hne. cbn [run_op]. apply wp_bind. eapply wp_mono.
  { eapply wp_with_dom; [apply dom_remove|]. apply (wp_rb_remove lessthan_fn st T N x); [done|]. intros ->. by apply Hne. }
  intros [] st' [[(T' & N' & HT' & E) Hd'] Hdom]. apply wp_ret. split; [done|]. split; [|congruence|lia].
  exists T', N'. split; [done|]. rewrite E. apply set_eq. intros a. rewrite elem_of_list_to_set, list_elem_of_filter, elem_of_difference, elem_of_list_to_set, elem_of_singleton. tauto.
Qed.

(** The operations that only read. *)
Lemma wp_read_op D st M op : SetRep D st M -> set_ok D M op ->
  match op with Insert _ | Remove _ => True | _ => wp (run_op op) (fun out st' => out = (set_step M op).2 /\ st' = st) st end.
Proof.
  intros [(T & N & HT & ->) HD Hd] Hok. pose proof (t_rep _ _ _ _ HT) as Hr. pose proof (tree_nodup _ _ _ _ HT) as Hnd.
  pose proof (rep_size _ _ Hr Hnd) as Hsz. pose proof (t_depth _ _ _ _ HT) as Hdep.
  assert (Hfold : forall l c0, foldl (fun c n => c ++ [n]) c0 l = c0 ++ l :> list Z).
  { induction l as [|a l IH]; intros c0; cbn; [by rewrite app_nil_r|]. by rewrite IH, <-app_assoc. }
  destruct op as [x|x|x| | | |]; try done; cbn [run_op set_step snd]; rewrite ?(order_sorted _ (t_sorted _ _ _ _ HT)).
  - apply wp_bind. eapply wp_mono; [by apply (wp_rb_contains lessthan_fn st T N x)|]. intros b st' [-> ->]. apply wp_ret. split; [|done].
    do 2 f_equal. rewrite bool_decide_decide. repeat case_decide; set_solver.
  - unfold rb_get_min, rb_get_minmax. apply wp_bind, wp_bind, wp_get. rewrite (t_root _ _ _ _ HT).
    eapply wp_mono; [apply wp_minmax_loop; [done|lia]|]. intros n st' [-> ->]. by apply wp_ret.
  - unfold rb_get_max, rb_get_minmax. apply wp_bind, wp_bind, wp_get. rewrite (t_root _ _ _ _ HT).
    eapply wp_mono; [apply wp_minmax_loop; [done|lia]|]. intros n st' [-> ->]. by apply wp_ret.
  - unfold rb_walk. apply wp_bind, wp_get. rewrite (t_root _ _ _ _ HT). eapply wp_mono; [apply (wp_walk_of collect (fun n c => c ++ [n])); [done|lia|done]|].
    intros c st' [-> ->]. by rewrite Hfold.
  - eapply wp_mono; [apply (wp_for_each st T (Z.to_nat (rb_max_depth st)) Hr Hnd (t_root _ _ _ _ HT) ltac:(lia) collect (fun n c => c ++ [n])); done|].
    intros c st' [-> ->]. by rewrite Hfold.
Qed.

Lemma wp_run_op D st M op : SetRep D st M -> set_ok D M op ->
  wp (run_op op) (fun out st' => out = (set_step M op).2 /\ SetRep D st' (set_step M op).1) st.
Proof.
  intros HR Hok. pose proof (wp_read_op D st M op HR Hok) as Hread. destruct op as [x|x|x| | | |]; [by apply wp_insert_op|by apply wp_remove_op|..];
    (eapply wp_mono; [exact Hread|]; by intros out st' [-> ->]).
Qed.

Lemma wp_run_ops D ops : forall st M, SetRep D st M -> set_legal D M ops ->
  wp (run_ops ops) (fun outs st' => outs = (set_run M ops).1 /\ SetRep D st' (set_run M ops).2) st.
Proof.
  induction ops as [|op ops IH]; intros st M HR Hl; cbn [run_ops set_run set_legal] in *; [by apply wp_ret|]. destruct Hl as [Hok Hl].
  apply wp_bind. eapply wp_mono; [by eapply wp_run_op|]. intros out st' [-> HR']. apply wp_bind. eapply wp_mono; [by eapply IH|].
  intros outs st'' [-> HR'']. apply wp_ret. destruct (set_step M op) as [M' out']. cbn in *. by destruct (set_run M' ops).
Qed.

(** A tree object as it is declared: no root, depth 0; some memory of nodes. *)
Definition rb_empty (nodes : gmap Z rbnode) : rbtree := mk_rbtree nodes 0 0 [].

Lemma rb_empty_rep nodes : SetRep (dom nodes) (rb_empty nodes) ∅.
Proof. split; [|done|cbn; lia]. exists Leaf, 0%nat. split; [|done]. split; [done|done|constructor|constructor|cbn; lia|cbn; lia]. Qed.

Lemma rb_height_log D st M T N : SetRep D st M -> Tree lessthan_fn st T N -> M = list_to_set (inorder T) ->
  (height T <= 2 * Nat.log2 (size M + 1))%nat.
Proof.
  intros HR HT ->. pose proof (rb_height _ _ _ (t_rb _ _ _ _ HT)) as Hh. pose proof (rb_log _ _ _ (t_rb _ _ _ _ HT)) as Hn. cbn in Hh.
  rewrite size_list_to_set by (by eapply tree_nodup). lia.
Qed.

(** ** Theorems *)

(** C26: From an empty tree, every legal sequence of insertions, removals, membership tests,
    minimum and maximum queries, recursive walks and [RB_FOR_EACH] loops completes with the
    answers of a finite set of nodes enumerated in the order of [lessthan_fn], and leaves a
    tree that represents the resulting set: balanced, sorted, with a [max_depth] large enough
    for the next operation's array. *)
Theorem rb_refines_ordered_set nodes ops :
  set_legal (dom nodes) ∅ ops ->
  exists st', run_ops ops (rb_empty nodes) = Done (set_run ∅ ops).1 st' /\ SetRep (dom nodes) st' (set_run ∅ ops).2.
Proof.
  intros Hl. pose proof (wp_run_ops _ _ _ _ (rb_empty_rep nodes) Hl) as W. apply wp_run in W as (outs & st' & E & -> & HR). by exists st'.
Qed.

(** C27: Depth.  However the tree came about, its height is at most twice the logarithm of
    its size, and the arrays its operations allocate have at most
    [2 log2 (number of nodes in memory) + 2] entries; with the at most 2^29 eight-byte nodes
    of a 32-bit address space [max_depth] never exceeds [MAX_RBTREE_DEPTH] = 59. *)
Theorem rb_depth_bounded nodes ops outs st' :
  set_legal (dom nodes) ∅ ops -> run_ops ops (rb_empty nodes) = Done outs st' ->
  (exists T, rep (rb_nodes st') T /\ rb_root st' = root_addr T /\ (height T <= 2 * Nat.log2 (size (set_run ∅ ops).2 + 1))%nat) /\
  0 <= rb_max_depth st' <= 2 * Z.of_nat (Nat.log2 (size nodes)) + 1 /\
  (Z.of_nat (size nodes) <= 2 ^ 29 -> rb_max_depth st' <= MAX_RBTREE_DEPTH).
Proof.
  intros Hl E. pose proof (wp_run_ops _ _ _ _ (rb_empty_rep nodes) Hl) as W. unfold wp in W. rewrite E in W. destruct W as [_ HR].
  pose proof (sr_depth _ _ _ HR) as Hd. rewrite size_dom in Hd. destruct (sr_tree _ _ _ HR) as (T & N & HT & EM). split.
  { exists T. split; [apply HT|]. split; [apply HT|]. by eapply rb_height_log. }
  split; [split; [by eapply tree_depth|done]|]. intros Hn. etrans; [exact Hd|].
  apply log2_limit in Hn. unfold MAX_RBTREE_DEPTH. lia.
Qed.

(** Lemma: The recursive [rb_walk] and the iterative [RB_FOR_EACH] agree: for any visitor that
    leaves the tree as it is, both fold it over the nodes in ascending order, each once. *)
Theorem rb_walks_agree {C} (visit : Z -> C -> RBM C) (g : Z -> C -> C) c0 D st M :
  SetRep D st M -> (forall n c, n ∈ M -> visit n c st = Done (g n c) st) ->
  rb_walk visit c0 st = rb_for_each visit c0 st /\
  rb_walk visit c0 st = Done (foldl (fun c n => g n c) c0 (order M)) st.
Proof.
  intros [(T & N & HT & ->) _ _] Hv. setoid_rewrite elem_of_list_to_set in Hv. rewrite (order_sorted _ (t_sorted _ _ _ _ HT)).
  pose proof (t_rep _ _ _ _ HT) as Hr. pose proof (tree_nodup _ _ _ _ HT) as Hnd. pose proof (rep_size _ _ Hr Hnd) as Hsz. pose proof (t_depth _ _ _ _ HT) as Hdep.
  assert (E1 : rb_walk visit c0 st = Done (foldl (fun c n => g n c) c0 (inorder T)) st).
  { apply run_done. unfold rb_walk. apply wp_bind, wp_get. rewrite (t_root _ _ _ _ HT).
    eapply wp_mono; [apply (wp_walk_of visit g); [done|lia|done]|]. by intros c st' [-> ->]. }
  split; [|done]. rewrite E1. symmetry. apply run_done.
  eapply wp_mono; [apply (wp_for_each st T (Z.to_nat (rb_max_depth st)) Hr Hnd (t_root _ _ _ _ HT) ltac:(lia) visit g Hv); done|].
  by intros c st' [-> ->].
Qed.

(** Lemma: Removal from an empty tree is not a no-op: the search stores the null root and reads
    its child, in every build. *)
Theorem rb_remove_empty_faults nodes x : x <> 0 -> nodes !! 0 = None ->
  fails (rb_remove lessthan_fn x) (if CONFIG_ASSERT then AssertFailed else Fault) (rb_empty nodes).
Proof.
  intros Hx H0. unfold rb_remove. apply fails_step, wp_modify. apply fails_bind. unfold find_and_stack. apply fails_step, wp_get.
  apply fails_step, wp_stack_set; [by vm_compute|]. cbn [find_loop]. apply fails_step.
  eapply (wp_stack_get _ 0 [0]); [by intros i y [-> <-]%list_lookup_singleton_Some|lia|done|].
  rewrite (proj2 (Z.eqb_neq 0 x)) by congruence. apply fails_bind. unfold get_child, assert_, fails, mbind, ST_bind, rd_rbnode.
  destruct CONFIG_ASSERT; cbn; [done|]. unfold mbind, ST_bind, get, ofopt. cbn. by rewrite H0.
Qed.

End OrderedSet.

(** ** Examples *)

Section Examples.
#[local] Existing Instance test_config.

Definition heap9 : gmap Z rbnode := list_to_map ((fun a => (8 * Z.of_nat a, mk_rbnode 7 5)) <$> seq 1 9).
Definition ops9 : list rb_op :=
  [Insert 40; Insert 8; Insert 24; Insert 72; Insert 16; Insert 32; Insert 64; ForEach; Remove 24; Remove 5; Contains 24; GetMin; Remove 40; GetMax; Walk].

Lemma ops9_legal : set_legal k_node_lessthan (dom heap9) ∅ ops9.
Proof. apply (bool_decide_unpack _). vm_compute. exact I. Qed.

(** The answers of the code itself. *)
Example ops9_run : exists st', run_ops k_node_lessthan ops9 (rb_empty heap9) =
  Done [[]; []; []; []; []; []; []; [8; 16; 24; 32; 40; 64; 72]; []; []; [0]; [8]; []; [72]; [8; 16; 32; 64; 72]] st'.
Proof. eexists. vm_compute. reflexivity. Qed.

Lemma rb_refines_ordered_set_witness : exists st',
  run_ops k_node_lessthan ops9 (rb_empty heap9) = Done (set_run k_node_lessthan ∅ ops9).1 st' /\
  SetRep k_node_lessthan (dom heap9) st' (set_run k_node_lessthan ∅ ops9).2.
Proof. exact (rb_refines_ordered_set k_node_lessthan heap9 ops9 ops9_legal). Defined.

Definition run9 : outcome rbtree (list (list Z)) := run_ops k_node_lessthan ops9 (rb_empty heap9).
Definition tree9 : rbtree := match run9 with Done _ st => st | Fail _ => rb_empty ∅ end.

Lemma rb_depth_bounded_witness : run9 = Done (set_run k_node_lessthan ∅ ops9).1 tree9 /\ rb_max_depth tree9 <= MAX_RBTREE_DEPTH.
Proof.
  assert (E : run9 = Done (set_run k_node_lessthan ∅ ops9).1 tree9) by (vm_compute; reflexivity).
  split; [exact E|]. apply (rb_depth_bounded k_node_lessthan heap9 ops9 _ _ ops9_legal E). vm_compute. discriminate.
Defined.

Lemma tree9_rep : SetRep k_node_lessthan (dom heap9) tree9 (set_run k_node_lessthan ∅ ops9).2.
Proof.
  pose proof (wp_run_ops k_node_lessthan _ _ _ _ (rb_empty_rep k_node_lessthan heap9) ops9_legal) as W. unfold tree9, run9. unfold wp in W.
  destruct (run_ops _ _ _); [by destruct W|done].
Qed.

Definition sum_visit (n c : Z) : RBM Z := mret (c + n).

Lemma rb_walks_agree_witness : rb_for_each sum_visit 0 tree9 = Done 192 tree9.
Proof.
  pose proof (rb_walks_agree k_node_lessthan sum_visit (fun n c => c + n) 0 _ tree9 _ tree9_rep ltac:(done)) as [E1 E2].
  rewrite <-E1, E2. vm_compute. reflexivity.
Defined.

Lemma rb_remove_empty_faults_witness : fails (rb_remove k_node_lessthan 8) AssertFailed (rb_empty heap9).
Proof. exact (rb_remove_empty_faults k_node_lessthan heap9 8 ltac:(lia) ltac:(vm_compute; reflexivity)). Defined.

End Examples.
