(* ===== verification/Bytes.v ===== *)
(** * Byte-addressed memory

    The memory the utility routines work on: a finite map from addresses to bytes.  An
    access outside the map is a [Fault].  Pointers are integers; the routines do not run
    over the end of the address space.  [char] is unsigned, as in the ARM ABI. *)

From Stdlib Require Import ZArith Lia Bool List.
From stdpp Require Import base tactics numbers list gmap fin_map_dom.
From S2P Require Import Prelude.

Local Open Scope Z_scope.

Notation bmem := (gmap Z Z).
Notation BM := (ST (gmap Z Z)).

Definition ldb (a : Z) : BM Z := fun m => match m !! a with Some v => Done v m | None => Fail Fault end.
Definition stb (a v : Z) : BM unit := fun m => match m !! a with Some _ => Done tt (<[a := v]> m) | None => Fail Fault end.

(** A scan reads one new byte per round, so it ends, or faults, within the size of memory. *)
Definition scan_fuel : BM nat := gets (fun m => S (size m)).

Lemma wp_ldb a v (Q : Z -> bmem -> Prop) m : m !! a = Some v -> Q v m -> wp (ldb a) Q m.
Proof. intros E HQ. unfold wp, ldb. by rewrite E. Qed.

Lemma wp_stb a v (Q : unit -> bmem -> Prop) m : is_Some (m !! a) -> Q tt (<[a := v]> m) -> wp (stb a v) Q m.
Proof. intros [u E] HQ. unfold wp, stb. by rewrite E. Qed.

(** ** Ranges *)

(** [n] bytes from [a] on are there. *)
Definition mapped (m : bmem) (a n : Z) : Prop := forall i, 0 <= i < n -> is_Some (m !! (a + i)).

(** The bytes [bs] lie at [a]. *)
Definition holds (m : bmem) (a : Z) (bs : list Z) : Prop := forall i b, bs !! i = Some b -> m !! (a + Z.of_nat i) = Some b.

(** Memory that differs in [n] bytes from [a] on at most. *)
Definition outside (a n : Z) (m m' : bmem) : Prop := forall x, ~ a <= x < a + n -> m' !! x = m !! x.

Lemma holds_cons m a b bs : holds m a (b :: bs) <-> m !! a = Some b /\ holds m (a + 1) bs.
Proof.
  split.
  - intros Hh. split; [specialize (Hh 0%nat b eq_refl); by rewrite Z.add_0_r in Hh|]. intros i c E. specialize (Hh (S i) c E). by replace (a + 1 + Z.of_nat i) with (a + Z.of_nat (S i)) by lia.
  - intros [H0 Hh] [|i] c E; [injection E as <-; by rewrite Z.add_0_r|]. specialize (Hh i c E). by replace (a + Z.of_nat (S i)) with (a + 1 + Z.of_nat i) by lia.
Qed.

Lemma holds_nil m a : holds m a [].
Proof. intros i b E. by rewrite lookup_nil in E. Qed.

Lemma holds_app m a bs cs : holds m a (bs ++ cs) <-> holds m a bs /\ holds m (a + Z.of_nat (length bs)) cs.
Proof.
  revert a. induction bs as [|b bs IH]; intros a; cbn [app length].
  - rewrite Z.add_0_r. split; [intros; by split; [apply holds_nil|]|by intros []].
  - rewrite !holds_cons, IH. replace (a + 1 + Z.of_nat (length bs)) with (a + Z.of_nat (S (length bs))) by lia. tauto.
Qed.

Lemma holds_mapped m a bs : holds m a bs -> mapped m a (Z.of_nat (length bs)).
Proof.
  intros Hh i Hi. destruct (lookup_lt_is_Some_2 bs (Z.to_nat i)) as [b E]; [lia|]. exists b. specialize (Hh _ _ E). by rewrite Z2Nat.id in Hh by lia.
Qed.

(** Mapped bytes hold some list. *)
Lemma mapped_holds m a n : mapped m a (Z.of_nat n) -> exists bs, length bs = n /\ holds m a bs.
Proof.
  revert a. induction n as [|n IH]; intros a Hm; [exists []; split; [done|apply holds_nil]|].
  destruct (Hm 0) as [b Eb]; [lia|]. rewrite Z.add_0_r in Eb. destruct (IH (a + 1)) as (bs & El & Hh).
  { intros i Hi. replace (a + 1 + i) with (a + (1 + i)) by lia. apply Hm. lia. }
  exists (b :: bs). split; [cbn; lia|]. by apply holds_cons.
Qed.

Lemma holds_outside m m' a bs x n : holds m a bs -> outside x n m m' -> (a + Z.of_nat (length bs) <= x \/ x + n <= a) -> holds m' a bs.
Proof. intros Hh Ho Hd i b E. rewrite Ho; [by apply Hh|]. apply lookup_lt_Some in E. lia. Qed.

(** What is stored fits in memory. *)
Lemma holds_size m a bs : holds m a bs -> (length bs <= size m)%nat.
Proof.
  intros Hh. rewrite <-size_dom. transitivity (size (list_to_set ((fun i => a + Z.of_nat i) <$> seq 0 (length bs)) : gset Z)).
  - rewrite size_list_to_set; [by rewrite length_fmap, length_seq|]. apply NoDup_fmap_2; [intros x y E; lia|apply NoDup_seq].
  - apply subseteq_size. intros x. rewrite elem_of_list_to_set, list_elem_of_fmap, elem_of_dom. intros (i & -> & Hi%elem_of_seq).
    destruct (lookup_lt_is_Some_2 bs i) as [b E]; [lia|]. exists b. by apply Hh.
Qed.

(** ** Copies *)

Definition copied (m : bmem) (d s n : Z) (m' : bmem) : Prop := forall x, m' !! x = if (d <=? x) && (x <? d + n) then m !! (s + (x - d)) else m !! x.
Definition filled (m : bmem) (d n v : Z) (m' : bmem) : Prop := forall x, m' !! x = if (d <=? x) && (x <? d + n) then Some v else m !! x.

Ltac in_range := zcases; cbn [andb].

Lemma copied_0 m d s m' n : n <= 0 -> m' = m -> copied m d s n m'.
Proof. intros Hn -> x. in_range; (done || lia). Qed.

Lemma copied_1 m d s v : m !! s = Some v -> copied m d s 1 (<[d := v]> m).
Proof.
  intros E x. in_range; try (rewrite lookup_insert_ne by lia; done).
  assert (x = d) as -> by lia. rewrite lookup_insert_eq. by replace (s + (d - d)) with s by lia.
Qed.

(** Copying upwards in two parts. *)
Lemma copied_up m d s n k m1 m2 :
  d <= s \/ s + n <= d -> 0 <= k <= n -> copied m d s k m1 -> copied m1 (d + k) (s + k) (n - k) m2 -> copied m d s n m2.
Proof.
  intros Hsafe Hk H1 H2 x. rewrite H2. in_range; try lia; rewrite ?H1; in_range; try lia; try done; f_equal; lia.
Qed.

(** Copying downwards in two parts. *)
Lemma copied_down m d s n k m1 m2 :
  s <= d -> 0 <= k <= n -> copied m (d + k) (s + k) (n - k) m1 -> copied m1 d s k m2 -> copied m d s n m2.
Proof.
  intros Hsafe Hk H1 H2 x. rewrite H2. in_range; try lia; rewrite ?H1; in_range; try lia; try done; f_equal; lia.
Qed.

Lemma copied_dom m d s n m' : copied m d s n m' -> mapped m s n -> mapped m d n -> forall x, is_Some (m' !! x) <-> is_Some (m !! x).
Proof.
  intros Hc Hs Hd x. rewrite Hc. in_range; try done. split; intros _.
  - specialize (Hd (x - d)). replace (d + (x - d)) with x in Hd by lia. apply Hd. lia.
  - apply Hs. lia.
Qed.

Lemma mapped_dom m m' a n : (forall x, is_Some (m' !! x) <-> is_Some (m !! x)) -> mapped m a n -> mapped m' a n.
Proof. intros Hd Hm i Hi. by apply Hd, Hm. Qed.

Lemma mapped_part m a n k : mapped m a n -> 0 <= k -> mapped m (a + k) (n - k).
Proof. intros Hm Hk i Hi. replace (a + k + i) with (a + (k + i)) by lia. apply Hm. lia. Qed.

Lemma mapped_le m a n k : mapped m a n -> k <= n -> mapped m a k.
Proof. intros Hm Hk i Hi. apply Hm. lia. Qed.

Lemma copied_holds m d s bs m' : holds m s bs -> copied m d s (Z.of_nat (length bs)) m' -> holds m' d bs.
Proof.
  intros Hh Hc i b E. pose proof (lookup_lt_Some _ _ _ E). rewrite Hc. in_range; try lia. replace (s + (d + Z.of_nat i - d)) with (s + Z.of_nat i) by lia. by apply Hh.
Qed.

Lemma copied_outside m d s n m' : copied m d s n m' -> outside d n m m'.
Proof. intros Hc x Hx. rewrite Hc. in_range; try lia; done. Qed.

(** ** Concrete memories *)

(** The bytes [bs] from [a] on, put over a memory. *)
Fixpoint place (a : Z) (bs : list Z) (m : bmem) : bmem := match bs with [] => m | b :: bs => <[a := b]> (place (a + 1) bs m) end.

Definition mappedb (m : bmem) (a : Z) (n : nat) : bool := forallb (fun i => bool_decide (is_Some (m !! (a + Z.of_nat i)))) (seq 0 n).

Lemma mappedb_mapped m a n : mappedb m a n = true -> mapped m a (Z.of_nat n).
Proof.
  intros Hb i Hi. unfold mappedb in Hb. rewrite forallb_forall in Hb. specialize (Hb (Z.to_nat i)). rewrite bool_decide_eq_true, Z2Nat.id in Hb by lia. apply Hb, in_seq. lia.
Qed.

Fixpoint holdsb (m : bmem) (a : Z) (bs : list Z) : bool := match bs with [] => true | b :: bs => bool_decide (m !! a = Some b) && holdsb m (a + 1) bs end.

Lemma holdsb_holds m a bs : holdsb m a bs = true -> holds m a bs.
Proof.
  revert a. induction bs as [|b bs IH]; intros a; cbn [holdsb]; [intros _; apply holds_nil|]. rewrite andb_true_iff, bool_decide_eq_true. intros [E Hb]. apply holds_cons. auto.
Qed.
