(* ===== verification/CMem.v ===== *)
(** * Memory routines

    Models [memcmp], [memmove], [memcpy], [memset] and [memchr] of [src/lib/sys/string.c].
    The word-sized loops of [memcpy] and [memset] load and store four bytes at a time. *)

From Stdlib Require Import ZArith Lia Bool List.
From stdpp Require Import base tactics numbers list gmap.
From S2P Require Import Prelude Bytes.

Local Open Scope Z_scope.

(** ** Model *)

Fixpoint memcmp_loop (fuel : nat) (c1 c2 n : Z) : BM Z :=
  match fuel with
  | O => fail OutOfFuel
  | S fuel =>
    let n := n - 1 in
    if 0 <? n then
      v1 ← ldb c1; v2 ← ldb c2;
      if v1 =? v2 then memcmp_loop fuel (c1 + 1) (c2 + 1) n else (v1 ← ldb c1; v2 ← ldb c2; mret (v1 - v2))
    else (v1 ← ldb c1; v2 ← ldb c2; mret (v1 - v2))
  end.
Definition memcmp (m1 m2 n : Z) : BM Z := if n =? 0 then mret 0 else memcmp_loop (Z.to_nat n) m1 m2 n.

Fixpoint copy_down (n : nat) (dest src : Z) : BM unit :=
  match n with
  | O => skip
  | S n => v ← ldb (src + Z.of_nat n); stb (dest + Z.of_nat n) v;; copy_down n dest src
  end.

Fixpoint copy_bytes (n : nat) (dest src : Z) : BM unit :=
  match n with
  | O => skip
  | S n => v ← ldb src; stb dest v;; copy_bytes n (dest + 1) (src + 1)
  end.

Definition memmove (d s n : Z) : BM Z :=
  (if u32 (d - s) <? n then copy_down (Z.to_nat n) d s else copy_bytes (Z.to_nat n) d s);; mret d.

(** Byte by byte up to a word boundary; the flag says that [n] ran out before. *)
Fixpoint copy_align (fuel : nat) (d s n : Z) : BM (Z * Z * Z * bool) :=
  match fuel with
  | O => fail OutOfFuel
  | S fuel =>
    if Z.land d 3 =? 0 then mret (d, s, n, false)
    else if n =? 0 then mret (d, s, n, true)
    else v ← ldb s; stb d v;; copy_align fuel (d + 1) (s + 1) (n - 1)
  end.

Definition copy_word (d s : Z) : BM unit :=
  v0 ← ldb s; v1 ← ldb (s + 1); v2 ← ldb (s + 2); v3 ← ldb (s + 3);
  stb d v0;; stb (d + 1) v1;; stb (d + 2) v2;; stb (d + 3) v3.

Fixpoint copy_words (k : nat) (d s : Z) : BM unit :=
  match k with O => skip | S k => copy_word d s;; copy_words k (d + 4) (s + 4) end.

Definition memcpy (d s n : Z) : BM Z :=
  if Z.land (Z.lxor d s) 3 =? 0 then
    '(db, sb, n, done) ← copy_align 4 d s n;
    if (done : bool) then mret d
    else
      copy_words (Z.to_nat (n / 4)) db sb;;
      copy_bytes (Z.to_nat (n mod 4)) (db + 4 * (n / 4)) (sb + 4 * (n / 4));;
      mret d
  else copy_bytes (Z.to_nat n) d s;; mret d.

Fixpoint set_bytes (n : nat) (d v : Z) : BM unit :=
  match n with O => skip | S n => stb d v;; set_bytes n (d + 1) v end.

Fixpoint set_align (fuel : nat) (d v n : Z) : BM (Z * Z * bool) :=
  match fuel with
  | O => fail OutOfFuel
  | S fuel =>
    if Z.land d 3 =? 0 then mret (d, n, false)
    else if n =? 0 then mret (d, n, true)
    else stb d v;; set_align fuel (d + 1) v (n - 1)
  end.

(** A word stored with its bytes in little-endian order. *)
Definition set_word (d w : Z) : BM unit :=
  stb d (u8 w);; stb (d + 1) (u8 (Z.shiftr w 8));; stb (d + 2) (u8 (Z.shiftr w 16));; stb (d + 3) (u8 (Z.shiftr w 24)).

Fixpoint set_words (k : nat) (d w : Z) : BM unit :=
  match k with O => skip | S k => set_word d w;; set_words k (d + 4) w end.

Definition memset (buf c n : Z) : BM Z :=
  let c_byte := u8 c in
  '(d, n, done) ← set_align 4 buf c_byte n;
  if (done : bool) then mret buf
  else
    let c_word := c_byte in
    let c_word := Z.lor c_word (u32 (Z.shiftl c_word 8)) in
    let c_word := Z.lor c_word (u32 (Z.shiftl c_word 16)) in
    set_words (Z.to_nat (n / 4)) d c_word;;
    set_bytes (Z.to_nat (n mod 4)) (d + 4 * (n / 4)) c_byte;;
    mret buf.

Fixpoint memchr_loop (n : nat) (p c : Z) : BM Z :=
  match n with
  | O => mret 0
  | S n => v ← ldb p; if v =? u8 c then mret p else memchr_loop n (p + 1) c
  end.
Definition memchr (s c n : Z) : BM Z := memchr_loop (Z.to_nat n) s c.

(** ** Copying *)

Lemma wp_copy_bytes n : forall d s (Q : unit -> bmem -> Prop) m,
  d <= s \/ s + Z.of_nat n <= d -> mapped m s (Z.of_nat n) -> mapped m d (Z.of_nat n) ->
  (forall m', copied m d s (Z.of_nat n) m' -> Q tt m') -> wp (copy_bytes n d s) Q m.
Proof.
  induction n as [|n IH]; intros d s Q m Hsafe Hs Hd HQ; cbn [copy_bytes].
  - apply wp_skip, HQ. by apply copied_0.
  - destruct (Hs 0) as [v Ev]; [lia|]. rewrite Z.add_0_r in Ev. apply wp_bind. eapply wp_ldb; [done|].
    assert (H1 : copied m d s 1 (<[d := v]> m)) by (by apply copied_1). apply wp_bind, wp_stb; [specialize (Hd 0); rewrite Z.add_0_r in Hd; apply Hd; lia|].
    assert (Hdom : forall x, is_Some (<[d := v]> m !! x) <-> is_Some (m !! x)) by (apply (copied_dom _ _ _ _ _ H1); eapply mapped_le; try done; lia).
    assert (Hpart : forall a, mapped m a (Z.of_nat (S n)) -> mapped (<[d := v]> m) (a + 1) (Z.of_nat n)).
    { intros a Ha. eapply mapped_dom; [exact Hdom|]. replace (Z.of_nat n) with (Z.of_nat (S n) - 1) by lia. apply mapped_part; [done|lia]. }
    apply IH; [lia|by apply Hpart|by apply Hpart|]. intros m' H2. apply HQ. eapply (copied_up _ _ _ _ 1); [lia|lia|exact H1|]. by replace (Z.of_nat (S n) - 1) with (Z.of_nat n) by lia.
Qed.

Lemma wp_copy_down n : forall d s (Q : unit -> bmem -> Prop) m,
  s <= d -> mapped m s (Z.of_nat n) -> mapped m d (Z.of_nat n) ->
  (forall m', copied m d s (Z.of_nat n) m' -> Q tt m') -> wp (copy_down n d s) Q m.
Proof.
  induction n as [|n IH]; intros d s Q m Hsafe Hs Hd HQ; cbn [copy_down].
  - apply wp_skip, HQ. by apply copied_0.
  - destruct (Hs (Z.of_nat n)) as [v Ev]; [lia|]. apply wp_bind. eapply wp_ldb; [done|]. apply wp_bind, wp_stb; [apply Hd; lia|].
    assert (H1 : copied m (d + Z.of_nat n) (s + Z.of_nat n) 1 (<[d + Z.of_nat n := v]> m)) by (by apply copied_1).
    assert (Hdom : forall x, is_Some (<[d + Z.of_nat n := v]> m !! x) <-> is_Some (m !! x)).
    { apply (copied_dom _ _ _ _ _ H1); intros i Hi; replace i with 0 by lia; rewrite Z.add_0_r; [by rewrite Ev|apply Hd; lia]. }
    apply IH; [lia|eapply mapped_dom; [exact Hdom|]; eapply mapped_le; [done|lia]|eapply mapped_dom; [exact Hdom|]; eapply mapped_le; [done|lia]|].
    intros m' H2. apply HQ. eapply (copied_down _ _ _ _ (Z.of_nat n)); [lia|lia| |exact H2]. by replace (Z.of_nat (S n) - Z.of_nat n) with 1 by lia.
Qed.

Lemma wp_copy_word d s (Q : unit -> bmem -> Prop) m : mapped m s 4 -> mapped m d 4 -> (forall m', copied m d s 4 m' -> Q tt m') -> wp (copy_word d s) Q m.
Proof.
  intros Hs Hd HQ. unfold copy_word. destruct (Hs 0) as [v0 E0]; [lia|]. destruct (Hs 1) as [v1 E1]; [lia|]. destruct (Hs 2) as [v2 E2]; [lia|]. destruct (Hs 3) as [v3 E3]; [lia|].
  rewrite Z.add_0_r in E0. assert (Hdd : forall i, 0 <= i < 4 -> is_Some (m !! (d + i))) by done. pose proof (Hdd 0 ltac:(lia)) as D0. rewrite Z.add_0_r in D0.
  do 4 (apply wp_bind; eapply wp_ldb; [done|]). apply wp_bind, wp_stb; [done|]. apply wp_bind, wp_stb; [rewrite lookup_insert_ne by lia; apply Hdd; lia|].
  apply wp_bind, wp_stb; [rewrite !lookup_insert_ne by lia; apply Hdd; lia|]. apply wp_stb; [rewrite !lookup_insert_ne by lia; apply Hdd; lia|].
  apply HQ. intros x. destruct (decide (x = d + 3)) as [->|]; [rewrite lookup_insert_eq; in_range; try lia; by replace (s + (d + 3 - d)) with (s + 3) by lia|].
  rewrite lookup_insert_ne by done. destruct (decide (x = d + 2)) as [->|]; [rewrite lookup_insert_eq; in_range; try lia; by replace (s + (d + 2 - d)) with (s + 2) by lia|].
  rewrite lookup_insert_ne by done. destruct (decide (x = d + 1)) as [->|]; [rewrite lookup_insert_eq; in_range; try lia; by replace (s + (d + 1 - d)) with (s + 1) by lia|].
  rewrite lookup_insert_ne by done. destruct (decide (x = d)) as [->|]; [rewrite lookup_insert_eq; in_range; try lia; by replace (s + (d - d)) with s by lia|].
  rewrite lookup_insert_ne by done. in_range; (done || lia).
Qed.

Lemma wp_copy_words k : forall d s (Q : unit -> bmem -> Prop) m,
  d <= s \/ s + 4 * Z.of_nat k <= d -> mapped m s (4 * Z.of_nat k) -> mapped m d (4 * Z.of_nat k) ->
  (forall m', copied m d s (4 * Z.of_nat k) m' -> Q tt m') -> wp (copy_words k d s) Q m.
Proof.
  induction k as [|k IH]; intros d s Q m Hsafe Hs Hd HQ; cbn [copy_words].
  - apply wp_skip, HQ. by apply copied_0.
  - apply wp_bind, wp_copy_word; [eapply mapped_le; [done|lia]|eapply mapped_le; [done|lia]|]. intros m1 H1.
    assert (Hdom : forall x, is_Some (m1 !! x) <-> is_Some (m !! x)) by (apply (copied_dom _ _ _ _ _ H1); eapply mapped_le; try done; lia).
    assert (Hpart : forall a, mapped m a (4 * Z.of_nat (S k)) -> mapped m1 (a + 4) (4 * Z.of_nat k)).
    { intros a Ha. eapply mapped_dom; [exact Hdom|]. replace (4 * Z.of_nat k) with (4 * Z.of_nat (S k) - 4) by lia. apply mapped_part; [done|lia]. }
    apply IH; [lia|by apply Hpart|by apply Hpart|]. intros m' H2. apply HQ. eapply (copied_up _ _ _ _ 4); [lia|lia|exact H1|]. by replace (4 * Z.of_nat (S k) - 4) with (4 * Z.of_nat k) by lia.
Qed.

(** One byte closer to the boundary. *)
Lemma align_step d fuel : d mod 4 <> 0 -> 4 - d mod 4 < Z.of_nat (S fuel) \/ d mod 4 = 0 /\ (0 < S fuel)%nat -> 4 - (d + 1) mod 4 < Z.of_nat fuel \/ (d + 1) mod 4 = 0 /\ (0 < fuel)%nat.
Proof.
  intros Hd Hf. assert (Hm : (d + 1) mod 4 = if d mod 4 =? 3 then 0 else d mod 4 + 1).
  { rewrite <-Z.add_mod_idemp_l by lia. pose proof (Z.mod_pos_bound d 4 ltac:(lia)). destruct (Z.eqb_spec (d mod 4) 3) as [->|]; [done|]. apply Z.mod_small. lia. }
  pose proof (Z.mod_pos_bound d 4 ltac:(lia)). rewrite Hm. destruct (Z.eqb_spec (d mod 4) 3); lia.
Qed.

(** The leading bytes up to the boundary. *)
Lemma wp_copy_align fuel : forall d s n (Q : Z * Z * Z * bool -> bmem -> Prop) m,
  d <= s \/ s + n <= d -> 0 <= n -> mapped m s n -> mapped m d n -> 4 - d mod 4 < Z.of_nat fuel \/ d mod 4 = 0 /\ (0 < fuel)%nat ->
  (forall k fin m', 0 <= k <= n -> (fin = true -> k = n) -> copied m d s k m' -> Q (d + k, s + k, n - k, fin) m') -> wp (copy_align fuel d s n) Q m.
Proof.
  induction fuel as [|fuel IH]; intros d s n Q m Hsafe Hn Hs Hd Hf HQ; cbn [copy_align]; [pose proof (Z.mod_pos_bound d 4); lia|].
  change 3 with (Z.ones 2). rewrite Z.land_ones by lia. change (2 ^ 2) with 4. assert (Hstop : forall fin, (fin = true -> 0 = n) -> Q (d, s, n, fin) m).
  { intros fin Hfin. specialize (HQ 0 fin m). rewrite !Z.add_0_r, Z.sub_0_r in HQ. apply HQ; [lia|done|by apply copied_0]. }
  destruct (Z.eqb_spec (d mod 4) 0) as [E|E]; [apply wp_ret; by apply Hstop|]. destruct (Z.eqb_spec n 0) as [->|Hn0]; [apply wp_ret; by apply Hstop|].
  destruct (Hs 0) as [v Ev]; [lia|]. rewrite Z.add_0_r in Ev. apply wp_bind. eapply wp_ldb; [done|].
  assert (H1 : copied m d s 1 (<[d := v]> m)) by (by apply copied_1). apply wp_bind, wp_stb; [specialize (Hd 0); rewrite Z.add_0_r in Hd; apply Hd; lia|].
  assert (Hdom : forall x, is_Some (<[d := v]> m !! x) <-> is_Some (m !! x)) by (apply (copied_dom _ _ _ _ _ H1); eapply mapped_le; try done; lia).
  apply IH; [lia|lia|eapply mapped_dom; [exact Hdom|]; apply mapped_part; [done|lia]|eapply mapped_dom; [exact Hdom|]; apply mapped_part; [done|lia]| |].
  - by apply align_step.
  - intros k fin m' Hk Hfin H2. replace (d + 1 + k) with (d + (1 + k)) by lia. replace (s + 1 + k) with (s + (1 + k)) by lia. replace (n - 1 - k) with (n - (1 + k)) by lia.
    apply HQ; [lia|intros E'; specialize (Hfin E'); lia|]. eapply (copied_up _ _ _ _ 1); [lia|lia|exact H1|]. by replace (1 + k - 1) with k by lia.
Qed.

(** ** Filling *)

Lemma filled_0 m d v n : n <= 0 -> filled m d n v m.
Proof. intros Hn x. in_range; (done || lia). Qed.

Lemma filled_up m d n k v m1 m2 : 0 <= k <= n -> filled m d k v m1 -> filled m1 (d + k) (n - k) v m2 -> filled m d n v m2.
Proof. intros Hk H1 H2 x. rewrite H2, H1. in_range; (done || lia). Qed.

Lemma filled_dom m d n v m' : filled m d n v m' -> mapped m d n -> forall x, is_Some (m' !! x) <-> is_Some (m !! x).
Proof.
  intros Hc Hd x. rewrite Hc. in_range; try done. split; [intros _|done]. specialize (Hd (x - d)). replace (d + (x - d)) with x in Hd by lia. apply Hd. lia.
Qed.

Lemma filled_1 m d v : filled m d 1 v (<[d := v]> m).
Proof. intros x. destruct (decide (x = d)) as [->|]; [rewrite lookup_insert_eq|rewrite lookup_insert_ne by done]; in_range; (done || lia). Qed.

Lemma wp_set_bytes n : forall d v (Q : unit -> bmem -> Prop) m,
  mapped m d (Z.of_nat n) -> (forall m', filled m d (Z.of_nat n) v m' -> Q tt m') -> wp (set_bytes n d v) Q m.
Proof.
  induction n as [|n IH]; intros d v Q m Hd HQ; cbn [set_bytes].
  - apply wp_skip, HQ. by apply filled_0.
  - apply wp_bind, wp_stb; [specialize (Hd 0); rewrite Z.add_0_r in Hd; apply Hd; lia|]. pose proof (filled_1 m d v) as H1. apply IH.
    + eapply mapped_dom; [eapply filled_dom; [exact H1|eapply mapped_le; [done|lia]]|]. replace (Z.of_nat n) with (Z.of_nat (S n) - 1) by lia. apply mapped_part; [done|lia].
    + intros m' H2. apply HQ. eapply (filled_up _ _ _ 1); [lia|exact H1|]. by replace (Z.of_nat (S n) - 1) with (Z.of_nat n) by lia.
Qed.

(** A word whose four bytes are [v]. *)
Definition splat (v : Z) : Z := v + 256 * v + 65536 * v + 16777216 * v.

Lemma splat_word v : 0 <= v < 256 -> Z.lor (Z.lor v (u32 (Z.shiftl v 8))) (u32 (Z.shiftl (Z.lor v (u32 (Z.shiftl v 8))) 16)) = splat v.
Proof.
  intros Hv. rewrite !Z.shiftl_mul_pow2 by lia. rewrite (u32_small (v * 2 ^ 8)) by lia. rewrite (lor_add 8) by lia. rewrite u32_small by lia. rewrite (lor_add 16) by lia. unfold splat. lia.
Qed.

Lemma splat_bytes v : 0 <= v < 256 -> u8 (splat v) = v /\ u8 (Z.shiftr (splat v) 8) = v /\ u8 (Z.shiftr (splat v) 16) = v /\ u8 (Z.shiftr (splat v) 24) = v.
Proof. intros Hv. rewrite !Z.shiftr_div_pow2 by lia. unfold splat, u8. change (2 ^ 8) with 256. change (2 ^ 16) with 65536. change (2 ^ 24) with 16777216. Z.to_euclidean_division_equations. lia. Qed.

Lemma wp_set_word d v (Q : unit -> bmem -> Prop) m : 0 <= v < 256 -> mapped m d 4 -> (forall m', filled m d 4 v m' -> Q tt m') -> wp (set_word d (splat v)) Q m.
Proof.
  intros Hv Hd HQ. unfold set_word. destruct (splat_bytes v Hv) as (-> & -> & -> & ->). pose proof (Hd 0 ltac:(lia)) as D0. rewrite Z.add_0_r in D0.
  apply wp_bind, wp_stb; [done|]. apply wp_bind, wp_stb; [rewrite lookup_insert_ne by lia; apply Hd; lia|]. apply wp_bind, wp_stb; [rewrite !lookup_insert_ne by lia; apply Hd; lia|].
  apply wp_stb; [rewrite !lookup_insert_ne by lia; apply Hd; lia|]. apply HQ. intros x.
  destruct (decide (x = d + 3)) as [->|]; [rewrite lookup_insert_eq; in_range; (done || lia)|]. rewrite lookup_insert_ne by done.
  destruct (decide (x = d + 2)) as [->|]; [rewrite lookup_insert_eq; in_range; (done || lia)|]. rewrite lookup_insert_ne by done.
  destruct (decide (x = d + 1)) as [->|]; [rewrite lookup_insert_eq; in_range; (done || lia)|]. rewrite lookup_insert_ne by done.
  destruct (decide (x = d)) as [->|]; [rewrite lookup_insert_eq; in_range; (done || lia)|]. rewrite lookup_insert_ne by done. in_range; (done || lia).
Qed.

Lemma wp_set_words k : forall d v (Q : unit -> bmem -> Prop) m,
  0 <= v < 256 -> mapped m d (4 * Z.of_nat k) -> (forall m', filled m d (4 * Z.of_nat k) v m' -> Q tt m') -> wp (set_words k d (splat v)) Q m.
Proof.
  induction k as [|k IH]; intros d v Q m Hv Hd HQ; cbn [set_words].
  - apply wp_skip, HQ. by apply filled_0.
  - apply wp_bind, wp_set_word; [done|eapply mapped_le; [done|lia]|]. intros m1 H1. apply IH; [done| |].
    + eapply mapped_dom; [eapply filled_dom; [exact H1|eapply mapped_le; [done|lia]]|]. replace (4 * Z.of_nat k) with (4 * Z.of_nat (S k) - 4) by lia. apply mapped_part; [done|lia].
    + intros m' H2. apply HQ. eapply (filled_up _ _ _ 4); [lia|exact H1|]. by replace (4 * Z.of_nat (S k) - 4) with (4 * Z.of_nat k) by lia.
Qed.

Lemma wp_set_align fuel : forall d v n (Q : Z * Z * bool -> bmem -> Prop) m,
  0 <= n -> mapped m d n -> 4 - d mod 4 < Z.of_nat fuel \/ d mod 4 = 0 /\ (0 < fuel)%nat ->
  (forall k fin m', 0 <= k <= n -> (fin = true -> k = n) -> filled m d k v m' -> Q (d + k, n - k, fin) m') -> wp (set_align fuel d v n) Q m.
Proof.
  induction fuel as [|fuel IH]; intros d v n Q m Hn Hd Hf HQ; cbn [set_align]; [pose proof (Z.mod_pos_bound d 4); lia|].
  change 3 with (Z.ones 2). rewrite Z.land_ones by lia. change (2 ^ 2) with 4. assert (Hstop : forall fin, (fin = true -> 0 = n) -> Q (d, n, fin) m).
  { intros fin Hfin. specialize (HQ 0 fin m). rewrite Z.add_0_r, Z.sub_0_r in HQ. apply HQ; [lia|done|by apply filled_0]. }
  destruct (Z.eqb_spec (d mod 4) 0) as [E|E]; [apply wp_ret; by apply Hstop|]. destruct (Z.eqb_spec n 0) as [->|Hn0]; [apply wp_ret; by apply Hstop|].
  apply wp_bind, wp_stb; [specialize (Hd 0); rewrite Z.add_0_r in Hd; apply Hd; lia|]. pose proof (filled_1 m d v) as H1.
  apply IH; [lia|eapply mapped_dom; [eapply filled_dom; [exact H1|eapply mapped_le; [done|lia]]|]; apply mapped_part; [done|lia]|by apply align_step|].
  intros k fin m' Hk Hfin H2. replace (d + 1 + k) with (d + (1 + k)) by lia. replace (n - 1 - k) with (n - (1 + k)) by lia.
  apply HQ; [lia|intros E'; specialize (Hfin E'); lia|]. eapply (filled_up _ _ _ 1); [lia|exact H1|]. by replace (1 + k - 1) with k by lia.
Qed.

(** ** Theorems *)

Lemma fuel_4 d : 4 - d mod 4 < Z.of_nat 4 \/ d mod 4 = 0 /\ (0 < 4)%nat.
Proof. pose proof (Z.mod_pos_bound d 4 ltac:(lia)). lia. Qed.

Lemma memcpy_copied m d s n :
  0 <= n -> d + n <= s \/ s + n <= d -> mapped m s n -> mapped m d n ->
  exists m', memcpy d s n m = Done d m' /\ copied m d s n m'.
Proof.
  intros Hn Hsep Hs Hd. assert (Hw : wp (memcpy d s n) (fun r m' => r = d /\ copied m d s n m') m); [|by apply wp_run in Hw as (r & m' & E & -> & Hc); exists m'].
  unfold memcpy. destruct (_ =? 0); [|apply wp_bind, wp_copy_bytes; rewrite ?Z2Nat.id by lia; [lia|done|done|]; intros m' Hc; by apply wp_ret].
  apply wp_bind, wp_copy_align; [lia|lia|done|done|apply fuel_4|]. intros k [] m1 Hk Hfin H1; [apply wp_ret; by rewrite (Hfin eq_refl) in H1|].
  assert (Hdom : forall x, is_Some (m1 !! x) <-> is_Some (m !! x)) by (apply (copied_dom _ _ _ _ _ H1); eapply mapped_le; try done; lia).
  set (r := n - k). pose proof (Z.div_mod r 4 ltac:(lia)) as Er. pose proof (Z.mod_pos_bound r 4 ltac:(lia)) as Hr. pose proof (Z.div_pos r 4 ltac:(lia) ltac:(lia)) as Hq.
  assert (Hm1 : forall a, mapped m a n -> mapped m1 (a + k) r) by (intros a Ha; eapply mapped_dom; [exact Hdom|]; apply mapped_part; [done|lia]).
  apply wp_bind, wp_copy_words; rewrite ?Z2Nat.id by lia; [lia|eapply mapped_le; [by apply Hm1|lia]|eapply mapped_le; [by apply Hm1|lia]|]. intros m2 H2.
  assert (Hdom2 : forall x, is_Some (m2 !! x) <-> is_Some (m1 !! x)) by (apply (copied_dom _ _ _ _ _ H2); (eapply mapped_le; [by apply Hm1|lia])).
  assert (Hm2 : forall a, mapped m a n -> mapped m2 (a + k + 4 * (r / 4)) (r mod 4)).
  { intros a Ha. eapply mapped_dom; [exact Hdom2|]. replace (r mod 4) with (r - 4 * (r / 4)) by lia. apply mapped_part; [by apply Hm1|lia]. }
  apply wp_bind, wp_copy_bytes; rewrite ?Z2Nat.id by lia; [lia|by apply Hm2|by apply Hm2|]. intros m3 H3. apply wp_ret. split; [done|].
  eapply (copied_up _ _ _ _ k); [lia|lia|exact H1|]. fold r. eapply (copied_up _ _ _ _ (4 * (r / 4))); [lia|lia|exact H2|]. by replace (r - 4 * (r / 4)) with (r mod 4) by lia.
Qed.

(** Lemma: [memcpy] of buffers that do not overlap, for any alignment and length, has the effect
    of copying byte by byte: the destination holds the bytes of the source, nothing else
    changes, and the result is the destination. *)
Theorem memcpy_exact m d s n :
  0 <= n -> d + n <= s \/ s + n <= d -> mapped m s n -> mapped m d n ->
  exists m', memcpy d s n m = Done d m' /\ copied m d s n m'.
Proof. apply memcpy_copied. Qed.

(** Ten bytes copied between buffers of different alignment in one memory. *)
Lemma memcpy_exact_witness :
  let m := place 101 [1; 2; 3; 4; 5; 6; 7; 8; 9; 10] (place 201 (replicate 12 0) ∅) in
  exists m', memcpy 201 101 10 m = Done 201 m' /\ copied m 201 101 10 m'.
Proof. intros m. apply (memcpy_exact m 201 101 10); [lia|lia|by apply (mappedb_mapped _ _ 10)|by apply (mappedb_mapped _ _ 10)]. Defined.

(** Lemma: [memmove] copies buffers that may overlap in any way: the destination holds what the
    source held before. *)
Theorem memmove_exact m d s n :
  0 <= d -> 0 <= s -> 0 <= n -> d + n <= 2 ^ 32 -> s + n <= 2 ^ 32 -> mapped m s n -> mapped m d n ->
  exists m', memmove d s n m = Done d m' /\ copied m d s n m'.
Proof.
  intros Hd0 Hs0 Hn Hde Hse Hs Hd. assert (Hw : wp (memmove d s n) (fun r m' => r = d /\ copied m d s n m') m); [|by apply wp_run in Hw as (r & m' & E & -> & Hc); exists m'].
  unfold memmove. apply wp_bind. destruct (Z.eqb_spec n 0) as [->|Hn0].
  { pose proof (u32_range (d - s)). rewrite (proj2 (Z.ltb_ge _ _)) by lia. apply wp_skip, wp_ret. split; [done|]. by apply copied_0. }
  assert (Hu : u32 (d - s) = if s <=? d then d - s else d - s + 2 ^ 32).
  { destruct (Z.leb_spec s d); [apply u32_small; lia|]. unfold u32. rewrite <-(Z.mod_add _ 1) by lia. rewrite Z.mod_small; lia. }
  destruct (Z.ltb_spec (u32 (d - s)) n) as [Hlt|Hge]; rewrite Hu in *.
  - apply wp_copy_down; rewrite ?Z2Nat.id by lia; [destruct (Z.leb_spec s d); lia|done|done|]. intros m' Hc. by apply wp_ret.
  - apply wp_copy_bytes; rewrite ?Z2Nat.id by lia; [destruct (Z.leb_spec s d); lia|done|done|]. intros m' Hc. by apply wp_ret.
Qed.

Lemma memmove_exact_witness :
  let m := place 100 [1; 2; 3; 4; 5; 6; 7] ∅ in
  exists m', memmove 102 100 5 m = Done 102 m' /\ copied m 102 100 5 m'.
Proof. intros m. apply (memmove_exact m 102 100 5); [lia|lia|lia|lia|lia|by apply (mappedb_mapped _ _ 5)|by apply (mappedb_mapped _ _ 5)]. Defined.

(** Lemma: [memset] stores the low byte of its argument in each byte of the buffer and nowhere
    else, for any alignment and length. *)
Theorem memset_exact m d c n :
  0 <= n -> mapped m d n -> exists m', memset d c n m = Done d m' /\ filled m d n (u8 c) m'.
Proof.
  intros Hn Hd. assert (Hw : wp (memset d c n) (fun r m' => r = d /\ filled m d n (u8 c) m') m); [|by apply wp_run in Hw as (r & m' & E & -> & Hc); exists m'].
  assert (Hv : 0 <= u8 c < 256) by (apply Z.mod_pos_bound; lia). unfold memset.
  apply wp_bind, wp_set_align; [lia|done|apply fuel_4|]. intros k [] m1 Hk Hfin H1; [apply wp_ret; by rewrite (Hfin eq_refl) in H1|]. cbn zeta. rewrite splat_word by done.
  assert (Hdom : forall x, is_Some (m1 !! x) <-> is_Some (m !! x)) by (eapply filled_dom; [exact H1|eapply mapped_le; [done|lia]]).
  set (r := n - k). pose proof (Z.div_mod r 4 ltac:(lia)) as Er. pose proof (Z.mod_pos_bound r 4 ltac:(lia)) as Hr. pose proof (Z.div_pos r 4 ltac:(lia) ltac:(lia)) as Hq.
  assert (Hm1 : mapped m1 (d + k) r) by (eapply mapped_dom; [exact Hdom|]; apply mapped_part; [done|lia]).
  apply wp_bind, wp_set_words; rewrite ?Z2Nat.id by lia; [done|eapply mapped_le; [done|lia]|]. intros m2 H2.
  assert (Hm2 : mapped m2 (d + k + 4 * (r / 4)) (r mod 4)).
  { eapply mapped_dom; [eapply filled_dom; [exact H2|eapply mapped_le; [done|lia]]|]. replace (r mod 4) with (r - 4 * (r / 4)) by lia. apply mapped_part; [done|lia]. }
  apply wp_bind, wp_set_bytes; rewrite ?Z2Nat.id by lia; [done|]. intros m3 H3. apply wp_ret. split; [done|].
  eapply (filled_up _ _ _ k); [lia|exact H1|]. fold r. eapply (filled_up _ _ _ (4 * (r / 4))); [lia|exact H2|]. by replace (r - 4 * (r / 4)) with (r mod 4) by lia.
Qed.

(** The difference at the first place where two lists differ, 0 if there is none. *)
Fixpoint first_difference (bs cs : list Z) : Z :=
  match bs, cs with b :: bs, c :: cs => if b =? c then first_difference bs cs else b - c | _, _ => 0 end.

Lemma wp_memcmp_loop bs : forall cs a c (Q : Z -> bmem -> Prop) m,
  bs <> [] -> length bs = length cs -> holds m a bs -> holds m c cs -> Q (first_difference bs cs) m -> wp (memcmp_loop (length bs) a c (Z.of_nat (length bs))) Q m.
Proof.
  induction bs as [|b bs IH]; intros [|b' cs] a c Q m Hne Hlen Ha Hc HQ; try done. injection Hlen as Hlen. apply holds_cons in Ha as [Ea Ha], Hc as [Ec Hc].
  cbn [length memcmp_loop first_difference] in *. assert (Hlast : Q (b - b') m -> wp (v1 ← ldb a; v2 ← ldb c; mret (v1 - v2)) Q m).
  { intros HQ'. apply wp_bind. eapply wp_ldb; [done|]. apply wp_bind. eapply wp_ldb; [done|]. by apply wp_ret. }
  destruct (Z.ltb_spec 0 (Z.of_nat (S (length bs)) - 1)) as [Hlt|Hge].
  - apply wp_bind. eapply wp_ldb; [done|]. apply wp_bind. eapply wp_ldb; [done|]. destruct (Z.eqb_spec b b') as [->|]; [|by apply Hlast].
    replace (Z.of_nat (S (length bs)) - 1) with (Z.of_nat (length bs)) by lia. apply (IH cs); [by destruct bs|done|done|done|done].
  - destruct bs; [|cbn in Hge; lia]. destruct cs; [|done]. apply Hlast. destruct (Z.eqb_spec b b') as [->|]; [by rewrite Z.sub_diag|done].
Qed.

(** Lemma: [memcmp] returns the difference of the first pair of bytes that differ, so 0 exactly for
    equal contents. *)
Theorem memcmp_exact m a c bs cs :
  length bs = length cs -> holds m a bs -> holds m c cs ->
  memcmp a c (Z.of_nat (length bs)) m = Done (first_difference bs cs) m /\ (first_difference bs cs = 0 <-> bs = cs).
Proof.
  intros Hlen Ha Hc. split.
  - apply run_done. unfold memcmp. destruct bs as [|b bs]; [by destruct cs|]. rewrite (proj2 (Z.eqb_neq _ _)) by (cbn; lia). rewrite Nat2Z.id. by apply (wp_memcmp_loop (b :: bs) cs).
  - clear Ha Hc. revert cs Hlen. induction bs as [|b bs IH]; intros [|b' cs] Hlen; try done. injection Hlen as Hlen. cbn [first_difference].
    destruct (Z.eqb_spec b b') as [->|Hne]; [rewrite IH by done; split; congruence|]. split; [intros; lia|congruence].
Qed.

(** The address of the first byte equal to [v], NULL if there is none. *)
Fixpoint first_at (a v : Z) (bs : list Z) : Z := match bs with [] => 0 | b :: bs => if b =? v then a else first_at (a + 1) v bs end.

(** Lemma: [memchr] returns the address of the first byte of the buffer equal to its argument, NULL
    if there is none. *)
Theorem memchr_exact m a c bs : holds m a bs -> memchr a c (Z.of_nat (length bs)) m = Done (first_at a (u8 c) bs) m.
Proof.
  intros Ha. apply run_done. unfold memchr. rewrite Nat2Z.id. revert a Ha. induction bs as [|b bs IH]; intros a Ha; cbn [length memchr_loop first_at]; [by apply wp_ret|].
  apply holds_cons in Ha as [Ea Ha]. apply wp_bind. eapply wp_ldb; [done|]. destruct (b =? u8 c); [by apply wp_ret|by apply IH].
Qed.
