(* ===== verification/CString.v ===== *)
(** * String routines

    Models the string part of [src/lib/sys/string.c].  [str m s cs]: the string [cs], which
    has no zero byte, lies at [s] with its terminator. *)

From Stdlib Require Import ZArith Lia Bool List.
From stdpp Require Import base tactics numbers list gmap.
From S2P Require Import Prelude Bytes CMem.

Local Open Scope Z_scope.

(** ** Model *)

(** [tolower] of [inc/sys/ctype.h]. *)
Definition tolower (chr : Z) : Z := if (65 <=? chr) && (chr <=? 90) then chr + 32 else chr.

Fixpoint strlen_loop (fuel : nat) (s n : Z) : BM Z :=
  match fuel with
  | O => fail OutOfFuel
  | S fuel => c ← ldb s; if negb (c =? 0) then strlen_loop fuel (s + 1) (u32 (n + 1)) else mret n
  end.
Definition strlen (s : Z) : BM Z := fuel ← scan_fuel; strlen_loop fuel s 0.

Fixpoint strnlen_loop (fuel : nat) (s n maxlen : Z) : BM Z :=
  match fuel with
  | O => fail OutOfFuel
  | S fuel => c ← ldb s; if negb (c =? 0) && (n <? maxlen) then strnlen_loop fuel (s + 1) (n + 1) maxlen else mret n
  end.
Definition strnlen (s maxlen : Z) : BM Z := fuel ← scan_fuel; strnlen_loop fuel s 0 maxlen.

Fixpoint strchr_loop (fuel : nat) (s tmp : Z) : BM Z :=
  match fuel with
  | O => fail OutOfFuel
  | S fuel =>
    c ← ldb s;
    if negb (c =? tmp) && negb (c =? 0) then strchr_loop fuel (s + 1) tmp
    else (c ← ldb s; mret (if c =? tmp then s else 0))
  end.
Definition strchr (s c : Z) : BM Z := fuel ← scan_fuel; strchr_loop fuel s (u8 c).

Fixpoint strrchr_loop (fuel : nat) (s c match_ : Z) : BM Z :=
  match fuel with
  | O => fail OutOfFuel
  | S fuel =>
    v ← ldb s;
    let match_ := if v =? u8 c then s else match_ in
    v ← ldb s;
    if negb (v =? 0) then strrchr_loop fuel (s + 1) c match_ else mret match_
  end.
Definition strrchr (s c : Z) : BM Z := fuel ← scan_fuel; strrchr_loop fuel s c 0.

Fixpoint strcmp_loop (fuel : nat) (s1 s2 : Z) : BM Z :=
  match fuel with
  | O => fail OutOfFuel
  | S fuel =>
    v1 ← ldb s1; v2 ← ldb s2;
    if (v1 =? v2) && negb (v1 =? 0) then strcmp_loop fuel (s1 + 1) (s2 + 1) else (v1 ← ldb s1; v2 ← ldb s2; mret (v1 - v2))
  end.
Definition strcmp (s1 s2 : Z) : BM Z := fuel ← scan_fuel; strcmp_loop fuel s1 s2.

Fixpoint strncmp_loop (n : nat) (s1 s2 : Z) : BM Z :=
  match n with
  | O => mret 0
  | S n =>
    v1 ← ldb s1; v2 ← ldb s2;
    if (v1 =? v2) && negb (v1 =? 0) then strncmp_loop n (s1 + 1) (s2 + 1) else (v1 ← ldb s1; v2 ← ldb s2; mret (v1 - v2))
  end.
Definition strncmp (s1 s2 n : Z) : BM Z := strncmp_loop (Z.to_nat n) s1 s2.

Fixpoint strncasecmp_loop (n : nat) (s1 s2 c : Z) : BM Z :=
  match n with
  | O => mret 0
  | S n =>
    if negb (c =? 0) then
      c ← ldb s1; c2 ← ldb s2;
      let lower1 := tolower c in let lower2 := tolower c2 in
      if negb (lower1 =? lower2) then mret ((if lower2 <? lower1 then 1 else 0) - (if lower1 <? lower2 then 1 else 0))
      else strncasecmp_loop n (s1 + 1) (s2 + 1) c
    else mret 0
  end.
Definition strncasecmp (s1 s2 n : Z) : BM Z := strncasecmp_loop (Z.to_nat n) s1 s2 1.

Fixpoint strcpy_loop (fuel : nat) (d s : Z) : BM unit :=
  match fuel with
  | O => fail OutOfFuel
  | S fuel => c ← ldb s; if negb (c =? 0) then stb d c;; strcpy_loop fuel (d + 1) (s + 1) else stb d 0
  end.
Definition strcpy (d s : Z) : BM Z := fuel ← scan_fuel; strcpy_loop fuel d s;; mret d.

Fixpoint strncpy_loop (n : nat) (d s : Z) : BM unit :=
  match n with
  | O => skip
  | S n' => c ← ldb s; if negb (c =? 0) then stb d c;; strncpy_loop n' (d + 1) (s + 1) else set_bytes n d 0
  end.
Definition strncpy (d s n : Z) : BM Z := strncpy_loop (Z.to_nat n) d s;; mret d.

Definition strcat (dest src : Z) : BM Z := n ← strlen dest; strcpy (dest + n) src;; mret dest.

Fixpoint strncat_loop (n : nat) (dest src : Z) : BM unit :=
  match n with
  | O => stb dest 0
  | S n => c ← ldb src; if negb (c =? 0) then stb dest c;; strncat_loop n (dest + 1) (src + 1) else stb dest 0
  end.
Definition strncat (dest src n : Z) : BM Z := len ← strlen dest; strncat_loop (Z.to_nat n) (dest + len) src;; mret dest.

(** [strspn] and [strcspn]: skip bytes that are, or are not, in the second string. *)
Fixpoint span_loop (fuel : nat) (inside : bool) (s set : Z) : BM Z :=
  match fuel with
  | O => fail OutOfFuel
  | S fuel =>
    c ← ldb s;
    if negb (c =? 0) then
      r ← strchr set c;
      if Bool.eqb (negb (r =? 0)) inside then span_loop fuel inside (s + 1) set else mret s
    else mret s
  end.
Definition strspn (s accept : Z) : BM Z := fuel ← scan_fuel; e ← span_loop fuel true s accept; mret (e - s).
Definition strcspn (s reject : Z) : BM Z := fuel ← scan_fuel; e ← span_loop fuel false s reject; mret (e - s).

(** The two loops of [strstr]: up to the next [c], then a comparison of the rest. *)
Fixpoint seek (fuel : nat) (s c : Z) : BM Z :=
  match fuel with
  | O => fail OutOfFuel
  | S fuel => sc ← ldb s; if sc =? 0 then mret 0 else if negb (sc =? c) then seek fuel (s + 1) c else mret (s + 1)
  end.
Fixpoint strstr_loop (fuel : nat) (s c find len : Z) : BM Z :=
  match fuel with
  | O => fail OutOfFuel
  | S fuel =>
    k ← scan_fuel;
    s ← seek k s c;
    if s =? 0 then mret 0
    else
      r ← strncmp s find len;
      if negb (r =? 0) then strstr_loop fuel s c find len else mret (s - 1)
  end.
Definition strstr (s find : Z) : BM Z :=
  c ← ldb find;
  if negb (c =? 0) then
    len ← strlen (find + 1);
    fuel ← scan_fuel;
    strstr_loop fuel s c (find + 1) len
  else mret s.

(** ** Strings in memory *)

Definition str (m : bmem) (s : Z) (cs : list Z) : Prop := holds m s (cs ++ [0]) /\ Forall (fun c => c <> 0) cs.

Lemma str_cons m s c cs : str m s (c :: cs) <-> m !! s = Some c /\ c <> 0 /\ str m (s + 1) cs.
Proof. unfold str. cbn [app]. rewrite holds_cons, Forall_cons. tauto. Qed.

Lemma str_nil m s : str m s [] <-> m !! s = Some 0.
Proof. unfold str. cbn [app]. rewrite holds_cons. split; [by intros [[E _] _]|]. intros E. split; [split; [done|apply holds_nil]|constructor]. Qed.

Lemma str_size m s cs : str m s cs -> (length cs < size m)%nat.
Proof. intros [Hh _]. apply holds_size in Hh. rewrite length_app in Hh. cbn in Hh. lia. Qed.

Ltac ld := apply wp_bind; eapply wp_ldb; [eassumption|].

Lemma wp_strlen cs : forall s (Q : Z -> bmem -> Prop) m, str m s cs -> Z.of_nat (length cs) < 2 ^ 32 -> Q (Z.of_nat (length cs)) m -> wp (strlen s) Q m.
Proof.
  intros s Q m Hs Hl HQ. unfold strlen. apply wp_bind, wp_gets. pose proof (str_size _ _ _ Hs) as Hf. generalize (S (size m)) (Nat.lt_lt_succ_r _ _ Hf). clear Hf.
  assert (Hgen : forall fuel s n, str m s cs -> (length cs < fuel)%nat -> 0 <= n -> n + Z.of_nat (length cs) < 2 ^ 32 -> Q (n + Z.of_nat (length cs)) m -> wp (strlen_loop fuel s n) Q m).
  { clear. induction cs as [|c cs IH]; intros [|fuel] s n Hs Hf Hn Hl HQ; try (cbn in Hf; lia); cbn [strlen_loop].
    - apply str_nil in Hs. ld. cbn [Z.eqb negb]. apply wp_ret. by rewrite Z.add_0_r in HQ.
    - apply str_cons in Hs as (Ec & Hc & Hs). ld. rewrite (proj2 (Z.eqb_neq _ _)) by done. cbn [negb length] in *. rewrite u32_small by lia.
      apply IH; [done|lia|lia|lia|]. by replace (n + 1 + Z.of_nat (length cs)) with (n + Z.of_nat (S (length cs))) by lia. }
  intros fuel Hf. by apply Hgen.
Qed.

(** Lemma: [strlen] counts the bytes before the terminator. *)
Theorem strlen_exact m s cs : str m s cs -> Z.of_nat (length cs) < 2 ^ 32 -> strlen s m = Done (Z.of_nat (length cs)) m.
Proof. intros Hs Hl. apply run_done. by eapply wp_strlen. Qed.

(** ** Scanning *)

Lemma first_at_app_zero a v cs : 0 < a -> v <> 0 -> first_at a v (cs ++ [0]) = first_at a v cs.
Proof.
  revert a. induction cs as [|c cs IH]; intros a Ha Hv; cbn [app first_at].
  - by rewrite (proj2 (Z.eqb_neq _ _)) by lia.
  - destruct (c =? v); [done|]. apply IH; lia.
Qed.

Lemma wp_strchr_loop cs tmp : forall fuel s (Q : Z -> bmem -> Prop) m,
  str m s cs -> (length cs < fuel)%nat -> Q (first_at s tmp (cs ++ [0])) m -> wp (strchr_loop fuel s tmp) Q m.
Proof.
  induction cs as [|c cs IH]; intros [|fuel] s Q m Hs Hf HQ; try (cbn in Hf; lia); cbn [strchr_loop app first_at] in *.
  - apply str_nil in Hs. ld. rewrite andb_false_r. ld. apply wp_ret. done.
  - apply str_cons in Hs as (Ec & Hc & Hs). ld. rewrite (proj2 (Z.eqb_neq c 0)) by done. destruct (Z.eqb_spec c tmp) as [->|Hne]; cbn [negb andb].
    + ld. apply wp_ret. by rewrite Z.eqb_refl.
    + apply IH; [done|cbn in Hf; lia|done].
Qed.

Lemma wp_strchr cs c s (Q : Z -> bmem -> Prop) m : str m s cs -> Q (first_at s (u8 c) (cs ++ [0])) m -> wp (strchr s c) Q m.
Proof. intros Hs HQ. unfold strchr. apply wp_bind, wp_gets. eapply wp_strchr_loop; [done|pose proof (str_size _ _ _ Hs); lia|done]. Qed.

(** Lemma: [strchr] returns the address of the first byte equal to its argument, the terminator
    included, NULL if there is none. *)
Theorem strchr_exact m s c cs : str m s cs -> strchr s c m = Done (first_at s (u8 c) (cs ++ [0])) m.
Proof. intros Hs. apply run_done. by eapply wp_strchr. Qed.

(** The address of the last byte equal to [v], [r] if there is none. *)
Fixpoint last_at (a v r : Z) (bs : list Z) : Z := match bs with [] => r | b :: bs => last_at (a + 1) v (if b =? v then a else r) bs end.

(** Lemma: [strrchr] returns the address of the last byte equal to its argument, NULL if there is none. *)
Theorem strrchr_exact m s c cs : str m s cs -> strrchr s c m = Done (last_at s (u8 c) 0 (cs ++ [0])) m.
Proof.
  intros Hs. apply run_done. unfold strrchr. apply wp_bind, wp_gets. assert (Hf : (length cs < S (size m))%nat) by (pose proof (str_size _ _ _ Hs); lia).
  assert (Hr : exists r : Z, r = 0) by (by exists 0). destruct Hr as [r Er]. rewrite <-Er at 1. replace (last_at s (u8 c) 0 _) with (last_at s (u8 c) r (cs ++ [0])) by (by rewrite Er). clear Er.
  revert Hf. generalize (S (size m)). revert s r Hs. induction cs as [|b cs IH]; intros s r Hs [|fuel] Hf; try (cbn in Hf; lia); cbn [strrchr_loop app last_at].
  - apply str_nil in Hs. ld. ld. by apply wp_ret.
  - apply str_cons in Hs as (Ec & Hc & Hs). ld. ld. rewrite (proj2 (Z.eqb_neq b 0)) by done. cbn [negb]. apply IH; [done|cbn in Hf; lia].
Qed.

(** Lemma: [strcmp] returns the difference of the first bytes that differ, the terminators included. *)
Theorem strcmp_exact m s1 s2 cs ds : str m s1 cs -> str m s2 ds -> strcmp s1 s2 m = Done (first_difference (cs ++ [0]) (ds ++ [0])) m.
Proof.
  intros Hs Hd. apply run_done. unfold strcmp. apply wp_bind, wp_gets. assert (Hf : (length cs < S (size m))%nat) by (pose proof (str_size _ _ _ Hs); lia).
  revert Hf. generalize (S (size m)). revert s1 s2 ds Hs Hd. induction cs as [|b cs IH]; intros s1 s2 ds Hs Hd [|fuel] Hf; try (cbn in Hf; lia); cbn [strcmp_loop].
  - apply str_nil in Hs. destruct ds as [|d ds]; [apply str_nil in Hd|apply str_cons in Hd as (Ed & Hd & _)]; ld; ld; cbn [app first_difference]; rewrite andb_false_r; ld; ld; apply wp_ret; [done|].
    by rewrite (proj2 (Z.eqb_neq _ _)) by lia.
  - apply str_cons in Hs as (Eb & Hb & Hs). destruct ds as [|d ds]; [apply str_nil in Hd|apply str_cons in Hd as (Ed & Hd & Hds)]; ld; ld; cbn [app first_difference].
    + rewrite (proj2 (Z.eqb_neq b 0)) by done. cbn [andb]. ld. ld. by apply wp_ret.
    + rewrite (proj2 (Z.eqb_neq b 0)) by done. destruct (Z.eqb_spec b d); cbn [negb andb]; [apply IH; [done|done|cbn in Hf; lia]|]. ld. ld. by apply wp_ret.
Qed.

Lemma wp_strncmp cs : forall n s1 s2 ds (Q : Z -> bmem -> Prop) m, str m s1 cs -> str m s2 ds ->
  Q (first_difference (take n (cs ++ [0])) (take n (ds ++ [0]))) m -> wp (strncmp_loop n s1 s2) Q m.
Proof.
  induction cs as [|b cs IH]; intros [|n] s1 s2 ds Q m Hs Hd HQ; cbn [strncmp_loop]; try (apply wp_ret; exact HQ).
  - apply str_nil in Hs. destruct ds as [|d ds]; [apply str_nil in Hd|apply str_cons in Hd as (Ed & Hd & _)]; ld; ld; cbn [app first_difference take] in HQ; rewrite andb_false_r; ld; ld; apply wp_ret.
    + by destruct n.
    + by rewrite (proj2 (Z.eqb_neq _ _)) in HQ by lia.
  - apply str_cons in Hs as (Eb & Hb & Hs). destruct ds as [|d ds]; [apply str_nil in Hd|apply str_cons in Hd as (Ed & Hd & Hds)]; ld; ld; cbn [app first_difference take] in HQ.
    + rewrite (proj2 (Z.eqb_neq b 0)) in * by done. cbn [andb]. ld. ld. by apply wp_ret.
    + rewrite (proj2 (Z.eqb_neq b 0)) by done. destruct (Z.eqb_spec b d); cbn [negb andb]; [by eapply IH|]. ld. ld. by apply wp_ret.
Qed.

(** Lemma: [strncmp] does so for the first [n] bytes. *)
Theorem strncmp_exact m s1 s2 n cs ds : str m s1 cs -> str m s2 ds ->
  strncmp s1 s2 n m = Done (first_difference (take (Z.to_nat n) (cs ++ [0])) (take (Z.to_nat n) (ds ++ [0]))) m.
Proof. intros Hs Hd. apply run_done. unfold strncmp. by eapply wp_strncmp. Qed.

(** ** Copying *)

Lemma str_outside m m' s cs d n : str m s cs -> outside d n m m' -> s + Z.of_nat (length cs) + 1 <= d \/ d + n <= s -> str m' s cs.
Proof.
  intros [Hh Hc] Ho Hd. split; [|done]. eapply holds_outside; [exact Hh|exact Ho|]. rewrite length_app. cbn [length]. lia.
Qed.

Lemma wp_strcpy_loop cs : forall fuel d s (Q : unit -> bmem -> Prop) m,
  str m s cs -> (length cs < fuel)%nat -> mapped m d (Z.of_nat (length cs) + 1) -> s + Z.of_nat (length cs) + 1 <= d \/ d + Z.of_nat (length cs) + 1 <= s ->
  (forall m', copied m d s (Z.of_nat (length cs) + 1) m' -> Q tt m') -> wp (strcpy_loop fuel d s) Q m.
Proof.
  induction cs as [|c cs IH]; intros [|fuel] d s Q m Hs Hf Hd Hsep HQ; try (cbn in Hf; lia); cbn [strcpy_loop].
  - apply str_nil in Hs. ld. cbn [Z.eqb negb]. apply wp_stb; [specialize (Hd 0); rewrite Z.add_0_r in Hd; apply Hd; cbn; lia|]. apply HQ. by apply copied_1.
  - apply str_cons in Hs as (Ec & Hc & Hs). ld. rewrite (proj2 (Z.eqb_neq _ _)) by done. cbn [negb length] in *.
    pose proof (copied_1 m d s c Ec) as H1. apply wp_bind, wp_stb; [specialize (Hd 0); rewrite Z.add_0_r in Hd; apply Hd; lia|].
    assert (Hdom : forall x, is_Some (<[d := c]> m !! x) <-> is_Some (m !! x)).
    { apply (copied_dom _ _ _ _ _ H1); intros i Hi; replace i with 0 by lia; rewrite Z.add_0_r; [by rewrite Ec|]. specialize (Hd 0). rewrite Z.add_0_r in Hd. apply Hd. lia. }
    apply IH; [|lia| |lia|].
    + eapply str_outside; [exact Hs|by eapply copied_outside|lia].
    + eapply mapped_dom; [exact Hdom|]. replace (Z.of_nat (length cs) + 1) with (Z.of_nat (S (length cs)) + 1 - 1) by lia. apply mapped_part; [done|lia].
    + intros m' H2. apply HQ. eapply (copied_up _ _ _ _ 1); [lia|lia|exact H1|]. by replace (Z.of_nat (S (length cs)) + 1 - 1) with (Z.of_nat (length cs) + 1) by lia.
Qed.

Lemma wp_strcpy cs d s (Q : Z -> bmem -> Prop) m :
  str m s cs -> mapped m d (Z.of_nat (length cs) + 1) -> s + Z.of_nat (length cs) + 1 <= d \/ d + Z.of_nat (length cs) + 1 <= s ->
  (forall m', copied m d s (Z.of_nat (length cs) + 1) m' -> Q d m') -> wp (strcpy d s) Q m.
Proof.
  intros Hs Hd Hsep HQ. unfold strcpy. apply wp_bind, wp_gets. apply wp_bind. eapply wp_strcpy_loop; [done|pose proof (str_size _ _ _ Hs); lia|done|done|].
  intros m' Hc. apply wp_ret. by apply HQ.
Qed.

Lemma copied_str m d s cs m' : str m s cs -> copied m d s (Z.of_nat (length cs) + 1) m' -> str m' d cs.
Proof.
  intros [Hh Hc] Hcp. split; [|done]. eapply copied_holds; [exact Hh|]. rewrite length_app. cbn [length]. by replace (Z.of_nat (length cs + 1)) with (Z.of_nat (length cs) + 1) by lia.
Qed.

(** Lemma: [strcat] of strings in separate memory appends the second to the first, writes the
    bytes behind the first string only, and returns the destination. *)
Theorem strcat_exact m d s cs ds :
  str m d ds -> str m s cs -> Z.of_nat (length ds) < 2 ^ 32 -> mapped m d (Z.of_nat (length ds) + Z.of_nat (length cs) + 1) ->
  s + Z.of_nat (length cs) + 1 <= d \/ d + Z.of_nat (length ds) + Z.of_nat (length cs) + 1 <= s ->
  exists m', strcat d s m = Done d m' /\ str m' d (ds ++ cs) /\ str m' s cs /\ outside (d + Z.of_nat (length ds)) (Z.of_nat (length cs) + 1) m m'.
Proof.
  intros Hd Hs Hl Hm Hsep. set (n := Z.of_nat (length ds)) in *. set (k := Z.of_nat (length cs)) in *.
  assert (Hw : wp (strcat d s) (fun r m' => r = d /\ copied m (d + n) s (k + 1) m') m).
  { unfold strcat. apply wp_bind. eapply wp_strlen; [exact Hd|done|]. apply wp_bind. eapply (wp_strcpy cs); [exact Hs| |fold n k; lia|].
    - fold n k. replace (k + 1) with (n + k + 1 - n) by lia. apply mapped_part; [done|lia].
    - intros m' Hc. by apply wp_ret. }
  apply wp_run in Hw as (r & m' & E & -> & Hc). exists m'. split; [done|]. pose proof (copied_outside _ _ _ _ _ Hc) as Ho. pose proof (copied_str _ _ _ _ _ Hs Hc) as [Hh Hnz].
  split; [|split; [eapply str_outside; [exact Hs|exact Ho|fold k; lia]|done]]. destruct Hd as [Hhd Hnd]. apply holds_app in Hhd as [Hhd _].
  split; [|by apply Forall_app]. rewrite <-app_assoc. apply holds_app. split; [|exact Hh]. eapply holds_outside; [exact Hhd|exact Ho|fold n; lia].
Qed.

(** What [strncpy] leaves in the [n] bytes of the destination. *)
Definition padded (n : nat) (cs : list Z) : list Z := take n cs ++ replicate (n - length cs) 0.

(** Lemma: [strncpy] fills exactly [n] bytes: the string, cut off at [n] bytes, and zeros up to [n];
    a string of [n] bytes or more leaves no terminator. *)
Theorem strncpy_exact m d s n cs :
  str m s cs -> mapped m d (Z.of_nat n) -> s + Z.of_nat (length cs) + 1 <= d \/ d + Z.of_nat n <= s ->
  exists m', strncpy d s (Z.of_nat n) m = Done d m' /\ holds m' d (padded n cs) /\ outside d (Z.of_nat n) m m'.
Proof.
  intros Hs Hd Hsep. assert (Hw : wp (strncpy_loop n d s) (fun _ m' => holds m' d (padded n cs) /\ outside d (Z.of_nat n) m m') m).
  { revert n d s m Hs Hd Hsep. unfold padded. induction cs as [|c cs IH]; intros [|n] d s m Hs Hd Hsep; cbn [strncpy_loop].
    - apply wp_skip. split; [apply holds_nil|by intros x _].
    - apply str_nil in Hs. ld. cbn [Z.eqb negb]. apply wp_set_bytes; [done|]. intros m' Hf. rewrite take_nil, Nat.sub_0_r. cbn [app]. split.
      + intros i b E. apply lookup_replicate in E as [-> Hi]. rewrite Hf. in_range; (done || lia).
      + intros x Hx. rewrite Hf. in_range; (done || lia).
    - apply wp_skip. split; [apply holds_nil|by intros x _].
    - apply str_cons in Hs as (Ec & Hc & Hs). ld. rewrite (proj2 (Z.eqb_neq _ _)) by done. cbn [negb length] in *. apply wp_bind, wp_stb; [specialize (Hd 0); rewrite Z.add_0_r in Hd; apply Hd; lia|].
      assert (Ho : outside d 1 m (<[d := c]> m)) by (intros x Hx; rewrite lookup_insert_ne by lia; done). eapply wp_mono; [apply (IH n (d + 1) (s + 1))|].
      + eapply str_outside; [exact Hs|exact Ho|lia].
      + intros i Hi. replace (d + 1 + i) with (d + (1 + i)) by lia. destruct (decide (d + (1 + i) = d)) as [E|]; [lia|]. rewrite lookup_insert_ne by lia. apply Hd. lia.
      + lia.
      + cbn [take Nat.sub]. intros _ m' [Hh Ho']. split.
        * cbn [app]. apply holds_cons. split; [|done]. rewrite Ho' by lia. apply lookup_insert_eq.
        * intros x Hx. rewrite Ho' by lia. apply Ho. lia. }
  apply wp_run in Hw as ([] & m' & E & Hh & Ho). exists m'. split; [|done]. unfold strncpy, mbind, ST_bind. rewrite Nat2Z.id. by rewrite E.
Qed.

(** ** Length with a bound *)

(** Lemma: [strnlen] is the length cut off at the bound, when the byte at the bound may be read. *)
Theorem strnlen_exact m s n cs : str m s cs -> strnlen s (Z.of_nat n) m = Done (Z.of_nat (length cs `min` n)) m.
Proof.
  intros Hs. apply run_done. unfold strnlen. apply wp_bind, wp_gets. pose proof (str_size _ _ _ Hs) as Hf.
  assert (Hgen : forall fuel s k, str m s cs -> (length cs < fuel)%nat -> (k <= n)%nat ->
    wp (strnlen_loop fuel s (Z.of_nat k) (Z.of_nat n)) (fun r m' => r = Z.of_nat ((k + length cs) `min` n) /\ m' = m) m).
  { clear. induction cs as [|c cs IH]; intros [|fuel] s k Hs Hf Hk; try (cbn in Hf; lia); cbn [strnlen_loop].
    - apply str_nil in Hs. ld. cbn [Z.eqb negb andb length]. apply wp_ret. split; [lia|done].
    - apply str_cons in Hs as (Ec & Hc & Hs). ld. rewrite (proj2 (Z.eqb_neq _ _)) by done. cbn [negb andb length] in *. destruct (Z.ltb_spec (Z.of_nat k) (Z.of_nat n)).
      + replace (Z.of_nat k + 1) with (Z.of_nat (S k)) by lia. eapply wp_mono; [apply (IH fuel (s + 1) (S k)); [done|lia|lia]|]. cbn beta. intros r m' [-> ->]. split; [lia|done].
      + apply wp_ret. split; [lia|done]. }
  eapply wp_mono; [apply (Hgen (S (size m)) s 0%nat Hs); lia|]. cbn beta. intros r m' [-> ->]. split; [lia|done].
Qed.

(** Lemma: [strnlen] reads the byte behind a buffer that holds no terminator, although the bound says
    not to. *)
Theorem strnlen_reads_past m s cs : holds m s cs -> Forall (fun c => c <> 0) cs -> m !! (s + Z.of_nat (length cs)) = None ->
  fails (strnlen s (Z.of_nat (length cs))) Fault m.
Proof.
  intros Hh Hc Hend. unfold strnlen. apply fails_step, wp_gets. assert (Hf : (length cs < S (size m))%nat) by (pose proof (holds_size _ _ _ Hh); lia).
  assert (Hgen : forall fuel ds s k, holds m s ds -> Forall (fun c => c <> 0) ds -> m !! (s + Z.of_nat (length ds)) = None -> (length ds < fuel)%nat -> k + Z.of_nat (length ds) = Z.of_nat (length cs) ->
    fails (strnlen_loop fuel s k (Z.of_nat (length cs))) Fault m).
  { clear. induction fuel as [|fuel IH]; intros ds s k Hh Hc Hend Hf Hk; [lia|]. cbn [strnlen_loop]. destruct ds as [|d ds].
    - apply fails_bind. cbn [length] in Hend. rewrite Z.add_0_r in Hend. unfold fails, ldb. by rewrite Hend.
    - apply holds_cons in Hh as [Ed Hh]. apply Forall_cons in Hc as [Hd Hc]. cbn [length] in *. apply fails_step. eapply wp_ldb; [done|]. rewrite (proj2 (Z.eqb_neq _ _)) by done. cbn [negb andb].
      rewrite (proj2 (Z.ltb_lt _ _)) by lia. apply (IH ds); [done|done| |lia|lia]. by replace (s + 1 + Z.of_nat (length ds)) with (s + Z.of_nat (S (length ds))) by lia. }
  by apply (Hgen _ cs).
Qed.

(** ** Searching *)

(** Where [fs] occurs first in [cs]. *)
Fixpoint find_sub (fs cs : list Z) : option nat :=
  if bool_decide (fs `prefix_of` cs) then Some 0%nat
  else match cs with [] => None | _ :: cs => S <$> find_sub fs cs end.

(** Comparing the first bytes decides whether one string starts with another. *)
Lemma prefix_difference fs : forall cs, Forall (fun c => c <> 0) fs -> first_difference (take (length fs) (cs ++ [0])) (take (length fs) (fs ++ [0])) = 0 <-> fs `prefix_of` cs.
Proof.
  induction fs as [|f fs IH]; intros cs Hf; [split; [intros _; apply prefix_nil|done]|]. apply Forall_cons in Hf as [Hf0 Hf]. cbn [length]. destruct cs as [|c cs]; cbn [app take first_difference].
  - rewrite (proj2 (Z.eqb_neq _ _)) by lia. split; [lia|]. intros Hp. by apply prefix_nil_not in Hp.
  - destruct (Z.eqb_spec c f) as [->|Hne].
    + rewrite IH by done. split; [apply prefix_cons|apply prefix_cons_inv_2].
    + split; [lia|]. intros Hp. apply prefix_cons_inv_1 in Hp. congruence.
Qed.

(** The search loop stops behind the next [c], or with NULL. *)
Lemma wp_seek c cs : forall fuel s (Q : Z -> bmem -> Prop) m,
  0 < s -> c <> 0 -> str m s cs -> (length cs < fuel)%nat ->
  (c ∉ cs -> Q 0 m) -> (forall l1 l2, cs = l1 ++ c :: l2 -> c ∉ l1 -> Q (s + Z.of_nat (length l1) + 1) m) -> wp (seek fuel s c) Q m.
Proof.
  induction cs as [|b cs IH]; intros [|fuel] s Q m Hp Hc Hs Hf HQ0 HQ1; try (cbn in Hf; lia); cbn [seek].
  - apply str_nil in Hs. ld. cbn [Z.eqb]. apply wp_ret, HQ0. apply not_elem_of_nil.
  - apply str_cons in Hs as (Eb & Hb & Hs). ld. rewrite (proj2 (Z.eqb_neq b 0)) by done. destruct (Z.eqb_spec b c) as [->|Hne]; cbn [negb].
    + apply wp_ret. specialize (HQ1 [] cs eq_refl). cbn [length] in HQ1. rewrite Z.add_0_r in HQ1. apply HQ1. apply not_elem_of_nil.
    + apply IH; [lia|done|done|cbn in Hf; lia| |].
      * intros Hn. apply HQ0. rewrite elem_of_cons. intros [E|?]; [by symmetry in E|done].
      * intros l1 l2 -> Hl. specialize (HQ1 (b :: l1) l2 eq_refl). cbn [length] in HQ1. replace (s + 1 + Z.of_nat (length l1) + 1) with (s + Z.of_nat (S (length l1)) + 1) by lia.
        apply HQ1. rewrite elem_of_cons. intros [E|?]; [by symmetry in E|done].
Qed.

Lemma find_sub_skip c fs l1 l2 : c ∉ l1 -> find_sub (c :: fs) (l1 ++ l2) = (fun k => (length l1 + k)%nat) <$> find_sub (c :: fs) l2.
Proof.
  intros Hn. induction l1 as [|b l1 IH]; cbn [app length]; [by destruct (find_sub _ l2)|]. rewrite not_elem_of_cons in Hn. destruct Hn as [Hb Hn]. cbn [find_sub].
  rewrite bool_decide_false by (intros Hp%prefix_cons_inv_1; done). rewrite IH by done. by destruct (find_sub _ l2).
Qed.

Lemma find_sub_absent c fs cs : c ∉ cs -> find_sub (c :: fs) cs = None.
Proof. intros Hn. rewrite <-(app_nil_r cs), find_sub_skip by done. cbn [find_sub]. rewrite bool_decide_false; [done|]. apply prefix_nil_not. Qed.

Definition found (s : Z) (o : option nat) : Z := match o with Some k => s + Z.of_nat k | None => 0 end.

Lemma str_app m s l1 l2 : str m s (l1 ++ l2) -> str m (s + Z.of_nat (length l1)) l2.
Proof. intros [Hh Hc]. rewrite <-app_assoc in Hh. apply holds_app in Hh as [_ Hh]. apply Forall_app in Hc as [_ Hc]. done. Qed.

Lemma wp_strstr_loop c fs find : forall fuel cs s (Q : Z -> bmem -> Prop) m,
  0 < s -> c <> 0 -> str m s cs -> str m find fs -> (length cs < fuel)%nat ->
  Q (found s (find_sub (c :: fs) cs)) m -> wp (strstr_loop fuel s c find (Z.of_nat (length fs))) Q m.
Proof.
  induction fuel as [|fuel IH]; intros cs s Q m Hp Hc Hs Hfs Hf HQ; [lia|]. cbn [strstr_loop]. apply wp_bind, wp_gets. apply wp_bind.
  apply (wp_seek c cs); [done|done|done|pose proof (str_size _ _ _ Hs); lia| |].
  - intros Hn. cbn [Z.eqb]. apply wp_ret. by rewrite find_sub_absent in HQ.
  - intros l1 l2 -> Hn. rewrite (proj2 (Z.eqb_neq _ 0)) by lia. assert (Hs2 : str m (s + Z.of_nat (length l1) + 1) l2) by (apply str_app in Hs; by apply str_cons in Hs as (_ & _ & Hs)).
    apply wp_bind. unfold strncmp. rewrite Nat2Z.id. eapply (wp_strncmp l2); [done|done|]. rewrite find_sub_skip in HQ by done. cbn [find_sub] in HQ.
    pose proof (prefix_difference fs l2 (proj2 Hfs)) as Hpd. destruct (Z.eqb_spec (first_difference (take (length fs) (l2 ++ [0])) (take (length fs) (fs ++ [0]))) 0) as [E|E]; cbn [negb].
    + apply wp_ret. rewrite bool_decide_true in HQ by (apply prefix_cons; tauto). cbn in HQ. rewrite Nat.add_0_r in HQ. by replace (s + Z.of_nat (length l1) + 1 - 1) with (s + Z.of_nat (length l1)) by lia.
    + rewrite bool_decide_false in HQ by (intros Hpr%prefix_cons_inv_2; tauto). apply (IH l2); [lia|done|done|done|rewrite length_app in Hf; cbn in Hf; lia|].
      destruct (find_sub (c :: fs) l2) as [k|]; cbn [fmap option_fmap option_map found] in *; [|done]. by replace (s + Z.of_nat (length l1) + 1 + Z.of_nat k) with (s + Z.of_nat (length l1 + S k)) by lia.
Qed.

(** Lemma: [strstr] returns the address of the first occurrence of one string in another, NULL if
    there is none. *)
Theorem strstr_exact m s find cs fs :
  0 < s -> str m s cs -> str m find fs -> Z.of_nat (length fs) < 2 ^ 32 -> strstr s find m = Done (found s (find_sub fs cs)) m.
Proof.
  intros Hp Hs Hf Hl. apply run_done. unfold strstr. destruct fs as [|f fs].
  - apply str_nil in Hf. ld. cbn [Z.eqb negb]. apply wp_ret. split; [|done]. assert (find_sub [] cs = Some 0%nat) as ->; [|cbn; lia].
    destruct cs; cbn [find_sub]; by rewrite bool_decide_true by apply prefix_nil.
  - apply str_cons in Hf as (Ef & Hf0 & Hf). ld. rewrite (proj2 (Z.eqb_neq _ _)) by done. cbn [negb length] in *. apply wp_bind. eapply wp_strlen; [done|lia|].
    apply wp_bind, wp_gets. eapply (wp_strstr_loop f fs); [done|done|exact Hs|done|pose proof (str_size _ _ _ Hs); lia|done].
Qed.

(** [banana] in a string that starts with [banbanana]: the search restarts inside a failed match. *)
Lemma strstr_exact_witness :
  let text := [98; 97; 110; 98; 97; 110; 97; 110; 97; 115] in let word := [98; 97; 110; 97; 110; 97] in
  let m := place 100 (text ++ [0]) (place 200 (word ++ [0]) ∅) in strstr 100 200 m = Done 103 m.
Proof.
  intros text word m. change 103 with (found 100 (find_sub word text)). apply (strstr_exact m 100 200 text word); [lia| | |done].
  - split; [by apply holdsb_holds|repeat constructor; done].
  - split; [by apply holdsb_holds|repeat constructor; done].
Defined.

(** ** Spans *)

(** How many bytes of [cs] from the start are, or are not, among [as_]. *)
Fixpoint span (inside : bool) (as_ cs : list Z) : nat :=
  match cs with [] => 0%nat | c :: cs => if Bool.eqb (bool_decide (c ∈ as_)) inside then S (span inside as_ cs) else 0%nat end.

Lemma first_at_found a v bs : 0 < a -> negb (first_at a v bs =? 0) = bool_decide (v ∈ bs).
Proof.
  revert a. induction bs as [|b bs IH]; intros a Ha; cbn [first_at]; [by rewrite bool_decide_false by apply not_elem_of_nil|]. destruct (Z.eqb_spec b v) as [->|Hne].
  - rewrite (proj2 (Z.eqb_neq _ _)) by lia. by rewrite bool_decide_true by (apply elem_of_cons; by left).
  - rewrite IH by lia. apply bool_decide_ext. rewrite elem_of_cons. split; [by right|intros [E|?]; [congruence|done]].
Qed.

Lemma wp_span inside set as_ : forall cs fuel s (Q : Z -> bmem -> Prop) m,
  0 < set -> str m set as_ -> str m s cs -> Forall (fun c => 0 <= c < 256) cs -> (length cs < fuel)%nat ->
  Q (s + Z.of_nat (span inside as_ cs)) m -> wp (span_loop fuel inside s set) Q m.
Proof.
  induction cs as [|c cs IH]; intros [|fuel] s Q m Hp Ha Hs Hb Hf HQ; try (cbn in Hf; lia); cbn [span_loop span] in *.
  - apply str_nil in Hs. ld. cbn [Z.eqb negb]. apply wp_ret. by rewrite Z.add_0_r in HQ.
  - apply str_cons in Hs as (Ec & Hc & Hs). apply Forall_cons in Hb as [Hcb Hb]. ld. rewrite (proj2 (Z.eqb_neq _ _)) by done. cbn [negb]. apply wp_bind. eapply wp_strchr; [done|].
    rewrite u8_small by lia. rewrite first_at_found by done. assert (E : bool_decide (c ∈ as_ ++ [0]) = bool_decide (c ∈ as_)).
    { apply bool_decide_ext. rewrite elem_of_app, list_elem_of_singleton. tauto. }
    rewrite E. destruct (Bool.eqb (bool_decide (c ∈ as_)) inside).
    + apply IH; [done|done|done|done|cbn in Hf; lia|]. by replace (s + 1 + Z.of_nat (span inside as_ cs)) with (s + Z.of_nat (S (span inside as_ cs))) by lia.
    + apply wp_ret. by rewrite Z.add_0_r in HQ.
Qed.

(** Lemma: [strspn] and [strcspn] return the length of the longest start of the string whose bytes all
    are, or all are not, in the second one. *)
Theorem strspn_exact m s set as_ cs :
  0 < set -> str m set as_ -> str m s cs -> Forall (fun c => 0 <= c < 256) cs ->
  strspn s set m = Done (Z.of_nat (span true as_ cs)) m /\ strcspn s set m = Done (Z.of_nat (span false as_ cs)) m.
Proof.
  intros Hp Ha Hs Hb. assert (Hf : (length cs < S (size m))%nat) by (pose proof (str_size _ _ _ Hs); lia).
  split; apply run_done; [unfold strspn|unfold strcspn]; apply wp_bind, wp_gets; apply wp_bind; (eapply (wp_span _ set as_ cs); [done|done|done|done|done|]); apply wp_ret; (split; [lia|done]).
Qed.
