(* ===== verification/CNum.v ===== *)
(** * Numerals and binary search

    Models [atoi], [bsearch], [strtoul] and [strtol] of [src/lib/sys/string.c], the
    character classes of [inc/sys/ctype.h] they use and the limits of [inc/sys/limits.h].
    [int] and [long] have 32 bits on the target, while [LONG_MAX] is [__INT64_MAX__]. *)

From Stdlib Require Import ZArith Lia Bool List.
From stdpp Require Import base tactics numbers list gmap.
From S2P Require Import Prelude Bytes.

Local Open Scope Z_scope.

(** ** Model *)

Definition isupper (a : Z) : bool := u32 (a - 65) <? 26.
Definition isalpha (c : Z) : bool := u32 (Z.lor (u32 c) 32 - 97) <? 26.
Definition isspace (c : Z) : bool := (c =? 32) || (u32 (c - 9) <? 5).
Definition isdigit (a : Z) : bool := u32 (a - 48) <? 10.

Definition ULONG_MAX : Z := 2 ^ 32 - 1.
Definition LONG_MAX : Z := 2 ^ 63 - 1.
Definition LONG_MIN : Z := - LONG_MAX - 1.

(** [while (isspace( *s)) s++] *)
Fixpoint skip_spaces (fuel : nat) (s : Z) : BM Z :=
  match fuel with
  | O => fail OutOfFuel
  | S fuel => c ← ldb s; if isspace c then skip_spaces fuel (s + 1) else mret s
  end.

Fixpoint atoi_digits (fuel : nat) (s n : Z) : BM Z :=
  match fuel with
  | O => fail OutOfFuel
  | S fuel => c ← ldb s; if isdigit c then (c ← ldb s; atoi_digits fuel (s + 1) (s32 (10 * n - (c - 48)))) else mret n
  end.

Definition atoi (s : Z) : BM Z :=
  fuel ← scan_fuel;
  s ← skip_spaces fuel s;
  c ← ldb s;
  let neg := c =? 45 in
  let s := if (c =? 45) || (c =? 43) then s + 1 else s in
  n ← atoi_digits fuel s 0;
  mret (if neg then n else s32 (- n)).

(** The value of a character as a digit. *)
Definition digit (c : Z) : option Z :=
  if isdigit c then Some (c - 48) else if isalpha c then Some (c - (if isupper c then 55 else 87)) else None.

(** The loop over the digits: [c] is the character in front of [s].  The results are [s],
    [acc] and [any]. *)
Fixpoint accumulate (fuel : nat) (base cutoff cutlim s c acc any : Z) : BM (Z * Z * Z) :=
  match fuel with
  | O => fail OutOfFuel
  | S fuel =>
    match digit c with
    | None => mret (s, acc, any)
    | Some v =>
      if base <=? v then mret (s, acc, any)
      else
        let '(acc, any) :=
          if (any <? 0) || (cutoff <? acc) || ((acc =? cutoff) && (cutlim <? v)) then (acc, -1) else (u32 (u32 (acc * base) + v), 1) in
        c ← ldb s;
        accumulate fuel base cutoff cutlim (s + 1) c acc any
    end
  end.

(** [do c = *s++; while (isspace(c))], the sign, and the prefix of base 0 and 16: the results are
    [c], [s], [neg] and [base]. *)
Definition numeral_head (fuel : nat) (nptr base : Z) : BM (Z * Z * bool * Z) :=
  s ← skip_spaces fuel nptr;
  c ← ldb s;
  let s := s + 1 in
  let neg := c =? 45 in
  '(c, s) ← ((if (c =? 45) || (c =? 43) then (c ← ldb s; mret (c, s + 1)) else mret (c, s)) : BM (Z * Z));
  x ← ((if ((base =? 0) || (base =? 16)) && (c =? 48) then (v ← ldb s; mret ((v =? 120) || (v =? 88))) else mret false) : BM bool);
  '(c, s, base) ← ((if (x : bool) then (c ← ldb (s + 1); mret (c, s + 2, 16)) else mret (c, s, base)) : BM (Z * Z * Z));
  mret (c, s, neg, if base =? 0 then (if c =? 48 then 8 else 10) else base).

(** The value, [*endptr], and whether [errno] is set to [ERANGE]. *)
Definition strtoul (nptr base : Z) : BM (Z * Z * bool) :=
  fuel ← scan_fuel;
  '(c, s, neg, base) ← numeral_head fuel nptr base;
  if base =? 0 then fail Fault
  else
    '(s, acc, any) ← accumulate fuel base (ULONG_MAX / u32 base) (s32 (ULONG_MAX mod u32 base)) s c 0 0;
    let range := any <? 0 in
    let acc := if range then ULONG_MAX else if (neg : bool) then u32 (- acc) else acc in
    mret (acc, (if any =? 0 then nptr else s - 1), range).

Definition strtol (nptr base : Z) : BM (Z * Z * bool) :=
  fuel ← scan_fuel;
  '(c, s, neg, base) ← numeral_head fuel nptr base;
  if base =? 0 then fail Fault
  else
    let cutoff := u32 (if (neg : bool) then u32 (- u32 LONG_MIN) else LONG_MAX) in
    let cutlim := s32 (cutoff mod u32 base) in
    let cutoff := cutoff / u32 base in
    '(s, acc, any) ← accumulate fuel base cutoff cutlim s c 0 0;
    let range := any <? 0 in
    let acc := if range then u32 (if (neg : bool) then LONG_MIN else LONG_MAX) else if (neg : bool) then u32 (- acc) else acc in
    mret (s32 acc, (if any =? 0 then nptr else s - 1), range).

(** [cmp] gives the result of the comparison of the key with the element at an address. *)
Fixpoint bsearch_loop (fuel : nat) (cmp : Z -> Z) (array size low high : Z) : BM Z :=
  match fuel with
  | O => fail OutOfFuel
  | S fuel =>
    if low <? high then
      let index := low + (high - low) / 2 in
      let pivot := array + index * size in
      let result := cmp pivot in
      if result =? 0 then mret pivot
      else if 0 <? result then bsearch_loop fuel cmp array size (index + 1) high
      else bsearch_loop fuel cmp array size low index
    else mret 0
  end.

(** Every round halves the range. *)
Definition bsearch (cmp : Z -> Z) (array count size : Z) : BM Z :=
  bsearch_loop (Z.to_nat (Z.log2 count + 2)) cmp array size 0 count.

(** ** Binary search *)

Section Search.
Context (cmp : Z -> Z) (array size count : Z).
Let at_ (i : Z) : Z := cmp (array + i * size).

(** The array is sorted: the key lies behind every element before one it lies behind, and
    before every element behind one it lies before. *)
Definition sorted_for : Prop :=
  forall i j, 0 <= i -> i < j -> j < count -> (0 < at_ j -> 0 < at_ i) /\ (at_ i < 0 -> at_ j < 0).

Lemma wp_bsearch_loop fuel : forall low high (Q : Z -> bmem -> Prop) m,
  sorted_for -> 0 <= low <= high -> high <= count -> (high <= low \/ Z.log2 (high - low) + 1 < Z.of_nat fuel) -> (0 < fuel)%nat ->
  (forall i, 0 <= i < low -> 0 < at_ i) -> (forall i, high <= i < count -> at_ i < 0) ->
  (forall i, 0 <= i < count -> at_ i = 0 -> Q (array + i * size) m) -> ((forall i, 0 <= i < count -> at_ i <> 0) -> Q 0 m) ->
  wp (bsearch_loop fuel cmp array size low high) Q m.
Proof.
  induction fuel as [|fuel IH]; intros low high Q m Hs Hlo Hhi Hf H0 Hl Hh HQ1 HQ0; [lia|]. cbn [bsearch_loop]. destruct (Z.ltb_spec low high) as [Hlt|Hge].
  2: { apply wp_ret, HQ0. intros i Hi E. destruct (Z.lt_ge_cases i low); [specialize (Hl i)|specialize (Hh i)]; lia. }
  set (n := high - low) in *. pose proof (Z.div_mod n 2 ltac:(lia)) as Ed. pose proof (Z.mod_pos_bound n 2 ltac:(lia)) as Hm. set (index := low + n / 2).
  assert (Hi : low <= index < high) by (subst index; lia). assert (Hlog : forall k, k <= n / 2 -> k <= 0 \/ Z.log2 k + 1 < Z.of_nat fuel).
  { intros k Hk. destruct (Z.le_gt_cases k 0); [by left|right]. assert (Z.log2 k <= Z.log2 (n / 2)) by (by apply Z.log2_le_mono).
    assert (1 <= Z.log2 n) by (apply (Z.log2_le_mono 2); lia). assert (Z.log2 (n / 2) = Z.log2 n - 1); [|lia].
    change (n / 2) with (n / 2 ^ 1). rewrite <-Z.shiftr_div_pow2, Z.log2_shiftr by lia. lia. }
  fold (at_ index). destruct (Z.eqb_spec (at_ index) 0) as [E|Hne]; [apply wp_ret; apply HQ1; [lia|done]|].
  assert (Hf1 : (0 < fuel)%nat) by (destruct fuel; [destruct Hf as [|Hf]; [lia|]; pose proof (Z.log2_nonneg n); lia|lia]).
  destruct (Z.ltb_spec 0 (at_ index)) as [Hpos|Hneg].
  - apply IH; [done|lia|lia|destruct (Hlog (high - (index + 1))); [subst index; lia|left; lia|right; done]|done| |done|done|done].
    intros i Hi'. destruct (decide (i = index)) as [->|]; [done|]. apply (Hs i index); lia.
  - apply IH; [done|lia|lia|destruct (Hlog (index - low)); [subst index; lia|left; lia|right; done]|done|done| |done|done].
    intros i Hi'. destruct (decide (i = index)) as [->|]; [lia|]. apply (Hs index i); lia.
Qed.

End Search.

(** Lemma: on a sorted array [bsearch] returns an element that compares equal when there is one, NULL
    otherwise, and it ends after at most [log2 count + 1] comparisons, which is its fuel. *)
Theorem bsearch_exact m cmp array count size :
  0 <= count -> sorted_for cmp array size count ->
  (exists i, bsearch cmp array count size m = Done (array + i * size) m /\ 0 <= i < count /\ cmp (array + i * size) = 0) \/
  bsearch cmp array count size m = Done 0 m /\ forall i, 0 <= i < count -> cmp (array + i * size) <> 0.
Proof.
  intros Hc Hs. assert (Hw : wp (bsearch cmp array count size) (fun r m' => m' = m /\
    ((exists i, r = array + i * size /\ 0 <= i < count /\ cmp (array + i * size) = 0) \/ r = 0 /\ forall i, 0 <= i < count -> cmp (array + i * size) <> 0)) m).
  { pose proof (Z.log2_nonneg count). unfold bsearch. eapply (wp_bsearch_loop cmp array size count); [done|lia|lia|right; rewrite Z.sub_0_r; lia|lia|intros; lia|intros; lia| |].
    - intros i Hi E. split; [done|]. left. by exists i.
    - intros Hno. split; [done|]. by right. }
  apply wp_run in Hw as (r & m' & E & -> & [(i & -> & Hi)|[-> Hno]]); [left; by exists i|by right].
Qed.

(** Seven elements of four bytes; the key 9 compares with the element stored at each address. *)
Lemma bsearch_exact_witness :
  let cmp := fun p => 9 - 3 * ((p - 1000) / 4) in
  (exists i, bsearch cmp 1000 7 4 ∅ = Done (1000 + i * 4) ∅ /\ 0 <= i < 7 /\ cmp (1000 + i * 4) = 0) \/
  bsearch cmp 1000 7 4 ∅ = Done 0 ∅ /\ forall i, 0 <= i < 7 -> cmp (1000 + i * 4) <> 0.
Proof.
  intros cmp. apply (bsearch_exact ∅ cmp 1000 7 4); [lia|]. intros i j Hi Hij Hj. unfold cmp.
  replace (1000 + i * 4 - 1000) with (i * 4) by lia. replace (1000 + j * 4 - 1000) with (j * 4) by lia. rewrite !Z.div_mul by lia. lia.
Defined.

(** ** Numerals *)

(** The number a list of digits denotes, read after [acc]. *)
Fixpoint value (base acc : Z) (ds : list Z) : Z := match ds with [] => acc | d :: ds => value base (acc * base + d) ds end.

Definition digits_of (base : Z) (cs ds : list Z) : Prop := Forall2 (fun c d => digit c = Some d /\ 0 <= d < base) cs ds.
Definition no_digit (base c : Z) : Prop := match digit c with Some v => base <= v | None => True end.

Lemma value_mono base ds : forall acc, 1 <= base -> 0 <= acc -> Forall (fun d => 0 <= d < base) ds -> acc <= value base acc ds.
Proof.
  induction ds as [|d ds IH]; intros acc Hb Ha Hd; [done|]. apply Forall_cons in Hd as [Hd Hds]. cbn [value]. specialize (IH (acc * base + d) Hb ltac:(nia) Hds). nia.
Qed.

Lemma digits_range base cs ds : digits_of base cs ds -> Forall (fun d => 0 <= d < base) ds.
Proof. induction 1 as [|c d cs ds [_ Hd] _ IH]; constructor; done. Qed.

(** The test before each digit is exact. *)
Lemma cutoff_exact base max acc v : 2 <= base -> 0 <= max -> 0 <= acc <= max -> 0 <= v < base ->
  (max / base <? acc) || ((acc =? max / base) && (max mod base <? v)) = (max <? acc * base + v).
Proof.
  intros Hb Hm Ha Hv. pose proof (Z.div_mod max base ltac:(lia)) as E. pose proof (Z.mod_pos_bound max base ltac:(lia)) as Hr.
  destruct (Z.ltb_spec (max / base) acc), (Z.eqb_spec acc (max / base)), (Z.ltb_spec (max mod base) v), (Z.ltb_spec max (acc * base + v)); cbn; try done; nia.
Qed.

Lemma wp_accumulate base max stop : forall cs ds fuel s c acc any (Q : Z * Z * Z -> bmem -> Prop) m,
  2 <= base <= 36 -> 0 <= max < 2 ^ 32 -> digits_of base cs ds -> no_digit base stop -> holds m (s - 1) (cs ++ [stop]) -> m !! (s - 1) = Some c -> (length cs < fuel)%nat ->
  any < 0 \/ 0 <= any /\ 0 <= acc <= max ->
  (forall acc' any', (any' < 0 <-> any < 0 \/ max < value base acc ds) -> (0 <= any' -> acc' = value base acc ds) -> (any' = 0 <-> any = 0 /\ cs = []) -> Q (s + Z.of_nat (length cs), acc', any') m) ->
  wp (accumulate fuel base (max / base) (max mod base) s c acc any) Q m.
Proof.
  induction cs as [|b cs IH]; intros ds [|fuel] s c acc any Q m Hb Hm Hd Hst Hh Hc Hf Ha HQ; try (cbn in Hf; lia); cbn [accumulate app] in *.
  - apply holds_cons in Hh as [E _]. assert (c = stop) as -> by congruence. inversion Hd; subst. cbn [value length] in HQ. rewrite Z.add_0_r in HQ.
    assert (HQ' : Q (s, acc, any) m) by (apply HQ; [split; [by left|intros [?|?]; [done|lia]]|done|tauto]).
    unfold no_digit in Hst. destruct (digit stop) as [v|]; [rewrite (proj2 (Z.leb_le _ _)) by lia|]; by apply wp_ret.
  - apply holds_cons in Hh as [E Hh]. assert (c = b) as -> by congruence. inversion Hd as [|? d ? ds' [Ed Hd0] Hds]; subst. rewrite Ed, (proj2 (Z.leb_gt _ _)) by lia. replace (s - 1 + 1) with s in Hh by lia.
    destruct (cs ++ [stop]) as [|c' rest] eqn:Er; [by destruct cs|]. pose proof (proj1 (proj1 (holds_cons _ _ _ _) Hh)) as Ec'.
    assert (Hgo : forall acc1 any1, any1 < 0 \/ 0 <= any1 /\ 0 <= acc1 <= max -> (any1 < 0 <-> any < 0 \/ max < acc * base + d) -> any1 <> 0 -> (0 <= any1 -> acc1 = acc * base + d) ->
      wp (c0 ← ldb s; accumulate fuel base (max / base) (max mod base) (s + 1) c0 acc1 any1) Q m).
    { intros acc1 any1 Ha1 Hany Hnz Hacc. apply wp_bind. eapply wp_ldb; [exact Ec'|]. eapply (IH ds'); [done|done|done|done|by replace (s + 1 - 1) with s by lia|by replace (s + 1 - 1) with s by lia|cbn in Hf; lia|done|].
      intros acc' any' H1 H2 H3. cbn [value length] in HQ. replace (s + 1 + Z.of_nat (length cs)) with (s + Z.of_nat (S (length cs))) by lia. pose proof (digits_range _ _ _ Hds) as Hr.
      apply HQ.
      - rewrite H1. destruct (Z.lt_ge_cases any1 0) as [Hn|Hn]; [|rewrite (Hacc Hn); split; (intros [?|?]; [left|by right]); [lia|apply Hany; by left]].
        split; [intros _|by left]. destruct (proj1 Hany Hn) as [?|Hov]; [by left|right]. eapply Z.lt_le_trans; [exact Hov|]. apply value_mono; [lia| |done].
        destruct Ha as [|[_ Ha]]; [|nia]. lia.
      - intros Hn. destruct (Z.lt_ge_cases any1 0) as [Hn1|Hn1]; [destruct (proj2 H1 (or_introl Hn1)); lia|]. rewrite (H2 Hn). by rewrite (Hacc Hn1).
      - rewrite H3. split; [intros [? _]; done|by intros [_ ?]]. }
    destruct (Z.ltb_spec any 0) as [Hneg|Hpos]; cbn [orb]; [apply Hgo; [by left; lia|split; [by left|lia]|lia|lia]|].
    destruct Ha as [|[_ Ha]]; [lia|]. rewrite cutoff_exact by lia. destruct (Z.ltb_spec max (acc * base + d)) as [Hov|Hok].
    + apply Hgo; [left; lia|split; [by right|lia]|lia|lia].
    + rewrite (u32_small (acc * base)), u32_small by nia. apply Hgo; [right; nia|split; [lia|intros [?|?]; lia]|lia|done].
Qed.

(** The text of a numeral in an explicit base: spaces, a sign, digits, and a character that is
    no digit of the base. *)
Record numeral (m : bmem) (nptr base : Z) (sp sg cs ds : list Z) (stop : Z) : Prop := {
  nu_text : holds m nptr (sp ++ sg ++ cs ++ [stop]);
  nu_base : 2 <= base <= 36;
  nu_space : Forall (fun c => isspace c = true) sp;
  nu_sign : sg = [] \/ sg = [45] \/ sg = [43];
  nu_digits : digits_of base cs ds;
  nu_stop : no_digit base stop;
  nu_first : forall c, hd_error (sg ++ cs ++ [stop]) = Some c -> isspace c = false /\ (sg = [] -> c <> 45 /\ c <> 43);
  nu_prefix : base = 16 -> forall c rest, cs ++ [stop] = 48 :: c :: rest -> c <> 120 /\ c <> 88;
}.

Lemma wp_skip_spaces sp : forall fuel s c (Q : Z -> bmem -> Prop) m,
  holds m s (sp ++ [c]) -> Forall (fun c => isspace c = true) sp -> isspace c = false -> (length sp < fuel)%nat -> Q (s + Z.of_nat (length sp)) m -> wp (skip_spaces fuel s) Q m.
Proof.
  induction sp as [|b sp IH]; intros [|fuel] s c Q m Hh Hsp Hc Hf HQ; try (cbn in Hf; lia); cbn [skip_spaces app] in *; apply holds_cons in Hh as [E Hh]; apply wp_bind; (eapply wp_ldb; [done|]).
  - rewrite Hc. apply wp_ret. cbn [length] in HQ. by rewrite Z.add_0_r in HQ.
  - apply Forall_cons in Hsp as [-> Hsp]. eapply IH; [done|done|done|cbn in Hf; lia|]. cbn [length] in HQ. by replace (s + 1 + Z.of_nat (length sp)) with (s + Z.of_nat (S (length sp))) by lia.
Qed.

Definition negative (sg : list Z) : bool := bool_decide (sg = [45]).

Lemma wp_numeral_head m nptr base sp sg cs ds stop fuel (Q : Z * Z * bool * Z -> bmem -> Prop) :
  numeral m nptr base sp sg cs ds stop -> (length sp < fuel)%nat ->
  (forall c s, holds m (s - 1) (cs ++ [stop]) -> m !! (s - 1) = Some c -> s = nptr + Z.of_nat (length sp + length sg) + 1 -> Q (c, s, negative sg, base) m) -> wp (numeral_head fuel nptr base) Q m.
Proof.
  intros [Ht Hb Hsp Hsg _ Hstop Hfst Hpre] Hf HQ. unfold numeral_head. apply holds_app in Ht as [Hsp0 Ht]. set (a := nptr + Z.of_nat (length sp)) in *.
  assert (Hbody : exists c rest, cs ++ [stop] = c :: rest) by (destruct cs; by eexists _, _). destruct Hbody as (c & rest & Ebody).
  (* after the sign, [c] has been read and [s] points behind it *)
  assert (Htail : forall s, holds m (s - 1) (cs ++ [stop]) -> s = nptr + Z.of_nat (length sp + length sg) + 1 ->
    wp (x ← ((if ((base =? 0) || (base =? 16)) && (c =? 48) then (v ← ldb s; mret ((v =? 120) || (v =? 88))) else mret false) : BM bool);
        '(c, s, base) ← ((if (x : bool) then (c ← ldb (s + 1); mret (c, s + 2, 16)) else mret (c, s, base)) : BM (Z * Z * Z));
        mret (c, s, negative sg, if base =? 0 then (if c =? 48 then 8 else 10) else base)) Q m).
  { intros s Hh Es. assert (Ec : m !! (s - 1) = Some c) by (rewrite Ebody in Hh; by apply holds_cons in Hh as [E _]).
    assert (Hfin : Q (c, s, negative sg, base) m) by (by apply HQ). rewrite (proj2 (Z.eqb_neq base 0)) by lia. cbn [orb]. apply wp_bind.
    destruct (Z.eqb_spec base 16) as [E16|]; cbn [andb]; [|apply wp_ret; apply wp_bind, wp_ret, wp_ret; by rewrite (proj2 (Z.eqb_neq base 0)) by lia].
    destruct (Z.eqb_spec c 48) as [->|]; [|apply wp_ret; apply wp_bind, wp_ret, wp_ret; by rewrite (proj2 (Z.eqb_neq base 0)) by lia].
    assert (exists v rest', rest = v :: rest') as (v & rest' & ->).
    { destruct rest as [|v rest']; [|by eexists _, _]. destruct cs as [|c0 [|? ?]]; try done. injection Ebody as ->. rewrite E16 in Hstop. unfold no_digit in Hstop. change (digit 48) with (Some 0) in Hstop. cbv beta iota in Hstop. lia. }
    destruct (Hpre E16 v rest' Ebody) as [H1 H2]. rewrite Ebody in Hh. apply holds_cons in Hh as [_ Hh]. apply holds_cons in Hh as [Ev _]. replace (s - 1 + 1) with s in Ev by lia.
    apply wp_bind. eapply wp_ldb; [done|]. apply wp_ret. rewrite (proj2 (Z.eqb_neq v 120)), (proj2 (Z.eqb_neq v 88)) by done. cbn [orb].
    apply wp_bind, wp_ret, wp_ret. by rewrite (proj2 (Z.eqb_neq base 0)) by lia. }
  assert (Hskip : forall c1 rest1 (Q' : Z -> bmem -> Prop), sg ++ cs ++ [stop] = c1 :: rest1 -> Q' a m -> wp (skip_spaces fuel nptr) Q' m).
  { intros c1 rest1 Q' E HQ'. rewrite E in Ht, Hfst. apply holds_cons in Ht as [Et _]. eapply (wp_skip_spaces sp _ _ c1); [|done|apply (Hfst c1 eq_refl)|done|done].
    apply holds_app. split; [done|]. apply holds_cons. split; [done|apply holds_nil]. }
  destruct Hsg as [->|Hsg].
  - cbn [app] in *. apply wp_bind. eapply Hskip; [exact Ebody|]. pose proof (Hfst c) as Hc. rewrite Ebody in Hc. destruct (Hc eq_refl) as [_ Hns]. destruct (Hns eq_refl) as [H1 H2].
    assert (Ec : m !! a = Some c) by (rewrite Ebody in Ht; by apply holds_cons in Ht as [E _]). apply wp_bind. eapply wp_ldb; [done|].
    rewrite (proj2 (Z.eqb_neq c 45)), (proj2 (Z.eqb_neq c 43)) by done. cbn [orb]. apply wp_bind, wp_ret. apply Htail; [by rewrite Z.add_simpl_r|]. cbn [length]. subst a. lia.
  - assert (exists g, sg = [g] /\ (g =? 45) || (g =? 43) = true /\ (g =? 45) = negative sg) as (g & -> & Eg & Eneg) by (destruct Hsg as [->| ->]; by eexists).
    cbn [app] in *. apply wp_bind. eapply Hskip; [done|]. apply holds_cons in Ht as [Et Ht]. apply wp_bind. eapply wp_ldb; [done|]. rewrite Eg, Eneg.
    assert (Ec : m !! (a + 1) = Some c) by (rewrite Ebody in Ht; by apply holds_cons in Ht as [E _]). apply wp_bind, wp_bind. eapply wp_ldb; [done|]. apply wp_ret.
    apply Htail; [by rewrite Z.add_simpl_r|]. cbn [length]. subst a. lia.
Qed.

Lemma numeral_size m nptr base sp sg cs ds stop : numeral m nptr base sp sg cs ds stop -> (length sp + length cs < size m)%nat.
Proof. intros HN. pose proof (holds_size _ _ _ (nu_text _ _ _ _ _ _ _ _ HN)) as Hs. rewrite !length_app in Hs. cbn [length] in Hs. lia. Qed.

(** Where the numeral ends. *)
Definition numeral_end (nptr : Z) (sp sg cs : list Z) : Z := if bool_decide (cs = []) then nptr else nptr + Z.of_nat (length sp + length sg + length cs).

Lemma wp_numeral m nptr base sp sg cs ds stop max fuel c s (Q : Z * Z * Z -> bmem -> Prop) :
  numeral m nptr base sp sg cs ds stop -> 0 <= max < 2 ^ 32 -> (length cs < fuel)%nat ->
  holds m (s - 1) (cs ++ [stop]) -> m !! (s - 1) = Some c -> s = nptr + Z.of_nat (length sp + length sg) + 1 ->
  (forall s' acc any, (any <? 0) = (max <? value base 0 ds) -> (any <? 0 = false -> acc = value base 0 ds) -> (if any =? 0 then nptr else s' - 1) = numeral_end nptr sp sg cs -> Q (s', acc, any) m) ->
  wp (accumulate fuel base (max / u32 base) (s32 (max mod u32 base)) s c 0 0) Q m.
Proof.
  intros HN Hmax Hf Hh Hc Hs HQ. pose proof (nu_base _ _ _ _ _ _ _ _ HN) as Hb. rewrite u32_small by lia. pose proof (Z.mod_pos_bound max base ltac:(lia)). rewrite s32_small by lia.
  eapply wp_accumulate; [done|done|apply HN|apply HN|done|done|done|right; lia|]. intros acc any H1 H2 H3. apply HQ.
  - destruct (Z.ltb_spec any 0), (Z.ltb_spec max (value base 0 ds)); try done; exfalso; [destruct (proj1 H1); [done|lia|lia]|]. enough (any < 0) by lia. apply H1. by right.
  - intros Hn. apply H2. by apply Z.ltb_ge.
  - unfold numeral_end. destruct (Z.eqb_spec any 0) as [E|E]; [rewrite bool_decide_true by (by apply H3); done|].
    rewrite bool_decide_false by (intros ->; apply E, H3; done). lia.
Qed.

(** Lemma: [strtoul] of a numeral in an explicit base: the value, negated modulo [2 ^ 32] after a minus
    sign, and the address behind the digits; a value above [ULONG_MAX] saturates and sets
    [errno]. *)
Theorem strtoul_exact m nptr base sp sg cs ds stop :
  numeral m nptr base sp sg cs ds stop ->
  let v := value base 0 ds in
  strtoul nptr base m = Done ((if ULONG_MAX <? v then ULONG_MAX else if negative sg then u32 (- v) else v), numeral_end nptr sp sg cs, ULONG_MAX <? v) m.
Proof.
  intros HN v. apply run_done. pose proof (numeral_size _ _ _ _ _ _ _ _ HN) as Hsz. pose proof (nu_base _ _ _ _ _ _ _ _ HN) as Hb. unfold strtoul. apply wp_bind, wp_gets.
  apply wp_bind. eapply wp_numeral_head; [exact HN|lia|]. intros c s Hh Hc Es. rewrite (proj2 (Z.eqb_neq base 0)) by lia. apply wp_bind.
  eapply (wp_numeral m nptr base sp sg cs ds stop ULONG_MAX); [exact HN|done|lia|done|done|done|]. intros s' acc any H1 H2 H3. apply wp_ret. split; [|done]. rewrite H1, H3. fold v in H1, H2 |- *.
  destruct (ULONG_MAX <? v) eqn:E; [done|]. by rewrite H2.
Qed.

(** The text [ -15]. *)
Lemma strtoul_exact_witness :
  let m := place 100 [32; 45; 49; 53; 0] ∅ in
  strtoul 100 10 m = Done (2 ^ 32 - 15, 104, false) m.
Proof.
  intros m. apply (strtoul_exact m 100 10 [32] [45] [49; 53] [1; 5] 0). constructor.
  - by apply holdsb_holds.
  - lia.
  - by repeat constructor.
  - by right; left.
  - by repeat constructor.
  - done.
  - intros c [= <-]. split; [done|discriminate].
  - discriminate.
Defined.

(** Lemma: [strtol] on the target, whose [LONG_MAX] is a 64-bit constant: without a minus sign the
    limit is [2 ^ 32 - 1], so values from [2 ^ 31] on come back negative and without an
    error; after a minus sign every value but 0 gives 0 and [ERANGE]. *)
Theorem strtol_on_target m nptr base sp sg cs ds stop :
  numeral m nptr base sp sg cs ds stop ->
  let v := value base 0 ds in
  strtol nptr base m = Done (if negative sg then (0, numeral_end nptr sp sg cs, 0 <? v) else (s32 (Z.min v (2 ^ 32 - 1)), numeral_end nptr sp sg cs, 2 ^ 32 - 1 <? v)) m.
Proof.
  intros HN v. apply run_done. pose proof (numeral_size _ _ _ _ _ _ _ _ HN) as Hsz. pose proof (nu_base _ _ _ _ _ _ _ _ HN) as Hb. unfold strtol. apply wp_bind, wp_gets.
  apply wp_bind. eapply wp_numeral_head; [exact HN|lia|]. intros c s Hh Hc Es. rewrite (proj2 (Z.eqb_neq base 0)) by lia. cbn zeta.
  assert (Hv : 0 <= v) by (apply (value_mono base ds 0); [lia|lia|eapply digits_range; apply HN]).
  destruct (negative sg) eqn:En.
  - change (u32 (u32 (- u32 LONG_MIN))) with 0. apply wp_bind. eapply (wp_numeral m nptr base sp sg cs ds stop 0); [exact HN|done|lia|done|done|done|].
    intros s' acc any H1 H2 H3. apply wp_ret. split; [|done]. rewrite H1, H3. fold v in H1, H2 |- *. change (u32 LONG_MIN) with 0. destruct (Z.ltb_spec 0 v); [done|].
    rewrite H2 by (by rewrite H1). by replace v with 0 by lia.
  - change (u32 LONG_MAX) with (2 ^ 32 - 1). apply wp_bind. eapply (wp_numeral m nptr base sp sg cs ds stop (2 ^ 32 - 1)); [exact HN|done|lia|done|done|done|].
    intros s' acc any H1 H2 H3. apply wp_ret. split; [|done]. rewrite H1, H3. fold v in H1, H2 |- *. destruct (Z.ltb_spec (2 ^ 32 - 1) v); [by rewrite Z.min_r by lia|].
    rewrite H2 by (by rewrite H1). by rewrite Z.min_l by lia.
Qed.

Lemma strtol_on_target_witness :
  let m := place 100 [32; 45; 49; 53; 0] ∅ in
  strtol 100 10 m = Done (0, 104, true) m.
Proof.
  intros m. apply (strtol_on_target m 100 10 [32] [45] [49; 53] [1; 5] 0). constructor.
  - by apply holdsb_holds.
  - lia.
  - by repeat constructor.
  - by right; left.
  - by repeat constructor.
  - done.
  - intros c [= <-]. split; [done|discriminate].
  - discriminate.
Defined.

(** ** [atoi] *)

Definition decimal (cs ds : list Z) : Prop := Forall2 (fun c d => isdigit c = true /\ d = c - 48 /\ 0 <= d < 10) cs ds.

Lemma wp_atoi_digits stop : forall cs ds fuel s n (Q : Z -> bmem -> Prop) m,
  decimal cs ds -> isdigit stop = false -> holds m s (cs ++ [stop]) -> (length cs < fuel)%nat -> n <= 0 -> value 10 (- n) ds <= 2 ^ 31 ->
  Q (- value 10 (- n) ds) m -> wp (atoi_digits fuel s n) Q m.
Proof.
  induction cs as [|c cs IH]; intros ds [|fuel] s n Q m Hd Hst Hh Hf Hn Hv HQ; try (cbn in Hf; lia); cbn [atoi_digits app] in *; apply holds_cons in Hh as [E Hh]; apply wp_bind; (eapply wp_ldb; [done|]).
  - rewrite Hst. apply wp_ret. inversion Hd; subst. cbn [value] in HQ. by rewrite Z.opp_involutive in HQ.
  - inversion Hd as [|? d ? ds' (Hc & Ed & Hd0) Hds]; subst. rewrite Hc. apply wp_bind. eapply wp_ldb; [done|]. cbn [value] in *.
    assert (Hr : Forall (fun d => 0 <= d < 10) ds') by (clear -Hds; induction Hds as [|? ? ? ? (_ & _ & ?) _ IH]; constructor; done).
    pose proof (value_mono 10 ds' (- n * 10 + (c - 48)) ltac:(lia) ltac:(lia) Hr). rewrite s32_small by lia.
    assert (Ev : - (10 * n - (c - 48)) = - n * 10 + (c - 48)) by lia. apply (IH ds'); [done|done|done|cbn in Hf; lia|lia|by rewrite Ev|by rewrite Ev].
Qed.

(** Lemma: [atoi] returns the number a decimal numeral denotes, over the whole range of [int], its
    least value included. *)
Theorem atoi_exact m s sp sg cs ds stop :
  holds m s (sp ++ sg ++ cs ++ [stop]) -> Forall (fun c => isspace c = true) sp -> sg = [] \/ sg = [45] \/ sg = [43] -> decimal cs ds -> isdigit stop = false ->
  (forall c, hd_error (sg ++ cs ++ [stop]) = Some c -> isspace c = false /\ (sg = [] -> c <> 45 /\ c <> 43)) ->
  let v := if negative sg then - value 10 0 ds else value 10 0 ds in
  - 2 ^ 31 <= v <= 2 ^ 31 - 1 -> atoi s m = Done v m.
Proof.
  intros Ht Hsp Hsg Hd Hst Hfst v Hv. apply run_done. pose proof (holds_size _ _ _ Ht) as Hsz. rewrite !length_app in Hsz. cbn [length] in Hsz.
  unfold atoi. apply wp_bind, wp_gets. apply holds_app in Ht as [Hsp0 Ht]. set (a := s + Z.of_nat (length sp)) in *.
  assert (Hr : 0 <= value 10 0 ds).
  { apply (value_mono 10 ds 0); [lia|lia|]. clear -Hd. induction Hd as [|? ? ? ? (_ & _ & ?) _ IH]; constructor; done. }
  assert (Hb : exists c rest, sg ++ cs ++ [stop] = c :: rest) by (destruct sg, cs; by eexists _, _). destruct Hb as (c & rest & E).
  apply wp_bind. eapply (wp_skip_spaces sp _ _ c); [|done|rewrite E in Hfst; apply (Hfst c eq_refl)|lia|].
  { apply holds_app. split; [done|]. apply holds_cons. split; [|apply holds_nil]. rewrite E in Ht. by apply holds_cons in Ht as [? _]. }
  fold a. apply wp_bind. eapply wp_ldb; [rewrite E in Ht; by apply holds_cons in Ht as [? _]|]. apply wp_bind.
  assert (Hle : value 10 0 ds <= 2 ^ 31) by (subst v; destruct (negative sg); lia).
  assert (Hdig : forall b, holds m b (cs ++ [stop]) -> wp (atoi_digits (S (size m)) b 0) (fun n m' => n = - value 10 0 ds /\ m' = m) m).
  { intros b Hb. eapply (wp_atoi_digits stop cs ds); [done|done|done|lia|lia|done|done]. }
  assert (Hplus : negative sg = false -> s32 (- - value 10 0 ds) = v) by (intros En; subst v; rewrite En in *; rewrite s32_small; lia).
  destruct Hsg as [->|[->| ->]]; cbn [app] in *; [|injection E as <- <-; apply holds_cons in Ht as [_ Ht]; cbn [Z.eqb orb]..].
  - destruct (Hfst c) as [_ Hns]; [by rewrite E|]. destruct (Hns eq_refl) as [H1 H2]. rewrite (proj2 (Z.eqb_neq c 45)), (proj2 (Z.eqb_neq c 43)) by done. cbn [orb].
    eapply wp_mono; [by apply Hdig|]. cbn beta. intros n m' [-> ->]. apply wp_ret. split; [by apply Hplus|done].
  - eapply wp_mono; [by apply Hdig|]. cbn beta. intros n m' [-> ->]. by apply wp_ret.
  - eapply wp_mono; [by apply Hdig|]. cbn beta. intros n m' [-> ->]. apply wp_ret. split; [by apply Hplus|done].
Qed.
