(* ===== verification/Hex.v ===== *)
(** * Hexadecimal and decimal text

    Models [src/lib/sys/hex.c] and [src/lib/sys/dec.c] on byte-addressed memory, with the
    round trips: [hex2bin] reads what [bin2hex] wrote, [atoi] reads what [u8_to_dec] wrote. *)

From Stdlib Require Import ZArith Lia Bool List.
From stdpp Require Import base tactics numbers list gmap.
From S2P Require Import Prelude Bytes CNum.

Local Open Scope Z_scope.

(** ** Model *)

(** [None] stands for the result [-EINVAL]. *)
Definition char2hex (c : Z) : option Z :=
  if (48 <=? c) && (c <=? 57) then Some (c - 48)
  else if (97 <=? c) && (c <=? 102) then Some (c - 97 + 10)
  else if (65 <=? c) && (c <=? 70) then Some (c - 65 + 10)
  else None.

Definition hex2char (x : Z) : option Z :=
  if x <=? 9 then Some (x + 48) else if (10 <=? x) && (x <=? 15) then Some (x - 10 + 97) else None.

(** The loop of [bin2hex]; [false] stands for the early return of 0. *)
Fixpoint bin2hex_loop (n : nat) (buf hex i : Z) : BM bool :=
  match n with
  | O => mret true
  | S n =>
    b ← ldb (buf + i);
    match hex2char (Z.shiftr b 4) with
    | None => mret false
    | Some c =>
      stb (hex + 2 * i) c;;
      b ← ldb (buf + i);
      match hex2char (Z.land b 15) with
      | None => mret false
      | Some c => stb (hex + 2 * i + 1) c;; bin2hex_loop n buf hex (i + 1)
      end
    end
  end.

Definition bin2hex (buf buflen hex hexlen : Z) : BM Z :=
  if u32 (hexlen + 1) <? u32 (buflen * 2) then mret 0
  else
    ok ← bin2hex_loop (Z.to_nat buflen) buf hex 0;
    if (ok : bool) then stb (hex + u32 (2 * buflen)) 0;; mret (u32 (2 * buflen)) else mret 0.

Fixpoint hex2bin_loop (n : nat) (hex buf i : Z) : BM bool :=
  match n with
  | O => mret true
  | S n =>
    c ← ldb (hex + 2 * i);
    match char2hex c with
    | None => mret false
    | Some dec =>
      stb (buf + i) (u8 (Z.shiftl dec 4));;
      c ← ldb (hex + 2 * i + 1);
      match char2hex c with
      | None => mret false
      | Some dec => v ← ldb (buf + i); stb (buf + i) (u8 (v + dec));; hex2bin_loop n hex buf (i + 1)
      end
    end
  end.

Definition hex2bin (hex hexlen buf buflen : Z) : BM Z :=
  if buflen <? hexlen / 2 + hexlen mod 2 then mret 0
  else if negb (hexlen mod 2 =? 0) then
    c ← ldb hex;
    match char2hex c with
    | None => mret 0
    | Some dec =>
      stb buf dec;;
      ok ← hex2bin_loop (Z.to_nat (hexlen / 2)) (hex + 1) (buf + 1) 0;
      mret (if (ok : bool) then hexlen / 2 + hexlen mod 2 else 0)
    end
  else
    ok ← hex2bin_loop (Z.to_nat (hexlen / 2)) hex buf 0;
    mret (if (ok : bool) then hexlen / 2 + hexlen mod 2 else 0).

(** Three rounds: the divisor runs through 100, 10, 1. *)
Fixpoint dec_loop (fuel : nat) (buf buflen value divisor num_digits : Z) : BM (Z * Z * Z) :=
  match fuel with
  | O => mret (buf, buflen, num_digits)
  | S fuel =>
    if (0 <? buflen) && (0 <? divisor) then
      let digit := value / divisor in
      '(buf, buflen, num_digits) ←
        ((if negb (digit =? 0) || (divisor =? 1) || negb (num_digits =? 0)
          then (stb buf (u8 (digit + 48));; mret (buf + 1, u8 (buflen - 1), u8 (num_digits + 1)))
          else mret (buf, buflen, num_digits)) : BM (Z * Z * Z));
      dec_loop fuel buf buflen (u8 (value - digit * divisor)) (divisor / 10) num_digits
    else mret (buf, buflen, num_digits)
  end.

Definition u8_to_dec (buf buflen value : Z) : BM Z :=
  '(buf, buflen, num_digits) ← dec_loop 4 buf buflen value 100 0;
  (if negb (buflen =? 0) then stb buf 0 else skip);;
  mret num_digits.

(** ** Hexadecimal *)

Definition hex_digit (x : Z) : Z := if x <=? 9 then x + 48 else x + 87.
Definition hex_text (bs : list Z) : list Z := flat_map (fun b => [hex_digit (b / 16); hex_digit (b mod 16)]) bs.
Definition byte (b : Z) : Prop := 0 <= b < 256.

Lemma hex2char_digit x : 0 <= x < 16 -> hex2char x = Some (hex_digit x).
Proof. intros Hx. unfold hex2char, hex_digit. zcases; cbn [andb]; try lia; f_equal; lia. Qed.

Lemma char2hex_digit x : 0 <= x < 16 -> char2hex (hex_digit x) = Some x.
Proof. intros Hx. unfold char2hex, hex_digit. destruct (Z.leb_spec x 9); zcases; cbn [andb]; try lia; f_equal; lia. Qed.

Lemma nibbles b : byte b -> Z.shiftr b 4 = b / 16 /\ Z.land b 15 = b mod 16 /\ 0 <= b / 16 < 16 /\ 0 <= b mod 16 < 16.
Proof.
  intros Hb. unfold byte in Hb. rewrite Z.shiftr_div_pow2 by lia. change 15 with (Z.ones 4). rewrite Z.land_ones by lia. change (2 ^ 4) with 16.
  pose proof (Z.mod_pos_bound b 16 ltac:(lia)). split; [done|]. split; [done|]. split; [|done]. split; [apply Z.div_pos; lia|apply Z.div_lt_upper_bound; lia].
Qed.

Lemma hex_text_cons b bs : hex_text (b :: bs) = hex_digit (b / 16) :: hex_digit (b mod 16) :: hex_text bs.
Proof. done. Qed.

Lemma length_hex_text bs : length (hex_text bs) = (2 * length bs)%nat.
Proof. induction bs as [|b bs IH]; [done|]. rewrite hex_text_cons. cbn [length]. rewrite IH. lia. Qed.

Lemma wp_bin2hex_loop bs : forall i buf hex (Q : bool -> bmem -> Prop) m,
  Forall byte bs -> holds m (buf + i) bs -> mapped m (hex + 2 * i) (2 * Z.of_nat (length bs)) ->
  buf + i + Z.of_nat (length bs) <= hex + 2 * i \/ hex + 2 * i + 2 * Z.of_nat (length bs) <= buf + i ->
  (forall m', holds m' (hex + 2 * i) (hex_text bs) -> outside (hex + 2 * i) (2 * Z.of_nat (length bs)) m m' -> Q true m') -> wp (bin2hex_loop (length bs) buf hex i) Q m.
Proof.
  induction bs as [|b bs IH]; intros i buf hex Q m Hb Hh Hm Hsep HQ; cbn [length bin2hex_loop].
  - apply wp_ret. apply HQ; [apply holds_nil|by intros x _].
  - apply Forall_cons in Hb as [Hb Hbs]. apply holds_cons in Hh as [Eb Hh]. destruct (nibbles b Hb) as (E1 & E2 & H1 & H2). cbn [length] in *.
    apply wp_bind. eapply wp_ldb; [done|]. rewrite E1, hex2char_digit by done. apply wp_bind, wp_stb; [specialize (Hm 0); rewrite Z.add_0_r in Hm; apply Hm; lia|].
    apply wp_bind. eapply wp_ldb; [rewrite lookup_insert_ne by lia; done|]. rewrite E2, hex2char_digit by done.
    apply wp_bind, wp_stb; [rewrite lookup_insert_ne by lia; apply (Hm 1); lia|]. set (m1 := <[hex + 2 * i + 1 := _]> _).
    assert (Ho : outside (hex + 2 * i) 2 m m1) by (intros x Hx; subst m1; rewrite !lookup_insert_ne by lia; done).
    apply IH; [done| | |lia|].
    + replace (buf + (i + 1)) with (buf + i + 1) by lia. eapply holds_outside; [exact Hh|exact Ho|lia].
    + intros k Hk. replace (hex + 2 * (i + 1) + k) with (hex + 2 * i + (2 + k)) by lia. rewrite Ho by lia. apply Hm. lia.
    + replace (hex + 2 * (i + 1)) with (hex + 2 * i + 2) by lia. intros m' Hh' Ho'. apply HQ.
      * rewrite hex_text_cons. apply holds_cons. split; [rewrite Ho' by lia; subst m1; rewrite lookup_insert_ne, lookup_insert_eq by lia; done|].
        apply holds_cons. split; [rewrite Ho' by lia; subst m1; by rewrite lookup_insert_eq|]. by replace (hex + 2 * i + 1 + 1) with (hex + 2 * i + 2) by lia.
      * intros x Hx. rewrite Ho' by lia. apply Ho. lia.
Qed.

Lemma wp_hex2bin_loop bs : forall i buf hex (Q : bool -> bmem -> Prop) m,
  Forall byte bs -> holds m (hex + 2 * i) (hex_text bs) -> mapped m (buf + i) (Z.of_nat (length bs)) ->
  buf + i + Z.of_nat (length bs) <= hex + 2 * i \/ hex + 2 * i + 2 * Z.of_nat (length bs) <= buf + i ->
  (forall m', holds m' (buf + i) bs -> outside (buf + i) (Z.of_nat (length bs)) m m' -> Q true m') -> wp (hex2bin_loop (length bs) hex buf i) Q m.
Proof.
  induction bs as [|b bs IH]; intros i buf hex Q m Hb Hh Hm Hsep HQ; cbn [length hex2bin_loop].
  - apply wp_ret. apply HQ; [apply holds_nil|by intros x _].
  - apply Forall_cons in Hb as [Hb Hbs]. rewrite hex_text_cons in Hh. apply holds_cons in Hh as [Ea Hh]. apply holds_cons in Hh as [Ec Hh]. destruct (nibbles b Hb) as (_ & _ & H1 & H2). cbn [length] in *.
    apply wp_bind. eapply wp_ldb; [done|]. rewrite char2hex_digit by done. apply wp_bind, wp_stb; [specialize (Hm 0); rewrite Z.add_0_r in Hm; apply Hm; lia|].
    apply wp_bind. eapply wp_ldb; [rewrite lookup_insert_ne by lia; done|]. rewrite char2hex_digit by done.
    apply wp_bind. eapply wp_ldb; [apply lookup_insert_eq|]. apply wp_bind, wp_stb; [by rewrite lookup_insert_eq|]. set (m1 := <[buf + i := _]> _).
    assert (Ev : u8 (u8 (Z.shiftl (b / 16) 4) + b mod 16) = b).
    { rewrite Z.shiftl_mul_pow2 by lia. change (2 ^ 4) with 16. rewrite (u8_small (b / 16 * 16)) by lia. rewrite u8_small; pose proof (Z.div_mod b 16 ltac:(lia)); unfold byte in Hb; lia. }
    assert (Ho : outside (buf + i) 1 m m1) by (intros x Hx; subst m1; rewrite !lookup_insert_ne by lia; done).
    apply IH; [done| | |lia|].
    + replace (hex + 2 * (i + 1)) with (hex + 2 * i + 1 + 1) by lia. eapply holds_outside; [exact Hh|exact Ho|]. rewrite length_hex_text. lia.
    + intros k Hk. replace (buf + (i + 1) + k) with (buf + i + (1 + k)) by lia. rewrite Ho by lia. apply Hm. lia.
    + replace (buf + (i + 1)) with (buf + i + 1) by lia. intros m' Hh' Ho'. apply HQ.
      * apply holds_cons. split; [|done]. rewrite Ho' by lia. subst m1. by rewrite lookup_insert_eq, Ev.
      * intros x Hx. rewrite Ho' by lia. apply Ho. lia.
Qed.

Lemma wp_bin2hex bs buf hex hexlen (Q : Z -> bmem -> Prop) m :
  let n := Z.of_nat (length bs) in
  Forall byte bs -> 2 * n + 1 <= hexlen -> hexlen + 1 < 2 ^ 32 -> holds m buf bs -> mapped m hex (2 * n + 1) -> buf + n <= hex \/ hex + 2 * n + 1 <= buf ->
  (forall m', holds m' hex (hex_text bs ++ [0]) -> outside hex (2 * n + 1) m m' -> Q (2 * n) m') -> wp (bin2hex buf n hex hexlen) Q m.
Proof.
  intros n Hb Hl Hmax Hh Hm Hsep HQ. unfold bin2hex. rewrite !u32_small by lia. rewrite (proj2 (Z.ltb_ge _ _)) by lia. subst n. rewrite Nat2Z.id. apply wp_bind.
  apply wp_bin2hex_loop; rewrite ?Z.mul_0_r, ?Z.add_0_r; [done|done|eapply mapped_le; [done|lia]|lia|]. intros m' Ht Ho. apply wp_bind, wp_stb.
  { rewrite Ho by lia. apply Hm. lia. }
  apply wp_ret. apply HQ.
  - apply holds_app. rewrite length_hex_text. replace (Z.of_nat (2 * length bs)) with (2 * Z.of_nat (length bs)) by lia. split; [|apply holds_cons; split; [apply lookup_insert_eq|apply holds_nil]].
    eapply holds_outside; [exact Ht| |left; rewrite length_hex_text; reflexivity]. instantiate (1 := 1). intros x Hx. rewrite lookup_insert_ne by lia. done.
  - intros x Hx. rewrite lookup_insert_ne by lia. apply Ho. lia.
Qed.

(** Lemma: bytes written as hexadecimal text and read back are the same bytes, the text ends with a
    terminator, and each routine writes its own output only. *)
Theorem hex_roundtrip m bs buf hex out hexlen :
  let n := Z.of_nat (length bs) in
  Forall byte bs -> 2 * n + 1 <= hexlen -> hexlen + 1 < 2 ^ 32 -> holds m buf bs -> mapped m hex (2 * n + 1) -> mapped m out n ->
  buf + n <= hex \/ hex + 2 * n + 1 <= buf -> out + n <= hex \/ hex + 2 * n + 1 <= out ->
  exists m1 m2, bin2hex buf n hex hexlen m = Done (2 * n) m1 /\ holds m1 hex (hex_text bs ++ [0]) /\ outside hex (2 * n + 1) m m1 /\
    hex2bin hex (2 * n) out n m1 = Done n m2 /\ holds m2 out bs /\ outside out n m1 m2.
Proof.
  intros n Hb Hl Hmax Hh Hm Hmo Hsep Hsep'.
  assert (Hw : wp (bin2hex buf n hex hexlen) (fun r m' => r = 2 * n /\ holds m' hex (hex_text bs ++ [0]) /\ outside hex (2 * n + 1) m m') m) by (by apply wp_bin2hex).
  apply wp_run in Hw as (r & m1 & E1 & -> & Ht & Ho). exists m1. assert (Hw2 : wp (hex2bin hex (2 * n) out n) (fun r m' => r = n /\ holds m' out bs /\ outside out n m1 m') m1).
  { unfold hex2bin. assert (Ed : 2 * n / 2 = n) by (rewrite Z.mul_comm; apply Z.div_mul; lia). assert (Em : (2 * n) mod 2 = 0) by (rewrite Z.mul_comm; apply Z.mod_mul; lia).
    rewrite Ed, Em, Z.add_0_r, Z.ltb_irrefl. cbn [Z.eqb negb]. subst n. rewrite Nat2Z.id. apply holds_app in Ht as [Ht _]. apply wp_bind.
    apply wp_hex2bin_loop; rewrite ?Z.mul_0_r, ?Z.add_0_r; [done|done|intros k Hk; rewrite Ho by lia; by apply Hmo|lia|]. intros m' Hh' Ho'. by apply wp_ret. }
  apply wp_run in Hw2 as (r & m2 & E2 & -> & Hh2 & Ho2). by exists m2.
Qed.

Lemma hex_roundtrip_witness :
  let m := place 100 [0; 171; 255] (place 200 (replicate 7 9) (place 300 (replicate 3 9) ∅)) in
  exists m1 m2, bin2hex 100 3 200 7 m = Done 6 m1 /\ holds m1 200 (hex_text [0; 171; 255] ++ [0]) /\ outside 200 7 m m1 /\
    hex2bin 200 6 300 3 m1 = Done 3 m2 /\ holds m2 300 [0; 171; 255] /\ outside 300 3 m1 m2.
Proof.
  intros m. apply (hex_roundtrip m [0; 171; 255] 100 200 300 7); cbn [length]; [repeat constructor; lia|lia|lia|by apply holdsb_holds|by apply (mappedb_mapped _ _ 7)|by apply (mappedb_mapped _ _ 3)|lia|lia].
Defined.

(** Lemma: [bin2hex] accepts a buffer of one byte less than the text, without room for the last digit
    and the terminator, and writes past its end. *)
Theorem bin2hex_overruns m bs buf hex :
  let n := Z.of_nat (length bs) in
  Forall byte bs -> 0 < n < 2 ^ 31 -> holds m buf bs -> mapped m hex (2 * n - 1) -> m !! (hex + (2 * n - 1)) = None -> buf + n <= hex \/ hex + 2 * n <= buf ->
  fails (bin2hex buf n hex (2 * n - 1)) Fault m.
Proof.
  intros n Hb Hn Hh Hm Hend Hsep. destruct (exists_last (l := bs)) as (bs' & b & ->); [destruct bs; [cbn in n; lia|done]|]. assert (En : n = Z.of_nat (length bs') + 1) by (subst n; rewrite length_app; cbn [length]; lia). clearbody n.
  unfold bin2hex. rewrite !u32_small by lia. rewrite (proj2 (Z.ltb_ge _ _)) by lia. apply fails_bind. apply Forall_app in Hb as [Hb' Hb]. apply Forall_cons in Hb as [Hb _].
  assert (Hgen : forall i cs m, Forall byte cs -> holds m (buf + i) (cs ++ [b]) -> mapped m (hex + 2 * i) (2 * Z.of_nat (length cs) + 1) ->
    m !! (hex + 2 * i + (2 * Z.of_nat (length cs) + 1)) = None -> buf + i + Z.of_nat (length cs) + 1 <= hex + 2 * i \/ hex + 2 * i + 2 * Z.of_nat (length cs) + 2 <= buf + i ->
    fails (bin2hex_loop (S (length cs)) buf hex i) Fault m).
  { clear -Hb. intros i cs. revert i. induction cs as [|c cs IH]; intros i m Hcs Hh Hm Hend Hsep; cbn [app] in Hh; apply holds_cons in Hh as [E Hh]; cbn [bin2hex_loop length].
    - destruct (nibbles b Hb) as (E1 & E2 & H1 & H2). cbn [length] in *. apply fails_step. eapply wp_ldb; [done|]. rewrite E1, hex2char_digit by done.
      apply fails_step, wp_stb; [specialize (Hm 0); rewrite Z.add_0_r in Hm; apply Hm; lia|]. apply fails_step. eapply wp_ldb; [rewrite lookup_insert_ne by lia; done|].
      rewrite E2, hex2char_digit by done. apply fails_bind. unfold fails, stb. rewrite lookup_insert_ne by lia. replace (hex + 2 * i + (2 * Z.of_nat 0 + 1)) with (hex + 2 * i + 1) in Hend by lia. by rewrite Hend.
    - apply Forall_cons in Hcs as [Hc Hcs]. destruct (nibbles c Hc) as (E1 & E2 & H1 & H2). cbn [length] in *. apply fails_step. eapply wp_ldb; [done|]. rewrite E1, hex2char_digit by done.
      apply fails_step, wp_stb; [specialize (Hm 0); rewrite Z.add_0_r in Hm; apply Hm; lia|]. apply fails_step. eapply wp_ldb; [rewrite lookup_insert_ne by lia; done|].
      rewrite E2, hex2char_digit by done. apply fails_step, wp_stb; [rewrite lookup_insert_ne by lia; apply (Hm 1); lia|]. set (m1 := <[hex + 2 * i + 1 := _]> _).
      assert (Ho : outside (hex + 2 * i) 2 m m1) by (intros x Hx; subst m1; rewrite !lookup_insert_ne by lia; done). apply IH; [done| | | |lia].
      + replace (buf + (i + 1)) with (buf + i + 1) by lia. eapply holds_outside; [exact Hh|exact Ho|]. rewrite length_app. cbn [length]. lia.
      + intros k Hk. replace (hex + 2 * (i + 1) + k) with (hex + 2 * i + (2 + k)) by lia. rewrite Ho by lia. apply Hm. lia.
      + rewrite Ho by lia. replace (hex + 2 * (i + 1) + (2 * Z.of_nat (length cs) + 1)) with (hex + 2 * i + (2 * Z.of_nat (S (length cs)) + 1)) by lia. done. }
  replace (Z.to_nat n) with (S (length bs')) by lia. apply Hgen; rewrite ?Z.mul_0_r, ?Z.add_0_r; [done|done|eapply mapped_le; [done|lia]| |lia].
  by replace (hex + (2 * Z.of_nat (length bs') + 1)) with (hex + (2 * n - 1)) by lia.
Qed.

Lemma bin2hex_overruns_witness : fails (bin2hex 100 2 200 3) Fault (place 100 [18; 52] (place 200 [0; 0; 0] ∅)).
Proof.
  apply (bin2hex_overruns (place 100 [18; 52] (place 200 [0; 0; 0] ∅)) [18; 52] 100 200); cbn [length]; [repeat constructor; lia|lia|by apply holdsb_holds|by apply (mappedb_mapped _ _ 3)|done|lia].
Defined.

(** ** Decimal *)

(** The decimal text of a byte, without leading zeros. *)
Definition dec_text (v : Z) : list Z :=
  if v <? 10 then [v + 48] else if v <? 100 then [v / 10 + 48; v mod 10 + 48] else [v / 100 + 48; v / 10 mod 10 + 48; v mod 10 + 48].

Lemma dec_text_value v : byte v -> exists ds, decimal (dec_text v) ds /\ value 10 0 ds = v.
Proof.
  intros Hv. unfold byte in Hv. unfold dec_text, decimal. pose proof (Z.div_mod v 10 ltac:(lia)). pose proof (Z.mod_pos_bound v 10 ltac:(lia)).
  assert (Hd : forall x, 0 <= x < 10 -> isdigit (x + 48) = true /\ x = x + 48 - 48 /\ 0 <= x < 10).
  { intros x Hx. unfold isdigit. replace (x + 48 - 48) with x by lia. rewrite u32_small by lia. by rewrite (proj2 (Z.ltb_lt _ _)) by lia. }
  destruct (Z.ltb_spec v 10); [exists [v]; split; [repeat constructor; apply Hd; lia|cbn; lia]|].
  destruct (Z.ltb_spec v 100); [exists [v / 10; v mod 10]; split; [repeat constructor; apply Hd; lia|cbn [value]; lia]|].
  exists [v / 100; v / 10 mod 10; v mod 10]. pose proof (Z.div_mod (v / 10) 10 ltac:(lia)). pose proof (Z.mod_pos_bound (v / 10) 10 ltac:(lia)).
  assert (E : v / 100 = v / 10 / 10) by (by rewrite Z.div_div by lia). split; [repeat constructor; apply Hd; lia|cbn [value]; lia].
Qed.

(** The bytes just written are there. *)
Ltac written_bytes := repeat (apply holds_cons; split; [repeat (rewrite lookup_insert_ne by lia); apply lookup_insert_eq|]); apply holds_nil.

(** One round of the loop: a digit is written unless it is a leading zero. *)
Lemma wp_dec_round fuel buf n v divisor k (Q : Z * Z * Z -> bmem -> Prop) m :
  0 < n < 256 -> 0 < divisor -> 0 <= v < 10 * divisor -> v < 256 -> 0 <= k < 255 -> is_Some (m !! buf) ->
  (v < divisor -> divisor <> 1 -> k = 0 -> wp (dec_loop fuel buf n v (divisor / 10) 0) Q m) ->
  (divisor <= v \/ divisor = 1 \/ k <> 0 -> wp (dec_loop fuel (buf + 1) (n - 1) (v mod divisor) (divisor / 10) (k + 1)) Q (<[buf := v / divisor + 48]> m)) ->
  wp (dec_loop (S fuel) buf n v divisor k) Q m.
Proof.
  intros Hn Hdv Hv Hv2 Hk Hb HQ0 HQ1. cbn [dec_loop]. rewrite (proj2 (Z.ltb_lt 0 n)), (proj2 (Z.ltb_lt 0 divisor)) by lia. cbn [andb].
  pose proof (Z.div_mod v divisor ltac:(lia)) as E. pose proof (Z.mod_pos_bound v divisor ltac:(lia)) as Hm.
  assert (Hq : 0 <= v / divisor < 10) by (split; [apply Z.div_pos; lia|apply Z.div_lt_upper_bound; lia]). assert (Hq0 : v / divisor = 0 <-> v < divisor) by nia.
  assert (Er : u8 (v - v / divisor * divisor) = v mod divisor) by (rewrite u8_small; lia). rewrite Er. apply wp_bind.
  destruct (Z.eqb_spec (v / divisor) 0) as [E0|E0], (Z.eqb_spec divisor 1) as [E1|E1], (Z.eqb_spec k 0) as [->|Ek]; cbn [negb orb];
    try (apply wp_bind, wp_stb; [done|]; apply wp_ret; rewrite !u8_small by lia; apply HQ1; lia).
  apply wp_ret. replace (v mod divisor) with v by nia. apply HQ0; [tauto|done|done].
Qed.

Lemma dec_loop_end fuel buf n v k (Q : Z * Z * Z -> bmem -> Prop) m : Q (buf, n, k) m -> wp (dec_loop fuel buf n v 0 k) Q m.
Proof. intros HQ. destruct fuel; cbn [dec_loop]; [by apply wp_ret|]. rewrite andb_false_r. by apply wp_ret. Qed.

Lemma wp_u8_to_dec v buf n (Q : Z -> bmem -> Prop) m :
  byte v -> 4 <= n < 256 -> mapped m buf 4 ->
  (forall m', holds m' buf (dec_text v ++ [0]) -> Q (Z.of_nat (length (dec_text v))) m') -> wp (u8_to_dec buf n v) Q m.
Proof.
  intros Hv Hn Hm HQ. unfold byte in Hv. pose proof (Hm 0 ltac:(lia)) as M0. rewrite Z.add_0_r in M0. pose proof (Hm 1 ltac:(lia)) as M1. pose proof (Hm 2 ltac:(lia)) as M2. pose proof (Hm 3 ltac:(lia)) as M3.
  pose proof (Z.mod_pos_bound v 10 ltac:(lia)) as H10. pose proof (Z.mod_pos_bound v 100 ltac:(lia)) as H100.
  unfold u8_to_dec, dec_text in *. apply wp_bind. apply wp_dec_round; [lia|lia|lia|lia|lia|done| |]; change (100 / 10) with 10.
  - intros H1 _ _. apply wp_dec_round; [lia|lia|lia|lia|lia|done| |]; change (10 / 10) with 1.
    + intros H2 _ _. rewrite (proj2 (Z.ltb_lt v 10)) in HQ by lia. apply wp_dec_round; [lia|lia|lia|lia|lia|done|lia|]. intros _. change (1 / 10) with 0. rewrite Z.div_1_r. apply dec_loop_end.
      rewrite (proj2 (Z.eqb_neq _ 0)) by lia. cbn [negb]. apply wp_bind, wp_stb; [rewrite lookup_insert_ne by lia; done|]. apply wp_ret. apply HQ. cbn [app].
      written_bytes.
    + intros H2. assert (10 <= v) by lia. rewrite (proj2 (Z.ltb_ge v 10)), (proj2 (Z.ltb_lt v 100)) in HQ by lia. apply wp_dec_round; [lia|lia|lia|lia|lia|rewrite lookup_insert_ne by lia; done|lia|].
      intros _. change (1 / 10) with 0. rewrite Z.div_1_r. apply dec_loop_end. rewrite (proj2 (Z.eqb_neq _ 0)) by lia. cbn [negb].
      apply wp_bind, wp_stb; [rewrite !lookup_insert_ne by lia; by replace (buf + 1 + 1) with (buf + 2) by lia|]. apply wp_ret. apply HQ. cbn [app].
      written_bytes.
  - intros H1. assert (100 <= v) by lia. rewrite (proj2 (Z.ltb_ge v 10)), (proj2 (Z.ltb_ge v 100)) in HQ by lia.
    assert (Ed : v mod 100 / 10 = v / 10 mod 10 /\ v mod 100 mod 10 = v mod 10) by (Z.to_euclidean_division_equations; lia). destruct Ed as [Ed Em].
    apply wp_dec_round; [lia|lia|lia|lia|lia|rewrite lookup_insert_ne by lia; done|lia|]; change (10 / 10) with 1. intros _. rewrite Ed, Em.
    apply wp_dec_round; [lia|lia|lia|lia|lia|rewrite !lookup_insert_ne by lia; by replace (buf + 1 + 1) with (buf + 2) by lia|lia|]; change (1 / 10) with 0. intros _. rewrite Z.div_1_r. apply dec_loop_end.
    rewrite (proj2 (Z.eqb_neq _ 0)) by lia. cbn [negb]. apply wp_bind, wp_stb; [rewrite !lookup_insert_ne by lia; by replace (buf + 1 + 1 + 1) with (buf + 3) by lia|]. apply wp_ret. apply HQ. cbn [app].
    written_bytes.
Qed.

(** Lemma: the decimal text [u8_to_dec] writes for a byte is read back as that byte by [atoi]. *)
Theorem u8_to_dec_atoi m v buf n :
  byte v -> 4 <= n < 256 -> mapped m buf 4 ->
  exists m', u8_to_dec buf n v m = Done (Z.of_nat (length (dec_text v))) m' /\ holds m' buf (dec_text v ++ [0]) /\ atoi buf m' = Done v m'.
Proof.
  intros Hv Hn Hm. assert (Hw : wp (u8_to_dec buf n v) (fun r m' => r = Z.of_nat (length (dec_text v)) /\ holds m' buf (dec_text v ++ [0])) m) by (by apply wp_u8_to_dec).
  apply wp_run in Hw as (r & m' & E & -> & Hh). exists m'. split; [done|]. split; [done|]. destruct (dec_text_value v Hv) as (ds & Hd & Ev). unfold byte in Hv.
  pose proof (atoi_exact m' buf [] [] (dec_text v) ds 0) as Ha. cbn [app] in Ha. change (negative []) with false in Ha. cbv zeta iota in Ha. rewrite Ev in Ha.
  apply Ha; [done|constructor|by left|done|done| |lia]. intros c Hc. assert (48 <= c < 58 \/ c = 0) as Hr.
  { unfold dec_text in Hc. pose proof (Z.mod_pos_bound v 10 ltac:(lia)). revert Hc. zcases; cbn; intros [= <-]; try lia.
    - left. Z.to_euclidean_division_equations. lia.
    - left. Z.to_euclidean_division_equations. lia. }
  split; [|lia]. unfold isspace. rewrite (proj2 (Z.eqb_neq c 32)) by lia. cbn [orb]. apply Z.ltb_ge. destruct Hr as [Hr| ->]; [rewrite u32_small; lia|done].
Qed.
