(* ===== verification/Crc.v ===== *)
(** * Checksums

    Models [src/lib/sys/crc.c] on byte-addressed memory.  Each routine is proved equal to the
    bit-serial division it stands for; the two forms of the
    16-bit checksum, with the message shifted in and padded or with the bytes added at the
    top, agree; checksums over parts of a message compose. *)

From Stdlib Require Import ZArith Lia Bool List.
From stdpp Require Import base tactics numbers list gmap.
From S2P Require Import Prelude Bytes.

Local Open Scope Z_scope.

(** ** Model *)

(** A loop that reads [n] bytes from [src] and folds them into a register. *)
Fixpoint crc_loop (step : Z -> Z -> Z) (n : nat) (src seed : Z) : BM Z :=
  match n with O => mret seed | S n => b ← ldb src; crc_loop step n (src + 1) (step seed b) end.

Definition crc7_byte (seed b : Z) : Z :=
  let e := u8 (Z.lxor seed b) in
  let f := Z.lxor (Z.lxor e (Z.shiftr e 4)) (Z.shiftr e 7) in
  u8 (Z.lxor (Z.shiftl f 1) (Z.shiftl f 4)).
Definition crc7_be (seed src len : Z) : BM Z := crc_loop crc7_byte (Z.to_nat len) src seed.

Definition crc8_ccitt_small_table : list Z := [0; 7; 14; 9; 28; 27; 18; 21; 56; 63; 54; 49; 36; 35; 42; 45].
Definition crc8_nibble (val : Z) : Z := u8 (Z.lxor (Z.shiftl val 4) (nth (Z.to_nat (Z.shiftr val 4)) crc8_ccitt_small_table 0)).
Definition crc8_byte (val b : Z) : Z := crc8_nibble (crc8_nibble (Z.lxor val b)).
Definition crc8_ccitt (val buf cnt : Z) : BM Z := crc_loop crc8_byte (Z.to_nat cnt) buf val.

(** One bit of [crc16]: [bit] is shifted in and the polynomial taken off if a bit falls out. *)
Definition crc16_bit (polynomial crc bit : Z) : Z :=
  let divide := Z.land crc 32768 in
  let crc := Z.lor (u16 (Z.shiftl crc 1)) bit in
  if negb (divide =? 0) then Z.lxor crc polynomial else crc.

(** The eight bits of a byte, [b] counting up. *)
Fixpoint crc16_bits (polynomial byte : Z) (n : nat) (b crc : Z) : Z :=
  match n with O => crc | S n => crc16_bits polynomial byte n (b + 1) (crc16_bit polynomial crc (if Z.land byte (Z.shiftr 128 b) =? 0 then 0 else 1)) end.
Definition crc16_byte (polynomial crc byte : Z) : Z := crc16_bits polynomial byte 8 0 crc.

(** The loop runs over [len + padding] bytes, the sum taken in a [size_t]; padding bytes are
    not read and shift in zeros. *)
Definition crc16 (src len polynomial initial_value : Z) (pad : bool) : BM Z :=
  let total := u32 (len + (if pad then 2 else 0)) in
  crc ← crc_loop (crc16_byte polynomial) (Z.to_nat (Z.min len total)) src initial_value;
  mret (Nat.iter (Z.to_nat (total - len)) (fun crc => crc16_byte polynomial crc 0) crc).

Definition crc16_ccitt_byte (seed b : Z) : Z :=
  let e := u8 (Z.lxor seed b) in
  let f := u8 (Z.lxor e (Z.shiftl e 4)) in
  u16 (Z.lxor (Z.lxor (Z.lxor (Z.shiftr seed 8) (Z.shiftl f 8)) (Z.shiftl f 3)) (Z.shiftr f 4)).
Definition crc16_ccitt (seed src len : Z) : BM Z := crc_loop crc16_ccitt_byte (Z.to_nat len) src seed.

Definition crc16_itu_t_byte (seed b : Z) : Z :=
  let seed := u16 (Z.lor (Z.shiftr seed 8) (Z.shiftl seed 8)) in
  let seed := Z.lxor seed b in
  let seed := Z.lxor seed (Z.shiftr (Z.land seed 255) 4) in
  let seed := u16 (Z.lxor seed (Z.shiftl seed 12)) in
  u16 (Z.lxor seed (Z.shiftl (Z.land seed 255) 5)).
Definition crc16_itu_t (seed src len : Z) : BM Z := crc_loop crc16_itu_t_byte (Z.to_nat len) src seed.

(** [0xEDB88320 & -(crc & 1)]. *)
Definition crc32_bit (crc : Z) : Z := Z.lxor (Z.shiftr crc 1) (Z.land 3988292384 (u32 (- Z.land crc 1))).
Definition crc32_byte (crc b : Z) : Z := Nat.iter 8 crc32_bit (Z.lxor crc b).
Definition crc32_ieee_update (crc data len : Z) : BM Z := crc ← crc_loop crc32_byte (Z.to_nat len) data (not32 crc); mret (not32 crc).
Definition crc32_ieee (data len : Z) : BM Z := crc32_ieee_update 0 data len.

(** ** Reference: division bit by bit *)

(** The register [c] of [w] bits is shifted to the left; if a bit falls out, the polynomial is
    taken off. *)
Definition divide_bit (w poly c : Z) : Z := Z.lxor (Z.shiftl c 1 mod 2 ^ w) (if Z.testbit c (w - 1) then poly else 0).
(** The same for a register that is kept in reversed order. *)
Definition divide_rev (poly c : Z) : Z := Z.lxor (Z.shiftr c 1) (if Z.testbit c 0 then poly else 0).

(** Each byte is added at the end of the register that is shifted out first. *)
Definition division (w poly : Z) (c : Z) (bs : list Z) : Z := foldl (fun c b => Nat.iter 8 (divide_bit w poly) (Z.lxor c (Z.shiftl b (w - 8)))) c bs.
Definition division_rev (poly : Z) (c : Z) (bs : list Z) : Z := foldl (fun c b => Nat.iter 8 (divide_rev poly) (Z.lxor c b)) c bs.

(** The bits of a byte, the highest first. *)
Fixpoint byte_bits (b : Z) (n : nat) : list bool := match n with O => [] | S n => Z.testbit b (Z.of_nat n) :: byte_bits b n end.
Definition message_bits (bs : list Z) : list bool := bs ≫= (fun b => byte_bits b 8).

(** Long division of a message whose bits enter at the low end of the register. *)
Definition remainder (poly : Z) (c : Z) (bits : list bool) : Z := foldl (fun c t => Z.lxor (divide_bit 16 poly c) (Z.b2z t)) c bits.

(** ** The loop *)

Definition bytes_ok (bs : list Z) : Prop := Forall (fun b => 0 <= b < 256) bs.

Lemma wp_crc_loop step bs : forall src seed (Q : Z -> bmem -> Prop) m, holds m src bs -> Q (foldl step seed bs) m -> wp (crc_loop step (length bs) src seed) Q m.
Proof.
  induction bs as [|b bs IH]; intros src seed Q m Hh HQ; cbn [crc_loop length foldl] in *; [by apply wp_ret|]. apply holds_cons in Hh as [Eb Hh].
  apply wp_bind. eapply wp_ldb; [exact Eb|]. by apply IH.
Qed.

Lemma foldl_steps (P : Z -> Prop) (f g : Z -> Z -> Z) bs : forall c, (forall c b, P c -> 0 <= b < 256 -> f c b = g c b /\ P (f c b)) -> P c -> bytes_ok bs -> foldl f c bs = foldl g c bs.
Proof.
  induction bs as [|b bs IH]; intros c Hs Hc Hb; cbn [foldl]; [done|]. apply Forall_cons in Hb as [Hb Hbs]. destruct (Hs c b Hc Hb) as [E HP]. rewrite <-E. by apply IH.
Qed.

(** ** One byte *)

Lemma lxor_range n a b : 0 <= n -> 0 <= a < 2 ^ n -> 0 <= b < 2 ^ n -> 0 <= Z.lxor a b < 2 ^ n.
Proof.
  intros Hn Ha Hb. apply range_of_mod; [done|]. rewrite <-(Z.mod_small _ _ Ha), <-(Z.mod_small _ _ Hb).
  apply Z.bits_inj'. intros i Hi. rewrite Z.testbit_mod_pow2, !Z.lxor_spec, !Z.testbit_mod_pow2 by done. by destruct (i <? n), (Z.testbit a i), (Z.testbit b i).
Qed.

Lemma bit_above n a i : 0 <= a < 2 ^ n -> 0 <= n <= i -> Z.testbit a i = false.
Proof. intros Ha Hi. rewrite <-(Z.mod_small _ _ Ha). apply Z.mod_pow2_bits_high. lia. Qed.

Definition below (n : Z) (f : Z -> bool) : bool := forallb f (seqZ 0 n).
Lemma below_all n f : below n f = true -> forall c, 0 <= c < n -> f c = true.
Proof. unfold below. rewrite forallb_forall. intros Hf c Hc. apply Hf, list_elem_of_In, elem_of_seqZ. lia. Qed.

(** Steps that agree on every register are the same function of the register. *)
Lemma agree_below n f g : below n (fun c => (f c =? g c) && (0 <=? f c) && (f c <? n)) = true -> forall c, 0 <= c < n -> f c = g c /\ 0 <= f c < n.
Proof. intros Hb c Hc. pose proof (below_all _ _ Hb c Hc) as E. cbn in E. zbool. lia. Qed.

Lemma crc7_step c b : 0 <= c < 256 -> 0 <= b < 256 -> crc7_byte c b = Nat.iter 8 (divide_bit 8 18) (Z.lxor c (Z.shiftl b (8 - 8))) /\ 0 <= crc7_byte c b < 256.
Proof.
  intros Hc Hb. change (8 - 8) with 0. rewrite Z.shiftl_0_r. replace (crc7_byte c b) with (crc7_byte (Z.lxor c b) 0) by (unfold crc7_byte; by rewrite Z.lxor_0_r).
  apply (agree_below 256 (fun x => crc7_byte x 0)); [by vm_compute|]. by apply (lxor_range 8).
Qed.

Lemma crc8_step c b : 0 <= c < 256 -> 0 <= b < 256 -> crc8_byte c b = Nat.iter 8 (divide_bit 8 7) (Z.lxor c (Z.shiftl b (8 - 8))) /\ 0 <= crc8_byte c b < 256.
Proof.
  intros Hc Hb. change (8 - 8) with 0. rewrite Z.shiftl_0_r. replace (crc8_byte c b) with (crc8_byte (Z.lxor c b) 0) by (unfold crc8_byte; by rewrite Z.lxor_0_r).
  apply (agree_below 256 (fun x => crc8_byte x 0)); [by vm_compute|]. by apply (lxor_range 8).
Qed.

Lemma shiftr_lxor_byte c b : 0 <= b < 256 -> Z.shiftr (Z.lxor c b) 8 = Z.shiftr c 8.
Proof. intros Hb. apply Z.bits_inj'. intros i Hi. rewrite !Z.shiftr_spec, Z.lxor_spec, (bit_above 8 b) by (done || lia). apply xorb_false_r. Qed.

(** Additive functions are determined by the two bytes of their argument. *)
Definition additive (f : Z -> Z) : Prop := forall a b, f (Z.lxor a b) = Z.lxor (f a) (f b).

Lemma additive_id : additive (fun x => x).
Proof. done. Qed.
Lemma additive_lxor f g : additive f -> additive g -> additive (fun x => Z.lxor (f x) (g x)).
Proof. intros Hf Hg a b. rewrite Hf, Hg. rewrite !Z.lxor_assoc. f_equal. rewrite <-!Z.lxor_assoc. f_equal. apply Z.lxor_comm. Qed.
Lemma additive_shiftl f k : 0 <= k -> additive f -> additive (fun x => Z.shiftl (f x) k).
Proof. intros Hk Hf a b. by rewrite Hf, Z.shiftl_lxor. Qed.
Lemma additive_shiftr f k : 0 <= k -> additive f -> additive (fun x => Z.shiftr (f x) k).
Proof. intros Hk Hf a b. by rewrite Hf, Z.shiftr_lxor. Qed.
Lemma additive_mod f n : 0 <= n -> additive f -> additive (fun x => f x mod 2 ^ n).
Proof.
  intros Hn Hf a b. rewrite Hf. apply Z.bits_inj'. intros i Hi. rewrite Z.lxor_spec, !Z.testbit_mod_pow2, Z.lxor_spec by done. by destruct (i <? n).
Qed.
Lemma additive_land f k : additive f -> additive (fun x => Z.land (f x) k).
Proof. intros Hf a b. rewrite Hf. apply Z.bits_inj'. intros i Hi. rewrite Z.land_spec, !Z.lxor_spec, !Z.land_spec. by destruct (Z.testbit (f a) i), (Z.testbit (f b) i), (Z.testbit k i). Qed.
Lemma additive_select f n p : additive f -> additive (fun x => if Z.testbit (f x) n then p else 0).
Proof.
  intros Hf a b. rewrite Hf, Z.lxor_spec. destruct (Z.testbit (f a) n), (Z.testbit (f b) n); cbn; by rewrite ?Z.lxor_nilpotent, ?Z.lxor_0_r, ?Z.lxor_0_l.
Qed.
Lemma additive_iter f n : additive f -> additive (Nat.iter n f).
Proof. intros Hf. induction n as [|n IH]; [done|]. intros a b. change (f (Nat.iter n f (Z.lxor a b)) = Z.lxor (f (Nat.iter n f a)) (f (Nat.iter n f b))). by rewrite IH, Hf. Qed.

Create HintDb additive discriminated.
#[export] Hint Resolve additive_id additive_lxor additive_mod additive_land additive_select additive_iter : additive.
#[export] Hint Extern 1 (additive (fun x => Z.shiftl _ _)) => apply additive_shiftl; [lia|] : additive.
#[export] Hint Extern 1 (additive (fun x => Z.shiftr _ _)) => apply additive_shiftr; [lia|] : additive.
#[export] Hint Extern 1 (0 <= _) => lia : additive.

Lemma additive_divide w poly : 0 <= w -> additive (divide_bit w poly).
Proof. intros Hw. unfold divide_bit. apply additive_lxor; [apply additive_mod; [done|]|]; auto with additive. Qed.
Lemma additive_divide_rev poly : additive (divide_rev poly).
Proof. unfold divide_rev. auto with additive. Qed.

Lemma two_bytes c : 0 <= c < 65536 -> exists lo hi, 0 <= lo < 256 /\ 0 <= hi < 256 /\ c = Z.lxor lo (Z.shiftl hi 8).
Proof.
  intros Hc. exists (c mod 2 ^ 8), (c / 2 ^ 8). split; [apply Z.mod_pos_bound; lia|]. split; [split; [apply Z.div_pos; lia|apply Z.div_lt_upper_bound; lia]|].
  apply Z.bits_inj'. intros i Hi. rewrite Z.lxor_spec, Z.testbit_mod_pow2, Z.shiftl_spec by lia. destruct (Z.ltb_spec i 8); cbn [andb].
  - by rewrite (Z.testbit_neg_r _ (i - 8)), xorb_false_r by lia.
  - rewrite Z.div_pow2_bits by lia. cbn. f_equal. lia.
Qed.

Lemma agree_additive f g : additive f -> additive g -> below 256 (fun b => (f b =? g b) && (f (Z.shiftl b 8) =? g (Z.shiftl b 8))) = true -> forall c, 0 <= c < 65536 -> f c = g c.
Proof.
  intros Hf Hg Hb c Hc. destruct (two_bytes c Hc) as (lo & hi & Hlo & Hhi & ->). rewrite Hf, Hg. pose proof (below_all _ _ Hb lo Hlo) as E1. pose proof (below_all _ _ Hb hi Hhi) as E2. cbn in E1, E2. zbool. congruence.
Qed.

Lemma ccitt_step c b : 0 <= c < 65536 -> 0 <= b < 256 -> crc16_ccitt_byte c b = Nat.iter 8 (divide_rev 33800) (Z.lxor c b) /\ 0 <= crc16_ccitt_byte c b < 65536.
Proof.
  intros Hc Hb. split; [|apply (Z.mod_pos_bound _ (2 ^ 16)); lia]. replace (crc16_ccitt_byte c b) with (crc16_ccitt_byte (Z.lxor c b) 0) by (unfold crc16_ccitt_byte; by rewrite Z.lxor_0_r, shiftr_lxor_byte).
  apply (agree_additive (fun x => crc16_ccitt_byte x 0)); [|apply additive_iter, additive_divide_rev|by vm_compute|apply (lxor_range 16); lia].
  unfold crc16_ccitt_byte. assert (He : additive (fun x => u8 (Z.lxor x 0))) by (intros x y; rewrite !Z.lxor_0_r; by apply (additive_mod (fun x => x) 8)).
  assert (Hf : additive (fun x => u8 (Z.lxor (u8 (Z.lxor x 0)) (Z.shiftl (u8 (Z.lxor x 0)) 4)))) by (apply (additive_mod _ 8); auto with additive).
  apply (additive_mod _ 16); auto 10 with additive.
Qed.

(** The bytes of the register exchanged, then the byte added at the bottom. *)
Definition itu_rest (seed : Z) : Z :=
  let seed := Z.lxor seed (Z.shiftr (Z.land seed 255) 4) in
  let seed := u16 (Z.lxor seed (Z.shiftl seed 12)) in
  u16 (Z.lxor seed (Z.shiftl (Z.land seed 255) 5)).

Lemma additive_itu_rest : additive itu_rest.
Proof.
  unfold itu_rest. assert (H1 : additive (fun x => Z.lxor x (Z.shiftr (Z.land x 255) 4))) by auto with additive.
  assert (H2 : additive (fun x => u16 (Z.lxor (Z.lxor x (Z.shiftr (Z.land x 255) 4)) (Z.shiftl (Z.lxor x (Z.shiftr (Z.land x 255) 4)) 12)))) by (apply (additive_mod _ 16); auto with additive).
  apply (additive_mod _ 16); auto with additive.
Qed.

(** A register with its bytes exchanged; the two halves do not meet. *)
Definition swapped (c : Z) : Z := Z.lxor (Z.shiftr c 8) (u16 (Z.shiftl c 8)).

Lemma swapped_exact c : 0 <= c < 65536 -> u16 (Z.lor (Z.shiftr c 8) (Z.shiftl c 8)) = swapped c.
Proof.
  intros Hc. apply Z.bits_inj'. intros i Hi. unfold swapped, u16. rewrite Z.lxor_spec, !Z.testbit_mod_pow2, Z.lor_spec, Z.shiftr_spec, Z.shiftl_spec by lia. destruct (Z.ltb_spec i 16); cbn [andb].
  - destruct (Z.lt_ge_cases i 8); [by rewrite (Z.testbit_neg_r _ (i - 8)), orb_false_r, xorb_false_r by lia|]. rewrite (bit_above 16 c (i + 8)) by lia. cbn. done.
  - by rewrite (bit_above 16 c (i + 8)) by lia.
Qed.

Lemma swapped_byte b : 0 <= b < 256 -> swapped (Z.shiftl b 8) = b.
Proof. intros Hb. apply Z.eqb_eq. revert b Hb. apply (below_all 256). by vm_compute. Qed.

Lemma itu_step c b : 0 <= c < 65536 -> 0 <= b < 256 -> crc16_itu_t_byte c b = Nat.iter 8 (divide_bit 16 4129) (Z.lxor c (Z.shiftl b (16 - 8))) /\ 0 <= crc16_itu_t_byte c b < 65536.
Proof.
  intros Hc Hb. split; [|apply (Z.mod_pos_bound _ (2 ^ 16)); lia]. change (16 - 8) with 8. change (crc16_itu_t_byte c b) with (itu_rest (Z.lxor (u16 (Z.lor (Z.shiftr c 8) (Z.shiftl c 8))) b)).
  assert (Hs : additive swapped) by (unfold swapped; apply additive_lxor; [|apply (additive_mod _ 16)]; auto with additive).
  rewrite swapped_exact by done. rewrite <-(swapped_byte b Hb) at 1. rewrite <-Hs. apply (agree_additive (fun x => itu_rest (swapped x))); [|apply additive_iter, additive_divide; lia|by vm_compute|].
  - intros x y. by rewrite Hs, additive_itu_rest.
  - apply (lxor_range 16); [lia|lia|]. rewrite Z.shiftl_mul_pow2 by lia. lia.
Qed.

Lemma crc32_bit_exact c : crc32_bit c = divide_rev 3988292384 c.
Proof.
  unfold crc32_bit, divide_rev. f_equal. change 1 with (Z.ones 1) at 1. rewrite Z.land_ones by lia. change (2 ^ 1) with 2. rewrite Z.bit0_odd. rewrite Zmod_odd. by destruct (Z.odd c).
Qed.

Lemma crc32_step c b : crc32_byte c b = Nat.iter 8 (divide_rev 3988292384) (Z.lxor c b).
Proof. unfold crc32_byte. cbn [Nat.iter nat_rect]. by rewrite !crc32_bit_exact. Qed.

(** ** Shifting the message in *)

Lemma land_bit c k : 0 <= k -> (Z.land c (2 ^ k) =? 0) = negb (Z.testbit c k).
Proof.
  intros Hk. destruct (Z.testbit c k) eqn:Et; cbn [negb].
  - apply Z.eqb_neq. intros E. assert (Z.testbit (Z.land c (2 ^ k)) k = true) as E' by (by rewrite Z.land_spec, Et, Z.pow2_bits_true). by rewrite E, Z.bits_0 in E'.
  - apply Z.eqb_eq, Z.bits_inj'. intros i Hi. rewrite Z.land_spec, Z.bits_0, Z.pow2_bits_eqb by done. destruct (Z.eqb_spec k i) as [<-|]; [by rewrite Et|apply andb_false_r].
Qed.

Lemma crc16_bit_exact p c (t : bool) : crc16_bit p c (Z.b2z t) = Z.lxor (divide_bit 16 p c) (Z.b2z t).
Proof.
  unfold crc16_bit, divide_bit. change 32768 with (2 ^ 15). rewrite land_bit by lia. change (16 - 1) with 15.
  assert (El : Z.lor (u16 (Z.shiftl c 1)) (Z.b2z t) = Z.lxor (u16 (Z.shiftl c 1)) (Z.b2z t)).
  { apply Z.bits_inj'. intros i Hi. unfold u16. rewrite Z.lor_spec, Z.lxor_spec, Z.testbit_mod_pow2, Z.shiftl_spec by lia. destruct (decide (i = 0)) as [->|]; [by rewrite (Z.testbit_neg_r c)|].
    rewrite (bit_above 1 (Z.b2z t)) by (destruct t; cbn; lia). by rewrite orb_false_r, xorb_false_r. }
  rewrite El. unfold u16. destruct (Z.testbit c 15); cbn [negb]; rewrite ?Z.lxor_0_r; [|done]. rewrite !Z.lxor_assoc. f_equal. apply Z.lxor_comm.
Qed.

Lemma crc16_flag b n : (n < 8)%nat -> (if Z.land b (Z.shiftr 128 (7 - Z.of_nat n)) =? 0 then 0 else 1) = Z.b2z (Z.testbit b (Z.of_nat n)).
Proof.
  intros Hn. change 128 with (2 ^ 7). rewrite Z.shiftr_div_pow2, <-Z.pow_sub_r by lia. replace (7 - (7 - Z.of_nat n)) with (Z.of_nat n) by lia. rewrite land_bit by lia. by destruct (Z.testbit b (Z.of_nat n)).
Qed.

(** [crc16] is long division of the message, followed by sixteen zeros if it is padded. *)
Lemma crc16_bits_long p b n : (n <= 8)%nat -> forall c, crc16_bits p b n (8 - Z.of_nat n) c = remainder p c (byte_bits b n).
Proof.
  unfold remainder. induction n as [|n IH]; intros Hn c; cbn [crc16_bits byte_bits foldl]; [done|]. replace (8 - Z.of_nat (S n)) with (7 - Z.of_nat n) by lia.
  rewrite crc16_flag, crc16_bit_exact by lia. replace (7 - Z.of_nat n + 1) with (8 - Z.of_nat n) by lia. by apply IH; lia.
Qed.

Lemma crc16_byte_long p b c : crc16_byte p c b = remainder p c (byte_bits b 8).
Proof. rewrite <-crc16_bits_long by lia. unfold crc16_byte. f_equal. Qed.

Lemma remainder_app p c x y : remainder p c (x ++ y) = remainder p (remainder p c x) y.
Proof. unfold remainder. apply foldl_app. Qed.

Lemma crc16_message_long p bs : forall c, foldl (crc16_byte p) c bs = remainder p c (message_bits bs).
Proof.
  induction bs as [|b bs IH]; intros c; [done|]. cbn [foldl]. rewrite IH, crc16_byte_long. by rewrite <-remainder_app.
Qed.

Lemma crc16_padding p c : crc16_byte p (crc16_byte p c 0) 0 = remainder p c (replicate 16 false).
Proof. rewrite !crc16_byte_long, <-remainder_app. by replace (byte_bits 0 8 ++ byte_bits 0 8) with (replicate 16 false) by done. Qed.

(** The bits shifted in so far are the top bits of the byte. *)
Lemma take_bit b n : Z.lxor (Z.shiftl (Z.shiftr b (Z.of_nat (S n))) 1) (Z.b2z (Z.testbit b (Z.of_nat n))) = Z.shiftr b (Z.of_nat n).
Proof.
  apply Z.bits_inj'. intros i Hi. rewrite Z.lxor_spec, Z.shiftl_spec, (Z.shiftr_spec b (Z.of_nat n)) by lia. destruct (decide (i = 0)) as [->|].
  - rewrite (Z.testbit_neg_r _ (0 - 1)) by lia. rewrite Z.add_0_l. by destruct (Z.testbit b (Z.of_nat n)).
  - rewrite Z.shiftr_spec, (bit_above 1 (Z.b2z _)) by (lia || (destruct (Z.testbit b (Z.of_nat n)); cbn; lia)). rewrite xorb_false_r. f_equal. lia.
Qed.

Lemma divide_small p x : 0 <= x < 128 -> divide_bit 16 p x = Z.shiftl x 1.
Proof. intros Hx. unfold divide_bit. rewrite Z.mod_small by (rewrite Z.shiftl_mul_pow2 by lia; lia). by rewrite (bit_above 7 x (16 - 1)), Z.lxor_0_r by (done || lia). Qed.

Lemma shiftr_byte b n : 0 <= b < 256 -> 0 <= Z.shiftr b (Z.of_nat (S n)) < 128.
Proof.
  intros Hb. rewrite Z.shiftr_div_pow2 by lia. split; [apply Z.div_pos; lia|]. apply Z.div_lt_upper_bound; [lia|]. rewrite Nat2Z.inj_succ, Z.pow_succ_r by lia. pose proof (Z.pow_pos_nonneg 2 (Z.of_nat n)). nia.
Qed.

Lemma crc16_bits_exact p b n : 0 <= b < 256 -> (n <= 8)%nat ->
  forall x, crc16_bits p b n (8 - Z.of_nat n) (Z.lxor x (Z.shiftr b (Z.of_nat n))) = Z.lxor (Nat.iter n (divide_bit 16 p) x) b.
Proof.
  intros Hb. induction n as [|n IH]; intros Hn x; cbn [crc16_bits]; [by rewrite Z.shiftr_0_r|]. replace (8 - Z.of_nat (S n)) with (7 - Z.of_nat n) by lia.
  rewrite crc16_flag, crc16_bit_exact, (additive_divide 16 p) by lia. rewrite (divide_small p (Z.shiftr _ _)), Z.lxor_assoc, take_bit by (by apply shiftr_byte).
  replace (7 - Z.of_nat n + 1) with (8 - Z.of_nat n) by lia. rewrite IH by lia. by rewrite <-Nat.iter_succ_r.
Qed.

(** One byte shifted in without reduction. *)
Lemma crc16_byte_exact p c b : 0 <= b < 256 -> crc16_byte p c b = Z.lxor (Nat.iter 8 (divide_bit 16 p) c) b.
Proof.
  intros Hb. unfold crc16_byte. pose proof (crc16_bits_exact p b 8 Hb ltac:(lia) c) as E. replace (Z.shiftr b (Z.of_nat 8)) with 0 in E; [by rewrite Z.lxor_0_r in E|].
  rewrite Z.shiftr_div_pow2 by lia. symmetry. by apply Z.div_small.
Qed.

(** The remainder of the message followed by two zero bytes is that of the bytes added at
    the top. *)
Lemma shifted_in p bs : bytes_ok bs -> forall c, foldl (crc16_byte p) c bs = foldl (fun c b => Z.lxor (Nat.iter 8 (divide_bit 16 p) c) b) c bs.
Proof. intros Hb. induction Hb as [|b bs Hb _ IH]; intros c; cbn [foldl]; [done|]. by rewrite crc16_byte_exact. Qed.

Lemma iter_byte p b : 0 <= b < 256 -> Nat.iter 8 (divide_bit 16 p) b = Z.shiftl b 8.
Proof.
  intros Hb. assert (Hall : forall n, (n <= 8)%nat -> Nat.iter n (divide_bit 16 p) b = Z.shiftl b (Z.of_nat n)); [|by apply (Hall 8%nat)].
  induction n as [|n IH]; intros Hn; [by rewrite Z.shiftl_0_r|]. change (Nat.iter (S n) (divide_bit 16 p) b) with (divide_bit 16 p (Nat.iter n (divide_bit 16 p) b)). rewrite IH by lia. unfold divide_bit.
  rewrite Z.shiftl_shiftl by lia. replace (Z.of_nat n + 1) with (Z.of_nat (S n)) by lia. assert (2 ^ Z.of_nat (S n) <= 2 ^ 8) by (apply Z.pow_le_mono_r; lia).
  rewrite Z.mod_small by (rewrite Z.shiftl_mul_pow2 by lia; nia). rewrite Z.shiftl_spec, (bit_above 8 b) by (done || lia). by rewrite Z.lxor_0_r.
Qed.

(** Two bytes of zeros after one byte make the register that one byte gives after two. *)
Lemma pad_commutes p c b : 0 <= b < 256 ->
  Nat.iter 16 (divide_bit 16 p) (Z.lxor (Nat.iter 8 (divide_bit 16 p) c) b) = Nat.iter 8 (divide_bit 16 p) (Z.lxor (Nat.iter 16 (divide_bit 16 p) c) (Z.shiftl b 8)).
Proof.
  intros Hb. rewrite <-(iter_byte p b Hb). pose proof (additive_divide 16 p ltac:(lia)) as Ha. revert Ha. generalize (divide_bit 16 p). intros d Ha.
  rewrite (additive_iter d 16 Ha), (additive_iter d 8 Ha). rewrite <-(Nat.iter_add 16 8 d c), <-(Nat.iter_add 8 16 d c), <-(Nat.iter_add 8 8 d b). reflexivity.
Qed.

Lemma division_padded p bs : bytes_ok bs -> forall c,
  Nat.iter 16 (divide_bit 16 p) (foldl (fun c b => Z.lxor (Nat.iter 8 (divide_bit 16 p) c) b) c bs) = division 16 p (Nat.iter 16 (divide_bit 16 p) c) bs.
Proof.
  unfold division. change (16 - 8) with 8. intros Hb. induction Hb as [|b bs Hb _ IH]; intros c; cbn [foldl]; [reflexivity|]. by rewrite IH, pad_commutes.
Qed.

(** ** Theorems *)

Lemma crc_loop_exact step m src bs seed : holds m src bs -> crc_loop step (Z.to_nat (Z.of_nat (length bs))) src seed m = Done (foldl step seed bs) m.
Proof.
  intros Hh. rewrite Nat2Z.id. assert (Hw : wp (crc_loop step (length bs) src seed) (fun r m' => r = foldl step seed bs /\ m' = m) m) by (by apply wp_crc_loop).
  by apply wp_run in Hw as (r & m' & E & -> & ->).
Qed.

Lemma crc32_exact m src bs c : holds m src bs -> crc32_ieee_update c src (Z.of_nat (length bs)) m = Done (not32 (foldl crc32_byte (not32 c) bs)) m.
Proof. intros Hh. unfold crc32_ieee_update, mbind, ST_bind. by rewrite (crc_loop_exact _ _ _ _ _ Hh). Qed.

Lemma not32_involutive c : 0 <= c < 2 ^ 32 -> not32 (not32 c) = c.
Proof.
  intros Hc. unfold not32. rewrite <-(u32_small c Hc) at 2. apply Z.bits_inj'. intros i Hi. unfold u32. rewrite !Z.testbit_mod_pow2, !Z.lnot_spec, Z.testbit_mod_pow2, Z.lnot_spec by lia.
  destruct (i <? 32); [by destruct (Z.testbit c i)|done].
Qed.

Lemma crc32_range bs : forall c, 0 <= c < 2 ^ 32 -> bytes_ok bs -> 0 <= foldl crc32_byte c bs < 2 ^ 32.
Proof.
  induction bs as [|b bs IH]; intros c Hc Hb; cbn [foldl]; [done|]. apply Forall_cons in Hb as [Hb Hbs]. apply IH; [|done]. rewrite crc32_step.
  assert (Hd : forall x, 0 <= x < 2 ^ 32 -> 0 <= divide_rev 3988292384 x < 2 ^ 32).
  { intros x Hx. unfold divide_rev. apply lxor_range; [lia| |by destruct (Z.testbit x 0)]. rewrite Z.shiftr_div_pow2 by lia. change (2 ^ 1) with 2. split; [apply Z.div_pos; lia|apply Z.div_lt_upper_bound; lia]. }
  apply (Nat.iter_invariant 8 Z (divide_rev 3988292384) (fun x => 0 <= x < 2 ^ 32)); [exact Hd|]. apply lxor_range; lia.
Qed.

(** C38: Every checksum routine returns, without changing memory, the remainder that division
    bit by bit leaves: the table and the shifts of [crc7_be], [crc8_ccitt], [crc16_ccitt] and
    [crc16_itu_t] are the polynomials 0x09, 0x07, 0x1021 reversed and 0x1021, and
    [crc32_ieee_update] complements the register before and after; [crc16] divides the message,
    followed by sixteen zero bits if it is asked to pad, by the polynomial it is given, from the
    register it is given. *)
Theorem crc_division m src bs c :
  let n := Z.of_nat (length bs) in
  holds m src bs -> bytes_ok bs ->
  (0 <= c < 2 ^ 8 -> crc7_be c src n m = Done (division 8 18 c bs) m /\ crc8_ccitt c src n m = Done (division 8 7 c bs) m) /\
  (0 <= c < 2 ^ 16 -> crc16_ccitt c src n m = Done (division_rev 33800 c bs) m /\ crc16_itu_t c src n m = Done (division 16 4129 c bs) m) /\
  crc32_ieee_update c src n m = Done (not32 (division_rev 3988292384 (not32 c) bs)) m /\
  (n + 2 < 2 ^ 32 -> forall polynomial (pad : bool),
     crc16 src n polynomial c pad m = Done (remainder polynomial c (message_bits bs ++ if pad then replicate 16 false else [])) m).
Proof.
  intros n Hh Hb. unfold crc7_be, crc8_ccitt, crc16_ccitt, crc16_itu_t, n. split_and!.
  - intros Hc. rewrite !(crc_loop_exact _ _ _ _ _ Hh). unfold division. split; f_equal; eapply (foldl_steps (fun c => 0 <= c < 256)); eauto using crc7_step, crc8_step.
  - intros Hc. rewrite !(crc_loop_exact _ _ _ _ _ Hh). unfold division, division_rev. split; f_equal; eapply (foldl_steps (fun c => 0 <= c < 65536)); eauto using ccitt_step, itu_step.
  - rewrite (crc32_exact _ _ _ _ Hh). do 2 f_equal. apply (foldl_steps (fun _ => True)); [|done|done]. intros c' b _ _. split; [apply crc32_step|done].
  - intros Hn p pad. unfold crc16. rewrite u32_small by (destruct pad; lia). rewrite Z.min_l by (destruct pad; lia). unfold mbind, ST_bind. rewrite (crc_loop_exact _ _ _ _ _ Hh), crc16_message_long.
    unfold mret, ST_ret. f_equal. rewrite remainder_app. destruct pad.
    + replace (Z.of_nat (length bs) + 2 - Z.of_nat (length bs)) with 2 by lia. apply crc16_padding.
    + by rewrite Z.add_0_r, Z.sub_diag.
Qed.

(** The one-bit-at-a-time [crc16] with the two padding bytes, for the polynomial 0x1021 and a
    zero register, is [crc16_itu_t]. *)
Theorem crc16_padded_is_itu m src bs :
  let n := Z.of_nat (length bs) in
  holds m src bs -> bytes_ok bs -> n + 2 < 2 ^ 32 -> crc16 src n 4129 0 true m = crc16_itu_t 0 src n m.
Proof.
  intros n Hh Hb Hn. unfold crc16, crc16_itu_t. rewrite u32_small by lia. rewrite Z.min_l by lia. replace (n + 2 - n) with 2 by lia. subst n.
  cbn [mbind]. unfold mbind, ST_bind. rewrite !(crc_loop_exact _ _ _ _ _ Hh). unfold mret, ST_ret. f_equal.
  rewrite shifted_in by done. set (x := foldl _ _ _). change (Nat.iter (Z.to_nat 2) (fun c => crc16_byte 4129 c 0) x) with (crc16_byte 4129 (crc16_byte 4129 x 0) 0).
  rewrite !crc16_byte_exact, !Z.lxor_0_r by lia. rewrite <-(Nat.iter_add 8 8 _ x). change (8 + 8)%nat with 16%nat. subst x. rewrite division_padded by done.
  unfold division. symmetry. replace (Nat.iter 16 (divide_bit 16 4129) 0) with 0 by (by vm_compute). eapply (foldl_steps (fun c => 0 <= c < 65536)); [intros; by apply itu_step|lia|done].
Qed.

(** The checksum of a message is that of its second part continued from that of the first. *)
Theorem crc32_composes m src bs cs :
  holds m src (bs ++ cs) -> bytes_ok (bs ++ cs) ->
  exists c, crc32_ieee src (Z.of_nat (length bs)) m = Done c m /\
    crc32_ieee_update c (src + Z.of_nat (length bs)) (Z.of_nat (length cs)) m = crc32_ieee src (Z.of_nat (length (bs ++ cs))) m.
Proof.
  intros Hh Hb. pose proof Hh as Hh'. apply holds_app in Hh' as [Hh1 Hh2]. unfold crc32_ieee. rewrite (crc32_exact _ _ _ _ Hh1), (crc32_exact _ _ _ _ Hh). eexists. split; [done|].
  rewrite (crc32_exact _ _ _ _ Hh2), foldl_app, not32_involutive; [done|]. apply Forall_app in Hb as [Hb _]. apply (crc32_range bs); [|done]. apply u32_range.
Qed.

(** ** Witnesses: the check values of the message "123456789" *)

Definition digits_1_9 : list Z := [49; 50; 51; 52; 53; 54; 55; 56; 57].
Definition digits_mem : bmem := place 100 digits_1_9 ∅.

Lemma crc_division_witness :
  crc7_be 0 100 9 digits_mem = Done 234 digits_mem /\ crc8_ccitt 0 100 9 digits_mem = Done 244 digits_mem /\
  crc16_ccitt 0 100 9 digits_mem = Done 8585 digits_mem /\ crc16_itu_t 0 100 9 digits_mem = Done 12739 digits_mem /\
  crc32_ieee_update 0 100 9 digits_mem = Done 3421780262 digits_mem /\ crc16 100 9 4129 0 true digits_mem = Done 12739 digits_mem.
Proof.
  destruct (crc_division digits_mem 100 digits_1_9 0) as (E8 & E16 & E32 & EL); [by apply holdsb_holds|repeat constructor; lia|].
  destruct (E8 ltac:(lia)) as [E7 E8']. destruct (E16 ltac:(lia)) as [Ec Ei]. split_and!; [exact E7|exact E8'|exact Ec|exact Ei|exact E32|exact (EL ltac:(done) 4129 true)].
Defined.

Lemma crc16_padded_is_itu_witness : crc16 100 9 4129 0 true digits_mem = crc16_itu_t 0 100 9 digits_mem.
Proof. apply (crc16_padded_is_itu digits_mem 100 digits_1_9); [by apply holdsb_holds|repeat constructor; lia|by vm_compute]. Defined.

Lemma crc32_composes_witness :
  exists c, crc32_ieee 100 4 digits_mem = Done c digits_mem /\ crc32_ieee_update c 104 5 digits_mem = crc32_ieee 100 9 digits_mem.
Proof. apply (crc32_composes digits_mem 100 [49; 50; 51; 52] [53; 54; 55; 56; 57]); [by apply holdsb_holds|repeat constructor; lia]. Defined.
