(* ===== verification/Random.v ===== *)
(** * Random words and canaries

    Models the generator of [src/kernel/boot.c] and its two users: [set_random32], which fills
    a buffer, and [set_random32_canary_word], which fills the stack canary byte by byte.  The
    cycle counter is a parameter: the [k]-th reading of it is [get_cycle_32 k].

    Proved: the generator does not repeat while the counter stands still; the canary routine
    fills exactly the bytes asked for; [set_random32] does so for whole words, and for every
    other length it never ends, writes past the buffer or reads past its local variable. *)

From Stdlib Require Import ZArith Lia Bool List Znumtheory.
From stdpp Require Import base tactics numbers list gmap.
From S2P Require Import Prelude Bytes.

Local Open Scope Z_scope.

Definition random32_dvalue : Z := 1000000013.

(** Memory, the static counter, and how often the cycle counter was read. *)
Record rstate := mk_rstate { rmem : bmem; random32_count : Z; cycle_reads : nat }.
Notation RM := (ST rstate).

Definition on_rmem {A} (m : BM A) : RM A := fun s => match m (rmem s) with Done a m' => Done a (mk_rstate m' (random32_count s) (cycle_reads s)) | Fail e => Fail e end.

(** The four bytes of a word, lowest first. *)
Definition le_bytes (w : Z) : list Z := [w mod 256; w / 256 mod 256; w / 65536 mod 256; w / 16777216 mod 256].

Fixpoint store_bytes (a : Z) (bs : list Z) : BM unit := match bs with [] => skip | b :: bs => stb a b;; store_bytes (a + 1) bs end.

Section Random.
Variable get_cycle_32 : nat -> Z.

(** [atomic_add] returns the value before the addition. *)
Definition get_random32_value : RM Z := fun s =>
  Done (u32 (get_cycle_32 (cycle_reads s) + random32_count s)) (mk_rstate (rmem s) (u32 (random32_count s + random32_dvalue)) (S (cycle_reads s))).

(** [memcpy(udst, &ret, n)] from the local [ret]: more than its four bytes are not there. *)
Definition copy_local (udst ret n : Z) : RM unit :=
  if n <=? 4 then on_rmem (store_bytes udst (take (Z.to_nat n) (le_bytes ret))) else fail Fault.

Fixpoint set_random32_loop (fuel : nat) (outlen udst len blocksize : Z) : RM unit :=
  match fuel with
  | O => fail OutOfFuel
  | S fuel =>
    if len <? outlen then
      ret ← get_random32_value;
      if u32 (outlen - len) <? 4 then
        let blocksize := len in
        copy_local udst ret blocksize;;
        set_random32_loop fuel outlen udst (u32 (len + blocksize)) blocksize
      else
        on_rmem (store_bytes udst (le_bytes ret));;
        set_random32_loop fuel outlen (udst + 4) (u32 (len + blocksize)) blocksize
    else skip
  end.
Definition set_random32 (fuel : nat) (dst outlen : Z) : RM unit := set_random32_loop fuel outlen dst 0 4.

Fixpoint canary_loop (fuel : nat) (dst_word word_size base_size : Z) : RM unit :=
  match fuel with
  | O => fail OutOfFuel
  | S fuel =>
    if 0 <? word_size then
      random32_bits ← get_random32_value;
      let base_size := if word_size <? base_size then word_size else base_size in
      on_rmem (store_bytes dst_word (take (Z.to_nat base_size) (le_bytes random32_bits)));;
      canary_loop fuel (dst_word + base_size) (u32 (word_size - base_size)) base_size
    else skip
  end.
Definition set_random32_canary_word (fuel : nat) (dst_word word_size : Z) : RM unit := canary_loop fuel dst_word word_size 4.

(** ** The generator *)

(** The [k]-th value from state [s]. *)
Definition random_word (s : rstate) (k : nat) : Z := u32 (get_cycle_32 (cycle_reads s + k)%nat + random32_count s + Z.of_nat k * random32_dvalue).

(** The state after [k] values, with memory [m]. *)
Definition advanced (s : rstate) (k : nat) (m : bmem) : rstate := mk_rstate m (u32 (random32_count s + Z.of_nat k * random32_dvalue)) (cycle_reads s + k).

Definition counted (s : rstate) : Prop := 0 <= random32_count s < 2 ^ 32.

Lemma advanced_0 s : counted s -> advanced s 0 (rmem s) = s.
Proof. intros Hc. destruct s as [m c n]. unfold advanced. cbn in *. rewrite Z.add_0_r, u32_small, Nat.add_0_r by done. done. Qed.

Lemma random_word_range s k : 0 <= random_word s k < 2 ^ 32.
Proof. apply u32_range. Qed.

Lemma u32_add_idemp a b : u32 (a + u32 b) = u32 (a + b).
Proof. unfold u32. apply Z.add_mod_idemp_r. lia. Qed.
Lemma u32_add_idemp_l a b : u32 (u32 a + b) = u32 (a + b).
Proof. unfold u32. apply Z.add_mod_idemp_l. lia. Qed.

Lemma wp_random s k m (Q : Z -> rstate -> Prop) : Q (random_word s k) (advanced s (S k) m) -> wp get_random32_value Q (advanced s k m).
Proof.
  intros HQ. unfold wp, get_random32_value, advanced, random_word in *. cbn [rmem random32_count cycle_reads] in *. rewrite u32_add_idemp, u32_add_idemp_l. rewrite <-Nat.add_succ_r.
  replace (random32_count s + Z.of_nat k * random32_dvalue + random32_dvalue) with (random32_count s + Z.of_nat (S k) * random32_dvalue) by lia.
  by rewrite Z.add_assoc.
Qed.

Lemma random_run s k m : get_random32_value (advanced s k m) = Done (random_word s k) (advanced s (S k) m).
Proof. by apply run_done, wp_random. Qed.

Lemma wp_on_rmem {A} (c : BM A) s k m (Q : A -> rstate -> Prop) : wp c (fun a m' => Q a (advanced s k m')) m -> wp (on_rmem c) Q (advanced s k m).
Proof. unfold wp, on_rmem. cbn. by destruct (c m). Qed.

Lemma wp_store bs : forall a m (Q : unit -> bmem -> Prop), mapped m a (Z.of_nat (length bs)) ->
  (forall m', holds m' a bs -> outside a (Z.of_nat (length bs)) m m' -> (forall x, is_Some (m' !! x) <-> is_Some (m !! x)) -> Q tt m') -> wp (store_bytes a bs) Q m.
Proof.
  induction bs as [|b bs IH]; intros a m Q Hm HQ; cbn [store_bytes length] in *; [by apply wp_skip, HQ; [apply holds_nil|..]|].
  assert (Ha : is_Some (m !! a)) by (rewrite <-(Z.add_0_r a); apply Hm; lia). apply wp_bind, wp_stb; [done|].
  assert (Hd : forall x, is_Some (<[a := b]> m !! x) <-> is_Some (m !! x)).
  { intros x. destruct (decide (a = x)) as [->|Hne]; [rewrite lookup_insert_eq; split; [done|by eexists]|by rewrite lookup_insert_ne]. }
  apply IH; [eapply mapped_dom; [exact Hd|]; intros i Hi; replace (a + 1 + i) with (a + (1 + i)) by lia; apply Hm; lia|].
  intros m' Hh Ho Hd'. apply HQ; [|intros x Hx; rewrite Ho by lia; apply lookup_insert_ne; lia|intros x; by rewrite Hd'].
  apply holds_cons. split; [|done]. rewrite Ho by lia. apply lookup_insert_eq.
Qed.

(** ** Filling memory *)

(** The bytes of [n] values from the [k]-th on. *)
Fixpoint stream (s : rstate) (k n : nat) : list Z := match n with O => [] | S n => le_bytes (random_word s k) ++ stream s (S k) n end.

Lemma stream_length s k n : length (stream s k n) = (4 * n)%nat.
Proof. revert k. induction n as [|n IH]; intros k; cbn [stream]; [done|]. rewrite length_app, IH. cbn [length le_bytes]. lia. Qed.

Lemma outside_trans a n1 n2 m m1 m2 : 0 <= n1 -> 0 <= n2 -> outside a n1 m m1 -> outside (a + n1) n2 m1 m2 -> outside a (n1 + n2) m m2.
Proof. intros H1 H2 Ho1 Ho2 x Hx. rewrite Ho2, Ho1 by lia. done. Qed.

(** The first block stays when the rest is written behind it. *)
Lemma holds_stored bs cs a n m1 m2 : holds m1 a bs -> outside (a + Z.of_nat (length bs)) n m1 m2 -> holds m2 (a + Z.of_nat (length bs)) cs -> holds m2 a (bs ++ cs).
Proof. intros Hb Ho Hc. apply holds_app. split; [|done]. eapply holds_outside; [done|exact Ho|]. lia. Qed.

(** The first [n] whole words, and what remains to be run. *)
Lemma words_prefix s fuel outlen n : forall j k a m, 4 * Z.of_nat (j + n) <= outlen < 2 ^ 32 -> mapped m a (4 * Z.of_nat n) ->
  exists m', set_random32_loop (n + fuel) outlen a (4 * Z.of_nat j) 4 (advanced s k m) =
      set_random32_loop fuel outlen (a + 4 * Z.of_nat n) (4 * Z.of_nat (j + n)) 4 (advanced s (k + n) m') /\
    holds m' a (stream s k n) /\ outside a (4 * Z.of_nat n) m m' /\ (forall x, is_Some (m' !! x) <-> is_Some (m !! x)).
Proof.
  induction n as [|n IH]; intros j k a m Hmax Hm.
  - exists m. rewrite !Nat.add_0_r, Z.add_0_r. split; [done|]. split; [apply holds_nil|done].
  - assert (W : wp (store_bytes a (le_bytes (random_word s k))) (fun _ m1 => holds m1 a (le_bytes (random_word s k)) /\ outside a 4 m m1 /\ (forall x, is_Some (m1 !! x) <-> is_Some (m !! x))) m).
    { apply wp_store; [eapply mapped_le; [exact Hm|cbn; lia]|]. by intros m1. }
    apply run_unit in W as (m1 & E1 & Hh1 & Ho1 & Hd1). destruct (IH (S j) (S k) (a + 4) m1) as (m2 & E2 & Hh2 & Ho2 & Hd2); [lia| |].
    { eapply mapped_dom; [exact Hd1|]. replace (4 * Z.of_nat n) with (4 * Z.of_nat (S n) - 4) by lia. apply mapped_part; [done|lia]. }
    exists m2. split_and!.
    + cbn [Nat.add set_random32_loop]. rewrite (proj2 (Z.ltb_lt _ _)) by lia. unfold mbind, ST_bind at 1.
      rewrite random_run.
      rewrite u32_small by lia. rewrite (proj2 (Z.ltb_ge _ 4)) by lia. unfold on_rmem, ST_bind. cbn [rmem advanced]. rewrite E1. rewrite u32_small by lia.
      replace (4 * Z.of_nat j + 4) with (4 * Z.of_nat (S j)) by lia. replace (a + 4 * Z.of_nat (S n)) with (a + 4 + 4 * Z.of_nat n) by lia. replace (j + S n)%nat with (S j + n)%nat by lia. replace (k + S n)%nat with (S k + n)%nat by lia. exact E2.
    + cbn [stream]. by eapply (holds_stored (le_bytes (random_word s k))).
    + replace (4 * Z.of_nat (S n)) with (4 + 4 * Z.of_nat n) by lia. eapply outside_trans; [lia|lia|exact Ho1|exact Ho2].
    + intros x. by rewrite Hd2.
Qed.

Definition blocks (w : Z) : nat := Z.to_nat ((w + 3) / 4).

Lemma blocks_pos w : 0 < w -> 4 <= w -> blocks w = S (blocks (w - 4)).
Proof. intros _ Hw. unfold blocks. replace (w + 3) with (w - 4 + 3 + 1 * 4) by lia. rewrite Z.div_add by lia. pose proof (Z.div_pos (w - 4 + 3) 4). lia. Qed.
Lemma blocks_one w : 0 < w <= 4 -> blocks w = 1%nat.
Proof. intros Hw. unfold blocks. replace ((w + 3) / 4) with 1; [done|]. apply (Z.div_unique _ _ _ (w - 1)); lia. Qed.

Lemma wp_canary s fuel : forall k a w m (Q : unit -> rstate -> Prop), 0 <= w < 2 ^ 32 -> w <= 4 * (Z.of_nat fuel - 1) -> mapped m a w ->
  (forall m', holds m' a (take (Z.to_nat w) (stream s k (blocks w))) -> outside a w m m' -> Q tt (advanced s (k + blocks w) m')) ->
  wp (canary_loop fuel a w 4) Q (advanced s k m).
Proof.
  induction fuel as [|fuel IH]; intros k a w m Q Hw Hf Hm HQ; [lia|]. cbn [canary_loop]. destruct (Z.ltb_spec 0 w) as [Hpos|Hz].
  2: { assert (w = 0) as -> by lia. apply wp_skip. specialize (HQ m). change (blocks 0) with 0%nat in HQ. rewrite Nat.add_0_r in HQ. apply HQ; [apply holds_nil|done]. }
  apply wp_bind, wp_random. destruct (Z.ltb_spec w 4) as [Hlt|Hge].
  - assert (El : Z.of_nat (length (take (Z.to_nat w) (le_bytes (random_word s k)))) = w) by (rewrite length_take; cbn [length le_bytes]; lia).
    apply wp_bind, wp_on_rmem, wp_store; rewrite El; [done|]. intros m1 Hh Ho _. rewrite Z.sub_diag. change (u32 0) with 0. destruct fuel; [lia|]. cbn [canary_loop Z.ltb Z.compare]. apply wp_skip.
    specialize (HQ m1). rewrite blocks_one in HQ by lia. cbn [stream] in HQ. rewrite app_nil_r, Nat.add_1_r in HQ. by apply HQ.
  - apply wp_bind, wp_on_rmem. change (take (Z.to_nat 4) (le_bytes (random_word s k))) with (le_bytes (random_word s k)). apply wp_store; [eapply mapped_le; [exact Hm|cbn; lia]|].
    change (Z.of_nat (length (le_bytes _))) with 4. intros m1 Hh1 Ho1 Hd1. rewrite u32_small by lia.
    apply IH; [lia|lia|eapply mapped_dom; [exact Hd1|]; apply mapped_part; [done|lia]|]. intros m2 Hh2 Ho2. specialize (HQ m2). rewrite blocks_pos in HQ by lia.
    replace (S k + blocks (w - 4))%nat with (k + S (blocks (w - 4)))%nat by lia. apply HQ.
    + replace (Z.to_nat w) with (4 + Z.to_nat (w - 4))%nat by lia. change (take (4 + Z.to_nat (w - 4)) (stream s k (S (blocks (w - 4))))) with (le_bytes (random_word s k) ++ take (Z.to_nat (w - 4)) (stream s (S k) (blocks (w - 4)))).
      by eapply (holds_stored (le_bytes (random_word s k))).
    + replace w with (4 + (w - 4)) by lia. eapply outside_trans; [lia|lia|exact Ho1|exact Ho2].
Qed.

(** ** Theorems *)

(** [n] values in a row. *)
Fixpoint draw (n : nat) : RM (list Z) := match n with O => mret [] | S n => v ← get_random32_value; vs ← draw n; mret (v :: vs) end.

Lemma draw_exact s n : forall k m, draw n (advanced s k m) = Done (random_word s <$> seq k n) (advanced s (k + n) m).
Proof.
  induction n as [|n IH]; intros k m; cbn [draw seq fmap list_fmap]; [by rewrite Nat.add_0_r|].
  apply run_done. apply wp_bind, wp_random, wp_bind. unfold wp at 1. rewrite IH. apply wp_ret. split; [done|]. f_equal. lia.
Qed.

(** While the cycle counter stands still, successive values are all different, for up to
    2^32 of them: the increment is odd. *)
Theorem random_values_distinct s c n :
  counted s -> (forall k, get_cycle_32 k = c) -> Z.of_nat n <= 2 ^ 32 ->
  exists vs, draw n s = Done vs (advanced s n (rmem s)) /\ length vs = n /\ NoDup vs.
Proof.
  intros Hs Hc Hn. exists (random_word s <$> seq 0 n). rewrite <-(advanced_0 s Hs) at 1. rewrite draw_exact. split; [done|]. split; [by rewrite length_fmap, length_seq|].
  apply NoDup_fmap_2_strong; [|apply NoDup_seq]. intros i j Hi%elem_of_seq Hj%elem_of_seq E. unfold random_word, u32 in E. rewrite !Hc in E.
  assert (Hd : (2 ^ 32 | (Z.of_nat i - Z.of_nat j) * random32_dvalue)).
  { apply Z.mod_divide; [lia|]. replace ((Z.of_nat i - Z.of_nat j) * random32_dvalue) with (c + random32_count s + Z.of_nat i * random32_dvalue - (c + random32_count s + Z.of_nat j * random32_dvalue)) by lia.
    rewrite Zminus_mod, E, Z.sub_diag. done. }
  rewrite Z.mul_comm in Hd. apply Z.gauss in Hd; [|by vm_compute]. destruct Hd as [q Hq]. assert (q = 0) as -> by nia. lia.
Qed.

(** The canary routine fills exactly the bytes asked for, from as many values as it takes. *)
Theorem canary_exact s dst n fuel :
  counted s -> 0 <= n < 2 ^ 32 -> n <= 4 * (Z.of_nat fuel - 1) -> mapped (rmem s) dst n ->
  exists m', set_random32_canary_word fuel dst n s = Done tt (advanced s (blocks n) m') /\
    holds m' dst (take (Z.to_nat n) (stream s 0 (blocks n))) /\ outside dst n (rmem s) m'.
Proof.
  intros Hs Hn Hf Hm. assert (W : wp (set_random32_canary_word fuel dst n) (fun _ s' => exists m', s' = advanced s (blocks n) m' /\ holds m' dst (take (Z.to_nat n) (stream s 0 (blocks n))) /\ outside dst n (rmem s) m') (advanced s 0 (rmem s))).
  { apply wp_canary; [done|done|done|]. intros m' Hh Ho. by exists m'. }
  rewrite advanced_0 in W by done. apply run_unit in W as (s' & E & m' & -> & Hh & Ho). by exists m'.
Qed.

(** [set_random32] fills a buffer of whole words with one value per word, in one round more
    than there are words. *)
Theorem set_random32_words s dst n fuel :
  counted s -> (n < fuel)%nat -> 4 * Z.of_nat n < 2 ^ 32 -> mapped (rmem s) dst (4 * Z.of_nat n) ->
  exists m', set_random32 fuel dst (4 * Z.of_nat n) s = Done tt (advanced s n m') /\ holds m' dst (stream s 0 n) /\ outside dst (4 * Z.of_nat n) (rmem s) m'.
Proof.
  intros Hs Hf Hn Hm. destruct (words_prefix s (fuel - n) (4 * Z.of_nat n) n 0 0 dst (rmem s)) as (m' & E & Hh & Ho & _); [lia|done|]. exists m'. split; [|done].
  unfold set_random32. rewrite <-(advanced_0 s Hs) at 1. replace (n + (fuel - n))%nat with fuel in E by lia. change (4 * Z.of_nat 0) with 0 in E. rewrite E. destruct (fuel - n)%nat eqn:Ef; [lia|]. cbn [set_random32_loop]. by rewrite Z.ltb_irrefl.
Qed.

(** Any other length goes wrong, because the rest is taken to be as long as what was already
    written.  Below four bytes that is nothing, and the loop never ends; below eight, the last
    word is written whole, past the end of the buffer; beyond, the copy reads past the local
    variable that holds the value. *)
Theorem set_random32_partial s dst outlen :
  counted s -> 0 < outlen < 2 ^ 32 - 4 -> outlen mod 4 <> 0 ->
  (outlen < 4 -> forall fuel, set_random32 fuel dst outlen s = Fail OutOfFuel) /\
  (4 < outlen < 8 -> mapped (rmem s) dst 8 -> forall fuel, (3 <= fuel)%nat ->
     exists m', set_random32 fuel dst outlen s = Done tt (advanced s 2 m') /\ m' !! (dst + 4 + 3) = Some (random_word s 1 / 16777216 mod 256)) /\
  (8 < outlen -> mapped (rmem s) dst outlen -> forall fuel, outlen <= Z.of_nat fuel -> set_random32 fuel dst outlen s = Fail Fault).
Proof.
  intros Hs Hn Hr. unfold set_random32.
  assert (Ea : forall fuel, set_random32_loop fuel outlen dst 0 4 s = set_random32_loop fuel outlen dst 0 4 (advanced s 0 (rmem s))) by (intros; by rewrite advanced_0).
  set (m := rmem s) in *. clearbody m. split_and!.
  - intros Hlt fuel. rewrite Ea. generalize 0%nat as k, 4 as bz. induction fuel as [|fuel IH]; intros k bz; cbn [set_random32_loop]; [done|].
    rewrite (proj2 (Z.ltb_lt _ _)) by lia. unfold mbind, ST_bind at 1. rewrite random_run, u32_small by lia. rewrite (proj2 (Z.ltb_lt _ 4)) by lia. exact (IH (S k) 0).
  - intros Hlt Hm fuel Hf. destruct (words_prefix s (fuel - 1) outlen 1 0 0 dst m) as (m1 & E & _ & _ & Hd); [cbn; lia|eapply mapped_le; [exact Hm|lia]|]. change (1 + (fuel - 1))%nat with (S (fuel - 1)) in E. replace (S (fuel - 1)) with fuel in E by lia.
    change (4 * Z.of_nat 0) with 0 in E. rewrite Ea, E. change (4 * Z.of_nat (0 + 1)) with 4. change (4 * Z.of_nat 1) with 4. change (0 + 1)%nat with 1%nat.
    assert (W : wp (store_bytes (dst + 4) (le_bytes (random_word s 1))) (fun _ m2 => holds m2 (dst + 4) (le_bytes (random_word s 1))) m1).
    { apply wp_store; [|by intros m2]. eapply mapped_dom; [exact Hd|]. intros i Hi. replace (dst + 4 + i) with (dst + (4 + i)) by lia. apply Hm. cbn in Hi. lia. }
    apply run_unit in W as (m2 & E2 & Hh). exists m2. split; [|exact (Hh 3%nat _ eq_refl)]. destruct fuel as [|[|[|fuel]]]; [lia..|]. cbn [Nat.sub set_random32_loop].
    rewrite (proj2 (Z.ltb_lt _ _)) by lia. unfold mbind, ST_bind at 1. rewrite random_run, u32_small by lia. rewrite (proj2 (Z.ltb_lt _ 4)) by lia. unfold copy_local, on_rmem, ST_bind. change (4 <=? 4) with true. cbv iota beta. cbn [rmem advanced].
    change (take (Z.to_nat 4) (le_bytes (random_word s 1))) with (le_bytes (random_word s 1)). rewrite E2. rewrite (proj2 (Z.ltb_ge _ _)); [done|]. change (u32 (4 + 4)) with 8. lia.
  - intros Hlt Hm fuel Hf. set (n := Z.to_nat (outlen / 4)). pose proof (Z.div_mod outlen 4 ltac:(lia)) as Eo. pose proof (Z.mod_pos_bound outlen 4 ltac:(lia)). assert (En : Z.of_nat n = outlen / 4) by (apply Z2Nat.id, Z.div_pos; lia).
    destruct (words_prefix s (fuel - n) outlen n 0 0 dst m) as (m1 & E & _); [rewrite Nat.add_0_l; lia|eapply mapped_le; [exact Hm|lia]|]. replace (n + (fuel - n))%nat with fuel in E by lia. change (4 * Z.of_nat 0) with 0 in E. rewrite Ea, E. rewrite Nat.add_0_l.
    destruct (fuel - n)%nat eqn:Ef; [lia|]. cbn [set_random32_loop]. rewrite (proj2 (Z.ltb_lt _ _)) by lia. unfold mbind, ST_bind at 1. rewrite random_run, u32_small by lia. rewrite (proj2 (Z.ltb_lt _ 4)) by lia.
    unfold copy_local. by rewrite (proj2 (Z.leb_gt _ _)) by lia.
Qed.

End Random.

(** ** Witnesses *)

Definition still (k : nat) : Z := 7.
Definition rand_demo : rstate := mk_rstate (place 100 (replicate 12 0) ∅) 5 0.

Lemma rand_mapped n : (n <= 12)%nat -> mapped (rmem rand_demo) 100 (Z.of_nat n).
Proof. intros Hn. eapply mapped_le; [by apply (mappedb_mapped _ _ 12)|lia]. Qed.

Lemma random_values_distinct_witness :
  exists vs, draw still 5 rand_demo = Done vs (advanced rand_demo 5 (rmem rand_demo)) /\ length vs = 5%nat /\ NoDup vs.
Proof. apply (random_values_distinct still rand_demo 7 5); [done|done|lia]. Defined.

Lemma canary_exact_witness :
  exists m', set_random32_canary_word still 3 100 6 rand_demo = Done tt (advanced rand_demo 2 m') /\
    holds m' 100 (take 6 (stream still rand_demo 0 2)) /\ outside 100 6 (rmem rand_demo) m'.
Proof. apply (canary_exact still rand_demo 100 6 3); [done|lia|lia|by apply (rand_mapped 6); lia]. Defined.

Lemma set_random32_words_witness :
  exists m', set_random32 still 3 100 8 rand_demo = Done tt (advanced rand_demo 2 m') /\ holds m' 100 (stream still rand_demo 0 2) /\ outside 100 8 (rmem rand_demo) m'.
Proof. apply (set_random32_words still rand_demo 100 2 3); [done|lia|lia|by apply (rand_mapped 8); lia]. Defined.

Lemma set_random32_partial_witness :
  (forall fuel, set_random32 still fuel 100 3 rand_demo = Fail OutOfFuel) /\
  (exists m', set_random32 still 3 100 6 rand_demo = Done tt (advanced rand_demo 2 m') /\ m' !! 107 = Some (random_word still rand_demo 1 / 16777216 mod 256)) /\
  set_random32 still 11 100 11 rand_demo = Fail Fault.
Proof.
  split; [|split].
  - apply (set_random32_partial still rand_demo 100 3); [done|lia|done|lia].
  - apply (set_random32_partial still rand_demo 100 6); [done|lia|done|lia|by apply (rand_mapped 8); lia|lia].
  - apply (set_random32_partial still rand_demo 100 11); [done|lia|done|lia|by apply (rand_mapped 11); lia|lia].
Defined.
