(* ===== verification/Base64.v ===== *)
(** * Base64

    Models [src/lib/sys/base64.c] on byte-addressed memory.  The value a routine stores through
    [olen] is the second part of its result; [None] where it stores nothing.

    Proved: the encoder writes the base64 text of its input, with padding and a terminating
    zero, or reports the size it needs and writes nothing; decoding that text gives the input
    back; a text with a character outside the alphabet is refused. *)

From Stdlib Require Import ZArith Lia Bool List.
From stdpp Require Import base tactics numbers list gmap.
From S2P Require Import Prelude Bytes.

Local Open Scope Z_scope.

Definition ENOMEM : Z := 12.
Definition EINVAL : Z := 22.
Definition BASE64_SIZE_T_MAX : Z := 2 ^ 32 - 1.

Definition base64_enc_map : list Z :=
  [65; 66; 67; 68; 69; 70; 71; 72; 73; 74; 75; 76; 77; 78; 79; 80; 81; 82; 83; 84; 85; 86; 87; 88; 89; 90; 97; 98; 99; 100;
   101; 102; 103; 104; 105; 106; 107; 108; 109; 110; 111; 112; 113; 114; 115; 116; 117; 118; 119; 120;
   121; 122; 48; 49; 50; 51; 52; 53; 54; 55; 56; 57; 43; 47].

Definition base64_dec_map : list Z :=
  [127; 127; 127; 127; 127; 127; 127; 127; 127; 127; 127; 127; 127; 127; 127; 127; 127; 127; 127; 127;
   127; 127; 127; 127; 127; 127; 127; 127; 127; 127; 127; 127; 127; 127; 127; 127; 127; 127; 127; 127;
   127; 127; 127; 62; 127; 127; 127; 63; 52; 53; 54; 55; 56; 57; 58; 59; 60; 61; 127; 127;
   127; 64; 127; 127; 127; 0; 1; 2; 3; 4; 5; 6; 7; 8; 9; 10; 11; 12; 13; 14;
   15; 16; 17; 18; 19; 20; 21; 22; 23; 24; 25; 127; 127; 127; 127; 127; 127; 26; 27; 28;
   29; 30; 31; 32; 33; 34; 35; 36; 37; 38; 39; 40; 41; 42; 43; 44; 45; 46; 47; 48;
   49; 50; 51; 127; 127; 127; 127; 127].

(** [base64_enc_map[v & 0x3F]]. *)
Definition enc (v : Z) : Z := nth (Z.to_nat (Z.land v 63)) base64_enc_map 0.
(** [base64_dec_map[c]]; the code indexes it with values up to 127 only. *)
Definition dec (c : Z) : Z := nth (Z.to_nat c) base64_dec_map 127.

(** ** Encoder *)

Fixpoint encode_groups (n : nat) (src p : Z) : BM Z :=
  match n with
  | O => mret p
  | S n =>
    C1 ← ldb src;
    C2 ← ldb (src + 1);
    C3 ← ldb (src + 2);
    stb p (enc (Z.shiftr C1 2));;
    stb (p + 1) (enc (Z.shiftl (Z.land C1 3) 4 + Z.shiftr C2 4));;
    stb (p + 2) (enc (Z.shiftl (Z.land C2 15) 2 + Z.shiftr C3 6));;
    stb (p + 3) (enc C3);;
    encode_groups n (src + 3) (p + 4)
  end.

(** The last one or two bytes. *)
Definition encode_rest (src i slen p : Z) : BM Z :=
  if i <? slen then
    C1 ← ldb src;
    C2 ← (if i + 1 <? slen then ldb (src + 1) else mret 0);
    stb p (enc (Z.shiftr C1 2));;
    stb (p + 1) (enc (Z.shiftl (Z.land C1 3) 4 + Z.shiftr C2 4));;
    stb (p + 2) (if i + 1 <? slen then enc (Z.shiftl (Z.land C2 15) 2) else 61);;
    stb (p + 3) 61;;
    mret (p + 4)
  else mret p.

Definition base64_encode (dst dlen src slen : Z) : BM (Z * option Z) :=
  if slen =? 0 then mret (0, Some 0)
  else
    let n := slen / 3 + (if slen mod 3 =? 0 then 0 else 1) in
    if (BASE64_SIZE_T_MAX - 1) / 4 <? n then mret (- ENOMEM, Some BASE64_SIZE_T_MAX)
    else
      let n := 4 * n in
      if (dlen <? n + 1) || (dst =? 0) then mret (- ENOMEM, Some (n + 1))
      else
        let n := slen / 3 * 3 in
        p ← encode_groups (Z.to_nat (slen / 3)) src dst;
        p ← encode_rest (src + n) n slen p;
        stb p 0;;
        mret (0, Some (p - dst)).

(** ** Decoder *)

(** [while (i < slen && src[i] == ' ') { ++i; ++x; }]; returns [i] and [x]. *)
Fixpoint skip_spaces (fuel : nat) (src slen i x : Z) : BM (Z * Z) :=
  match fuel with
  | O => fail OutOfFuel
  | S fuel =>
    if i <? slen then
      c ← ldb (src + i);
      if c =? 32 then skip_spaces fuel src slen (i + 1) (x + 1) else mret (i, x)
    else mret (i, x)
  end.

(** The first pass: [Some (i, n, j)] at the end of the text, [None] for [-EINVAL]. *)
Fixpoint check_loop (fuel : nat) (src slen i n j : Z) : BM (option (Z * Z * Z)) :=
  match fuel with
  | O => fail OutOfFuel
  | S fuel =>
    if i <? slen then
      '(i, x) ← skip_spaces (S (Z.to_nat slen)) src slen i 0;
      if i =? slen then mret (Some (i, n, j))
      else
        c ← ldb (src + i);
        crlf ← (if (2 <=? slen - i) && (c =? 13) then c' ← ldb (src + i + 1); mret (c' =? 10) else mret false);
        if (crlf : bool) then check_loop fuel src slen (i + 1) n j
        else if c =? 10 then check_loop fuel src slen (i + 1) n j
        else if negb (x =? 0) then mret None
        else
          let j := if c =? 61 then j + 1 else j in
          if (c =? 61) && (2 <? j) then mret None
          else if (127 <? c) || (dec c =? 127) then mret None
          else if (dec c <? 64) && negb (j =? 0) then mret None
          else check_loop fuel src slen (i + 1) (n + 1) j
    else mret (Some (i, n, j))
  end.

(** The second pass over [i] characters; returns the end of the output. *)
Fixpoint decode_loop (i : nat) (src j n x p : Z) : BM Z :=
  match i with
  | O => mret p
  | S i =>
    c ← ldb src;
    if (c =? 13) || (c =? 10) || (c =? 32) then decode_loop i (src + 1) j n x p
    else
      let j := u32 (j - (if dec c =? 64 then 1 else 0)) in
      let x := Z.lor (u32 (Z.shiftl x 6)) (Z.land (dec c) 63) in
      let n := n + 1 in
      if n =? 4 then
        p ← (if 0 <? j then stb p (u8 (Z.shiftr x 16));; mret (p + 1) else mret p);
        p ← (if 1 <? j then stb p (u8 (Z.shiftr x 8));; mret (p + 1) else mret p);
        p ← (if 2 <? j then stb p (u8 x);; mret (p + 1) else mret p);
        decode_loop i (src + 1) j 0 x p
      else decode_loop i (src + 1) j n x p
  end.

Definition base64_decode (dst dlen src slen : Z) : BM (Z * option Z) :=
  r ← check_loop (S (Z.to_nat slen)) src slen 0 0 0;
  match r with
  | None => mret (- EINVAL, None)
  | Some (i, n, j) =>
    if n =? 0 then mret (0, Some 0)
    else
      let n := 6 * Z.shiftr n 3 + Z.shiftr (6 * Z.land n 7 + 7) 3 in
      let n := u32 (n - j) in
      if (dst =? 0) || (dlen <? n) then mret (- ENOMEM, Some n)
      else
        p ← decode_loop (Z.to_nat i) src 3 0 0 dst;
        mret (0, Some (p - dst))
  end.

(** ** The text *)

Definition byte (b : Z) : Prop := 0 <= b < 256.
Definition triple : Type := Z * Z * Z.
Definition bytes3 (g : triple) : list Z := let '(b1, b2, b3) := g in [b1; b2; b3].
Definition text3 (g : triple) : list Z := let '(b1, b2, b3) := g in
  [enc (Z.shiftr b1 2); enc (Z.shiftl (Z.land b1 3) 4 + Z.shiftr b2 4); enc (Z.shiftl (Z.land b2 15) 2 + Z.shiftr b3 6); enc b3].
(** The text of fewer than three bytes. *)
Definition text_rest (r : list Z) : list Z :=
  match r with
  | [b1] => [enc (Z.shiftr b1 2); enc (Z.shiftl (Z.land b1 3) 4 + Z.shiftr 0 4); 61; 61]
  | [b1; b2] => [enc (Z.shiftr b1 2); enc (Z.shiftl (Z.land b1 3) 4 + Z.shiftr b2 4); enc (Z.shiftl (Z.land b2 15) 2); 61]
  | _ => []
  end.

(** The base64 text of a list of bytes. *)
Fixpoint enc_text (bs : list Z) : list Z :=
  match bs with b1 :: b2 :: b3 :: bs => text3 (b1, b2, b3) ++ enc_text bs | r => text_rest r end.

Definition flat (gs : list triple) : list Z := concat (bytes3 <$> gs).
Definition texts (gs : list triple) : list Z := concat (text3 <$> gs).

Lemma flat_length gs : length (flat gs) = (3 * length gs)%nat.
Proof. induction gs as [|[[]] gs IH]; [done|]. unfold flat in *. cbn. lia. Qed.
Lemma texts_length gs : length (texts gs) = (4 * length gs)%nat.
Proof. induction gs as [|[[]] gs IH]; [done|]. unfold texts in *. cbn. lia. Qed.

Lemma enc_text_split gs r : (length r < 3)%nat -> enc_text (flat gs ++ r) = texts gs ++ text_rest r.
Proof.
  intros Hr. induction gs as [|[[b1 b2] b3] gs IH]; [destruct r as [|? [|? [|]]]; try done; cbn in Hr; lia|].
  change (flat ((b1, b2, b3) :: gs) ++ r) with (b1 :: b2 :: b3 :: (flat gs ++ r)). cbn [enc_text]. rewrite IH. done.
Qed.

Lemma split3 bs : exists gs r, bs = flat gs ++ r /\ (length r < 3)%nat.
Proof.
  induction bs as [bs IH] using (induction_ltof1 _ (@length Z)). unfold ltof in IH. destruct bs as [|b1 [|b2 [|b3 bs]]]; [by exists [], []; split; [|cbn; lia]|by exists [], [b1]; split; [|cbn; lia]|by exists [], [b1; b2]; split; [|cbn; lia]|].
  destruct (IH bs) as (gs & r & -> & Hr); [cbn; lia|]. by exists ((b1, b2, b3) :: gs), r.
Qed.

(** ** The encoder *)

Lemma insert_dom (m : bmem) a v : is_Some (m !! a) -> forall x, is_Some (<[a := v]> m !! x) <-> is_Some (m !! x).
Proof. intros Ha x. destruct (decide (a = x)) as [->|Hn]; [rewrite lookup_insert_eq; split; [done|by eexists]|by rewrite lookup_insert_ne]. Qed.

(** Four bytes stored one after the other. *)
Lemma wp_stb4 p v1 v2 v3 v4 {A} (k : BM A) m (Q : A -> bmem -> Prop) : mapped m p 4 ->
  (forall m', holds m' p [v1; v2; v3; v4] -> outside p 4 m m' -> (forall x, is_Some (m' !! x) <-> is_Some (m !! x)) -> wp k Q m') ->
  wp (stb p v1;; stb (p + 1) v2;; stb (p + 2) v3;; stb (p + 3) v4;; k) Q m.
Proof.
  intros Hm HQ. assert (H0 : is_Some (m !! p)) by (rewrite <-(Z.add_0_r p); apply Hm; lia).
  assert (H1 := Hm 1 ltac:(lia)). assert (H2 := Hm 2 ltac:(lia)). assert (H3 := Hm 3 ltac:(lia)).
  apply wp_bind, wp_stb; [done|]. apply wp_bind, wp_stb; [by apply insert_dom|]. apply wp_bind, wp_stb; [by rewrite !insert_dom by (by rewrite ?insert_dom)|].
  apply wp_bind, wp_stb; [by rewrite !insert_dom by (by rewrite ?insert_dom by (by rewrite ?insert_dom))|]. apply HQ.
  - rewrite !holds_cons. replace (p + 1 + 1) with (p + 2) by lia. replace (p + 2 + 1) with (p + 3) by lia.
    split_and!; [..|apply holds_nil]; rewrite ?lookup_insert_ne by lia; apply lookup_insert_eq.
  - intros x Hx. by rewrite !lookup_insert_ne by lia.
  - intros x. by rewrite !insert_dom by (by rewrite ?insert_dom by (by rewrite ?insert_dom by (by rewrite ?insert_dom))).
Qed.

Lemma wp_encode_groups gs : forall src p m (Q : Z -> bmem -> Prop),
  let n := Z.of_nat (length gs) in
  holds m src (flat gs) -> mapped m p (4 * n) -> src + 3 * n <= p \/ p + 4 * n <= src ->
  (forall m', holds m' p (texts gs) -> outside p (4 * n) m m' -> (forall x, is_Some (m' !! x) <-> is_Some (m !! x)) -> Q (p + 4 * n) m') ->
  wp (encode_groups (length gs) src p) Q m.
Proof.
  induction gs as [|[[b1 b2] b3] gs IH]; intros src p m Q n Hh Hm Hd HQ; cbn [encode_groups length].
  - apply wp_ret. specialize (HQ m). rewrite Z.add_0_r in HQ. apply HQ; [apply holds_nil|done|done].
  - unfold n in *. clear n. cbn [length] in *. change (flat ((b1, b2, b3) :: gs)) with (b1 :: b2 :: b3 :: flat gs) in Hh. apply holds_cons in Hh as [E1 Hh]. apply holds_cons in Hh as [E2 Hh]. apply holds_cons in Hh as [E3 Hh].
    apply wp_bind. eapply wp_ldb; [exact E1|]. apply wp_bind. eapply wp_ldb; [exact E2|]. apply wp_bind. eapply wp_ldb; [by replace (src + 2) with (src + 1 + 1) by lia|].
    apply wp_stb4; [eapply mapped_le; [exact Hm|lia]|]. intros m1 Hh1 Ho1 Hd1. apply IH.
    + replace (src + 1 + 1 + 1) with (src + 3) in Hh by lia. eapply holds_outside; [exact Hh|exact Ho1|]. rewrite flat_length. lia.
    + eapply mapped_dom; [exact Hd1|]. intros i Hi. replace (p + 4 + i) with (p + (4 + i)) by lia. apply Hm. lia.
    + lia.
    + intros m2 Hh2 Ho2 Hd2. replace (p + 4 + 4 * Z.of_nat (length gs)) with (p + 4 * Z.of_nat (S (length gs))) by lia. apply HQ.
      * change (texts ((b1, b2, b3) :: gs)) with (text3 (b1, b2, b3) ++ texts gs). apply holds_app. split; [eapply holds_outside; [exact Hh1|exact Ho2|]; cbn [length text3]; lia|exact Hh2].
      * intros x Hx. rewrite Ho2, Ho1 by lia. done.
      * intros x. by rewrite Hd2.
Qed.

Lemma rest_length r : (length r < 3)%nat -> Z.of_nat (length (text_rest r)) = if (length r =? 0)%nat then 0 else 4.
Proof. intros Hr. destruct r as [|? [|? [|]]]; try done. cbn in Hr. lia. Qed.

Lemma wp_encode_rest r src i slen p m (Q : Z -> bmem -> Prop) :
  (length r < 3)%nat -> slen = i + Z.of_nat (length r) -> holds m src r -> mapped m p (Z.of_nat (length (text_rest r))) ->
  (forall m', holds m' p (text_rest r) -> outside p (Z.of_nat (length (text_rest r))) m m' -> (forall x, is_Some (m' !! x) <-> is_Some (m !! x)) -> Q (p + Z.of_nat (length (text_rest r))) m') ->
  wp (encode_rest src i slen p) Q m.
Proof.
  intros Hr -> Hh Hm HQ. unfold encode_rest. destruct r as [|b1 [|b2 [|]]]; cbn [length] in *.
  - rewrite (proj2 (Z.ltb_ge _ _)) by lia. apply wp_ret. specialize (HQ m). rewrite Z.add_0_r in HQ. apply HQ; [apply holds_nil|done|done].
  - rewrite (proj2 (Z.ltb_lt _ _)) by lia. rewrite (proj2 (Z.ltb_ge (i + 1) _)) by lia. apply holds_cons in Hh as [E1 _]. apply wp_bind. eapply wp_ldb; [exact E1|]. apply wp_bind, wp_ret.
    apply wp_stb4; [exact Hm|]. intros m' Hh' Ho Hd. apply wp_ret. by apply (HQ m').
  - rewrite (proj2 (Z.ltb_lt _ _)) by lia. rewrite (proj2 (Z.ltb_lt (i + 1) _)) by lia. apply holds_cons in Hh as [E1 Hh]. apply holds_cons in Hh as [E2 _]. apply wp_bind. eapply wp_ldb; [exact E1|]. apply wp_bind. eapply wp_ldb; [exact E2|].
    apply wp_stb4; [exact Hm|]. intros m' Hh' Ho Hd. apply wp_ret. by apply (HQ m').
  - lia.
Qed.

(** The size of the text. *)
Definition text_size (len : Z) : Z := 4 * (len / 3 + (if len mod 3 =? 0 then 0 else 1)).

Lemma div3 n r : 0 <= r < 3 -> (3 * n + r) / 3 = n /\ (3 * n + r) mod 3 = r.
Proof. intros Hr. replace (3 * n + r) with (r + n * 3) by lia. rewrite Z.div_add, Z.mod_add, Z.div_small, Z.mod_small by lia. lia. Qed.

Lemma text_size_exact bs : Z.of_nat (length (enc_text bs)) = text_size (Z.of_nat (length bs)).
Proof.
  destruct (split3 bs) as (gs & r & -> & Hr). rewrite enc_text_split, !length_app, texts_length, flat_length by done. rewrite !Nat2Z.inj_add, rest_length by done. unfold text_size.
  destruct (div3 (Z.of_nat (length gs)) (Z.of_nat (length r)) ltac:(lia)) as [Ed Em]. replace (Z.of_nat (3 * length gs)) with (3 * Z.of_nat (length gs)) by lia. rewrite Ed, Em.
  destruct (Nat.eqb_spec (length r) 0) as [->|]; [change (Z.of_nat 0 =? 0) with true; cbv iota; lia|]. rewrite (proj2 (Z.eqb_neq _ _)) by lia. lia.
Qed.

Lemma wp_base64_encode bs m dst dlen src (Q : Z * option Z -> bmem -> Prop) :
  let len := Z.of_nat (length bs) in let n := text_size len in
  bs <> [] -> n < 2 ^ 32 -> n + 1 <= dlen -> dst <> 0 -> holds m src bs -> mapped m dst (n + 1) -> src + len <= dst \/ dst + n + 1 <= src ->
  (forall m', holds m' dst (enc_text bs ++ [0]) -> outside dst (n + 1) m m' -> (forall x, is_Some (m' !! x) <-> is_Some (m !! x)) -> Q (0, Some n) m') ->
  wp (base64_encode dst dlen src len) Q m.
Proof.
  intros len n Hne Hmax Hl Hd Hh Hm Hsep HQ. pose proof (text_size_exact bs) as Es. fold len in Es. fold n in Es. unfold base64_encode.
  assert (0 < len) by (unfold len; destruct bs; [done|cbn; lia]). rewrite (proj2 (Z.eqb_neq len 0)) by lia. change BASE64_SIZE_T_MAX with 4294967295. change ((4294967295 - 1) / 4) with 1073741823.
  fold (text_size len). fold n. rewrite (proj2 (Z.ltb_ge 1073741823 _)) by (unfold n, text_size in Hmax; lia). rewrite (proj2 (Z.ltb_ge dlen _)), (proj2 (Z.eqb_neq dst 0)) by lia. cbn [orb].
  destruct (split3 bs) as (gs & r & -> & Hr). rewrite enc_text_split in HQ, Es by done. rewrite length_app, texts_length in Es.
  assert (El : len = 3 * Z.of_nat (length gs) + Z.of_nat (length r)) by (unfold len; rewrite length_app, flat_length; lia).
  destruct (div3 (Z.of_nat (length gs)) (Z.of_nat (length r)) ltac:(lia)) as [Ed _]. rewrite <-El in Ed. rewrite Ed, Nat2Z.id. clearbody n len. apply holds_app in Hh as [Hg Hrs]. rewrite flat_length in Hrs.
  apply wp_bind, wp_encode_groups; [exact Hg|eapply mapped_le; [exact Hm|lia]|lia|]. intros m1 Hh1 Ho1 Hd1.
  apply wp_bind, (wp_encode_rest r); [done|lia| | |].
  { replace (src + Z.of_nat (length gs) * 3) with (src + Z.of_nat (3 * length gs)) by lia. eapply holds_outside; [exact Hrs|exact Ho1|]. lia. }
  { eapply mapped_dom; [exact Hd1|]. intros i Hi. replace (dst + 4 * Z.of_nat (length gs) + i) with (dst + (4 * Z.of_nat (length gs) + i)) by lia. apply Hm. lia. }
  intros m2 Hh2 Ho2 Hd2. replace (dst + 4 * Z.of_nat (length gs) + Z.of_nat (length (text_rest r))) with (dst + n) by lia.
  assert (Hn : is_Some (m2 !! (dst + n))) by (rewrite Hd2, Hd1; apply Hm; lia). apply wp_bind, wp_stb; [done|]. apply wp_ret. replace (dst + n - dst) with n by lia.
  assert (Hlast : outside (dst + n) 1 m2 (<[dst + n := 0]> m2)) by (intros x Hx; apply lookup_insert_ne; lia). apply HQ.
  - rewrite !holds_app, !length_app, texts_length. split_and!.
    + eapply holds_outside; [eapply holds_outside; [exact Hh1|exact Ho2|]; rewrite texts_length; lia|exact Hlast|]. rewrite texts_length. lia.
    + replace (dst + Z.of_nat (4 * length gs)) with (dst + 4 * Z.of_nat (length gs)) by lia. eapply holds_outside; [exact Hh2|exact Hlast|]. lia.
    + replace (dst + Z.of_nat (4 * length gs + length (text_rest r))) with (dst + n) by lia. apply holds_cons. split; [apply lookup_insert_eq|apply holds_nil].
  - intros x Hx. rewrite lookup_insert_ne, Ho2, Ho1 by lia. done.
  - intros x. rewrite insert_dom by done. by rewrite Hd2.
Qed.

(** ** The decoder *)

(** A character of the alphabet. *)
Definition letter (c : Z) : bool := (0 <? c) && (c <=? 127) && (dec c <? 64) && negb (c =? 32) && negb (c =? 10) && negb (c =? 13) && negb (c =? 61).

Lemma enc_letter v : letter (enc v) = true /\ dec (enc v) = Z.land v 63.
Proof.
  assert (Hall : forallb (fun k => letter (nth k base64_enc_map 0) && (dec (nth k base64_enc_map 0) =? Z.of_nat k)) (seq 0 64) = true) by (by vm_compute).
  assert (Hk : 0 <= Z.land v 63 < 64) by (change 63 with (Z.ones 6); rewrite Z.land_ones by lia; apply Z.mod_pos_bound; lia).
  rewrite forallb_forall in Hall. specialize (Hall (Z.to_nat (Z.land v 63)) ltac:(apply in_seq; lia)). apply andb_true_iff in Hall as [H1 H2]. apply Z.eqb_eq in H2. rewrite Z2Nat.id in H2 by lia. by unfold enc.
Qed.

Lemma letter_facts c : letter c = true -> 0 < c <= 127 /\ dec c < 64 /\ c <> 32 /\ c <> 10 /\ c <> 13 /\ c <> 61.
Proof. unfold letter. intros Hl. zbool. lia. Qed.

Lemma no_space src slen i c m fuel : i < slen -> m !! (src + i) = Some c -> c <> 32 -> skip_spaces (S fuel) src slen i 0 m = Done (i, 0) m.
Proof. intros Hi E Hc. apply run_done. cbn [skip_spaces]. rewrite (proj2 (Z.ltb_lt _ _)) by lia. apply wp_bind. eapply wp_ldb; [exact E|]. rewrite (proj2 (Z.eqb_neq c 32)) by done. by apply wp_ret. Qed.

(** One round of the first pass on a letter, and on padding. *)
Lemma check_char fuel src slen i n j c m : i < slen -> m !! (src + i) = Some c -> c <> 32 -> c <> 10 -> c <> 13 ->
  check_loop (S fuel) src slen i n j m =
    (let j := if c =? 61 then j + 1 else j in
     if (c =? 61) && (2 <? j) then mret None
     else if (127 <? c) || (dec c =? 127) then mret None
     else if (dec c <? 64) && negb (j =? 0) then mret None
     else check_loop fuel src slen (i + 1) (n + 1) j) m.
Proof.
  intros Hi E H32 H10 H13. cbn [check_loop]. rewrite (proj2 (Z.ltb_lt _ _)) by lia. unfold mbind at 1, ST_bind at 1. rewrite (no_space _ _ _ c) by done.
  rewrite (proj2 (Z.eqb_neq i slen)) by lia. unfold mbind at 1, ST_bind at 1. unfold ldb at 1. rewrite E. rewrite (proj2 (Z.eqb_neq c 13)), andb_false_r by done.
  unfold mbind at 1, ST_bind at 1, mret at 1, ST_ret at 1. by rewrite (proj2 (Z.eqb_neq c 10)) by done.
Qed.

Lemma check_letters cs fuel src slen m : forall i n, holds m (src + i) cs -> Forall (fun c => letter c = true) cs -> i + Z.of_nat (length cs) <= slen ->
  check_loop (length cs + fuel) src slen i n 0 m = check_loop fuel src slen (i + Z.of_nat (length cs)) (n + Z.of_nat (length cs)) 0 m.
Proof.
  induction cs as [|c cs IH]; intros i n Hh Hl Hs; cbn [length Nat.add] in *; [by rewrite !Z.add_0_r|]. apply holds_cons in Hh as [E Hh]. apply Forall_cons in Hl as [Hc Hl].
  destruct (letter_facts c Hc) as (H1 & H2 & H3 & H4 & H5 & H6). rewrite (check_char _ _ _ _ _ _ c) by (done || lia). cbv zeta. rewrite (proj2 (Z.eqb_neq c 61)) by done. cbn [andb].
  rewrite (proj2 (Z.ltb_ge 127 c)), (proj2 (Z.eqb_neq (dec c) 127)) by lia. cbn [orb]. change (negb (0 =? 0)) with false. rewrite andb_false_r.
  rewrite IH; [f_equal; lia|by replace (src + (i + 1)) with (src + i + 1) by lia|done|lia].
Qed.

Lemma check_pad fuel src slen i n j m : i < slen -> m !! (src + i) = Some 61 -> 0 <= j < 2 -> check_loop (S fuel) src slen i n j m = check_loop fuel src slen (i + 1) (n + 1) (j + 1) m.
Proof. intros Hi E Hj. rewrite (check_char _ _ _ _ _ _ 61) by done. cbv zeta. change (61 =? 61) with true. cbn [andb]. by rewrite (proj2 (Z.ltb_ge 2 _)) by lia. Qed.

Lemma check_end fuel src slen n j m : check_loop (S fuel) src slen slen n j m = Done (Some (slen, n, j)) m.
Proof. cbn [check_loop]. by rewrite Z.ltb_irrefl. Qed.

(** ** Six bits at a time *)

Definition push (x d : Z) : Z := Z.lor (u32 (Z.shiftl x 6)) (Z.land d 63).

Lemma push_mod x d : push x d mod 2 ^ 24 = (64 * x + Z.land d 63) mod 2 ^ 24.
Proof.
  unfold push. assert (Hk : 0 <= Z.land d 63 < 2 ^ 6) by (change 63 with (Z.ones 6); rewrite Z.land_ones by lia; apply Z.mod_pos_bound; lia). revert Hk. generalize (Z.land d 63). clear d. intros v Hv.
  assert (E : Z.lor (u32 (Z.shiftl x 6)) v = u32 (Z.shiftl x 6) + v).
  { rewrite <-Z.lxor_lor, Z.add_nocarry_lxor; [done|..]; apply Z.bits_inj'; intros i Hi; unfold u32; rewrite Z.land_spec, Z.testbit_mod_pow2, Z.shiftl_spec, Z.bits_0 by lia;
      (destruct (Z.lt_ge_cases i 6); [by rewrite (Z.testbit_neg_r x) by lia; rewrite andb_false_r|rewrite <-(Z.mod_small _ _ Hv), Z.mod_pow2_bits_high by lia; apply andb_false_r]). }
  rewrite E. unfold u32. rewrite Z.shiftl_mul_pow2 by lia. change (2 ^ 32) with (2 ^ 24 * 256). rewrite Z.rem_mul_r by lia. rewrite (Z.mul_comm (2 ^ 24)), <-Z.add_assoc, (Z.add_comm (_ * 2 ^ 24)), Z.add_assoc, Z.mod_add by lia.
  rewrite Z.add_mod_idemp_l by lia. f_equal. lia.
Qed.

Lemma push_cong x y d : x mod 2 ^ 24 = y mod 2 ^ 24 -> push x d mod 2 ^ 24 = (64 * y + Z.land d 63) mod 2 ^ 24.
Proof. intros E. rewrite push_mod. rewrite <-Z.add_mod_idemp_l, <-Z.mul_mod_idemp_r, E, Z.mul_mod_idemp_r, Z.add_mod_idemp_l by lia. done. Qed.

Definition push4 (x v1 v2 v3 v4 : Z) : Z := push (push (push (push x v1) v2) v3) v4.

Lemma push4_mod x v1 v2 v3 v4 : push4 x v1 v2 v3 v4 mod 2 ^ 24 = (262144 * Z.land v1 63 + 4096 * Z.land v2 63 + 64 * Z.land v3 63 + Z.land v4 63) mod 2 ^ 24.
Proof.
  unfold push4. rewrite (push_cong _ (262144 * x + 4096 * Z.land v1 63 + 64 * Z.land v2 63 + Z.land v3 63) v4).
  - replace (64 * (262144 * x + 4096 * Z.land v1 63 + 64 * Z.land v2 63 + Z.land v3 63) + Z.land v4 63) with (262144 * Z.land v1 63 + 4096 * Z.land v2 63 + 64 * Z.land v3 63 + Z.land v4 63 + x * 2 ^ 24) by (change (2 ^ 24) with 16777216; lia).
    apply Z.mod_add. lia.
  - rewrite (push_cong _ (4096 * x + 64 * Z.land v1 63 + Z.land v2 63) v3); [f_equal; lia|]. rewrite (push_cong _ (64 * x + Z.land v1 63) v2); [f_equal; lia|]. apply push_mod.
Qed.

Lemma top_byte y : u8 (Z.shiftr y 16) = y mod 2 ^ 24 / 65536.
Proof. unfold u8. rewrite Z.shiftr_div_pow2 by lia. change (2 ^ 24) with (2 ^ 16 * 2 ^ 8). rewrite Z.rem_mul_r by lia. change 65536 with (2 ^ 16). rewrite (Z.mul_comm (2 ^ 16)), Z.div_add, (Z.div_small (y mod 2 ^ 16)) by (lia || apply Z.mod_pos_bound; lia). lia. Qed.
Lemma mid_byte y : u8 (Z.shiftr y 8) = y mod 2 ^ 24 / 256 mod 256.
Proof.
  unfold u8. rewrite Z.shiftr_div_pow2 by lia. change (2 ^ 24) with (2 ^ 8 * 2 ^ 16). rewrite Z.rem_mul_r by lia. change 256 with (2 ^ 8). rewrite (Z.mul_comm (2 ^ 8)), Z.div_add, (Z.div_small (y mod 2 ^ 8)) by (lia || apply Z.mod_pos_bound; lia).
  rewrite Z.add_0_l. change (2 ^ 16) with (2 ^ 8 * 2 ^ 8). rewrite Z.rem_mul_r by lia. rewrite Z.mul_comm, Z.mod_add by lia. symmetry. apply Z.mod_mod. lia.
Qed.
Lemma low_byte y : u8 y = y mod 2 ^ 24 mod 256.
Proof. unfold u8. change (2 ^ 24) with (2 ^ 8 * 2 ^ 16). rewrite Z.rem_mul_r by lia. change 256 with (2 ^ 8). rewrite Z.mul_comm, Z.mod_add by lia. symmetry. apply Z.mod_mod. lia. Qed.

(** The parts of three bytes that make the four characters. *)
Lemma sextets b1 b2 b3 : byte b1 -> byte b2 -> byte b3 ->
  Z.land (Z.shiftr b1 2) 63 = b1 / 4 /\ Z.land (Z.shiftl (Z.land b1 3) 4 + Z.shiftr b2 4) 63 = 16 * (b1 mod 4) + b2 / 16 /\
  Z.land (Z.shiftl (Z.land b2 15) 2 + Z.shiftr b3 6) 63 = 4 * (b2 mod 16) + b3 / 64 /\ Z.land b3 63 = b3 mod 64.
Proof.
  unfold byte. intros H1 H2 H3. change 63 with (Z.ones 6). change 3 with (Z.ones 2). change 15 with (Z.ones 4). rewrite !Z.land_ones, !Z.shiftr_div_pow2, !Z.shiftl_mul_pow2 by lia.
  change (2 ^ 6) with 64. change (2 ^ 4) with 16. change (2 ^ 2) with 4. pose proof (Z.div_mod b1 4). pose proof (Z.div_mod b2 16). pose proof (Z.div_mod b3 64).
  pose proof (Z.mod_pos_bound b1 4). pose proof (Z.mod_pos_bound b2 16). pose proof (Z.mod_pos_bound b3 64). split_and!; [apply Z.mod_small; lia|rewrite Z.mod_small; lia|rewrite Z.mod_small; lia|done].
Qed.

Lemma group_value x b1 b2 b3 : byte b1 -> byte b2 -> byte b3 ->
  push4 x (Z.shiftr b1 2) (Z.shiftl (Z.land b1 3) 4 + Z.shiftr b2 4) (Z.shiftl (Z.land b2 15) 2 + Z.shiftr b3 6) b3 mod 2 ^ 24 = 65536 * b1 + 256 * b2 + b3.
Proof.
  intros H1 H2 H3. rewrite push4_mod. destruct (sextets b1 b2 b3 H1 H2 H3) as (-> & -> & -> & ->). unfold byte in *. pose proof (Z.div_mod b1 4). pose proof (Z.div_mod b2 16). pose proof (Z.div_mod b3 64). rewrite Z.mod_small; lia.
Qed.

Lemma land_mod63 v : Z.land (Z.land v 63) 63 = Z.land v 63.
Proof. by rewrite <-Z.land_assoc. Qed.

Lemma push_dec x v : push x (dec (enc v)) = push x v.
Proof. unfold push. destruct (enc_letter v) as [_ ->]. by rewrite land_mod63. Qed.

(** A letter, or padding, that does not complete a group. *)
Lemma decode_char i src j n x p c m : m !! src = Some c -> c <> 32 -> c <> 10 -> c <> 13 -> n + 1 <> 4 ->
  decode_loop (S i) src j n x p m = decode_loop i (src + 1) (u32 (j - (if dec c =? 64 then 1 else 0))) (n + 1) (push x (dec c)) p m.
Proof.
  intros E H1 H2 H3 Hn. cbn [decode_loop]. unfold mbind at 1, ST_bind at 1. unfold ldb at 1. rewrite E. rewrite (proj2 (Z.eqb_neq c 13)), (proj2 (Z.eqb_neq c 10)), (proj2 (Z.eqb_neq c 32)) by done. cbn [orb]. cbv zeta.
  by rewrite (proj2 (Z.eqb_neq (n + 1) 4)) by done.
Qed.

Lemma decode_last i src j x p c m : m !! src = Some c -> c <> 32 -> c <> 10 -> c <> 13 ->
  decode_loop (S i) src j 3 x p m = (let j := u32 (j - (if dec c =? 64 then 1 else 0)) in let x := push x (dec c) in
    p ← (if 0 <? j then stb p (u8 (Z.shiftr x 16));; mret (p + 1) else mret p);
    p ← (if 1 <? j then stb p (u8 (Z.shiftr x 8));; mret (p + 1) else mret p);
    p ← (if 2 <? j then stb p (u8 x);; mret (p + 1) else mret p);
    decode_loop i (src + 1) j 0 x p) m.
Proof.
  intros E H1 H2 H3. cbn [decode_loop]. unfold mbind at 1, ST_bind at 1. unfold ldb at 1. rewrite E. rewrite (proj2 (Z.eqb_neq c 13)), (proj2 (Z.eqb_neq c 10)), (proj2 (Z.eqb_neq c 32)) by done. done.
Qed.

Lemma wp_eq {S A} (c c' : ST S A) (Q : A -> S -> Prop) s : c s = c' s -> wp c' Q s -> wp c Q s.
Proof. unfold wp. by intros ->. Qed.

Definition bytes_of (g : triple) : Prop := let '(b1, b2, b3) := g in byte b1 /\ byte b2 /\ byte b3.

Lemma enc_not_special v : enc v <> 32 /\ enc v <> 10 /\ enc v <> 13 /\ (dec (enc v) =? 64) = false.
Proof. destruct (enc_letter v) as [Hl _]. destruct (letter_facts _ Hl) as (? & ? & ? & ? & ? & ?). split_and!; try done. apply Z.eqb_neq. lia. Qed.

(** A letter inside a group. *)
Lemma decode_letter i src n x p v m : m !! src = Some (enc v) -> n + 1 <> 4 -> decode_loop (S i) src 3 n x p m = decode_loop i (src + 1) 3 (n + 1) (push x v) p m.
Proof. intros E Hn. destruct (enc_not_special v) as (H1 & H2 & H3 & H4). rewrite (decode_char _ _ _ _ _ _ (enc v)) by done. by rewrite H4, push_dec. Qed.

Lemma wp_decode_group x b1 b2 b3 src p m k (Q : Z -> bmem -> Prop) :
  bytes_of (b1, b2, b3) -> holds m src (text3 (b1, b2, b3)) -> mapped m p 3 ->
  (forall m' x', holds m' p [b1; b2; b3] -> outside p 3 m m' -> (forall y, is_Some (m' !! y) <-> is_Some (m !! y)) -> wp (decode_loop k (src + 4) 3 0 x' (p + 3)) Q m') ->
  wp (decode_loop (4 + k) src 3 0 x p) Q m.
Proof.
  intros (H1 & H2 & H3) Hh Hm HQ. cbn [text3] in Hh. apply holds_cons in Hh as [E1 Hh]. apply holds_cons in Hh as [E2 Hh]. apply holds_cons in Hh as [E3 Hh]. apply holds_cons in Hh as [E4 _].
  cbn [Nat.add]. eapply wp_eq; [by apply decode_letter|]. eapply wp_eq; [by apply decode_letter|]. eapply wp_eq; [by apply decode_letter|]. change (0 + 1 + 1 + 1) with 3.
  destruct (enc_not_special b3) as (N1 & N2 & N3 & N4). eapply wp_eq; [by apply (decode_last _ _ _ _ _ (enc b3))|]. cbv zeta. rewrite N4, push_dec. change (u32 (3 - 0)) with 3. fold (push4 x (Z.shiftr b1 2) (Z.shiftl (Z.land b1 3) 4 + Z.shiftr b2 4) (Z.shiftl (Z.land b2 15) 2 + Z.shiftr b3 6) b3).
  pose proof (group_value x b1 b2 b3 H1 H2 H3) as Ev. set (y := push4 _ _ _ _ _) in *. change (0 <? 3) with true. change (1 <? 3) with true. change (2 <? 3) with true. cbv iota. unfold byte in *.
  rewrite (top_byte y), (mid_byte y), (low_byte y), Ev. replace ((65536 * b1 + 256 * b2 + b3) / 65536) with b1 by (apply (Z.div_unique _ _ _ (256 * b2 + b3)); lia).
  replace ((65536 * b1 + 256 * b2 + b3) / 256) with (256 * b1 + b2) by (apply (Z.div_unique _ _ _ b3); lia). replace ((256 * b1 + b2) mod 256) with b2 by (rewrite Z.add_comm, Z.mul_comm, Z.mod_add, Z.mod_small; lia).
  replace ((65536 * b1 + 256 * b2 + b3) mod 256) with b3 by (replace (65536 * b1 + 256 * b2 + b3) with (b3 + (256 * b1 + b2) * 256) by lia; rewrite Z.mod_add, Z.mod_small; lia).
  assert (M0 : is_Some (m !! p)) by (rewrite <-(Z.add_0_r p); apply Hm; lia). assert (M1 := Hm 1 ltac:(lia)). assert (M2 := Hm 2 ltac:(lia)).
  apply wp_bind, wp_bind, wp_stb; [done|]. apply wp_ret. apply wp_bind, wp_bind, wp_stb; [by apply insert_dom|]. apply wp_ret. apply wp_bind, wp_bind, wp_stb; [rewrite !insert_dom by (by rewrite ?insert_dom); by replace (p + 1 + 1) with (p + 2) by lia|]. apply wp_ret.
  replace (src + 1 + 1 + 1 + 1) with (src + 4) by lia. replace (p + 1 + 1 + 1) with (p + 3) by lia. replace (p + 1 + 1) with (p + 2) by lia. apply HQ.
  - rewrite !holds_cons. replace (p + 1 + 1) with (p + 2) by lia. split_and!; [..|apply holds_nil]; rewrite ?lookup_insert_ne by lia; apply lookup_insert_eq.
  - intros a Ha. by rewrite !lookup_insert_ne by lia.
  - intros a. by rewrite !insert_dom by (by rewrite ?insert_dom by (by rewrite ?insert_dom)).
Qed.

Lemma wp_decode_groups gs k : forall x src p m (Q : Z -> bmem -> Prop),
  let n := Z.of_nat (length gs) in
  Forall bytes_of gs -> holds m src (texts gs) -> mapped m p (3 * n) -> src + 4 * n <= p \/ p + 3 * n <= src ->
  (forall m' x', holds m' p (flat gs) -> outside p (3 * n) m m' -> (forall y, is_Some (m' !! y) <-> is_Some (m !! y)) -> wp (decode_loop k (src + 4 * n) 3 0 x' (p + 3 * n)) Q m') ->
  wp (decode_loop (4 * length gs + k) src 3 0 x p) Q m.
Proof.
  induction gs as [|[[b1 b2] b3] gs IH]; intros x src p m Q n Hb Hh Hm Hd HQ; unfold n in *; clear n; cbn [length] in *.
  - specialize (HQ m x). cbn [Nat.mul Nat.add]. rewrite !Z.mul_0_r, !Z.add_0_r in HQ. apply HQ; [apply holds_nil|done|done].
  - apply Forall_cons in Hb as [Hb Hbs]. change (texts ((b1, b2, b3) :: gs)) with (text3 (b1, b2, b3) ++ texts gs) in Hh. apply holds_app in Hh as [Hh Hhs]. change (Z.of_nat (length (text3 _))) with 4 in Hhs.
    replace (4 * S (length gs) + k)%nat with (4 + (4 * length gs + k))%nat by lia. apply (wp_decode_group x b1 b2 b3); [done|done|eapply mapped_le; [exact Hm|lia]|]. intros m1 x1 Hh1 Ho1 Hd1.
    apply IH; [done|eapply holds_outside; [exact Hhs|exact Ho1|]; rewrite texts_length; lia|eapply mapped_dom; [exact Hd1|]; intros i Hi; replace (p + 3 + i) with (p + (3 + i)) by lia; apply Hm; lia|lia|].
    intros m2 x2 Hh2 Ho2 Hd2. replace (src + 4 + 4 * Z.of_nat (length gs)) with (src + 4 * Z.of_nat (S (length gs))) by lia. replace (p + 3 + 3 * Z.of_nat (length gs)) with (p + 3 * Z.of_nat (S (length gs))) by lia. apply HQ.
    + change (flat ((b1, b2, b3) :: gs)) with ([b1; b2; b3] ++ flat gs). apply holds_app. split; [eapply holds_outside; [exact Hh1|exact Ho2|]; cbn [length]; lia|exact Hh2].
    + intros y Hy. rewrite Ho2, Ho1 by lia. done.
    + intros y. by rewrite Hd2.
Qed.

Lemma wp_decode_rest r x src p m (Q : Z -> bmem -> Prop) :
  (length r < 3)%nat -> Forall byte r -> holds m src (text_rest r) -> mapped m p (Z.of_nat (length r)) ->
  (forall m', holds m' p r -> outside p (Z.of_nat (length r)) m m' -> Q (p + Z.of_nat (length r)) m') ->
  wp (decode_loop (length (text_rest r)) src 3 0 x p) Q m.
Proof.
  intros Hr Hb Hh Hm HQ. destruct r as [|b1 [|b2 [|]]]; cbn [length text_rest] in *; [| | |lia].
  - apply wp_ret. specialize (HQ m). rewrite Z.add_0_r in HQ. apply HQ; [apply holds_nil|done].
  - apply Forall_cons in Hb as [H1 _]. apply holds_cons in Hh as [E1 Hh]. apply holds_cons in Hh as [E2 Hh]. apply holds_cons in Hh as [E3 Hh]. apply holds_cons in Hh as [E4 _].
    eapply wp_eq; [by apply decode_letter|]. eapply wp_eq; [by apply decode_letter|]. eapply wp_eq; [by apply (decode_char _ _ _ _ _ _ 61)|]. change (0 + 1 + 1 + 1) with 3. eapply wp_eq; [by apply (decode_last _ _ _ _ _ 61)|]. cbv zeta.
    change (u32 (u32 (3 - (if dec 61 =? 64 then 1 else 0)) - (if dec 61 =? 64 then 1 else 0))) with 1. change (0 <? 1) with true. change (1 <? 1) with false. change (2 <? 1) with false. cbv iota.
    pose proof (group_value x b1 0 0 H1 ltac:(unfold byte; lia) ltac:(unfold byte; lia)) as Ev. change (push4 x ?a ?b ?c 0) with (push (push (push (push x a) b) (dec 61)) (dec 61)) in Ev. rewrite top_byte, Ev.
    replace ((65536 * b1 + 256 * 0 + 0) / 65536) with b1 by (apply (Z.div_unique _ _ _ 0); unfold byte in *; lia). apply wp_bind, wp_bind, wp_stb; [rewrite <-(Z.add_0_r p); apply Hm; lia|]. apply wp_ret, wp_bind, wp_ret, wp_bind, wp_ret, wp_ret.
    apply HQ; [apply holds_cons; split; [apply lookup_insert_eq|apply holds_nil]|intros y Hy; apply lookup_insert_ne; lia].
  - apply Forall_cons in Hb as [H1 Hb]. apply Forall_cons in Hb as [H2 _]. apply holds_cons in Hh as [E1 Hh]. apply holds_cons in Hh as [E2 Hh]. apply holds_cons in Hh as [E3 Hh]. apply holds_cons in Hh as [E4 _].
    eapply wp_eq; [by apply decode_letter|]. eapply wp_eq; [by apply decode_letter|]. eapply wp_eq; [by apply decode_letter|]. change (0 + 1 + 1 + 1) with 3. eapply wp_eq; [by apply (decode_last _ _ _ _ _ 61)|]. cbv zeta.
    change (u32 (3 - (if dec 61 =? 64 then 1 else 0))) with 2. change (0 <? 2) with true. change (1 <? 2) with true. change (2 <? 2) with false. cbv iota.
    pose proof (group_value x b1 b2 0 H1 H2 ltac:(unfold byte; lia)) as Ev. change (Z.shiftr 0 6) with 0 in Ev. rewrite Z.add_0_r in Ev. change (push4 x ?a ?b ?c 0) with (push (push (push (push x a) b) c) (dec 61)) in Ev. rewrite top_byte, mid_byte, Ev. unfold byte in *.
    replace ((65536 * b1 + 256 * b2 + 0) / 65536) with b1 by (apply (Z.div_unique _ _ _ (256 * b2)); lia). replace ((65536 * b1 + 256 * b2 + 0) / 256) with (b2 + b1 * 256) by (apply (Z.div_unique _ _ _ 0); lia). rewrite Z.mod_add, Z.mod_small by lia.
    apply wp_bind, wp_bind, wp_stb; [rewrite <-(Z.add_0_r p); apply Hm; lia|]. apply wp_ret, wp_bind, wp_bind, wp_stb; [apply insert_dom; [rewrite <-(Z.add_0_r p)|]; apply Hm; lia|]. apply wp_ret, wp_bind, wp_ret, wp_ret.
    replace (p + 1 + 1) with (p + Z.of_nat 2) by lia. apply HQ; [|intros y Hy; rewrite !lookup_insert_ne by lia; done].
    apply holds_cons. split; [rewrite lookup_insert_ne by lia; apply lookup_insert_eq|]. apply holds_cons. split; [apply lookup_insert_eq|apply holds_nil].
Qed.

(** Letters, then at most two characters of padding. *)
Lemma rest_letters r : (length r < 3)%nat -> exists ls j, text_rest r = ls ++ replicate j 61 /\ Forall (fun c => letter c = true) ls /\ (j < 3)%nat /\
  (Z.of_nat j = if (length r =? 0)%nat then 0 else 3 - Z.of_nat (length r)).
Proof.
  intros Hr. destruct r as [|b1 [|b2 [|]]]; cbn [length] in *; [exists [], 0%nat| | |lia].
  - split_and!; [done|constructor|lia|done].
  - eexists [_; _], 2%nat. split_and!; [reflexivity|repeat constructor; apply enc_letter|lia|done].
  - eexists [_; _; _], 1%nat. split_and!; [reflexivity|repeat constructor; apply enc_letter|lia|done].
Qed.

Lemma texts_letters gs : Forall (fun c => letter c = true) (texts gs).
Proof. induction gs as [|[[b1 b2] b3] gs IH]; [constructor|]. change (texts ((b1, b2, b3) :: gs)) with (text3 (b1, b2, b3) ++ texts gs). apply Forall_app. split; [repeat constructor; apply enc_letter|done]. Qed.

(** The first pass accepts letters followed by at most two characters of padding. *)
Lemma check_accepts ls j src m : let slen := Z.of_nat (length ls + j) in
  holds m src (ls ++ replicate j 61) -> Forall (fun c => letter c = true) ls -> (j < 3)%nat ->
  check_loop (S (Z.to_nat slen)) src slen 0 0 0 m = Done (Some (slen, slen, Z.of_nat j)) m.
Proof.
  intros slen Hh Hl Hj. apply holds_app in Hh as [Hh Hp]. unfold slen. rewrite Nat2Z.id. replace (S (length ls + j)) with (length ls + S j)%nat by lia.
  rewrite check_letters; [|by rewrite Z.add_0_r|done|lia]. rewrite !Z.add_0_l.
  destruct j as [|[|[|]]]; [| | |lia]; cbn [replicate] in Hp.
  - rewrite Nat.add_0_r. apply check_end.
  - apply holds_cons in Hp as [E1 _]. rewrite check_pad by (done || lia). replace (Z.of_nat (length ls) + 1) with (Z.of_nat (length ls + 1)) by lia. apply check_end.
  - apply holds_cons in Hp as [E1 Hp]. apply holds_cons in Hp as [E2 _]. rewrite check_pad by (done || lia). rewrite check_pad; [|lia|by rewrite Z.add_assoc|lia]. replace (Z.of_nat (length ls) + 1 + 1) with (Z.of_nat (length ls + 2)) by lia. apply check_end.
Qed.

(** The size the first pass computes. *)
Lemma decoded_size q j : 0 <= q -> 0 <= j <= 2 -> 3 * q - j < 2 ^ 32 -> (q = 0 -> j = 0) -> u32 (6 * Z.shiftr (4 * q) 3 + Z.shiftr (6 * Z.land (4 * q) 7 + 7) 3 - j) = 3 * q - j.
Proof.
  intros Hq Hj Hmax H0. change 7 with (Z.ones 3) at 1. rewrite Z.land_ones, !Z.shiftr_div_pow2 by lia. change (2 ^ 3) with 8.
  pose proof (Z.div_mod q 2 ltac:(lia)) as E. pose proof (Z.mod_pos_bound q 2 ltac:(lia)). set (a := q / 2) in *. clearbody a. assert (Hb : q mod 2 = 0 \/ q mod 2 = 1) by lia. destruct Hb as [Hb|Hb]; rewrite Hb in E.
  - replace (4 * q) with (0 + a * 8) by lia. rewrite Z.div_add, Z.mod_add by lia. change (0 / 8) with 0. change (0 mod 8) with 0. change ((6 * 0 + 7) / 8) with 0. rewrite u32_small; lia.
  - replace (4 * q) with (4 + a * 8) by lia. rewrite Z.div_add, Z.mod_add by lia. change (4 / 8) with 0. change (4 mod 8) with 4. change ((6 * 4 + 7) / 8) with 3. rewrite u32_small; lia.
Qed.

Lemma wp_base64_decode bs m dst dlen src (Q : Z * option Z -> bmem -> Prop) :
  let len := Z.of_nat (length bs) in let n := text_size len in
  bs <> [] -> Forall byte bs -> n < 2 ^ 32 -> len <= dlen -> dst <> 0 -> holds m src (enc_text bs) -> mapped m dst len -> src + n <= dst \/ dst + len <= src ->
  (forall m', holds m' dst bs -> outside dst len m m' -> Q (0, Some len) m') ->
  wp (base64_decode dst dlen src n) Q m.
Proof.
  intros len n Hne Hb Hmax Hl Hd Hh Hm Hsep HQ. pose proof (text_size_exact bs) as Es. fold len in Es. fold n in Es.
  destruct (split3 bs) as (gs & r & -> & Hr). rewrite enc_text_split in Hh, Es by done. destruct (rest_letters r Hr) as (ls & j & Er & Hls & Hj & Ej). rewrite length_app, texts_length in Es.
  assert (El : len = 3 * Z.of_nat (length gs) + Z.of_nat (length r)) by (unfold len; rewrite length_app, flat_length; lia). assert (Hpos : 0 < len) by (unfold len; destruct (flat gs ++ r); [done|cbn; lia]).
  pose proof (rest_length r Hr) as Erl. assert (Elj : (length (text_rest r) = length ls + j)%nat) by (rewrite Er, length_app, length_replicate; done). clearbody len n.
  assert (En : n = Z.of_nat (length (texts gs ++ ls) + j)) by (rewrite length_app, texts_length; lia).
  assert (Hc : check_loop (S (Z.to_nat n)) src n 0 0 0 m = Done (Some (n, n, Z.of_nat j)) m).
  { rewrite En. apply check_accepts; [by rewrite <-app_assoc, <-Er|by apply Forall_app; split; [apply texts_letters|]|done]. }
  unfold base64_decode. apply wp_bind. unfold wp at 1. rewrite Hc. assert (Hn0 : 0 < n) by (destruct (Nat.eqb_spec (length r) 0); lia). rewrite (proj2 (Z.eqb_neq n 0)) by lia.
  set (q := Z.of_nat (length gs) + (if (length r =? 0)%nat then 0 else 1)). assert (Hq : n = 4 * q) by (unfold q; destruct (length r =? 0)%nat; lia).
  assert (Hlen : len = 3 * q - Z.of_nat j) by (unfold q; destruct (Nat.eqb_spec (length r) 0); lia). rewrite Hq at 1 2. rewrite decoded_size by lia. rewrite <-Hlen.
  rewrite (proj2 (Z.eqb_neq dst 0)), (proj2 (Z.ltb_ge dlen len)) by lia. cbn [orb]. replace (Z.to_nat n) with (4 * length gs + length (text_rest r))%nat by lia. apply Forall_app in Hb as [Hbg Hbr].
  assert (Hg : Forall bytes_of gs).
  { clear -Hbg. induction gs as [|[[b1 b2] b3] gs IH]; [constructor|]. change (flat ((b1, b2, b3) :: gs)) with (b1 :: b2 :: b3 :: flat gs) in Hbg. rewrite !Forall_cons in Hbg. destruct Hbg as (? & ? & ? & ?). constructor; [done|by apply IH]. }
  apply holds_app in Hh as [Hhg Hhr]. rewrite texts_length in Hhr. apply wp_bind, wp_decode_groups; [done|done|eapply mapped_le; [exact Hm|lia]|lia|]. intros m1 x1 Hh1 Ho1 Hd1.
  apply wp_decode_rest; [done|done| | |].
  { replace (src + 4 * Z.of_nat (length gs)) with (src + Z.of_nat (4 * length gs)) by lia. eapply holds_outside; [exact Hhr|exact Ho1|]. lia. }
  { eapply mapped_dom; [exact Hd1|]. intros i Hi. replace (dst + 3 * Z.of_nat (length gs) + i) with (dst + (3 * Z.of_nat (length gs) + i)) by lia. apply Hm. lia. }
  intros m2 Hh2 Ho2. apply wp_ret. replace (dst + 3 * Z.of_nat (length gs) + Z.of_nat (length r) - dst) with len by lia. apply HQ.
  - apply holds_app. rewrite flat_length. replace (dst + Z.of_nat (3 * length gs)) with (dst + 3 * Z.of_nat (length gs)) by lia. split; [eapply holds_outside; [exact Hh1|exact Ho2|]; rewrite flat_length; lia|exact Hh2].
  - intros y Hy. rewrite Ho2, Ho1 by lia. done.
Qed.

(** ** Theorems *)

(** Encoding: nothing to encode succeeds with an empty text; a buffer that is missing or too
    small is refused with the size it needs and memory unchanged; otherwise the buffer holds
    the base64 text and a terminating zero, and nothing else changes. *)
Theorem base64_encode_exact bs m dst dlen src :
  let len := Z.of_nat (length bs) in let n := text_size len in
  n < 2 ^ 32 -> holds m src bs ->
  (bs = [] -> base64_encode dst dlen src len m = Done (0, Some 0) m) /\
  (bs <> [] -> dst = 0 \/ dlen < n + 1 -> base64_encode dst dlen src len m = Done (- ENOMEM, Some (n + 1)) m) /\
  (bs <> [] -> dst <> 0 -> n + 1 <= dlen -> mapped m dst (n + 1) -> src + len <= dst \/ dst + n + 1 <= src ->
     exists m', base64_encode dst dlen src len m = Done (0, Some n) m' /\ holds m' dst (enc_text bs ++ [0]) /\ outside dst (n + 1) m m').
Proof.
  intros len n Hmax Hh. split_and!.
  - intros ->. done.
  - intros Hne Hsmall. unfold base64_encode. assert (0 < len) by (unfold len; destruct bs; [done|cbn; lia]). rewrite (proj2 (Z.eqb_neq len 0)) by lia. change BASE64_SIZE_T_MAX with 4294967295. change ((4294967295 - 1) / 4) with 1073741823.
    rewrite (proj2 (Z.ltb_ge 1073741823 _)) by (unfold n, text_size in Hmax; lia). fold (text_size len). fold n. destruct Hsmall as [->|Hs]; [by rewrite orb_true_r|by rewrite (proj2 (Z.ltb_lt dlen _)) by lia].
  - intros Hne Hd Hl Hm Hsep. assert (W : wp (base64_encode dst dlen src len) (fun r m' => r = (0, Some n) /\ holds m' dst (enc_text bs ++ [0]) /\ outside dst (n + 1) m m') m) by (by apply wp_base64_encode).
    apply wp_run in W as (r & m' & E & -> & Hh' & Ho). by exists m'.
Qed.

(** C37: Decoding the text of a message gives the message back. *)
Theorem base64_roundtrip bs m dst dlen src out olen :
  let len := Z.of_nat (length bs) in let n := text_size len in
  bs <> [] -> Forall byte bs -> n < 2 ^ 32 -> n + 1 <= dlen -> len <= olen -> dst <> 0 -> out <> 0 ->
  holds m src bs -> mapped m dst (n + 1) -> mapped m out len -> src + len <= dst \/ dst + n + 1 <= src -> dst + n + 1 <= out \/ out + len <= dst ->
  exists m1 m2, base64_encode dst dlen src len m = Done (0, Some n) m1 /\ base64_decode out olen dst n m1 = Done (0, Some len) m2 /\ holds m2 out bs /\ outside out len m1 m2.
Proof.
  intros len n Hne Hb Hmax Hl Hl2 Hd Hout Hh Hm Hm2 Hs1 Hs2.
  assert (W : wp (base64_encode dst dlen src len) (fun r m' => r = (0, Some n) /\ holds m' dst (enc_text bs ++ [0]) /\ (forall x, is_Some (m' !! x) <-> is_Some (m !! x))) m) by (by apply wp_base64_encode).
  apply wp_run in W as (r & m1 & E1 & -> & Hh1 & Hd1). exists m1. apply holds_app in Hh1 as [Hh1 _].
  assert (W2 : wp (base64_decode out olen dst n) (fun r m' => r = (0, Some len) /\ holds m' out bs /\ outside out len m1 m') m1).
  { apply wp_base64_decode; [done|done|done|done|done|done|by eapply mapped_dom|fold len n; lia|done]. }
  apply wp_run in W2 as (r & m2 & E2 & -> & Hh2 & Ho2). by exists m2.
Qed.

(** A character outside the alphabet after letters makes the text invalid; nothing is written. *)
Theorem base64_decode_refuses ls c slen m dst dlen src :
  holds m src (ls ++ [c]) -> Forall (fun c => letter c = true) ls -> 0 <= c < 256 -> 127 < c \/ dec c = 127 -> c <> 32 -> c <> 10 -> c <> 13 -> Z.of_nat (length ls) < slen ->
  base64_decode dst dlen src slen m = Done (- EINVAL, None) m.
Proof.
  intros Hh Hl Hc Hbad H32 H10 H13 Hs. apply holds_app in Hh as [Hh Hcs]. apply holds_cons in Hcs as [E _]. unfold base64_decode, mbind, ST_bind.
  replace (S (Z.to_nat slen)) with (length ls + S (Z.to_nat slen - length ls))%nat by lia. rewrite check_letters; [|by rewrite Z.add_0_r|done|lia]. rewrite !Z.add_0_l.
  rewrite (check_char _ _ _ _ _ _ c) by done. cbv zeta. assert (H61 : c <> 61) by (intros ->; destruct Hbad as [|Hbad]; [lia|by vm_compute in Hbad]). rewrite (proj2 (Z.eqb_neq c 61)) by done. cbn [andb].
  replace ((127 <? c) || (dec c =? 127)) with true; [done|]. symmetry. apply orb_true_iff. destruct Hbad; [left; by apply Z.ltb_lt|right; by apply Z.eqb_eq].
Qed.

(** A text that ends inside a group is not refused: one to three letters decode to nothing. *)
Theorem base64_decode_drops ls m dst dlen src :
  holds m src ls -> Forall (fun c => letter c = true) ls -> (0 < length ls < 4)%nat -> dst <> 0 -> 3 <= dlen ->
  base64_decode dst dlen src (Z.of_nat (length ls)) m = Done (0, Some 0) m.
Proof.
  intros Hh Hl Hn Hd Hdl. pose proof (check_accepts ls 0 src m) as Hc. cbv zeta in Hc. rewrite app_nil_r, Nat.add_0_r in Hc. specialize (Hc Hh Hl ltac:(lia)).
  unfold base64_decode, mbind at 1, ST_bind at 1. rewrite Hc. rewrite (proj2 (Z.eqb_neq (Z.of_nat _) 0)) by lia. rewrite (proj2 (Z.eqb_neq dst 0)) by done. cbn [orb].
  assert (Hsz : u32 (6 * Z.shiftr (Z.of_nat (length ls)) 3 + Z.shiftr (6 * Z.land (Z.of_nat (length ls)) 7 + 7) 3 - 0) <= 3) by (destruct (length ls) as [|[|[|[|]]]]; [lia|by vm_compute..|lia]).
  rewrite (proj2 (Z.ltb_ge dlen _)) by (change (Z.of_nat 0) with 0; lia). rewrite Nat2Z.id.
  enough (E : decode_loop (length ls) src 3 0 0 dst m = Done dst m) by (unfold mbind, ST_bind; rewrite E; by rewrite Z.sub_diag).
  enough (Hgen : forall n x src, holds m src ls -> 0 <= n -> n + Z.of_nat (length ls) < 4 -> decode_loop (length ls) src 3 n x dst m = Done dst m) by (apply Hgen; [done|lia|lia]).
  clear -Hl. induction Hl as [|c ls Hc _ IH]; intros n x src Hh Hn Hlt; cbn [length] in *; [done|]. apply holds_cons in Hh as [E Hh]. destruct (letter_facts c Hc) as (? & ? & ? & ? & ? & ?).
  rewrite (decode_char _ _ _ _ _ _ c) by (done || lia). rewrite (proj2 (Z.eqb_neq (dec c) 64)) by lia. apply IH; [done|lia|lia].
Qed.

(** ** Witnesses *)

Definition b64_mem : bmem := place 100 [77; 97; 110; 33] (place 200 (replicate 9 0) (place 300 (replicate 4 0) ∅)).

Lemma base64_encode_exact_witness :
  base64_encode 200 8 100 4 b64_mem = Done (- ENOMEM, Some 9) b64_mem /\
  exists m', base64_encode 200 9 100 4 b64_mem = Done (0, Some 8) m' /\ holds m' 200 ([84; 87; 70; 117; 73; 81; 61; 61] ++ [0]) /\ outside 200 9 b64_mem m'.
Proof.
  split.
  - apply (base64_encode_exact [77; 97; 110; 33] b64_mem 200 8 100); [by vm_compute|by apply holdsb_holds|done|right; by vm_compute].
  - apply (base64_encode_exact [77; 97; 110; 33] b64_mem 200 9 100); [by vm_compute|by apply holdsb_holds|done|done|by vm_compute|by apply (mappedb_mapped _ _ 9)|left; by vm_compute].
Defined.

Lemma base64_roundtrip_witness :
  exists m1 m2, base64_encode 200 9 100 4 b64_mem = Done (0, Some 8) m1 /\ base64_decode 300 4 200 8 m1 = Done (0, Some 4) m2 /\ holds m2 300 [77; 97; 110; 33] /\ outside 300 4 m1 m2.
Proof.
  apply (base64_roundtrip [77; 97; 110; 33] b64_mem 200 9 100 300 4);
    [done|repeat constructor; lia|by vm_compute|by vm_compute|by vm_compute|done|done|by apply holdsb_holds|by apply (mappedb_mapped _ _ 9)|by apply (mappedb_mapped _ _ 4)|left; by vm_compute|left; by vm_compute].
Defined.

(** Man, then an asterisk. *)
Lemma base64_decode_refuses_witness : base64_decode 300 4 100 4 (place 100 [84; 87; 70; 42] ∅) = Done (- EINVAL, None) (place 100 [84; 87; 70; 42] ∅).
Proof. apply (base64_decode_refuses [84; 87; 70] 42); [by apply holdsb_holds|by repeat constructor|lia|by right|done|done|done|done]. Defined.

Lemma base64_decode_drops_witness : base64_decode 300 4 100 2 (place 100 [84; 87] ∅) = Done (0, Some 0) (place 100 [84; 87] ∅).
Proof. apply (base64_decode_drops [84; 87]); [by apply holdsb_holds|by repeat constructor|cbn; lia|done|lia]. Defined.
