(* ===== verification/Printk.v ===== *)
(** * Formatted output

    Models [src/lib/sys/printk.c] on a 32-bit target.  The format and the strings are in byte
    memory; an argument is a 32-bit word (an integer or a pointer) or a 64-bit one, and taking
    one of the wrong size is a [Fault].  The console is the list of characters handed to the
    installed routine.  The output routine of [vprintk_core] is its argument [out]; the contexts
    of the three routines are fields of the state.

    Proved: numbers come out as their shortest numerals, padded; [snprintk] of a format whose
    widths the code honours stores the text that [printk.h] promises, cut to the buffer, ends
    it, and returns its length; user-mode output through a buffer reaches the console
    unchanged.  [emitted] is what the code makes of every format. *)

From Stdlib Require Import ZArith Lia Bool List.
From stdpp Require Import base tactics numbers list gmap.
From S2P Require Import Prelude Bytes CMem CString.

Local Open Scope Z_scope.

(** ** Model *)

Inductive pad_type := pad_none_pad | pad_zero_before_pad | pad_space_before_pad | pad_space_after_pad.

Global Instance pad_type_dec : EqDecision pad_type.
Proof. solve_decision. Defined.

Inductive arg := Word (z : Z) | Dword (z : Z).

Record pstate := mk_pstate { pm : bmem; console : list Z; count : Z; buf : list Z }.
Notation PM := (ST pstate).

Definition bytes {A} (m : BM A) : PM A := fun s =>
  match m (pm s) with Done a m' => Done a (mk_pstate m' (console s) (count s) (buf s)) | Fail e => Fail e end.
Definition write_console (cs : list Z) : PM unit := modify (fun s => mk_pstate (pm s) (console s ++ cs) (count s) (buf s)).
Definition set_count (n : Z) : PM unit := modify (fun s => mk_pstate (pm s) (console s) (s32 n) (buf s)).
Definition set_buf (b : list Z) : PM unit := modify (fun s => mk_pstate (pm s) (console s) (count s) b).

Definition printk_char_out (c : Z) : PM unit := n ← gets count; set_count (n + 1);; write_console [c].

Definition printk_string (str max c : Z) : PM unit :=
  n ← gets count;
  if (str =? 0) || (n >=? max) then set_count (n + 1)
  else if n =? max - 1 then bytes (stb (str + n) 0);; set_count (n + 1)
  else bytes (stb (str + n) (u8 c));; set_count (n + 1).

(** The characters of a buffer, one at a time. *)
Fixpoint printk_string_out (c : list Z) : PM unit :=
  match c with [] => skip | x :: c => write_console [x];; printk_string_out c end.

Definition syscall_uprintk_string_out (c : list Z) : PM unit := printk_string_out c.

Definition CONFIG_PRINTBUFFER_SIZE : Z := 32.

(** The call stub [uprintk_string_out] is generated when the kernel is built. *)
Definition printk_buf_flush (uprintk_string_out : list Z -> PM unit) : PM unit := b ← gets buf; uprintk_string_out b;; set_buf [].

Definition printk_buf_char_out (uprintk_string_out : list Z -> PM unit) (c : Z) : PM unit :=
  n ← gets count;
  set_count (n + 1);;
  b ← gets buf;
  set_buf (b ++ [u8 c]);;
  b ← gets buf;
  when (Z.of_nat (length b) =? CONFIG_PRINTBUFFER_SIZE) (printk_buf_flush uprintk_string_out).

Section Core.
Context (out : Z -> PM unit).

Definition printk_error : PM unit := out 69;; out 82;; out 82.

(** [while (remaining-- > 0) out(' ')] *)
Fixpoint spaces (n : nat) : PM unit := match n with O => skip | S n => out 32;; spaces n end.

(** Returns the digits written. *)
Fixpoint hex_loop (fuel : nat) (num : Z) (padding : pad_type) (min_width shift : Z) (found : bool) (remaining digits : Z) : PM Z :=
  match fuel with
  | O => fail OutOfFuel
  | S fuel =>
    if shift >=? 4 then
      let shift := shift - 4 in
      let nibble := Z.land (Z.shiftr num shift) 15 in
      if negb (nibble =? 0) || found || (shift =? 0) then
        out (nibble + (if nibble >? 9 then 87 else 48));;
        hex_loop fuel num padding min_width shift true remaining (digits + 1)
      else
        when (remaining <=? min_width)
          (match padding with pad_zero_before_pad => out 48 | pad_space_before_pad => out 32 | _ => skip end);;
        hex_loop fuel num padding min_width shift found (remaining - 1) digits
    else mret digits
  end.

Definition printk_hex_ulong (num : Z) (padding : pad_type) (min_width : Z) : PM unit :=
  digits ← hex_loop 17 num padding min_width 64 false 16 0;
  match padding with
  | pad_space_after_pad => spaces (Z.to_nat (min_width * 2 - digits))
  | _ => skip
  end.

(** Returns the last digit and the number of characters written, the last one included. *)
Fixpoint dec_loop (fuel : nat) (padding : pad_type) (min_width pos remainder : Z) (found : bool) (remaining digits : Z) : PM (Z * Z) :=
  match fuel with
  | O => fail OutOfFuel
  | S fuel =>
    if pos >=? 10 then
      if found || (remainder >=? pos) then
        out (remainder / pos + 48);;
        dec_loop fuel padding min_width (pos / 10) (remainder mod pos) true (remaining - 1) (digits + 1)
      else if (remaining <=? min_width) && match padding with pad_space_after_pad => false | _ => true end then
        out (match padding with pad_zero_before_pad => 48 | _ => 32 end);;
        dec_loop fuel padding min_width (pos / 10) (remainder mod pos) found (remaining - 1) (digits + 1)
      else dec_loop fuel padding min_width (pos / 10) (remainder mod pos) found (remaining - 1) digits
    else mret (remainder, digits)
  end.

Definition printk_dec_ulong (num : Z) (padding : pad_type) (min_width : Z) : PM unit :=
  let min_width := if min_width <=? 0 then 1 else min_width in
  p ← dec_loop 10 padding min_width 1000000000 num false 10 1;
  out (p.1 + 48);;
  match padding with
  | pad_space_after_pad => spaces (Z.to_nat (min_width - p.2))
  | _ => skip
  end.

(** [va_arg] for a type of 32 bits, and of 64. *)
Definition va_word (ap : list arg) : PM (Z * list arg) := match ap with Word z :: ap => mret (u32 z, ap) | _ => fail Fault end.
Definition va_dword (ap : list arg) : PM (Z * list arg) := match ap with Dword z :: ap => mret (u64 z, ap) | _ => fail Fault end.

Record fstate := mk_fstate { padding : pad_type; min_width : Z; length_mod : Z }.

(** The text of a string; [start - s] characters follow. *)
Fixpoint string_loop (fuel : nat) (s n : Z) : PM Z :=
  match fuel with
  | O => fail OutOfFuel
  | S fuel => c ← bytes (ldb s); if c =? 0 then mret n else out c;; string_loop fuel (s + 1) (n + 1)
  end.

Definition signed_arg (length_mod : Z) (ap : list arg) : PM (option Z * list arg) :=
  if length_mod =? 76 then
    p ← va_dword ap;
    let lld := if p.1 <? 2 ^ 63 then p.1 else p.1 - 2 ^ 64 in
    mret (if (lld >? 2147483647) || (lld <? - 2147483648) then None else Some lld, p.2)
  else p ← va_word ap; mret (Some (s32 p.1), p.2).

Definition unsigned_arg (length_mod : Z) (ap : list arg) : PM (option Z * list arg) :=
  if length_mod =? 76 then p ← va_dword ap; mret (if p.1 >? 4294967295 then None else Some p.1, p.2)
  else p ← va_word ap; mret (Some p.1, p.2).

(** A character of a directive: the directive goes on with a new state, or ends. *)
Definition directive (c : Z) (f : fstate) (ap : list arg) : PM (option fstate * list arg) :=
  let '(mk_fstate pad w len) := f in
  let digit :=
    let w := s32 (if w <? 0 then c - 48 else 10 * w + c - 48) in
    mret (Some (mk_fstate (match pad with pad_none_pad => pad_space_before_pad | _ => pad end) w len), ap) in
  if c =? 45 then mret (Some (mk_fstate pad_space_after_pad w len), ap)
  else if c =? 48 then
    match pad with
    | pad_none_pad => if w <? 0 then mret (Some (mk_fstate pad_zero_before_pad w len), ap) else digit
    | _ => digit
    end
  else if (49 <=? c) && (c <=? 57) then digit
  else if (c =? 104) || (c =? 108) || (c =? 122) then
    if (c =? 104) && (len =? 104) then mret (Some (mk_fstate pad w 72), ap)
    else if (c =? 108) && (len =? 108) then mret (Some (mk_fstate pad w 76), ap)
    else if len =? 0 then mret (Some (mk_fstate pad w c), ap)
    else out 37;; out c;; mret (None, ap)
  else if (c =? 100) || (c =? 105) then
    p ← signed_arg len ap;
    match p.1 with
    | None => printk_error;; mret (None, p.2)
    | Some d =>
      (if d <? 0 then out 45;; printk_dec_ulong (u32 (- d)) pad (w - 1) else printk_dec_ulong d pad w);;
      mret (None, p.2)
    end
  else if c =? 117 then
    p ← unsigned_arg len ap;
    match p.1 with
    | None => printk_error;; mret (None, p.2)
    | Some u => printk_dec_ulong u pad w;; mret (None, p.2)
    end
  else if c =? 112 then
    out 48;; out 120;;
    p ← va_word ap;
    printk_hex_ulong p.1 pad_zero_before_pad 8;;
    mret (None, p.2)
  else if (c =? 120) || (c =? 88) then
    p ← (if len =? 76 then va_dword ap else va_word ap);
    printk_hex_ulong p.1 pad w;;
    mret (None, p.2)
  else if c =? 115 then
    p ← va_word ap;
    fuel ← bytes scan_fuel;
    n ← string_loop fuel p.1 0;
    match pad with pad_space_after_pad => spaces (Z.to_nat (w - n)) | _ => skip end;;
    mret (None, p.2)
  else if c =? 99 then p ← va_word ap; out (s32 p.1);; mret (None, p.2)
  else if c =? 37 then out 37;; mret (None, ap)
  else out 37;; out c;; mret (None, ap).

Fixpoint core_loop (fuel : nat) (fmt : Z) (f : option fstate) (ap : list arg) : PM unit :=
  match fuel with
  | O => fail OutOfFuel
  | S fuel =>
    c ← bytes (ldb fmt);
    if c =? 0 then skip
    else match f with
         | None => if negb (c =? 37) then out c;; core_loop fuel (fmt + 1) None ap else core_loop fuel (fmt + 1) (Some (mk_fstate pad_none_pad (-1) 0)) ap
         | Some f => p ← directive c f ap; core_loop fuel (fmt + 1) p.1 p.2
         end
  end.

Definition vprintk_core (fmt : Z) (ap : list arg) : PM unit := fuel ← bytes scan_fuel; core_loop fuel fmt None ap.

End Core.

(** [user] is [is_user_context]. *)
Definition vprintk (uprintk_string_out : list Z -> PM unit) (user : bool) (fmt : Z) (ap : list arg) : PM unit :=
  if user then
    set_count 0;; set_buf [];;
    vprintk_core (printk_buf_char_out uprintk_string_out) fmt ap;;
    b ← gets buf;
    when (negb (Z.of_nat (length b) =? 0)) (printk_buf_flush uprintk_string_out)
  else set_count 0;; vprintk_core printk_char_out fmt ap.

Definition printk (uprintk_string_out : list Z -> PM unit) (user : bool) (fmt : Z) (ap : list arg) : PM unit :=
  vprintk uprintk_string_out user fmt ap.

Definition vsnprintk (str size fmt : Z) (ap : list arg) : PM Z :=
  let max := s32 size in
  set_count 0;;
  vprintk_core (printk_string str max) fmt ap;;
  n ← gets count;
  when (n <? max) (bytes (stb (str + n) 0));;
  gets count.

Definition snprintk (str size fmt : Z) (ap : list arg) : PM Z := vsnprintk str size fmt ap.

(** ** What the code emits *)

(** The numeral of [n], least digit last; [k] bounds the digits. *)
Fixpoint numeral (b : Z) (k : nat) (n : Z) : list Z :=
  match k with
  | O => []
  | S k => (if n <? b then [] else numeral b k (n / b)) ++ [n mod b]
  end.

(** A digit as a character. *)
Definition digit (d : Z) : Z := d + (if d >? 9 then 87 else 48).

Definition dec_text (pad : pad_type) (w n : Z) : list Z :=
  let ds := digit <$> numeral 10 10 n in
  let w := Z.max w 1 in
  let l := Z.of_nat (length ds) in
  match pad with
  | pad_space_after_pad => ds ++ replicate (Z.to_nat (w - l)) 32
  | pad_zero_before_pad => replicate (Z.to_nat (Z.min w 10 - l)) 48 ++ ds
  | _ => replicate (Z.to_nat (Z.min w 10 - l)) 32 ++ ds
  end.

Definition hex_text (pad : pad_type) (w n : Z) : list Z :=
  let ds := digit <$> numeral 16 16 n in
  let l := Z.of_nat (length ds) in
  match pad with
  | pad_none_pad => ds
  | pad_space_after_pad => ds ++ replicate (Z.to_nat (w * 2 - l)) 32
  | pad_zero_before_pad => replicate (Z.to_nat (Z.min w 16 - l)) 48 ++ ds
  | pad_space_before_pad => replicate (Z.to_nat (Z.min w 16 - l)) 32 ++ ds
  end.

(** What a directive's character asks for. *)
Inductive ask := Go (f : fstate) | Signed | Unsigned | Pointer | Hexadecimal | Text | Character | Percent | Unknown.

(** A width's next digit; [wrap] is what becomes of a width that an [int] does not hold. *)
Definition widened (wrap : Z -> Z) (c : Z) (f : fstate) : fstate :=
  mk_fstate (match padding f with pad_none_pad => pad_space_before_pad | p => p end) (wrap (if min_width f <? 0 then c - 48 else 10 * min_width f + c - 48)) (length_mod f).

Definition classify (wrap : Z -> Z) (c : Z) (f : fstate) : ask :=
  if c =? 45 then Go (mk_fstate pad_space_after_pad (min_width f) (length_mod f))
  else if c =? 48 then
    match padding f with
    | pad_none_pad => if min_width f <? 0 then Go (mk_fstate pad_zero_before_pad (min_width f) (length_mod f)) else Go (widened wrap c f)
    | _ => Go (widened wrap c f)
    end
  else if (49 <=? c) && (c <=? 57) then Go (widened wrap c f)
  else if (c =? 104) || (c =? 108) || (c =? 122) then
    if (c =? 104) && (length_mod f =? 104) then Go (mk_fstate (padding f) (min_width f) 72)
    else if (c =? 108) && (length_mod f =? 108) then Go (mk_fstate (padding f) (min_width f) 76)
    else if length_mod f =? 0 then Go (mk_fstate (padding f) (min_width f) c)
    else Unknown
  else if (c =? 100) || (c =? 105) then Signed
  else if c =? 117 then Unsigned
  else if c =? 112 then Pointer
  else if (c =? 120) || (c =? 88) then Hexadecimal
  else if c =? 115 then Text
  else if c =? 99 then Character
  else if c =? 37 then Percent
  else Unknown.

Definition spec_word (ap : list arg) : option (Z * list arg) := match ap with Word z :: ap => Some (u32 z, ap) | _ => None end.
Definition spec_dword (ap : list arg) : option (Z * list arg) := match ap with Dword z :: ap => Some (u64 z, ap) | _ => None end.

(** The value of an integer argument, and whether it fits in a [long]. *)
Definition spec_signed (f : fstate) (ap : list arg) : option (option Z * list arg) :=
  if length_mod f =? 76 then
    p ← spec_dword ap;
    let v := if p.1 <? 2 ^ 63 then p.1 else p.1 - 2 ^ 64 in
    Some (if (- 2 ^ 31 <=? v) && (v <? 2 ^ 31) then Some v else None, p.2)
  else p ← spec_word ap; Some (Some (s32 p.1), p.2).
Definition spec_unsigned (f : fstate) (ap : list arg) : option (option Z * list arg) :=
  if length_mod f =? 76 then p ← spec_dword ap; Some (if p.1 <? 2 ^ 32 then Some p.1 else None, p.2)
  else p ← spec_word ap; Some (Some p.1, p.2).

Definition signed_text (pad : pad_type) (w d : Z) : list Z := if d <? 0 then 45 :: dec_text pad (w - 1) (- d) else dec_text pad w d.

(** What a directive's character emits, and the state it leaves; [text] gives the strings that
    pointers stand for. *)
Definition directive_text (text : Z -> option (list Z)) (c : Z) (f : fstate) (ap : list arg) : option (option fstate * list Z * list arg) :=
  match classify s32 c f with
  | Go f => Some (Some f, [], ap)
  | Signed => p ← spec_signed f ap; Some (None, match p.1 with Some d => signed_text (padding f) (min_width f) d | None => [69; 82; 82] end, p.2)
  | Unsigned => p ← spec_unsigned f ap; Some (None, match p.1 with Some u => dec_text (padding f) (min_width f) u | None => [69; 82; 82] end, p.2)
  | Pointer => p ← spec_word ap; Some (None, [48; 120] ++ hex_text pad_zero_before_pad 8 p.1, p.2)
  | Hexadecimal => p ← (if length_mod f =? 76 then spec_dword ap else spec_word ap); Some (None, hex_text (padding f) (min_width f) p.1, p.2)
  | Text =>
    p ← spec_word ap; t ← text p.1;
    Some (None, t ++ match padding f with pad_space_after_pad => replicate (Z.to_nat (min_width f - Z.of_nat (length t))) 32 | _ => [] end, p.2)
  | Character => p ← spec_word ap; Some (None, [s32 p.1], p.2)
  | Percent => Some (None, [37], ap)
  | Unknown => Some (None, [37; c], ap)
  end.

(** What the code emits for a format. *)
Fixpoint emitted (text : Z -> option (list Z)) (cs : list Z) (f : option fstate) (ap : list arg) : option (list Z) :=
  match cs with
  | [] => Some []
  | c :: cs =>
    match f with
    | None => if c =? 37 then emitted text cs (Some (mk_fstate pad_none_pad (-1) 0)) ap else r ← emitted text cs None ap; Some (c :: r)
    | Some f => p ← directive_text text c f ap; r ← emitted text cs p.1.1 p.2; Some (p.1.2 ++ r)
    end
  end.

(** ** What a format stands for *)

(** A field of [w] columns, as [printk.h] promises: filled with spaces on the left or on the
    right, or with zeros behind the sign. *)
Definition field (pad : pad_type) (w : Z) (sign body : list Z) : list Z :=
  let n := Z.to_nat (w - Z.of_nat (length sign + length body)) in
  match pad with
  | pad_none_pad => sign ++ body
  | pad_space_after_pad => sign ++ body ++ replicate n 32
  | pad_zero_before_pad => sign ++ replicate n 48 ++ body
  | pad_space_before_pad => replicate n 32 ++ sign ++ body
  end.

(** Only numbers are filled with zeros. *)
Definition text_pad (pad : pad_type) : pad_type := match pad with pad_zero_before_pad => pad_space_before_pad | p => p end.

(** What a directive prints. *)
Inductive item := Decimal (d : Z) | Natural (u : Z) | TooLarge | Address (x : Z) | Hex (x : Z) | Chars (t : list Z) | Char (c : Z) | Literal (l : list Z).

Definition decimals (n : Z) : list Z := digit <$> numeral 10 10 n.
Definition hexadecimals (n : Z) : list Z := digit <$> numeral 16 16 n.

Definition doc_text (f : fstate) (i : item) : list Z :=
  match i with
  | Decimal d => field (padding f) (min_width f) (if d <? 0 then [45] else []) (decimals (Z.abs d))
  | Natural u => field (padding f) (min_width f) [] (decimals u)
  | TooLarge => [69; 82; 82]
  | Address x => field (text_pad (padding f)) (min_width f) [] ([48; 120] ++ field pad_zero_before_pad 8 [] (hexadecimals x))
  | Hex x => field (padding f) (min_width f) [] (hexadecimals x)
  | Chars t => field (text_pad (padding f)) (min_width f) [] t
  | Char c => field (text_pad (padding f)) (min_width f) [] [c]
  | Literal l => l
  end.

(** A character of a directive: the directive goes on, or ends with an item. *)
Definition resolve (text : Z -> option (list Z)) (c : Z) (f : fstate) (ap : list arg) : option ((fstate + item) * list arg) :=
  match classify (fun w => w) c f with
  | Go f => Some (inl f, ap)
  | Signed => p ← spec_signed f ap; Some (inr (match p.1 with Some d => Decimal d | None => TooLarge end), p.2)
  | Unsigned => p ← spec_unsigned f ap; Some (inr (match p.1 with Some u => Natural u | None => TooLarge end), p.2)
  | Pointer => p ← spec_word ap; Some (inr (Address p.1), p.2)
  | Hexadecimal => p ← (if length_mod f =? 76 then spec_dword ap else spec_word ap); Some (inr (Hex p.1), p.2)
  | Text => p ← spec_word ap; t ← text p.1; Some (inr (Chars t), p.2)
  | Character => p ← spec_word ap; Some (inr (Char (s32 p.1)), p.2)
  | Percent => Some (inr (Literal [37]), ap)
  | Unknown => Some (inr (Literal [37; c]), ap)
  end.

(** The text of a format. *)
Fixpoint render (text : Z -> option (list Z)) (cs : list Z) (f : option fstate) (ap : list arg) : option (list Z) :=
  match cs with
  | [] => Some []
  | c :: cs =>
    match f with
    | None => if c =? 37 then render text cs (Some (mk_fstate pad_none_pad (-1) 0)) ap else r ← render text cs None ap; Some (c :: r)
    | Some f =>
      p ← resolve text c f ap;
      match p.1 with inl f' => render text cs (Some f') p.2 | inr i => r ← render text cs None p.2; Some (doc_text f i ++ r) end
    end
  end.














(** [k] digits, most significant first. *)
Fixpoint fixed (b : Z) (k : nat) (n : Z) : list Z :=
  match k with O => [] | S k => n / b ^ Z.of_nat k :: fixed b k (n mod b ^ Z.of_nat k) end.

Section Numerals.
Context (b : Z) (Hb : 2 <= b).

Lemma pow_pos k : 0 < b ^ Z.of_nat k.
Proof. apply Z.pow_pos_nonneg; lia. Qed.
Lemma pow_S k : b ^ Z.of_nat (S k) = b * b ^ Z.of_nat k.
Proof. rewrite Nat2Z.inj_succ, Z.pow_succ_r by lia. done. Qed.

(** The last digit of a fixed text. *)
Lemma fixed_last k : forall n, 0 <= n < b ^ Z.of_nat (S k) -> fixed b (S k) n = fixed b k (n / b) ++ [n mod b].
Proof.
  induction k as [|k IH]; intros n Hn.
  - cbn. rewrite Z.div_1_r. change (b ^ Z.of_nat 1) with (b ^ 1) in Hn. rewrite Z.pow_1_r in Hn. by rewrite Z.mod_small by lia.
  - pose proof (pow_pos k) as Pk. pose proof (pow_pos (S k)) as Pk'. change (fixed b (S (S k)) n) with (n / b ^ Z.of_nat (S k) :: fixed b (S k) (n mod b ^ Z.of_nat (S k))). rewrite IH by (apply Z.mod_pos_bound; lia).
    change (fixed b (S k) (n / b)) with (n / b / b ^ Z.of_nat k :: fixed b k ((n / b) mod b ^ Z.of_nat k)). rewrite Z.div_div by lia. rewrite <-pow_S. cbn [app]. f_equal. f_equal; f_equal.
    + rewrite pow_S, Z.rem_mul_r by lia. symmetry. apply (Z.div_unique _ _ _ (n mod b)); [left; apply Z.mod_pos_bound; lia|lia].
    + rewrite pow_S, Z.rem_mul_r by lia. symmetry. apply (Z.mod_unique _ _ ((n / b) mod b ^ Z.of_nat k)); [left; apply Z.mod_pos_bound; lia|lia].
Qed.

(** A number with [k + 1] digits has them as its numeral. *)
Lemma numeral_fixed k : forall j n, (k < j)%nat -> 0 <= n < b ^ Z.of_nat (S k) -> (k = 0%nat \/ b ^ Z.of_nat k <= n) -> numeral b j n = fixed b (S k) n.
Proof.
  induction k as [|k IH]; intros [|j] n Hj Hn Hk; [lia| |lia|]; cbn [numeral].
  - change (b ^ Z.of_nat 1) with (b ^ 1) in Hn. rewrite Z.pow_1_r in Hn. rewrite (proj2 (Z.ltb_lt n b)) by lia. cbn. rewrite Z.div_1_r. by rewrite Z.mod_small by lia.
  - destruct Hk as [|Hk]; [lia|]. rewrite pow_S in Hk. pose proof (pow_pos k). rewrite (proj2 (Z.ltb_ge n b)) by nia. rewrite (fixed_last (S k)) by done. f_equal. apply IH; [lia| |].
    + split; [apply Z.div_pos; lia|]. apply Z.div_lt_upper_bound; [lia|]. rewrite <-pow_S. lia.
    + right. apply Z.div_le_lower_bound; lia.
Qed.

Lemma fixed_length k n : length (fixed b k n) = k.
Proof. revert n. induction k as [|k IH]; intros n; [done|]. cbn. by rewrite IH. Qed.

(** The digits are digits, and their value is the number. *)
Lemma fixed_value k : forall n a, 0 <= n < b ^ Z.of_nat k -> Forall (fun d => 0 <= d < b) (fixed b k n) /\ foldl (fun a d => b * a + d) a (fixed b k n) = a * b ^ Z.of_nat k + n.
Proof.
  induction k as [|k IH]; intros n a Hn; cbn [fixed foldl].
  - split; [constructor|]. change (b ^ Z.of_nat 0) with 1 in *. lia.
  - pose proof (pow_pos k). rewrite pow_S in Hn. destruct (IH (n mod b ^ Z.of_nat k) (b * a + n / b ^ Z.of_nat k)) as [F V]; [apply Z.mod_pos_bound; lia|]. split.
    + constructor; [|done]. split; [apply Z.div_pos; lia|]. apply Z.div_lt_upper_bound; lia.
    + rewrite V, pow_S. pose proof (Z.div_mod n (b ^ Z.of_nat k) ltac:(lia)). lia.
Qed.

End Numerals.

(** The number of digits, less one. *)
Lemma digits_exist b k n : 2 <= b -> 0 <= n < b ^ Z.of_nat (S k) -> exists j, (j <= k)%nat /\ n < b ^ Z.of_nat (S j) /\ (j = 0%nat \/ b ^ Z.of_nat j <= n).
Proof.
  intros Hb. induction k as [|k IH]; intros Hn; [by exists 0%nat; split_and!; [lia|lia|left]|].
  destruct (Z.le_gt_cases (b ^ Z.of_nat (S k)) n) as [Hk|Hk]; [exists (S k); split_and!; [lia|lia|by right]|]. destruct IH as (j & ? & ? & ?); [lia|]. exists j. split_and!; [lia|done|done].
Qed.

(** ** What is emitted *)

Section Emit.
Context (out : Z -> PM unit) (I : list Z -> pstate -> Prop).
(** At most [lim] characters are emitted. *)
Context (lim : Z).
Definition short (cs : list Z) : Prop := Z.of_nat (length cs) <= lim.
Context (Hout : forall cs c s, I cs s -> short (cs ++ [c]) -> wp (out c) (fun _ s' => I (cs ++ [c]) s') s).
Context (text : Z -> option (list Z)) (Htext : forall cs s p t, I cs s -> text p = Some t -> str (pm s) p t).

Ltac fits := match goal with H : short _ |- short _ => revert H; unfold short; rewrite ?length_app, ?length_fmap, ?fixed_length, ?length_replicate; cbn [length]; lia end.

Lemma wp_out cs c s (Q : unit -> pstate -> Prop) : I cs s -> short (cs ++ [c]) -> (forall s', I (cs ++ [c]) s' -> Q tt s') -> wp (out c) Q s.
Proof. intros HI Hl HQ. eapply wp_mono; [by apply Hout|]. intros [] s'. apply HQ. Qed.

Lemma wp_spaces n : forall cs s (Q : unit -> pstate -> Prop), I cs s -> short (cs ++ replicate n 32) -> (forall s', I (cs ++ replicate n 32) s' -> Q tt s') -> wp (spaces out n) Q s.
Proof.
  induction n as [|n IH]; intros cs s Q HI Hl HQ; cbn [spaces]; [apply wp_skip, HQ; by rewrite app_nil_r|].
  apply wp_bind, (wp_out cs); [done|fits|]. intros s' HI'. apply (IH _ _ _ HI'); [fits|]. intros s2. rewrite <-app_assoc. apply HQ.
Qed.

Lemma wp_error cs s (Q : unit -> pstate -> Prop) : I cs s -> short (cs ++ [69; 82; 82]) -> (forall s', I (cs ++ [69; 82; 82]) s' -> Q tt s') -> wp (printk_error out) Q s.
Proof.
  intros HI Hl HQ. unfold printk_error. apply wp_bind, (wp_out cs); [done|fits|]. intros s1 H1. apply wp_bind, (wp_out _ _ _ _ H1); [fits|]. intros s2 H2. apply (wp_out _ _ _ _ H2); [fits|]. intros s3.
  rewrite <-!app_assoc. apply HQ.
Qed.

(** *** Decimal numbers *)

Lemma dec_found k : forall fuel pad w r rem dg cs s (Q : Z * Z -> pstate -> Prop),
  (k < fuel)%nat -> 0 <= r < 10 ^ Z.of_nat (S k) -> I cs s -> short (cs ++ ((fun d => d + 48) <$> fixed 10 k (r / 10))) ->
  (forall s', I (cs ++ ((fun d => d + 48) <$> fixed 10 k (r / 10))) s' -> Q (r mod 10, dg + Z.of_nat k) s') ->
  wp (dec_loop out fuel pad w (10 ^ Z.of_nat k) r true rem dg) Q s.
Proof.
  induction k as [|k IH]; intros [|fuel] pad w r rem dg cs s Q Hf Hr HI Hl HQ; [lia| |lia|]; cbn [dec_loop].
  - change (10 ^ Z.of_nat 1) with 10 in Hr. change (10 ^ Z.of_nat 0 >=? 10) with false. apply wp_ret. specialize (HQ s). rewrite app_nil_r, Z.add_0_r, Z.mod_small in HQ by lia. by apply HQ.
  - pose proof (pow_pos 10 ltac:(lia) k) as Pk. pose proof (pow_S 10 k) as Ek. rewrite Ek in *. rewrite (proj2 (Z.geb_le _ _)) by lia. cbn [orb]. apply wp_bind, (wp_out cs); [done|fits|]. intros s1 H1.
    replace (10 * 10 ^ Z.of_nat k / 10) with (10 ^ Z.of_nat k) by (rewrite Z.mul_comm, Z.div_mul by lia; done). eapply (IH fuel); [lia|apply Z.mod_pos_bound; lia|exact H1|fits|]. intros s2 H2.
    assert (E1 : (r mod (10 * 10 ^ Z.of_nat k)) mod 10 = r mod 10). { rewrite Z.rem_mul_r by lia. rewrite Z.mul_comm, Z.mod_add, Z.mod_mod by lia. done. }
    assert (E2 : (r mod (10 * 10 ^ Z.of_nat k)) / 10 = (r / 10) mod 10 ^ Z.of_nat k). { rewrite Z.rem_mul_r by lia. symmetry. apply (Z.div_unique _ _ _ (r mod 10)); [left; apply Z.mod_pos_bound; lia|lia]. }
    rewrite E1. rewrite E2, <-app_assoc in H2. replace (dg + 1 + Z.of_nat k) with (dg + Z.of_nat (S k)) by lia. apply HQ. cbn [fixed fmap list_fmap]. rewrite Z.div_div by lia. done.
Qed.

(** The padding before a number that leaves [m] columns. *)
Definition before (pad : pad_type) (m : Z) : list Z :=
  match pad with pad_space_after_pad => [] | pad_zero_before_pad => replicate (Z.to_nat m) 48 | _ => replicate (Z.to_nat m) 32 end.

Lemma before_S pad m : 0 <= m -> pad <> pad_space_after_pad -> before pad (1 + m) = match pad with pad_zero_before_pad => 48 | _ => 32 end :: before pad m.
Proof. intros Hm Hp. unfold before. replace (Z.to_nat (1 + m)) with (S (Z.to_nat m)) by lia. by destruct pad. Qed.
Lemma before_none pad m : m <= 0 -> before pad m = [].
Proof. intros Hm. unfold before. replace (Z.to_nat m) with 0%nat by lia. by destruct pad. Qed.

Lemma dec_unfound j k : forall fuel pad w r dg cs s (Q : Z * Z -> pstate -> Prop),
  (k < fuel)%nat -> (j <= k)%nat -> 0 <= r < 10 ^ Z.of_nat (S j) -> (j = 0%nat \/ 10 ^ Z.of_nat j <= r) -> 1 <= w -> I cs s -> short (cs ++ before pad (Z.min w (Z.of_nat (S k)) - Z.of_nat (S j)) ++ ((fun d => d + 48) <$> fixed 10 j (r / 10))) ->
  (let b := before pad (Z.min w (Z.of_nat (S k)) - Z.of_nat (S j)) in
   forall s', I (cs ++ b ++ ((fun d => d + 48) <$> fixed 10 j (r / 10))) s' -> Q (r mod 10, dg + Z.of_nat (length b) + Z.of_nat j) s') ->
  wp (dec_loop out fuel pad w (10 ^ Z.of_nat k) r false (Z.of_nat (S k)) dg) Q s.
Proof.
  induction k as [|k IH]; intros [|fuel] pad w r dg cs s Q Hf Hj Hr Hl Hw HI Hs HQ; [lia| |lia|]; cbv zeta in HQ; cbn [dec_loop].
  - assert (j = 0%nat) as -> by lia. change (10 ^ Z.of_nat 1) with 10 in Hr. change (10 ^ Z.of_nat 0 >=? 10) with false. rewrite before_none in HQ by lia. apply wp_ret. specialize (HQ s).
    cbn in HQ. rewrite app_nil_r, !Z.add_0_r, Z.mod_small in HQ by lia. by apply HQ.
  - pose proof (pow_pos 10 ltac:(lia) k) as Pk. pose proof (pow_S 10 k) as Ek. destruct (decide (j = S k)) as [->|Hne].
    + destruct Hl as [|Hl]; [lia|]. rewrite before_none in HQ, Hs by lia. cbn [app length] in HQ, Hs. rewrite Z.add_0_r in HQ.
      assert (W := dec_found (S k) (S fuel) pad w r (Z.of_nat (S (S k))) dg cs s Q Hf Hr HI Hs HQ). cbn [dec_loop] in W. cbn [orb] in *. rewrite (proj2 (Z.geb_le r _) Hl). exact W.
    + assert (Hp : 10 ^ Z.of_nat (S j) <= 10 ^ Z.of_nat (S k)) by (apply Z.pow_le_mono_r; lia). rewrite (proj2 (Z.geb_le (10 ^ Z.of_nat (S k)) 10)) by lia. cbn [orb].
      assert (Hg : (r >=? 10 ^ Z.of_nat (S k)) = false) by (rewrite Z.geb_leb; apply Z.leb_gt; lia). rewrite Hg.
      rewrite (Z.mod_small r) by lia. replace (10 ^ Z.of_nat (S k) / 10) with (10 ^ Z.of_nat k) by (rewrite Ek, Z.mul_comm, Z.div_mul by lia; done).
      replace (Z.of_nat (S (S k)) - 1) with (Z.of_nat (S k)) by lia. destruct (Z.leb_spec (Z.of_nat (S (S k))) w) as [Hle|Hle]; cbn [andb].
      * replace (Z.min w (Z.of_nat (S (S k))) - Z.of_nat (S j)) with (1 + (Z.min w (Z.of_nat (S k)) - Z.of_nat (S j))) in HQ, Hs by lia.
        destruct (decide (pad = pad_space_after_pad)) as [->|Hpad].
        { eapply (IH fuel); [lia|lia|done|done|lia|exact HI|exact Hs|]. intros b s' Hs'. by apply HQ. }
        rewrite before_S in HQ, Hs by (done || lia). replace (match pad with pad_space_after_pad => false | _ => true end) with true by by destruct pad. apply wp_bind, (wp_out cs); [done|fits|]. intros s1 H1.
        eapply (IH fuel); [lia|lia|done|done|lia|exact H1|fits|]. intros b s2 H2. rewrite <-app_assoc in H2. cbn [length] in HQ. replace (dg + 1 + Z.of_nat (length b) + Z.of_nat j) with (dg + Z.of_nat (S (length b)) + Z.of_nat j) by lia. apply HQ. exact H2.
      * replace (Z.min w (Z.of_nat (S (S k)))) with (Z.min w (Z.of_nat (S k))) in HQ, Hs by lia. eapply (IH fuel); [lia|lia|done|done|lia|exact HI|exact Hs|exact HQ].
Qed.

Lemma digit_small d : 0 <= d < 10 -> digit d = d + 48.
Proof. intros Hd. unfold digit. destruct (Z.gtb_spec d 9); lia. Qed.

Lemma digits_small k n : 0 <= n < 10 ^ Z.of_nat k -> digit <$> fixed 10 k n = (fun d => d + 48) <$> fixed 10 k n.
Proof.
  intros Hn. destruct (fixed_value 10 ltac:(lia) k n 0 Hn) as [F _]. apply list_fmap_ext. intros i d E. apply digit_small. rewrite Forall_forall in F. apply F. by eapply list_elem_of_lookup_2.
Qed.

Lemma wp_dec n pad w cs s (Q : unit -> pstate -> Prop) :
  0 <= n < 2 ^ 32 -> I cs s -> short (cs ++ dec_text pad w n) -> (forall s', I (cs ++ dec_text pad w n) s' -> Q tt s') -> wp (printk_dec_ulong out n pad w) Q s.
Proof.
  intros Hn HI Hs HQ. unfold printk_dec_ulong. assert (Ew : (if w <=? 0 then 1 else w) = Z.max w 1) by (destruct (Z.leb_spec w 0); lia). rewrite Ew. set (w' := Z.max w 1) in *.
  destruct (digits_exist 10 9 n) as (j & Hj & Hn1 & Hn2); [lia|change (10 ^ Z.of_nat 10) with 10000000000; lia|].
  assert (Ed : digit <$> numeral 10 10 n = ((fun d => d + 48) <$> fixed 10 j (n / 10)) ++ [n mod 10 + 48]).
  { rewrite (numeral_fixed 10 ltac:(lia) j) by (done || lia). rewrite digits_small by lia. rewrite fixed_last by lia. by rewrite fmap_app. }
  assert (El : Z.of_nat (length (digit <$> numeral 10 10 n)) = Z.of_nat (S j)) by (rewrite Ed, length_app, length_fmap, fixed_length; cbn; lia).
  unfold dec_text in HQ, Hs. fold w' in HQ, Hs. rewrite El in HQ, Hs.
  assert (Hs' : short (cs ++ before pad (Z.min w' (Z.of_nat 10) - Z.of_nat (S j)) ++ ((fun d => d + 48) <$> fixed 10 j (n / 10)) ++ [n mod 10 + 48])) by (rewrite Ed in Hs; unfold before; destruct pad; fits).
  apply wp_bind. change 1000000000 with (10 ^ Z.of_nat 9). eapply (dec_unfound j 9 10 pad w' n 1 cs); [lia|lia|lia|done|lia|done|clear Hs; fits|]. intros b s1 H1. cbn [fst snd]. apply wp_bind, (wp_out _ _ _ _ H1); [clear Hs; unfold b; fits|]. intros s2 H2.
  rewrite <-!app_assoc, <-Ed in H2. unfold b, before in H2. change (Z.of_nat 10) with 10 in H2.
  destruct pad; try by apply wp_skip, HQ. replace (w' - _) with (w' - Z.of_nat (S j)) by (unfold b, before; cbn [length]; lia).
  apply (wp_spaces _ _ _ _ H2); [clear Hs'; fits|]. intros s3 H3. apply HQ. by rewrite <-app_assoc in H3.
Qed.

(** *** Hexadecimal numbers *)

Lemma nibble_at num k : 0 <= num -> Z.land (Z.shiftr num (4 * Z.of_nat k)) 15 = (num / 16 ^ Z.of_nat k) mod 16.
Proof.
  intros Hn. rewrite Z.shiftr_div_pow2 by lia. replace (2 ^ (4 * Z.of_nat k)) with (16 ^ Z.of_nat k) by (rewrite Z.pow_mul_r by lia; done). change 15 with (Z.ones 4). by rewrite Z.land_ones by lia.
Qed.

Lemma hex_found k : forall fuel num pad w rem dg cs s (Q : Z -> pstate -> Prop),
  (k < fuel)%nat -> 0 <= num -> I cs s -> short (cs ++ (digit <$> fixed 16 k (num mod 16 ^ Z.of_nat k))) ->
  (forall s', I (cs ++ (digit <$> fixed 16 k (num mod 16 ^ Z.of_nat k))) s' -> Q (dg + Z.of_nat k) s') ->
  wp (hex_loop out fuel num pad w (4 * Z.of_nat k) true rem dg) Q s.
Proof.
  induction k as [|k IH]; intros [|fuel] num pad w rem dg cs s Q Hf Hn HI Hs HQ; [lia| |lia|]; cbn [hex_loop].
  - change (4 * Z.of_nat 0 >=? 4) with false. apply wp_ret. specialize (HQ s). rewrite app_nil_r, Z.add_0_r in HQ. by apply HQ.
  - pose proof (pow_pos 16 ltac:(lia) k) as Pk. rewrite (proj2 (Z.geb_le _ _)) by lia. replace (4 * Z.of_nat (S k) - 4) with (4 * Z.of_nat k) by lia. rewrite nibble_at by done. rewrite orb_true_r. cbn [orb].
    apply wp_bind, (wp_out cs); [done|fits|]. intros s1 H1. eapply (IH fuel); [lia|done|exact H1|fits|]. intros s2 H2. replace (dg + 1 + Z.of_nat k) with (dg + Z.of_nat (S k)) by lia. apply HQ.
    rewrite <-app_assoc in H2. cbn [fixed fmap list_fmap]. rewrite pow_S. rewrite (Z.mul_comm 16), Z.rem_mul_r by lia.
    assert (E1 : (num mod 16 ^ Z.of_nat k + 16 ^ Z.of_nat k * ((num / 16 ^ Z.of_nat k) mod 16)) / 16 ^ Z.of_nat k = (num / 16 ^ Z.of_nat k) mod 16).
    { symmetry. apply (Z.div_unique _ _ _ (num mod 16 ^ Z.of_nat k)); [left; apply Z.mod_pos_bound; lia|lia]. }
    assert (E2 : (num mod 16 ^ Z.of_nat k + 16 ^ Z.of_nat k * ((num / 16 ^ Z.of_nat k) mod 16)) mod 16 ^ Z.of_nat k = num mod 16 ^ Z.of_nat k).
    { symmetry. apply (Z.mod_unique _ _ ((num / 16 ^ Z.of_nat k) mod 16)); [left; apply Z.mod_pos_bound; lia|lia]. }
    rewrite E1, E2. exact H2.
Qed.

Definition before_hex (pad : pad_type) (m : Z) : list Z := match pad with pad_none_pad => [] | _ => before pad m end.

Lemma hex_unfound j k : forall fuel num pad w cs s (Q : Z -> pstate -> Prop),
  (k < fuel)%nat -> (j < k)%nat -> 0 <= num < 16 ^ Z.of_nat (S j) -> (j = 0%nat \/ 16 ^ Z.of_nat j <= num) -> I cs s -> short (cs ++ before_hex pad (Z.min w (Z.of_nat k) - Z.of_nat (S j)) ++ (digit <$> fixed 16 (S j) num)) ->
  (forall s', I (cs ++ before_hex pad (Z.min w (Z.of_nat k) - Z.of_nat (S j)) ++ (digit <$> fixed 16 (S j) num)) s' -> Q (Z.of_nat (S j)) s') ->
  wp (hex_loop out fuel num pad w (4 * Z.of_nat k) false (Z.of_nat k) 0) Q s.
Proof.
  induction k as [|k IH]; intros [|fuel] num pad w cs s Q Hf Hj Hn Hl HI Hs HQ; [lia..|]; cbn [hex_loop].
  pose proof (pow_pos 16 ltac:(lia) k) as Pk. rewrite (proj2 (Z.geb_le _ _)) by lia. replace (4 * Z.of_nat (S k) - 4) with (4 * Z.of_nat k) by lia. rewrite nibble_at by lia.
  destruct (decide (j = k)) as [->|Hne].
  - assert (Eb : before_hex pad (Z.min w (Z.of_nat (S k)) - Z.of_nat (S k)) = []) by (unfold before_hex; rewrite before_none by lia; by destruct pad). rewrite Eb in HQ, Hs. rewrite pow_S in Hn.
    assert (Eq : (num / 16 ^ Z.of_nat k) mod 16 = num / 16 ^ Z.of_nat k) by (apply Z.mod_small; split; [apply Z.div_pos; lia|apply Z.div_lt_upper_bound; lia]). rewrite Eq.
    assert (Ec : negb (num / 16 ^ Z.of_nat k =? 0) || false || (4 * Z.of_nat k =? 0) = true).
    { destruct Hl as [->|Hl]; [by rewrite orb_true_r|]. rewrite (proj2 (Z.eqb_neq _ 0)); [done|]. assert (1 <= num / 16 ^ Z.of_nat k) by (apply Z.div_le_lower_bound; lia). lia. }
    rewrite Ec. apply wp_bind, (wp_out cs); [done|fits|]. intros s1 H1. eapply (hex_found k fuel); [lia|lia|exact H1|fits|]. intros s2 H2. replace (0 + 1 + Z.of_nat k) with (Z.of_nat (S k)) by lia. apply HQ. rewrite <-app_assoc in H2. exact H2.
  - assert (Hp : 16 ^ Z.of_nat (S j) <= 16 ^ Z.of_nat k) by (apply Z.pow_le_mono_r; lia). rewrite Z.div_small by lia. rewrite Z.mod_0_l by lia. cbn [Z.eqb negb orb].
    rewrite (proj2 (Z.eqb_neq (4 * Z.of_nat k) 0)) by lia. replace (Z.of_nat (S k) - 1) with (Z.of_nat k) by lia. destruct (Z.leb_spec (Z.of_nat (S k)) w) as [Hle|Hle]; cbn [when].
    + replace (Z.min w (Z.of_nat (S k)) - Z.of_nat (S j)) with (1 + (Z.min w (Z.of_nat k) - Z.of_nat (S j))) in HQ, Hs by lia. apply wp_bind.
      destruct pad; unfold before_hex in HQ, Hs; try (rewrite before_S in HQ, Hs by (done || lia)); [apply wp_skip|apply (wp_out cs); [done|fits|]; intros s1 H1|apply (wp_out cs); [done|fits|]; intros s1 H1|apply wp_skip].
      * eapply (IH fuel); [lia|lia|done|done|exact HI|exact Hs|exact HQ].
      * eapply (IH fuel); [lia|lia|done|done|exact H1|unfold before_hex; fits|]. intros s2. rewrite <-app_assoc. apply HQ.
      * eapply (IH fuel); [lia|lia|done|done|exact H1|unfold before_hex; fits|]. intros s2. rewrite <-app_assoc. apply HQ.
      * eapply (IH fuel); [lia|lia|done|done|exact HI|exact Hs|exact HQ].
    + replace (Z.min w (Z.of_nat (S k))) with (Z.min w (Z.of_nat k)) in HQ, Hs by lia. apply wp_bind, wp_skip. eapply (IH fuel); [lia|lia|done|done|exact HI|exact Hs|exact HQ].
Qed.

Lemma wp_hex n pad w cs s (Q : unit -> pstate -> Prop) :
  0 <= n < 2 ^ 64 -> I cs s -> short (cs ++ hex_text pad w n) -> (forall s', I (cs ++ hex_text pad w n) s' -> Q tt s') -> wp (printk_hex_ulong out n pad w) Q s.
Proof.
  intros Hn HI Hs HQ. unfold printk_hex_ulong. destruct (digits_exist 16 15 n) as (j & Hj & Hn1 & Hn2); [lia|change (16 ^ Z.of_nat 16) with (2 ^ 64); lia|].
  assert (Ed : numeral 16 16 n = fixed 16 (S j) n) by (apply numeral_fixed; (done || lia)). unfold hex_text in HQ, Hs. rewrite Ed, length_fmap, fixed_length in HQ, Hs.
  apply wp_bind. change 64 with (4 * Z.of_nat 16). change 16 with (Z.of_nat 16). eapply (hex_unfound j 16); [lia|lia|lia|done|done|unfold before_hex, before; change (Z.of_nat 16) with 16; destruct pad; fits|]. intros s1 H1. unfold before_hex, before in H1. change (Z.of_nat 16) with 16 in H1.
  destruct pad; try by apply wp_skip, HQ. apply (wp_spaces _ _ _ _ H1); [fits|]. intros s2 H2. apply HQ. by rewrite <-app_assoc in H2.
Qed.

(** *** Strings and directives *)

Lemma wp_bytes {A} (m : BM A) (Q : A -> pstate -> Prop) s : wp m (fun a m' => Q a (mk_pstate m' (console s) (count s) (buf s))) (pm s) -> wp (bytes m) Q s.
Proof. unfold wp, bytes. by destruct (m (pm s)). Qed.
Lemma wp_ldb_at a v (Q : Z -> pstate -> Prop) s : pm s !! a = Some v -> Q v s -> wp (bytes (ldb a)) Q s.
Proof. intros E HQ. apply wp_bytes. eapply wp_ldb; [exact E|]. by destruct s. Qed.
Lemma wp_fuel (Q : nat -> pstate -> Prop) s : Q (S (size (pm s))) s -> wp (bytes scan_fuel) Q s.
Proof. intros HQ. apply wp_bytes. apply wp_gets. by destruct s. Qed.

Lemma str_suffix m p l t : str m p (l ++ t) -> str m (p + Z.of_nat (length l)) t.
Proof.
  revert p. induction l as [|c l IH]; intros p; cbn [app length]; [by rewrite Z.add_0_r|]. intros (_ & _ & Hs)%str_cons. apply IH in Hs. by replace (p + Z.of_nat (S (length l))) with (p + 1 + Z.of_nat (length l)) by lia.
Qed.

Lemma wp_string p t l t2 : forall fuel cs s (Q : Z -> pstate -> Prop),
  text p = Some t -> t = l ++ t2 -> (length t2 < fuel)%nat -> I cs s -> short (cs ++ t2) ->
  (forall s', I (cs ++ t2) s' -> Q (Z.of_nat (length t)) s') -> wp (string_loop out fuel (p + Z.of_nat (length l)) (Z.of_nat (length l))) Q s.
Proof.
  revert l. induction t2 as [|c t2 IH]; intros l [|fuel] cs s Q Et El Hf HI Hsh HQ; cbn [length] in Hf; [lia| |lia|]; cbn [string_loop]; apply wp_bind.
  - pose proof (Htext _ _ _ _ HI Et) as Hs. rewrite El in Hs. apply str_suffix, str_nil in Hs. eapply wp_ldb_at; [exact Hs|]. apply wp_ret. rewrite El, !app_nil_r in HQ. by apply HQ.
  - pose proof (Htext _ _ _ _ HI Et) as Hs. rewrite El in Hs. apply str_suffix, str_cons in Hs as (Ec & Hc & _). eapply wp_ldb_at; [exact Ec|]. rewrite (proj2 (Z.eqb_neq _ _) Hc).
    apply wp_bind, (wp_out cs); [done|fits|]. intros s1 H1. specialize (IH (l ++ [c]) fuel (cs ++ [c]) s1 Q Et). rewrite length_app in IH. cbn [length] in IH.
    replace (p + Z.of_nat (length l + 1)) with (p + Z.of_nat (length l) + 1) in IH by lia. replace (Z.of_nat (length l + 1)) with (Z.of_nat (length l) + 1) in IH by lia.
    apply IH; [by rewrite <-app_assoc|lia|done|fits|]. intros s2. rewrite <-app_assoc. apply HQ.
Qed.

Lemma wp_word ap v ap' (Q : Z * list arg -> pstate -> Prop) s : spec_word ap = Some (v, ap') -> (0 <= v < 2 ^ 32 -> Q (v, ap') s) -> wp (va_word ap) Q s.
Proof. unfold spec_word, va_word. destruct ap as [|[z|z] ap]; try done. intros [= <- <-] HQ. apply wp_ret, HQ, u32_range. Qed.
Lemma wp_dword ap v ap' (Q : Z * list arg -> pstate -> Prop) s : spec_dword ap = Some (v, ap') -> (0 <= v < 2 ^ 64 -> Q (v, ap') s) -> wp (va_dword ap) Q s.
Proof. unfold spec_dword, va_dword. destruct ap as [|[z|z] ap]; try done. intros [= <- <-] HQ. apply wp_ret, HQ, u64_range. Qed.

Lemma wp_signed f ap r ap' (Q : option Z * list arg -> pstate -> Prop) s :
  spec_signed f ap = Some (r, ap') -> ((forall d, r = Some d -> - 2 ^ 31 <= d < 2 ^ 31) -> Q (r, ap') s) -> wp (signed_arg (length_mod f) ap) Q s.
Proof.
  unfold spec_signed, signed_arg. destruct (length_mod f =? 76).
  - destruct (spec_dword ap) as [[v ap1]|] eqn:E; [|done]. cbn. intros [= <- <-] HQ. apply wp_bind. eapply wp_dword; [done|]. intros Hv. apply wp_ret. cbn [fst snd].
    set (d := if v <? 2 ^ 63 then v else v - 2 ^ 64) in *. rewrite Z.gtb_ltb. destruct (Z.ltb_spec 2147483647 d), (Z.ltb_spec d (-2147483648)), (Z.leb_spec (- 2 ^ 31) d), (Z.ltb_spec d (2 ^ 31)); cbn [orb andb] in *; try lia; apply HQ; intros ? [= <-]; lia.
  - destruct (spec_word ap) as [[v ap1]|] eqn:E; [|done]. cbn. intros [= <- <-] HQ. apply wp_bind. eapply wp_word; [done|]. intros Hv. apply wp_ret, HQ. intros d [= <-]. cbn [fst]. unfold s32. pose proof (Z.mod_pos_bound (v + 2 ^ 31) (2 ^ 32) ltac:(lia)). lia.
Qed.

Lemma wp_unsigned f ap r ap' (Q : option Z * list arg -> pstate -> Prop) s :
  spec_unsigned f ap = Some (r, ap') -> ((forall d, r = Some d -> 0 <= d < 2 ^ 32) -> Q (r, ap') s) -> wp (unsigned_arg (length_mod f) ap) Q s.
Proof.
  unfold spec_unsigned, unsigned_arg. destruct (length_mod f =? 76).
  - destruct (spec_dword ap) as [[v ap1]|] eqn:E; [|done]. cbn. intros [= <- <-] HQ. apply wp_bind. eapply wp_dword; [done|]. intros Hv. apply wp_ret. cbn [fst snd]. rewrite Z.gtb_ltb.
    destruct (Z.ltb_spec 4294967295 v), (Z.ltb_spec v (2 ^ 32)); try lia; apply HQ; intros ? [= <-]; lia.
  - destruct (spec_word ap) as [[v ap1]|] eqn:E; [|done]. cbn. intros [= <- <-] HQ. apply wp_bind. eapply wp_word; [done|]. intros Hv. apply wp_ret, HQ. by intros d [= <-].
Qed.

Ltac spec_step E := match type of E with (?o ≫= _) = _ => let p := fresh "p" in let v := fresh "v" in let a := fresh "a" in destruct o as [[v a]|] eqn:?; [cbn [mbind option_bind fst snd] in E|done] end.

Lemma wp_go f' cs ap s (Q : option fstate * list arg -> pstate -> Prop) t f2 ap2 :
  Some (Some f', [], ap) = Some (f2, t, ap2) -> I cs s -> (forall s', I (cs ++ t) s' -> Q (f2, ap2) s') -> wp (mret (Some f', ap)) Q s.
Proof. intros [= <- <- <-] HI HQ. apply wp_ret, HQ. by rewrite app_nil_r. Qed.

Lemma wp_unknown c cs ap s (Q : option fstate * list arg -> pstate -> Prop) t f2 ap2 :
  Some (None, [37; c], ap) = Some (f2, t, ap2) -> I cs s -> short (cs ++ t) -> (forall s', I (cs ++ t) s' -> Q (f2, ap2) s') -> wp (out 37;; out c;; mret (None, ap)) Q s.
Proof.
  intros [= <- <- <-] HI Hs HQ. apply wp_bind, (wp_out cs); [done|fits|]. intros s1 H1. apply wp_bind, (wp_out _ _ _ _ H1); [fits|]. intros s2 H2. apply wp_ret, HQ. by rewrite <-app_assoc in H2.
Qed.

Lemma wp_directive c f ap f' t ap' cs s (Q : option fstate * list arg -> pstate -> Prop) :
  directive_text text c f ap = Some (f', t, ap') -> I cs s -> short (cs ++ t) -> (forall s', I (cs ++ t) s' -> Q (f', ap') s') -> wp (directive out c f ap) Q s.
Proof.
  intros E HI Hs HQ. unfold directive, directive_text, classify, widened in *. destruct f as [pad w len]. cbn [padding min_width length_mod] in *.
  destruct (c =? 45) in E |- *; [by eapply wp_go|]. destruct (c =? 48) in E |- *; [destruct pad; [destruct (w <? 0) in E |- *|..]; by eapply wp_go|]. destruct (_ && (c <=? 57)) in E |- *; [destruct pad; by eapply wp_go|].
  destruct (_ || (c =? 122)) in E |- *.
  { destruct (_ && (len =? 104)) in E |- *; [by eapply wp_go|]. destruct (_ && (len =? 108)) in E |- *; [by eapply wp_go|]. destruct (len =? 0) in E |- *; [by eapply wp_go|by eapply wp_unknown]. }
  destruct (_ || (c =? 105)) in E |- *.
  { spec_step E. simplify_eq. apply wp_bind. eapply (wp_signed (mk_fstate pad w len)); [done|]. intros Hd. cbn [fst snd]. destruct v as [d|].
    - specialize (Hd d eq_refl). unfold signed_text in HQ, Hs. apply wp_bind. destruct (Z.ltb_spec d 0) as [Hn|Hn].
      + rewrite u32_small by lia. apply wp_bind, (wp_out cs); [done|fits|]. intros s1 H1. apply (wp_dec (- d) pad (w - 1) _ _ _ ltac:(lia) H1); [fits|]. intros s2 H2. apply wp_ret, HQ. by rewrite <-app_assoc in H2.
      + apply (wp_dec d pad w cs); [lia|done|done|]. intros s2 H2. by apply wp_ret, HQ.
    - apply wp_bind, (wp_error cs); [done|done|]. intros s2 H2. by apply wp_ret, HQ. }
  destruct (c =? 117) in E |- *.
  { spec_step E. simplify_eq. apply wp_bind. eapply (wp_unsigned (mk_fstate pad w len)); [done|]. intros Hd. cbn [fst snd]. destruct v as [d|]; apply wp_bind.
    - apply (wp_dec d pad w cs); [by apply Hd|done|done|]. intros s2 H2. by apply wp_ret, HQ.
    - apply (wp_error cs); [done|done|]. intros s2 H2. by apply wp_ret, HQ. }
  destruct (c =? 112) in E |- *.
  { spec_step E. simplify_eq. apply wp_bind, (wp_out cs); [done|fits|]. intros s1 H1. apply wp_bind, (wp_out _ _ _ _ H1); [fits|]. intros s2 H2. apply wp_bind. eapply wp_word; [done|]. intros Hv. cbn [fst snd].
    apply wp_bind, (wp_hex v _ _ _ _ _ ltac:(lia) H2); [fits|]. intros s3 H3. apply wp_ret, HQ. by rewrite <-!app_assoc in H3. }
  destruct (_ || (c =? 88)) in E |- *.
  { destruct (len =? 76) in E |- *; spec_step E; simplify_eq; apply wp_bind; [eapply wp_dword|eapply wp_word]; [done| |done|]; intros Hv; cbn [fst snd]; apply wp_bind, (wp_hex v pad w cs); try done; try lia; intros s2 H2; by apply wp_ret, HQ. }
  destruct (c =? 115) in E |- *.
  { spec_step E. destruct (text v) as [str|] eqn:Et; [|done]. cbn in E. simplify_eq. apply wp_bind. eapply wp_word; [done|]. intros Hv. cbn [fst snd]. apply wp_bind, wp_fuel, wp_bind.
    pose proof (str_size _ _ _ (Htext _ _ _ _ HI Et)) as Hsz. assert (W := wp_string v str [] str (S (size (pm s))) cs s). cbn [length] in W. rewrite Z.add_0_r in W.
    apply W; [done|done|lia|done|destruct pad; fits|]. intros s1 H1. apply wp_bind. destruct pad; try (apply wp_skip, wp_ret, HQ; by rewrite app_nil_r).
    apply (wp_spaces _ _ _ _ H1); [fits|]. intros s2 H2. apply wp_ret, HQ. by rewrite <-app_assoc in H2. }
  destruct (c =? 99) in E |- *.
  { spec_step E. simplify_eq. apply wp_bind. eapply wp_word; [done|]. intros Hv. cbn [fst snd]. apply wp_bind, (wp_out cs); [done|fits|]. intros s2 H2. by apply wp_ret, HQ. }
  destruct (c =? 37) in E |- *; [|by eapply wp_unknown]. simplify_eq. apply wp_bind, (wp_out cs); [done|fits|]. intros s2 H2. by apply wp_ret, HQ.
Qed.

Lemma wp_core p fmt l rest : forall fuel f ap r cs s (Q : unit -> pstate -> Prop),
  text p = Some fmt -> fmt = l ++ rest -> (length rest < fuel)%nat -> emitted text rest f ap = Some r -> I cs s -> short (cs ++ r) ->
  (forall s', I (cs ++ r) s' -> Q tt s') -> wp (core_loop out fuel (p + Z.of_nat (length l)) f ap) Q s.
Proof.
  revert l. induction rest as [|c rest IH]; intros l [|fuel] f ap r cs s Q Et El Hf Er HI Hl HQ; cbn [length emitted] in *; [lia| |lia|]; cbn [core_loop]; apply wp_bind;
    pose proof (Htext _ _ _ _ HI Et) as Hs; rewrite El in Hs; apply str_suffix in Hs.
  - apply str_nil in Hs. eapply wp_ldb_at; [exact Hs|]. simplify_eq. apply wp_skip, HQ. by rewrite app_nil_r.
  - apply str_cons in Hs as (Ec & Hc & _). eapply wp_ldb_at; [exact Ec|]. rewrite (proj2 (Z.eqb_neq _ _) Hc).
    assert (Next : forall f1 ap1 r1 cs1 s1, emitted text rest f1 ap1 = Some r1 -> I cs1 s1 -> short (cs1 ++ r1) -> (forall s', I (cs1 ++ r1) s' -> Q tt s') -> wp (core_loop out fuel (p + Z.of_nat (length l) + 1) f1 ap1) Q s1).
    { intros f1 ap1 r1 cs1 s1 E1 H1 Hl1 HQ1. replace (p + Z.of_nat (length l) + 1) with (p + Z.of_nat (length (l ++ [c]))) by (rewrite length_app; cbn [length]; lia). eapply IH; [exact Et|by rewrite <-app_assoc|lia|exact E1|exact H1|exact Hl1|exact HQ1]. }
    destruct f as [f|].
    + destruct (directive_text text c f ap) as [[[f1 t1] ap1]|] eqn:E1; [|done]. cbn in Er. destruct (emitted text rest f1 ap1) as [r1|] eqn:E2; [|done]. cbn in Er. simplify_eq.
      apply wp_bind. eapply wp_directive; [exact E1|exact HI|fits|]. intros s1 H1. cbn [fst snd]. eapply Next; [exact E2|exact H1|fits|]. intros s2. rewrite <-app_assoc. apply HQ.
    + destruct (c =? 37) eqn:E37; cbn [negb].
      * eapply Next; [exact Er|exact HI|exact Hl|exact HQ].
      * destruct (emitted text rest None ap) as [r1|] eqn:E2; [|done]. cbn in Er. simplify_eq. apply wp_bind, (wp_out cs); [done|fits|]. intros s1 H1. eapply Next; [exact E2|exact H1|fits|]. intros s2. rewrite <-app_assoc. apply HQ.
Qed.

Lemma wp_vprintk_core p fmt ap r s (Q : unit -> pstate -> Prop) :
  text p = Some fmt -> emitted text fmt None ap = Some r -> I [] s -> short r -> (forall s', I r s' -> Q tt s') -> wp (vprintk_core out p ap) Q s.
Proof.
  intros Et Er HI Hl HQ. unfold vprintk_core. apply wp_bind, wp_fuel. pose proof (str_size _ _ _ (Htext _ _ _ _ HI Et)) as Hs.
  assert (W := wp_core p fmt [] fmt (S (size (pm s))) None ap r [] s Q Et eq_refl ltac:(lia) Er HI Hl HQ). cbn [length] in W. by rewrite Z.add_0_r in W.
Qed.

End Emit.

(** ** Numerals *)

(** Lemma: a numeral is the shortest text of its number: its digits are digits, their value is
    the number, and only the number 0 begins with a 0. *)
Theorem numeral_shortest b k n : 2 <= b -> 0 <= n < b ^ Z.of_nat (S k) ->
  Forall (fun d => 0 <= d < b) (numeral b (S k) n) /\ foldl (fun a d => b * a + d) 0 (numeral b (S k) n) = n /\
  (forall d, head (numeral b (S k) n) = Some d -> d = 0 -> n = 0).
Proof.
  intros Hb Hn. destruct (digits_exist b k n Hb Hn) as (j & Hj & H1 & H2). rewrite (numeral_fixed b Hb j) by (done || lia). destruct (fixed_value b Hb (S j) n 0) as [F V]; [lia|].
  split_and!; [done|by rewrite V|]. intros d [= <-] E. destruct H2 as [->|H2].
  - change (Z.of_nat 0) with 0 in E. by rewrite Z.pow_0_r, Z.div_1_r in E.
  - pose proof (pow_pos b Hb j). assert (1 <= n / b ^ Z.of_nat j) by (apply Z.div_le_lower_bound; lia). lia.
Qed.

(** ** Output *)

(** [text] gives strings of memory by their addresses. *)
Definition strings (m : bmem) (text : Z -> option (list Z)) : Prop := forall p t, text p = Some t -> CString.str m p t.

Lemma wp_string_out cs : forall s (Q : unit -> pstate -> Prop), Q tt (mk_pstate (pm s) (console s ++ cs) (count s) (buf s)) -> wp (printk_string_out cs) Q s.
Proof.
  induction cs as [|c cs IH]; intros [m co n b] Q HQ; cbn [printk_string_out]; [apply wp_skip; by rewrite app_nil_r in HQ|].
  apply wp_bind, wp_modify, IH. cbn [pm console count buf] in *. by rewrite <-app_assoc.
Qed.

Section Console.
Context (uprintk_string_out : list Z -> PM unit) (Hcall : forall b s, uprintk_string_out b s = syscall_uprintk_string_out b s).

Lemma wp_flush s (Q : unit -> pstate -> Prop) : Q tt (mk_pstate (pm s) (console s ++ buf s) (count s) []) -> wp (printk_buf_flush uprintk_string_out) Q s.
Proof. intros HQ. unfold printk_buf_flush. apply wp_bind, wp_gets, wp_bind. unfold wp at 1. rewrite Hcall. by apply wp_string_out, wp_modify. Qed.

(** What was emitted is on the console or in the buffer. *)
Definition buffered (s0 : pstate) (cs : list Z) (s : pstate) : Prop :=
  pm s = pm s0 /\ console s ++ buf s = console s0 ++ (u8 <$> cs) /\ Z.of_nat (length (buf s)) < CONFIG_PRINTBUFFER_SIZE.

Lemma wp_buf_char_out s0 cs c s : buffered s0 cs s -> wp (printk_buf_char_out uprintk_string_out c) (fun _ s' => buffered s0 (cs ++ [c]) s') s.
Proof.
  intros (Hm & Hc & Hb). unfold printk_buf_char_out. apply wp_bind, wp_gets, wp_bind, wp_modify, wp_bind, wp_gets, wp_bind, wp_modify, wp_bind, wp_gets. cbn [pm console count buf].
  assert (E : console s ++ buf s ++ [u8 c] = console s0 ++ (u8 <$> cs ++ [c])) by (rewrite fmap_app; cbn [fmap list_fmap]; by rewrite !app_assoc, Hc).
  apply wp_when; intros Hl.
  - apply wp_flush. unfold buffered. cbn [pm console count buf]. rewrite app_nil_r. done.
  - unfold buffered. cbn [pm console count buf]. apply Z.eqb_neq in Hl. rewrite length_app in *. cbn [length] in *. split_and!; [done|done|lia].
Qed.

Lemma wp_char_out s0 cs c s : pm s = pm s0 /\ console s = console s0 ++ cs -> wp (printk_char_out c) (fun _ s' => pm s' = pm s0 /\ console s' = console s0 ++ cs ++ [c]) s.
Proof. intros [Hm Hc]. unfold printk_char_out. apply wp_bind, wp_gets, wp_bind, wp_modify, wp_modify. cbn [pm console]. by rewrite Hc, app_assoc. Qed.

(** Lemma: from the kernel and from user mode the text that the code emits for the format reaches the console, in order
    and complete, behind what was there; memory stays as it was. *)
Theorem printk_exact user p fmt ap text r s :
  strings (pm s) text -> text p = Some fmt -> emitted text fmt None ap = Some r ->
  exists s', printk uprintk_string_out user p ap s = Done tt s' /\ console s' = console s ++ (if user then u8 <$> r else r) /\ pm s' = pm s.
Proof.
  intros Ht Ep Er. apply run_unit. unfold printk, vprintk. destruct user.
  - apply wp_bind, wp_modify, wp_bind, wp_modify, wp_bind. cbn [pm console count buf].
    eapply (wp_vprintk_core _ (buffered s) (Z.of_nat (length r))); [intros; by apply wp_buf_char_out|intros cs s1 q t (-> & _); by apply Ht|exact Ep|exact Er|by split_and!; [|rewrite !app_nil_r|]|unfold short; lia|].
    intros s1 (Hm & Hc & Hb). apply wp_bind, wp_gets, wp_when; intros Hl.
    + apply wp_flush. done.
    + apply negb_false_iff, Z.eqb_eq in Hl. destruct (buf s1); [|done]. by rewrite app_nil_r in Hc.
  - apply wp_bind, wp_modify. eapply (wp_vprintk_core _ (fun cs s1 => pm s1 = pm s /\ console s1 = console s ++ cs) (Z.of_nat (length r))); [intros; by apply wp_char_out|intros cs s1 q t (-> & _); by apply Ht|exact Ep|exact Er|by rewrite app_nil_r|unfold short; lia|].
    by intros s1 [].
Qed.

End Console.

(** ** Text in a buffer *)

(** What a buffer of [n] bytes holds once [cs] has been emitted, and what it holds at the end. *)
Definition part (n : nat) (cs : list Z) : list Z := if decide (length cs < n)%nat then u8 <$> cs else match n with O => [] | S k => (u8 <$> take k cs) ++ [0] end.
Definition stored (n : nat) (cs : list Z) : list Z := match n with O => [] | S k => (u8 <$> take k cs) ++ [0] end.

Lemma part_full n cs c : (n <= length cs)%nat -> part n (cs ++ [c]) = part n cs.
Proof. intros Hn. unfold part. rewrite !decide_False by (rewrite ?length_app; cbn [length]; lia). destruct n as [|k]; [done|]. by rewrite take_app_le by lia. Qed.
Lemma part_last k cs c : length cs = k -> part (S k) (cs ++ [c]) = part (S k) cs ++ [0].
Proof. intros <-. unfold part. rewrite decide_False, decide_True by (rewrite ?length_app; cbn [length]; lia). by rewrite take_app_length. Qed.
Lemma part_next n cs c : (S (length cs) < n)%nat -> part n (cs ++ [c]) = part n cs ++ [u8 c].
Proof. intros Hn. unfold part. rewrite !decide_True by (rewrite ?length_app; cbn [length]; lia). by rewrite fmap_app. Qed.
Lemma part_open n cs : (length cs < n)%nat -> length (part n cs) = length cs.
Proof. intros Hn. unfold part. rewrite decide_True by done. apply length_fmap. Qed.
Lemma stored_open n cs : (length cs < n)%nat -> stored n cs = part n cs ++ [0].
Proof. intros Hn. unfold stored, part. rewrite decide_True by done. destruct n as [|k]; [lia|]. by rewrite take_ge by lia. Qed.
Lemma stored_full n cs : (n <= length cs)%nat -> stored n cs = part n cs.
Proof. intros Hn. unfold stored, part. by rewrite decide_False by lia. Qed.
Lemma stored_length n cs : (length (stored n cs) <= n)%nat.
Proof. unfold stored. destruct n as [|k]; [done|]. rewrite length_app, length_fmap, length_take. cbn [length]. lia. Qed.

(** [m] is [m0] with the bytes [l] at [b]. *)
Definition written (m0 : bmem) (b : Z) (l : list Z) (m : bmem) : Prop :=
  holds m b l /\ outside b (Z.of_nat (length l)) m0 m /\ forall x, is_Some (m !! x) <-> is_Some (m0 !! x).

Lemma written_nil m b : written m b [] m.
Proof. split_and!; [apply holds_nil|by intros x _|done]. Qed.

Lemma written_snoc m0 b l v m a : written m0 b l m -> a = b + Z.of_nat (length l) -> is_Some (m0 !! a) -> written m0 b (l ++ [v]) (<[a := v]> m).
Proof.
  intros (Hh & Ho & Hd) -> Hv. split_and!.
  - apply holds_app. split; [|apply holds_cons; split; [by rewrite lookup_insert_eq|apply holds_nil]].
    intros i x E. rewrite lookup_insert_ne; [by apply Hh|]. apply lookup_lt_Some in E. lia.
  - intros x Hx. rewrite length_app in Hx. cbn [length] in Hx. rewrite lookup_insert_ne by lia. apply Ho. lia.
  - intros x. destruct (decide (x = b + Z.of_nat (length l))) as [->|Hne]; [by rewrite lookup_insert_eq|by rewrite lookup_insert_ne].
Qed.

Lemma wp_set_count k s (Q : unit -> pstate -> Prop) : 0 <= k < 2 ^ 31 -> Q tt (mk_pstate (pm s) (console s) k (buf s)) -> wp (set_count k) Q s.
Proof. intros Hk HQ. apply wp_modify. by rewrite s32_small by lia. Qed.

Lemma wp_stb_at a v s (Q : unit -> pstate -> Prop) : is_Some (pm s !! a) -> Q tt (mk_pstate (<[a := v]> (pm s)) (console s) (count s) (buf s)) -> wp (bytes (stb a v)) Q s.
Proof. intros Hv HQ. apply wp_bytes. by apply wp_stb. Qed.

Section Buffer.
Context (s0 : pstate) (b : Z) (n : nat) (text : Z -> option (list Z)).
Context (Hb : b <> 0) (Hn : Z.of_nat n < 2 ^ 31) (Hmap : mapped (pm s0) b (Z.of_nat n)).
Context (Htext : strings (pm s0) text).
Context (Hapart : forall p t, text p = Some t -> p + Z.of_nat (length t) + 1 <= b \/ b + Z.of_nat n <= p).

Definition filling (cs : list Z) (s : pstate) : Prop :=
  written (pm s0) b (part n cs) (pm s) /\ count s = Z.of_nat (length cs) /\ console s = console s0.

Lemma part_length cs : (length (part n cs) <= n)%nat.
Proof. destruct (decide (length cs < n)%nat); [rewrite part_open by done; lia|]. rewrite <-stored_full by lia. apply stored_length. Qed.

Lemma filling_strings cs s p t : filling cs s -> text p = Some t -> CString.str (pm s) p t.
Proof.
  intros ((_ & Ho & _) & _) E. eapply str_outside; [by apply Htext|exact Ho|]. pose proof (part_length cs). specialize (Hapart _ _ E). lia.
Qed.

Lemma wp_printk_string cs c s : filling cs s -> short (2 ^ 31 - 1) (cs ++ [c]) -> wp (printk_string b (Z.of_nat n) c) (fun _ s' => filling (cs ++ [c]) s') s.
Proof.
  intros (Hw & Hc & Hco) Hs. unfold short in Hs. rewrite length_app in Hs. cbn [length] in Hs. unfold printk_string. apply wp_bind, wp_gets. rewrite Hc, (proj2 (Z.eqb_neq b 0)) by done. cbn [orb].
  assert (Hl : Z.of_nat (length (cs ++ [c])) = Z.of_nat (length cs) + 1) by (rewrite length_app; cbn [length]; lia).
  assert (Hcell : (length cs < n)%nat -> is_Some (pm s0 !! (b + Z.of_nat (length cs)))) by (intros; apply Hmap; lia).
  rewrite Z.geb_leb. destruct (Z.leb_spec (Z.of_nat n) (Z.of_nat (length cs))) as [Hf|Hf].
  - apply wp_set_count; [lia|]. unfold filling. cbn [pm console count]. by rewrite part_full, Hl by lia.
  - destruct Hw as (Hh & Ho & Hd). destruct (Z.eqb_spec (Z.of_nat (length cs)) (Z.of_nat n - 1)) as [E|E]; apply wp_bind, wp_stb_at; try (apply Hd, Hcell; lia); apply wp_set_count; try lia; unfold filling; cbn [pm console count]; rewrite Hl.
    + destruct n as [|k] eqn:En; [lia|]. rewrite part_last by lia. split_and!; [|done|done]. apply written_snoc; [done|by rewrite part_open by lia|apply Hcell; lia].
    + rewrite part_next by lia. split_and!; [|done|done]. apply written_snoc; [done|by rewrite part_open by lia|apply Hcell; lia].
Qed.

Lemma wp_vsnprintk p fmt ap r : text p = Some fmt -> emitted text fmt None ap = Some r -> Z.of_nat (length r) < 2 ^ 31 ->
  wp (vsnprintk b (Z.of_nat n) p ap) (fun k s' => k = Z.of_nat (length r) /\ written (pm s0) b (stored n r) (pm s') /\ console s' = console s0) s0.
Proof.
  intros Ep Er Hr. unfold vsnprintk. rewrite s32_small by lia. apply wp_bind, wp_set_count; [lia|]. apply wp_bind.
  eapply (wp_vprintk_core _ filling (2 ^ 31 - 1)); [intros; by apply wp_printk_string|intros; by eapply filling_strings|exact Ep|exact Er| |unfold short; lia|].
  - unfold filling. cbn [pm console count]. split_and!; [|done|done]. replace (part n []) with (@nil Z) by (unfold part; destruct n; done). apply written_nil.
  - intros s1 (Hw & Hc & Hco). apply wp_bind, wp_gets. rewrite Hc. destruct (Z.ltb_spec (Z.of_nat (length r)) (Z.of_nat n)) as [Hl|Hl]; cbn [when]; apply wp_bind.
    + pose proof Hw as (_ & _ & Hd). assert (Hcell : is_Some (pm s0 !! (b + Z.of_nat (length r)))) by (apply Hmap; lia). apply wp_stb_at; [by apply Hd|]. apply wp_gets. cbn [pm console count].
      rewrite stored_open by lia. split_and!; [done| |done]. apply written_snoc; [done|by rewrite part_open by lia|done].
    + apply wp_skip, wp_gets. by rewrite stored_full by lia.
Qed.

End Buffer.

(** Lemma: the same for every format, with the text that the code emits. *)
Theorem snprintk_emits b n p fmt ap text r s :
  b <> 0 -> Z.of_nat n < 2 ^ 31 -> mapped (pm s) b (Z.of_nat n) -> strings (pm s) text ->
  (forall q t, text q = Some t -> q + Z.of_nat (length t) + 1 <= b \/ b + Z.of_nat n <= q) ->
  text p = Some fmt -> emitted text fmt None ap = Some r -> Z.of_nat (length r) < 2 ^ 31 ->
  exists s', snprintk b (Z.of_nat n) p ap s = Done (Z.of_nat (length r)) s' /\ holds (pm s') b (stored n r) /\
    outside b (Z.of_nat (length (stored n r))) (pm s) (pm s') /\ console s' = console s.
Proof.
  intros Hb Hn Hm Ht Ha Ep Er Hr. pose proof (wp_vsnprintk s b n text Hb Hn Hm Ht Ha p fmt ap r Ep Er Hr) as W. apply wp_run in W as (k & s' & E & -> & (Hh & Ho & _) & Hc).
  exists s'. done.
Qed.


(** Lemma: field widths that the code does not honour.  [%12d] of 5 fills 10 columns, [%5s] of
    "ab" and [%3c] fill none, and [%5d] of -42 puts the spaces behind the sign. *)
Theorem widths_not_honoured :
  let ab p := if p =? 200 then Some [97; 98] else None in
  (emitted ab [37; 49; 50; 100] None [Word 5] = Some (replicate 9 32 ++ [53]) /\ render ab [37; 49; 50; 100] None [Word 5] = Some (replicate 11 32 ++ [53])) /\
  (emitted ab [37; 53; 115] None [Word 200] = Some [97; 98] /\ render ab [37; 53; 115] None [Word 200] = Some [32; 32; 32; 97; 98]) /\
  (emitted ab [37; 51; 99] None [Word 65] = Some [65] /\ render ab [37; 51; 99] None [Word 65] = Some [32; 32; 65]) /\
  (emitted ab [37; 53; 100] None [Word (-42)] = Some [45; 32; 32; 52; 50] /\ render ab [37; 53; 100] None [Word (-42)] = Some [32; 32; 45; 52; 50]).
Proof. by vm_compute. Qed.

(** Lemma: without a buffer the text is only counted, but its end is still written if the size
    given is larger than the text: through the null pointer. *)
Theorem snprintk_null_writes n p fmt ap text r s :
  Z.of_nat n < 2 ^ 31 -> strings (pm s) text -> text p = Some fmt -> emitted text fmt None ap = Some r -> (length r < n)%nat ->
  snprintk 0 (Z.of_nat n) p ap s =
    match pm s !! Z.of_nat (length r) with
    | Some _ => Done (Z.of_nat (length r)) (mk_pstate (<[Z.of_nat (length r) := 0]> (pm s)) (console s) (Z.of_nat (length r)) (buf s))
    | None => Fail Fault
    end.
Proof.
  intros Hn Ht Ep Er Hr. unfold snprintk, vsnprintk. rewrite s32_small by lia.
  assert (W : wp (set_count 0;; vprintk_core (printk_string 0 (Z.of_nat n)) p ap) (fun _ s' => s' = mk_pstate (pm s) (console s) (Z.of_nat (length r)) (buf s)) s).
  { apply wp_bind, wp_set_count; [lia|]. eapply (wp_vprintk_core _ (fun cs s' => s' = mk_pstate (pm s) (console s) (Z.of_nat (length cs)) (buf s)) (Z.of_nat n)); [|intros cs s' q t ->; by apply Ht|exact Ep|exact Er|done|unfold short; lia|done].
    intros cs c s' -> Hs. unfold short in Hs. rewrite length_app in Hs. cbn [length] in Hs. unfold printk_string. apply wp_bind, wp_gets. cbn [Z.eqb orb count]. apply wp_set_count; [lia|]. cbn [pm console buf]. f_equal. rewrite length_app. cbn [length]. lia. }
  apply wp_run in W as ([] & s' & E & ->). unfold mbind, ST_bind in *. cbn in E |- *. rewrite E. cbn [count]. rewrite (proj2 (Z.ltb_lt _ _)) by lia. unfold when, bytes, stb. rewrite ?Z.add_0_l. cbn [pm].
  by destruct (pm s !! Z.of_nat (length r)).
Qed.

(** Lemma: left-aligned, a hexadecimal number fills twice the width asked for, a decimal one the
    width. *)
Theorem hex_left_twice h d w s :
  0 <= h < 2 ^ 64 -> 0 <= d < 2 ^ 32 -> 10 <= w ->
  exists s1 s2 l1 l2, printk_hex_ulong printk_char_out h pad_space_after_pad w s = Done tt s1 /\ console s1 = console s ++ l1 /\ Z.of_nat (length l1) = 2 * w /\
    printk_dec_ulong printk_char_out d pad_space_after_pad w s = Done tt s2 /\ console s2 = console s ++ l2 /\ Z.of_nat (length l2) = w.
Proof.
  intros Hh Hd Hw. set (I cs s' := pm s' = pm s /\ console s' = console s ++ cs).
  assert (W1 : wp (printk_hex_ulong printk_char_out h pad_space_after_pad w) (fun _ s' => I (hex_text pad_space_after_pad w h) s') s).
  { eapply (wp_hex _ I (Z.of_nat (length (hex_text pad_space_after_pad w h)))); [intros; by apply wp_char_out|assumption|split; [reflexivity|symmetry; apply app_nil_r]|apply Z.le_refl|exact (fun s' Hs => Hs)]. }
  assert (W2 : wp (printk_dec_ulong printk_char_out d pad_space_after_pad w) (fun _ s' => I (dec_text pad_space_after_pad w d) s') s).
  { eapply (wp_dec _ I (Z.of_nat (length (dec_text pad_space_after_pad w d)))); [intros; by apply wp_char_out|assumption|split; [reflexivity|symmetry; apply app_nil_r]|apply Z.le_refl|exact (fun s' Hs => Hs)]. }
  apply run_unit in W1 as (s1 & E1 & _ & C1). apply run_unit in W2 as (s2 & E2 & _ & C2). exists s1, s2, (hex_text pad_space_after_pad w h), (dec_text pad_space_after_pad w d).
  destruct (digits_exist 16 15 h) as (j & Hj & H1 & H2); [lia|exact Hh|]. destruct (digits_exist 10 9 d) as (k & Hk & H3 & H4); [lia|change (10 ^ Z.of_nat 10) with 10000000000; lia|].
  unfold hex_text, dec_text in *. rewrite (numeral_fixed 16 ltac:(lia) j) in * by (done || lia). rewrite (numeral_fixed 10 ltac:(lia) k) in * by (done || lia).
  rewrite !length_app, !length_replicate, !length_fmap, !fixed_length in *. split_and!; try done; lia.
Qed.

(** ** Examples *)

Definition demo_format : list Z := [37; 115; 61; 37; 48; 52; 100; 124; 37; 51; 120; 46].
Definition demo_text (p : Z) : option (list Z) := if p =? 100 then Some demo_format else if p =? 200 then Some [97; 98] else None.
Definition demo_out : pstate := mk_pstate (place 100 (demo_format ++ [0]) (place 200 [97; 98; 0] (place 300 (replicate 12 7) ∅))) [] 0 [].
Definition demo_args : list arg := [Word 200; Word (- 42); Word 31].

(** ["%s=%04d|%3x."] *)
Lemma demo_strings : strings (pm demo_out) demo_text.
Proof.
  intros p t. unfold demo_text. destruct (Z.eqb_spec p 100) as [->|_]; [|destruct (Z.eqb_spec p 200) as [->|_]; [|done]]; intros [= <-]; (split; [apply holdsb_holds; by vm_compute|repeat constructor; done]).
Defined.


Lemma printk_exact_witness :
  exists s', printk syscall_uprintk_string_out true 100 demo_args demo_out = Done tt s' /\ console s' = [97; 98; 61; 45; 48; 52; 50; 124; 32; 49; 102; 46] /\ pm s' = pm demo_out.
Proof.
  apply (printk_exact syscall_uprintk_string_out ltac:(done) true 100 demo_format demo_args demo_text [97; 98; 61; 45; 48; 52; 50; 124; 32; 49; 102; 46] demo_out); [exact demo_strings|done|by vm_compute].
Defined.

Lemma snprintk_null_writes_witness : snprintk 0 20 100 demo_args demo_out = Fail Fault.
Proof.
  apply (snprintk_null_writes 20 100 demo_format demo_args demo_text [97; 98; 61; 45; 48; 52; 50; 124; 32; 49; 102; 46] demo_out); [done|exact demo_strings|done|by vm_compute|cbn; lia].
Defined.
