(* ===== verification/Mpu.v ===== *)
(** * The memory protection unit driver

    Models [src/arch/arm/aarch32/cortex_m/mpu/arm_mpu.c] and [arm_mpu_v7m.c], the constants
    of [inc/arch/arm/aarch32/cortex_m/mpu/arm_mpu_v7m.h] and the fixed regions of
    [arm_mpu_regions.c], for the Cortex-M4 of the board: eight regions, each with a base
    register and an attribute and size register, which are reached through the region
    number register.  The state holds these registers and [static_regions_num].

    [user_access] is what the hardware then allows: the highest numbered region that covers
    an address decides, and the background map is for privileged code only.  Sub-region
    disable bits, which no attribute of the kernel sets, are left out. *)

From Stdlib Require Import ZArith Lia Bool List.
From stdpp Require Import base tactics numbers list.
From S2P Require Import Prelude.

Local Open Scope Z_scope.

(** ** Registers *)

Record mpu := mk_mpu {
  mpu_ctrl : Z;
  mpu_rnr : Z;
  mpu_regs : list (Z * Z);            (* RBAR and RASR of each region *)
  static_regions_num : Z;
}.

Definition with_mpu_ctrl v m := mk_mpu v (mpu_rnr m) (mpu_regs m) (static_regions_num m).
Definition with_mpu_rnr v m := mk_mpu (mpu_ctrl m) v (mpu_regs m) (static_regions_num m).
Definition with_mpu_regs v m := mk_mpu (mpu_ctrl m) (mpu_rnr m) v (static_regions_num m).
Definition with_static_regions_num v m := mk_mpu (mpu_ctrl m) (mpu_rnr m) (mpu_regs m) v.

Notation UM := (ST mpu).

Definition MPU_RBAR_ADDR_Msk : Z := Z.shiftl 134217727 5.
Definition MPU_RBAR_VALID_Msk : Z := Z.shiftl 1 4.
Definition MPU_RBAR_REGION_Msk : Z := 15.
Definition MPU_RASR_ENABLE_Msk : Z := 1.
Definition MPU_RASR_SIZE_Pos : Z := 1.
Definition MPU_RASR_SIZE_Msk : Z := Z.shiftl 31 1.
Definition MPU_RASR_AP_Pos : Z := 24.
Definition MPU_RASR_AP_Msk : Z := Z.shiftl 7 24.
Definition MPU_RASR_XN_Msk : Z := Z.shiftl 1 28.
Definition MPU_RASR_TEX_Pos : Z := 19.
Definition MPU_RASR_C_Msk : Z := Z.shiftl 1 17.
Definition MPU_RASR_B_Msk : Z := Z.shiftl 1 16.
Definition MPU_CTRL_ENABLE_Msk : Z := 1.
Definition MPU_CTRL_PRIVDEFENA_Msk : Z := Z.shiftl 1 2.

(** The region a region number stands for; there are eight of them. *)
Definition region_at (r : Z) : UM (Z * Z) := m ← (get : UM mpu); ofopt (mpu_regs m !! Z.to_nat r).

Definition wr_RNR (v : Z) : UM unit := modify (with_mpu_rnr (Z.land v 255)).
Definition rd_RBAR : UM Z := m ← (get : UM mpu); r ← region_at (mpu_rnr m); mret (r.1).
Definition rd_RASR : UM Z := m ← (get : UM mpu); r ← region_at (mpu_rnr m); mret (r.2).

(** With the valid bit set the register also selects the region of its low bits. *)
Definition wr_RBAR (v : Z) : UM unit :=
  (if Z.testbit v 4 then modify (with_mpu_rnr (Z.land v MPU_RBAR_REGION_Msk)) else skip);;
  m ← (get : UM mpu);
  r ← region_at (mpu_rnr m);
  modify (with_mpu_regs (<[Z.to_nat (mpu_rnr m) := (Z.lor (Z.land v MPU_RBAR_ADDR_Msk) (Z.land (mpu_rnr m) MPU_RBAR_REGION_Msk), r.2)]> (mpu_regs m))).

Definition wr_RASR (v : Z) : UM unit :=
  m ← (get : UM mpu);
  r ← region_at (mpu_rnr m);
  modify (with_mpu_regs (<[Z.to_nat (mpu_rnr m) := (r.1, v)]> (mpu_regs m))).

Definition ARM_MPU_ClrRegion (rnr : Z) : UM unit := wr_RNR rnr;; wr_RASR 0.

(** ** Partitions and regions *)

Record partition := mk_partition { p_start : Z; p_size : Z; p_attr : Z }.

#[export] Instance partition_eq_dec : EqDecision partition.
Proof. solve_decision. Defined.

Definition P_NA_U_NA : Z := 0.
Definition P_RW_U_NA : Z := 1.
Definition P_RW_U_RO : Z := 2.
Definition P_RW_U_RW : Z := 3.
Definition P_RO_U_NA : Z := 5.
Definition P_RO_U_RO : Z := 6.
Definition RO : Z := 7.

Definition AP_Msk (ap : Z) : Z := Z.land (Z.shiftl ap MPU_RASR_AP_Pos) MPU_RASR_AP_Msk.
Definition NORMAL_WRITE_BACK : Z := Z.lor (Z.shiftl 1 MPU_RASR_TEX_Pos) (Z.lor MPU_RASR_C_Msk MPU_RASR_B_Msk).

Definition MEM_PARTITION_P_RW_U_RW : Z := Z.lor (Z.lor (AP_Msk P_RW_U_RW) MPU_RASR_XN_Msk) NORMAL_WRITE_BACK.
Definition MEM_PARTITION_P_RW_U_RO : Z := Z.lor (Z.lor (AP_Msk P_RW_U_RO) MPU_RASR_XN_Msk) NORMAL_WRITE_BACK.
Definition MEM_PARTITION_P_RW_U_NA : Z := Z.lor (Z.lor (AP_Msk P_RW_U_NA) MPU_RASR_XN_Msk) NORMAL_WRITE_BACK.
Definition MEM_PARTITION_P_RO_U_NA : Z := Z.lor (Z.lor (AP_Msk P_RO_U_NA) MPU_RASR_XN_Msk) NORMAL_WRITE_BACK.
Definition MEM_PARTITION_P_RWX_U_RWX : Z := Z.lor (AP_Msk P_RW_U_RW) NORMAL_WRITE_BACK.

Definition PARTITION_IS_WRITABLE (attr : Z) : bool :=
  let ap := Z.land attr MPU_RASR_AP_Msk in (ap =? AP_Msk P_RW_U_RW) || (ap =? AP_Msk P_RW_U_RO) || (ap =? AP_Msk P_RW_U_NA).
Definition PARTITION_IS_EXECUTABLE (attr : Z) : bool := Z.land attr MPU_RASR_XN_Msk =? 0.

(** [ARM_MPU_REGION_SIZE_32B] and [ARM_MPU_REGION_SIZE_4GB] in place. *)
Definition REGION_SIZE (code : Z) : Z := Z.land (Z.shiftl code MPU_RASR_SIZE_Pos) MPU_RASR_SIZE_Msk.
Definition REGION_32B : Z := REGION_SIZE 4.
Definition REGION_4G : Z := REGION_SIZE 31.

Definition get_num_regions : Z := 8.
Definition EINVAL : Z := 22.
Definition EPERM : Z := 1.
Definition CONFIG_ARM_MPU_REGION_MIN_ALIGN_AND_SIZE : Z := 32.

Definition region_init (index base rasr : Z) : UM unit :=
  wr_RNR index;;
  wr_RBAR (Z.lor (Z.lor (Z.land base MPU_RBAR_ADDR_Msk) MPU_RBAR_VALID_Msk) index);;
  wr_RASR (Z.lor rasr MPU_RASR_ENABLE_Msk).

Definition mpu_partition_is_valid (part : partition) : bool :=
  (Z.land (p_size part) (u32 (p_size part - 1)) =? 0) && (CONFIG_ARM_MPU_REGION_MIN_ALIGN_AND_SIZE <=? p_size part) &&
  (Z.land (p_start part) (u32 (p_size part - 1)) =? 0).

(** [__builtin_clz] of a non-zero word. *)
Definition clz (x : Z) : Z := 31 - Z.log2 x.

Definition size_to_mpu_rasr_size (size : Z) : Z :=
  if size <=? 32 then REGION_32B
  else if 2 ^ 31 <? size then REGION_4G
  else Z.land (Z.shiftl (32 - clz (size - 1) - 2 + 1) MPU_RASR_SIZE_Pos) MPU_RASR_SIZE_Msk.

Definition get_region_attr_from_k_mem_partition_info (attr size : Z) : Z := Z.lor attr (size_to_mpu_rasr_size size).

Definition get_dyn_region_min_index : UM Z := gets static_regions_num.
Definition mpu_rasr_size_to_size (rasr_size : Z) : Z := u32 (Z.shiftl 1 (rasr_size + 1)).
Definition mpu_region_get_base (index : Z) : UM Z := wr_RNR index;; v ← rd_RBAR; mret (Z.land v MPU_RBAR_ADDR_Msk).
Definition mpu_region_get_size (index : Z) : UM Z :=
  wr_RNR index;; v ← rd_RASR; mret (mpu_rasr_size_to_size (Z.shiftr (Z.land v MPU_RASR_SIZE_Msk) MPU_RASR_SIZE_Pos)).

Definition is_enabled_region (index : Z) : UM bool :=
  wr_RNR index;; rasr ← rd_RASR; mret (negb (Z.land rasr MPU_RASR_ENABLE_Msk =? 0)).

Definition MPU_USER_READ_ACCESSIBLE_Msk : Z := Z.land (Z.land (Z.land P_RW_U_RO P_RW_U_RW) P_RO_U_RO) RO.

Definition get_region_ap (r_index : Z) : UM Z :=
  wr_RNR r_index;; rasr ← rd_RASR; mret (Z.shiftr (Z.land rasr MPU_RASR_AP_Msk) MPU_RASR_AP_Pos).

Definition u32_add_overflow (a b : Z) : bool * Z := let c := u32 (a + b) in (c <? a, c).

Definition is_in_region (r_index start size : Z) : UM bool :=
  wr_RNR r_index;;
  rbar ← rd_RBAR; rasr ← rd_RASR;
  let r_addr_start := Z.land rbar MPU_RBAR_ADDR_Msk in
  let r_size_lshift := Z.shiftr (Z.land rasr MPU_RASR_SIZE_Msk) MPU_RASR_SIZE_Pos + 1 in
  let r_addr_end := u32 (u32 (r_addr_start + u32 (Z.shiftl 1 r_size_lshift)) - 1) in
  let size := if size =? 0 then 0 else size - 1 in
  let '(carry, end_) := u32_add_overflow start size in
  if carry then mret false else mret ((r_addr_start <=? start) && (end_ <=? r_addr_end)).

Definition is_user_accessible_region (r_index : Z) (write : bool) : UM bool :=
  r_ap ← get_region_ap r_index;
  mret (if write then r_ap =? P_RW_U_RW else negb (Z.land r_ap MPU_USER_READ_ACCESSIBLE_Msk =? 0)).

(** Regions [n - 1] down to 0. *)
Fixpoint validate_loop (n : nat) (addr size : Z) (write : bool) : UM Z :=
  match n with
  | O => mret (- EPERM)
  | S n =>
    let r_index := Z.of_nat n in
    e ← is_enabled_region r_index;
    skip_ ← ((if negb e then mret true else (i ← is_in_region r_index addr size; mret (negb i))) : UM bool);
    if (skip_ : bool) then validate_loop n addr size write
    else (u ← is_user_accessible_region r_index write; mret (if (u : bool) then 0 else - EPERM))
  end.

Definition mpu_buffer_validate (addr size : Z) (write : bool) : UM Z := validate_loop (Z.to_nat get_num_regions) addr size write.

(** ** Programming *)

Definition region_allocate_and_init (index base rasr : Z) : UM Z :=
  if get_num_regions - 1 <? index then mret (- EINVAL) else region_init index base rasr;; mret index.

Definition arm_core_mpu_configure_region (index : Z) (new_region : partition) : UM Z :=
  region_allocate_and_init index (p_start new_region) (get_region_attr_from_k_mem_partition_info (p_attr new_region) (p_size new_region)).

(** [reg_index] is passed as a byte. *)
Fixpoint arm_core_mpu_configure_regions (regions : list partition) (reg_index : Z) (do_sanity_check : bool) : UM Z :=
  match regions with
  | [] => mret reg_index
  | part :: regions =>
    if p_size part =? 0 then arm_core_mpu_configure_regions regions reg_index do_sanity_check
    else if do_sanity_check && negb (mpu_partition_is_valid part) then mret (- EINVAL)
    else
      reg_index ← arm_core_mpu_configure_region (u8 reg_index) part;
      if reg_index =? - EINVAL then mret reg_index
      else arm_core_mpu_configure_regions regions (reg_index + 1) do_sanity_check
  end.

Definition arm_core_mpu_enable : UM unit := modify (with_mpu_ctrl (Z.lor MPU_CTRL_ENABLE_Msk MPU_CTRL_PRIVDEFENA_Msk)).
Definition arm_core_mpu_disable : UM unit := modify (with_mpu_ctrl 0).

(** The first dynamic region with the base and the size of the partition, [get_num_regions]
    if there is none. *)
Fixpoint find_region (n : nat) (i : Z) (part : partition) : UM Z :=
  match n with
  | O => mret get_num_regions
  | S n =>
    e ← is_enabled_region i;
    if negb e then find_region n (i + 1) part
    else
      base ← mpu_region_get_base i;
      if negb (base =? p_start part) then find_region n (i + 1) part
      else
        size ← mpu_region_get_size i;
        if negb (size =? p_size part) then find_region n (i + 1) part else mret i
  end.

Section Update.
Context `{Config}.

(** Returns the partition with its new attribute. *)
Definition arm_core_mpu_mem_partition_config_update (part : partition) (new_attr : Z) : UM partition :=
  i ← get_dyn_region_min_index;
  reg_index ← find_region (Z.to_nat (get_num_regions - i)) i part;
  assert_ (negb (reg_index =? get_num_regions));;
  let part := mk_partition (p_start part) (p_size part) new_attr in
  arm_core_mpu_configure_region reg_index part;;
  mret part.

End Update.

Definition arm_core_mpu_get_max_available_dyn_regions : UM Z := n ← gets static_regions_num; mret (get_num_regions - n).
Definition arm_core_mpu_buffer_validate (addr size : Z) (write : bool) : UM Z := mpu_buffer_validate addr size write.

Definition mpu_configure_static_mpu_regions (static_regions : list partition) : UM Z :=
  n ← gets static_regions_num;
  mpu_reg_index ← arm_core_mpu_configure_regions static_regions n true;
  modify (with_static_regions_num (u8 mpu_reg_index));;
  mret mpu_reg_index.

Fixpoint clear_regions (n : nat) (i : Z) : UM unit :=
  match n with O => skip | S n => ARM_MPU_ClrRegion i;; clear_regions n (i + 1) end.

Definition mpu_configure_dynamic_mpu_regions (dynamic_regions : list partition) : UM Z :=
  n ← gets static_regions_num;
  mpu_reg_index ← arm_core_mpu_configure_regions dynamic_regions n false;
  (if negb (mpu_reg_index =? - EINVAL) then clear_regions (Z.to_nat (get_num_regions - mpu_reg_index)) mpu_reg_index else skip);;
  mret mpu_reg_index.

(** A failure is reported on the console only. *)
Definition arm_core_mpu_configure_static_mpu_regions (static_regions : list partition) : UM unit :=
  mpu_configure_static_mpu_regions static_regions;; skip.
Definition arm_core_mpu_configure_dynamic_mpu_regions (dynamic_regions : list partition) : UM unit :=
  mpu_configure_dynamic_mpu_regions dynamic_regions;; skip.

(** Base and attributes of the fixed regions. *)
Record arm_mpu_region := mk_arm_mpu_region { r_base : Z; r_rasr : Z }.

Fixpoint init_regions (r_index : Z) (regions : list arm_mpu_region) : UM unit :=
  match regions with [] => skip | r :: regions => region_init r_index (r_base r) (r_rasr r);; init_regions (r_index + 1) regions end.

Definition init_arm_mpu_module (mpu_config : list arm_mpu_region) : UM Z :=
  let num_regions := Z.of_nat (length mpu_config) in
  if get_num_regions <? num_regions then mret (-1)
  else
    arm_core_mpu_disable;;
    init_regions 0 mpu_config;;
    modify (with_static_regions_num (u8 num_regions));;
    arm_core_mpu_enable;;
    mret 0.

(** [REGION_FLASH_SIZE] and [REGION_SRAM_SIZE] for a size in kilobytes. *)
Definition REGION_FLASH_SIZE (kb : Z) : option Z :=
  if kb <=? 64 then Some (REGION_SIZE 15) else if kb <=? 128 then Some (REGION_SIZE 16) else if kb <=? 256 then Some (REGION_SIZE 17)
  else if kb <=? 512 then Some (REGION_SIZE 18) else if kb <=? 1024 then Some (REGION_SIZE 19) else if kb <=? 2048 then Some (REGION_SIZE 20)
  else if kb <=? 4096 then Some (REGION_SIZE 21) else if kb <=? 8192 then Some (REGION_SIZE 22) else if kb <=? 16384 then Some (REGION_SIZE 23)
  else if kb <=? 65536 then Some (REGION_SIZE 25) else None.

Definition REGION_SRAM_SIZE (kb : Z) : option Z :=
  if kb <=? 16 then Some (REGION_SIZE 13) else if kb <=? 32 then Some (REGION_SIZE 14) else if kb <=? 64 then Some (REGION_SIZE 15)
  else if kb <=? 128 then Some (REGION_SIZE 16) else if kb <=? 256 then Some (REGION_SIZE 17) else if kb <=? 512 then Some (REGION_SIZE 18)
  else if kb <=? 1024 then Some (REGION_SIZE 19) else if kb <=? 2048 then Some (REGION_SIZE 20) else if kb <=? 4096 then Some (REGION_SIZE 21)
  else if kb =? 32768 then Some (REGION_SIZE 24) else None.

Definition REGION_RAM_ATTR (size : Z) : Z := Z.lor (Z.lor (Z.lor NORMAL_WRITE_BACK MPU_RASR_XN_Msk) size) (AP_Msk P_RW_U_NA).
Definition REGION_FLASH_ATTR (size : Z) : Z := Z.lor (Z.lor MPU_RASR_C_Msk size) (AP_Msk RO).

(** The build stops at a size without a region size. *)
Definition mpu_regions (flash_base flash_kb sram_base sram_kb : Z) : option (list arm_mpu_region) :=
  f ← REGION_FLASH_SIZE flash_kb;
  s ← REGION_SRAM_SIZE sram_kb;
  Some [mk_arm_mpu_region flash_base (REGION_FLASH_ATTR f); mk_arm_mpu_region sram_base (REGION_RAM_ATTR s)].

(** ** What the hardware allows *)

Definition field_size (rasr : Z) : Z := Z.shiftr (Z.land rasr MPU_RASR_SIZE_Msk) MPU_RASR_SIZE_Pos.
Definition field_ap (rasr : Z) : Z := Z.shiftr (Z.land rasr MPU_RASR_AP_Msk) MPU_RASR_AP_Pos.
Definition enabled (r : Z * Z) : bool := negb (Z.land r.2 MPU_RASR_ENABLE_Msk =? 0).

(** An enabled region covers the addresses that agree with its base above the size. *)
Definition covers (a : Z) (r : Z * Z) : bool :=
  enabled r && (Z.shiftr a (field_size r.2 + 1) =? Z.shiftr (Z.land r.1 MPU_RBAR_ADDR_Msk) (field_size r.2 + 1)).

(** The access permissions of unprivileged code. *)
Definition ap_allows (write : bool) (ap : Z) : bool :=
  if write then ap =? 3 else (ap =? 2) || (ap =? 3) || (ap =? 6) || (ap =? 7).

Fixpoint decide_access (write : bool) (a : Z) (regs : list (Z * Z)) (below : bool) : bool :=
  match regs with [] => below | r :: regs => decide_access write a regs (if covers a r then ap_allows write (field_ap r.2) else below) end.

Definition user_access (write : bool) (a : Z) (m : mpu) : bool := decide_access write a (mpu_regs m) false.

(** ** Bits of the registers *)

Lemma addr_bits x i : 0 <= i -> Z.testbit (Z.land x MPU_RBAR_ADDR_Msk) i = (5 <=? i) && (i <? 32) && Z.testbit x i.
Proof.
  intros Hi. unfold MPU_RBAR_ADDR_Msk. rewrite Z.land_spec, Z.shiftl_spec by done. change 134217727 with (Z.ones 27). rewrite andb_comm. f_equal.
  destruct (Z.leb_spec 5 i); [rewrite Z.testbit_ones_nonneg by lia; cbn [andb]; apply eq_true_iff_eq; rewrite !Z.ltb_lt; lia|]. by rewrite Z.testbit_neg_r by lia.
Qed.

Lemma small_bits n x i : 0 <= x < 2 ^ n -> n <= i -> Z.testbit x i = false.
Proof. intros Hx Hi. destruct (Z.ltb_spec n 0); [rewrite Z.pow_neg_r in Hx by lia; lia|]. rewrite <-(Z.mod_small _ _ Hx). apply Z.mod_pow2_bits_high. lia. Qed.

(** The word [region_init] writes selects its region and keeps the base. *)
Lemma rbar_word base index : 0 <= index < 8 ->
  let v := Z.lor (Z.lor (Z.land base MPU_RBAR_ADDR_Msk) MPU_RBAR_VALID_Msk) index in
  Z.testbit v 4 = true /\ Z.land v MPU_RBAR_REGION_Msk = index /\ Z.land v MPU_RBAR_ADDR_Msk = Z.land base MPU_RBAR_ADDR_Msk.
Proof.
  intros Hi v. assert (Hv : forall i, 0 <= i -> Z.testbit v i = (5 <=? i) && (i <? 32) && Z.testbit base i || (i =? 4) || Z.testbit index i).
  { intros i Hi0. subst v. rewrite !Z.lor_spec, addr_bits by done. unfold MPU_RBAR_VALID_Msk. rewrite Z.shiftl_1_l, Z.pow2_bits_eqb by lia. by rewrite (Z.eqb_sym 4 i). }
  split; [|split].
  - rewrite Hv by lia. by rewrite orb_true_r.
  - apply Z.bits_inj'. intros i Hi0. rewrite Z.land_spec, Hv by done. change MPU_RBAR_REGION_Msk with (Z.ones 4). rewrite Z.testbit_ones_nonneg by lia.
    destruct (Z.ltb_spec i 4); [|rewrite andb_false_r; symmetry; apply (small_bits 3); lia]. rewrite (proj2 (Z.leb_gt 5 i)), (proj2 (Z.eqb_neq i 4)) by lia. cbn [andb orb]. apply andb_true_r.
  - apply Z.bits_inj'. intros i Hi0. rewrite !addr_bits, Hv by done. destruct (Z.leb_spec 5 i), (Z.ltb_spec i 32); try done. cbn [andb].
    rewrite (proj2 (Z.eqb_neq i 4)), (small_bits 3 index i) by lia. by rewrite !orb_false_r.
Qed.

Lemma region_bits r : 0 <= r < 8 -> Z.land r MPU_RBAR_REGION_Msk = r /\ Z.land r 255 = r.
Proof. intros Hr. split; [change MPU_RBAR_REGION_Msk with (Z.ones 4)|change 255 with (Z.ones 8)]; rewrite Z.land_ones, Z.mod_small; lia. Qed.

(** The base in a base register. *)
Lemma rbar_base base index : 0 <= index < 8 ->
  Z.land (Z.lor (Z.land base MPU_RBAR_ADDR_Msk) index) MPU_RBAR_ADDR_Msk = Z.land base MPU_RBAR_ADDR_Msk.
Proof.
  intros Hi. apply Z.bits_inj'. intros i Hi0. rewrite !addr_bits, Z.lor_spec, addr_bits by done. destruct (Z.leb_spec 5 i), (Z.ltb_spec i 32); try done. cbn [andb].
  rewrite (small_bits 3 index i) by lia. apply orb_false_r.
Qed.

Lemma addr_aligned base : 0 <= base < 2 ^ 32 -> base mod 32 = 0 -> Z.land base MPU_RBAR_ADDR_Msk = base.
Proof.
  intros Hb Hm. apply Z.bits_inj'. intros i Hi. rewrite addr_bits by done. destruct (Z.leb_spec 5 i), (Z.ltb_spec i 32); try done; cbn [andb]; symmetry.
  - apply (small_bits 32); lia.
  - rewrite <-(Z.mod_pow2_bits_low base 5 i) by lia. change (2 ^ 5) with 32. by rewrite Hm, Z.bits_0.
  - apply (small_bits 32); lia.
Qed.

Lemma field_size_eq x : field_size x = x / 2 mod 32.
Proof.
  unfold field_size, MPU_RASR_SIZE_Msk, MPU_RASR_SIZE_Pos. rewrite Z.shiftr_land. change (Z.shiftr (Z.shiftl 31 1) 1) with (Z.ones 5).
  rewrite Z.land_ones, Z.shiftr_div_pow2 by lia. done.
Qed.

Lemma field_ap_eq x : field_ap x = x / 2 ^ 24 mod 8.
Proof.
  unfold field_ap, MPU_RASR_AP_Msk, MPU_RASR_AP_Pos. rewrite Z.shiftr_land. change (Z.shiftr (Z.shiftl 7 24) 24) with (Z.ones 3).
  rewrite Z.land_ones, Z.shiftr_div_pow2 by lia. done.
Qed.

Lemma enabled_eq r : enabled r = negb (r.2 mod 2 =? 0).
Proof. unfold enabled, MPU_RASR_ENABLE_Msk. change 1 with (Z.ones 1). by rewrite Z.land_ones by lia. Qed.

(** ** Region sizes *)

(** The logarithm of the bytes of the region that is programmed for a size. *)
Definition region_log (size : Z) : Z := if size <=? 32 then 5 else Z.log2 (size - 1) + 1.

Lemma region_log_bound size : 0 < size <= 2 ^ 31 -> 5 <= region_log size <= 31 /\ size <= 2 ^ region_log size /\ (32 < size -> 2 ^ region_log size < 2 * size).
Proof.
  intros Hs. unfold region_log. destruct (Z.leb_spec size 32) as [Hle|Hgt]; [change (2 ^ 5) with 32; lia|].
  pose proof (Z.log2_spec (size - 1) ltac:(lia)) as [H1 H2]. replace (Z.succ (Z.log2 (size - 1))) with (Z.log2 (size - 1) + 1) in H2 by lia.
  assert (5 <= Z.log2 (size - 1)) by (apply Z.log2_le_pow2; lia). assert (Z.log2 (size - 1) < 31) by (apply Z.log2_lt_pow2; lia).
  split; [lia|]. split; [lia|]. intros _. rewrite Z.pow_add_r by lia. change (2 ^ 1) with 2. lia.
Qed.

Lemma size_code size : 0 < size <= 2 ^ 31 -> size_to_mpu_rasr_size size = 2 * (region_log size - 1).
Proof.
  intros Hs. pose proof (region_log_bound size Hs) as (Hb & _). unfold size_to_mpu_rasr_size, region_log in *. destruct (Z.leb_spec size 32) as [Hle|Hgt]; [done|].
  rewrite (proj2 (Z.ltb_ge (2 ^ 31) size)) by lia. unfold clz. replace (32 - (31 - Z.log2 (size - 1)) - 2 + 1) with (Z.log2 (size - 1)) by lia.
  unfold MPU_RASR_SIZE_Pos, MPU_RASR_SIZE_Msk. rewrite <-Z.shiftl_land. change 31 with (Z.ones 5). rewrite Z.land_ones, Z.mod_small, Z.shiftl_mul_pow2 by (change (2 ^ 5) with 32; lia). change (2 ^ 1) with 2. lia.
Qed.

(** The test of [mpu_partition_is_valid] is that for powers of two. *)
Lemma power_of_two s : 0 < s -> Z.land s (s - 1) = 0 -> s = 2 ^ Z.log2 s.
Proof.
  intros Hs Hl. pose proof (Z.log2_spec s Hs) as [H1 H2]. destruct (Z.eq_dec s (2 ^ Z.log2 s)) as [|Hne]; [done|]. exfalso.
  assert (E : Z.log2 (s - 1) = Z.log2 s) by (apply Z.log2_unique; [apply Z.log2_nonneg|lia]).
  assert (Z.testbit (Z.land s (s - 1)) (Z.log2 s) = true) as Hb; [|by rewrite Hl, Z.bits_0 in Hb].
  rewrite Z.land_spec, Z.bit_log2 by done. rewrite <-E, Z.bit_log2; [done|]. destruct (Z.eq_dec s 1) as [->|]; [done|lia].
Qed.

(** A partition the driver can program exactly: its size a power of two of at least 32 bytes, its
    start a multiple of the size, its attribute free of the size and enable bits. *)
Record good (p : partition) : Prop := {
  g_valid : mpu_partition_is_valid p = true;
  g_size : p_size p <= 2 ^ 31;
  g_start : 0 <= p_start p < 2 ^ 32;
  g_attr : 0 <= p_attr p < 2 ^ 32 /\ p_attr p mod 64 = 0;
}.

Lemma good_size p : good p -> exists k, 5 <= k <= 31 /\ p_size p = 2 ^ k /\ p_start p mod 2 ^ k = 0 /\ region_log (p_size p) = k.
Proof.
  intros [Hv Hs Hst _]. unfold mpu_partition_is_valid, CONFIG_ARM_MPU_REGION_MIN_ALIGN_AND_SIZE in Hv. zbool. change (2 ^ 31) with 2147483648 in Hs. rewrite u32_small in * by lia.
  assert (Ep : p_size p = 2 ^ Z.log2 (p_size p)) by (apply power_of_two; [lia|done]). set (k := Z.log2 (p_size p)) in *. exists k.
  assert (5 <= k) by (apply Z.log2_le_pow2; lia). assert (k <= 31) by (apply (Z.log2_le_mono _ (2 ^ 31)); lia). split; [lia|]. split; [done|]. split.
  - match goal with E : Z.land (p_start p) _ = 0 |- _ => rewrite Ep in E; replace (2 ^ k - 1) with (Z.ones k) in E by (rewrite Z.ones_equiv; lia); rewrite Z.land_ones in E by lia; done end.
  - unfold region_log. destruct (Z.leb_spec (p_size p) 32) as [Hle|Hgt].
    + assert (Hle5 : 2 ^ k <= 2 ^ 5) by (rewrite <-Ep; done). apply Z.pow_le_mono_r_iff in Hle5; lia.
    + assert (Z.log2 (p_size p - 1) = k - 1); [|lia]. apply Z.log2_unique; [lia|]. rewrite Ep. replace (Z.succ (k - 1)) with k by lia.
      assert (2 ^ k = 2 * 2 ^ (k - 1)) by (rewrite <-Z.pow_succ_r by lia; f_equal; lia). assert (0 < 2 ^ (k - 1)) by (apply Z.pow_pos_nonneg; lia). lia.
Qed.

(** ** Programmed regions *)

(** The registers of region [index] programmed for a partition. *)
Definition prog (index : Z) (p : partition) : Z * Z :=
  (Z.lor (Z.land (p_start p) MPU_RBAR_ADDR_Msk) index, Z.lor (Z.lor (p_attr p) (size_to_mpu_rasr_size (p_size p))) MPU_RASR_ENABLE_Msk).

Definition in_part (a : Z) (p : partition) : bool := (p_start p <=? a) && (a <? p_start p + p_size p).

Lemma prog_rasr index p : good p -> exists k, 5 <= k <= 31 /\ p_size p = 2 ^ k /\ p_start p mod 2 ^ k = 0 /\ (prog index p).2 = p_attr p + 2 * (k - 1) + 1.
Proof.
  intros Hg. destruct (good_size p Hg) as (k & Hk & Es & Em & Er). exists k. split; [done|]. split; [done|]. split; [done|]. destruct (g_attr p Hg) as [Ha Hm].
  assert (Hp : 2 ^ k <= 2 ^ 31) by (apply Z.pow_le_mono_r; lia). assert (0 < 2 ^ k) by (apply Z.pow_pos_nonneg; lia).
  unfold prog. cbn [snd]. rewrite size_code, Er by lia. pose proof (Z.div_mod (p_attr p) 64 ltac:(lia)) as Ed. rewrite Hm in Ed.
  replace (p_attr p) with (p_attr p / 64 * 2 ^ 6) at 1 by lia. rewrite Z.lor_comm, (Z.lor_comm _ (2 * (k - 1))), lor_add by lia.
  replace (2 * (k - 1) + p_attr p / 64 * 2 ^ 6) with ((k - 1 + p_attr p / 64 * 2 ^ 5) * 2 ^ 1) by lia. unfold MPU_RASR_ENABLE_Msk. rewrite lor_add by lia. lia.
Qed.

Lemma prog_fields index p : 0 <= index < 8 -> good p ->
  enabled (prog index p) = true /\ field_ap (prog index p).2 = field_ap (p_attr p) /\
  exists k, 5 <= k <= 31 /\ p_size p = 2 ^ k /\ p_start p mod 2 ^ k = 0 /\ field_size (prog index p).2 = k - 1 /\ Z.land (prog index p).1 MPU_RBAR_ADDR_Msk = p_start p.
Proof.
  intros Hi Hg. destruct (prog_rasr index p Hg) as (k & Hk & Es & Em & Er). destruct (g_attr p Hg) as [Ha Hm]. pose proof (Z.div_mod (p_attr p) 64 ltac:(lia)) as Ed.
  rewrite enabled_eq, field_ap_eq, (field_ap_eq (p_attr p)), Er. split; [|split].
  - apply negb_true_iff, Z.eqb_neq. word_lia.
  - f_equal. change (2 ^ 24) with 16777216. word_lia.
  - exists k. split; [done|]. split; [done|]. split; [done|]. split; [rewrite field_size_eq; rewrite ?Er; word_lia|].
    cbn [prog fst]. rewrite rbar_base by done. apply addr_aligned; [apply (g_start p Hg)|].
    assert (E : 2 ^ k = 32 * 2 ^ (k - 5)) by (change 32 with (2 ^ 5); rewrite <-Z.pow_add_r by lia; f_equal; lia). rewrite E in Em.
    assert (0 < 2 ^ (k - 5)) by (apply Z.pow_pos_nonneg; lia). apply Z.mod_divide; [lia|]. apply Z.mod_divide in Em; [|lia]. destruct Em as [q Eq]. exists (q * 2 ^ (k - 5)). lia.
Qed.

(** An aligned block as the hardware compares addresses. *)
Lemma aligned_block a b k : 0 <= k -> b mod 2 ^ k = 0 -> (Z.shiftr a k =? Z.shiftr b k) = (b <=? a) && (a <? b + 2 ^ k).
Proof.
  intros Hk Hm. rewrite !Z.shiftr_div_pow2 by done. assert (Hp : 0 < 2 ^ k) by (apply Z.pow_pos_nonneg; lia). set (n := 2 ^ k) in *. clearbody n.
  pose proof (Z.div_mod b n ltac:(lia)). pose proof (Z.div_mod a n ltac:(lia)). pose proof (Z.mod_pos_bound a n ltac:(lia)).
  destruct (Z.eqb_spec (a / n) (b / n)) as [E|E]; symmetry.
  - rewrite andb_true_iff, Z.leb_le, Z.ltb_lt. nia.
  - apply andb_false_iff. rewrite Z.leb_gt, Z.ltb_ge. destruct (Z.lt_ge_cases (a / n) (b / n)); [left|right]; nia.
Qed.

Lemma prog_covers index p a : 0 <= index < 8 -> good p -> covers a (prog index p) = in_part a p.
Proof.
  intros Hi Hg. destruct (prog_fields index p Hi Hg) as (He & _ & k & Hk & Es & Em & Ef & Eb). unfold covers, in_part. rewrite He, Ef, Eb, Es. cbn [andb].
  replace (k - 1 + 1) with k by lia. apply aligned_block; [lia|done].
Qed.

(** ** Effects *)

Lemma middle_lookup {A} (pre : list A) x old i : Z.of_nat (length pre) = i -> (pre ++ x :: old) !! Z.to_nat i = Some x.
Proof. intros <-. rewrite Nat2Z.id. by apply list_lookup_middle. Qed.

Lemma middle_insert {A} (pre : list A) x y old i : Z.of_nat (length pre) = i -> <[Z.to_nat i := y]> (pre ++ x :: old) = pre ++ y :: old.
Proof. intros <-. rewrite Nat2Z.id. induction pre as [|z pre IH]; [done|]. cbn. by f_equal. Qed.

(** What stays when regions are programmed. *)
Definition same_driver (m m' : mpu) : Prop := static_regions_num m' = static_regions_num m /\ mpu_ctrl m' = mpu_ctrl m.

Lemma same_driver_trans m m' m'' : same_driver m m' -> same_driver m' m'' -> same_driver m m''.
Proof. unfold same_driver. intuition congruence. Qed.

Section Effects.
Context (pre : list (Z * Z)) (r : Z * Z) (old : list (Z * Z)) (i : Z) (m : mpu).
Context (Hregs : mpu_regs m = pre ++ r :: old) (Hi : Z.of_nat (length pre) = i) (H8 : i < 8).

Lemma wp_region_init base rasr (Q : unit -> mpu -> Prop) :
  (forall m', mpu_regs m' = pre ++ (Z.lor (Z.land base MPU_RBAR_ADDR_Msk) i, Z.lor rasr MPU_RASR_ENABLE_Msk) :: old -> same_driver m m' -> Q tt m') -> wp (region_init i base rasr) Q m.
Proof.
  intros HQ. assert (H0 : 0 <= i < 8) by lia. destruct (rbar_word base i H0) as (E4 & Er & Ea). destruct (region_bits i H0) as [E15 E255].
  unfold region_init, wr_RNR, wr_RBAR, wr_RASR, region_at. rewrite E4, Er, Ea, E255. wp_steps. cbn [mpu_rnr with_mpu_rnr].
  eapply wp_ofopt; [cbn [mpu_regs with_mpu_rnr]; rewrite Hregs; by apply middle_lookup|]. wp_steps. cbn [mpu_rnr with_mpu_rnr with_mpu_regs].
  eapply wp_ofopt; [cbn [mpu_regs with_mpu_rnr with_mpu_regs]; rewrite Hregs, middle_insert by done; by apply middle_lookup|]. wp_steps.
  apply HQ; [|done]. cbn [mpu_regs with_mpu_rnr with_mpu_regs mpu_rnr fst]. rewrite Hregs, !middle_insert by done. by rewrite E15.
Qed.

(** Reading the registers only moves the region number. *)
Definition reads (m' : mpu) : Prop := mpu_regs m' = mpu_regs m /\ same_driver m m'.

Lemma wp_select (Q : unit -> mpu -> Prop) : Q tt (with_mpu_rnr i m) -> wp (wr_RNR i) Q m.
Proof. intros HQ. unfold wr_RNR. rewrite (proj2 (region_bits i ltac:(lia))). done. Qed.

Lemma wp_rd_RASR (Q : Z -> mpu -> Prop) : Q r.2 (with_mpu_rnr i m) -> wp rd_RASR Q (with_mpu_rnr i m).
Proof. intros HQ. unfold rd_RASR, region_at. wp_steps. eapply wp_ofopt; [cbn [mpu_regs with_mpu_rnr mpu_rnr]; rewrite Hregs; by apply middle_lookup|]. done. Qed.

Lemma wp_rd_RBAR (Q : Z -> mpu -> Prop) : Q r.1 (with_mpu_rnr i m) -> wp rd_RBAR Q (with_mpu_rnr i m).
Proof. intros HQ. unfold rd_RBAR, region_at. wp_steps. eapply wp_ofopt; [cbn [mpu_regs with_mpu_rnr mpu_rnr]; rewrite Hregs; by apply middle_lookup|]. done. Qed.

Lemma wp_is_enabled (Q : bool -> mpu -> Prop) : Q (enabled r) (with_mpu_rnr i m) -> wp (is_enabled_region i) Q m.
Proof. intros HQ. unfold is_enabled_region. apply wp_bind, wp_select. apply wp_bind, wp_rd_RASR. by apply wp_ret. Qed.

Lemma wp_get_base (Q : Z -> mpu -> Prop) : Q (Z.land r.1 MPU_RBAR_ADDR_Msk) (with_mpu_rnr i m) -> wp (mpu_region_get_base i) Q m.
Proof. intros HQ. unfold mpu_region_get_base. apply wp_bind, wp_select. apply wp_bind, wp_rd_RBAR. by apply wp_ret. Qed.

Lemma wp_get_size (Q : Z -> mpu -> Prop) : Q (u32 (2 ^ (field_size r.2 + 1))) (with_mpu_rnr i m) -> wp (mpu_region_get_size i) Q m.
Proof.
  intros HQ. unfold mpu_region_get_size. apply wp_bind, wp_select. apply wp_bind, wp_rd_RASR. apply wp_ret. unfold mpu_rasr_size_to_size. by rewrite Z.shiftl_1_l.
Qed.

Lemma wp_clear (Q : unit -> mpu -> Prop) :
  (forall m', mpu_regs m' = pre ++ (r.1, 0) :: old -> same_driver m m' -> Q tt m') -> wp (ARM_MPU_ClrRegion i) Q m.
Proof.
  intros HQ. unfold ARM_MPU_ClrRegion, wr_RASR, region_at. apply wp_bind, wp_select. wp_steps. eapply wp_ofopt; [cbn [mpu_regs with_mpu_rnr mpu_rnr]; rewrite Hregs; by apply middle_lookup|]. wp_steps.
  apply HQ; [|done]. cbn [mpu_regs with_mpu_rnr with_mpu_regs mpu_rnr fst]. by rewrite Hregs, middle_insert.
Qed.

Lemma wp_configure_region p (Q : Z -> mpu -> Prop) :
  (forall m', mpu_regs m' = pre ++ prog i p :: old -> same_driver m m' -> Q i m') -> wp (arm_core_mpu_configure_region i p) Q m.
Proof.
  intros HQ. unfold arm_core_mpu_configure_region, region_allocate_and_init, get_num_regions. rewrite (proj2 (Z.ltb_ge _ _)) by lia.
  apply wp_bind, wp_region_init. intros m' E Hd. apply wp_ret. by apply HQ.
Qed.

End Effects.

(** ** Sequences of regions *)

Fixpoint progs (i : Z) (ps : list partition) : list (Z * Z) := match ps with [] => [] | p :: ps => prog i p :: progs (i + 1) ps end.

Definition present (p : partition) : bool := negb (p_size p =? 0).
Definition nonempty (ps : list partition) : list partition := List.filter present ps.

Lemma length_progs ps : forall i, length (progs i ps) = length ps.
Proof. induction ps; intros i; cbn; auto. Qed.

(** The regions are programmed in order; those that find no room are left out. *)
Lemma wp_configure_regions check ps : forall pre old i (Q : Z -> mpu -> Prop) m,
  mpu_regs m = pre ++ old -> length (mpu_regs m) = 8%nat -> Z.of_nat (length pre) = i -> (check = true -> Forall (fun p => mpu_partition_is_valid p = true) (nonempty ps)) ->
  (forall m', mpu_regs m' = pre ++ progs i (take (length old) (nonempty ps)) ++ drop (length (nonempty ps)) old -> same_driver m m' ->
     Q (if Z.of_nat (length (nonempty ps)) <=? 8 - i then i + Z.of_nat (length (nonempty ps)) else - EINVAL) m') ->
  wp (arm_core_mpu_configure_regions ps i check) Q m.
Proof.
  induction ps as [|p ps IH]; intros pre old i Q m Hregs H8 Hi Hv HQ; cbn [arm_core_mpu_configure_regions nonempty List.filter] in *.
  - rewrite Hregs, length_app in H8. cbn [length] in HQ. rewrite Z.add_0_r, (proj2 (Z.leb_le _ _)) in HQ by lia. apply wp_ret, HQ; [|done]. by rewrite Hregs, take_nil.
  - fold (nonempty ps) in *. unfold present in *. destruct (Z.eqb_spec (p_size p) 0) as [E0|E0]; cbn [negb] in *; [by eapply IH|]. assert (Hc : check && negb (mpu_partition_is_valid p) = false).
    { destruct check; [|done]. specialize (Hv eq_refl). apply Forall_cons in Hv as [-> _]. done. }
    rewrite Hc. rewrite Hregs, length_app in H8. rewrite u8_small by lia. destruct old as [|r old]; cbn [length take drop] in *.
    + rewrite Nat.add_0_r in H8. apply wp_bind. unfold arm_core_mpu_configure_region, region_allocate_and_init, get_num_regions. rewrite (proj2 (Z.ltb_lt _ _)) by lia. apply wp_ret. cbn.
      apply wp_ret. rewrite (proj2 (Z.leb_gt _ _)) in HQ by lia. apply HQ; [|done]. by rewrite app_nil_r in Hregs |- *.
    + apply wp_bind. eapply wp_configure_region; [exact Hregs|done|lia|]. intros m' E Hd. rewrite (proj2 (Z.eqb_neq i (- EINVAL))) by (unfold EINVAL; lia).
      apply (IH (pre ++ [prog i p]) old); [by rewrite E, <-app_assoc|rewrite E, length_app; cbn; lia|rewrite length_app; cbn; lia|intros Ht; specialize (Hv Ht); by apply Forall_cons in Hv as [_ Hv]|].
      intros m'' E' Hd'. replace (Z.of_nat (length (nonempty ps)) <=? 8 - (i + 1)) with (Z.of_nat (S (length (nonempty ps))) <=? 8 - i) by (apply eq_true_iff_eq; rewrite !Z.leb_le; lia).
      replace (i + 1 + Z.of_nat (length (nonempty ps))) with (i + Z.of_nat (S (length (nonempty ps)))) by lia. apply HQ; [|by eapply same_driver_trans].
      rewrite E', <-app_assoc. done.
Qed.

Definition cleared (r : Z * Z) : Z * Z := (r.1, 0).

Lemma wp_clear_regions old : forall pre i (Q : unit -> mpu -> Prop) m,
  mpu_regs m = pre ++ old -> Z.of_nat (length pre) = i -> i + Z.of_nat (length old) = 8 ->
  (forall m', mpu_regs m' = pre ++ map cleared old -> same_driver m m' -> Q tt m') -> wp (clear_regions (length old) i) Q m.
Proof.
  induction old as [|r old IH]; intros pre i Q m Hregs Hi H8 HQ; cbn [clear_regions length map] in *; [by apply wp_skip, HQ|].
  apply wp_bind. eapply wp_clear; [exact Hregs|done|lia|]. intros m' E Hd. apply (IH (pre ++ [cleared r])); [by rewrite E, <-app_assoc|rewrite length_app; cbn; lia|lia|].
  intros m'' E' Hd'. apply HQ; [by rewrite E', <-app_assoc|by eapply same_driver_trans].
Qed.

(** ** Access through a sequence of regions *)

Fixpoint grants (write : bool) (a : Z) (ps : list partition) (below : bool) : bool :=
  match ps with [] => below | p :: ps => grants write a ps (if in_part a p then ap_allows write (field_ap (p_attr p)) else below) end.

Lemma grants_app write a l : forall l' b, grants write a (l ++ l') b = grants write a l' (grants write a l b).
Proof. induction l as [|x l IH]; intros l' b; cbn; [done|apply IH]. Qed.

Lemma decide_access_app write a l1 : forall l2 below, decide_access write a (l1 ++ l2) below = decide_access write a l2 (decide_access write a l1 below).
Proof. induction l1 as [|r l1 IH]; intros l2 below; cbn; [done|apply IH]. Qed.

Lemma decide_access_progs write a ps : forall i below, 0 <= i -> i + Z.of_nat (length ps) <= 8 -> Forall good ps -> decide_access write a (progs i ps) below = grants write a ps below.
Proof.
  induction ps as [|p ps IH]; intros i below Hi H8 Hg; [done|]. apply Forall_cons in Hg as [Hp Hg]. cbn [progs decide_access grants length] in *.
  rewrite prog_covers by (done || lia). rewrite (proj1 (proj2 (prog_fields i p ltac:(lia) Hp))). apply IH; [lia|lia|done].
Qed.

Lemma decide_access_off write a l below : Forall (fun r => enabled r = false) l -> decide_access write a l below = below.
Proof. induction 1 as [|r l Hr _ IH]; [done|]. cbn [decide_access]. unfold covers. by rewrite Hr. Qed.

Lemma cleared_off l : Forall (fun r => enabled r = false) (map cleared l).
Proof. induction l; constructor; done. Qed.

(** The state after programming: fixed regions, then those of a list of partitions, the others
    disabled. *)
Record programmed (fixed : list (Z * Z)) (ps : list partition) (m : mpu) : Prop := {
  pg_regs : exists rest, mpu_regs m = fixed ++ progs (Z.of_nat (length fixed)) ps ++ rest /\ Forall (fun r => enabled r = false) rest;
  pg_len : length (mpu_regs m) = 8%nat;
  pg_static : static_regions_num m = Z.of_nat (length fixed);
  pg_good : Forall good ps;
}.

Lemma programmed_access fixed ps m write a : programmed fixed ps m -> user_access write a m = grants write a ps (decide_access write a fixed false).
Proof.
  intros [(rest & E & Hoff) H8 _ Hg]. unfold user_access. rewrite E in *. rewrite !length_app, length_progs in H8. rewrite !decide_access_app, (decide_access_off _ _ rest) by done.
  apply decide_access_progs; [lia|lia|done].
Qed.

Lemma wp_mpu_configure_dynamic ps fixed (Q : Z -> mpu -> Prop) m :
  fixed = take (length fixed) (mpu_regs m) -> static_regions_num m = Z.of_nat (length fixed) -> length (mpu_regs m) = 8%nat -> Forall good (nonempty ps) ->
  (forall m', programmed fixed (take (8 - length fixed) (nonempty ps)) m' -> same_driver m m' ->
     Q (if Z.of_nat (length fixed + length (nonempty ps)) <=? 8 then Z.of_nat (length fixed + length (nonempty ps)) else - EINVAL) m') ->
  wp (mpu_configure_dynamic_mpu_regions ps) Q m.
Proof.
  intros Hf Hs H8 Hg HQ. unfold mpu_configure_dynamic_mpu_regions. apply wp_bind, wp_gets. rewrite Hs. set (n := length fixed) in *. set (qs := nonempty ps) in *.
  assert (Hn : (n <= 8)%nat) by (subst n; rewrite Hf, length_take; lia). assert (Eo : length (drop n (mpu_regs m)) = (8 - n)%nat) by (rewrite length_drop; lia).
  apply wp_bind. eapply (wp_configure_regions false ps fixed (drop n (mpu_regs m))); [rewrite Hf at 1; symmetry; apply take_drop|done|done|discriminate|]. fold qs. intros m1 E1 Hd1. rewrite Eo in E1.
  assert (Hq : Forall good (take (8 - n) qs)) by (by apply Forall_take). assert (L1 : length (mpu_regs m1) = 8%nat).
  { rewrite E1, !length_app, length_progs, length_take, !length_drop. fold n. lia. }
  replace (Z.of_nat (length qs) <=? 8 - Z.of_nat n) with (Z.of_nat (n + length qs) <=? 8) by (apply eq_true_iff_eq; rewrite !Z.leb_le; lia).
  destruct (Z.leb_spec (Z.of_nat (n + length qs)) 8) as [Hle|Hgt].
  - rewrite (proj2 (Z.eqb_neq _ (- EINVAL))) by (unfold EINVAL; lia). cbn [negb]. set (old := drop (length qs) (drop n (mpu_regs m))) in *.
    assert (Lo : length old = Z.to_nat (get_num_regions - (Z.of_nat n + Z.of_nat (length qs)))) by (subst old; rewrite !length_drop; unfold get_num_regions; lia).
    rewrite <-Lo. apply wp_bind. rewrite app_assoc in E1. eapply wp_clear_regions; [exact E1|rewrite length_app, length_progs, length_take; fold n; lia|rewrite Lo; unfold get_num_regions; lia|].
    intros m2 E2 Hd2. apply wp_ret. replace (Z.of_nat n + Z.of_nat (length qs)) with (Z.of_nat (n + length qs)) by lia. apply HQ; [|by eapply same_driver_trans]. constructor.
    + exists (map cleared old). split; [by rewrite E2, <-app_assoc|apply cleared_off].
    + rewrite E2, !length_app, length_progs, length_take, length_map, Lo. fold n. unfold get_num_regions. lia.
    + destruct Hd2 as [-> _], Hd1 as [-> _]. done.
    + done.
  - cbn [Z.eqb negb]. replace (- EINVAL =? - EINVAL) with true by done. cbn [negb]. apply wp_bind, wp_skip, wp_ret. apply HQ; [|done]. constructor; [|done|by destruct Hd1 as [-> _]|done].
    exists []. split; [|constructor]. rewrite E1. do 2 f_equal. apply drop_ge. lia.
Qed.
