(* ===== verification/MpuTheorems.v ===== *)
(** * Memory protection: theorems

    What the driver of [Mpu] makes the hardware allow: the exact access of unprivileged
    code after a switch of the dynamic regions and after the update of one partition, the
    sizes of programmed regions, and the validation of user buffers against the same
    regions. *)

From Stdlib Require Import ZArith Lia Bool List.
From stdpp Require Import base tactics numbers list.
From S2P Require Import Prelude Mpu.

Local Open Scope Z_scope.

(** ** Switching the dynamic regions *)

(** Lemma: after [mpu_configure_dynamic_mpu_regions], whatever was programmed before, unprivileged code
    may access an address exactly as the last partition of the list that contains it says,
    and as the fixed regions say where none does.  When the list is too long for the eight
    regions the call reports [-EINVAL] and the partitions that found room decide. *)
Theorem mpu_switch_exact m ps :
  let n := Z.to_nat (static_regions_num m) in let fixed := take n (mpu_regs m) in let qs := nonempty ps in
  0 <= static_regions_num m <= 8 -> length (mpu_regs m) = 8%nat -> Forall good qs ->
  exists m', mpu_configure_dynamic_mpu_regions ps m = Done (if Z.of_nat (n + length qs) <=? 8 then Z.of_nat (n + length qs) else - EINVAL) m' /\
    static_regions_num m' = static_regions_num m /\ take n (mpu_regs m') = fixed /\
    forall write a, user_access write a m' = grants write a (take (8 - n) qs) (decide_access write a fixed false).
Proof.
  intros n fixed qs Hs H8 Hg. assert (Hn : length fixed = n) by (subst fixed; rewrite length_take; lia).
  assert (Hw : wp (mpu_configure_dynamic_mpu_regions ps) (fun r m' => r = (if Z.of_nat (n + length qs) <=? 8 then Z.of_nat (n + length qs) else - EINVAL) /\
    programmed fixed (take (8 - n) qs) m' /\ same_driver m m') m).
  { apply (wp_mpu_configure_dynamic ps fixed); [by rewrite Hn|rewrite Hn; subst n; lia|done|done|]. fold qs. rewrite Hn. intros m' Hp Hd. done. }
  apply wp_run in Hw as (r & m' & E & -> & Hp & Hd & _). exists m'. split; [done|]. split; [done|]. split.
  - destruct (pg_regs _ _ _ Hp) as (rest & E' & _). rewrite E', <-Hn. by rewrite take_app_length.
  - intros write a. by apply programmed_access.
Qed.

(** The registers after the fixed regions of a board with 2 MB of flash and 192 KB of RAM. *)
Definition board_regions : list arm_mpu_region := default [] (mpu_regions 134217728 2048 536870912 192).
Definition raw_mpu : mpu := mk_mpu 0 0 (replicate 8 (0, 0)) 0.
Definition board_mpu : mpu := match init_arm_mpu_module board_regions raw_mpu with Done _ m => m | Fail _ => raw_mpu end.

(** A page of 4 KB at the start of the application RAM with a stack behind it. *)
Definition user_page : partition := mk_partition 536903680 4096 MEM_PARTITION_P_RW_U_RW.
Definition user_stack : partition := mk_partition 536907776 1024 MEM_PARTITION_P_RW_U_RW.

Lemma good_of_check p : mpu_partition_is_valid p && (p_size p <=? 2 ^ 31) && (0 <=? p_start p) && (p_start p <? 2 ^ 32) && (0 <=? p_attr p) && (p_attr p <? 2 ^ 32) && (p_attr p mod 64 =? 0) = true -> good p.
Proof. intros Hb. zbool. constructor; [done|done|done|done]. Qed.

Lemma mpu_switch_exact_witness :
  exists m', mpu_configure_dynamic_mpu_regions [user_page; user_stack] board_mpu = Done 4 m' /\
    static_regions_num m' = 2 /\ take 2 (mpu_regs m') = take 2 (mpu_regs board_mpu) /\
    forall write a, user_access write a m' = grants write a [user_page; user_stack] (decide_access write a (take 2 (mpu_regs board_mpu)) false).
Proof. apply (mpu_switch_exact board_mpu [user_page; user_stack]); [by vm_compute|done|repeat constructor; by apply good_of_check]. Defined.

(** ** Updating one partition *)

Lemma progs_split i l1 p l2 : progs i (l1 ++ p :: l2) = progs i l1 ++ prog (i + Z.of_nat (length l1)) p :: progs (i + Z.of_nat (length l1) + 1) l2.
Proof.
  revert i. induction l1 as [|q l1 IH]; intros i; cbn [app progs length]; [by rewrite Z.add_0_r|]. rewrite IH. replace (i + 1 + Z.of_nat (length l1)) with (i + Z.of_nat (S (length l1))) by lia. done.
Qed.

Definition same_range (p q : partition) : bool := (p_start q =? p_start p) && (p_size q =? p_size p).

Section Update.
Context `{Config}.

(** The region found for a partition is the first one with its range. *)
Lemma wp_find_region p : forall l1 l2 q pre fuel i (Q : Z -> mpu -> Prop) m,
  mpu_regs m = pre ++ progs i (l1 ++ q :: l2) ++ drop (length pre + length (l1 ++ q :: l2)) (mpu_regs m) -> Z.of_nat (length pre) = i -> length (mpu_regs m) = 8%nat ->
  Forall good l1 -> good q -> Forall (fun x => same_range p x = false) l1 -> same_range p q = true -> (length l1 < fuel)%nat ->
  (forall m', mpu_regs m' = mpu_regs m -> same_driver m m' -> Q (i + Z.of_nat (length l1)) m') -> wp (find_region fuel i p) Q m.
Proof.
  induction l1 as [|x l1 IH]; intros l2 q pre [|fuel] i Q m Er Hi H8 Hg Hq Hno Hyes Hf HQ; try (cbn in Hf; lia); cbn [app progs find_region length] in *.
  - assert (H8' : i < 8) by (rewrite Er, !length_app in H8; cbn in H8; lia). destruct (prog_fields i q ltac:(lia) Hq) as (He & _ & k & Hk & Es & _ & Ef & Eb).
    unfold same_range in Hyes. zbool. assert (Hp : 2 ^ k <= 2 ^ 31) by (apply Z.pow_le_mono_r; lia). assert (0 < 2 ^ k) by (apply Z.pow_pos_nonneg; lia).
    apply wp_bind. eapply wp_is_enabled; [exact Er|done|done|]. rewrite He. cbn [negb]. apply wp_bind. eapply wp_get_base; [exact Er|done|done|]. rewrite Eb, (proj2 (Z.eqb_eq _ _)) by done. cbn [negb].
    apply wp_bind. eapply wp_get_size; [exact Er|done|done|]. rewrite Ef. replace (k - 1 + 1) with k by lia. rewrite u32_small, <-Es, (proj2 (Z.eqb_eq _ _)) by (done || lia). cbn [negb]. apply wp_ret.
    rewrite Z.add_0_r in HQ. by apply HQ.
  - assert (H8' : i < 8) by (rewrite Er, !length_app in H8; cbn in H8; lia). apply Forall_cons in Hg as [Hx Hg], Hno as [Hnx Hno]. destruct (prog_fields i x ltac:(lia) Hx) as (He & _ & k & Hk & Es & _ & Ef & Eb).
    assert (Hp : 2 ^ k <= 2 ^ 31) by (apply Z.pow_le_mono_r; lia). assert (0 < 2 ^ k) by (apply Z.pow_pos_nonneg; lia).
    assert (Hgo : forall m', mpu_regs m' = mpu_regs m -> same_driver m m' -> wp (find_region fuel (i + 1) p) Q m').
    { intros m' E' Hd'. apply (IH l2 q (pre ++ [prog i x])); [|rewrite length_app; cbn; lia|by rewrite E'|done|done|done|done|lia|].
      - replace (length (pre ++ [prog i x]) + length (l1 ++ q :: l2))%nat with (length pre + S (length (l1 ++ q :: l2)))%nat by (rewrite (length_app pre [prog i x]); cbn [length]; lia). by rewrite E', <-app_assoc.
      - intros m'' E'' Hd''. replace (i + 1 + Z.of_nat (length l1)) with (i + Z.of_nat (S (length l1))) by lia. apply HQ; [congruence|by eapply same_driver_trans]. }
    apply wp_bind. eapply wp_is_enabled; [exact Er|done|done|]. rewrite He. cbn [negb]. apply wp_bind. eapply wp_get_base; [exact Er|done|done|]. rewrite Eb. unfold same_range in Hnx.
    destruct (Z.eqb_spec (p_start x) (p_start p)) as [E1|E1]; cbn [negb andb] in *; [|by apply Hgo]. apply wp_bind. eapply wp_get_size; [exact Er|done|done|]. rewrite Ef. replace (k - 1 + 1) with k by lia.
    rewrite u32_small, <-Es, Hnx by lia. cbn [negb]. by apply Hgo.
Qed.

Lemma wp_config_update fixed l1 p l2 attr (Q : partition -> mpu -> Prop) m :
  programmed fixed (l1 ++ p :: l2) m -> Forall (fun x => same_range p x = false) l1 -> 0 <= attr < 2 ^ 32 -> attr mod 64 = 0 ->
  (forall m', programmed fixed (l1 ++ mk_partition (p_start p) (p_size p) attr :: l2) m' -> same_driver m m' -> Q (mk_partition (p_start p) (p_size p) attr) m') ->
  wp (arm_core_mpu_mem_partition_config_update p attr) Q m.
Proof.
  intros HP Hno Ha Hm HQ. pose proof HP as [(rest & Er & Hoff) H8 Hs Hg]. set (n := Z.of_nat (length fixed)) in *. pose proof Hg as [Hg1 [Hp Hg2]%Forall_cons]%Forall_app.
  assert (Hlen : (length fixed + (length l1 + S (length l2)) + length rest = 8)%nat) by (rewrite Er, !length_app, length_progs, length_app in H8; cbn in H8; lia).
  unfold arm_core_mpu_mem_partition_config_update, get_dyn_region_min_index. apply wp_bind, wp_gets. rewrite Hs. apply wp_bind.
  assert (Ed : drop (length fixed + length (l1 ++ p :: l2)) (mpu_regs m) = rest).
  { rewrite Er, app_assoc. rewrite drop_app_length'; [done|]. by rewrite (length_app fixed), length_progs. }
  apply (wp_find_region p l1 l2 p fixed); [by rewrite Ed|done|done|done|done|done|unfold same_range; by rewrite !Z.eqb_refl|unfold get_num_regions; lia|].
  intros m1 E1 Hd1. assert (Hlt : n + Z.of_nat (length l1) < 8) by lia. apply wp_bind, wp_assert; [apply negb_true_iff, Z.eqb_neq; unfold get_num_regions; lia|]. set (p' := mk_partition _ _ _).
  rewrite <-E1 in Er. rewrite progs_split, <-app_assoc in Er. cbn [app] in Er. rewrite app_assoc in Er. apply wp_bind.
  eapply wp_configure_region; [exact Er|rewrite length_app, length_progs; lia|done|]. intros m2 E2 Hd2. apply wp_ret. apply HQ; [|by eapply same_driver_trans]. constructor.
  - exists rest. split; [|done]. rewrite E2. fold n. rewrite progs_split, <-!app_assoc. done.
  - rewrite E2, !length_app, length_progs. cbn [length]. rewrite length_app, length_progs. lia.
  - destruct Hd2 as [-> _], Hd1 as [-> _]. done.
  - apply Forall_app; split; [done|]. apply Forall_cons; split; [|done]. destruct Hp as [Hv Hz Hst _]. constructor; done.
Qed.

Lemma in_part_same a attr p : in_part a (mk_partition (p_start p) (p_size p) attr) = in_part a p.
Proof. done. Qed.

(** Lemma: giving an active partition the attribute without user access, as [remove_from_page] and
    [remove_from_page_table] do, ends without a failed assertion, changes the access to the
    addresses of that partition only, and takes away every access to those addresses that no
    partition programmed behind it grants. *)
Theorem mpu_update_revokes m fixed l1 p l2 :
  programmed fixed (l1 ++ p :: l2) m -> Forall (fun x => same_range p x = false) l1 ->
  exists m', arm_core_mpu_mem_partition_config_update p MEM_PARTITION_P_RW_U_NA m = Done (mk_partition (p_start p) (p_size p) MEM_PARTITION_P_RW_U_NA) m' /\
    forall write a, user_access write a m' = if in_part a p then grants write a l2 false else user_access write a m.
Proof.
  intros HP Hno. assert (Hw : wp (arm_core_mpu_mem_partition_config_update p MEM_PARTITION_P_RW_U_NA)
    (fun r m' => r = mk_partition (p_start p) (p_size p) MEM_PARTITION_P_RW_U_NA /\ programmed fixed (l1 ++ mk_partition (p_start p) (p_size p) MEM_PARTITION_P_RW_U_NA :: l2) m') m).
  { by apply (wp_config_update fixed l1 p l2). }
  apply wp_run in Hw as (r & m' & E & -> & HP'). exists m'. split; [done|]. intros write a. rewrite (programmed_access _ _ _ _ _ HP'), (programmed_access _ _ _ _ _ HP).
  rewrite !grants_app. cbn [grants p_attr]. rewrite in_part_same. destruct (in_part a p); [|done].
  replace (ap_allows write (field_ap MEM_PARTITION_P_RW_U_NA)) with false by (by destruct write). done.
Qed.

End Update.

(** The page of a running thread with its stack. *)
Definition running_mpu : mpu := match mpu_configure_dynamic_mpu_regions [user_page; user_stack] board_mpu with Done _ m => m | Fail _ => board_mpu end.

Lemma mpu_update_revokes_witness :
  exists m', @arm_core_mpu_mem_partition_config_update test_config user_page MEM_PARTITION_P_RW_U_NA running_mpu = Done (mk_partition 536903680 4096 MEM_PARTITION_P_RW_U_NA) m' /\
    forall write a, user_access write a m' = if in_part a user_page then grants write a [user_stack] false else user_access write a running_mpu.
Proof.
  apply (@mpu_update_revokes test_config running_mpu (take 2 (mpu_regs board_mpu)) [] user_page [user_stack]); [|constructor]. constructor.
  - exists (drop 4 (mpu_regs running_mpu)). split; [by vm_compute|]. vm_compute. repeat constructor.
  - done.
  - done.
  - repeat constructor; by apply good_of_check.
Defined.

(** ** Region sizes *)

(** Lemma: the region programmed for a size of up to 2 GB is the smallest power of two that is no less than
    the size and than 32 bytes, and the driver reads back that number. *)
Theorem region_size_exact size :
  0 < size <= 2 ^ 31 ->
  let b := mpu_rasr_size_to_size (field_size (size_to_mpu_rasr_size size)) in
  (exists k, 5 <= k <= 31 /\ b = 2 ^ k) /\ size <= b /\ (32 < size -> b < 2 * size) /\ (size <= 32 -> b = 32).
Proof.
  intros Hs b. destruct (region_log_bound size Hs) as (Hk & Hle & Hlt). assert (Eb : b = 2 ^ region_log size).
  { subst b. rewrite size_code by done. rewrite field_size_eq, Z.mul_comm, Z.div_mul by lia. rewrite Z.mod_small by lia. unfold mpu_rasr_size_to_size. rewrite Z.shiftl_1_l.
    replace (region_log size - 1 + 1) with (region_log size) by lia. apply u32_small. split; [apply Z.pow_nonneg; lia|]. apply Z.pow_lt_mono_r; lia. }
  rewrite Eb. split; [by exists (region_log size)|]. split; [done|]. split; [done|]. intros Hsm. unfold region_log. by rewrite (proj2 (Z.leb_le _ _)).
Qed.

Lemma region_size_exact_witness :
  let b := mpu_rasr_size_to_size (field_size (size_to_mpu_rasr_size 3000)) in
  (exists k, 5 <= k <= 31 /\ b = 2 ^ k) /\ 3000 <= b /\ (32 < 3000 -> b < 2 * 3000) /\ (3000 <= 32 -> b = 32).
Proof. apply (region_size_exact 3000). lia. Defined.

(** ** Validating user buffers *)

(** A region the architecture defines: aligned to its size, of 32 bytes to 2 GB. *)
Definition tidy (r : Z * Z) : Prop :=
  enabled r = true -> 4 <= field_size r.2 <= 30 /\ Z.land r.1 MPU_RBAR_ADDR_Msk mod 2 ^ (field_size r.2 + 1) = 0.

(** The region contains the whole buffer, or no byte of it. *)
Definition unbroken (addr len : Z) (r : Z * Z) : Prop :=
  (forall a, addr <= a < addr + len -> covers a r = true) \/ (forall a, addr <= a < addr + len -> covers a r = false).

Lemma rbar_addr_range x : 0 <= Z.land x MPU_RBAR_ADDR_Msk < 2 ^ 32.
Proof. rewrite Z.land_comm. apply land_range; [lia|by vm_compute]. Qed.

Lemma covers_tidy a r : enabled r = true -> tidy r ->
  let b := Z.land r.1 MPU_RBAR_ADDR_Msk in covers a r = (b <=? a) && (a <? b + 2 ^ (field_size r.2 + 1)).
Proof. intros He Ht b. destruct (Ht He) as [Hf Hm]. unfold covers. rewrite He. cbn [andb]. apply aligned_block; [lia|done]. Qed.

Lemma tidy_end r : enabled r = true -> tidy r -> Z.land r.1 MPU_RBAR_ADDR_Msk + 2 ^ (field_size r.2 + 1) <= 2 ^ 32.
Proof.
  intros He Ht. destruct (Ht He) as [Hf Hm]. set (k := field_size r.2 + 1) in *. pose proof (rbar_addr_range r.1) as Hr. set (b := Z.land r.1 MPU_RBAR_ADDR_Msk) in *.
  assert (E : 2 ^ 32 = 2 ^ (32 - k) * 2 ^ k) by (rewrite <-Z.pow_add_r by lia; f_equal; lia). rewrite E in *. assert (0 < 2 ^ k) by (apply Z.pow_pos_nonneg; lia).
  apply Z.mod_divide in Hm as [q Eq]; [|lia]. clearbody b. subst b. assert (q < 2 ^ (32 - k)) by (apply (Z.mul_lt_mono_pos_r (2 ^ k)); lia). clear E. nia.
Qed.

Lemma wp_is_in_region pre r old i start size (Q : bool -> mpu -> Prop) m :
  mpu_regs m = pre ++ r :: old -> Z.of_nat (length pre) = i -> i < 8 -> enabled r = true -> tidy r ->
  0 <= start -> 0 <= size -> start + Z.max 1 size <= 2 ^ 32 -> unbroken start (Z.max 1 size) r ->
  Q (covers start r) (with_mpu_rnr i m) -> wp (is_in_region i start size) Q m.
Proof.
  intros Er Hi H8 He Ht Hst Hsz Hend Hu HQ. unfold is_in_region. apply wp_bind. apply (wp_select pre); [done|done|]. apply wp_bind. eapply wp_rd_RBAR; [exact Er|done|].
  apply wp_bind. eapply wp_rd_RASR; [exact Er|done|]. fold (field_size r.2). destruct (Ht He) as [Hf Hm]. pose proof (tidy_end r He Ht) as Hb. pose proof (rbar_addr_range r.1) as Hr.
  assert (HP : 2 ^ 5 <= 2 ^ (field_size r.2 + 1)) by (apply Z.pow_le_mono_r; lia). assert (HP' : 2 ^ (field_size r.2 + 1) <= 2 ^ 31) by (apply Z.pow_le_mono_r; lia).
  change (2 ^ 5) with 32 in HP. change (2 ^ 31) with 2147483648 in HP'. rewrite Z.shiftl_1_l, (u32_small (2 ^ _)) by lia. set (b := Z.land r.1 MPU_RBAR_ADDR_Msk) in *. set (n := 2 ^ (field_size r.2 + 1)) in *.
  replace (u32 (u32 (b + n) - 1)) with (b + n - 1) by (unfold u32; rewrite Zminus_mod_idemp_l; symmetry; apply Z.mod_small; lia).
  unfold u32_add_overflow. replace (if size =? 0 then 0 else size - 1) with (Z.max 1 size - 1) by (destruct (Z.eqb_spec size 0); lia). rewrite u32_small by lia. rewrite (proj2 (Z.ltb_ge _ _)) by lia. apply wp_ret.
  rewrite (covers_tidy start r He Ht) in HQ. fold b n in HQ. replace (start + (Z.max 1 size - 1) <=? b + n - 1) with (start + (Z.max 1 size - 1) <? b + n) by (apply eq_true_iff_eq; rewrite Z.leb_le, Z.ltb_lt; lia).
  assert (E : covers (start + (Z.max 1 size - 1)) r = covers start r).
  { destruct Hu as [Hu|Hu]; rewrite !Hu; lia || done. }
  rewrite !(covers_tidy _ r He Ht) in E. fold b n in E. destruct (Z.leb_spec b start), (Z.ltb_spec start (b + n)), (Z.leb_spec b (start + (Z.max 1 size - 1))), (Z.ltb_spec (start + (Z.max 1 size - 1)) (b + n)); cbn [andb] in *; try done; lia.
Qed.

Lemma accessible_ap write r : (if (write : bool) then field_ap r =? P_RW_U_RW else negb (Z.land (field_ap r) MPU_USER_READ_ACCESSIBLE_Msk =? 0)) = ap_allows write (field_ap r).
Proof.
  assert (Hr : 0 <= field_ap r < 8) by (rewrite field_ap_eq; apply Z.mod_pos_bound; lia). set (ap := field_ap r) in *. clearbody ap. destruct write; [done|].
  assert (ap = 0 \/ ap = 1 \/ ap = 2 \/ ap = 3 \/ ap = 4 \/ ap = 5 \/ ap = 6 \/ ap = 7) as Hc by lia. by repeat destruct Hc as [->|Hc]; [..|subst ap].
Qed.

(** The scan finds what the hardware would decide for each byte. *)
Lemma wp_validate_loop write addr size : forall n (Q : Z -> mpu -> Prop) m,
  (n <= 8)%nat -> length (mpu_regs m) = 8%nat -> Forall tidy (mpu_regs m) -> 0 <= addr -> 0 <= size -> addr + Z.max 1 size <= 2 ^ 32 -> Forall (unbroken addr (Z.max 1 size)) (mpu_regs m) ->
  (forall m', mpu_regs m' = mpu_regs m -> same_driver m m' -> Q (if decide_access write addr (take n (mpu_regs m)) false then 0 else - EPERM) m') ->
  wp (validate_loop n addr size write) Q m.
Proof.
  induction n as [|n IH]; intros Q m Hn H8 Ht Ha Hs He Hu HQ; cbn [validate_loop]; [by apply wp_ret, HQ|].
  destruct (lookup_lt_is_Some_2 (mpu_regs m) n) as [r Er]; [lia|]. assert (Em : mpu_regs m = take n (mpu_regs m) ++ r :: drop (S n) (mpu_regs m)) by (symmetry; by apply take_drop_middle).
  assert (Hl : Z.of_nat (length (take n (mpu_regs m))) = Z.of_nat n) by (rewrite length_take; lia). rewrite Forall_lookup in Ht, Hu. pose proof (Ht n r Er) as Htr. pose proof (Hu n r Er) as Hur.
  rewrite <-Forall_lookup in Ht, Hu. rewrite (take_S_r _ _ r Er), decide_access_app in HQ. cbn [decide_access] in HQ.
  assert (Hgo : covers addr r = false -> forall m', mpu_regs m' = mpu_regs m -> same_driver m m' -> wp (validate_loop n addr size write) Q m').
  { intros Ec m' E' Hd'. apply IH; rewrite ?E'; [lia|done|done|done|done|done|done|]. intros m'' E'' Hd''. rewrite Ec in HQ. apply HQ; [congruence|by eapply same_driver_trans]. }
  apply wp_bind. eapply wp_is_enabled; [exact Em|exact Hl|lia|]. apply wp_bind. destruct (enabled r) eqn:Een; cbn [negb].
  - apply wp_bind. eapply wp_is_in_region; [exact Em|exact Hl|lia|done|done|done|done|done|done|]. apply wp_ret. destruct (covers addr r) eqn:Ec; cbn [negb]; [|by apply Hgo].
    apply wp_bind. unfold is_user_accessible_region, get_region_ap. apply wp_bind, wp_bind. apply (wp_select (take n (mpu_regs m))); [exact Hl|lia|].
    apply wp_bind. eapply (wp_rd_RASR (take n (mpu_regs m)) r (drop (S n) (mpu_regs m))); [exact Em|exact Hl|]. apply wp_ret. fold (field_ap r.2). apply wp_ret. apply wp_ret.
    rewrite accessible_ap. by apply HQ.
  - apply wp_ret. apply Hgo; [|done|done]. unfold covers. by rewrite Een.
Qed.

Section Validate.
Context (m : mpu) (addr size : Z) (write : bool).
Context (H8 : length (mpu_regs m) = 8%nat) (Ht : Forall tidy (mpu_regs m)) (Ha : 0 <= addr) (Hs : 0 <= size) (He : addr + Z.max 1 size <= 2 ^ 32) (Hu : Forall (unbroken addr (Z.max 1 size)) (mpu_regs m)).

Lemma wp_buffer_validate (Q : Z -> mpu -> Prop) :
  (forall m', mpu_regs m' = mpu_regs m -> Q (if user_access write addr m then 0 else - EPERM) m') -> wp (mpu_buffer_validate addr size write) Q m.
Proof.
  intros HQ. apply wp_validate_loop; [done|done|done|done|done|done|done|]. intros m' E Hd. unfold user_access, get_num_regions in *. change (Z.to_nat 8) with 8%nat. rewrite take_ge by lia. by apply HQ.
Qed.

(** The bytes of an uncut buffer share their access. *)
Lemma unbroken_access a : addr <= a < addr + Z.max 1 size -> user_access write a m = user_access write addr m.
Proof using Hu.
  clear -Hu. intros Hin. unfold user_access. assert (Hall : forall l, Forall (unbroken addr (Z.max 1 size)) l -> forall below, decide_access write a l below = decide_access write addr l below); [|by apply Hall].
  intros l Hl. induction Hl as [|r l Hr _ IH]; intros below; cbn [decide_access]; [done|].
  assert (covers a r = covers addr r) as -> by (destruct Hr as [Hr'|Hr']; rewrite !Hr'; lia || done). apply IH.
Qed.

End Validate.

(** C11: for a buffer that no region cuts, [mpu_buffer_validate] returns 0 exactly when the hardware lets
    unprivileged code access its bytes, all of them, and [-EPERM] otherwise; an empty buffer
    counts as one byte. *)
Theorem mpu_buffer_validate_exact m addr size write :
  length (mpu_regs m) = 8%nat -> Forall tidy (mpu_regs m) -> 0 <= addr -> 0 <= size -> addr + Z.max 1 size <= 2 ^ 32 -> Forall (unbroken addr (Z.max 1 size)) (mpu_regs m) ->
  exists r m', mpu_buffer_validate addr size write m = Done r m' /\ mpu_regs m' = mpu_regs m /\ (r = 0 \/ r = - EPERM) /\
    forall a, addr <= a < addr + Z.max 1 size -> user_access write a m = (r =? 0).
Proof.
  intros H8 Ht Ha Hs He Hu. assert (Hw : wp (mpu_buffer_validate addr size write) (fun r m' => r = (if user_access write addr m then 0 else - EPERM) /\ mpu_regs m' = mpu_regs m) m) by (by apply wp_buffer_validate).
  apply wp_run in Hw as (r & m' & E & -> & Em). do 2 eexists. split; [exact E|]. split; [done|]. split; [destruct (user_access write addr m); auto|]. intros a Hin.
  rewrite (unbroken_access m addr size write) by done. by destruct (user_access write addr m).
Qed.

Definition tidyb (r : Z * Z) : bool := negb (enabled r) || ((4 <=? field_size r.2) && (field_size r.2 <=? 30) && (Z.land r.1 MPU_RBAR_ADDR_Msk mod 2 ^ (field_size r.2 + 1) =? 0)).
Lemma tidy_of_check r : tidyb r = true -> tidy r.
Proof. intros Hb He. unfold tidyb in Hb. rewrite He in Hb. cbn [negb orb] in Hb. zbool. done. Qed.

(** A region that covers both ends of a buffer or lies on one side of it. *)
Definition unbrokenb (addr len : Z) (r : Z * Z) : bool :=
  let b := Z.land r.1 MPU_RBAR_ADDR_Msk in let n := 2 ^ (field_size r.2 + 1) in
  negb (enabled r) || tidyb r && ((b <=? addr) && (addr + len <=? b + n) || (addr + len <=? b) || (b + n <=? addr)).
Lemma unbroken_of_check addr len r : unbrokenb addr len r = true -> unbroken addr len r.
Proof.
  intros Hb. unfold unbrokenb in Hb. destruct (enabled r) eqn:He; [|right; intros a _; unfold covers; by rewrite He]. cbn [negb orb] in Hb. apply andb_true_iff in Hb as [Ht Hb]. apply tidy_of_check in Ht.
  rewrite !orb_true_iff in Hb. destruct Hb as [[Hb|Hb]|Hb]; zbool; [left|right|right]; intros a Ha; rewrite (covers_tidy a r He Ht).
  - apply andb_true_iff. rewrite Z.leb_le, Z.ltb_lt. lia.
  - apply andb_false_iff. rewrite Z.leb_gt, Z.ltb_ge. lia.
  - apply andb_false_iff. rewrite Z.leb_gt, Z.ltb_ge. lia.
Qed.

Lemma Forall_of_check {A} (P : A -> Prop) (f : A -> bool) l : (forall x, f x = true -> P x) -> forallb f l = true -> Forall P l.
Proof. intros Hf Hb. apply Forall_forall. intros x Hx. apply Hf. rewrite forallb_forall in Hb. apply Hb. by apply list_elem_of_In. Qed.

Lemma mpu_buffer_validate_exact_witness :
  exists r m', mpu_buffer_validate 536903700 100 true running_mpu = Done r m' /\ mpu_regs m' = mpu_regs running_mpu /\ (r = 0 \/ r = - EPERM) /\
    forall a, 536903700 <= a < 536903800 -> user_access true a running_mpu = (r =? 0).
Proof.
  apply (mpu_buffer_validate_exact running_mpu 536903700 100 true); [done| |lia|lia|lia|].
  - apply (Forall_of_check tidy tidyb); [apply tidy_of_check|by vm_compute].
  - apply (Forall_of_check _ (unbrokenb 536903700 100)); [apply unbroken_of_check|by vm_compute].
Defined.

(** Lemma: a region in the middle of a buffer is overlooked: with a partition without user access mapped
    behind a larger writable one, the buffer across it is accepted although the hardware
    forbids user code to touch the bytes in its middle. *)
Theorem mpu_buffer_validate_overlooks :
  let hole := mk_partition 536904704 32 MEM_PARTITION_P_RW_U_NA in
  exists m m', mpu_configure_dynamic_mpu_regions [user_page; hole] board_mpu = Done 4 m /\ Forall tidy (mpu_regs m) /\
    mpu_buffer_validate 536904680 100 true m = Done 0 m' /\ user_access true 536904704 m = false.
Proof.
  do 2 eexists. split; [vm_compute; reflexivity|]. split; [|split; vm_compute; reflexivity].
  apply (Forall_of_check tidy tidyb); [apply tidy_of_check|by vm_compute].
Qed.

Lemma configure_dynamic_stuck m ps :
  static_regions_num m = u8 (- EINVAL) -> nonempty ps <> [] -> mpu_configure_dynamic_mpu_regions ps m = Done (- EINVAL) m.
Proof.
  intros Hs Hne. unfold mpu_configure_dynamic_mpu_regions. apply run_done. apply wp_bind, wp_gets. rewrite Hs. apply wp_bind. revert Hne. induction ps as [|p ps IH]; [done|].
  cbn [nonempty List.filter arm_core_mpu_configure_regions]. unfold present. destruct (p_size p =? 0); cbn [negb andb]; [exact IH|]. intros _. apply wp_bind. by apply wp_ret, wp_ret, wp_bind, wp_skip, wp_ret.
Qed.

(** Lemma: when the fixed regions cannot all be programmed, the error code is stored as their number, and
    from then on no dynamic region can be programmed: the regions stay as they are. *)
Theorem mpu_static_failure m sps m1 :
  mpu_configure_static_mpu_regions sps m = Done (- EINVAL) m1 ->
  static_regions_num m1 = 234 /\ forall ps, nonempty ps <> [] -> mpu_configure_dynamic_mpu_regions ps m1 = Done (- EINVAL) m1.
Proof.
  intros E. assert (Hs : static_regions_num m1 = u8 (- EINVAL)); [|split; [by rewrite Hs|intros ps; by apply configure_dynamic_stuck]].
  unfold mpu_configure_static_mpu_regions, mbind, ST_bind, gets, modify, mret, ST_ret in E. destruct (arm_core_mpu_configure_regions sps (static_regions_num m) true m) as [r m2|]; [|done].
  injection E as -> <-. done.
Qed.

(** A fixed region of 48 bytes. *)
Lemma mpu_static_failure_witness :
  exists m1, static_regions_num m1 = 234 /\ mpu_configure_dynamic_mpu_regions [user_page] m1 = Done (- EINVAL) m1.
Proof.
  pose (m1 := with_static_regions_num 234 board_mpu). exists m1.
  assert (E : mpu_configure_static_mpu_regions [mk_partition 536903680 48 MEM_PARTITION_P_RW_U_NA] board_mpu = Done (- EINVAL) m1) by (vm_compute; reflexivity).
  destruct (mpu_static_failure board_mpu [mk_partition 536903680 48 MEM_PARTITION_P_RW_U_NA] m1 E) as [Hs Hd]. split; [exact Hs|]. apply Hd. by vm_compute.
Defined.
