(* ===== verification/DList.v ===== *)
(** * Doubly linked lists threaded through kernel objects

    The ready queues, the release queue and the message queues of the kernel are
    doubly linked through fields of [struct ktcb].  [dll nx pv l] says that, read
    through a next-pointer function and a previous-pointer function, the nodes of [l]
    form a null-terminated list in that order.  Insertion at any position and removal
    from any position are each one lemma, whatever code performs the pointer writes. *)

From Stdlib Require Import ZArith Lia Bool List.
From stdpp Require Import base tactics numbers list gmap.
From S2P Require Import Prelude.

Local Open Scope Z_scope.

(** First and last node, [d] for an empty list. *)
Notation first d l := (List.hd d l).
Notation final d l := (List.last l d).

(** A segment between the neighbours [before] and [after]. *)
Fixpoint dseg (nx pv : Z -> Z) (before : Z) (l : list Z) (after : Z) : Prop :=
  match l with
  | [] => True
  | x :: l' => pv x = before /\ nx x = first after l' /\ dseg nx pv x l' after
  end.

Record dll (nx pv : Z -> Z) (l : list Z) : Prop := {
  dll_nodup : NoDup l;
  dll_nonnull : 0 ∉ l;
  dll_seg : dseg nx pv 0 l 0;
}.

Lemma final_cons (d x : Z) l : final d (x :: l) = final x l.
Proof. revert d x. induction l as [|y l IH]; intros; [done|]. cbn [List.last] in *. by rewrite (IH x), (IH d). Qed.

Lemma final_app (d : Z) l1 l2 : final d (l1 ++ l2) = final (final d l1) l2.
Proof.
  revert d. induction l1 as [|x l1 IH]; intros d; [done|].
  rewrite <-app_comm_cons, !final_cons. apply IH.
Qed.

Lemma first_app (d : Z) l1 l2 : first d (l1 ++ l2) = first (first d l2) l1.
Proof. by destruct l1. Qed.

Lemma final_in (d : Z) l : final d l = d \/ final d l ∈ l.
Proof.
  revert d. induction l as [|x l IH]; intros d; [by left|]. right.
  rewrite final_cons. destruct (IH x) as [->|?]; set_solver.
Qed.

Section Segments.
Context {nx pv : Z -> Z}.

Lemma dseg_app b l1 l2 a :
  dseg nx pv b (l1 ++ l2) a <-> dseg nx pv b l1 (first a l2) /\ dseg nx pv (final b l1) l2 a.
Proof.
  revert b. induction l1 as [|x l1 IH]; intros b; [by cbn; intuition|].
  rewrite final_cons. cbn [app dseg]. rewrite IH, first_app. tauto.
Qed.

(** Only the links of the members matter. *)
Lemma dseg_frame nx' pv' b l a :
  (forall x, x ∈ l -> nx' x = nx x /\ pv' x = pv x) -> dseg nx pv b l a -> dseg nx' pv' b l a.
Proof.
  revert b. induction l as [|x l IH]; intros b Hf; [done|]. intros (Hp & Hn & Hs). cbn.
  destruct (Hf x) as [-> ->]; [set_solver|]. split; [done|]. split; [done|].
  apply IH; [|done]. intros y Hy. apply Hf. set_solver.
Qed.

(** Redirect the next pointer of the last member. *)
Lemma dseg_set_after nx' pv' b l a a' :
  NoDup l -> dseg nx pv b l a ->
  (forall x, x ∈ l -> pv' x = pv x /\ nx' x = if decide (x = final b l) then a' else nx x) ->
  dseg nx' pv' b l a'.
Proof.
  revert b. induction l as [|x l IH]; intros b Hnd Hs Hf; [done|].
  apply NoDup_cons in Hnd as [Hx Hnd]. destruct Hs as (Hp & Hn & Hs).
  rewrite final_cons in Hf. destruct (Hf x) as [Ep En]; [set_solver|].
  assert (Hl : l = [] \/ x <> final x l /\ l <> []).
  { destruct l as [|y l]; [by left|]. right. split; [|done]. intros E. apply Hx. rewrite E, final_cons.
    destruct (final_in y l) as [->|?]; set_solver. }
  cbn. rewrite Ep. split; [done|]. split.
  - rewrite En. destruct Hl as [->|[Hne Hnil]]; [cbn; by rewrite decide_True|].
    rewrite decide_False by done. by destruct l.
  - apply IH; [done|done|]. intros y Hy. apply Hf. set_solver.
Qed.

(** Redirect the previous pointer of the first member. *)
Lemma dseg_set_before nx' pv' b b' l a d :
  NoDup l -> dseg nx pv b l a ->
  (forall x, x ∈ l -> nx' x = nx x /\ pv' x = if decide (x = first d l) then b' else pv x) ->
  dseg nx' pv' b' l a.
Proof.
  destruct l as [|x l]; [done|]. intros Hnd (Hp & Hn & Hs) Hf.
  apply NoDup_cons in Hnd as [Hx Hnd]. cbn in Hf.
  destruct (Hf x) as [En Ep]; [set_solver|]. cbn. rewrite En, Ep, decide_True by done.
  split; [done|]. split; [done|]. eapply dseg_frame; [|done].
  intros y Hy. destruct (Hf y) as [En' Ep']; [set_solver|]. split; [done|].
  rewrite Ep', decide_False; [done|]. by intros ->.
Qed.

End Segments.

Section Lists.
Context {nx pv : Z -> Z}.

Lemma dll_frame nx' pv' l :
  dll nx pv l -> (forall x, x ∈ l -> nx' x = nx x /\ pv' x = pv x) -> dll nx' pv' l.
Proof. intros [] Hf. split; [done|done|]. by eapply dseg_frame. Qed.

(** Insert [t] between [l1] and [l2]. *)
Lemma dll_insert nx' pv' l1 t l2 :
  dll nx pv (l1 ++ l2) -> t ∉ l1 ++ l2 -> t <> 0 ->
  nx' t = first 0 l2 -> pv' t = final 0 l1 ->
  (forall x, x ∈ l1 ++ l2 -> nx' x = if decide (x = final 0 l1) then t else nx x) ->
  (forall x, x ∈ l1 ++ l2 -> pv' x = if decide (x = first 0 l2) then t else pv x) ->
  dll nx' pv' (l1 ++ t :: l2).
Proof.
  intros [Hnd H0 Hs] Ht Ht0 En Ep Hn Hp. apply dseg_app in Hs as [Hs1 Hs2].
  pose proof Hnd as (Hnd1 & Hdis & Hnd2)%NoDup_app.
  assert (H1 : 0 ∉ l1) by set_solver. assert (H2 : 0 ∉ l2) by set_solver.
  assert (Hf1 : final 0 l1 ∉ l2).
  { destruct (final_in 0 l1) as [E|?]; [by rewrite E|]. by apply Hdis. }
  assert (Hf2 : first 0 l2 ∉ l1).
  { destruct l2 as [|y l2]; [done|]. intros ?. by apply (Hdis y); set_solver. }
  split.
  - rewrite <-Permutation_middle. apply NoDup_cons. split; [set_solver|done].
  - set_solver.
  - apply dseg_app. split; [|cbn; split; [done|split; [done|]]].
    + eapply dseg_set_after; [done|exact Hs1|]. intros x Hx. split; [|apply Hn; set_solver].
      rewrite Hp by set_solver. rewrite decide_False; [done|]. by intros ->.
    + eapply (dseg_set_before _ _ _ _ _ _ 0); [done|exact Hs2|]. intros x Hx.
      split; [|apply Hp; set_solver].
      rewrite Hn by set_solver. rewrite decide_False; [done|]. by intros ->.
Qed.

(** Unlink [t] from between [l1] and [l2]. *)
Lemma dll_remove nx' pv' l1 t l2 :
  dll nx pv (l1 ++ t :: l2) ->
  (forall x, x ∈ l1 ++ l2 -> nx' x = if decide (x = final 0 l1) then first 0 l2 else nx x) ->
  (forall x, x ∈ l1 ++ l2 -> pv' x = if decide (x = first 0 l2) then final 0 l1 else pv x) ->
  dll nx' pv' (l1 ++ l2).
Proof.
  intros [Hnd H0 Hs] Hn Hp. apply dseg_app in Hs as [Hs1 (Ep & En & Hs2)].
  rewrite <-Permutation_middle in Hnd. apply NoDup_cons in Hnd as [Ht Hnd].
  pose proof Hnd as (Hnd1 & Hdis & Hnd2)%NoDup_app.
  assert (Hf1 : final 0 l1 ∉ l2).
  { destruct (final_in 0 l1) as [E|?]; [rewrite E; set_solver|]. by apply Hdis. }
  assert (Hf2 : first 0 l2 ∉ l1).
  { destruct l2 as [|y l2]; [set_solver|]. intros ?. by apply (Hdis y); set_solver. }
  split; [done|set_solver|]. apply dseg_app. split.
  - eapply dseg_set_after; [done|exact Hs1|]. intros x Hx. split; [|apply Hn; set_solver].
    rewrite Hp by set_solver. rewrite decide_False; [done|]. by intros ->.
  - eapply (dseg_set_before _ _ _ _ _ _ 0); [done|exact Hs2|]. intros x Hx.
    split; [|apply Hp; set_solver].
    rewrite Hn by set_solver. rewrite decide_False; [done|]. by intros ->.
Qed.

(** The links of a member are its neighbours. *)
Lemma dll_links l1 t l2 :
  dll nx pv (l1 ++ t :: l2) -> nx t = first 0 l2 /\ pv t = final 0 l1.
Proof. intros [_ _ Hs]. by apply dseg_app in Hs as [_ (? & ? & _)]. Qed.

Lemma dll_neighbours l1 t l2 :
  dll nx pv (l1 ++ t :: l2) -> t ∉ l1 ++ l2 /\ t <> 0 /\ 0 ∉ l1 ++ l2.
Proof.
  intros [Hnd H0 _]. rewrite <-Permutation_middle in Hnd. apply NoDup_cons in Hnd as [Ht _].
  set_solver.
Qed.

Lemma dll_nil : dll nx pv [].
Proof. split; [constructor|set_solver|done]. Qed.

End Lists.

(** The first or last node is null exactly for the empty list. *)
Lemma first_null l : 0 ∉ l -> (first 0 l = 0 <-> l = []).
Proof. destruct l; [done|]. intros H. split; [|done]. cbn. intros ->. set_solver. Qed.

Lemma final_null l : 0 ∉ l -> (final 0 l = 0 <-> l = []).
Proof.
  destruct l as [|x l]; [done|]. intros H. split; [|done]. rewrite final_cons.
  destruct (final_in x l) as [->| ]; intros E; [set_solver|]. rewrite E in *. set_solver.
Qed.
