(* ===== verification/DNode.v ===== *)
(** * Circular doubly linked lists of [inc/sys/dlist.h]

    A [sys_dnode_t] holds two pointers; a list is a node of the same shape whose head and
    tail share the two fields.  The memory of the nodes is a finite map; every routine of
    the header is a state transformer on it.  [Ring m list l] says that the circular list
    anchored at [list] holds the nodes [l] in order. *)

From Stdlib Require Import ZArith Lia Bool List.
From stdpp Require Import base tactics numbers list gmap.
From S2P Require Import Prelude DList.

Local Open Scope Z_scope.

(** [struct _dnode]; [head]/[tail] of a list are the same fields. *)
Record dnode := mk_dnode { n_next : Z; n_prev : Z }.
#[global] Instance dnode_eq_dec : EqDecision dnode.
Proof. solve_decision. Defined.

Definition with_next (v : Z) (n : dnode) : dnode := mk_dnode v (n_prev n).
Definition with_prev (v : Z) (n : dnode) : dnode := mk_dnode (n_next n) v.

Notation dmem := (gmap Z dnode).
Notation DM := (ST (gmap Z dnode)).

Definition rd_node (p : Z) : DM dnode := fun m =>
  match m !! p with Some n => Done n m | None => Fail Fault end.
Definition get_next (p : Z) : DM Z := n ← rd_node p; mret (n_next n).
Definition get_prev (p : Z) : DM Z := n ← rd_node p; mret (n_prev n).
Definition set_next (p v : Z) : DM unit := n ← rd_node p; modify (<[p := with_next v n]>).
Definition set_prev (p v : Z) : DM unit := n ← rd_node p; modify (<[p := with_prev v n]>).

(** ** The routines *)

Definition sys_dlist_init (list : Z) : DM unit := set_next list list;; set_prev list list.
Definition sys_dnode_init (node : Z) : DM unit := set_next node 0;; set_prev node 0.
Definition sys_dnode_is_linked (node : Z) : DM bool := n ← get_next node; mret (negb (n =? 0)).
Definition sys_dlist_is_head (list node : Z) : DM bool := h ← get_next list; mret (h =? node).
Definition sys_dlist_is_tail (list node : Z) : DM bool := t ← get_prev list; mret (t =? node).
Definition sys_dlist_is_empty (list : Z) : DM bool := h ← get_next list; mret (h =? list).
Definition sys_dlist_has_multiple_nodes (list : Z) : DM bool :=
  h ← get_next list; t ← get_prev list; mret (negb (h =? t)).
Definition sys_dlist_peek_head (list : Z) : DM Z :=
  e ← sys_dlist_is_empty list; if (e : bool) then mret 0 else get_next list.
Definition sys_dlist_peek_head_not_empty (list : Z) : DM Z := get_next list.
Definition sys_dlist_peek_next_no_check (list node : Z) : DM Z :=
  t ← get_prev list; if node =? t then mret 0 else get_next node.
Definition sys_dlist_peek_next (list node : Z) : DM Z :=
  if negb (node =? 0) then sys_dlist_peek_next_no_check list node else mret 0.
Definition sys_dlist_peek_prev_no_check (list node : Z) : DM Z :=
  h ← get_next list; if node =? h then mret 0 else get_prev node.
Definition sys_dlist_peek_prev (list node : Z) : DM Z :=
  if negb (node =? 0) then sys_dlist_peek_prev_no_check list node else mret 0.
Definition sys_dlist_peek_tail (list : Z) : DM Z :=
  e ← sys_dlist_is_empty list; if (e : bool) then mret 0 else get_prev list.

Definition sys_dlist_append (list node : Z) : DM unit :=
  set_next node list;;
  t ← get_prev list; set_prev node t;;
  t ← get_prev list; set_next t node;;
  set_prev list node.

Definition sys_dlist_prepend (list node : Z) : DM unit :=
  h ← get_next list; set_next node h;;
  set_prev node list;;
  h ← get_next list; set_prev h node;;
  set_next list node.

(** Despite the parameter's name, the node goes behind [successor]. *)
Definition sys_dlist_insert (successor node : Z) : DM unit :=
  n ← get_next successor; set_next node n;;
  set_prev node successor;;
  n ← get_next successor; set_prev n node;;
  set_next successor node.

Definition sys_dlist_remove (node : Z) : DM unit :=
  p ← get_prev node; n ← get_next node; set_next p n;;
  n ← get_next node; p ← get_prev node; set_prev n p;;
  sys_dnode_init node.

Definition sys_dlist_get (list : Z) : DM Z :=
  e ← sys_dlist_is_empty list;
  if negb e then node ← get_next list; sys_dlist_remove node;; mret node else mret 0.

(** The loop of [sys_dlist_insert_at]; [cond] is the caller's predicate. *)
Fixpoint insert_at_loop (fuel : nat) (list : Z) (cond : Z -> bool) (pos : Z) : DM Z :=
  match fuel with
  | O => fail OutOfFuel
  | S fuel =>
    if (pos =? 0) || cond pos then mret pos
    else pos ← sys_dlist_peek_next list pos; insert_at_loop fuel list cond pos
  end.

Definition sys_dlist_insert_at (list node : Z) (cond : Z -> bool) : DM unit :=
  e ← sys_dlist_is_empty list;
  if (e : bool) then sys_dlist_append list node
  else
    pos ← sys_dlist_peek_head list;
    m ← (get : DM (gmap Z dnode));
    pos ← insert_at_loop (S (size m)) list cond pos;
    if negb (pos =? 0) then sys_dlist_insert pos node else sys_dlist_append list node.

(** ** Abstraction *)

Definition nx (m : dmem) (p : Z) : Z := from_option n_next 0 (m !! p).
Definition pv (m : dmem) (p : Z) : Z := from_option n_prev 0 (m !! p).

Record Ring (m : dmem) (lst : Z) (l : list Z) : Prop := {
  ring_nodup : NoDup (lst :: l);
  ring_nonnull : 0 ∉ lst :: l;
  ring_mem : forall x, x ∈ lst :: l -> is_Some (m !! x);
  ring_head : nx m lst = first lst l;
  ring_tail : pv m lst = final lst l;
  ring_seg : dseg (nx m) (pv m) lst l lst;
}.

Lemma wp_get_next p (Q : Z -> dmem -> Prop) m : is_Some (m !! p) -> Q (nx m p) m -> wp (get_next p) Q m.
Proof. intros [n E] HQ. unfold nx in HQ. unfold wp, get_next, rd_node, mbind, ST_bind. by rewrite E in HQ |- *. Qed.

Lemma wp_get_prev p (Q : Z -> dmem -> Prop) m : is_Some (m !! p) -> Q (pv m p) m -> wp (get_prev p) Q m.
Proof. intros [n E] HQ. unfold pv in HQ. unfold wp, get_prev, rd_node, mbind, ST_bind. by rewrite E in HQ |- *. Qed.

Definition upd_next (p v : Z) (m : dmem) : dmem := alter (with_next v) p m.
Definition upd_prev (p v : Z) (m : dmem) : dmem := alter (with_prev v) p m.

Lemma insert_alter (f : dnode -> dnode) p n (m : dmem) : m !! p = Some n -> <[p := f n]> m = alter f p m.
Proof.
  intros E. apply map_eq. intros q. destruct (decide (p = q)) as [->|].
  - by rewrite lookup_insert_eq, lookup_alter_eq, E.
  - by rewrite lookup_insert_ne, lookup_alter_ne.
Qed.

Lemma wp_set_next p v (Q : unit -> dmem -> Prop) m :
  is_Some (m !! p) -> Q tt (upd_next p v m) -> wp (set_next p v) Q m.
Proof.
  intros [n E] HQ. unfold wp, set_next, rd_node, mbind, ST_bind, modify. rewrite E.
  by rewrite (insert_alter (with_next v) p n).
Qed.

Lemma wp_set_prev p v (Q : unit -> dmem -> Prop) m :
  is_Some (m !! p) -> Q tt (upd_prev p v m) -> wp (set_prev p v) Q m.
Proof.
  intros [n E] HQ. unfold wp, set_prev, rd_node, mbind, ST_bind, modify. rewrite E.
  by rewrite (insert_alter (with_prev v) p n).
Qed.

Lemma nx_upd_next p v m x : is_Some (m !! p) -> nx (upd_next p v m) x = if decide (x = p) then v else nx m x.
Proof.
  intros [n E]. unfold nx, upd_next. destruct (decide (x = p)) as [->|].
  - by rewrite lookup_alter_eq, E.
  - by rewrite lookup_alter_ne.
Qed.

Lemma pv_upd_prev p v m x : is_Some (m !! p) -> pv (upd_prev p v m) x = if decide (x = p) then v else pv m x.
Proof.
  intros [n E]. unfold pv, upd_prev. destruct (decide (x = p)) as [->|].
  - by rewrite lookup_alter_eq, E.
  - by rewrite lookup_alter_ne.
Qed.

Lemma nx_upd_prev p v m x : nx (upd_prev p v m) x = nx m x.
Proof.
  unfold nx, upd_prev. destruct (decide (x = p)) as [->|]; [|by rewrite lookup_alter_ne].
  rewrite lookup_alter_eq. by destruct (m !! p).
Qed.

Lemma pv_upd_next p v m x : pv (upd_next p v m) x = pv m x.
Proof.
  unfold pv, upd_next. destruct (decide (x = p)) as [->|]; [|by rewrite lookup_alter_ne].
  rewrite lookup_alter_eq. by destruct (m !! p).
Qed.

Lemma is_Some_upd f p (m : dmem) x : is_Some (alter f p m !! x) <-> is_Some (m !! x).
Proof.
  destruct (decide (x = p)) as [->|]; [|by rewrite lookup_alter_ne].
  rewrite lookup_alter_eq. apply fmap_is_Some.
Qed.

(** Read links through a sequence of link updates. *)
Ltac dmem_ok := repeat (unfold upd_next, upd_prev; rewrite is_Some_upd); eauto.
Ltac links :=
  repeat first
    [ rewrite nx_upd_prev | rewrite pv_upd_next
    | rewrite nx_upd_next by dmem_ok | rewrite pv_upd_prev by dmem_ok ].

Section Rings.
Context {m m' : dmem}.

Lemma final_in_cons (d : Z) l : final d l ∈ d :: l.
Proof. destruct (final_in d l) as [->|]; set_solver. Qed.

Lemma final_elem (d : Z) l : l <> [] -> final d l ∈ l.
Proof. destruct l as [|x l]; [done|]. intros _. rewrite final_cons. apply final_in_cons. Qed.

Lemma first_in_cons (d : Z) l : first d l ∈ d :: l.
Proof. destruct l; set_solver. Qed.

(** What the two ends of a split ring are. *)
Lemma ring_split lst l1 l2 :
  Ring m lst (l1 ++ l2) ->
  dseg (nx m) (pv m) lst l1 (first lst l2) /\ dseg (nx m) (pv m) (final lst l1) l2 lst /\
  NoDup l1 /\ NoDup l2 /\ final lst l1 ∉ l2 /\ first lst l2 ∉ l1 /\ lst ∉ l1 /\ lst ∉ l2.
Proof.
  intros [Hnd H0 _ _ _ Hs]. apply dseg_app in Hs as [Hs1 Hs2].
  apply NoDup_cons in Hnd as [Hl Hnd]. apply NoDup_app in Hnd as (Hnd1 & Hdis & Hnd2).
  assert (lst ∉ l1 /\ lst ∉ l2) as [? ?] by set_solver.
  do 4 (split; [done|]). split; [|split; [|done]].
  - intros Hin. destruct (final_in lst l1) as [E|E]; [by rewrite E in Hin|]. by apply (Hdis _ E).
  - intros Hin. destruct l2 as [|y l2]; [done|]. apply (Hdis _ Hin). set_solver.
Qed.

Lemma ring_insert lst l1 l2 n :
  Ring m lst (l1 ++ l2) -> n ∉ lst :: l1 ++ l2 -> n <> 0 ->
  (forall x, x = n \/ is_Some (m !! x) -> is_Some (m' !! x)) ->
  nx m' n = first lst l2 -> pv m' n = final lst l1 ->
  (forall x, x <> n -> nx m' x = if decide (x = final lst l1) then n else nx m x) ->
  (forall x, x <> n -> pv m' x = if decide (x = first lst l2) then n else pv m x) ->
  Ring m' lst (l1 ++ n :: l2).
Proof.
  intros HR Hn Hn0 Hv En Ep Hnx Hpv. destruct (ring_split _ _ _ HR) as (Hs1 & Hs2 & Hd1 & Hd2 & Hf1 & Hf2 & Hl1 & Hl2).
  destruct HR as [Hnd H0 Hmem Hh Ht _]. split.
  - apply NoDup_cons in Hnd as [Hl Hnd]. apply NoDup_cons. split; [set_solver|].
    rewrite <-Permutation_middle. apply NoDup_cons. split; [set_solver|done].
  - set_solver.
  - intros x Hx. apply Hv. destruct (decide (x = n)); [by left|right]. apply Hmem. set_solver.
  - rewrite Hnx by set_solver. rewrite first_app. destruct l1 as [|y l1]; [by rewrite decide_True|].
    rewrite decide_False, Hh; [done|]. intros E. apply Hl1. rewrite E at 1. by apply final_elem.
  - rewrite Hpv by set_solver. rewrite final_app, final_cons. destruct l2 as [|y l2]; cbn [first].
    + by rewrite decide_True.
    + rewrite decide_False, Ht by set_solver. by rewrite final_app, !final_cons.
  - apply dseg_app. split; [|cbn; split; [done|split; [done|]]].
    + eapply dseg_set_after; [done|exact Hs1|]. intros x Hx. split; [|apply Hnx; set_solver].
      rewrite Hpv by set_solver. rewrite decide_False; [done|]. by intros ->.
    + eapply (dseg_set_before _ _ _ _ _ _ lst); [done|exact Hs2|]. intros x Hx. split; [|apply Hpv; set_solver].
      rewrite Hnx by set_solver. rewrite decide_False; [done|]. by intros ->.
Qed.

Lemma ring_remove lst l1 l2 n :
  Ring m lst (l1 ++ n :: l2) -> (forall x, is_Some (m !! x) -> is_Some (m' !! x)) ->
  (forall x, x <> n -> nx m' x = if decide (x = final lst l1) then first lst l2 else nx m x) ->
  (forall x, x <> n -> pv m' x = if decide (x = first lst l2) then final lst l1 else pv m x) ->
  Ring m' lst (l1 ++ l2).
Proof.
  intros [Hnd H0 Hmem Hh Ht Hs] Hv Hnx Hpv. apply dseg_app in Hs as [Hs1 (Ep & En & Hs2)].
  apply NoDup_cons in Hnd as [Hl Hnd]. rewrite <-Permutation_middle in Hnd. apply NoDup_cons in Hnd as [Hn Hnd].
  pose proof Hnd as (Hd1 & Hdis & Hd2)%NoDup_app.
  assert (lst ∉ l1 /\ lst ∉ l2 /\ lst <> n) as (Hl1 & Hl2 & Hln) by set_solver.
  assert (Hf1 : final lst l1 ∉ l2).
  { intros Hin. destruct (final_in lst l1) as [E|E]; [by rewrite E in Hin|]. by apply (Hdis _ E). }
  assert (Hf2 : first lst l2 ∉ l1).
  { intros Hin. destruct l2 as [|y l2]; [done|]. apply (Hdis _ Hin). set_solver. }
  split.
  - apply NoDup_cons. split; [set_solver|done].
  - set_solver.
  - intros x Hx. apply Hv, Hmem. set_solver.
  - rewrite Hnx by done. rewrite first_app. destruct l1 as [|y l1]; [by rewrite decide_True|].
    rewrite decide_False, Hh; [done|]. intros E. apply Hl1. rewrite E at 1. by apply final_elem.
  - rewrite Hpv by done. rewrite final_app. destruct l2 as [|y l2]; cbn [first].
    + by rewrite decide_True.
    + rewrite decide_False, Ht by set_solver. by rewrite final_app, !final_cons.
  - apply dseg_app. split.
    + eapply dseg_set_after; [done|exact Hs1|]. intros x Hx. split; [|apply Hnx; set_solver].
      rewrite Hpv by set_solver. rewrite decide_False; [done|]. by intros ->.
    + eapply (dseg_set_before _ _ _ _ _ _ lst); [done|exact Hs2|]. intros x Hx. split; [|apply Hpv; set_solver].
      rewrite Hnx by set_solver. rewrite decide_False; [done|]. by intros ->.
Qed.

Lemma ring_links lst l1 n l2 :
  Ring m lst (l1 ++ n :: l2) -> nx m n = first lst l2 /\ pv m n = final lst l1.
Proof. intros HR. pose proof (ring_seg _ _ _ HR) as Hs. apply dseg_app in Hs as [_ (? & ? & _)]. done. Qed.

End Rings.

(** ** Contracts of the operations *)

(** [dkeep l m m']: the same nodes exist, and no link outside [l] changed. *)
Definition dkeep (l : list Z) (m m' : dmem) : Prop :=
  (forall x, is_Some (m' !! x) <-> is_Some (m !! x)) /\
  (forall x, x ∉ l -> nx m' x = nx m x /\ pv m' x = pv m x).

Section Ops.

Lemma wp_dlist_is_empty lst l (Q : bool -> dmem -> Prop) m :
  Ring m lst l -> Q (bool_decide (l = [])) m -> wp (sys_dlist_is_empty lst) Q m.
Proof.
  intros HR HQ. unfold sys_dlist_is_empty. wp_steps. apply wp_get_next; [apply HR; set_solver|]. wp_steps.
  rewrite (ring_head _ _ _ HR). destruct l as [|x l]; cbn [first].
  - by rewrite Z.eqb_refl.
  - destruct (Z.eqb_spec x lst) as [->|]; [|done]. pose proof (ring_nodup _ _ _ HR). by apply NoDup_cons in H as [? _]; set_solver.
Qed.

Lemma wp_dlist_peek_head lst l (Q : Z -> dmem -> Prop) m :
  Ring m lst l -> Q (first 0 l) m -> wp (sys_dlist_peek_head lst) Q m.
Proof.
  intros HR HQ. unfold sys_dlist_peek_head. wp_steps. eapply wp_dlist_is_empty; [done|].
  destruct l as [|x l]; [by wp_steps|]. rewrite bool_decide_false by done.
  apply wp_get_next; [apply HR; set_solver|]. by rewrite (ring_head _ _ _ HR).
Qed.

Lemma wp_dlist_peek_next lst l1 n l2 (Q : Z -> dmem -> Prop) m :
  Ring m lst (l1 ++ n :: l2) -> Q (first 0 l2) m -> wp (sys_dlist_peek_next lst n) Q m.
Proof.
  intros HR HQ. unfold sys_dlist_peek_next, sys_dlist_peek_next_no_check.
  pose proof (ring_nonnull _ _ _ HR) as H0. destruct (Z.eqb_spec n 0) as [->|_]; [set_solver|]. cbn [negb].
  wp_steps. apply wp_get_prev; [apply HR; set_solver|]. rewrite (ring_tail _ _ _ HR), final_app, final_cons.
  destruct l2 as [|y l2].
  - cbn. rewrite Z.eqb_refl. by wp_steps.
  - pose proof (ring_nodup _ _ _ HR) as Hnd. apply NoDup_cons in Hnd as [_ Hnd].
    apply NoDup_app in Hnd as (_ & _ & Hnd). apply NoDup_cons in Hnd as [Hn _].
    destruct (Z.eqb_spec n (final n (y :: l2))) as [E|_].
    + rewrite final_cons in E. pose proof (final_in_cons y l2). rewrite <-E in *. set_solver.
    + apply wp_get_next; [apply HR; set_solver|]. by destruct (ring_links _ _ _ _ HR) as [-> _].
Qed.

(** Insertion of an unlinked node: the four pointer writes, in any order. *)
Lemma wp_dlist_insert lst l1 p n l2 (Q : unit -> dmem -> Prop) m :
  Ring m lst (l1 ++ p :: l2) -> n ∉ lst :: l1 ++ p :: l2 -> n <> 0 -> is_Some (m !! n) ->
  (forall m', Ring m' lst (l1 ++ p :: n :: l2) -> dkeep (lst :: n :: l1 ++ p :: l2) m m' -> Q tt m') ->
  wp (sys_dlist_insert p n) Q m.
Proof.
  intros HR Hn Hn0 Hv HQ. destruct (ring_links _ _ _ _ HR) as [En Ep].
  assert (Hp : is_Some (m !! p)) by (apply HR; set_solver).
  assert (Hs : is_Some (m !! first lst l2)) by (apply HR; destruct l2; set_solver).
  assert (Hpn : p <> n) by set_solver. assert (Hsn : first lst l2 <> n) by (destruct l2; set_solver).
  unfold sys_dlist_insert. wp_steps. apply wp_get_next; [done|]. wp_steps. apply wp_set_next; [done|]. wp_steps.
  apply wp_set_prev; [dmem_ok|]. wp_steps. apply wp_get_next; [dmem_ok|]. links.
  rewrite decide_False, En by done. wp_steps. apply wp_set_prev; [dmem_ok|]. wp_steps. apply wp_set_next; [dmem_ok|].
  apply HQ.
  - replace (l1 ++ p :: n :: l2) with ((l1 ++ [p]) ++ n :: l2) by (by rewrite <-app_assoc).
    replace (l1 ++ p :: l2) with ((l1 ++ [p]) ++ l2) in HR, Hn by (by rewrite <-app_assoc).
    eapply ring_insert; [exact HR|done|done|..].
    + intros x [->|Hx]; dmem_ok.
    + links. by rewrite decide_False, decide_True by done.
    + links. rewrite final_app. cbn. by rewrite decide_False, decide_True by done.
    + intros x Hx. links. rewrite final_app. cbn. rewrite (decide_False (P := x = n)) by done. done.
    + intros x Hx. links. by rewrite (decide_False (P := x = n)) by done.
  - split; [intros x; unfold upd_next, upd_prev; by rewrite !is_Some_upd|]. intros x Hx. links.
    pose proof (first_in_cons lst l2) as Hfs.
    rewrite !decide_False; [done|..]; intros ->; apply Hx; clear - Hfs; set_solver.
Qed.

Lemma wp_dlist_append lst l n (Q : unit -> dmem -> Prop) m :
  Ring m lst l -> n ∉ lst :: l -> n <> 0 -> is_Some (m !! n) ->
  (forall m', Ring m' lst (l ++ [n]) -> dkeep (lst :: n :: l) m m' -> Q tt m') ->
  wp (sys_dlist_append lst n) Q m.
Proof.
  intros HR Hn Hn0 Hv HQ. pose proof (ring_tail _ _ _ HR) as Et.
  assert (Hl : is_Some (m !! lst)) by (apply HR; set_solver).
  assert (Hf : is_Some (m !! final lst l)) by (apply HR, final_in_cons).
  assert (Hfn : final lst l <> n) by (intros E; apply Hn; rewrite <-E; apply final_in_cons).
  assert (Hln : lst <> n) by set_solver.
  unfold sys_dlist_append. wp_steps. apply wp_set_next; [done|]. wp_steps. apply wp_get_prev; [dmem_ok|]. wp_steps.
  apply wp_set_prev; [dmem_ok|]. wp_steps. apply wp_get_prev; [dmem_ok|]. links. rewrite decide_False, Et by done.
  wp_steps. apply wp_set_next; [dmem_ok|]. wp_steps. apply wp_set_prev; [dmem_ok|]. apply HQ.
  - eapply ring_insert; [by rewrite app_nil_r|by rewrite app_nil_r|done|..].
    + intros x [->|Hx]; dmem_ok.
    + links. by rewrite decide_False, decide_True by done.
    + links. by rewrite decide_False, decide_True by done.
    + intros x Hx. links. by rewrite (decide_False (P := x = n)) by done.
    + intros x Hx. links. cbn. by rewrite (decide_False (P := x = n)) by done.
  - split; [intros x; unfold upd_next, upd_prev; by rewrite !is_Some_upd|]. intros x Hx. links.
    pose proof (final_in_cons lst l) as Hfs.
    rewrite !decide_False; [done|..]; intros ->; apply Hx; clear - Hfs; set_solver.
Qed.

Lemma wp_dlist_prepend lst l n (Q : unit -> dmem -> Prop) m :
  Ring m lst l -> n ∉ lst :: l -> n <> 0 -> is_Some (m !! n) ->
  (forall m', Ring m' lst (n :: l) -> dkeep (lst :: n :: l) m m' -> Q tt m') ->
  wp (sys_dlist_prepend lst n) Q m.
Proof.
  intros HR Hn Hn0 Hv HQ. pose proof (ring_head _ _ _ HR) as Eh.
  assert (Hl : is_Some (m !! lst)) by (apply HR; set_solver).
  assert (Hf : is_Some (m !! first lst l)) by (apply HR, first_in_cons).
  assert (Hfn : first lst l <> n) by (intros E; apply Hn; rewrite <-E; apply first_in_cons).
  assert (Hln : lst <> n) by set_solver.
  unfold sys_dlist_prepend. wp_steps. apply wp_get_next; [done|]. wp_steps. apply wp_set_next; [dmem_ok|]. wp_steps.
  apply wp_set_prev; [dmem_ok|]. wp_steps. apply wp_get_next; [dmem_ok|]. links. rewrite decide_False, Eh by done.
  wp_steps. apply wp_set_prev; [dmem_ok|]. wp_steps. apply wp_set_next; [dmem_ok|]. apply HQ.
  - apply (ring_insert lst [] l n HR Hn Hn0).
    + intros x [->|Hx]; dmem_ok.
    + links. by rewrite decide_False, decide_True by done.
    + links. by rewrite decide_False, decide_True by done.
    + intros x Hx. links. cbn. by rewrite (decide_False (P := x = n)) by done.
    + intros x Hx. links. by rewrite (decide_False (P := x = n)) by done.
  - split; [intros x; unfold upd_next, upd_prev; by rewrite !is_Some_upd|]. intros x Hx. links.
    pose proof (first_in_cons lst l) as Hfs.
    rewrite !decide_False; [done|..]; intros ->; apply Hx; clear - Hfs; set_solver.
Qed.

Lemma wp_dlist_remove lst l1 n l2 (Q : unit -> dmem -> Prop) m :
  Ring m lst (l1 ++ n :: l2) ->
  (forall m', Ring m' lst (l1 ++ l2) -> nx m' n = 0 -> pv m' n = 0 -> dkeep (lst :: l1 ++ n :: l2) m m' -> Q tt m') ->
  wp (sys_dlist_remove n) Q m.
Proof.
  intros HR HQ. destruct (ring_links _ _ _ _ HR) as [En Ep]. pose proof (ring_nodup _ _ _ HR) as Hnd.
  assert (Hn : n ∉ lst :: l1 ++ l2).
  { apply NoDup_cons in Hnd as [? Hnd]. rewrite <-Permutation_middle in Hnd. apply NoDup_cons in Hnd. set_solver. }
  pose proof (final_in_cons lst l1) as Hf. pose proof (first_in_cons lst l2) as Hs.
  assert (Hv : forall x, x ∈ lst :: l1 ++ n :: l2 -> is_Some (m !! x)) by apply HR.
  assert (Hpn : final lst l1 <> n) by (intros E; rewrite E in Hf; set_solver).
  assert (Hsn : first lst l2 <> n) by (intros E; rewrite E in Hs; set_solver).
  assert (is_Some (m !! n)) by (apply Hv; set_solver).
  assert (is_Some (m !! final lst l1)) by (apply Hv; set_solver).
  assert (is_Some (m !! first lst l2)) by (apply Hv; set_solver).
  unfold sys_dlist_remove, sys_dnode_init. wp_steps. apply wp_get_prev; [done|]. wp_steps. apply wp_get_next; [done|]. wp_steps.
  rewrite Ep, En. apply wp_set_next; [done|]. wp_steps. apply wp_get_next; [dmem_ok|]. wp_steps. apply wp_get_prev; [dmem_ok|]. links.
  rewrite decide_False, Ep, En by done. wp_steps. apply wp_set_prev; [dmem_ok|]. wp_steps. apply wp_set_next; [dmem_ok|].
  apply wp_set_prev; [dmem_ok|]. apply HQ.
  - eapply ring_remove; [exact HR|..].
    + intros x Hx. dmem_ok.
    + intros x Hx. links. by rewrite (decide_False (P := x = n)) by done.
    + intros x Hx. links. by rewrite (decide_False (P := x = n)) by done.
  - links. by rewrite decide_True.
  - links. by rewrite decide_True.
  - split; [intros x; unfold upd_next, upd_prev; by rewrite !is_Some_upd|]. intros x Hx. links.
    rewrite !decide_False; [done|..]; intros ->; apply Hx; clear - Hf Hs; set_solver.
Qed.

End Ops.

Lemma wp_dlist_init lst (Q : unit -> dmem -> Prop) m :
  lst <> 0 -> is_Some (m !! lst) -> (forall m', Ring m' lst [] -> dkeep [lst] m m' -> Q tt m') ->
  wp (sys_dlist_init lst) Q m.
Proof.
  intros H0 Hv HQ. unfold sys_dlist_init. wp_steps. apply wp_set_next; [done|]. apply wp_set_prev; [dmem_ok|].
  apply HQ.
  - split; [apply NoDup_singleton|set_solver| |links; by rewrite decide_True|links; by rewrite decide_True|done].
    intros x Hx. assert (x = lst) as -> by set_solver. dmem_ok.
  - split; [intros x; unfold upd_next, upd_prev; by rewrite !is_Some_upd|]. intros x Hx. links.
    rewrite !decide_False; [done|..]; intros ->; set_solver.
Qed.

(** A ring is kept by everything that touches none of its nodes. *)
Lemma ring_frame lst l L m m' : Ring m lst l -> dkeep L m m' -> (forall x, x ∈ lst :: l -> x ∉ L) -> Ring m' lst l.
Proof.
  intros [Hnd H0 Hmem Hh Ht Hs] [Hk Hl] Hd. split; [done|done|intros x Hx; by apply Hk, Hmem| | |].
  - destruct (Hl lst) as [-> _]; [|done]. apply Hd. set_solver.
  - destruct (Hl lst) as [_ ->]; [|done]. apply Hd. set_solver.
  - eapply dseg_frame; [|exact Hs]. intros x Hx. apply Hl, Hd. set_solver.
Qed.

Lemma wp_dlist_get lst l (Q : Z -> dmem -> Prop) m :
  Ring m lst l ->
  match l with
  | [] => Q 0 m
  | n :: l' => forall m', Ring m' lst l' -> dkeep (lst :: n :: l') m m' -> Q n m'
  end -> wp (sys_dlist_get lst) Q m.
Proof.
  intros HR HQ. unfold sys_dlist_get. wp_steps. eapply wp_dlist_is_empty; [done|]. destruct l as [|n l].
  - rewrite bool_decide_true by done. by apply wp_ret.
  - rewrite bool_decide_false by done. cbn [negb]. apply wp_bind, wp_get_next; [apply HR; set_solver|]. rewrite (ring_head _ _ _ HR). cbn [first].
    apply wp_bind. eapply (wp_dlist_remove lst [] n l); [done|]. intros m' HR' _ _ Hk. apply wp_ret. by apply HQ.
Qed.

(** ** Theorems *)

(** Lemma: the intrusive list of [dlist.h] implements a sequence.  Initialisation gives the
    empty sequence; append and prepend add an unlinked node at the ends; the head and each
    successor are read back in order (null at the end); removing any member leaves the rest
    in order with the node marked unlinked; no link outside the list changes. *)
Theorem dlist_refines_sequence m lst l n :
  Ring m lst l -> n ∉ lst :: l -> n <> 0 -> is_Some (m !! n) ->
  (exists m0, sys_dlist_init lst m = Done tt m0 /\ Ring m0 lst []) /\
  (exists m1, sys_dlist_append lst n m = Done tt m1 /\ Ring m1 lst (l ++ [n]) /\ dkeep (lst :: n :: l) m m1) /\
  (exists m2, sys_dlist_prepend lst n m = Done tt m2 /\ Ring m2 lst (n :: l) /\ dkeep (lst :: n :: l) m m2) /\
  sys_dlist_peek_head lst m = Done (first 0 l) m /\
  (forall l1 x l2, l = l1 ++ x :: l2 ->
     sys_dlist_peek_next lst x m = Done (first 0 l2) m /\
     exists m3, sys_dlist_remove x m = Done tt m3 /\ Ring m3 lst (l1 ++ l2) /\
       sys_dnode_is_linked x m3 = Done false m3 /\ dkeep (lst :: l) m m3).
Proof.
  intros HR Hn Hn0 Hv. pose proof (ring_nonnull _ _ _ HR) as H0.
  assert (Hl : is_Some (m !! lst)) by (apply HR; set_solver). split; [|split; [|split; [|split]]].
  - assert (W : wp (sys_dlist_init lst) (fun _ m' => Ring m' lst []) m) by (apply wp_dlist_init; [set_solver|done|auto]).
    apply wp_run in W as ([] & m' & ?). eauto.
  - assert (W : wp (sys_dlist_append lst n) (fun _ m' => Ring m' lst (l ++ [n]) /\ dkeep (lst :: n :: l) m m') m)
      by (apply (wp_dlist_append _ l); [done..|by intros]). apply wp_run in W as ([] & m' & ?). eauto.
  - assert (W : wp (sys_dlist_prepend lst n) (fun _ m' => Ring m' lst (n :: l) /\ dkeep (lst :: n :: l) m m') m)
      by (apply (wp_dlist_prepend _ l); [done..|by intros]). apply wp_run in W as ([] & m' & ?). eauto.
  - assert (W : wp (sys_dlist_peek_head lst) (fun x m' => x = first 0 l /\ m' = m) m)
      by (eapply wp_dlist_peek_head; [done|by split]). by apply wp_run in W as (? & ? & ? & -> & ->).
  - intros l1 x l2 ->. split.
    + assert (W : wp (sys_dlist_peek_next lst x) (fun y m' => y = first 0 l2 /\ m' = m) m)
        by (eapply wp_dlist_peek_next; [done|by split]). by apply wp_run in W as (? & ? & ? & -> & ->).
    + assert (W : wp (sys_dlist_remove x) (fun _ m' => Ring m' lst (l1 ++ l2) /\ nx m' x = 0 /\
        dkeep (lst :: l1 ++ x :: l2) m m') m) by (eapply wp_dlist_remove; [done|by intros]).
      apply wp_run in W as ([] & m3 & E & HR3 & Hx & Hk). exists m3. split; [done|]. split; [done|]. split; [|done].
      assert (W : wp (sys_dnode_is_linked x) (fun b m' => b = false /\ m' = m3) m3).
      { unfold sys_dnode_is_linked. wp_steps. apply wp_get_next; [apply Hk, HR; set_solver|]. wp_steps. by rewrite Hx. }
      by apply wp_run in W as (? & ? & ? & -> & ->).
Qed.

(** Lemma: [sys_dlist_insert(successor, node)] puts the node directly behind [successor].
    Its documentation says the node is inserted before the given position; for every ring
    and every member the code yields the sequence with the node after it. *)
Theorem dlist_insert_goes_behind m lst l1 p l2 n :
  Ring m lst (l1 ++ p :: l2) -> n ∉ lst :: l1 ++ p :: l2 -> n <> 0 -> is_Some (m !! n) ->
  exists m', sys_dlist_insert p n m = Done tt m' /\ Ring m' lst (l1 ++ p :: n :: l2) /\
    sys_dlist_peek_next lst p m' = Done n m'.
Proof.
  intros HR Hn Hn0 Hv.
  assert (W : wp (sys_dlist_insert p n) (fun _ m' => Ring m' lst (l1 ++ p :: n :: l2)) m)
    by (eapply wp_dlist_insert; eauto).
  apply wp_run in W as ([] & m' & E & HR'). exists m'. split; [done|]. split; [done|].
  assert (W : wp (sys_dlist_peek_next lst p) (fun y m1 => y = n /\ m1 = m') m')
    by (eapply wp_dlist_peek_next; [done|by split]). by apply wp_run in W as (? & ? & ? & -> & ->).
Qed.

(** A list anchored at 1 with the nodes 10 and 20, and the unlinked node 30. *)
Definition demo_dmem : dmem :=
  {[ 1 := mk_dnode 10 20; 10 := mk_dnode 20 1; 20 := mk_dnode 1 10; 30 := mk_dnode 0 0 ]}.

Lemma demo_ring : Ring demo_dmem 1 [10; 20].
Proof.
  split; [apply (bool_decide_unpack _); vm_compute; exact I|set_solver| |done|done|done].
  intros x Hx. repeat (apply elem_of_cons in Hx as [->|Hx]; [by eexists|]). set_solver.
Qed.

Lemma dlist_refines_sequence_witness :
  exists m1, sys_dlist_append 1 30 demo_dmem = Done tt m1 /\ Ring m1 1 [10; 20; 30] /\
    dkeep [1; 30; 10; 20] demo_dmem m1.
Proof.
  apply (dlist_refines_sequence demo_dmem 1 [10; 20] 30 demo_ring); [set_solver|done|by eexists].
Defined.

Lemma dlist_insert_goes_behind_witness :
  exists m', sys_dlist_insert 10 30 demo_dmem = Done tt m' /\ Ring m' 1 [10; 30; 20] /\
    sys_dlist_peek_next 1 10 m' = Done 30 m'.
Proof.
  apply (dlist_insert_goes_behind demo_dmem 1 [] 10 [20] 30 demo_ring); [set_solver|done|by eexists].
Defined.
