(* ===== verification/Slist.v ===== *)
(** * Singly linked lists

    Models [inc/sys/slist.h], whose operations are instances of the macros of
    [inc/sys/list.h].  A node is its address in a finite map of [next] pointers; a list is the
    record of its head and tail, returned by the operations that change it.

    The macro [GENLIST_PEENEXT_NO_CHECK] pastes [return] to the name of the accessor, so that
    its expansion calls an undeclared [returnsnode_next_peek]; the model takes the accessor.

    Proved: the operations implement a sequence of distinct nodes. *)

From Stdlib Require Import ZArith Lia Bool List.
From stdpp Require Import base tactics numbers list gmap.
From S2P Require Import Prelude DList.

Local Open Scope Z_scope.

(** ** Model *)

Record slist := mk_slist { head : Z; tail : Z }.
Notation LM := (ST (gmap Z Z)).

Definition sys_slist_init : slist := mk_slist 0 0.
Definition snode_next_peek (node : Z) : LM Z := s ← get; ofopt (s !! node).
Definition snode_next_set (parent child : Z) : LM unit := snode_next_peek parent;; modify (fun s => <[parent := child]> s).
Definition slist_head_set (l : slist) (node : Z) : slist := mk_slist node (tail l).
Definition slist_tail_set (l : slist) (node : Z) : slist := mk_slist (head l) node.
Definition sys_slist_peek_head (l : slist) : Z := head l.
Definition sys_slist_peek_tail (l : slist) : Z := tail l.
Definition sys_slist_is_empty (l : slist) : bool := sys_slist_peek_head l =? 0.
Definition sys_slist_peek_next_no_check (node : Z) : LM Z := snode_next_peek node.
Definition sys_slist_peek_next (node : Z) : LM Z := if negb (node =? 0) then sys_slist_peek_next_no_check node else mret 0.

Definition sys_slist_prepend (l : slist) (node : Z) : LM slist :=
  snode_next_set node (sys_slist_peek_head l);;
  let l := slist_head_set l node in
  mret (if sys_slist_peek_tail l =? 0 then slist_tail_set l (sys_slist_peek_head l) else l).

Definition sys_slist_append (l : slist) (node : Z) : LM slist :=
  snode_next_set node 0;;
  if sys_slist_peek_tail l =? 0 then mret (slist_head_set (slist_tail_set l node) node)
  else snode_next_set (sys_slist_peek_tail l) node;; mret (slist_tail_set l node).

Definition sys_slist_append_list (l : slist) (head tail : Z) : LM slist :=
  l ← (if sys_slist_peek_tail l =? 0 then mret (slist_head_set l head) else snode_next_set (sys_slist_peek_tail l) head;; mret l);
  mret (slist_tail_set l tail).

(** Returns both lists. *)
Definition sys_slist_merge_slist (l l' : slist) : LM (slist * slist) :=
  l ← sys_slist_append_list l (sys_slist_peek_head l') (sys_slist_peek_tail l'); mret (l, sys_slist_init).

Definition sys_slist_insert (l : slist) (prev node : Z) : LM slist :=
  if prev =? 0 then sys_slist_prepend l node
  else
    nx ← snode_next_peek prev;
    if nx =? 0 then sys_slist_append l node
    else
      nx ← snode_next_peek prev;
      snode_next_set node nx;;
      snode_next_set prev node;;
      mret l.

Definition sys_slist_get_not_empty (l : slist) : LM (Z * slist) :=
  let node := sys_slist_peek_head l in
  nx ← snode_next_peek node;
  let l := slist_head_set l nx in
  mret (node, if sys_slist_peek_tail l =? node then slist_tail_set l (sys_slist_peek_head l) else l).

Definition sys_slist_get (l : slist) : LM (Z * slist) := if sys_slist_is_empty l then mret (0, l) else sys_slist_get_not_empty l.

Definition sys_slist_remove (l : slist) (prev_node node : Z) : LM slist :=
  l ← (if prev_node =? 0 then
         nx ← snode_next_peek node;
         let l := slist_head_set l nx in
         mret (if sys_slist_peek_tail l =? node then slist_tail_set l (sys_slist_peek_head l) else l)
       else
         nx ← snode_next_peek node;
         snode_next_set prev_node nx;;
         mret (if sys_slist_peek_tail l =? node then slist_tail_set l prev_node else l));
  snode_next_set node 0;;
  mret l.

(** [GENLIST_FOR_EACH_NODE] with the search as its body; the walk visits distinct nodes. *)
Fixpoint find_loop (fuel : nat) (l : slist) (node prev test : Z) : LM (bool * slist) :=
  match fuel with
  | O => fail OutOfFuel
  | S fuel =>
    if test =? 0 then mret (false, l)
    else if test =? node then l ← sys_slist_remove l prev node; mret (true, l)
    else nx ← sys_slist_peek_next test; find_loop fuel l node test nx
  end.
Definition sys_slist_find_and_remove (l : slist) (node : Z) : LM (bool * slist) :=
  s ← get; find_loop (S (size s)) l node 0 (sys_slist_peek_head l).

(** The same walk, counting the nodes. *)
Fixpoint count_loop (fuel : nat) (node n : Z) : LM Z :=
  match fuel with
  | O => fail OutOfFuel
  | S fuel => if node =? 0 then mret n else nx ← sys_slist_peek_next node; count_loop fuel nx (u32 (n + 1))
  end.
Definition slist_count (l : slist) : LM Z := s ← get; count_loop (S (size s)) (sys_slist_peek_head l) 0.

(** ** Representation *)

(** The nodes [l] linked in order, the last one to [e]. *)
Fixpoint seg (nx : gmap Z Z) (l : list Z) (e : Z) : Prop :=
  match l with [] => True | w :: l => nx !! w = Some (first e l) /\ seg nx l e end.

Record SRep (nx : gmap Z Z) (s : slist) (l : list Z) : Prop := {
  sr_head : head s = first 0 l;
  sr_tail : tail s = final 0 l;
  sr_nodup : NoDup l;
  sr_null : 0 ∉ l;
  sr_seg : seg nx l 0;
}.

Lemma seg_app nx l1 l2 e : seg nx (l1 ++ l2) e <-> seg nx l1 (first e l2) /\ seg nx l2 e.
Proof. induction l1 as [|w l1 IH]; cbn [app seg]; [tauto|]. rewrite IH, first_app. tauto. Qed.

Lemma seg_frame nx nx' l e : seg nx l e -> (forall x, x ∈ l -> nx' !! x = nx !! x) -> seg nx' l e.
Proof.
  induction l as [|w l IH]; cbn [seg]; [done|]. intros [E Hs] Hf. split; [rewrite Hf; [done|constructor]|]. apply IH; [done|]. intros x Hx. apply Hf. by constructor.
Qed.

Lemma seg_insert nx l e x v : seg nx l e -> x ∉ l -> seg (<[x := v]> nx) l e.
Proof. intros Hs Hx. eapply seg_frame; [exact Hs|]. intros y Hy. apply lookup_insert_ne. by intros ->. Qed.

Lemma seg_mapped nx l e x : seg nx l e -> x ∈ l -> is_Some (nx !! x).
Proof. induction l as [|w l IH]; cbn [seg]; [by intros _ ?%not_elem_of_nil|]. intros [E Hs] [->|Hx]%elem_of_cons; [by eexists|by apply IH]. Qed.

Lemma seg_size nx l e : seg nx l e -> NoDup l -> (length l <= size nx)%nat.
Proof.
  intros Hs Hn. rewrite <-size_dom, <-(size_list_to_set (C := gset Z) l) by done. apply subseteq_size. intros x. rewrite elem_of_list_to_set, elem_of_dom. by apply seg_mapped with e.
Qed.

Lemma srep_init nx : SRep nx sys_slist_init [].
Proof. split; [done|done|constructor|apply not_elem_of_nil|done]. Qed.

Lemma srep_empty nx s l : SRep nx s l -> sys_slist_is_empty s = true <-> l = [].
Proof. intros R. unfold sys_slist_is_empty, sys_slist_peek_head. rewrite (sr_head _ _ _ R), Z.eqb_eq. apply first_null, R. Qed.

Lemma srep_frame nx nx' s l : SRep nx s l -> (forall x, x ∈ l -> nx' !! x = nx !! x) -> SRep nx' s l.
Proof. intros [] Hf. split; try done. by eapply seg_frame. Qed.

Lemma wp_next_peek node v (Q : Z -> gmap Z Z -> Prop) nx : nx !! node = Some v -> Q v nx -> wp (snode_next_peek node) Q nx.
Proof. intros E HQ. unfold snode_next_peek. apply wp_bind, wp_get. by eapply wp_ofopt. Qed.
Lemma wp_next_set node v (Q : unit -> gmap Z Z -> Prop) nx : is_Some (nx !! node) -> Q tt (<[node := v]> nx) -> wp (snode_next_set node v) Q nx.
Proof. intros [w E] HQ. unfold snode_next_set. apply wp_bind. eapply wp_next_peek; [exact E|]. by apply wp_modify. Qed.

(** The nodes outside [l] keep their links, and no node appears or disappears. *)
Record framed (l : list Z) (nx nx' : gmap Z Z) : Prop := {
  fr_dom : dom nx' = dom nx;
  fr_out : forall x, x ∉ l -> nx' !! x = nx !! x;
}.

Lemma framed_refl l nx : framed l nx nx.
Proof. done. Qed.
Lemma framed_trans l nx1 nx2 nx3 : framed l nx1 nx2 -> framed l nx2 nx3 -> framed l nx1 nx3.
Proof. intros [D1 O1] [D2 O2]. split; [congruence|]. intros x Hx. by rewrite O2, O1. Qed.
Lemma framed_mono l l' nx nx' : framed l nx nx' -> (forall x, x ∈ l -> x ∈ l') -> framed l' nx nx'.
Proof. intros [D O] Hs. split; [done|]. intros x Hx. apply O. intros ?. by apply Hx, Hs. Qed.
Lemma framed_set l nx x v : is_Some (nx !! x) -> x ∈ l -> framed l nx (<[x := v]> nx).
Proof.
  intros Hs Hx. split; [by rewrite dom_insert_lookup_L|]. intros y Hy. apply lookup_insert_ne. by intros ->.
Qed.
Lemma framed_some l nx nx' x : framed l nx nx' -> is_Some (nx !! x) -> is_Some (nx' !! x).
Proof. intros [D _]. by rewrite <-!elem_of_dom, D. Qed.
Lemma framed_set2 l nx x v y w : is_Some (nx !! x) -> is_Some (nx !! y) -> x ∈ l -> y ∈ l -> framed l nx (<[y := w]> (<[x := v]> nx)).
Proof. intros Sx Sy Hx Hy. assert (F := framed_set l nx x v Sx Hx). eapply framed_trans; [exact F|]. apply framed_set; [by eapply framed_some|done]. Qed.
#[export] Hint Resolve framed_refl framed_trans framed_set framed_set2 framed_some : slist.

Lemma seg_set_last nx l t e v : seg nx (l ++ [t]) e -> t ∉ l -> seg (<[t := v]> nx) (l ++ [t]) v.
Proof.
  rewrite !seg_app. cbn. intros [H1 _] Ht. split; [by apply seg_insert|]. by rewrite lookup_insert_eq.
Qed.

(** A sequence with a last member. *)
Lemma snoc_cases (l : list Z) : l = [] \/ exists l0 t, l = l0 ++ [t].
Proof. induction l as [|t l0 _] using rev_ind; [by left|]. right. by exists l0, t. Qed.

Lemma cons_cases (l : list Z) : l = [] \/ exists x l0, l = x :: l0.
Proof. destruct l as [|x l]; [by left|]. right. by exists x, l. Qed.

(** The walk from [x] ends at [x] only when it stops there. *)
Lemma final_fresh (x : Z) l : x ∉ l -> (final x l =? x) = true -> l = [].
Proof.
  intros Hx E%Z.eqb_eq. destruct l as [|y l]; [done|]. exfalso. apply Hx. rewrite <-E, final_cons.
  destruct (final_in y l) as [->|?]; [constructor|by constructor].
Qed.

Lemma nodup_snoc (l : list Z) x : NoDup (l ++ [x]) <-> NoDup l /\ x ∉ l.
Proof.
  rewrite NoDup_app. split.
  - intros (Hl & Hd & _). split; [done|]. intros Hx. apply (Hd x Hx). constructor.
  - intros [Hl Hx]. split; [done|]. split; [|apply NoDup_singleton]. by intros y Hy ->%list_elem_of_singleton.
Qed.

Lemma without_fresh (l : list Z) x : x ∉ l -> filter (.≠ x) l = l.
Proof.
  induction l as [|y l IH]; [done|]. rewrite elem_of_cons. intros Hx. rewrite filter_cons_True by (intros ->; tauto). f_equal. apply IH. tauto.
Qed.
Lemma without_mid (l1 l2 : list Z) x : x ∉ l1 ++ l2 -> filter (.≠ x) (l1 ++ x :: l2) = l1 ++ l2.
Proof. intros Hx. rewrite filter_app, filter_cons_False, <-filter_app by tauto. by apply without_fresh. Qed.

Lemma nodup_mid (l1 l2 : list Z) x : NoDup (l1 ++ x :: l2) <-> NoDup (l1 ++ l2) /\ x ∉ l1 ++ l2.
Proof. rewrite <-(Permutation_middle l1 l2 x), NoDup_cons. tauto. Qed.

Section Operations.
Context (nx : gmap Z Z) (s : slist) (l : list Z) (R : SRep nx s l).

Lemma srep_tail_null : sys_slist_peek_tail s = 0 <-> l = [].
Proof. unfold sys_slist_peek_tail. rewrite (sr_tail _ _ _ R). apply final_null, R. Qed.

Lemma wp_append x (Q : slist -> gmap Z Z -> Prop) :
  x ∉ l -> x <> 0 -> is_Some (nx !! x) ->
  (forall s' nx', SRep nx' s' (l ++ [x]) -> framed (l ++ [x]) nx nx' -> Q s' nx') -> wp (sys_slist_append s x) Q nx.
Proof.
  intros Hx H0 Hs HQ. destruct R as [Eh Et Hn Hz Hg]. unfold sys_slist_append. apply wp_bind, wp_next_set; [done|].
  assert (Hn' : NoDup (l ++ [x])) by by apply nodup_snoc.
  assert (Hz' : 0 ∉ l ++ [x]) by (rewrite elem_of_app, list_elem_of_singleton; intros [?|E]; [done|by apply H0]).
  destruct (snoc_cases l) as [El|(l0 & t & El)].
  - rewrite (proj2 (Z.eqb_eq _ _) (proj2 srep_tail_null El)). rewrite El in *. wp_steps. apply HQ.
    + split; try done. cbn. by rewrite lookup_insert_eq.
    + apply framed_set; [done|constructor].
  - assert (Ht : t ∈ l) by (rewrite El, elem_of_app; right; constructor).
    assert (Tt : sys_slist_peek_tail s = t) by (unfold sys_slist_peek_tail; by rewrite Et, El, final_app).
    assert (Ntx : t <> x) by by intros ->.
    rewrite (proj2 (Z.eqb_neq _ _)) by (rewrite srep_tail_null, El; by destruct l0). rewrite Tt. apply wp_bind, wp_next_set.
    { rewrite lookup_insert_ne by done. by eapply seg_mapped. }
    wp_steps. apply HQ.
    + split; try done; cbn.
      * rewrite Eh, first_app. by rewrite El; destruct l0.
      * by rewrite final_app.
      * apply seg_app. rewrite El in *. split; [|cbn; by rewrite lookup_insert_ne, lookup_insert_eq].
        eapply seg_set_last; [by apply seg_insert|]. by apply nodup_snoc in Hn as [_ ?].
    + apply framed_set2; [done|by eapply seg_mapped|rewrite elem_of_app, list_elem_of_singleton; by right|rewrite elem_of_app; by left].
Qed.

Lemma wp_prepend x (Q : slist -> gmap Z Z -> Prop) :
  x ∉ l -> x <> 0 -> is_Some (nx !! x) ->
  (forall s' nx', SRep nx' s' (x :: l) -> framed (x :: l) nx nx' -> Q s' nx') -> wp (sys_slist_prepend s x) Q nx.
Proof.
  intros Hx H0 Hs HQ. assert (Tn := srep_tail_null). destruct R as [Eh Et Hn Hz Hg]. unfold sys_slist_prepend. apply wp_bind, wp_next_set; [done|]. wp_steps.
  apply HQ; [|apply framed_set; [done|constructor]].
  assert (Hgx : seg (<[x := sys_slist_peek_head s]> nx) (x :: l) 0).
  { split; [by rewrite lookup_insert_eq; unfold sys_slist_peek_head; rewrite Eh|by apply seg_insert]. }
  assert (Hz' : 0 ∉ x :: l) by (rewrite elem_of_cons; intros [E|?]; [by apply H0|done]).
  assert (Hn' : NoDup (x :: l)) by by constructor.
  unfold sys_slist_peek_tail, slist_head_set in *; cbn in *. destruct (tail s =? 0) eqn:E.
  - apply Z.eqb_eq, Tn in E. subst l. by split.
  - split; try done. cbn. rewrite Et. destruct l; [|done]. by rewrite Et in E.
Qed.

Lemma wp_get_not_empty x l' (Q : Z * slist -> gmap Z Z -> Prop) :
  l = x :: l' -> (forall s', SRep nx s' l' -> Q (x, s') nx) -> wp (sys_slist_get_not_empty s) Q nx.
Proof.
  intros El HQ. destruct R as [Eh Et Hn Hz Hg]. rewrite El in *. cbn in Eh. destruct Hg as [Ex Hg]. apply NoDup_cons in Hn as [Hx Hn].
  unfold sys_slist_get_not_empty, sys_slist_peek_head. rewrite Eh. apply wp_bind. eapply wp_next_peek; [exact Ex|]. wp_steps. apply HQ.
  assert (Hz' : 0 ∉ l') by (intros ?; apply Hz; by constructor).
  unfold sys_slist_peek_tail, slist_head_set; cbn. rewrite Et, final_cons. destruct (final x l' =? x) eqn:E.
  - apply final_fresh in E as ->; [by split|done].
  - split; try done. cbn. destruct l'; [by rewrite Z.eqb_refl in E|by rewrite !final_cons].
Qed.

Lemma wp_slist_get (Q : Z * slist -> gmap Z Z -> Prop) :
  (forall s', SRep nx s' (List.tl l) -> Q (first 0 l, s') nx) -> wp (sys_slist_get s) Q nx.
Proof.
  intros HQ. unfold sys_slist_get. destruct (sys_slist_is_empty s) eqn:E.
  - wp_steps. apply (srep_empty _ _ _ R) in E. rewrite E in *. by apply HQ.
  - destruct (cons_cases l) as [El|(x & l' & El)]; [by rewrite (proj2 (srep_empty _ _ _ R) El) in E|].
    apply (wp_get_not_empty x l'); [done|]. by rewrite El in HQ.
Qed.

(** [remove] takes the node before the removed one, or null. *)
Lemma wp_remove l1 l2 x (Q : slist -> gmap Z Z -> Prop) :
  l = l1 ++ x :: l2 ->
  (forall s' nx', SRep nx' s' (l1 ++ l2) -> framed l nx nx' -> nx' !! x = Some 0 -> Q s' nx') ->
  wp (sys_slist_remove s (final 0 l1) x) Q nx.
Proof.
  intros El HQ. destruct R as [Eh Et Hn Hz Hg]. rewrite El in *. pose proof Hn as Hn0. apply nodup_mid in Hn as [Hn Hx].
  assert (Hz' : 0 ∉ l1 ++ l2) by (rewrite elem_of_app in *; intros ?; apply Hz; rewrite elem_of_cons; tauto).
  apply seg_app in Hg as [Hg1 [Ex Hg2]]. unfold sys_slist_remove. apply wp_bind.
  assert (Hx1 : x ∉ l1 /\ x ∉ l2) by (rewrite elem_of_app in Hx; tauto). destruct Hx1 as [Hx1 Hx2].
  assert (Xl : x ∈ l1 ++ x :: l2) by (rewrite elem_of_app; right; constructor).
  destruct (snoc_cases l1) as [E1|(l0 & p & E1)].
  - subst l1. cbn [List.last Z.eqb]. apply wp_bind. eapply wp_next_peek; [exact Ex|]. wp_steps. apply wp_next_set; [by eexists|]. wp_steps.
    apply HQ; [|apply framed_set; [by eexists|done]|by rewrite lookup_insert_eq].
    assert (S2 : seg (<[x := 0]> nx) l2 0) by by apply seg_insert.
    rewrite (final_cons 0 x l2 : final 0 ([] ++ x :: l2) = _) in Et. unfold sys_slist_peek_tail, slist_head_set; cbn. rewrite Et.
    destruct (final x l2 =? x) eqn:E.
    + apply final_fresh in E as ->; [by split|done].
    + split; try done. cbn. destruct l2; [by rewrite Z.eqb_refl in E|by rewrite !final_cons].
  - assert (Fp : final 0 l1 = p) by by rewrite E1, final_app. rewrite Fp.
    assert (Pl : p ∈ l1) by (rewrite E1, elem_of_app; right; constructor).
    assert (Np : p <> 0) by (intros ->; apply Hz'; rewrite elem_of_app; by left).
    assert (Sp : is_Some (nx !! p)) by exact (seg_mapped _ _ _ _ Hg1 Pl).
    assert (Nxp : x <> p) by by intros ->.
    rewrite (proj2 (Z.eqb_neq _ _) Np). apply wp_bind. eapply wp_next_peek; [exact Ex|]. apply wp_bind, wp_next_set; [done|]. wp_steps.
    apply wp_next_set; [rewrite lookup_insert_ne by done; by eexists|]. wp_steps.
    apply HQ; [|apply framed_set2; [done|by eexists|rewrite elem_of_app; by left|done]|by rewrite lookup_insert_eq].
    assert (Sg : seg (<[x := 0]> (<[p := first 0 l2]> nx)) (l1 ++ l2) 0).
    { apply seg_insert; [|done]. apply seg_app. split.
      - subst l1. eapply seg_set_last; [exact Hg1|]. apply NoDup_app in Hn as [Hn _]. by apply nodup_snoc in Hn as [_ ?].
      - apply seg_insert; [done|]. intros Hp. apply NoDup_app in Hn as (_ & Hd & _). by apply (Hd p). }
    rewrite final_app, Fp, (final_cons p x l2) in Et. unfold sys_slist_peek_tail. rewrite Et.
    destruct (final x l2 =? x) eqn:E.
    + apply final_fresh in E as ->; [|done].
      split; try done; cbn; [rewrite Eh, E1; by rewrite !first_app|by rewrite app_nil_r].
    + split; try done; [rewrite Eh, E1; by destruct l0|]. rewrite Et, final_app. destruct l2; [by rewrite Z.eqb_refl in E|by rewrite !final_cons].
Qed.

Lemma wp_insert l1 p l2 x (Q : slist -> gmap Z Z -> Prop) :
  l = l1 ++ p :: l2 -> x ∉ l -> x <> 0 -> is_Some (nx !! x) ->
  (forall s' nx', SRep nx' s' (l1 ++ p :: x :: l2) -> framed (x :: l) nx nx' -> Q s' nx') -> wp (sys_slist_insert s p x) Q nx.
Proof.
  intros El Hx H0 Hs HQ. destruct R as [Eh Et Hn Hz Hg]. assert (Pl : p ∈ l) by (rewrite El, elem_of_app; right; constructor).
  assert (Np : p <> 0) by by intros ->. unfold sys_slist_insert. rewrite (proj2 (Z.eqb_neq _ _) Np). pose proof Hg as Hg0. rewrite El in Hg.
  apply seg_app in Hg as [Hg1 [Ep Hg2]]. apply wp_bind. eapply wp_next_peek; [exact Ep|]. destruct (first 0 l2 =? 0) eqn:E.
  - apply Z.eqb_eq, first_null in E; [|intros ?; apply Hz; rewrite El, elem_of_app, elem_of_cons; tauto]. subst l2.
    apply wp_append; [done..|]. intros s' nx' R' F. apply HQ; [by rewrite El, <-app_assoc in R'|].
    eapply framed_mono; [exact F|]. intros y. rewrite elem_of_app, list_elem_of_singleton, elem_of_cons. tauto.
  - apply wp_bind. eapply wp_next_peek; [exact Ep|]. apply wp_bind, wp_next_set; [done|]. apply wp_bind, wp_next_set.
    { rewrite lookup_insert_ne by (by intros ->). by eexists. }
    wp_steps. apply HQ; [|apply framed_set2; [done|by eexists|constructor|by constructor]].
    assert (E' : l1 ++ p :: x :: l2 = (l1 ++ [p]) ++ x :: l2) by by rewrite <-app_assoc.
    assert (Eq' : l1 ++ p :: l2 = (l1 ++ [p]) ++ l2) by by rewrite <-app_assoc.
    assert (NE : l2 <> []) by by intros ->.
    split.
    + rewrite Eh, El. by destruct l1.
    + rewrite Et, El, E', Eq', !final_app. destruct l2; [done|]. by rewrite !final_cons.
    + rewrite E'. apply nodup_mid. rewrite <-Eq', <-El. done.
    + rewrite El in Hz. rewrite !elem_of_app, !elem_of_cons in *. intros [?|[?|[E0|?]]]; [tauto..|by apply H0|tauto].
    + rewrite El in Hn, Hx. apply nodup_mid in Hn as [Hn Hp]. rewrite elem_of_app, elem_of_cons in Hx. rewrite elem_of_app in Hp. rewrite E'. apply seg_app. split.
      * apply (seg_set_last _ _ _ (first 0 l2)); [|tauto]. apply seg_insert; [|rewrite elem_of_app, list_elem_of_singleton; tauto]. apply seg_app. split; [exact Hg1|]. done.
      * split; [rewrite lookup_insert_ne, lookup_insert_eq; [done|by intros ->; tauto]|]. apply seg_insert; [apply seg_insert|]; tauto.
Qed.

Lemma find_loop_found fuel l1 l2 x prev (Q : bool * slist -> gmap Z Z -> Prop) :
  l = l1 ++ l2 -> x ∉ l1 -> prev = final 0 l1 -> (length l2 < fuel)%nat ->
  (x ∈ l2 -> forall s' nx', SRep nx' s' (filter (.≠ x) l) -> framed l nx nx' -> nx' !! x = Some 0 -> Q (true, s') nx') ->
  (x ∉ l2 -> Q (false, s) nx) ->
  wp (find_loop fuel s x prev (first 0 l2)) Q nx.
Proof.
  revert fuel l1 prev. induction l2 as [|y l2 IH]; intros [|fuel] l1 prev El Hx Ep Hf HQ HN; cbn [length] in Hf; [lia| |lia|]; cbn [find_loop].
  { rewrite (Z.eqb_refl 0 : (List.hd 0 [] =? 0) = true). wp_steps. apply HN, not_elem_of_nil. }
  change (List.hd 0 (y :: l2)) with y. assert (Ry := R). destruct Ry as [_ _ Hn Hz Hg].
  assert (Yl : y ∈ l) by (rewrite El, elem_of_app; right; constructor). rewrite (proj2 (Z.eqb_neq y 0)) by by intros ->.
  rewrite El in Hg. apply seg_app in Hg as [_ [Ey Hg]]. destruct (y =? x) eqn:E.
  - apply Z.eqb_eq in E as ->. subst prev. apply wp_bind. eapply wp_remove; [exact El|]. intros s' nx' R' F E0. wp_steps. apply HQ; [constructor| |done|done].
    rewrite El in Hn. apply nodup_mid in Hn as [_ Hn]. by rewrite El, without_mid.
  - apply Z.eqb_neq in E. apply wp_bind. unfold sys_slist_peek_next. rewrite (proj2 (Z.eqb_neq y 0)) by by intros ->.
    eapply wp_next_peek; [exact Ey|]. apply (IH fuel (l1 ++ [y])).
    + by rewrite El, <-app_assoc.
    + rewrite elem_of_app, list_elem_of_singleton. intros [?|?]; [done|by apply E].
    + by rewrite final_app.
    + lia.
    + intros Hi. apply HQ. by constructor.
    + intros Hi. apply HN. rewrite elem_of_cons. intros [?|?]; [by apply E|done].
Qed.

Lemma wp_find_and_remove x (Q : bool * slist -> gmap Z Z -> Prop) :
  (x ∈ l -> forall s' nx', SRep nx' s' (filter (.≠ x) l) -> framed l nx nx' -> nx' !! x = Some 0 -> Q (true, s') nx') ->
  (x ∉ l -> Q (false, s) nx) ->
  wp (sys_slist_find_and_remove s x) Q nx.
Proof.
  intros HQ HN. unfold sys_slist_find_and_remove. apply wp_bind, wp_get. unfold sys_slist_peek_head. rewrite (sr_head _ _ _ R).
  apply (find_loop_found _ [] l); [done|apply not_elem_of_nil|done| |done|done].
  apply Nat.lt_succ_r. apply (seg_size _ _ 0); apply R.
Qed.

Lemma count_loop_length fuel l1 l2 n (Q : Z -> gmap Z Z -> Prop) :
  l = l1 ++ l2 -> (length l2 < fuel)%nat -> Q (u32 (n + Z.of_nat (length l2))) nx -> 0 <= n < 2 ^ 32 -> wp (count_loop fuel (first 0 l2) n) Q nx.
Proof.
  revert fuel l1 n. induction l2 as [|y l2 IH]; intros [|fuel] l1 n El Hf HQ Hn; cbn [length] in *; [lia| |lia|]; cbn [count_loop].
  { rewrite (Z.eqb_refl 0 : (List.hd 0 [] =? 0) = true). wp_steps. rewrite Z.add_0_r in HQ. unfold u32 in HQ. by rewrite Z.mod_small in HQ. }
  change (List.hd 0 (y :: l2)) with y. assert (Ry := R). destruct Ry as [_ _ _ Hz Hg].
  assert (Yl : y ∈ l) by (rewrite El, elem_of_app; right; constructor).
  assert (Ny : (y =? 0) = false) by (apply Z.eqb_neq; by intros ->). rewrite Ny.
  rewrite El in Hg. apply seg_app in Hg as [_ [Ey Hg]]. apply wp_bind. unfold sys_slist_peek_next. rewrite Ny.
  eapply wp_next_peek; [exact Ey|]. apply (IH fuel (l1 ++ [y])); [by rewrite El, <-app_assoc|lia| |apply Z.mod_pos_bound; lia].
  unfold u32 in *. rewrite Zplus_mod_idemp_l. by replace (n + 1 + Z.of_nat (length l2)) with (n + Z.of_nat (S (length l2))) by lia.
Qed.

Lemma wp_count (Q : Z -> gmap Z Z -> Prop) : Q (u32 (Z.of_nat (length l))) nx -> wp (slist_count s) Q nx.
Proof.
  intros HQ. unfold slist_count. apply wp_bind, wp_get. unfold sys_slist_peek_head. rewrite (sr_head _ _ _ R).
  apply (count_loop_length _ [] l); [done| |done|lia]. apply Nat.lt_succ_r. apply (seg_size _ _ 0); apply R.
Qed.

Lemma wp_merge_slist s2 l2 (Q : slist * slist -> gmap Z Z -> Prop) :
  SRep nx s2 l2 -> l2 <> [] -> (forall x, x ∈ l -> x ∉ l2) ->
  (forall s' nx', SRep nx' s' (l ++ l2) -> framed l nx nx' -> Q (s', sys_slist_init) nx') -> wp (sys_slist_merge_slist s s2) Q nx.
Proof.
  intros [Eh2 Et2 Hn2 Hz2 Hg2] Hne Hd HQ. unfold sys_slist_merge_slist, sys_slist_append_list. apply wp_bind, wp_bind.
  unfold sys_slist_peek_head. rewrite Eh2. assert (Tn := srep_tail_null). destruct R as [Eh Et Hn Hz Hg].
  assert (Hz' : 0 ∉ l ++ l2) by (rewrite elem_of_app; tauto). assert (Hn' : NoDup (l ++ l2)) by by apply NoDup_app.
  assert (Tl : tail s2 = final 0 (l ++ l2)) by (rewrite final_app, Et2; destruct l2; [done|by rewrite !final_cons]).
  destruct (snoc_cases l) as [El|(l0 & t & El)].
  - rewrite (proj2 (Z.eqb_eq _ _) (proj2 Tn El)). rewrite El in *. wp_steps. apply HQ; [by split|done].
  - rewrite (proj2 (Z.eqb_neq _ _)) by (rewrite Tn, El; by destruct l0). unfold sys_slist_peek_tail. rewrite Et.
    assert (Ft : final 0 l = t) by by rewrite El, final_app. rewrite Ft. assert (Tin : t ∈ l) by (rewrite El, elem_of_app; right; constructor).
    assert (St := seg_mapped _ _ _ _ Hg Tin). apply wp_bind, wp_next_set; [done|]. wp_steps. apply HQ; [|by apply framed_set].
    split; [|done..|]; cbn; [rewrite Eh, El; by destruct l0|].
    apply seg_app. split; [|by apply seg_insert, Hd]. rewrite El in *. eapply seg_set_last; [exact Hg|]. by apply nodup_snoc in Hn as [_ ?].
Qed.

(** Appending the empty list leaves a chain whose list has no tail: the next append takes it
    for an empty list and its members are unlinked. *)
Lemma merge_empty_lost x : l <> [] -> x ∉ l -> x <> 0 -> is_Some (nx !! x) ->
  wp (p ← sys_slist_merge_slist s sys_slist_init; sys_slist_append p.1 x) (fun s' nx' => SRep nx' s' [x]) nx.
Proof.
  intros Hne Hx H0 Hs. assert (Tn := srep_tail_null). destruct R as [Eh Et Hn Hz Hg]. unfold sys_slist_merge_slist, sys_slist_append_list.
  apply wp_bind, wp_bind, wp_bind. rewrite (proj2 (Z.eqb_neq _ _)) by by rewrite Tn. unfold sys_slist_peek_tail at 1. rewrite Et.
  assert (Fi : final 0 l ∈ l). { destruct (final_in 0 l) as [E|?]; [|done]. exfalso. apply final_null in E; [done|done]. }
  apply wp_bind, wp_next_set; [by eapply seg_mapped|]. wp_steps. unfold sys_slist_append. apply wp_bind, wp_next_set.
  { rewrite lookup_insert_ne; [done|]. by intros <-. }
  cbn. wp_steps. split; try done; [apply NoDup_singleton|by rewrite list_elem_of_singleton; intros ?; apply H0|].
  cbn. by rewrite lookup_insert_eq.
Qed.

End Operations.

(** ** Sequences of operations *)

Inductive sop := Prepend (x : Z) | Append (x : Z) | Insert (prev x : Z) | Get | FindRemove (x : Z) | Count.

Definition run_sop (s : slist) (o : sop) : LM (Z * slist) :=
  match o with
  | Prepend x => s ← sys_slist_prepend s x; mret (0, s)
  | Append x => s ← sys_slist_append s x; mret (0, s)
  | Insert p x => s ← sys_slist_insert s p x; mret (0, s)
  | Get => sys_slist_get s
  | FindRemove x => p ← sys_slist_find_and_remove s x; mret (Z.b2z p.1, p.2)
  | Count => n ← slist_count s; mret (n, s)
  end.

Fixpoint run_sops (s : slist) (os : list sop) : LM (list Z * slist) :=
  match os with
  | [] => mret ([], s)
  | o :: os => p ← run_sop s o; q ← run_sops p.2 os; mret (p.1 :: q.1, q.2)
  end.

(** A sequence of distinct nodes; inserting a member, the null pointer or after a node outside
    is not allowed. *)
Fixpoint insert_after (p x : Z) (l : list Z) : list Z :=
  match l with [] => [] | y :: l => if decide (y = p) then y :: x :: l else y :: insert_after p x l end.

Definition spec_sop (l : list Z) (o : sop) : option (Z * list Z) :=
  let fresh x r := if decide (x <> 0 /\ x ∉ l) then Some (0, r) else None in
  match o with
  | Prepend x => fresh x (x :: l)
  | Append x => fresh x (l ++ [x])
  | Insert p x => if decide (p ∈ l) then fresh x (insert_after p x l) else None
  | Get => Some (first 0 l, List.tl l)
  | FindRemove x => Some (Z.b2z (bool_decide (x ∈ l)), filter (.≠ x) l)
  | Count => Some (u32 (Z.of_nat (length l)), l)
  end.

Fixpoint spec_sops (l : list Z) (os : list sop) : option (list Z * list Z) :=
  match os with
  | [] => Some ([], l)
  | o :: os => p ← spec_sop l o; q ← spec_sops p.2 os; Some (p.1 :: q.1, q.2)
  end.

(** The nodes an operation names are in memory. *)
Definition op_nodes (o : sop) : list Z :=
  match o with Prepend x | Append x | Insert _ x => [x] | _ => [] end.

Lemma insert_after_split l p x : p ∈ l -> exists l1 l2, l = l1 ++ p :: l2 /\ insert_after p x l = l1 ++ p :: x :: l2.
Proof.
  induction l as [|y l IH]; [by intros ?%not_elem_of_nil|]. cbn [insert_after]. destruct (decide (y = p)) as [->|Hy].
  - intros _. by exists [], l.
  - rewrite elem_of_cons. intros [->|(l1 & l2 & E1 & E2)%IH]; [done|]. exists (y :: l1), l2. by rewrite E2, E1.
Qed.

Lemma run_sop_spec nx s l o r l' :
  SRep nx s l -> Forall (fun x => is_Some (nx !! x)) (op_nodes o) -> spec_sop l o = Some (r, l') ->
  wp (run_sop s o) (fun p nx' => p.1 = r /\ SRep nx' p.2 l' /\ framed (op_nodes o ++ l) nx nx') nx.
Proof.
  intros R Hn Es. destruct o as [x|x|p x| |x|]; cbn [run_sop op_nodes app spec_sop] in *.
  all: repeat match type of Es with (if decide ?P then _ else _) = _ => destruct (decide P); [|done] end; simplify_eq.
  all: try match type of Hn with Forall _ [_] => rewrite Forall_singleton in Hn end; try destruct_and!.
  - apply wp_bind, (wp_prepend _ _ _ R); [done..|]. intros s' nx' R' F. by wp_steps.
  - apply wp_bind, (wp_append _ _ _ R); [done..|]. intros s' nx' R' F. wp_steps. split; [done|]. split; [done|].
    eapply framed_mono; [exact F|]. intros y. rewrite elem_of_app, list_elem_of_singleton, elem_of_cons. tauto.
  - destruct (insert_after_split l p x) as (l1 & l2 & E1 & E2); [done|]. rewrite E2. apply wp_bind, (wp_insert _ _ _ R l1 p l2); [done..|].
    intros s' nx' R' F. by wp_steps.
  - apply (wp_slist_get _ _ _ R). intros s' R'. done.
  - apply wp_bind, (wp_find_and_remove _ _ _ R).
    + intros Hx s' nx' R' F _. wp_steps. by rewrite bool_decide_true.
    + intros Hx. wp_steps. rewrite bool_decide_false, without_fresh by done. done.
  - apply wp_bind, (wp_count _ _ _ R). by wp_steps.
Qed.

Lemma run_sops_spec os : forall nx s l rs l',
  SRep nx s l -> Forall (fun x => is_Some (nx !! x)) (concat (op_nodes <$> os)) -> spec_sops l os = Some (rs, l') ->
  wp (run_sops s os) (fun p nx' => p.1 = rs /\ SRep nx' p.2 l' /\ dom nx' = dom nx) nx.
Proof.
  induction os as [|o os IH]; intros nx s l rs l' R Hn Es; cbn [run_sops spec_sops fmap list_fmap concat] in *.
  - simplify_eq. by wp_steps.
  - destruct (spec_sop l o) as [[r l1]|] eqn:E1; [|done]. cbn in Es. destruct (spec_sops l1 os) as [[rs1 l2]|] eqn:E2; [|done]. cbn in Es. simplify_eq.
    apply Forall_app in Hn as [Hn1 Hn2]. eapply wp_seq; [by eapply run_sop_spec|]. intros [r1 s1] nx1 (E & R1 & F). cbn in *. subst r1.
    eapply wp_seq; [eapply IH; [exact R1| |exact E2]|].
    + eapply Forall_impl; [exact Hn2|]. intros x Hx. by eapply framed_some.
    + intros [rs2 s2] nx2 (-> & R2 & D). wp_steps. split; [done|]. split; [done|]. rewrite D. apply F.
Qed.

(** From an empty list, every sequence of operations that a sequence of distinct nodes allows
    runs to the end, returns what it returns and leaves a list that links exactly its members,
    in order; no node is created or lost from memory. *)
Theorem slist_refines_sequence nx os rs l' :
  Forall (fun x => is_Some (nx !! x)) (concat (op_nodes <$> os)) -> spec_sops [] os = Some (rs, l') ->
  exists s' nx', run_sops sys_slist_init os nx = Done (rs, s') nx' /\ SRep nx' s' l' /\ dom nx' = dom nx.
Proof.
  intros Hn Es. destruct (proj1 (wp_run _ _ _) (run_sops_spec os nx _ _ _ _ (srep_init nx) Hn Es)) as ([rs1 s1] & nx1 & E & Er & R & D). cbn in Er, R. subst rs1.
  by exists s1, nx1.
Qed.

(** Merging an empty list into a list that is not empty drops its tail: a node appended next
    replaces all its members. *)
Theorem slist_merge_empty_loses nx s l x :
  SRep nx s l -> l <> [] -> x ∉ l -> x <> 0 -> is_Some (nx !! x) ->
  exists s' nx', (p ← sys_slist_merge_slist s sys_slist_init; sys_slist_append p.1 x) nx = Done s' nx' /\ SRep nx' s' [x].
Proof. intros R Hne Hx H0 Hs. exact (proj1 (wp_run _ _ _) (merge_empty_lost _ _ _ R x Hne Hx H0 Hs)). Qed.

(** ** Witnesses *)

Definition demo_links : gmap Z Z := {[ 8 := 0; 16 := 0; 24 := 0; 32 := 0 ]}.
Definition demo_ops : list sop := [Append 8; Append 16; Prepend 24; Insert 8 32; FindRemove 16; FindRemove 16; Count; Get].

Lemma slist_refines_sequence_witness :
  exists s' nx', run_sops sys_slist_init demo_ops demo_links = Done ([0; 0; 0; 0; 1; 0; 3; 24], s') nx' /\ SRep nx' s' [8; 32] /\ dom nx' = dom demo_links.
Proof.
  assert (Hn : Forall (fun x => is_Some (demo_links !! x)) (concat (op_nodes <$> demo_ops))).
  { repeat (constructor; [by vm_compute; eexists|]). constructor. }
  exact (slist_refines_sequence demo_links demo_ops _ _ Hn eq_refl).
Defined.

Lemma slist_merge_empty_loses_witness :
  exists s' nx', (p ← sys_slist_merge_slist (mk_slist 8 8) sys_slist_init; sys_slist_append p.1 16) demo_links = Done s' nx' /\ SRep nx' s' [16].
Proof.
  assert (R : SRep demo_links (mk_slist 8 8) [8]).
  { split; [done|done|apply NoDup_singleton|by rewrite list_elem_of_singleton|done]. }
  exact (slist_merge_empty_loses demo_links _ [8] 16 R ltac:(done) ltac:(by rewrite list_elem_of_singleton) ltac:(done) ltac:(by vm_compute; eexists)).
Defined.
