(* ===== verification/Onoff.v ===== *)
(** * On-off services

    Models [src/lib/sys/onoff.c] and the inline functions of [inc/sys/onoff.h]: a service that
    is switched on for its first client and off after its last one, by transition functions
    that report completion through a notify function.

    The state is one service, the clients it may be given, the links of their nodes (a node is
    the first field of its client) and a log of what the code did to its surroundings: which
    transition functions it called and which client handlers it ran.  The transition functions
    and handlers are not part of the source; every call of one is the last action of the
    operation or is made outside the lock, so that a completion reported before the transition
    function returns is the same as one reported right after.  [is_thread_in_isr] is an
    argument.  [CONFIG_POLL] is off, as in the board configuration.

    The second half defines the machine that the service implements; [OnoffTheorems.v] proves
    it. *)

From Stdlib Require Import ZArith Lia Bool List.
From stdpp Require Import base tactics numbers list gmap.
From S2P Require Import Prelude DList Slist.

Local Open Scope Z_scope.

(** ** Data *)

Definition ONOFF_SERVICE_START_SLEEPS : Z := 1.
Definition ONOFF_SERVICE_STOP_SLEEPS : Z := 2.
Definition ONOFF_SERVICE_RESET_SLEEPS : Z := 4.
Definition ONOFF_SERVICE_HAS_ERROR : Z := 8.
Definition ONOFF_SERVICE_INTERNAL_BASE : Z := 16.
Definition ONOFF_CLIENT_NOTIFY_INVALID : Z := 0.
Definition ONOFF_CLIENT_NOTIFY_SPINWAIT : Z := 1.
Definition ONOFF_CLIENT_NOTIFY_SIGNAL : Z := 2.
Definition ONOFF_CLIENT_NOTIFY_CALLBACK : Z := 3.

Definition CLIENT_NOTIFY_METHOD_MASK : Z := 3.
Definition CLIENT_VALID_FLAGS_MASK : Z := 7.
Definition SERVICE_CONFIG_FLAGS : Z := Z.lor (Z.lor ONOFF_SERVICE_START_SLEEPS ONOFF_SERVICE_STOP_SLEEPS) ONOFF_SERVICE_RESET_SLEEPS.
Definition SERVICE_REFS_MAX : Z := 65535.
Definition SERVICE_STATE_OFF : Z := 0.
Definition SERVICE_STATE_ON : Z := ONOFF_SERVICE_INTERNAL_BASE.
Definition SERVICE_STATE_TRANSITION : Z := Z.shiftl ONOFF_SERVICE_INTERNAL_BASE 1.
Definition SERVICE_STATE_TO_ON : Z := Z.lor SERVICE_STATE_TRANSITION SERVICE_STATE_ON.
Definition SERVICE_STATE_TO_OFF : Z := Z.lor SERVICE_STATE_TRANSITION SERVICE_STATE_OFF.
Definition SERVICE_STATE_MASK : Z := Z.lor SERVICE_STATE_ON SERVICE_STATE_TRANSITION.

Definition EIO : Z := 5.
Definition EAGAIN : Z := 11.
Definition EWOULDBLOCK : Z := EAGAIN.
Definition EBUSY : Z := 16.
Definition EINVAL : Z := 22.
Definition ENOTSUP : Z := 35.
Definition EALREADY : Z := 69.
Definition ECANCELED : Z := 72.

Record onoff_service := mk_service {
  clients : slist; start_fn : Z; stop_fn : Z; reset_fn : Z; releaser : Z; sflag : Z; refs : Z;
}.
Record onoff_client := mk_client { handler : Z; user_data : Z; result : Z; cflag : Z }.

Inductive transition := Start | Stop | Reset.
Inductive event :=
| Invoke (t : transition)
| Complete (t : transition) (res : Z)
| Called (handler srv cli user_data res : Z).

Record world := mk_world { links : gmap Z Z; cls : gmap Z onoff_client; service : onoff_service; log : list event }.
Notation OM := (ST world).

Definition with_clients (l : slist) (s : onoff_service) := mk_service l (start_fn s) (stop_fn s) (reset_fn s) (releaser s) (sflag s) (refs s).
Definition with_releaser (r : Z) (s : onoff_service) := mk_service (clients s) (start_fn s) (stop_fn s) (reset_fn s) r (sflag s) (refs s).
Definition with_flag (f : Z) (s : onoff_service) := mk_service (clients s) (start_fn s) (stop_fn s) (reset_fn s) (releaser s) (u16 f) (refs s).
Definition with_refs (n : Z) (s : onoff_service) := mk_service (clients s) (start_fn s) (stop_fn s) (reset_fn s) (releaser s) (sflag s) (u16 n).
Definition with_result (r : Z) (c : onoff_client) := mk_client (handler c) (user_data c) r (cflag c).
Definition with_cflag (f : Z) (c : onoff_client) := mk_client (handler c) (user_data c) (result c) f.

(** Accesses through the service and client pointers. *)
Definition sv {A} (srv : Z) (f : onoff_service -> A) : OM A := if srv =? 0 then fail Fault else gets (fun w => f (service w)).
Definition sv_set (srv : Z) (f : onoff_service -> onoff_service) : OM unit :=
  if srv =? 0 then fail Fault else modify (fun w => mk_world (links w) (cls w) (f (service w)) (log w)).
Definition cl {A} (cli : Z) (f : onoff_client -> A) : OM A := w ← get; c ← ofopt (cls w !! cli); mret (f c).
Definition cl_set (cli : Z) (f : onoff_client -> onoff_client) : OM unit :=
  w ← get; c ← ofopt (cls w !! cli); modify (fun w => mk_world (links w) (<[cli := f c]> (cls w)) (service w) (log w)).
Definition emit (e : event) : OM unit := modify (fun w => mk_world (links w) (cls w) (service w) (log w ++ [e])).

(** List operations, on the links. *)
Definition lst {A} (m : LM A) : OM A := fun w =>
  match m (links w) with Done a nx => Done a (mk_world nx (cls w) (service w) (log w)) | Fail e => Fail e end.

Definition bit_set (f b : Z) : bool := negb (Z.land f b =? 0).

(** ** Operations *)

Section Code.
Context `{Config}.

Definition set_service_state (srv state : Z) : OM unit :=
  f ← sv srv sflag;
  sv_set srv (with_flag (Z.land f (Z.lnot SERVICE_STATE_MASK)));;
  f ← sv srv sflag;
  sv_set srv (with_flag (Z.lor f (Z.land state SERVICE_STATE_MASK))).

Definition validate_args (srv cli : Z) : OM Z :=
  if (srv =? 0) || (cli =? 0) then mret (- EINVAL)
  else
    mode ← cl cli cflag;
    f ← cl cli cflag;
    if negb (mode =? Z.land f CLIENT_VALID_FLAGS_MASK) then mret (- EINVAL)
    else
      rv ← (let method := Z.land mode CLIENT_NOTIFY_METHOD_MASK in
            if method =? ONOFF_CLIENT_NOTIFY_SPINWAIT then mret 0
            else if method =? ONOFF_CLIENT_NOTIFY_CALLBACK then
              h ← cl cli handler; mret (if h =? 0 then - EINVAL else 0)
            else mret (- EINVAL));
      when (rv =? 0) (cl_set cli (with_result 0));;
      mret rv.

Definition onoff_service_init (srv start stop reset flag : Z) : OM Z :=
  if negb (Z.land flag SERVICE_CONFIG_FLAGS =? flag) then mret (- EINVAL)
  else if (start =? 0) || (stop =? 0) then mret (- EINVAL)
  else sv_set srv (fun _ => mk_service (mk_slist 0 0) start stop reset 0 (u16 flag) 0);; mret 0.

Definition notify_one (srv cli res : Z) : OM unit :=
  flag ← cl cli cflag;
  cl_set cli (with_result res);;
  cl_set cli (with_cflag 0);;
  let method := Z.land flag CLIENT_NOTIFY_METHOD_MASK in
  if method =? ONOFF_CLIENT_NOTIFY_SPINWAIT then skip
  else if method =? ONOFF_CLIENT_NOTIFY_CALLBACK then
    h ← cl cli handler;
    d ← cl cli user_data;
    if h =? 0 then fail Fault else emit (Called h srv cli d res)
  else assert_ false.

(** The list has at most as many members as there are nodes. *)
Fixpoint notify_loop (fuel : nat) (srv : Z) (l : slist) (res : Z) : OM unit :=
  match fuel with
  | O => fail OutOfFuel
  | S fuel =>
    if sys_slist_is_empty l then skip
    else p ← lst (sys_slist_get_not_empty l); notify_one srv p.1 res;; notify_loop fuel srv p.2 res
  end.
Definition notify_all (srv : Z) (l : slist) (res : Z) : OM unit := w ← get; notify_loop (S (size (links w))) srv l res.

(** The call of a transition function. *)
Definition invoke (srv : Z) (t : transition) : OM unit :=
  fn ← sv srv (match t with Start => start_fn | Stop => stop_fn | Reset => reset_fn end);
  if fn =? 0 then fail Fault else emit (Invoke t).

(** What follows the read of the client list, which is made before the lock is taken. *)
Definition start_notify_locked (srv : Z) (clients : slist) (res : Z) : OM unit :=
  (if res <? 0 then
     f ← sv srv sflag;
     sv_set srv (with_flag (Z.land f (Z.lnot SERVICE_STATE_TRANSITION)));;
     f ← sv srv sflag;
     sv_set srv (with_flag (Z.lor f ONOFF_SERVICE_HAS_ERROR))
   else
     set_service_state srv SERVICE_STATE_ON;;
     n ← lst (slist_count clients);
     r ← sv srv refs;
     (if r >? u32 (SERVICE_REFS_MAX - n) then
        f ← sv srv sflag; sv_set srv (with_flag (Z.lor f ONOFF_SERVICE_HAS_ERROR))
      else
        r ← sv srv refs; sv_set srv (with_refs (r + n)));;
     r ← sv srv refs;
     assert_ (r >? 0));;
  sv_set srv (with_clients sys_slist_init);;
  notify_all srv clients res.

Definition onoff_start_notify (srv res : Z) : OM unit :=
  l ← sv srv clients;
  r ← sv srv releaser;
  assert_ (r =? 0);;
  start_notify_locked srv l res.

(** The outcome of the locked part of a request: add the client, start, notify, result. *)
Definition request_case (isr : bool) (srv : Z) : OM (bool * bool * bool * Z) :=
  f ← sv srv sflag;
  if bit_set f ONOFF_SERVICE_HAS_ERROR then mret (false, false, false, - EIO)
  else
    r ← sv srv refs;
    if r =? SERVICE_REFS_MAX then mret (false, false, false, - EAGAIN)
    else
      f ← sv srv sflag;
      let state := Z.land f SERVICE_STATE_MASK in
      if state =? SERVICE_STATE_TO_OFF then
        r ← sv srv releaser;
        assert_ (negb (r =? 0));;
        mret (true, false, false, 3)
      else if state =? SERVICE_STATE_OFF then
        f ← sv srv sflag;
        if isr && bit_set f ONOFF_SERVICE_START_SLEEPS then mret (false, false, false, - EWOULDBLOCK)
        else
          r ← sv srv refs;
          assert_ (r =? 0);;
          set_service_state srv SERVICE_STATE_TO_ON;;
          mret (true, true, false, 2)
      else if state =? SERVICE_STATE_TO_ON then mret (true, false, false, 1)
      else if state =? SERVICE_STATE_ON then mret (false, false, true, 0)
      else mret (false, false, false, - EINVAL).

Definition add_client (srv cli : Z) : OM unit :=
  l ← sv srv clients; l ← lst (sys_slist_append l cli); sv_set srv (with_clients l).

Definition onoff_request (isr : bool) (srv cli : Z) : OM Z :=
  rv ← validate_args srv cli;
  if rv <? 0 then mret rv
  else
    c ← request_case isr srv;
    let '(add, start, notify, rv) := c in
    (if add : bool then add_client srv cli
     else when notify (r ← sv srv refs; sv_set srv (with_refs (r + 1))));;
    (if start : bool then
       fn ← sv srv start_fn; assert_ (negb (fn =? 0));; invoke srv Start
     else when notify (notify_one srv cli 0));;
    mret rv.

(** The next state after a stop: notify the waiting clients, start again, their result. *)
Definition stop_case (isr : bool) (srv : Z) (cs : slist) (res : Z) : OM (bool * bool * Z) :=
  if res <? 0 then
    f ← sv srv sflag;
    sv_set srv (with_flag (Z.land f (Z.lnot SERVICE_STATE_TRANSITION)));;
    f ← sv srv sflag;
    sv_set srv (with_flag (Z.lor f ONOFF_SERVICE_HAS_ERROR));;
    mret (true, false, res)
  else if sys_slist_is_empty cs then
    set_service_state srv SERVICE_STATE_OFF;; mret (false, false, res)
  else
    f ← sv srv sflag;
    if isr && bit_set f ONOFF_SERVICE_START_SLEEPS then
      set_service_state srv SERVICE_STATE_OFF;; mret (true, false, - EWOULDBLOCK)
    else set_service_state srv SERVICE_STATE_TO_ON;; mret (false, true, res).

(** As [start_notify_locked], with the releaser read before the lock too. *)
Definition stop_notify_locked (isr : bool) (srv : Z) (cs : slist) (rel : Z) (res : Z) : OM unit :=
  c ← stop_case isr srv cs res;
  let '(notify_clients, start, client_res) := c in
  assert_ (negb (rel =? 0));;
  r ← sv srv refs;
  sv_set srv (with_refs (r - 1));;
  sv_set srv (with_releaser 0);;
  r ← sv srv refs;
  assert_ (r =? 0);;
  when notify_clients (sv_set srv (with_clients sys_slist_init));;
  notify_one srv rel res;;
  (if notify_clients : bool then notify_all srv cs client_res
   else when start (invoke srv Start)).

Definition onoff_stop_notify (isr : bool) (srv res : Z) : OM unit :=
  l ← sv srv clients;
  r ← sv srv releaser;
  stop_notify_locked isr srv l r res.

(** The locked part of a release: stop, notify, result. *)
Definition release_case (isr : bool) (srv cli : Z) : OM (bool * bool * Z) :=
  f ← sv srv sflag;
  if bit_set f ONOFF_SERVICE_HAS_ERROR then mret (false, false, - EIO)
  else
    f ← sv srv sflag;
    let state := Z.land f SERVICE_STATE_MASK in
    if state =? SERVICE_STATE_ON then
      r ← sv srv refs;
      if r >? 1 then mret (false, true, 1)
      else
        f ← sv srv sflag;
        if isr && bit_set f ONOFF_SERVICE_STOP_SLEEPS then mret (false, false, - EWOULDBLOCK)
        else
          set_service_state srv SERVICE_STATE_TO_OFF;;
          sv_set srv (with_releaser cli);;
          mret (true, false, 2)
    else if state =? SERVICE_STATE_TO_ON then mret (false, false, - EBUSY)
    else if (state =? SERVICE_STATE_OFF) || (state =? SERVICE_STATE_TO_OFF) then mret (false, false, - EALREADY)
    else mret (false, false, - EINVAL).

Definition onoff_release (isr : bool) (srv cli : Z) : OM Z :=
  rv ← validate_args srv cli;
  if rv <? 0 then mret rv
  else
    c ← release_case isr srv cli;
    let '(stop, notify, rv) := c in
    when notify (r ← sv srv refs; sv_set srv (with_refs (r - 1)));;
    (if stop : bool then
       fn ← sv srv stop_fn; assert_ (negb (fn =? 0));; invoke srv Stop
     else when notify (notify_one srv cli 0));;
    mret rv.

Definition onoff_reset_notify (srv res : Z) : OM unit :=
  l ← sv srv clients;
  (if res <? 0 then
     f ← sv srv sflag; sv_set srv (with_flag (Z.land f (Z.lnot SERVICE_STATE_TRANSITION)))
   else
     r ← sv srv refs;
     assert_ (r =? 0);;
     sv_set srv (with_refs 0);;
     f ← sv srv sflag;
     sv_set srv (with_flag (Z.land f SERVICE_CONFIG_FLAGS)));;
  sv_set srv (with_clients sys_slist_init);;
  notify_all srv l res.

Definition onoff_service_reset (isr : bool) (srv cli : Z) : OM Z :=
  fn ← sv srv reset_fn;
  if fn =? 0 then mret (- ENOTSUP)
  else
    rv ← validate_args srv cli;
    if rv <? 0 then mret rv
    else
      f ← sv srv sflag;
      if isr && bit_set f ONOFF_SERVICE_RESET_SLEEPS then mret (- EWOULDBLOCK)
      else
        c ← (f ← sv srv sflag;
             if negb (bit_set f ONOFF_SERVICE_HAS_ERROR) then mret (false, - EALREADY)
             else
               f ← sv srv sflag;
               if negb (bit_set f SERVICE_STATE_TRANSITION) then
                 sv_set srv (with_flag (Z.lor f SERVICE_STATE_TRANSITION));; mret (true, rv)
               else mret (false, rv));
        let '(reset, rv) := c in
        when (0 <=? rv) (add_client srv cli);;
        when reset (invoke srv Reset);;
        mret rv.

Definition onoff_cancel (srv cli : Z) : OM Z :=
  rv ← validate_args srv cli;
  if rv <? 0 then mret rv
  else
    f ← sv srv sflag;
    let state := Z.land f SERVICE_STATE_MASK in
    l ← sv srv clients;
    p ← lst (sys_slist_find_and_remove l cli);
    sv_set srv (with_clients p.2);;
    rv ← (if p.1 : bool then
            l ← sv srv clients;
            if sys_slist_is_empty l && negb (state =? SERVICE_STATE_TO_OFF) then
              add_client srv cli;; mret (- EWOULDBLOCK)
            else mret 0
          else
            r ← sv srv releaser;
            mret (if r =? cli then - EWOULDBLOCK else - EALREADY));
    when (rv =? 0) (notify_one srv cli (- ECANCELED));;
    mret rv.

Definition onoff_client_fetch_result (op : Z) : OM (Z * option Z) :=
  assert_ (negb (op =? 0));;
  f ← cl op cflag;
  if f =? 0 then r ← cl op result; mret (0, Some r) else mret (- EAGAIN, None).

(** The assignment of a whole client, its node included. *)
Definition cl_init (cli : Z) (c : onoff_client) : OM unit := lst (snode_next_set cli 0);; cl_set cli (fun _ => c).

Definition onoff_client_init_spinwait (cli : Z) : OM unit :=
  assert_ (negb (cli =? 0));; cl_init cli (mk_client 0 0 0 ONOFF_CLIENT_NOTIFY_SPINWAIT).

(** Without [CONFIG_POLL] the signal is not stored. *)
Definition onoff_client_init_signal (cli sigp : Z) : OM unit :=
  assert_ (negb (cli =? 0));;
  assert_ (negb (sigp =? 0));;
  cl_init cli (mk_client 0 0 0 ONOFF_CLIENT_NOTIFY_SIGNAL).

Definition onoff_client_init_callback (cli hd data : Z) : OM unit :=
  assert_ (negb (cli =? 0));;
  assert_ (negb (hd =? 0));;
  cl_init cli (mk_client hd data 0 ONOFF_CLIENT_NOTIFY_CALLBACK).

Definition onoff_service_has_error (srv : Z) : OM bool := f ← sv srv sflag; mret (bit_set f ONOFF_SERVICE_HAS_ERROR).

End Code.

(** ** The machine the service implements *)

Inductive mode :=
| Off
| ToOn (ws : list Z)
| On (n : Z)
| ToOff (r : Z) (ws : list Z)
| Errored (on : bool)
| Resetting (on : bool) (ws : list Z).

(** What an operation does: resolve a client's operation, or call a transition function. *)
Inductive out := Notify (c res : Z) | Call (t : transition).

Inductive oop := Request (c : Z) | Release (c : Z) | ResetService (c : Z) | Cancel (c : Z) | Finish (t : transition) (res : Z)
| Prepare (c : Z) (call : option (Z * Z)).

Definition waiting (m : mode) : list Z := match m with ToOn ws | ToOff _ ws | Resetting _ ws => ws | _ => [] end.
Definition releasing (m : mode) : Z := match m with ToOff r _ => r | _ => 0 end.
Definition holders (m : mode) : Z := match m with On n => n | ToOff _ _ => 1 | _ => 0 end.
Definition busy (m : mode) (c : Z) : bool := bool_decide (c ∈ waiting m) || (releasing m =? c).

(** The configuration of a service: which transitions may sleep, and whether it has a reset. *)
Record setup := mk_setup { start_sleeps : bool; stop_sleeps : bool; reset_sleeps : bool; has_reset : bool }.

Definition all (ws : list Z) (res : Z) : list out := (fun c => Notify c res) <$> ws.

Definition spec_request (k : setup) (isr : bool) (c : Z) (m : mode) : mode * list out * Z :=
  match m with
  | Errored _ | Resetting _ _ => (m, [], - EIO)
  | Off => if isr && start_sleeps k then (m, [], - EWOULDBLOCK) else (ToOn [c], [Call Start], 2)
  | ToOn ws => (ToOn (ws ++ [c]), [], 1)
  | On n => if n =? SERVICE_REFS_MAX then (m, [], - EAGAIN) else (On (n + 1), [Notify c 0], 0)
  | ToOff r ws => (ToOff r (ws ++ [c]), [], 3)
  end.

Definition spec_release (k : setup) (isr : bool) (c : Z) (m : mode) : mode * list out * Z :=
  match m with
  | Errored _ | Resetting _ _ => (m, [], - EIO)
  | Off | ToOff _ _ => (m, [], - EALREADY)
  | ToOn _ => (m, [], - EBUSY)
  | On n => if 1 <? n then (On (n - 1), [Notify c 0], 1)
            else if isr && stop_sleeps k then (m, [], - EWOULDBLOCK) else (ToOff c [], [Call Stop], 2)
  end.

Definition spec_reset (k : setup) (isr : bool) (c : Z) (m : mode) : mode * list out * Z :=
  if isr && reset_sleeps k then (m, [], - EWOULDBLOCK)
  else match m with
       | Errored on => (Resetting on [c], [Call Reset], 0)
       | Resetting on ws => (Resetting on (ws ++ [c]), [], 0)
       | _ => (m, [], - EALREADY)
       end.

(** The last waiter stays, except while the service is turned off, and while it is reset after
    it failed to turn off. *)
Definition spec_cancel (c : Z) (m : mode) : mode * list out * Z :=
  if decide (c ∈ waiting m) then
    let ws := filter (.≠ c) (waiting m) in
    let cancelled m' := (m', [Notify c (- ECANCELED)], 0) in
    match m, ws with
    | ToOff r _, _ => cancelled (ToOff r ws)
    | Resetting false _, _ => cancelled (Resetting false ws)
    | ToOn _, _ :: _ => cancelled (ToOn ws)
    | Resetting true _, _ :: _ => cancelled (Resetting true ws)
    | _, _ => (m, [], - EWOULDBLOCK)
    end
  else (m, [], if releasing m =? c then - EWOULDBLOCK else - EALREADY).

Definition spec_finish (k : setup) (isr : bool) (t : transition) (res : Z) (m : mode) : option (mode * list out) :=
  match t, m with
  | Start, ToOn ws => Some (if res <? 0 then Errored true else On (Z.of_nat (length ws)), all ws res)
  | Stop, ToOff r ws =>
    Some (if res <? 0 then (Errored false, Notify r res :: all ws res)
          else match ws with
               | [] => (Off, [Notify r res])
               | _ => if isr && start_sleeps k then (Off, Notify r res :: all ws (- EWOULDBLOCK))
                      else (ToOn ws, [Notify r res; Call Start])
               end)
  | Reset, Resetting on ws => Some (if res <? 0 then Errored on else Off, all ws res)
  | _, _ => None
  end.

(** ** Clients and sequences of operations

    A client given to a request, release or reset takes part in no other operation; a
    transition completes when it is under way. *)
Definition valid_client (c : onoff_client) : bool :=
  (cflag c =? Z.land (cflag c) CLIENT_VALID_FLAGS_MASK)
  && ((Z.land (cflag c) CLIENT_NOTIFY_METHOD_MASK =? ONOFF_CLIENT_NOTIFY_SPINWAIT)
      || (Z.land (cflag c) CLIENT_NOTIFY_METHOD_MASK =? ONOFF_CLIENT_NOTIFY_CALLBACK) && negb (handler c =? 0)).

(** The clients and the log, changed by what an operation does. *)
Definition do_out (srv : Z) (p : gmap Z onoff_client * list event) (o : out) : gmap Z onoff_client * list event :=
  match o with
  | Call t => (p.1, p.2 ++ [Invoke t])
  | Notify c res =>
    match p.1 !! c with
    | Some k =>
      (<[c := mk_client (handler k) (user_data k) res 0]> p.1,
       p.2 ++ if Z.land (cflag k) CLIENT_NOTIFY_METHOD_MASK =? ONOFF_CLIENT_NOTIFY_CALLBACK
              then [Called (handler k) srv c (user_data k) res] else [])
    | None => p
    end
  end.
Definition do_outs (srv : Z) (p : gmap Z onoff_client * list event) (os : list out) := foldl (do_out srv) p os.

Record astate := mk_astate { amode : mode; aclients : gmap Z onoff_client; alog : list event }.

(** An operation on behalf of client [c]: refused when the client is not well formed. *)
Definition for_client (srv c : Z) (a : astate) (f : mode -> mode * list out * Z) : option (astate * Z) :=
  if c =? 0 then Some (a, - EINVAL)
  else
    k ← aclients a !! c;
    if valid_client k then
      let '(m, os, rv) := f (amode a) in
      let p := do_outs srv (<[c := with_result 0 k]> (aclients a), alog a) os in
      Some (mk_astate m p.1 p.2, rv)
    else Some (a, - EINVAL).

Definition spec_op (k : setup) (srv : Z) (isr : bool) (o : oop) (a : astate) : option (astate * Z) :=
  match o with
  | Request c => if busy (amode a) c then None else for_client srv c a (spec_request k isr c)
  | Release c => if busy (amode a) c then None else for_client srv c a (spec_release k isr c)
  | ResetService c =>
    if has_reset k then (if busy (amode a) c then None else for_client srv c a (spec_reset k isr c)) else Some (a, - ENOTSUP)
  | Cancel c => for_client srv c a (spec_cancel c)
  | Finish t res =>
    p ← spec_finish k isr t res (amode a);
    let q := do_outs srv (aclients a, alog a ++ [Complete t res]) p.2 in
    Some (mk_astate p.1 q.1 q.2, 0)
  | Prepare c call =>
    if busy (amode a) c || (c =? 0) then None
    else
      _ ← aclients a !! c;
      match call with
      | None => Some (mk_astate (amode a) (<[c := mk_client 0 0 0 ONOFF_CLIENT_NOTIFY_SPINWAIT]> (aclients a)) (alog a), 0)
      | Some (h, d) =>
        if h =? 0 then None
        else Some (mk_astate (amode a) (<[c := mk_client h d 0 ONOFF_CLIENT_NOTIFY_CALLBACK]> (aclients a)) (alog a), 0)
      end
  end.

Fixpoint spec_ops (k : setup) (srv : Z) (os : list (bool * oop)) (a : astate) : option (list Z * astate) :=
  match os with
  | [] => Some ([], a)
  | (isr, o) :: os => p ← spec_op k srv isr o a; q ← spec_ops k srv os p.1; Some (p.2 :: q.1, q.2)
  end.

(** The same operations of the code. *)
Definition run_oop `{Config} (srv : Z) (isr : bool) (o : oop) : OM Z :=
  match o with
  | Request c => onoff_request isr srv c
  | Release c => onoff_release isr srv c
  | ResetService c => onoff_service_reset isr srv c
  | Cancel c => onoff_cancel srv c
  | Finish t res =>
    emit (Complete t res);;
    match t with Start => onoff_start_notify srv res | Stop => onoff_stop_notify isr srv res | Reset => onoff_reset_notify srv res end;;
    mret 0
  | Prepare c None => onoff_client_init_spinwait c;; mret 0
  | Prepare c (Some (h, d)) => onoff_client_init_callback c h d;; mret 0
  end.
Fixpoint run_oops `{Config} (srv : Z) (os : list (bool * oop)) : OM (list Z) :=
  match os with
  | [] => mret []
  | (isr, o) :: os => r ← run_oop srv isr o; rs ← run_oops srv os; mret (r :: rs)
  end.

(** *** What the transition functions see *)

Inductive device := DOff | DStarting | DOn | DStopping | DFailed | DResetting.

(** The calls the header allows: start from off, stop from on, reset in error. *)
Definition dev_step (d : device) (e : event) : option device :=
  match e, d with
  | Invoke Start, DOff => Some DStarting
  | Invoke Stop, DOn => Some DStopping
  | Invoke Reset, DFailed => Some DResetting
  | Complete Start res, DStarting => Some (if res <? 0 then DFailed else DOn)
  | Complete Stop res, DStopping => Some (if res <? 0 then DFailed else DOff)
  | Complete Reset res, DResetting => Some (if res <? 0 then DFailed else DOff)
  | Called _ _ _ _ _, _ => Some d
  | _, _ => None
  end.
Fixpoint dev_run (d : device) (es : list event) : option device :=
  match es with [] => Some d | e :: es => d ← dev_step d e; dev_run d es end.

Definition dev_of (m : mode) : device :=
  match m with Off => DOff | ToOn _ => DStarting | On _ => DOn | ToOff _ _ => DStopping | Errored _ => DFailed | Resetting _ _ => DResetting end.
