(* ===== verification/OnoffTheorems.v ===== *)
(** * On-off services: correctness

    The operations of [Onoff.v] implement its machine: from a fresh service, any operations that
    respect the documented use of clients and completions run to the end without a fault or a
    failed assertion, return the machine's results, resolve each client once and with the right
    result, and call the transition functions only from the states the header allows.  Two
    promises are missed: the only client of a reset can be cancelled, and a request made while
    a stop completes can be left waiting. *)

From Stdlib Require Import ZArith Lia Bool List.
From stdpp Require Import base tactics numbers list gmap.
From S2P Require Import Prelude DList Slist Onoff.

Local Open Scope Z_scope.

(** ** Representation *)

Definition code (m : mode) : Z :=
  match m with
  | Off => 0 | ToOn _ => 48 | On _ => 16 | ToOff _ _ => 32
  | Errored on => if on then 24 else 8
  | Resetting on _ => if on then 56 else 40
  end.
Definition config_bits (k : setup) : Z := Z.b2z (start_sleeps k) + 2 * Z.b2z (stop_sleeps k) + 4 * Z.b2z (reset_sleeps k).

Record ORep (k : setup) (w : world) (m : mode) : Prop := {
  or_start : start_fn (service w) <> 0;
  or_stop : stop_fn (service w) <> 0;
  or_reset : (reset_fn (service w) =? 0) = negb (has_reset k);
  or_flag : sflag (service w) = config_bits k + code m;
  or_refs : refs (service w) = holders m;
  or_held : match m with On n => 1 <= n <= SERVICE_REFS_MAX | ToOn ws => ws <> [] | ToOff r _ => r <> 0 | _ => True end;
  or_releaser : releaser (service w) = releasing m;
  or_clients : SRep (links w) (clients (service w)) (waiting m);
  or_dom : dom (links w) = dom (cls w);
  or_null : cls w !! 0 = None;
  or_max : Z.of_nat (size (cls w)) <= SERVICE_REFS_MAX;
  or_busy : forall c, busy m c = true -> c <> 0 -> exists x, cls w !! c = Some x /\ valid_client x = true;
  or_apart : releasing m ∉ waiting m;
  or_device : dev_run DOff (log w) = Some (dev_of m);
}.

(** The flag word of each mode, and what the code computes from it. *)
Definition in_error (m : mode) : bool := match m with Errored _ | Resetting _ _ => true | _ => false end.
Definition in_transition (m : mode) : bool := match m with ToOn _ | ToOff _ _ | Resetting _ _ => true | _ => false end.
Definition state_bits (m : mode) : Z :=
  match m with
  | Off | Errored false => 0 | On _ | Errored true => 16 | ToOff _ _ | Resetting false _ => 32 | ToOn _ | Resetting true _ => 48
  end.
Definition ended (m : mode) : Z := (if in_error m then 8 else 0) + match m with ToOn _ | On _ | Errored true | Resetting true _ => 16 | _ => 0 end.

Record FlagFacts (k : setup) (m : mode) (f : Z) : Prop := {
  ff_error : bit_set f ONOFF_SERVICE_HAS_ERROR = in_error m;
  ff_transition : bit_set f SERVICE_STATE_TRANSITION = in_transition m;
  ff_state : Z.land f SERVICE_STATE_MASK = state_bits m;
  ff_start : bit_set f ONOFF_SERVICE_START_SLEEPS = start_sleeps k;
  ff_stop : bit_set f ONOFF_SERVICE_STOP_SLEEPS = stop_sleeps k;
  ff_reset : bit_set f ONOFF_SERVICE_RESET_SLEEPS = reset_sleeps k;
  ff_end : u16 (Z.lor (u16 (Z.land f (Z.lnot SERVICE_STATE_TRANSITION))) ONOFF_SERVICE_HAS_ERROR) = config_bits k + Z.lor (ended m) 8;
  ff_stay : u16 (Z.land f (Z.lnot SERVICE_STATE_TRANSITION)) = config_bits k + ended m;
  ff_begin : u16 (Z.lor f SERVICE_STATE_TRANSITION) = config_bits k + Z.lor (ended m) 32;
  ff_clear : u16 (Z.land f SERVICE_CONFIG_FLAGS) = config_bits k;
  ff_set : forall st, st ∈ [0; 16; 32; 48] ->
    u16 (Z.lor (u16 (Z.land f (Z.lnot SERVICE_STATE_MASK))) (Z.land st SERVICE_STATE_MASK)) = config_bits k + ((if in_error m then 8 else 0) + st);
}.

Lemma flag_facts k m : FlagFacts k m (config_bits k + code m).
Proof.
  destruct k as [[] [] [] r], m as [| | | |[]|[]]; split;
  lazymatch goal with |- forall _, _ => intros st Hs | _ => by vm_compute end.
  all: repeat (apply elem_of_cons in Hs as [->|Hs]; [by vm_compute|]); by apply not_elem_of_nil in Hs.
Qed.

(** ** Rules *)

Definition put (w : world) (p : gmap Z onoff_client * list event) : world := mk_world (links w) p.1 (service w) p.2.
Definition set_service (w : world) (s : onoff_service) : world := mk_world (links w) (cls w) s (log w).

Section Rules.
Context `{Config} (srv : Z) (Hsrv : srv <> 0).

Lemma wp_sv {A} (f : onoff_service -> A) (Q : A -> world -> Prop) w : Q (f (service w)) w -> wp (sv srv f) Q w.
Proof. intros HQ. unfold sv. rewrite (proj2 (Z.eqb_neq _ _) Hsrv). by apply wp_gets. Qed.
Lemma wp_sv_set f (Q : unit -> world -> Prop) w : Q tt (set_service w (f (service w))) -> wp (sv_set srv f) Q w.
Proof. intros HQ. unfold sv_set. rewrite (proj2 (Z.eqb_neq _ _) Hsrv). by apply wp_modify. Qed.
Lemma wp_sv_inv {A B} (f : onoff_service -> A) (b : A -> OM B) (Q : B -> world -> Prop) w : wp (sv srv f ≫= b) Q w -> wp (b (f (service w))) Q w.
Proof. unfold sv. by rewrite (proj2 (Z.eqb_neq _ _) Hsrv). Qed.
Lemma wp_cl {A} c x (f : onoff_client -> A) (Q : A -> world -> Prop) w : cls w !! c = Some x -> Q (f x) w -> wp (cl c f) Q w.
Proof. intros E HQ. unfold cl. apply wp_bind, wp_get, wp_bind. eapply wp_ofopt; [exact E|]. by apply wp_ret. Qed.
Lemma wp_cl_set c x f (Q : unit -> world -> Prop) w : cls w !! c = Some x -> Q tt (put w (<[c := f x]> (cls w), log w)) -> wp (cl_set c f) Q w.
Proof. intros E HQ. unfold cl_set. apply wp_bind, wp_get, wp_bind. eapply wp_ofopt; [exact E|]. by apply wp_modify. Qed.
Lemma wp_lst {A} (m : LM A) (Q : A -> world -> Prop) w : wp m (fun a nx => Q a (mk_world nx (cls w) (service w) (log w))) (links w) -> wp (lst m) Q w.
Proof. unfold wp, lst. by destruct (m (links w)). Qed.
Lemma wp_emit e (Q : unit -> world -> Prop) w : Q tt (put w (cls w, log w ++ [e])) -> wp (emit e) Q w.
Proof. intros HQ. by apply wp_modify. Qed.
Lemma wp_invoke t (Q : unit -> world -> Prop) w :
  match t with Start => start_fn | Stop => stop_fn | Reset => reset_fn end (service w) <> 0 ->
  Q tt (put w (do_out srv (cls w, log w) (Call t))) -> wp (invoke srv t) Q w.
Proof. intros Hf HQ. unfold invoke. apply wp_bind, wp_sv. rewrite (proj2 (Z.eqb_neq _ _) Hf). by apply wp_emit. Qed.

Lemma wp_set_state k m st (Q : unit -> world -> Prop) w :
  sflag (service w) = config_bits k + code m -> st ∈ [0; 16; 32; 48] ->
  (let s := service w in
   Q tt (set_service w (mk_service (clients s) (start_fn s) (stop_fn s) (reset_fn s) (releaser s) (config_bits k + ((if in_error m then 8 else 0) + st)) (refs s)))) ->
  wp (set_service_state srv st) Q w.
Proof.
  intros Ef Hs HQ. unfold set_service_state. apply wp_bind, wp_sv, wp_bind, wp_sv_set, wp_bind, wp_sv, wp_sv_set.
  cbn -[Z.land Z.lor Z.lnot u16]. rewrite Ef. unfold with_flag. cbn -[Z.land Z.lor Z.lnot u16]. by rewrite (ff_set _ _ _ (flag_facts k m)).
Qed.

(** *** Clients *)

Lemma wp_validate_null c (Q : Z -> world -> Prop) w : c = 0 -> Q (- EINVAL) w -> wp (validate_args srv c) Q w.
Proof. intros -> HQ. unfold validate_args. rewrite orb_true_r. by apply wp_ret. Qed.

Lemma wp_validate_client c x (Q : Z -> world -> Prop) w :
  c <> 0 -> cls w !! c = Some x ->
  (if valid_client x then Q 0 (put w (<[c := with_result 0 x]> (cls w), log w)) else Q (- EINVAL) w) -> wp (validate_args srv c) Q w.
Proof.
  intros Hc E HQ. unfold validate_args. rewrite (proj2 (Z.eqb_neq _ _) Hsrv), (proj2 (Z.eqb_neq _ _) Hc). cbn [orb].
  apply wp_bind, (wp_cl c x), wp_bind, (wp_cl c x); [done..|]. unfold valid_client in HQ. destruct (cflag x =? _); cbn [negb andb] in *; [|by apply wp_ret].
  apply wp_bind. destruct (_ =? ONOFF_CLIENT_NOTIFY_SPINWAIT); cbn [orb] in *.
  { wp_steps. cbn [when Z.eqb]. apply (wp_cl_set c x); [done|]. by wp_steps. }
  destruct (_ =? ONOFF_CLIENT_NOTIFY_CALLBACK); cbn [andb] in *; [|by wp_steps].
  apply wp_bind, (wp_cl c x); [done|]. wp_steps. destruct (handler x =? 0); cbn [negb] in *; cbn [when Z.eqb Z.opp EINVAL]; [by wp_steps|].
  apply (wp_cl_set c x); [done|]. by wp_steps.
Qed.

Lemma valid_method x : valid_client x = true ->
  (Z.land (cflag x) CLIENT_NOTIFY_METHOD_MASK =? ONOFF_CLIENT_NOTIFY_SPINWAIT) = true \/
  (Z.land (cflag x) CLIENT_NOTIFY_METHOD_MASK =? ONOFF_CLIENT_NOTIFY_CALLBACK) = true /\ (handler x =? 0) = false.
Proof.
  unfold valid_client. intros [_ [?|[? ?%negb_true_iff]%andb_true_iff]%orb_true_iff]%andb_true_iff; tauto.
Qed.

Lemma wp_notify_one c x res (Q : unit -> world -> Prop) w :
  cls w !! c = Some x -> valid_client x = true -> Q tt (put w (do_out srv (cls w, log w) (Notify c res))) -> wp (notify_one srv c res) Q w.
Proof.
  intros E V HQ. unfold notify_one. apply wp_bind, (wp_cl c x); [done|]. apply wp_bind, (wp_cl_set c x); [done|]. apply wp_bind. unfold put; cbn.
  eapply (wp_cl_set c); [apply lookup_insert_eq|]. cbn. rewrite insert_insert_eq. unfold do_out, put in HQ. cbn in HQ. rewrite E in HQ. cbn in HQ.
  destruct (valid_method x V) as [M|[M Hh]].
  - rewrite M. wp_steps. apply Z.eqb_eq in M. rewrite M in HQ. cbn in HQ. by rewrite app_nil_r in HQ.
  - rewrite M in HQ |- *. apply Z.eqb_eq in M. rewrite M. cbn [Z.eqb ONOFF_CLIENT_NOTIFY_CALLBACK ONOFF_CLIENT_NOTIFY_SPINWAIT Pos.eqb].
    apply wp_bind. eapply wp_cl; [apply lookup_insert_eq|]. apply wp_bind. eapply wp_cl; [apply lookup_insert_eq|]. cbn. rewrite Hh. by apply wp_emit.
Qed.

Lemma do_out_dom p o : dom (do_out srv p o).1 = dom p.1.
Proof. destruct o as [c res|t]; cbn; [|done]. destruct (p.1 !! c) eqn:E; [|done]. cbn. by apply dom_insert_lookup_L. Qed.
Lemma do_outs_dom p os : dom (do_outs srv p os).1 = dom p.1.
Proof. revert p. induction os as [|o os IH]; intros p; [done|]. cbn. unfold do_outs in IH. by rewrite IH, do_out_dom. Qed.

Lemma do_outs_other p ws res c : c ∉ ws -> (do_outs srv p (all ws res)).1 !! c = p.1 !! c.
Proof.
  revert p. induction ws as [|y ws IH]; intros p Hc; [done|]. apply not_elem_of_cons in Hc as [Hy Hc]. cbn. unfold do_outs, all in IH. rewrite IH by done.
  destruct (p.1 !! y); [|done]. cbn. by apply lookup_insert_ne.
Qed.

Lemma dev_run_app d es1 es2 : dev_run d (es1 ++ es2) = d' ← dev_run d es1; dev_run d' es2.
Proof. revert d. induction es1 as [|e es1 IH]; intros d; cbn; [done|]. destruct (dev_step d e); [apply IH|done]. Qed.

Lemma do_out_notify_dev d p c res : dev_run d (do_out srv p (Notify c res)).2 = dev_run d p.2.
Proof.
  cbn. destruct (p.1 !! c); [|done]. cbn. rewrite dev_run_app. destruct (dev_run d p.2); [|done]. cbn. by destruct (_ =? _).
Qed.
Lemma do_outs_all_dev d p ws res : dev_run d (do_outs srv p (all ws res)).2 = dev_run d p.2.
Proof. revert p. induction ws as [|y ws IH]; intros p; [done|]. change (do_outs srv p (all (y :: ws) res)) with (do_outs srv (do_out srv p (Notify y res)) (all ws res)). by rewrite IH, do_out_notify_dev. Qed.

(** Resolving all members of a list. *)
Lemma notify_loop_all fuel : forall l ws res (Q : unit -> world -> Prop) w,
  SRep (links w) l ws -> (forall c, c ∈ ws -> exists x, cls w !! c = Some x /\ valid_client x = true) -> (length ws < fuel)%nat ->
  Q tt (put w (do_outs srv (cls w, log w) (all ws res))) -> wp (notify_loop fuel srv l res) Q w.
Proof.
  induction fuel as [|fuel IH]; intros l ws res Q w R V Hf HQ; [lia|]. cbn [notify_loop]. destruct ws as [|c ws].
  { rewrite (proj2 (srep_empty _ _ _ R) eq_refl). wp_steps. by destruct w. }
  destruct (sys_slist_is_empty l) eqn:E; [by apply (srep_empty _ _ _ R) in E|].
  apply wp_bind, wp_lst. apply (wp_get_not_empty _ _ _ R c ws); [done|]. intros s' R'. cbn [fst snd].
  destruct (V c) as (x & Ex & Vx); [constructor|]. destruct (NoDup_cons c ws) as [Hd _]. specialize (Hd (sr_nodup _ _ _ R)) as [Hc _].
  apply wp_bind, (wp_notify_one c x); [by destruct w|done|]. apply (IH s' ws).
  - exact R'.
  - intros y Hy. destruct (V y) as (z & Ez & Vz); [by constructor|]. exists z. split; [|done]. cbn. rewrite Ex. cbn. rewrite lookup_insert_ne; [done|]. by intros ->.
  - cbn in Hf. lia.
  - cbn -[do_out] in *. unfold put in *. cbn -[do_out] in *. by destruct (do_out srv (cls w, log w) (Notify c res)).
Qed.

Lemma wp_notify_all l ws res (Q : unit -> world -> Prop) w :
  SRep (links w) l ws -> (forall c, c ∈ ws -> exists x, cls w !! c = Some x /\ valid_client x = true) ->
  Q tt (put w (do_outs srv (cls w, log w) (all ws res))) -> wp (notify_all srv l res) Q w.
Proof.
  intros R V HQ. unfold notify_all. apply wp_bind, wp_get. apply (notify_loop_all _ l ws); [done..| |done].
  apply Nat.lt_succ_r, (seg_size _ _ 0); apply R.
Qed.

Lemma wp_add_client c ws (Q : unit -> world -> Prop) w :
  SRep (links w) (clients (service w)) ws -> c ∉ ws -> c <> 0 -> is_Some (links w !! c) ->
  (forall nx l, SRep nx l (ws ++ [c]) -> dom nx = dom (links w) -> Q tt (mk_world nx (cls w) (with_clients l (service w)) (log w))) ->
  wp (add_client srv c) Q w.
Proof.
  intros R Hc H0 Hs HQ. unfold add_client. apply wp_bind, wp_sv, wp_bind, wp_lst. apply (wp_append _ _ _ R); [done..|].
  intros l' nx' R' F. apply wp_sv_set. apply HQ; [done|apply F].
Qed.

End Rules.

(** ** Each operation *)

Section Operations.
Context `{Config} (srv : Z) (Hsrv : srv <> 0) (k : setup).

(** The state after an operation, from the clients and log [p] it found. *)
Definition Post (p : gmap Z onoff_client * list event) (q : mode * list out * Z) (r : Z) (w : world) : Prop :=
  r = q.2 /\ ORep k w q.1.1 /\ cls w = (do_outs srv p q.1.2).1 /\ log w = (do_outs srv p q.1.2).2.

Lemma busy_false m c : busy m c = false -> c ∉ waiting m /\ releasing m <> c.
Proof. unfold busy. intros [?%bool_decide_eq_false ?%Z.eqb_neq]%orb_false_iff. tauto. Qed.

(** Clearing the result of a client leaves everything in place. *)
Lemma orep_clients w m cs :
  ORep k w m -> dom cs = dom (cls w) -> (forall c, busy m c = true -> cs !! c = cls w !! c \/ exists x, cs !! c = Some x /\ valid_client x = true) -> ORep k (put w (cs, log w)) m.
Proof.
  intros R D Hb. destruct R. split; cbn; try done.
  - by rewrite D.
  - apply not_elem_of_dom. rewrite D. by apply not_elem_of_dom.
  - by rewrite <-size_dom, D, size_dom.
  - intros c B Hc. destruct (Hb c B) as [->|?]; auto.
Qed.

Lemma orep_links w m c : ORep k w m -> is_Some (cls w !! c) -> is_Some (links w !! c).
Proof. intros R. rewrite <-!elem_of_dom. by rewrite (or_dom _ _ _ R). Qed.

Lemma waiting_bound w m : ORep k w m -> Z.of_nat (length (waiting m)) <= SERVICE_REFS_MAX.
Proof.
  intros R. assert (B := seg_size _ _ _ (sr_seg _ _ _ (or_clients _ _ _ R)) (sr_nodup _ _ _ (or_clients _ _ _ R))).
  assert (E : size (links w) = size (cls w)) by (rewrite <-!size_dom; f_equal; apply R). rewrite E in B. assert (M := or_max _ _ _ R). lia.
Qed.

(** The common opening of the client operations. *)
Lemma wp_client_op c x (body : Z -> OM Z) q w m :
  ORep k w m -> c <> 0 -> cls w !! c = Some x -> valid_client x = true ->
  (forall w1 x1, ORep k w1 m -> cls w1 !! c = Some x1 -> valid_client x1 = true -> wp (body 0) (Post (cls w1, log w1) q) w1) ->
  wp (rv ← validate_args srv c; if rv <? 0 then mret rv else body rv) (Post (<[c := with_result 0 x]> (cls w), log w) q) w.
Proof.
  intros R Hc E V Hb. apply wp_bind, (wp_validate_client srv Hsrv c x); [done..|]. rewrite V. cbn [Z.ltb Z.compare].
  set (w1 := put w (<[c := with_result 0 x]> (cls w), log w)). change (wp (body 0) (Post (cls w1, log w1) q) w1).
  apply (Hb w1 (with_result 0 x)); [|by cbn; rewrite lookup_insert_eq|done]. apply orep_clients; [done|by apply dom_insert_lookup_L; eexists|].
  intros y _. destruct (decide (y = c)) as [->|]; [right|left; by apply lookup_insert_ne]. exists (with_result 0 x). by rewrite lookup_insert_eq.
Qed.

(** A change of mode; what it leaves to show. *)
Lemma orep_relist w m m' f n rl cs lg nx l :
  ORep k w m -> f = config_bits k + code m' -> n = holders m' -> rl = releasing m' -> SRep nx l (waiting m') -> dom nx = dom (links w) ->
  match m' with On n => 1 <= n <= SERVICE_REFS_MAX | ToOn ws => ws <> [] | ToOff r _ => r <> 0 | _ => True end ->
  dom cs = dom (cls w) -> (forall c, busy m' c = true -> c <> 0 -> exists x, cs !! c = Some x /\ valid_client x = true) ->
  releasing m' ∉ waiting m' -> dev_run DOff lg = Some (dev_of m') ->
  let s := service w in
  ORep k (mk_world nx cs (mk_service l (start_fn s) (stop_fn s) (reset_fn s) rl f n) lg) m'.
Proof.
  intros R -> -> -> Hl Dx Hh D Hb Ha Hd. destruct R. split; cbn; try done.
  - by rewrite D, Dx.
  - apply not_elem_of_dom. rewrite D. by apply not_elem_of_dom.
  - by rewrite <-size_dom, D, size_dom.
Qed.

(** A change of mode that keeps the list. *)
Lemma orep_change w m m' f n rl cs lg :
  ORep k w m -> f = config_bits k + code m' -> n = holders m' -> rl = releasing m' -> waiting m' = waiting m ->
  match m' with On n => 1 <= n <= SERVICE_REFS_MAX | ToOn ws => ws <> [] | ToOff r _ => r <> 0 | _ => True end ->
  dom cs = dom (cls w) -> (forall c, busy m' c = true -> c <> 0 -> exists x, cs !! c = Some x /\ valid_client x = true) ->
  releasing m' ∉ waiting m' -> dev_run DOff lg = Some (dev_of m') ->
  let s := service w in
  ORep k (mk_world (links w) cs (mk_service (clients s) (start_fn s) (stop_fn s) (reset_fn s) rl f n) lg) m'.
Proof. intros R Ef En Er Ew. intros. apply (orep_relist w m); try done. rewrite Ew. apply R. Qed.

(** The machine's next device state for the calls. *)
Lemma dev_call lg d t d' cs : dev_run DOff lg = Some d -> dev_step d (Invoke t) = Some d' -> dev_run DOff (do_out srv (cs, lg) (Call t)).2 = Some d'.
Proof. intros E E'. cbn [do_out snd]. rewrite dev_run_app, E. cbn -[dev_step]. by rewrite E'. Qed.
Lemma dev_complete lg d t res d' : dev_run DOff lg = Some d -> dev_step d (Complete t res) = Some d' -> dev_run DOff (lg ++ [Complete t res]) = Some d'.
Proof. intros E E'. rewrite dev_run_app, E. cbn -[dev_step]. by rewrite E'. Qed.

Lemma busy_cases m c : busy m c = true <-> c ∈ waiting m \/ releasing m = c.
Proof. unfold busy. by rewrite orb_true_iff, bool_decide_eq_true, Z.eqb_eq. Qed.

(** One more client among those waiting. *)
Lemma busy_more w m m' c x :
  ORep k w m -> cls w !! c = Some x -> valid_client x = true -> waiting m' = waiting m ++ [c] -> (releasing m' = releasing m \/ releasing m' = 0) ->
  forall y, busy m' y = true -> y <> 0 -> exists z, cls w !! y = Some z /\ valid_client z = true.
Proof.
  intros R E V Ew Er y By Hy. apply busy_cases in By. rewrite Ew, elem_of_app, list_elem_of_singleton in By.
  destruct (decide (y = c)) as [->|Hn]; [by exists x|]. apply (or_busy _ _ _ R); [|done]. apply busy_cases.
  destruct By as [[?|?]|Hr]; [tauto|done|]. destruct Er as [Er|Er]; rewrite Er in Hr; [by right|by symmetry in Hr].
Qed.

Ltac ostep :=
  lazymatch goal with
  | |- wp (mbind _ _) _ _ => apply wp_bind
  | |- wp (sv _ _) _ _ => apply wp_sv; [exact Hsrv|]
  | |- wp (sv_set _ _) _ _ => apply wp_sv_set; [exact Hsrv|]
  | |- wp (mret _) _ _ => apply wp_ret
  | |- wp skip _ _ => apply wp_skip
  | |- wp (when true _) _ _ => cbn [when]
  | |- wp (when false _) _ _ => cbn [when]
  end; cbn beta.
Ltac osteps := repeat ostep.

(** Evaluate the comparisons of numerals. *)
Ltac oeval :=
  cbn [state_bits];
  repeat match goal with
  | |- context [?a =? ?b] =>
    let v := eval vm_compute in (a =? b) in
    lazymatch v with true => change (a =? b) with true | false => change (a =? b) with false end
  end; cbn [andb orb negb]; cbv iota.

(** The service with flag word [f]. *)
Definition put_flag (f : Z) (w : world) : world :=
  let s := service w in set_service w (mk_service (clients s) (start_fn s) (stop_fn s) (reset_fn s) (releaser s) f (refs s)).

Lemma wp_request_case isr w m (Q : bool * bool * bool * Z -> world -> Prop) :
  ORep k w m ->
  match m with
  | Errored _ | Resetting _ _ => Q (false, false, false, - EIO) w
  | Off => if isr && start_sleeps k then Q (false, false, false, - EWOULDBLOCK) w else Q (true, true, false, 2) (put_flag (config_bits k + 48) w)
  | ToOn _ => Q (true, false, false, 1) w
  | On n => if n =? SERVICE_REFS_MAX then Q (false, false, false, - EAGAIN) w else Q (false, false, true, 0) w
  | ToOff _ _ => Q (true, false, false, 3) w
  end -> wp (request_case isr srv) Q w.
Proof.
  intros R HQ. assert (F := flag_facts k m). rewrite <-(or_flag _ _ _ R) in F.
  unfold request_case. osteps. rewrite (ff_error _ _ _ F). destruct m as [|ws|n|r ws|on|on ws]; cbn [in_error] in *; osteps; try done.
  all: rewrite (or_refs _ _ _ R); cbn [holders].
  - oeval. osteps. rewrite (ff_state _ _ _ F). oeval. osteps. rewrite (ff_start _ _ _ F). destruct (isr && _); osteps; [done|].
    apply wp_assert_if; [by intros _; rewrite (or_refs _ _ _ R)|]. apply wp_bind, (wp_set_state srv Hsrv k Off); [apply R|by repeat constructor|]. by osteps.
  - oeval. osteps. rewrite (ff_state _ _ _ F). oeval. by osteps.
  - destruct (n =? _); osteps; [done|]. rewrite (ff_state _ _ _ F). oeval. by osteps.
  - oeval. osteps. rewrite (ff_state _ _ _ F). oeval. osteps. apply wp_assert_if; [|by osteps].
    intros _. apply negb_true_iff, Z.eqb_neq. rewrite (or_releaser _ _ _ R). apply (or_held _ _ _ R).
Qed.

Lemma wp_request isr c x w m :
  ORep k w m -> busy m c = false -> c <> 0 -> cls w !! c = Some x -> valid_client x = true ->
  wp (onoff_request isr srv c) (Post (<[c := with_result 0 x]> (cls w), log w) (spec_request k isr c m)) w.
Proof.
  intros R B Hc E V. unfold onoff_request. apply (wp_client_op c x (fun _ => _)) with m; [done..|]. clear w x R E V. intros w x R E V.
  apply busy_false in B as [B1 B2]. assert (Hs := orep_links w m c R ltac:(by eexists)). assert (M := waiting_bound w m R).
  apply wp_bind, (wp_request_case isr w m); [done|]. destruct m as [|ws|n|r ws|on|on ws]; cbn [spec_request].
  - destruct (isr && _); osteps; [done|].
    apply (wp_add_client srv Hsrv c []); [apply (or_clients _ _ _ R)|done..|]. intros nx l Rl Dx. osteps.
    apply wp_assert_if; [intros _; apply negb_true_iff, Z.eqb_neq, R|]. apply wp_invoke; [done|apply R|]. osteps.
    split; [done|]. split; [|done]. apply (orep_relist w Off); try done; [exact (or_refs _ _ _ R)|exact (or_releaser _ _ _ R)| | |].
    + exact (busy_more w Off (ToOn [c]) c x R E V eq_refl (or_introl eq_refl)).
    + cbn. rewrite list_elem_of_singleton. intros ?. by apply Hc.
    + eapply dev_call; [apply R|done].
  - osteps. apply (wp_add_client srv Hsrv c ws); [apply (or_clients _ _ _ R)|done..|]. intros nx l Rl Dx. osteps.
    split; [done|]. split; [|done]. apply (orep_relist w (ToOn ws)); try done; [exact (or_flag _ _ _ R)|exact (or_refs _ _ _ R)|exact (or_releaser _ _ _ R)|by destruct ws|exact (busy_more w (ToOn ws) (ToOn (ws ++ [c])) c x R E V eq_refl (or_introl eq_refl))| |apply R].
    cbn. rewrite elem_of_app, list_elem_of_singleton. intros [Hi|?]; [by apply (sr_null _ _ _ (or_clients _ _ _ R))|by apply Hc].
  - assert (Hn := or_held _ _ _ R). cbn in Hn. destruct (n =? SERVICE_REFS_MAX) eqn:En; osteps; [done|]. apply Z.eqb_neq in En. osteps.
    apply (wp_notify_one srv c x); [done..|]. osteps. split; [done|]. split; [|done]. unfold with_refs. cbn [service set_service put].
    apply (orep_change w (On n)); try done; [apply R| |apply R|unfold SERVICE_REFS_MAX in *; cbn; lia|apply do_out_dom| |apply not_elem_of_nil|by rewrite do_out_notify_dev; apply R].
    + rewrite (or_refs _ _ _ R). cbn. apply u16_small. unfold SERVICE_REFS_MAX in *. lia.
    + intros y By. apply busy_cases in By as [?%not_elem_of_nil|<-]; done.
  - osteps. apply (wp_add_client srv Hsrv c ws); [apply (or_clients _ _ _ R)|done..|]. intros nx l Rl Dx. osteps.
    split; [done|]. split; [|done]. apply (orep_relist w (ToOff r ws)); try done; [exact (or_flag _ _ _ R)|exact (or_refs _ _ _ R)|exact (or_releaser _ _ _ R)|exact (or_held _ _ _ R)|exact (busy_more w (ToOff r ws) (ToOff r (ws ++ [c])) c x R E V eq_refl (or_introl eq_refl))| |apply R].
    cbn. rewrite elem_of_app, list_elem_of_singleton. intros [Hi|?]; [by apply (or_apart _ _ _ R)|done].
  - osteps. done.
  - osteps. done.
Qed.

Lemma busy_none m : waiting m = [] -> releasing m = 0 -> forall c, busy m c = true -> c <> 0 -> forall P : Prop, P.
Proof. intros Ew Er c B Hc P. apply busy_cases in B. rewrite Ew, Er in B. destruct B as [B%not_elem_of_nil|B]; [done|by symmetry in B]. Qed.

Lemma wp_release_case isr c w m (Q : bool * bool * Z -> world -> Prop) :
  ORep k w m ->
  match m with
  | Errored _ | Resetting _ _ => Q (false, false, - EIO) w
  | Off | ToOff _ _ => Q (false, false, - EALREADY) w
  | ToOn _ => Q (false, false, - EBUSY) w
  | On n => if 1 <? n then Q (false, true, 1) w
            else if isr && stop_sleeps k then Q (false, false, - EWOULDBLOCK) w
            else Q (true, false, 2) (set_service w (with_releaser c (service (put_flag (config_bits k + 32) w))))
  end -> wp (release_case isr srv c) Q w.
Proof.
  intros R HQ. assert (F := flag_facts k m). rewrite <-(or_flag _ _ _ R) in F.
  unfold release_case. osteps. rewrite (ff_error _ _ _ F). destruct m as [|ws|n|r ws|on|on ws]; cbn [in_error] in *; osteps; try done.
  all: rewrite (ff_state _ _ _ F); oeval; osteps; try done.
  rewrite (or_refs _ _ _ R); cbn [holders]. rewrite Z.gtb_ltb. destruct (1 <? n); osteps; [done|]. rewrite (ff_stop _ _ _ F).
  destruct (isr && _); osteps; [done|]. apply (wp_set_state srv Hsrv k (On n)); [apply R|by repeat constructor|]. cbv zeta. by osteps.
Qed.

Lemma wp_release isr c x w m :
  ORep k w m -> busy m c = false -> c <> 0 -> cls w !! c = Some x -> valid_client x = true ->
  wp (onoff_release isr srv c) (Post (<[c := with_result 0 x]> (cls w), log w) (spec_release k isr c m)) w.
Proof.
  intros R B Hc E V. unfold onoff_release. apply (wp_client_op c x (fun _ => _)) with m; [done..|]. clear w x R E V. intros w x R E V.
  apply wp_bind, (wp_release_case isr c w m); [done|]. destruct m as [|ws|n|r ws|on|on ws]; cbn [spec_release]; try by osteps.
  assert (Hn := or_held _ _ _ R). cbn in Hn. destruct (1 <? n) eqn:En; [|destruct (isr && _); osteps; [done|]].
  - apply Z.ltb_lt in En. osteps. apply (wp_notify_one srv c x); [done..|]. osteps. split; [done|]. split; [|done]. unfold with_refs. cbn [service set_service put].
    apply (orep_change w (On n)); try done; [apply R| |apply R|cbn; lia|apply do_out_dom| |apply not_elem_of_nil|by rewrite do_out_notify_dev; apply R].
    + rewrite (or_refs _ _ _ R). cbn. apply u16_small. unfold SERVICE_REFS_MAX in *. lia.
    + intros y By Hy. by apply (busy_none (On (n - 1)) eq_refl eq_refl y).
  - apply Z.ltb_ge in En. apply wp_assert_if; [intros _; apply negb_true_iff, Z.eqb_neq, R|]. apply wp_invoke; [done|apply R|]. osteps.
    split; [done|]. split; [|done]. apply (orep_change w (On n)); try done; [etransitivity; [exact (or_refs _ _ _ R)|cbn; lia]| |apply not_elem_of_nil|eapply dev_call; [apply R|done]].
    intros y By Hy. apply busy_cases in By as [?%not_elem_of_nil|<-]; [done|by exists x].
Qed.

Lemma wp_reset isr c x w m :
  ORep k w m -> busy m c = false -> c <> 0 -> cls w !! c = Some x -> valid_client x = true -> has_reset k = true ->
  wp (onoff_service_reset isr srv c) (Post (<[c := with_result 0 x]> (cls w), log w) (spec_reset k isr c m)) w.
Proof.
  intros R B Hc E V Hr. unfold onoff_service_reset. osteps. rewrite (or_reset _ _ _ R), Hr. cbn [negb].
  apply (wp_client_op c x) with m; [done..|]. clear w x R E V. intros w x R E V.
  apply busy_false in B as [B1 B2]. assert (Hs := orep_links w m c R ltac:(by eexists)). assert (F := flag_facts k m). rewrite <-(or_flag _ _ _ R) in F.
  osteps. rewrite (ff_reset _ _ _ F). unfold spec_reset. destruct (isr && _); osteps; [done|]. rewrite (ff_error _ _ _ F).
  destruct m as [|ws|n|r ws|on|on ws]; cbn [in_error negb]; osteps; [by oeval; osteps..| |]; rewrite (ff_transition _ _ _ F); cbn [in_transition negb]; osteps; cbn [Z.leb Z.compare].
  - apply (wp_add_client srv Hsrv c []); [apply (or_clients _ _ _ R)|done..|]. intros nx l Rl Dx. osteps.
    apply wp_invoke; [done| |]; [cbn; assert (Er := or_reset _ _ _ R); rewrite Hr in Er; by apply Z.eqb_neq in Er|]. osteps.
    split; [done|]. split; [|done]. unfold with_flag. cbn [service set_service put with_clients].
    apply (orep_relist w (Errored on)); try done; [rewrite (ff_begin _ _ _ F); by destruct on|exact (or_refs _ _ _ R)|exact (or_releaser _ _ _ R)| | |].
    + exact (busy_more w (Errored on) (Resetting on [c]) c x R E V eq_refl (or_introl eq_refl)).
    + cbn. rewrite list_elem_of_singleton. intros ?. by apply Hc.
    + eapply dev_call; [apply R|done].
  - apply (wp_add_client srv Hsrv c ws); [apply (or_clients _ _ _ R)|done..|]. intros nx l Rl Dx. osteps.
    split; [done|]. split; [|done]. apply (orep_relist w (Resetting on ws)); try done; [exact (or_flag _ _ _ R)|exact (or_refs _ _ _ R)|exact (or_releaser _ _ _ R)| | |apply R].
    + exact (busy_more w (Resetting on ws) (Resetting on (ws ++ [c])) c x R E V eq_refl (or_introl eq_refl)).
    + cbn. rewrite elem_of_app, list_elem_of_singleton. intros [Hi|?]; [by apply (sr_null _ _ _ (or_clients _ _ _ R))|by apply Hc].
Qed.

(** The state after one waiter has left. *)
Lemma orep_cancelled w m m' c res nx l :
  ORep k w m -> c ∈ waiting m -> SRep nx l (waiting m') -> dom nx = dom (links w) ->
  waiting m' = filter (.≠ c) (waiting m) -> code m' = code m -> holders m' = holders m -> releasing m' = releasing m -> dev_of m' = dev_of m ->
  match m' with On n => 1 <= n <= SERVICE_REFS_MAX | ToOn ws => ws <> [] | ToOff r _ => r <> 0 | _ => True end ->
  ORep k (put (mk_world nx (cls w) (with_clients l (service w)) (log w)) (do_out srv (cls w, log w) (Notify c res))) m'.
Proof.
  intros R Hi Rl Dx Ew Ec En Er Ed Hh.
  assert (Hy : forall y, y ∈ waiting m' -> y ∈ waiting m /\ y <> c) by (intros y; rewrite Ew, list_elem_of_filter; tauto).
  apply (orep_relist w m); try done; [rewrite Ec; apply R|rewrite En; apply R|rewrite Er; apply R|apply do_out_dom| | |by rewrite do_out_notify_dev, Ed; apply R].
  - intros y By Ny. assert (Hb : busy m y = true /\ y <> c).
    { rewrite busy_cases in By |- *. rewrite Er in By. destruct By as [By%Hy|<-]; [tauto|]. split; [by right|]. intros E. rewrite E in *. apply (or_apart _ _ _ R). by rewrite E. }
    destruct (or_busy _ _ _ R y (proj1 Hb) Ny) as (z & Ez & Vz). exists z. split; [|done]. cbn. destruct (cls w !! c); [|done]. cbn. rewrite lookup_insert_ne; [done|]. intros ->. by apply Hb.
  - rewrite Er. intros [Hi' _]%Hy. by apply (or_apart _ _ _ R).
Qed.

(** A list whose only member left, and came back. *)
Lemma only_member (ws : list Z) c : NoDup ws -> c ∈ ws -> filter (.≠ c) ws = [] -> ws = [c].
Proof.
  intros Hn [l1 [l2 ->]]%list_elem_of_split Ef. apply nodup_mid in Hn as [_ Hc]. rewrite without_mid in Ef by done.
  apply app_eq_nil in Ef as [-> ->]. done.
Qed.

Lemma service_clients w : mk_world (links w) (cls w) (with_clients (clients (service w)) (service w)) (log w) = w.
Proof. by destruct w as [? ? [] ?]. Qed.

(** The waiters and whether the code takes the state for a stop. *)
Definition stopping (m : mode) : bool := match m with ToOff _ _ | Resetting false _ => true | _ => false end.
Definition rewait (ws : list Z) (m : mode) : mode :=
  match m with ToOn _ => ToOn ws | ToOff r _ => ToOff r ws | Resetting on _ => Resetting on ws | _ => m end.

Lemma spec_cancel_waiting c m : c ∈ waiting m ->
  spec_cancel c m = if bool_decide (filter (.≠ c) (waiting m) = []) && negb (stopping m) then (m, [], - EWOULDBLOCK)
                    else (rewait (filter (.≠ c) (waiting m)) m, [Notify c (- ECANCELED)], 0).
Proof.
  intros Hi. unfold spec_cancel. rewrite decide_True by done. destruct m as [|ws|n|r ws|on|[] ws]; cbn [waiting stopping rewait] in *; try by apply not_elem_of_nil in Hi.
  all: destruct (filter (.≠ c) ws) as [|y l] eqn:E; cbn; try done. all: by rewrite bool_decide_false.
Qed.

Lemma wp_cancel c x w m :
  ORep k w m -> c <> 0 -> cls w !! c = Some x -> valid_client x = true ->
  wp (onoff_cancel srv c) (Post (<[c := with_result 0 x]> (cls w), log w) (spec_cancel c m)) w.
Proof.
  intros R Hc E V. unfold onoff_cancel. apply (wp_client_op c x (fun _ => _)) with m; [done..|]. clear w x R E V. intros w x R E V.
  assert (F := flag_facts k m). rewrite <-(or_flag _ _ _ R) in F. osteps. rewrite (ff_state _ _ _ F). apply wp_lst.
  assert (Hs := orep_links w m c R ltac:(by eexists)). assert (Rc := or_clients _ _ _ R). apply (wp_find_and_remove _ _ _ Rc).
  - intros Hi s' nx R' Fr E0. cbn [fst snd]. osteps. rewrite spec_cancel_waiting by done. cbn [clients service set_service with_clients].
    assert (Es : (state_bits m =? SERVICE_STATE_TO_OFF) = stopping m) by by destruct m as [| | | |[]|[]]. rewrite Es.
    assert (Ee : sys_slist_is_empty s' = bool_decide (filter (.≠ c) (waiting m) = [])).
    { apply eq_true_iff_eq. rewrite bool_decide_eq_true. by eapply srep_empty. }
    rewrite Ee. destruct (bool_decide _ && _) eqn:Eb.
    + apply andb_true_iff in Eb as [Eb%bool_decide_eq_true _]. rewrite Eb in R'. osteps. apply (wp_add_client srv Hsrv c []); [done|apply not_elem_of_nil|done| |].
      { by eexists. }
      intros nx2 l2 R2 D2. osteps. oeval. osteps. split; [done|]. split; [|done]. unfold with_clients. cbn [service set_service].
      assert (Ew := only_member _ _ (sr_nodup _ _ _ Rc) Hi Eb).
      apply (orep_relist w m); try apply R; [cbn; rewrite Ew; exact R2|rewrite D2; apply Fr|done].
    + osteps. oeval. osteps. apply (wp_notify_one srv c x); [done..|]. osteps. split; [done|]. split; [|done].
      apply (orep_cancelled w m); [done|done| |apply Fr|..]; destruct m as [|ws|n|r ws|on|on ws]; try done; try apply R; try by apply not_elem_of_nil in Hi.
      cbn in Eb |- *. rewrite andb_true_r in Eb. by apply bool_decide_eq_false in Eb.
  - intros Hi. cbn [fst snd]. osteps. change (set_service _ _) with (mk_world (links w) (cls w) (with_clients (clients (service w)) (service w)) (log w)). rewrite service_clients.
    unfold spec_cancel. rewrite decide_False by done. rewrite (or_releaser _ _ _ R). destruct (releasing m =? c); oeval; osteps; done.
Qed.

(** The state after a completion, for the transition and result it reports. *)
Definition Finished (p : gmap Z onoff_client * list event) (q : mode * list out) (w : world) : Prop :=
  ORep k w q.1 /\ cls w = (do_outs srv p q.2).1 /\ log w = (do_outs srv p q.2).2.
Definition completed (w : world) (t : transition) (res : Z) : world := put w (cls w, log w ++ [Complete t res]).

Lemma waiters_valid w m : ORep k w m -> forall c, c ∈ waiting m -> exists x, cls w !! c = Some x /\ valid_client x = true.
Proof.
  intros R c Hi. apply (or_busy _ _ _ R); [apply busy_cases; by left|]. intros ->. by apply (sr_null _ _ _ (or_clients _ _ _ R)).
Qed.

(** The last step of a completion that resolves every waiter, once the list is emptied. *)
Lemma wp_resolve_all w m m' res cs lg f n :
  ORep k w m -> f = config_bits k + code m' -> n = holders m' ->
  waiting m' = [] -> releasing m' = 0 -> match m' with On n => 1 <= n <= SERVICE_REFS_MAX | ToOn _ | ToOff _ _ => False | _ => True end ->
  dom cs = dom (cls w) -> (forall c, c ∈ waiting m -> exists x, cs !! c = Some x /\ valid_client x = true) ->
  dev_run DOff lg = Some (dev_of m') ->
  let s := service w in
  wp (notify_all srv (clients s) res)
     (fun _ => Finished (cs, lg) (m', all (waiting m) res))
     (mk_world (links w) cs (mk_service sys_slist_init (start_fn s) (stop_fn s) (reset_fn s) 0 f n) lg).
Proof.
  intros R Ef En Ew Er Hh Dc Hv Hd s. apply (wp_notify_all srv _ (waiting m)); [exact (or_clients _ _ _ R)|exact Hv|].
  split; [|done]. apply (orep_relist w m); try done.
  - cbn. rewrite Ew. apply srep_init.
  - by destruct m'.
  - by rewrite do_outs_dom.
  - intros y By Hy. by apply (busy_none m' Ew Er y).
  - cbn. rewrite Ew. apply not_elem_of_nil.
  - by rewrite do_outs_all_dev.
Qed.

(** Reduce the accesses of the state, not the operations. *)
Ltac ostate := unfold with_flag, with_refs, with_clients, with_releaser, set_service, completed, put; cbn [service links cls log clients start_fn stop_fn reset_fn releaser sflag refs fst snd].

Lemma wp_start_notify isr res w ws q :
  ORep k w (ToOn ws) -> spec_finish k isr Start res (ToOn ws) = Some q ->
  wp (onoff_start_notify srv res) (fun _ => Finished (cls w, log w ++ [Complete Start res]) q) (completed w Start res).
Proof.
  intros R Eq. cbn in Eq. assert (F := flag_facts k (ToOn ws)). rewrite <-(or_flag _ _ _ R) in F. assert (M := waiting_bound _ _ R). cbn in M.
  assert (Hne := or_held _ _ _ R). cbn in Hne. unfold onoff_start_notify. osteps. apply wp_assert_if; [intros _; cbn; by rewrite (or_releaser _ _ _ R)|]. unfold start_notify_locked.
  assert (D : dev_run DOff (log w ++ [Complete Start res]) = Some (if res <? 0 then DFailed else DOn)) by (eapply dev_complete; [apply R|done]).
  destruct (res <? 0) eqn:Er; simplify_eq/=.
  - osteps. ostate. rewrite (ff_end _ _ _ F).
    rewrite (or_releaser _ _ _ R). apply (wp_resolve_all w (ToOn ws) (Errored true)); try done; [apply (or_refs _ _ _ R)|exact (waiters_valid _ _ R)].
  - apply wp_bind, wp_bind, (wp_set_state srv Hsrv k (ToOn ws)); [exact (or_flag _ _ _ R)|by repeat constructor|]. cbv zeta. osteps. apply wp_lst.
    apply (wp_count _ _ _ (or_clients _ _ _ R)). cbn [waiting]. set (n := Z.of_nat (length ws)) in *. assert (Hn : 1 <= n) by (unfold n; destruct ws; [done|cbn [length]; lia]).
    unfold SERVICE_REFS_MAX in *. rewrite !(u32_small n) by lia. osteps. ostate. rewrite (or_refs _ _ _ R). cbn [holders]. rewrite u32_small by lia.
    assert (Hg : (0 >? 65535 - n) = false) by (rewrite Z.gtb_ltb; apply Z.ltb_ge; lia). rewrite Hg. osteps. ostate. rewrite (or_releaser _ _ _ R). cbn [releasing Z.add]. rewrite u16_small by lia.
    apply wp_assert_if; [intros _; rewrite Z.gtb_ltb; apply Z.ltb_lt; lia|]. osteps. ostate.
    apply (wp_resolve_all w (ToOn ws) (On n)); try done. exact (waiters_valid _ _ R).
Qed.

Lemma wp_reset_notify isr res w on ws q :
  ORep k w (Resetting on ws) -> spec_finish k isr Reset res (Resetting on ws) = Some q ->
  wp (onoff_reset_notify srv res) (fun _ => Finished (cls w, log w ++ [Complete Reset res]) q) (completed w Reset res).
Proof.
  intros R Eq. cbn in Eq. assert (F := flag_facts k (Resetting on ws)). rewrite <-(or_flag _ _ _ R) in F. unfold onoff_reset_notify.
  assert (D : dev_run DOff (log w ++ [Complete Reset res]) = Some (if res <? 0 then DFailed else DOff)) by (eapply dev_complete; [apply R|done]).
  destruct (res <? 0) eqn:Er; simplify_eq/=; osteps; ostate.
  - rewrite (ff_stay _ _ _ F), (or_releaser _ _ _ R). apply (wp_resolve_all w (Resetting on ws) (Errored on)); try done; [by destruct on|apply (or_refs _ _ _ R)|exact (waiters_valid _ _ R)].
  - apply wp_assert_if; [intros _; by rewrite (or_refs _ _ _ R)|]. osteps. ostate. rewrite (ff_clear _ _ _ F), (or_releaser _ _ _ R).
    apply (wp_resolve_all w (Resetting on ws) Off); try done; [by rewrite Z.add_0_r|exact (waiters_valid _ _ R)].
Qed.

(** The part of a stop's completion that follows the choice of the next state: the last
    reference is dropped and the releaser resolved. *)
Lemma wp_stop_tail w r ws x res f (nc : bool) lg (k' : unit -> OM unit) (Q : unit -> world -> Prop) :
  ORep k w (ToOff r ws) -> cls w !! r = Some x -> valid_client x = true ->
  (let s := service w in
   let p := do_out srv (cls w, lg) (Notify r res) in
   wp (k' tt) Q (mk_world (links w) p.1 (mk_service (if nc then sys_slist_init else clients s) (start_fn s) (stop_fn s) (reset_fn s) 0 f 0) p.2)) ->
  let s := service w in
  wp (assert_ (negb (r =? 0));;
      n ← sv srv refs;
      sv_set srv (with_refs (n - 1));;
      sv_set srv (with_releaser 0);;
      n ← sv srv refs;
      assert_ (n =? 0);;
      when nc (sv_set srv (with_clients sys_slist_init));;
      u ← notify_one srv r res; k' u) Q
     (mk_world (links w) (cls w) (mk_service (clients s) (start_fn s) (stop_fn s) (reset_fn s) (releaser s) f (refs s)) lg).
Proof.
  intros R Ex Vx HQ. cbv zeta in *. assert (Hr := or_held _ _ _ R). cbn in Hr. osteps. apply wp_assert_if; [intros _; by apply negb_true_iff, Z.eqb_neq|]. osteps. ostate.
  rewrite (or_refs _ _ _ R). cbn [holders]. change (u16 (1 - 1)) with 0. apply wp_assert_if; [done|].
  destruct nc; osteps; ostate; apply (wp_notify_one srv r x); try done; cbn [cls log]; exact HQ.
Qed.

Lemma finished_after p o os m w : Finished ((do_out srv p o).1, (do_out srv p o).2) (m, os) w -> Finished p (m, o :: os) w.
Proof. by rewrite <-surjective_pairing. Qed.

Lemma wp_stop_case isr res w r ws lg (Q : bool * bool * Z -> world -> Prop) :
  ORep k w (ToOff r ws) ->
  let s := service w in
  let st f := mk_world (links w) (cls w) (mk_service (clients s) (start_fn s) (stop_fn s) (reset_fn s) (releaser s) (config_bits k + f) (refs s)) lg in
  (if res <? 0 then Q (true, false, res) (st 8)
   else match ws with
        | [] => Q (false, false, res) (st 0)
        | _ => if isr && start_sleeps k then Q (true, false, - EWOULDBLOCK) (st 0) else Q (false, true, res) (st 48)
        end) ->
  wp (stop_case isr srv (clients s) res) Q (mk_world (links w) (cls w) s lg).
Proof.
  intros R. cbv zeta. intros HQ. assert (F := flag_facts k (ToOff r ws)). rewrite <-(or_flag _ _ _ R) in F. unfold stop_case.
  assert (Es : sys_slist_is_empty (clients (service w)) = bool_decide (ws = [])).
  { apply eq_true_iff_eq. rewrite bool_decide_eq_true. apply (srep_empty _ _ _ (or_clients _ _ _ R)). }
  rewrite Es. assert (Ef := or_flag _ _ _ R). destruct (res <? 0); [|destruct ws as [|c ws]; [|rewrite bool_decide_false by done; osteps; ostate; rewrite (ff_start _ _ _ F); destruct (isr && _)]].
  - osteps. ostate. by rewrite (ff_end _ _ _ F).
  - apply wp_bind, (wp_set_state srv Hsrv k (ToOff r [])); [done|by repeat constructor|]. by osteps.
  - apply wp_bind, (wp_set_state srv Hsrv k (ToOff r (c :: ws))); [done|by repeat constructor|]. by osteps.
  - apply wp_bind, (wp_set_state srv Hsrv k (ToOff r (c :: ws))); [done|by repeat constructor|]. by osteps.
Qed.

Lemma wp_stop_notify isr res w r ws q :
  ORep k w (ToOff r ws) -> spec_finish k isr Stop res (ToOff r ws) = Some q ->
  wp (onoff_stop_notify isr srv res) (fun _ => Finished (cls w, log w ++ [Complete Stop res]) q) (completed w Stop res).
Proof.
  intros R Eq. cbn in Eq. assert (F := flag_facts k (ToOff r ws)). rewrite <-(or_flag _ _ _ R) in F.
  destruct (or_busy _ _ _ R r) as (x & Ex & Vx); [apply busy_cases; by right|apply (or_held _ _ _ R)|].
  assert (D : dev_run DOff (log w ++ [Complete Stop res]) = Some (if res <? 0 then DFailed else DOff)) by (eapply dev_complete; [apply R|done]).
  set (p := do_out srv (cls w, log w ++ [Complete Stop res]) (Notify r res)).
  assert (Dp : dom p.1 = dom (cls w)) by apply do_out_dom.
  assert (Dl : dev_run DOff p.2 = Some (if res <? 0 then DFailed else DOff)) by by unfold p; rewrite do_out_notify_dev.
  assert (Hv : forall c, c ∈ ws -> exists z, p.1 !! c = Some z /\ valid_client z = true).
  { intros c Hc. destruct (waiters_valid _ _ R c Hc) as (z & Ez & Vz). exists z. split; [|done]. unfold p. cbn. rewrite Ex. cbn. rewrite lookup_insert_ne; [done|]. intros ->. by apply (or_apart _ _ _ R). }
  unfold onoff_stop_notify. osteps. ostate. rewrite (or_releaser _ _ _ R). cbn [releasing]. unfold stop_notify_locked. apply wp_bind.
  apply (wp_stop_case isr res w r ws); [done|]. destruct (res <? 0) eqn:Er; simplify_eq; [|destruct ws as [|c ws]; [|destruct (isr && _)]; simplify_eq]; cbv beta iota; (eapply wp_stop_tail; [exact R|exact Ex|done|]); cbv zeta; fold p.
  - eapply wp_mono; [exact (wp_resolve_all w (ToOff r ws) (Errored false) res p.1 p.2 _ _ R eq_refl eq_refl eq_refl eq_refl I Dp Hv Dl)|]. intros u w'. apply finished_after.
  - osteps. split; [|done]. apply (orep_change w (ToOff r [])); try done; [|apply not_elem_of_nil]. intros y By Hy. by apply (busy_none Off eq_refl eq_refl y).
  - eapply wp_mono; [exact (wp_resolve_all w (ToOff r (c :: ws)) Off (- EWOULDBLOCK) p.1 p.2 _ _ R eq_refl eq_refl eq_refl eq_refl I Dp Hv Dl)|]. intros u w'. apply finished_after.
  - osteps. apply wp_invoke; [done|apply R|]. split; [|done]. apply (orep_change w (ToOff r (c :: ws))); try done.
    + intros y By Hy. apply busy_cases in By as [By|By]; [by apply Hv|by symmetry in By].
    + apply (sr_null _ _ _ (or_clients _ _ _ R)).
    + eapply dev_call; [exact Dl|done].
Qed.

End Operations.

(** ** Sequences of operations *)

Section Runs.
Context `{Config} (srv : Z) (Hsrv : srv <> 0) (k : setup).

Definition Agree (w : world) (a : astate) : Prop := ORep k w (amode a) /\ cls w = aclients a /\ log w = alog a.

(** A client operation that starts with the validation of its arguments. *)
Lemma wp_for_client c (body : Z -> OM Z) f w a a' rv :
  Agree w a -> for_client srv c a f = Some (a', rv) ->
  (forall x, c <> 0 -> cls w !! c = Some x -> valid_client x = true ->
   wp (r ← validate_args srv c; if r <? 0 then mret r else body r) (Post srv k (<[c := with_result 0 x]> (cls w), log w) (f (amode a))) w) ->
  wp (r ← validate_args srv c; if r <? 0 then mret r else body r) (fun r w' => r = rv /\ Agree w' a') w.
Proof.
  intros (R & Ec & El) Ef Hb. unfold for_client in Ef. destruct (c =? 0) eqn:E0.
  { apply Z.eqb_eq in E0. simplify_eq. apply wp_bind, wp_validate_null; [done|]. by wp_steps. }
  apply Z.eqb_neq in E0. rewrite <-Ec, <-El in Ef. destruct (cls w !! c) as [x|] eqn:Ex; [|done]. cbn in Ef. destruct (valid_client x) eqn:V.
  - eapply wp_mono; [by apply (Hb x)|]. intros r w' (-> & R' & Ec' & El'). destruct (f (amode a)) as [[m os] rv']. simplify_eq/=. done.
  - simplify_eq. apply wp_bind, (wp_validate_client srv Hsrv c x); [done..|]. rewrite V. by wp_steps.
Qed.

Lemma orep_init_client w m c y : ORep k w m -> busy m c = false -> is_Some (cls w !! c) -> ORep k (mk_world (<[c := 0]> (links w)) (<[c := y]> (cls w)) (service w) (log w)) m.
Proof.
  intros R B Hc. assert (Hl := orep_links k w m c R Hc). apply busy_false in B as B'. destruct R. split; cbn; try done.
  - apply (srep_frame (links w)); [done|]. intros z Hz. apply lookup_insert_ne. intros ->. by apply (proj1 B').
  - by rewrite !dom_insert_lookup_L.
  - rewrite lookup_insert_ne; [done|]. intros ->. by destruct Hc as [? E]; rewrite E in or_null0.
  - by rewrite <-size_dom, dom_insert_lookup_L, size_dom.
  - intros z Bz Hz. rewrite lookup_insert_ne; [auto|]. intros ->. by rewrite B in Bz.
Qed.

Lemma wp_cl_init c y (Q : unit -> world -> Prop) w m :
  ORep k w m -> is_Some (cls w !! c) -> Q tt (mk_world (<[c := 0]> (links w)) (<[c := y]> (cls w)) (service w) (log w)) -> wp (cl_init c y) Q w.
Proof.
  intros R Hc HQ. unfold cl_init. apply wp_bind, wp_lst, wp_next_set; [by eapply orep_links|]. destruct Hc as [x Ex]. by apply (wp_cl_set c x).
Qed.

Lemma wp_prepare_client c call w a a' rv isr :
  Agree w a -> spec_op k srv isr (Prepare c call) a = Some (a', rv) -> wp (run_oop srv isr (Prepare c call)) (fun r w' => r = rv /\ Agree w' a') w.
Proof.
  intros (R & Ec & El) Es. cbn in Es. destruct (busy _ _ || _) eqn:B; [done|]. apply orb_false_iff in B as [B E0]. rewrite <-Ec in Es.
  destruct (cls w !! c) as [x|] eqn:Ex; [|done]. cbn in Es. assert (Hx : is_Some (cls w !! c)) by by eexists.
  destruct call as [[h d]|]; cbn [run_oop]; unfold onoff_client_init_spinwait, onoff_client_init_callback.
  - destruct (h =? 0) eqn:Eh; [done|]. simplify_eq. apply wp_bind, wp_bind, wp_assert_if; [intros _; by rewrite E0|]. apply wp_bind, wp_assert_if; [done|].
    eapply wp_cl_init; [done|done|]. wp_steps. split; [done|]. split; [by apply orep_init_client|]. done.
  - simplify_eq. apply wp_bind, wp_bind, wp_assert_if; [intros _; by rewrite E0|]. eapply wp_cl_init; [done|done|]. wp_steps. split; [done|]. split; [by apply orep_init_client|]. done.
Qed.

Lemma wp_finish_op t res w a a' rv isr :
  Agree w a -> spec_op k srv isr (Finish t res) a = Some (a', rv) -> wp (run_oop srv isr (Finish t res)) (fun r w' => r = rv /\ Agree w' a') w.
Proof.
  intros (R & Ec & El) Es. cbn [spec_op] in Es. destruct (spec_finish k isr t res (amode a)) as [q|] eqn:Eq; [|done]. cbn in Es. simplify_eq.
  cbn [run_oop]. apply wp_bind, wp_emit, wp_bind. rewrite <-Ec, <-El.
  assert (Hf : forall (u : unit) w', Finished srv k (cls w, log w ++ [Complete t res]) q w' -> wp (mret 0) (fun r w' => r = 0 /\ Agree w' (mk_astate q.1 (do_outs srv (cls w, log w ++ [Complete t res]) q.2).1 (do_outs srv (cls w, log w ++ [Complete t res]) q.2).2)) w').
  { intros u w' (R' & Ec' & El'). by wp_steps. }
  destruct t, (amode a) as [|ws|n|r ws|on|on ws]; try done.
  - eapply wp_mono; [exact (wp_start_notify srv Hsrv k isr res w ws q R Eq)|]. apply Hf.
  - eapply wp_mono; [exact (wp_stop_notify srv Hsrv k isr res w r ws q R Eq)|]. apply Hf.
  - eapply wp_mono; [exact (wp_reset_notify srv Hsrv k isr res w on ws q R Eq)|]. apply Hf.
Qed.

Lemma run_oop_refines isr o w a a' rv :
  Agree w a -> spec_op k srv isr o a = Some (a', rv) -> wp (run_oop srv isr o) (fun r w' => r = rv /\ Agree w' a') w.
Proof.
  intros A Es. destruct o as [c|c|c|c|t res|c call]; [| | | |by eapply wp_finish_op|by eapply wp_prepare_client]; cbn [run_oop spec_op] in *; pose proof A as (R & Ec & El).
  - destruct (busy _ _) eqn:B; [done|]. eapply (wp_for_client c (fun _ => _)); [done..|]. intros x Hc E V. by apply wp_request.
  - destruct (busy _ _) eqn:B; [done|]. eapply (wp_for_client c (fun _ => _)); [done..|]. intros x Hc E V. by apply wp_release.
  - destruct (has_reset k) eqn:Hr.
    + destruct (busy _ _) eqn:B; [done|]. unfold onoff_service_reset. apply wp_bind, wp_sv; [done|].
      rewrite (or_reset _ _ _ R), Hr. cbn [negb]. eapply wp_for_client; [done..|]. intros x Hc E V.
      assert (Hq := wp_sv_inv srv Hsrv _ _ _ _ (wp_reset srv Hsrv k isr c x w (amode a) R B Hc E V Hr)). cbv beta in Hq.
      by rewrite (or_reset _ _ _ R), Hr in Hq.
    + simplify_eq. unfold onoff_service_reset. apply wp_bind, wp_sv; [done|]. rewrite (or_reset _ _ _ R), Hr. cbn [negb]. by wp_steps.
  - eapply (wp_for_client c (fun _ => _)); [done..|]. intros x Hc E V. by apply wp_cancel.
Qed.

Lemma run_oops_refines os : forall w a rs a',
  Agree w a -> spec_ops k srv os a = Some (rs, a') -> wp (run_oops srv os) (fun r w' => r = rs /\ Agree w' a') w.
Proof.
  induction os as [|[isr o] os IH]; intros w a rs a' A Es; cbn [spec_ops run_oops] in *.
  - simplify_eq. by wp_steps.
  - destruct (spec_op k srv isr o a) as [[a1 rv]|] eqn:E1; [|done]. cbn in Es. destruct (spec_ops k srv os a1) as [[rs1 a2]|] eqn:E2; [|done]. cbn in Es. simplify_eq.
    eapply wp_seq; [by eapply run_oop_refines|]. intros r w1 [-> A1]. eapply wp_seq; [by eapply IH|]. intros r2 w2 [-> A2]. by wp_steps.
Qed.

End Runs.

(** ** Theorems *)

(** Memory with clients and no history. *)
Record Pristine (w : world) : Prop := {
  pr_dom : dom (links w) = dom (cls w);
  pr_null : cls w !! 0 = None;
  pr_max : Z.of_nat (size (cls w)) <= SERVICE_REFS_MAX;
  pr_log : log w = [];
}.

Section Main.
Context `{Config} (srv : Z) (k : setup) (w : world) (start stop reset : Z).
Context (Hsrv : srv <> 0) (Hw : Pristine w) (Hstart : start <> 0) (Hstop : stop <> 0) (Hreset : (reset =? 0) = negb (has_reset k)).

Lemma init_agrees : wp (onoff_service_init srv start stop reset (config_bits k)) (fun r w' => r = 0 /\ Agree k w' (mk_astate Off (cls w) [])) w.
Proof.
  unfold onoff_service_init. assert (Eb : Z.land (config_bits k) SERVICE_CONFIG_FLAGS = config_bits k) by (by destruct k as [[] [] [] ?]).
  rewrite Eb, Z.eqb_refl. cbn [negb]. rewrite (proj2 (Z.eqb_neq _ _) Hstart), (proj2 (Z.eqb_neq _ _) Hstop). cbn [orb].
  apply wp_bind, wp_sv_set; [done|]. wp_steps. split; [done|]. split; [|split; [done|apply Hw]]. destruct Hw. split; cbn; try done.
  - rewrite Z.add_0_r. by destruct k as [[] [] [] ?].
  - apply srep_init.
  - intros c Bc Hc. by apply (busy_none Off eq_refl eq_refl c).
  - apply not_elem_of_nil.
  - by rewrite pr_log0.
Qed.

Lemma init_run os rs a' :
  spec_ops k srv os (mk_astate Off (cls w) []) = Some (rs, a') ->
  exists w', (onoff_service_init srv start stop reset (config_bits k);; run_oops srv os) w = Done rs w' /\ Agree k w' a'.
Proof.
  intros Es. destruct (proj1 (wp_run (onoff_service_init srv start stop reset (config_bits k);; run_oops srv os) (fun r w' => r = rs /\ Agree k w' a') w)) as (r & w' & E & -> & A); [|by exists w'].
  apply wp_bind. eapply wp_mono; [exact init_agrees|]. intros r w1 [_ A1]. by eapply run_oops_refines.
Qed.

(** C28: Sequences of operations on a fresh service run to the end and do what the machine does:
    the same results, the same state of the service, its clients and the calls it made. *)
Theorem onoff_refines_machine os rs a' :
  spec_ops k srv os (mk_astate Off (cls w) []) = Some (rs, a') ->
  exists w', (onoff_service_init srv start stop reset (config_bits k);; run_oops srv os) w = Done rs w' /\
    ORep k w' (amode a') /\ cls w' = aclients a' /\ log w' = alog a'.
Proof. apply init_run. Qed.

Lemma dev_run_invoke d0 es1 t es2 d : dev_run d0 (es1 ++ Invoke t :: es2) = Some d ->
  dev_run d0 es1 = Some (match t with Start => DOff | Stop => DOn | Reset => DFailed end).
Proof.
  rewrite dev_run_app. destruct (dev_run d0 es1) as [d1|]; [|done]. cbn -[dev_step]. intros E. destruct t, d1; done.
Qed.

(** C29: The start function is called only from off, the stop function only from on and the reset
    function only in error, each only once the transition before it has completed. *)
Theorem onoff_transitions_in_order os rs a' w' es1 t es2 :
  spec_ops k srv os (mk_astate Off (cls w) []) = Some (rs, a') ->
  (onoff_service_init srv start stop reset (config_bits k);; run_oops srv os) w = Done rs w' ->
  log w' = es1 ++ Invoke t :: es2 ->
  dev_run DOff es1 = Some (match t with Start => DOff | Stop => DOn | Reset => DFailed end).
Proof.
  intros Es Er El. destruct (init_run os rs a' Es) as (w2 & E & R & _). rewrite Er in E. simplify_eq.
  apply (dev_run_invoke _ _ _ es2 (dev_of (amode a'))). rewrite <-El. apply R.
Qed.

End Main.

Section Misses.
Context `{Config} (srv : Z) (k : setup) (w : world) (c : Z) (x : onoff_client).
Context (Hsrv : srv <> 0) (Hc : c <> 0) (Hx : cls w !! c = Some x) (Vx : valid_client x = true).

(** While a service that failed to turn off is reset, its only waiter can be cancelled, and
    nobody is left to be told how the reset ends; after a failed start it cannot. *)
Theorem onoff_cancel_last_reset on :
  ORep k w (Resetting on [c]) ->
  exists w', onoff_cancel srv c w = Done (if on then - EWOULDBLOCK else 0) w' /\ ORep k w' (Resetting on (if on then [c] else [])).
Proof.
  intros R. destruct (proj1 (wp_run _ _ _) (wp_cancel srv Hsrv k c x w _ R Hc Hx Vx)) as (r & w' & E & -> & R' & _). exists w'. rewrite E.
  rewrite spec_cancel_waiting in * by constructor. cbn [waiting] in *. rewrite filter_cons_False in * by tauto. rewrite filter_nil in *. by destruct on.
Qed.

(** C40: The client list and the releaser are read before the lock is taken.  A request accepted
    between the read and the lock is not seen: the service is left off with the client on its
    list, neither resolved nor followed by a start. *)
Theorem onoff_stop_race isr isr' r xr res :
  ORep k w (ToOff r []) -> r <> c -> cls w !! r = Some xr -> valid_client xr = true -> 0 <= res ->
  exists w',
    (l ← sv srv clients; rl ← sv srv releaser; rv ← onoff_request isr' srv c; stop_notify_locked isr srv l rl res;; mret rv) w = Done 3 w' /\
    sflag (service w') = config_bits k /\ refs (service w') = 0 /\ SRep (links w') (clients (service w')) [c] /\
    cls w' !! c = Some (with_result 0 x) /\ log w' = (do_out srv (cls w, log w) (Notify r res)).2.
Proof.
  intros R Hr Er Vr Hres.
  cut (wp (l ← sv srv clients; rl ← sv srv releaser; rv ← onoff_request isr' srv c; stop_notify_locked isr srv l rl res;; mret rv)
    (fun rv w' => rv = 3 /\ sflag (service w') = config_bits k /\ refs (service w') = 0 /\ SRep (links w') (clients (service w')) [c] /\
      cls w' !! c = Some (with_result 0 x) /\ log w' = (do_out srv (cls w, log w) (Notify r res)).2) w).
  { intros (rv & w' & E & -> & Hq)%wp_run. by exists w'. }
  apply wp_bind, wp_sv, wp_bind, wp_sv, wp_bind; [done..|]. assert (Hn : (res <? 0) = false) by by apply Z.ltb_ge.
  assert (Ee := proj2 (srep_empty _ _ _ (or_clients _ _ _ R)) eq_refl). assert (B : busy (ToOff r []) c = false) by (unfold busy; cbn; by apply Z.eqb_neq).
  eapply wp_mono; [exact (wp_request srv Hsrv k isr' c x w _ R B Hc Hx Vx)|]. intros rv w1 (-> & R1 & Ec & El). cbn in R1, Ec, El.
  rewrite (or_releaser _ _ _ R). cbn [releasing]. unfold stop_notify_locked, stop_case. rewrite Hn, Ee. apply wp_bind, wp_bind, wp_bind.
  apply (wp_set_state srv Hsrv k (ToOff r [c])); [apply (or_flag _ _ _ R1)|by repeat constructor|]. wp_steps. cbv beta iota zeta.
  assert (E1 : cls w1 !! r = Some xr) by (by rewrite Ec, lookup_insert_ne). apply (wp_stop_tail srv Hsrv k w1 r [c] xr); [done..|]. wp_steps.
  cbn -[do_out]. split; [done|]. split; [apply Z.add_0_r|]. split; [done|]. split; [apply (or_clients _ _ _ R1)|]. cbn. rewrite E1, Er, El. cbn. split; [|done].
  rewrite Ec, lookup_insert_ne by done. by rewrite lookup_insert_eq.
Qed.

End Misses.

(** ** Witnesses *)

Definition demo_setup : setup := mk_setup true false false true.
Definition demo_world : world :=
  mk_world {[ 64 := 0; 96 := 0; 128 := 0 ]} {[ 64 := mk_client 0 0 0 1; 96 := mk_client 4096 7 0 3; 128 := mk_client 0 0 0 1 ]} (mk_service (mk_slist 0 0) 0 0 0 0 0 0) [].

Lemma demo_pristine : Pristine demo_world.
Proof. split; [by vm_compute|done|by vm_compute|done]. Qed.

(** Start for two clients, release by both, a request while stopping, a failed start, a reset. *)
Definition demo_oops : list (bool * oop) :=
  [(false, Request 64); (true, Request 96); (false, Cancel 64); (false, Finish Start 0); (false, Prepare 64 None); (false, Request 64);
   (false, Prepare 96 (Some (4096, 8))); (false, Release 96); (false, Release 128); (false, Prepare 64 None); (true, Request 64);
   (false, Finish Stop 0); (false, Finish Start (-5)); (false, Prepare 64 None); (false, Request 64); (false, ResetService 64); (false, Finish Reset 0)].

Definition demo_results : list Z := [2; 1; 0; 0; 0; 0; 0; 1; 2; 0; 3; 0; 0; 0; -5; 0; 0].
Definition demo_log : list event :=
  [Invoke Start; Complete Start 0; Called 4096 32 96 7 0; Called 4096 32 96 8 0; Invoke Stop; Complete Stop 0; Invoke Start; Complete Start (-5); Invoke Reset; Complete Reset 0].

Lemma demo_spec : exists a', spec_ops demo_setup 32 demo_oops (mk_astate Off (cls demo_world) []) = Some (demo_results, a') /\ amode a' = Off /\ alog a' = demo_log.
Proof. eexists. split; [by vm_compute|]. by split; vm_compute. Qed.

Lemma onoff_refines_machine_witness :
  exists a' w', (onoff_service_init 32 256 512 768 (config_bits demo_setup);; run_oops (H := test_config) 32 demo_oops) demo_world = Done demo_results w' /\
    ORep demo_setup w' (amode a') /\ cls w' = aclients a' /\ log w' = alog a'.
Proof.
  destruct demo_spec as (a' & E & _). exists a'.
  exact (onoff_refines_machine (H := test_config) 32 demo_setup demo_world 256 512 768 ltac:(lia) demo_pristine ltac:(lia) ltac:(lia) eq_refl demo_oops demo_results a' E).
Defined.

Lemma onoff_transitions_in_order_witness : dev_run DOff (take 6 demo_log) = Some DOff.
Proof.
  destruct demo_spec as (a' & E & _ & El).
  destruct (init_run (H := test_config) 32 demo_setup demo_world 256 512 768 ltac:(lia) demo_pristine ltac:(lia) ltac:(lia) eq_refl demo_oops demo_results a' E) as (w' & Er & _ & _ & El').
  assert (Eq : log w' = take 6 demo_log ++ Invoke Start :: drop 7 demo_log) by (by rewrite El', El).
  exact (onoff_transitions_in_order (H := test_config) 32 demo_setup demo_world 256 512 768 ltac:(lia) demo_pristine ltac:(lia) ltac:(lia) eq_refl demo_oops demo_results a' w' (take 6 demo_log) Start (drop 7 demo_log) E Er Eq).
Defined.

(** A service reset after it failed to turn off, and one that is turning off. *)
Lemma demo_reach os rs m cs lg : spec_ops demo_setup 32 os (mk_astate Off (cls demo_world) []) = Some (rs, mk_astate m cs lg) ->
  exists w, ORep demo_setup w m /\ cls w = cs.
Proof.
  intros E. destruct (init_run (H := test_config) 32 demo_setup demo_world 256 512 768 ltac:(lia) demo_pristine ltac:(lia) ltac:(lia) eq_refl os rs _ E) as (w & _ & R & Ec & _). by exists w.
Qed.

Lemma onoff_cancel_last_reset_witness :
  exists w w', ORep demo_setup w (Resetting false [128]) /\ onoff_cancel (H := test_config) 32 128 w = Done 0 w' /\ ORep demo_setup w' (Resetting false []).
Proof.
  destruct (demo_reach [(false, Request 64); (false, Finish Start 0); (false, Release 96); (false, Finish Stop (-5)); (false, ResetService 128)] [2; 0; 2; 0; 0] (Resetting false [128])
    {[ 64 := mk_client 0 0 0 0; 96 := mk_client 4096 7 (-5) 0; 128 := mk_client 0 0 0 1 ]} [Invoke Start; Complete Start 0; Invoke Stop; Complete Stop (-5); Called 4096 32 96 7 (-5); Invoke Reset]) as (w & R & Ec); [by vm_compute|].
  destruct (onoff_cancel_last_reset (H := test_config) 32 demo_setup w 128 (mk_client 0 0 0 1) ltac:(lia) ltac:(lia) ltac:(by rewrite Ec; vm_compute) ltac:(by vm_compute) false R) as (w' & E & R').
  exists w, w'. by split.
Defined.

Lemma onoff_stop_race_witness :
  exists w w', ORep demo_setup w (ToOff 96 []) /\
    (l ← sv 32 clients; rl ← sv 32 releaser; rv ← onoff_request (H := test_config) false 32 128; stop_notify_locked (H := test_config) true 32 l rl 0;; mret rv) w = Done 3 w' /\
    sflag (service w') = config_bits demo_setup /\ SRep (links w') (clients (service w')) [128].
Proof.
  destruct (demo_reach [(false, Request 64); (false, Finish Start 0); (false, Release 96)] [2; 0; 2] (ToOff 96 [])
    {[ 64 := mk_client 0 0 0 0; 96 := mk_client 4096 7 0 3; 128 := mk_client 0 0 0 1 ]} [Invoke Start; Complete Start 0; Invoke Stop]) as (w & R & Ec); [by vm_compute|].
  destruct (onoff_stop_race (H := test_config) 32 demo_setup w 128 (mk_client 0 0 0 1) ltac:(lia) ltac:(lia) ltac:(by rewrite Ec; vm_compute) ltac:(by vm_compute) true false 96 (mk_client 4096 7 0 3) 0
    R ltac:(lia) ltac:(by rewrite Ec; vm_compute) ltac:(by vm_compute) ltac:(lia)) as (w' & E & Hf & _ & Hl & _).
  exists w, w'. by split.
Defined.
