(* ===== verification/Pages.v ===== *)
(** * Address spaces: pages of memory partitions

    Models [src/object/anode.c] and [src/arch/arm/aarch32/cortex_m/mpu/arm_mpu_anode.c].  A
    page ([struct thread_page]) holds an array of partitions, whose free slots have size 0,
    and the list of the threads that run in it; a thread names its page.  The partitions of
    the running thread's page, its stack and the guard below its privileged stack are what
    the protection unit of [Mpu] is programmed with.

    The object allocator, which hands out the memory of a page, is the [FrameAlloc]
    interface.  The time checks of [syscall_unmap_page] are not part of this file. *)

From Stdlib Require Import ZArith Lia Bool List.
From stdpp Require Import base tactics numbers list gmap.
From S2P Require Import Prelude DList DNode Mpu.

Local Open Scope Z_scope.

(** ** State *)

Record thread_page := mk_page { partitions : list partition; partitions_number : Z }.
Definition with_partitions v g := mk_page v (partitions_number g).
Definition with_partitions_number v g := mk_page (partitions g) v.

(** The fields of a thread this code reads and writes. *)
Record athread := mk_athread {
  pagetable_item : Z;
  priv_stack_start : Z;
  userspace_stack_point : Z;
  stack_info_start : Z;
  stack_info_size : Z;
  option_fp_option : bool;
}.
Definition with_pagetable_item v t := mk_athread v (priv_stack_start t) (userspace_stack_point t) (stack_info_start t) (stack_info_size t) (option_fp_option t).

Record aspace := mk_aspace {
  as_pages : gmap Z thread_page;
  as_threads : gmap Z athread;
  as_dl : gmap Z dnode;
  as_mpu : mpu;
  as_current : Z;
  max_partitions : Z;
}.
Definition with_as_pages v s := mk_aspace v (as_threads s) (as_dl s) (as_mpu s) (as_current s) (max_partitions s).
Definition with_as_threads v s := mk_aspace (as_pages s) v (as_dl s) (as_mpu s) (as_current s) (max_partitions s).
Definition with_as_dl v s := mk_aspace (as_pages s) (as_threads s) v (as_mpu s) (as_current s) (max_partitions s).
Definition with_as_mpu v s := mk_aspace (as_pages s) (as_threads s) (as_dl s) v (as_current s) (max_partitions s).
Definition with_max_partitions v s := mk_aspace (as_pages s) (as_threads s) (as_dl s) (as_mpu s) (as_current s) v.

Notation AS := (ST aspace).

(** Build switches; [pagetable_node_offset] is the place of the list node in a thread and
    [priv_stacks_ram_start] a symbol of the linker script. *)
Class PageConfig := {
  CONFIG_MAX_DOMAIN_PARTITIONS : Z;
  CONFIG_MPU_STACK_GUARD : bool;
  CONFIG_FP_SHARING : bool;
  CONFIG_EXECUTE_XOR_WRITE : bool;
  pagetable_node_offset : Z;
  priv_stacks_ram_start : Z;
}.

(** [d_object_alloc(obj_frame_obj, 0)] and [d_object_free]. *)
Class FrameAlloc := {
  d_object_alloc_frame : AS Z;
  d_object_free_frame : Z -> AS unit;
}.

Definition on_mpu {A} (m : UM A) : AS A := fun s =>
  match m (as_mpu s) with Done a v => Done a (with_as_mpu v s) | Fail e => Fail e end.
Definition on_list {A} (m : DM A) : AS A := fun s =>
  match m (as_dl s) with Done a v => Done a (with_as_dl v s) | Fail e => Fail e end.

Definition rd_page (p : Z) : AS thread_page := s ← (get : AS aspace); ofopt (as_pages s !! p).
Definition wr_page (p : Z) (f : thread_page -> thread_page) : AS unit :=
  g ← rd_page p; modify (fun s => with_as_pages (<[p := f g]> (as_pages s)) s).
Definition rd_athread (t : Z) : AS athread := s ← (get : AS aspace); ofopt (as_threads s !! t).
Definition wr_athread (t : Z) (f : athread -> athread) : AS unit :=
  v ← rd_athread t; modify (fun s => with_as_threads (<[t := f v]> (as_threads s)) s).

Section Pages.
Context `{Config} `{PageConfig}.

Definition rd_slot (p i : Z) : AS partition := g ← rd_page p; ofopt (partitions g !! Z.to_nat i).
Definition wr_slot (p i : Z) (v : partition) : AS unit :=
  rd_slot p i;; wr_page p (fun g => with_partitions (<[Z.to_nat i := v]> (partitions g)) g).

(** [&page_item->pagetable_list], behind the array of twelve-byte partitions. *)
Definition pagetable_list (p : Z) : Z := p + 12 * CONFIG_MAX_DOMAIN_PARTITIONS.
Definition pagetable_node (t : Z) : Z := t + pagetable_node_offset.

(** ** The protection unit of the running thread *)

Definition MPU_GUARD_ALIGN_AND_SIZE : Z := if CONFIG_MPU_STACK_GUARD then CONFIG_ARM_MPU_REGION_MIN_ALIGN_AND_SIZE else 0.
Definition MPU_GUARD_ALIGN_AND_SIZE_FLOAT : Z := if CONFIG_MPU_STACK_GUARD then 128 else 0.
Definition MAX_DYNAMIC_MPU_REGIONS_NUM : Z := CONFIG_MAX_DOMAIN_PARTITIONS + 1 + (if CONFIG_MPU_STACK_GUARD then 1 else 0).

(** The partitions of the page in [dynamic_regions]; the loop ends with [partitions_number]. *)
Fixpoint collect_partitions (parts : list partition) (number : Z) (regions : list partition) : AS (list partition) :=
  match parts with
  | [] => mret regions
  | part :: parts =>
    if p_size part =? 0 then collect_partitions parts number regions
    else
      assert_ (Z.of_nat (length regions) <? MAX_DYNAMIC_MPU_REGIONS_NUM);;
      let number := u32 (number - 1) in
      if number =? 0 then mret (regions ++ [part]) else collect_partitions parts number (regions ++ [part])
  end.

Definition stack_region (t : athread) : partition :=
  let base := userspace_stack_point t in
  mk_partition base (u32 (stack_info_size t + u32 (stack_info_start t - base))) MEM_PARTITION_P_RW_U_RW.

Definition guard_size (t : athread) : Z := if CONFIG_FP_SHARING && option_fp_option t then MPU_GUARD_ALIGN_AND_SIZE_FLOAT else MPU_GUARD_ALIGN_AND_SIZE.

(** The three parts of [dynamic_regions]: the page, the user stack, the guard. *)
Definition page_part (t : athread) : AS (list partition) :=
  if negb (pagetable_item t =? 0) then (g ← rd_page (pagetable_item t); collect_partitions (partitions g) (partitions_number g) []) else mret [].

Definition stack_part (t : athread) (regions : list partition) : AS (list partition) :=
  if negb (priv_stack_start t =? 0) then
    assert_ (Z.of_nat (length regions) <? MAX_DYNAMIC_MPU_REGIONS_NUM);;
    mret (regions ++ [stack_region t])
  else mret regions.

Definition guard_part (t : athread) (regions : list partition) : AS (list partition) :=
  if CONFIG_MPU_STACK_GUARD then
    guard_start ← ((if negb (priv_stack_start t =? 0) then
        let guard_start := u32 (priv_stack_start t - guard_size t) in
        assert_ (priv_stacks_ram_start <=? guard_start);; mret guard_start
      else
        let guard_start := u32 (stack_info_start t - guard_size t) in
        assert_ (userspace_stack_point t =? guard_start);; mret guard_start) : AS Z);
    assert_ (Z.of_nat (length regions) <? MAX_DYNAMIC_MPU_REGIONS_NUM);;
    mret (regions ++ [mk_partition guard_start (guard_size t) MEM_PARTITION_P_RO_U_NA])
  else mret regions.

Definition arm_configure_dynamic_mpu_regions (thread : Z) : AS unit :=
  t ← rd_athread thread;
  regions ← page_part t;
  regions ← stack_part t regions;
  regions ← guard_part t regions;
  on_mpu (arm_core_mpu_configure_dynamic_mpu_regions regions).

Definition arm_core_page_max_partitions_get : AS Z :=
  n ← on_mpu arm_core_mpu_get_max_available_dyn_regions;
  let n := n - 1 in
  mret (if CONFIG_MPU_STACK_GUARD then n - 1 else n).

Definition arm_core_page_partition_add (p i : Z) : AS unit := skip.

Definition arm_core_page_partition_remove (p i : Z) : AS unit :=
  cur ← gets as_current;
  c ← rd_athread cur;
  if negb (pagetable_item c =? p) then skip
  else
    part ← rd_slot p i;
    part ← on_mpu (arm_core_mpu_mem_partition_config_update part MEM_PARTITION_P_RW_U_NA);
    wr_slot p i part.

(** The loop works on a copy of each partition. *)
Fixpoint reset_partitions (parts : list partition) : AS unit :=
  match parts with
  | [] => skip
  | part :: parts =>
    (if p_size part =? 0 then skip else on_mpu (arm_core_mpu_mem_partition_config_update part MEM_PARTITION_P_RW_U_NA);; skip);;
    reset_partitions parts
  end.

Definition arm_core_page_destroy (p : Z) : AS unit :=
  cur ← gets as_current;
  c ← rd_athread cur;
  if negb (pagetable_item c =? p) then skip
  else g ← rd_page p; reset_partitions (partitions g).

Definition arm_core_page_table_add (thread : Z) : AS unit :=
  cur ← gets as_current; if negb (cur =? thread) then skip else arm_configure_dynamic_mpu_regions thread.

Definition arm_core_page_table_remove (thread : Z) : AS unit :=
  cur ← gets as_current; if negb (cur =? thread) then skip else t ← rd_athread thread; arm_core_page_destroy (pagetable_item t).

Definition arm_core_buffer_validate (addr size : Z) (write : bool) : AS Z := on_mpu (arm_core_mpu_buffer_validate addr size write).

(** ** Pages *)

(** No partition may be writable and executable, nor overlap with one in the other mode; the
    first [part_n] slots are compared.  Compiled with assertions only. *)
Fixpoint contrast_loop (target : partition) (is_executable is_writable : bool) (last : Z) (parts : list partition) : bool :=
  match parts with
  | [] => true
  | cur :: parts =>
    let cur_last := u32 (u32 (p_start cur + p_size cur) - 1) in
    if (last <? p_start cur) || (cur_last <? p_start target) then contrast_loop target is_executable is_writable last parts
    else if (PARTITION_IS_WRITABLE (p_attr cur) && is_executable) || (PARTITION_IS_EXECUTABLE (p_attr cur) && is_writable) then false
    else contrast_loop target is_executable is_writable last parts
  end.

Definition contrast_partition (target : partition) (parts : list partition) (part_n : Z) : bool :=
  let is_executable := PARTITION_IS_EXECUTABLE (p_attr target) in
  let is_writable := PARTITION_IS_WRITABLE (p_attr target) in
  if is_executable && is_writable then false
  else contrast_loop target is_executable is_writable (u32 (u32 (p_start target + p_size target) - 1)) (take (Z.to_nat part_n) parts).

Definition contrast_partition_domain (g : thread_page) (target : partition) : bool :=
  if CONFIG_EXECUTE_XOR_WRITE && CONFIG_ASSERT then contrast_partition target (partitions g) (partitions_number g) else true.

Definition assert_partition (part : partition) : AS unit := assert_ (p_start part <? u32 (p_start part + p_size part)).

Fixpoint fill_page (p i : Z) (part_array : list partition) : AS unit :=
  match part_array with
  | [] => skip
  | part :: part_array =>
    assert_partition part;;
    g ← rd_page p;
    assert_ (contrast_partition_domain g part);;
    wr_slot p i part;;
    wr_page p (fun g => with_partitions_number (u8 (partitions_number g + 1)) g);;
    fill_page p (i + 1) part_array
  end.

Definition reset_page (p : Z) (part_array : list partition) : AS unit :=
  assert_ (negb (p =? 0));;
  max ← gets max_partitions;
  assert_ (Z.of_nat (length part_array) <=? max);;
  wr_page p (fun g => mk_page (replicate (Z.to_nat CONFIG_MAX_DOMAIN_PARTITIONS) (mk_partition 0 0 0)) 0);;
  fill_page p 0 part_array;;
  on_list (sys_dlist_init (pagetable_list p)).

(** The first slot below [max_partitions] with the property, [max_partitions] if there is none. *)
Fixpoint scan_slots (n : nat) (p index : Z) (f : partition -> bool) : AS Z :=
  match n with
  | O => mret index
  | S n => part ← rd_slot p index; if f part then mret index else scan_slots n p (index + 1) f
  end.

Definition add_to_page (p : Z) (part : partition) : AS unit :=
  assert_ (negb (p =? 0));;
  assert_partition part;;
  g ← rd_page p;
  assert_ (contrast_partition_domain g part);;
  max ← gets max_partitions;
  index ← scan_slots (Z.to_nat max) p 0 (fun q => p_size q =? 0);
  assert_ (index <? max);;
  wr_slot p index part;;
  wr_page p (fun g => with_partitions_number (u8 (partitions_number g + 1)) g);;
  arm_core_page_partition_add p index.

Definition remove_from_page (p : Z) (part : partition) : AS unit :=
  assert_ (negb (p =? 0));;
  max ← gets max_partitions;
  index ← scan_slots (Z.to_nat max) p 0 (fun q => (p_start q =? p_start part) && (p_size q =? p_size part));
  assert_ (index <? max);;
  arm_core_page_partition_remove p index;;
  q ← rd_slot p index;
  wr_slot p index (mk_partition (p_start q) 0 (p_attr q));;
  wr_page p (fun g => with_partitions_number (u8 (partitions_number g - 1)) g).

Definition add_to_page_table (p thread : Z) : AS unit :=
  assert_ (negb (p =? 0));;
  assert_ (negb (thread =? 0));;
  on_list (sys_dlist_append (pagetable_list p) (pagetable_node thread));;
  wr_athread thread (with_pagetable_item p);;
  arm_core_page_table_add thread.

Definition remove_from_page_table (thread : Z) : AS unit :=
  assert_ (negb (thread =? 0));;
  t ← rd_athread thread;
  assert_ (negb (pagetable_item t =? 0));;
  arm_core_page_table_remove thread;;
  on_list (sys_dlist_remove (pagetable_node thread));;
  wr_athread thread (with_pagetable_item 0).

Fixpoint detach_loop (fuel : nat) (list node next : Z) : AS unit :=
  match fuel with
  | O => fail OutOfFuel
  | S fuel =>
    if node =? 0 then skip
    else
      let thread := node - pagetable_node_offset in
      on_list (sys_dlist_remove (pagetable_node thread));;
      wr_athread thread (with_pagetable_item 0);;
      next' ← on_list (sys_dlist_peek_next list next);
      detach_loop fuel list next next'
  end.

Definition remove_from_page_table_of (p : Z) : AS unit :=
  assert_ (negb (p =? 0));;
  arm_core_page_destroy p;;
  node ← on_list (sys_dlist_peek_head (pagetable_list p));
  next ← on_list (sys_dlist_peek_next (pagetable_list p) node);
  fuel ← gets (fun s => S (size (as_dl s)));
  detach_loop fuel (pagetable_list p) node next.

(** ** Mapping *)

Definition right_attr (right : Z) : AS Z :=
  if right =? 0 then mret MEM_PARTITION_P_RW_U_NA
  else if right =? 4 then mret MEM_PARTITION_P_RW_U_RO
  else if right =? 6 then mret MEM_PARTITION_P_RW_U_RW
  else if right =? 7 then mret MEM_PARTITION_P_RWX_U_RWX
  else assert_ false;; mret MEM_PARTITION_P_RW_U_NA.

Context `{FrameAlloc}.

(** The page of a thread, a new one if it has none. *)
Definition page_or_new (page : Z) : AS Z :=
  if page =? 0 then
    page ← d_object_alloc_frame;
    assert_ (negb (page =? 0));;
    reset_page page [];;
    mret page
  else mret page.

Definition do_guard_page (s_thread d_thread addr len right : Z) : AS unit :=
  attr ← right_attr right;
  let context := mk_partition addr len attr in
  s ← rd_athread s_thread;
  d ← rd_athread d_thread;
  (if negb (pagetable_item s =? 0) then remove_from_page (pagetable_item s) context else skip);;
  d_page ← page_or_new (pagetable_item d);
  add_to_page d_page context;;
  add_to_page_table d_page d_thread.

Definition do_map_page (thread addr len right : Z) : AS unit :=
  attr ← right_attr right;
  let context := mk_partition addr len attr in
  t ← rd_athread thread;
  page ← page_or_new (pagetable_item t);
  add_to_page page context;;
  add_to_page_table page thread.

Definition do_unmap_page (thread : Z) : AS unit :=
  t ← rd_athread thread;
  d_object_free_frame (pagetable_item t);;
  remove_from_page_table thread.

(** The attribute of the partition is left zero. *)
Definition do_map_string (thread len ptr : Z) : AS unit :=
  let context := mk_partition ptr len 0 in
  t ← rd_athread thread;
  page ← page_or_new (pagetable_item t);
  add_to_page page context;;
  add_to_page_table page thread.

Definition init_page_module : AS unit :=
  n ← arm_core_page_max_partitions_get;
  modify (with_max_partitions (u8 n));;
  max ← gets max_partitions;
  assert_ (max <=? CONFIG_MAX_DOMAIN_PARTITIONS).

End Pages.
