(* ===== verification/PageTheorems.v ===== *)
(** * Address spaces: theorems

    A page refines a bag of partitions: its counter is the number of slots in use, adding
    and removing a partition adds and removes it from the bag.  Together with [Mpu]: the
    regions programmed for a thread give unprivileged code exactly the access that its
    page and its stack grant, and removing a partition from the running thread's page takes
    the access away at once.  Threads enter and leave the list of a page. *)

From Stdlib Require Import ZArith Lia Bool List.
From stdpp Require Import base tactics numbers list gmap.
From S2P Require Import Prelude DList DNode Mpu MpuTheorems Pages.

Local Open Scope Z_scope.

(** ** Accesses *)

Lemma wp_on_mpu {A} (m : UM A) (Q : A -> aspace -> Prop) s : wp m (fun a v => Q a (with_as_mpu v s)) (as_mpu s) -> wp (on_mpu m) Q s.
Proof. unfold wp, on_mpu. by destruct (m (as_mpu s)). Qed.

Lemma wp_on_list {A} (m : DM A) (Q : A -> aspace -> Prop) s : wp m (fun a v => Q a (with_as_dl v s)) (as_dl s) -> wp (on_list m) Q s.
Proof. unfold wp, on_list. by destruct (m (as_dl s)). Qed.

Lemma wp_rd_page p g (Q : thread_page -> aspace -> Prop) s : as_pages s !! p = Some g -> Q g s -> wp (rd_page p) Q s.
Proof. intros E HQ. unfold rd_page. wp_steps. by eapply wp_ofopt. Qed.

Lemma wp_rd_athread t v (Q : athread -> aspace -> Prop) s : as_threads s !! t = Some v -> Q v s -> wp (rd_athread t) Q s.
Proof. intros E HQ. unfold rd_athread. wp_steps. by eapply wp_ofopt. Qed.

(** A state with another value of one page, or of one thread. *)
Definition set_page (p : Z) (g : thread_page) (s : aspace) : aspace := with_as_pages (<[p := g]> (as_pages s)) s.
Definition set_athread (t : Z) (v : athread) (s : aspace) : aspace := with_as_threads (<[t := v]> (as_threads s)) s.

Lemma wp_wr_page p f g (Q : unit -> aspace -> Prop) s : as_pages s !! p = Some g -> Q tt (set_page p (f g) s) -> wp (wr_page p f) Q s.
Proof. intros E HQ. unfold wr_page. apply wp_bind. eapply wp_rd_page; [done|]. by wp_steps. Qed.

Lemma wp_wr_athread t f v (Q : unit -> aspace -> Prop) s : as_threads s !! t = Some v -> Q tt (set_athread t (f v) s) -> wp (wr_athread t f) Q s.
Proof. intros E HQ. unfold wr_athread. apply wp_bind. eapply wp_rd_athread; [done|]. by wp_steps. Qed.

Lemma set_page_lookup p g s : as_pages (set_page p g s) !! p = Some g.
Proof. apply lookup_insert_eq. Qed.

Lemma set_page_twice p g g' s : set_page p g' (set_page p g s) = set_page p g' s.
Proof. unfold set_page, with_as_pages. cbn. by rewrite insert_insert_eq. Qed.

Section Theorems.
Context `{Config} `{PageConfig}.

Lemma wp_rd_slot p i g q (Q : partition -> aspace -> Prop) s :
  as_pages s !! p = Some g -> partitions g !! Z.to_nat i = Some q -> Q q s -> wp (rd_slot p i) Q s.
Proof. intros E Eq HQ. unfold rd_slot. apply wp_bind. eapply wp_rd_page; [done|]. by eapply wp_ofopt. Qed.

Lemma wp_wr_slot p i g q v (Q : unit -> aspace -> Prop) s :
  as_pages s !! p = Some g -> partitions g !! Z.to_nat i = Some q -> Q tt (set_page p (with_partitions (<[Z.to_nat i := v]> (partitions g)) g) s) -> wp (wr_slot p i v) Q s.
Proof. intros E Eq HQ. unfold wr_slot. apply wp_bind. eapply wp_rd_slot; [done|done|]. by eapply wp_wr_page. Qed.

(** ** Pages as bags of partitions *)

Record wf_page (max : Z) (g : thread_page) : Prop := {
  wp_slots : length (partitions g) = Z.to_nat CONFIG_MAX_DOMAIN_PARTITIONS;
  wp_count : partitions_number g = Z.of_nat (length (nonempty (partitions g)));
  wp_high : nonempty (drop (Z.to_nat max) (partitions g)) = [];
  wp_max : 0 <= max <= CONFIG_MAX_DOMAIN_PARTITIONS;
  wp_byte : CONFIG_MAX_DOMAIN_PARTITIONS <= 255;
}.

Lemma nonempty_app l1 l2 : nonempty (l1 ++ l2) = nonempty l1 ++ nonempty l2.
Proof. unfold nonempty. induction l1 as [|q l1 IH]; cbn; [done|]. destruct (present q); cbn; by rewrite IH. Qed.

Lemma nonempty_one q l : nonempty (q :: l) = (if present q then [q] else []) ++ nonempty l.
Proof. unfold nonempty. cbn. by destruct (present q). Qed.

Lemma length_nonempty l : (length (nonempty l) <= length l)%nat.
Proof. induction l as [|q l IH]; [done|]. rewrite nonempty_one, length_app. destruct (present q); cbn; lia. Qed.

(** A scan of the slots ends at the first one with the property. *)
Lemma wp_scan_slots p f g : forall n (index : Z) (Q : Z -> aspace -> Prop) s,
  as_pages s !! p = Some g -> 0 <= index -> (Z.to_nat index + n <= length (partitions g))%nat ->
  (forall k, (k < n)%nat -> (exists q, partitions g !! (Z.to_nat index + k)%nat = Some q /\ f q = true) ->
     (forall j q, (j < k)%nat -> partitions g !! (Z.to_nat index + j)%nat = Some q -> f q = false) -> Q (index + Z.of_nat k) s) ->
  ((forall j q, (j < n)%nat -> partitions g !! (Z.to_nat index + j)%nat = Some q -> f q = false) -> Q (index + Z.of_nat n) s) ->
  wp (scan_slots n p index f) Q s.
Proof.
  induction n as [|n IH]; intros index Q s Ep Hi Hl HQ1 HQ2; cbn [scan_slots].
  { apply wp_ret. rewrite Z.add_0_r in HQ2. apply HQ2. lia. }
  destruct (lookup_lt_is_Some_2 (partitions g) (Z.to_nat index)) as [q Eq]; [lia|]. apply wp_bind. eapply wp_rd_slot; [done|done|]. destruct (f q) eqn:Ef.
  - apply wp_ret. specialize (HQ1 0%nat ltac:(lia)). rewrite Z.add_0_r in HQ1. apply HQ1; [exists q; by rewrite Nat.add_0_r|lia].
  - assert (Hshift : forall j, (Z.to_nat (index + 1) + j = Z.to_nat index + S j)%nat) by lia. apply IH; [done|lia|lia| |].
    + intros k Hk (x & Ex & Hx) Hno. rewrite Hshift in Ex. replace (index + 1 + Z.of_nat k) with (index + Z.of_nat (S k)) by lia. apply HQ1; [lia|by exists x|].
      intros [|j] y Hj Ey; [rewrite Nat.add_0_r, Eq in Ey; congruence|]. apply (Hno j); [lia|by rewrite Hshift].
    + intros Hno. replace (index + 1 + Z.of_nat n) with (index + Z.of_nat (S n)) by lia. apply HQ2. intros [|j] y Hj Ey; [rewrite Nat.add_0_r, Eq in Ey; congruence|]. apply (Hno j); [lia|by rewrite Hshift].
Qed.

(** A page in which not all slots below the limit are used has an empty one there. *)
Lemma free_slot_exists max g : wf_page max g -> partitions_number g < max -> ~ (forall j q, (j < Z.to_nat max)%nat -> partitions g !! j = Some q -> (p_size q =? 0) = false).
Proof.
  intros [Hs Hc Hh Hm _] Hn Hall. rewrite <-(take_drop (Z.to_nat max) (partitions g)), nonempty_app, Hh, app_nil_r in Hc.
  assert (E : nonempty (take (Z.to_nat max) (partitions g)) = take (Z.to_nat max) (partitions g)).
  { apply forallb_filter_id. apply forallb_forall. intros q Hq%list_elem_of_In. apply list_elem_of_lookup in Hq as (j & Ej). apply lookup_take_Some in Ej as [Ej Hj]. unfold present. by rewrite (Hall j q). }
  rewrite E, length_take in Hc. lia.
Qed.

(** Writing a slot changes the bag in one place. *)
Lemma nonempty_insert (l : list partition) (i : nat) (q v : partition) : l !! i = Some q -> exists l1 l2, l = l1 ++ q :: l2 /\ length l1 = i /\ <[i := v]> l = l1 ++ v :: l2.
Proof.
  intros E. exists (take i l), (drop (S i) l). assert (Hl : length (take i l) = i) by (rewrite length_take; apply lookup_lt_Some in E; lia). split; [by rewrite take_drop_middle|]. split; [done|].
  pose proof (middle_insert (take i l) q v (drop (S i) l) (Z.of_nat i) ltac:(lia)) as Em. by rewrite Nat2Z.id, take_drop_middle in Em.
Qed.

Lemma wf_page_update max g i q v :
  wf_page max g -> partitions g !! i = Some q -> (i < Z.to_nat max)%nat ->
  let g' := mk_page (<[i := v]> (partitions g)) (partitions_number g + (if present v then 1 else 0) - (if present q then 1 else 0)) in
  wf_page max g' /\ exists l1 l2, nonempty (partitions g) = l1 ++ (if present q then [q] else []) ++ l2 /\ nonempty (partitions g') = l1 ++ (if present v then [v] else []) ++ l2.
Proof.
  intros [Hs Hc Hh Hm Hb] E Hi g'. destruct (nonempty_insert (partitions g) i q v E) as (l1 & l2 & El & Hl & Ei). assert (Hbag : nonempty (partitions g) = nonempty l1 ++ (if present q then [q] else []) ++ nonempty l2).
  { by rewrite El, nonempty_app, nonempty_one. }
  assert (Hbag' : nonempty (partitions g') = nonempty l1 ++ (if present v then [v] else []) ++ nonempty l2) by (subst g'; cbn; by rewrite Ei, nonempty_app, nonempty_one).
  split; [constructor|by exists (nonempty l1), (nonempty l2)]; cbn [partitions partitions_number].
  - subst g'. cbn. by rewrite length_insert.
  - subst g'. cbn [partitions partitions_number] in *. rewrite Hc, Hbag, Hbag', !length_app. destruct (present q), (present v); cbn [length]; lia.
  - subst g'. cbn. by rewrite drop_insert_lt by lia.
  - done.
  - done.
Qed.

(** What a page operation leaves alone. *)
Definition only_page (p : Z) (s s' : aspace) : Prop :=
  (forall x, x <> p -> as_pages s' !! x = as_pages s !! x) /\ as_threads s' = as_threads s /\ as_dl s' = as_dl s /\ as_current s' = as_current s /\ max_partitions s' = max_partitions s.

Lemma only_set_page p g s : only_page p s (set_page p g s).
Proof. split; [|done]. intros x Hx. by apply lookup_insert_ne. Qed.

(** The assertions of [add_to_page], when they are compiled in. *)
Definition admissible (p : Z) (g : thread_page) (part : partition) : Prop :=
  CONFIG_ASSERT = true -> p <> 0 /\ p_start part < u32 (p_start part + p_size part) /\ contrast_partition_domain g part = true.

Lemma wp_add_to_page p part g (Q : unit -> aspace -> Prop) s :
  as_pages s !! p = Some g -> wf_page (max_partitions s) g -> partitions_number g < max_partitions s -> p_size part <> 0 -> admissible p g part ->
  (forall g' l1 l2, wf_page (max_partitions s) g' -> nonempty (partitions g) = l1 ++ l2 -> nonempty (partitions g') = l1 ++ part :: l2 -> Q tt (set_page p g' s)) ->
  wp (add_to_page p part) Q s.
Proof.
  intros Ep Hw Hn Hsz Had HQ. pose proof Hw as [Hs Hc _ Hm Hb]. unfold add_to_page, assert_partition, arm_core_page_partition_add.
  apply wp_bind, wp_assert_if; [intros Ha; apply negb_true_iff, Z.eqb_neq; by apply Had|]. apply wp_bind, wp_assert_if; [intros Ha; apply Z.ltb_lt; by apply Had|].
  apply wp_bind. eapply wp_rd_page; [done|]. apply wp_bind, wp_assert_if; [intros Ha; by apply Had|]. apply wp_bind, wp_gets. apply wp_bind.
  eapply (wp_scan_slots p _ g); [done|lia|lia| |intros Hno; exfalso; by eapply free_slot_exists]. change (Z.to_nat 0) with 0%nat. cbn [Nat.add]. intros k Hk (q & Eq & Hq) _. zbool.
  apply wp_bind, wp_assert; [apply Z.ltb_lt; lia|]. rewrite Z.add_0_l. apply wp_bind. eapply wp_wr_slot; [done|by rewrite Nat2Z.id|]. rewrite Nat2Z.id. apply wp_bind. eapply wp_wr_page; [apply set_page_lookup|].
  rewrite set_page_twice. apply wp_skip. destruct (wf_page_update (max_partitions s) g k q part Hw Eq Hk) as (Hw' & l1 & l2 & E1 & E2). unfold present in *.
  rewrite Hq, (proj2 (Z.eqb_neq (p_size part) 0)) in * by done. cbn [negb Z.eqb app] in *. eapply HQ; [|exact E1|].
  - cbn [with_partitions with_partitions_number partitions partitions_number]. rewrite u8_small; [|pose proof (length_nonempty (partitions g)); lia].
    by replace (partitions_number g + 1 - 0) with (partitions_number g + 1) in Hw' by lia.
  - done.
Qed.

(** Lemma: a page refines a bag of partitions: its counter is the number of slots in use, and adding a
    partition while a slot is free ends, puts the partition into the bag once, and changes
    nothing else. *)
Theorem add_to_page_adds s p part g :
  as_pages s !! p = Some g -> wf_page (max_partitions s) g -> partitions_number g < max_partitions s -> p_size part <> 0 -> admissible p g part ->
  exists s' g', add_to_page p part s = Done tt s' /\ only_page p s s' /\ as_mpu s' = as_mpu s /\
    as_pages s' !! p = Some g' /\ wf_page (max_partitions s) g' /\ nonempty (partitions g') ≡ₚ part :: nonempty (partitions g).
Proof.
  intros Ep Hw Hn Hsz Had. assert (Hwp : wp (add_to_page p part) (fun _ s' => exists g', s' = set_page p g' s /\ wf_page (max_partitions s) g' /\ nonempty (partitions g') ≡ₚ part :: nonempty (partitions g)) s).
  { eapply wp_add_to_page; [done|done|done|done|done|]. intros g' l1 l2 Hw' E1 E2. exists g'. split; [done|]. split; [done|]. by rewrite E1, E2, Permutation_middle. }
  apply run_unit in Hwp as (s' & E & g' & -> & Hw' & Hp). exists (set_page p g' s), g'. split; [done|]. split; [apply only_set_page|]. split; [done|]. split; [apply set_page_lookup|done].
Qed.

(** Removing finds the first slot with the range of the partition. *)
Lemma wp_remove_from_page p part g (Q : unit -> aspace -> Prop) s cur c :
  as_pages s !! p = Some g -> wf_page (max_partitions s) g -> p_size part <> 0 -> (CONFIG_ASSERT = true -> p <> 0) -> as_current s = cur -> as_threads s !! cur = Some c ->
  (exists q, q ∈ nonempty (partitions g) /\ same_range part q = true) ->
  (forall q l1 l2, nonempty (partitions g) = l1 ++ q :: l2 -> same_range part q = true -> Forall (fun x => same_range part x = false) l1 ->
     wp (if negb (pagetable_item c =? p) then mret q else arm_core_mpu_mem_partition_config_update q MEM_PARTITION_P_RW_U_NA)
       (fun q' u => p_start q' = p_start q /\ p_size q' = p_size q /\
          (forall g', wf_page (max_partitions s) g' -> nonempty (partitions g') = l1 ++ l2 -> Q tt (set_page p g' (with_as_mpu u s)))) (as_mpu s)) ->
  wp (remove_from_page p part) Q s.
Proof.
  intros Ep Hw Hsz Hp0 Hcur Ec (q0 & Hq0 & Hr0) HQ. pose proof Hw as [Hs Hc Hh Hm Hb]. unfold remove_from_page. apply wp_bind, wp_assert_if; [intros Ha; apply negb_true_iff, Z.eqb_neq; by apply Hp0|].
  apply wp_bind, wp_gets. apply wp_bind. eapply (wp_scan_slots p _ g); [done|lia|lia| |].
  2: { intros Hno. exfalso. rewrite <-(take_drop (Z.to_nat (max_partitions s)) (partitions g)), nonempty_app, Hh, app_nil_r in Hq0.
       apply list_elem_of_In, filter_In in Hq0 as [Hq0 _]. apply list_elem_of_In, list_elem_of_lookup in Hq0 as (j & Ej). apply lookup_take_Some in Ej as [Ej Hj].
       specialize (Hno j q0 Hj). change (Z.to_nat 0 + j)%nat with j in Hno. specialize (Hno Ej). unfold same_range in Hr0. congruence. }
  change (Z.to_nat 0) with 0%nat. cbn [Nat.add]. intros k Hk (q & Eq & Hq) Hbefore. apply wp_bind, wp_assert; [apply Z.ltb_lt; lia|]. rewrite Z.add_0_l.
  destruct (nonempty_insert (partitions g) k q (mk_partition (p_start q) 0 (p_attr q)) Eq) as (l1 & l2 & El & Hl & _).
  assert (Hsame : same_range part q = true) by done. assert (Hpq : present q = true) by (unfold present; apply negb_true_iff, Z.eqb_neq; zbool; congruence).
  assert (Ebag : nonempty (partitions g) = nonempty l1 ++ q :: nonempty l2) by (rewrite El, nonempty_app, nonempty_one, Hpq; done).
  assert (Hfirst : Forall (fun x => same_range part x = false) (nonempty l1)).
  { apply Forall_forall. intros x Hx%list_elem_of_In. apply filter_In in Hx as [Hx _]. apply list_elem_of_In, list_elem_of_lookup in Hx as (j & Ej).
    apply (Hbefore j); [apply lookup_lt_Some in Ej; lia|]. rewrite El. by apply lookup_app_l_Some. }
  specialize (HQ q (nonempty l1) (nonempty l2) Ebag Hsame Hfirst).
  (* what follows the update of the protection unit *)
  assert (Hend : forall u g1 q', as_pages s !! p = Some g -> partitions g1 = <[k := q']> (partitions g) -> partitions_number g1 = partitions_number g -> p_start q' = p_start q -> p_size q' = p_size q ->
    (forall g', wf_page (max_partitions s) g' -> nonempty (partitions g') = nonempty l1 ++ nonempty l2 -> Q tt (set_page p g' (with_as_mpu u s))) ->
    wp (q2 ← rd_slot p (Z.of_nat k); wr_slot p (Z.of_nat k) (mk_partition (p_start q2) 0 (p_attr q2));; wr_page p (fun g => with_partitions_number (u8 (partitions_number g - 1)) g)) Q (set_page p g1 (with_as_mpu u s))).
  { intros u g1 q' _ E1 En E2 E3 HQ'. assert (Eq' : partitions g1 !! Z.to_nat (Z.of_nat k) = Some q') by (rewrite E1, Nat2Z.id; apply list_lookup_insert_eq; by apply lookup_lt_Some in Eq).
    apply wp_bind. eapply wp_rd_slot; [apply set_page_lookup|exact Eq'|]. apply wp_bind. eapply wp_wr_slot; [apply set_page_lookup|exact Eq'|]. eapply wp_wr_page; [apply set_page_lookup|]. rewrite !set_page_twice.
    rewrite Nat2Z.id. set (v := mk_partition (p_start q') 0 (p_attr q')). destruct (wf_page_update (max_partitions s) g k q v Hw Eq Hk) as (Hw' & m1 & m2 & F1 & F2).
    rewrite Hpq in *. replace (present v) with false in * by done. cbn [app] in *. cbn [with_partitions with_partitions_number partitions partitions_number]. rewrite E1, En, list_insert_insert_eq.
    rewrite u8_small; [|pose proof (length_nonempty (partitions g)); rewrite Hc, Ebag, length_app in *; cbn [length] in *; lia]. apply HQ'.
    - by replace (partitions_number g + 0 - 1) with (partitions_number g - 1) in Hw' by lia.
    - unfold with_partitions_number, with_partitions. cbn [partitions]. clear Hw' F1 F2. destruct (nonempty_insert (partitions g) k q v Eq) as (n1 & n2 & G1 & G2 & ->). rewrite nonempty_app, nonempty_one. replace (present v) with false by done.
      rewrite El in G1. apply app_inj_1 in G1 as [-> [= ->]]; [done|congruence]. }
  unfold arm_core_page_partition_remove. apply wp_bind. apply wp_bind, wp_gets. apply wp_bind. rewrite Hcur. eapply wp_rd_athread; [exact Ec|].
  destruct (pagetable_item c =? p); cbn [negb] in *.
  - apply wp_bind. eapply wp_rd_slot; [exact Ep|by rewrite Nat2Z.id|]. apply wp_bind, wp_on_mpu. eapply wp_mono; [exact HQ|]. cbn beta. intros q' u (E1 & E2 & HQ').
    eapply wp_wr_slot; [exact Ep|by rewrite Nat2Z.id|]. rewrite Nat2Z.id. apply (Hend u _ q'); done.
  - apply wp_skip. destruct HQ as (_ & _ & HQ'). specialize (Hend (as_mpu s) g q Ep). assert (Es : set_page p g (with_as_mpu (as_mpu s) s) = s).
    { unfold set_page, with_as_pages, with_as_mpu. cbn. rewrite insert_id by done. by destruct s. }
    rewrite Es in Hend. apply Hend; [by rewrite list_insert_id|done|done|done|done].
Qed.

(** Lemma: removing a partition from the page of the running thread ends, takes the first slot with its
    range out of the bag, and takes the access to its addresses away at once, as far as no
    region programmed behind it grants it; the access to all other addresses stays. *)
Theorem remove_from_page_revokes s p part g c fixed rest :
  as_pages s !! p = Some g -> wf_page (max_partitions s) g -> p_size part <> 0 -> p <> 0 -> as_threads s !! as_current s = Some c -> pagetable_item c = p ->
  programmed fixed (nonempty (partitions g) ++ rest) (as_mpu s) -> (exists q, q ∈ nonempty (partitions g) /\ same_range part q = true) ->
  exists s' g' q l1 l2, remove_from_page p part s = Done tt s' /\ only_page p s s' /\ as_pages s' !! p = Some g' /\ wf_page (max_partitions s) g' /\
    same_range part q = true /\ nonempty (partitions g) = l1 ++ q :: l2 /\ nonempty (partitions g') = l1 ++ l2 /\
    forall write a, user_access write a (as_mpu s') = if in_part a part then grants write a (l2 ++ rest) false else user_access write a (as_mpu s).
Proof.
  intros Ep Hw Hsz Hp0 Ec Ei HP Hex. assert (Hwp : wp (remove_from_page p part) (fun _ s' => exists g' u q l1 l2, s' = set_page p g' (with_as_mpu u s) /\ wf_page (max_partitions s) g' /\
    same_range part q = true /\ nonempty (partitions g) = l1 ++ q :: l2 /\ nonempty (partitions g') = l1 ++ l2 /\ programmed fixed (l1 ++ mk_partition (p_start q) (p_size q) MEM_PARTITION_P_RW_U_NA :: l2 ++ rest) u) s).
  { eapply wp_remove_from_page; [done|done|done|done|done|done|done|]. intros q l1 l2 E Hq Hno. rewrite Ei, Z.eqb_refl. cbn [negb]. rewrite E, <-app_assoc in HP. cbn [app] in HP.
    eapply wp_config_update; [exact HP| |done|done|].
    - eapply Forall_impl; [exact Hno|]. unfold same_range in *. intros x Hx. apply andb_true_iff in Hq as [E1%Z.eqb_eq E2%Z.eqb_eq]. cbn beta in Hx. by rewrite E1, E2.
    - intros u HP' _. split; [done|]. split; [done|]. intros g' Hw' E'. by exists g', u, q, l1, l2. }
  apply run_unit in Hwp as (s' & E & g' & u & q & l1 & l2 & -> & Hw' & Hq & E1 & E2 & HP'). exists (set_page p g' (with_as_mpu u s)), g', q, l1, l2. split; [done|]. split; [split; [intros x Hx; by apply lookup_insert_ne|done]|].
  split; [apply set_page_lookup|]. split; [done|]. split; [done|]. split; [done|]. split; [done|]. intros write a. cbn [as_mpu set_page with_as_mpu with_as_pages].
  rewrite (programmed_access _ _ _ _ _ HP'), (programmed_access _ _ _ _ _ HP), E1, <-app_assoc. cbn [app].
  rewrite !grants_app. cbn [grants p_attr]. rewrite !grants_app. unfold same_range in Hq. zbool. unfold in_part. cbn [p_start p_size]. rewrite H1, H2. destruct ((p_start part <=? a) && _); [|done].
  by replace (ap_allows write (field_ap MEM_PARTITION_P_RW_U_NA)) with false by (by destruct write).
Qed.

(** ** Switching to a thread *)

(** The regions of a thread: its page, its stack, the guard below its privileged stack. *)
Definition guard_region (t : athread) : partition :=
  mk_partition (if negb (priv_stack_start t =? 0) then u32 (priv_stack_start t - guard_size t) else u32 (stack_info_start t - guard_size t)) (guard_size t) MEM_PARTITION_P_RO_U_NA.

Definition thread_regions (t : athread) (parts : list partition) : list partition :=
  parts ++ (if negb (priv_stack_start t =? 0) then [stack_region t] else []) ++ (if CONFIG_MPU_STACK_GUARD then [guard_region t] else []).

(** The assertions about the place of the guard, when they are compiled in. *)
Definition guard_placed (t : athread) : Prop :=
  CONFIG_ASSERT = true -> CONFIG_MPU_STACK_GUARD = true ->
  if negb (priv_stack_start t =? 0) then priv_stacks_ram_start <= u32 (priv_stack_start t - guard_size t) else userspace_stack_point t = u32 (stack_info_start t - guard_size t).

Lemma nonempty_idem l : nonempty (nonempty l) = nonempty l.
Proof. induction l as [|q l IH]; [done|]. rewrite nonempty_one. destruct (present q) eqn:E; cbn [app]; [|done]. rewrite nonempty_one, E. cbn. by rewrite IH. Qed.

Lemma wp_collect parts : forall number regions (Q : list partition -> aspace -> Prop) s,
  number = Z.of_nat (length (nonempty parts)) -> Z.of_nat (length regions + length parts) < MAX_DYNAMIC_MPU_REGIONS_NUM -> number < 2 ^ 32 ->
  Q (regions ++ nonempty parts) s -> wp (collect_partitions parts number regions) Q s.
Proof.
  induction parts as [|q parts IH]; intros number regions Q s Hn Hl Hr HQ; cbn [collect_partitions]; [apply wp_ret; by rewrite app_nil_r in HQ|]. rewrite nonempty_one in *. unfold present in *.
  destruct (p_size q =? 0); cbn [negb app length] in *; [apply IH; [done|lia|done|done]|]. apply wp_bind, wp_assert; [apply Z.ltb_lt; lia|]. cbn zeta. rewrite u32_small by lia.
  destruct (Z.eqb_spec (number - 1) 0) as [E|E].
  - apply wp_ret. destruct (nonempty parts); [done|cbn in Hn; lia].
  - apply IH; [lia|rewrite length_app; cbn; lia|lia|]. by rewrite <-app_assoc.
Qed.

Lemma wp_guard_part t regions (Q : list partition -> aspace -> Prop) s :
  guard_placed t -> Z.of_nat (length regions) <= CONFIG_MAX_DOMAIN_PARTITIONS + 1 ->
  Q (regions ++ (if CONFIG_MPU_STACK_GUARD then [guard_region t] else [])) s -> wp (guard_part t regions) Q s.
Proof.
  intros Hg Hl HQ. unfold guard_part. unfold guard_placed, MAX_DYNAMIC_MPU_REGIONS_NUM, guard_region in *. destruct CONFIG_MPU_STACK_GUARD; [|rewrite app_nil_r in HQ; by apply wp_ret].
  apply wp_bind. destruct (negb (priv_stack_start t =? 0)); cbn zeta;
    (apply wp_bind, wp_assert_if; [intros Ha; specialize (Hg Ha eq_refl); (by apply Z.leb_le) || (by apply Z.eqb_eq)|]; apply wp_ret, wp_bind, wp_assert; [apply Z.ltb_lt; lia|]; by apply wp_ret).
Qed.

Lemma wp_configure_thread thread t parts (Q : unit -> aspace -> Prop) s :
  as_threads s !! thread = Some t ->
  (if negb (pagetable_item t =? 0) then exists g, as_pages s !! pagetable_item t = Some g /\ wf_page (max_partitions s) g /\ parts = nonempty (partitions g) else parts = []) ->
  0 <= CONFIG_MAX_DOMAIN_PARTITIONS -> guard_placed t ->
  (wp (mpu_configure_dynamic_mpu_regions (thread_regions t parts)) (fun _ u => Q tt (with_as_mpu u s)) (as_mpu s)) ->
  wp (arm_configure_dynamic_mpu_regions thread) Q s.
Proof.
  intros Et Hparts Hmax Hg HQ. unfold arm_configure_dynamic_mpu_regions. apply wp_bind. eapply wp_rd_athread; [done|].
  assert (Hlen : Z.of_nat (length parts) <= CONFIG_MAX_DOMAIN_PARTITIONS).
  { destruct (negb (pagetable_item t =? 0)); [|subst parts; done]. destruct Hparts as (g & _ & [Hs _ _ _ _] & ->). pose proof (length_nonempty (partitions g)). lia. }
  assert (Hroom : CONFIG_MAX_DOMAIN_PARTITIONS < MAX_DYNAMIC_MPU_REGIONS_NUM) by (unfold MAX_DYNAMIC_MPU_REGIONS_NUM; destruct CONFIG_MPU_STACK_GUARD; lia).
  set (mid := parts ++ (if negb (priv_stack_start t =? 0) then [stack_region t] else [])). apply (wp_seq _ _ (fun r s' => r = parts /\ s' = s)).
  { unfold page_part. destruct (negb (pagetable_item t =? 0)); [|subst parts; by apply wp_ret]. destruct Hparts as (g & Ep & Hw & ->). apply wp_bind. eapply wp_rd_page; [done|]. pose proof Hw as [Hs Hc _ Hm Hb].
    apply wp_collect; [done|cbn [length]; lia|pose proof (length_nonempty (partitions g)); lia|done]. }
  intros r s' [-> ->]. apply (wp_seq _ _ (fun r s' => r = mid /\ s' = s)).
  { subst mid. unfold stack_part. destruct (negb (priv_stack_start t =? 0)); [apply wp_bind, wp_assert; [apply Z.ltb_lt; lia|]; by apply wp_ret|rewrite app_nil_r; by apply wp_ret]. }
  intros r s' [-> ->]. apply wp_bind, wp_guard_part; [done|subst mid; rewrite length_app; destruct (negb (priv_stack_start t =? 0)); cbn [length]; lia|].
  subst mid. rewrite <-app_assoc. apply wp_on_mpu. unfold arm_core_mpu_configure_dynamic_mpu_regions. apply wp_bind. eapply wp_mono; [exact HQ|]. cbn beta. intros _ u HQ'. by apply wp_skip.
Qed.

(** C3: isolation.  When the protection unit is programmed for a thread, whatever it held before,
    unprivileged code gets exactly the access that the thread's page, its stack and its
    guard grant, the last of them deciding, and that of the fixed regions elsewhere; no
    partition of another page remains.  The thread has a page, each of its regions has a size
    that is a power of two, is aligned to it and has a region of the unit to itself, and the
    guard is placed ([odd_partition_widened] and [full_page_loses_stack] otherwise). *)
Theorem page_switch_isolates s thread t g n :
  let fixed := take (Z.to_nat n) (mpu_regs (as_mpu s)) in let regions := thread_regions t (nonempty (partitions g)) in
  as_threads s !! thread = Some t -> pagetable_item t <> 0 -> as_pages s !! pagetable_item t = Some g -> wf_page (max_partitions s) g -> guard_placed t ->
  n = static_regions_num (as_mpu s) -> 0 <= n -> length (mpu_regs (as_mpu s)) = 8%nat -> Forall good regions -> n + Z.of_nat (length regions) <= 8 ->
  exists u, arm_configure_dynamic_mpu_regions thread s = Done tt (with_as_mpu u s) /\ programmed fixed regions u /\
    forall write a, user_access write a u = grants write a regions (decide_access write a fixed false).
Proof.
  intros fixed regions Et Hi Ep Hw Hg En Hn H8 Hgood Hfit. assert (Hl : length fixed = Z.to_nat n) by (subst fixed; rewrite length_take; lia).
  assert (Hwp : wp (arm_configure_dynamic_mpu_regions thread) (fun _ s' => exists u, s' = with_as_mpu u s /\ programmed fixed regions u) s).
  { eapply (wp_configure_thread thread t (nonempty (partitions g))); [done| |destruct Hw; lia|done|].
    - rewrite (proj2 (Z.eqb_neq _ _)) by done. cbn [negb]. by exists g.
    - assert (Hne : nonempty regions = regions).
      { apply forallb_filter_id, forallb_forall. intros q Hq%list_elem_of_In. rewrite Forall_forall in Hgood. destruct (good_size q (Hgood q Hq)) as (k & Hk & Es & _). unfold present. apply negb_true_iff, Z.eqb_neq.
        rewrite Es. apply Z.pow_nonzero; lia. }
      eapply (wp_mpu_configure_dynamic regions fixed); [by rewrite Hl|rewrite Hl; lia|done|by rewrite Hne|]. rewrite Hne, Hl, take_ge by lia. intros u HP _. by exists u. }
  apply run_unit in Hwp as (s' & E & u & -> & HP). exists u. split; [done|]. split; [done|]. intros write a. by apply programmed_access.
Qed.

(** ** Leaving a page *)

Definition range (q : partition) : Z * Z := (p_start q, p_size q).
Definition no_access (q : partition) : partition := mk_partition (p_start q) (p_size q) MEM_PARTITION_P_RW_U_NA.

Lemma same_range_spec p q : same_range p q = true <-> range q = range p.
Proof. unfold same_range, range. rewrite andb_true_iff, !Z.eqb_eq. split; [intros [-> ->]; done|by intros [= -> ->]]. Qed.

(** The loop of [arm_core_page_destroy] takes the access of every partition away. *)
Lemma wp_reset_partitions fixed rest todo : forall done_ (Q : unit -> aspace -> Prop) s,
  programmed fixed (done_ ++ nonempty todo ++ rest) (as_mpu s) -> NoDup (range <$> (done_ ++ nonempty todo)) ->
  (forall u, programmed fixed (done_ ++ map no_access (nonempty todo) ++ rest) u -> Q tt (with_as_mpu u s)) -> wp (reset_partitions todo) Q s.
Proof.
  induction todo as [|q todo IH]; intros done_ Q s HP Hnd HQ; cbn [reset_partitions].
  { apply wp_skip. specialize (HQ (as_mpu s) HP). by destruct s. }
  rewrite nonempty_one in *. unfold present in *. destruct (p_size q =? 0); cbn [negb app map] in *; apply wp_bind; [by apply wp_skip, (IH done_)|]. apply wp_bind, wp_on_mpu.
  eapply (wp_config_update fixed done_ q (nonempty todo ++ rest)); [exact HP| |done|done|].
  - apply Forall_forall. intros x Hx. apply not_true_iff_false. rewrite same_range_spec. intros E. rewrite fmap_app in Hnd. apply NoDup_app in Hnd as (_ & Hd & _).
    apply (Hd (range x)); [by apply list_elem_of_fmap_2|]. rewrite E. apply list_elem_of_fmap_2. by left.
  - intros u HP' _. apply wp_skip. apply (IH (done_ ++ [no_access q])).
    + by rewrite <-app_assoc.
    + rewrite <-app_assoc. cbn [app]. by rewrite !fmap_app, !fmap_cons in Hnd |- *.
    + intros u' HP''. rewrite <-app_assoc in HP''. cbn [with_as_mpu]. by apply HQ.
Qed.

Lemma grants_no_access write a ps b : grants write a (map no_access ps) b = if existsb (in_part a) ps then false else b.
Proof.
  revert b. induction ps as [|q ps IH]; intros b; [done|]. cbn [map grants existsb]. rewrite IH. cbn [p_attr no_access]. change (in_part a (no_access q)) with (in_part a q).
  replace (ap_allows write (field_ap MEM_PARTITION_P_RW_U_NA)) with false by (by destruct write). by destruct (in_part a q), (existsb (in_part a) ps).
Qed.

(** C10: a running thread that leaves its page loses every access that the partitions of the page gave
    it, at once; what its stack and guard grant stays.  The thread is taken out of the list
    of the page and has no page any more.  The thread is linked once in the list, and the
    partitions are distinct and programmed as regions of their own size. *)
Theorem leave_page_revokes s thread t p g fixed rest l1 l2 :
  as_current s = thread -> as_threads s !! thread = Some t -> pagetable_item t = p -> p <> 0 -> thread <> 0 -> as_pages s !! p = Some g ->
  programmed fixed (nonempty (partitions g) ++ rest) (as_mpu s) -> NoDup (range <$> nonempty (partitions g)) -> Ring (as_dl s) (pagetable_list p) (l1 ++ pagetable_node thread :: l2) ->
  exists s', remove_from_page_table thread s = Done tt s' /\ as_threads s' = <[thread := with_pagetable_item 0 t]> (as_threads s) /\ as_pages s' = as_pages s /\
    Ring (as_dl s') (pagetable_list p) (l1 ++ l2) /\
    forall write a, user_access write a (as_mpu s') = grants write a rest (if existsb (in_part a) (nonempty (partitions g)) then false else decide_access write a fixed false).
Proof.
  intros Hcur Et Ei Hp0 Ht0 Ep HP Hnd HR. assert (Hwp : wp (remove_from_page_table thread) (fun _ s' => as_threads s' = <[thread := with_pagetable_item 0 t]> (as_threads s) /\ as_pages s' = as_pages s /\
    Ring (as_dl s') (pagetable_list p) (l1 ++ l2) /\ programmed fixed (map no_access (nonempty (partitions g)) ++ rest) (as_mpu s')) s).
  { unfold remove_from_page_table. apply wp_bind, wp_assert; [by apply negb_true_iff, Z.eqb_neq|]. apply wp_bind. eapply wp_rd_athread; [done|]. apply wp_bind, wp_assert; [rewrite Ei; by apply negb_true_iff, Z.eqb_neq|].
    unfold arm_core_page_table_remove, arm_core_page_destroy. apply wp_bind, wp_bind, wp_gets. rewrite Hcur, Z.eqb_refl. cbn [negb]. apply wp_bind. eapply wp_rd_athread; [done|]. apply wp_bind, wp_gets.
    rewrite Hcur. apply wp_bind. eapply wp_rd_athread; [done|]. rewrite Z.eqb_refl, Ei. cbn [negb]. apply wp_bind. eapply wp_rd_page; [done|].
    eapply (wp_reset_partitions fixed rest (partitions g) []); [exact HP|done|]. intros u HP'. apply wp_bind, wp_on_list. cbn [as_dl with_as_mpu]. eapply wp_dlist_remove; [exact HR|].
    intros dl HR' _ _ _. eapply wp_wr_athread; [done|]. done. }
  apply run_unit in Hwp as (s' & E & E1 & E2 & HR' & HP'). exists s'. split; [done|]. split; [done|]. split; [done|]. split; [done|]. intros write a.
  rewrite (programmed_access _ _ _ _ _ HP'), grants_app. by rewrite grants_no_access.
Qed.

(** ** Destroying a page *)



(** ** A thread mapped twice *)

(** Lemma: every further mapping of a thread appends its list node again although it is linked.  A thread
    alone in its page that is mapped a second time and then unmapped stays in the list of the
    page: the head still points at its node, whose links are cleared. *)
Theorem remap_leaves_dangling s p thread t c :
  p <> 0 -> thread <> 0 -> as_current s <> thread -> as_threads s !! as_current s = Some c -> as_threads s !! thread = Some t -> Ring (as_dl s) (pagetable_list p) [pagetable_node thread] ->
  exists s1 s2, add_to_page_table p thread s = Done tt s1 /\ remove_from_page_table thread s1 = Done tt s2 /\
    as_threads s2 !! thread = Some (with_pagetable_item 0 t) /\ nx (as_dl s2) (pagetable_list p) = pagetable_node thread /\ nx (as_dl s2) (pagetable_node thread) = 0.
Proof.
  intros Hp Ht Hcur Ec Et HR. set (lst := pagetable_list p) in *. set (n := pagetable_node thread) in *. pose proof (ring_nodup _ _ _ HR) as Hnd. assert (Hne : n <> lst) by (apply NoDup_cons in Hnd as [Hx _]; set_solver).
  pose proof (ring_head _ _ _ HR) as Hh. pose proof (ring_tail _ _ _ HR) as Htl. cbn in Hh, Htl. assert (Hml : is_Some (as_dl s !! lst)) by (apply (ring_mem _ _ _ HR); by left).
  assert (Hmn : is_Some (as_dl s !! n)) by (apply (ring_mem _ _ _ HR); right; by left).
  assert (Hw : wp (add_to_page_table p thread) (fun _ s1 => as_threads s1 = <[thread := with_pagetable_item p t]> (as_threads s) /\ as_current s1 = as_current s /\
    is_Some (as_dl s1 !! lst) /\ is_Some (as_dl s1 !! n) /\ nx (as_dl s1) lst = n /\ nx (as_dl s1) n = n /\ pv (as_dl s1) n = n) s).
  { unfold add_to_page_table, arm_core_page_table_add. apply wp_bind, wp_assert; [by apply negb_true_iff, Z.eqb_neq|]. apply wp_bind, wp_assert; [by apply negb_true_iff, Z.eqb_neq|]. fold lst n.
    apply wp_bind, wp_on_list. unfold sys_dlist_append. apply wp_bind, wp_set_next; [done|]. apply wp_bind, wp_get_prev; [by dmem_ok|]. apply wp_bind, wp_set_prev; [by dmem_ok|]. apply wp_bind, wp_get_prev; [by dmem_ok|].
    rewrite !pv_upd_prev, !pv_upd_next, Htl, decide_False by (done || by dmem_ok). rewrite ?pv_upd_next, ?Htl. apply wp_bind, wp_set_next; [by dmem_ok|]. apply wp_set_prev; [by dmem_ok|].
    apply wp_bind. eapply wp_wr_athread; [done|]. apply wp_bind, wp_gets. cbn [as_current set_athread with_as_threads with_as_dl]. rewrite (proj2 (Z.eqb_neq _ _)) by done. cbn [negb]. apply wp_skip.
    cbn [as_threads as_current as_dl set_athread with_as_threads with_as_dl]. split; [done|]. split; [done|]. split; [by dmem_ok|]. split; [by dmem_ok|]. links. rewrite ?Hh. repeat (case_decide; try congruence); done. }
  apply run_unit in Hw as (s1 & E1 & T1 & C1 & Ml & Mn & N1 & N2 & N3). exists s1. assert (Hw2 : wp (remove_from_page_table thread) (fun _ s2 => as_threads s2 !! thread = Some (with_pagetable_item 0 t) /\
    nx (as_dl s2) lst = n /\ nx (as_dl s2) n = 0) s1).
  { unfold remove_from_page_table, arm_core_page_table_remove. apply wp_bind, wp_assert; [by apply negb_true_iff, Z.eqb_neq|]. apply wp_bind. eapply wp_rd_athread; [rewrite T1; apply lookup_insert_eq|].
    apply wp_bind, wp_assert; [by apply negb_true_iff, Z.eqb_neq|]. apply wp_bind, wp_bind, wp_gets. rewrite C1, (proj2 (Z.eqb_neq _ _)) by done. cbn [negb]. apply wp_skip. fold n.
    apply wp_bind, wp_on_list. unfold sys_dlist_remove, sys_dnode_init. apply wp_bind, wp_get_prev; [done|]. apply wp_bind, wp_get_next; [done|]. rewrite N2, N3. apply wp_bind, wp_set_next; [done|].
    apply wp_bind, wp_get_next; [by dmem_ok|]. apply wp_bind, wp_get_prev; [by dmem_ok|]. rewrite nx_upd_next, pv_upd_next, decide_True, N3 by done. apply wp_bind, wp_set_prev; [by dmem_ok|].
    apply wp_bind, wp_set_next; [by dmem_ok|]. apply wp_set_prev; [by dmem_ok|]. eapply wp_wr_athread; [cbn; rewrite T1; apply lookup_insert_eq|]. cbn [as_threads as_dl set_athread with_as_threads with_as_dl].
    split; [apply lookup_insert_eq|]. links. repeat (case_decide; try congruence); done. }
  apply run_unit in Hw2 as (s2 & E2 & T2 & N4 & N5). by exists s2.
Qed.

End Theorems.

(** ** Concrete states *)

Definition board_pages : PageConfig := {|
  CONFIG_MAX_DOMAIN_PARTITIONS := 16;
  CONFIG_MPU_STACK_GUARD := false;
  CONFIG_FP_SHARING := false;
  CONFIG_EXECUTE_XOR_WRITE := true;
  pagetable_node_offset := 200;
  priv_stacks_ram_start := 537001984;
|}.

Definition empty_slot : partition := mk_partition 0 0 0.
Definition page_of (parts : list partition) : thread_page := mk_page (parts ++ replicate (16 - length parts) empty_slot) (Z.of_nat (length parts)).

(** A thread at 8192 with a user stack of 1 KB, in the page at 4096; another one at 12288 without
    a page. *)
Definition user_thread : athread := mk_athread 4096 537002496 536907776 536907776 1024 false.
Definition other_thread : athread := mk_athread 0 537003008 536908800 536908800 1024 false.
Definition demo_space (current : Z) (parts : list partition) : aspace := {|
  as_pages := {[4096 := page_of parts]};
  as_threads := {[8192 := user_thread; 12288 := other_thread]};
  as_dl := {[4288 := mk_dnode 8392 8392; 8392 := mk_dnode 4288 4288; 12488 := mk_dnode 0 0]};
  as_mpu := match mpu_configure_dynamic_mpu_regions (parts ++ [user_stack]) board_mpu with Done _ m => m | Fail _ => board_mpu end;
  as_current := current;
  max_partitions := 5;
|}.

Lemma demo_wf parts : (length parts <= 5)%nat -> nonempty parts = parts -> @wf_page board_pages 5 (page_of parts).
Proof.
  intros Hl Hn. assert (Hr : forall n, nonempty (replicate n empty_slot) = []) by (intros n; induction n; done). constructor; cbn [partitions partitions_number page_of CONFIG_MAX_DOMAIN_PARTITIONS board_pages].
  - rewrite length_app, length_replicate. lia.
  - by rewrite nonempty_app, Hr, app_nil_r, Hn.
  - rewrite drop_app_ge by lia. by rewrite drop_replicate, Hr.
  - lia.
  - lia.
Qed.

Lemma page_demo_ring current parts : Ring (as_dl (demo_space current parts)) 4288 [8392].
Proof.
  constructor; [by apply (bool_decide_unpack _); vm_compute|by apply (bool_decide_unpack _); vm_compute| |done|done|done].
  intros x [->|[->|[]%not_elem_of_nil]%elem_of_cons]%elem_of_cons; by eexists.
Qed.

Lemma demo_programmed current : programmed (take 2 (mpu_regs board_mpu)) ([user_page] ++ [user_stack]) (as_mpu (demo_space current [user_page])).
Proof.
  constructor; [|done|done|repeat constructor; by apply good_of_check].
  exists (drop 4 (mpu_regs (as_mpu (demo_space 0 [user_page])))). split; [by vm_compute|]. apply (Forall_of_check _ (fun r => negb (enabled r))); [intros x; by rewrite negb_true_iff|by vm_compute].
Qed.

Definition second_page : partition := mk_partition 536911872 2048 MEM_PARTITION_P_RW_U_RO.

Lemma add_to_page_adds_witness :
  exists s' g', @add_to_page test_config board_pages 4096 second_page (demo_space 8192 [user_page]) = Done tt s' /\ only_page 4096 (demo_space 8192 [user_page]) s' /\ as_mpu s' = as_mpu (demo_space 8192 [user_page]) /\
    as_pages s' !! 4096 = Some g' /\ @wf_page board_pages 5 g' /\ nonempty (partitions g') ≡ₚ [second_page; user_page].
Proof.
  apply (@add_to_page_adds test_config board_pages (demo_space 8192 [user_page]) 4096 second_page (page_of [user_page])); [done|apply demo_wf; [cbn; lia|done]|done|done|]. intros _. split; [done|]. split; [by vm_compute|by vm_compute].
Defined.

Lemma remove_from_page_revokes_witness :
  exists s' g' q l1 l2, @remove_from_page test_config 4096 user_page (demo_space 8192 [user_page]) = Done tt s' /\ only_page 4096 (demo_space 8192 [user_page]) s' /\ as_pages s' !! 4096 = Some g' /\
    @wf_page board_pages 5 g' /\ same_range user_page q = true /\ [user_page] = l1 ++ q :: l2 /\ nonempty (partitions g') = l1 ++ l2 /\
    forall write a, user_access write a (as_mpu s') = if in_part a user_page then grants write a (l2 ++ [user_stack]) false else user_access write a (as_mpu (demo_space 8192 [user_page])).
Proof.
  apply (@remove_from_page_revokes test_config board_pages (demo_space 8192 [user_page]) 4096 user_page (page_of [user_page]) user_thread (take 2 (mpu_regs board_mpu)) [user_stack]);
    [done|apply demo_wf; [cbn; lia|done]|done|done|done|done|apply demo_programmed|].
  exists user_page. split; [by left|done].
Defined.

Lemma page_switch_isolates_witness :
  exists u, @arm_configure_dynamic_mpu_regions test_config board_pages 8192 (demo_space 12288 [user_page]) = Done tt (with_as_mpu u (demo_space 12288 [user_page])) /\
    programmed (take 2 (mpu_regs (as_mpu (demo_space 12288 [user_page])))) [user_page; user_stack] u /\
    forall write a, user_access write a u = grants write a [user_page; user_stack] (decide_access write a (take 2 (mpu_regs (as_mpu (demo_space 12288 [user_page])))) false).
Proof.
  apply (@page_switch_isolates test_config board_pages (demo_space 12288 [user_page]) 8192 user_thread (page_of [user_page]) 2); [done|done|done|apply demo_wf; [cbn; lia|done]|discriminate|done|lia|done| |by vm_compute].
  apply (Forall_of_check good (fun p => mpu_partition_is_valid p && (p_size p <=? 2 ^ 31) && (0 <=? p_start p) && (p_start p <? 2 ^ 32) && (0 <=? p_attr p) && (p_attr p <? 2 ^ 32) && (p_attr p mod 64 =? 0))); [apply good_of_check|by vm_compute].
Defined.

Lemma leave_page_revokes_witness :
  exists s', @remove_from_page_table test_config board_pages 8192 (demo_space 8192 [user_page]) = Done tt s' /\
    as_threads s' = <[8192 := with_pagetable_item 0 user_thread]> (as_threads (demo_space 8192 [user_page])) /\ as_pages s' = as_pages (demo_space 8192 [user_page]) /\ Ring (as_dl s') 4288 [] /\
    forall write a, user_access write a (as_mpu s') = grants write a [user_stack] (if existsb (in_part a) [user_page] then false else decide_access write a (take 2 (mpu_regs board_mpu)) false).
Proof.
  apply (@leave_page_revokes test_config board_pages (demo_space 8192 [user_page]) 8192 user_thread 4096 (page_of [user_page]) (take 2 (mpu_regs board_mpu)) [user_stack] [] []);
    [done|done|done|done|done|done|apply demo_programmed|apply NoDup_singleton|apply (page_demo_ring 8192)].
Defined.


Lemma remap_leaves_dangling_witness :
  exists s1 s2, @add_to_page_table test_config board_pages 4096 8192 (demo_space 12288 [user_page]) = Done tt s1 /\ @remove_from_page_table test_config board_pages 8192 s1 = Done tt s2 /\
    as_threads s2 !! 8192 = Some (with_pagetable_item 0 user_thread) /\ nx (as_dl s2) 4288 = 8392 /\ nx (as_dl s2) 8392 = 0.
Proof.
  apply (@remap_leaves_dangling test_config board_pages (demo_space 12288 [user_page]) 4096 8192 user_thread other_thread); [done|done|done|done|done|apply (page_demo_ring 12288)].
Defined.

Definition after {A} (m : AS A) (s : aspace) : aspace := match m s with Done _ s' => s' | Fail _ => s end.
Definition completes {A} (m : AS A) (s : aspace) : bool := match m s with Done _ _ => true | Fail _ => false end.

Lemma completes_run (m : AS unit) s : completes m s = true -> m s = Done tt (after m s).
Proof. unfold completes, after. by destruct (m s) as [[] s'|]. Qed.

(** Lemma: without assertions a sixth partition goes into a page that holds the five the protection unit
    has room for; when the thread is then programmed, its user stack finds no region and
    the thread can no longer access its own stack. *)
Theorem full_page_loses_stack :
  let part i := mk_partition (536911872 + 1024 * i) 1024 MEM_PARTITION_P_RW_U_RW in
  let s := demo_space 8192 [part 0; part 1; part 2; part 3; part 4] in
  exists s1 s2, user_access true 536907776 (as_mpu s) = true /\ @add_to_page stm32_config board_pages 4096 (part 5) s = Done tt s1 /\
    @arm_configure_dynamic_mpu_regions stm32_config board_pages 8192 s1 = Done tt s2 /\ user_access true 536907776 (as_mpu s2) = false.
Proof.
  intros part s. pose (s1 := after (@add_to_page stm32_config board_pages 4096 (part 5)) s). pose (s2 := after (@arm_configure_dynamic_mpu_regions stm32_config board_pages 8192) s1). exists s1, s2.
  split; [by vm_compute|]. split; [apply completes_run; by vm_compute|]. split; [apply completes_run; by vm_compute|by vm_compute].
Qed.

(** Lemma: the partitions of a page are programmed without the check of their size and alignment.
    One of 3000 bytes becomes a region of 4096: the thread can write the byte behind the
    partition.  When the thread leaves its page, the region is looked up by the size of the
    partition and, without assertions, its access is left in place. *)
Theorem odd_partition_widened :
  let part := mk_partition 536911872 3000 MEM_PARTITION_P_RW_U_RW in
  let s := demo_space 8192 [part] in
  exists s1 s2, @arm_configure_dynamic_mpu_regions stm32_config board_pages 8192 s = Done tt s1 /\
    in_part (536911872 + 3000) part = false /\ user_access true (536911872 + 3000) (as_mpu s1) = true /\
    @remove_from_page_table stm32_config board_pages 8192 s1 = Done tt s2 /\ user_access true 536911872 (as_mpu s2) = true.
Proof.
  intros part s. pose (s1 := after (@arm_configure_dynamic_mpu_regions stm32_config board_pages 8192) s). pose (s2 := after (@remove_from_page_table stm32_config board_pages 8192) s1). exists s1, s2.
  split; [apply completes_run; by vm_compute|]. split; [by vm_compute|]. split; [by vm_compute|]. split; [apply completes_run; by vm_compute|by vm_compute].
Qed.

(** Lemma: [do_map_string] maps its string with attribute 0, which is that without any access: the
    thread it maps the string for cannot access a byte of it. *)
Theorem map_string_no_access :
  let alloc := {| d_object_alloc_frame := mret 0; d_object_free_frame := fun _ => skip |} in
  exists s', @do_map_string stm32_config board_pages alloc 8192 1024 536911872 (demo_space 8192 [user_page]) = Done tt s' /\
    nonempty (match as_pages s' !! 4096 with Some g => partitions g | None => [] end) = [user_page; mk_partition 536911872 1024 0] /\
    forall write, user_access write 536911872 (as_mpu s') = false.
Proof.
  intros alloc. exists (after (@do_map_string stm32_config board_pages alloc 8192 1024 536911872) (demo_space 8192 [user_page])).
  split; [apply completes_run; by vm_compute|]. split; [by vm_compute|]. intros []; by vm_compute.
Qed.
