(* ===== verification/MemPool.v ===== *)
(** * The memory pool behind the kernel heap

    Models [src/lib/sys/mempool.c] and [inc/sys/mempool.h]: a buffer of [n_max] blocks of
    [max_sz] bytes; a block of one level is broken into four of the next.  Each level has a
    bit per block, kept in the level's own word or in an array behind the buffer, and a
    list of free blocks whose links live in the blocks themselves.  [pool_irq_lock] and
    [pool_irq_unlock] only mask interrupts and leave no trace in the sequential model. *)

From Stdlib Require Import ZArith Lia Bool List.
From stdpp Require Import base tactics numbers list gmap.
From S2P Require Import Prelude DList DNode.

Local Open Scope Z_scope.

(** ** Data *)

(** [bits_p] and [bits] share one word; [free_list] is the address of the list's anchor. *)
Record sys_mem_pool_lvl := mk_lvl { lvl_word : Z; lvl_free_list : Z }.

Record mempool := mk_mempool {
  mp_buf : Z;
  mp_max_sz : Z;
  mp_n_max : Z;
  mp_n_levels : Z;
  mp_max_inline_level : Z;
  mp_levels : list sys_mem_pool_lvl;
  mp_words : gmap Z Z;
  mp_dl : gmap Z dnode;
}.

Definition with_mp_max_inline_level v p := mk_mempool (mp_buf p) (mp_max_sz p) (mp_n_max p) (mp_n_levels p) v (mp_levels p) (mp_words p) (mp_dl p).
Definition with_mp_levels v p := mk_mempool (mp_buf p) (mp_max_sz p) (mp_n_max p) (mp_n_levels p) (mp_max_inline_level p) v (mp_words p) (mp_dl p).
Definition with_mp_words v p := mk_mempool (mp_buf p) (mp_max_sz p) (mp_n_max p) (mp_n_levels p) (mp_max_inline_level p) (mp_levels p) v (mp_dl p).
Definition with_mp_dl v p := mk_mempool (mp_buf p) (mp_max_sz p) (mp_n_max p) (mp_n_levels p) (mp_max_inline_level p) (mp_levels p) (mp_words p) v.

Definition ENOMEM : Z := 12.
Definition WB_DN (x : Z) : Z := Z.land x (not32 3).
Definition WB_UP (x : Z) : Z := Z.land (u32 (x + 3)) (not32 3).

Notation MP := (ST mempool).

Definition mp_on_list {A} (m : DM A) : MP A := fun p =>
  match m (mp_dl p) with Done a d => Done a (with_mp_dl d p) | Fail e => Fail e end.
Definition level_at (l : Z) : MP sys_mem_pool_lvl :=
  p ← (get : MP mempool); if l <? 0 then fail Fault else ofopt (mp_levels p !! Z.to_nat l).
Definition set_level_word (l v : Z) : MP unit :=
  lv ← level_at l; modify (fun p => with_mp_levels (<[Z.to_nat l := mk_lvl v (lvl_free_list lv)]> (mp_levels p)) p).

(** ** Blocks and bits *)

Definition block_ptr (lsz block : Z) : MP Z := p ← (get : MP mempool); mret (u32 (mp_buf p + lsz * block)).
Definition block_num (block sz : Z) : MP Z :=
  p ← (get : MP mempool); if sz =? 0 then fail Fault else mret (Z.quot (block - mp_buf p) sz).

(** Where a word of bits is: the level's own word, or an address. *)
Inductive bit_word := Inline (level : Z) | At (addr : Z).
#[global] Instance bit_word_eq_dec : EqDecision bit_word.
Proof. solve_decision. Defined.

Definition rd_word (w : bit_word) : MP Z :=
  match w with
  | Inline l => lv ← level_at l; mret (lvl_word lv)
  | At a => p ← (get : MP mempool); ofopt (mp_words p !! a)
  end.
Definition wr_word (w : bit_word) (v : Z) : MP unit :=
  match w with
  | Inline l => set_level_word l v
  | At a => rd_word (At a);; modify (fun p => with_mp_words (<[a := v]> (mp_words p)) p)
  end.

(** The inline array has one entry. *)
Definition get_bit_ptr (level bn : Z) : MP (bit_word * Z) :=
  p ← (get : MP mempool);
  w ← (if level <=? mp_max_inline_level p
       then if Z.quot bn 32 =? 0 then mret (Inline level) else fail Fault
       else lv ← level_at level; mret (At (u32 (lvl_word lv + 4 * Z.quot bn 32))));
  mret (w, Z.land bn 31).

Definition set_alloc_bit (level bn : Z) : MP unit :=
  '(word, bit) ← get_bit_ptr level bn; v ← rd_word word; wr_word word (Z.lor v (u32 (Z.shiftl 1 bit))).

Definition clear_alloc_bit (level bn : Z) : MP unit :=
  '(word, bit) ← get_bit_ptr level bn; v ← rd_word word; wr_word word (Z.land v (not32 (u32 (Z.shiftl 1 bit)))).

Definition alloc_bit_is_set (level bn : Z) : MP bool :=
  '(word, bit) ← get_bit_ptr level bn; v ← rd_word word; mret (negb (Z.land (Z.shiftr v bit) 1 =? 0)).

Definition partner_alloc_bits (level bn : Z) : MP Z :=
  '(word, bit) ← get_bit_ptr level bn; v ← rd_word word; mret (Z.land (Z.shiftr v (4 * (bit / 4))) 15).

(** ** Initialisation *)

Fixpoint init_levels (n : nat) (i sz buflen bits : Z) : MP unit :=
  match n with
  | O => skip
  | S n =>
    if sz =? 0 then fail Fault else
    let nblocks := buflen / sz in
    lv ← level_at i;
    mp_on_list (sys_dlist_init (lvl_free_list lv));;
    bits ← (if nblocks <=? 32 then modify (with_mp_max_inline_level i);; mret bits
            else set_level_word i bits;; mret (u32 (bits + 4 * ((nblocks + 31) / 32))));
    init_levels n (i + 1) (WB_DN (sz / 4)) buflen bits
  end.

Fixpoint init_blocks (n : nat) (i : Z) : MP unit :=
  match n with
  | O => skip
  | S n =>
    p ← (get : MP mempool);
    block ← block_ptr (mp_max_sz p) i;
    lv ← level_at 0;
    mp_on_list (sys_dlist_append (lvl_free_list lv) block);;
    init_blocks n (i + 1)
  end.

Definition sys_mem_pool_base_init : MP unit :=
  p ← (get : MP mempool);
  let buflen := u32 (mp_n_max p * mp_max_sz p) in
  let bits := u32 (mp_buf p + buflen) in
  modify (with_mp_max_inline_level (-1));;
  init_levels (Z.to_nat (mp_n_levels p)) 0 (mp_max_sz p) buflen bits;;
  init_blocks (Z.to_nat (mp_n_max p)) 0.

(** ** Allocation *)

Definition block_alloc (l lsz : Z) : MP Z :=
  lv ← level_at l;
  block ← mp_on_list (sys_dlist_get (lvl_free_list lv));
  (if negb (block =? 0) then bn ← block_num block lsz; set_alloc_bit l bn else skip);;
  mret block.

(** [lsizes[i]] of the local array. *)
Definition size_at (lsizes : list Z) (i : Z) : MP Z := if i <? 0 then fail Fault else ofopt (lsizes !! Z.to_nat i).

Definition append_child (block l lsz i : Z) : MP unit :=
  lv ← level_at (l + 1); mp_on_list (sys_dlist_append (lvl_free_list lv) (u32 (lsz * i + block))).

Definition block_break (block l : Z) (lsizes : list Z) : MP Z :=
  sz ← size_at lsizes l;
  bn ← block_num block sz;
  set_alloc_bit (l + 1) (4 * bn);;
  lsz ← size_at lsizes (l + 1); append_child block l lsz 1;;
  lsz ← size_at lsizes (l + 1); append_child block l lsz 2;;
  lsz ← size_at lsizes (l + 1); append_child block l lsz 3;;
  mret block.

(** The sizes of the levels down to the first that is too small, and the last that is not. *)
Fixpoint level_scan (n : nat) (i prev size : Z) (lsizes : list Z) (alloc_l : Z) : list Z * Z :=
  match n with
  | O => (lsizes, alloc_l)
  | S n =>
    let sz := if 0 <? i then WB_DN (prev / 4) else prev in
    let lsizes := lsizes ++ [sz] in
    if sz <? size then (lsizes, alloc_l) else level_scan n (i + 1) sz size lsizes i
  end.

Fixpoint break_loop (n : nat) (from_l : Z) (data : Z) (lsizes : list Z) : MP Z :=
  match n with
  | O => mret data
  | S n => data ← block_break data from_l lsizes; break_loop n (from_l + 1) data lsizes
  end.

(** [i] runs from [alloc_l] down to 0. *)
Fixpoint find_block (n : nat) (i alloc_l : Z) (lsizes : list Z) : MP Z :=
  match n with
  | O => mret 0
  | S n =>
    sz ← size_at lsizes i;
    data ← block_alloc i sz;
    if negb (data =? 0) then break_loop (Z.to_nat (alloc_l - i)) i data lsizes
    else find_block n (i - 1) alloc_l lsizes
  end.

(** The result code with [*level_p], [*block_p] and [*data_p]; 0 stands for an output that is not written. *)
Definition sys_mem_pool_block_alloc (size : Z) : MP (Z * Z * Z * Z) :=
  p ← (get : MP mempool);
  let '(lsizes, alloc_l) := level_scan (Z.to_nat (mp_n_levels p)) 0 (mp_max_sz p) size [] (-1) in
  if alloc_l <? 0 then mret (- ENOMEM, 0, 0, 0)
  else
    data ← find_block (Z.to_nat (alloc_l + 1)) alloc_l alloc_l lsizes;
    if data =? 0 then mret (- ENOMEM, 0, 0, data)
    else
      sz ← size_at lsizes alloc_l;
      bn ← block_num data sz;
      mret (0, alloc_l, bn, data).

(** ** Release *)

Definition remove_partner (lsz bn i : Z) : MP unit :=
  a ← block_ptr lsz (Z.land bn (-4) + i); mp_on_list (sys_dlist_remove a).

Section Free.
Context `{Config}.

(** Every round that goes on lowers the level; [user_error] at the end only reports. *)
Fixpoint bfree_recombine (n : nat) (level : Z) (lsizes : list Z) (bn : Z) : MP unit :=
  match n with
  | O => skip
  | S n =>
    lsz ← size_at lsizes level;
    block ← block_ptr lsz bn;
    assert_m (alloc_bit_is_set level bn);;
    clear_alloc_bit level bn;;
    lv ← level_at level;
    mp_on_list (sys_dlist_append (lvl_free_list lv) block);;
    b ← (if level =? 0 then mret true else x ← partner_alloc_bits level bn; mret (negb (x =? 0)));
    if (b : bool) then skip
    else
      remove_partner lsz bn 0;; remove_partner lsz bn 1;; remove_partner lsz bn 2;; remove_partner lsz bn 3;;
      bfree_recombine n (level - 1) lsizes (Z.quot bn 4)
  end.

Definition block_free (level : Z) (lsizes : list Z) (bn : Z) : MP unit :=
  bfree_recombine (Z.to_nat (level + 1)) level lsizes bn.

(** The sizes of the levels up to [level]; the local array has [n_levels] entries. *)
Fixpoint size_table (n : nat) (prev : Z) : list Z :=
  match n with O => [] | S n => WB_DN (prev / 4) :: size_table n (WB_DN (prev / 4)) end.

Definition sys_mem_pool_block_free (level block : Z) : MP unit :=
  p ← (get : MP mempool);
  if mp_n_levels p <=? level then fail Fault
  else block_free level (mp_max_sz p :: size_table (Z.to_nat level) (mp_max_sz p)) block.

End Free.

(** ** Examples *)

Definition demo_words (a : Z) (n : nat) : gmap Z Z := list_to_map ((fun k => (a + 4 * Z.of_nat k, 0)) <$> seq 0 n).
Definition demo_cells (l : list Z) : gmap Z dnode := list_to_map ((fun a => (a, mk_dnode 0 0)) <$> l).

(** Three blocks of 1024 bytes, three levels; the bits of the last level lie behind the buffer. *)
Definition raw_pool : mempool :=
  mk_mempool 4096 1024 3 3 0 [mk_lvl 0 8; mk_lvl 0 20; mk_lvl 0 32] (demo_words 7168 2)
    (demo_cells ([8; 20; 32] ++ ((fun k => 4096 + 64 * Z.of_nat k) <$> seq 0 48))).

(** The state a run ends in. *)
Definition pool_after {A} (m : MP A) : mempool := match m raw_pool with Done _ p => p | Fail _ => raw_pool end.
