(* ===== verification/MemPoolFacts.v ===== *)
(** * Memory pools: geometry, bits and free lists

    A block is a pair of level and number.  [Shape] relates the blocks that are broken into
    four and those handed out; together with the free blocks the latter partition the
    buffer.  [Bits] and [Rings] say how the bit words and the free lists represent sets of
    blocks. *)

From Stdlib Require Import ZArith Lia Bool List.
From stdpp Require Import base tactics numbers list gmap.
From S2P Require Import Prelude DList DNode MemPool.

Local Open Scope Z_scope.

Notation blk := (Z * Z)%type.

(** ** Geometry *)

Record Geo (p : mempool) : Prop := {
  g_buf : 0 < mp_buf p;
  g_levels : 1 <= mp_n_levels p <= 16;
  g_sizes : exists m, mp_max_sz p = m * 4 ^ (mp_n_levels p - 1) /\ 8 <= m /\ m mod 4 = 0;
  g_count : 0 < mp_n_max p;
  g_end : mp_buf p + mp_n_max p * mp_max_sz p <= 2 ^ 32;
  g_array : Z.of_nat (length (mp_levels p)) = mp_n_levels p;
}.

Definition lsz (p : mempool) (l : Z) : Z := mp_max_sz p / 4 ^ l.
Definition nblocks (p : mempool) (l : Z) : Z := mp_n_max p * 4 ^ l.
Definition addr (p : mempool) (x : blk) : Z := mp_buf p + lsz p x.1 * x.2.
Definition valid (p : mempool) (x : blk) : Prop := 0 <= x.1 < mp_n_levels p /\ 0 <= x.2 < nblocks p x.1.

Section Geometry.
Context (p : mempool) (G : Geo p).

Lemma pow4_pos l : 0 <= l -> 0 < 4 ^ l.
Proof. intros. by apply Z.pow_pos_nonneg. Qed.

Lemma lsz_step l k : 0 <= l -> 0 <= k -> l + k < mp_n_levels p -> lsz p l = lsz p (l + k) * 4 ^ k.
Proof.
  intros Hl Hk Hn. destruct (g_sizes _ G) as (m & E & Hm & _). unfold lsz. rewrite E.
  replace (mp_n_levels p - 1) with ((mp_n_levels p - 1 - (l + k)) + k + l) by lia. rewrite !Z.pow_add_r by lia.
  pose proof (pow4_pos l ltac:(lia)). pose proof (pow4_pos k ltac:(lia)).
  rewrite !Z.mul_assoc, Z.div_mul by lia. rewrite (Z.mul_comm (4 ^ l) (4 ^ k)).
  replace (m * 4 ^ (mp_n_levels p - 1 - (l + k)) * 4 ^ k * 4 ^ l) with (m * 4 ^ (mp_n_levels p - 1 - (l + k)) * (4 ^ k * 4 ^ l)) by lia.
  rewrite Z.div_mul by lia. done.
Qed.

Lemma lsz_0 : lsz p 0 = mp_max_sz p.
Proof. unfold lsz. cbn. by rewrite Z.div_1_r. Qed.

Lemma lsz_word l : 0 <= l < mp_n_levels p -> lsz p l mod 4 = 0 /\ 8 <= lsz p l.
Proof.
  intros Hl. rewrite (lsz_step l (mp_n_levels p - 1 - l)) by lia. destruct (g_sizes _ G) as (m & E & Hm & H4).
  assert (El : lsz p (l + (mp_n_levels p - 1 - l)) = m).
  { unfold lsz. replace (l + (mp_n_levels p - 1 - l)) with (mp_n_levels p - 1) by lia. rewrite E. apply Z.div_mul. pose proof (pow4_pos (mp_n_levels p - 1)). lia. }
  rewrite El. pose proof (pow4_pos (mp_n_levels p - 1 - l) ltac:(lia)). split; [|nia]. rewrite <-Z.mul_mod_idemp_l, H4 by lia. done.
Qed.

(** Each level's size is what the code computes from the one above. *)
Lemma lsz_next l : 0 <= l -> l + 1 < mp_n_levels p -> WB_DN (lsz p l / 4) = lsz p (l + 1).
Proof.
  intros Hl Hn. destruct (lsz_word (l + 1)) as [H4 Hp]; [lia|]. rewrite (lsz_step l 1) by lia. rewrite Z.pow_1_r, Z.div_mul by lia.
  unfold WB_DN. pose proof (g_end _ G). pose proof (g_count _ G). pose proof (g_buf _ G).
  assert (Hs : lsz p (l + 1) < 2 ^ 32).
  { enough (lsz p (l + 1) <= mp_max_sz p) by nia. rewrite <-lsz_0, (lsz_step 0 (l + 1)) by lia. replace (0 + (l + 1)) with (l + 1) by lia.
    pose proof (pow4_pos (l + 1)). nia. }
  rewrite <-(Z.mul_1_l (lsz p (l + 1))) at 1. apply Z.bits_inj'. intros n Hn'. rewrite Z.land_spec, Z.mul_1_l.
  destruct (Z.testbit (lsz p (l + 1)) n) eqn:Eb; [|done]. cbn.
  assert (2 <= n < 32).
  { split.
    - destruct (Z.lt_ge_cases n 2); [|done]. exfalso. rewrite <-(Z.mod_pow2_bits_low _ 2) in Eb by lia.
      change (2 ^ 2) with 4 in Eb. rewrite H4, Z.bits_0 in Eb. done.
    - destruct (Z.lt_ge_cases n 32); [done|]. exfalso. rewrite Z.bits_above_log2 in Eb; [done|lia|].
      apply Z.log2_lt_pow2; [lia|]. eapply Z.lt_le_trans; [exact Hs|]. apply Z.pow_le_mono_r; lia. }
  assert (Hmask : forall k, 2 <= k < 32 -> Z.testbit (not32 3) k = true); [|by apply Hmask].
  intros k Hk. assert (Hin : k ∈ seqZ 2 30) by (apply elem_of_seqZ; lia).
  assert (Hall : Forall (fun k => Z.testbit (not32 3) k = true) (seqZ 2 30)) by (by vm_compute; repeat constructor).
  rewrite Forall_forall in Hall. by apply Hall.
Qed.

Lemma addr_range x : valid p x -> mp_buf p <= addr p x /\ addr p x + lsz p x.1 <= mp_buf p + mp_n_max p * mp_max_sz p.
Proof.
  destruct x as [l b]. intros [Hl Hb]. cbn in *. unfold addr, nblocks in *. cbn. destruct (lsz_word l Hl) as [_ Hp].
  assert (E : mp_max_sz p = lsz p l * 4 ^ l) by (rewrite <-lsz_0; apply (lsz_step 0 l); lia).
  split; [nia|]. enough (lsz p l * (b + 1) <= lsz p l * (mp_n_max p * 4 ^ l)) by (rewrite E; lia). nia.
Qed.

Lemma addr_word x : valid p x -> 0 < addr p x < 2 ^ 32.
Proof.
  intros Hv. pose proof (addr_range x Hv). pose proof (g_buf _ G). pose proof (g_end _ G). destruct (lsz_word x.1) as [_ Hp]; [apply Hv|]. lia.
Qed.

Lemma addr_u32 x : valid p x -> u32 (mp_buf p + lsz p x.1 * x.2) = addr p x.
Proof. intros Hv. apply u32_small. pose proof (addr_word x Hv). unfold addr in *. lia. Qed.

(** Two blocks that share a byte: the larger one encloses the smaller one. *)
Lemma overlap l b l' b' o :
  0 <= l -> l <= l' < mp_n_levels p -> lsz p l * b <= o < lsz p l * (b + 1) -> lsz p l' * b' <= o < lsz p l' * (b' + 1) -> b = b' / 4 ^ (l' - l).
Proof.
  intros Hl Hl' Ho Ho'. destruct (lsz_word l') as [_ Hp]; [lia|]. destruct (lsz_word l) as [_ Hp']; [lia|].
  pose proof (lsz_step l (l' - l) ltac:(lia) ltac:(lia) ltac:(lia)) as E. replace (l + (l' - l)) with l' in E by lia.
  pose proof (pow4_pos (l' - l) ltac:(lia)). rewrite (Z.div_unique o (lsz p l) b (o - lsz p l * b)) by lia.
  rewrite (Z.div_unique o (lsz p l') b' (o - lsz p l' * b')) by lia. rewrite Z.div_div by lia. by rewrite E.
Qed.

End Geometry.

(** ** Broken, allocated and free blocks *)

Definition up (x : blk) : blk := (x.1 - 1, x.2 / 4).

Record Shape (p : mempool) (Sp Al : gset blk) : Prop := {
  sh_valid : forall x, x ∈ Sp ∪ Al -> valid p x;
  sh_deep : forall x, x ∈ Sp -> x.1 + 1 < mp_n_levels p;
  sh_disj : Sp ## Al;
  sh_up : forall x, x ∈ Sp ∪ Al -> 0 < x.1 -> up x ∈ Sp;
}.

(** A block is free when it is whole, unused, and what encloses it is broken. *)
Definition is_free (p : mempool) (Sp Al : gset blk) (x : blk) : Prop :=
  valid p x /\ x ∉ Sp ∪ Al /\ (x.1 = 0 \/ 0 < x.1 /\ up x ∈ Sp).
Definition standing (p : mempool) (Sp Al : gset blk) (x : blk) : Prop := x ∈ Al \/ is_free p Sp Al x.

(** The block of level [l] that encloses [x]. *)
Definition at_level (x : blk) (l : Z) : blk := (l, x.2 / 4 ^ (x.1 - l)).

Section Shapes.
Context (p : mempool) (G : Geo p) (Sp Al : gset blk) (S : Shape p Sp Al).

Lemma at_level_up x l : 0 <= l < x.1 -> at_level x l = at_level (up x) l.
Proof.
  intros Hl. unfold at_level, up. cbn. rewrite Z.div_div by (try apply pow4_pos; lia). do 2 f_equal.
  replace (x.1 - l) with (1 + (x.1 - 1 - l)) by lia. rewrite Z.pow_add_r by lia. done.
Qed.

Lemma up_valid x : valid p x -> 0 < x.1 -> valid p (up x).
Proof.
  destruct x as [l b]. unfold valid, up, nblocks. cbn. intros [Hl Hb] H0. split; [lia|]. replace l with (1 + (l - 1)) in Hb by lia.
  rewrite Z.pow_add_r in Hb by lia. split; [apply Z.div_pos; lia|]. apply Z.div_lt_upper_bound; lia.
Qed.

Lemma broken_above x : x ∈ Sp -> forall l, 0 <= l < x.1 -> at_level x l ∈ Sp.
Proof.
  intros Hx l Hl. assert (Hn : exists n : nat, x.1 = l + 1 + Z.of_nat n) by (exists (Z.to_nat (x.1 - l - 1)); lia).
  destruct Hn as [n Hn]. revert x Hx Hl Hn. induction n as [|n IH]; intros x Hx Hl Hn.
  - rewrite at_level_up by lia. unfold at_level. replace ((up x).1 - l) with 0 by (cbn; lia). rewrite Z.pow_0_r, Z.div_1_r.
    replace (l, (up x).2) with (up x) by (unfold up; cbn; f_equal; lia). apply (sh_up _ _ _ S); [set_solver|lia].
  - rewrite at_level_up by lia. apply IH; [apply (sh_up _ _ _ S); [set_solver|lia]|cbn; lia|cbn; lia].
Qed.

Lemma standing_above x : standing p Sp Al x -> forall l, 0 <= l < x.1 -> at_level x l ∈ Sp.
Proof.
  intros Hx l Hl. assert (Hup : up x ∈ Sp).
  { destruct Hx as [Hx|(_ & _ & [E|[_ Hx]])]; [apply (sh_up _ _ _ S); [set_solver|lia]|lia|done]. }
  rewrite at_level_up by lia. destruct (decide (l = (up x).1)) as [->|Hne].
  - unfold at_level. rewrite Z.sub_diag, Z.pow_0_r, Z.div_1_r. by destruct (up x).
  - apply broken_above; [done|cbn in *; lia].
Qed.

Lemma standing_valid x : standing p Sp Al x -> valid p x.
Proof. intros [Hx|[Hx _]]; [|done]. apply (sh_valid _ _ _ S). set_solver. Qed.

Lemma standing_whole x : standing p Sp Al x -> x ∉ Sp.
Proof. pose proof (sh_disj _ _ _ S). intros [Hx|(_ & Hx & _)]; set_solver. Qed.

(** Standing blocks share no byte. *)
Lemma standing_apart x y o :
  standing p Sp Al x -> standing p Sp Al y -> addr p x <= o < addr p x + lsz p x.1 -> addr p y <= o < addr p y + lsz p y.1 -> x = y.
Proof.
  assert (Hgen : forall x y, standing p Sp Al x -> standing p Sp Al y -> addr p x <= o < addr p x + lsz p x.1 ->
    addr p y <= o < addr p y + lsz p y.1 -> x.1 <= y.1 -> x = y).
  { intros [l b] [l' b'] Hx Hy Ho Ho' Hle. pose proof (standing_valid _ Hx) as [Hv _]. pose proof (standing_valid _ Hy) as [Hv' _].
    unfold addr in *. cbn in *. assert (E : b = b' / 4 ^ (l' - l)) by (eapply (overlap p G l b l' b' (o - mp_buf p)); lia).
    destruct (decide (l = l')) as [->|Hne].
    - rewrite Z.sub_diag, Z.pow_0_r, Z.div_1_r in E. by rewrite E.
    - exfalso. apply (standing_whole (l, b) Hx). replace (l, b) with (at_level (l', b') l) by (unfold at_level; cbn; by rewrite E).
      apply standing_above; [done|cbn; lia]. }
  intros Hx Hy Ho Ho'. destruct (Z.le_ge_cases x.1 y.1); [by apply Hgen|symmetry; by apply Hgen].
Qed.

Lemma standing_inj x y : standing p Sp Al x -> standing p Sp Al y -> addr p x = addr p y -> x = y.
Proof.
  intros Hx Hy E. destruct (lsz_word p G x.1) as [_ H1]; [apply (standing_valid _ Hx)|]. destruct (lsz_word p G y.1) as [_ H2]; [apply (standing_valid _ Hy)|].
  apply (standing_apart x y (addr p x)); [done|done|lia|lia].
Qed.

End Shapes.

(** ** Free lists *)

(** The address of a level's list anchor, and its word. *)
Definition fl (p : mempool) (l : Z) : Z := from_option lvl_free_list 0 (mp_levels p !! Z.to_nat l).
Definition lword (p : mempool) (l : Z) : Z := from_option lvl_word 0 (mp_levels p !! Z.to_nat l).

Record Anchors (p : mempool) : Prop := {
  an_null : forall l, 0 <= l < mp_n_levels p -> fl p l <> 0;
  an_inj : forall l l', 0 <= l < mp_n_levels p -> 0 <= l' < mp_n_levels p -> fl p l = fl p l' -> l = l';
  an_out : forall l, 0 <= l < mp_n_levels p -> fl p l + 8 <= mp_buf p \/ mp_buf p + mp_n_max p * mp_max_sz p <= fl p l;
}.

Lemma an_block p l x : Geo p -> Anchors p -> 0 <= l < mp_n_levels p -> valid p x -> fl p l <> addr p x.
Proof.
  intros G A Hl Hv. pose proof (an_out _ A l Hl). pose proof (addr_range p G x Hv). destruct (lsz_word p G x.1 (proj1 Hv)) as [_ Hp]. lia.
Qed.

Definition nodes (p : mempool) (l : Z) (F : list Z) : list Z := (fun b => addr p (l, b)) <$> F.
Definition set_list (F : Z -> list Z) (l : Z) (v : list Z) (k : Z) : list Z := if k =? l then v else F k.

Lemma set_list_eq F l v : set_list F l v l = v.
Proof. unfold set_list. by rewrite Z.eqb_refl. Qed.
Lemma set_list_ne F l v k : k <> l -> set_list F l v k = F k.
Proof. intros. unfold set_list. by rewrite (proj2 (Z.eqb_neq _ _)). Qed.

Definition Rings (p : mempool) (dl : gmap Z dnode) (F : Z -> list Z) : Prop :=
  forall l, 0 <= l < mp_n_levels p -> Ring dl (fl p l) (nodes p l (F l)).
Definition same_cells (dl dl' : gmap Z dnode) : Prop := forall a, is_Some (dl' !! a) <-> is_Some (dl !! a).

(** [h] gives the first word of some cells that are not the pool's: what clients keep there. *)
Definition frozen (h : gmap Z Z) (dl : gmap Z dnode) : Prop := forall a w, h !! a = Some w -> nx dl a = w.
Definition kept (h : gmap Z Z) (dl dl' : gmap Z dnode) : Prop := same_cells dl dl' /\ (frozen h dl -> frozen h dl').

Lemma dkeep_kept h L dl dl' : dkeep L dl dl' -> (forall a, a ∈ L -> h !! a = None) -> kept h dl dl'.
Proof.
  intros [Hk Hl] Hn. split; [done|]. intros Hf a w E. destruct (Hl a) as [-> _]; [|by apply Hf]. intros Ha. apply Hn in Ha. congruence.
Qed.

Lemma dkeep_weaken L L' m m' : (forall a, a ∈ L -> a ∈ L') -> dkeep L m m' -> dkeep L' m m'.
Proof. intros Hs [Hk Hl]. split; [done|]. intros x Hx. apply Hl. intros Hin. by apply Hx, Hs. Qed.

Section RingOps.
Context (p : mempool) (G : Geo p) (A : Anchors p) (St : blk -> Prop) (h : gmap Z Z).
Hypothesis (HSv : forall x, St x -> valid p x).
Hypothesis (HSi : forall x y, St x -> St y -> addr p x = addr p y -> x = y).
Hypothesis (HAh : forall l, 0 <= l < mp_n_levels p -> h !! fl p l = None).
Hypothesis (HSh : forall x, St x -> h !! addr p x = None).
Context (dl : gmap Z dnode) (F : Z -> list Z).
Hypothesis (HR : Rings p dl F) (HF : forall l b, b ∈ F l -> St (l, b)).

Lemma in_nodes l a : a ∈ nodes p l (F l) <-> exists b, a = addr p (l, b) /\ b ∈ F l.
Proof. unfold nodes. rewrite list_elem_of_fmap. done. Qed.

Lemma node_in l b : St (l, b) -> addr p (l, b) ∈ nodes p l (F l) -> b ∈ F l.
Proof. intros Hs (b' & E & Hb')%in_nodes. apply HSi in E; [|done|by apply HF]. by injection E as ->. Qed.

(** The rings of two levels are apart, also from a standing block of one of them. *)
Lemma rings_apart l l' b a :
  0 <= l < mp_n_levels p -> 0 <= l' < mp_n_levels p -> l <> l' -> St (l, b) ->
  a ∈ fl p l' :: nodes p l' (F l') -> a ∉ fl p l :: addr p (l, b) :: nodes p l (F l).
Proof.
  intros Hl Hl' Hne Hb. rewrite !elem_of_cons, !in_nodes. intros [->|(b' & -> & Hb')].
  - intros [E|[E|(b2 & E & Hb2)]].
    + apply Hne. symmetry. by apply (an_inj p A).
    + apply (an_block p l' (l, b) G A); [done|by apply HSv|done].
    + apply (an_block p l' (l, b2) G A); [done|by apply HSv, HF|done].
  - intros [E|[E|(b2 & E & Hb2)]].
    + apply (an_block p l (l', b') G A); [done|by apply HSv, HF|done].
    + apply HSi in E; [|by apply HF|done]. by injection E as -> ->.
    + apply HSi in E; [|by apply HF|by apply HF]. by injection E as -> ->.
Qed.

Lemma rings_update l b m' v :
  0 <= l < mp_n_levels p -> St (l, b) -> dkeep (fl p l :: addr p (l, b) :: nodes p l (F l)) dl m' ->
  Ring m' (fl p l) (nodes p l v) -> Rings p m' (set_list F l v).
Proof.
  intros Hl Hb Hk Hv l' Hl'. destruct (decide (l' = l)) as [->|Hne]; [by rewrite set_list_eq|]. rewrite set_list_ne by done.
  eapply ring_frame; [by apply HR|exact Hk|]. intros a Ha. by apply (rings_apart l l' b).
Qed.

(** What an operation on the ring of level [l] may touch. *)
Lemma rings_kept l b m' : 0 <= l < mp_n_levels p -> St (l, b) -> dkeep (fl p l :: addr p (l, b) :: nodes p l (F l)) dl m' -> kept h dl m'.
Proof.
  intros Hl Hb Hk. eapply dkeep_kept; [exact Hk|]. intros a. rewrite !elem_of_cons, in_nodes. intros [->|[->|(b' & -> & Hb')]]; [by apply HAh|by apply HSh|by apply HSh, HF].
Qed.

Lemma wp_rings_append l b (Q : unit -> gmap Z dnode -> Prop) :
  0 <= l < mp_n_levels p -> St (l, b) -> b ∉ F l -> 0 < addr p (l, b) -> is_Some (dl !! addr p (l, b)) ->
  (forall m', Rings p m' (set_list F l (F l ++ [b])) -> kept h dl m' -> Q tt m') ->
  wp (sys_dlist_append (fl p l) (addr p (l, b))) Q dl.
Proof.
  intros Hl Hb Hn Hp Hc HQ. eapply wp_dlist_append; [by apply HR| |lia|done|].
  - rewrite elem_of_cons. intros [E|Hin]; [|by apply Hn, node_in]. symmetry in E. apply (an_block p l (l, b) G A); [done|by apply HSv|done].
  - intros m' HR' Hk. apply HQ; [|by eapply rings_kept]. eapply rings_update; [done|done|exact Hk|]. unfold nodes. rewrite fmap_app. exact HR'.
Qed.

Lemma wp_rings_remove l b F1 F2 (Q : unit -> gmap Z dnode -> Prop) :
  0 <= l < mp_n_levels p -> F l = F1 ++ b :: F2 ->
  (forall m', Rings p m' (set_list F l (F1 ++ F2)) -> kept h dl m' -> Q tt m') ->
  wp (sys_dlist_remove (addr p (l, b))) Q dl.
Proof.
  intros Hl E HQ. pose proof (HR l Hl) as Hr. rewrite E in Hr. unfold nodes in Hr. rewrite fmap_app in Hr. cbn [fmap list_fmap] in Hr.
  eapply wp_dlist_remove; [exact Hr|]. intros m' HR' _ _ Hk. assert (Hb : St (l, b)) by (apply HF; rewrite E; set_solver).
  assert (Hk' : dkeep (fl p l :: addr p (l, b) :: nodes p l (F l)) dl m').
  { eapply dkeep_weaken; [|exact Hk]. intros a. unfold nodes. rewrite E, fmap_app. cbn [fmap list_fmap]. set_solver. }
  apply HQ; [|by eapply rings_kept]. eapply (rings_update l b); [done|done|done|unfold nodes; by rewrite fmap_app].
Qed.

Lemma wp_rings_get l (Q : Z -> gmap Z dnode -> Prop) :
  0 <= l < mp_n_levels p ->
  match F l with
  | [] => Q 0 dl
  | b :: F' => forall m', Rings p m' (set_list F l F') -> kept h dl m' -> Q (addr p (l, b)) m'
  end -> wp (sys_dlist_get (fl p l)) Q dl.
Proof.
  intros Hl HQ. pose proof (HR l Hl) as Hr. destruct (F l) as [|b F'] eqn:E; (eapply wp_dlist_get; [exact Hr|]); [done|]. cbn. intros m' HR' Hk.
  assert (Hb : St (l, b)) by (apply HF; rewrite E; set_solver).
  assert (Hk' : dkeep (fl p l :: addr p (l, b) :: nodes p l (F l)) dl m') by (eapply dkeep_weaken; [|exact Hk]; intros a; rewrite E; cbn; set_solver).
  apply HQ; [|by eapply rings_kept]. by eapply (rings_update l b).
Qed.

Lemma rings_nodup l : 0 <= l < mp_n_levels p -> NoDup (F l).
Proof. intros Hl. pose proof (ring_nodup _ _ _ (HR l Hl)) as Hn. apply NoDup_cons in Hn as [_ Hn]. by apply NoDup_fmap_1 in Hn. Qed.

End RingOps.

(** ** Bits *)

Definition nwords (p : mempool) (l : Z) : Z := (nblocks p l + 31) / 32.

Record Layout (p : mempool) : Prop := {
  ly_mi : -1 <= mp_max_inline_level p;
  ly_inline : forall l, 0 <= l < mp_n_levels p -> l <= mp_max_inline_level p -> nblocks p l <= 32;
  ly_ext : forall l, mp_max_inline_level p < l < mp_n_levels p -> 0 <= lword p l /\ lword p l + 4 * nwords p l <= 2 ^ 32;
  ly_apart : forall l l', mp_max_inline_level p < l -> l < l' < mp_n_levels p -> lword p l + 4 * nwords p l <= lword p l';
}.

(** What the operations leave as [g] has it: everything but bits and links. *)
Record Same (g p : mempool) : Prop := {
  sg_buf : mp_buf p = mp_buf g;
  sg_max : mp_max_sz p = mp_max_sz g;
  sg_nmax : mp_n_max p = mp_n_max g;
  sg_levels : mp_n_levels p = mp_n_levels g;
  sg_mi : mp_max_inline_level p = mp_max_inline_level g;
  sg_len : length (mp_levels p) = length (mp_levels g);
  sg_fl : forall l, fl p l = fl g l;
  sg_word : forall l, mp_max_inline_level g < l -> lword p l = lword g l;
}.

#[export] Instance same_preorder : PreOrder Same.
Proof.
  split; [by split|]. intros p q r [? ? ? ? M1 ? F1 W1] [? ? ? ? M2 ? F2 W2].
  split; try congruence. intros l Hl. rewrite W2, W1 by (rewrite ?M1; done). done.
Qed.

Definition wloc (g : mempool) (x : blk) : bit_word :=
  if x.1 <=? mp_max_inline_level g then Inline x.1 else At (lword g x.1 + 4 * (x.2 / 32)).
Definition word_val (p : mempool) (w : bit_word) : option Z :=
  match w with Inline l => lvl_word <$> mp_levels p !! Z.to_nat l | At a => mp_words p !! a end.
Definition Bits (g p : mempool) (U : gset blk) : Prop :=
  forall x, valid g x -> exists v, word_val p (wloc g x) = Some v /\ 0 <= v < 2 ^ 32 /\ Z.testbit v (x.2 mod 32) = bool_decide (x ∈ U).

Definition upd_word (w : bit_word) (v : Z) (p : mempool) : mempool :=
  match w with
  | Inline l => with_mp_levels (alter (fun lv => mk_lvl v (lvl_free_list lv)) (Z.to_nat l) (mp_levels p)) p
  | At a => with_mp_words (<[a := v]> (mp_words p)) p
  end.

Section BitOps.
Context (g : mempool) (G : Geo g) (Ly : Layout g).

Lemma wloc_inj x y : valid g x -> valid g y -> wloc g x = wloc g y -> x.1 = y.1 /\ x.2 / 32 = y.2 / 32.
Proof.
  intros Hx Hy. unfold wloc. destruct (Z.leb_spec x.1 (mp_max_inline_level g)) as [Ex|Ex], (Z.leb_spec y.1 (mp_max_inline_level g)) as [Ey|Ey]; try done.
  - intros [= E]. split; [done|]. pose proof (ly_inline _ Ly x.1 (proj1 Hx) Ex). pose proof (ly_inline _ Ly y.1 (proj1 Hy) Ey).
    destruct Hx as [_ Hx], Hy as [_ Hy]. rewrite !Z.div_small by lia. done.
  - intros [= E]. destruct Hx as [Hx Hx2], Hy as [Hy Hy2].
    assert (Hw : forall z, 0 <= z.1 < mp_n_levels g -> 0 <= z.2 < nblocks g z.1 -> 0 <= z.2 / 32 < nwords g z.1).
    { intros z _ Hz. unfold nwords. split; [apply Z.div_pos; lia|]. apply Z.div_lt_upper_bound; [lia|].
      pose proof (Z.div_mod (nblocks g z.1 + 31) 32 ltac:(lia)). pose proof (Z.mod_pos_bound (nblocks g z.1 + 31) 32 ltac:(lia)). lia. }
    pose proof (Hw x Hx Hx2) as Hwx. pose proof (Hw y Hy Hy2) as Hwy. destruct (Z.lt_trichotomy x.1 y.1) as [Hl|[El|Hl]].
    + pose proof (ly_apart _ Ly x.1 y.1 Ex ltac:(lia)). lia.
    + rewrite El in *. split; [done|]. lia.
    + pose proof (ly_apart _ Ly y.1 x.1 Ey ltac:(lia)). lia.
Qed.

Lemma word_val_upd p w w' v : is_Some (word_val p w) -> (forall l, w = Inline l -> 0 <= l) -> (forall l, w' = Inline l -> 0 <= l) ->
  word_val (upd_word w v p) w' = if bool_decide (w' = w) then Some v else word_val p w'.
Proof.
  intros Hs H0 H0'. destruct w as [l|a], w' as [l'|a']; cbn in *.
  - destruct (decide (l' = l)) as [->|Hne].
    + rewrite bool_decide_true by done. rewrite list_lookup_alter_eq. destruct (mp_levels p !! Z.to_nat l); [done|by destruct Hs].
    + rewrite bool_decide_false by congruence. specialize (H0 l eq_refl). specialize (H0' l' eq_refl). rewrite list_lookup_alter_ne by lia. done.
  - by rewrite bool_decide_false by done.
  - by rewrite bool_decide_false by done.
  - destruct (decide (a' = a)) as [->|Hne]; [by rewrite bool_decide_true, lookup_insert_eq|].
    by rewrite bool_decide_false, lookup_insert_ne by congruence.
Qed.

Lemma same_upd p x v : Same g p -> valid g x -> Same g (upd_word (wloc g x) v p).
Proof.
  intros [? ? ? ? ? ? Hf Hw] [Hx _]. unfold wloc. destruct (Z.leb_spec x.1 (mp_max_inline_level g)) as [E|E]; cbn; [|by split].
  split; try done; cbn; [by rewrite length_alter| |].
  - intros l. rewrite <-Hf. unfold fl. cbn. destruct (decide (Z.to_nat l = Z.to_nat x.1)) as [->|Hne].
    + rewrite list_lookup_alter_eq. by destruct (mp_levels p !! Z.to_nat x.1).
    + by rewrite list_lookup_alter_ne.
  - intros l Hl. rewrite <-Hw by done. unfold lword. cbn. rewrite list_lookup_alter_ne by lia. done.
Qed.

Lemma wp_level_at p l (Q : sys_mem_pool_lvl -> mempool -> Prop) :
  Same g p -> 0 <= l < mp_n_levels g -> (forall w, w = lword p l -> Q (mk_lvl w (fl g l)) p) -> wp (level_at l) Q p.
Proof.
  intros Hs Hl HQ. unfold level_at. apply wp_bind, wp_get. rewrite (proj2 (Z.ltb_ge _ _)) by lia.
  destruct (mp_levels p !! Z.to_nat l) as [lv|] eqn:E.
  - eapply wp_ofopt; [done|]. destruct lv as [w f]. rewrite <-(sg_fl _ _ Hs) in HQ. unfold fl, lword in HQ. rewrite E in HQ. by apply HQ.
  - apply lookup_ge_None in E. pose proof (sg_len _ _ Hs). pose proof (g_array _ G). lia.
Qed.

Lemma wp_get_bit_ptr p x (Q : bit_word * Z -> mempool -> Prop) :
  Same g p -> valid g x -> Q (wloc g x, x.2 mod 32) p -> wp (get_bit_ptr x.1 x.2) Q p.
Proof.
  intros Hs [Hx Hb] HQ. unfold get_bit_ptr. apply wp_bind, wp_get. rewrite (sg_mi _ _ Hs). unfold wloc in HQ.
  change 31 with (Z.ones 5). rewrite Z.land_ones by lia. change (2 ^ 5) with 32. rewrite Z.quot_div_nonneg by lia.
  apply wp_bind. destruct (Z.leb_spec x.1 (mp_max_inline_level g)) as [E|E].
  - pose proof (ly_inline _ Ly x.1 Hx E). rewrite Z.div_small by lia. apply wp_ret. by apply wp_ret.
  - apply wp_bind. apply wp_level_at; [done|done|]. intros w Ew. rewrite (sg_word _ _ Hs) in Ew by done. apply wp_ret. apply wp_ret. cbn [lvl_word]. rewrite Ew.
    rewrite u32_small; [done|]. destruct (ly_ext _ Ly x.1 ltac:(lia)) as [H0 H1]. unfold nwords in H1.
    assert (x.2 / 32 < (nblocks g x.1 + 31) / 32).
    { apply Z.div_lt_upper_bound; [lia|]. pose proof (Z.div_mod (nblocks g x.1 + 31) 32 ltac:(lia)). pose proof (Z.mod_pos_bound (nblocks g x.1 + 31) 32 ltac:(lia)). lia. }
    assert (0 <= x.2 / 32) by (apply Z.div_pos; lia). lia.
Qed.

Lemma wloc_level x l : valid g x -> wloc g x = Inline l -> 0 <= l.
Proof. intros [Hx _]. unfold wloc. destruct (_ <=? _); [|done]. intros [= <-]. lia. Qed.

Lemma wp_rd_word p x v (Q : Z -> mempool -> Prop) :
  Same g p -> valid g x -> word_val p (wloc g x) = Some v -> Q v p -> wp (rd_word (wloc g x)) Q p.
Proof.
  intros Hs Hx E HQ. pose proof (wloc_level x) as Hw. destruct (wloc g x) as [l|a]; cbn in *.
  - specialize (Hw l Hx eq_refl). unfold level_at. apply wp_bind, wp_bind, wp_get. rewrite (proj2 (Z.ltb_ge _ _)) by lia.
    destruct (mp_levels p !! Z.to_nat l) as [lv|]; [|done]. injection E as <-. eapply wp_ofopt; [done|]. by apply wp_ret.
  - apply wp_bind, wp_get. by eapply wp_ofopt.
Qed.

Lemma wp_wr_word p x v (Q : unit -> mempool -> Prop) :
  valid g x -> is_Some (word_val p (wloc g x)) -> Q tt (upd_word (wloc g x) v p) -> wp (wr_word (wloc g x) v) Q p.
Proof.
  intros Hx [u E] HQ. pose proof (wloc_level x) as Hw. destruct (wloc g x) as [l|a]; cbn in *.
  - specialize (Hw l Hx eq_refl). unfold set_level_word, level_at. apply wp_bind, wp_bind, wp_get. rewrite (proj2 (Z.ltb_ge _ _)) by lia.
    destruct (mp_levels p !! Z.to_nat l) as [lv|] eqn:El; [|done]. eapply wp_ofopt; [done|]. apply wp_modify.
    replace (<[Z.to_nat l:=_]> (mp_levels p)) with (alter (fun lv => mk_lvl v (lvl_free_list lv)) (Z.to_nat l) (mp_levels p)); [done|].
    apply list_eq. intros i. destruct (decide (i = Z.to_nat l)) as [->|Hne].
    + rewrite list_lookup_alter_eq, El, list_lookup_insert_eq; [done|]. by apply lookup_lt_Some in El.
    + by rewrite list_lookup_alter_ne, list_lookup_insert_ne by done.
  - apply wp_bind, wp_bind, wp_get. eapply wp_ofopt; [done|]. by apply wp_modify.
Qed.

Lemma bits_upd p U U' x v v' :
  Bits g p U -> valid g x -> word_val p (wloc g x) = Some v -> 0 <= v' < 2 ^ 32 ->
  (forall k, 0 <= k < 32 -> k <> x.2 mod 32 -> Z.testbit v' k = Z.testbit v k) ->
  Z.testbit v' (x.2 mod 32) = bool_decide (x ∈ U') -> (forall y, y <> x -> y ∈ U' <-> y ∈ U) ->
  Bits g (upd_word (wloc g x) v' p) U'.
Proof.
  intros HB Hx Ev Hv' Hk Hbx HU y Hy. destruct (HB y Hy) as (u & Eu & Hu & Hbu).
  rewrite word_val_upd; [|by rewrite Ev|intros l; by apply wloc_level|intros l; by apply wloc_level].
  destruct (decide (wloc g y = wloc g x)) as [Ew|Hne].
  - rewrite bool_decide_true by done. exists v'. split; [done|]. split; [done|]. destruct (decide (y = x)) as [->|Hyx]; [done|].
    destruct (wloc_inj y x Hy Hx Ew) as [E1 E2]. rewrite Hk.
    + rewrite Ew, Ev in Eu. injection Eu as ->. rewrite Hbu. apply bool_decide_ext. symmetry. by apply HU.
    + apply Z.mod_pos_bound. lia.
    + intros Em. apply Hyx. destruct x as [l b], y as [l' b']. cbn in *. rewrite E1. f_equal.
      rewrite (Z.div_mod b' 32), (Z.div_mod b 32), E2, Em by lia. done.
  - rewrite bool_decide_false by done. exists u. split; [done|]. split; [done|]. rewrite Hbu. apply bool_decide_ext. symmetry. apply HU. by intros ->.
Qed.

Lemma mod32_range b : 0 <= b mod 32 < 32.
Proof. apply Z.mod_pos_bound. lia. Qed.

Lemma wp_set_alloc_bit p U x (Q : unit -> mempool -> Prop) :
  Same g p -> Bits g p U -> valid g x ->
  (forall p', Same g p' -> mp_dl p' = mp_dl p -> Bits g p' ({[x]} ∪ U) -> Q tt p') -> wp (set_alloc_bit x.1 x.2) Q p.
Proof.
  intros Hs HB Hx HQ. destruct (HB x Hx) as (v & Ev & Hv & Hbv). pose proof (mod32_range x.2) as Hm. unfold set_alloc_bit.
  apply wp_bind, wp_get_bit_ptr; [done|done|]. apply wp_bind. eapply wp_rd_word; [done|done|done|]. apply wp_wr_word; [done|by rewrite Ev|].
  fold (BIT (x.2 mod 32)). pose proof (BIT_range (x.2 mod 32) 32 Hm) as HBr. rewrite u32_small by done.
  apply HQ; [by apply same_upd|by destruct (wloc g x)|]. eapply bits_upd; [done|done|done|apply lor_range; lia| | |].
  - intros k Hk Hne. rewrite set_bit_testbit by lia. by rewrite (proj2 (Z.eqb_neq _ _)).
  - rewrite set_bit_testbit, Z.eqb_refl by lia. rewrite bool_decide_true; [done|]. set_solver.
  - set_solver.
Qed.

Lemma wp_clear_alloc_bit p U x (Q : unit -> mempool -> Prop) :
  Same g p -> Bits g p U -> valid g x ->
  (forall p', Same g p' -> mp_dl p' = mp_dl p -> Bits g p' (U ∖ {[x]}) -> Q tt p') -> wp (clear_alloc_bit x.1 x.2) Q p.
Proof.
  intros Hs HB Hx HQ. destruct (HB x Hx) as (v & Ev & Hv & Hbv). pose proof (mod32_range x.2) as Hm. unfold clear_alloc_bit.
  apply wp_bind, wp_get_bit_ptr; [done|done|]. apply wp_bind. eapply wp_rd_word; [done|done|done|]. apply wp_wr_word; [done|by rewrite Ev|].
  fold (BIT (x.2 mod 32)). pose proof (BIT_range (x.2 mod 32) 32 Hm) as HBr. rewrite u32_small by done.
  apply HQ; [by apply same_upd|by destruct (wloc g x)|]. eapply bits_upd; [done|done|done|apply land_range; lia| | |].
  - intros k Hk Hne. rewrite clear_bit_testbit by lia. by rewrite (proj2 (Z.eqb_neq _ _)).
  - rewrite clear_bit_testbit, Z.eqb_refl by lia. rewrite bool_decide_false; [done|]. set_solver.
  - set_solver.
Qed.

Lemma wp_alloc_bit_is_set p U x (Q : bool -> mempool -> Prop) :
  Same g p -> Bits g p U -> valid g x -> Q (bool_decide (x ∈ U)) p -> wp (alloc_bit_is_set x.1 x.2) Q p.
Proof.
  intros Hs HB Hx HQ. destruct (HB x Hx) as (v & Ev & Hv & Hbv). pose proof (mod32_range x.2) as Hm. unfold alloc_bit_is_set.
  apply wp_bind, wp_get_bit_ptr; [done|done|]. apply wp_bind. eapply wp_rd_word; [done|done|done|]. apply wp_ret.
  change 1 with (Z.ones 1). rewrite Z.land_ones, Z.shiftr_div_pow2 by lia. change (2 ^ 1) with 2.
  rewrite <-Z.testbit_spec' by lia. rewrite <-Hbv in HQ. by destruct (Z.testbit v (x.2 mod 32)).
Qed.

(** The four partners' bits stand together in one word. *)
Lemma wp_partner_alloc_bits p U l b (Q : Z -> mempool -> Prop) :
  Same g p -> Bits g p U -> valid g (l, b) -> (forall i, 0 <= i < 4 -> valid g (l, 4 * (b / 4) + i)) ->
  (forall v, v = 0 <-> (forall i, 0 <= i < 4 -> (l, 4 * (b / 4) + i) ∉ U) -> Q v p) -> wp (partner_alloc_bits l b) Q p.
Proof.
  intros Hs HB Hx Hpart HQ. destruct (HB _ Hx) as (v & Ev & Hv & Hbv). pose proof (mod32_range b) as Hm. unfold partner_alloc_bits.
  apply wp_bind. apply (wp_get_bit_ptr p (l, b)); [done|done|]. apply wp_bind. eapply wp_rd_word; [done|done|done|]. apply wp_ret. apply HQ. cbn [snd fst].
  set (k := 4 * (b mod 32 / 4)). assert (Hk : 0 <= k <= 28).
  { subst k. pose proof (Z.div_lt_upper_bound (b mod 32) 4 8 ltac:(lia) ltac:(lia)). pose proof (Z.div_pos (b mod 32) 4 ltac:(lia) ltac:(lia)). lia. }
  assert (Hbit : forall i, 0 <= i < 4 -> Z.testbit (Z.land (Z.shiftr v k) 15) i = bool_decide ((l, 4 * (b / 4) + i) ∈ U)).
  { intros i Hi. destruct (HB _ (Hpart i Hi)) as (u & Eu & _ & Hbu). cbn [snd] in Hbu. rewrite <-Hbu. change 15 with (Z.ones 4).
    rewrite Z.land_spec, Z.shiftr_spec, Z.testbit_ones_nonneg by lia. rewrite (proj2 (Z.ltb_lt i 4)), andb_true_r by lia.
    assert ((4 * (b / 4) + i) / 32 = b / 32 /\ (4 * (b / 4) + i) mod 32 = k + i) as [E1 E2].
    { subst k. pose proof (Z.div_mod b 32 ltac:(lia)) as Eb. assert (Eq : b / 4 = 8 * (b / 32) + b mod 32 / 4).
      { rewrite Eb at 1. replace (32 * (b / 32) + b mod 32) with (b mod 32 + 8 * (b / 32) * 4) by lia. rewrite Z.div_add by lia. lia. }
      rewrite Eq. replace (4 * (8 * (b / 32) + b mod 32 / 4) + i) with (4 * (b mod 32 / 4) + i + b / 32 * 32) by lia.
      rewrite Z.div_add, Z.mod_add by lia. rewrite Z.div_small, Z.mod_small by lia. lia. }
    assert (Ew : wloc g (l, 4 * (b / 4) + i) = wloc g (l, b)) by (unfold wloc; cbn; by rewrite E1).
    rewrite Ew, Ev in Eu. injection Eu as <-. rewrite E2. f_equal. lia. }
  assert (Hr : 0 <= Z.land (Z.shiftr v k) 15 < 2 ^ 4) by (rewrite Z.land_comm; apply land_range; lia).
  rewrite (word_zero_bits 4 _ ltac:(lia) Hr). split; intros Hz i Hi; specialize (Hz i Hi); rewrite ?Hbit in * by done.
  - by apply bool_decide_eq_false in Hz.
  - by apply bool_decide_eq_false.
Qed.

End BitOps.
