(* ===== verification/MemPoolTheorems.v ===== *)
(** * Memory pools: allocation and release

    [Pool g h p Sp Al]: the pool [p], laid out as [g], has handed out the blocks [Al]; the
    blocks [Sp] are broken; the free lists hold exactly the free blocks and the bits mark
    exactly the broken and the allocated ones; the blocks in use start with the words [h]. *)

From Stdlib Require Import ZArith Lia Bool List.
From stdpp Require Import base tactics numbers list gmap fin_sets.
From S2P Require Import Prelude DList DNode MemPool MemPoolFacts.

Local Open Scope Z_scope.

Definition covered (g : mempool) (h : gmap Z Z) (Al : gset blk) : Prop := forall a, is_Some (h !! a) -> exists x, x ∈ Al /\ a = addr g x.

Record Pool (g : mempool) (h : gmap Z Z) (p : mempool) (Sp Al : gset blk) : Prop := {
  po_same : Same g p;
  po_shape : Shape g Sp Al;
  po_bits : Bits g p (Sp ∪ Al);
  po_cells : forall x, valid g x -> is_Some (mp_dl p !! addr g x);
  po_free : exists F, Rings g (mp_dl p) F /\ forall l b, b ∈ F l <-> is_free g Sp Al (l, b);
  po_frozen : frozen h (mp_dl p);
  po_covered : covered g h Al;
}.

(** Every broken block has a part in use. *)
Definition Tight (Sp Al : gset blk) : Prop := forall x, x ∈ Sp -> exists y, y ∈ Sp ∪ Al /\ 0 < y.1 /\ up y = x.

Section Steps.
Context (g : mempool) (G : Geo g) (A : Anchors g) (Ly : Layout g) (h : gmap Z Z).
Hypothesis (Ah : forall l, 0 <= l < mp_n_levels g -> h !! fl g l = None).

Lemma wp_mp_on_list {B} (m : DM B) (Q : B -> mempool -> Prop) p :
  wp m (fun a d => Q a (with_mp_dl d p)) (mp_dl p) -> wp (mp_on_list m) Q p.
Proof. unfold wp, mp_on_list. by destruct (m (mp_dl p)). Qed.

Lemma same_dl p d : Same g p -> Same g (with_mp_dl d p).
Proof. intros []. by split. Qed.

Lemma bits_dl p d U : Bits g p U -> Bits g (with_mp_dl d p) U.
Proof. intros HB x Hx. destruct (HB x Hx) as (v & E & H). exists v. split; [|done]. by destruct (wloc g x). Qed.

Lemma bits_ext p U U' : (forall x, x ∈ U <-> x ∈ U') -> Bits g p U -> Bits g p U'.
Proof. intros HU HB x Hx. destruct (HB x Hx) as (v & E & Hv & Hb). exists v. split; [done|]. split; [done|]. rewrite Hb. by apply bool_decide_ext. Qed.

Lemma wp_block_ptr p x (Q : Z -> mempool -> Prop) : Same g p -> valid g x -> Q (addr g x) p -> wp (block_ptr (lsz g x.1) x.2) Q p.
Proof. intros Hs Hx HQ. unfold block_ptr. apply wp_bind, wp_get. apply wp_ret. rewrite (sg_buf _ _ Hs). by rewrite addr_u32. Qed.

Lemma wp_block_num p x (Q : Z -> mempool -> Prop) : Same g p -> valid g x -> Q x.2 p -> wp (block_num (addr g x) (lsz g x.1)) Q p.
Proof.
  intros Hs Hx HQ. unfold block_num. apply wp_bind, wp_get. destruct (lsz_word g G x.1) as [_ Hp]; [apply Hx|].
  rewrite (proj2 (Z.eqb_neq _ _)) by lia. apply wp_ret. rewrite (sg_buf _ _ Hs). unfold addr.
  replace (mp_buf g + lsz g x.1 * x.2 - mp_buf g) with (x.2 * lsz g x.1) by lia. rewrite Z.quot_mul by lia. done.
Qed.

Lemma free_facts Sp Al : Shape g Sp Al -> covered g h Al ->
  (forall x, is_free g Sp Al x -> valid g x) /\ (forall x y, is_free g Sp Al x -> is_free g Sp Al y -> addr g x = addr g y -> x = y) /\
  (forall x, is_free g Sp Al x -> h !! addr g x = None).
Proof.
  intros S Hc. split; [by intros x []|]. split; [intros x y Hx Hy; apply (standing_inj g G Sp Al S); by right|].
  intros x Hx. destruct (h !! addr g x) as [w|] eqn:E; [|done]. exfalso. destruct (Hc (addr g x)) as (y & Hy & Ea); [by rewrite E|].
  apply (standing_inj g G Sp Al S) in Ea as ->; [|by right|by left]. destruct Hx as (_ & Hn & _). apply Hn, elem_of_union. by right.
Qed.

Lemma covered_mono Al Al' : covered g h Al -> (forall x, x ∈ Al -> x ∈ Al') -> covered g h Al'.
Proof. intros Hc Hs a Ha. destruct (Hc a Ha) as (x & Hx & E). exists x. by split; [apply Hs|]. Qed.

(** A level's list, as [sys_dlist_get] leaves it. *)
Lemma shape_take Sp Al x : Shape g Sp Al -> is_free g Sp Al x -> Shape g Sp ({[x]} ∪ Al).
Proof.
  intros S (Hv & Hn & Hu). pose proof (sh_disj _ _ _ S). split.
  - intros y Hy. destruct (decide (y = x)) as [->|]; [done|]. apply (sh_valid _ _ _ S). set_solver.
  - apply S.
  - set_solver.
  - intros y Hy H0. destruct (decide (y = x)) as [->|]; [by destruct Hu as [|[_ ?]]; [lia|]|]. apply (sh_up _ _ _ S); [set_solver|done].
Qed.

Lemma free_take Sp Al x y : is_free g Sp ({[x]} ∪ Al) y <-> is_free g Sp Al y /\ y <> x.
Proof. unfold is_free. set_solver. Qed.

Lemma wp_block_alloc p Sp Al l (Q : Z -> mempool -> Prop) :
  Pool g h p Sp Al -> 0 <= l < mp_n_levels g ->
  ((forall b, ~ is_free g Sp Al (l, b)) -> Q 0 p) ->
  (forall b p', is_free g Sp Al (l, b) -> Pool g h p' Sp ({[(l, b)]} ∪ Al) -> Q (addr g (l, b)) p') ->
  wp (block_alloc l (lsz g l)) Q p.
Proof.
  intros [Hs S HB Hc (F & HR & HF) Hfz Hcv] Hl HQ0 HQ1. unfold block_alloc. apply wp_bind, (wp_level_at g G); [done|done|]. intros w _. cbn [lvl_free_list].
  destruct (free_facts _ _ S Hcv) as (Hsv & Hsi & Hsh). apply wp_bind, wp_mp_on_list.
  eapply (wp_rings_get g G A (is_free g Sp Al) h Hsv Hsi Ah Hsh (mp_dl p) F HR); [intros l' b Hb; by apply HF|done|].
  destruct (F l) as [|b F'] eqn:EF.
  - cbn [Z.eqb negb]. apply wp_bind, wp_ret. apply wp_ret. replace (with_mp_dl (mp_dl p) p) with p by (by destruct p). apply HQ0.
    intros b Hb. apply HF in Hb. rewrite EF in Hb. by apply elem_of_nil in Hb.
  - intros m' HR' [Hk Hz]. assert (Hfree : is_free g Sp Al (l, b)) by (apply HF; rewrite EF; set_solver). pose proof (proj1 Hfree) as Hv.
    pose proof (addr_word g G _ Hv) as Ha. rewrite (proj2 (Z.eqb_neq _ _)) by lia. cbn [negb]. apply wp_bind, wp_bind.
    apply (wp_block_num _ (l, b)); [by apply same_dl|done|]. apply (wp_set_alloc_bit g G Ly _ (Sp ∪ Al) (l, b)); [by apply same_dl|by apply bits_dl|done|].
    intros p' Hs' Ed HB'. apply wp_ret. apply HQ1; [done|]. split; [done|by apply shape_take|eapply bits_ext; [|exact HB']; set_solver| | |rewrite Ed; by apply Hz|eapply covered_mono; [exact Hcv|set_solver]].
    + intros x Hx. rewrite Ed. cbn. apply Hk, Hc, Hx.
    + exists (set_list F l F'). rewrite Ed. split; [done|]. intros l' b'. rewrite free_take, <-HF. unfold set_list.
      destruct (Z.eqb_spec l' l) as [->|Hne]; [|split; [intros Hb; split; [done|congruence]|by intros []]].
      pose proof (rings_nodup g (mp_dl p) F HR l Hl) as Hnd. rewrite EF in Hnd |- *. apply NoDup_cons in Hnd as [Hnd _]. set_solver.
Qed.

(** ** Breaking a block *)

Definition broken_sp (Sp : gset blk) (l b : Z) : gset blk := {[(l, b)]} ∪ Sp.
Definition broken_al (Al : gset blk) (l b : Z) : gset blk := {[(l + 1, 4 * b)]} ∪ Al ∖ {[(l, b)]}.

Lemma up_child l b i : 0 <= i < 4 -> up (l + 1, 4 * b + i) = (l, b).
Proof. intros Hi. unfold up. cbn. f_equal; [lia|]. rewrite Z.mul_comm, Z.div_add_l by lia. rewrite Z.div_small by lia. lia. Qed.

Lemma child_valid l b i : valid g (l, b) -> l + 1 < mp_n_levels g -> 0 <= i < 4 -> valid g (l + 1, 4 * b + i).
Proof. unfold valid, nblocks. cbn. intros [Hl Hb] Hn Hi. split; [lia|]. rewrite Z.pow_add_r by lia. change (4 ^ 1) with 4. lia. Qed.

Section Break.
Context (Sp Al : gset blk) (l b : Z).
Hypothesis (S : Shape g Sp Al) (Hin : (l, b) ∈ Al) (Hn : l + 1 < mp_n_levels g).

Lemma break_valid : valid g (l, b).
Proof. apply (sh_valid _ _ _ S). set_solver. Qed.

Lemma child_unused i : 0 <= i < 4 -> (l + 1, 4 * b + i) ∉ Sp ∪ Al.
Proof.
  intros Hi Hc. pose proof (sh_up _ _ _ S _ Hc) as Hu. rewrite up_child in Hu by done. pose proof (sh_disj _ _ _ S). destruct break_valid as [Hl _]. cbn in *.
  specialize (Hu ltac:(lia)). set_solver.
Qed.

Lemma break_shape : Shape g (broken_sp Sp l b) (broken_al Al l b).
Proof.
  pose proof (child_unused 0 ltac:(lia)) as Hc. replace (4 * b + 0) with (4 * b) in Hc by lia. pose proof (sh_disj _ _ _ S) as Hd.
  pose proof (child_valid l b 0 break_valid Hn ltac:(lia)) as Hcv. pose proof (up_child l b 0 ltac:(lia)) as Hup. replace (4 * b + 0) with (4 * b) in Hcv, Hup by lia.
  unfold broken_sp, broken_al. split.
  - intros x Hx. destruct (decide (x = (l + 1, 4 * b))) as [->|]; [done|]. apply (sh_valid _ _ _ S). set_solver.
  - intros x Hx. destruct (decide (x = (l, b))) as [->|]; [done|]. apply (sh_deep _ _ _ S). set_solver.
  - assert (Hne : (l, b) <> (l + 1, 4 * b)) by (intros [=]; lia). apply elem_of_disjoint. intros x.
    rewrite !elem_of_union, elem_of_difference, !elem_of_singleton. intros [->|Hx] [E|[Hx' Hx2]]; [done|done| |by apply (Hd x)].
    subst x. apply Hc. set_solver.
  - intros x Hx H0. destruct (decide (x = (l + 1, 4 * b))) as [->|]; [rewrite Hup; set_solver|].
    apply elem_of_union_r, (sh_up _ _ _ S); [set_solver|done].
Qed.

Lemma break_free x : is_free g (broken_sp Sp l b) (broken_al Al l b) x <-> is_free g Sp Al x \/ exists i, 1 <= i < 4 /\ x = (l + 1, 4 * b + i).
Proof.
  pose proof (sh_disj _ _ _ S) as Hd. rewrite elem_of_disjoint in Hd. pose proof break_valid as Hv. destruct Hv as [Hl _]. cbn in Hl.
  unfold is_free, broken_sp, broken_al. rewrite !elem_of_union, elem_of_difference, !elem_of_singleton. split.
  - intros (Hv & Hx & Hu). destruct Hu as [E|[H0 [Hu|Hu]]]; [left|right|left].
    + split; [done|]. split; [|by left]. destruct (decide (x = (l, b))); tauto.
    + destruct x as [lx bx]. unfold up in Hu. cbn in *. injection Hu as Elx Ebx. exists (bx mod 4).
      pose proof (Z.div_mod bx 4 ltac:(lia)) as Eb. pose proof (Z.mod_pos_bound bx 4 ltac:(lia)) as Hm. rewrite Ebx in Eb. split; [|f_equal; lia].
      destruct (decide (bx mod 4 = 0)) as [E0|]; [|lia]. exfalso. apply Hx. right. left. f_equal; lia.
    + split; [done|]. split; [|by right]. destruct (decide (x = (l, b))); tauto.
  - intros [(Hv & Hx & Hu)|(i & Hi & ->)].
    + assert (Hne : x <> (l + 1, 4 * b)).
      { pose proof (up_child l b 0 ltac:(lia)) as Hup. replace (4 * b + 0) with (4 * b) in Hup by lia. intros ->. rewrite Hup in Hu. cbn in Hu.
        destruct Hu as [|[_ Hu]]; [lia|]. by apply (Hd (l, b)). }
      split; [done|]. split; [|tauto]. intros [[->|Hs]|[E|[Ha _]]]; tauto.
    + pose proof (child_unused i ltac:(lia)) as Hc. rewrite elem_of_union in Hc. rewrite up_child by lia.
      split; [by apply child_valid; [apply break_valid|lia|lia]|]. split; [|right; split; [cbn; lia|by left]].
      intros [[E|Hs]|[E|[Ha _]]]; [injection E; lia|tauto|injection E; lia|tauto].
Qed.

End Break.
(** ** Working on the lists *)

Record Half (p : mempool) (U : gset blk) (F : Z -> list Z) : Prop := {
  hf_same : Same g p;
  hf_bits : Bits g p U;
  hf_cells : forall x, valid g x -> is_Some (mp_dl p !! addr g x);
  hf_rings : Rings g (mp_dl p) F;
  hf_frozen : frozen h (mp_dl p);
}.

Lemma pool_half p Sp Al : Pool g h p Sp Al -> exists F, Half p (Sp ∪ Al) F /\ forall l b, b ∈ F l <-> is_free g Sp Al (l, b).
Proof. intros [Hs S HB Hc (F & HR & HF) Hz _]. exists F. by split; [split|]. Qed.

Lemma half_pool p Sp Al F : Half p (Sp ∪ Al) F -> Shape g Sp Al -> covered g h Al -> (forall l b, b ∈ F l <-> is_free g Sp Al (l, b)) -> Pool g h p Sp Al.
Proof. intros [Hs HB Hc HR Hz] S Hcv HF. split; try done. by exists F. Qed.

Lemma half_dl p U F d F' : Half p U F -> Rings g d F' -> kept h (mp_dl p) d -> Half (with_mp_dl d p) U F'.
Proof. intros [Hs HB Hc HR Hz] HR' [Hk Hf]. split; [by apply same_dl|by apply bits_dl|intros x Hx; by apply Hk, Hc|done|by apply Hf]. Qed.

Section Lists.
Context (St : blk -> Prop).
Hypothesis (HSv : forall x, St x -> valid g x) (HSi : forall x y, St x -> St y -> addr g x = addr g y -> x = y).
Hypothesis (HSh : forall x, St x -> h !! addr g x = None).

Lemma wp_half_append p U F x (Q : unit -> mempool -> Prop) :
  Half p U F -> (forall l b, b ∈ F l -> St (l, b)) -> St x -> x.2 ∉ F x.1 ->
  (forall p', Half p' U (set_list F x.1 (F x.1 ++ [x.2])) -> Q tt p') -> wp (mp_on_list (sys_dlist_append (fl g x.1) (addr g x))) Q p.
Proof.
  intros Hh HF Hx Hn HQ. pose proof (HSv _ Hx) as Hv. destruct x as [l b]. apply wp_mp_on_list. cbn [fst snd] in *.
  apply (wp_rings_append g G A St h HSv HSi Ah HSh (mp_dl p) F (hf_rings _ _ _ Hh) HF); [apply Hv|done|done|by apply addr_word|by apply Hh|].
  intros m' HR' Hk. apply HQ. by eapply half_dl.
Qed.

Lemma wp_half_remove p U F x F1 F2 (Q : unit -> mempool -> Prop) :
  Half p U F -> (forall l b, b ∈ F l -> St (l, b)) -> F x.1 = F1 ++ x.2 :: F2 ->
  (forall p', Half p' U (set_list F x.1 (F1 ++ F2)) -> Q tt p') -> wp (mp_on_list (sys_dlist_remove (addr g x))) Q p.
Proof.
  intros Hh HF E HQ. destruct x as [l b]. cbn [fst snd] in *. apply wp_mp_on_list.
  assert (Hv : valid g (l, b)) by (apply HSv, HF; rewrite E; set_solver).
  apply (wp_rings_remove g G A St h HSv HSi Ah HSh (mp_dl p) F (hf_rings _ _ _ Hh) HF l b F1 F2); [apply Hv|done|].
  intros m' HR' Hk. apply HQ. by eapply half_dl.
Qed.

End Lists.

Lemma wp_size_at lsizes i v p (Q : Z -> mempool -> Prop) : 0 <= i -> lsizes !! Z.to_nat i = Some v -> Q v p -> wp (size_at lsizes i) Q p.
Proof. intros Hi E HQ. unfold size_at. rewrite (proj2 (Z.ltb_ge _ _)) by lia. by eapply wp_ofopt. Qed.

Lemma child_addr l b i : valid g (l, b) -> l + 1 < mp_n_levels g -> lsz g (l + 1) * i + addr g (l, b) = addr g (l + 1, 4 * b + i).
Proof. intros [Hl _] Hn. cbn in Hl. unfold addr. cbn. rewrite (lsz_step g G l 1) by lia. change (4 ^ 1) with 4. lia. Qed.

Lemma wp_append_child (St : blk -> Prop) p U F l b i (Q : unit -> mempool -> Prop) :
  (forall x, St x -> valid g x) -> (forall x y, St x -> St y -> addr g x = addr g y -> x = y) -> (forall x, St x -> h !! addr g x = None) ->
  Half p U F -> (forall l b, b ∈ F l -> St (l, b)) -> valid g (l, b) -> l + 1 < mp_n_levels g -> St (l + 1, 4 * b + i) -> 4 * b + i ∉ F (l + 1) ->
  (forall p', Half p' U (set_list F (l + 1) (F (l + 1) ++ [4 * b + i])) -> Q tt p') -> wp (append_child (addr g (l, b)) l (lsz g (l + 1)) i) Q p.
Proof.
  intros HSv HSi HSh Hh HF Hv Hn Hs Hni HQ. unfold append_child. destruct Hv as [Hl Hb]. cbn [fst snd] in *.
  apply wp_bind, (wp_level_at g G); [apply Hh|lia|]. intros w _. cbn [lvl_free_list].
  rewrite child_addr by (done || lia). pose proof (addr_word g G _ (HSv _ Hs)). rewrite u32_small by lia.
  by apply (wp_half_append St HSv HSi HSh p U F (l + 1, 4 * b + i)).
Qed.

Lemma break_covered Al l b : valid g (l, b) -> l + 1 < mp_n_levels g -> covered g h Al -> covered g h (broken_al Al l b).
Proof.
  intros Hv Hn Hc a Ha. destruct (Hc a Ha) as (x & Hx & ->). unfold broken_al. setoid_rewrite elem_of_union. setoid_rewrite elem_of_difference. setoid_rewrite elem_of_singleton.
  destruct (decide (x = (l, b))) as [->|]; [|exists x; tauto]. exists (l + 1, 4 * b). split; [by left|].
  pose proof (child_addr l b 0 Hv Hn) as E. rewrite Z.mul_0_r, Z.add_0_l in E. rewrite E. do 2 f_equal. lia.
Qed.

Lemma wp_block_break p Sp Al l b lsizes (Q : Z -> mempool -> Prop) :
  Pool g h p Sp Al -> (l, b) ∈ Al -> l + 1 < mp_n_levels g -> lsizes !! Z.to_nat l = Some (lsz g l) -> lsizes !! Z.to_nat (l + 1) = Some (lsz g (l + 1)) ->
  (forall p', Pool g h p' (broken_sp Sp l b) (broken_al Al l b) -> Q (addr g (l, b)) p') -> wp (block_break (addr g (l, b)) l lsizes) Q p.
Proof.
  intros HP Hin Hn E0 E1 HQ. pose proof (po_shape _ _ _ _ _ HP) as S. pose proof (break_valid Sp Al l b S Hin Hn) as Hv. pose proof Hv as [Hl Hb]. cbn [fst snd] in Hl.
  destruct (pool_half _ _ _ HP) as (F & Hh & HF). pose proof (break_shape Sp Al l b S Hin Hn) as S'.
  pose proof (break_covered Al l b Hv Hn (po_covered _ _ _ _ _ HP)) as Hcv'. destruct (free_facts _ _ S' Hcv') as (Hsv & Hsi & Hsh).
  unfold block_break. apply wp_bind. eapply wp_size_at; [lia|exact E0|]. apply wp_bind. apply (wp_block_num _ (l, b)); [apply HP|done|]. cbn [snd].
  assert (Hcv : forall i, 0 <= i < 4 -> valid g (l + 1, 4 * b + i)) by (intros i Hi; by apply child_valid).
  apply wp_bind. pose proof (Hcv 0 ltac:(lia)) as Hc0. replace (4 * b + 0) with (4 * b) in Hc0 by lia.
  apply (wp_set_alloc_bit g G Ly p (Sp ∪ Al) (l + 1, 4 * b)); [apply HP|apply HP|done|]. intros p1 Hs1 Ed1 HB1.
  assert (Hh1 : Half p1 (broken_sp Sp l b ∪ broken_al Al l b) F).
  { split; [done| |intros x Hx; rewrite Ed1; by apply Hh|rewrite Ed1; apply Hh|rewrite Ed1; apply Hh]. eapply bits_ext; [|exact HB1]. intros x. unfold broken_sp, broken_al.
    rewrite !elem_of_union, elem_of_difference, !elem_of_singleton. destruct (decide (x = (l, b))) as [->|]; tauto. }
  assert (Hold : forall l' b', b' ∈ F l' -> is_free g (broken_sp Sp l b) (broken_al Al l b) (l', b')).
  { intros l' b' Hb'. apply break_free; [done|done|done|]. left. by apply HF. }
  assert (Hchild : forall i, 1 <= i < 4 -> is_free g (broken_sp Sp l b) (broken_al Al l b) (l + 1, 4 * b + i) /\ 4 * b + i ∉ F (l + 1)).
  { intros i Hi. split; [apply break_free; [done|done|done|]; right; eauto|]. intros Hb'. apply HF in Hb' as (_ & Hb' & Hu). rewrite up_child in Hu by lia.
    destruct Hu as [Hu|[_ Hu]]; [cbn in Hu; lia|]. apply (sh_disj _ _ _ S (l, b)); done. }
  destruct (Hchild 1 ltac:(lia)) as [S1 N1], (Hchild 2 ltac:(lia)) as [S2 N2], (Hchild 3 ltac:(lia)) as [S3 N3].
  set (St := is_free g (broken_sp Sp l b) (broken_al Al l b)) in *.
  assert (Hadd : forall (F0 : Z -> list Z) i, (forall l b, b ∈ F0 l -> St (l, b)) -> St (l + 1, 4 * b + i) -> forall l' b', b' ∈ set_list F0 (l + 1) (F0 (l + 1) ++ [4 * b + i]) l' -> St (l', b')).
  { intros F0 i HF0 Hi l' b'. unfold set_list. destruct (Z.eqb_spec l' (l + 1)) as [->|]; [|apply HF0]. rewrite elem_of_app, list_elem_of_singleton. intros [Hb'| ->]; [by apply HF0|done]. }
  apply wp_bind. eapply wp_size_at; [lia|exact E1|]. apply wp_bind. eapply (wp_append_child St); [done|done|done|exact Hh1|exact Hold|done|lia|done|done|]. intros p2 Hh2.
  apply wp_bind. eapply wp_size_at; [lia|exact E1|]. apply wp_bind. eapply (wp_append_child St); [done|done|done|exact Hh2|by apply Hadd|done|lia|done| |].
  { rewrite set_list_eq, elem_of_app, list_elem_of_singleton. intros [?|?]; [done|lia]. }
  intros p3 Hh3. apply wp_bind. eapply wp_size_at; [lia|exact E1|]. apply wp_bind. eapply (wp_append_child St); [done|done|done|exact Hh3|apply Hadd; [by apply Hadd|done]|done|lia|done| |].
  { rewrite !set_list_eq, !elem_of_app, !list_elem_of_singleton. intros [[?|?]|?]; [done|lia|lia]. }
  intros p4 Hh4. apply wp_ret. apply HQ. eapply half_pool; [exact Hh4|done|done|]. intros l' b'. rewrite break_free by done. rewrite <-HF. rewrite !set_list_eq.
  unfold set_list. destruct (Z.eqb_spec l' (l + 1)) as [->|Hne].
  - rewrite !elem_of_app, !list_elem_of_singleton. split.
    + intros [[[?|?]|?]|?]; [by left| | |]; right; [exists 1|exists 2|exists 3]; (split; [lia|f_equal; lia]).
    + intros [?|(i & Hi & [= ?])]; [tauto|]. assert (i = 1 \/ i = 2 \/ i = 3) as [->|[->| ->]] by lia; tauto.
  - split; [by left|]. intros [?|(i & _ & [= ? ?])]; done.
Qed.

(** ** Choosing a level *)

(** [l] is the deepest level whose blocks hold [size] bytes, -1 when there is none. *)
Definition fits (size l : Z) : Prop :=
  -1 <= l < mp_n_levels g /\ (0 <= l -> size <= lsz g l) /\ (l + 1 < mp_n_levels g -> lsz g (l + 1) < size).
Definition sizes_ok (lsizes : list Z) (l : Z) : Prop := forall k, 0 <= k <= l -> lsizes !! Z.to_nat k = Some (lsz g k).

Lemma level_scan_spec size n : forall i prev acc, Z.of_nat n = mp_n_levels g - i -> 0 <= i -> length acc = Z.to_nat i -> sizes_ok acc (i - 1) ->
  prev = (if 0 <? i then lsz g (i - 1) else mp_max_sz g) -> (0 < i -> size <= lsz g (i - 1)) ->
  forall lsizes al, level_scan n i prev size acc (i - 1) = (lsizes, al) -> fits size al /\ sizes_ok lsizes al.
Proof.
  induction n as [|n IH]; intros i prev acc Hn Hi Hlen Hacc Hprev Hsz lsizes al E; cbn in E.
  - injection E as <- <-. pose proof (g_levels _ G). split; [|done]. split; [lia|]. split; [intros; apply Hsz; lia|intros; lia].
  - assert (Ei : (if 0 <? i then WB_DN (prev / 4) else prev) = lsz g i).
    { destruct (Z.ltb_spec 0 i); subst prev; [|replace i with 0 by lia; by rewrite lsz_0].
      replace i with (i - 1 + 1) at 2 by lia. apply (lsz_next g G); lia. }
    rewrite Ei in E. assert (Hacc' : sizes_ok (acc ++ [lsz g i]) i).
    { intros k Hk. destruct (decide (k = i)) as [->|]; [rewrite lookup_app_r by lia; by rewrite Hlen, Nat.sub_diag|].
      rewrite lookup_app_l by lia. apply Hacc. lia. }
    destruct (Z.ltb_spec (lsz g i) size) as [Hlt|Hge].
    + injection E as <- <-. split; [|intros k Hk; apply Hacc'; lia]. split; [lia|]. split; [intros; apply Hsz; lia|]. intros _. by replace (i - 1 + 1) with i by lia.
    + replace i with (i + 1 - 1) in E at 4 by lia. eapply (IH (i + 1) (lsz g i) (acc ++ [lsz g i])); [lia|lia|rewrite length_app, Hlen; cbn [length]; lia| | | |exact E].
      * by replace (i + 1 - 1) with i by lia.
      * rewrite (proj2 (Z.ltb_lt _ _)) by lia. by replace (i + 1 - 1) with i by lia.
      * intros _. by replace (i + 1 - 1) with i by lia.
Qed.

(** ** Allocation *)

(** Taking a block of level [l], broken down to level [l + n]. *)
Record Taken (p : mempool) (Sp Al0 : gset blk) (x : blk) : Prop := {
  tk_pool : Pool g h p Sp ({[x]} ∪ Al0);
  tk_tight : Tight Sp ({[x]} ∪ Al0);
  tk_new : x ∉ Al0;
}.

Lemma tight_take Sp Al x : Tight Sp Al -> Tight Sp ({[x]} ∪ Al).
Proof. intros HT y Hy. destruct (HT y Hy) as (z & Hz & H0 & E). exists z. split; [|done]. rewrite !elem_of_union in *. tauto. Qed.

Lemma taken_break p Sp Al0 l b : Taken p Sp Al0 (l, b) -> l + 1 < mp_n_levels g ->
  forall p', Pool g h p' (broken_sp Sp l b) (broken_al ({[(l, b)]} ∪ Al0) l b) -> Taken p' (broken_sp Sp l b) Al0 (l + 1, 4 * b).
Proof.
  intros [HP HT Hnew] Hn p' HP'. pose proof (po_shape _ _ _ _ _ HP) as S. assert (Hin : (l, b) ∈ {[(l, b)]} ∪ Al0) by (apply elem_of_union; left; by apply elem_of_singleton).
  pose proof (child_unused _ _ _ _ S Hin Hn 0 ltac:(lia)) as Hc. replace (4 * b + 0) with (4 * b) in Hc by lia. destruct (break_valid _ _ _ _ S Hin Hn) as [Hl _]. cbn in Hl.
  rewrite !elem_of_union in Hc. assert (E : broken_al ({[(l, b)]} ∪ Al0) l b = {[(l + 1, 4 * b)]} ∪ Al0).
  { unfold broken_al. apply set_eq. intros y. rewrite !elem_of_union, elem_of_difference, elem_of_union, !elem_of_singleton. destruct (decide (y = (l, b))) as [->|]; [|tauto].
    split; [intros [?|[_ []]]; [by left|done]|intros [?|?]; [by left|done]]. }
  rewrite E in HP'. split; [done| |tauto]. intros y. unfold broken_sp. rewrite elem_of_union, elem_of_singleton. intros [->|Hy].
  - exists (l + 1, 4 * b). split; [rewrite !elem_of_union, !elem_of_singleton; tauto|]. split; [cbn; lia|].
    pose proof (up_child l b 0 ltac:(lia)) as Eu. by replace (4 * b + 0) with (4 * b) in Eu by lia.
  - destruct (HT y Hy) as (z & Hz & H0 & Eu). exists z. split; [|done]. rewrite !elem_of_union, !elem_of_singleton in *. destruct (decide (z = (l, b))) as [->|]; tauto.
Qed.

Lemma wp_break_loop lsizes n : forall p Sp Al0 l b (Q : Z -> mempool -> Prop),
  Taken p Sp Al0 (l, b) -> l + Z.of_nat n < mp_n_levels g -> 0 <= l -> sizes_ok lsizes (l + Z.of_nat n) ->
  (forall p' Sp' b', Taken p' Sp' Al0 (l + Z.of_nat n, b') -> Q (addr g (l + Z.of_nat n, b')) p') -> wp (break_loop n l (addr g (l, b)) lsizes) Q p.
Proof.
  induction n as [|n IH]; intros p Sp Al0 l b Q HT Hn Hl Hsz HQ; cbn [break_loop].
  - apply wp_ret. replace (l + Z.of_nat 0) with l in HQ by lia. by eapply HQ.
  - apply wp_bind. eapply wp_block_break; [apply HT|apply elem_of_union; left; by apply elem_of_singleton|lia|apply Hsz; lia|apply Hsz; lia|].
    intros p' HP'. pose proof (taken_break _ _ _ _ _ HT ltac:(lia) p' HP') as HT'.
    pose proof (child_addr l b 0) as Ea. replace (lsz g (l + 1) * 0 + addr g (l, b)) with (addr g (l, b)) in Ea by lia. rewrite Ea; [|apply (sh_valid _ _ _ (po_shape _ _ _ _ _ (tk_pool _ _ _ _ HT))); set_solver|lia].
    replace (4 * b + 0) with (4 * b) by lia. eapply IH; [exact HT'|lia|lia|by replace (l + 1 + Z.of_nat n) with (l + Z.of_nat (S n)) by lia|].
    intros p'' Sp' b' HT''. replace (l + 1 + Z.of_nat n) with (l + Z.of_nat (S n)) in * by lia. by eapply HQ.
Qed.

Lemma wp_find_block lsizes al n : forall p Sp Al i (Q : Z -> mempool -> Prop),
  Pool g h p Sp Al -> Tight Sp Al -> n = Z.to_nat (i + 1) -> -1 <= i <= al -> al < mp_n_levels g -> sizes_ok lsizes al ->
  ((forall l b, 0 <= l <= i -> ~ is_free g Sp Al (l, b)) -> Q 0 p) ->
  (forall p' Sp' b, Taken p' Sp' Al (al, b) -> Q (addr g (al, b)) p') -> wp (find_block n i al lsizes) Q p.
Proof.
  induction n as [|n IH]; intros p Sp Al i Q HP HT En Hi Hal Hsz HQ0 HQ1; cbn [find_block].
  - apply wp_ret. apply HQ0. intros l b Hl. lia.
  - apply wp_bind. eapply wp_size_at; [lia|apply Hsz; lia|]. apply wp_bind. eapply wp_block_alloc; [exact HP|lia| |].
    + intros Hnone. cbn [Z.eqb negb]. eapply IH; [exact HP|done|lia|lia|done|done| |done]. intros Hnone'. apply HQ0. intros l b Hl.
      destruct (decide (l = i)) as [->|]; [apply Hnone|apply Hnone'; lia].
    + intros b p' Hfree HP'. pose proof (addr_word g G _ (proj1 Hfree)). rewrite (proj2 (Z.eqb_neq _ _)) by lia. cbn [negb].
      assert (HTk : Taken p' Sp Al (i, b)) by (split; [done|by apply tight_take|destruct Hfree as (_ & Hn & _); set_solver]).
      eapply wp_break_loop; [exact HTk|lia|lia|by replace (i + Z.of_nat (Z.to_nat (al - i))) with al by lia|].
      intros p'' Sp' b' HTk'. replace (i + Z.of_nat (Z.to_nat (al - i))) with al in * by lia. by eapply HQ1.
Qed.

Lemma wp_pool_alloc p Sp Al size (Q : Z * Z * Z * Z -> mempool -> Prop) :
  Pool g h p Sp Al -> Tight Sp Al ->
  (forall al, fits size al -> (forall l b, 0 <= l <= al -> ~ is_free g Sp Al (l, b)) -> Q (- ENOMEM, 0, 0, 0) p) ->
  (forall p' Sp' al b, fits size al -> 0 <= al -> Taken p' Sp' Al (al, b) -> Q (0, al, b, addr g (al, b)) p') ->
  wp (sys_mem_pool_block_alloc size) Q p.
Proof.
  intros HP HT HQ0 HQ1. pose proof (po_same _ _ _ _ _ HP) as Hs. pose proof (g_levels _ G) as HL. unfold sys_mem_pool_block_alloc. apply wp_bind, wp_get.
  rewrite (sg_levels _ _ Hs), (sg_max _ _ Hs). destruct (level_scan _ _ _ _ _ _) as [lsizes al] eqn:E.
  destruct (level_scan_spec size (Z.to_nat (mp_n_levels g)) 0 (mp_max_sz g) [] ltac:(lia) ltac:(lia) eq_refl ltac:(intros k Hk; lia) eq_refl ltac:(lia) _ _ E) as [Hfit Hsz].
  pose proof Hfit as (Hr & _ & _). destruct (Z.ltb_spec al 0) as [Hneg|Hpos].
  - apply wp_ret. apply (HQ0 al Hfit). intros l b Hl. lia.
  - apply wp_bind. eapply (wp_find_block lsizes al); [exact HP|done|done|lia|lia|done| |].
    + intros Hnone. cbn [Z.eqb]. apply wp_ret. by apply (HQ0 al).
    + intros p' Sp' b HTk. assert (Hv : valid g (al, b)) by (apply (sh_valid _ _ _ (po_shape _ _ _ _ _ (tk_pool _ _ _ _ HTk))); set_solver).
      pose proof (addr_word g G _ Hv). rewrite (proj2 (Z.eqb_neq _ _)) by lia. apply wp_bind. eapply wp_size_at; [lia|apply Hsz; lia|].
      apply wp_bind. apply (wp_block_num p' (al, b)); [apply HTk|done|]. apply wp_ret. by eapply HQ1.
Qed.

(** ** Release *)

Lemma size_table_ok level : 0 <= level < mp_n_levels g -> sizes_ok (mp_max_sz g :: size_table (Z.to_nat level) (mp_max_sz g)) level.
Proof.
  intros Hl. assert (Hgen : forall n l, 0 <= l -> l + Z.of_nat n < mp_n_levels g -> forall k, (k < n)%nat -> size_table n (lsz g l) !! k = Some (lsz g (l + 1 + Z.of_nat k))).
  { induction n as [|n IH]; intros l H0 Hn k Hk; [lia|]. cbn [size_table]. rewrite (lsz_next g G) by lia. destruct k as [|k]; cbn [lookup list_lookup]; [do 2 f_equal; lia|].
    change (size_table n (lsz g (l + 1)) !! k = Some (lsz g (l + 1 + Z.of_nat (S k)))). rewrite IH by lia. do 2 f_equal. lia. }
  intros k Hk. destruct (decide (k = 0)) as [->|]; [cbn; by rewrite lsz_0|]. replace (Z.to_nat k) with (S (Z.to_nat (k - 1))) by lia.
  change ((size_table (Z.to_nat level) (mp_max_sz g)) !! Z.to_nat (k - 1) = Some (lsz g k)). rewrite <-(lsz_0 g). rewrite Hgen by lia. do 2 f_equal. lia.
Qed.

(** The parts of a block all free: the block is whole again. *)
Section Merge.
Context (Sp Al : gset blk) (u : blk).
Hypothesis (S : Shape g Sp Al) (Hu : u ∈ Sp) (Hfree : forall y, y ∈ Sp ∪ Al -> 0 < y.1 -> up y <> u).

Lemma merge_shape : Shape g (Sp ∖ {[u]}) ({[u]} ∪ Al).
Proof.
  pose proof (sh_disj _ _ _ S) as Hd. rewrite elem_of_disjoint in Hd.
  assert (Hin : forall y, y ∈ Sp ∖ {[u]} ∪ ({[u]} ∪ Al) -> y ∈ Sp ∪ Al).
  { intros y. rewrite !elem_of_union, elem_of_difference, !elem_of_singleton. intros [[? ?]|[->|?]]; tauto. }
  split.
  - intros y Hy. by apply (sh_valid _ _ _ S), Hin.
  - intros y. rewrite elem_of_difference. intros [Hy _]. by apply (sh_deep _ _ _ S).
  - apply elem_of_disjoint. intros y. rewrite elem_of_difference, elem_of_union, elem_of_singleton. intros [Hy Hne] [?|Hy']; [done|by apply (Hd y)].
  - intros y Hy H0. apply Hin in Hy. rewrite elem_of_difference, elem_of_singleton. split; [by apply (sh_up _ _ _ S)|by apply Hfree].
Qed.

Lemma merge_free y : is_free g (Sp ∖ {[u]}) ({[u]} ∪ Al) y <-> is_free g Sp Al y /\ (y.1 = 0 \/ up y <> u).
Proof.
  unfold is_free. rewrite !elem_of_union, !elem_of_difference, !elem_of_singleton. destruct (decide (y = u)) as [->|].
  - split; [intros (_ & [] & _); tauto|]. intros [(_ & [] & _) _]. tauto.
  - split; [|intros ((? & ? & ?) & ?); split; [done|]; split; [tauto|]; destruct (decide (y.1 = 0)); [by left|right; split; [tauto|]; split; tauto]].
    intros (? & ? & [?|(? & ? & ?)]); split; try tauto. 
Qed.

End Merge.

Lemma wp_remove_partner (St : blk -> Prop) p U F l b i (Q : unit -> mempool -> Prop) :
  (forall x, St x -> valid g x) -> (forall x y, St x -> St y -> addr g x = addr g y -> x = y) -> (forall x, St x -> h !! addr g x = None) ->
  Half p U F -> (forall l b, b ∈ F l -> St (l, b)) -> 0 <= b -> 0 <= i < 4 -> 4 * (b / 4) + i ∈ F l ->
  (forall p' F', Half p' U F' -> (forall l' b', b' ∈ F' l' <-> b' ∈ F l' /\ (l', b') <> (l, 4 * (b / 4) + i)) -> Q tt p') ->
  wp (remove_partner (lsz g l) b i) Q p.
Proof.
  intros HSv HSi HSh Hh HF Hb Hi Hin HQ. pose proof (HSv _ (HF _ _ Hin)) as Hv. unfold remove_partner.
  replace (Z.land b (-4)) with (4 * (b / 4)).
  2: { change (-4) with (Z.lnot (Z.ones 2)). rewrite <-Z.ldiff_land, Z.ldiff_ones_r by lia. rewrite Z.shiftl_mul_pow2, Z.shiftr_div_pow2 by lia. change (2 ^ 2) with 4. lia. }
  apply wp_bind. apply (wp_block_ptr p (l, 4 * (b / 4) + i)); [apply Hh|done|]. apply list_elem_of_split in Hin as Hsplit. destruct Hsplit as (F1 & F2 & E).
  eapply (wp_half_remove St HSv HSi HSh p U F (l, 4 * (b / 4) + i) F1 F2); [done|done|exact E|]. cbn [fst snd]. intros p' Hh'. eapply HQ; [exact Hh'|].
  pose proof (rings_nodup g (mp_dl p) F (hf_rings _ _ _ Hh) l (proj1 Hv)) as Hnd. rewrite E in Hnd. rewrite NoDup_app, NoDup_cons in Hnd. destruct Hnd as (_ & Hd & Hn & _).
  intros l' b'. unfold set_list. destruct (Z.eqb_spec l' l) as [->|Hne]; [|split; [intros; split; [done|congruence]|by intros []]].
  rewrite E, !elem_of_app, elem_of_cons. split.
  - intros Hb'. split; [tauto|]. intros [= ->]. destruct Hb' as [Hb'|Hb']; [apply (Hd _ Hb'); apply elem_of_cons; by left|done].
  - intros [Hb' Hne]. destruct Hb' as [|[->|]]; [tauto|done|tauto].
Qed.

(** Giving a block back. *)
Section Return.
Context (Sp Al : gset blk) (x : blk).
Hypothesis (S : Shape g Sp Al) (Hx : x ∈ Al).

Lemma return_valid : valid g x.
Proof. apply (sh_valid _ _ _ S). apply elem_of_union. by right. Qed.

Lemma return_shape : Shape g Sp (Al ∖ {[x]}).
Proof.
  split.
  - intros y. rewrite elem_of_union, elem_of_difference. intros Hy. apply (sh_valid _ _ _ S), elem_of_union. tauto.
  - apply (sh_deep _ _ _ S).
  - pose proof (sh_disj _ _ _ S). set_solver.
  - intros y. rewrite elem_of_union, elem_of_difference. intros Hy. apply (sh_up _ _ _ S), elem_of_union. tauto.
Qed.

Lemma return_free y : is_free g Sp (Al ∖ {[x]}) y <-> is_free g Sp Al y \/ y = x.
Proof.
  pose proof (sh_disj _ _ _ S) as Hd. rewrite elem_of_disjoint in Hd. unfold is_free. rewrite !elem_of_union, elem_of_difference, elem_of_singleton. split.
  - intros (Hv & Hn & Hu). destruct (decide (y = x)); [by right|left]. tauto.
  - intros [(Hv & Hn & Hu)| ->]; [split; [done|]; split; tauto|]. split; [apply return_valid|]. split; [intros [?|[_ []]]; [by apply (Hd x)|done]|].
    destruct (decide (x.1 = 0)); [by left|right]. destruct return_valid as [Hl _]. split; [lia|]. apply (sh_up _ _ _ S); [apply elem_of_union; by right|lia].
Qed.

Lemma return_tight : Tight Sp Al -> (x.1 = 0 \/ exists y, y ∈ Sp ∪ Al ∖ {[x]} /\ 0 < y.1 /\ up y = up x) -> Tight Sp (Al ∖ {[x]}).
Proof.
  intros HT Hp z Hz. destruct (HT z Hz) as (y & Hy & H0 & E). destruct (decide (y = x)) as [->|Hne].
  - destruct Hp as [?|(y' & Hy' & H0' & E')]; [lia|]. exists y'. split; [done|]. split; [done|]. by rewrite E', E.
  - exists y. rewrite elem_of_union, elem_of_difference, elem_of_singleton. rewrite elem_of_union in Hy. tauto.
Qed.

End Return.

Lemma wp_return `{Config} p Sp Al l b (rest : MP unit) (Q : unit -> mempool -> Prop) :
  Pool g h p Sp Al -> (l, b) ∈ Al -> covered g h (Al ∖ {[(l, b)]}) -> (forall p', Pool g h p' Sp (Al ∖ {[(l, b)]}) -> wp rest Q p') ->
  wp (block ← block_ptr (lsz g l) b; assert_m (alloc_bit_is_set l b);; clear_alloc_bit l b;; lv ← level_at l;
      mp_on_list (sys_dlist_append (lvl_free_list lv) block);; rest) Q p.
Proof.
  intros HP Hin Hcv HQ. pose proof (po_shape _ _ _ _ _ HP) as S. pose proof (return_valid Sp Al (l, b) S Hin) as Hv. pose proof (return_shape Sp Al (l, b) S Hin) as S'.
  destruct (pool_half _ _ _ HP) as (F & Hh & HF). destruct (free_facts _ _ S' Hcv) as (Hsv & Hsi & Hsh).
  apply wp_bind, (wp_block_ptr p (l, b)); [apply HP|done|]. apply wp_bind, wp_assert_m.
  { intros _. eapply (wp_alloc_bit_is_set g G Ly p _ (l, b)); [apply HP|apply HP|done|]. split; [|done]. apply bool_decide_true. apply elem_of_union. by right. }
  apply wp_bind. apply (wp_clear_alloc_bit g G Ly p (Sp ∪ Al) (l, b)); [apply HP|apply HP|done|]. intros p1 Hs1 Ed1 HB1.
  apply wp_bind, (wp_level_at g G); [done|apply Hv|]. intros w _. cbn [lvl_free_list].
  assert (Hh1 : Half p1 (Sp ∪ Al ∖ {[(l, b)]}) F).
  { split; [done| |intros x Hx; rewrite Ed1; by apply Hh|rewrite Ed1; apply Hh|rewrite Ed1; apply Hh]. eapply bits_ext; [|exact HB1]. intros x. pose proof (sh_disj _ _ _ S) as Hd. rewrite elem_of_disjoint in Hd.
    rewrite elem_of_union, !elem_of_difference, elem_of_union, elem_of_singleton. destruct (decide (x = (l, b))) as [->|]; [|tauto]. specialize (Hd (l, b)). tauto. }
  apply wp_bind. eapply (wp_half_append (is_free g Sp (Al ∖ {[(l, b)]})) Hsv Hsi Hsh p1 _ F (l, b)); [exact Hh1| | | |].
  - intros l' b' Hb'. apply return_free; [done|done|]. left. by apply HF.
  - apply return_free; [done|done|]. by right.
  - cbn. rewrite HF. intros (_ & Hn & _). apply Hn, elem_of_union. by right.
  - cbn [fst snd]. intros p2 Hh2. apply HQ. eapply half_pool; [exact Hh2|done|done|]. intros l' b'. rewrite return_free by done. rewrite <-HF. unfold set_list.
    destruct (Z.eqb_spec l' l) as [->|Hne]; [rewrite elem_of_app, list_elem_of_singleton; split; (intros [?|E]; [by left|right; congruence])|].
    split; [by left|]. intros [?|E]; [done|congruence].
Qed.

(** Unlinking the four parts of [u], which is then handed out as a whole. *)
Lemma wp_merge p Sp Al l b (rest : MP unit) (Q : unit -> mempool -> Prop) :
  Pool g h p Sp Al -> valid g (l, b) -> 0 < l -> (l - 1, b / 4) ∈ Sp -> (forall i, 0 <= i < 4 -> (l, 4 * (b / 4) + i) ∉ Sp ∪ Al) ->
  (forall p', Pool g h p' (Sp ∖ {[(l - 1, b / 4)]}) ({[(l - 1, b / 4)]} ∪ Al) -> wp rest Q p') ->
  wp (remove_partner (lsz g l) b 0;; remove_partner (lsz g l) b 1;; remove_partner (lsz g l) b 2;; remove_partner (lsz g l) b 3;; rest) Q p.
Proof.
  intros HP Hv H0 Hu Hfree HQ. pose proof (po_shape _ _ _ _ _ HP) as S. destruct (pool_half _ _ _ HP) as (F & Hh & HF). destruct (free_facts _ _ S (po_covered _ _ _ _ _ HP)) as (Hsv & Hsi & Hsh).
  set (u := (l - 1, b / 4)) in *. set (q := b / 4) in *. destruct Hv as [Hl Hb]. cbn [fst snd] in *.
  assert (Hpart : forall i, 0 <= i < 4 -> up (l, 4 * q + i) = u) by (intros i Hi; replace l with (l - 1 + 1) at 1 by lia; by apply up_child).
  assert (Huv : valid g u) by (apply (sh_valid _ _ _ S), elem_of_union; by left).
  assert (Hin : forall i, 0 <= i < 4 -> 4 * q + i ∈ F l).
  { intros i Hi. apply HF. split; [|split; [by apply Hfree|right; cbn; split; [lia|by rewrite Hpart]]]. replace l with (l - 1 + 1) by lia. apply child_valid; [done|lia|done]. }
  assert (HSt : forall l b, b ∈ F l -> is_free g Sp Al (l, b)) by (intros l' b' Hb'; by apply HF).
  assert (Hne : forall i j, i <> j -> (l, 4 * q + i) <> (l, 4 * q + j)) by (intros i j Hij [= E]; lia).
  assert (Hb0 : 0 <= b) by lia.
  apply wp_bind. eapply (wp_remove_partner _ p _ F l b 0 _ Hsv Hsi Hsh Hh HSt); [done|lia|apply Hin; lia|]. intros p1 F1 Hh1 HF1. fold q in HF1.
  apply wp_bind. eapply (wp_remove_partner _ p1 _ F1 l b 1 _ Hsv Hsi Hsh Hh1); [intros l' b' [Hb' _]%HF1; by apply HSt|done|lia|apply HF1; split; [apply Hin; lia|apply Hne; lia]|]. intros p2 F2 Hh2 HF2. fold q in HF2.
  apply wp_bind. eapply (wp_remove_partner _ p2 _ F2 l b 2 _ Hsv Hsi Hsh Hh2); [intros l' b' [[Hb' _]%HF1 _]%HF2; by apply HSt|done|lia|rewrite HF2, HF1; split; [split; [apply Hin; lia|apply Hne; lia]|apply Hne; lia]|].
  intros p3 F3 Hh3 HF3. fold q in HF3.
  apply wp_bind. eapply (wp_remove_partner _ p3 _ F3 l b 3 _ Hsv Hsi Hsh Hh3); [intros l' b' [[[Hb' _]%HF1 _]%HF2 _]%HF3; by apply HSt|done|lia|rewrite HF3, HF2, HF1; split; [split; [split; [apply Hin; lia|apply Hne; lia]|apply Hne; lia]|apply Hne; lia]|].
  intros p4 F4 Hh4 HF4. fold q in HF4. apply HQ.
  assert (Hno : forall y, y ∈ Sp ∪ Al -> 0 < y.1 -> up y <> u).
  { intros [ly by'] Hy Hy0 E. unfold up in E. cbn in *. injection E as E1 E2. apply (Hfree (by' mod 4)); [apply Z.mod_pos_bound; lia|].
    pose proof (Z.div_mod by' 4 ltac:(lia)). replace l with ly by lia. replace (4 * q + by' mod 4) with by' by lia. done. }
  eapply half_pool; [|by apply merge_shape|eapply covered_mono; [apply HP|intros y Hy; apply elem_of_union; by right]|].
  - destruct Hh4 as [? HB ? ? ?]. split; try done. eapply bits_ext; [|exact HB]. intros y. rewrite !elem_of_union, elem_of_difference, !elem_of_singleton.
    destruct (decide (y = u)) as [->|]; tauto.
  - intros l' b'. rewrite merge_free by done. rewrite HF4, HF3, HF2, HF1, HF. split.
    + intros ((((Hf & N0) & N1) & N2) & N3). split; [done|]. destruct (decide (l' = 0)) as [|Hl0]; [by left|right]. unfold up. cbn. intros [= E1 E2].
      pose proof (Z.div_mod b' 4 ltac:(lia)) as Eb. pose proof (Z.mod_pos_bound b' 4 ltac:(lia)) as Hm. fold q in E2. rewrite E2 in Eb. replace l' with l in * by lia.
      assert (b' mod 4 = 0 \/ b' mod 4 = 1 \/ b' mod 4 = 2 \/ b' mod 4 = 3) as [E|[E|[E|E]]] by lia; rewrite E in Eb; [apply N0|apply N1|apply N2|apply N3]; f_equal; lia.
    + intros [Hf Hu']. assert (Hx : forall i, 0 <= i < 4 -> (l', b') <> (l, 4 * q + i)).
      { intros i Hi E. destruct Hu' as [Hu'|Hu']; [cbn in Hu'; injection E; lia|]. apply Hu'. rewrite E. by apply Hpart. }
      pose proof (Hx 0 ltac:(lia)). pose proof (Hx 1 ltac:(lia)). pose proof (Hx 2 ltac:(lia)). pose proof (Hx 3 ltac:(lia)). tauto.
Qed.

Lemma wp_recombine `{Config} lsizes n : forall p Sp Al l b (Q : unit -> mempool -> Prop),
  Pool g h p Sp Al -> Tight Sp Al -> (l, b) ∈ Al -> covered g h (Al ∖ {[(l, b)]}) -> n = Z.to_nat (l + 1) -> sizes_ok lsizes l ->
  (forall p' Sp', Pool g h p' Sp' (Al ∖ {[(l, b)]}) -> Tight Sp' (Al ∖ {[(l, b)]}) -> Q tt p') -> wp (bfree_recombine n l lsizes b) Q p.
Proof.
  induction n as [|n IH]; intros p Sp Al l b Q HP HT Hin Hcv En Hsz HQ; pose proof (po_shape _ _ _ _ _ HP) as S;
    pose proof (return_valid Sp Al (l, b) S Hin) as Hv; pose proof Hv as [Hl Hb]; cbn [fst snd] in Hl, Hb; [lia|]. cbn [bfree_recombine].
  apply wp_bind. eapply wp_size_at; [lia|apply Hsz; lia|]. eapply wp_return; [exact HP|done|done|]. intros p1 HP1. pose proof (return_shape Sp Al (l, b) S Hin) as S1.
  apply wp_bind. destruct (Z.eqb_spec l 0) as [->|Hl0].
  - apply wp_ret. apply wp_skip. eapply HQ; [exact HP1|]. apply return_tight; [done|]. by left.
  - assert (Hu : (l - 1, b / 4) ∈ Sp) by (apply (sh_up _ _ _ S (l, b)); [apply elem_of_union; by right|cbn; lia]).
    assert (Hup : forall i, 0 <= i < 4 -> valid g (l, 4 * (b / 4) + i)).
    { intros i Hi. replace l with (l - 1 + 1) by lia. apply child_valid; [|lia|done]. apply (sh_valid _ _ _ S), elem_of_union. by left. }
    apply wp_bind. eapply (wp_partner_alloc_bits g G Ly p1); [apply HP1|apply HP1|done|done|]. intros v Ev. apply wp_ret.
    destruct (Z.eqb_spec v 0) as [Hz|Hnz]; cbn [negb].
    + pose proof (proj1 Ev Hz) as Hnone. eapply wp_merge; [exact HP1|done|lia|done|done|]. intros p2 HP2.
      rewrite Z.quot_div_nonneg by lia. assert (Hnew : (l - 1, b / 4) ∉ Al ∖ {[(l, b)]}).
      { pose proof (sh_disj _ _ _ S) as Hd. rewrite elem_of_disjoint in Hd. rewrite elem_of_difference. intros [Ha _]. by apply (Hd (l - 1, b / 4)). }
      assert (Eset : ({[(l - 1, b / 4)]} ∪ Al ∖ {[(l, b)]}) ∖ {[(l - 1, b / 4)]} = Al ∖ {[(l, b)]}) by set_solver.
      assert (HT2 : Tight (Sp ∖ {[(l - 1, b / 4)]}) ({[(l - 1, b / 4)]} ∪ Al ∖ {[(l, b)]})).
      { intros y. rewrite elem_of_difference, elem_of_singleton. intros [Hy Hne]. destruct (HT y Hy) as (z & Hz' & H0 & E). exists z. split; [|done].
        assert (z <> (l, b)) by (intros ->; apply Hne; rewrite <-E; done). rewrite !elem_of_union, !elem_of_difference, !elem_of_singleton. rewrite elem_of_union in Hz'.
        destruct (decide (z = (l - 1, b / 4))) as [->|]; tauto. }
      eapply IH; [exact HP2|exact HT2|apply elem_of_union; left; by apply elem_of_singleton|by rewrite Eset|lia|intros k Hk; apply Hsz; lia|]. rewrite Eset. intros p3 Sp3 HP3 HT3. by eapply HQ.
    + apply wp_skip. eapply HQ; [exact HP1|]. apply return_tight; [done|]. right.
      destruct (decide (Forall (fun i => (l, 4 * (b / 4) + i) ∉ Sp ∪ Al ∖ {[(l, b)]}) (seqZ 0 4))) as [Hall|Hex].
      * exfalso. apply Hnz, Ev. intros i Hi. rewrite Forall_forall in Hall. apply Hall, elem_of_seqZ. lia.
      * apply not_Forall_Exists in Hex; [|apply _]. apply Exists_exists in Hex as (i & Hi & Hin'). apply dec_stable in Hin'. apply elem_of_seqZ in Hi. exists (l, 4 * (b / 4) + i). split; [done|]. split; [cbn; lia|].
        unfold up. cbn. f_equal. rewrite Z.mul_comm, Z.div_add_l by lia. rewrite (Z.div_small i) by lia. lia.
Qed.

Lemma wp_pool_free `{Config} p Sp Al l b (Q : unit -> mempool -> Prop) :
  Pool g h p Sp Al -> Tight Sp Al -> (l, b) ∈ Al -> covered g h (Al ∖ {[(l, b)]}) ->
  (forall p' Sp', Pool g h p' Sp' (Al ∖ {[(l, b)]}) -> Tight Sp' (Al ∖ {[(l, b)]}) -> Q tt p') -> wp (sys_mem_pool_block_free l b) Q p.
Proof.
  intros HP HT Hin Hcv HQ. pose proof (po_same _ _ _ _ _ HP) as Hs. pose proof (return_valid Sp Al (l, b) (po_shape _ _ _ _ _ HP) Hin) as [Hl _]. cbn in Hl.
  unfold sys_mem_pool_block_free. apply wp_bind, wp_get. rewrite (sg_levels _ _ Hs), (sg_max _ _ Hs). rewrite (proj2 (Z.leb_gt _ _)) by lia.
  unfold block_free. eapply wp_recombine; [exact HP|done|done|done|done|by apply size_table_ok|done].
Qed.

End Steps.
