(* ===== verification/MemPoolInit.v ===== *)
(** * Memory pools: initialisation

    [Raw p]: zeroed static memory as the definition of a pool leaves it.  From there
    [sys_mem_pool_base_init] places the bit words of each level, either in the level itself
    or one after the other behind the buffer, and puts every block of the largest size on
    its list: the pool with nothing broken and nothing handed out. *)

From Stdlib Require Import ZArith Lia Bool List.
From stdpp Require Import base tactics numbers list gmap fin_sets.
From S2P Require Import Prelude DList DNode MemPool MemPoolFacts MemPoolTheorems.

Local Open Scope Z_scope.

(** ** Where the words of each level go *)

(** The first address behind the words of the levels below [n]. *)
Fixpoint words_at (p : mempool) (n : nat) : Z :=
  match n with
  | O => mp_buf p + mp_n_max p * mp_max_sz p
  | S n => words_at p n + (if nblocks p (Z.of_nat n) <=? 32 then 0 else 4 * nwords p (Z.of_nat n))
  end.

(** The last of the first [n] levels whose bits fit in one word. *)
Fixpoint last_inline (p : mempool) (n : nat) : Z :=
  match n with O => -1 | S n => if nblocks p (Z.of_nat n) <=? 32 then Z.of_nat n else last_inline p n end.

Record Raw (p : mempool) : Prop := {
  rw_geo : Geo p;
  rw_anchors : Anchors p;
  rw_end : words_at p (Z.to_nat (mp_n_levels p)) <= 2 ^ 32;
  rw_heads : forall l, 0 <= l < mp_n_levels p -> is_Some (mp_dl p !! fl p l);
  rw_cells : forall x, valid p x -> is_Some (mp_dl p !! addr p x);
  rw_inline : forall l, 0 <= l < mp_n_levels p -> lword p l = 0;
  rw_words : forall l k, 0 <= l < mp_n_levels p -> 32 < nblocks p l -> 0 <= k < nwords p l -> mp_words p !! (words_at p (Z.to_nat l) + 4 * k) = Some 0;
}.

Section Placement.
Context (p : mempool) (G : Geo p).

Lemma nblocks_mono l l' : 0 <= l <= l' -> nblocks p l <= nblocks p l'.
Proof. intros Hl. unfold nblocks. pose proof (g_count _ G). apply Z.mul_le_mono_nonneg_l; [lia|]. apply Z.pow_le_mono_r; lia. Qed.

Lemma nblocks_pos l : 0 <= l -> 0 < nblocks p l.
Proof. intros Hl. unfold nblocks. pose proof (g_count _ G). pose proof (pow4_pos l Hl). nia. Qed.

Lemma nwords_pos l : 0 <= l -> 0 < nwords p l.
Proof. intros Hl. unfold nwords. pose proof (nblocks_pos l Hl). apply Z.div_str_pos. lia. Qed.

Lemma last_inline_range n : -1 <= last_inline p n < Z.of_nat n.
Proof. induction n as [|n IH]; cbn [last_inline]; [lia|]. destruct (_ <=? _); lia. Qed.

Lemma last_inline_fits n l : 0 <= l <= last_inline p n -> nblocks p l <= 32.
Proof.
  induction n as [|n IH]; cbn [last_inline]; [lia|]. destruct (Z.leb_spec (nblocks p (Z.of_nat n)) 32); [|done]. intros Hl.
  pose proof (nblocks_mono l (Z.of_nat n) Hl). lia.
Qed.

Lemma last_inline_outside n l : last_inline p n < l < Z.of_nat n -> 32 < nblocks p l.
Proof.
  induction n as [|n IH]; cbn [last_inline]; [lia|]. destruct (Z.leb_spec (nblocks p (Z.of_nat n)) 32) as [|Hb]; [lia|]. intros Hl.
  destruct (decide (l = Z.of_nat n)) as [->|]; [done|apply IH; lia].
Qed.

Lemma words_at_mono n m : (n <= m)%nat -> words_at p n <= words_at p m.
Proof.
  induction 1 as [|m _ IH]; [done|]. cbn [words_at]. pose proof (nwords_pos (Z.of_nat m) ltac:(lia)). destruct (_ <=? _); lia.
Qed.

Lemma words_at_step l : 0 <= l -> 32 < nblocks p l -> words_at p (Z.to_nat l) + 4 * nwords p l = words_at p (Z.to_nat (l + 1)).
Proof.
  intros Hl Hb. replace (Z.to_nat (l + 1)) with (S (Z.to_nat l)) by lia. cbn [words_at]. rewrite Z2Nat.id by lia.
  by rewrite (proj2 (Z.leb_gt _ _)) by lia.
Qed.

Lemma words_at_base n : mp_buf p <= words_at p n.
Proof.
  pose proof (words_at_mono 0 n ltac:(lia)) as Hm. cbn [words_at] in Hm. pose proof (g_count _ G). pose proof (g_levels _ G).
  destruct (lsz_word p G 0) as [_ Hp]; [lia|]. rewrite lsz_0 in Hp. nia.
Qed.

End Placement.

(** ** The first loop *)

(** After [i] levels. *)
Record Prepared (p0 : mempool) (i : Z) (p : mempool) : Prop := {
  pr_buf : mp_buf p = mp_buf p0;
  pr_max : mp_max_sz p = mp_max_sz p0;
  pr_nmax : mp_n_max p = mp_n_max p0;
  pr_levels : mp_n_levels p = mp_n_levels p0;
  pr_mi : mp_max_inline_level p = last_inline p0 (Z.to_nat i);
  pr_len : length (mp_levels p) = length (mp_levels p0);
  pr_fl : forall l, fl p l = fl p0 l;
  pr_word : forall l, 0 <= l -> lword p l = if (l <? i) && (32 <? nblocks p0 l) then words_at p0 (Z.to_nat l) else lword p0 l;
  pr_words : mp_words p = mp_words p0;
  pr_cells : same_cells (mp_dl p0) (mp_dl p);
  pr_rings : forall l, 0 <= l < i -> Ring (mp_dl p) (fl p0 l) [];
}.

Section Init.
Context (p0 : mempool) (R : Raw p0).
Let G : Geo p0 := rw_geo _ R.
Let A : Anchors p0 := rw_anchors _ R.

Lemma buflen_exact : u32 (mp_n_max p0 * mp_max_sz p0) = mp_n_max p0 * mp_max_sz p0.
Proof.
  apply u32_small. pose proof (g_end _ G). pose proof (g_buf _ G). pose proof (g_count _ G). pose proof (g_levels _ G).
  destruct (lsz_word p0 G 0) as [_ Hp]; [lia|]. rewrite lsz_0 in Hp. nia.
Qed.

Lemma nblocks_exact i : 0 <= i < mp_n_levels p0 -> mp_n_max p0 * mp_max_sz p0 / lsz p0 i = nblocks p0 i.
Proof.
  intros Hi. destruct (lsz_word p0 G i Hi) as [_ Hp]. rewrite <-(lsz_0 p0), (lsz_step p0 G 0 i) by lia. rewrite Z.add_0_l. unfold nblocks.
  replace (mp_n_max p0 * (lsz p0 i * 4 ^ i)) with (mp_n_max p0 * 4 ^ i * lsz p0 i) by lia. apply Z.div_mul. lia.
Qed.

Lemma prepared_level i p l : Prepared p0 i p -> 0 <= l < mp_n_levels p0 -> mp_levels p !! Z.to_nat l = Some (mk_lvl (lword p l) (fl p0 l)).
Proof.
  intros HP Hl. rewrite <-(pr_fl _ _ _ HP). unfold lword, fl. destruct (mp_levels p !! Z.to_nat l) as [[]|] eqn:E; [done|].
  apply lookup_ge_None in E. pose proof (pr_len _ _ _ HP). pose proof (g_array _ G). lia.
Qed.

Lemma prepared_list i p d : Prepared p0 i p -> 0 <= i < mp_n_levels p0 -> Ring d (fl p0 i) [] -> dkeep [fl p0 i] (mp_dl p) d ->
  forall l, 0 <= l < i + 1 -> Ring d (fl p0 l) [].
Proof.
  intros HP Hi Hr Hk l Hl. destruct (decide (l = i)) as [->|]; [done|]. eapply ring_frame; [apply (pr_rings _ _ _ HP); lia|exact Hk|].
  intros x. rewrite !list_elem_of_singleton. intros -> E. apply (an_inj _ A) in E; lia.
Qed.

Lemma prepared_inline i p d :
  Prepared p0 i p -> 0 <= i < mp_n_levels p0 -> nblocks p0 i <= 32 -> Ring d (fl p0 i) [] -> dkeep [fl p0 i] (mp_dl p) d ->
  Prepared p0 (i + 1) (with_mp_max_inline_level i (with_mp_dl d p)).
Proof.
  intros HP Hi Hb Hr Hk. pose proof (prepared_list _ _ _ HP Hi Hr Hk) as Hrs. destruct HP. split; try done.
  - cbn. replace (Z.to_nat (i + 1)) with (S (Z.to_nat i)) by lia. cbn [last_inline]. rewrite Z2Nat.id by lia. by rewrite (proj2 (Z.leb_le _ _)) by lia.
  - intros l Hl. unfold lword. cbn. change (lword p l = if (l <? i + 1) && (32 <? nblocks p0 l) then words_at p0 (Z.to_nat l) else lword p0 l). rewrite pr_word0 by done. destruct (decide (l = i)) as [->|].
    + rewrite (proj2 (Z.ltb_ge i i)), (proj2 (Z.ltb_ge 32 _)) by lia. by rewrite !andb_false_r.
    + by replace (l <? i + 1) with (l <? i) by (destruct (Z.ltb_spec l i), (Z.ltb_spec l (i + 1)); lia).
  - intros a. cbn. rewrite (proj1 Hk a). apply pr_cells0.
Qed.

Lemma prepared_outside i p d :
  Prepared p0 i p -> 0 <= i < mp_n_levels p0 -> 32 < nblocks p0 i -> Ring d (fl p0 i) [] -> dkeep [fl p0 i] (mp_dl p) d ->
  Prepared p0 (i + 1) (with_mp_levels (<[Z.to_nat i := mk_lvl (words_at p0 (Z.to_nat i)) (fl p0 i)]> (mp_levels p)) (with_mp_dl d p)).
Proof.
  intros HP Hi Hb Hr Hk. pose proof (prepared_list _ _ _ HP Hi Hr Hk) as Hrs. pose proof (prepared_level i p i HP Hi) as El.
  assert (Hlen : (Z.to_nat i < length (mp_levels p))%nat) by (by apply lookup_lt_Some in El). destruct HP. split; try done.
  - cbn. rewrite pr_mi0. replace (Z.to_nat (i + 1)) with (S (Z.to_nat i)) by lia. cbn [last_inline]. rewrite Z2Nat.id by lia. by rewrite (proj2 (Z.leb_gt _ _)) by lia.
  - cbn. by rewrite length_insert.
  - intros l. unfold fl at 1. cbn. destruct (decide (Z.to_nat l = Z.to_nat i)) as [E|].
    + rewrite E, list_lookup_insert_eq by done. unfold fl. by rewrite E.
    + rewrite list_lookup_insert_ne by lia. apply (pr_fl0 l).
  - intros l Hl. unfold lword. cbn. destruct (decide (l = i)) as [->|].
    + rewrite list_lookup_insert_eq by done. cbn. by rewrite (proj2 (Z.ltb_lt i (i + 1))), (proj2 (Z.ltb_lt 32 _)) by lia.
    + rewrite list_lookup_insert_ne by lia. change (lword p l = if (l <? i + 1) && (32 <? nblocks p0 l) then words_at p0 (Z.to_nat l) else lword p0 l).
      rewrite pr_word0 by done. by replace (l <? i + 1) with (l <? i) by (destruct (Z.ltb_spec l i), (Z.ltb_spec l (i + 1)); lia).
  - intros a. cbn. rewrite (proj1 Hk a). apply pr_cells0.
Qed.

Lemma words_at_fit i : 0 <= i <= mp_n_levels p0 -> 0 <= words_at p0 (Z.to_nat i) <= 2 ^ 32.
Proof.
  intros Hi. pose proof (words_at_base p0 G (Z.to_nat i)). pose proof (g_buf _ G). pose proof (rw_end _ R).
  pose proof (words_at_mono p0 G (Z.to_nat i) (Z.to_nat (mp_n_levels p0)) ltac:(lia)). lia.
Qed.

Lemma wp_init_levels n : forall i sz bits p (Q : unit -> mempool -> Prop),
  Prepared p0 i p -> 0 <= i -> Z.of_nat n = mp_n_levels p0 - i -> (0 < Z.of_nat n -> sz = lsz p0 i) -> bits = u32 (words_at p0 (Z.to_nat i)) ->
  (forall p', Prepared p0 (mp_n_levels p0) p' -> Q tt p') -> wp (init_levels n i sz (mp_n_max p0 * mp_max_sz p0) bits) Q p.
Proof.
  induction n as [|n IH]; intros i sz bits p Q HP Hi Hn Hsz Hb HQ; cbn [init_levels].
  { apply wp_skip, HQ. by replace (mp_n_levels p0) with i by lia. }
  rewrite (Hsz ltac:(lia)). assert (Hil : 0 <= i < mp_n_levels p0) by lia. destruct (lsz_word p0 G i Hil) as [_ Hp]. rewrite (proj2 (Z.eqb_neq _ _)) by lia.
  rewrite nblocks_exact by done. apply wp_bind. unfold level_at. apply wp_bind, wp_get. rewrite (proj2 (Z.ltb_ge _ _)) by lia.
  eapply wp_ofopt; [by apply (prepared_level i p i)|]. cbn [lvl_free_list]. apply wp_bind, wp_mp_on_list, wp_dlist_init; [by apply (an_null _ A)| |].
  { apply (pr_cells _ _ _ HP), (rw_heads _ R). done. }
  intros d Hr Hk. assert (Hnext : 0 < Z.of_nat n -> WB_DN (lsz p0 i / 4) = lsz p0 (i + 1)) by (intros; apply (lsz_next p0 G); lia).
  apply wp_bind. destruct (Z.leb_spec (nblocks p0 i) 32) as [Hin|Hout].
  - apply wp_bind, wp_modify. apply wp_ret. eapply IH; [by apply prepared_inline|lia|lia|done| |done].
    subst bits. replace (Z.to_nat (i + 1)) with (S (Z.to_nat i)) by lia. cbn [words_at]. rewrite Z2Nat.id by lia. by rewrite (proj2 (Z.leb_le _ _)), Z.add_0_r by lia.
  - apply wp_bind. unfold set_level_word, level_at. apply wp_bind, wp_bind, wp_get. rewrite (proj2 (Z.ltb_ge _ _)) by lia.
    eapply wp_ofopt; [by apply (prepared_level i p i)|]. apply wp_modify. apply wp_ret. cbn [lvl_free_list].
    pose proof (words_at_step p0 i Hi Hout) as Ew. pose proof (nwords_pos p0 G i Hi). pose proof (words_at_fit i ltac:(lia)). pose proof (words_at_fit (i + 1) ltac:(lia)).
    assert (Eb : bits = words_at p0 (Z.to_nat i)) by (subst bits; apply u32_small; lia). rewrite Eb.
    eapply IH; [exact (prepared_outside i p d HP Hil Hout Hr Hk)|lia|lia|done| |done]. fold (nwords p0 i). by rewrite Ew.
Qed.

(** ** The prepared pool as the layout of all later states *)

Lemma prepared_geometry p x : Prepared p0 (mp_n_levels p0) p -> (valid p x <-> valid p0 x) /\ addr p x = addr p0 x.
Proof. intros [Eb Em En El _ _ _ _ _ _ _]. unfold valid, addr, nblocks, lsz. by rewrite Eb, Em, En, El. Qed.

Lemma prepared_layout p : Prepared p0 (mp_n_levels p0) p -> Geo p /\ Anchors p /\ Layout p.
Proof.
  intros HP. pose proof HP as [Eb Em En El Emi Elen Ef Ew _ _ _]. pose proof (g_levels _ G) as HL. split; [|split].
  - destruct G. split; rewrite ?Eb, ?Em, ?En, ?El, ?Elen; done.
  - destruct A as [An Ai Ab]. split; rewrite ?Eb, ?Em, ?En, ?El; intros l; rewrite ?Ef; [apply An| |apply Ab]. intros l'. rewrite Ef. apply Ai.
  - assert (Enb : forall l, nblocks p l = nblocks p0 l) by (intros l; unfold nblocks; by rewrite En).
    assert (Hext : forall l, mp_max_inline_level p < l < mp_n_levels p -> 0 <= l /\ 32 < nblocks p0 l /\ lword p l = words_at p0 (Z.to_nat l)).
    { intros l. rewrite Emi, El. intros Hl. pose proof (last_inline_range p0 (Z.to_nat (mp_n_levels p0))).
      assert (Hb : 32 < nblocks p0 l) by (apply (last_inline_outside p0 (Z.to_nat (mp_n_levels p0))); lia).
      split; [lia|]. split; [done|]. rewrite Ew by lia. by rewrite (proj2 (Z.ltb_lt _ _)), (proj2 (Z.ltb_lt 32 _)) by lia. }
    split.
    + rewrite Emi. apply last_inline_range.
    + intros l Hl0. rewrite Emi, Enb. intros Hl. apply (last_inline_fits p0 G (Z.to_nat (mp_n_levels p0))). lia.
    + intros l Hl. destruct (Hext l Hl) as (H0 & Hb & ->). unfold nwords. rewrite Enb. fold (nwords p0 l). rewrite words_at_step by done.
      rewrite El in Hl. split; [apply words_at_fit; lia|apply words_at_fit; lia].
    + intros l l' Hl Hl'. destruct (Hext l ltac:(lia)) as (H0 & Hb & ->), (Hext l' ltac:(lia)) as (_ & _ & ->). unfold nwords. rewrite Enb. fold (nwords p0 l).
      rewrite words_at_step by done. apply words_at_mono; [done|lia].
Qed.

(** No bit is set, and the lists are empty. *)
Lemma prepared_half p : Prepared p0 (mp_n_levels p0) p -> Half p ∅ p ∅ (fun _ => []).
Proof.
  intros HP. destruct (prepared_layout p HP) as (Gp & _ & Lp). split; [done| | | |done].
  - intros x Hv. destruct (prepared_geometry p x HP) as (Ev & _). pose proof (proj1 Ev Hv) as [Hl Hb]. exists 0.
    rewrite bool_decide_false by (apply not_elem_of_empty). rewrite Z.bits_0. split; [|lia]. unfold wloc. rewrite (pr_mi _ _ _ HP).
    destruct (Z.leb_spec x.1 (last_inline p0 (Z.to_nat (mp_n_levels p0)))) as [Hin|Hout]; cbn [word_val].
    + pose proof (last_inline_fits p0 G (Z.to_nat (mp_n_levels p0)) x.1 ltac:(lia)) as Hf. rewrite (prepared_level _ p x.1 HP Hl). cbn. f_equal. rewrite (pr_word _ _ _ HP) by lia.
      rewrite (proj2 (Z.ltb_ge 32 _)), andb_false_r by lia. by apply (rw_inline _ R).
    + pose proof (last_inline_outside p0 (Z.to_nat (mp_n_levels p0)) x.1 ltac:(lia)) as Hf. rewrite (pr_words _ _ _ HP), (pr_word _ _ _ HP) by lia.
      rewrite (proj2 (Z.ltb_lt x.1 _)), (proj2 (Z.ltb_lt 32 _)) by lia. cbn [andb]. apply (rw_words _ R); [done|done|]. unfold nwords.
      split; [apply Z.div_pos; lia|]. apply Z.div_lt_upper_bound; [lia|]. pose proof (Z.div_mod (nblocks p0 x.1 + 31) 32 ltac:(lia)).
      pose proof (Z.mod_pos_bound (nblocks p0 x.1 + 31) 32 ltac:(lia)). lia.
  - intros x Hv. destruct (prepared_geometry p x HP) as (Ev & ->). apply (pr_cells _ _ _ HP), (rw_cells _ R), Ev, Hv.
  - intros l. rewrite (pr_levels _ _ _ HP). intros Hl. rewrite (pr_fl _ _ _ HP). by apply (pr_rings _ _ _ HP).
Qed.

End Init.

(** ** The second loop *)

Section Blocks.
Context (g : mempool) (G : Geo g) (A : Anchors g).

Lemma half_lists p U F F' : (forall l, F' l = F l) -> Half g ∅ p U F -> Half g ∅ p U F'.
Proof. intros E [Hs HB Hc HR Hz]. split; try done. intros l Hl. rewrite E. by apply HR. Qed.

Lemma half_ext p U U' F : (forall x, x ∈ U <-> x ∈ U') -> Half g ∅ p U F -> Half g ∅ p U' F.
Proof. intros E [Hs HB Hc HR Hz]. split; try done. by eapply bits_ext. Qed.

Lemma wp_init_blocks n : forall i p (Q : unit -> mempool -> Prop),
  Half g ∅ p ∅ (set_list (fun _ => []) 0 (seqZ 0 i)) -> 0 <= i -> Z.of_nat n = mp_n_max g - i ->
  (forall p', Half g ∅ p' ∅ (set_list (fun _ => []) 0 (seqZ 0 (mp_n_max g))) -> Q tt p') -> wp (init_blocks n i) Q p.
Proof.
  induction n as [|n IH]; intros i p Q Hh Hi Hn HQ; cbn [init_blocks].
  { apply wp_skip, HQ. by replace (mp_n_max g) with i by lia. }
  pose proof (hf_same _ _ _ _ _ Hh) as Hs. pose proof (g_levels _ G) as HL. assert (Hv : forall j, 0 <= j < mp_n_max g -> valid g (0, j)) by (intros j Hj; unfold valid, nblocks; cbn; lia).
  apply wp_bind, wp_get. apply wp_bind. rewrite (sg_max _ _ Hs), <-lsz_0. apply (wp_block_ptr g G p (0, i)); [done|apply Hv; lia|].
  apply wp_bind, (wp_level_at g G); [done|lia|]. intros w _. cbn [lvl_free_list]. apply wp_bind.
  apply (wp_half_append g G A ∅ (fun _ _ => lookup_empty _) (fun x => valid g x /\ x.1 = 0)) with (U := ∅) (F := set_list (fun _ => []) 0 (seqZ 0 i)) (x := (0, i)).
  - by intros x [].
  - intros [l b] [l' b'] [_ El] [_ El'] E. cbn in *. subst l l'. unfold addr in E. cbn in E. destruct (lsz_word g G 0) as [_ Hp]; [lia|]. f_equal. nia.
  - done.
  - done.
  - intros l b. unfold set_list. destruct (Z.eqb_spec l 0) as [->|]; [|by intros ?%elem_of_nil]. rewrite elem_of_seqZ. intros Hb. split; [apply Hv; lia|done].
  - split; [apply Hv; lia|done].
  - cbn [fst snd]. rewrite set_list_eq, elem_of_seqZ. lia.
  - cbn [fst snd]. intros p' Hh'. apply (IH (i + 1)); [|lia|lia|done]. eapply half_lists; [|exact Hh']. intros l. unfold set_list.
    destruct (l =? 0); [|done]. cbn [Z.eqb]. rewrite seqZ_app by lia. f_equal.
Qed.

Lemma init_pool p : Half g ∅ p ∅ (set_list (fun _ => []) 0 (seqZ 0 (mp_n_max g))) -> Pool g ∅ p ∅ ∅.
Proof.
  intros Hh. eapply half_pool; [eapply half_ext; [|exact Hh]; set_solver| |intros a [? E]; by rewrite lookup_empty in E|].
  - split; [| |done|]; intros x; rewrite ?elem_of_union, elem_of_empty; tauto.
  - intros l b. pose proof (g_levels _ G). unfold is_free, set_list, valid, nblocks. rewrite !elem_of_union, !elem_of_empty. cbn. destruct (Z.eqb_spec l 0) as [->|].
    + rewrite elem_of_seqZ. split; [intros; repeat split; (lia || tauto)|intros ([_ Hb] & _); lia].
    + rewrite elem_of_nil. split; [done|]. intros (_ & _ & [?|[_ []]]); done.
Qed.

End Blocks.

(** What initialising leaves alone. *)
Record Alike (p g : mempool) : Prop := {
  lk_buf : mp_buf g = mp_buf p;
  lk_max : mp_max_sz g = mp_max_sz p;
  lk_nmax : mp_n_max g = mp_n_max p;
  lk_levels : mp_n_levels g = mp_n_levels p;
  lk_fl : forall l, fl g l = fl p l;
}.

Lemma alike_geometry p g : Alike p g -> (forall x, valid g x <-> valid p x) /\ (forall x, addr g x = addr p x) /\ (forall l, lsz g l = lsz p l).
Proof. intros [Eb Em En El _]. unfold valid, addr, nblocks, lsz. by rewrite Eb, Em, En, El. Qed.

(** The initialised pool: laid out as itself, nothing broken, nothing handed out. *)
Lemma wp_base_init p (Q : unit -> mempool -> Prop) :
  Raw p -> (forall g p', Geo g -> Anchors g -> Layout g -> Alike p g -> Pool g ∅ p' ∅ ∅ -> Q tt p') -> wp sys_mem_pool_base_init Q p.
Proof.
  intros R HQ. pose proof (rw_geo _ R) as G. pose proof (g_levels _ G) as HL. unfold sys_mem_pool_base_init. apply wp_bind, wp_get. apply wp_bind, wp_modify.
  rewrite buflen_exact by done. apply wp_bind. eapply (wp_init_levels p R); [|lia|lia|by rewrite lsz_0|done|].
  - split; try done; cbn. { intros l Hl. by rewrite (proj2 (Z.ltb_ge _ _)) by lia. } { intros l Hl. lia. }
  - intros g HP. destruct (prepared_layout p R g HP) as (Gg & Ag & Lg). eapply (wp_init_blocks g Gg Ag _ 0); [|lia| |].
    + eapply half_lists; [|by eapply prepared_half]. intros l. unfold set_list. by destruct (l =? 0).
    + pose proof (g_count _ G). rewrite (pr_nmax _ _ _ HP). lia.
    + intros p' Hh. apply (HQ g); [done|done|done| |by apply init_pool]. by destruct HP.
Qed.
