(* ===== verification/MemPoolSystem.v ===== *)
(** * Memory pools: any sequence of requests

    [held p0 p Al]: the state [p] is reached from the zeroed memory [p0] by initialising the
    pool and then by requests, legal releases and writes of clients into their blocks, in any
    order, and [Al] are the blocks the clients hold.  The theorems speak of [Al] and of addresses alone: which blocks are
    broken and how the lists and bits say so is hidden in [Pool]. *)

From Stdlib Require Import ZArith Lia Bool List.
From stdpp Require Import base tactics numbers list gmap fin_sets.
From S2P Require Import Prelude DList DNode MemPool MemPoolFacts MemPoolTheorems MemPoolInit.

Local Open Scope Z_scope.

(** The bytes of a block. *)
Definition bytes (p : mempool) (x : blk) (o : Z) : Prop := addr p x <= o < addr p x + lsz p x.1.
Definition share (p : mempool) (x y : blk) : Prop := exists o, bytes p x o /\ bytes p y o.

(** ** A request is refused only when there is no room *)

Section Room.
Context (g : mempool) (G : Geo g) (Sp Al : gset blk) (S : Shape g Sp Al).

Lemma up_bytes x o : valid g x -> 0 < x.1 -> bytes g x o -> bytes g (up x) o.
Proof.
  destruct x as [l b]. intros [Hl Hb] H0. cbn in *. unfold bytes, addr, up. cbn. rewrite (lsz_step g G (l - 1) 1) by lia. replace (l - 1 + 1) with l by lia. change (4 ^ 1) with 4.
  destruct (lsz_word g G l Hl) as [_ Hp]. pose proof (Z.div_mod b 4 ltac:(lia)). pose proof (Z.mod_pos_bound b 4 ltac:(lia)). nia.
Qed.

Lemma first_byte x : valid g x -> bytes g x (addr g x).
Proof. intros [Hl _]. unfold bytes. destruct (lsz_word g G x.1 Hl) as [_ Hp]. lia. Qed.

(** A broken block has a block in use inside it. *)
Lemma broken_in_use x : Tight Sp Al -> x ∈ Sp -> exists y, y ∈ Al /\ forall o, bytes g y o -> bytes g x o.
Proof.
  intros HT. assert (Hn : exists n : nat, mp_n_levels g - x.1 <= Z.of_nat n) by (exists (Z.to_nat (mp_n_levels g - x.1)); lia).
  destruct Hn as [n Hn]. revert x Hn. induction n as [|n IH]; intros x Hn Hx.
  - destruct (sh_valid _ _ _ S x) as [Hl _]; [apply elem_of_union; by left|]. lia.
  - destruct (HT x Hx) as (z & Hz & H0 & Ez). pose proof (sh_valid _ _ _ S z Hz) as Hv.
    assert (Hin : forall o, bytes g z o -> bytes g x o) by (intros o Ho; rewrite <-Ez; by apply up_bytes).
    apply elem_of_union in Hz as [Hz|Hz]; [|by exists z]. destruct (IH z) as (y & Hy & Hsub); [rewrite <-Ez in Hn; unfold up in Hn; cbn in Hn; lia|done|].
    exists y. split; [done|]. intros o Ho. by apply Hin, Hsub.
Qed.

(** With no free block of its level or a larger one, a whole block lies in one in use. *)
Lemma whole_in_use n : forall x, x.1 = Z.of_nat n -> valid g x -> x ∉ Sp -> (forall l b, 0 <= l <= x.1 -> ~ is_free g Sp Al (l, b)) ->
  exists y, y ∈ Al /\ forall o, bytes g x o -> bytes g y o.
Proof.
  induction n as [|n IH]; intros x En Hv Hx Hno; (destruct (decide (x ∈ Al)) as [Ha|Ha]; [by exists x|]);
    pose proof (Hno x.1 x.2 ltac:(lia)) as Hf; rewrite <-surjective_pairing in Hf.
  - exfalso. apply Hf. split; [done|]. split; [rewrite elem_of_union; tauto|by left].
  - destruct (decide (up x ∈ Sp)) as [Hu|Hu].
    + exfalso. apply Hf. split; [done|]. split; [rewrite elem_of_union; tauto|right; split; [lia|done]].
    + destruct (IH (up x)) as (y & Hy & Hsub); [unfold up; cbn; lia|apply up_valid; [done|lia]|done|intros l b Hl; apply Hno; unfold up in Hl; cbn in Hl; lia|].
      exists y. split; [done|]. intros o Ho. apply Hsub, up_bytes; [done|lia|done].
Qed.

Lemma no_room x : Tight Sp Al -> valid g x -> (forall l b, 0 <= l <= x.1 -> ~ is_free g Sp Al (l, b)) -> exists y, y ∈ Al /\ share g x y.
Proof.
  intros HT Hv Hno. destruct (decide (x ∈ Sp)) as [Hx|Hx].
  - destruct (broken_in_use x HT Hx) as (y & Hy & Hsub). exists y. split; [done|]. exists (addr g y).
    assert (bytes g y (addr g y)) by (apply first_byte, (sh_valid _ _ _ S), elem_of_union; by right). split; [by apply Hsub|done].
  - destruct (whole_in_use (Z.to_nat x.1) x) as (y & Hy & Hsub); [destruct Hv; lia|done|done|done|]. exists y. split; [done|].
    exists (addr g x). pose proof (first_byte x Hv). split; [done|by apply Hsub].
Qed.

Lemma fits_level size al l : fits g size al -> 0 <= l < mp_n_levels g -> size <= lsz g l -> l <= al.
Proof.
  intros ([Hr _] & _ & Hn) Hl Hsz. destruct (Z.le_gt_cases l al) as [|Hlt]; [done|]. specialize (Hn ltac:(lia)).
  pose proof (lsz_step g G (al + 1) (l - (al + 1)) ltac:(lia) ltac:(lia) ltac:(lia)) as E. replace (al + 1 + (l - (al + 1))) with l in E by lia.
  pose proof (pow4_pos (l - (al + 1)) ltac:(lia)). destruct (lsz_word g G l Hl) as [_ Hp]. nia.
Qed.

End Room.

(** ** Sequences *)

Section Sequences.
Context `{Config}.

(** Memory that differs in the bytes of the blocks in use only. *)
Definition written (p0 : mempool) (Al : gset blk) (dl dl' : gmap Z dnode) : Prop :=
  same_cells dl dl' /\
  (forall a, nx dl' a <> nx dl a -> exists x k, x ∈ Al /\ 0 <= k < 4 /\ bytes p0 x (a + k)) /\
  (forall a, pv dl' a <> pv dl a -> exists x k, x ∈ Al /\ 4 <= k < 8 /\ bytes p0 x (a + k)).

Inductive held (p0 : mempool) : mempool -> gset blk -> Prop :=
| held_init p : sys_mem_pool_base_init p0 = Done tt p -> held p0 p ∅
| held_alloc p Al size l b a p' : held p0 p Al -> sys_mem_pool_block_alloc size p = Done (0, l, b, a) p' -> held p0 p' ({[(l, b)]} ∪ Al)
| held_refused p Al size l b a p' : held p0 p Al -> sys_mem_pool_block_alloc size p = Done (- ENOMEM, l, b, a) p' -> held p0 p' Al
| held_free p Al l b p' : held p0 p Al -> (l, b) ∈ Al -> sys_mem_pool_block_free l b p = Done tt p' -> held p0 p' (Al ∖ {[(l, b)]})
| held_write p Al dl : held p0 p Al -> written p0 Al (mp_dl p) dl -> held p0 (with_mp_dl dl p) Al.

(** What every state of a run is: a pool whose layout has the geometry of [p0]. *)
Record Runs (p0 g : mempool) (h : gmap Z Z) (p : mempool) (Sp Al : gset blk) : Prop := {
  ru_geo : Geo g;
  ru_anchors : Anchors g;
  ru_layout : Layout g;
  ru_alike : Alike p0 g;
  ru_pool : Pool g h p Sp Al;
  ru_tight : Tight Sp Al;
}.

Lemma runs_keep p0 g h p Sp Al h' p' Sp' Al' : Runs p0 g h p Sp Al -> Pool g h' p' Sp' Al' -> Tight Sp' Al' -> Runs p0 g h' p' Sp' Al'.
Proof. intros []. by split. Qed.

Lemma runs_bytes p0 g h p Sp Al x o : Runs p0 g h p Sp Al -> bytes g x o <-> bytes p0 x o.
Proof. intros HR. destruct (alike_geometry _ _ (ru_alike _ _ _ _ _ _ HR)) as (_ & Ea & El). unfold bytes. by rewrite Ea, El. Qed.

Lemma runs_share p0 g h p Sp Al x y : Runs p0 g h p Sp Al -> share g x y <-> share p0 x y.
Proof. intros HR. unfold share. by setoid_rewrite (runs_bytes _ _ _ _ _ _ _ _ HR). Qed.

Lemma runs_apart p0 g h p Sp Al x y : Runs p0 g h p Sp Al -> x ∈ Al -> y ∈ Al -> share p0 x y -> x = y.
Proof.
  intros HR Hx Hy Hs. apply (runs_share _ _ _ _ _ _ _ _ HR) in Hs as (o & Ho & Ho'). eapply (standing_apart g (ru_geo _ _ _ _ _ _ HR) Sp Al); [apply HR|by left|by left|exact Ho|exact Ho'].
Qed.

(** What clients keep is not in a list anchor. *)
Lemma covered_anchors g h p Sp Al : Geo g -> Anchors g -> Pool g h p Sp Al -> forall l, 0 <= l < mp_n_levels g -> h !! fl g l = None.
Proof.
  intros G A HP l Hl. destruct (h !! fl g l) as [w|] eqn:E; [|done]. exfalso. destruct (po_covered _ _ _ _ _ HP (fl g l)) as (x & Hx & Ea); [by rewrite E|].
  apply (an_block g l x G A Hl); [|done]. apply (sh_valid _ _ _ (po_shape _ _ _ _ _ HP)), elem_of_union. by right.
Qed.

(** Writes of the clients leave the pool's lists alone. *)
Lemma pool_write p0 g h p Sp Al h' dl : Runs p0 g h p Sp Al -> written p0 Al (mp_dl p) dl -> frozen h' dl -> covered g h' Al -> Pool g h' (with_mp_dl dl p) Sp Al.
Proof.
  intros HR (Hc & Hn & Hp) Hz Hcv. pose proof HR as [Gg Ag _ _ [Hs S HB Hcell (F & HF & Hfree) _ _] _]. split; [by apply same_dl|done|by apply bits_dl|intros x Hx; by apply Hc, Hcell| |done|done].
  exists F. split; [|done]. intros l Hl. assert (Hout : forall a x k, a ∈ fl g l :: nodes g l (F l) -> x ∈ Al -> 0 <= k < 8 -> ~ bytes p0 x (a + k)).
  { intros a x k Ha Hx Hk Hb. apply (runs_bytes _ _ _ _ _ _ _ _ HR) in Hb. assert (Hv : valid g x) by (apply (sh_valid _ _ _ S), elem_of_union; by right).
    apply elem_of_cons in Ha as [->|Ha].
    - pose proof (an_out _ Ag l Hl). pose proof (addr_range g Gg x Hv). unfold bytes in Hb. lia.
    - apply in_nodes in Ha as (b & -> & Hb'). apply Hfree in Hb'. assert (x = (l, b)) as ->.
      { eapply (standing_apart g Gg Sp Al S); [by left|by right|exact Hb|]. destruct (lsz_word g Gg l Hl) as [_ Hp8]. cbn. lia. }
      destruct Hb' as (_ & Hn' & _). apply Hn', elem_of_union. by right. }
  eapply (ring_frame _ _ (filter (fun a => nx dl a <> nx (mp_dl p) a \/ pv dl a <> pv (mp_dl p) a) (elements (dom (mp_dl p))))); [by apply HF| |].
  - split; [done|]. intros a Ha. rewrite list_elem_of_filter, elem_of_elements, elem_of_dom in Ha.
    destruct (decide (nx dl a <> nx (mp_dl p) a \/ pv dl a <> pv (mp_dl p) a)) as [Hd|Hd]; [|split; apply dec_stable; tauto]. exfalso. apply Ha. split; [done|].
    destruct (mp_dl p !! a) as [n|] eqn:E; [by eexists|]. exfalso. assert (E' : dl !! a = None).
    { destruct (dl !! a) as [n|] eqn:E'; [|done]. destruct (proj1 (Hc a)) as [? Hx]; [by rewrite E'|]. congruence. }
    unfold nx, pv in Hd. rewrite E, E' in Hd. tauto.
  - intros a Ha. rewrite list_elem_of_filter. intros [[Hd|Hd] _].
    + destruct (Hn a Hd) as (x & k & Hx & Hk & Hb). by apply (Hout a x k Ha Hx ltac:(lia)).
    + destruct (Hp a Hd) as (x & k & Hx & Hk & Hb). by apply (Hout a x k Ha Hx ltac:(lia)).
Qed.

Lemma wp_done {St A} (m : ST St A) (Q : A -> St -> Prop) s a s' : wp m Q s -> m s = Done a s' -> Q a s'.
Proof. unfold wp. intros Hm E. by rewrite E in Hm. Qed.

Lemma no_words g Al : covered g ∅ Al.
Proof. intros a [w E]. by rewrite lookup_empty in E. Qed.

Lemma held_runs p0 p Al : Raw p0 -> held p0 p Al -> exists g Sp, Runs p0 g ∅ p Sp Al.
Proof.
  intros R. induction 1 as [p E|p Al size l b a p' _ (g & Sp & HR) E|p Al size l b a p' _ (g & Sp & HR) E|p Al l b p' _ (g & Sp & HR) Hin E|p Al dl _ (g & Sp & HR) Hw].
  - eapply (wp_done _ (fun _ p => exists g Sp, Runs p0 g ∅ p Sp ∅)); [|exact E]. eapply wp_base_init; [done|]. intros g p' Gg Ag Lg HA HP. exists g, ∅. by split.
  - eapply (wp_done _ (fun r p' => r = (0, l, b, a) -> exists g Sp, Runs p0 g ∅ p' Sp ({[(l, b)]} ∪ Al))); [|exact E|done]. pose proof HR as [Gg Ag Lg _ HP HT].
    eapply (wp_pool_alloc g Gg Ag Lg ∅ (covered_anchors _ _ _ _ _ Gg Ag HP)); [done|done|done|]. intros p'' Sp' al b' _ _ [HP' HT' _] [= <- <- _]. exists g, Sp'. by eapply runs_keep.
  - eapply (wp_done _ (fun r p' => r = (- ENOMEM, l, b, a) -> exists g Sp, Runs p0 g ∅ p' Sp Al)); [|exact E|done]. pose proof HR as [Gg Ag Lg _ HP HT].
    eapply (wp_pool_alloc g Gg Ag Lg ∅ (covered_anchors _ _ _ _ _ Gg Ag HP)); [done|done|intros; by exists g, Sp|done].
  - eapply (wp_done _ (fun _ p' => exists g Sp, Runs p0 g ∅ p' Sp (Al ∖ {[(l, b)]}))); [|exact E]. pose proof HR as [Gg Ag Lg _ HP HT].
    eapply (wp_pool_free g Gg Ag Lg ∅ (covered_anchors _ _ _ _ _ Gg Ag HP)); [done|done|done|apply no_words|]. intros p'' Sp' HP' HT'. exists g, Sp'. by eapply runs_keep.
  - exists g, Sp. eapply runs_keep; [exact HR| |apply HR]. eapply pool_write; [exact HR|done| |apply no_words]. intros a w E. by rewrite lookup_empty in E.
Qed.

(** The level a request of [size] bytes is served from. *)
Definition serves (p0 : mempool) (size l : Z) : Prop :=
  0 <= l < mp_n_levels p0 /\ size <= lsz p0 l /\ (l + 1 < mp_n_levels p0 -> lsz p0 (l + 1) < size).


(** C22: in every state the initialised pool reaches, a request ends; it is refused, with the
    state as it was, only when every block large enough shares a byte with one in use, and
    otherwise returns a block of the deepest level that serves the size, at its address,
    that shares no byte with those in use. *)
Theorem mem_pool_alloc_exact p0 p Al size :
  Raw p0 -> held p0 p Al ->
  sys_mem_pool_block_alloc size p = Done (- ENOMEM, 0, 0, 0) p /\
    (forall l b, valid p0 (l, b) -> size <= lsz p0 l -> exists y, y ∈ Al /\ share p0 (l, b) y) \/
  exists l b p', sys_mem_pool_block_alloc size p = Done (0, l, b, addr p0 (l, b)) p' /\
    serves p0 size l /\ valid p0 (l, b) /\ forall y, y ∈ Al -> ~ share p0 (l, b) y.
Proof.
  intros R Hh. destruct (held_runs p0 p Al R Hh) as (g & Sp & HR). pose proof HR as [Gg Ag Lg HA HP HT]. pose proof (covered_anchors _ _ _ _ _ Gg Ag HP) as Ah. destruct (alike_geometry _ _ HA) as (Ev & Ea & El).
  assert (Hw : wp (sys_mem_pool_block_alloc size) (fun r p' =>
    r = (- ENOMEM, 0, 0, 0) /\ p' = p /\ (forall l b, valid p0 (l, b) -> size <= lsz p0 l -> exists y, y ∈ Al /\ share p0 (l, b) y) \/
    exists l b, r = (0, l, b, addr p0 (l, b)) /\ serves p0 size l /\ valid p0 (l, b) /\ forall y, y ∈ Al -> ~ share p0 (l, b) y) p).
  { eapply (wp_pool_alloc g Gg Ag Lg ∅ Ah); [done|done| |].
    - intros al Hf Hno. left. split; [done|]. split; [done|]. intros l b Hv Hsz. apply Ev in Hv. rewrite <-El in Hsz.
      pose proof (fits_level g Gg size al l Hf (proj1 Hv) Hsz) as Hle.
      destruct (no_room g Gg Sp Al (po_shape _ _ _ _ _ HP) (l, b) HT Hv) as (y & Hy & Hs); [intros l' b' Hl'; apply Hno; cbn in Hl'; lia|].
      exists y. split; [done|]. by apply (runs_share _ _ _ _ _ _ _ _ HR).
    - intros p' Sp' al b (Hr & Hf & Hn) Hal [HP' HT' Hnew]. right. exists al, b. rewrite Ea, <-Ev, !El, !(lk_levels _ _ HA) in *.
      pose proof (runs_keep _ _ _ _ _ _ _ _ _ _ HR HP' HT') as HR'. assert (Hin : (al, b) ∈ {[(al, b)]} ∪ Al) by (apply elem_of_union; left; by apply elem_of_singleton).
      split; [done|]. split; [split; [lia|by auto]|]. split; [apply (sh_valid _ _ _ (po_shape _ _ _ _ _ HP')), elem_of_union; by right|].
      intros y Hy Hs. apply Hnew. erewrite (runs_apart _ _ _ _ _ _ _ y HR'); [done|done|apply elem_of_union; by right|done]. }
  destruct (proj1 (wp_run _ _ _) Hw) as (r & p' & E & [(-> & -> & Hno)|(l & b & -> & Hrest)]); [by left|right]. by exists l, b, p'.
Qed.

(** C23: the blocks in use lie in the buffer, are as large as their level says, start on a word
    of it, and two of them share no byte, after any sequence of requests and releases. *)
Theorem mem_pool_blocks_disjoint p0 p Al :
  Raw p0 -> held p0 p Al ->
  (forall x, x ∈ Al -> mp_buf p0 <= addr p0 x /\ addr p0 x + lsz p0 x.1 <= mp_buf p0 + mp_n_max p0 * mp_max_sz p0 /\ (addr p0 x - mp_buf p0) mod 4 = 0) /\
  forall x y, x ∈ Al -> y ∈ Al -> share p0 x y -> x = y.
Proof.
  intros R Hh. destruct (held_runs p0 p Al R Hh) as (g & Sp & HR). split; [|intros x y; by eapply runs_apart].
  intros x Hx. destruct (alike_geometry _ _ (ru_alike _ _ _ _ _ _ HR)) as (Ev & _ & _). assert (Hv : valid p0 x).
  { apply Ev, (sh_valid _ _ _ (po_shape _ _ _ _ _ (ru_pool _ _ _ _ _ _ HR))), elem_of_union. by right. }
  destruct (addr_range p0 (rw_geo _ R) x Hv) as [Hlo Hhi]. split; [done|]. split; [done|]. unfold addr.
  replace (mp_buf p0 + lsz p0 x.1 * x.2 - mp_buf p0) with (lsz p0 x.1 * x.2) by lia.
  destruct (lsz_word p0 (rw_geo _ R) x.1 (proj1 Hv)) as [H4 _]. by rewrite <-Z.mul_mod_idemp_l, H4 by lia.
Qed.

(** ** Releasing everything *)

Fixpoint free_all (l : list blk) : MP unit :=
  match l with [] => skip | x :: l => sys_mem_pool_block_free x.1 x.2;; free_all l end.

(** As [sys_mem_pool_base_init] leaves it, but for the order of the list. *)
Definition fresh (p0 p : mempool) : Prop :=
  (forall l b, valid p0 (l, b) -> alloc_bit_is_set l b p = Done false p) /\
  (exists bs, bs ≡ₚ seqZ 0 (mp_n_max p0) /\ Ring (mp_dl p) (fl p0 0) (nodes p0 0 bs)) /\
  forall l, 0 < l < mp_n_levels p0 -> Ring (mp_dl p) (fl p0 l) [].

Lemma wp_free_all p0 g : forall xs p Sp Al (Q : unit -> mempool -> Prop),
  Runs p0 g ∅ p Sp Al -> NoDup xs -> (forall x, x ∈ xs <-> x ∈ Al) -> (forall p' Sp', Runs p0 g ∅ p' Sp' ∅ -> Q tt p') -> wp (free_all xs) Q p.
Proof.
  induction xs as [|[l b] xs IH]; intros p Sp Al Q HR Hnd Hxs HQ; cbn [free_all].
  - apply wp_skip. eapply HQ. replace ∅ with Al; [exact HR|]. apply set_eq. intros x. rewrite <-Hxs, elem_of_nil, elem_of_empty. done.
  - apply NoDup_cons in Hnd as [Hn Hnd]. pose proof HR as [Gg Ag Lg _ HP HT]. apply wp_bind. eapply (wp_pool_free g Gg Ag Lg ∅ (covered_anchors _ _ _ _ _ Gg Ag HP)); [exact HP|done|apply Hxs, elem_of_cons; by left|apply no_words|].
    intros p' Sp' HP' HT'. eapply (IH p' Sp'); [by eapply runs_keep|done| |done]. intros x. rewrite elem_of_difference, elem_of_singleton, <-Hxs, elem_of_cons. cbn [fst snd].
    destruct (decide (x = (l, b))) as [->|]; tauto.
Qed.

Lemma tight_nothing Sp : (forall x : blk, x ∈ Sp -> x.1 < 16) -> Tight Sp ∅ -> Sp = ∅.
Proof.
  intros Hb HT. apply set_eq. intros x. rewrite elem_of_empty. split; [|done]. intros Hx. assert (Hn : exists n : nat, 16 - x.1 <= Z.of_nat n) by (exists (Z.to_nat (16 - x.1)); lia).
  destruct Hn as [n Hn]. revert x Hx Hn. induction n as [|n IH]; intros x Hx Hn; [specialize (Hb x Hx); lia|].
  destruct (HT x Hx) as (y & Hy & H0 & E). rewrite elem_of_union, elem_of_empty in Hy. destruct Hy as [Hy|[]]. apply (IH y Hy). rewrite <-E in Hn. unfold up in Hn. cbn in Hn. lia.
Qed.

Lemma runs_fresh p0 g h p Sp : Runs p0 g h p Sp ∅ -> fresh p0 p.
Proof.
  intros [Gg Ag Lg HA HP HT]. destruct (alike_geometry _ _ HA) as (Ev & Ea & _). pose proof (g_levels _ Gg) as HL.
  assert (ES : Sp = ∅). { apply tight_nothing; [|done]. intros x Hx. destruct (sh_valid _ _ _ (po_shape _ _ _ _ _ HP) x) as [Hl _]; [apply elem_of_union; by left|lia]. }
  subst Sp. destruct HP as [Hs S HB _ (F & HF & Hfree) _ _]. split; [|split].
  - intros l b Hv. apply Ev in Hv. assert (Hw : wp (alloc_bit_is_set l b) (fun r p' => r = false /\ p' = p) p).
    { eapply (wp_alloc_bit_is_set g Gg Lg p _ (l, b)); [done|done|done|]. split; [|done]. apply bool_decide_false. rewrite elem_of_union, !elem_of_empty. tauto. }
    destruct (proj1 (wp_run _ _ _) Hw) as (r & p' & E & -> & ->). done.
  - exists (F 0). pose proof (HF 0 ltac:(lia)) as Hr. rewrite (lk_fl _ _ HA) in Hr. split.
    + apply NoDup_Permutation; [by apply (rings_nodup g (mp_dl p) F HF); lia|apply NoDup_seqZ|]. intros b. rewrite Hfree, elem_of_seqZ. unfold is_free, valid, nblocks.
      rewrite (lk_nmax _ _ HA). cbn. rewrite elem_of_union, !elem_of_empty. split; [intros ((_ & Hb) & _); lia|intros; repeat split; (lia || tauto)].
    + replace (nodes p0 0 (F 0)) with (nodes g 0 (F 0)); [done|]. unfold nodes. apply list_fmap_ext. intros i b _. apply Ea.
  - intros l. rewrite <-(lk_levels _ _ HA), <-(lk_fl _ _ HA). intros Hl. pose proof (HF l ltac:(lia)) as Hr.
    assert (F l = []) as E; [|rewrite E in Hr; exact Hr]. destruct (F l) as [|b F'] eqn:E; [done|]. exfalso.
    assert (Hb : b ∈ F l) by (rewrite E; apply elem_of_cons; by left). apply Hfree in Hb as (_ & _ & [Hb|[_ Hb]]); [cbn in Hb; lia|by apply elem_of_empty in Hb].
Qed.

(** Lemma: releasing all blocks in use, in any order, ends without a fault and leaves no trace of
    them: no bit is set, every block of the largest size is on the first list, and the
    other lists are empty, so that every broken block was put together again. *)
Theorem mem_pool_free_coalesces p0 p Al xs :
  Raw p0 -> held p0 p Al -> xs ≡ₚ elements Al -> exists p', free_all xs p = Done tt p' /\ fresh p0 p'.
Proof.
  intros R Hh Hxs. destruct (held_runs p0 p Al R Hh) as (g & Sp & HR).
  assert (Hw : wp (free_all xs) (fun _ p' => fresh p0 p') p).
  { eapply (wp_free_all p0 g); [exact HR|rewrite Hxs; apply NoDup_elements|intros x; by rewrite Hxs, elem_of_elements|]. intros p' Sp' HR'. by eapply runs_fresh. }
  destruct (proj1 (wp_run _ _ _) Hw) as ([] & p' & E & Hf). by exists p'.
Qed.

(** Lemma: with assertions compiled in, releasing a block none of whose bytes are in use stops at
    the double-free check. *)
Theorem mem_pool_double_free p0 p Al l b :
  Raw p0 -> held p0 p Al -> CONFIG_ASSERT = true -> valid p0 (l, b) -> (forall y, y ∈ Al -> ~ share p0 (l, b) y) ->
  fails (sys_mem_pool_block_free l b) AssertFailed p.
Proof.
  intros R Hh HA Hv Hno. destruct (held_runs p0 p Al R Hh) as (g & Sp & HR). pose proof HR as [Gg Ag Lg HK HP HT]. destruct (alike_geometry _ _ HK) as (Ev & _ & _).
  pose proof (proj2 (Ev _) Hv) as Hvg. pose proof Hvg as [Hl _]. cbn [fst] in Hl. assert (Hout : (l, b) ∉ Sp ∪ Al).
  { assert (Hsh : forall y, y ∈ Al -> (forall o, bytes g y o -> bytes g (l, b) o) -> False).
    { intros y Hy Hsub. apply (Hno y Hy), (runs_share _ _ _ _ _ _ _ _ HR). exists (addr g y).
      assert (Hb : bytes g y (addr g y)) by (apply (first_byte g Gg), (sh_valid _ _ _ (po_shape _ _ _ _ _ HP)), elem_of_union; by right). split; [by apply Hsub|done]. }
    rewrite elem_of_union. intros [Hx|Hx]; [|by apply (Hsh (l, b))]. destruct (broken_in_use g Gg Sp Al (po_shape _ _ _ _ _ HP) (l, b) HT Hx) as (y & Hy & Hsub). by apply (Hsh y). }
  assert (Hbit : wp (alloc_bit_is_set l b) (fun r p' => r = false /\ p' = p) p).
  { eapply (wp_alloc_bit_is_set g Gg Lg p (Sp ∪ Al) (l, b)); [apply HP|apply HP|done|]. split; [by apply bool_decide_false|done]. }
  pose proof (po_same _ _ _ _ _ HP) as Hs. unfold sys_mem_pool_block_free, block_free. apply fails_step, wp_get.
  rewrite (sg_levels _ _ Hs), (sg_max _ _ Hs). rewrite (proj2 (Z.leb_gt _ _)) by lia. replace (Z.to_nat (l + 1)) with (Datatypes.S (Z.to_nat l)) by lia. cbn [bfree_recombine].
  apply fails_step. eapply wp_size_at; [lia|apply (size_table_ok g Gg l Hl); lia|]. apply fails_step, (wp_block_ptr g Gg p (l, b)); [done|done|].
  apply fails_bind. unfold assert_m. rewrite HA. apply fails_step. eapply wp_mono; [exact Hbit|]. intros r p' [-> ->]. unfold assert_. by rewrite HA.
Qed.

End Sequences.

(** ** Examples *)

Lemma raw_pool_blocks l b : valid raw_pool (l, b) -> l = 0 /\ 0 <= b < 3 \/ l = 1 /\ 0 <= b < 12 \/ l = 2 /\ 0 <= b < 48.
Proof.
  intros [Hl Hb]. cbn in Hl. assert (l = 0 \/ l = 1 \/ l = 2) as [->|[->| ->]] by lia; unfold nblocks in Hb; cbn in Hb; lia.
Qed.

Lemma raw_pool_cells l n : forallb (fun b => bool_decide (is_Some (mp_dl raw_pool !! addr raw_pool (l, b)))) (seqZ 0 n) = true ->
  forall b, 0 <= b < n -> is_Some (mp_dl raw_pool !! addr raw_pool (l, b)).
Proof. rewrite forallb_forall. intros Hf b Hb. apply (bool_decide_unpack _). apply Is_true_true, Hf, list_elem_of_In, elem_of_seqZ. lia. Qed.

Lemma raw_pool_raw : Raw raw_pool.
Proof.
  split.
  - split; cbn; [lia|lia| |lia|lia|done]. exists 64. split; [reflexivity|]. split; [lia|reflexivity].
  - assert (Hfl : forall l, 0 <= l < 3 -> fl raw_pool l = 8 + 12 * l) by (intros l Hl; assert (l = 0 \/ l = 1 \/ l = 2) as [->|[->| ->]] by lia; reflexivity).
    split; change (mp_n_levels raw_pool) with 3; intros l; [|intros l'|]; intros Hl; [|intros Hl'|]; rewrite ?Hfl by lia; [lia|lia|].
    change (mp_buf raw_pool) with 4096. lia.
  - by vm_compute.
  - intros l Hl. cbn in Hl. assert (l = 0 \/ l = 1 \/ l = 2) as [->|[->| ->]] by lia; vm_compute; by eexists.
  - intros [l b] Hv. apply raw_pool_blocks in Hv as [[-> Hb]|[[-> Hb]|[-> Hb]]]; revert b Hb; apply raw_pool_cells; vm_compute; reflexivity.
  - intros l Hl. cbn in Hl. assert (l = 0 \/ l = 1 \/ l = 2) as [->|[->| ->]] by lia; reflexivity.
  - intros l k Hl. cbn in Hl. assert (l = 0 \/ l = 1 \/ l = 2) as [->|[->| ->]] by lia; unfold nwords, nblocks; cbn; try lia. intros _ Hk.
    change ((3 * 4 ^ 2 + 31) / 32) with 2 in Hk. assert (k = 0 \/ k = 1) as [->| ->] by lia; reflexivity.
Qed.

(** A block of the last level and one of the second in use. *)
Definition pool_demo0 : mempool := pool_after sys_mem_pool_base_init.
Definition pool_demo1 : mempool := pool_after (sys_mem_pool_base_init;; sys_mem_pool_block_alloc 64).
Definition pool_demo : mempool := pool_after (sys_mem_pool_base_init;; sys_mem_pool_block_alloc 64;; sys_mem_pool_block_alloc 200).
Definition demo_held : gset blk := {[(1, 1)]} ∪ ({[(2, 0)]} ∪ ∅).

Lemma pool_demo_held `{Config} : held raw_pool pool_demo demo_held.
Proof.
  assert (H1 : held raw_pool pool_demo1 ({[(2, 0)]} ∪ ∅)).
  { apply (held_alloc raw_pool pool_demo0 ∅ 64 2 0 4096); [|by vm_compute]. apply held_init. by vm_compute. }
  apply (held_alloc raw_pool pool_demo1 _ 200 1 1 4352); [exact H1|by vm_compute].
Qed.

Lemma mem_pool_alloc_exact_witness :
  Raw raw_pool /\ @held stm32_config raw_pool pool_demo demo_held /\ exists l b p', sys_mem_pool_block_alloc 300 pool_demo = Done (0, l, b, addr raw_pool (l, b)) p' /\
    serves raw_pool 300 l /\ valid raw_pool (l, b) /\ forall y, y ∈ demo_held -> ~ share raw_pool (l, b) y.
Proof.
  split; [exact raw_pool_raw|]. split; [apply pool_demo_held|].
  destruct (@mem_pool_alloc_exact stm32_config raw_pool pool_demo demo_held 300 raw_pool_raw pool_demo_held) as [[E _]|E]; [vm_compute in E; discriminate E|exact E].
Defined.

Lemma mem_pool_blocks_disjoint_witness : ~ share raw_pool (2, 0) (1, 1).
Proof.
  intros Hs. destruct (@mem_pool_blocks_disjoint stm32_config raw_pool pool_demo demo_held raw_pool_raw pool_demo_held) as [_ Hd].
  assert (E : (2, 0) = (1, 1)) by (apply Hd; [set_solver|set_solver|exact Hs]). discriminate E.
Defined.

Lemma mem_pool_free_coalesces_witness : exists p', @free_all stm32_config [(2, 0); (1, 1)] pool_demo = Done tt p' /\ fresh raw_pool p'.
Proof.
  apply (@mem_pool_free_coalesces stm32_config raw_pool pool_demo demo_held [(2, 0); (1, 1)] raw_pool_raw pool_demo_held).
  apply NoDup_Permutation; [repeat constructor; set_solver|apply NoDup_elements|]. intros x. rewrite elem_of_elements. set_solver.
Defined.

Lemma mem_pool_double_free_witness : fails (@sys_mem_pool_block_free test_config 1 2) AssertFailed pool_demo.
Proof.
  apply (@mem_pool_double_free test_config raw_pool pool_demo demo_held 1 2 raw_pool_raw pool_demo_held eq_refl).
  - split; cbn; [lia|]. unfold nblocks. cbn. lia.
  - intros y Hy (o & Ho & Ho'). unfold demo_held in Hy. rewrite !elem_of_union, !elem_of_singleton, elem_of_empty in Hy.
    assert (Hb : addr raw_pool (1, 2) = 4608 /\ addr raw_pool (1, 1) = 4352 /\ addr raw_pool (2, 0) = 4096 /\ lsz raw_pool 1 = 256 /\ lsz raw_pool 2 = 64) by (vm_compute; auto).
    destruct Hb as (E1 & E2 & E3 & E4 & E5). unfold bytes in Ho, Ho'. cbn [fst] in Ho, Ho'. destruct Hy as [->|[->|[]]]; cbn [fst] in Ho'; lia.
Defined.
