(* ===== verification/Heap.v ===== *)
(** * The kernel heap

    Models the allocation part of [src/object/objecttype.c] and of [inc/object/objecttype.h]
    on top of the memory pool: [malloc_object] asks the one pool of the kernel for a block
    with room for a hidden descriptor and returns the address behind it; [free_object] finds
    the block again through that word.  The descriptor lies where a free block has its
    [next] link, so the model keeps it in the same cell.

    [heap p0 p L]: [p] is reached from zeroed memory by any sequence of calls and of writes
    of the clients into the bytes they asked for; [L] maps the live pointers to the sizes
    asked for. *)

From Stdlib Require Import ZArith Lia Bool List.
From stdpp Require Import base tactics numbers list gmap fin_sets.
From S2P Require Import Prelude DList DNode MemPool MemPoolFacts MemPoolTheorems MemPoolInit MemPoolSystem.

Local Open Scope Z_scope.

(** ** Model *)

Definition EAGAIN : Z := 11.

(** Result and carry of the additions and multiplications of [inc/sys/math_extras.h]. *)
Definition size_add_overflow (a b : Z) : bool * Z := let c := u32 (a + b) in (c <? a, c).
Definition size_mul_overflow (a b : Z) : bool * Z := let c := u32 (a * b) in (negb (a =? 0) && negb (c / a =? b), c).

(** [struct slot_desc]: 8 bits of offset, 4 of level, 20 of block. *)
Definition slot_desc (offset level block : Z) : Z :=
  Z.lor (Z.land offset 255) (Z.lor (Z.shiftl (Z.land level 15) 8) (Z.shiftl (Z.land block 1048575) 12)).
Definition desc_offset (w : Z) : Z := Z.land w 255.
Definition desc_level (w : Z) : Z := Z.land (Z.shiftr w 8) 15.
Definition desc_block (w : Z) : Z := Z.land (Z.shiftr w 12) 1048575.

(** The section of pools holds [_heap_mem_pool] alone. *)
Definition poolptr_to_offset : Z := 0.
Definition offset_to_poolptr (offset : Z) : MP unit := if offset =? 0 then skip else fail Fault.

(** The result code, the descriptor and [data] of the slot. *)
Definition alloc_slot (size : Z) : MP (Z * Z * Z) :=
  '(r, level, block, data) ← sys_mem_pool_block_alloc size;
  if r =? 0 then mret (0, slot_desc poolptr_to_offset level block, data) else mret (- EAGAIN, 0, data).

Definition malloc_object (size : Z) : MP Z :=
  let '(carry, size) := size_add_overflow size (WB_UP 4) in
  if carry then mret 0
  else
    '(r, desc, data) ← alloc_slot size;
    if negb (r =? 0) then mret 0
    else mp_on_list (set_next data desc);; mret (u32 (data + WB_UP 4)).

(** The bytes of the word at [a] that lie in [lo, hi) set to zero. *)
Definition wipe_word (lo hi a w : Z) : Z :=
  Z.ldiff w (foldr Z.lor 0 ((fun k => if (lo <=? a + k) && (a + k <? hi) then Z.shiftl 255 (8 * k) else 0) <$> [0; 1; 2; 3])).

(** [memset] of the value 0, on the words the pool keeps. *)
Definition memset_zero (buf n : Z) : MP unit :=
  modify (fun p => with_mp_dl (map_imap (fun a c => Some (mk_dnode (wipe_word buf (buf + n) a (n_next c)) (wipe_word buf (buf + n) (a + 4) (n_prev c)))) (mp_dl p)) p).

Definition calloc_object (nmemb size : Z) : MP Z :=
  let '(carry, bounds) := size_mul_overflow nmemb size in
  if carry then mret 0
  else
    ret ← malloc_object bounds;
    if negb (ret =? 0) then memset_zero ret bounds;; mret ret else mret 0.

Section Release.
Context `{Config}.

Definition free_slot (desc : Z) : MP unit :=
  offset_to_poolptr (desc_offset desc);; sys_mem_pool_block_free (desc_level desc) (desc_block desc).

Definition free_object (obj_ptr : Z) : MP unit :=
  if negb (obj_ptr =? 0) then
    desc ← mp_on_list (get_next (obj_ptr - WB_UP 4));
    offset_to_poolptr (desc_offset desc);;
    sys_mem_pool_block_free (desc_level desc) (desc_block desc)
  else skip.

(** ** Runs of the heap *)

(** Memory that differs in the bytes asked for only. *)
Definition scribbled (L : gmap Z Z) (dl dl' : gmap Z dnode) : Prop :=
  same_cells dl dl' /\
  (forall a, nx dl' a <> nx dl a -> exists r sz k, L !! r = Some sz /\ 0 <= k < 4 /\ r <= a + k < r + sz) /\
  (forall a, pv dl' a <> pv dl a -> exists r sz k, L !! r = Some sz /\ 4 <= k < 8 /\ r <= a + k < r + sz).

Inductive heap (p0 : mempool) : mempool -> gmap Z Z -> Prop :=
| heap_init p : sys_mem_pool_base_init p0 = Done tt p -> heap p0 p ∅
| heap_malloc p L size r p' : heap p0 p L -> 0 <= size < 2 ^ 32 -> malloc_object size p = Done r p' -> r <> 0 -> heap p0 p' (<[r := size]> L)
| heap_refused p L size p' : heap p0 p L -> 0 <= size < 2 ^ 32 -> malloc_object size p = Done 0 p' -> heap p0 p' L
| heap_free p L r p' : heap p0 p L -> is_Some (L !! r) -> free_object r p = Done tt p' -> heap p0 p' (delete r L)
| heap_write p L dl : heap p0 p L -> scribbled L (mp_dl p) dl -> heap p0 (with_mp_dl dl p) L.

(** A pool whose block numbers fit the descriptor. *)
Definition small (p0 : mempool) : Prop := nblocks p0 (mp_n_levels p0 - 1) <= 2 ^ 20.

Lemma desc_roundtrip l b : 0 <= l < 16 -> 0 <= b < 2 ^ 20 -> desc_offset (slot_desc 0 l b) = 0 /\ desc_level (slot_desc 0 l b) = l /\ desc_block (slot_desc 0 l b) = b.
Proof.
  intros Hl Hb. assert (E : slot_desc 0 l b = b * 2 ^ 12 + l * 2 ^ 8).
  { unfold slot_desc. change 15 with (Z.ones 4). change 1048575 with (Z.ones 20). rewrite !Z.land_ones by lia. rewrite !Z.mod_small by lia. rewrite Z.land_0_l, Z.lor_0_l.
    rewrite !Z.shiftl_mul_pow2 by lia. rewrite Z.lor_comm. change (2 ^ 12) with (2 ^ 4 * 2 ^ 8). rewrite Z.mul_assoc, <-!Z.shiftl_mul_pow2, <-Z.shiftl_lor by lia.
    rewrite !Z.shiftl_mul_pow2 by lia. rewrite <-Z.mul_add_distr_r. f_equal. symmetry. apply Z.add_nocarry_lor. apply Z.bits_inj'. intros n Hn.
    rewrite Z.land_spec, Z.bits_0. destruct (Z.lt_ge_cases n 4); [by rewrite Z.mul_pow2_bits_low|]. rewrite (Z.bits_above_log2 l), andb_false_r; [done|lia|].
    destruct (decide (l = 0)) as [->|]; [cbn; lia|]. apply Z.log2_lt_pow2; [lia|]. enough (2 ^ 4 <= 2 ^ n) by lia. apply Z.pow_le_mono_r; lia. }
  rewrite E. unfold desc_offset, desc_level, desc_block. change 255 with (Z.ones 8). change 15 with (Z.ones 4). change 1048575 with (Z.ones 20).
  rewrite !Z.land_ones, !Z.shiftr_div_pow2 by lia. change (2 ^ 12) with 4096. change (2 ^ 8) with 256. change (2 ^ 4) with 16. change (2 ^ 20) with 1048576 in *.
  split; [|split].
  - replace (b * 4096 + l * 256) with ((b * 16 + l) * 256) by lia. by rewrite Z.mod_mul.
  - replace (b * 4096 + l * 256) with ((b * 16 + l) * 256) by lia. rewrite Z.div_mul by lia. rewrite Z.add_comm, Z.mod_add by lia. by apply Z.mod_small.
  - rewrite Z.add_comm, Z.div_add by lia. rewrite (Z.div_small (l * 256)) by lia. by apply Z.mod_small.
Qed.

(** The block behind a live pointer, with its descriptor. *)
Definition behind (p0 : mempool) (h : gmap Z Z) (Al : gset blk) (r sz : Z) (x : blk) : Prop :=
  x ∈ Al /\ r = addr p0 x + 4 /\ 0 <= sz /\ sz + 4 <= lsz p0 x.1 /\ h !! addr p0 x = Some (slot_desc 0 x.1 x.2).

Record Live (p0 g : mempool) (h : gmap Z Z) (p : mempool) (Sp Al : gset blk) (L : gmap Z Z) : Prop := {
  lv_runs : Runs p0 g h p Sp Al;
  lv_ptr : forall r sz, L !! r = Some sz -> exists x, behind p0 h Al r sz x;
  lv_all : forall x, x ∈ Al -> is_Some (L !! (addr p0 x + 4));
}.

Section Steps.
Context (p0 : mempool) (R : Raw p0) (Hsm : small p0).

Lemma runs_valid g h p Sp Al x : Runs p0 g h p Sp Al -> x ∈ Al -> valid p0 x.
Proof.
  intros HR Hx. destruct (alike_geometry _ _ (ru_alike _ _ _ _ _ _ HR)) as (Ev & _ & _). apply Ev, (sh_valid _ _ _ (po_shape _ _ _ _ _ (ru_pool _ _ _ _ _ _ HR))), elem_of_union. by right.
Qed.

(** The bytes asked for lie in the block, behind its first word. *)
Lemma behind_bytes h Al r sz x o : behind p0 h Al r sz x -> r <= o < r + sz -> bytes p0 x o.
Proof. intros (_ & -> & H0 & Hsz & _) Ho. unfold bytes. lia. Qed.

Lemma live_inj g h p Sp Al L r sz r' sz' x y : Live p0 g h p Sp Al L -> behind p0 h Al r sz x -> behind p0 h Al r' sz' y -> share p0 x y -> r = r' /\ x = y.
Proof. intros HL (Hx & -> & _) (Hy & -> & _) Hs. assert (x = y) as -> by (by eapply runs_apart; [apply HL| | |]). done. Qed.

(** ** Writes of the clients *)

Lemma live_write g h p Sp Al L dl : Live p0 g h p Sp Al L -> scribbled L (mp_dl p) dl -> Live p0 g h (with_mp_dl dl p) Sp Al L.
Proof.
  intros HL (Hc & Hn & Hp). pose proof HL as [HR Hptr Hall]. destruct (alike_geometry _ _ (ru_alike _ _ _ _ _ _ HR)) as (_ & Ea & _). split; [|done|done].
  eapply runs_keep; [exact HR| |apply HR]. eapply pool_write; [exact HR| | |apply HR].
  - split; [done|]. split; intros a Ha; [destruct (Hn a Ha) as (r & sz & k & E & Hk & Ho)|destruct (Hp a Ha) as (r & sz & k & E & Hk & Ho)];
      (destruct (Hptr r sz E) as (x & Hx); exists x, k; split; [apply Hx|]; split; [done|]; by eapply behind_bytes).
  - intros a w E. rewrite <-(po_frozen _ _ _ _ _ (ru_pool _ _ _ _ _ _ HR) a w E). apply dec_stable. intros Hne. destruct (Hn a Hne) as (r & sz & k & Er & Hk & Ho).
    destruct (Hptr r sz Er) as (x & Hx). destruct (po_covered _ _ _ _ _ (ru_pool _ _ _ _ _ _ HR) a) as (y & Hy & ->); [by rewrite E|]. rewrite Ea in Ho.
    assert (Hs : share p0 x y).
    { exists (addr p0 y + k). split; [by eapply behind_bytes|]. unfold bytes. pose proof (runs_valid _ _ _ _ _ y HR Hy) as [Hl _]. destruct (lsz_word p0 (rw_geo _ R) y.1 Hl) as [_ H8]. lia. }
    assert (x = y) as -> by (eapply runs_apart; [exact HR|apply Hx|done|done]). destruct Hx as (_ & -> & _). lia.
Qed.

(** ** Allocation *)

Lemma wp_malloc g h p Sp Al L size (Q : Z -> mempool -> Prop) :
  Live p0 g h p Sp Al L -> 0 <= size < 2 ^ 32 ->
  ((2 ^ 32 <= size + 4 \/ forall l b, valid p0 (l, b) -> size + 4 <= lsz p0 l -> exists y, y ∈ Al /\ share p0 (l, b) y) -> Q 0 p) ->
  (forall x h' p' Sp', valid p0 x -> (forall y, y ∈ Al -> ~ share p0 x y) -> size + 4 <= lsz p0 x.1 -> Live p0 g h' p' Sp' ({[x]} ∪ Al) (<[addr p0 x + 4 := size]> L) -> Q (addr p0 x + 4) p') ->
  wp (malloc_object size) Q p.
Proof.
  intros HL Hsz HQ0 HQ1. pose proof HL as [HR Hptr Hall]. pose proof HR as [Gg Ag Lg HA HP HT]. destruct (alike_geometry _ _ HA) as (Ev & Ea & El).
  unfold malloc_object, size_add_overflow. change (WB_UP 4) with 4. destruct (Z.ltb_spec (u32 (size + 4)) size) as [Hov|Hok].
  { apply wp_ret, HQ0. left. apply dec_stable. intros Hlt. rewrite u32_small in Hov by lia. lia. }
  assert (Hfit : size + 4 < 2 ^ 32).
  { apply dec_stable. intros Hge. unfold u32 in Hok. replace (size + 4) with (size + 4 - 2 ^ 32 + 1 * 2 ^ 32) in Hok by lia. rewrite Z.mod_add, Z.mod_small in Hok by lia. lia. }
  rewrite u32_small by lia. apply wp_bind. unfold alloc_slot. apply wp_bind.
  eapply (wp_pool_alloc g Gg Ag Lg h (covered_anchors _ _ _ _ _ Gg Ag HP)); [done|done| |].
  - intros al Hf Hno. apply wp_ret. apply wp_ret. apply HQ0. right. intros l b Hv Hl. apply Ev in Hv. rewrite <-El in Hl.
    pose proof (fits_level g Gg (size + 4) al l Hf (proj1 Hv) Hl) as Hle.
    destruct (no_room g Gg Sp Al (po_shape _ _ _ _ _ HP) (l, b) HT Hv) as (y & Hy & Hs); [intros l' b' Hl'; apply Hno; cbn in Hl'; lia|].
    exists y. split; [done|]. by apply (runs_share _ _ _ _ _ _ _ _ HR).
  - intros p' Sp' al b (_ & Hf & _) Hal [HP' HT' Hnew]. set (x := (al, b)). cbn [Z.eqb]. apply wp_ret. cbn [Z.eqb negb].
    pose proof (runs_keep _ _ _ _ _ _ _ _ _ _ HR HP' HT') as HR'. assert (Hin : x ∈ {[x]} ∪ Al) by (apply elem_of_union; left; by apply elem_of_singleton).
    pose proof (runs_valid _ _ _ _ _ x HR' Hin) as Hv. pose proof (proj2 (Ev x) Hv) as Hvg. assert (Hlsz : size + 4 <= lsz p0 al) by (rewrite <-El; by apply Hf).
    assert (Hap : forall y, y ∈ Al -> ~ share p0 x y).
    { intros y Hy Hs. apply Hnew. assert (E : x = y) by (eapply runs_apart; [exact HR'|done|apply elem_of_union; by right|done]). fold x. by rewrite E. }
    apply wp_bind, wp_mp_on_list, wp_set_next; [by apply (po_cells _ _ _ _ _ HP')|]. apply wp_ret. fold x. rewrite Ea.
    pose proof (addr_range p0 (rw_geo _ R) x Hv). pose proof (g_end _ (rw_geo _ R)). pose proof (g_buf _ (rw_geo _ R)). destruct (lsz_word p0 (rw_geo _ R) x.1 (proj1 Hv)) as [_ H8].
    rewrite u32_small by lia. apply (HQ1 x (<[addr p0 x := slot_desc 0 al b]> h) _ Sp'); [done|done|done|]. split.
    + eapply runs_keep; [exact HR'| |done]. eapply pool_write; [exact HR'| | |].
      * split; [intros a; unfold upd_next; by rewrite is_Some_upd|]. split; intros a Ha; [|by rewrite pv_upd_next in Ha]. rewrite nx_upd_next in Ha by (rewrite <-Ea; by apply (po_cells _ _ _ _ _ HP')).
        destruct (decide (a = addr p0 x)) as [->|]; [|done]. exists x, 0. split; [done|]. split; [lia|]. unfold bytes. lia.
      * intros a w E. rewrite nx_upd_next by (rewrite <-Ea; by apply (po_cells _ _ _ _ _ HP')). destruct (decide (a = addr p0 x)) as [->|]; [rewrite lookup_insert_eq in E; by injection E as <-|].
        rewrite lookup_insert_ne in E by done. by apply (po_frozen _ _ _ _ _ HP').
      * intros a. destruct (decide (a = addr p0 x)) as [->|]; [intros _; exists x; by rewrite Ea|]. rewrite lookup_insert_ne by done. apply (po_covered _ _ _ _ _ HP').
    + intros r sz E. destruct (decide (r = addr p0 x + 4)) as [->|Hne].
      * rewrite lookup_insert_eq in E. injection E as <-. exists x. split; [done|]. split; [done|]. split; [lia|]. split; [done|]. by rewrite lookup_insert_eq.
      * rewrite lookup_insert_ne in E by done. destruct (Hptr r sz E) as (y & Hy & -> & ? & ? & Eh). exists y. split; [apply elem_of_union; by right|]. do 3 (split; [done|]).
        rewrite lookup_insert_ne; [done|]. intros E'. apply Hne. by rewrite E'.
    + intros y Hy. destruct (decide (y = x)) as [->|Hne]; [by rewrite lookup_insert_eq|]. rewrite lookup_insert_ne; [apply Hall; set_solver|].
      intros E. apply Hne. assert (addr p0 x = addr p0 y) as E' by lia. eapply (runs_apart _ _ _ _ _ _ y x HR'); [done|done|]. exists (addr p0 x).
      pose proof (runs_valid _ _ _ _ _ y HR' Hy) as Hvy. split; [rewrite E'|]; by apply (first_byte p0 (rw_geo _ R)).
Qed.

(** ** Release *)

Lemma live_forget g h p Sp Al L r sz x : Live p0 g h p Sp Al L -> behind p0 h Al r sz x -> covered g (delete (addr p0 x) h) (Al ∖ {[x]}) /\ Pool g (delete (addr p0 x) h) p Sp Al.
Proof.
  intros HL Hx. pose proof HL as [HR Hptr Hall]. pose proof HR as [Gg Ag Lg HA HP HT]. destruct (alike_geometry _ _ HA) as (Ev & Ea & El).
  assert (Hc : covered g (delete (addr p0 x) h) (Al ∖ {[x]})).
  { intros a. destruct (decide (a = addr p0 x)) as [->|Hne]; [rewrite lookup_delete_eq; by intros []|]. rewrite lookup_delete_ne by done. intros Ha.
    destruct (po_covered _ _ _ _ _ HP a Ha) as (y & Hy & ->). exists y. split; [|done]. apply elem_of_difference. split; [done|]. rewrite elem_of_singleton. intros ->. by rewrite Ea in Hne. }
  split; [done|]. destruct HP as [Hs S HB Hcell HF Hz Hcv]. split; try done.
  - intros a w E. apply lookup_delete_Some in E as [_ E]. by apply Hz.
  - eapply covered_mono; [exact Hc|]. intros y Hy. by apply elem_of_difference in Hy as [? _].
Qed.

Lemma wp_free_object g h p Sp Al L r (Q : unit -> mempool -> Prop) :
  Live p0 g h p Sp Al L -> is_Some (L !! r) -> (forall h' p' Sp' Al', Live p0 g h' p' Sp' Al' (delete r L) -> Q tt p') -> wp (free_object r) Q p.
Proof.
  intros HL [sz E] HQ. pose proof HL as [HR Hptr Hall]. pose proof HR as [Gg Ag Lg HA HP HT]. destruct (alike_geometry _ _ HA) as (Ev & Ea & El).
  destruct (Hptr r sz E) as (x & Hx). pose proof Hx as (Hin & -> & H0 & Hsz & Eh). pose proof (runs_valid _ _ _ _ _ x HR Hin) as Hv. pose proof Hv as [Hl Hb].
  pose proof (addr_range p0 (rw_geo _ R) x Hv). pose proof (g_buf _ (rw_geo _ R)). pose proof (g_levels _ (rw_geo _ R)).
  unfold free_object. change (WB_UP 4) with 4. rewrite (proj2 (Z.eqb_neq _ _)) by lia. cbn [negb]. replace (addr p0 x + 4 - 4) with (addr p0 x) by lia.
  apply wp_bind, wp_mp_on_list, wp_get_next; [rewrite <-Ea; apply (po_cells _ _ _ _ _ HP); by apply Ev|]. rewrite (po_frozen _ _ _ _ _ HP _ _ Eh).
  replace (with_mp_dl (mp_dl p) p) with p by (by destruct p). destruct (desc_roundtrip x.1 x.2) as (-> & -> & ->); [lia| |].
  { pose proof (nblocks_mono p0 (rw_geo _ R) x.1 (mp_n_levels p0 - 1)). unfold small in Hsm. lia. }
  apply wp_bind. unfold offset_to_poolptr. cbn [Z.eqb]. apply wp_skip. destruct (live_forget _ _ _ _ _ _ _ _ _ HL Hx) as [Hc HP1]. destruct x as [l b].
  eapply (wp_pool_free g Gg Ag Lg _ (covered_anchors _ _ _ _ _ Gg Ag HP1)); [exact HP1|done|done|exact Hc|]. intros p' Sp' HP' HT'. apply (HQ (delete (addr p0 (l, b)) h) p' Sp' (Al ∖ {[(l, b)]})).
  assert (Hne : forall y, y ∈ Al -> y <> (l, b) -> addr p0 y <> addr p0 (l, b)).
  { intros y Hy Hd Ey. apply Hd. eapply (runs_apart _ _ _ _ _ _ y (l, b) HR); [done|done|]. exists (addr p0 (l, b)). pose proof (runs_valid _ _ _ _ _ y HR Hy).
    split; [rewrite <-Ey|]; by apply (first_byte p0 (rw_geo _ R)). }
  split; [by eapply runs_keep| |].
  - intros r sz' (Hr & E')%lookup_delete_Some. destruct (Hptr r sz' E') as (y & Hy & -> & ? & ? & Eh'). assert (y <> (l, b)) by (by intros ->).
    exists y. split; [apply elem_of_difference; by rewrite elem_of_singleton|]. do 3 (split; [done|]). rewrite lookup_delete_ne; [done|]. intros Ey. by apply (Hne y).
  - intros y. rewrite elem_of_difference, elem_of_singleton. intros [Hy Hd]. specialize (Hne y Hy Hd). rewrite lookup_delete_ne by lia. by apply Hall.
Qed.

Lemma heap_live p L : heap p0 p L -> exists g h Sp Al, Live p0 g h p Sp Al L.
Proof.
  induction 1 as [p E|p L size r p' _ (g & h & Sp & Al & HL) Hsz E Hr|p L size p' _ (g & h & Sp & Al & HL) Hsz E|p L r p' _ (g & h & Sp & Al & HL) Hr E|p L dl _ (g & h & Sp & Al & HL) Hw].
  - destruct (held_runs p0 p ∅ R (held_init p0 p E)) as (g & Sp & HR). exists g, ∅, Sp, ∅. by split.
  - eapply (wp_done _ (fun r p' => r <> 0 -> exists g h Sp Al, Live p0 g h p' Sp Al (<[r := size]> L))); [|exact E|done]. eapply wp_malloc; [exact HL|done|done|].
    intros x h' p'' Sp' _ _ _ HL' _. by exists g, h', Sp', ({[x]} ∪ Al).
  - eapply (wp_done _ (fun r p' => r = 0 -> exists g h Sp Al, Live p0 g h p' Sp Al L)); [|exact E|done]. eapply wp_malloc; [exact HL|done|intros; by exists g, h, Sp, Al|].
    intros x h' p'' Sp' Hv _ _ _ E0. exfalso. pose proof (addr_word p0 (rw_geo _ R) x Hv). lia.
  - eapply (wp_done _ (fun _ p' => exists g h Sp Al, Live p0 g h p' Sp Al (delete r L))); [|exact E]. eapply wp_free_object; [exact HL|done|].
    intros h' p'' Sp' Al' HL'. by exists g, h', Sp', Al'.
  - exists g, h, Sp, Al. by apply live_write.
Qed.

Lemma unshared_apart x y : valid p0 x -> valid p0 y -> ~ share p0 x y -> addr p0 x + lsz p0 x.1 <= addr p0 y \/ addr p0 y + lsz p0 y.1 <= addr p0 x.
Proof.
  intros Hx Hy Hn. destruct (lsz_word p0 (rw_geo _ R) x.1 (proj1 Hx)) as [_ H1], (lsz_word p0 (rw_geo _ R) y.1 (proj1 Hy)) as [_ H2].
  destruct (Z.le_gt_cases (addr p0 x + lsz p0 x.1) (addr p0 y)); [by left|]. destruct (Z.le_gt_cases (addr p0 y + lsz p0 y.1) (addr p0 x)); [by right|].
  exfalso. apply Hn. exists (Z.max (addr p0 x) (addr p0 y)). unfold bytes. lia.
Qed.

End Steps.

(** C20: in every state of the heap [malloc_object] ends.  It returns NULL, with the state as
    it was, only when the size with the descriptor overflows or every block that could hold
    it shares a byte with the block of a live pointer; otherwise the bytes returned lie in
    the buffer and meet those of no live pointer. *)
Theorem malloc_object_exact p0 p L size :
  Raw p0 -> small p0 -> heap p0 p L -> 0 <= size < 2 ^ 32 ->
  malloc_object size p = Done 0 p /\
    (2 ^ 32 <= size + 4 \/ forall l b, valid p0 (l, b) -> size + 4 <= lsz p0 l ->
       exists y, valid p0 y /\ is_Some (L !! (addr p0 y + 4)) /\ share p0 (l, b) y) \/
  exists r p', malloc_object size p = Done r p' /\ r <> 0 /\ mp_buf p0 <= r /\ r + size <= mp_buf p0 + mp_n_max p0 * mp_max_sz p0 /\
    forall r' sz', L !! r' = Some sz' -> r + size <= r' \/ r' + sz' <= r.
Proof.
  intros R Hsm Hh Hsz. destruct (heap_live p0 R Hsm p L Hh) as (g & h & Sp & Al & HL). pose proof HL as [HR Hptr Hall].
  assert (Hw : wp (malloc_object size) (fun r p' =>
    r = 0 /\ p' = p /\ (2 ^ 32 <= size + 4 \/ forall l b, valid p0 (l, b) -> size + 4 <= lsz p0 l -> exists y, valid p0 y /\ is_Some (L !! (addr p0 y + 4)) /\ share p0 (l, b) y) \/
    r <> 0 /\ mp_buf p0 <= r /\ r + size <= mp_buf p0 + mp_n_max p0 * mp_max_sz p0 /\ forall r' sz', L !! r' = Some sz' -> r + size <= r' \/ r' + sz' <= r) p).
  { eapply wp_malloc; [exact R|exact Hsm|exact HL|done| |].
    - intros Hno. left. split; [done|]. split; [done|]. destruct Hno as [?|Hno]; [by left|right]. intros l b Hv Hl. destruct (Hno l b Hv Hl) as (y & Hy & Hs).
      exists y. split; [by eapply runs_valid|]. by split; [apply Hall|].
    - intros x h' p' Sp' Hv Hap Hl HL'. right. pose proof (addr_range p0 (rw_geo _ R) x Hv). pose proof (g_buf _ (rw_geo _ R)). split; [lia|]. split; [lia|]. split; [lia|].
      intros r' sz' E. destruct (Hptr r' sz' E) as (y & Hy & -> & Hsz' & Hs & _). destruct (unshared_apart p0 R x y); [done|by eapply runs_valid|by apply Hap|lia|lia]. }
  destruct (proj1 (wp_run _ _ _) Hw) as (r & p' & E & [(-> & -> & Hno)|Hr]); [by left|right]. by exists r, p'.
Qed.

(** [calloc_object]: the same bytes, cleared. *)
Lemma size_mul_overflow_exact a b : 0 <= a < 2 ^ 32 -> 0 <= b < 2 ^ 32 -> size_mul_overflow a b = (2 ^ 32 <=? a * b, u32 (a * b)).
Proof.
  intros Ha Hb. unfold size_mul_overflow. f_equal. destruct (Z.eqb_spec a 0) as [->|Hne]; [done|]. cbn [negb andb]. destruct (Z.leb_spec (2 ^ 32) (a * b)) as [Hge|Hlt].
  - apply negb_true_iff, Z.eqb_neq. intros E. assert (Hu : u32 (a * b) < a * b) by (unfold u32; pose proof (Z.mod_pos_bound (a * b) (2 ^ 32) ltac:(lia)); lia).
    assert (u32 (a * b) / a < b); [|lia]. apply Z.div_lt_upper_bound; lia.
  - apply negb_false_iff, Z.eqb_eq. rewrite u32_small by nia. rewrite Z.mul_comm. by apply Z.div_mul.
Qed.

Lemma wipe_outside lo hi a w : (forall k, 0 <= k < 4 -> ~ lo <= a + k < hi) -> wipe_word lo hi a w = w.
Proof.
  intros Ho. assert (Hk : forall k, 0 <= k < 4 -> (lo <=? a + k) && (a + k <? hi) = false).
  { intros k Hk. specialize (Ho k Hk). destruct (Z.leb_spec lo (a + k)), (Z.ltb_spec (a + k) hi); cbn; (done || lia). }
  unfold wipe_word. cbn [fmap list_fmap foldr]. rewrite !Hk by lia. apply Z.ldiff_0_r.
Qed.

Lemma wipe_inside lo hi a w : lo <= a -> a + 4 <= hi -> u32 (wipe_word lo hi a w) = 0.
Proof.
  intros Hlo Hhi. assert (Hk : forall k, 0 <= k < 4 -> (lo <=? a + k) && (a + k <? hi) = true) by (intros k Hk; rewrite (proj2 (Z.leb_le _ _)), (proj2 (Z.ltb_lt _ _)) by lia; done).
  unfold wipe_word. cbn [fmap list_fmap foldr]. rewrite !Hk by lia. change (Z.lor _ _) with (Z.ones 32). unfold u32. rewrite <-Z.land_ones by lia.
  rewrite Z.ldiff_land, <-Z.land_assoc, (Z.land_comm (Z.lnot _)), Z.land_lnot_diag. apply Z.land_0_r.
Qed.

(** Lemma: [calloc_object] of [n] elements of [m] bytes ends; it returns NULL, with the state as it
    was, or the pointer a request of [n * m] bytes gives, which then fits the address space,
    with every word of those bytes cleared. *)
Theorem calloc_object_cleared p0 p L n m :
  Raw p0 -> small p0 -> heap p0 p L -> 0 <= n < 2 ^ 32 -> 0 <= m < 2 ^ 32 ->
  exists r p', calloc_object n m p = Done r p' /\
    (r = 0 /\ p' = p \/
     r <> 0 /\ n * m < 2 ^ 32 /\ heap p0 p' (<[r := n * m]> L) /\
     (forall a, r <= a -> a + 4 <= r + n * m -> u32 (nx (mp_dl p') a) = 0) /\ (forall a, r <= a + 4 -> a + 8 <= r + n * m -> u32 (pv (mp_dl p') a) = 0)).
Proof.
  intros R Hsm Hh Hn Hm. unfold calloc_object. rewrite size_mul_overflow_exact by done. destruct (Z.leb_spec (2 ^ 32) (n * m)) as [Hov|Hfit]; [by eexists _, _; split; [|left]|].
  rewrite u32_small by nia. destruct (heap_live p0 R Hsm p L Hh) as (g & h & Sp & Al & HL).
  assert (Hw : wp (malloc_object (n * m)) (fun r p' => (r = 0 -> p' = p) /\ malloc_object (n * m) p = Done r p') p).
  { unfold wp. destruct (malloc_object (n * m) p) as [r p'|] eqn:E.
    - split; [|done]. intros ->. eapply (wp_done _ (fun r p' => r = 0 -> p' = p)); [|exact E|done]. eapply wp_malloc; [exact R|exact Hsm|exact HL|nia|done|].
      intros x h' p'' Sp' Hv _ _ _ E0. pose proof (addr_word p0 (rw_geo _ R) x Hv). lia.
    - assert (Hm' : wp (malloc_object (n * m)) (fun _ _ => True) p) by (eapply wp_malloc; [exact R|exact Hsm|exact HL|nia|done|done]). unfold wp in Hm'. by rewrite E in Hm'. }
  apply wp_run in Hw as (r & p' & E & Hnull & _). unfold mbind, ST_bind. rewrite E. destruct (Z.eqb_spec r 0) as [->|Hr]; cbn [negb].
  { eexists _, _. split; [done|]. left. split; [done|]. by apply Hnull. }
  eexists _, _. split; [done|]. right. split; [done|]. split; [done|]. pose proof (heap_malloc p0 p L (n * m) r p' Hh ltac:(nia) E Hr) as Hh'. set (sz := n * m) in *.
  set (dl := map_imap _ (mp_dl p')). assert (Hlk : forall a, dl !! a = (fun c => mk_dnode (wipe_word r (r + sz) a (n_next c)) (wipe_word r (r + sz) (a + 4) (n_prev c))) <$> mp_dl p' !! a).
  { intros a. subst dl. rewrite map_lookup_imap. by destruct (mp_dl p' !! a). }
  assert (Hnx : forall a, nx dl a = wipe_word r (r + sz) a (nx (mp_dl p') a)) by (intros a; unfold nx; rewrite Hlk; by destruct (mp_dl p' !! a)).
  assert (Hpv : forall a, pv dl a = wipe_word r (r + sz) (a + 4) (pv (mp_dl p') a)) by (intros a; unfold pv; rewrite Hlk; by destruct (mp_dl p' !! a)).
  split; [|split; intros a Hlo Hhi; [rewrite Hnx|rewrite Hpv]; apply wipe_inside; lia]. apply heap_write; [done|]. split; [intros a; by rewrite Hlk, fmap_is_Some|].
  assert (Hhit : forall a w, wipe_word r (r + sz) a w <> w -> exists k, 0 <= k < 4 /\ r <= a + k < r + sz).
  { intros a w Hne. destruct (decide (0 < sz /\ r < a + 4 /\ a < r + sz)) as [Hk|Hk]; [exists (Z.max 0 (r - a)); lia|]. exfalso. apply Hne, wipe_outside. intros k Hk'. lia. }
  split; intros a; rewrite ?Hnx, ?Hpv; intros (k & Hk & Ho)%Hhit; exists r, sz.
  - exists k. by rewrite lookup_insert_eq.
  - exists (4 + k). rewrite lookup_insert_eq. split; [done|]. split; lia.
Qed.

Fixpoint free_objects (l : list Z) : MP unit := match l with [] => skip | r :: l => free_object r;; free_objects l end.

(** C21: releasing the live pointers in any order ends without a fault and leaves the pool as
    it was initialised, whatever the clients wrote into the bytes they asked for: each hidden
    descriptor still names its block. *)
Theorem free_objects_fresh p0 p L xs :
  Raw p0 -> small p0 -> heap p0 p L -> xs ≡ₚ (map_to_list L).*1 -> exists p', free_objects xs p = Done tt p' /\ fresh p0 p'.
Proof.
  intros R Hsm Hh Hxs. destruct (heap_live p0 R Hsm p L Hh) as (g & h & Sp & Al & HL). clear Hh.
  assert (Hin : forall r, r ∈ xs <-> is_Some (L !! r)).
  { intros r. rewrite Hxs, list_elem_of_fmap. split; [intros ((r' & sz) & -> & Hr); apply elem_of_map_to_list in Hr; by eexists|intros [sz E]; exists (r, sz); by rewrite elem_of_map_to_list]. }
  assert (Hnd : NoDup xs) by (rewrite Hxs; apply NoDup_fst_map_to_list). clear Hxs.
  assert (Hw : wp (free_objects xs) (fun _ p' => fresh p0 p') p).
  { revert p h Sp Al L HL Hin Hnd. induction xs as [|r xs IH]; intros p h Sp Al L HL Hin Hnd; cbn [free_objects].
    - apply wp_skip. assert (Al = ∅) as ->; [|eapply runs_fresh; apply HL]. apply set_eq. intros x. rewrite elem_of_empty. split; [|done]. intros Hx.
      apply (lv_all _ _ _ _ _ _ _ HL), Hin in Hx. by apply elem_of_nil in Hx.
    - apply NoDup_cons in Hnd as [Hn Hnd]. apply wp_bind. eapply (wp_free_object p0 R Hsm g h p Sp Al L r); [exact HL|apply Hin, elem_of_cons; by left|].
      intros h' p' Sp' Al' HL'. eapply (IH p' h' Sp' Al' (delete r L) HL'); [|done]. intros r'. destruct (decide (r' = r)) as [->|Hne].
      + rewrite lookup_delete_eq. split; [done|by intros []].
      + rewrite lookup_delete_ne, <-Hin, elem_of_cons by done. tauto. }
  destruct (proj1 (wp_run _ _ _) Hw) as ([] & p' & E & Hf). by exists p'.
Qed.

End Release.

(** ** Examples *)

Definition heap_demo0 : mempool := pool_after (sys_mem_pool_base_init;; malloc_object 60).
Definition heap_demo : mempool := pool_after (sys_mem_pool_base_init;; malloc_object 60;; malloc_object 200).
Definition demo_live : gmap Z Z := <[4356 := 200]> (<[4100 := 60]> ∅).

Lemma heap_demo_live `{Config} : heap raw_pool heap_demo demo_live.
Proof.
  assert (H1 : heap raw_pool heap_demo0 (<[4100 := 60]> ∅)).
  { apply (heap_malloc raw_pool pool_demo0 ∅ 60 4100); [apply heap_init; by vm_compute|lia|by vm_compute|lia]. }
  apply (heap_malloc raw_pool heap_demo0 _ 200 4356); [exact H1|lia|by vm_compute|lia].
Qed.

Lemma raw_pool_small : small raw_pool.
Proof. by vm_compute. Qed.

Lemma malloc_object_exact_witness :
  exists r p', malloc_object 300 heap_demo = Done r p' /\ r <> 0 /\ mp_buf raw_pool <= r /\ r + 300 <= mp_buf raw_pool + mp_n_max raw_pool * mp_max_sz raw_pool /\
    forall r' sz', demo_live !! r' = Some sz' -> r + 300 <= r' \/ r' + sz' <= r.
Proof.
  destruct (@malloc_object_exact stm32_config raw_pool heap_demo demo_live 300 raw_pool_raw raw_pool_small heap_demo_live ltac:(lia)) as [[E _]|E]; [vm_compute in E; discriminate E|exact E].
Defined.

Lemma calloc_object_cleared_witness : exists r p', calloc_object 4 10 heap_demo = Done r p' /\ (r = 0 /\ p' = heap_demo \/
  r <> 0 /\ 4 * 10 < 2 ^ 32 /\ @heap stm32_config raw_pool p' (<[r := 4 * 10]> demo_live) /\
  (forall a, r <= a -> a + 4 <= r + 4 * 10 -> u32 (nx (mp_dl p') a) = 0) /\ (forall a, r <= a + 4 -> a + 8 <= r + 4 * 10 -> u32 (pv (mp_dl p') a) = 0)).
Proof. apply (@calloc_object_cleared stm32_config raw_pool heap_demo demo_live 4 10 raw_pool_raw raw_pool_small heap_demo_live); lia. Defined.

Lemma free_objects_fresh_witness : exists p', @free_objects stm32_config [4100; 4356] heap_demo = Done tt p' /\ fresh raw_pool p'.
Proof.
  apply (@free_objects_fresh stm32_config raw_pool heap_demo demo_live [4100; 4356] raw_pool_raw raw_pool_small heap_demo_live). vm_compute. apply perm_swap.
Defined.
