(* ===== verification/Objects.v ===== *)
(** * Kernel objects: the object table

    Models [src/kernel/cspace.c], [inc/kernel/cspace.h], the object part of
    [src/object/objecttype.c] and [src/object/cnode.c].  A kernel object is allocated as a
    [struct d_object]: its descriptor ([struct k_object], 16 bytes), a list node at offset 16,
    a tree node at offset 24 and the object itself from offset 32.  The objects that the
    kernel can find are linked into the tree [d_obj_rb] and the list [d_obj_dlist].

    The memory of the heap always exists; each kind of field is kept in a map of its own over
    it, and an address outside is a [Fault].  What a field holds when memory is handed out
    is the argument [stale] of the allocation, as far as the code reads it.  The heap itself
    is the interface [ObjectHeap]; [preemption_point] works on the state [X] of the rest of
    the kernel.  Spin locks mask interrupts and leave no trace. *)

From Stdlib Require Import ZArith Lia Bool List.
From stdpp Require Import base tactics numbers list gmap.
From S2P Require Import Prelude DNode RbTree RbTheorems Bytes CMem.

Local Open Scope Z_scope.

(** ** Types and sizes *)

(** [enum obj_tag]; [obj_last_obj] follows [obj_frame_obj]. *)
Definition obj_any_obj : Z := 0.
Definition obj_null_obj : Z := 2.
Definition obj_untyped_obj : Z := 4.
Definition obj_message_obj : Z := 6.
Definition obj_notification_obj : Z := 8.
Definition obj_thread_obj : Z := 14.
Definition obj_sched_context_obj : Z := 16.
Definition obj_irq_control_obj : Z := 18.
Definition obj_irq_handler_obj : Z := 20.
Definition obj_domain_obj : Z := 22.
Definition obj_time_obj : Z := 24.
Definition obj_device_obj : Z := 26.
Definition obj_pager_obj : Z := 28.
Definition obj_frame_obj : Z := 3.
Definition obj_last_obj : Z := obj_frame_obj + 1.

(** [enum obj_status]. *)
Definition obj_init_obj : Z := BIT 0.
Definition obj_allocated_obj : Z := BIT 1.
Definition obj_granted_obj : Z := BIT 2.

(** The [sizeof] of the structures that objects hold. *)
Class ObjectSizes := {
  sizeof_thread_page : Z;
  sizeof_message : Z;
  sizeof_notifation : Z;
  sizeof_thread_sched : Z;
  sizeof_ktcb : Z;
  sizeof_interrupt : Z;
  sizeof_dschedule : Z;
  sizeof_timer_event : Z;
  sizeof_device : Z;
  sizeof_pager_context : Z;
}.

Definition get_k_object_size `{ObjectSizes} (type untyped_obj_size : Z) : Z :=
  if negb (type mod 2 =? 0) then
    if type =? obj_frame_obj then sizeof_thread_page else 0
  else if type =? obj_message_obj then sizeof_message
  else if type =? obj_notification_obj then sizeof_notifation
  else if type =? obj_sched_context_obj then sizeof_thread_sched
  else if type =? obj_thread_obj then sizeof_ktcb
  else if type =? obj_irq_control_obj then sizeof_interrupt
  else if type =? obj_irq_handler_obj then 4
  else if type =? obj_domain_obj then sizeof_dschedule
  else if type =? obj_untyped_obj then untyped_obj_size
  else if type =? obj_time_obj then sizeof_timer_event
  else if type =? obj_device_obj then sizeof_device
  else if type =? obj_pager_obj then sizeof_pager_context
  else 0.

(** [popcountl]: each round clears the least significant bit that is set. *)
Fixpoint popcount_loop (fuel : nat) (mask count : Z) : Z :=
  match fuel with
  | O => count
  | S fuel => if mask =? 0 then count else popcount_loop fuel (Z.land mask (u32 (mask - 1))) (count + 1)
  end.
Definition popcountl (mask : Z) : Z := popcount_loop 33 mask 0.

(** ** State *)

Record k_object := mk_k_object { ko_name : Z; ko_right : Z; ko_type : Z; ko_flag : Z; ko_data : Z }.

Definition with_ko_right v k := mk_k_object (ko_name k) v (ko_type k) (ko_flag k) (ko_data k).
Definition with_ko_flag v k := mk_k_object (ko_name k) (ko_right k) (ko_type k) v (ko_data k).
Definition with_ko_data v k := mk_k_object (ko_name k) (ko_right k) (ko_type k) (ko_flag k) v.

Definition obj_null_obj_new : k_object := mk_k_object 0 0 obj_null_obj obj_init_obj 0.

(** What the object table asks of the heap: the live pointers [L] with their sizes lie in
    [oh_lo, oh_hi), word aligned and apart from each other. *)
Class ObjectHeap (T : Type) := {
  oh_malloc : Z -> ST T Z;
  oh_free : Z -> ST T unit;
  oh_lo : Z;
  oh_hi : Z;
  oh_live : T -> gmap Z Z -> Prop;
  oh_range : 0 < oh_lo /\ oh_hi < 2 ^ 32;
  oh_malloc_spec : forall h L size (Q : Z -> T -> Prop), oh_live h L -> 0 <= size < 2 ^ 32 ->
    (forall h', oh_live h' L -> Q 0 h') ->
    (forall r h', r mod 4 = 0 -> oh_lo <= r -> r + size <= oh_hi ->
       (forall r' sz', L !! r' = Some sz' -> r' <> r /\ (r + size <= r' \/ r' + sz' <= r)) -> oh_live h' (<[r := size]> L) -> Q r h') ->
    wp (oh_malloc size) Q h;
  oh_free_spec : forall h L r (Q : unit -> T -> Prop), oh_live h L -> is_Some (L !! r) -> (forall h', oh_live h' (delete r L) -> Q tt h') -> wp (oh_free r) Q h;
}.

Record objs (X T : Type) := mk_objs {
  ob_env : X;                   (* the rest of the kernel *)
  ob_heap : T;
  ob_ko : gmap Z k_object;      (* descriptors, by address of the d_object *)
  ob_dl : dmem;                 (* list nodes, with the anchor d_obj_dlist *)
  ob_rb : rbtree;               (* d_obj_rb and the tree nodes *)
  ob_mem : bmem;                (* the bytes of the objects *)
  ob_type : Z;                  (* d_obj_type *)
}.
Arguments mk_objs {X T}.
Arguments ob_env {X T}.
Arguments ob_heap {X T}.
Arguments ob_ko {X T}.
Arguments ob_dl {X T}.
Arguments ob_rb {X T}.
Arguments ob_mem {X T}.
Arguments ob_type {X T}.

(** The addresses of the parts of a [struct d_object], and back. *)
Definition k_obj_dlnode (d : Z) : Z := d + 16.
Definition k_obj_rbnode (d : Z) : Z := d + 24.
Definition k_obj_self (d : Z) : Z := d + 32.
Definition of_dlnode (n : Z) : Z := u32 (n - 16).
Definition sizeof_d_object : Z := 32.
Definition sizeof_rbnode : Z := 8.

Section Objects.
Context `{Config} `{ObjectSizes} {X T : Type} `{ObjectHeap T}.
(** The address of [d_obj_dlist], and the preemption point. *)
Context (d_obj_dlist : Z) (preemption_point : ST X Z).

Notation OM := (ST (objs X T)).

Definition with_ob_env v (s : objs X T) : objs X T := mk_objs v (ob_heap s) (ob_ko s) (ob_dl s) (ob_rb s) (ob_mem s) (ob_type s).
Definition with_ob_heap v (s : objs X T) : objs X T := mk_objs (ob_env s) v (ob_ko s) (ob_dl s) (ob_rb s) (ob_mem s) (ob_type s).
Definition with_ob_ko v (s : objs X T) : objs X T := mk_objs (ob_env s) (ob_heap s) v (ob_dl s) (ob_rb s) (ob_mem s) (ob_type s).
Definition with_ob_dl v (s : objs X T) : objs X T := mk_objs (ob_env s) (ob_heap s) (ob_ko s) v (ob_rb s) (ob_mem s) (ob_type s).
Definition with_ob_rb v (s : objs X T) : objs X T := mk_objs (ob_env s) (ob_heap s) (ob_ko s) (ob_dl s) v (ob_mem s) (ob_type s).
Definition with_ob_mem v (s : objs X T) : objs X T := mk_objs (ob_env s) (ob_heap s) (ob_ko s) (ob_dl s) (ob_rb s) v (ob_type s).
Definition with_ob_type v (s : objs X T) : objs X T := mk_objs (ob_env s) (ob_heap s) (ob_ko s) (ob_dl s) (ob_rb s) (ob_mem s) v.

(** A step on one part of the state. *)
Definition zoom {P A} (part : objs X T -> P) (put : P -> objs X T -> objs X T) (m : ST P A) : OM A := fun s =>
  match m (part s) with Done a v => Done a (put v s) | Fail e => Fail e end.
Definition on_env {A} (m : ST X A) : OM A := zoom ob_env with_ob_env m.
Definition on_heap {A} (m : ST T A) : OM A := zoom ob_heap with_ob_heap m.
Definition on_dl {A} (m : DM A) : OM A := zoom ob_dl with_ob_dl m.
Definition on_rb {A} (m : RBM A) : OM A := zoom ob_rb with_ob_rb m.
Definition on_mem {A} (m : BM A) : OM A := zoom ob_mem with_ob_mem m.

Definition rd_ko (d : Z) : OM k_object := s ← (get : OM (objs X T)); ofopt (ob_ko s !! d).
Definition wr_ko (d : Z) (f : k_object -> k_object) : OM unit :=
  k ← rd_ko d; modify (fun s => with_ob_ko (<[d := f k]> (ob_ko s)) s).

(** ** Descriptors *)

Definition get_k_object_type (k : Z) : OM Z := v ← rd_ko k; mret (ko_type v).
Definition is_arch_k_obj (k : Z) : OM bool := t ← get_k_object_type k; mret (negb (t mod 2 =? 0)).
Definition is_empty_d_object (d : Z) : OM bool := t ← get_k_object_type d; mret (t =? obj_null_obj).

Definition is_same_objectname (k1 k2 : Z) : OM bool := a ← rd_ko k1; b ← rd_ko k2; mret (ko_name a =? ko_name b).

(** A case of the switch: the names are compared if the second object has the type too. *)
Definition same_name_if (type k1 k2 : Z) : OM bool :=
  t2 ← get_k_object_type k2; if t2 =? type then is_same_objectname k1 k2 else mret false.

Definition is_same_objecttype (k1 k2 : Z) : OM bool :=
  t1 ← get_k_object_type k1;
  if bool_decide (t1 ∈ [obj_message_obj; obj_notification_obj; obj_thread_obj; obj_pager_obj; obj_irq_handler_obj; obj_sched_context_obj])
  then same_name_if t1 k1 k2
  else if t1 =? obj_irq_control_obj then
    t2 ← get_k_object_type k2;
    if t2 =? obj_irq_control_obj then mret true else (t2 ← get_k_object_type k2; mret (t2 =? obj_irq_handler_obj))
  else if t1 =? obj_domain_obj then t2 ← get_k_object_type k2; mret (t2 =? obj_domain_obj)
  else if (t1 =? obj_time_obj) || (t1 =? obj_device_obj) then mret false
  else
    a ← is_arch_k_obj k1;
    (if (a : bool) then (is_arch_k_obj k2;; skip) else skip);;
    mret false.

Definition is_same_object (k1 k2 : Z) : OM bool :=
  t1 ← get_k_object_type k1;
  if t1 =? obj_untyped_obj then mret false
  else
    t1 ← get_k_object_type k1;
    if t1 =? obj_irq_control_obj then
      t2 ← get_k_object_type k2;
      if t2 =? obj_irq_handler_obj then mret false else is_same_objecttype k1 k2
    else is_same_objecttype k1 k2.

(** [node->next == list->tail]. *)
Definition sys_dnode_is_llinked (list node : Z) : DM bool := n ← get_next node; t ← get_prev list; mret (n =? t).

Definition is_final_d_object (d : Z) : OM bool :=
  b ← on_dl (sys_dnode_is_llinked d_obj_dlist (k_obj_dlnode d));
  if (b : bool) then mret true
  else
    next ← on_dl (sys_dlist_peek_next d_obj_dlist (k_obj_dlnode d));
    same ← is_same_object d (of_dlnode next);
    mret (negb same).

Definition is_parent_d_object (d1 d2 : Z) : OM bool :=
  same ← is_same_object d1 d2; if negb same then mret false else mret true.

Definition is_d_object_no_child (d : Z) : OM bool :=
  next ← on_dl (sys_dlist_peek_next d_obj_dlist (k_obj_dlnode d));
  if negb (next =? 0) then
    next ← on_dl (sys_dlist_peek_next d_obj_dlist (k_obj_dlnode d));
    p ← is_parent_d_object d (of_dlnode next);
    mret (negb p)
  else mret true.

(** ** Lookup *)

Definition node_to_d_obj (n : Z) : Z := u32 (n - 24).

Definition d_object_find (obj : Z) : OM Z :=
  let d_obj_rbnode := u32 (obj - sizeof_rbnode) in
  b ← on_rb (rb_contains k_node_lessthan d_obj_rbnode);
  mret (if (b : bool) then node_to_d_obj d_obj_rbnode else 0).

(** [&d_obj->k_obj] is the address of the [d_object]. *)
Definition k_object_find (obj : Z) : OM Z :=
  d_obj ← d_object_find obj;
  mret (if negb (d_obj =? 0) then d_obj else 0).

(** ** Deletion *)

(** The cases of the switch are empty. *)
Definition prepare_k_object_delete (k : Z) (is_final : bool) : OM k_object :=
  is_arch_k_obj k;; get_k_object_type k;; mret obj_null_obj_new.

Definition is_k_object_removable (k : k_object) : bool := ko_type k =? obj_null_obj.

Fixpoint prepare_loop (fuel : nat) (d : Z) : OM Z :=
  match fuel with
  | O => fail OutOfFuel
  | S fuel =>
    t ← get_k_object_type d;
    if t =? obj_null_obj then mret 0
    else
      is_final ← is_final_d_object d;
      ret ← prepare_k_object_delete d is_final;
      if is_k_object_removable ret then mret 0
      else status ← on_env preemption_point; if negb (status =? 0) then mret status else prepare_loop fuel d
  end.

(** One round is enough: [prepare_k_object_delete] always returns a removable object. *)
Definition prepare_d_object_delete (d : Z) : OM Z := prepare_loop 1 d.

Definition empty_d_object (d : Z) : OM unit :=
  t ← get_k_object_type d;
  if t =? obj_null_obj then
    wr_ko d (fun _ => obj_null_obj_new);;
    on_mem (memset (k_obj_self d) 0 (get_k_object_size obj_null_obj 0));;
    on_dl (sys_dnode_init (k_obj_dlnode d));;
    on_rb (rb_node_init (k_obj_rbnode d))
  else skip.

Definition d_object_delete (d : Z) : OM Z :=
  ret ← prepare_d_object_delete d;
  if negb (ret =? 0) then mret ret
  else
    empty_d_object d;;
    on_rb (rb_remove k_node_lessthan (k_obj_rbnode d));;
    on_dl (sys_dlist_remove (k_obj_dlnode d));;
    mret 0.

(** The successor of [d] in the list as a [d_object], NULL at the end. *)
Definition next_container (d : Z) : OM Z :=
  if negb (d =? 0) then
    n ← on_dl (sys_dlist_peek_next d_obj_dlist (k_obj_dlnode d));
    mret (if negb (n =? 0) then of_dlnode n else 0)
  else mret 0.

Fixpoint revoke_loop (fuel : nat) (d next status : Z) : OM Z :=
  match fuel with
  | O => fail OutOfFuel
  | S fuel =>
    go ← ((if negb (next =? 0) then is_parent_d_object d next else mret false) : OM bool);
    if (go : bool) then
      status ← d_object_delete d;
      if negb (status =? 0) then mret status
      else
        status ← on_env preemption_point;
        if negb (status =? 0) then mret status
        else next ← next_container d; revoke_loop fuel d next status
    else mret status
  end.

Definition d_object_revoke (d : Z) : OM Z :=
  next ← next_container d;
  s ← (get : OM (objs X T));
  revoke_loop (S (size (ob_dl s))) d next 0.

(** ** Insertion, moving and swapping *)

Definition assert_unlinked (dest_d : Z) : OM unit :=
  assert_m (t ← get_k_object_type dest_d; mret (t =? obj_null_obj));;
  assert_m (l ← on_dl (sys_dnode_is_linked (k_obj_dlnode dest_d)); mret (negb l));;
  assert_m (c ← on_rb (rb_contains k_node_lessthan (k_obj_rbnode dest_d)); mret (negb c)).

(** [dest_d->k_obj = *from] and the copy of the object behind its name. *)
Definition copy_object (from dest_d : Z) : OM unit :=
  k ← rd_ko from;
  wr_ko dest_d (fun _ => k);;
  on_mem (memcpy (k_obj_self dest_d) (ko_name k) (get_k_object_size (ko_type k) 0));;
  skip.

Definition d_object_insert (new_k src_d dest_d : Z) : OM unit :=
  (if new_k =? 0 then copy_object new_k dest_d else skip);;
  if negb (dest_d =? 0) then
    assert_unlinked dest_d;;
    on_rb (rb_insert k_node_lessthan (k_obj_rbnode dest_d));;
    on_dl (sys_dlist_insert (k_obj_dlnode src_d) (k_obj_dlnode dest_d))
  else skip.

Definition d_object_move (new_k src_d dest_d : Z) : OM unit :=
  assert_unlinked dest_d;;
  (if new_k =? 0 then copy_object new_k dest_d else copy_object src_d dest_d);;
  wr_ko src_d (fun _ => obj_null_obj_new);;
  if negb (dest_d =? 0) then
    on_rb (rb_remove k_node_lessthan (k_obj_rbnode src_d));;
    on_dl (sys_dlist_remove (k_obj_dlnode src_d));;
    on_rb (rb_insert k_node_lessthan (k_obj_rbnode dest_d));;
    on_dl (sys_dlist_insert (k_obj_dlnode src_d) (k_obj_dlnode dest_d))
  else skip.

Definition d_object_swap (k1 k2 : k_object) (d1 d2 : Z) : OM unit :=
  if get_k_object_size (ko_type k1) 0 =? get_k_object_size (ko_type k2) 0 then
    wr_ko d1 (fun _ => k2);;
    wr_ko d1 (fun _ => k1)
  else skip.

Definition d_object_swap_of (d1 d2 : Z) : OM unit :=
  if d1 =? d2 then skip
  else k1 ← rd_ko d1; k2 ← rd_ko d2; d_object_swap k1 k2 d1 d2.

(** ** Iteration *)

Section Foreach.
Context (func : Z -> OM unit).

Fixpoint foreach_loop (fuel : nat) (obj next_obj : Z) : OM unit :=
  match fuel with
  | O => fail OutOfFuel
  | S fuel =>
    if negb (obj =? 0) then
      func obj;;
      n ← next_container next_obj;
      foreach_loop fuel next_obj n
    else skip
  end.

Definition k_object_wordlist_foreach : OM unit :=
  h ← on_dl (sys_dlist_peek_head d_obj_dlist);
  let obj := if negb (h =? 0) then of_dlnode h else 0 in
  n ← next_container obj;
  s ← (get : OM (objs X T));
  foreach_loop (S (size (ob_dl s))) obj n.
End Foreach.

(** ** Allocation and release *)

Definition d_object_alloc (stale type untyped_obj_size : Z) : OM Z :=
  d_obj ← on_heap (oh_malloc (u32 (sizeof_d_object + get_k_object_size type untyped_obj_size)));
  if d_obj =? 0 then mret 0
  else
    wr_ko d_obj (fun _ => mk_k_object (k_obj_self d_obj) 0 (u8 type) (Z.lor stale obj_allocated_obj) 0);;
    on_mem (memset (k_obj_self d_obj) 0 (get_k_object_size type untyped_obj_size));;
    on_dl (sys_dnode_init (k_obj_dlnode d_obj));;
    on_rb (rb_node_init (k_obj_rbnode d_obj));;
    s ← (get : OM (objs X T));
    (if negb (ob_type s =? type) then
       on_rb (rb_insert k_node_lessthan (k_obj_rbnode d_obj));;
       on_dl (sys_dlist_append d_obj_dlist (k_obj_dlnode d_obj))
     else skip);;
    modify (with_ob_type type);;
    k ← rd_ko d_obj;
    mret (ko_name k).

Definition d_object_free (obj : Z) : OM unit :=
  d_obj ← d_object_find obj;
  if negb (d_obj =? 0) then
    d_object_delete d_obj;;
    on_heap (oh_free d_obj)
  else skip.

(** ** Access rights *)

Definition k_object_update_data (is_set : bool) (data k : Z) : OM unit :=
  is_arch_k_obj k;;
  v ← rd_ko k;
  (if is_set then
     if popcountl (ko_data v) =? 0 then
       wr_ko k (fun v => with_ko_data (Z.lor (ko_data v) data) v);; wr_ko k (fun v => with_ko_flag (Z.lor (ko_flag v) obj_granted_obj) v)
     else skip
   else
     if popcountl (ko_data v) =? 1 then
       wr_ko k (fun v => with_ko_data (Z.land (ko_data v) (not32 data)) v);; wr_ko k (fun v => with_ko_flag (Z.land (ko_flag v) (u8 (not32 obj_granted_obj))) v)
     else skip);;
  get_k_object_type k;; skip.

Definition k_object_mask_right (is_set : bool) (right k : Z) : OM unit :=
  is_arch_k_obj k;;
  (if is_set then wr_ko k (fun v => with_ko_right (Z.lor (ko_right v) right) v)
   else wr_ko k (fun v => with_ko_right (Z.land (ko_right v) (not32 right)) v));;
  get_k_object_type k;; skip.

Definition get_thread_k_object_data (object : Z) : OM Z :=
  ko ← k_object_find object;
  if negb (ko =? 0) then v ← rd_ko ko; mret (if negb (ko_data v =? 0) then ko_data v else 0) else mret 0.

Definition k_object_access_grant (object thread : Z) : OM unit :=
  ko ← k_object_find object;
  grant ← get_thread_k_object_data thread;
  if negb (ko =? 0) && negb (grant =? 0) then
    v ← rd_ko ko;
    if popcountl (ko_data v) =? 0 then
      wr_ko ko (fun v => with_ko_data (Z.lor (ko_data v) grant) v);; wr_ko ko (fun v => with_ko_flag (Z.lor (ko_flag v) obj_granted_obj) v)
    else skip
  else skip.

Definition k_object_access_revoke (object thread : Z) : OM unit :=
  ko ← k_object_find object;
  grant ← get_thread_k_object_data thread;
  if negb (ko =? 0) && negb (grant =? 0) then
    v ← rd_ko ko;
    if popcountl (ko_data v) =? 1 then
      wr_ko ko (fun v => with_ko_data (Z.land (ko_data v) (not32 grant)) v);; wr_ko ko (fun v => with_ko_flag (Z.land (ko_flag v) (u8 (not32 obj_granted_obj))) v)
    else skip
  else skip.

Definition EBADF : Z := 9.
Definition EINVAL : Z := 22.
Definition EPERM : Z := 1.

(** The first test of [k_object_access_validate]; each operand is read only if needed. *)
Definition bad_object (ko otype : Z) : OM bool :=
  if ko =? 0 then mret true
  else
    v ← rd_ko ko;
    mret (negb (ko_name v =? ko) || (negb (otype =? obj_any_obj) && negb (ko_type v =? otype))).

Definition not_permitted (ko curr_ko : Z) : OM bool :=
  if curr_ko =? 0 then mret true
  else
    v ← rd_ko ko; c ← rd_ko curr_ko;
    mret ((Z.land (ko_data v) (ko_data c) =? 0) || (1 <? popcountl (ko_data v))).

Definition k_object_access_validate (ko thread otype : Z) : OM Z :=
  curr_ko ← k_object_find thread;
  bad ← bad_object ko otype;
  if (bad : bool) then mret (- EBADF)
  else
    v ← rd_ko ko;
    if negb (Z.land (ko_flag v) obj_init_obj =? 0) || (Z.land (ko_flag v) obj_allocated_obj =? 0) then mret (- EINVAL)
    else
      no ← not_permitted ko curr_ko;
      if (no : bool) then mret (- EPERM)
      else
        v ← rd_ko ko;
        if negb (ko_type v =? obj_thread_obj) && (Z.land (ko_flag v) obj_granted_obj =? 0) then mret (- EINVAL) else mret 0.

Definition validate_any_k_object (obj thread : Z) : OM Z :=
  ko ← k_object_find obj;
  pass ← k_object_access_validate ko thread obj_any_obj;
  mret (if negb (pass =? 0) then 0 else ko).

Definition obj_validation_check (ko obj otype : Z) : OM Z := k_object_access_validate ko obj otype.

End Objects.
