(* ===== verification/ObjectTable.v ===== *)
(** * The object table: invariant and operations

    [Table s L R]: the heap has the live pointers [L]; the objects [R], each of them live, are
    what the tree and the list hold, the list in this order.  Lookup, allocation, release and
    the access rights are described on [R] and on the descriptors alone. *)

From Stdlib Require Import ZArith Lia Bool List.
From stdpp Require Import base tactics numbers list gmap fin_sets.
From S2P Require Import Prelude DList DNode RbTree RbFun RbMem RbOps RbTheorems RbSet Bytes CMem Objects.

Local Open Scope Z_scope.

(** ** Counting bits *)

Fixpoint ones (n : nat) (w : Z) : Z := match n with O => 0 | S n => Z.b2z (Z.odd w) + ones n (Z.div2 w) end.

Lemma ones_double n w : ones (S n) (2 * w) = ones n w.
Proof. cbn [ones]. rewrite Z.odd_mul. cbn [Z.odd andb Z.b2z]. rewrite Z.div2_div, Z.mul_comm, Z.div_mul by lia. lia. Qed.

Lemma ones_clear n : forall w, 0 < w < 2 ^ Z.of_nat n -> ones n (Z.land w (w - 1)) = ones n w - 1 /\ 0 <= Z.land w (w - 1) < w.
Proof.
  induction n as [|n IH]; intros w Hw; [cbn in Hw; lia|]. rewrite Nat2Z.inj_succ, Z.pow_succ_r in Hw by lia. pose proof (Z.div2_odd w) as E. set (v := Z.div2 w) in *. destruct (Z.odd w) eqn:Eo; cbn [Z.b2z] in E.
  - assert (El : Z.land w (w - 1) = 2 * v).
    { rewrite E. replace (2 * v + 1 - 1) with (2 * v) by lia. apply Z.bits_inj'. intros i Hi. rewrite Z.land_spec. destruct (decide (i = 0)) as [->|]; [by rewrite Z.testbit_even_0, andb_false_r|].
      replace i with (Z.succ (i - 1)) by lia. rewrite Z.testbit_odd_succ, Z.testbit_even_succ by lia. apply andb_diag. }
    rewrite El, ones_double. split; [|lia]. cbn [ones]. rewrite Eo. fold v. cbn [Z.b2z]. lia.
  - assert (El : Z.land w (w - 1) = 2 * Z.land v (v - 1)).
    { rewrite E. replace (2 * v + 0) with (2 * v) by lia. replace (2 * v - 1) with (2 * (v - 1) + 1) by lia. apply Z.bits_inj'. intros i Hi. rewrite Z.land_spec.
      destruct (decide (i = 0)) as [->|]; [by rewrite !Z.testbit_even_0|]. replace i with (Z.succ (i - 1)) by lia. by rewrite Z.testbit_odd_succ, !Z.testbit_even_succ, Z.land_spec by lia. }
    rewrite El, ones_double. destruct (IH v) as [IH1 IH2]; [lia|]. rewrite IH1. split; [|lia]. cbn [ones]. rewrite Eo. fold v. cbn [Z.b2z]. lia.
Qed.

Lemma ones_range n : forall w, 0 <= ones n w <= Z.of_nat n.
Proof. induction n as [|n IH]; intros w; cbn [ones]; [lia|]. specialize (IH (Z.div2 w)). destruct (Z.odd w); cbn [Z.b2z]; lia. Qed.

Lemma popcount_ones fuel : forall w c, 0 <= w < 2 ^ 32 -> ones 32 w < Z.of_nat fuel -> popcount_loop fuel w c = c + ones 32 w.
Proof.
  induction fuel as [|fuel IH]; intros w c Hw Hf; [pose proof (ones_range 32 w); lia|]. cbn [popcount_loop]. destruct (Z.eqb_spec w 0) as [->|Hne]; [change (ones 32 0) with 0; lia|].
  destruct (ones_clear 32 w) as [E1 E2]; [cbn; lia|]. rewrite u32_small by lia. rewrite IH; lia.
Qed.

Lemma popcountl_ones w : 0 <= w < 2 ^ 32 -> popcountl w = ones 32 w.
Proof. intros Hw. unfold popcountl. rewrite popcount_ones; [lia|done|]. pose proof (ones_range 32 w). lia. Qed.

Lemma ones_zero n : forall w, 0 <= w < 2 ^ Z.of_nat n -> ones n w = 0 -> w = 0.
Proof.
  induction n as [|n IH]; intros w Hw E; [cbn in Hw; lia|]. rewrite Nat2Z.inj_succ, Z.pow_succ_r in Hw by lia. cbn [ones] in E. pose proof (ones_range n (Z.div2 w)). pose proof (Z.div2_odd w) as Ed.
  destruct (Z.odd w); cbn [Z.b2z] in *; [lia|]. rewrite (IH (Z.div2 w)) in Ed; lia.
Qed.

Lemma popcountl_zero w : 0 <= w < 2 ^ 32 -> (popcountl w =? 0) = (w =? 0).
Proof.
  intros Hw. rewrite popcountl_ones by done. destruct (Z.eqb_spec w 0) as [->|Hne]; [done|]. apply Z.eqb_neq. intros E. by apply Hne, (ones_zero 32).
Qed.

(** ** Tree nodes that are not linked *)

Section Unlinked.
Context `{Config} (lessthan_fn : Z -> Z -> bool) `{!LessThan lessthan_fn}.

Lemma setrep_write D st M x v : SetRep lessthan_fn D st M -> x ∈ D -> x ∉ M -> SetRep lessthan_fn D (with_rb_nodes (<[x := v]> (rb_nodes st)) st) M.
Proof.
  intros [(Tr & N & [Hr Hroot Hs Hrb Hd Hb] & ->) HD Hdep] Hx HxM. rewrite elem_of_list_to_set in HxM. split; [|cbn; by rewrite dom_insert_lookup_L; [|apply elem_of_dom; rewrite HD]|done].
  exists Tr, N. split; [|done]. split; try done. by apply rep_insert.
Qed.

Lemma wp_rb_node_init D st M x (Q : unit -> rbtree -> Prop) :
  SetRep lessthan_fn D st M -> x ∈ D -> x ∉ M -> (forall st', SetRep lessthan_fn D st' M -> Q tt st') -> wp (rb_node_init x) Q st.
Proof.
  intros HR Hx HxM HQ. assert (Hw : forall v st0 (P : unit -> rbtree -> Prop), SetRep lessthan_fn D st0 M -> (forall st', SetRep lessthan_fn D st' M -> P tt st') -> wp (wr_rbnode x v) P st0).
  { intros v st0 P HR0 HP. unfold wr_rbnode, rd_rbnode. wp_steps. destruct (rb_nodes st0 !! x) as [c|] eqn:E; [|exfalso; apply not_elem_of_dom in E; by rewrite (sr_dom _ _ _ _ HR0) in E].
    eapply wp_ofopt; [done|]. apply HP. by apply setrep_write. }
  assert (Hrd : forall st0 (P : rbnode -> rbtree -> Prop), SetRep lessthan_fn D st0 M -> (forall v, P v st0) -> wp (rd_rbnode x) P st0).
  { intros st0 P HR0 HP. unfold rd_rbnode. wp_steps. destruct (rb_nodes st0 !! x) as [c|] eqn:E; [|exfalso; apply not_elem_of_dom in E; by rewrite (sr_dom _ _ _ _ HR0) in E].
    by eapply wp_ofopt. }
  unfold rb_node_init. apply wp_bind, Hrd; [done|]. intros v. apply wp_bind, Hw; [done|]. intros st1 HR1. apply wp_bind, Hrd; [done|]. intros v1. by apply Hw.
Qed.

Lemma wp_setrep_insert D st M x (Q : unit -> rbtree -> Prop) :
  SetRep lessthan_fn D st M -> set_ok D M (Insert x) -> (forall st', SetRep lessthan_fn D st' ({[x]} ∪ M) -> Q tt st') -> wp (rb_insert lessthan_fn x) Q st.
Proof.
  intros HR Hok HQ. pose proof (wp_insert_op lessthan_fn D st M x HR Hok) as Hw. cbn [run_op] in Hw. apply wp_unbind in Hw.
  eapply wp_mono; [exact Hw|]. cbn beta. intros [] st' [_ HR']. by apply HQ.
Qed.

Lemma wp_setrep_remove D st M x (Q : unit -> rbtree -> Prop) :
  SetRep lessthan_fn D st M -> M <> ∅ -> (forall st', SetRep lessthan_fn D st' (M ∖ {[x]}) -> Q tt st') -> wp (rb_remove lessthan_fn x) Q st.
Proof.
  intros HR Hok HQ. pose proof (wp_remove_op lessthan_fn D st M x HR Hok) as Hw. cbn [run_op] in Hw. apply wp_unbind in Hw.
  eapply wp_mono; [exact Hw|]. cbn beta. intros [] st' [_ HR']. by apply HQ.
Qed.

End Unlinked.

(** A node outside the list may be cleared. *)
Lemma wp_dnode_init_apart lst l n (Q : unit -> dmem -> Prop) m :
  Ring m lst l -> n ∉ lst :: l -> is_Some (m !! n) -> (forall m', Ring m' lst l -> (forall x, is_Some (m' !! x) <-> is_Some (m !! x)) -> Q tt m') -> wp (sys_dnode_init n) Q m.
Proof.
  intros HR Hn Hm HQ. unfold sys_dnode_init. wp_steps. apply wp_set_next; [done|]. apply wp_set_prev; [unfold upd_next; by rewrite is_Some_upd|].
  assert (Hk : dkeep [n] m (upd_prev n 0 (upd_next n 0 m))).
  { split; [intros x; unfold upd_next, upd_prev; by rewrite !is_Some_upd|]. intros x Hx. rewrite nx_upd_prev, pv_upd_prev, pv_upd_next, nx_upd_next by (unfold upd_next; by rewrite ?is_Some_upd).
    rewrite list_elem_of_singleton in Hx. by rewrite !decide_False. }
  apply HQ; [|apply Hk]. eapply ring_frame; [exact HR|exact Hk|]. intros x Hx. rewrite list_elem_of_singleton. by intros ->.
Qed.

(** ** The invariant *)

Section Table.
Context `{Config} `{ObjectSizes} {X T : Type} `{ObjectHeap T}.
Context (d_obj_dlist : Z) (preemption_point : ST X Z) (D : gset Z).

Notation OM := (ST (objs X T)).
Implicit Types (s : objs X T) (L : gmap Z Z) (R : list Z).

(** An address at which a [d_object] can stand. *)
Definition room (d : Z) : Prop := d mod 4 = 0 /\ oh_lo <= d /\ d + 32 <= oh_hi.

Record Memory s : Prop := {
  me_ko : forall d, room d -> is_Some (ob_ko s !! d);
  me_ko_in : forall d, is_Some (ob_ko s !! d) -> room d;
  me_dl : forall d, room d -> is_Some (ob_dl s !! k_obj_dlnode d);
  me_rb : forall d, room d -> k_obj_rbnode d ∈ D;
  me_bytes : mapped (ob_mem s) oh_lo (oh_hi - oh_lo);
  me_anchor : ~ oh_lo <= d_obj_dlist < oh_hi;
}.

(** The descriptor of a registered object. *)
Definition registered s (d : Z) : Prop :=
  exists k, ob_ko s !! d = Some k /\ ko_name k = k_obj_self d /\ Z.testbit (ko_flag k) 1 = true /\ 0 <= ko_data k < 2 ^ 32 /\ ko_type k <> obj_null_obj.

Record Table s L R : Prop := {
  tb_memory : Memory s;
  tb_heap : oh_live (ob_heap s) L;
  tb_tree : SetRep k_node_lessthan D (ob_rb s) (list_to_set (k_obj_rbnode <$> R));
  tb_list : Ring (ob_dl s) d_obj_dlist (k_obj_dlnode <$> R);
  tb_live : forall d, d ∈ R -> room d /\ is_Some (L !! d);
  tb_desc : forall d, d ∈ R -> registered s d;
}.

Lemma wp_zoom {P A} (part : objs X T -> P) put (m : ST P A) (Q : A -> objs X T -> Prop) s :
  wp m (fun a v => Q a (put v s)) (part s) -> wp (zoom part put m) Q s.
Proof. unfold wp, zoom. by destruct (m (part s)). Qed.

Lemma fails_zoom {P A} (part : objs X T -> P) put (m : ST P A) e s : fails m e (part s) -> fails (zoom part put m) e s.
Proof. unfold fails, zoom. by intros ->. Qed.

Lemma with_ob_rb_id s : with_ob_rb (ob_rb s) s = s.
Proof. by destruct s. Qed.
Lemma with_ob_dl_id s : with_ob_dl (ob_dl s) s = s.
Proof. by destruct s. Qed.

Lemma wp_rd_ko d k (Q : k_object -> objs X T -> Prop) s : ob_ko s !! d = Some k -> Q k s -> wp (rd_ko d) Q s.
Proof. intros E HQ. unfold rd_ko. wp_steps. by eapply wp_ofopt. Qed.

Lemma wp_wr_ko d f k (Q : unit -> objs X T -> Prop) s : ob_ko s !! d = Some k -> Q tt (with_ob_ko (<[d := f k]> (ob_ko s)) s) -> wp (wr_ko d f) Q s.
Proof. intros E HQ. unfold wr_ko. apply wp_bind. by eapply wp_rd_ko. Qed.

Lemma wp_type d k (Q : Z -> objs X T -> Prop) s : ob_ko s !! d = Some k -> Q (ko_type k) s -> wp (get_k_object_type d) Q s.
Proof. intros E HQ. unfold get_k_object_type. apply wp_bind. eapply wp_rd_ko; [done|]. by apply wp_ret. Qed.

Lemma wp_is_arch d k (Q : bool -> objs X T -> Prop) s : ob_ko s !! d = Some k -> Q (negb (ko_type k mod 2 =? 0)) s -> wp (is_arch_k_obj d) Q s.
Proof. intros E HQ. unfold is_arch_k_obj. apply wp_bind. eapply wp_type; [done|]. by apply wp_ret. Qed.

Lemma fails_type d s : ob_ko s !! d = None -> fails (get_k_object_type d) Fault s.
Proof. intros E. unfold get_k_object_type, rd_ko, fails, mbind, ST_bind, get. by rewrite E. Qed.

(** ** Lookup *)

Lemma room_range d : room d -> 0 < d /\ d + 32 < 2 ^ 32.
Proof. intros (Ha & Hlo & Hhi). pose proof oh_range. lia. Qed.

Lemma rbnode_addr_ok d : room d -> addr_ok (k_obj_rbnode d).
Proof.
  intros Hd. pose proof (room_range d Hd). destruct Hd as (Ha & _). unfold addr_ok, ptr_ok, k_obj_rbnode. split; [lia|]. split; [lia|].
  rewrite Zeven_mod. Z.to_euclidean_division_equations. apply Zeq_is_eq_bool. lia.
Qed.

Lemma dlnode_roundtrip d : room d -> of_dlnode (k_obj_dlnode d) = d.
Proof. intros Hd. pose proof (room_range d Hd). unfold of_dlnode, k_obj_dlnode. rewrite u32_small; lia. Qed.

Lemma in_rbnodes R d : k_obj_rbnode d ∈ (list_to_set (k_obj_rbnode <$> R) : gset Z) <-> d ∈ R.
Proof.
  rewrite elem_of_list_to_set, list_elem_of_fmap. split; [|by exists d]. intros (d' & E & Hd). unfold k_obj_rbnode in E. by replace d with d' by lia.
Qed.

Lemma in_dlnodes R d : k_obj_dlnode d ∈ k_obj_dlnode <$> R <-> d ∈ R.
Proof. rewrite list_elem_of_fmap. split; [|by exists d]. intros (d' & E & Hd). unfold k_obj_dlnode in E. by replace d with d' by lia. Qed.

(** Where the registered object behind a pointer stands, NULL if there is none. *)
Definition found R (obj : Z) : Z := if decide (obj - 32 ∈ R) then obj - 32 else 0.

Lemma wp_object_find s L R obj (Q : Z -> objs X T -> Prop) :
  Table s L R -> 0 <= obj < 2 ^ 32 -> obj <> 8 -> Q (found R obj) s -> wp (d_object_find obj) Q s.
Proof.
  intros HT Hobj H8 HQ. unfold d_object_find. change sizeof_rbnode with 8. apply wp_bind, wp_zoom.
  assert (Hn : u32 (obj - 8) <> 0) by word_lia. destruct (tb_tree _ _ _ HT) as [(Tr & N & Ht & EM) HD Hdep].
  eapply wp_mono; [by apply (wp_rb_contains k_node_lessthan _ Tr N)|]. cbn beta. intros b st [-> ->]. apply wp_ret. rewrite with_ob_rb_id.
  set (n := u32 (obj - 8)) in *. assert (Hiff : n ∈ inorder Tr <-> obj - 32 ∈ R).
  { rewrite <-(in_rbnodes R), EM, elem_of_list_to_set. unfold k_obj_rbnode. replace (obj - 32 + 24) with (obj - 8) by lia. split; intros Hin.
    - assert (n ∈ (list_to_set (k_obj_rbnode <$> R) : gset Z)) as Hin' by (by rewrite EM, elem_of_list_to_set). rewrite elem_of_list_to_set, list_elem_of_fmap in Hin'.
      destruct Hin' as (d & E & Hd). destruct (tb_live _ _ _ HT d Hd) as [Hr _]. pose proof (room_range d Hr). unfold k_obj_rbnode in E.
      assert (obj - 8 = n) as ->; [|done]. subst n. word_lia.
    - assert (obj - 8 ∈ (list_to_set (k_obj_rbnode <$> R) : gset Z)) as Hin' by (by rewrite EM, elem_of_list_to_set). rewrite elem_of_list_to_set, list_elem_of_fmap in Hin'.
      destruct Hin' as (d & E & Hd). destruct (tb_live _ _ _ HT d Hd) as [Hr _]. pose proof (room_range d Hr). unfold k_obj_rbnode in E.
      assert (n = obj - 8) as ->; [|done]. subst n. apply u32_small. lia. }
  unfold found in HQ. destruct (decide (obj - 32 ∈ R)) as [Hin|Hout].
  - rewrite bool_decide_true by tauto. destruct (tb_live _ _ _ HT _ Hin) as [Hr _]. pose proof (room_range _ Hr). unfold node_to_d_obj. subst n.
    rewrite (u32_small (obj - 8)), u32_small by lia. by replace (obj - 8 - 24) with (obj - 32) by lia.
  - by rewrite bool_decide_false by tauto.
Qed.

Lemma wp_k_find s L R obj (Q : Z -> objs X T -> Prop) :
  Table s L R -> 0 <= obj < 2 ^ 32 -> obj <> 8 -> Q (found R obj) s -> wp (k_object_find obj) Q s.
Proof.
  intros HT Hobj H8 HQ. unfold k_object_find. apply wp_bind. eapply wp_object_find; [done..|]. apply wp_ret. by destruct (Z.eqb_spec (found R obj) 0) as [<-|].
Qed.

Lemma found_null s L R obj : Table s L R -> (found R obj =? 0) = bool_decide (obj - 32 ∉ R).
Proof.
  intros HT. unfold found. destruct (decide _) as [Hin|Hout]; [|by rewrite bool_decide_true]. rewrite bool_decide_false by tauto. apply Z.eqb_neq.
  destruct (tb_live _ _ _ HT _ Hin) as [Hr _]. pose proof (room_range _ Hr). lia.
Qed.

(** ** Allocation *)

Ltac parts := unfold with_ob_env, with_ob_heap, with_ob_ko, with_ob_dl, with_ob_rb, with_ob_mem, with_ob_type in *; cbn [ob_env ob_heap ob_ko ob_dl ob_rb ob_mem ob_type] in *.

(** The objects a live pointer keeps away. *)
Definition apart_from L (d n : Z) : Prop := forall r sz, L !! r = Some sz -> r <> d /\ (d + n <= r \/ r + sz <= d).

Definition new_desc (stale type d : Z) : k_object := mk_k_object (k_obj_self d) 0 (u8 type) (Z.lor stale obj_allocated_obj) 0.

(** The registered objects after an allocation: an object whose type is that of the
    allocation before is not registered. *)
Definition register (last type d : Z) R : list Z := if last =? type then R else R ++ [d].

Lemma dlnode_not_anchor s d : Memory s -> room d -> k_obj_dlnode d <> d_obj_dlist.
Proof. intros HM (_ & Hlo & Hhi) E. apply (me_anchor _ HM). unfold k_obj_dlnode in E. lia. Qed.

Lemma memory_parts s s' :
  Memory s -> (forall d, is_Some (ob_ko s' !! d) <-> is_Some (ob_ko s !! d)) -> (forall x, is_Some (ob_dl s' !! x) <-> is_Some (ob_dl s !! x)) ->
  (forall x, is_Some (ob_mem s' !! x) <-> is_Some (ob_mem s !! x)) -> Memory s'.
Proof.
  intros [Hko Hin Hdl Hrb Hby Ha] Ek Ed Eb. split; try done.
  - intros d Hd. by apply Ek, Hko.
  - intros d Hd. by apply Hin, Ek.
  - intros d Hd. by apply Ed, Hdl.
  - by eapply mapped_dom.
Qed.

Lemma is_Some_insert (m : gmap Z k_object) d v : is_Some (m !! d) -> forall x, is_Some (<[d := v]> m !! x) <-> is_Some (m !! x).
Proof. intros Hd x. destruct (decide (x = d)) as [->|]; [by rewrite lookup_insert_eq|by rewrite lookup_insert_ne]. Qed.

Lemma registered_frame s s' d : ob_ko s' !! d = ob_ko s !! d -> registered s d -> registered s' d.
Proof. intros E (k & Ek & Hk). exists k. by rewrite E. Qed.

Lemma allocated_bit w : Z.testbit (Z.lor w obj_allocated_obj) 1 = true.
Proof. unfold obj_allocated_obj. by rewrite set_bit_testbit. Qed.

Lemma wp_alloc s L R stale type usz (Q : Z -> objs X T -> Prop) :
  let sz := get_k_object_size type usz in
  Table s L R -> 0 <= sz -> 32 + sz < 2 ^ 32 -> u8 type <> obj_null_obj ->
  (forall h, oh_live h L -> Q 0 (with_ob_heap h s)) ->
  (forall d s', room d -> d + (32 + sz) <= oh_hi -> apart_from L d (32 + sz) -> Table s' (<[d := 32 + sz]> L) (register (ob_type s) type d R) ->
     ob_ko s' = <[d := new_desc stale type d]> (ob_ko s) -> ob_type s' = type -> ob_env s' = ob_env s -> filled (ob_mem s) (k_obj_self d) sz 0 (ob_mem s') -> Q (k_obj_self d) s') ->
  wp (d_object_alloc d_obj_dlist stale type usz) Q s.
Proof.
  intros sz HT Hsz0 Hsz Hty HQ0 HQ1. pose proof HT as [HM HH HS HL Hlive Hdesc]. unfold d_object_alloc. fold sz. change sizeof_d_object with 32. rewrite u32_small by lia.
  apply wp_bind, wp_zoom. eapply oh_malloc_spec; [exact HH|lia|intros h' Hh'; cbn [Z.eqb]; apply wp_ret; by apply HQ0|].
  intros d h' Ha Hlo Hhi Hap HH'. assert (Hd : room d) by (unfold room; lia). pose proof (room_range d Hd) as Hpos. rewrite (proj2 (Z.eqb_neq d 0)) by lia.
  assert (HnR : d ∉ R) by (intros Hin; destruct (Hlive d Hin) as [_ [z Ez]]; by destruct (Hap d z Ez) as [? _]).
  destruct (me_ko _ HM d Hd) as [k0 Ek0]. apply wp_bind. eapply (wp_wr_ko d _ k0); [done|]. parts.
  assert (Hby : mapped (ob_mem s) (k_obj_self d) sz).
  { intros i Hi. unfold k_obj_self. replace (d + 32 + i) with (oh_lo + (d + 32 + i - oh_lo)) by lia. apply (me_bytes _ HM). lia. }
  destruct (memset_exact (ob_mem s) (k_obj_self d) 0 sz Hsz0 Hby) as (m' & Em & Hf). apply wp_bind, wp_zoom. parts. unfold wp at 1. rewrite Em. parts. change (u8 0) with 0 in Hf.
  apply wp_bind, wp_zoom. parts. pose proof (dlnode_not_anchor s d HM Hd) as Hna.
  assert (Hnl : k_obj_dlnode d ∉ d_obj_dlist :: (k_obj_dlnode <$> R)) by (rewrite elem_of_cons, in_dlnodes; tauto).
  eapply wp_dnode_init_apart; [exact HL|done|by apply (me_dl _ HM)|]. intros dl1 HL1 Hd1. parts. apply wp_bind, wp_zoom. parts.
  eapply wp_rb_node_init; [exact HS|by apply (me_rb _ HM)|by rewrite in_rbnodes|]. intros rb1 HS1. parts. wp_steps. parts.
  assert (HMx : forall dl2 rb2 ty, (forall x, is_Some (dl2 !! x) <-> is_Some (ob_dl s !! x)) -> Memory (mk_objs (ob_env s) h' (<[d := new_desc stale type d]> (ob_ko s)) dl2 rb2 m' ty)).
  { intros dl2 rb2 ty Hd2. eapply memory_parts; [exact HM|apply is_Some_insert; by rewrite Ek0|exact Hd2|eapply filled_dom; [exact Hf|exact Hby]]. }
  assert (Hdx : forall dl2 rb2 ty e, e ∈ d :: R -> registered (mk_objs (ob_env s) h' (<[d := new_desc stale type d]> (ob_ko s)) dl2 rb2 m' ty) e).
  { intros dl2 rb2 ty e [->|He]%elem_of_cons.
    - exists (new_desc stale type d). cbn [ob_ko]. rewrite lookup_insert_eq. split; [done|]. split; [done|]. split; [apply allocated_bit|]. by split.
    - eapply registered_frame; [|by apply Hdesc]. cbn [ob_ko]. rewrite lookup_insert_ne; [done|]. by intros ->. }
  assert (Hlx : forall e, e ∈ d :: R -> room e /\ is_Some (<[d := 32 + sz]> L !! e)).
  { intros e [->|He]%elem_of_cons; [by rewrite lookup_insert_eq|]. destruct (Hlive e He). split; [done|]. rewrite lookup_insert_ne; [done|]. by intros ->. }
  assert (Hend : forall dl2 rb2, Table (mk_objs (ob_env s) h' (<[d := new_desc stale type d]> (ob_ko s)) dl2 rb2 m' type) (<[d := 32 + sz]> L) (register (ob_type s) type d R) ->
    wp (modify (with_ob_type type);; k ← rd_ko d; mret (ko_name k)) Q (mk_objs (ob_env s) h' (<[d := new_desc stale type d]> (ob_ko s)) dl2 rb2 m' (ob_type s))).
  { intros dl2 rb2 HT2. wp_steps. parts. eapply wp_rd_ko; [cbn [ob_ko]; apply lookup_insert_eq|]. wp_steps. apply HQ1; [done|lia|done|exact HT2|done|done|done|exact Hf]. }
  unfold register in *. destruct (Z.eqb_spec (ob_type s) type) as [Ety|Ety]; cbn [negb].
  - apply wp_skip. apply Hend. split; cbn [ob_heap ob_rb ob_dl]; [by apply HMx|done|done|done|intros e He; apply Hlx, elem_of_cons; by right|intros e He; apply Hdx, elem_of_cons; by right].
  - wp_steps. apply wp_zoom. parts. eapply (wp_setrep_insert k_node_lessthan); [exact HS1|split; [by apply (me_rb _ HM)|]; split; [by rewrite in_rbnodes|by apply rbnode_addr_ok]|]. intros rb2 HS2. parts. apply wp_zoom. parts.
    eapply wp_dlist_append; [exact HL1|done|unfold k_obj_dlnode; lia|by apply Hd1, (me_dl _ HM)|]. intros dl2 HL2 [Hd2 _]. parts. apply Hend. split; cbn [ob_heap ob_rb ob_dl].
    + apply HMx. intros x. by rewrite Hd2, Hd1.
    + done.
    + rewrite fmap_app, list_to_set_app_L. cbn [fmap list_fmap list_to_set]. replace (_ ∪ ({[k_obj_rbnode d]} ∪ ∅)) with ({[k_obj_rbnode d]} ∪ list_to_set (k_obj_rbnode <$> R) : gset Z) by set_solver. done.
    + by rewrite fmap_app.
    + intros e He. apply Hlx. set_solver.
    + intros e He. apply Hdx. set_solver.
Qed.

(** ** Comparison of objects *)

(** The types of which two objects are the same if their names are. *)
Definition named_types : list Z := [obj_message_obj; obj_notification_obj; obj_thread_obj; obj_pager_obj; obj_irq_handler_obj; obj_sched_context_obj].

Definition same_object (k1 k2 : k_object) : bool :=
  if bool_decide (ko_type k1 ∈ named_types) then (ko_type k2 =? ko_type k1) && (ko_name k1 =? ko_name k2)
  else if ko_type k1 =? obj_irq_control_obj then ko_type k2 =? obj_irq_control_obj
  else if ko_type k1 =? obj_domain_obj then ko_type k2 =? obj_domain_obj
  else false.

(** The types for which the comparison reads the other object. *)
Definition compares (t : Z) : bool := bool_decide (t ∈ obj_irq_control_obj :: obj_domain_obj :: named_types) || negb (t mod 2 =? 0).

Lemma wp_same_objecttype s k1 k2 v1 v2 (Q : bool -> objs X T -> Prop) :
  ob_ko s !! k1 = Some v1 -> ob_ko s !! k2 = Some v2 -> (ko_type v1 = obj_irq_control_obj -> ko_type v2 <> obj_irq_handler_obj) ->
  Q (same_object v1 v2) s -> wp (is_same_objecttype k1 k2) Q s.
Proof.
  intros E1 E2 Hh HQ. unfold is_same_objecttype. fold named_types. apply wp_bind. eapply wp_type; [exact E1|]. unfold same_object in HQ. destruct (bool_decide _) eqn:En.
  - unfold same_name_if. apply wp_bind. eapply wp_type; [exact E2|]. destruct (ko_type v2 =? ko_type v1); [|by apply wp_ret]. unfold is_same_objectname.
    apply wp_bind. eapply wp_rd_ko; [exact E1|]. apply wp_bind. eapply wp_rd_ko; [exact E2|]. by apply wp_ret.
  - destruct (Z.eqb_spec (ko_type v1) obj_irq_control_obj) as [Ec|].
    { apply wp_bind. eapply wp_type; [exact E2|]. destruct (ko_type v2 =? obj_irq_control_obj); [by apply wp_ret|]. apply wp_bind. eapply wp_type; [exact E2|]. apply wp_ret.
      by rewrite (proj2 (Z.eqb_neq _ _) (Hh Ec)). }
    destruct (ko_type v1 =? obj_domain_obj); [apply wp_bind; eapply wp_type; [exact E2|]; by apply wp_ret|].
    destruct (_ || _); [by apply wp_ret|]. apply wp_bind. eapply wp_is_arch; [exact E1|]. apply wp_bind.
    destruct (negb (ko_type v1 mod 2 =? 0)); [|apply wp_skip; by apply wp_ret]. apply wp_bind. eapply wp_is_arch; [exact E2|]. apply wp_skip. by apply wp_ret.
Qed.

Lemma wp_same_object s k1 k2 v1 v2 (Q : bool -> objs X T -> Prop) :
  ob_ko s !! k1 = Some v1 -> ob_ko s !! k2 = Some v2 -> Q (same_object v1 v2) s -> wp (is_same_object k1 k2) Q s.
Proof.
  intros E1 E2 HQ. unfold is_same_object. apply wp_bind. eapply wp_type; [exact E1|]. destruct (Z.eqb_spec (ko_type v1) obj_untyped_obj) as [Eu|Eu].
  { apply wp_ret. unfold same_object in HQ. by rewrite Eu in HQ. }
  apply wp_bind. eapply wp_type; [exact E1|]. destruct (Z.eqb_spec (ko_type v1) obj_irq_control_obj) as [Ec|Ec]; [|by eapply wp_same_objecttype].
  apply wp_bind. eapply wp_type; [exact E2|]. destruct (Z.eqb_spec (ko_type v2) obj_irq_handler_obj) as [Eh|Eh]; [|by eapply wp_same_objecttype].
  apply wp_ret. unfold same_object in HQ. rewrite Ec, Eh in HQ. done.
Qed.

(** Comparison with an object that does not exist. *)
Lemma same_object_missing s k1 k2 v1 : ob_ko s !! k1 = Some v1 -> ob_ko s !! k2 = None ->
  if compares (ko_type v1) then fails (is_same_object k1 k2) Fault s else wp (is_same_object k1 k2) (fun b s' => b = false /\ s' = s) s.
Proof.
  intros E1 E2. pose proof (fails_type k2 s E2) as Hf. unfold compares. destruct (bool_decide_reflect (ko_type v1 ∈ obj_irq_control_obj :: obj_domain_obj :: named_types)) as [Hin|Hout]; cbn [orb].
  - assert (Hu : (ko_type v1 =? obj_untyped_obj) = false) by (apply Z.eqb_neq; intros Eu; rewrite Eu in Hin; by vm_compute in Hin; repeat (apply elem_of_cons in Hin as [?|Hin]; [done|]); apply elem_of_nil in Hin).
    unfold is_same_object. apply fails_step. eapply wp_type; [exact E1|]. rewrite Hu. apply fails_step. eapply wp_type; [exact E1|].
    destruct (ko_type v1 =? obj_irq_control_obj) eqn:Ec; [by apply fails_bind|]. unfold is_same_objecttype. fold named_types. apply fails_step. eapply wp_type; [exact E1|].
    destruct (bool_decide_reflect (ko_type v1 ∈ named_types)) as [Hn|Hn]; [by apply fails_bind|]. rewrite Ec. apply Z.eqb_neq in Ec.
    assert (ko_type v1 = obj_domain_obj) as -> by set_solver. by apply fails_bind.
  - assert (Hc : (ko_type v1 =? obj_irq_control_obj) = false /\ (ko_type v1 =? obj_domain_obj) = false /\ bool_decide (ko_type v1 ∈ named_types) = false).
    { rewrite !Z.eqb_neq, bool_decide_eq_false. set_solver. }
    destruct Hc as (Hc & Hdm & Hn). destruct (negb (ko_type v1 mod 2 =? 0)) eqn:Ea.
    + assert (Hev : forall c, c mod 2 = 0 -> (ko_type v1 =? c) = false) by (intros c Hc0; apply Z.eqb_neq; intros Et; by rewrite Et, Hc0 in Ea).
      unfold is_same_object. apply fails_step. eapply wp_type; [exact E1|]. rewrite Hev by done. apply fails_step. eapply wp_type; [exact E1|]. rewrite Hc.
      unfold is_same_objecttype. fold named_types. apply fails_step. eapply wp_type; [exact E1|]. rewrite Hn, Hc, Hdm, !Hev by done. cbn [orb]. apply fails_step. eapply wp_is_arch; [exact E1|].
      rewrite Ea. apply fails_bind, fails_bind. unfold is_arch_k_obj. by apply fails_bind.
    + unfold is_same_object. apply wp_bind. eapply wp_type; [exact E1|]. destruct (ko_type v1 =? obj_untyped_obj); [by apply wp_ret|]. apply wp_bind. eapply wp_type; [exact E1|]. rewrite Hc.
      unfold is_same_objecttype. fold named_types. apply wp_bind. eapply wp_type; [exact E1|]. rewrite Hn, Hc, Hdm. destruct (_ || _); [by apply wp_ret|]. apply wp_bind. eapply wp_is_arch; [exact E1|].
      rewrite Ea. apply wp_bind, wp_skip. by apply wp_ret.
Qed.

(** ** Deletion *)

(** What [is_final_d_object] answers for an object followed by [l2] in the list. *)
Definition final_answer (s : objs X T) (k : k_object) (l2 : list Z) : bool :=
  match l2 with e :: _ :: _ => negb (from_option (same_object k) false (ob_ko s !! e)) | _ => true end.

Lemma null_container : of_dlnode 0 = 2 ^ 32 - 16.
Proof. done. Qed.

Lemma no_null_container s : Memory s -> ob_ko s !! of_dlnode 0 = None.
Proof. intros HM. apply eq_None_not_Some. intros Hs%(me_ko_in _ HM). pose proof (room_range _ Hs) as Hr. rewrite null_container in Hr. lia. Qed.

Lemma wp_llinked s L l1 d l2 (Q : bool -> dmem -> Prop) :
  Table s L (l1 ++ d :: l2) -> Q (bool_decide (length l2 = 1%nat)) (ob_dl s) -> wp (sys_dnode_is_llinked d_obj_dlist (k_obj_dlnode d)) Q (ob_dl s).
Proof.
  intros HT HQ. pose proof (tb_list _ _ _ HT) as HR. rewrite fmap_app, fmap_cons in HR. destruct (ring_links _ _ _ _ HR) as [En _]. pose proof (ring_tail _ _ _ HR) as Et.
  unfold sys_dnode_is_llinked. apply wp_bind, wp_get_next; [apply HR; set_solver|]. apply wp_bind, wp_get_prev; [apply HR; set_solver|]. apply wp_ret. rewrite En, Et, final_app, final_cons.
  pose proof (ring_nodup _ _ _ HR) as Hnd. assert (Hnd2 : NoDup (k_obj_dlnode <$> l2)).
  { apply NoDup_cons in Hnd as [_ Hnd]. apply NoDup_app in Hnd as (_ & _ & Hnd). by apply NoDup_cons in Hnd as [_ Hnd]. }
  enough ((first d_obj_dlist (k_obj_dlnode <$> l2) =? final (k_obj_dlnode d) (k_obj_dlnode <$> l2)) = bool_decide (length l2 = 1%nat)) as -> by done.
  destruct l2 as [|e [|e2 l2]].
  - cbn. apply Z.eqb_neq. intros E. apply NoDup_cons in Hnd as [Hn _]. apply Hn. rewrite E. set_solver.
  - cbn. apply Z.eqb_refl.
  - rewrite bool_decide_false by done. apply Z.eqb_neq. rewrite !fmap_cons in *. cbn [first]. rewrite !final_cons. intros E. apply NoDup_cons in Hnd2 as [Hn _]. apply Hn. rewrite E. apply final_in_cons.
Qed.

Lemma wp_is_final s L l1 d l2 k (Q : bool -> objs X T -> Prop) :
  Table s L (l1 ++ d :: l2) -> ob_ko s !! d = Some k -> l2 <> [] \/ compares (ko_type k) = false -> Q (final_answer s k l2) s -> wp (is_final_d_object d_obj_dlist d) Q s.
Proof.
  intros HT Ek Hok HQ. unfold is_final_d_object. apply wp_bind, wp_zoom. eapply wp_llinked; [exact HT|]. rewrite with_ob_dl_id. destruct l2 as [|e [|e2 l2]].
  - rewrite bool_decide_false by done. pose proof (tb_list _ _ _ HT) as HR. rewrite fmap_app, fmap_cons in HR. apply wp_bind, wp_zoom. eapply wp_dlist_peek_next; [exact HR|]. rewrite with_ob_dl_id.
    cbn [fmap list_fmap first]. pose proof (same_object_missing s d (of_dlnode 0) k Ek (no_null_container s (tb_memory _ _ _ HT))) as Hs. destruct Hok as [|Hc]; [done|]. rewrite Hc in Hs.
    apply wp_bind. eapply wp_mono; [exact Hs|]. cbn beta. intros b s' [-> ->]. by apply wp_ret.
  - by apply wp_ret.
  - rewrite bool_decide_false by done. pose proof (tb_list _ _ _ HT) as HR. rewrite fmap_app, fmap_cons in HR. apply wp_bind, wp_zoom. eapply wp_dlist_peek_next; [exact HR|]. rewrite with_ob_dl_id.
    cbn [fmap list_fmap first]. destruct (tb_live _ _ _ HT e) as [Hr _]; [set_solver|]. rewrite dlnode_roundtrip by done. destruct (me_ko _ (tb_memory _ _ _ HT) e Hr) as [k2 E2].
    apply wp_bind. eapply wp_same_object; [exact Ek|exact E2|]. apply wp_ret. unfold final_answer in HQ. by rewrite E2 in HQ.
Qed.

(** Deleting the object at the end of the list compares it with an object behind the end. *)
Lemma is_final_last_faults s L l1 d k :
  Table s L (l1 ++ [d]) -> ob_ko s !! d = Some k -> compares (ko_type k) = true -> fails (is_final_d_object d_obj_dlist d) Fault s.
Proof.
  intros HT Ek Hc. unfold is_final_d_object. apply fails_step, wp_zoom. eapply wp_llinked; [exact HT|]. rewrite with_ob_dl_id, bool_decide_false by done.
  pose proof (tb_list _ _ _ HT) as HR. rewrite fmap_app, fmap_cons in HR. apply fails_step, wp_zoom. eapply wp_dlist_peek_next; [exact HR|]. rewrite with_ob_dl_id.
  pose proof (same_object_missing s d (of_dlnode 0) k Ek (no_null_container s (tb_memory _ _ _ HT))) as Hs. rewrite Hc in Hs. by apply fails_bind.
Qed.

(** Everything but the tree and the list. *)
Definition relinked s s' : Prop := s' = with_ob_rb (ob_rb s') (with_ob_dl (ob_dl s') s).

Lemma wp_delete s L l1 d l2 k (Q : Z -> objs X T -> Prop) :
  Table s L (l1 ++ d :: l2) -> ob_ko s !! d = Some k -> l2 <> [] \/ compares (ko_type k) = false ->
  (forall s', Table s' L (l1 ++ l2) -> relinked s s' -> nx (ob_dl s') (k_obj_dlnode d) = 0 -> Q 0 s') -> wp (d_object_delete d_obj_dlist preemption_point d) Q s.
Proof.
  intros HT Ek Hok HQ. pose proof HT as [HM HH HS HL Hlive Hdesc]. assert (Hnn : ko_type k <> obj_null_obj) by (destruct (Hdesc d) as (k' & Ek' & _ & _ & _ & Hn); [set_solver|by simplify_eq]). unfold d_object_delete, prepare_d_object_delete. cbn [prepare_loop]. apply wp_bind, wp_bind. eapply wp_type; [exact Ek|].
  rewrite (proj2 (Z.eqb_neq _ _) Hnn). apply wp_bind. eapply wp_is_final; [exact HT|exact Ek|exact Hok|]. apply wp_bind. unfold prepare_k_object_delete.
  apply wp_bind. eapply wp_is_arch; [exact Ek|]. apply wp_bind. eapply wp_type; [exact Ek|]. apply wp_ret. cbn. apply wp_ret. cbn [Z.eqb negb].
  apply wp_bind. unfold empty_d_object. apply wp_bind. eapply wp_type; [exact Ek|]. rewrite (proj2 (Z.eqb_neq _ _) Hnn). apply wp_skip.
  apply wp_bind, wp_zoom. eapply (wp_setrep_remove k_node_lessthan); [exact HS|set_solver|]. intros rb' HS'. apply wp_bind, wp_zoom. parts. rewrite fmap_app, fmap_cons in HL.
  eapply wp_dlist_remove; [exact HL|]. intros dl' HL' Hnx _ [Hd' _]. parts. apply wp_ret. apply HQ; [|done|done]. rewrite <-fmap_app in HL'.
  assert (Hnd : d ∉ l1 ++ l2).
  { pose proof (ring_nodup _ _ _ HL) as Hnd. apply NoDup_cons in Hnd as [_ Hnd]. rewrite <-Permutation_middle in Hnd. apply NoDup_cons in Hnd as [Hn _]. by rewrite <-fmap_app, in_dlnodes in Hn. }
  split; cbn [ob_heap ob_rb ob_dl]; [by eapply memory_parts|done| |done|intros e He; apply Hlive; set_solver|].
  - replace (list_to_set (k_obj_rbnode <$> l1 ++ l2) : gset Z) with (list_to_set (k_obj_rbnode <$> l1 ++ d :: l2) ∖ {[k_obj_rbnode d]} : gset Z); [done|].
    apply set_eq. intros x. rewrite elem_of_difference, elem_of_singleton, !elem_of_list_to_set, !list_elem_of_fmap. split.
    + intros ((e & -> & He) & Hne). exists e. split; [done|]. set_unfold. destruct He as [?|[->|?]]; tauto.
    + intros (e & -> & He). split; [exists e; split; [done|]; set_solver|]. unfold k_obj_rbnode. intros E. apply Hnd. by replace d with e by lia.
  - intros e He. eapply registered_frame; [|apply Hdesc; set_solver]. done.
Qed.

(** ** Release *)

Lemma wp_free_unknown s L R obj (Q : unit -> objs X T -> Prop) :
  Table s L R -> 0 <= obj < 2 ^ 32 -> obj <> 8 -> obj - 32 ∉ R -> Q tt s -> wp (d_object_free d_obj_dlist preemption_point obj) Q s.
Proof.
  intros HT Hobj H8 Hn HQ. unfold d_object_free. apply wp_bind. eapply wp_object_find; [done..|]. rewrite (found_null _ _ _ _ HT), bool_decide_true by done. by apply wp_skip.
Qed.

Lemma wp_free s L l1 d l2 k (Q : unit -> objs X T -> Prop) :
  Table s L (l1 ++ d :: l2) -> ob_ko s !! d = Some k -> l2 <> [] \/ compares (ko_type k) = false ->
  (forall s' h, Table s' (delete d L) (l1 ++ l2) -> relinked (with_ob_heap h s) s' -> Q tt s') -> wp (d_object_free d_obj_dlist preemption_point (k_obj_self d)) Q s.
Proof.
  intros HT Ek Hok HQ. destruct (tb_live _ _ _ HT d) as [Hr HLd]; [set_solver|]. pose proof (room_range d Hr). unfold d_object_free. apply wp_bind.
  eapply wp_object_find; [exact HT|unfold k_obj_self; lia|unfold k_obj_self; lia|]. rewrite (found_null _ _ _ _ HT). unfold found, k_obj_self. replace (d + 32 - 32) with d by lia.
  rewrite decide_True, bool_decide_false by (set_solver). cbn [negb]. apply wp_bind. eapply wp_delete; [exact HT|exact Ek|exact Hok|]. intros s1 HT1 E1 _. apply wp_zoom.
  eapply oh_free_spec; [apply HT1|exact HLd|]. intros h Hh. apply (HQ _ h); [|rewrite E1; by destruct s, s1]. destruct HT1 as [HM HH HS HL Hlive Hdesc]. split; parts; try done.
  - by eapply memory_parts.
  - intros e He. destruct (Hlive e He) as [? Hs]. split; [done|]. rewrite lookup_delete_ne; [done|]. intros <-.
    pose proof (ring_nodup _ _ _ (tb_list _ _ _ HT)) as Hnd. apply NoDup_cons in Hnd as [_ Hnd]. rewrite fmap_app, fmap_cons, <-Permutation_middle in Hnd. apply NoDup_cons in Hnd as [Hn _].
    by rewrite <-fmap_app, in_dlnodes in Hn.
Qed.

Lemma free_last_stops s L l1 d k :
  Table s L (l1 ++ [d]) -> ob_ko s !! d = Some k -> compares (ko_type k) = true -> fails (d_object_free d_obj_dlist preemption_point (k_obj_self d)) Fault s.
Proof.
  intros HT Ek Hc. destruct (tb_live _ _ _ HT d) as [Hr _]; [set_solver|]. pose proof (room_range d Hr). unfold d_object_free. apply fails_step.
  eapply wp_object_find; [exact HT|unfold k_obj_self; lia|unfold k_obj_self; lia|]. rewrite (found_null _ _ _ _ HT). unfold found, k_obj_self. replace (d + 32 - 32) with d by lia.
  rewrite decide_True, bool_decide_false by (set_solver). cbn [negb]. apply fails_bind. unfold d_object_delete, prepare_d_object_delete. cbn [prepare_loop]. apply fails_bind, fails_step.
  eapply wp_type; [exact Ek|]. destruct (tb_desc _ _ _ HT d) as (k' & Ek' & _ & _ & _ & Hnn); [set_solver|]. simplify_eq. rewrite (proj2 (Z.eqb_neq _ _) Hnn). apply fails_bind. by eapply is_final_last_faults.
Qed.

(** The pointer 8 stands for the tree node NULL, which every search finds. *)
Lemma wp_contains_null t : forall fuel st, rep (rb_nodes st) t -> (height t < fuel)%nat -> wp (contains_loop k_node_lessthan fuel (root_addr t) 0) (fun b st' => st' = st /\ b = true) st.
Proof.
  induction t as [|c l IHl a r IHr]; intros fuel st Hr Hf; (destruct fuel as [|fuel]; [lia|]); cbn [contains_loop root_addr]; [by apply wp_ret|].
  pose proof Hr as (_ & [Ha _] & Hrl & Hrr). rewrite (proj2 (Z.eqb_neq a 0)) by done. cbn [negb andb height] in *. apply wp_bind. change a with (root_addr (Node c l a r)) at 1.
  apply wp_get_sub; [done|done|]. cbn [sub]. destruct (k_node_lessthan a 0); [apply IHr|apply IHl]; (done || lia).
Qed.

Lemma free_8_stops s L R : Table s L R -> fails (d_object_free d_obj_dlist preemption_point 8) Fault s.
Proof.
  intros HT. pose proof HT as [HM _ [(Tr & N & Ht & _) _ _] _ _ _]. unfold d_object_free, d_object_find. change sizeof_rbnode with 8. apply fails_step, wp_bind, wp_zoom. change (u32 (8 - 8)) with 0.
  unfold rb_contains. apply wp_bind, wp_get. rewrite (t_root _ _ _ _ Ht). eapply wp_mono.
  { apply wp_contains_null; [apply Ht|]. pose proof (rep_size _ _ (t_rep _ _ _ _ Ht) (tree_nodup _ _ _ _ Ht)). lia. }
  cbn beta. intros b st [-> ->]. apply wp_ret. rewrite with_ob_rb_id. change (node_to_d_obj 0) with (2 ^ 32 - 24). cbn [Z.eqb negb]. apply fails_bind.
  unfold d_object_delete, prepare_d_object_delete. cbn [prepare_loop]. apply fails_bind, fails_bind, fails_type. apply eq_None_not_Some. intros Hs%(me_ko_in _ HM). pose proof (room_range _ Hs). lia.
Qed.

(** ** Access rights *)

(** A descriptor written in place. *)
Lemma table_write s L R d k v :
  Table s L R -> ob_ko s !! d = Some k -> (d ∈ R -> registered (with_ob_ko (<[d := v]> (ob_ko s)) s) d) -> Table (with_ob_ko (<[d := v]> (ob_ko s)) s) L R.
Proof.
  intros [HM HH HS HL Hlive Hdesc] Ek Hv. split; try done.
  - eapply memory_parts; [exact HM|apply is_Some_insert; by rewrite Ek|done|done].
  - intros e He. destruct (decide (e = d)) as [->|Hne]; [by apply Hv|]. eapply registered_frame; [|by apply Hdesc]. cbn. by rewrite lookup_insert_ne.
Qed.

Lemma wp_validate s L R obj thread otype (Q : Z -> objs X T -> Prop) :
  Table s L R -> 0 <= thread < 2 ^ 32 -> thread <> 8 -> Q (- EBADF) s -> wp (k_object_access_validate (found R obj) thread otype) Q s.
Proof.
  intros HT Ht H8 HQ. unfold k_object_access_validate. apply wp_bind. eapply wp_k_find; [done..|]. apply wp_bind. unfold bad_object. rewrite (found_null _ _ _ _ HT). unfold found.
  destruct (decide (obj - 32 ∈ R)) as [Hin|Hout]; [|rewrite bool_decide_true by done; apply wp_ret; by apply wp_ret]. rewrite bool_decide_false by tauto.
  destruct (tb_desc _ _ _ HT _ Hin) as (k & Ek & En & _). apply wp_bind. eapply wp_rd_ko; [exact Ek|]. apply wp_ret. rewrite En. unfold k_obj_self. rewrite (proj2 (Z.eqb_neq _ _)) by lia. by apply wp_ret.
Qed.

(** The access mask of the thread object behind a pointer. *)
Definition thread_data s R (thread : Z) : Z := if decide (thread - 32 ∈ R) then from_option ko_data 0 (ob_ko s !! (thread - 32)) else 0.

Lemma wp_thread_data s L R thread (Q : Z -> objs X T -> Prop) :
  Table s L R -> 0 <= thread < 2 ^ 32 -> thread <> 8 -> Q (thread_data s R thread) s -> wp (get_thread_k_object_data thread) Q s.
Proof.
  intros HT Ht H8 HQ. unfold get_thread_k_object_data. apply wp_bind. eapply wp_k_find; [done..|]. rewrite (found_null _ _ _ _ HT). unfold found, thread_data in *.
  destruct (decide (thread - 32 ∈ R)) as [Hin|Hout]; [|rewrite bool_decide_true by done; by apply wp_ret]. rewrite bool_decide_false by tauto. cbn [negb].
  destruct (tb_desc _ _ _ HT _ Hin) as (k & Ek & _). apply wp_bind. eapply wp_rd_ko; [exact Ek|]. apply wp_ret. rewrite Ek in HQ. cbn in HQ. by destruct (Z.eqb_spec (ko_data k) 0) as [<-|].
Qed.

Definition granted (grant : Z) (k : k_object) : k_object := with_ko_flag (Z.lor (ko_flag k) obj_granted_obj) (with_ko_data (Z.lor (ko_data k) grant) k).
Definition revoked (grant : Z) (k : k_object) : k_object := with_ko_flag (Z.land (ko_flag k) (u8 (not32 obj_granted_obj))) (with_ko_data (Z.land (ko_data k) (not32 grant)) k).

(** The descriptor of a registered object changed. *)
Definition set_desc s R (obj : Z) (f : k_object -> k_object) : objs X T :=
  if decide (obj - 32 ∈ R) then with_ob_ko (alter f (obj - 32) (ob_ko s)) s else s.

Lemma alter_insert_ko (m : gmap Z k_object) d f k : m !! d = Some k -> alter f d m = <[d := f k]> m.
Proof. intros E. apply map_eq. intros i. destruct (decide (i = d)) as [->|]; [by rewrite lookup_alter_eq, E, lookup_insert_eq|by rewrite lookup_alter_ne, lookup_insert_ne]. Qed.

Lemma set_desc_same s R obj k f : ob_ko s !! (obj - 32) = Some k -> f k = k -> set_desc s R obj f = s.
Proof. intros E Ef. unfold set_desc. destruct (decide _); [|done]. rewrite (alter_insert_ko _ _ _ k), Ef, insert_id by done. by destruct s. Qed.

Lemma wp_grant s L R obj thread (Q : unit -> objs X T -> Prop) :
  Table s L R -> 0 <= obj < 2 ^ 32 -> obj <> 8 -> 0 <= thread < 2 ^ 32 -> thread <> 8 ->
  Q tt (set_desc s R obj (fun k => if (ko_data k =? 0) && negb (thread_data s R thread =? 0) then granted (thread_data s R thread) k else k)) ->
  wp (k_object_access_grant obj thread) Q s.
Proof.
  intros HT Ho H8 Ht H8' HQ. unfold k_object_access_grant. apply wp_bind. eapply wp_k_find; [done..|]. apply wp_bind. eapply wp_thread_data; [done..|]. rewrite (found_null _ _ _ _ HT).
  set (g := thread_data s R thread) in *. unfold found. destruct (decide (obj - 32 ∈ R)) as [Hin|Hout]; [|rewrite bool_decide_true by done; cbn [negb andb]; apply wp_skip; unfold set_desc in HQ; by rewrite decide_False in HQ].
  rewrite bool_decide_false by tauto. destruct (tb_desc _ _ _ HT _ Hin) as (k & Ek & _ & _ & Hd & _). destruct (Z.eqb_spec g 0) as [Eg|Eg]; cbn [negb andb].
  { apply wp_skip. erewrite set_desc_same in HQ; [exact HQ|exact Ek|]. cbn. by rewrite andb_false_r. }
  apply wp_bind. eapply wp_rd_ko; [exact Ek|]. rewrite popcountl_zero by done. destruct (Z.eqb_spec (ko_data k) 0) as [Ed|Ed].
  - apply wp_bind. eapply wp_wr_ko; [exact Ek|]. eapply wp_wr_ko; [cbn; apply lookup_insert_eq|]. unfold set_desc in HQ. rewrite decide_True, (alter_insert_ko _ _ _ k), Ed in HQ by done. cbn [Z.eqb negb andb] in HQ.
    parts. rewrite insert_insert_eq. unfold granted, with_ko_flag, with_ko_data in *. cbn in *. by rewrite Ed in *.
  - apply wp_skip. erewrite set_desc_same in HQ; [exact HQ|exact Ek|]. cbn. by rewrite (proj2 (Z.eqb_neq _ _) Ed).
Qed.

Lemma wp_revoke s L R obj thread (Q : unit -> objs X T -> Prop) :
  Table s L R -> 0 <= obj < 2 ^ 32 -> obj <> 8 -> 0 <= thread < 2 ^ 32 -> thread <> 8 ->
  Q tt (set_desc s R obj (fun k => if (ones 32 (ko_data k) =? 1) && negb (thread_data s R thread =? 0) then revoked (thread_data s R thread) k else k)) ->
  wp (k_object_access_revoke obj thread) Q s.
Proof.
  intros HT Ho H8 Ht H8' HQ. unfold k_object_access_revoke. apply wp_bind. eapply wp_k_find; [done..|]. apply wp_bind. eapply wp_thread_data; [done..|]. rewrite (found_null _ _ _ _ HT).
  set (g := thread_data s R thread) in *. unfold found. destruct (decide (obj - 32 ∈ R)) as [Hin|Hout]; [|rewrite bool_decide_true by done; cbn [negb andb]; apply wp_skip; unfold set_desc in HQ; by rewrite decide_False in HQ].
  rewrite bool_decide_false by tauto. destruct (tb_desc _ _ _ HT _ Hin) as (k & Ek & _ & _ & Hd & _). destruct (Z.eqb_spec g 0) as [Eg|Eg]; cbn [negb andb].
  { apply wp_skip. erewrite set_desc_same in HQ; [exact HQ|exact Ek|]. cbn beta. by rewrite andb_false_r. }
  apply wp_bind. eapply wp_rd_ko; [exact Ek|]. rewrite popcountl_ones by done. destruct (Z.eqb_spec (ones 32 (ko_data k)) 1) as [Ed|Ed].
  - apply wp_bind. eapply wp_wr_ko; [exact Ek|]. eapply wp_wr_ko; [cbn; apply lookup_insert_eq|]. unfold set_desc in HQ. rewrite decide_True, (alter_insert_ko _ _ _ k), Ed in HQ by done. cbn [Z.eqb Pos.eqb negb andb] in HQ.
    parts. rewrite insert_insert_eq. done.
  - apply wp_skip. erewrite set_desc_same in HQ; [exact HQ|exact Ek|]. cbn beta. by rewrite (proj2 (Z.eqb_neq _ _) Ed).
Qed.

End Table.
