(* ===== verification/ObjectSystem.v ===== *)
(** * The object table on the kernel heap, and every sequence of its operations

    The kernel heap of [Heap] is an [ObjectHeap].  [runs s0 s]: the state [s] is reached from
    [s0] by completed allocations, releases, grants and revocations of access and changes of
    rights, in any order; [k_object_update_data] has no caller and is not among them. *)

From Stdlib Require Import ZArith Lia Bool List.
From stdpp Require Import base tactics numbers list gmap fin_sets.
From S2P Require Import Prelude Partial DList DNode RbTree RbTheorems RbSet Bytes CMem MemPool MemPoolFacts MemPoolTheorems MemPoolInit MemPoolSystem Heap Objects ObjectTable.

Local Open Scope Z_scope.

(** ** The kernel heap *)

Section KernelHeap.
Context `{Config} (p0 : mempool) (R0 : Raw p0) (Hsm : small p0) (Hal : mp_buf p0 mod 4 = 0) (Hend : mp_buf p0 + mp_n_max p0 * mp_max_sz p0 < 2 ^ 32).

Definition kernel_live (p : mempool) (L : gmap Z Z) : Prop := exists g h Sp Al, Live p0 g h p Sp Al L.

Lemma block_aligned x : valid p0 x -> (addr p0 x + 4) mod 4 = 0.
Proof.
  intros [Hl Hb]. destruct (lsz_word p0 (rw_geo _ R0) x.1 Hl) as [H4 _]. unfold addr. rewrite (Z.div_mod (lsz p0 x.1) 4), H4 by lia. rewrite (Z.div_mod (mp_buf p0) 4), Hal by lia.
  replace (4 * (mp_buf p0 / 4) + 0 + (4 * (lsz p0 x.1 / 4) + 0) * x.2 + 4) with ((mp_buf p0 / 4 + lsz p0 x.1 / 4 * x.2 + 1) * 4) by lia. by apply Z.mod_mul.
Qed.

Lemma kernel_malloc h L size (Q : Z -> mempool -> Prop) :
  kernel_live h L -> 0 <= size < 2 ^ 32 -> (forall h', kernel_live h' L -> Q 0 h') ->
  (forall r h', r mod 4 = 0 -> mp_buf p0 <= r -> r + size <= mp_buf p0 + mp_n_max p0 * mp_max_sz p0 ->
     (forall r' sz', L !! r' = Some sz' -> r' <> r /\ (r + size <= r' \/ r' + sz' <= r)) -> kernel_live h' (<[r := size]> L) -> Q r h') ->
  wp (malloc_object size) Q h.
Proof.
  intros (g & hh & Sp & Al & HL) Hsz HQ0 HQ1. pose proof HL as [HR Hptr Hall]. eapply wp_malloc; [exact R0|exact Hsm|exact HL|done|intros _; apply HQ0; by exists g, hh, Sp, Al|].
  intros x h' p' Sp' Hv Hap Hl HL'. pose proof (addr_range p0 (rw_geo _ R0) x Hv) as Hr. apply HQ1; [by apply block_aligned|lia|lia| |by exists g, h', Sp', ({[x]} ∪ Al)].
  intros r' sz' E. destruct (Hptr r' sz' E) as (y & Hy & -> & H0 & Hs & _). pose proof (runs_valid p0 _ _ _ _ _ _ HR Hy) as Hvy.
  destruct (lsz_word p0 (rw_geo _ R0) x.1 (proj1 Hv)) as [_ H1], (lsz_word p0 (rw_geo _ R0) y.1 (proj1 Hvy)) as [_ H2].
  destruct (unshared_apart p0 R0 x y Hv Hvy (Hap y Hy)); lia.
Qed.

Lemma kernel_free h L r (Q : unit -> mempool -> Prop) :
  kernel_live h L -> is_Some (L !! r) -> (forall h', kernel_live h' (delete r L) -> Q tt h') -> wp (free_object r) Q h.
Proof.
  intros (g & hh & Sp & Al & HL) Hr HQ. eapply wp_free_object; [exact R0|exact Hsm|exact HL|done|]. intros h' p' Sp' Al' HL'. apply HQ. by exists g, h', Sp', Al'.
Qed.

(** The heap keeps its promise to the object table. *)
Definition kernel_heap : ObjectHeap mempool := {|
  oh_malloc := malloc_object;
  oh_free := free_object;
  oh_lo := mp_buf p0;
  oh_hi := mp_buf p0 + mp_n_max p0 * mp_max_sz p0;
  oh_live := kernel_live;
  oh_range := conj (g_buf _ (rw_geo _ R0)) Hend;
  oh_malloc_spec := kernel_malloc;
  oh_free_spec := kernel_free;
|}.

End KernelHeap.

(** ** Runs *)

(** ** Stores behind the end of memory *)

Lemma pwp_stb a x v (Q : unit -> bmem -> Prop) m : m !! x = None -> (forall m', a <> x -> m' !! x = None -> Q tt m') -> pwp (stb a v) Q m.
Proof.
  intros Hx HQ. unfold pwp, stb. destruct (m !! a) eqn:E; [|done]. assert (a <> x) by congruence. apply HQ; [done|]. by rewrite lookup_insert_ne.
Qed.

Lemma pwp_set_words x w k : forall d (Q : unit -> bmem -> Prop) m,
  m !! x = None -> (forall m', ~ d <= x < d + 4 * Z.of_nat k -> m' !! x = None -> Q tt m') -> pwp (set_words k d w) Q m.
Proof.
  induction k as [|k IH]; intros d Q m Hx HQ; cbn [set_words]; [apply HQ; [lia|done]|]. unfold set_word.
  do 4 (apply pwp_bind; try (apply pwp_stb with (x := x); [done|clear dependent m; intros m ? Hx])).
  apply pwp_stb with (x := x); [done|]. clear dependent m. intros m ? Hx.
  apply IH; [done|]. intros m' ? ?. apply HQ; [lia|done].
Qed.

Section System.
Context `{Config} `{ObjectSizes} {X T : Type} `{ObjectHeap T}.
Context (d_obj_dlist : Z) (preemption_point : ST X Z) (D : gset Z).

Notation OM := (ST (objs X T)).
Notation Table := (Table d_obj_dlist D).
Implicit Types (s : objs X T) (L : gmap Z Z) (R : list Z).

(** A pointer as callers pass it; 8 is the one that [free_8_stops] is about. *)
Definition pointer (a : Z) : Prop := 0 <= a < 2 ^ 32 /\ a <> 8.

(** An allocation whose size does not wrap. *)
Definition fits (type usz : Z) : Prop := 0 <= get_k_object_size type usz /\ 32 + get_k_object_size type usz < 2 ^ 32 /\ u8 type <> obj_null_obj.

Inductive runs (s0 : objs X T) : objs X T -> Prop :=
| runs_start : runs s0 s0
| runs_alloc s stale type usz r s' : runs s0 s -> fits type usz -> d_object_alloc d_obj_dlist stale type usz s = Done r s' -> runs s0 s'
| runs_free s obj s' : runs s0 s -> 0 <= obj < 2 ^ 32 -> d_object_free d_obj_dlist preemption_point obj s = Done tt s' -> runs s0 s'
| runs_grant s obj thread s' : runs s0 s -> pointer obj -> pointer thread -> k_object_access_grant obj thread s = Done tt s' -> runs s0 s'
| runs_revoke s obj thread s' : runs s0 s -> pointer obj -> pointer thread -> k_object_access_revoke obj thread s = Done tt s' -> runs s0 s'.

(** No registered object has an access mask. *)
Definition unowned s R : Prop := forall d k, d ∈ R -> ob_ko s !! d = Some k -> ko_data k = 0.

Lemma unowned_data s R t : unowned s R -> thread_data s R t = 0.
Proof. intros Hu. unfold thread_data. destruct (decide _) as [Hin|]; [|done]. destruct (ob_ko s !! (t - 32)) as [k|] eqn:E; [|done]. by apply (Hu (t - 32)). Qed.

Lemma set_desc_id s R obj : set_desc s R obj (fun k => k) = s.
Proof. unfold set_desc. destruct (decide _); [|done]. rewrite alter_id by done. by destruct s. Qed.

Lemma set_desc_ext s R obj f g : (forall k, f k = g k) -> set_desc s R obj f = set_desc s R obj g.
Proof. intros E. unfold set_desc. destruct (decide _); [|done]. by rewrite (alter_ext f g). Qed.

(** Without a mask there is nothing to grant or to revoke. *)
Lemma wp_grant_unowned s L R obj thread (Q : unit -> objs X T -> Prop) :
  Table s L R -> unowned s R -> pointer obj -> pointer thread -> Q tt s -> wp (k_object_access_grant obj thread) Q s.
Proof.
  intros HT Hu [Ho H8] [Ht H8'] HQ. eapply wp_grant; [exact HT|done..|]. rewrite (unowned_data s R thread Hu). by rewrite (set_desc_ext _ _ _ _ (fun k => k)), set_desc_id by (intros k; by rewrite andb_false_r).
Qed.

Lemma wp_revoke_unowned s L R obj thread (Q : unit -> objs X T -> Prop) :
  Table s L R -> unowned s R -> pointer obj -> pointer thread -> Q tt s -> wp (k_object_access_revoke obj thread) Q s.
Proof.
  intros HT Hu [Ho H8] [Ht H8'] HQ. eapply wp_revoke; [exact HT|done..|]. rewrite (unowned_data s R thread Hu). by rewrite (set_desc_ext _ _ _ _ (fun k => k)), set_desc_id by (intros k; by rewrite andb_false_r).
Qed.

(** A release either stops or removes exactly one object. *)
Lemma wp_free_cases s L R obj (Q : unit -> objs X T -> Prop) :
  Table s L R -> 0 <= obj < 2 ^ 32 -> (obj - 32 ∉ R -> Q tt s) ->
  (forall l1 l2 h s', R = l1 ++ (obj - 32) :: l2 -> Table s' (delete (obj - 32) L) (l1 ++ l2) -> relinked (with_ob_heap h s) s' -> Q tt s') ->
  pwp (d_object_free d_obj_dlist preemption_point obj) Q s.
Proof.
  intros HT Hobj HQ0 HQ1. destruct (decide (obj = 8)) as [->|H8]; [unfold pwp; by rewrite (free_8_stops d_obj_dlist preemption_point D s L R HT)|].
  destruct (decide (obj - 32 ∈ R)) as [Hin|Hout]; [|apply wp_pwp; eapply wp_free_unknown; [exact HT|done..|by apply HQ0]].
  apply list_elem_of_split in Hin as (l1 & l2 & ->). destruct (tb_desc _ _ _ _ _ HT (obj - 32)) as (k & Ek & _); [set_solver|].
  assert (Eo : obj = k_obj_self (obj - 32)) by (unfold k_obj_self; lia). rewrite Eo at 1. destruct (decide (l2 = [])) as [->|Hne], (compares (ko_type k)) eqn:Ec.
  - unfold pwp. by rewrite (free_last_stops d_obj_dlist preemption_point D s L l1 (obj - 32) k HT Ek Ec).
  - apply wp_pwp. eapply wp_free; [exact HT|exact Ek|by right|]. intros s' h HT' E'. by eapply HQ1.
  - apply wp_pwp. eapply wp_free; [exact HT|exact Ek|by left|]. intros s' h HT' E'. by eapply HQ1.
  - apply wp_pwp. eapply wp_free; [exact HT|exact Ek|by left|]. intros s' h HT' E'. by eapply HQ1.
Qed.

Lemma pwp_done {A} (m : OM A) (Q : A -> objs X T -> Prop) s a s' : pwp m Q s -> m s = Done a s' -> Q a s'.
Proof. intros Hm E. unfold pwp in Hm. by rewrite E in Hm. Qed.

(** Live blocks do not overlap. *)
Definition spread L : Prop := forall r1 r2 z1 z2, L !! r1 = Some z1 -> L !! r2 = Some z2 -> r1 <> r2 -> r1 + z1 <= r2 \/ r2 + z2 <= r1.

(** The block of a registered object holds its descriptor and the object of its type. *)
Definition sized s L R : Prop := forall d, d ∈ R -> exists k type usz,
  ob_ko s !! d = Some k /\ ko_type k = u8 type /\ fits type usz /\ L !! d = Some (32 + get_k_object_size type usz).

Lemma spread_insert L d n : spread L -> apart_from L d n -> spread (<[d := n]> L).
Proof.
  intros HS Ha r1 r2 z1 z2 E1 E2 Hne. destruct (decide (r1 = d)) as [->|H1'], (decide (r2 = d)) as [->|H2']; [done| | |];
    rewrite ?lookup_insert_eq, ?lookup_insert_ne in * by done; [injection E1 as <-; by apply Ha in E2 as [_ ?]|injection E2 as <-; apply Ha in E1 as [_ ?]; tauto|by eapply HS].
Qed.

Lemma spread_delete L d : spread L -> spread (delete d L).
Proof. intros HS r1 r2 z1 z2 [_ E1]%lookup_delete_Some [_ E2]%lookup_delete_Some. by apply HS. Qed.

Lemma table_nodup s L R : Table s L R -> NoDup R.
Proof. intros HT. pose proof (ring_nodup _ _ _ (tb_list _ _ _ _ _ HT)) as [_ Hnd]%NoDup_cons. by apply NoDup_fmap_1 in Hnd. Qed.

(** What every run keeps. *)
Definition kept L0 s : Prop := exists L R, Table s L R /\ unowned s R /\ (spread L0 -> spread L) /\ sized s L R.

Lemma kept_alloc L0 s stale type usz r s' : kept L0 s -> fits type usz -> d_object_alloc d_obj_dlist stale type usz s = Done r s' -> kept L0 s'.
Proof.
  intros (L & R & HT & Hu & Hs & Hz) Hf E. pose proof Hf as (Hf0 & Hf1 & Hf2). eapply (wp_done _ (fun _ => kept L0)); [|exact E]. eapply wp_alloc; [exact HT|done..| |].
  - intros h Hh. exists L, R. split; [|done]. destruct HT as [HM HH HS HL Hlive Hdesc]. split; try done. by eapply memory_parts.
  - intros d s1 Hd _ Hap HT1 Ek _ _ _. exists (<[d := 32 + get_k_object_size type usz]> L), (register (ob_type s) type d R). split; [done|].
    assert (Hreg : forall e, e ∈ register (ob_type s) type d R -> e = d \/ e ∈ R) by (intros e; unfold register; destruct (_ =? _); set_solver).
    split_and!; [|intros H0'; apply spread_insert; auto|].
    + intros e k He Ee. rewrite Ek in Ee. destruct (decide (e = d)) as [->|Hne]; [rewrite lookup_insert_eq in Ee; by injection Ee as <-|]. rewrite lookup_insert_ne in Ee by done. apply (Hu e); [|done]. by destruct (Hreg e He).
    + intros e He. rewrite Ek. destruct (decide (e = d)) as [->|Hne]; [rewrite !lookup_insert_eq; by exists (new_desc stale type d), type, usz|]. rewrite !lookup_insert_ne by done. apply Hz. by destruct (Hreg e He).
Qed.

Lemma kept_free L0 s obj s' : kept L0 s -> 0 <= obj < 2 ^ 32 -> d_object_free d_obj_dlist preemption_point obj s = Done tt s' -> kept L0 s'.
Proof.
  intros (L & R & HT & Hu & Hs & Hz) Ho E. eapply (pwp_done _ (fun _ => kept L0)); [|exact E]. eapply wp_free_cases; [exact HT|done|by exists L, R|].
  intros l1 l2 h s1 -> HT1 E1. exists (delete (obj - 32) L), (l1 ++ l2). assert (Ek : ob_ko s1 = ob_ko s) by (by rewrite E1). split; [done|]. split_and!; [|intros H0'; apply spread_delete; auto|].
  - intros d k Hd Ed. rewrite Ek in Ed. apply (Hu d); [set_solver|done].
  - intros d Hd. rewrite Ek, lookup_delete_ne; [apply Hz; set_solver|]. intros <-. apply table_nodup in HT. apply NoDup_app in HT as (_ & Hd1 & [Hd2 _]%NoDup_cons). set_solver.
Qed.

Lemma runs_kept s0 L0 s : Table s0 L0 [] -> runs s0 s -> kept L0 s.
Proof.
  intros HT0. induction 1 as [|s stale type usz r s' _ IH Hf E|s obj s' _ IH Ho E|s obj thread s' _ (L & R & HT & Hu & HI) Ho Ht E|s obj thread s' _ (L & R & HT & Hu & HI) Ho Ht E].
  - exists L0, []. split_and!; [done|intros d k Hd; by apply elem_of_nil in Hd|done|intros d Hd; by apply elem_of_nil in Hd].
  - by eapply kept_alloc.
  - by eapply kept_free.
  - eapply (wp_done _ (fun _ => kept L0)); [|exact E]. eapply wp_grant_unowned; [exact HT|done..|]. by exists L, R.
  - eapply (wp_done _ (fun _ => kept L0)); [|exact E]. eapply wp_revoke_unowned; [exact HT|done..|]. by exists L, R.
Qed.

Lemma runs_table s0 L0 s : Table s0 L0 [] -> runs s0 s -> exists L R, Table s L R /\ unowned s R.
Proof. intros HT Hr. destruct (runs_kept s0 L0 s HT Hr) as (L & R & HT' & Hu & _). by exists L, R. Qed.

Lemma table_after s L R stale type usz d s' :
  Table s L R -> fits type usz -> d_object_alloc d_obj_dlist stale type usz s = Done (k_obj_self d) s' -> 0 < d ->
  Table s' (<[d := 32 + get_k_object_size type usz]> L) (register (ob_type s) type d R).
Proof.
  intros HT (Hf0 & Hf1 & Hf2) E Hd. eapply (wp_done _ (fun r s' => r = k_obj_self d -> Table s' (<[d := 32 + get_k_object_size type usz]> L) (register (ob_type s) type d R))); [|exact E|done].
  eapply wp_alloc; [exact HT|done..|intros h _ E0; unfold k_obj_self in E0; lia|]. intros e s1 _ _ _ HT1 _ _ _ _ Ee. unfold k_obj_self in Ee. by replace d with e by lia.
Qed.

(** ** Iteration *)

Definition first_of (l : list Z) : Z := match l with [] => 0 | d :: _ => d end.

Lemma wp_next_container dl R l1 d l2 (Q : Z -> objs X T -> Prop) s :
  Ring dl d_obj_dlist (k_obj_dlnode <$> R) -> (forall e, e ∈ R -> room e) -> R = l1 ++ d :: l2 -> ob_dl s = dl -> Q (first_of l2) s -> wp (next_container d_obj_dlist d) Q s.
Proof.
  intros HR Hroom -> Edl HQ. pose proof (room_range d (Hroom d ltac:(set_solver))). rewrite fmap_app, fmap_cons in HR. unfold next_container. rewrite (proj2 (Z.eqb_neq d 0)) by lia. cbn [negb].
  apply wp_bind, wp_zoom. rewrite Edl. eapply wp_dlist_peek_next; [exact HR|]. rewrite <-Edl, with_ob_dl_id. apply wp_ret. destruct l2 as [|e l2]; [done|]. cbn [fmap list_fmap first first_of] in *.
  assert (He : room e) by (apply Hroom; set_solver). pose proof (room_range e He). rewrite (proj2 (Z.eqb_neq _ 0)), dlnode_roundtrip by (done || (unfold k_obj_dlnode; lia)). done.
Qed.

Section Foreach.
Context (func : Z -> OM unit) (g : Z -> objs X T -> objs X T).

Lemma wp_foreach_loop dl R l2 : forall fuel l1 s,
  Ring dl d_obj_dlist (k_obj_dlnode <$> R) -> (forall e, e ∈ R -> room e) -> (forall d s, d ∈ R -> ob_dl s = dl -> func d s = Done tt (g d s) /\ ob_dl (g d s) = dl) ->
  R = l1 ++ l2 -> ob_dl s = dl -> (length l2 < fuel)%nat -> wp (foreach_loop d_obj_dlist func fuel (first_of l2) (first_of (tail l2))) (fun _ s' => s' = foldl (fun s d => g d s) s l2) s.
Proof.
  induction l2 as [|d l2 IH]; intros fuel l1 s HR Hroom Hf ER Edl Hfu; (destruct fuel as [|fuel]; [cbn in Hfu; lia|]); cbn [foreach_loop first_of tail length foldl] in *; [by apply wp_skip|].
  assert (Hd : d ∈ R) by (rewrite ER; set_solver). pose proof (room_range d (Hroom d Hd)). rewrite (proj2 (Z.eqb_neq d 0)) by lia. cbn [negb]. destruct (Hf d s Hd Edl) as [Ef Edl']. apply wp_bind. unfold wp at 1. rewrite Ef.
  apply wp_bind. assert (Hnext : wp (next_container d_obj_dlist (first_of l2)) (fun n s' => n = first_of (tail l2) /\ s' = g d s) (g d s)).
  { destruct l2 as [|e l2]; [by apply wp_ret|]. cbn [first_of tail]. eapply (wp_next_container dl R (l1 ++ [d]) e l2); [done|done|rewrite ER; by rewrite <-app_assoc|done|done]. }
  eapply wp_mono; [exact Hnext|]. cbn beta. intros n s' [-> ->]. apply (IH fuel (l1 ++ [d])); [done|done|done|rewrite ER; by rewrite <-app_assoc|done|lia].
Qed.
End Foreach.

Lemma ring_length m lst l : Ring m lst l -> (length l < size m)%nat.
Proof.
  intros HR. pose proof (ring_nodup _ _ _ HR) as Hnd. rewrite <-size_dom. replace (length l) with (pred (size (list_to_set (lst :: l) : gset Z))) by (rewrite size_list_to_set by done; done).
  assert (Hle : (size (list_to_set (lst :: l) : gset Z) <= size (dom m))%nat).
  { apply subseteq_size. intros x. rewrite elem_of_list_to_set, elem_of_dom. apply HR. }
  rewrite size_list_to_set in * by done. cbn [length] in *. lia.
Qed.

(** ** Theorems *)

(** Lemma: [k_object_wordlist_foreach] with a callback that leaves the list alone calls it once
    for each registered object, in the order of registration. *)
Theorem wordlist_foreach_exact s L R func g :
  Table s L R -> (forall d s', d ∈ R -> ob_dl s' = ob_dl s -> func d s' = Done tt (g d s') /\ ob_dl (g d s') = ob_dl s) ->
  k_object_wordlist_foreach d_obj_dlist func s = Done tt (foldl (fun s d => g d s) s R).
Proof.
  intros HT Hf. pose proof HT as [HM HH HS HL Hlive Hdesc]. assert (Hroom : forall e, e ∈ R -> room e) by (intros e He; by apply Hlive). apply run_done. unfold k_object_wordlist_foreach. apply wp_bind, wp_zoom. eapply wp_dlist_peek_head; [exact HL|]. rewrite with_ob_dl_id.
  assert (Eh : (if negb (first 0 (k_obj_dlnode <$> R) =? 0) then of_dlnode (first 0 (k_obj_dlnode <$> R)) else 0) = first_of R).
  { destruct R as [|d R]; [done|]. cbn [fmap list_fmap first first_of]. assert (Hd : room d) by (apply Hroom; set_solver). pose proof (room_range d Hd). rewrite (proj2 (Z.eqb_neq _ 0)), dlnode_roundtrip by (done || (unfold k_obj_dlnode; lia)). done. }
  rewrite Eh. apply wp_bind. assert (Hnext : wp (next_container d_obj_dlist (first_of R)) (fun n s' => n = first_of (tail R) /\ s' = s) s).
  { destruct R as [|e R]; [by apply wp_ret|]. by eapply (wp_next_container _ _ []). }
  eapply wp_mono; [exact Hnext|]. cbn beta. intros n s' [-> ->]. apply wp_bind, wp_get. pose proof (ring_length _ _ _ HL) as Hsz. rewrite length_fmap in Hsz.
  eapply wp_mono; [eapply (wp_foreach_loop func g (ob_dl s) R R _ []); [done|done|done|done|done|lia]|]. by intros [] s' ->.
Qed.

(** C15: after any sequence of completed allocations, releases, grants and revocations from an
    empty table, the tree and the list hold the same live objects, each with its own name and
    marked as allocated; each one's block has the size of its descriptor and an object of its
    type, and no two live blocks overlap.  The sizes of the allocations do not wrap. *)
Theorem object_table_invariant s0 L0 s : Table s0 L0 [] -> spread L0 -> runs s0 s -> exists L R, Table s L R /\ spread L /\ sized s L R.
Proof. intros HT H0' Hr. destruct (runs_kept s0 L0 s HT Hr) as (L & R & HT' & _ & Hs & Hz). exists L, R. auto. Qed.

(** C16: [d_object_alloc] of a type other than null and a size that does not wrap ends.  It returns NULL and only the heap may have changed, or an
    object of the type, cleared, apart from every live pointer; the object is registered at the
    end of the list exactly if its type is not that of the allocation before.  The descriptor
    keeps the bits that the flag byte had in the memory handed out. *)
Theorem d_object_alloc_exact s L R stale type usz :
  Table s L R -> fits type usz ->
  exists r s', d_object_alloc d_obj_dlist stale type usz s = Done r s' /\
    (r = 0 /\ Table s' L R /\ s' = with_ob_heap (ob_heap s') s \/
     exists d, r = k_obj_self d /\ apart_from L d (32 + get_k_object_size type usz) /\
       Table s' (<[d := 32 + get_k_object_size type usz]> L) (if ob_type s =? type then R else R ++ [d]) /\
       ob_ko s' = <[d := new_desc stale type d]> (ob_ko s) /\ ob_type s' = type /\
       filled (ob_mem s) r (get_k_object_size type usz) 0 (ob_mem s')).
Proof.
  intros HT (H1' & H2' & H3'). apply wp_run. eapply wp_alloc; [exact HT|done..| |].
  - intros h Hh. left. split; [done|]. split; [|done]. destruct HT as [HM HH HS HL Hlive Hdesc]. split; try done. by eapply memory_parts.
  - intros d s' Hd Hhi Hap HT' Ek Ety _ Hf. right. by exists d.
Qed.

(** Lemma: the size of an untyped object is added to the size of its descriptor without a check
    for overflow: for a size that makes the sum wrap the heap is asked for fewer bytes than the
    descriptor takes, and the whole size is cleared.  Where the byte behind the heap is not
    mapped, no such allocation returns an object: it returns NULL, or it faults. *)
Theorem untyped_size_wraps s L R stale usz :
  Table s L R -> 2 ^ 32 - 32 <= usz < 2 ^ 32 -> ob_mem s !! oh_hi = None ->
  u32 (sizeof_d_object + get_k_object_size obj_untyped_obj usz) < sizeof_d_object /\
  forall r s', d_object_alloc d_obj_dlist stale obj_untyped_obj usz s = Done r s' -> r = 0.
Proof.
  intros HT Husz Hx. change (get_k_object_size obj_untyped_obj usz) with usz. change sizeof_d_object with 32.
  assert (Ew : u32 (32 + usz) = usz - (2 ^ 32 - 32)) by (unfold u32; rewrite <-(Z.mod_small (usz - (2 ^ 32 - 32)) (2 ^ 32)) by lia; rewrite <-(Z_mod_plus_full (usz - (2 ^ 32 - 32)) 1); f_equal; lia).
  split; [lia|]. intros r s' E. eapply (pwp_done _ (fun r _ => r = 0)); [|exact E]. clear r s' E. unfold d_object_alloc. change (get_k_object_size obj_untyped_obj usz) with usz. change sizeof_d_object with 32. rewrite Ew.
  pose proof HT as [HM HH _ _ _ _]. pose proof oh_range as [Hlo Hhi].
  apply pwp_bind, wp_pwp, wp_zoom. eapply oh_malloc_spec; [exact HH|lia|by intros h' _|]. intros d h' Ha Hd _ _ _. rewrite (proj2 (Z.eqb_neq d 0)) by lia. apply pwp_bind.
  unfold wr_ko, rd_ko. apply pwp_bind. apply pwp_bind. unfold pwp at 1, get. apply pwp_ofopt. intros k Ek. change (ob_ko (with_ob_heap h' s)) with (ob_ko s) in Ek. assert (Hroom : room d) by (apply (me_ko_in _ _ _ HM); by rewrite Ek). unfold pwp at 1, modify.
  apply pwp_bind. unfold on_mem, zoom, pwp at 1. cbn [ob_mem with_ob_ko with_ob_heap].
  assert (Hm : pwp (memset (k_obj_self d) 0 usz) (fun _ _ => False) (ob_mem s)).
  { destruct Hroom as (_ & _ & Hr). unfold memset, k_obj_self. cbn [set_align]. replace (Z.land (d + 32) 3) with 0 by (change 3 with (Z.ones 2); rewrite Z.land_ones by lia; change (2 ^ 2) with 4; rewrite Z.add_mod, Ha by lia; done).
    cbn [Z.eqb]. apply pwp_bind. unfold pwp at 1, mret, ST_ret. apply pwp_bind. pose proof (Z.div_mod usz 4 ltac:(lia)). pose proof (Z.mod_pos_bound usz 4 ltac:(lia)). assert (4 <= d) by (pose proof (Z.div_mod d 4 ltac:(lia)); lia).
    apply (pwp_set_words oh_hi); [done|]. intros m' Hn _. destruct Hn. rewrite Z2Nat.id by (apply Z.div_pos; lia). lia. }
  unfold pwp in Hm. by destruct (memset _ _ _ _).
Qed.

(** Lemma: [d_object_find] returns the registered object whose memory the pointer names, NULL for
    every other pointer, and changes nothing. *)
Theorem d_object_find_exact s L R obj : Table s L R -> pointer obj -> d_object_find obj s = Done (found R obj) s.
Proof. intros HT [Ho H8]. apply run_done. by eapply wp_object_find. Qed.

(** C17: [d_object_free] ignores a pointer that is not registered, except the pointer 8, on which
    the search faults.  A registered object is taken out of the tree, the list and the heap, and
    nothing else changes; but if it is the last of the list and of a type that is compared with
    its successor, the kernel reads behind the end of the list and faults. *)
Theorem d_object_free_exact s L R obj :
  Table s L R -> 0 <= obj < 2 ^ 32 ->
  (obj - 32 ∉ R -> d_object_free d_obj_dlist preemption_point obj s = if obj =? 8 then Fail Fault else Done tt s) /\
  (forall l1 l2 k, R = l1 ++ (obj - 32) :: l2 -> ob_ko s !! (obj - 32) = Some k ->
     if bool_decide (l2 = []) && compares (ko_type k) then d_object_free d_obj_dlist preemption_point obj s = Fail Fault
     else exists s', d_object_free d_obj_dlist preemption_point obj s = Done tt s' /\ Table s' (delete (obj - 32) L) (l1 ++ l2) /\
       ob_ko s' = ob_ko s /\ ob_mem s' = ob_mem s /\ ob_type s' = ob_type s).
Proof.
  intros HT Ho. split.
  { intros Hn. destruct (Z.eqb_spec obj 8) as [->|H8]; [by eapply free_8_stops|apply run_done; by eapply wp_free_unknown]. }
  intros l1 l2 k -> Ek. assert (Eo : obj = k_obj_self (obj - 32)) by (unfold k_obj_self; lia).
  destruct (bool_decide_reflect (l2 = [])) as [->|Hne]; cbn [andb]; [destruct (compares (ko_type k)) eqn:Ec|].
  - rewrite Eo at 1. by eapply free_last_stops.
  - apply run_unit. rewrite Eo at 1. eapply wp_free; [exact HT|exact Ek|by right|]. intros s' h HT' E'. split; [done|]. by rewrite E'.
  - apply run_unit. rewrite Eo at 1. eapply wp_free; [exact HT|exact Ek|by left|]. intros s' h HT' E'. split; [done|]. by rewrite E'.
Qed.

(** The release of a timer event completes, registered or not. *)
Lemma timer_event_release s L R obj :
  Table s L R -> pointer obj -> (forall k, obj - 32 ∈ R -> ob_ko s !! (obj - 32) = Some k -> ko_type k = obj_time_obj) ->
  exists s' L' R', d_object_free d_obj_dlist preemption_point obj s = Done tt s' /\ Table s' L' R'.
Proof.
  intros HT [Ho H8] Hty. destruct (decide (obj - 32 ∈ R)) as [Hin|Hout].
  - pose proof (tb_desc _ _ _ _ _ HT _ Hin) as (k & Ek & _). specialize (Hty k Hin Ek). apply list_elem_of_split in Hin as (l1 & l2 & ->). assert (Eo : obj = k_obj_self (obj - 32)) by (unfold k_obj_self; lia).
    enough (W : wp (d_object_free d_obj_dlist preemption_point obj) (fun _ s' => Table s' (delete (obj - 32) L) (l1 ++ l2)) s) by (apply run_unit in W as (s' & E & HT'); eauto).
    rewrite Eo at 1. eapply wp_free; [exact HT|exact Ek|right; by rewrite Hty|]. by intros s' h HT' _.
  - exists s, L, R. split; [|done]. apply run_done. by eapply wp_free_unknown.
Qed.

(** C18: in every state that the kernel's operations reach, granting access changes nothing,
    because no thread object ever gets the mask that a grant copies, and every object is refused
    to every thread: validation compares the name, which is the address of the object itself,
    with the address of the descriptor. *)
Theorem access_never_granted s0 L0 s obj thread otype :
  Table s0 L0 [] -> runs s0 s -> pointer obj -> pointer thread ->
  k_object_access_grant obj thread s = Done tt s /\
  (exists ko, k_object_find obj s = Done ko s /\ k_object_access_validate ko thread otype s = Done (- EBADF) s) /\
  validate_any_k_object obj thread s = Done 0 s.
Proof.
  intros HT0 Hr Ho Ht. destruct (runs_table s0 L0 s HT0 Hr) as (L & R & HT & Hu). split; [|split].
  - apply run_done. by eapply wp_grant_unowned.
  - exists (found R obj). split; apply run_done; [eapply wp_k_find|eapply wp_validate]; (exact HT || apply Ho || apply Ht || done).
  - apply run_done. unfold validate_any_k_object. apply wp_bind. eapply wp_k_find; [exact HT|apply Ho|apply Ho|]. apply wp_bind. eapply wp_validate; [exact HT|apply Ht|apply Ht|]. by apply wp_ret.
Qed.

(** Lemma: an object allocated right after another of its type is never registered: it cannot be
    found, and releasing it does nothing, so its memory is lost. *)
Theorem same_type_object_leaks s L R stale type usz :
  Table s L R -> fits type usz -> ob_type s = type ->
  exists r s', d_object_alloc d_obj_dlist stale type usz s = Done r s' /\
    (r = 0 \/ (exists L', oh_live (ob_heap s') L' /\ is_Some (L' !! (r - 32))) /\ d_object_find r s' = Done 0 s' /\ d_object_free d_obj_dlist preemption_point r s' = Done tt s').
Proof.
  intros HT (H1' & H2' & H3') Ety. apply wp_run. eapply wp_alloc; [exact HT|done..|by left|]. intros d s' Hd Hhi Hap HT' _ _ _ _. right. pose proof (room_range d Hd).
  unfold register in HT'. rewrite (proj2 (Z.eqb_eq _ _) Ety) in HT'. unfold k_obj_self. replace (d + 32 - 32) with d by lia.
  assert (Hn : d ∉ R) by (intros Hin; destruct (tb_live _ _ _ _ _ HT d Hin) as [_ [z Ez]]; by destruct (Hap d z Ez)).
  split; [eexists; split; [apply HT'|]; by rewrite lookup_insert_eq|]. split; apply run_done.
  - eapply wp_object_find; [exact HT'|lia|lia|]. unfold found. replace (d + 32 - 32) with d by lia. by rewrite decide_False.
  - eapply wp_free_unknown; [exact HT'|lia|lia| |done]. by replace (d + 32 - 32) with d by lia.
Qed.

(** Lemma: a message, thread, interrupt or page object that is released right after its
    allocation, as on the error paths of its creators, stops the kernel. *)
Theorem fresh_object_free_faults s L R stale type usz :
  Table s L R -> fits type usz -> ob_type s <> type -> compares (u8 type) = true ->
  exists r s', d_object_alloc d_obj_dlist stale type usz s = Done r s' /\ (r = 0 \/ d_object_free d_obj_dlist preemption_point r s' = Fail Fault).
Proof.
  intros HT (H1' & H2' & H3') Ety Hc. apply wp_run. eapply wp_alloc; [exact HT|done..|by left|]. intros d s' Hd Hhi Hap HT' Ek _ _ _. right.
  unfold register in HT'. rewrite (proj2 (Z.eqb_neq _ _) Ety) in HT'. eapply free_last_stops; [exact HT'|rewrite Ek; apply lookup_insert_eq|done].
Qed.

(** Lemma: the pointer 8, which a system call may pass, makes the kernel take the tree node NULL
    for a registered object. *)
Theorem free_of_8_faults s L R : Table s L R -> d_object_free d_obj_dlist preemption_point 8 s = Fail Fault.
Proof. apply free_8_stops. Qed.

(** Lemma: revoking an object whose successor counts as its child deletes the object itself and
    leaves the child registered. *)
Theorem d_object_revoke_deletes_parent s L l1 d e l2 kd ke status x :
  Table s L (l1 ++ d :: e :: l2) -> ob_ko s !! d = Some kd -> ob_ko s !! e = Some ke -> same_object kd ke = true -> preemption_point (ob_env s) = Done status x ->
  exists s', d_object_revoke d_obj_dlist preemption_point d s = Done status s' /\ Table s' L (l1 ++ e :: l2).
Proof.
  intros HT Ed Ee Hs Ep. assert (Hw : wp (d_object_revoke d_obj_dlist preemption_point d) (fun r s' => r = status /\ Table s' L (l1 ++ e :: l2)) s); [|by apply wp_run in Hw as (r & s' & E & -> & HT'); exists s'].
  destruct (tb_live _ _ _ _ _ HT d) as [Hd _]; [set_solver|]. destruct (tb_live _ _ _ _ _ HT e) as [He _]; [set_solver|]. pose proof (room_range d Hd). pose proof (room_range e He).
  pose proof (tb_list _ _ _ _ _ HT) as HR. rewrite fmap_app, !fmap_cons in HR.
  unfold d_object_revoke, next_container. rewrite (proj2 (Z.eqb_neq d 0)) by lia. cbn [negb]. apply wp_bind, wp_bind, wp_zoom. eapply wp_dlist_peek_next; [exact HR|]. cbn [first].
  rewrite with_ob_dl_id, (proj2 (Z.eqb_neq (k_obj_dlnode e) 0)), (dlnode_roundtrip e) by (done || (unfold k_obj_dlnode; lia)). cbn [negb]. apply wp_ret. apply wp_bind, wp_get. cbn [revoke_loop].
  rewrite (proj2 (Z.eqb_neq e 0)) by lia. cbn [negb]. apply wp_bind. unfold is_parent_d_object. apply wp_bind. eapply wp_same_object; [exact Ed|exact Ee|]. rewrite Hs. cbn [negb]. apply wp_ret.
  apply wp_bind. eapply wp_delete; [exact HT|exact Ed|by left|]. intros s1 HT1 E1 Hnx. cbn [Z.eqb negb]. apply wp_bind, wp_zoom. replace (ob_env s1) with (ob_env s) by (by rewrite E1).
  unfold wp at 1. rewrite Ep. set (s2 := with_ob_env x s1). assert (HT2 : Table s2 L (l1 ++ e :: l2)) by (destruct HT1 as [HM HH HS HL Hlive Hdesc]; split; try done; by eapply memory_parts).
  destruct (Z.eqb_spec status 0) as [->|Hst]; cbn [negb]; [|by apply wp_ret]. apply wp_bind. unfold next_container. rewrite (proj2 (Z.eqb_neq d 0)) by lia. cbn [negb]. apply wp_bind, wp_zoom.
  assert (Hm : is_Some (ob_dl s2 !! k_obj_dlnode d)) by (by apply (me_dl _ _ _ (tb_memory _ _ _ _ _ HT2))).
  assert (Hn0 : wp (sys_dlist_peek_next d_obj_dlist (k_obj_dlnode d)) (fun r m => r = 0 /\ m = ob_dl s2) (ob_dl s2)).
  { unfold sys_dlist_peek_next, sys_dlist_peek_next_no_check. rewrite (proj2 (Z.eqb_neq (k_obj_dlnode d) 0)) by (unfold k_obj_dlnode; lia). cbn [negb]. apply wp_bind, wp_get_prev; [apply (tb_list _ _ _ _ _ HT2); set_solver|].
    destruct (_ =? _); [by apply wp_ret|]. by apply wp_get_next. }
  eapply wp_mono; [exact Hn0|]. cbn beta. intros r m [-> ->]. rewrite with_ob_dl_id. cbn [Z.eqb negb]. apply wp_ret.
  destruct (size (ob_dl s)) as [|fuel] eqn:Esz; [exfalso; apply map_size_empty_iff in Esz; destruct (ring_mem _ _ _ HR d_obj_dlist ltac:(set_solver)) as [c Ec]; by rewrite Esz in Ec|].
  cbn [revoke_loop Z.eqb negb]. apply wp_bind, wp_ret. by apply wp_ret.
Qed.

(** Lemma: exchanging two objects writes the first twice, so nothing changes. *)
Theorem d_object_swap_of_idle s d1 d2 : is_Some (ob_ko s !! d1) -> is_Some (ob_ko s !! d2) -> d_object_swap_of d1 d2 s = Done tt s.
Proof.
  intros [k1 E1] [k2 E2]. apply run_done. unfold d_object_swap_of. destruct (d1 =? d2); [by apply wp_skip|]. apply wp_bind. eapply wp_rd_ko; [exact E1|]. apply wp_bind. eapply wp_rd_ko; [exact E2|].
  unfold d_object_swap. destruct (_ =? _); [|by apply wp_skip]. apply wp_bind. eapply wp_wr_ko; [exact E1|]. eapply wp_wr_ko; [cbn; apply lookup_insert_eq|]. split; [done|].
  unfold with_ob_ko. cbn. rewrite insert_insert_eq, insert_id by done. by destruct s.
Qed.

End System.

(** ** Examples *)

#[export] Instance board_heap : ObjectHeap mempool := @kernel_heap stm32_config raw_pool raw_pool_raw raw_pool_small eq_refl eq_refl.
#[export] Instance board_sizes : ObjectSizes := {|
  sizeof_thread_page := 112; sizeof_message := 16; sizeof_notifation := 16; sizeof_thread_sched := 200; sizeof_ktcb := 500; sizeof_interrupt := 24; sizeof_dschedule := 8;
  sizeof_timer_event := 20; sizeof_device := 12; sizeof_pager_context := 32
|}.
#[local] Existing Instance stm32_config.

(** One value for every place at which a [d_object] can stand. *)
Definition cells {A} (off : Z) (v : A) : gmap Z A := list_to_map ((fun i => (4096 + 4 * Z.of_nat i + off, v)) <$> seq 0 761).

Lemma cells_lookup {A} off (v : A) a : is_Some (cells off v !! a) <-> exists i, (i < 761)%nat /\ a = 4096 + 4 * Z.of_nat i + off.
Proof.
  unfold cells. split.
  - intros [w E]. apply elem_of_list_to_map_2, list_elem_of_fmap in E as (i & [= -> ->] & Hi). apply elem_of_seq in Hi. exists i. split; [lia|done].
  - intros (i & Hi & ->). apply not_eq_None_Some. intros Hn%not_elem_of_list_to_map_2. apply Hn. rewrite list_elem_of_fmap. exists (4096 + 4 * Z.of_nat i + off, v). split; [done|].
    apply list_elem_of_fmap. exists i. split; [done|]. apply elem_of_seq. lia.
Qed.

Lemma room_cells {A} off (v : A) d : room d <-> is_Some (cells off v !! (d + off)).
Proof.
  rewrite cells_lookup. unfold room, oh_lo, oh_hi, board_heap, kernel_heap. cbn. split.
  - intros (Ha & Hlo & Hhi). exists (Z.to_nat ((d - 4096) / 4)). Z.to_euclidean_division_equations. lia.
  - intros (i & Hi & E). assert (d = 4 * (1024 + Z.of_nat i)) as -> by lia. rewrite Z.mul_comm, Z.mod_mul by lia. lia.
Qed.

Definition demo_bytes : bmem := place 4096 (replicate 3072 170) ∅.
Lemma demo_bytes_mapped : mapped demo_bytes 4096 3072.
Proof. by apply (mappedb_mapped _ _ 3072); vm_compute. Qed.

Definition demo_objs0 : objs unit mempool := mk_objs tt pool_demo0 (cells 0 obj_null_obj_new) (<[64 := mk_dnode 64 64]> (cells 16 (mk_dnode 7 7))) (rb_empty (cells 24 (mk_rbnode 5 5))) demo_bytes obj_null_obj.
Definition never_preempt : ST unit Z := mret 0.
Definition demo_nodes : gset Z := dom (cells 24 (mk_rbnode 5 5)).

Notation demo_table := (Table 64 demo_nodes).
Notation demo_alloc := (d_object_alloc (X := unit) 64).
Notation demo_free := (d_object_free (X := unit) 64 never_preempt).

Lemma demo_table0 : demo_table demo_objs0 ∅ [].
Proof.
  split.
  - split; cbn [ob_ko ob_dl ob_rb ob_mem demo_objs0].
    + intros d Hd. rewrite <-(Z.add_0_r d). by apply room_cells.
    + intros d Hd. rewrite <-(Z.add_0_r d) in Hd. by apply room_cells in Hd.
    + intros d Hd. unfold k_obj_dlnode. rewrite lookup_insert_ne by (destruct Hd as (_ & Hlo & _); cbn in Hlo; lia). by apply room_cells.
    + intros d Hd. apply elem_of_dom. by apply room_cells.
    + exact demo_bytes_mapped.
    + unfold oh_lo, oh_hi, board_heap, kernel_heap. cbn. lia.
  - cbn [ob_heap demo_objs0]. apply (heap_live (H := stm32_config) raw_pool raw_pool_raw raw_pool_small). apply heap_init. by vm_compute.
  - cbn [ob_rb demo_objs0]. apply rb_empty_rep.
  - cbn [ob_dl demo_objs0]. split; [apply NoDup_singleton|set_solver| |cbn; unfold nx; by rewrite lookup_insert_eq|cbn; unfold pv; by rewrite lookup_insert_eq|done].
    intros x Hx. cbn in Hx. assert (x = 64) as -> by set_solver. by rewrite lookup_insert_eq.
  - intros d Hd. by apply elem_of_nil in Hd.
  - intros d Hd. by apply elem_of_nil in Hd.
Qed.

(** A thread object, then two messages; the stale flag byte is 5. *)
Definition objs_after {A} (m : ST (objs unit mempool) A) (s : objs unit mempool) : objs unit mempool := match m s with Done _ s' => s' | Fail _ => s end.
Definition demo_objs1 : objs unit mempool := objs_after (demo_alloc 5 obj_thread_obj 0) demo_objs0.
Definition demo_objs2 : objs unit mempool := objs_after (demo_alloc 5 obj_message_obj 0) demo_objs1.

Lemma run_value {S} (m : ST S Z) (after : S) v s :
  after = match m s with Done _ s' => s' | Fail _ => s end -> (match m s with Done r _ => r =? v | Fail _ => false end) = true -> m s = Done v after.
Proof. intros -> E. destruct (m s) as [r s'|]; [|done]. apply Z.eqb_eq in E. by subst. Qed.

Lemma demo_run1 : demo_alloc 5 obj_thread_obj 0 demo_objs0 = Done (k_obj_self 4100) demo_objs1.
Proof. apply run_value; [done|by vm_compute]. Qed.
Lemma demo_run2 : demo_alloc 5 obj_message_obj 0 demo_objs1 = Done (k_obj_self 5124) demo_objs2.
Proof. apply run_value; [done|by vm_compute]. Qed.

Lemma fits_thread : fits obj_thread_obj 0.
Proof. by vm_compute. Qed.
Lemma fits_message : fits obj_message_obj 0.
Proof. by vm_compute. Qed.
Lemma fits_irq : fits obj_irq_control_obj 0.
Proof. by vm_compute. Qed.

Definition demo_live1 : gmap Z Z := <[4100 := 532]> ∅.
Definition demo_live2 : gmap Z Z := <[5124 := 48]> demo_live1.

Lemma demo_table1 : demo_table demo_objs1 demo_live1 [4100].
Proof. apply (table_after 64 demo_nodes demo_objs0 ∅ [] 5 obj_thread_obj 0 4100 demo_objs1 demo_table0 fits_thread demo_run1). lia. Qed.

Lemma demo_table2 : demo_table demo_objs2 demo_live2 [4100; 5124].
Proof.
  pose proof (table_after 64 demo_nodes demo_objs1 _ [4100] 5 obj_message_obj 0 5124 demo_objs2 demo_table1 fits_message demo_run2 ltac:(lia)) as HT.
  unfold register in HT. replace (ob_type demo_objs1 =? obj_message_obj) with false in HT by (by vm_compute). exact HT.
Qed.

Lemma demo_runs2 : runs 64 never_preempt demo_objs0 demo_objs2.
Proof.
  eapply runs_alloc; [|exact fits_message|exact demo_run2]. eapply runs_alloc; [|exact fits_thread|exact demo_run1]. apply runs_start.
Qed.

Lemma object_table_invariant_witness : exists L R, demo_table demo_objs2 L R /\ spread L /\ sized demo_objs2 L R.
Proof. exact (object_table_invariant 64 never_preempt demo_nodes demo_objs0 ∅ demo_objs2 demo_table0 ltac:(by intros ? ? ? ? ?%lookup_empty_Some) demo_runs2). Defined.

(** An interrupt object behind the message. *)
Lemma d_object_alloc_exact_witness : exists r s', demo_alloc 0 obj_irq_control_obj 0 demo_objs2 = Done r s' /\
  (r = 0 /\ demo_table s' demo_live2 [4100; 5124] /\ s' = with_ob_heap (ob_heap s') demo_objs2 \/
   exists d, r = k_obj_self d /\ apart_from demo_live2 d 56 /\ demo_table s' (<[d := 56]> demo_live2) (if ob_type demo_objs2 =? obj_irq_control_obj then [4100; 5124] else [4100; 5124; d]) /\
     ob_ko s' = <[d := new_desc 0 obj_irq_control_obj d]> (ob_ko demo_objs2) /\ ob_type s' = obj_irq_control_obj /\ filled (ob_mem demo_objs2) r 24 0 (ob_mem s')).
Proof. exact (d_object_alloc_exact 64 demo_nodes demo_objs2 demo_live2 [4100; 5124] 0 obj_irq_control_obj 0 demo_table2 fits_irq). Defined.

Lemma d_object_find_exact_witness : d_object_find 4132 demo_objs2 = Done 4100 demo_objs2 /\ d_object_find 4136 demo_objs2 = Done 0 demo_objs2.
Proof. split; [apply (d_object_find_exact 64 demo_nodes demo_objs2 demo_live2 [4100; 5124] 4132 demo_table2)|apply (d_object_find_exact 64 demo_nodes demo_objs2 demo_live2 [4100; 5124] 4136 demo_table2)]; by vm_compute. Defined.

Lemma demo_desc1 : ob_ko demo_objs2 !! 4100 = Some (new_desc 5 obj_thread_obj 4100).
Proof. by vm_compute. Qed.
Lemma demo_desc2 : ob_ko demo_objs2 !! 5124 = Some (new_desc 5 obj_message_obj 5124).
Proof. by vm_compute. Qed.

(** The thread goes, the message behind it cannot. *)
Lemma d_object_free_exact_witness :
  (exists s', demo_free 4132 demo_objs2 = Done tt s' /\ demo_table s' (delete 4100 demo_live2) [5124] /\ ob_ko s' = ob_ko demo_objs2 /\ ob_mem s' = ob_mem demo_objs2 /\ ob_type s' = ob_type demo_objs2) /\
  demo_free 5156 demo_objs2 = Fail Fault.
Proof.
  split.
  - exact (proj2 (d_object_free_exact 64 never_preempt demo_nodes demo_objs2 demo_live2 [4100; 5124] 4132 demo_table2 ltac:(lia)) [] [5124] _ eq_refl demo_desc1).
  - exact (proj2 (d_object_free_exact 64 never_preempt demo_nodes demo_objs2 demo_live2 [4100; 5124] 5156 demo_table2 ltac:(lia)) [4100] [] _ eq_refl demo_desc2).
Defined.

Lemma access_never_granted_witness :
  k_object_access_grant 5156 4132 demo_objs2 = Done tt demo_objs2 /\ validate_any_k_object 5156 4132 demo_objs2 = Done 0 demo_objs2.
Proof.
  destruct (access_never_granted 64 never_preempt demo_nodes demo_objs0 ∅ demo_objs2 5156 4132 obj_any_obj demo_table0 demo_runs2 ltac:(by vm_compute) ltac:(by vm_compute)) as (Hg & _ & Hv). by split.
Defined.

(** A second message. *)
Lemma same_type_object_leaks_witness : exists r s', demo_alloc 0 obj_message_obj 0 demo_objs2 = Done r s' /\
  (r = 0 \/ (exists L', kernel_live raw_pool (ob_heap s') L' /\ is_Some (L' !! (r - 32))) /\ d_object_find r s' = Done 0 s' /\ demo_free r s' = Done tt s').
Proof. exact (same_type_object_leaks 64 never_preempt demo_nodes demo_objs2 demo_live2 [4100; 5124] 0 obj_message_obj 0 demo_table2 fits_message eq_refl). Defined.

Lemma fresh_object_free_faults_witness : exists r s', demo_alloc 0 obj_irq_control_obj 0 demo_objs2 = Done r s' /\ (r = 0 \/ demo_free r s' = Fail Fault).
Proof. apply (fresh_object_free_faults 64 never_preempt demo_nodes demo_objs2 demo_live2 [4100; 5124] 0 obj_irq_control_obj 0 demo_table2 fits_irq); [by vm_compute|by vm_compute]. Defined.

Lemma free_of_8_faults_witness : demo_free 8 demo_objs2 = Fail Fault.
Proof. exact (free_of_8_faults 64 never_preempt demo_nodes demo_objs2 demo_live2 [4100; 5124] demo_table2). Defined.

Lemma untyped_size_wraps_witness : forall r s', demo_alloc 0 obj_untyped_obj (2 ^ 32 - 1) demo_objs2 = Done r s' -> r = 0.
Proof. apply (untyped_size_wraps 64 demo_nodes demo_objs2 demo_live2 [4100; 5124] 0 (2 ^ 32 - 1) demo_table2); [lia|by vm_compute]. Defined.
