(* ===== verification/KState.v ===== *)
(** * Kernel objects and global state

    The structures of [inc/kernel_object.h] and the globals of
    [inc/state/statedata.h] and of the static variables of [kernel/time.c],
    [kernel/privilege.c] and [object/interrupt.c].  Pointers are integers with
    [NULL = 0]; every kind of object lives in its own finite map from addresses to
    records, so an access through a dangling or null pointer is a [Fault]. *)

From Stdlib Require Import ZArith Lia Bool List.
From stdpp Require Import base tactics numbers list gmap.
From S2P Require Import Prelude Sporadic DNode.

Local Open Scope Z_scope.

(** [set_field eta f v] builds the record [x] with field [f] replaced by [v]. *)
Ltac set_field eta f v :=
  let body := eval cbv [eta] in eta in
  lazymatch eval pattern f in body with
  | ?F _ => let upd := eval cbv beta in (F (fun _ => v)) in exact upd
  end.

(** ** Constants *)

Definition NULL : Z := 0.

(** Address of the static list [timer_event_list] of [kernel/time.c]. *)
Definition timer_event_list : Z := 4.
Definition NUM_PRIORITIES : Z := 256.
Definition WORD_SIZE : Z := 5.
Definition WORD_BITS : Z := 32.
Definition L2_BITMAP_BITS : Z := 8.

(** [enum thread_status]. *)
Definition state_dummy_state : Z := BIT 0.
Definition state_recv_blocked_state : Z := BIT 1.
Definition state_send_blocked_state : Z := BIT 2.
Definition state_restart_state : Z := BIT 3.
Definition state_dead_state : Z := BIT 4.
Definition state_suspended_state : Z := BIT 5.
Definition state_aborting_state : Z := BIT 6.
Definition state_queued_state : Z := BIT 7.
Definition state_notify_blocked_state : Z := BIT 8.

(** The three values of [scheduler_action] that are not thread addresses. *)
Definition SCHEDULER_ACTION_RESUME_CURRENT_THREAD : Z := 0.
Definition SCHEDULER_ACTION_CHOOSE_NEW_THREAD : Z := 1.
Definition SCHEDULER_ACTION_CHOOSE_PRIV_THREAD : Z := 2.

(** ** Objects *)

Inductive message_state := message_state_idle | message_state_send | message_state_recv.
Inductive notifation_state := notifation_state_idle | notifation_state_wait | notifation_state_active.

(** The only function the kernel installs as a timer handler, or none. *)
Inductive timer_handler := no_handler | deadline_timeout_handler_ptr.

#[global] Instance message_state_eq_dec : EqDecision message_state.
Proof. solve_decision. Defined.
#[global] Instance notifation_state_eq_dec : EqDecision notifation_state.
Proof. solve_decision. Defined.
#[global] Instance timer_handler_eq_dec : EqDecision timer_handler.
Proof. solve_decision. Defined.

(** [struct ktcb], its [base], [callee_saved] and [arch] parts flattened. *)
Record ktcb := mk_ktcb {
  option_ : Z; (** base.option *)
  obj_state : Z; (** base.thread_state.obj_state *)
  obj_ptr : Z; (** base.thread_state.obj_ptr *)
  sched_prior : Z; (** base.sched_prior, a byte *)
  sched_locked : Z; (** base.sched_locked, a byte *)
  mcp : Z; (** base.mcp *)
  domain : Z; (** base.domain *)
  level : Z; (** base.level *)
  swap_data : Z; (** base.swap_data *)
  mr : list Z; (** callee_saved.mr, r4 to r11 *)
  psp : Z; (** callee_saved.psp *)
  thread_id : Z;
  user : Z; (** struct utcb * *)
  abort_handle : bool; (** whether a hook is installed *)
  notifation_node : Z; (** struct notifation * *)
  message_node : Z; (** struct message * *)
  sched : Z; (** struct thread_sched * *)
  yield : Z; (** struct ktcb * *)
  ready_q_next : Z;
  ready_q_prev : Z;
  mesg_q_next : Z;
  mesg_q_prev : Z;
  basepri : Z; (** arch.basepri *)
  swap_return_value : Z; (** arch.swap_return_value *)
}.

Definition eta_ktcb (x : ktcb) : ktcb :=
  mk_ktcb (option_ x) (obj_state x) (obj_ptr x) (sched_prior x) (sched_locked x) (mcp x)
    (domain x) (level x) (swap_data x) (mr x) (psp x) (thread_id x) (user x) (abort_handle x)
    (notifation_node x) (message_node x) (sched x) (yield x) (ready_q_next x) (ready_q_prev x)
    (mesg_q_next x) (mesg_q_prev x) (basepri x) (swap_return_value x).

Definition with_option_ (v : Z) : ktcb -> ktcb := ltac:(set_field eta_ktcb option_ v).
Definition with_obj_state (v : Z) : ktcb -> ktcb := ltac:(set_field eta_ktcb obj_state v).
Definition with_obj_ptr (v : Z) : ktcb -> ktcb := ltac:(set_field eta_ktcb obj_ptr v).
Definition with_sched_prior (v : Z) : ktcb -> ktcb := ltac:(set_field eta_ktcb sched_prior v).
Definition with_sched_locked (v : Z) : ktcb -> ktcb := ltac:(set_field eta_ktcb sched_locked v).
Definition with_mcp (v : Z) : ktcb -> ktcb := ltac:(set_field eta_ktcb mcp v).
Definition with_domain (v : Z) : ktcb -> ktcb := ltac:(set_field eta_ktcb domain v).
Definition with_level (v : Z) : ktcb -> ktcb := ltac:(set_field eta_ktcb level v).
Definition with_swap_data (v : Z) : ktcb -> ktcb := ltac:(set_field eta_ktcb swap_data v).
Definition with_mr (v : list Z) : ktcb -> ktcb := ltac:(set_field eta_ktcb mr v).
Definition with_psp (v : Z) : ktcb -> ktcb := ltac:(set_field eta_ktcb psp v).
Definition with_thread_id (v : Z) : ktcb -> ktcb := ltac:(set_field eta_ktcb thread_id v).
Definition with_user (v : Z) : ktcb -> ktcb := ltac:(set_field eta_ktcb user v).
Definition with_abort_handle (v : bool) : ktcb -> ktcb := ltac:(set_field eta_ktcb abort_handle v).
Definition with_notifation_node (v : Z) : ktcb -> ktcb := ltac:(set_field eta_ktcb notifation_node v).
Definition with_message_node (v : Z) : ktcb -> ktcb := ltac:(set_field eta_ktcb message_node v).
Definition with_sched (v : Z) : ktcb -> ktcb := ltac:(set_field eta_ktcb sched v).
Definition with_yield (v : Z) : ktcb -> ktcb := ltac:(set_field eta_ktcb yield v).
Definition with_ready_q_next (v : Z) : ktcb -> ktcb := ltac:(set_field eta_ktcb ready_q_next v).
Definition with_ready_q_prev (v : Z) : ktcb -> ktcb := ltac:(set_field eta_ktcb ready_q_prev v).
Definition with_mesg_q_next (v : Z) : ktcb -> ktcb := ltac:(set_field eta_ktcb mesg_q_next v).
Definition with_mesg_q_prev (v : Z) : ktcb -> ktcb := ltac:(set_field eta_ktcb mesg_q_prev v).
Definition with_basepri (v : Z) : ktcb -> ktcb := ltac:(set_field eta_ktcb basepri v).
Definition with_swap_return_value (v : Z) : ktcb -> ktcb := ltac:(set_field eta_ktcb swap_return_value v).

(** [struct tcb_queue]. *)
Record tcb_queue := mk_queue {
  q_head : Z;
  q_tail : Z;
}.

Definition eta_tcb_queue (x : tcb_queue) : tcb_queue :=
  mk_queue (q_head x) (q_tail x).

Definition with_q_head (v : Z) : tcb_queue -> tcb_queue := ltac:(set_field eta_tcb_queue q_head v).
Definition with_q_tail (v : Z) : tcb_queue -> tcb_queue := ltac:(set_field eta_tcb_queue q_tail v).

(** [struct message]. *)
Record message := mk_message {
  msg_state : message_state;
  msg_queue : tcb_queue;
}.

Definition eta_message (x : message) : message :=
  mk_message (msg_state x) (msg_queue x).

Definition with_msg_state (v : message_state) : message -> message := ltac:(set_field eta_message msg_state v).
Definition with_msg_queue (v : tcb_queue) : message -> message := ltac:(set_field eta_message msg_queue v).

(** [struct notifation]. *)
Record notifation := mk_notifation {
  ntf_state : notifation_state;
  ntf_queue : tcb_queue;
  bindedtcb : Z;
}.

Definition eta_notifation (x : notifation) : notifation :=
  mk_notifation (ntf_state x) (ntf_queue x) (bindedtcb x).

Definition with_ntf_state (v : notifation_state) : notifation -> notifation := ltac:(set_field eta_notifation ntf_state v).
Definition with_ntf_queue (v : tcb_queue) : notifation -> notifation := ltac:(set_field eta_notifation ntf_queue v).
Definition with_bindedtcb (v : Z) : notifation -> notifation := ltac:(set_field eta_notifation bindedtcb v).

(** [struct timer_event]; its [index] node lives at the same address in [dnodes]. *)
Record timer_event := mk_timer_event {
  dvalue : Z; (** ticks after the previous event *)
  data : Z; (** address of the thread id *)
  handler : timer_handler;
}.

Definition eta_timer_event (x : timer_event) : timer_event :=
  mk_timer_event (dvalue x) (data x) (handler x).

Definition with_dvalue (v : Z) : timer_event -> timer_event := ltac:(set_field eta_timer_event dvalue v).
Definition with_data (v : Z) : timer_event -> timer_event := ltac:(set_field eta_timer_event data v).
Definition with_handler (v : timer_handler) : timer_event -> timer_event := ltac:(set_field eta_timer_event handler v).

(** [struct interrupt]. *)
Record interrupt := mk_interrupt {
  irq_thread : Z;
  irq_number : Z;
  irq_action : Z;
}.

Definition eta_interrupt (x : interrupt) : interrupt :=
  mk_interrupt (irq_thread x) (irq_number x) (irq_action x).

Definition with_irq_thread (v : Z) : interrupt -> interrupt := ltac:(set_field eta_interrupt irq_thread v).
Definition with_irq_number (v : Z) : interrupt -> interrupt := ltac:(set_field eta_interrupt irq_number v).
Definition with_irq_action (v : Z) : interrupt -> interrupt := ltac:(set_field eta_interrupt irq_action v).

(** [struct fastipc_path]. *)
Record fastipc_path := mk_fastipc {
  fast_receive : Z;
  fast_send : Z;
  fast_timeout : Z;
  fast_anysend : Z;
}.

Definition eta_fastipc_path (x : fastipc_path) : fastipc_path :=
  mk_fastipc (fast_receive x) (fast_send x) (fast_timeout x) (fast_anysend x).

Definition with_fast_receive (v : Z) : fastipc_path -> fastipc_path := ltac:(set_field eta_fastipc_path fast_receive v).
Definition with_fast_send (v : Z) : fastipc_path -> fastipc_path := ltac:(set_field eta_fastipc_path fast_send v).
Definition with_fast_timeout (v : Z) : fastipc_path -> fastipc_path := ltac:(set_field eta_fastipc_path fast_timeout v).
Definition with_fast_anysend (v : Z) : fastipc_path -> fastipc_path := ltac:(set_field eta_fastipc_path fast_anysend v).

(** ** The global state *)

(** Every global the modelled code reads or writes. *)
Record kstate := mk_kstate {
  threads : gmap Z ktcb; (** every struct ktcb, by address *)
  scheds : gmap Z thread_sched;
  messages : gmap Z message;
  notifations : gmap Z notifation;
  utcbs : gmap Z (list Z); (** mr words of each struct utcb *)
  memory : gmap Z Z; (** other kernel words: saved stacks, out parameters *)
  timers : gmap Z timer_event;
  dnodes : gmap Z dnode; (** the [index] node of every timer event, and [timer_event_list] *)
  current_tick : Z;
  dvalue_elapse : Z;
  clock_timeout : Z; (** last value programmed with clock_set_timeout *)
  ready_queues : list tcb_queue;
  ready_queues_l1_bitmap : list Z;
  ready_queues_l2_bitmap : list (list Z);
  release_queue : Z; (** struct ktcb * *)
  scheduler_action : Z; (** 0, 1, 2 or struct ktcb * *)
  current_thread : Z; (** _kernel.cpus[0].current_thread *)
  idle_thread_of_cpu : Z; (** _kernel.cpus[0].idle_thread *)
  ready_thread : Z; (** _kernel.ready_thread *)
  swap_ok : bool; (** _kernel.cpus[0].swap_ok *)
  current_sched : Z; (** struct thread_sched * *)
  reprogram : bool;
  consume_time : Z;
  current_time : Z;
  current_domain_time : Z;
  current_domain : Z;
  current_domain_schedule_idx : Z;
  domain_schedule : list (Z * Z); (** domain, length *)
  work_units_completed : Z;
  record_threads : list Z; (** struct ktcb *[256] *)
  record_thread_count : Z;
  current_syscall_error_code : Z;
  current_kernel_status_code : Z;
  fastipc_caller : fastipc_path;
  privilege_thread_status : list Z;
  interrupt_array : list Z; (** struct interrupt *[CONFIG_NUM_IRQS] *)
  interrupts : gmap Z interrupt;
  interrupt_state_array : list Z;
}.

Definition eta_kstate (x : kstate) : kstate :=
  mk_kstate (threads x) (scheds x) (messages x) (notifations x) (utcbs x) (memory x) (timers x)
    (dnodes x) (current_tick x) (dvalue_elapse x) (clock_timeout x) (ready_queues x)
    (ready_queues_l1_bitmap x) (ready_queues_l2_bitmap x) (release_queue x) (scheduler_action x)
    (current_thread x) (idle_thread_of_cpu x) (ready_thread x) (swap_ok x) (current_sched x)
    (reprogram x) (consume_time x) (current_time x) (current_domain_time x) (current_domain x)
    (current_domain_schedule_idx x) (domain_schedule x) (work_units_completed x)
    (record_threads x) (record_thread_count x) (current_syscall_error_code x)
    (current_kernel_status_code x) (fastipc_caller x) (privilege_thread_status x)
    (interrupt_array x) (interrupts x) (interrupt_state_array x).

Definition with_threads (v : gmap Z ktcb) : kstate -> kstate := ltac:(set_field eta_kstate threads v).
Definition with_scheds (v : gmap Z thread_sched) : kstate -> kstate := ltac:(set_field eta_kstate scheds v).
Definition with_messages (v : gmap Z message) : kstate -> kstate := ltac:(set_field eta_kstate messages v).
Definition with_notifations (v : gmap Z notifation) : kstate -> kstate := ltac:(set_field eta_kstate notifations v).
Definition with_utcbs (v : gmap Z (list Z)) : kstate -> kstate := ltac:(set_field eta_kstate utcbs v).
Definition with_memory (v : gmap Z Z) : kstate -> kstate := ltac:(set_field eta_kstate memory v).
Definition with_timers (v : gmap Z timer_event) : kstate -> kstate := ltac:(set_field eta_kstate timers v).
Definition with_dnodes (v : gmap Z dnode) : kstate -> kstate := ltac:(set_field eta_kstate dnodes v).
Definition with_current_tick (v : Z) : kstate -> kstate := ltac:(set_field eta_kstate current_tick v).
Definition with_dvalue_elapse (v : Z) : kstate -> kstate := ltac:(set_field eta_kstate dvalue_elapse v).
Definition with_clock_timeout (v : Z) : kstate -> kstate := ltac:(set_field eta_kstate clock_timeout v).
Definition with_ready_queues (v : list tcb_queue) : kstate -> kstate := ltac:(set_field eta_kstate ready_queues v).
Definition with_ready_queues_l1_bitmap (v : list Z) : kstate -> kstate := ltac:(set_field eta_kstate ready_queues_l1_bitmap v).
Definition with_ready_queues_l2_bitmap (v : list (list Z)) : kstate -> kstate := ltac:(set_field eta_kstate ready_queues_l2_bitmap v).
Definition with_release_queue (v : Z) : kstate -> kstate := ltac:(set_field eta_kstate release_queue v).
Definition with_scheduler_action (v : Z) : kstate -> kstate := ltac:(set_field eta_kstate scheduler_action v).
Definition with_current_thread (v : Z) : kstate -> kstate := ltac:(set_field eta_kstate current_thread v).
Definition with_idle_thread_of_cpu (v : Z) : kstate -> kstate := ltac:(set_field eta_kstate idle_thread_of_cpu v).
Definition with_ready_thread (v : Z) : kstate -> kstate := ltac:(set_field eta_kstate ready_thread v).
Definition with_swap_ok (v : bool) : kstate -> kstate := ltac:(set_field eta_kstate swap_ok v).
Definition with_current_sched (v : Z) : kstate -> kstate := ltac:(set_field eta_kstate current_sched v).
Definition with_reprogram (v : bool) : kstate -> kstate := ltac:(set_field eta_kstate reprogram v).
Definition with_consume_time (v : Z) : kstate -> kstate := ltac:(set_field eta_kstate consume_time v).
Definition with_current_time (v : Z) : kstate -> kstate := ltac:(set_field eta_kstate current_time v).
Definition with_current_domain_time (v : Z) : kstate -> kstate := ltac:(set_field eta_kstate current_domain_time v).
Definition with_current_domain (v : Z) : kstate -> kstate := ltac:(set_field eta_kstate current_domain v).
Definition with_current_domain_schedule_idx (v : Z) : kstate -> kstate := ltac:(set_field eta_kstate current_domain_schedule_idx v).
Definition with_domain_schedule (v : list (Z * Z)) : kstate -> kstate := ltac:(set_field eta_kstate domain_schedule v).
Definition with_work_units_completed (v : Z) : kstate -> kstate := ltac:(set_field eta_kstate work_units_completed v).
Definition with_record_threads (v : list Z) : kstate -> kstate := ltac:(set_field eta_kstate record_threads v).
Definition with_record_thread_count (v : Z) : kstate -> kstate := ltac:(set_field eta_kstate record_thread_count v).
Definition with_current_syscall_error_code (v : Z) : kstate -> kstate := ltac:(set_field eta_kstate current_syscall_error_code v).
Definition with_current_kernel_status_code (v : Z) : kstate -> kstate := ltac:(set_field eta_kstate current_kernel_status_code v).
Definition with_fastipc_caller (v : fastipc_path) : kstate -> kstate := ltac:(set_field eta_kstate fastipc_caller v).
Definition with_privilege_thread_status (v : list Z) : kstate -> kstate := ltac:(set_field eta_kstate privilege_thread_status v).
Definition with_interrupt_array (v : list Z) : kstate -> kstate := ltac:(set_field eta_kstate interrupt_array v).
Definition with_interrupts (v : gmap Z interrupt) : kstate -> kstate := ltac:(set_field eta_kstate interrupts v).
Definition with_interrupt_state_array (v : list Z) : kstate -> kstate := ltac:(set_field eta_kstate interrupt_state_array v).

(** ** Access to memory *)

Notation K := (ST kstate).
Notation get_state := (get : ST kstate kstate) (only parsing).

(** [p->f] and [p->f = v] on thread control blocks. *)
Definition tcb (p : Z) : K ktcb := s ← get_state; ofopt (threads s !! p).
Definition rd {A} (f : ktcb -> A) (p : Z) : K A := t ← tcb p; mret (f t).
Definition wr (p : Z) (g : ktcb -> ktcb) : K unit :=
  t ← tcb p; modify (fun s => with_threads (<[p := g t]> (threads s)) s).

(** A routine of [sporadic.c] applied to the scheduling context at [p]. *)
Definition on_sched {A} (p : Z) (m : SM A) : K A := fun s =>
  match scheds s !! p with
  | None => Fail Fault
  | Some sc =>
    match m sc with
    | Done a sc' => Done a (with_scheds (<[p := sc']> (scheds s)) s)
    | Fail e => Fail e
    end
  end.

(** A routine of [dlist.h] applied to the kernel's list nodes. *)
Definition on_dnodes {A} (m : DM A) : K A := fun s =>
  match m (dnodes s) with
  | Done a d => Done a (with_dnodes d s)
  | Fail e => Fail e
  end.

Definition rd_sched (p : Z) : K thread_sched := s ← get_state; ofopt (scheds s !! p).
Definition rd_msg (p : Z) : K message := s ← get_state; ofopt (messages s !! p).
Definition wr_msg (p : Z) (g : message -> message) : K unit :=
  m ← rd_msg p; modify (fun s => with_messages (<[p := g m]> (messages s)) s).
Definition rd_ntf (p : Z) : K notifation := s ← get_state; ofopt (notifations s !! p).
Definition wr_ntf (p : Z) (g : notifation -> notifation) : K unit :=
  n ← rd_ntf p; modify (fun s => with_notifations (<[p := g n]> (notifations s)) s).
Definition rd_timer (p : Z) : K timer_event := s ← get_state; ofopt (timers s !! p).
Definition wr_timer (p : Z) (g : timer_event -> timer_event) : K unit :=
  t ← rd_timer p; modify (fun s => with_timers (<[p := g t]> (timers s)) s).

(** Array reads and writes; an index outside the array is a [Fault]. *)
Definition index {A} (l : list A) (i : Z) : option A := if i <? 0 then None else l !! Z.to_nat i.
Definition arr {A} (f : kstate -> list A) (i : Z) : K A := s ← get_state; ofopt (index (f s) i).
Definition arr_set {A} (f : kstate -> list A) (w : list A -> kstate -> kstate) (i : Z) (v : A) : K unit :=
  s ← get_state; ofopt (index (f s) i);; modify (w (<[Z.to_nat i := v]> (f s))).

(** ** What the machine-dependent code supplies

    Addresses of the statically allocated threads, the hardware clock, the interrupt
    context, the interrupt mask, the context switch of [swap_helper.S] as the calling
    thread observes it (everything that happens until the thread is switched in again),
    and the object allocator of [objecttype.c]. *)
Class Platform := {
  idle_thread : Z;
  main_thread : Z;
  privilege_thread : Z;
  arch_is_in_isr : kstate -> bool;
  clock_elapsed : kstate -> Z;
  arch_irq_lock : kstate -> Z;
  irq_is_pending : kstate -> bool;
  context_switch : K unit;
  d_object_alloc : Z -> K Z;
  d_object_free : Z -> K unit;
}.

(** ** Reasoning about accesses *)

Lemma wp_on_dnodes {A} (m : DM A) (Q : A -> kstate -> Prop) s :
  wp m (fun a d => Q a (with_dnodes d s)) (dnodes s) -> wp (on_dnodes m) Q s.
Proof. unfold wp, on_dnodes. by destruct (m (dnodes s)). Qed.

Lemma wp_on_dnodes_ro {A} (m : DM A) (Q : A -> kstate -> Prop) s :
  wp m (fun a d => d = dnodes s /\ Q a s) (dnodes s) -> wp (on_dnodes m) Q s.
Proof.
  intros W. apply wp_on_dnodes. eapply wp_mono; [exact W|]. intros a d [-> HQ]. by destruct s.
Qed.

Definition is_tcb (s : kstate) (p : Z) : Prop := is_Some (threads s !! p).

(** Field [f] of the thread at [p], [d] when there is none. *)
Definition get_fld {A} (f : ktcb -> A) (d : A) (s : kstate) (p : Z) : A :=
  match threads s !! p with Some t => f t | None => d end.

(** [p->f = v] as a total function on states. *)
Definition upd_tcb (p : Z) (g : ktcb -> ktcb) (s : kstate) : kstate :=
  with_threads (alter g p (threads s)) s.

Lemma wp_tcb p t (Q : ktcb -> kstate -> Prop) s : threads s !! p = Some t -> Q t s -> wp (tcb p) Q s.
Proof. intros E HQ. unfold tcb. wp_steps. by eapply wp_ofopt. Qed.

Lemma wp_rd {A} (f : ktcb -> A) p d (Q : A -> kstate -> Prop) s :
  is_tcb s p -> Q (get_fld f d s p) s -> wp (rd f p) Q s.
Proof.
  intros [t E] HQ. unfold rd. wp_steps. eapply wp_tcb; [done|]. wp_steps.
  unfold get_fld in HQ. by rewrite E in HQ.
Qed.

Lemma wp_wr p g (Q : unit -> kstate -> Prop) s :
  is_tcb s p -> Q tt (upd_tcb p g s) -> wp (wr p g) Q s.
Proof.
  intros [t E] HQ. unfold wr. wp_steps. eapply wp_tcb; [done|]. wp_steps.
  enough (<[p:=g t]> (threads s) = alter g p (threads s)) as -> by done.
  apply map_eq. intros q. destruct (decide (p = q)) as [->|?].
  - by rewrite lookup_insert_eq, lookup_alter_eq, E.
  - by rewrite lookup_insert_ne, lookup_alter_ne.
Qed.

Lemma get_fld_upd_same {A} (f : ktcb -> A) d p g v s q :
  is_tcb s p -> (forall t, f (g t) = v) ->
  get_fld f d (upd_tcb p g s) q = if decide (q = p) then v else get_fld f d s q.
Proof.
  intros [t E] Hg. unfold get_fld, upd_tcb. cbn. destruct (decide (q = p)) as [->|?].
  - by rewrite lookup_alter_eq, E; cbn.
  - by rewrite lookup_alter_ne.
Qed.

Lemma get_fld_upd_other {A} (f : ktcb -> A) d p g s q :
  (forall t, f (g t) = f t) -> get_fld f d (upd_tcb p g s) q = get_fld f d s q.
Proof.
  intros Hg. unfold get_fld, upd_tcb. cbn. destruct (decide (q = p)) as [->|?].
  - rewrite lookup_alter_eq. by destruct (threads s !! p); cbn.
  - by rewrite lookup_alter_ne.
Qed.

Lemma is_tcb_upd p g s q : is_tcb (upd_tcb p g s) q <-> is_tcb s q.
Proof.
  unfold is_tcb, upd_tcb. cbn. destruct (decide (q = p)) as [->|?].
  - rewrite lookup_alter_eq. by rewrite fmap_is_Some.
  - by rewrite lookup_alter_ne.
Qed.


Lemma with_scheds_same s p sc :
  scheds s !! p = Some sc -> with_scheds (<[p := sc]> (scheds s)) s = s.
Proof. intros E. rewrite insert_id by done. by destruct s. Qed.

Lemma wp_on_sched {A} p sc (m : SM A) (Q : A -> kstate -> Prop) s :
  scheds s !! p = Some sc ->
  wp m (fun a sc' => Q a (with_scheds (<[p := sc']> (scheds s)) s)) sc -> wp (on_sched p m) Q s.
Proof. intros E Hm. unfold wp, on_sched in *. rewrite E. by destruct (m sc). Qed.

(** A routine that only reads its scheduling context leaves the kernel state alone. *)
Lemma wp_on_sched_ro {A} p sc (m : SM A) (Q : A -> kstate -> Prop) s :
  scheds s !! p = Some sc -> wp m (fun a sc' => sc' = sc /\ Q a s) sc -> wp (on_sched p m) Q s.
Proof.
  intros E Hm. eapply wp_on_sched; [done|]. eapply wp_mono; [exact Hm|].
  intros a sc' [-> HQ]. by rewrite with_scheds_same.
Qed.

Lemma wp_rd_sched p sc (Q : thread_sched -> kstate -> Prop) s :
  scheds s !! p = Some sc -> Q sc s -> wp (rd_sched p) Q s.
Proof. intros E HQ. unfold rd_sched. wp_steps. by eapply wp_ofopt. Qed.

(** A write through a pointer that may be null, as in [if (p) p->f = v;]. *)
Definition opt_upd (p : Z) (g : ktcb -> ktcb) (s : kstate) : kstate :=
  with_threads (if p =? NULL then threads s else alter g p (threads s)) s.

Lemma opt_upd_cases p g s : opt_upd p g s = if p =? NULL then s else upd_tcb p g s.
Proof. unfold opt_upd. destruct (p =? NULL); [by destruct s|done]. Qed.

Lemma get_fld_opt_same {A} (f : ktcb -> A) d p g v s q :
  (p <> NULL -> is_tcb s p) -> (forall t, f (g t) = v) ->
  get_fld f d (opt_upd p g s) q = if decide (q = p /\ p <> NULL) then v else get_fld f d s q.
Proof.
  intros Hp Hg. rewrite opt_upd_cases. destruct (Z.eqb_spec p NULL) as [->|E].
  - by rewrite decide_False by naive_solver.
  - rewrite (get_fld_upd_same f d p g v) by auto.
    destruct (decide (q = p)), (decide (q = p /\ p <> NULL)); naive_solver.
Qed.

Lemma get_fld_opt_other {A} (f : ktcb -> A) d p g s q :
  (forall t, f (g t) = f t) -> get_fld f d (opt_upd p g s) q = get_fld f d s q.
Proof. intros. rewrite opt_upd_cases. destruct (p =? NULL); [done|]. by apply get_fld_upd_other. Qed.

Lemma is_tcb_opt p g s q : is_tcb (opt_upd p g s) q <-> is_tcb s q.
Proof. rewrite opt_upd_cases. destruct (p =? NULL); [done|]. apply is_tcb_upd. Qed.

(** [if (p) p->f = v; rest]. *)
Lemma wp_opt_wr p g (Q : unit -> kstate -> Prop) s :
  (p <> NULL -> is_tcb s p) -> Q tt (opt_upd p g s) -> wp (if negb (p =? NULL) then wr p g else skip) Q s.
Proof.
  intros Hp HQ. rewrite opt_upd_cases in HQ. destruct (Z.eqb_spec p NULL); [by apply wp_skip|]. apply wp_wr; auto.
Qed.

(** Read thread fields through a sequence of updates: updates of other globals and of
    other fields disappear, an update of the same field becomes a case distinction. *)
Ltac tcb_ok :=
  repeat match goal with
  | |- is_tcb (upd_tcb ?p ?g ?s) ?q => apply (is_tcb_upd p g s q)
  | |- is_tcb (opt_upd ?p ?g ?s) ?q => apply (is_tcb_opt p g s q)
  | |- is_tcb (?w ?v ?s) ?q => progress change (is_tcb (w v s) q) with (is_tcb s q)
  | |- _ <> NULL -> _ => intros ?
  end; eauto.

Ltac fld :=
  repeat match goal with
  | |- context [get_fld ?f ?d (upd_tcb ?p ?g ?s) ?q] =>
    first
      [ rewrite (get_fld_upd_other f d p g s q) by (intros []; reflexivity)
      | erewrite (get_fld_upd_same f d p g _ s q); [|tcb_ok; fail|intros; cbn; reflexivity] ]
  | |- context [get_fld ?f ?d (opt_upd ?p ?g ?s) ?q] =>
    first
      [ rewrite (get_fld_opt_other f d p g s q) by (intros []; reflexivity)
      | erewrite (get_fld_opt_same f d p g _ s q); [|tcb_ok; fail|intros; cbn; reflexivity] ]
  | |- context [get_fld ?f ?d (?w ?v ?s) ?q] =>
    progress change (get_fld f d (w v s) q) with (get_fld f d s q)
  | |- context [is_tcb (upd_tcb ?p ?g ?s) ?q] => rewrite (is_tcb_upd p g s q)
  | |- context [is_tcb (opt_upd ?p ?g ?s) ?q] => rewrite (is_tcb_opt p g s q)
  | |- context [is_tcb (?w ?v ?s) ?q] => progress change (is_tcb (w v s) q) with (is_tcb s q)
  end.

(** ** A machine to run examples on

    Its clock has advanced by nothing since the last tick, no interrupt is being served,
    a context switch returns at once to the caller, and the object pool is exhausted. *)
Definition sim_platform : Platform := {|
  idle_thread := 16;
  main_thread := 20;
  privilege_thread := 24;
  arch_is_in_isr := fun _ => false;
  clock_elapsed := fun _ => 0;
  arch_irq_lock := fun _ => 0;
  irq_is_pending := fun _ => false;
  context_switch := mret tt;
  d_object_alloc := fun _ => mret 0;
  d_object_free := fun _ => mret tt;
|}.

(** ** A zero-initialised kernel *)

Definition zero_tcb : ktcb :=
  mk_ktcb 0 0 0 0 0 0 0 0 0 (replicate 8 0) 0 0 0 false 0 0 0 0 0 0 0 0 0 0.

(** The contents of [.bss] before any initialisation, with the given threads and
    scheduling contexts. *)
Definition bss_state `{Config} (th : gmap Z ktcb) (sc : gmap Z thread_sched) : kstate :=
  let nd := Z.to_nat CONFIG_NUM_DOMAINS in
  mk_kstate th sc ∅ ∅ ∅ ∅ ∅ {[timer_event_list := mk_dnode timer_event_list timer_event_list]} 0 0 0
    (replicate (nd * 256) (mk_queue 0 0)) (replicate nd 0) (replicate nd (replicate 8 0))
    0 0 0 0 0 false 0 false 0 0 0 0 0 [] 0 (replicate 256 0) 0 0 0 (mk_fastipc 0 0 0 0)
    [] [] ∅ [].
