(* ===== verification/TimeList.v ===== *)
(** * The timer event list

    Models [src/kernel/time.c] except the tick handler, which calls the scheduler and is
    in [Tick.v].  Events form a delta list: the [dvalue] of an event is the number of
    ticks after its predecessor.  [TList s l] says that the list holds the events and
    deltas [l]; [expiry] gives the absolute distance of an event. *)

From Stdlib Require Import ZArith Lia Bool List.
From stdpp Require Import base tactics numbers list gmap.
From S2P Require Import Prelude Sporadic DList DNode KState.

Local Open Scope Z_scope.

Definition INT_MAX : Z := 2 ^ 31 - 1.
Definition FOREVER : Z := -1.
(** [MAX_WAIT] with [CONFIG_SYSTEM_CLOCK_SLOPPY_IDLE] off. *)
Definition MAX_WAIT : Z := INT_MAX.
Definition SYSTIMER_MIN_TICKS : Z := 10.
Definition obj_time_obj : Z := 24.

Section TimeOps.
Context `{Config} `{Platform}.

(** The driver call that programs the next timer interrupt. *)
Definition clock_set_timeout (ticks : Z) (idle : bool) : K unit := modify (with_clock_timeout ticks).

Definition initialize_timelist (to : Z) : K unit := on_dnodes (sys_dnode_init to).
Definition is_active_timelist (to : Z) : K bool := on_dnodes (sys_dnode_is_linked to).
Definition is_inactive_timelist (to : Z) : K bool := b ← on_dnodes (sys_dnode_is_linked to); mret (negb b).

Definition first_node : K Z := on_dnodes (sys_dlist_peek_head timer_event_list).

Definition next_node (to : Z) : K Z :=
  if negb (to =? NULL) then on_dnodes (sys_dlist_peek_next timer_event_list to) else mret NULL.

Definition rd_dvalue (to : Z) : K Z := t ← rd_timer to; mret (dvalue t).
Definition wr_dvalue (to v : Z) : K unit := wr_timer to (with_dvalue v).

Definition elapsed_dvalue : K Z :=
  s ← get_state; mret (if dvalue_elapse s =? 0 then s32 (clock_elapsed s) else 0).

(** [MAX(0, to->dvalue - ticks_elapsed)] is computed on unsigned words. *)
Definition next_dvalue : K Z :=
  to ← first_node;
  ticks_elapsed ← elapsed_dvalue;
  if to =? NULL then mret MAX_WAIT
  else d ← rd_dvalue to; mret (s32 (Z.max 0 (u32 (d - ticks_elapsed)))).

(** [for (index = first_node(); index; index = next_node(index))]; returns the event the
    loop stopped at, null when it ran off the list. *)
Fixpoint add_loop (fuel : nat) (to index : Z) : K Z :=
  match fuel with
  | O => fail OutOfFuel
  | S fuel =>
    if index =? NULL then mret NULL
    else
      di ← rd_dvalue index;
      assert_ (0 <=? di);;
      dt ← rd_dvalue to;
      if dt <? di then
        wr_dvalue index (u32 (di - dt));;
        on_dnodes (sys_dlist_insert index to);;
        mret index
      else
        wr_dvalue to (u32 (dt - di));;
        next ← next_node index;
        add_loop fuel to next
  end.

Definition add_to_timelist (to : Z) (handler : timer_handler) (data ticks : Z) : K unit :=
  if negb (to =? NULL) then
    inactive ← is_inactive_timelist to;
    if (inactive : bool) then
      wr_timer to (with_handler handler);;
      wr_timer to (with_data data);;
      e ← elapsed_dvalue;
      wr_dvalue to (u32 (Z.max 1 ticks + e));;
      s ← get_state;
      index ← first_node;
      index ← add_loop (S (size (dnodes s))) to index;
      (if index =? NULL then on_dnodes (sys_dlist_append timer_event_list to) else skip);;
      f ← first_node;
      if to =? f then
        n ← next_dvalue; clock_set_timeout n false
      else skip
    else skip
  else skip.

Definition remove_from_timelist (to : Z) : K unit :=
  if negb (to =? NULL) then
    active ← is_active_timelist to;
    if (active : bool) then on_dnodes (sys_dlist_remove to) else skip
  else skip.

(** The search loop of [readd_to_timelist]; [next_node(index)->dvalue] is read without a
    null test.  Returns the remaining delta and the event to borrow from. *)
Fixpoint readd_loop (fuel : nat) (to dv index curve : Z) : K (Z * Z) :=
  match fuel with
  | O => fail OutOfFuel
  | S fuel =>
    if index =? NULL then fail Fault
    else
      di ← rd_dvalue index;
      let curve := u64 (curve + di) in
      let borrow := u32 (dv - curve) in
      nn ← next_node index;
      nd ← rd_dvalue nn;
      if dv <=? u64 (curve + nd) then
        on_dnodes (sys_dlist_insert to index);;
        creditor ← next_node index;
        mret (borrow, creditor)
      else
        next ← next_node index;
        readd_loop fuel to dv next curve
  end.

Definition readd_to_timelist (to dv : Z) : K unit :=
  assert_ (negb (dv =? 0) && negb (to =? NULL));;
  s ← get_state;
  let dv := u32 (dv + dvalue_elapse s) in
  f ← first_node;
  fd ← rd_dvalue f;
  '(borrow, creditor) ←
    (if fd <=? dv then readd_loop (S (size (dnodes s))) to dv f 0
     else
       on_dnodes (sys_dlist_insert f to);;
       c ← first_node;
       mret (dv, c));
  let borrow := if borrow <? SYSTIMER_MIN_TICKS then 0 else borrow in
  wr_dvalue creditor borrow;;
  if negb (creditor =? NULL) then
    d ← rd_dvalue creditor; wr_dvalue creditor (u32 (d - borrow))
  else skip.

Fixpoint add_up_loop (fuel : nat) (to index ticks : Z) : K Z :=
  match fuel with
  | O => fail OutOfFuel
  | S fuel =>
    if index =? NULL then mret ticks
    else
      di ← rd_dvalue index;
      let ticks := s32 (ticks + di) in
      if to =? index then mret ticks
      else next ← next_node index; add_up_loop fuel to next ticks
  end.

Definition add_up_timelist (to : Z) : K Z :=
  if negb (to =? NULL) then
    active ← is_active_timelist to;
    if (active : bool) then
      s ← get_state;
      f ← first_node;
      ticks ← add_up_loop (S (size (dnodes s))) to f 0;
      e ← elapsed_dvalue;
      mret (s32 (ticks - e))
    else mret 0
  else mret 0.

Definition get_next_timelist : K Z := next_dvalue.

Definition set_next_timelist (ticks : Z) (idle : bool) : K unit :=
  next ← next_dvalue;
  let sooner := (next =? MAX_WAIT) || (ticks <? next) in
  let imminent := next <=? 1 in
  if negb imminent && sooner then clock_set_timeout ticks idle else skip.

Definition get_current_tick : K Z :=
  s ← get_state; mret (u64 (current_tick s + u32 (clock_elapsed s))).

(** The tickless variant. *)
Definition get_current_tick_32 : K Z := t ← get_current_tick; mret (u32 t).

Definition set_deadline (deadline deadline_gid : Z) : K unit :=
  new_timer_event ← d_object_alloc obj_time_obj;
  if negb (new_timer_event =? NULL) then
    initialize_timelist new_timer_event;;
    if deadline =? 0 then d_object_free new_timer_event
    else add_to_timelist new_timer_event deadline_timeout_handler_ptr deadline_gid (s32 deadline)
  else skip.

End TimeOps.

(** ** Abstraction *)

Definition dv_of (s : kstate) (p : Z) : option Z := dvalue <$> timers s !! p.

(** The list holds the events [l.*1] with the deltas [l.*2]. *)
Record TList (s : kstate) (l : list (Z * Z)) : Prop := {
  tl_ring : Ring (dnodes s) timer_event_list l.*1;
  tl_delta : forall p d, (p, d) ∈ l -> dv_of s p = Some d /\ 0 <= d < 2 ^ 32;
}.

(** Ticks until event [p] expires. *)
Fixpoint expiry (l : list (Z * Z)) (p : Z) : Z :=
  match l with
  | [] => 0
  | (q, d) :: l => if q =? p then d else d + expiry l p
  end.

Fixpoint deltas (l : list (Z * Z)) : Z :=
  match l with [] => 0 | (_, d) :: l => d + deltas l end.

(** What inserting event [to] at distance [t] does to the list. *)
Fixpoint spec_add (to t : Z) (l : list (Z * Z)) : list (Z * Z) :=
  match l with
  | [] => [(to, t)]
  | (i, d) :: l => if t <? d then (i, d - t) :: (to, t) :: l else (i, d) :: spec_add to (t - d) l
  end.

(** Only timer events, their nodes and the programmed timeout differ. *)
Definition TFrame (s s' : kstate) : Prop :=
  s' = with_timers (timers s') (with_dnodes (dnodes s') (with_clock_timeout (clock_timeout s') s)).

#[global] Instance TFrame_preorder : PreOrder TFrame.
Proof.
  split.
  - by intros [].
  - unfold TFrame. intros s1 s2 s3 E1 E2. rewrite E2 at 1. rewrite E1. by destruct s1, s3.
Qed.

Lemma deltas_nonneg l : (forall p d, (p, d) ∈ l -> 0 <= d < 2 ^ 32) -> 0 <= deltas l.
Proof.
  induction l as [|[p d] l IH]; intros Hl; cbn; [done|].
  pose proof (Hl p d ltac:(set_solver)). enough (0 <= deltas l) by lia. apply IH. intros p1 d1 Hp. apply (Hl p1). by constructor.
Qed.

(** A key occurs once. *)
Lemma keys_unique (l1 l2 : list (Z * Z)) i d :
  NoDup (l1 ++ (i, d) :: l2).*1 -> forall x, (i, x) ∉ l1 ++ l2.
Proof.
  rewrite fmap_app. cbn. rewrite <-Permutation_middle, <-fmap_app. intros [Hi _]%NoDup_cons x Hx.
  apply Hi. by apply (list_elem_of_fmap_2 fst) in Hx.
Qed.

Section Facts.
Context `{Config} `{Platform}.

Definition upd_timer (p : Z) (g : timer_event -> timer_event) (s : kstate) : kstate :=
  with_timers (alter g p (timers s)) s.

Lemma wp_wr_timer p g (Q : unit -> kstate -> Prop) s :
  is_Some (timers s !! p) -> Q tt (upd_timer p g s) -> wp (wr_timer p g) Q s.
Proof.
  intros [t E] HQ. unfold wr_timer, rd_timer. wp_steps. eapply wp_ofopt; [done|]. wp_steps.
  enough (<[p:=g t]> (timers s) = alter g p (timers s)) as -> by done.
  apply map_eq. intros q. destruct (decide (p = q)) as [->|?].
  - by rewrite lookup_insert_eq, lookup_alter_eq, E.
  - by rewrite lookup_insert_ne, lookup_alter_ne.
Qed.

Lemma timer_upd_some p g s q : is_Some (timers (upd_timer p g s) !! q) <-> is_Some (timers s !! q).
Proof. unfold upd_timer. cbn. by rewrite lookup_alter_is_Some. Qed.

Lemma wp_rd_dvalue p d (Q : Z -> kstate -> Prop) s : dv_of s p = Some d -> Q d s -> wp (rd_dvalue p) Q s.
Proof.
  unfold dv_of. intros (t & E & ->)%fmap_Some HQ. unfold rd_dvalue, rd_timer. wp_steps.
  eapply wp_ofopt; [done|]. by wp_steps.
Qed.

Lemma dv_of_some s p d : dv_of s p = Some d -> is_Some (timers s !! p).
Proof. unfold dv_of. intros (t & E & _)%fmap_Some. eauto. Qed.

Lemma wp_wr_dvalue p v d (Q : unit -> kstate -> Prop) s :
  dv_of s p = Some d -> Q tt (upd_timer p (with_dvalue v) s) -> wp (wr_dvalue p v) Q s.
Proof. intros E%dv_of_some HQ. by apply wp_wr_timer. Qed.

Lemma dv_of_upd p v d s q :
  dv_of s p = Some d ->
  dv_of (upd_timer p (with_dvalue v) s) q = if decide (q = p) then Some v else dv_of s q.
Proof.
  unfold dv_of, upd_timer. intros (t & E & _)%fmap_Some. cbn. destruct (decide (q = p)) as [->|].
  - by rewrite lookup_alter_eq, E.
  - by rewrite lookup_alter_ne.
Qed.

Lemma wp_first_node l (Q : Z -> kstate -> Prop) s :
  Ring (dnodes s) timer_event_list l -> Q (first 0 l) s -> wp first_node Q s.
Proof. intros HR HQ. apply wp_on_dnodes_ro. by eapply wp_dlist_peek_head. Qed.

Lemma wp_next_node l1 p l2 (Q : Z -> kstate -> Prop) s :
  Ring (dnodes s) timer_event_list (l1 ++ p :: l2) -> Q (first 0 l2) s -> wp (next_node p) Q s.
Proof.
  intros HR HQ. unfold next_node. pose proof (ring_nonnull _ _ _ HR) as H1.
  destruct (Z.eqb_spec p NULL) as [->|_]; [set_solver|]. cbn [negb].
  apply wp_on_dnodes_ro. by eapply wp_dlist_peek_next.
Qed.

(** Fuel: a ring has no more members than there are nodes. *)
Lemma ring_size m lst l : Ring m lst l -> (length l < size m)%nat.
Proof.
  intros HR. destruct HR as [Hnd _ Hm _ _ _].
  enough (length (lst :: l) <= size m)%nat by (cbn in *; lia).
  rewrite <-(size_list_to_set (C := gset Z) (lst :: l)) by done. rewrite <-size_dom. apply subseteq_size.
  intros x Hx%elem_of_list_to_set. apply elem_of_dom. auto.
Qed.

(** The search loop, entered between [l1] and [l2] with [t] ticks left. *)
Lemma wp_add_loop to t l1 l2 fuel (Q : Z -> kstate -> Prop) s :
  TList s (l1 ++ l2) -> to ∉ timer_event_list :: (l1 ++ l2).*1 -> to <> 0 -> is_Some (dnodes s !! to) ->
  dv_of s to = Some t -> 0 <= t < 2 ^ 32 -> (length l2 < fuel)%nat ->
  (forall s' i, TFrame s s' ->
     (i <> NULL -> TList s' (l1 ++ spec_add to t l2)) ->
     (i = NULL -> TList s' (l1 ++ l2) /\ dv_of s' to = Some (t - deltas l2) /\ 0 <= t - deltas l2 /\
        dnodes s' = dnodes s /\ spec_add to t l2 = l2 ++ [(to, t - deltas l2)]) ->
     Q i s') ->
  wp (add_loop fuel to (first 0 l2.*1)) Q s.
Proof.
  revert l1 l2 t s. induction fuel as [|fuel IH]; intros l1 l2 t s HT Hto Hto0 Hn Et Ht Hf HQ; [lia|].
  cbn [add_loop]. destruct l2 as [|[i d] l2].
  - cbn. wp_steps. apply HQ; [done|done|]. intros _. cbn [deltas spec_add]. rewrite Z.sub_0_r. split_and!; [done|done|lia|done|done].
  - cbn [first fmap list_fmap fst]. destruct (tl_delta _ _ HT i d) as [Ei Hd]; [set_solver|].
    pose proof (tl_ring _ _ HT) as HR. rewrite fmap_app in HR, Hto. cbn [fmap list_fmap fst] in HR, Hto.
    pose proof (ring_nodup _ _ _ HR) as Hnd. pose proof (ring_nonnull _ _ _ HR) as H0'. assert (Hi0 : i <> NULL) by (intros ->; set_solver).
    assert (Hne : i <> to) by (intros ->; set_solver).
    destruct (Z.eqb_spec i NULL); [done|]. wp_steps. eapply wp_rd_dvalue; [done|]. wp_steps.
    apply wp_assert; [apply Z.leb_le; lia|]. wp_steps. eapply wp_rd_dvalue; [done|].
    destruct (Z.ltb_spec t d) as [Hlt|Hge].
    + wp_steps. eapply wp_wr_dvalue; [done|]. wp_steps. apply wp_on_dnodes.
      eapply wp_dlist_insert; [exact HR|done|done|done|]. intros m' HR' _. wp_steps.
      apply HQ; [by destruct s| |done]. intros _.
      cbn [spec_add]. rewrite (proj2 (Z.ltb_lt t d)) by done. split.
      * cbn. by rewrite fmap_app.
      * intros p e Hpe. rewrite (u32_small (d - t)) by lia.
        change (dv_of (with_dnodes m' (upd_timer i (with_dvalue (d - t)) s)) p) with (dv_of (upd_timer i (with_dvalue (d - t)) s) p).
        rewrite (dv_of_upd _ _ d) by done. apply elem_of_app in Hpe.
        destruct (decide (p = i)) as [->|Hpi].
        -- assert (Hmem : forall x, (i, x) ∉ l1 ++ l2) by (apply (keys_unique _ _ _ d); rewrite fmap_app; by apply NoDup_cons in Hnd as [_ ?]).
           assert (e = d - t) as -> by set_solver. split; [done|lia].
        -- destruct (decide (p = to)) as [->|].
           ++ assert (Hmem : forall x, (to, x) ∉ l1 ++ l2).
              { intros x Hx. apply Hto. apply elem_of_cons. right. apply (list_elem_of_fmap_2 fst) in Hx. rewrite fmap_app in Hx. set_solver. }
              assert (e = t) as -> by set_solver. done.
           ++ apply (tl_delta _ _ HT). set_solver.
    + wp_steps. eapply wp_wr_dvalue; [done|]. rewrite (u32_small (t - d)) by lia. wp_steps.
      eapply (wp_next_node l1.*1 i l2.*1); [exact HR|].
      replace (l1 ++ (i, d) :: l2) with ((l1 ++ [(i, d)]) ++ l2) in * by (by rewrite <-app_assoc).
      eapply (IH (l1 ++ [(i, d)]) l2 (t - d)).
      * split; [apply HT|]. intros p e Hpe.
        rewrite (dv_of_upd _ _ t) by done. rewrite decide_False; [by apply HT|].
        intros ->. apply Hto. apply elem_of_cons. right. apply (list_elem_of_fmap_2 fst) in Hpe.
        rewrite !fmap_app in Hpe. set_solver.
      * rewrite !fmap_app. cbn. set_solver.
      * done.
      * done.
      * by rewrite (dv_of_upd _ _ t), decide_True by done.
      * lia.
      * cbn in Hf. lia.
      * intros s' j F Hj Hj0. apply HQ.
        -- etransitivity; [|exact F]. by destruct s.
        -- intros Hjn. pose proof (Hj Hjn) as HT'.
           cbn [spec_add]. rewrite (proj2 (Z.ltb_ge t d)) by done. by rewrite <-app_assoc in HT'.
        -- intros Hjn. destruct (Hj0 Hjn) as (HT' & Ed & Hpos & En & Es). cbn [spec_add deltas].
           rewrite (proj2 (Z.ltb_ge t d)) by done. rewrite Es.
           replace (t - (d + deltas l2)) with (t - d - deltas l2) by lia. done.
Qed.

Lemma wp_next_dvalue l (Q : Z -> kstate -> Prop) s :
  TList s l ->
  (forall e, e = (if dvalue_elapse s =? 0 then s32 (clock_elapsed s) else 0) ->
     Q (match l with [] => MAX_WAIT | (_, d) :: _ => s32 (Z.max 0 (u32 (d - e))) end) s) ->
  wp next_dvalue Q s.
Proof.
  intros HT HQ. unfold next_dvalue, elapsed_dvalue. wp_steps. eapply wp_first_node; [apply HT|]. wp_steps.
  pose proof (ring_nonnull _ _ _ (tl_ring _ _ HT)) as H0'. destruct l as [|[i d] l].
  - cbn. wp_steps. by eapply HQ.
  - cbn [first fmap list_fmap fst]. destruct (Z.eqb_spec i NULL) as [->|_]; [set_solver|]. wp_steps.
    eapply wp_rd_dvalue; [by apply (tl_delta _ _ HT i d); set_solver|]. wp_steps. by eapply HQ.
Qed.

(** An event that may be added: allocated, unlinked and not in the list. *)
Definition addable (s : kstate) (l : list (Z * Z)) (to : Z) : Prop :=
  to <> 0 /\ to ∉ timer_event_list :: l.*1 /\ is_Some (dnodes s !! to) /\ nx (dnodes s) to = 0 /\
  is_Some (timers s !! to).

(** [add_to_timelist] computes [spec_add]. *)
Lemma wp_add_to_timelist to h data ticks l (Q : unit -> kstate -> Prop) s :
  TList s l -> addable s l to ->
  let e := if dvalue_elapse s =? 0 then s32 (clock_elapsed s) else 0 in
  (forall s0, s0 = upd_timer to (with_data data) (upd_timer to (with_handler h) s) -> clock_elapsed s0 = clock_elapsed s) ->
  0 <= Z.max 1 ticks + e < 2 ^ 32 ->
  (forall s', TFrame s s' -> TList s' (spec_add to (Z.max 1 ticks + e) l) -> Q tt s') ->
  wp (add_to_timelist to h data ticks) Q s.
Proof.
  intros HT (Hto0 & Hto & Hn & Hnx & Hti) e Hck Ht HQ. unfold add_to_timelist, is_inactive_timelist, elapsed_dvalue.
  destruct (Z.eqb_spec to NULL); [done|]. cbn [negb]. wp_steps. apply wp_on_dnodes_ro.
  unfold sys_dnode_is_linked. wp_steps. apply wp_get_next; [done|]. wp_steps. split; [done|]. rewrite Hnx. cbn [negb Z.eqb]. wp_steps.
  apply wp_wr_timer; [done|]. wp_steps. apply wp_wr_timer; [by apply timer_upd_some|]. wp_steps.
  rewrite Hck by done. change (dvalue_elapse _) with (dvalue_elapse s). fold e.
  apply wp_wr_timer; [by rewrite !timer_upd_some|]. wp_steps. rewrite u32_small by done.
  set (t := Z.max 1 ticks + e) in *.
  set (s1 := upd_timer to (with_dvalue t) (upd_timer to (with_data data) (upd_timer to (with_handler h) s))).
  assert (Edv : forall p, dv_of s1 p = if decide (p = to) then Some t else dv_of s p).
  { intros p. unfold dv_of, s1, upd_timer. cbn. destruct Hti as [te Ete]. destruct (decide (p = to)) as [->|].
    - by rewrite !lookup_alter_eq, Ete.
    - by rewrite !lookup_alter_ne. }
  assert (HT1 : TList s1 l).
  { split; [apply HT|]. intros p d Hp. rewrite Edv, decide_False; [by apply HT|]. intros ->.
    apply Hto, elem_of_cons. right. by apply (list_elem_of_fmap_2 fst) in Hp. }
  eapply wp_first_node; [apply HT1|]. wp_steps.
  eapply (wp_add_loop to t [] l _ _ s1); [done|done|done|done|by rewrite Edv, decide_True|lia| |].
  { pose proof (ring_size _ _ _ (tl_ring _ _ HT)). rewrite length_fmap in *. cbn. lia. }
  intros s2 i F2 Hi Hi0.
  eapply (wp_seq _ _ (fun _ s3 => TFrame s s3 /\ TList s3 (spec_add to t l))).
  - assert (F1 : TFrame s s2) by (etransitivity; [|exact F2]; by destruct s).
    destruct (Z.eqb_spec i NULL) as [E|Hne]; [|apply wp_skip; split; [done|by apply Hi]].
    destruct (Hi0 E) as (HT2 & Ed & Hpos & En & Es). apply wp_on_dnodes.
    eapply wp_dlist_append; [apply HT2|done|done|by rewrite En|]. intros m' HR' _.
    split; [etransitivity; [exact F1|]; by destruct s2|]. rewrite Es. split.
    + cbn [dnodes with_dnodes]. by rewrite fmap_app.
    + intros p d Hp. apply elem_of_app in Hp as [Hp|Hp]; [by apply HT2|].
      apply list_elem_of_singleton in Hp. injection Hp as -> ->. split; [exact Ed|].
      pose proof (deltas_nonneg l (fun p d Hp => proj2 (tl_delta _ _ HT p d Hp))). lia.
  - intros _ s3 [F3 HT3]. wp_steps. eapply wp_first_node; [apply HT3|].
    destruct (to =? _); [|by apply wp_skip; auto]. wp_steps. eapply wp_next_dvalue; [done|]. intros.
    unfold clock_set_timeout. wp_steps. apply HQ; [etransitivity; [exact F3|]; by destruct s3|].
    split; apply HT3.
Qed.

End Facts.

(** ** Theorems *)

Lemma expiry_app_notin l1 l2 p : p ∉ l1.*1 -> expiry (l1 ++ l2) p = deltas l1 + expiry l2 p.
Proof.
  induction l1 as [|[q d] l1 IH]; intros Hp; cbn; [done|]. cbn in Hp.
  destruct (Z.eqb_spec q p); [set_solver|]. rewrite IH by set_solver. lia.
Qed.

Lemma expiry_app_in l1 l2 p : p ∈ l1.*1 -> expiry (l1 ++ l2) p = expiry l1 p.
Proof.
  induction l1 as [|[q d] l1 IH]; intros Hp; [set_solver|]. cbn in *.
  destruct (Z.eqb_spec q p); [done|]. rewrite IH by set_solver. done.
Qed.

Lemma deltas_app l1 l2 : deltas (l1 ++ l2) = deltas l1 + deltas l2.
Proof. induction l1 as [|[q d] l1 IH]; cbn; lia. Qed.

(** Where the new event goes when some event expires later. *)
Lemma spec_add_early to t l :
  0 <= t -> t < deltas l -> (forall p d, (p, d) ∈ l -> 0 <= d) ->
  exists l1 i d l2, l = l1 ++ (i, d) :: l2 /\ deltas l1 <= t < deltas l1 + d /\
    spec_add to t l = l1 ++ (i, d - (t - deltas l1)) :: (to, t - deltas l1) :: l2.
Proof.
  revert t. induction l as [|[i d] l IH]; intros t Ht Hlt Hd; cbn in *; [lia|].
  destruct (Z.ltb_spec t d).
  - exists [], i, d, l. cbn. rewrite Z.sub_0_r. split_and!; done || lia.
  - destruct (IH (t - d)) as (l1 & j & e & l2 & -> & Hr & ->); [lia|lia| |].
    { intros p e Hp. apply (Hd p). by constructor. }
    exists ((i, d) :: l1), j, e, l2. cbn. split; [done|]. split; [lia|].
    by replace (t - d - deltas l1) with (t - (d + deltas l1)) by lia.
Qed.

Lemma spec_add_late to t l :
  deltas l <= t -> (forall p d, (p, d) ∈ l -> 0 <= d < 2 ^ 32) -> spec_add to t l = l ++ [(to, t - deltas l)].
Proof.
  revert t. induction l as [|[i d] l IH]; intros t Hle Hd; cbn in *; [by rewrite Z.sub_0_r|].
  pose proof (deltas_nonneg l (fun p e Hp => Hd p e ltac:(by constructor))).
  destruct (Z.ltb_spec t d); [lia|]. rewrite IH; [|lia|]; [by replace (t - (d + deltas l)) with (t - d - deltas l) by lia|].
  intros p e Hp. apply (Hd p). by constructor.
Qed.

Section TimeTheorems.
Context `{Config} `{Platform}.

(** Lemma: adding an event no earlier than every pending one.  [add_to_timelist] terminates,
    touches only timer structures, leaves the expiry of every pending event unchanged and
    makes the new event expire after exactly the requested ticks (plus the ticks already
    elapsed since the last announcement). *)
Theorem add_to_timelist_in_order to h data ticks l s :
  TList s l -> addable s l to ->
  let e := if dvalue_elapse s =? 0 then s32 (clock_elapsed s) else 0 in
  (forall s0, s0 = upd_timer to (with_data data) (upd_timer to (with_handler h) s) -> clock_elapsed s0 = clock_elapsed s) ->
  0 <= e -> deltas l <= Z.max 1 ticks + e < 2 ^ 32 ->
  exists s' l', add_to_timelist to h data ticks s = Done tt s' /\ TFrame s s' /\ TList s' l' /\
    expiry l' to = Z.max 1 ticks + e /\ forall p, p ∈ l.*1 -> expiry l' p = expiry l p.
Proof.
  intros HT Ha e Hck He Ht. pose proof Ha as (Hto0 & Hto & _).
  pose proof (deltas_nonneg l (fun p d Hp => proj2 (tl_delta _ _ HT p d Hp))).
  assert (W : wp (add_to_timelist to h data ticks) (fun _ s' => TFrame s s' /\ TList s' (spec_add to (Z.max 1 ticks + e) l)) s)
    by (eapply wp_add_to_timelist; [done|done|done|lia|by intros]).
  apply wp_run in W as ([] & s' & E & F & HT'). exists s', (spec_add to (Z.max 1 ticks + e) l).
  split; [done|]. split; [done|]. split; [done|].
  rewrite spec_add_late; [|lia|intros p d Hp; apply (tl_delta _ _ HT p d Hp)]. split.
  - rewrite expiry_app_notin by set_solver. cbn. rewrite Z.eqb_refl. lia.
  - intros p Hp. by apply expiry_app_in.
Qed.

(** Lemma: adding an event that should expire before a pending one.  Because the insertion
    puts the event behind the one it should precede, the new event expires only together
    with the old deadline of that pending event, later than requested; and that pending
    event is moved forward by the remaining ticks of the new one. *)
Theorem add_to_timelist_out_of_order to h data ticks l s :
  TList s l -> addable s l to ->
  let e := if dvalue_elapse s =? 0 then s32 (clock_elapsed s) else 0 in
  (forall s0, s0 = upd_timer to (with_data data) (upd_timer to (with_handler h) s) -> clock_elapsed s0 = clock_elapsed s) ->
  0 <= e -> Z.max 1 ticks + e < 2 ^ 32 -> Z.max 1 ticks + e < deltas l ->
  exists s' l' i rest, add_to_timelist to h data ticks s = Done tt s' /\ TList s' l' /\ i ∈ l.*1 /\
    0 <= rest <= Z.max 1 ticks + e /\
    expiry l' to = expiry l i /\ Z.max 1 ticks + e < expiry l' to /\ expiry l' i = expiry l i - rest.
Proof.
  intros HT Ha e Hck He Ht Hlt. pose proof Ha as (Hto0 & Hto & _).
  assert (W : wp (add_to_timelist to h data ticks) (fun _ s' => TFrame s s' /\ TList s' (spec_add to (Z.max 1 ticks + e) l)) s)
    by (eapply wp_add_to_timelist; [done|done|done|lia|by intros]).
  apply wp_run in W as ([] & s' & E & F & HT').
  destruct (spec_add_early to (Z.max 1 ticks + e) l) as (l1 & i & d & l2 & El & Hr & Es);
    [lia|done|intros p d Hp; apply (tl_delta _ _ HT p d Hp)|].
  pose proof (tl_ring _ _ HT) as HR. pose proof (ring_nodup _ _ _ HR) as Hnd.
  rewrite Es in HT'. rewrite El in *. rewrite fmap_app in *. cbn in Hnd, Hto.
  apply NoDup_cons in Hnd as [_ Hnd]. apply NoDup_app in Hnd as (_ & Hdis & _).
  assert (Hi1 : i ∉ l1.*1) by (intros Hin; apply (Hdis i Hin); set_solver).
  assert (Hti : to <> i /\ to ∉ l1.*1) by set_solver.
  pose proof (deltas_nonneg l1 (fun p d Hp => proj2 (tl_delta _ _ HT p d ltac:(set_solver)))).
  do 4 eexists. split; [done|]. split; [exact HT'|]. split; [by apply elem_of_app; right; constructor|].
  split; [instantiate (1 := Z.max 1 ticks + e - deltas l1); lia|].
  rewrite !expiry_app_notin by (done || apply Hti). cbn. rewrite !Z.eqb_refl.
  destruct (Z.eqb_spec i to); [naive_solver|]. lia.
Qed.

Lemma wp_remove_from_timelist to d l1 l2 (Q : unit -> kstate -> Prop) s :
  TList s (l1 ++ (to, d) :: l2) -> (forall m', TList (with_dnodes m' s) (l1 ++ l2) -> Q tt (with_dnodes m' s)) -> wp (remove_from_timelist to) Q s.
Proof.
  intros HT HQ. pose proof (tl_ring _ _ HT) as HR. rewrite fmap_app in HR. cbn in HR.
  pose proof (ring_nonnull _ _ _ HR) as Hn0. assert (Hto : to <> NULL) by (intros ->; set_solver).
  destruct (ring_links _ _ _ _ HR) as [En _].
  unfold remove_from_timelist, is_active_timelist. destruct (Z.eqb_spec to NULL); [done|]. cbn [negb]. wp_steps.
  apply wp_on_dnodes_ro. unfold sys_dnode_is_linked. wp_steps. apply wp_get_next; [apply HR; set_solver|]. wp_steps.
  split; [done|]. assert (nx (dnodes s) to <> 0).
  { rewrite En. pose proof (first_in_cons timer_event_list l2.*1) as Hf. intros Ef. rewrite Ef in Hf. set_solver. }
  destruct (Z.eqb_spec (nx (dnodes s) to) 0); [done|]. cbn [negb]. apply wp_on_dnodes.
  eapply wp_dlist_remove; [exact HR|]. intros m' HR' _ _ _. apply HQ. split.
  - cbn [dnodes with_dnodes]. by rewrite fmap_app.
  - intros p e Hp. apply (tl_delta _ _ HT). set_solver.
Qed.

(** Lemma: removing an event moves every later one forward.  The delta of the removed event is
    not given to its successor, so all events behind it expire earlier by that delta. *)
Theorem remove_from_timelist_advances to d l1 l2 s :
  TList s (l1 ++ (to, d) :: l2) ->
  exists s', remove_from_timelist to s = Done tt s' /\ TFrame s s' /\ TList s' (l1 ++ l2) /\
    (forall p, p ∈ l1.*1 -> expiry (l1 ++ l2) p = expiry (l1 ++ (to, d) :: l2) p) /\
    (forall p, p ∈ l2.*1 -> expiry (l1 ++ l2) p = expiry (l1 ++ (to, d) :: l2) p - d).
Proof.
  intros HT. pose proof (tl_ring _ _ HT) as HR. rewrite fmap_app in HR. cbn in HR. pose proof (ring_nodup _ _ _ HR) as Hnd.
  assert (W : wp (remove_from_timelist to) (fun _ s' => TFrame s s' /\ TList s' (l1 ++ l2)) s) by (eapply wp_remove_from_timelist; [exact HT|]; intros m' HT'; split; [by destruct s|done]).
  apply wp_run in W as ([] & s' & E & F & HT'). exists s'. split; [done|]. split; [done|]. split; [done|].
  apply NoDup_cons in Hnd as [_ Hnd]. apply NoDup_app in Hnd as (_ & Hdis & Hnd2).
  apply NoDup_cons in Hnd2 as [Hto2 _]. split; intros p Hp.
  - by rewrite !expiry_app_in.
  - assert (p ∉ l1.*1) by (intros Hin; apply (Hdis p Hin); set_solver).
    rewrite !expiry_app_notin by done. cbn. destruct (Z.eqb_spec to p); [set_solver|]. lia.
Qed.

End TimeTheorems.

(** *** Witnesses: one pending event (address 100, 50 ticks) and an unlinked one (200). *)

Definition demo_timers (d : Z) (s : kstate) : kstate :=
  with_timers {[ 100 := mk_timer_event d 0 deadline_timeout_handler_ptr; 200 := mk_timer_event 0 0 no_handler ]}
    (with_dnodes {[ timer_event_list := mk_dnode 100 100; 100 := mk_dnode timer_event_list timer_event_list;
                    200 := mk_dnode 0 0 ]} s).

Lemma demo_tlist d s : 0 <= d < 2 ^ 32 -> TList (demo_timers d s) [(100, d)].
Proof.
  intros Hd. split.
  - split; [apply (bool_decide_unpack _); vm_compute; exact I|set_solver| |done|done|done].
    intros x Hx. repeat (apply elem_of_cons in Hx as [->|Hx]; [by eexists|]). set_solver.
  - intros p e Hp. apply list_elem_of_singleton in Hp. injection Hp as -> ->. done.
Qed.

Lemma demo_addable d s : addable (demo_timers d s) [(100, d)] 200.
Proof. split; [done|]. split; [set_solver|]. split; [by eexists|]. split; [done|]. by eexists. Qed.

Definition demo_state : kstate := demo_timers 50 (@bss_state test_config ∅ ∅).

Lemma add_to_timelist_in_order_witness :
  exists s' l', @add_to_timelist test_config sim_platform 200 no_handler 0 80 demo_state = Done tt s' /\
    TFrame demo_state s' /\ TList s' l' /\ expiry l' 200 = 80 /\
    forall p, p ∈ [100] -> expiry l' p = expiry [(100, 50)] p.
Proof.
  apply (@add_to_timelist_in_order test_config sim_platform 200 no_handler 0 80 [(100, 50)] demo_state).
  - apply demo_tlist. lia.
  - apply demo_addable.
  - intros s0 ->. reflexivity.
  - vm_compute. discriminate.
  - vm_compute. split; [discriminate|reflexivity].
Defined.

Lemma add_to_timelist_out_of_order_witness :
  exists s' l' i rest, @add_to_timelist test_config sim_platform 200 no_handler 0 20 demo_state = Done tt s' /\
    TList s' l' /\ i ∈ [100] /\ 0 <= rest <= 20 /\
    expiry l' 200 = expiry [(100, 50)] i /\ 20 < expiry l' 200 /\ expiry l' i = expiry [(100, 50)] i - rest.
Proof.
  apply (@add_to_timelist_out_of_order test_config sim_platform 200 no_handler 0 20 [(100, 50)] demo_state).
  - apply demo_tlist. lia.
  - apply demo_addable.
  - intros s0 ->. reflexivity.
  - vm_compute. discriminate.
  - vm_compute. reflexivity.
  - vm_compute. reflexivity.
Defined.

(** Two events, 50 and 70 ticks away; removing the first moves the second to 20. *)
Definition demo_two : kstate :=
  with_timers {[ 100 := mk_timer_event 50 0 no_handler; 200 := mk_timer_event 20 0 no_handler ]}
    (with_dnodes {[ timer_event_list := mk_dnode 100 200; 100 := mk_dnode 200 timer_event_list;
                    200 := mk_dnode timer_event_list 100 ]} (@bss_state test_config ∅ ∅)).

Lemma remove_from_timelist_advances_witness :
  TList demo_two [(100, 50); (200, 20)] /\
  exists s', @remove_from_timelist 100 demo_two = Done tt s' /\ TFrame demo_two s' /\ TList s' [(200, 20)] /\
    (forall p, p ∈ ([] : list Z) -> expiry [(200, 20)] p = expiry [(100, 50); (200, 20)] p) /\
    (forall p, p ∈ [200] -> expiry [(200, 20)] p = expiry [(100, 50); (200, 20)] p - 50).
Proof.
  assert (HT : TList demo_two ([] ++ (100, 50) :: [(200, 20)])).
  { split.
    - split; [apply (bool_decide_unpack _); vm_compute; exact I|set_solver| |done|done|done].
      intros x Hx. repeat (apply elem_of_cons in Hx as [->|Hx]; [by eexists|]). set_solver.
    - intros p e Hp. repeat (apply elem_of_cons in Hp as [Hp|Hp]; [injection Hp as -> ->; done|]). set_solver. }
  split; [exact HT|]. exact (remove_from_timelist_advances 100 50 [] [(200, 20)] demo_two HT).
Defined.
