(* ===== verification/ReadyQueue.v ===== *)
(** * Ready queues, release queue and thread states

    Models the inline functions of [inc/kernel/thread.h] and [get_highest_prio] of
    [src/kernel/thread.c]: the two-level priority bitmap, the per-priority ready
    queues, the release queue sorted by refill time, the message queues, and the
    predicates and marks on the state word of a thread.

    [ReadyQ s q] is the abstraction: [q i] is the list of threads in ready queue [i].
    It ties the doubly linked queues to the bitmaps and to the priority of each
    queued thread.  [ReleaseQ s l] does the same for the release queue. *)

From Stdlib Require Import ZArith Lia Bool List.
From stdpp Require Import base tactics numbers list gmap.
From S2P Require Import Prelude Sporadic KState DList.

Local Open Scope Z_scope.

(** ** State word *)

Definition is_runnable (t : ktcb) : bool := Z.land (obj_state t) state_queued_state =? state_queued_state.
Definition is_blocked (t : ktcb) : bool := obj_state t =? state_suspended_state.
Definition is_thread_dummy (t : ktcb) : bool := negb (Z.land (obj_state t) state_dummy_state =? 0).
Definition is_thread_pending (t : ktcb) : bool :=
  negb (Z.land (obj_state t) (Z.lor (Z.lor state_send_blocked_state state_recv_blocked_state)
                                    state_notify_blocked_state) =? 0).

(** The state word is first copied into a [byte_t]. *)
Definition is_thread_not_running (t : ktcb) : bool :=
  let state := u8 (obj_state t) in
  negb (Z.land state
    (Z.lor (Z.lor (Z.lor (Z.lor (Z.lor (Z.lor state_send_blocked_state state_recv_blocked_state)
      state_notify_blocked_state) state_restart_state) state_dead_state) state_dummy_state)
      state_suspended_state) =? 0).

Definition is_thread_ready (t : ktcb) : bool := negb (is_thread_not_running t).
Definition has_thread_started (t : ktcb) : bool := Z.land (obj_state t) state_restart_state =? 0.
Definition is_thread_state_set (t : ktcb) (state : Z) : bool := negb (Z.land (obj_state t) state =? 0).
Definition is_thread_queued (t : ktcb) : bool := is_thread_state_set t state_queued_state.
Definition is_thread_running (t : ktcb) : bool := negb (is_thread_not_running t) && negb (is_thread_queued t).

Definition set_states (states : Z) (t : ktcb) : ktcb := with_obj_state (Z.lor (obj_state t) states) t.
Definition reset_states (states : Z) (t : ktcb) : ktcb := with_obj_state (Z.land (obj_state t) (not32 states)) t.

Definition set_thread_states (p states : Z) : K unit := wr p (set_states states).
Definition reset_thread_states (p states : Z) : K unit := wr p (reset_states states).
Definition marktcb_as_not_dummy (p : Z) : K unit := wr p (reset_states state_dummy_state).
Definition marktcb_as_suspended (p : Z) : K unit := wr p (set_states state_suspended_state).
Definition marktcb_as_not_suspended (p : Z) : K unit := wr p (reset_states state_suspended_state).
Definition marktcb_as_started (p : Z) : K unit := wr p (reset_states state_restart_state).
Definition marktcb_as_s_pending (p : Z) : K unit := wr p (set_states state_send_blocked_state).
Definition marktcb_as_s_not_pending (p : Z) : K unit := wr p (reset_states state_send_blocked_state).
Definition marktcb_as_r_pending (p : Z) : K unit := wr p (set_states state_send_blocked_state).
Definition marktcb_as_r_not_pending (p : Z) : K unit := wr p (reset_states state_send_blocked_state).
Definition marktcb_as_queued (p : Z) : K unit := set_thread_states p state_queued_state.
Definition marktcb_as_not_queued (p : Z) : K unit := reset_thread_states p state_queued_state.

(** ** Scheduling context predicates *)

Definition is_time_sensitived (p : Z) : K bool :=
  sp ← rd sched p;
  if sp =? NULL then mret false
  else sc ← rd_sched sp; mret (0 <? refill_max sc).

Definition is_schedulable (p : Z) : K bool :=
  sp ← rd sched p;
  if sp =? NULL then mret false
  else
    r ← rd is_runnable p;
    if (r : bool) then sc ← rd_sched sp; mret (0 <? refill_max sc) else mret false.

(** [refill_ready] and [refill_sufficient(.., 0)] of a thread's context. *)
Definition thread_refill_ready (sp : Z) : K bool :=
  s ← get_state; on_sched sp (refill_ready (current_time s)).
Definition thread_refill_sufficient (sp usage : Z) : K bool := on_sched sp (refill_sufficient usage).

(** ** Bit arithmetic of the two-level bitmap *)

Definition prio_to_l1index (prio : Z) : Z := Z.shiftr prio WORD_SIZE.
Definition l1index_to_prio (l1index : Z) : Z := u32 (Z.shiftl l1index WORD_SIZE).
Definition MASK (n : Z) : Z := BIT n - 1.

(** [__builtin_clzl] on a non-zero word; a zero argument is undefined. *)
Definition clzl (x : Z) : option Z := if x =? 0 then None else Some (WORD_BITS - 1 - Z.log2 x).

Section Queues.
Context `{Config}.

Definition check_prio (prio p : Z) : K bool :=
  m ← rd mcp p;
  assert_ (m <=? NUM_PRIORITIES);;
  mret (negb (m <? prio)).

Definition ready_queues_index (dom prio : Z) : K Z :=
  if 1 <? CONFIG_NUM_DOMAINS then mret (u32 (dom * NUM_PRIORITIES + prio))
  else assert_ (dom =? 0);; mret prio.

Definition invert_l1index (l1index : Z) : K Z :=
  let inverted := u32 (L2_BITMAP_BITS - 1 - l1index) in
  assert_ (inverted <? L2_BITMAP_BITS);;
  mret inverted.

(** [ready_queues_l2_bitmap[dom][i]]. *)
Definition rd_l2 (dom i : Z) : K Z := row ← arr ready_queues_l2_bitmap dom; ofopt (index row i).
Definition wr_l2 (dom i v : Z) : K unit :=
  row ← arr ready_queues_l2_bitmap dom;
  ofopt (index row i);;
  arr_set ready_queues_l2_bitmap with_ready_queues_l2_bitmap dom (<[Z.to_nat i := v]> row).
Definition wr_l1 (dom v : Z) : K unit := arr_set ready_queues_l1_bitmap with_ready_queues_l1_bitmap dom v.

Definition add_to_bitmap (dom prio : Z) : K unit :=
  let l1index := prio_to_l1index prio in
  l1index_inverted ← invert_l1index l1index;
  w ← arr ready_queues_l1_bitmap dom;
  wr_l1 dom (Z.lor w (BIT l1index));;
  w2 ← rd_l2 dom l1index_inverted;
  wr_l2 dom l1index_inverted (Z.lor w2 (BIT (Z.land prio (MASK WORD_SIZE)))).

Definition remove_from_bitmap (dom prio : Z) : K unit :=
  let l1index := prio_to_l1index prio in
  l1index_inverted ← invert_l1index l1index;
  w2 ← rd_l2 dom l1index_inverted;
  wr_l2 dom l1index_inverted (Z.land w2 (not32 (BIT (Z.land prio (MASK WORD_SIZE)))));;
  w2 ← rd_l2 dom l1index_inverted;
  if w2 =? 0 then
    w ← arr ready_queues_l1_bitmap dom;
    wr_l1 dom (Z.land w (not32 (BIT l1index)))
  else skip.

Definition get_highest_prio (dom : Z) : K Z :=
  w ← arr ready_queues_l1_bitmap dom;
  assert_ (negb (w =? 0));;
  c ← ofopt (clzl w);
  let l1index := u32 (WORD_BITS - 1 - c) in
  l1index_inverted ← invert_l1index l1index;
  w2 ← rd_l2 dom l1index_inverted;
  assert_ (negb (w2 =? 0));;
  c2 ← ofopt (clzl w2);
  let l2index := u32 (WORD_BITS - 1 - c2) in
  mret (Z.lor (l1index_to_prio l1index) l2index).

(** ** Ready queues *)

(** The entry checks of [sched_enqueue] and [sched_append]. *)
Definition assert_sched_ready (p : Z) : K unit :=
  ts ← is_time_sensitived p;
  if (ts : bool) then
    assert_m (is_schedulable p);;
    assert_m (sp ← rd sched p; thread_refill_sufficient sp 0);;
    assert_m (sp ← rd sched p; thread_refill_ready sp)
  else skip.

Definition wr_queue (idx : Z) (queue : tcb_queue) : K unit :=
  arr_set ready_queues with_ready_queues idx queue.

Definition sched_enqueue (thread : Z) : K unit :=
  assert_sched_ready thread;;
  dom ← rd domain thread;
  prio ← rd sched_prior thread;
  idx ← ready_queues_index dom prio;
  queue ← arr ready_queues idx;
  queue ← (if q_tail queue =? NULL then
             add_to_bitmap dom prio;;
             mret (with_q_tail thread queue)
           else
             wr (q_head queue) (with_ready_q_prev thread);;
             mret queue);
  wr thread (with_ready_q_prev NULL);;
  wr thread (with_ready_q_next (q_head queue));;
  wr_queue idx (with_q_head thread queue).

Definition sched_append (thread : Z) : K unit :=
  assert_sched_ready thread;;
  dom ← rd domain thread;
  prio ← rd sched_prior thread;
  idx ← ready_queues_index dom prio;
  queue ← arr ready_queues idx;
  queue ← (if q_head queue =? NULL then
             add_to_bitmap dom prio;;
             mret (with_q_head thread queue)
           else
             wr (q_tail queue) (with_ready_q_next thread);;
             mret queue);
  wr thread (with_ready_q_prev (q_tail queue));;
  wr thread (with_ready_q_next NULL);;
  wr_queue idx (with_q_tail thread queue).

Definition sched_dequeue (thread : Z) : K unit :=
  dom ← rd domain thread;
  prio ← rd sched_prior thread;
  idx ← ready_queues_index dom prio;
  queue ← arr ready_queues idx;
  prev ← rd ready_q_prev thread;
  queue ← (if negb (prev =? NULL) then
             next ← rd ready_q_next thread;
             wr prev (with_ready_q_next next);;
             mret queue
           else
             next ← rd ready_q_next thread;
             (if next =? NULL then remove_from_bitmap dom prio else skip);;
             mret (with_q_head next queue));
  next ← rd ready_q_next thread;
  queue ← (if negb (next =? NULL) then
             prev ← rd ready_q_prev thread;
             wr next (with_ready_q_prev prev);;
             mret queue
           else
             prev ← rd ready_q_prev thread;
             mret (with_q_tail prev queue));
  wr_queue idx queue.

(** ** Release queue *)

(** [REFILL_HEAD(p->sched).refill_time]. *)
Definition refill_head_time (p : Z) : K Z :=
  sp ← rd sched p; h ← on_sched sp REFILL_HEAD; mret (refill_time h).

Definition set_reprogram (b : bool) : K unit := modify (with_reprogram b).

(** [while (after != NULL && ...)]: the place of [thread] in the ordered queue. *)
Fixpoint release_position (fuel : nat) (thread before after : Z) : K (Z * Z) :=
  match fuel with
  | O => fail OutOfFuel
  | S fuel =>
    if after =? NULL then mret (before, after)
    else
      t ← refill_head_time thread;
      a ← refill_head_time after;
      if a <=? t then
        next ← rd ready_q_next after;
        release_position fuel thread after next
      else mret (before, after)
  end.

Definition release_enqueue (thread : Z) : K unit :=
  s ← get_state;
  '(before, after) ← release_position (S (size (threads s))) thread NULL (release_queue s);
  (if before =? NULL then
     modify (with_release_queue thread);; set_reprogram true
   else wr before (with_ready_q_next thread));;
  (if negb (after =? NULL) then wr after (with_ready_q_prev thread) else skip);;
  wr thread (with_ready_q_next after);;
  wr thread (with_ready_q_prev before).

Definition release_dequeue : K Z :=
  detached_head ← gets release_queue;
  next ← rd ready_q_next detached_head;
  modify (with_release_queue next);;
  (if negb (next =? NULL) then wr next (with_ready_q_prev NULL) else skip);;
  next ← rd ready_q_next detached_head;
  (if negb (next =? NULL) then
     wr next (with_ready_q_prev NULL);;
     wr detached_head (with_ready_q_next NULL)
   else skip);;
  set_reprogram true;;
  mret detached_head.

Definition release_remove (thread : Z) : K unit :=
  prev ← rd ready_q_prev thread;
  (if negb (prev =? NULL) then
     next ← rd ready_q_next thread; wr prev (with_ready_q_next next)
   else
     next ← rd ready_q_next thread;
     modify (with_release_queue next);; set_reprogram true);;
  next ← rd ready_q_next thread;
  (if negb (next =? NULL) then
     prev ← rd ready_q_prev thread; wr next (with_ready_q_prev prev)
   else skip);;
  wr thread (with_ready_q_next NULL);;
  wr thread (with_ready_q_prev NULL).

(** ** Message queues *)

Definition message_append (thread : Z) (queue : tcb_queue) : K tcb_queue :=
  queue ← (if q_head queue =? NULL then mret (with_q_head thread queue)
           else wr (q_tail queue) (with_mesg_q_next thread);; mret queue);
  wr thread (with_mesg_q_prev (q_tail queue));;
  wr thread (with_mesg_q_next NULL);;
  mret (with_q_tail thread queue).

Definition message_dequeue (thread : Z) (queue : tcb_queue) : K tcb_queue :=
  prev ← rd mesg_q_prev thread;
  queue ← (if negb (prev =? NULL) then
             next ← rd mesg_q_next thread;
             wr prev (with_mesg_q_next next);; mret queue
           else next ← rd mesg_q_next thread; mret (with_q_head next queue));
  next ← rd mesg_q_next thread;
  (if negb (next =? NULL) then
     prev ← rd mesg_q_prev thread;
     wr next (with_mesg_q_prev prev);; mret queue
   else prev ← rd mesg_q_prev thread; mret (with_q_tail prev queue)).

(** ** Other queries of [thread.h] *)

Definition smp_idle_domain : K bool :=
  s ← get_state;
  prio ← rd sched_prior (idle_thread_of_cpu s);
  dom ← rd domain (idle_thread_of_cpu s);
  w ← arr ready_queues_l1_bitmap dom;
  mret (negb (Z.land w (BIT (prio_to_l1index prio)) =? 0)).

Definition smp_idle_thread_object (p : Z) : K bool :=
  s ← get_state; mret (p =? idle_thread_of_cpu s).

Definition get_sched_lock (p : Z) : K Z := rd sched_locked p.

Definition is_prio1_higher_than_or_equal_to_prio2 (prio1 prio2 : Z) : bool := prio1 <=? prio2.
Definition is_prio_higher_or_equal (prio1 prio2 : Z) : bool := is_prio1_higher_than_or_equal_to_prio2 prio1 prio2.
Definition is_prio1_lower_than_or_equal_to_prio2 (prio1 prio2 : Z) : bool := prio2 <=? prio1.
Definition is_prio1_higher_than_prio2 (prio1 prio2 : Z) : bool := prio1 <? prio2.
Definition is_prio_higher (prio test_prio : Z) : bool := is_prio1_higher_than_prio2 prio test_prio.
Definition is_prio_lower_or_equal (prio1 prio2 : Z) : bool := is_prio1_lower_than_or_equal_to_prio2 prio1 prio2.

End Queues.
