(* ===== verification/Sched.v ===== *)
(** * The scheduler

    Models [src/kernel/thread.c] (less [set_prior], which needs the message queues and is
    in [Tcb.v]), the thread-state accessors of [src/object/tcb.c] it calls, the swap
    entries of [inc/kernel/thread.h] and [src/arch/arm/aarch32/swap.c], the privilege
    status of [src/kernel/privilege.c] and [src/model/preemption.c].  Spin locks are
    degenerate on the uniprocessor build and leave no trace in the model. *)

From Stdlib Require Import ZArith Lia Bool List.
From stdpp Require Import base tactics numbers list gmap.
From S2P Require Import Prelude TimeConv Sporadic DList DNode KState TimeList ReadyQueue.

Local Open Scope Z_scope.

Definition HARD_PRIOR_ACTION : Z := 255.
Definition SOFT_PRIOR_ACTION : Z := 0.

(** [enum privilege_type] and [enum privilege_status]. *)
Definition priv_fastipc_priv : Z := 0.
Definition priv_health_monitor_priv : Z := 1.
Definition priv_debugging_monitor_priv : Z := 2.
Definition priv_end_priv : Z := 3.
Definition priv_ready_priv : Z := 0.
Definition priv_blocked_priv : Z := 1.
Definition priv_inactive_priv : Z := 2.

Definition US_IN_MS : Z := 1000.
Definition MAX_NUM_WORUNITS_PER_PREEMPTION : Z := 20.
Definition EXCEPTION_NONE : Z := 0.
Definition EXCEPTION_FAULT : Z := 1.
Definition EXCEPTION_SYSCALL_ERROR : Z := 3.
Definition EXCEPTION_PREEMPTED : Z := 4.
(** [-EAGAIN]. *)
Definition _k_neg_eagain : Z := -11.

Section Sched.
Context `{Config} `{Platform}.

(** [_current_thread] and its scheduling context. *)
Definition cur : K Z := gets current_thread.
Definition cur_sched : K Z := c ← cur; rd sched c.
Definition set_scheduler_action (a : Z) : K unit := modify (with_scheduler_action a).

(** ** Accessors of [tcb.c] and [privilege.c] *)

Definition get_thread_state (thread ts : Z) : K Z :=
  assert_ (negb (thread =? NULL));; w ← rd obj_state thread; mret (Z.land w ts).
Definition get_thread_object_state (thread : Z) : K Z :=
  assert_ (negb (thread =? NULL));; rd obj_state thread.
Definition set_thread_state_object (thread object : Z) : K unit :=
  assert_ (negb (thread =? NULL));; wr thread (with_obj_ptr object).
Definition get_thread_state_object (thread : Z) : K Z :=
  assert_ (negb (thread =? NULL));; rd obj_ptr thread.
Definition set_thread_action (thread action : Z) : K unit :=
  assert_ (negb (thread =? NULL));; wr thread (with_level action).
Definition get_thread_action (thread : Z) : K Z :=
  assert_ (negb (thread =? NULL));; rd level thread.

Definition set_privilege_status (type status : Z) : K unit :=
  arr_set privilege_thread_status with_privilege_thread_status type status.
Definition get_privilege_status (type : Z) : K Z := arr privilege_thread_status type.

(** ** Priorities and preemption *)

Definition is_highest_prio (dom prio : Z) : K bool :=
  w ← arr ready_queues_l1_bitmap dom;
  if w =? 0 then mret true else h ← get_highest_prio dom; mret (h <=? prio).

Definition is_t1_higher_prio_than_t2 (thread_1 thread_2 : Z) : K bool :=
  p1 ← rd sched_prior thread_1; p2 ← rd sched_prior thread_2; mret (p2 <? p1).

Definition should_preempt (thread : Z) (preempt_ok : bool) : K bool :=
  if preempt_ok then mret true
  else
    c ← cur;
    nr ← rd is_thread_not_running c;
    if (nr : bool) then mret true
    else
      pended ← (if CONFIG_SWAP_NONATOMIC then rd is_thread_not_running thread else mret false);
      if (pended : bool) then mret true
      else if negb CONFIG_PREEMPT_ENABLED then smp_idle_thread_object c
      else mret false.

(** ** Rescheduling requests *)

(** The three entry checks on a time-sensitive thread. *)
Definition assert_ready_sufficient (thread : Z) : K unit :=
  assert_m (sp ← rd sched thread; thread_refill_sufficient sp 0);;
  assert_m (sp ← rd sched thread; thread_refill_ready sp).

(** A thread address left in [scheduler_action] is put back in its queue first. *)
Definition reschedule_required : K unit :=
  a ← gets scheduler_action;
  (if negb (a =? SCHEDULER_ACTION_RESUME_CURRENT_THREAD) && negb (a =? SCHEDULER_ACTION_CHOOSE_NEW_THREAD) then
     ts ← is_time_sensitived a;
     (if (ts : bool) then assert_m (is_schedulable a);; assert_ready_sufficient a else skip);;
     marktcb_as_queued a;;
     sched_enqueue a
   else skip);;
  set_scheduler_action SCHEDULER_ACTION_CHOOSE_NEW_THREAD.

Definition schedule_tcb (thread : Z) : K unit :=
  s ← get_state;
  if (thread =? current_thread s) && (scheduler_action s =? SCHEDULER_ACTION_RESUME_CURRENT_THREAD) then
    b ← is_schedulable thread;
    if negb b then reschedule_required else skip
  else skip.

Definition set_thread_state (thread ts : Z) : K unit :=
  assert_ (negb (thread =? NULL));;
  wr thread (with_obj_state ts);;
  schedule_tcb thread.

(** ** Moving threads between queues *)

Definition add_to_ready_q (thread : Z) : K unit := marktcb_as_queued thread;; sched_enqueue thread.
Definition add_to_end_ready_q (thread : Z) : K unit := marktcb_as_queued thread;; sched_append thread.

Definition move_to_end_ready_q (thread : Z) : K unit :=
  q ← rd is_thread_queued thread;
  (if (q : bool) then sched_dequeue thread;; marktcb_as_queued thread else skip);;
  sched_append thread.

Definition remove_from_ready_q (thread : Z) : K unit :=
  q ← rd is_thread_queued thread;
  if (q : bool) then
    sched_dequeue thread;;
    marktcb_as_not_queued thread;;
    set_thread_state thread state_restart_state
  else skip.

Definition postpone_from_ready_q (thread : Z) : K unit :=
  q ← rd is_thread_queued thread;
  (if (q : bool) then sched_dequeue thread;; marktcb_as_not_queued thread else skip);;
  release_enqueue thread;;
  set_reprogram true.

Definition set_ready_thread (thread : Z) : K unit :=
  r ← rd is_thread_ready thread;
  if (r : bool) then add_to_ready_q thread else skip.

Definition possible_switchto (thread : Z) : K unit :=
  if negb (thread =? NULL) then
    ready ← rd is_thread_ready thread;
    if (ready : bool) then
      s ← get_state;
      d ← rd domain thread;
      if negb (current_domain s =? d) then move_to_end_ready_q thread
      else if negb (scheduler_action s =? SCHEDULER_ACTION_RESUME_CURRENT_THREAD) then
        move_to_end_ready_q thread;;
        reschedule_required
      else set_scheduler_action thread
    else skip
  else skip.

(** [while (release_queue != NULL && refill_ready(release_queue->sched))]. *)
Fixpoint awaken_loop (fuel : nat) : K unit :=
  match fuel with
  | O => fail OutOfFuel
  | S fuel =>
    rq ← gets release_queue;
    if rq =? NULL then skip
    else
      sp ← rd sched rq;
      ready ← thread_refill_ready sp;
      if (ready : bool) then
        awakened ← release_dequeue;
        c ← cur;
        assert_ (negb (awakened =? c));;
        assert_m (sp ← rd sched awakened; sc ← rd_sched sp; mret (negb (is_roundrobin sc)));;
        assert_m (sp ← rd sched awakened; thread_refill_sufficient sp 0);;
        possible_switchto awakened;;
        set_reprogram true;;
        awaken_loop fuel
      else skip
  end.

Definition awaken : K unit := s ← get_state; awaken_loop (S (size (threads s))).

(** ** Choosing a thread *)

Definition is_cur_domain_expired (s : kstate) : bool :=
  (1 <? CONFIG_NUM_DOMAINS) && (current_domain_time s <? u64 (consume_time s + MIN_BUDGET)).

Definition next_domain : K unit :=
  modify (fun s => with_current_domain_schedule_idx (u32 (current_domain_schedule_idx s + 1)) s);;
  s ← get_state;
  (if Z.of_nat (length (domain_schedule s)) <=? current_domain_schedule_idx s
   then modify (with_current_domain_schedule_idx 0) else skip);;
  modify (with_work_units_completed 0);;
  set_reprogram true;;
  s ← get_state;
  e ← arr domain_schedule (current_domain_schedule_idx s);
  modify (with_current_domain (fst e));;
  modify (with_current_domain_time (k_us_to_ticks_ceil32 (u32 (snd e * US_IN_MS)))).

Definition next_thread : K Z :=
  s ← get_state;
  let dom := if 1 <? CONFIG_NUM_DOMAINS then current_domain s else 0 in
  w ← arr ready_queues_l1_bitmap dom;
  if negb (w =? 0) then
    prio ← get_highest_prio dom;
    idx ← ready_queues_index dom prio;
    queue ← arr ready_queues idx;
    let thread := q_head queue in
    c ← cur;
    if negb (thread =? c) then
      assert_ (negb (thread =? NULL));;
      ts ← is_time_sensitived thread;
      (if (ts : bool) then assert_m (is_schedulable thread);; assert_ready_sufficient thread else skip);;
      queued ← rd is_thread_queued c;
      nr ← rd is_thread_not_running c;
      let active := negb nr in
      thread ← (if active then
                  higher ← is_t1_higher_prio_than_t2 thread c;
                  let thread := if negb queued && negb higher then c else thread in
                  s ← get_state;
                  p ← should_preempt thread (swap_ok s);
                  mret (if negb p then c else thread)
                else mret thread);
      idle ← smp_idle_thread_object c;
      (if active && negb queued && negb idle then
         marktcb_as_queued c;; sched_enqueue c
       else skip);;
      q ← rd is_thread_queued thread;
      (if (q : bool) then sched_dequeue thread;; marktcb_as_not_queued thread else skip);;
      mret thread
    else mret c
  else mret idle_thread.

Definition update_cache (thread : Z) (preempt_ok : bool) : K unit :=
  assert_m (w ← get_thread_state thread state_dummy_state; mret (w =? 0));;
  ts ← is_time_sensitived thread;
  (if (ts : bool) then assert_ready_sufficient thread else skip);;
  p ← should_preempt thread preempt_ok;
  (if (p : bool) then modify (with_ready_thread thread)
   else c ← cur; modify (with_ready_thread c));;
  modify (with_swap_ok preempt_ok).

Definition choose_new_thread : K unit :=
  new_thread ← next_thread;
  s ← get_state;
  (if current_domain_time s =? 0 then next_domain else skip);;
  update_cache new_thread true.

(** The candidate branch of [schedule]. *)
Definition schedule_candidate (candidate : Z) : K unit :=
  assert_m (rd is_thread_queued candidate);;
  s ← get_state;
  let c := current_thread s in
  fastfail ← (if c =? idle_thread_of_cpu s then mret true
              else
                p1 ← rd sched_prior candidate;
                p2 ← rd sched_prior c;
                mret (p1 <? p2));
  highest ← (if (fastfail : bool)
             then p ← rd sched_prior candidate; is_highest_prio (current_domain s) p
             else mret true);
  (if fastfail && negb highest then
     marktcb_as_queued candidate;;
     sched_enqueue candidate
   else
     marktcb_as_queued candidate;;
     sched_append candidate);;
  set_scheduler_action SCHEDULER_ACTION_CHOOSE_NEW_THREAD;;
  choose_new_thread.

Definition schedule : K unit :=
  awaken;;
  a ← gets scheduler_action;
  (if negb (a =? SCHEDULER_ACTION_RESUME_CURRENT_THREAD) then
     if a =? SCHEDULER_ACTION_CHOOSE_NEW_THREAD then choose_new_thread
     else if a =? SCHEDULER_ACTION_CHOOSE_PRIV_THREAD then update_cache privilege_thread true
     else schedule_candidate a
   else skip);;
  set_scheduler_action SCHEDULER_ACTION_RESUME_CURRENT_THREAD.

(** ** Time accounting *)

Definition end_timeslice (can_timeout_fault : bool) : K unit :=
  if can_timeout_fault then
    set_scheduler_action SCHEDULER_ACTION_CHOOSE_PRIV_THREAD;;
    set_privilege_status priv_health_monitor_priv priv_ready_priv
  else
    c ← cur;
    sp ← rd sched c;
    ready ← thread_refill_ready sp;
    suff ← (if (ready : bool) then thread_refill_sufficient sp 0 else mret false);
    if (suff : bool) then add_to_end_ready_q c else postpone_from_ready_q c.

(** Round robin keeps two refills: what is left and what was used. *)
Definition roundrobin_recharge : SM unit :=
  sc ← get_sched;
  assert_ (refill_size sc =? MIN_REFILLS);;
  h ← REFILL_HEAD;
  t ← REFILL_TAIL;
  write_REFILL_HEAD (set_amount (u64 (refill_amount h + refill_amount t)) h);;
  t ← REFILL_TAIL;
  write_REFILL_TAIL (set_amount 0 t).

Definition roundrobin_consume (usage : Z) : SM unit :=
  sc ← get_sched;
  assert_ (refill_size sc =? MIN_REFILLS);;
  h ← REFILL_HEAD;
  write_REFILL_HEAD (set_amount (u64 (refill_amount h - usage)) h);;
  t ← REFILL_TAIL;
  write_REFILL_TAIL (set_amount (u64 (refill_amount t + usage)) t).

(** The routines of [sporadic.c] work on the global [current_sched], everything else here on
    the context of the current thread. *)
Definition charge_budget (capacity consumed_ : Z) (canTimeoutFault : bool) : K unit :=
  s ← get_state;
  sp ← cur_sched;
  sc ← rd_sched sp;
  (if is_roundrobin sc then on_sched sp roundrobin_recharge
   else csp ← gets current_sched; on_sched csp (refill_budget_check (current_time s) consumed_ capacity));;
  assert_m (h ← on_sched sp REFILL_HEAD; mret (MIN_BUDGET <=? refill_amount h));;
  on_sched sp (modify (fun sc => set_consumed (u64 (consumed sc + consumed_)) sc));;
  c ← cur;
  running ← rd is_thread_running c;
  if (running : bool) then
    end_timeslice canTimeoutFault;;
    reschedule_required;;
    set_reprogram true
  else skip.

Definition update_timestamp (is_reset : bool) : K unit :=
  if is_reset then modify (with_consume_time 0)
  else
    prev ← gets current_time;
    now ← get_current_tick;
    modify (with_current_time now);;
    c ← cur;
    ts ← is_time_sensitived c;
    if (ts : bool) then modify (fun s => with_consume_time (u64 (consume_time s + u64 (now - prev))) s)
    else skip.

Definition check_budget : K bool :=
  c ← cur;
  ts ← is_time_sensitived c;
  if (ts : bool) then
    s ← get_state;
    sp ← rd sched c;
    assert_m (thread_refill_ready sp);;
    capacity ← on_sched sp (refill_capacity (consume_time s));
    sc ← rd_sched sp;
    if (MIN_BUDGET <=? capacity) && (is_roundrobin sc || negb (refill_full sc)) then
      if is_cur_domain_expired s then
        set_reprogram true;;
        reschedule_required;;
        mret false
      else mret true
    else
      act ← get_thread_action c;
      charge_budget capacity (consume_time s) (act =? HARD_PRIOR_ACTION);;
      modify (with_consume_time 0);;
      mret false
  else mret true.

Definition commit_time : K unit :=
  s ← get_state;
  sp ← cur_sched;
  (if 0 <? consume_time s then
     assert_m (thread_refill_sufficient sp (consume_time s));;
     assert_m (thread_refill_ready sp);;
     sc ← rd_sched sp;
     (if is_roundrobin sc then on_sched sp (roundrobin_consume (consume_time s))
      else
        csp ← gets current_sched;
        assert_ (negb (csp =? NULL));;
        on_sched csp (refill_split_check (consume_time s)));;
     assert_m (thread_refill_sufficient sp 0);;
     assert_m (thread_refill_ready sp)
   else skip);;
  on_sched sp (modify (fun sc => set_consumed (u64 (consumed sc + consume_time s)) sc));;
  (if 1 <? CONFIG_NUM_DOMAINS then
     s ← get_state;
     assert_ (consume_time s <? current_domain_time s);;
     assert_ (MIN_BUDGET <=? u64 (current_domain_time s - consume_time s));;
     modify (with_current_domain_time (u64 (current_domain_time s - consume_time s)))
   else skip);;
  modify (with_consume_time 0).

Definition check_budget_restart : K bool :=
  result ← check_budget;
  (if negb result then
     c ← cur;
     r ← rd is_runnable c;
     if (r : bool) then set_thread_state c state_restart_state else skip
   else skip);;
  mret result.

Definition preemption_point (kernel_mcs : bool) : K Z :=
  modify (fun s => with_work_units_completed (u32 (work_units_completed s + 1)) s);;
  s ← get_state;
  if MAX_NUM_WORUNITS_PER_PREEMPTION <=? work_units_completed s then
    modify (with_work_units_completed 0);;
    s ← get_state;
    if irq_is_pending s then mret EXCEPTION_PREEMPTED
    else if kernel_mcs then
      update_timestamp false;;
      b ← check_budget;
      mret (if negb b then EXCEPTION_PREEMPTED else EXCEPTION_NONE)
    else mret EXCEPTION_NONE
  else mret EXCEPTION_NONE.

(** ** Switching *)

Definition update_consumed (thread : Z) : K unit :=
  if negb (thread =? NULL) then
    sp ← rd sched thread;
    on_sched sp (modify (fun sc =>
      if get_max_ticks <=? consumed sc then set_consumed (u64 (consumed sc - get_max_ticks)) sc
      else set_consumed 0 sc))
  else skip.

Definition cancel_yield (thread : Z) : K unit :=
  if negb (thread =? NULL) then
    y ← rd yield thread;
    if negb (y =? NULL) then wr thread (with_yield NULL) else skip
  else skip.

Definition thread_activate : K unit :=
  c ← cur;
  y ← rd yield c;
  if negb (y =? NULL) then
    update_consumed y;;
    cancel_yield c;;
    assert_m (rd is_thread_running c)
  else skip.

Definition switch_to_sc : K unit :=
  assert_m (sp ← cur_sched; mret (negb (sp =? NULL)));;
  c ← cur;
  (if negb (c =? NULL) then
     sp ← rd sched c;
     sc ← rd_sched sp;
     if 0 <? refill_max sc then
       set_reprogram true;;
       s ← get_state;
       on_sched sp (refill_noblock_check (current_time s));;
       assert_m (thread_refill_ready sp);;
       assert_m (thread_refill_sufficient sp 0)
     else skip
   else skip);;
  sp ← cur_sched;
  modify (with_current_sched sp).

(** The deadline is registered with the address of the current thread's id. *)
Definition set_next_arrival_interrupt : K unit :=
  c ← cur;
  sp ← rd sched c;
  h ← on_sched sp REFILL_HEAD;
  s ← get_state;
  let next_interrupt := u64 (current_time s + refill_amount h) in
  let next_interrupt := if 1 <? CONFIG_NUM_DOMAINS
                        then Z.min next_interrupt (u64 (current_time s + current_domain_time s))
                        else next_interrupt in
  next_interrupt ← (if negb (release_queue s =? NULL)
                    then t ← refill_head_time (release_queue s); mret (Z.min t next_interrupt)
                    else mret next_interrupt);
  if negb (next_interrupt =? 0)
  then set_deadline (u64 (next_interrupt - get_timer_precision - current_time s)) c
  else skip.

Definition set_current_thread (thread : Z) : K unit :=
  assert_ (negb (thread =? NULL));;
  modify (with_current_thread thread);;
  ts ← is_time_sensitived thread;
  if (ts : bool) then
    assert_m (rd is_thread_running thread);;
    switch_to_sc;;
    rp ← gets reprogram;
    (if (rp : bool) then
       commit_time;;
       set_next_arrival_interrupt;;
       set_reprogram false
     else skip);;
    thread_activate
  else skip.

Definition arch_swap (key : Z) : K Z :=
  c ← cur;
  wr c (with_basepri key);;
  wr c (with_swap_return_value _k_neg_eagain);;
  context_switch;;
  c ← cur;
  rd swap_return_value c.

Definition swap_thread_irqlock (key : Z) : K Z := update_timestamp true;; arch_swap key.
Definition swap_thread (key : Z) : K Z := swap_thread_irqlock key.
Definition swap_thread_unlocked : K unit := s ← get_state; swap_thread_irqlock (arch_irq_lock s);; skip.

Definition is_rescheduled (key : Z) : K bool :=
  s ← get_state; mret ((key =? 0) && negb (arch_is_in_isr s)).

Definition reschedule (key : Z) : K unit :=
  b ← is_rescheduled key; if (b : bool) then swap_thread key;; skip else skip.
Definition reschedule_irqlock (key : Z) : K unit :=
  b ← is_rescheduled key; if (b : bool) then swap_thread_irqlock key;; skip else skip.
Definition reschedule_unlocked : K unit := swap_thread_unlocked.

Definition sched_lock : K unit :=
  if CONFIG_PREEMPT_ENABLED then
    s ← get_state;
    assert_ (negb (arch_is_in_isr s));;
    c ← cur;
    assert_m (l ← rd sched_locked c; mret (negb (l =? 1)));;
    l ← rd sched_locked c;
    wr c (with_sched_locked (u8 (l - 1)))
  else skip.

Definition sched_unlock_no_reschedule : K unit :=
  if CONFIG_PREEMPT_ENABLED then
    s ← get_state;
    assert_ (negb (arch_is_in_isr s));;
    c ← cur;
    assert_m (l ← rd sched_locked c; mret (negb (l =? 0)));;
    l ← rd sched_locked c;
    wr c (with_sched_locked (u8 (l + 1)))
  else skip.

Definition sched_unlock : K unit :=
  if CONFIG_PREEMPT_ENABLED then
    c ← cur;
    assert_m (l ← rd sched_locked c; mret (negb (l =? 0)));;
    s ← get_state;
    assert_ (negb (arch_is_in_isr s));;
    l ← rd sched_locked c;
    wr c (with_sched_locked (u8 (l + 1)));;
    reschedule_unlocked
  else skip.

Definition postpone_cur_irqlock (key : Z) : K Z :=
  c ← cur;
  postpone_from_ready_q c;;
  reschedule_required;;
  schedule;;
  swap_thread_irqlock key.

Definition postpone_cur (key : Z) : K Z :=
  c ← cur;
  postpone_from_ready_q c;;
  reschedule_required;;
  schedule;;
  swap_thread key.

(** ** Initialisation *)

(** [domain_length] of [default.c]: the first entry is 1, the others 0. *)
Definition domain_length (i : nat) : Z := if (i =? 0)%nat then 1 else 0.

Definition init_schedule_object_module : K Z :=
  modify (with_domain_schedule
    (map (fun i => (Z.of_nat i, domain_length i)) (seq 0 (Z.to_nat CONFIG_NUM_DOMAINS))));;
  modify (with_ready_queues (replicate (Z.to_nat (CONFIG_NUM_DOMAINS * NUM_PRIORITIES)) (mk_queue NULL NULL)));;
  set_scheduler_action SCHEDULER_ACTION_RESUME_CURRENT_THREAD;;
  modify (with_current_thread NULL);;
  modify (with_release_queue NULL);;
  set_reprogram false;;
  modify (with_consume_time 0);;
  now ← get_current_tick;
  modify (with_current_time now);;
  mret 0.

Definition init_privilege_status_module : K Z :=
  modify (fun s => with_privilege_thread_status
    (map (fun _ => priv_inactive_priv) (privilege_thread_status s)) s);;
  mret 0.

End Sched.
