(* ===== verification/ReadyQueueFacts.v ===== *)
(** * Correctness of the ready, release and message queues

    [Bitmap] states what the two bitmap levels record; [ReadyQ] ties queues, links,
    bitmaps and priorities together.  Each queue operation is shown to implement the
    list operation it stands for, and [get_highest_prio] to find the highest priority
    with a queued thread. *)

From Stdlib Require Import ZArith Lia Bool List.
From stdpp Require Import base tactics numbers list gmap sorting.
From S2P Require Import Prelude Sporadic KState DList ReadyQueue.

Local Open Scope Z_scope.

(** ** Arrays *)

Lemma index_nonneg {A} (l : list A) i : 0 <= i -> index l i = l !! Z.to_nat i.
Proof. intros Hi. unfold index. by destruct (Z.ltb_spec i 0); [lia|]. Qed.

Lemma index_Some_range {A} (l : list A) i x : index l i = Some x -> 0 <= i < Z.of_nat (length l).
Proof.
  unfold index. destruct (Z.ltb_spec i 0); [done|]. intros E%lookup_lt_Some. lia.
Qed.

Lemma index_insert {A} (l : list A) i j x :
  0 <= i < Z.of_nat (length l) -> 0 <= j ->
  index (<[Z.to_nat i := x]> l) j = if j =? i then Some x else index l j.
Proof.
  intros Hi Hj. rewrite !index_nonneg by lia. destruct (Z.eqb_spec j i) as [->|].
  - rewrite list_lookup_insert_eq; [done|lia].
  - rewrite list_lookup_insert_ne; [done|lia].
Qed.

Lemma wp_arr {A} (f : kstate -> list A) i x (Q : A -> kstate -> Prop) s :
  index (f s) i = Some x -> Q x s -> wp (arr f i) Q s.
Proof. intros E HQ. unfold arr. wp_steps. by eapply wp_ofopt. Qed.

Lemma wp_arr_set {A} (f : kstate -> list A) w i x v (Q : unit -> kstate -> Prop) s :
  index (f s) i = Some x -> Q tt (w (<[Z.to_nat i := v]> (f s)) s) -> wp (arr_set f w i v) Q s.
Proof. intros E HQ. unfold arr_set. wp_steps. eapply wp_ofopt; [done|]. by wp_steps. Qed.

(** ** The two-level bitmap *)

(** [BitmapRow w row P]: the level-1 word [w] and the level-2 words [row] of one domain
    record the set of priorities [P]. *)
Record BitmapRow (w : Z) (row : list Z) (P : Z -> bool) : Prop := {
  row_len : Z.of_nat (length row) = L2_BITMAP_BITS;
  row_l1 : 0 <= w < 2 ^ 8;
  row_l2 : forall i, 0 <= i < 8 -> exists w2,
    index row (7 - i) = Some w2 /\ 0 <= w2 < 2 ^ 32 /\
    Z.testbit w i = negb (w2 =? 0) /\
    forall j, 0 <= j < 32 -> Z.testbit w2 j = P (32 * i + j);
}.

Definition Bitmap `{Config} (l1 : list Z) (l2 : list (list Z)) (P : Z -> Z -> bool) : Prop :=
  forall dom, 0 <= dom < CONFIG_NUM_DOMAINS -> exists w row,
    index l1 dom = Some w /\ index l2 dom = Some row /\ BitmapRow w row (P dom).

Definition with_bitmaps (l1 : list Z) (l2 : list (list Z)) (s : kstate) : kstate :=
  with_ready_queues_l2_bitmap l2 (with_ready_queues_l1_bitmap l1 s).

(** Priority decomposition. *)
Lemma prio_split prio : 0 <= prio < 256 ->
  prio_to_l1index prio = prio / 32 /\ Z.land prio (MASK WORD_SIZE) = prio mod 32 /\
  0 <= prio / 32 < 8 /\ 0 <= prio mod 32 < 32 /\ prio = 32 * (prio / 32) + prio mod 32.
Proof.
  intros Hp. unfold prio_to_l1index, MASK, WORD_SIZE. rewrite Z.shiftr_div_pow2 by lia.
  change (BIT 5 - 1) with (Z.ones 5). rewrite Z.land_ones by lia. change (2 ^ 5) with 32.
  Z.to_euclidean_division_equations; lia.
Qed.

Lemma prio_join i j : 0 <= i < 8 -> 0 <= j < 32 -> Z.lor (l1index_to_prio i) j = 32 * i + j.
Proof.
  intros Hi Hj. unfold l1index_to_prio, WORD_SIZE. rewrite Z.shiftl_mul_pow2 by lia.
  rewrite u32_small by lia. rewrite <-Z.add_nocarry_lor; [lia|].
  apply Z.bits_inj'. intros n Hn. rewrite Z.land_spec, Z.testbit_0_l.
  destruct (Z.ltb_spec n 5); [by rewrite Z.mul_pow2_bits_low by lia|].
  rewrite <-(Z.mod_small j (2 ^ 5)), Z.mod_pow2_bits_high by lia. apply andb_false_r.
Qed.

(** Recording one more priority in a row. *)
Lemma row_set w row P i j w2 :
  BitmapRow w row P -> 0 <= i < 8 -> 0 <= j < 32 -> index row (7 - i) = Some w2 ->
  BitmapRow (Z.lor w (BIT i)) (<[Z.to_nat (7 - i) := Z.lor w2 (BIT j)]> row)
            (fun p => (p =? 32 * i + j) || P p).
Proof.
  intros [Hlen Hw Hl2] Hi Hj E. unfold L2_BITMAP_BITS in *.
  assert (Hne : Z.lor w2 (BIT j) <> 0).
  { intros E0. pose proof (set_bit_testbit w2 j j ltac:(lia)) as Hb.
    rewrite E0, Z.testbit_0_l, Z.eqb_refl in Hb. done. }
  split.
  - by rewrite length_insert.
  - apply lor_range; [lia|done|]. apply BIT_range. lia.
  - intros i' Hi'. rewrite index_insert by lia. destruct (Hl2 i' Hi') as (v & Ev & Hv & Hb1 & Hb2).
    rewrite set_bit_testbit by lia. destruct (Z.eqb_spec (7 - i') (7 - i)) as [E'|].
    + assert (i' = i) as -> by lia. exists (Z.lor w2 (BIT j)). assert (v = w2) as -> by congruence.
      split; [done|]. split; [apply lor_range; [lia|done|apply BIT_range; lia]|].
      rewrite Z.eqb_refl. split; [by destruct (Z.eqb_spec (Z.lor w2 (BIT j)) 0)|].
      intros k Hk. rewrite set_bit_testbit, Hb2 by lia. f_equal.
      destruct (Z.eqb_spec k j), (Z.eqb_spec (32 * i + k) (32 * i + j)); lia || done.
    + exists v. split; [done|]. split; [done|].
      split; [by destruct (Z.eqb_spec i' i); [lia|]|].
      intros k Hk. rewrite Hb2 by done. by destruct (Z.eqb_spec (32 * i' + k) (32 * i + j)); [lia|].
Qed.

(** Erasing one priority from a row. *)
Lemma row_clear w row P i j w2 :
  BitmapRow w row P -> 0 <= i < 8 -> 0 <= j < 32 -> index row (7 - i) = Some w2 ->
  let w2' := Z.land w2 (not32 (BIT j)) in
  BitmapRow (if w2' =? 0 then Z.land w (not32 (BIT i)) else w) (<[Z.to_nat (7 - i) := w2']> row)
            (fun p => negb (p =? 32 * i + j) && P p).
Proof.
  intros [Hlen Hw Hl2] Hi Hj E w2'. unfold L2_BITMAP_BITS in *.
  destruct (Hl2 i Hi) as (? & E' & Hw2 & Hbw & Hb). rewrite E in E'. injection E' as <-.
  assert (Hbits : forall k, 0 <= k < 32 -> Z.testbit w2' k = negb (32 * i + k =? 32 * i + j) && P (32 * i + k)).
  { intros k Hk. unfold w2'. rewrite clear_bit_testbit, Hb by lia. f_equal.
    destruct (Z.eqb_spec k j), (Z.eqb_spec (32 * i + k) (32 * i + j)); lia || done. }
  assert (Hr : 0 <= w2' < 2 ^ 32) by (apply land_range; [lia|done]).
  split.
  - by rewrite length_insert.
  - destruct (w2' =? 0); [apply land_range; [lia|done]|done].
  - intros i' Hi'. rewrite index_insert by lia. destruct (Hl2 i' Hi') as (v & Ev & Hv & Hb1 & Hb2).
    destruct (Z.eqb_spec (7 - i') (7 - i)).
    + assert (i' = i) as -> by lia. exists w2'. split; [done|]. split; [done|]. split; [|done].
      destruct (Z.eqb_spec w2' 0) as [E0|]; cbn.
      * rewrite clear_bit_testbit, Z.eqb_refl by lia. done.
      * rewrite Hbw. destruct (Z.eqb_spec w2 0) as [->|]; [|done]. by unfold w2' in *.
    + exists v. split; [done|]. split; [done|]. split.
      * destruct (w2' =? 0); [|done]. rewrite clear_bit_testbit by lia.
        by destruct (Z.eqb_spec i' i); [lia|].
      * intros k Hk. rewrite Hb2 by done. by destruct (Z.eqb_spec (32 * i' + k) (32 * i + j)); [lia|].
Qed.

Section BitmapOps.
Context `{Config}.

Lemma bitmap_row_update l1 l2 P dom w row w' row' Pd' :
  Bitmap l1 l2 P -> 0 <= dom < CONFIG_NUM_DOMAINS ->
  index l1 dom = Some w -> index l2 dom = Some row ->
  BitmapRow w' row' Pd' ->
  Bitmap (<[Z.to_nat dom := w']> l1) (<[Z.to_nat dom := row']> l2)
         (fun d => if d =? dom then Pd' else P d).
Proof.
  intros HB Hd E1 E2 HR d Hdd. apply index_Some_range in E1, E2.
  rewrite !index_insert by lia. destruct (Z.eqb_spec d dom); [by eauto|]. by apply HB.
Qed.

Lemma Bitmap_ext l1 l2 P P' :
  Bitmap l1 l2 P ->
  (forall d p, 0 <= d < CONFIG_NUM_DOMAINS -> 0 <= p < 256 -> P' d p = P d p) -> Bitmap l1 l2 P'.
Proof.
  intros HB HP d Hd. destruct (HB d Hd) as (w & row & E1 & E2 & [Hl Hw H2]).
  exists w, row. split; [done|]. split; [done|]. split; [done|done|]. intros i Hi.
  destruct (H2 i Hi) as (w2 & ? & ? & ? & Hb). exists w2. repeat (split; [done|]).
  intros j Hj. rewrite HP by lia. by apply Hb.
Qed.

Lemma wp_invert_l1index i (Q : Z -> kstate -> Prop) s :
  0 <= i < 8 -> Q (7 - i) s -> wp (invert_l1index i) Q s.
Proof.
  intros Hi HQ. unfold invert_l1index, L2_BITMAP_BITS. rewrite u32_small by lia. wp_steps.
  apply wp_assert; [apply Z.ltb_lt; lia|]. wp_steps. by replace (8 - 1 - i) with (7 - i) by lia.
Qed.

Lemma wp_rd_l2 dom i row w2 (Q : Z -> kstate -> Prop) s :
  index (ready_queues_l2_bitmap s) dom = Some row -> index row i = Some w2 -> Q w2 s ->
  wp (rd_l2 dom i) Q s.
Proof. intros E1 E2 HQ. unfold rd_l2. wp_steps. eapply wp_arr; [done|]. by eapply wp_ofopt. Qed.

Lemma wp_wr_l2 dom i row w2 v (Q : unit -> kstate -> Prop) s :
  index (ready_queues_l2_bitmap s) dom = Some row -> index row i = Some w2 ->
  Q tt (with_ready_queues_l2_bitmap
          (<[Z.to_nat dom := <[Z.to_nat i := v]> row]> (ready_queues_l2_bitmap s)) s) ->
  wp (wr_l2 dom i v) Q s.
Proof.
  intros E1 E2 HQ. unfold wr_l2. wp_steps. eapply wp_arr; [done|]. wp_steps.
  eapply wp_ofopt; [done|]. by eapply wp_arr_set.
Qed.

(** [add_to_bitmap] records the priority and changes nothing else. *)
Lemma wp_add_to_bitmap dom prio P (Q : unit -> kstate -> Prop) s :
  Bitmap (ready_queues_l1_bitmap s) (ready_queues_l2_bitmap s) P ->
  0 <= dom < CONFIG_NUM_DOMAINS -> 0 <= prio < 256 ->
  (forall l1 l2, Bitmap l1 l2 (fun d p => (d =? dom) && (p =? prio) || P d p) -> Q tt (with_bitmaps l1 l2 s)) ->
  wp (add_to_bitmap dom prio) Q s.
Proof.
  intros HB Hd Hp HQ. destruct (prio_split prio Hp) as (E1 & E2 & Hi & Hj & Eq).
  unfold add_to_bitmap. rewrite E1, E2. destruct (HB dom Hd) as (w & row & Ew & Er & HR).
  destruct (row_l2 _ _ _ HR _ Hi) as (w2 & E & _).
  wp_steps. apply wp_invert_l1index; [done|]. wp_steps. eapply wp_arr; [done|]. wp_steps.
  unfold wr_l1. eapply wp_arr_set; [done|]. wp_steps. eapply wp_rd_l2; [done|done|].
  eapply wp_wr_l2; [done|done|]. apply HQ. eapply Bitmap_ext.
  - eapply bitmap_row_update; [done|done|done|done|]. by apply row_set.
  - intros d p _ _. cbn. destruct (Z.eqb_spec d dom) as [->|]; cbn; [|done]. by rewrite <-Eq.
Qed.

(** [remove_from_bitmap] erases the priority and changes nothing else. *)
Lemma wp_remove_from_bitmap dom prio P (Q : unit -> kstate -> Prop) s :
  Bitmap (ready_queues_l1_bitmap s) (ready_queues_l2_bitmap s) P ->
  0 <= dom < CONFIG_NUM_DOMAINS -> 0 <= prio < 256 ->
  (forall l1 l2, Bitmap l1 l2 (fun d p => negb ((d =? dom) && (p =? prio)) && P d p) ->
     Q tt (with_bitmaps l1 l2 s)) ->
  wp (remove_from_bitmap dom prio) Q s.
Proof.
  intros HB Hd Hp HQ. destruct (prio_split prio Hp) as (E1 & E2 & Hi & Hj & Eq).
  unfold remove_from_bitmap. rewrite E1, E2. destruct (HB dom Hd) as (w & row & Ew & Er & HR).
  destruct (row_l2 _ _ _ HR _ Hi) as (w2 & E & _).
  pose proof (row_clear _ _ _ _ _ _ HR Hi Hj E) as HC. cbn zeta in HC.
  wp_steps. apply wp_invert_l1index; [done|]. wp_steps. eapply wp_rd_l2; [done|done|]. wp_steps.
  eapply wp_wr_l2; [done|done|]. wp_steps.
  eapply (wp_rd_l2 _ _ (<[Z.to_nat (7 - prio / 32) := Z.land w2 (not32 (BIT (prio mod 32)))]> row)).
  { cbn. rewrite index_insert, Z.eqb_refl; [done| |lia]. by apply index_Some_range in Er. }
  { rewrite index_insert, Z.eqb_refl; [done| |lia]. by apply index_Some_range in E. }
  assert (Hset : forall w', Bitmap (<[Z.to_nat dom := w']> (ready_queues_l1_bitmap s))
      (<[Z.to_nat dom := <[Z.to_nat (7 - prio / 32) := Z.land w2 (not32 (BIT (prio mod 32)))]> row]> (ready_queues_l2_bitmap s))
      (fun d => if d =? dom then fun p => negb (p =? 32 * (prio / 32) + prio mod 32) && P dom p else P d) ->
      Bitmap (<[Z.to_nat dom := w']> (ready_queues_l1_bitmap s))
      (<[Z.to_nat dom := <[Z.to_nat (7 - prio / 32) := Z.land w2 (not32 (BIT (prio mod 32)))]> row]> (ready_queues_l2_bitmap s))
      (fun d p => negb ((d =? dom) && (p =? prio)) && P d p)).
  { intros w' HB'. eapply Bitmap_ext; [exact HB'|]. intros d p _ _. cbn.
    destruct (Z.eqb_spec d dom) as [->|]; cbn; [|done]. by rewrite <-Eq. }
  destruct (Z.land w2 (not32 (BIT (prio mod 32))) =? 0) eqn:Ez.
  - wp_steps. eapply wp_arr; [done|]. unfold wr_l1. eapply wp_arr_set; [done|].
    eapply (HQ (<[_ := _]> _) (<[_ := _]> _)), Hset. by eapply bitmap_row_update.
  - apply wp_skip. specialize (HQ (ready_queues_l1_bitmap s)
      (<[Z.to_nat dom := <[Z.to_nat (7 - prio / 32) := Z.land w2 (not32 (BIT (prio mod 32)))]> row]> (ready_queues_l2_bitmap s))).
    assert (E1' : <[Z.to_nat dom := w]> (ready_queues_l1_bitmap s) = ready_queues_l1_bitmap s).
    { apply list_insert_id. by rewrite <-index_nonneg by lia. }
    destruct s; apply HQ; cbn in *. rewrite <-E1'. apply Hset. by eapply bitmap_row_update.
Qed.

(** [get_highest_prio] finds the highest recorded priority. *)
Lemma wp_get_highest_prio dom P (Q : Z -> kstate -> Prop) s p0 :
  Bitmap (ready_queues_l1_bitmap s) (ready_queues_l2_bitmap s) P ->
  0 <= dom < CONFIG_NUM_DOMAINS -> 0 <= p0 < 256 -> P dom p0 = true ->
  (forall p, 0 <= p < 256 -> P dom p = true -> (forall p', 0 <= p' < 256 -> P dom p' = true -> p' <= p) ->
     Q p s) ->
  wp (get_highest_prio dom) Q s.
Proof.
  intros HB Hd Hp0 HP HQ. destruct (HB dom Hd) as (w & row & Ew & Er & [Hl Hw H2]).
  assert (Hset : forall p, 0 <= p < 256 -> P dom p = true -> Z.testbit w (p / 32) = true).
  { intros p Hp Pp. destruct (prio_split p Hp) as (_ & _ & Hi & Hj & Eq).
    destruct (H2 _ Hi) as (w2 & _ & _ & -> & Hb). rewrite Eq, <-Hb in Pp by done.
    destruct (Z.eqb_spec w2 0) as [->|]; [|done]. by rewrite Z.testbit_0_l in Pp. }
  assert (Hw0 : w <> 0).
  { intros ->. specialize (Hset p0 Hp0 HP). by rewrite Z.testbit_0_l in Hset. }
  destruct (highest_bit 8 w Hw Hw0) as (Hi & Hbit & Hmax). set (i := Z.log2 w) in *.
  destruct (H2 i Hi) as (w2 & E2 & Hw2 & Hb1 & Hb2). rewrite Hbit in Hb1.
  destruct (Z.eqb_spec w2 0) as [|Hw20]; [done|].
  destruct (highest_bit 32 w2 Hw2 Hw20) as (Hj & Hbitj & Hmaxj). set (j := Z.log2 w2) in *.
  unfold get_highest_prio. wp_steps. eapply wp_arr; [done|]. wp_steps.
  apply wp_assert; [by destruct (Z.eqb_spec w 0)|]. wp_steps. unfold clzl.
  destruct (Z.eqb_spec w 0); [done|]. eapply wp_ofopt; [done|]. fold i. unfold WORD_BITS.
  replace (u32 (32 - 1 - (32 - 1 - i))) with i by (rewrite u32_small; lia).
  wp_steps. apply wp_invert_l1index; [done|]. wp_steps. eapply wp_rd_l2; [done|done|]. wp_steps.
  apply wp_assert; [by destruct (Z.eqb_spec w2 0)|]. wp_steps.
  destruct (Z.eqb_spec w2 0); [done|]. eapply wp_ofopt; [done|]. fold j.
  replace (u32 (32 - 1 - (32 - 1 - j))) with j by (rewrite u32_small; lia).
  wp_steps. rewrite prio_join by done. apply HQ; [lia|by rewrite <-Hb2|].
  intros p' Hp' Pp'. pose proof (Hset p' Hp' Pp') as Hp1. apply Hmax in Hp1.
  destruct (prio_split p' Hp') as (_ & _ & Hi' & Hj' & Eq).
  destruct (decide (p' / 32 = i)) as [Ei|]; [|lia].
  rewrite Eq, Ei, <-Hb2 in Pp' by done. apply Hmaxj in Pp'. lia.
Qed.

End BitmapOps.

(** ** Ready queues *)

Notation rnext := (get_fld ready_q_next 0).
Notation rprev := (get_fld ready_q_prev 0).
Notation prior_of := (get_fld sched_prior 0).
Notation domain_of := (get_fld domain 0).

(** Links outside a list are untouched. *)
Definition links_except (l : list Z) (s s' : kstate) : Prop :=
  forall x, x ∉ l -> rnext s' x = rnext s x /\ rprev s' x = rprev s x.

Section ReadyQueues.
Context `{Config}.

Definition num_queues : Z := CONFIG_NUM_DOMAINS * NUM_PRIORITIES.

(** The queue a domain and a priority select. *)
Definition qidx (dom prio : Z) : Z :=
  if 1 <? CONFIG_NUM_DOMAINS then dom * NUM_PRIORITIES + prio else prio.

Definition queue_of (s : kstate) (t : Z) : Z := qidx (domain_of s t) (prior_of s t).

Definition occupied (q : Z -> list Z) (dom prio : Z) : bool :=
  match q (qidx dom prio) with [] => false | _ => true end.

(** A thread whose domain and priority select a queue of the array. *)
Definition placeable (s : kstate) (t : Z) : Prop :=
  is_tcb s t /\ t <> 0 /\ 0 <= domain_of s t < CONFIG_NUM_DOMAINS /\ 0 <= prior_of s t < NUM_PRIORITIES.

Record ReadyQ (s : kstate) (q : Z -> list Z) : Prop := {
  rq_config : 1 <= CONFIG_NUM_DOMAINS < 2 ^ 23;
  rq_queue : forall i, 0 <= i < num_queues ->
    index (ready_queues s) i = Some (mk_queue (first 0 (q i)) (final 0 (q i)));
  rq_dll : forall i, 0 <= i < num_queues -> dll (rnext s) (rprev s) (q i);
  rq_member : forall i t, 0 <= i < num_queues -> t ∈ q i -> placeable s t /\ queue_of s t = i;
  rq_bitmap : Bitmap (ready_queues_l1_bitmap s) (ready_queues_l2_bitmap s) (occupied q);
}.

Definition upd_q (q : Z -> list Z) (i : Z) (l : list Z) : Z -> list Z :=
  fun j => if j =? i then l else q j.

Lemma qidx_range dom prio :
  1 <= CONFIG_NUM_DOMAINS -> 0 <= dom < CONFIG_NUM_DOMAINS -> 0 <= prio < NUM_PRIORITIES ->
  0 <= qidx dom prio < num_queues.
Proof. unfold qidx, num_queues, NUM_PRIORITIES. intros. destruct (Z.ltb_spec 1 CONFIG_NUM_DOMAINS); nia. Qed.

Lemma qidx_inj d p d' p' :
  0 <= d < CONFIG_NUM_DOMAINS -> 0 <= p < 256 -> 0 <= d' < CONFIG_NUM_DOMAINS -> 0 <= p' < 256 ->
  qidx d p = qidx d' p' -> d = d' /\ p = p'.
Proof. unfold qidx, NUM_PRIORITIES. intros. destruct (Z.ltb_spec 1 CONFIG_NUM_DOMAINS); nia. Qed.

Lemma wp_ready_queues_index dom prio (Q : Z -> kstate -> Prop) s :
  1 <= CONFIG_NUM_DOMAINS < 2 ^ 23 -> 0 <= dom < CONFIG_NUM_DOMAINS -> 0 <= prio < NUM_PRIORITIES ->
  Q (qidx dom prio) s -> wp (ready_queues_index dom prio) Q s.
Proof.
  intros Hc Hd Hp HQ. unfold ready_queues_index, qidx in *.
  destruct (Z.ltb_spec 1 CONFIG_NUM_DOMAINS).
  - wp_steps. unfold NUM_PRIORITIES in *. by rewrite u32_small by nia.
  - wp_steps. apply wp_assert; [apply Z.eqb_eq; lia|]. by wp_steps.
Qed.

(** [QFrame s s']: [s'] differs from [s] at most in the ready queues, the bitmaps and the
    queue links of threads. *)
Definition unlink (t : ktcb) : ktcb := with_ready_q_next 0 (with_ready_q_prev 0 t).

Record QFrame (s s' : kstate) : Prop := {
  qf_globals : s' = with_threads (threads s') (with_ready_queues (ready_queues s')
    (with_bitmaps (ready_queues_l1_bitmap s') (ready_queues_l2_bitmap s') s));
  qf_threads : forall p, unlink <$> threads s' !! p = unlink <$> threads s !! p;
}.

#[global] Instance QFrame_preorder : PreOrder QFrame.
Proof.
  split.
  - intros s. split; [by destruct s|done].
  - intros s1 s2 s3 [G1 T1] [G2 T2]. split; [|intros p; by rewrite T2].
    rewrite G2 at 1. rewrite G1. by destruct s3, s1.
Qed.

Lemma qframe_queues s l : QFrame s (with_ready_queues l s).
Proof. split; [by destruct s|done]. Qed.

Lemma qframe_bitmaps s l1 l2 : QFrame s (with_bitmaps l1 l2 s).
Proof. split; [by destruct s|done]. Qed.

Lemma qframe_upd s p g : (forall t, unlink (g t) = unlink t) -> QFrame s (upd_tcb p g s).
Proof.
  intros Hg. split; [by destruct s|]. intros x. unfold upd_tcb. cbn. destruct (decide (p = x)) as [->|].
  - rewrite lookup_alter_eq. destruct (threads s !! x); cbn; [|done]. by rewrite Hg.
  - by rewrite lookup_alter_ne.
Qed.

Lemma qframe_opt s p g : (forall t, unlink (g t) = unlink t) -> QFrame s (opt_upd p g s).
Proof. intros Hg. rewrite opt_upd_cases. destruct (p =? NULL); [done|]. by apply qframe_upd. Qed.

Lemma qframe_fld {A} (f : ktcb -> A) d s s' p :
  QFrame s s' -> (forall t, f (unlink t) = f t) -> get_fld f d s' p = get_fld f d s p.
Proof.
  intros [_ T] Hf. specialize (T p). unfold get_fld.
  destruct (threads s' !! p) as [t'|], (threads s !! p) as [t|]; try done. cbn in T.
  rewrite <-(Hf t'), <-(Hf t). apply (inj Some) in T. by rewrite T.
Qed.

Lemma qframe_is_tcb s s' p : QFrame s s' -> is_tcb s' p <-> is_tcb s p.
Proof.
  intros [_ T]. specialize (T p). unfold is_tcb.
  destruct (threads s' !! p), (threads s !! p); try done; rewrite ?is_Some_alt; done.
Qed.

Lemma qframe_placeable s s' p : QFrame s s' -> placeable s' p <-> placeable s p.
Proof.
  intros F. unfold placeable. by rewrite (qframe_is_tcb s s'), !(qframe_fld _ _ s s') by done.
Qed.

Lemma qframe_queue_of s s' p : QFrame s s' -> queue_of s' p = queue_of s p.
Proof. intros F. unfold queue_of. by rewrite !(qframe_fld _ _ s s') by done. Qed.

(** Changing one queue: what has to be shown of the new state. *)
Lemma readyq_update s s' q dom prio l :
  ReadyQ s q -> QFrame s s' -> 0 <= dom < CONFIG_NUM_DOMAINS -> 0 <= prio < NUM_PRIORITIES ->
  ready_queues s' = <[Z.to_nat (qidx dom prio) := mk_queue (first 0 l) (final 0 l)]> (ready_queues s) ->
  Bitmap (ready_queues_l1_bitmap s') (ready_queues_l2_bitmap s')
    (fun d p => if (d =? dom) && (p =? prio) then match l with [] => false | _ => true end else occupied q d p) ->
  (forall t, t ∈ l -> placeable s t /\ queue_of s t = qidx dom prio) ->
  dll (rnext s') (rprev s') l ->
  (forall t, placeable s t -> queue_of s t <> qidx dom prio -> rnext s' t = rnext s t /\ rprev s' t = rprev s t) ->
  ReadyQ s' (upd_q q (qidx dom prio) l).
Proof.
  intros [Hc Hq Hdll Hmem HB] F Hd Hp Ers HB' Hl Hdl Hfr.
  pose proof (qidx_range dom prio ltac:(lia) Hd Hp) as Hi.
  split; [done|..].
  - intros j Hj. rewrite Ers. pose proof (Hq _ Hi) as Hqi. apply index_Some_range in Hqi.
    rewrite index_insert by lia. unfold upd_q. destruct (Z.eqb_spec j (qidx dom prio)); [done|]. by apply Hq.
  - intros j Hj. unfold upd_q. destruct (Z.eqb_spec j (qidx dom prio)); [done|].
    eapply dll_frame; [by apply Hdll|]. intros x Hx. destruct (Hmem j x Hj Hx) as [? Hx']. apply Hfr; [done|congruence].
  - intros j t Hj Ht. unfold upd_q in Ht. rewrite (qframe_placeable s s'), (qframe_queue_of s s') by done.
    destruct (Z.eqb_spec j (qidx dom prio)) as [->|]; auto.
  - eapply Bitmap_ext; [exact HB'|]. intros d p Hdd Hpp. cbn. unfold occupied, upd_q.
    destruct (Z.eqb_spec (qidx d p) (qidx dom prio)) as [E|E].
    + apply qidx_inj in E as [-> ->]; [|done..]. by rewrite !Z.eqb_refl.
    + destruct (Z.eqb_spec d dom) as [->|], (Z.eqb_spec p prio) as [->|]; done.
Qed.

(** What the entry checks of the insertions require of a thread. *)
Definition budget_ok (s : kstate) (sp : Z) : Prop := exists sc h rest,
  scheds s !! sp = Some sc /\ Rep sc (h :: rest) /\
  refill_time h <= u64 (current_time s + get_kernel_wcet_ticks) /\ MIN_BUDGET <= refill_amount h < 2 ^ 64.

Definition may_queue (s : kstate) (t : Z) : Prop :=
  let sp := get_fld sched 0 s t in
  sp = NULL \/ exists sc, scheds s !! sp = Some sc /\
    (CONFIG_ASSERT = true -> 0 < refill_max sc -> get_fld is_runnable false s t = true /\ budget_ok s sp).

Lemma wp_is_time_sensitived t (Q : bool -> kstate -> Prop) s :
  is_tcb s t -> may_queue s t ->
  (forall b, (b = true -> get_fld sched 0 s t <> NULL /\ exists sc, scheds s !! get_fld sched 0 s t = Some sc /\ 0 < refill_max sc) -> Q b s) ->
  wp (is_time_sensitived t) Q s.
Proof.
  intros Ht Hm HQ. unfold is_time_sensitived. wp_steps. apply (wp_rd _ _ 0); [done|].
  destruct (Z.eqb_spec (get_fld sched 0 s t) NULL); [by wp_steps; apply HQ|].
  destruct Hm as [?|(sc & E & _)]; [done|]. wp_steps. eapply wp_rd_sched; [done|]. wp_steps.
  apply HQ. intros ?%Z.ltb_lt. eauto.
Qed.

Lemma wp_refill_checks sp sc h rest s :
  scheds s !! sp = Some sc -> Rep sc (h :: rest) ->
  refill_time h <= u64 (current_time s + get_kernel_wcet_ticks) -> MIN_BUDGET <= refill_amount h < 2 ^ 64 ->
  (forall Q : bool -> kstate -> Prop, Q true s -> wp (thread_refill_ready sp) Q s) /\
  (forall Q : bool -> kstate -> Prop, Q true s -> wp (thread_refill_sufficient sp 0) Q s).
Proof.
  intros E R Ht Ha. pose proof MIN_BUDGET_eq. split; intros Q HQ.
  - unfold thread_refill_ready. wp_steps. eapply wp_on_sched_ro; [done|]. unfold refill_ready. wp_steps.
    eapply wp_REFILL_HEAD; [done|]. wp_steps. split; [done|]. by apply Z.leb_le in Ht as ->.
  - unfold thread_refill_sufficient. eapply wp_on_sched_ro; [done|].
    unfold refill_sufficient, refill_capacity. wp_steps.
    eapply wp_REFILL_HEAD; [done|]. wp_steps. split; [done|].
    destruct (Z.ltb_spec (refill_amount h) 0); [lia|]. rewrite u64_small by lia.
    rewrite Z.sub_0_r. destruct Ha as [Ha _]. by apply Z.leb_le in Ha as ->.
Qed.

Lemma wp_assert_sched_ready t (Q : unit -> kstate -> Prop) s :
  is_tcb s t -> may_queue s t -> Q tt s -> wp (assert_sched_ready t) Q s.
Proof.
  intros Ht Hm HQ. unfold assert_sched_ready. wp_steps. apply wp_is_time_sensitived; [done|done|].
  intros [] Hb; [|by apply wp_skip]. destruct Hb as (Hsp & sc & E & Hmax); [done|].
  destruct Hm as [?|(? & E' & Hok)]; [done|]. rewrite E in E'. injection E' as <-.
  wp_steps. apply wp_assert_m.
  { intros HA. destruct (Hok HA Hmax) as [Hr _]. unfold is_schedulable. wp_steps.
    apply (wp_rd _ _ 0); [done|]. destruct (Z.eqb_spec (get_fld sched 0 s t) NULL); [done|].
    wp_steps. apply (wp_rd _ _ false); [done|]. rewrite Hr. wp_steps. eapply wp_rd_sched; [done|].
    wp_steps. split; [|done]. by apply Z.ltb_lt. }
  wp_steps. apply wp_assert_m.
  { intros HA. destruct (Hok HA Hmax) as [_ (sc' & h & rest & E' & R & Hti & Ham)].
    destruct (wp_refill_checks _ _ _ _ _ E' R Hti Ham) as [_ Hs].
    wp_steps. apply (wp_rd _ _ 0); [done|]. by apply Hs. }
  apply wp_assert_m; [|done].
  intros HA. destruct (Hok HA Hmax) as [_ (sc' & h & rest & E' & R & Hti & Ham)].
  destruct (wp_refill_checks _ _ _ _ _ E' R Hti Ham) as [Hs _].
  wp_steps. apply (wp_rd _ _ 0); [done|]. by apply Hs.
Qed.

Lemma qframe_may_queue s s' t : QFrame s s' -> may_queue s' t <-> may_queue s t.
Proof.
  intros F. unfold may_queue, budget_ok. rewrite !(qframe_fld _ _ s s') by done.
  assert (scheds s' = scheds s /\ current_time s' = current_time s) as [-> ->]; [|done].
  destruct F as [-> _]. done.
Qed.

(** Where a queued thread sits. *)
Lemma readyq_nonnull s q i : ReadyQ s q -> 0 <= i < num_queues -> 0 ∉ q i.
Proof. intros HR Hi. by destruct (rq_dll _ _ HR i Hi). Qed.

Lemma readyq_bitmap_same s q dom prio l :
  ReadyQ s q -> l = q (qidx dom prio) ->
  Bitmap (ready_queues_l1_bitmap s) (ready_queues_l2_bitmap s)
    (fun d p => if (d =? dom) && (p =? prio) then match l with [] => false | _ => true end else occupied q d p).
Proof.
  intros HR ->. eapply Bitmap_ext; [apply HR|]. intros d p _ _. cbn.
  destruct (Z.eqb_spec d dom) as [->|], (Z.eqb_spec p prio) as [->|]; done.
Qed.

(** The common part of the two insertions: [t] becomes a neighbour of the members of its
    queue, between [l1] and [l2]. *)
Lemma readyq_insert s s' q t l1 l2 :
  ReadyQ s q -> placeable s t -> t ∉ q (queue_of s t) -> q (queue_of s t) = l1 ++ l2 -> QFrame s s' ->
  ready_queues s' = <[Z.to_nat (queue_of s t) := mk_queue (first 0 (l1 ++ t :: l2)) (final 0 (l1 ++ t :: l2))]> (ready_queues s) ->
  Bitmap (ready_queues_l1_bitmap s') (ready_queues_l2_bitmap s')
    (fun d p => (d =? domain_of s t) && (p =? prior_of s t) || occupied q d p) ->
  rnext s' t = first 0 l2 -> rprev s' t = final 0 l1 ->
  (forall x, x <> t -> rnext s' x = if decide (x = final 0 l1 /\ l1 <> []) then t else rnext s x) ->
  (forall x, x <> t -> rprev s' x = if decide (x = first 0 l2 /\ l2 <> []) then t else rprev s x) ->
  ReadyQ s' (upd_q q (queue_of s t) (l1 ++ t :: l2)) /\ links_except (t :: l1 ++ l2) s s'.
Proof.
  intros HR Hpl Hnin El F Ers HB En Ep Hn Hp. pose proof Hpl as (Hv & H0 & Hd & Hpr).
  pose proof (qidx_range _ _ (proj1 (rq_config _ _ HR)) Hd Hpr) as Hi.
  pose proof (rq_dll _ _ HR _ Hi) as Hdll. pose proof (fun x => rq_member _ _ HR _ x Hi) as Hmem.
  fold (queue_of s t) in *. rewrite El in Hdll, Hnin, Hmem.
  assert (Hl1 : forall x, x ∈ l1 ++ l2 -> x = final 0 l1 -> l1 <> []).
  { intros x Hx -> ->. cbn in Hx. by destruct (dll_nonnull _ _ _ Hdll). }
  assert (Hl2 : forall x, x ∈ l1 ++ l2 -> x = first 0 l2 -> l2 <> []).
  { intros x Hx -> ->. cbn in Hx. by destruct (dll_nonnull _ _ _ Hdll). }
  assert (Hlk : links_except (t :: l1 ++ l2) s s').
  { intros x [Hxt Hx]%not_elem_of_cons. rewrite Hn, Hp by done. rewrite !decide_False; [done|..].
    - intros [-> ?]. apply Hx. destruct l2; set_solver.
    - intros [-> ?]. apply Hx. destruct (final_in 0 l1) as [E|]; [|set_solver].
      apply final_null in E; [done|]. intros ?. by apply (dll_nonnull _ _ _ Hdll); set_solver. }
  split; [|exact Hlk].
  eapply readyq_update; [exact HR|exact F|exact Hd|exact Hpr|exact Ers|..].
  - eapply Bitmap_ext; [exact HB|]. intros d p _ _. cbn.
    destruct (_ && _); [|done]. by destruct l1.
  - intros x Hx. destruct (decide (x = t)) as [->|]; [done|]. apply Hmem. set_solver.
  - eapply dll_insert; [exact Hdll|done|done|done|done|..]; intros x Hx.
    + rewrite Hn by set_solver. destruct (decide (x = final 0 l1)), (decide (x = final 0 l1 /\ l1 <> [])); naive_solver.
    + rewrite Hp by set_solver. destruct (decide (x = first 0 l2)), (decide (x = first 0 l2 /\ l2 <> [])); naive_solver.
  - intros x Hx Hne. apply Hlk, not_elem_of_cons. split; [by intros ->|].
    intros Hin. by destruct (Hmem x Hin).
Qed.

(** Prove [QFrame] of a state built by queue, bitmap and link updates. *)
Ltac qframe :=
  repeat match goal with
  | |- QFrame ?s ?s => reflexivity
  | |- QFrame _ (with_ready_queues ?l ?s) => transitivity s; [|apply qframe_queues]
  | |- QFrame _ (with_bitmaps ?a ?b ?s) => transitivity s; [|apply qframe_bitmaps]
  | |- QFrame _ (upd_tcb ?p ?g ?s) => transitivity s; [|apply qframe_upd; by intros []]
  | |- QFrame _ (opt_upd ?p ?g ?s) => transitivity s; [|apply qframe_opt; by intros []]
  end.

(** [sched_enqueue] pushes the thread at the head of the queue of its priority. *)
Lemma wp_sched_enqueue q t (Q : unit -> kstate -> Prop) s :
  ReadyQ s q -> placeable s t -> may_queue s t -> t ∉ q (queue_of s t) ->
  (forall s', QFrame s s' -> ReadyQ s' (upd_q q (queue_of s t) (t :: q (queue_of s t))) /\
     links_except (t :: q (queue_of s t)) s s' -> Q tt s') ->
  wp (sched_enqueue t) Q s.
Proof.
  intros HR Hpl Hm Hnin HQ. pose proof Hpl as (Hv & H0 & Hd & Hp).
  pose proof (qidx_range _ _ (proj1 (rq_config _ _ HR)) Hd Hp) as Hi.
  unfold sched_enqueue. wp_steps. apply wp_assert_sched_ready; [done|done|]. wp_steps.
  apply (wp_rd _ _ 0); [done|]. wp_steps. apply (wp_rd _ _ 0); [done|]. wp_steps.
  apply wp_ready_queues_index; [apply HR|done|done|]. wp_steps.
  eapply wp_arr; [by apply HR|]. wp_steps. cbn [q_tail q_head].
  pose proof (rq_member _ _ HR _ (first 0 (q (queue_of s t))) Hi) as Hmem.
  fold (queue_of s t) in *. pose proof (readyq_nonnull _ _ _ HR Hi) as Hn0.
  pose proof (final_null _ Hn0) as Hfin.
  assert (Hins := fun s' => readyq_insert s s' q t [] _ HR Hpl Hnin eq_refl).
  destruct (q (queue_of s t)) as [|h l] eqn:El.
  - cbn. wp_steps. eapply wp_add_to_bitmap; [apply HR|done|done|]. intros L1 L2 HB.
    wp_steps. apply wp_wr; [by fld|]. wp_steps. apply wp_wr; [by fld|]. wp_steps.
    eapply wp_arr_set; [by apply HR|]. apply HQ; [qframe|]. apply Hins; [qframe|done|done|..].
    + fld. by rewrite decide_True.
    + fld. by rewrite decide_True.
    + intros x Hx. fld. by rewrite !decide_False by naive_solver.
    + intros x Hx. fld. by rewrite !decide_False by naive_solver.
  - destruct (Z.eqb_spec (final 0 (h :: l)) NULL) as [E|_]; [by apply Hfin in E|].
    destruct Hmem as [(Hvh & _) _]; [set_solver|]. cbn [first] in *.
    wp_steps. apply wp_wr; [done|]. wp_steps. apply wp_wr; [by fld|]. wp_steps.
    apply wp_wr; [by fld|]. wp_steps. eapply wp_arr_set; [by apply HR|].
    apply HQ; [qframe|]. apply Hins; [qframe|..].
    + done.
    + eapply Bitmap_ext; [apply HR|]. intros d p _ _. cbn.
      destruct (Z.eqb_spec d (domain_of s t)) as [->|], (Z.eqb_spec p (prior_of s t)) as [->|]; cbn; try done.
      unfold occupied. fold (queue_of s t). by rewrite El.
    + fld. by rewrite decide_True.
    + fld. by rewrite decide_True.
    + intros x Hx. fld. by rewrite !decide_False by naive_solver.
    + intros x Hx. fld. rewrite (decide_False (P := x = t)) by done. cbn [first].
      destruct (decide (x = h)), (decide (x = h /\ h :: l <> [])); naive_solver.
Qed.

(** [sched_append] adds it at the tail. *)
Lemma wp_sched_append q t (Q : unit -> kstate -> Prop) s :
  ReadyQ s q -> placeable s t -> may_queue s t -> t ∉ q (queue_of s t) ->
  (forall s', QFrame s s' -> ReadyQ s' (upd_q q (queue_of s t) (q (queue_of s t) ++ [t])) /\
     links_except (t :: q (queue_of s t)) s s' -> Q tt s') ->
  wp (sched_append t) Q s.
Proof.
  intros HR Hpl Hm Hnin HQ. pose proof Hpl as (Hv & H0 & Hd & Hp).
  pose proof (qidx_range _ _ (proj1 (rq_config _ _ HR)) Hd Hp) as Hi.
  unfold sched_append. wp_steps. apply wp_assert_sched_ready; [done|done|]. wp_steps.
  apply (wp_rd _ _ 0); [done|]. wp_steps. apply (wp_rd _ _ 0); [done|]. wp_steps.
  apply wp_ready_queues_index; [apply HR|done|done|]. wp_steps.
  eapply wp_arr; [by apply HR|]. wp_steps. cbn [q_tail q_head].
  pose proof (rq_member _ _ HR _ (final 0 (q (queue_of s t))) Hi) as Hmem.
  fold (queue_of s t) in *. pose proof (readyq_nonnull _ _ _ HR Hi) as Hn0.
  pose proof (first_null _ Hn0) as Hfst. pose proof (final_null _ Hn0) as Hfin.
  assert (Hins := fun s' => readyq_insert s s' q t _ [] HR Hpl Hnin (eq_sym (app_nil_r _))).
  rewrite app_nil_r in Hins.
  destruct (q (queue_of s t)) as [|h l] eqn:El.
  - cbn. wp_steps. eapply wp_add_to_bitmap; [apply HR|done|done|]. intros L1 L2 HB.
    wp_steps. apply wp_wr; [by fld|]. wp_steps. apply wp_wr; [by fld|]. wp_steps.
    eapply wp_arr_set; [by apply HR|]. apply HQ; [qframe|]. apply Hins; [qframe|done|done|..].
    + fld. by rewrite decide_True.
    + fld. by rewrite decide_True.
    + intros x Hx. fld. by rewrite !decide_False by naive_solver.
    + intros x Hx. fld. by rewrite !decide_False by naive_solver.
  - destruct (Z.eqb_spec (first 0 (h :: l)) NULL) as [E|_]; [by apply Hfst in E|].
    destruct Hmem as [(Hvh & _) _].
    { destruct (final_in 0 (h :: l)) as [E|]; [|done]. by apply Hfin in E. }
    wp_steps. apply wp_wr; [done|]. wp_steps. apply wp_wr; [by fld|]. wp_steps.
    apply wp_wr; [by fld|]. wp_steps. eapply wp_arr_set; [by apply HR|].
    apply HQ; [qframe|]. apply Hins; [qframe|..].
    + rewrite first_app, final_app. cbn. done.
    + eapply Bitmap_ext; [apply HR|]. intros d p _ _. cbn.
      destruct (Z.eqb_spec d (domain_of s t)) as [->|], (Z.eqb_spec p (prior_of s t)) as [->|]; cbn; try done.
      unfold occupied. fold (queue_of s t). by rewrite El.
    + fld. by rewrite decide_True.
    + fld. by rewrite decide_True.
    + intros x Hx. fld. rewrite (decide_False (P := x = t)) by done.
      destruct (decide (x = final 0 (h :: l))), (decide (x = final 0 (h :: l) /\ h :: l <> [])); naive_solver.
    + intros x Hx. fld. by rewrite !decide_False by naive_solver.
Qed.

(** The neighbours of a queued thread. *)
Lemma readyq_member_view s q t l1 l2 :
  ReadyQ s q -> placeable s t -> q (queue_of s t) = l1 ++ t :: l2 ->
  dll (rnext s) (rprev s) (l1 ++ t :: l2) /\
  rnext s t = first 0 l2 /\ rprev s t = final 0 l1 /\ t ∉ l1 ++ l2 /\ 0 ∉ l1 ++ l2 /\
  (forall x, x ∈ l1 ++ l2 -> placeable s x /\ queue_of s x = queue_of s t) /\
  (l1 <> [] -> final 0 l1 ∈ l1) /\ (l2 <> [] -> first 0 l2 ∈ l2).
Proof.
  intros HR Hpl El. pose proof Hpl as (Hv & H0 & Hd & Hp).
  pose proof (qidx_range _ _ (proj1 (rq_config _ _ HR)) Hd Hp) as Hi. fold (queue_of s t) in Hi.
  pose proof (rq_dll _ _ HR _ Hi) as Hdll. pose proof (fun x => rq_member _ _ HR _ x Hi) as Hmem.
  rewrite El in *.
  destruct (dll_links _ _ _ Hdll) as [? ?]. destruct (dll_neighbours _ _ _ Hdll) as (? & ? & ?).
  do 5 (split; [done|]). split; [intros x Hx; apply Hmem; set_solver|]. split; intros Hne.
  - destruct (final_in 0 l1) as [E|]; [|done]. apply final_null in E; [done|set_solver].
  - destruct l2; set_solver.
Qed.

Lemma readyq_remove s s' q t l1 l2 :
  ReadyQ s q -> placeable s t -> q (queue_of s t) = l1 ++ t :: l2 -> QFrame s s' ->
  ready_queues s' = <[Z.to_nat (queue_of s t) := mk_queue (first 0 (l1 ++ l2)) (final 0 (l1 ++ l2))]> (ready_queues s) ->
  Bitmap (ready_queues_l1_bitmap s') (ready_queues_l2_bitmap s')
    (fun d p => if (d =? domain_of s t) && (p =? prior_of s t)
                then match l1 ++ l2 with [] => false | _ => true end else occupied q d p) ->
  (forall x, x <> t -> rnext s' x = if decide (x = final 0 l1 /\ l1 <> []) then first 0 l2 else rnext s x) ->
  (forall x, x <> t -> rprev s' x = if decide (x = first 0 l2 /\ l2 <> []) then final 0 l1 else rprev s x) ->
  ReadyQ s' (upd_q q (queue_of s t) (l1 ++ l2)) /\ links_except (t :: l1 ++ l2) s s'.
Proof.
  intros HR Hpl El F Ers HB Hn Hp. pose proof Hpl as (Hv & H0 & Hd & Hpr).
  destruct (readyq_member_view s q t l1 l2 HR Hpl El) as (Hdll & _ & _ & Hnin & H00 & Hmem & Hf1 & Hf2).
  assert (Hlk : links_except (t :: l1 ++ l2) s s').
  { intros x [Hxt Hx]%not_elem_of_cons. rewrite Hn, Hp by done.
    rewrite !decide_False; [done|..]; intros [-> ?]; apply Hx; set_solver. }
  split; [|exact Hlk].
  eapply readyq_update; [exact HR|exact F|exact Hd|exact Hpr|exact Ers|exact HB|exact Hmem|..].
  - eapply dll_remove; [exact Hdll|..]; intros x Hx.
    + rewrite Hn by set_solver.
      destruct (decide (x = final 0 l1)) as [->|], (decide (_ /\ l1 <> [])) as [|Hne]; try naive_solver.
    + rewrite Hp by set_solver.
      destruct (decide (x = first 0 l2)) as [->|], (decide (_ /\ l2 <> [])) as [|Hne]; try naive_solver.
  - intros x Hx Hne. apply Hlk, not_elem_of_cons. split; [by intros ->|].
    intros Hin. by destruct (Hmem x Hin).
Qed.

(** First half of [sched_dequeue]: the predecessor, or the head of the queue and the
    bitmap, skip the thread. *)
Lemma wp_dequeue_prev q t l1 l2 (Q : tcb_queue -> kstate -> Prop) s :
  ReadyQ s q -> placeable s t -> q (queue_of s t) = l1 ++ t :: l2 ->
  (forall L1 L2, Bitmap L1 L2 (fun d p => if (d =? domain_of s t) && (p =? prior_of s t)
                then match l1 ++ l2 with [] => false | _ => true end else occupied q d p) ->
     Q (mk_queue (first 0 (l1 ++ l2)) (final 0 (l1 ++ t :: l2)))
       (opt_upd (final 0 l1) (with_ready_q_next (first 0 l2)) (with_bitmaps L1 L2 s))) ->
  let queue := mk_queue (first 0 (l1 ++ t :: l2)) (final 0 (l1 ++ t :: l2)) in
  wp (if negb (final 0 l1 =? NULL) then
        next ← rd ready_q_next t; wr (final 0 l1) (with_ready_q_next next);; mret queue
      else
        next ← rd ready_q_next t;
        (if next =? NULL then remove_from_bitmap (domain_of s t) (prior_of s t) else skip);;
        mret (with_q_head next queue)) Q s.
Proof.
  intros HR Hpl El HQ queue. pose proof Hpl as (Hv & H0 & Hd & Hp).
  destruct (readyq_member_view s q t l1 l2 HR Hpl El) as (Hdll & En & Ep & Hnin & H00 & Hmem & Hf1 & Hf2).
  pose proof (final_null l1 ltac:(set_solver)) as Hn1. pose proof (first_null l2 ltac:(set_solver)) as Hn2.
  assert (HB : l1 ++ l2 <> [] -> Bitmap (ready_queues_l1_bitmap s) (ready_queues_l2_bitmap s)
    (fun d p => if (d =? domain_of s t) && (p =? prior_of s t)
                then match l1 ++ l2 with [] => false | _ => true end else occupied q d p)).
  { intros Hne. eapply Bitmap_ext; [apply HR|]. intros d p _ _. cbn.
    destruct (Z.eqb_spec d (domain_of s t)) as [->|], (Z.eqb_spec p (prior_of s t)) as [->|]; cbn; try done.
    unfold occupied. fold (queue_of s t). rewrite El. by destruct l1, l2. }
  assert (Hid : forall s, with_bitmaps (ready_queues_l1_bitmap s) (ready_queues_l2_bitmap s) s = s) by (by intros []).
  setoid_rewrite opt_upd_cases in HQ. destruct (Z.eqb_spec (final 0 l1) NULL) as [E|E]; cbn [negb].
  - apply Hn1 in E as ->. wp_steps. apply (wp_rd _ _ 0); [done|]. rewrite En.
    destruct (Z.eqb_spec (first 0 l2) NULL) as [E2|E2].
    + apply Hn2 in E2 as ->. wp_steps. eapply wp_remove_from_bitmap; [apply HR|done|done|]. intros L1 L2 HB'.
      wp_steps. apply HQ. eapply Bitmap_ext; [exact HB'|]. intros d p _ _. cbn. by destruct (_ && _).
    + wp_steps. rewrite <-(Hid s). apply HQ. apply HB. cbn. intros ->. by apply E2.
  - wp_steps. apply (wp_rd _ _ 0); [done|]. rewrite En. wp_steps.
    apply wp_wr; [apply Hmem, elem_of_app; left; apply Hf1; naive_solver|]. wp_steps.
    replace queue with (mk_queue (first 0 (l1 ++ l2)) (final 0 (l1 ++ t :: l2))) by (by destruct l1).
    rewrite <-(Hid s). apply HQ, HB. destruct l1; naive_solver.
Qed.

(** [sched_dequeue] removes the thread from the queue of its priority. *)
Lemma wp_sched_dequeue q t l1 l2 (Q : unit -> kstate -> Prop) s :
  ReadyQ s q -> placeable s t -> q (queue_of s t) = l1 ++ t :: l2 ->
  (forall s', QFrame s s' -> ReadyQ s' (upd_q q (queue_of s t) (l1 ++ l2)) /\
     links_except (t :: l1 ++ l2) s s' -> Q tt s') ->
  wp (sched_dequeue t) Q s.
Proof.
  intros HR Hpl El HQ. pose proof Hpl as (Hv & H0 & Hd & Hp).
  destruct (readyq_member_view s q t l1 l2 HR Hpl El) as (Hdll & En & Ep & Hnin & H00 & Hmem & Hf1 & Hf2).
  pose proof (final_null l1 ltac:(set_solver)) as Hn1. pose proof (first_null l2 ltac:(set_solver)) as Hn2.
  assert (Hv1 : final 0 l1 <> NULL -> is_tcb s (final 0 l1)).
  { intros E. apply Hmem, elem_of_app. left. apply Hf1. naive_solver. }
  assert (Hv2 : first 0 l2 <> NULL -> is_tcb s (first 0 l2)).
  { intros E. apply Hmem, elem_of_app. right. apply Hf2. naive_solver. }
  assert (Hne1 : t <> final 0 l1 \/ final 0 l1 = NULL).
  { destruct (final_in 0 l1) as [->|Hin]; [by right|left]. intros E. apply Hnin. rewrite E. set_solver. }
  unfold sched_dequeue. wp_steps.
  apply (wp_rd _ _ 0); [done|]. wp_steps. apply (wp_rd _ _ 0); [done|]. wp_steps.
  apply wp_ready_queues_index; [apply HR|done|done|]. wp_steps.
  pose proof (qidx_range _ _ (proj1 (rq_config _ _ HR)) Hd Hp) as Hi.
  eapply wp_arr; [by apply HR|]. wp_steps. fold (queue_of s t) in *. rewrite El.
  apply (wp_rd _ _ 0); [done|]. rewrite Ep. wp_steps.
  eapply wp_dequeue_prev; [done|done|done|]. intros L1 L2 HB. wp_steps.
  apply (wp_rd _ _ 0); [by fld|]. fld. rewrite decide_False, En by naive_solver.
  assert (Hrem := fun s' => readyq_remove s s' q t l1 l2 HR Hpl El).
  assert (Hfin : Q tt (with_ready_queues (<[Z.to_nat (queue_of s t) := mk_queue (first 0 (l1 ++ l2)) (final 0 (l1 ++ l2))]>
      (ready_queues s)) (opt_upd (first 0 l2) (with_ready_q_prev (final 0 l1))
      (opt_upd (final 0 l1) (with_ready_q_next (first 0 l2)) (with_bitmaps L1 L2 s))))).
  { apply HQ; [qframe|]. apply Hrem; [qframe|done|done|..]; intros x Hx; fld.
    - destruct (decide (_ /\ _ <> NULL)), (decide (_ /\ l1 <> [])); naive_solver.
    - destruct (decide (_ /\ _ <> NULL)), (decide (_ /\ l2 <> [])); naive_solver. }
  rewrite opt_upd_cases in Hfin. destruct (Z.eqb_spec (first 0 l2) NULL) as [E|E]; cbn [negb].
  - apply Hn2 in E as ->. wp_steps. apply (wp_rd _ _ 0); [by fld|]. fld. rewrite Ep. wp_steps.
    eapply wp_arr_set; [by apply HR|]. cbn. by rewrite app_nil_r in Hfin |- *.
  - wp_steps. apply (wp_rd _ _ 0); [by fld|]. fld. rewrite Ep. wp_steps.
    apply wp_wr; [by fld; auto|]. wp_steps. eapply wp_arr_set; [by apply HR|].
    replace (final 0 (l1 ++ t :: l2)) with (final 0 (l1 ++ l2)); [done|].
    destruct l2 as [|y l2]; [done|]. by rewrite !final_app, !final_cons.
Qed.

(** [sched_dequeue] of a thread whose links are null and which is in no queue empties the
    queue of its priority. *)
Lemma wp_dequeue_stray q t (Q : unit -> kstate -> Prop) s :
  ReadyQ s q -> placeable s t -> rnext s t = 0 -> rprev s t = 0 ->
  (forall s', QFrame s s' -> ReadyQ s' (upd_q q (queue_of s t) []) -> Q tt s') -> wp (sched_dequeue t) Q s.
Proof.
  intros HR Hpl En Ep HQ. pose proof Hpl as (Hv & Ht0 & Hd & Hp).
  pose proof (qidx_range _ _ (proj1 (rq_config _ _ HR)) Hd Hp) as Hi.
  unfold sched_dequeue. wp_steps. apply (wp_rd _ _ 0); [done|]. wp_steps. apply (wp_rd _ _ 0); [done|]. wp_steps.
  apply wp_ready_queues_index; [apply HR|done|done|]. wp_steps. eapply wp_arr; [by apply HR|]. wp_steps.
  apply (wp_rd _ _ 0); [done|]. rewrite Ep. cbn [Z.eqb NULL negb]. wp_steps. apply (wp_rd _ _ 0); [done|]. rewrite En.
  cbn [Z.eqb NULL]. wp_steps. eapply wp_remove_from_bitmap; [apply HR|done|done|]. intros L1 L2 HB. wp_steps.
  apply (wp_rd _ _ 0); [done|]. change (rnext (with_bitmaps L1 L2 s) t) with (rnext s t). rewrite En. cbn [Z.eqb NULL negb]. wp_steps.
  apply (wp_rd _ _ 0); [done|]. change (rprev (with_bitmaps L1 L2 s) t) with (rprev s t). rewrite Ep. wp_steps.
  eapply wp_arr_set; [by apply HR|]. cbn [ready_queues with_bitmaps with_q_head with_q_tail q_head q_tail].
  apply HQ; [qframe|]. apply (readyq_update s); [done|qframe|done|done|done| |set_solver|by split; [constructor|set_solver|]|done].
  eapply Bitmap_ext; [exact HB|]. intros d p _ _. cbn. by destruct ((d =? _) && (p =? _)).
Qed.

End ReadyQueues.

(** ** Release queue *)

(** The head refill of a thread's scheduling context. *)
Definition head_refill (s : kstate) (t : Z) : option refill_t :=
  sc ← scheds s !! get_fld sched 0 s t; refill_buffer sc !! Z.to_nat (refill_head sc).

Definition head_time (s : kstate) (t : Z) : Z := from_option refill_time 0 (head_refill s t).

Record ReleaseQ (s : kstate) (l : list Z) : Prop := {
  rel_head : release_queue s = first 0 l;
  rel_dll : dll (rnext s) (rprev s) l;
  rel_member : forall t, t ∈ l -> is_tcb s t /\ is_Some (head_refill s t);
  rel_sorted : StronglySorted (fun a b => head_time s a <= head_time s b) l;
}.

(** [RFrame s s']: [s'] differs from [s] at most in [release_queue], [reprogram] and the
    queue links of threads. *)
Record RFrame (s s' : kstate) : Prop := {
  rf_globals : s' = with_threads (threads s') (with_release_queue (release_queue s')
    (with_reprogram (reprogram s') s));
  rf_threads : forall p, unlink <$> threads s' !! p = unlink <$> threads s !! p;
}.

#[global] Instance RFrame_preorder : PreOrder RFrame.
Proof.
  split.
  - intros s. split; [by destruct s|done].
  - intros s1 s2 s3 [G1 T1] [G2 T2]. split; [|intros p; by rewrite T2].
    rewrite G2 at 1. rewrite G1. by destruct s3, s1.
Qed.

Lemma rframe_release s v : RFrame s (with_release_queue v s).
Proof. split; [by destruct s|done]. Qed.

Lemma rframe_reprogram s v : RFrame s (with_reprogram v s).
Proof. split; [by destruct s|done]. Qed.

Lemma rframe_upd s p g : (forall t, unlink (g t) = unlink t) -> RFrame s (upd_tcb p g s).
Proof. intros Hg. split; [by destruct s|]. by apply qframe_upd. Qed.

Lemma rframe_opt s p g : (forall t, unlink (g t) = unlink t) -> RFrame s (opt_upd p g s).
Proof. intros Hg. rewrite opt_upd_cases. destruct (p =? NULL); [done|]. by apply rframe_upd. Qed.

Lemma unlink_fld {A} (f : ktcb -> A) d s s' p :
  unlink <$> threads s' !! p = unlink <$> threads s !! p -> (forall t, f (unlink t) = f t) ->
  get_fld f d s' p = get_fld f d s p.
Proof.
  intros T Hf. unfold get_fld.
  destruct (threads s' !! p) as [t'|], (threads s !! p) as [t|]; try done. cbn in T.
  rewrite <-(Hf t'), <-(Hf t). apply (inj Some) in T. by rewrite T.
Qed.

Lemma rframe_fld {A} (f : ktcb -> A) d s s' p :
  RFrame s s' -> (forall t, f (unlink t) = f t) -> get_fld f d s' p = get_fld f d s p.
Proof. intros F Hf. apply unlink_fld; [apply F|done]. Qed.

Lemma rframe_is_tcb s s' p : RFrame s s' -> is_tcb s' p <-> is_tcb s p.
Proof.
  intros [_ T]. specialize (T p). unfold is_tcb.
  destruct (threads s' !! p), (threads s !! p); try done; rewrite ?is_Some_alt; done.
Qed.

Lemma rframe_scheds s s' : RFrame s s' -> scheds s' = scheds s.
Proof. intros [G _]. by rewrite G. Qed.

Lemma rframe_head s s' t : RFrame s s' -> head_refill s' t = head_refill s t.
Proof. intros F. unfold head_refill. by rewrite (rframe_scheds s s'), (rframe_fld _ _ s s') by done. Qed.

Ltac rframe :=
  repeat match goal with
  | |- RFrame ?s ?s => reflexivity
  | |- RFrame _ (with_release_queue ?l ?s) => transitivity s; [|apply rframe_release]
  | |- RFrame _ (with_reprogram ?l ?s) => transitivity s; [|apply rframe_reprogram]
  | |- RFrame _ (upd_tcb ?p ?g ?s) => transitivity s; [|apply rframe_upd; by intros []]
  | |- RFrame _ (opt_upd ?p ?g ?s) => transitivity s; [|apply rframe_opt; by intros []]
  end.

Section Release.

Lemma wp_refill_head_time t (Q : Z -> kstate -> Prop) s :
  is_tcb s t -> is_Some (head_refill s t) -> Q (head_time s t) s -> wp (refill_head_time t) Q s.
Proof.
  intros Ht [r Hr] HQ. unfold refill_head_time. wp_steps. apply (wp_rd _ _ 0); [done|]. wp_steps.
  unfold head_time in HQ. rewrite Hr in HQ. cbn in HQ.
  unfold head_refill in Hr. apply bind_Some in Hr as (sc & E & Er).
  eapply wp_on_sched_ro; [done|]. unfold REFILL_HEAD, REFILL_INDEX. wp_steps. unfold wp. rewrite Er.
  split; [done|]. by wp_steps.
Qed.

Lemma releaseq_length s l : ReleaseQ s l -> (length l <= size (threads s))%nat.
Proof.
  intros HR. destruct (rel_dll _ _ HR) as [Hnd _ _].
  rewrite <-(size_list_to_set (C := gset Z) l) by done. rewrite <-size_dom. apply subseteq_size.
  intros x Hx%elem_of_list_to_set. apply elem_of_dom. by apply (rel_member _ _ HR).
Qed.

(** The search stops between the threads released no later than [t] and the others. *)
Lemma wp_release_position t l (Q : Z * Z -> kstate -> Prop) s fuel l1 l2 :
  is_tcb s t -> is_Some (head_refill s t) -> ReleaseQ s l -> l = l1 ++ l2 -> (length l2 < fuel)%nat ->
  Forall (fun x => head_time s x <= head_time s t) l1 ->
  (forall m1 m2, l = m1 ++ m2 -> Forall (fun x => head_time s x <= head_time s t) m1 ->
     Forall (fun x => head_time s t < head_time s x) m2 ->
     Q (final 0 m1, first 0 m2) s) ->
  wp (release_position fuel t (final 0 l1) (first 0 l2)) Q s.
Proof.
  intros Ht Hrt HR. revert l1 l2. induction fuel as [|fuel IH]; intros l1 l2 El Hf HF HQ; [lia|].
  cbn [release_position]. pose proof (rel_dll _ _ HR) as Hdll. pose proof (rel_member _ _ HR) as Hmem.
  pose proof (rel_sorted _ _ HR) as Hs.
  destruct l2 as [|a l2].
  - cbn. wp_steps. apply (HQ l1 []); [done|done|constructor].
  - assert (Ha : a ∈ l) by (subst; set_solver). cbn [first].
    destruct (Z.eqb_spec a NULL) as [->|_]; [by destruct (dll_nonnull _ _ _ Hdll)|].
    destruct (Hmem a Ha) as [Hva Hra]. wp_steps. apply wp_refill_head_time; [done|done|]. wp_steps.
    apply wp_refill_head_time; [done|done|]. destruct (Z.leb_spec (head_time s a) (head_time s t)).
    + wp_steps. apply (wp_rd _ _ 0); [done|]. rewrite El in Hdll.
      destruct (dll_links _ _ _ Hdll) as [-> _].
      replace a with (final 0 (l1 ++ [a])) by (by rewrite final_app).
      apply IH; [by rewrite <-app_assoc|cbn in Hf; lia| |done]. apply Forall_app. auto.
    + wp_steps. apply (HQ l1 (a :: l2)); [done|done|]. constructor; [done|].
      rewrite El in Hs. apply StronglySorted_app in Hs as (_ & _ & Hs). apply StronglySorted_inv in Hs as [_ Hs].
      eapply Forall_impl; [exact Hs|]. cbn. lia.
Qed.

Lemma StronglySorted_impl {A} (R R' : A -> A -> Prop) l :
  (forall a b, R a b -> R' a b) -> StronglySorted R l -> StronglySorted R' l.
Proof.
  intros HI. induction 1 as [|a l Hs IH HF]; constructor; [done|]. eapply Forall_impl; [exact HF|]. auto.
Qed.

(** Sortedness is a property of the refill times alone. *)
Lemma releaseq_intro s s' l' :
  RFrame s s' -> release_queue s' = first 0 l' -> dll (rnext s') (rprev s') l' ->
  (forall t, t ∈ l' -> is_tcb s t /\ is_Some (head_refill s t)) ->
  StronglySorted (fun a b => head_time s a <= head_time s b) l' -> ReleaseQ s' l'.
Proof.
  intros F Eh Hdll Hmem Hs. split; [done|done|..].
  - intros t Ht. rewrite (rframe_is_tcb s s'), (rframe_head s s') by done. by apply Hmem.
  - eapply StronglySorted_impl; [|exact Hs]. intros a b. unfold head_time.
    by rewrite !(rframe_head s s').
Qed.

Lemma sorted_insert {R : Z -> Z -> Prop} l1 l2 t :
  StronglySorted R (l1 ++ l2) -> Forall (fun x => R x t) l1 -> Forall (R t) l2 ->
  StronglySorted R (l1 ++ t :: l2).
Proof.
  rewrite !StronglySorted_app. intros (Hx & H1 & H2) HF1 HF2. rewrite Forall_forall in HF1.
  split; [|split; [done|by constructor]]. intros x y Hx1 [->|Hy]%elem_of_cons; auto.
Qed.

(** Pointers taken from a list are null or members. *)
Lemma final_member l : final 0 l <> NULL -> final 0 l ∈ l.
Proof. by destruct (final_in 0 l). Qed.

Lemma first_member (l : list Z) : first 0 l <> NULL -> first 0 l ∈ l.
Proof. destruct l; [done|]. cbn. set_solver. Qed.

Lemma releaseq_insert s s' m1 m2 t :
  ReleaseQ s (m1 ++ m2) -> is_tcb s t -> is_Some (head_refill s t) -> t <> 0 -> t ∉ m1 ++ m2 ->
  Forall (fun x => head_time s x <= head_time s t) m1 ->
  Forall (fun x => head_time s t < head_time s x) m2 ->
  RFrame s s' -> release_queue s' = first 0 (m1 ++ t :: m2) ->
  rnext s' t = first 0 m2 -> rprev s' t = final 0 m1 ->
  (forall x, x <> t -> rnext s' x = if decide (x = final 0 m1 /\ final 0 m1 <> NULL) then t else rnext s x) ->
  (forall x, x <> t -> rprev s' x = if decide (x = first 0 m2 /\ first 0 m2 <> NULL) then t else rprev s x) ->
  ReleaseQ s' (m1 ++ t :: m2) /\ links_except (t :: m1 ++ m2) s s'.
Proof.
  intros HR Ht Hrt Ht0 Hnin HF1 HF2 F Eh En Ep Hn Hp. pose proof (rel_dll _ _ HR) as Hdll.
  pose proof (dll_nonnull _ _ _ Hdll) as H0. split.
  - eapply releaseq_intro; [done|done|..].
    + eapply dll_insert; [exact Hdll|done|done|done|done|..]; intros x Hx.
      * assert (x <> NULL) by (by intros ->). rewrite Hn by set_solver. destruct (decide (x = final 0 m1)), (decide (x = final 0 m1 /\ final 0 m1 <> NULL)); naive_solver.
      * assert (x <> NULL) by (by intros ->). rewrite Hp by set_solver. destruct (decide (x = first 0 m2)), (decide (x = first 0 m2 /\ first 0 m2 <> NULL)); naive_solver.
    + intros x Hx. destruct (decide (x = t)) as [->|]; [done|]. apply (rel_member _ _ HR). set_solver.
    + apply sorted_insert; [apply HR|done|]. eapply Forall_impl; [exact HF2|]. cbn. lia.
  - intros x Hx. apply not_elem_of_cons in Hx as [Hxt Hx]. rewrite Hn, Hp by done.
    rewrite !decide_False; [done|..]; intros [-> E]; apply Hx, elem_of_app.
    + right. by apply first_member.
    + left. by apply final_member.
Qed.

(** [release_enqueue] inserts the thread behind every thread that is released no later,
    and asks for the timer to be reprogrammed when the thread becomes the first. *)
Lemma wp_release_enqueue t l (Q : unit -> kstate -> Prop) s :
  ReleaseQ s l -> is_tcb s t -> is_Some (head_refill s t) -> t <> 0 -> t ∉ l ->
  (forall s' m1 m2, l = m1 ++ m2 -> Forall (fun x => head_time s x <= head_time s t) m1 ->
     Forall (fun x => head_time s t < head_time s x) m2 ->
     RFrame s s' -> ReleaseQ s' (m1 ++ t :: m2) -> (m1 = [] -> reprogram s' = true) ->
     links_except (t :: l) s s' -> Q tt s') ->
  wp (release_enqueue t) Q s.
Proof.
  intros HR Ht Hrt Ht0 Hnin HQ. pose proof (releaseq_length _ _ HR).
  unfold release_enqueue. wp_steps. rewrite (rel_head _ _ HR).
  apply (wp_release_position t l _ s _ [] l); [done|done|done|done|lia|constructor|].
  intros m1 m2 El HF1 HF2. wp_steps. subst l.
  assert (H0 : 0 ∉ m1 ++ m2) by (apply (dll_nonnull _ _ _ (rel_dll _ _ HR))).
  pose proof (final_null m1 ltac:(set_solver)) as Hn1.
  assert (Hv1 : final 0 m1 <> NULL -> is_tcb s (final 0 m1) /\ final 0 m1 <> t).
  { intros E%final_member. split; [apply (rel_member _ _ HR)|intros <-]; set_solver. }
  assert (Hv2 : first 0 m2 <> NULL -> is_tcb s (first 0 m2) /\ first 0 m2 <> t).
  { intros E%first_member. split; [apply (rel_member _ _ HR)|intros <-]; set_solver. }
  pose proof (fun s' => releaseq_insert s s' m1 m2 t HR Ht Hrt Ht0 Hnin HF1 HF2) as Hins.
  assert (Hv1' : final 0 m1 <> NULL -> is_tcb s (final 0 m1)) by naive_solver.
  assert (Hv2' : first 0 m2 <> NULL -> is_tcb s (first 0 m2)) by naive_solver.
  destruct (Z.eqb_spec (final 0 m1) NULL) as [E|E]; cbn [negb].
  - apply Hn1 in E as ->. unfold set_reprogram. wp_steps. apply wp_opt_wr; [by fld; auto|]. wp_steps.
    apply wp_wr; [by fld|]. wp_steps. apply wp_wr; [by fld|].
    edestruct Hins as [HR' HL]; [..|eapply HQ; [done|done|done| |exact HR'|done|exact HL]];
      [rframe|done|by fld; rewrite decide_True|by fld; rewrite decide_True|..|rframe]; intros x Hx; fld.
    + by rewrite !decide_False by naive_solver.
    + rewrite (decide_False (P := x = t)) by done. done.
  - wp_steps. apply wp_wr; [auto|]. wp_steps. apply wp_opt_wr; [by fld; auto|]. wp_steps.
    apply wp_wr; [by fld|]. wp_steps. apply wp_wr; [by fld|].
    edestruct Hins as [HR' HL]; [..|eapply HQ; [done|done|done| |exact HR'|naive_solver|exact HL]];
      [rframe| |by fld; rewrite decide_True|by fld; rewrite decide_True|..|rframe].
    + cbn. rewrite (rel_head _ _ HR). by destruct m1.
    + intros x Hx. fld. rewrite (decide_False (P := x = t)) by done.
      destruct (decide (x = final 0 m1)), (decide (_ /\ _)); naive_solver.
    + intros x Hx. fld. by rewrite (decide_False (P := x = t)) by done.
Qed.

Lemma sorted_remove {R : Z -> Z -> Prop} l1 l2 t :
  StronglySorted R (l1 ++ t :: l2) -> StronglySorted R (l1 ++ l2).
Proof.
  rewrite !StronglySorted_app. intros (Hx & H1 & H2). split; [|split; [done|by apply StronglySorted_inv in H2 as [? _]]].
  intros x y Hx1 Hy. apply Hx; set_solver.
Qed.

Lemma releaseq_remove s s' l1 l2 t :
  ReleaseQ s (l1 ++ t :: l2) -> RFrame s s' -> release_queue s' = first 0 (l1 ++ l2) ->
  (forall x, x <> t -> rnext s' x = if decide (x = final 0 l1 /\ final 0 l1 <> NULL) then first 0 l2 else rnext s x) ->
  (forall x, x <> t -> rprev s' x = if decide (x = first 0 l2 /\ first 0 l2 <> NULL) then final 0 l1 else rprev s x) ->
  ReleaseQ s' (l1 ++ l2) /\ links_except (l1 ++ t :: l2) s s'.
Proof.
  intros HR F Eh Hn Hp. pose proof (rel_dll _ _ HR) as Hdll.
  destruct (dll_neighbours _ _ _ Hdll) as (Ht & _ & H0). split.
  - eapply releaseq_intro; [done|done|..].
    + eapply dll_remove; [exact Hdll|..]; intros x Hx; assert (x <> NULL) by (by intros ->).
      * rewrite Hn by set_solver.
        destruct (decide (x = final 0 l1)), (decide (x = final 0 l1 /\ final 0 l1 <> NULL)); naive_solver.
      * rewrite Hp by set_solver.
        destruct (decide (x = first 0 l2)), (decide (x = first 0 l2 /\ first 0 l2 <> NULL)); naive_solver.
    + intros x Hx. apply (rel_member _ _ HR). set_solver.
    + eapply sorted_remove, HR.
  - intros x Hx. rewrite Hn, Hp by set_solver.
    rewrite !decide_False; [done|..]; intros [-> E]; apply Hx, elem_of_app.
    + right. apply elem_of_cons. right. by apply first_member.
    + left. by apply final_member.
Qed.

(** [release_remove] unlinks a queued thread and clears its links. *)
Lemma wp_release_remove t l1 l2 (Q : unit -> kstate -> Prop) s :
  ReleaseQ s (l1 ++ t :: l2) ->
  (forall s', RFrame s s' -> ReleaseQ s' (l1 ++ l2) -> rnext s' t = 0 -> rprev s' t = 0 ->
     links_except (l1 ++ t :: l2) s s' -> (l1 = [] -> reprogram s' = true) -> Q tt s') ->
  wp (release_remove t) Q s.
Proof.
  intros HR HQ. pose proof (rel_dll _ _ HR) as Hdll. destruct (dll_links _ _ _ Hdll) as [En Ep].
  destruct (dll_neighbours _ _ _ Hdll) as (Hnin & Ht0 & H0).
  assert (Ht : is_tcb s t) by (apply (rel_member _ _ HR); set_solver).
  assert (Hv1 : final 0 l1 <> NULL -> is_tcb s (final 0 l1)).
  { intros E%final_member. apply (rel_member _ _ HR); set_solver. }
  assert (Hv2 : first 0 l2 <> NULL -> is_tcb s (first 0 l2)).
  { intros E%first_member. apply (rel_member _ _ HR); set_solver. }
  assert (Hne : final 0 l1 <> NULL -> t <> final 0 l1).
  { intros E%final_member Et. apply Hnin. rewrite Et. set_solver. }
  pose proof (final_null l1 ltac:(set_solver)) as Hn1.
  unfold release_remove, set_reprogram. wp_steps. apply (wp_rd _ _ 0); [done|]. rewrite Ep.
  pose proof (fun s' => releaseq_remove s s' l1 l2 t HR) as Hrem.
  destruct (Z.eqb_spec (final 0 l1) NULL) as [E|E]; cbn [negb].
  - apply Hn1 in E as ->. wp_steps. apply (wp_rd _ _ 0); [done|]. rewrite En. wp_steps.
    apply (wp_rd _ _ 0); [by fld|]. fld. rewrite En. wp_steps.
    eapply (wp_mono _ (fun _ s1 => s1 = opt_upd (first 0 l2) (with_ready_q_prev 0) (with_reprogram true (with_release_queue (first 0 l2) s)))).
    { rewrite opt_upd_cases. destruct (Z.eqb_spec (first 0 l2) NULL); cbn [negb]; [done|]. wp_steps.
      apply (wp_rd _ _ 0); [by fld|]. fld. rewrite Ep. by apply wp_wr; [fld; auto|]. }
    intros _ s1 ->. wp_steps. apply wp_wr; [by fld|]. wp_steps. apply wp_wr; [by fld|].
    match goal with |- Q _ ?S => destruct (Hrem S) as [HR' HL] end.
    + rframe.
    + done.
    + intros x Hx. fld. rewrite !decide_False by naive_solver. done.
    + intros x Hx. fld. by rewrite (decide_False (P := x = t)) by done.
    + apply HQ; [rframe|done|by fld; rewrite decide_True|by fld; rewrite decide_True|done|done].
  - wp_steps. apply (wp_rd _ _ 0); [done|]. rewrite En. wp_steps. apply wp_wr; [auto|]. wp_steps.
    apply (wp_rd _ _ 0); [by fld|]. fld. rewrite decide_False, En by auto. wp_steps.
    eapply (wp_mono _ (fun _ s1 => s1 = opt_upd (first 0 l2) (with_ready_q_prev (final 0 l1))
      (upd_tcb (final 0 l1) (with_ready_q_next (first 0 l2)) s))).
    { rewrite opt_upd_cases. destruct (Z.eqb_spec (first 0 l2) NULL); cbn [negb]; [done|]. wp_steps.
      apply (wp_rd _ _ 0); [by fld|]. fld. rewrite Ep. by apply wp_wr; [fld; auto|]. }
    intros _ s1 ->. wp_steps. apply wp_wr; [by fld|]. wp_steps. apply wp_wr; [by fld|].
    match goal with |- Q _ ?S => destruct (Hrem S) as [HR' HL] end.
    + rframe.
    + cbn. rewrite (rel_head _ _ HR). by destruct l1.
    + intros x Hx. fld. rewrite (decide_False (P := x = t)) by done.
      destruct (decide (x = final 0 l1)), (decide (x = final 0 l1 /\ final 0 l1 <> NULL)); naive_solver.
    + intros x Hx. fld. by rewrite (decide_False (P := x = t)) by done.
    + apply HQ; [rframe|done|by fld; rewrite decide_True|by fld; rewrite decide_True|done|naive_solver].
Qed.

(** [release_dequeue] detaches the first thread. *)
Lemma wp_release_dequeue h l (Q : Z -> kstate -> Prop) s :
  ReleaseQ s (h :: l) ->
  (forall s', RFrame s s' -> ReleaseQ s' l -> reprogram s' = true -> rnext s' h = 0 -> rprev s' h = 0 ->
     links_except (h :: l) s s' -> Q h s') ->
  wp release_dequeue Q s.
Proof.
  intros HR HQ. pose proof (rel_dll _ _ HR) as Hdll. destruct (dll_links [] h l Hdll) as [En Ep].
  destruct (dll_neighbours [] h l Hdll) as (Hnin & Ht0 & H0). cbn in *.
  assert (Ht : is_tcb s h) by (apply (rel_member _ _ HR); set_solver).
  assert (Hv2 : first 0 l <> NULL -> is_tcb s (first 0 l)).
  { intros E%first_member. apply (rel_member _ _ HR); set_solver. }
  assert (Hne : first 0 l <> NULL -> h <> first 0 l) by (intros E%first_member ->; set_solver).
  unfold release_dequeue, set_reprogram. wp_steps. rewrite (rel_head _ _ HR). cbn [first].
  apply (wp_rd _ _ 0); [done|]. rewrite En. wp_steps. apply wp_opt_wr; [by fld; auto|]. wp_steps.
  apply (wp_rd _ _ 0); [by fld|]. fld. rewrite En.
  pose proof (fun s' => releaseq_remove s s' [] l h HR) as Hrem.
  destruct (Z.eqb_spec (first 0 l) NULL) as [E|E]; cbn [negb].
  - wp_steps. match goal with |- Q _ ?S => destruct (Hrem S) as [HR' HL] end; [rframe|done|..].
    + intros x Hx. fld. by rewrite decide_False by naive_solver.
    + intros x Hx. by fld.
    + apply HQ; [rframe|done|done| | |done]; fld; [by rewrite En, E|]. by rewrite decide_False, Ep by naive_solver.
  - wp_steps. apply wp_wr; [by fld; auto|]. wp_steps. apply wp_wr; [by fld|]. wp_steps.
    match goal with |- Q _ ?S => destruct (Hrem S) as [HR' HL] end; [rframe|done|..].
    + intros x Hx. fld. by rewrite !decide_False by naive_solver.
    + intros x Hx. fld. cbn [List.last]. destruct (decide (x = first 0 l)), (decide (x = first 0 l /\ first 0 l <> NULL)); naive_solver.
    + apply HQ; [rframe|done|done| | |done]; fld; [by rewrite decide_True|]. by rewrite !decide_False, Ep by naive_solver.
Qed.

End Release.

(** ** State words *)

(** [is_thread_not_running] looks at bits 0 to 5 only. *)
Lemma not_running_bits t : is_thread_not_running t = existsb (Z.testbit (obj_state t)) [0; 1; 2; 3; 4; 5].
Proof.
  unfold is_thread_not_running.
  replace (Z.lor _ state_suspended_state) with (Z.lor (BIT 8) (Z.ones 6)) by reflexivity.
  apply Bool.eq_iff_eq_true. rewrite negb_true_iff, Z.eqb_neq, existsb_exists. unfold u8.
  set (w := Z.land (obj_state t mod 2 ^ 8) (Z.lor (BIT 8) (Z.ones 6))).
  assert (Hw : 0 <= w < 2 ^ 8) by (apply land_range; [lia|apply Z.mod_pos_bound; lia]).
  assert (Hb : forall i, 0 <= i -> Z.testbit w i = (i <? 6) && Z.testbit (obj_state t) i).
  { intros i Hi. unfold w. rewrite Z.land_spec, Z.lor_spec, BIT_testbit, Z.testbit_mod_pow2, Z.testbit_ones_nonneg by lia.
    destruct (Z.ltb_spec i 8), (Z.ltb_spec i 6), (Z.eqb_spec i 8), (Z.testbit (obj_state t) i); try lia; done. }
  split.
  - intros Hne. destruct (highest_bit 8 w Hw Hne) as (Hi & Hbit & _). exists (Z.log2 w).
    rewrite Hb in Hbit by lia. apply andb_true_iff in Hbit as [Hlt Hbit]. split; [|done].
    apply Z.ltb_lt in Hlt. cbn. lia.
  - intros (i & Hi & Hbit) E. assert (0 <= i < 6) by (cbn in Hi; lia).
    specialize (Hb i ltac:(lia)). rewrite E, Z.testbit_0_l, Hbit in Hb.
    by destruct (Z.ltb_spec i 6); [|lia].
Qed.

(** Masking with one bit tests it. *)
Lemma land_BIT w k : 0 <= k -> Z.land w (BIT k) = if Z.testbit w k then BIT k else 0.
Proof.
  intros Hk. apply Z.bits_inj'. intros i Hi. rewrite Z.land_spec, BIT_testbit by done.
  destruct (Z.eqb_spec i k) as [->|E].
  - rewrite andb_true_r. destruct (Z.testbit w k); [by rewrite BIT_testbit, Z.eqb_refl|by rewrite Z.testbit_0_l].
  - rewrite andb_false_r. destruct (Z.testbit w k); [|by rewrite Z.testbit_0_l].
    rewrite BIT_testbit by done. by apply Z.eqb_neq in E as ->.
Qed.

Lemma queued_bit t : is_thread_queued t = Z.testbit (obj_state t) 7.
Proof.
  unfold is_thread_queued, is_thread_state_set, state_queued_state. rewrite land_BIT by lia.
  by destruct (Z.testbit (obj_state t) 7).
Qed.

Lemma runnable_bit t : is_runnable t = Z.testbit (obj_state t) 7.
Proof.
  unfold is_runnable, state_queued_state. rewrite land_BIT by lia.
  by destruct (Z.testbit (obj_state t) 7).
Qed.

(** Marking a thread queued or not queued changes bit 7 and nothing [is_thread_not_running]
    sees. *)
Lemma mark_queued t :
  is_thread_queued (set_states state_queued_state t) = true /\
  is_thread_not_running (set_states state_queued_state t) = is_thread_not_running t.
Proof.
  split.
  - rewrite queued_bit. cbn [obj_state set_states with_obj_state].
    by rewrite (set_bit_testbit _ 7) by lia.
  - rewrite !not_running_bits. cbn [existsb obj_state set_states with_obj_state].
    by rewrite !(set_bit_testbit _ 7) by lia.
Qed.

Lemma mark_not_queued t :
  is_thread_queued (reset_states state_queued_state t) = false /\
  is_thread_not_running (reset_states state_queued_state t) = is_thread_not_running t.
Proof.
  split.
  - rewrite queued_bit. cbn [obj_state reset_states with_obj_state].
    by rewrite (clear_bit_testbit _ 7) by lia.
  - rewrite !not_running_bits. cbn [existsb obj_state reset_states with_obj_state].
    by rewrite !(clear_bit_testbit _ 7) by lia.
Qed.

(** ** Message queues *)

Notation mnext := (get_fld mesg_q_next 0).
Notation mprev := (get_fld mesg_q_prev 0).

(** [queue] is the list [l] threaded through the message links. *)
Record MesgQ (s : kstate) (queue : tcb_queue) (l : list Z) : Prop := {
  mq_ends : queue = mk_queue (first 0 l) (final 0 l);
  mq_dll : dll (mnext s) (mprev s) l;
  mq_member : forall t, t ∈ l -> is_tcb s t;
}.

Definition unlink_mesg (t : ktcb) : ktcb := with_mesg_q_next 0 (with_mesg_q_prev 0 t).

(** [MFrame s s']: [s'] differs from [s] at most in the message links of threads. *)
Record MFrame (s s' : kstate) : Prop := {
  mf_globals : s' = with_threads (threads s') s;
  mf_threads : forall p, unlink_mesg <$> threads s' !! p = unlink_mesg <$> threads s !! p;
}.

#[global] Instance MFrame_preorder : PreOrder MFrame.
Proof.
  split.
  - intros s. split; [by destruct s|done].
  - intros s1 s2 s3 [G1 T1] [G2 T2]. split; [|intros p; by rewrite T2].
    rewrite G2 at 1. rewrite G1. by destruct s3, s1.
Qed.

Lemma mframe_upd s p g : (forall t, unlink_mesg (g t) = unlink_mesg t) -> MFrame s (upd_tcb p g s).
Proof.
  intros Hg. split; [by destruct s|]. intros x. unfold upd_tcb. cbn. destruct (decide (p = x)) as [->|].
  - rewrite lookup_alter_eq. destruct (threads s !! x); cbn; [|done]. by rewrite Hg.
  - by rewrite lookup_alter_ne.
Qed.

Lemma mframe_opt s p g : (forall t, unlink_mesg (g t) = unlink_mesg t) -> MFrame s (opt_upd p g s).
Proof. intros Hg. rewrite opt_upd_cases. destruct (p =? NULL); [done|]. by apply mframe_upd. Qed.

Lemma mframe_fld {A} (f : ktcb -> A) d s s' p :
  MFrame s s' -> (forall t, f (unlink_mesg t) = f t) -> get_fld f d s' p = get_fld f d s p.
Proof.
  intros [_ T] Hf. specialize (T p). unfold get_fld.
  destruct (threads s' !! p) as [t'|], (threads s !! p) as [t|]; try done. cbn in T.
  rewrite <-(Hf t'), <-(Hf t). apply (inj Some) in T. by rewrite T.
Qed.

Lemma mframe_is_tcb s s' p : MFrame s s' -> is_tcb s' p <-> is_tcb s p.
Proof.
  intros [_ T]. specialize (T p). unfold is_tcb.
  destruct (threads s' !! p), (threads s !! p); try done; rewrite ?is_Some_alt; done.
Qed.

Ltac mframe :=
  repeat match goal with
  | |- MFrame ?s ?s => reflexivity
  | |- MFrame _ (upd_tcb ?p ?g ?s) => transitivity s; [|apply mframe_upd; by intros []]
  | |- MFrame _ (opt_upd ?p ?g ?s) => transitivity s; [|apply mframe_opt; by intros []]
  end.

Definition mlinks_except (l : list Z) (s s' : kstate) : Prop :=
  forall x, x ∉ l -> mnext s' x = mnext s x /\ mprev s' x = mprev s x.

Section Message.

(** A queue none of whose links changed. *)
Lemma mesgq_frame s s' queue l :
  MesgQ s queue l -> MFrame s s' -> (forall x, x ∈ l -> mnext s' x = mnext s x /\ mprev s' x = mprev s x) ->
  MesgQ s' queue l.
Proof.
  intros [E Hd Hm] F Hl. split; [done|by eapply dll_frame|]. intros t Ht. rewrite mframe_is_tcb by done. auto.
Qed.

(** [message_append] adds the thread at the tail. *)
Lemma wp_message_append t queue l (Q : tcb_queue -> kstate -> Prop) s :
  MesgQ s queue l -> is_tcb s t -> t <> 0 -> t ∉ l ->
  (forall s' queue', MFrame s s' -> MesgQ s' queue' (l ++ [t]) -> mlinks_except (l ++ [t]) s s' -> Q queue' s') ->
  wp (message_append t queue) Q s.
Proof.
  intros [-> Hdll Hm] Ht Ht0 Hnin HQ. pose proof (dll_nonnull _ _ _ Hdll) as H0.
  pose proof (first_null l H0) as Hn. pose proof (final_null l H0) as Hn'.
  assert (Hv : final 0 l <> NULL -> is_tcb s (final 0 l)) by (intros E%final_member; auto).
  assert (Hfin : forall s', MFrame s s' -> mnext s' t = 0 -> mprev s' t = final 0 l ->
    (forall x, x <> t -> mnext s' x = if decide (x = final 0 l /\ final 0 l <> NULL) then t else mnext s x) ->
    (forall x, x <> t -> mprev s' x = mprev s x) -> Q (mk_queue (first t l) t) s').
  { intros s' F En Ep Hnx Hpv. apply HQ; [done|split|].
    - by rewrite first_app, final_app.
    - eapply dll_insert; [by rewrite app_nil_r|by rewrite app_nil_r|done|done|done|..];
        rewrite app_nil_r; intros x Hx; assert (x <> NULL) by (by intros ->).
      + rewrite Hnx by set_solver. destruct (decide (x = final 0 l)), (decide (x = final 0 l /\ final 0 l <> NULL)); naive_solver.
      + rewrite Hpv by set_solver. by rewrite decide_False by done.
    - intros x Hx. rewrite mframe_is_tcb by done. apply elem_of_app in Hx as [Hx|Hx]; [auto|set_solver].
    - intros x Hx. rewrite Hnx, Hpv by set_solver. rewrite decide_False; [done|].
      intros [-> E]. apply Hx, elem_of_app. left. by apply final_member. }
  unfold message_append. wp_steps. cbn [q_head q_tail].
  destruct (Z.eqb_spec (first 0 l) NULL) as [E|E].
  - apply Hn in E as ->. wp_steps. apply wp_wr; [done|]. wp_steps. apply wp_wr; [by fld|]. wp_steps.
    apply Hfin; [mframe|by fld; rewrite decide_True|by fld; rewrite decide_True|..]; intros x Hx; fld.
    + by rewrite !decide_False by naive_solver.
    + by rewrite decide_False by done.
  - assert (Hl : final 0 l <> NULL) by naive_solver. wp_steps. apply wp_wr; [auto|]. wp_steps.
    apply wp_wr; [by fld|]. wp_steps. apply wp_wr; [by fld|]. wp_steps.
    replace (with_q_tail t _) with (mk_queue (first t l) t) by (by destruct l).
    apply Hfin; [mframe|by fld; rewrite decide_True|by fld; rewrite decide_True|..]; intros x Hx; fld.
    + rewrite (decide_False (P := x = t)) by done.
      destruct (decide (x = final 0 l)), (decide (x = final 0 l /\ final 0 l <> NULL)); naive_solver.
    + by rewrite decide_False by done.
Qed.

(** [message_dequeue] unlinks the thread wherever it sits. *)
Lemma wp_message_dequeue t queue l1 l2 (Q : tcb_queue -> kstate -> Prop) s :
  MesgQ s queue (l1 ++ t :: l2) ->
  (forall s' queue', MFrame s s' -> MesgQ s' queue' (l1 ++ l2) -> mlinks_except (l1 ++ l2) s s' -> Q queue' s') ->
  wp (message_dequeue t queue) Q s.
Proof.
  intros [-> Hdll Hm] HQ. destruct (dll_links _ _ _ Hdll) as [En Ep].
  destruct (dll_neighbours _ _ _ Hdll) as (Hnin & Ht0 & H0).
  assert (Ht : is_tcb s t) by (apply Hm; set_solver).
  assert (Hv1 : final 0 l1 <> NULL -> is_tcb s (final 0 l1)) by (intros E%final_member; apply Hm; set_solver).
  assert (Hv2 : first 0 l2 <> NULL -> is_tcb s (first 0 l2)) by (intros E%first_member; apply Hm; set_solver).
  assert (Hne : final 0 l1 <> NULL -> t <> final 0 l1).
  { intros E%final_member Et. apply Hnin. rewrite Et. set_solver. }
  pose proof (final_null l1 ltac:(set_solver)) as Hn1. pose proof (first_null l2 ltac:(set_solver)) as Hn2.
  set (s' := opt_upd (first 0 l2) (with_mesg_q_prev (final 0 l1)) (opt_upd (final 0 l1) (with_mesg_q_next (first 0 l2)) s)).
  assert (Hfin : Q (mk_queue (first 0 (l1 ++ l2)) (final 0 (l1 ++ l2))) s').
  { apply HQ; [unfold s'; mframe|split; [done|..]|].
    - eapply dll_remove; [exact Hdll|..]; intros x Hx; assert (x <> NULL) by (by intros ->); unfold s'; fld.
      + destruct (decide (x = final 0 l1)), (decide (x = final 0 l1 /\ final 0 l1 <> NULL)); naive_solver.
      + destruct (decide (x = first 0 l2)), (decide (x = first 0 l2 /\ first 0 l2 <> NULL)); naive_solver.
    - intros x Hx. unfold s'. fld. apply Hm. set_solver.
    - intros x Hx. unfold s'. fld. rewrite !decide_False; [done|..]; intros [-> E]; apply Hx, elem_of_app.
      + right. by apply first_member.
      + left. by apply final_member. }
  unfold message_dequeue. wp_steps. apply (wp_rd _ _ 0); [done|]. rewrite Ep. wp_steps.
  eapply (wp_mono _ (fun queue s1 => queue = mk_queue (first 0 (l1 ++ l2)) (final 0 (l1 ++ t :: l2)) /\
    s1 = opt_upd (final 0 l1) (with_mesg_q_next (first 0 l2)) s)).
  { rewrite opt_upd_cases. destruct (Z.eqb_spec (final 0 l1) NULL) as [E|E]; cbn [negb]; wp_steps;
      (apply (wp_rd _ _ 0); [done|]); rewrite En; wp_steps.
    - by apply Hn1 in E as ->.
    - apply wp_wr; [auto|]. wp_steps. split; [|done]. destruct l1; naive_solver. }
  intros ? s1 [-> ->]. wp_steps. apply (wp_rd _ _ 0); [by fld|]. fld. rewrite decide_False, En by naive_solver.
  unfold s' in Hfin. rewrite (opt_upd_cases (first 0 l2)) in Hfin.
  destruct (Z.eqb_spec (first 0 l2) NULL) as [E|E]; cbn [negb]; wp_steps;
    (apply (wp_rd _ _ 0); [by fld|]); fld; rewrite Ep; wp_steps.
  - apply Hn2 in E as ->. by rewrite app_nil_r in Hfin |- *.
  - apply wp_wr; [fld; auto|]. wp_steps.
    replace (final 0 (l1 ++ t :: l2)) with (final 0 (l1 ++ l2)); [done|].
    destruct l2 as [|y l2]; [done|]. by rewrite !final_app, !final_cons.
Qed.

End Message.
