(* ===== verification/QueueTheorems.v ===== *)
(** * Queue theorems

    The contracts of the ready queues, the priority bitmap, the release queue and the
    message queues, as statements about complete runs of the operations, with a small
    concrete kernel state on which they are exercised. *)

From Stdlib Require Import ZArith Lia Bool List.
From stdpp Require Import base tactics numbers list gmap sorting.
From S2P Require Import Prelude Sporadic DList DNode KState ReadyQueue ReadyQueueFacts.

Local Open Scope Z_scope.

(** ** The zeroed queues *)

Section Init.
Context `{Config}.

(** Zeroed queues and bitmaps represent empty ready queues. *)
Lemma readyq_init s :
  1 <= CONFIG_NUM_DOMAINS < 2 ^ 23 ->
  ready_queues s = replicate (Z.to_nat CONFIG_NUM_DOMAINS * 256) (mk_queue 0 0) ->
  ready_queues_l1_bitmap s = replicate (Z.to_nat CONFIG_NUM_DOMAINS) 0 ->
  ready_queues_l2_bitmap s = replicate (Z.to_nat CONFIG_NUM_DOMAINS) (replicate 8 0) ->
  ReadyQ s (fun _ => []).
Proof.
  intros Hc Eq E1 E2. split; [done|..].
  - intros i Hi. unfold num_queues, NUM_PRIORITIES in Hi. rewrite Eq, index_nonneg by lia.
    apply lookup_replicate. split; [done|lia].
  - intros i _. apply dll_nil.
  - intros i t _ Ht. set_solver.
  - intros d Hd. exists 0, (replicate 8 0). rewrite E1, E2, !index_nonneg by lia.
    do 2 (split; [apply lookup_replicate; split; [done|lia]|]). split; [done|lia|].
    intros i Hi. exists 0. rewrite index_nonneg by lia.
    split; [apply (lookup_replicate 8); lia|]. split; [lia|]. split.
    + by rewrite Z.testbit_0_l.
    + intros j Hj. rewrite Z.testbit_0_l. done.
Qed.

Lemma releaseq_init s : release_queue s = 0 -> ReleaseQ s [].
Proof. intros E. split; [done|apply dll_nil|set_solver|constructor]. Qed.

End Init.

(** ** Contracts *)

Section Contracts.
Context `{Config}.

(** C30: inserting a runnable thread.  [sched_enqueue] and [sched_append] complete on every
    state whose queues are well formed, put the thread at the head, respectively at the
    tail, of exactly the queue of its domain and priority, keep links, bitmaps and all
    other queues consistent, and change nothing but queues, bitmaps and the links of the
    members of that queue. *)
Theorem sched_insert_refines s q t :
  ReadyQ s q -> placeable s t -> may_queue s t -> t ∉ q (queue_of s t) ->
  (exists s', sched_enqueue t s = Done tt s' /\ QFrame s s' /\
     ReadyQ s' (upd_q q (queue_of s t) (t :: q (queue_of s t))) /\ links_except (t :: q (queue_of s t)) s s') /\
  (exists s', sched_append t s = Done tt s' /\ QFrame s s' /\
     ReadyQ s' (upd_q q (queue_of s t) (q (queue_of s t) ++ [t])) /\ links_except (t :: q (queue_of s t)) s s').
Proof.
  intros HR Hpl Hm Hnin. split.
  - enough (W : wp (sched_enqueue t) (fun _ s' => QFrame s s' /\
      ReadyQ s' (upd_q q (queue_of s t) (t :: q (queue_of s t))) /\ links_except (t :: q (queue_of s t)) s s') s)
      by (apply wp_run in W as ([] & s' & ?); eauto).
    by eapply wp_sched_enqueue.
  - enough (W : wp (sched_append t) (fun _ s' => QFrame s s' /\
      ReadyQ s' (upd_q q (queue_of s t) (q (queue_of s t) ++ [t])) /\ links_except (t :: q (queue_of s t)) s s') s)
      by (apply wp_run in W as ([] & s' & ?); eauto).
    by eapply wp_sched_append.
Qed.

(** Lemma: removing a queued thread.  Wherever the thread sits in the queue of its priority,
    [sched_dequeue] completes and removes exactly that thread; the priority is erased from
    the bitmaps exactly when the queue becomes empty. *)
Theorem sched_dequeue_refines s q t l1 l2 :
  ReadyQ s q -> placeable s t -> q (queue_of s t) = l1 ++ t :: l2 ->
  exists s', sched_dequeue t s = Done tt s' /\ QFrame s s' /\ ReadyQ s' (upd_q q (queue_of s t) (l1 ++ l2)) /\
    links_except (t :: l1 ++ l2) s s'.
Proof.
  intros HR Hpl El.
  enough (W : wp (sched_dequeue t) (fun _ s' => QFrame s s' /\
    ReadyQ s' (upd_q q (queue_of s t) (l1 ++ l2)) /\ links_except (t :: l1 ++ l2) s s') s)
    by (apply wp_run in W as ([] & s' & ?); eauto).
  by eapply wp_sched_dequeue.
Qed.

(** C31: constant-time selection is exact.  Whenever some thread of the domain is queued,
    [get_highest_prio] returns, without changing the state, the highest priority that has
    a queued thread. *)
Theorem get_highest_prio_exact s q dom p0 :
  ReadyQ s q -> 0 <= dom < CONFIG_NUM_DOMAINS -> 0 <= p0 < NUM_PRIORITIES -> q (qidx dom p0) <> [] ->
  exists p, get_highest_prio dom s = Done p s /\ 0 <= p < NUM_PRIORITIES /\ q (qidx dom p) <> [] /\
    forall p', p < p' < NUM_PRIORITIES -> q (qidx dom p') = [].
Proof.
  intros HR Hd Hp0 Hne. unfold NUM_PRIORITIES in *.
  enough (W : wp (get_highest_prio dom) (fun p s' => s' = s /\ 0 <= p < 256 /\ q (qidx dom p) <> [] /\
    forall p', p < p' < 256 -> q (qidx dom p') = []) s)
    by (apply wp_run in W as (p & s' & E & -> & ?); eauto).
  eapply (wp_get_highest_prio dom (occupied q) _ _ p0); [apply HR|done|done| |].
  - unfold occupied. by destruct (q (qidx dom p0)).
  - intros p Hp Hocc Hmax. unfold occupied in *. split; [done|]. split; [done|].
    split; [by destruct (q (qidx dom p))|]. intros p' Hp'.
    specialize (Hmax p'). destruct (q (qidx dom p')); [done|]. lia.
Qed.

End Contracts.

(** Lemma: the release queue is a stable priority queue on refill times.  [release_enqueue]
    terminates and inserts the thread behind every thread released no later and before
    every thread released later; removing any thread, and detaching the first, keep the
    queue sorted, and whenever the first element changes the timer is marked for
    reprogramming.  Links of threads outside the queue are untouched. *)
Theorem release_queue_refines s l t :
  ReleaseQ s l -> is_tcb s t -> is_Some (head_refill s t) -> t <> 0 ->
  (t ∉ l -> exists s' m1 m2, release_enqueue t s = Done tt s' /\ l = m1 ++ m2 /\
     Forall (fun x => head_time s x <= head_time s t) m1 /\
     Forall (fun x => head_time s t < head_time s x) m2 /\
     RFrame s s' /\ ReleaseQ s' (m1 ++ t :: m2) /\ (m1 = [] -> reprogram s' = true) /\
     links_except (t :: l) s s') /\
  (forall l1 l2, l = l1 ++ t :: l2 -> exists s', release_remove t s = Done tt s' /\
     RFrame s s' /\ ReleaseQ s' (l1 ++ l2) /\ (l1 = [] -> reprogram s' = true) /\ links_except l s s') /\
  (forall h l', l = h :: l' -> exists s', release_dequeue s = Done h s' /\
     RFrame s s' /\ ReleaseQ s' l' /\ reprogram s' = true /\ links_except l s s').
Proof.
  intros HR Ht Hrt Ht0. split; [|split].
  - intros Hnin. enough (W : wp (release_enqueue t) (fun _ s' => exists m1 m2, l = m1 ++ m2 /\
      Forall (fun x => head_time s x <= head_time s t) m1 /\ Forall (fun x => head_time s t < head_time s x) m2 /\
      RFrame s s' /\ ReleaseQ s' (m1 ++ t :: m2) /\ (m1 = [] -> reprogram s' = true) /\
      links_except (t :: l) s s') s)
      by (apply wp_run in W as ([] & s' & E & m1 & m2 & ?); eauto 10).
    eapply wp_release_enqueue; eauto 12.
  - intros l1 l2 ->. enough (W : wp (release_remove t) (fun _ s' => RFrame s s' /\ ReleaseQ s' (l1 ++ l2) /\
      (l1 = [] -> reprogram s' = true) /\ links_except (l1 ++ t :: l2) s s') s)
      by (apply wp_run in W as ([] & s' & ?); eauto).
    eapply wp_release_remove; [done|]. intros; eauto.
  - intros h l' ->. enough (W : wp release_dequeue (fun x s' => x = h /\ RFrame s s' /\ ReleaseQ s' l' /\
      reprogram s' = true /\ links_except (h :: l') s s') s)
      by (apply wp_run in W as (x & s' & E & -> & ?); eauto).
    eapply wp_release_dequeue; [done|]. intros; eauto.
Qed.

(** Lemma: message queues are FIFO.  [message_append] adds a thread at the tail and
    [message_dequeue] removes any member, both keep the links and the two ends
    consistent, and no link of a thread outside the queue changes. *)
Theorem message_queue_refines s queue l t :
  MesgQ s queue l -> is_tcb s t -> t <> 0 ->
  (t ∉ l -> exists s' queue', message_append t queue s = Done queue' s' /\ MFrame s s' /\
     MesgQ s' queue' (l ++ [t]) /\ mlinks_except (l ++ [t]) s s') /\
  (forall l1 l2, l = l1 ++ t :: l2 -> exists s' queue', message_dequeue t queue s = Done queue' s' /\
     MFrame s s' /\ MesgQ s' queue' (l1 ++ l2) /\ mlinks_except (l1 ++ l2) s s').
Proof.
  intros HM Ht Ht0. split.
  - intros Hnin. enough (W : wp (message_append t queue) (fun queue' s' => MFrame s s' /\
      MesgQ s' queue' (l ++ [t]) /\ mlinks_except (l ++ [t]) s s') s)
      by (apply wp_run in W as (queue' & s' & ?); eauto).
    by eapply wp_message_append.
  - intros l1 l2 ->. enough (W : wp (message_dequeue t queue) (fun queue' s' => MFrame s s' /\
      MesgQ s' queue' (l1 ++ l2) /\ mlinks_except (l1 ++ l2) s s') s)
      by (apply wp_run in W as (queue' & s' & ?); eauto).
    by eapply wp_message_dequeue.
Qed.

(** Lemma: [is_thread_not_running] looks at bits 0 to 5 only.  It is true exactly when the
    thread is a dummy, blocked in receive or send, not started, dead or suspended; because
    the state word is narrowed to a byte, a thread blocked on a notification (bit 8, which
    the mask names) counts as ready although [is_thread_pending] reports it blocked. *)
Theorem is_thread_not_running_exact t :
  is_thread_not_running t = existsb (Z.testbit (obj_state t)) [0; 1; 2; 3; 4; 5] /\
  (obj_state t = state_notify_blocked_state -> is_thread_ready t = true /\ is_thread_pending t = true).
Proof.
  split.
  - apply not_running_bits.
  - unfold is_thread_ready, is_thread_not_running, is_thread_pending. intros ->. done.
Qed.

(** ** A concrete kernel

    Three threads at priorities 10, 10 and 40 with ready budgets, under the
    single-domain configuration with assertions. *)

Definition demo_tcb (prio sp : Z) : ktcb :=
  with_sched sp (with_sched_prior prio (with_obj_state state_queued_state zero_tcb)).
Definition one_refill (t a : Z) : thread_sched :=
  mk_sched 1000 0 4 0 0 (mk_refill t a :: replicate 7 (mk_refill 0 0)).

Definition demo_threads : gmap Z ktcb :=
  {[ 100 := demo_tcb 10 1100; 200 := demo_tcb 10 1200; 300 := demo_tcb 40 1300 ]}.
Definition demo_scheds : gmap Z thread_sched :=
  {[ 1100 := one_refill 0 60; 1200 := one_refill 5 60; 1300 := one_refill 3 60 ]}.

Definition demo_kernel : kstate := @bss_state test_config demo_threads demo_scheds.

Definition after {A} (m : K A) (s : kstate) : kstate := match m s with Done _ s' => s' | Fail _ => s end.

Lemma after_wp {A} (m : K A) (Q : kstate -> Prop) s : wp m (fun _ s' => Q s') s -> Q (after m s).
Proof. unfold wp, after. by destruct (m s). Qed.

Section Demo.
Local Existing Instance test_config.

Lemma demo_readyq : ReadyQ demo_kernel (fun _ => []).
Proof. apply readyq_init; done. Qed.

Lemma demo_placeable t : t ∈ [100; 200; 300] -> placeable demo_kernel t.
Proof.
  intros Ht. repeat (apply elem_of_cons in Ht as [->|Ht]; [split; [by eexists|done]|]). set_solver.
Qed.

Lemma demo_may_queue t : t ∈ [100; 200; 300] -> may_queue demo_kernel t.
Proof.
  assert (Hmk : forall t ti, scheds demo_kernel !! get_fld sched 0 demo_kernel t = Some (one_refill ti 60) ->
    get_fld is_runnable false demo_kernel t = true ->
    Rep (one_refill ti 60) [mk_refill ti 60] -> ti <= 10 -> may_queue demo_kernel t).
  { intros t' ti E Hr R Hti. right. exists (one_refill ti 60). split; [done|]. intros _ _. split; [done|].
    exists (one_refill ti 60), (mk_refill ti 60), []. split; [done|]. split; [done|].
    cbn [refill_time refill_amount]. rewrite MIN_BUDGET_eq. change (u64 (current_time demo_kernel + get_kernel_wcet_ticks)) with 10. lia. }
  intros Ht. repeat (apply elem_of_cons in Ht as [->|Ht];
    [eapply Hmk; [reflexivity|reflexivity|apply repb_sound; vm_compute; reflexivity|lia]|]). set_solver.
Qed.

(** Threads 100 and 200 share a queue, in this order. *)
Definition demo_queued : kstate := after (sched_append 100;; sched_append 200) demo_kernel.

Definition demo_q : Z -> list Z := upd_q (upd_q (fun _ => []) 10 [100]) 10 [100; 200].

Lemma demo_queued_readyq : ReadyQ demo_queued demo_q /\ placeable demo_queued 100 /\ queue_of demo_queued 100 = 10.
Proof.
  apply (after_wp _ (fun s => ReadyQ s demo_q /\ placeable s 100 /\ queue_of s 100 = 10)).
  wp_steps. eapply wp_sched_append;
    [apply demo_readyq|apply demo_placeable; set_solver|apply demo_may_queue; set_solver|set_solver|].
  intros s1 F1 [HR1 _]. cbn in HR1. change (queue_of demo_kernel 100) with 10 in HR1.
  assert (Eq : queue_of s1 200 = 10) by (by rewrite (qframe_queue_of demo_kernel)).
  eapply wp_sched_append; [exact HR1|..].
  - apply (qframe_placeable demo_kernel); [done|]. apply demo_placeable. set_solver.
  - apply (qframe_may_queue demo_kernel); [done|]. apply demo_may_queue. set_solver.
  - rewrite Eq. set_solver.
  - intros s2 F2 [HR2 _]. rewrite Eq in HR2. split; [done|].
    assert (F : QFrame demo_kernel s2) by (by transitivity s1).
    rewrite (qframe_placeable demo_kernel), (qframe_queue_of demo_kernel) by done.
    split; [apply demo_placeable; set_solver|done].
Qed.

Lemma sched_insert_refines_witness :
  (exists s', sched_enqueue 300 demo_kernel = Done tt s' /\ QFrame demo_kernel s' /\
     ReadyQ s' (upd_q (fun _ => []) 40 [300]) /\ links_except [300] demo_kernel s') /\
  (exists s', sched_append 300 demo_kernel = Done tt s' /\ QFrame demo_kernel s' /\
     ReadyQ s' (upd_q (fun _ => []) 40 ([] ++ [300])) /\ links_except [300] demo_kernel s').
Proof.
  apply (sched_insert_refines demo_kernel (fun _ => []) 300 demo_readyq);
    [apply demo_placeable|apply demo_may_queue|]; set_solver.
Defined.

Lemma sched_dequeue_refines_witness :
  exists s', sched_dequeue 100 demo_queued = Done tt s' /\ QFrame demo_queued s' /\
    ReadyQ s' (upd_q demo_q (queue_of demo_queued 100) ([] ++ [200])) /\ links_except [100; 200] demo_queued s'.
Proof.
  destruct demo_queued_readyq as (HR & Hpl & Eq).
  apply (sched_dequeue_refines demo_queued demo_q 100 [] [200] HR Hpl). rewrite Eq. reflexivity.
Defined.

Lemma get_highest_prio_exact_witness :
  exists p, get_highest_prio 0 demo_queued = Done p demo_queued /\ 0 <= p < NUM_PRIORITIES /\
    demo_q (qidx 0 p) <> [] /\ forall p', p < p' < NUM_PRIORITIES -> demo_q (qidx 0 p') = [].
Proof.
  destruct demo_queued_readyq as (HR & _ & _).
  apply (get_highest_prio_exact demo_queued demo_q 0 10 HR); [vm_compute..|]; intuition discriminate.
Defined.

(** Thread 200 waits for its refill at time 5; 300 (time 3) goes before it. *)
Definition demo_waiting : kstate := after (release_enqueue 200) demo_kernel.

Lemma demo_waiting_releaseq : ReleaseQ demo_waiting [200].
Proof.
  apply (after_wp _ (fun s => ReleaseQ s [200])). eapply wp_release_enqueue; [by apply releaseq_init|by eexists|by eexists|done|set_solver|].
  intros s' m1 m2 El _ _ _ HR _ _. by destruct m1, m2.
Qed.

Lemma release_queue_refines_witness :
  exists s' m1 m2, release_enqueue 300 demo_waiting = Done tt s' /\ [200] = m1 ++ m2 /\
    Forall (fun x => head_time demo_waiting x <= head_time demo_waiting 300) m1 /\
    Forall (fun x => head_time demo_waiting 300 < head_time demo_waiting x) m2 /\
    RFrame demo_waiting s' /\ ReleaseQ s' (m1 ++ 300 :: m2) /\ (m1 = [] -> reprogram s' = true) /\
    links_except [300; 200] demo_waiting s'.
Proof.
  apply (release_queue_refines demo_waiting [200] 300 demo_waiting_releaseq);
    [by eexists|by eexists|done|set_solver].
Defined.

Lemma message_queue_refines_witness :
  exists s' queue', message_append 100 (mk_queue 0 0) demo_kernel = Done queue' s' /\
    MFrame demo_kernel s' /\ MesgQ s' queue' [100] /\ mlinks_except [100] demo_kernel s'.
Proof.
  apply (message_queue_refines demo_kernel (mk_queue 0 0) [] 100);
    [split; [reflexivity|apply dll_nil|set_solver]|by eexists|done|set_solver].
Defined.

Lemma is_thread_not_running_exact_witness :
  is_thread_ready (with_obj_state state_notify_blocked_state zero_tcb) = true /\
  is_thread_pending (with_obj_state state_notify_blocked_state zero_tcb) = true.
Proof. apply (is_thread_not_running_exact (with_obj_state state_notify_blocked_state zero_tcb)). reflexivity. Defined.

End Demo.
