(* ===== verification/Frames.v ===== *)
(** * Frames of the kernel state

    The frame [IpcSame T] says what the scheduler leaves alone: message nodes, message links, the
    object a thread waits for, and the state word of every thread outside [T]. *)

From Stdlib Require Import ZArith Lia Bool List.
From stdpp Require Import base tactics numbers list gmap.
From S2P Require Import Prelude Partial TimeConv Sporadic DList DNode KState TimeList ReadyQueue Sched ReadyQueueFacts QueueTheorems.

Local Open Scope Z_scope.

(** ** Thread accesses *)

Lemma pwp_rd {A} (f : ktcb -> A) p (Q : A -> kstate -> Prop) s :
  (forall x, threads s !! p = Some x -> Q (f x) s) -> pwp (rd f p) Q s.
Proof. intros HQ. unfold rd, tcb. pwp_steps. apply pwp_ofopt. intros x E. pwp_steps. by apply HQ. Qed.

Lemma pwp_wr p g (Q : unit -> kstate -> Prop) s :
  (is_tcb s p -> Q tt (upd_tcb p g s)) -> pwp (wr p g) Q s.
Proof.
  intros HQ. destruct (threads s !! p) as [x|] eqn:E.
  - apply wp_pwp, wp_wr; [by eexists|]. apply HQ. by eexists.
  - unfold wr, tcb. pwp_steps. apply pwp_ofopt. intros y E'. congruence.
Qed.

(** ** What message passing depends on *)

(** The thread waits for a message, in either direction. *)
Definition waits (w : Z) : bool := negb (Z.land w (Z.lor state_send_blocked_state state_recv_blocked_state) =? 0).
Notation word_of := (get_fld obj_state 0).

Definition ipc_view (x : ktcb) : Z * Z * Z := (mesg_q_next x, mesg_q_prev x, obj_ptr x).

Record IpcSame (T : Z -> Prop) (s s' : kstate) : Prop := {
  sm_messages : messages s' = messages s;
  sm_null : scheds s !! NULL = None -> scheds s' !! NULL = None;
  sm_view : forall p, ipc_view <$> threads s' !! p = ipc_view <$> threads s !! p;
  sm_words : forall p, ~ T p -> word_of s' p = word_of s p;
  sm_awake : forall p, waits (word_of s p) = false -> waits (word_of s' p) = false;
  sm_action : scheduler_action s' = scheduler_action s \/
    scheduler_action s' = SCHEDULER_ACTION_CHOOSE_NEW_THREAD \/ T (scheduler_action s');
}.

#[global] Instance IpcSame_preorder T : PreOrder (IpcSame T).
Proof.
  split.
  - intros s. split; auto.
  - intros s1 s2 s3 [M1 N1 V1 W1 A1 C1] [M2 N2 V2 W2 A2 C2]. split; [congruence|auto| | |auto|].
    + intros p. by rewrite V2.
    + intros p Hp. by rewrite W2, W1.
    + destruct C2 as [->|[]]; auto.
Qed.

Lemma ipc_view_fld {A} (f : Z * Z * Z -> A) d s s' p :
  ipc_view <$> threads s' !! p = ipc_view <$> threads s !! p ->
  get_fld (fun x => f (ipc_view x)) d s' p = get_fld (fun x => f (ipc_view x)) d s p.
Proof.
  unfold get_fld. destruct (threads s' !! p), (threads s !! p); cbn; intros E; try done. apply (inj Some) in E. by rewrite E.
Qed.

Lemma ipc_same_tcb T s s' p : IpcSame T s s' -> is_tcb s' p <-> is_tcb s p.
Proof.
  intros F. pose proof (sm_view _ _ _ F p) as V. unfold is_tcb.
  by destruct (threads s' !! p), (threads s !! p); rewrite ?is_Some_alt.
Qed.

Lemma ipc_same_links T s s' p :
  IpcSame T s s' -> mnext s' p = mnext s p /\ mprev s' p = mprev s p /\ get_fld obj_ptr 0 s' p = get_fld obj_ptr 0 s p.
Proof.
  intros F. pose proof (sm_view _ _ _ F p) as V. split; [|split].
  - apply (ipc_view_fld (fun v => fst (fst v)) 0 s s' p V).
  - apply (ipc_view_fld (fun v => snd (fst v)) 0 s s' p V).
  - apply (ipc_view_fld snd 0 s s' p V).
Qed.

Lemma ipc_same_mono (T U : Z -> Prop) s s' : (forall p, T p -> U p) -> IpcSame T s s' -> IpcSame U s s'.
Proof. intros HTU [M N V W A C]. split; [done|done|done|auto|done|]. naive_solver. Qed.

(** ** Frames of the queue operations

    The relations the ready queues respect: they may change ready-queue links, scheduling
    contexts that exist, and globals other than these four. *)
Class QueueRel (R : kstate -> kstate -> Prop) : Prop := {
  qr_preorder :: PreOrder R;
  qr_globals : forall s s', threads s' = threads s -> messages s' = messages s -> scheds s' = scheds s ->
    scheduler_action s' = scheduler_action s -> R s s';
  qr_links : forall p g s, (forall x, unlink (g x) = unlink x) -> R s (upd_tcb p g s);
  qr_sched : forall p sc s, is_Some (scheds s !! p) -> R s (with_scheds (<[p := sc]> (scheds s)) s);
}.

Section QueueFrames.
Context `{Config} (R : kstate -> kstate -> Prop) `{!QueueRel R}.

Lemma preserves_rd {A} (f : ktcb -> A) p : preserves R (rd f p).
Proof. intros s. apply pwp_rd. intros x _. reflexivity. Qed.

Lemma preserves_rd_sched p : preserves R (rd_sched p).
Proof. unfold rd_sched. frames. Qed.

Lemma preserves_arr {A} (f : kstate -> list A) i : preserves R (arr f i).
Proof. unfold arr. frames. Qed.

Lemma preserves_globals (f : kstate -> kstate) :
  (forall s, threads (f s) = threads s) -> (forall s, messages (f s) = messages s) ->
  (forall s, scheds (f s) = scheds s) -> (forall s, scheduler_action (f s) = scheduler_action s) ->
  preserves R (modify f).
Proof. intros. apply preserves_modify. intros s. by apply qr_globals. Qed.

Lemma preserves_arr_set {A} (f : kstate -> list A) w i v :
  (forall l s, threads (w l s) = threads s) -> (forall l s, messages (w l s) = messages s) ->
  (forall l s, scheds (w l s) = scheds s) -> (forall l s, scheduler_action (w l s) = scheduler_action s) ->
  preserves R (arr_set f w i v).
Proof. intros. unfold arr_set. frames. by apply preserves_globals. Qed.

Lemma preserves_wr_link p g : (forall x, unlink (g x) = unlink x) -> preserves R (wr p g).
Proof. intros Hg s. apply pwp_wr. intros _. by apply qr_links. Qed.

Lemma preserves_on_sched {A} p (m : SM A) : preserves R (on_sched p m).
Proof.
  intros s. unfold pwp, on_sched. destruct (scheds s !! p) as [sc|] eqn:E; [|done]. destruct (m sc) as [a sc'|]; [|done].
  apply qr_sched. by eexists.
Qed.
Hint Resolve preserves_rd preserves_rd_sched preserves_arr preserves_on_sched : frames.
Hint Extern 1 (preserves _ (wr _ _)) => (apply preserves_wr_link; reflexivity) : frames.
Hint Extern 1 (preserves _ (modify _)) => (apply preserves_globals; reflexivity) : frames.
Hint Extern 1 (preserves _ (arr_set _ _ _ _)) => (apply preserves_arr_set; reflexivity) : frames.

Lemma preserves_time_sensitived p : preserves R (is_time_sensitived p).
Proof. unfold is_time_sensitived. frames. Qed.

Lemma preserves_is_schedulable p : preserves R (is_schedulable p).
Proof. unfold is_schedulable. frames. Qed.

Lemma preserves_refill_ready sp : preserves R (thread_refill_ready sp).
Proof. unfold thread_refill_ready. frames. Qed.

Lemma preserves_refill_sufficient sp u : preserves R (thread_refill_sufficient sp u).
Proof. unfold thread_refill_sufficient. frames. Qed.
Hint Resolve preserves_time_sensitived preserves_is_schedulable preserves_refill_ready preserves_refill_sufficient : frames.

Lemma preserves_ready_sufficient p : preserves R (assert_ready_sufficient p).
Proof. unfold assert_ready_sufficient. frames. Qed.

Lemma preserves_sched_ready p : preserves R (assert_sched_ready p).
Proof. unfold assert_sched_ready. frames. Qed.

Lemma preserves_add_bitmap dom prio : preserves R (add_to_bitmap dom prio).
Proof. unfold add_to_bitmap, invert_l1index, wr_l1, rd_l2, wr_l2. cbv zeta. frames. Qed.

Lemma preserves_remove_bitmap dom prio : preserves R (remove_from_bitmap dom prio).
Proof. unfold remove_from_bitmap, invert_l1index, wr_l1, rd_l2, wr_l2. cbv zeta. frames. Qed.

Lemma preserves_queue_index dom prio : preserves R (ready_queues_index dom prio).
Proof. unfold ready_queues_index. frames. Qed.
Hint Resolve preserves_ready_sufficient preserves_sched_ready preserves_add_bitmap preserves_remove_bitmap
  preserves_queue_index : frames.

Lemma preserves_enqueue p : preserves R (sched_enqueue p).
Proof. unfold sched_enqueue, wr_queue. frames. Qed.

Lemma preserves_append p : preserves R (sched_append p).
Proof. unfold sched_append, wr_queue. frames. Qed.

Lemma preserves_dequeue p : preserves R (sched_dequeue p).
Proof. unfold sched_dequeue, wr_queue. frames. Qed.

Lemma preserves_release_dequeue : preserves R release_dequeue.
Proof. unfold release_dequeue, set_reprogram. frames. Qed.

Lemma preserves_next_domain : preserves R next_domain.
Proof. unfold next_domain, set_reprogram. frames. Qed.

End QueueFrames.

#[export] Hint Resolve preserves_rd preserves_rd_sched preserves_arr preserves_on_sched preserves_time_sensitived
  preserves_is_schedulable preserves_refill_ready preserves_refill_sufficient preserves_ready_sufficient preserves_sched_ready
  preserves_queue_index preserves_enqueue preserves_append preserves_dequeue preserves_release_dequeue preserves_next_domain
  : frames.
#[export] Hint Extern 1 (preserves _ (wr _ _)) => (apply preserves_wr_link; first [reflexivity|typeclasses eauto]) : frames.
#[export] Hint Extern 1 (preserves _ (modify _)) => (apply preserves_globals; first [reflexivity|typeclasses eauto]) : frames.
#[export] Hint Extern 1 (preserves _ (arr_set _ _ _ _)) => (apply preserves_arr_set; first [reflexivity|typeclasses eauto]) : frames.

(** ** Frames of message passing *)

Section IpcFrames.
Context (T : Z -> Prop).

(** Globals other than these. *)
Lemma ipc_same_globals s s' :
  threads s' = threads s -> messages s' = messages s -> scheds s' = scheds s -> scheduler_action s' = scheduler_action s ->
  IpcSame T s s'.
Proof.
  intros Et Em Es Ea.
  assert (Hw : forall p, word_of s' p = word_of s p) by (intros p; unfold get_fld; by rewrite Et).
  split; [done| |by rewrite Et|by intros|by intros p; rewrite Hw|by left]. by rewrite Es.
Qed.

Lemma ipc_same_upd p g s :
  (forall x, ipc_view (g x) = ipc_view x) ->
  (forall x, obj_state (g x) = obj_state x \/ T p /\ (waits (obj_state x) = false -> waits (obj_state (g x)) = false)) ->
  IpcSame T s (upd_tcb p g s).
Proof.
  intros Hv Hw. split; [done|done| | | |by left]; intros q; unfold get_fld, upd_tcb; cbn; destruct (decide (p = q)) as [->|Hpq];
    rewrite ?lookup_alter_eq, ?lookup_alter_ne by done; try done; destruct (threads s !! q) as [x|]; cbn; try done.
  - by rewrite Hv.
  - intros Hq. by destruct (Hw x) as [->|[]].
  - by destruct (Hw x) as [->|[]]; auto.
Qed.

#[global] Instance IpcSame_queue : QueueRel (IpcSame T).
Proof.
  split; [typeclasses eauto|apply ipc_same_globals| |].
  - intros p g s Hg.
    assert (Hf : forall A (f : ktcb -> A) x, (forall y, f (unlink y) = f y) -> f (g x) = f x).
    { intros A f x Hf. by rewrite <-(Hf (g x)), Hg, Hf. }
    apply ipc_same_upd; intros x; [|left]; by apply (Hf _ _ x).
  - intros p sc s Hp. split; [done| |done|done|done|by left]. cbn. intros E0.
    destruct (decide (p = NULL)) as [->|]; [by destruct Hp; congruence|]. by rewrite lookup_insert_ne.
Qed.

Lemma preserves_wr p g :
  (forall x, ipc_view (g x) = ipc_view x) ->
  (forall x, obj_state (g x) = obj_state x \/ T p /\ (waits (obj_state x) = false -> waits (obj_state (g x)) = false)) ->
  preserves (IpcSame T) (wr p g).
Proof. intros Hv Hw s. apply pwp_wr. intros _. by apply ipc_same_upd. Qed.

(** A write to a field message passing does not use. *)
Lemma preserves_wr_other p g :
  (forall x, ipc_view (g x) = ipc_view x) -> (forall x, obj_state (g x) = obj_state x) -> preserves (IpcSame T) (wr p g).
Proof. intros Hv Hw. apply preserves_wr; [done|]. by left. Qed.

Lemma set_queued_awake w : waits w = false -> waits (Z.lor w state_queued_state) = false.
Proof.
  unfold waits. intros E%negb_false_iff%Z.eqb_eq. apply negb_false_iff, Z.eqb_eq.
  rewrite Z.land_comm, Z.land_lor_distr_r, Z.land_comm, E. reflexivity.
Qed.

Lemma clear_awake w v : waits w = false -> waits (Z.land w v) = false.
Proof.
  unfold waits. intros E%negb_false_iff%Z.eqb_eq. apply negb_false_iff, Z.eqb_eq.
  rewrite <-Z.land_assoc, (Z.land_comm v), Z.land_assoc, E. apply Z.land_0_l.
Qed.

Lemma preserves_mark p : T p -> preserves (IpcSame T) (marktcb_as_queued p).
Proof. intros HT. apply preserves_wr; [done|]. intros x. right. split; [done|]. apply set_queued_awake. Qed.

Lemma preserves_unmark p : T p -> preserves (IpcSame T) (marktcb_as_not_queued p).
Proof. intros HT. apply preserves_wr; [done|]. intros x. right. split; [done|]. apply clear_awake. Qed.

Lemma preserves_move_to_end `{Config} p : T p -> preserves (IpcSame T) (move_to_end_ready_q p).
Proof. intros HT. pose proof (preserves_mark p HT). unfold move_to_end_ready_q. frames. Qed.

End IpcFrames.

#[export] Hint Resolve preserves_mark preserves_unmark preserves_move_to_end : frames.
#[export] Hint Extern 2 (preserves (IpcSame _) (wr _ _)) => (apply preserves_wr_other; reflexivity) : frames.

(** ** Threads without a scheduling context *)

(** [x] stays without a context, and null is none. *)
Definition NoContext (x : Z) (s s' : kstate) : Prop :=
  scheds s !! NULL = None /\ get_fld sched 0 s x = NULL -> scheds s' !! NULL = None /\ get_fld sched 0 s' x = NULL.

#[global] Instance NoContext_queue x : QueueRel (NoContext x).
Proof.
  split.
  - split; [intros s; unfold NoContext; done|]. intros s1 s2 s3 F1 F2 Hs. by apply F2, F1.
  - intros s s' Et _ Es _. unfold NoContext, get_fld. by rewrite Et, Es.
  - intros p g s Hg. unfold NoContext. rewrite get_fld_upd_other; [done|].
    intros y. change (sched (g y)) with (sched (unlink (g y))). by rewrite Hg.
  - intros p sc s Hp [E0 Ex]. split; [|done]. cbn.
    destruct (decide (p = NULL)) as [->|]; [by destruct Hp; congruence|]. by rewrite lookup_insert_ne.
Qed.

Lemma preserves_wr_ctx x p g :
  (forall y, sched (g y) = sched y \/ sched (g y) = NULL) -> preserves (NoContext x) (wr p g).
Proof.
  intros Hg s. apply pwp_wr. intros _ [E0 Ex]. split; [done|]. unfold get_fld, upd_tcb in *. cbn.
  destruct (decide (p = x)) as [->|]; [|by rewrite lookup_alter_ne]. rewrite lookup_alter_eq.
  destruct (threads s !! x) as [y|]; [|done]. cbn. by destruct (Hg y) as [->| ->].
Qed.
