(* ===== verification/SchedFacts.v ===== *)
(** * Facts about the scheduler

    [SchedWF s q] is the scheduler invariant: the ready queues hold [q], and every queued
    thread is marked queued, is not blocked, and has a usable budget.  The lemmas give the
    effect of the operations of [Sched.v] on it. *)

From Stdlib Require Import ZArith Lia Bool List.
From stdpp Require Import base tactics numbers list gmap sorting.
From S2P Require Import Prelude Partial TimeConv Sporadic DList DNode KState TimeList ReadyQueue ReadyQueueFacts Sched.

Local Open Scope Z_scope.

Notation queued_of := (get_fld is_thread_queued false).
Notation blocked_of := (get_fld is_thread_not_running false).
Notation sched_of := (get_fld sched 0).

(** ** Frames *)

(** What a thread is apart from its queue links and its state word. *)
Definition core (t : ktcb) : ktcb := with_obj_state 0 (unlink t).

(** Only queues, bitmaps, links and state words differ. *)
Record SFrame (s s' : kstate) : Prop := {
  sf_globals : s' = with_threads (threads s') (with_ready_queues (ready_queues s')
    (with_bitmaps (ready_queues_l1_bitmap s') (ready_queues_l2_bitmap s') s));
  sf_threads : forall p, core <$> threads s' !! p = core <$> threads s !! p;
}.

#[global] Instance SFrame_preorder : PreOrder SFrame.
Proof.
  split.
  - intros s. split; [by destruct s|done].
  - intros s1 s2 s3 [G1 T1] [G2 T2]. split; [|intros p; by rewrite T2].
    rewrite G2 at 1. rewrite G1. by destruct s3, s1.
Qed.

Lemma qframe_sframe s s' : QFrame s s' -> SFrame s s'.
Proof.
  intros [G T]. split; [done|]. intros p. specialize (T p).
  destruct (threads s' !! p), (threads s !! p); try done. cbn in *. unfold core.
  apply (inj Some) in T. by rewrite T.
Qed.

Lemma sframe_upd s p g : (forall t, core (g t) = core t) -> SFrame s (upd_tcb p g s).
Proof.
  intros Hg. split; [by destruct s|]. intros x. unfold upd_tcb. cbn. destruct (decide (p = x)) as [->|].
  - rewrite lookup_alter_eq. destruct (threads s !! x); cbn; [|done]. by rewrite Hg.
  - by rewrite lookup_alter_ne.
Qed.

Lemma sframe_fld {A} (f : ktcb -> A) d s s' p :
  SFrame s s' -> (forall t, f (core t) = f t) -> get_fld f d s' p = get_fld f d s p.
Proof.
  intros [_ T] Hf. specialize (T p). unfold get_fld.
  destruct (threads s' !! p) as [t'|], (threads s !! p) as [t|]; try done. cbn in T.
  rewrite <-(Hf t'), <-(Hf t). apply (inj Some) in T. by rewrite T.
Qed.

Lemma sframe_is_tcb s s' p : SFrame s s' -> is_tcb s' p <-> is_tcb s p.
Proof.
  intros [_ T]. specialize (T p). unfold is_tcb.
  destruct (threads s' !! p), (threads s !! p); try done; rewrite ?is_Some_alt; done.
Qed.

(** An update of the state word alone. *)
Definition word_only (g : ktcb -> ktcb) : Prop := forall t, exists w, g t = with_obj_state w t.

Lemma word_only_core g t : word_only g -> core (g t) = core t.
Proof. intros Hg. destruct (Hg t) as [w ->]. by destruct t. Qed.

Lemma word_only_set ws : word_only (set_states ws).
Proof. intros t. by eexists. Qed.
Lemma word_only_reset ws : word_only (reset_states ws).
Proof. intros t. by eexists. Qed.
#[global] Hint Resolve word_only_set word_only_reset : wells.

Lemma word_fld {A} (f : ktcb -> A) d g s p x :
  word_only g -> (forall w t, f (with_obj_state w t) = f t) -> get_fld f d (upd_tcb p g s) x = get_fld f d s x.
Proof. intros Hg Hf. apply get_fld_upd_other. intros t. destruct (Hg t) as [w ->]. apply Hf. Qed.

(** Reading a predicate of the state word after an update of it. *)
Lemma word_pred {A} (f : ktcb -> A) d g s p x :
  is_tcb s p ->
  get_fld f d (upd_tcb p g s) x = if decide (x = p) then get_fld (fun t => f (g t)) d s x else get_fld f d s x.
Proof.
  intros [t E]. unfold get_fld, upd_tcb. cbn. destruct (decide (x = p)) as [->|?].
  - by rewrite lookup_alter_eq, E; cbn.
  - by rewrite lookup_alter_ne.
Qed.

Section Facts.
Context `{Config}.

Lemma readyq_word s q p g : word_only g -> ReadyQ s q -> ReadyQ (upd_tcb p g s) q.
Proof.
  intros Hg [Hc Hq Hd Hm HB]. split; [done|exact Hq| | |exact HB].
  - intros i Hi. eapply dll_frame; [by apply Hd|]. intros x _. by rewrite !(word_fld _ 0 g) by done.
  - intros i t Hi Ht. destruct (Hm i t Hi Ht) as [(Ht' & H0 & Hdom & Hpr) Ho]. unfold placeable, queue_of in *.
    rewrite is_tcb_upd, !(word_fld _ 0 g) by done. done.
Qed.

Lemma readyq_q_ext s q q' : (forall i, q i = q' i) -> ReadyQ s q -> ReadyQ s q'.
Proof.
  intros E [Hc Hq Hd Hm HB]. split; [done|..].
  - intros i Hi. rewrite <-E. auto.
  - intros i Hi. rewrite <-E. auto.
  - intros i t Hi Ht. rewrite <-E in Ht. auto.
  - eapply Bitmap_ext; [exact HB|]. intros d p _ _. unfold occupied. by rewrite E.
Qed.

(** [ReadyQ] only looks at threads, queues and bitmaps. *)
Lemma readyq_globals s s' q :
  threads s' = threads s -> ready_queues s' = ready_queues s ->
  ready_queues_l1_bitmap s' = ready_queues_l1_bitmap s -> ready_queues_l2_bitmap s' = ready_queues_l2_bitmap s ->
  ReadyQ s q -> ReadyQ s' q.
Proof.
  intros Et Eq E1 E2 [Hc Hq Hd Hm HB]. split; [done|by rewrite Eq| | |by rewrite E1, E2].
  - intros i Hi. eapply dll_frame; [by apply Hd|]. intros x _. unfold get_fld. by rewrite Et.
  - intros i t Hi Ht. specialize (Hm i t Hi Ht). unfold placeable, queue_of, is_tcb, get_fld in *. by rewrite Et.
Qed.

(** ** Budgets *)

(** A thread without a scheduling context, or one whose context holds a ready and
    sufficient head refill whenever the assertions that ask for it are compiled in. *)
Definition budgeted (s : kstate) (t : Z) : Prop :=
  let sp := sched_of s t in
  sp = NULL \/ exists sc, scheds s !! sp = Some sc /\
    (CONFIG_ASSERT = true -> 0 < refill_max sc -> budget_ok s sp).

Lemma may_queue_intro s t : budgeted s t -> queued_of s t = true -> may_queue s t.
Proof.
  intros [E|(sc & E & Hb)] Hq; [by left|right]. exists sc. split; [done|]. intros Ha Hm. split; [|auto].
  unfold get_fld in *. destruct (threads s !! t); [|done]. by rewrite runnable_bit, <-queued_bit.
Qed.

Lemma budgeted_scheds s s' t :
  scheds s' = scheds s -> current_time s' = current_time s -> sched_of s' t = sched_of s t ->
  budgeted s t -> budgeted s' t.
Proof. unfold budgeted, budget_ok. intros -> -> ->. done. Qed.

Lemma sframe_budgeted s s' t : SFrame s s' -> budgeted s t -> budgeted s' t.
Proof.
  intros F. apply budgeted_scheds; [by destruct F as [-> _]..|]. by rewrite (sframe_fld _ _ s s').
Qed.

(** ** The invariant *)

Record SchedWF (s : kstate) (q : Z -> list Z) : Prop := {
  wf_ready : ReadyQ s q;
  wf_member : forall i t, 0 <= i < num_queues -> t ∈ q i ->
    queued_of s t = true /\ blocked_of s t = false /\ budgeted s t;
}.

Lemma sframe_placeable s s' p : SFrame s s' -> placeable s p -> placeable s' p.
Proof.
  intros F. unfold placeable. by rewrite (sframe_is_tcb s s'), !(sframe_fld _ _ s s') by done.
Qed.

Lemma sframe_queue_of s s' p : SFrame s s' -> queue_of s' p = queue_of s p.
Proof. intros F. unfold queue_of. by rewrite !(sframe_fld _ _ s s') by done. Qed.

Lemma placeable_queue s q t : ReadyQ s q -> placeable s t -> 0 <= queue_of s t < num_queues.
Proof. intros HR (_ & _ & Hd & Hp). apply qidx_range; [apply HR|done|done]. Qed.

(** A thread is in no other queue than its own. *)
Lemma readyq_own s q i t : ReadyQ s q -> 0 <= i < num_queues -> t ∈ q i -> queue_of s t = i.
Proof. intros HR Hi Ht. by apply (rq_member _ _ HR i t Hi Ht). Qed.

Lemma wp_rd' {A} (f : ktcb -> A) p d (Q : A -> kstate -> Prop) s :
  is_tcb s p -> (forall v, v = get_fld f d s p -> Q v s) -> wp (rd f p) Q s.
Proof. intros Hp HQ. apply (wp_rd _ _ d); auto. Qed.

(** The state after [marktcb_as_queued]. *)
Definition marked (t : Z) (s : kstate) : kstate := upd_tcb t (set_states state_queued_state) s.

Lemma marked_facts q t s :
  placeable s t -> ReadyQ s q -> budgeted s t ->
  SFrame s (marked t s) /\ ReadyQ (marked t s) q /\ placeable (marked t s) t /\ may_queue (marked t s) t /\
  queue_of (marked t s) t = queue_of s t /\
  (forall x, queued_of (marked t s) x = if decide (x = t) then true else queued_of s x) /\
  (forall x, blocked_of (marked t s) x = blocked_of s x) /\
  (forall x, rnext (marked t s) x = rnext s x /\ rprev (marked t s) x = rprev s x).
Proof.
  intros Hpl HR Hb. set (s1 := marked t s).
  assert (F1 : SFrame s s1) by (apply sframe_upd; intros x; apply word_only_core; auto with wells).
  assert (Hq1 : forall x, queued_of s1 x = if decide (x = t) then true else queued_of s x).
  { intros x. unfold s1, marked. rewrite word_pred by apply Hpl. destruct (decide (x = t)) as [->|]; [|done].
    destruct Hpl as [[y Ey] _]. unfold get_fld. rewrite Ey. apply mark_queued. }
  split; [done|]. split; [apply readyq_word; auto with wells|]. split; [by eapply sframe_placeable|].
  split; [apply may_queue_intro; [by eapply sframe_budgeted|by rewrite Hq1, decide_True]|].
  split; [by apply sframe_queue_of|]. split; [done|]. split.
  - intros x. unfold s1, marked. rewrite word_pred by apply Hpl. destruct (decide (x = t)) as [->|]; [|done].
    unfold get_fld. destruct (threads s !! t); [|done]. apply mark_queued.
  - intros x. unfold s1, marked. by rewrite !(word_fld _ 0 (set_states _)) by auto with wells.
Qed.

(** What marking and inserting, at either end, give. *)
Definition inserted (q : Z -> list Z) (t : Z) (l : list Z) (s s' : kstate) : Prop :=
  SFrame s s' /\ ReadyQ s' (upd_q q (queue_of s t) l) /\
  (forall x, queued_of s' x = if decide (x = t) then true else queued_of s x) /\
  (forall x, blocked_of s' x = blocked_of s x) /\ links_except (t :: q (queue_of s t)) s s'.

Lemma marked_inserted q t l s s' :
  placeable s t -> ReadyQ s q -> budgeted s t -> QFrame (marked t s) s' ->
  ReadyQ s' (upd_q q (queue_of s t) l) -> links_except (t :: q (queue_of s t)) (marked t s) s' -> inserted q t l s s'.
Proof.
  intros Hpl HR Hb F2 HR2 HL2. destruct (marked_facts q t s Hpl HR Hb) as (F1 & _ & _ & _ & _ & Hq1 & Hb1 & Hl1).
  split; [transitivity (marked t s); [done|by apply qframe_sframe]|]. split; [done|]. split; [|split].
  - intros x. by rewrite (qframe_fld _ _ (marked t s) s'), Hq1.
  - intros x. by rewrite (qframe_fld _ _ (marked t s) s'), Hb1.
  - intros x Hx. destruct (HL2 x Hx) as [-> ->]. apply Hl1.
Qed.

(** Mark and push at the head. *)
Lemma wp_mark_enqueue_rq q t (Q : unit -> kstate -> Prop) s :
  ReadyQ s q -> placeable s t -> budgeted s t -> t ∉ q (queue_of s t) ->
  (forall s', inserted q t (t :: q (queue_of s t)) s s' -> Q tt s') -> wp (add_to_ready_q t) Q s.
Proof.
  intros HR Hpl Hb Hnin HQ. unfold add_to_ready_q, marktcb_as_queued, set_thread_states. wp_steps.
  apply wp_wr; [apply Hpl|]. fold (marked t s). destruct (marked_facts q t s Hpl HR Hb) as (F1 & HR1 & Hpl1 & Hm1 & Eq & _).
  eapply wp_sched_enqueue; [exact HR1|done|done|by rewrite Eq|]. rewrite Eq. intros s2 F2 [HR2 HL2].
  by apply HQ, marked_inserted.
Qed.

(** Mark and append at the tail. *)
Lemma wp_mark_append_rq q t (Q : unit -> kstate -> Prop) s :
  ReadyQ s q -> placeable s t -> budgeted s t -> t ∉ q (queue_of s t) ->
  (forall s', inserted q t (q (queue_of s t) ++ [t]) s s' -> Q tt s') -> wp (add_to_end_ready_q t) Q s.
Proof.
  intros HR Hpl Hb Hnin HQ. unfold add_to_end_ready_q, marktcb_as_queued, set_thread_states. wp_steps.
  apply wp_wr; [apply Hpl|]. fold (marked t s). destruct (marked_facts q t s Hpl HR Hb) as (F1 & HR1 & Hpl1 & Hm1 & Eq & _).
  eapply wp_sched_append; [exact HR1|done|done|by rewrite Eq|]. rewrite Eq. intros s2 F2 [HR2 HL2].
  by apply HQ, marked_inserted.
Qed.

Lemma wp_mark_enqueue q t (Q : unit -> kstate -> Prop) s :
  SchedWF s q -> placeable s t -> budgeted s t -> blocked_of s t = false -> t ∉ q (queue_of s t) ->
  (forall s', SFrame s s' -> SchedWF s' (upd_q q (queue_of s t) (t :: q (queue_of s t))) ->
     (forall x, x <> t -> queued_of s' x = queued_of s x) -> (forall x, blocked_of s' x = blocked_of s x) ->
     links_except (t :: q (queue_of s t)) s s' -> Q tt s') ->
  wp (add_to_ready_q t) Q s.
Proof.
  intros [HR HM] Hpl Hb Hnb Hnin HQ. eapply wp_mark_enqueue_rq; [done..|]. intros s2 (F & HR2 & Hq2 & Hb2 & HL2).
  apply HQ; [done| |intros x Hx; by rewrite Hq2, decide_False|done|done].
  split; [done|]. intros i x Hi Hx. rewrite Hq2, Hb2. unfold upd_q in Hx. destruct (decide (x = t)) as [->|Hxt].
  - split; [done|]. split; [done|]. by eapply sframe_budgeted.
  - destruct (HM i x Hi) as (? & ? & ?); [|split; [done|]; split; [done|by eapply sframe_budgeted]].
    destruct (Z.eqb_spec i (queue_of s t)) as [->|]; [|done]. set_solver.
Qed.

(** Dequeue and clear the mark. *)
Lemma wp_dequeue_unmark q t l1 l2 (Q : unit -> kstate -> Prop) s :
  SchedWF s q -> placeable s t -> q (queue_of s t) = l1 ++ t :: l2 ->
  (forall s', SFrame s s' -> SchedWF s' (upd_q q (queue_of s t) (l1 ++ l2)) ->
     (forall x, queued_of s' x = if decide (x = t) then false else queued_of s x) ->
     (forall x, blocked_of s' x = blocked_of s x) -> links_except (t :: l1 ++ l2) s s' -> Q tt s') ->
  wp (sched_dequeue t;; marktcb_as_not_queued t) Q s.
Proof.
  intros [HR HM] Hpl El HQ. wp_steps. eapply wp_sched_dequeue; [done|done|done|]. intros s1 F1 [HR1 HL1].
  destruct (readyq_member_view s q t l1 l2 HR Hpl El) as (_ & _ & _ & Hnin & _).
  unfold marktcb_as_not_queued, reset_thread_states. wp_steps.
  assert (Ht1 : is_tcb s1 t) by (apply (qframe_is_tcb s s1); [done|apply Hpl]).
  apply wp_wr; [done|]. set (s2 := upd_tcb t _ s1).
  assert (F2 : SFrame s s2).
  { transitivity s1; [by apply qframe_sframe|]. apply sframe_upd. intros x. apply word_only_core. auto with wells. }
  assert (Hq2 : forall x, queued_of s2 x = if decide (x = t) then false else queued_of s x).
  { intros x. unfold s2. rewrite word_pred by done. destruct (decide (x = t)) as [->|].
    - unfold get_fld. destruct (threads s1 !! t); [|done]. apply mark_not_queued.
    - by rewrite (qframe_fld _ _ s s1). }
  assert (Hb2 : forall x, blocked_of s2 x = blocked_of s x).
  { intros x. unfold s2. rewrite word_pred by done. destruct (decide (x = t)) as [->|].
    - rewrite <-(qframe_fld _ _ s s1) by done. unfold get_fld. destruct (threads s1 !! t); [|done]. apply mark_not_queued.
    - by rewrite (qframe_fld _ _ s s1). }
  apply HQ; [done| |done|done|].
  - split; [apply readyq_word; auto with wells|]. intros i x Hi Hx. rewrite Hq2, Hb2.
    unfold upd_q in Hx. destruct (Z.eqb_spec i (queue_of s t)) as [->|Hne].
    + rewrite decide_False by set_solver. destruct (HM _ x Hi) as (? & ? & ?); [rewrite El; set_solver|].
      split; [done|]. split; [done|]. by eapply sframe_budgeted.
    + destruct (HM i x Hi Hx) as (? & ? & ?). rewrite decide_False.
      * split; [done|]. split; [done|]. by eapply sframe_budgeted.
      * intros ->. apply Hne. symmetry. by eapply readyq_own.
  - intros x Hx. unfold s2. rewrite !(word_fld _ 0 (reset_states _)) by auto with wells. by apply HL1.
Qed.

(** ** Entry checks *)

Lemma budgeted_may s t : budgeted s t -> sched_of s t = NULL \/ exists sc, scheds s !! sched_of s t = Some sc.
Proof. intros [?|(sc & ? & _)]; eauto. Qed.

Lemma wp_time_sensitive t (Q : bool -> kstate -> Prop) s :
  is_tcb s t -> budgeted s t ->
  (forall b, (b = true -> sched_of s t <> NULL /\ (CONFIG_ASSERT = true -> budget_ok s (sched_of s t))) -> Q b s) ->
  wp (is_time_sensitived t) Q s.
Proof.
  intros Ht Hb HQ. unfold is_time_sensitived. wp_steps. apply (wp_rd _ _ 0); [done|].
  destruct (Z.eqb_spec (sched_of s t) NULL) as [E|E]; [by wp_steps; apply HQ|].
  destruct Hb as [?|(sc & Es & Hb)]; [done|]. wp_steps. eapply wp_rd_sched; [done|]. wp_steps.
  apply HQ. intros ?%Z.ltb_lt. auto.
Qed.

Lemma wp_assert_ready_sufficient t (Q : unit -> kstate -> Prop) s :
  is_tcb s t -> (CONFIG_ASSERT = true -> budget_ok s (sched_of s t)) -> Q tt s -> wp (assert_ready_sufficient t) Q s.
Proof.
  intros Ht Hb HQ. unfold assert_ready_sufficient. wp_steps. apply wp_assert_m.
  - intros Ha. wp_steps. apply (wp_rd _ _ 0); [done|].
    destruct (Hb Ha) as (sc & h & rest & E & R & Htm & Ham).
    destruct (wp_refill_checks _ _ _ _ _ E R Htm Ham) as [_ Hs]. by apply Hs.
  - apply wp_assert_m; [|done]. intros Ha. wp_steps. apply (wp_rd _ _ 0); [done|].
    destruct (Hb Ha) as (sc & h & rest & E & R & Htm & Ham).
    destruct (wp_refill_checks _ _ _ _ _ E R Htm Ham) as [Hr _]. by apply Hr.
Qed.

(** The checks of [next_thread] and [reschedule_required] on a queued thread. *)
Lemma wp_ready_checks {A} t (k : unit -> K A) (Q : A -> kstate -> Prop) s :
  is_tcb s t -> budgeted s t -> (CONFIG_ASSERT = true -> queued_of s t = true) -> wp (k tt) Q s ->
  wp (ts ← is_time_sensitived t;
      (if (ts : bool) then assert_m (is_schedulable t);; assert_ready_sufficient t else skip) ≫= k) Q s.
Proof.
  intros Ht Hb Hq HQ. wp_steps. apply wp_time_sensitive; [done|done|]. intros [] Hts; [|by wp_steps].
  destruct (Hts eq_refl) as [Hn Hok]. wp_steps. apply wp_assert_m; [|by apply wp_assert_ready_sufficient].
  intros Ha. unfold is_schedulable. wp_steps. apply (wp_rd _ _ 0); [done|]. apply Z.eqb_neq in Hn as ->.
  wp_steps. apply (wp_rd _ _ false); [done|].
  assert (get_fld is_runnable false s t = true) as ->.
  { specialize (Hq Ha). unfold get_fld in *. destruct (threads s !! t); [|done]. by rewrite runnable_bit, <-queued_bit. }
  destruct (Hok Ha) as (sc & h & rest & E & R & _). wp_steps. eapply wp_rd_sched; [done|]. wp_steps.
  split; [|done]. apply Z.ltb_lt. pose proof (rep_max _ _ R). lia.
Qed.

(** ** Choosing a thread *)

(** The highest non-empty queue of a domain and its first thread. *)
Definition Top (q : Z -> list Z) (dom p t : Z) (l : list Z) : Prop :=
  0 <= p < NUM_PRIORITIES /\ q (qidx dom p) = t :: l /\
  forall p', p < p' < NUM_PRIORITIES -> q (qidx dom p') = [].

Definition no_ready (q : Z -> list Z) (dom : Z) : Prop :=
  forall p, 0 <= p < NUM_PRIORITIES -> q (qidx dom p) = [].

Definition sel_domain (s : kstate) : Z := if 1 <? CONFIG_NUM_DOMAINS then current_domain s else 0.

Lemma l1_zero s q dom w :
  ReadyQ s q -> 0 <= dom < CONFIG_NUM_DOMAINS -> index (ready_queues_l1_bitmap s) dom = Some w ->
  (w = 0 -> no_ready q dom) /\ (w <> 0 -> exists p, 0 <= p < NUM_PRIORITIES /\ q (qidx dom p) <> []).
Proof.
  intros HR Hd Ew. destruct (rq_bitmap _ _ HR dom Hd) as (w' & row & Ew' & Er & [Hl Hw H2]).
  rewrite Ew in Ew'. injection Ew' as <-. unfold NUM_PRIORITIES. split.
  - intros -> p Hp. unfold NUM_PRIORITIES in Hp. destruct (H2 (p / 32)) as (w2 & _ & _ & Hz & Hb); [split; [apply Z.div_pos; lia|apply Z.div_lt_upper_bound; lia]|].
    specialize (Hb (p mod 32) ltac:(apply Z.mod_pos_bound; lia)).
    rewrite <-Z.div_mod in Hb by lia.
    assert (E : Z.testbit w2 (p mod 32) = false).
    { rewrite Z.testbit_0_l in Hz. destruct (Z.eq_dec w2 0) as [->|Hne]; [apply Z.testbit_0_l|].
      apply Z.eqb_neq in Hne. rewrite Hne in Hz. done. }
    rewrite E in Hb. unfold occupied in Hb. by destruct (q (qidx dom p)).
  - intros Hne. destruct (highest_bit 8 w Hw Hne) as (Hi & Hbit & _).
    destruct (H2 (Z.log2 w) Hi) as (w2 & _ & Hw2 & Hz & Hb). rewrite Hbit in Hz.
    assert (Hne2 : w2 <> 0) by (intros ->; done).
    destruct (highest_bit 32 w2 Hw2 Hne2) as (Hj & Hbit2 & _).
    exists (32 * Z.log2 w + Z.log2 w2). split; [lia|]. specialize (Hb (Z.log2 w2) Hj). rewrite Hbit2 in Hb.
    unfold occupied in Hb. by destruct (q (qidx dom _)).
Qed.

Lemma schedwf_q_ext s q q' : (forall i, q i = q' i) -> SchedWF s q -> SchedWF s q'.
Proof.
  intros E [HR HM]. split; [by eapply readyq_q_ext|]. intros i t Hi Ht. rewrite <-E in Ht. by eapply HM.
Qed.

(** Threads that are not marked queued are in no queue. *)
Lemma schedwf_unqueued s q t i : SchedWF s q -> 0 <= i < num_queues -> queued_of s t = false -> t ∉ q i.
Proof. intros [_ HM] Hi Hq Ht. destruct (HM i t Hi Ht) as (E & _). by rewrite Hq in E. Qed.

(** Whether a thread that does not offer to be preempted keeps the processor. *)
Definition cooperative (s : kstate) : bool :=
  negb (swap_ok s) && (CONFIG_PREEMPT_ENABLED || negb (current_thread s =? idle_thread_of_cpu s)).

Lemma wp_should_preempt x (Q : bool -> kstate -> Prop) s :
  is_tcb s (current_thread s) -> is_tcb s x -> blocked_of s (current_thread s) = false -> blocked_of s x = false ->
  Q (negb (cooperative s)) s -> wp (should_preempt x (swap_ok s)) Q s.
Proof.
  intros Hc Hx Hbc Hbx HQ. unfold should_preempt, cooperative, smp_idle_thread_object, cur in *.
  destruct (swap_ok s); [done|]. wp_steps. apply (wp_rd _ _ false); [done|]. rewrite Hbc. wp_steps.
  eapply (wp_mono _ (fun b s' => b = false /\ s' = s)).
  { destruct CONFIG_SWAP_NONATOMIC; [|by wp_steps]. apply (wp_rd _ _ false); [done|]. by rewrite Hbx. }
  intros b s' [-> ->]. destruct CONFIG_PREEMPT_ENABLED; cbn in *; wp_steps; [done|].
  by destruct (current_thread s =? idle_thread_of_cpu s).
Qed.

(** The current thread goes back to its queue unless it is the idle thread. *)
Definition requeue (s : kstate) (q : Z -> list Z) : Z -> list Z :=
  let c := current_thread s in
  if negb (blocked_of s c) && negb (c =? idle_thread_of_cpu s)
  then upd_q q (queue_of s c) (c :: q (queue_of s c)) else q.

Context `{Platform}.

(** [next_thread]: the current thread stays when it is active and either no queued thread
    has a higher priority or it is cooperative; otherwise the first thread of the highest
    queue is taken out and the current one is put back. *)
Lemma wp_next_thread q (Q : Z -> kstate -> Prop) s :
  let c := current_thread s in let dom := sel_domain s in
  SchedWF s q -> 0 <= dom < CONFIG_NUM_DOMAINS -> placeable s c -> budgeted s c -> queued_of s c = false ->
  (no_ready q dom -> Q idle_thread s) ->
  (forall p t l s', Top q dom p t l -> blocked_of s c = false -> p <= prior_of s c \/ cooperative s = true ->
     SFrame s s' -> SchedWF s' q -> (forall x, queued_of s' x = queued_of s x) ->
     (forall x, blocked_of s' x = blocked_of s x) -> Q c s') ->
  (forall p t l s', Top q dom p t l -> blocked_of s c = true \/ prior_of s c < p /\ cooperative s = false ->
     SFrame s s' -> SchedWF s' (upd_q (requeue s q) (qidx dom p) l) ->
     (forall x, blocked_of s' x = blocked_of s x) -> queued_of s' t = false ->
     placeable s t -> budgeted s t -> blocked_of s t = false -> Q t s') ->
  wp next_thread Q s.
Proof.
  intros c dom HW Hd Hc Hbc Hqc HQ0 HQk HQt. pose proof HW as [HR HM].
  unfold next_thread. wp_steps. fold (sel_domain s). fold dom.
  destruct (rq_bitmap _ _ HR dom Hd) as (w & row & Ew & _ & _).
  eapply wp_arr; [exact Ew|]. destruct (l1_zero s q dom w HR Hd Ew) as [Hz Hnz].
  destruct (Z.eqb_spec w 0) as [E|E]; cbn [negb]; [by wp_steps; auto|].
  destruct (Hnz E) as (p0 & Hp0 & Hne0). wp_steps.
  eapply (wp_get_highest_prio dom (occupied q) _ _ p0); [apply HR|done|done|by unfold occupied; destruct (q (qidx dom p0))|].
  intros p Hp Hocc Hmax. wp_steps. apply wp_ready_queues_index; [apply HR|done|done|]. wp_steps.
  pose proof (qidx_range dom p (proj1 (rq_config _ _ HR)) Hd Hp) as Hi.
  eapply wp_arr; [by apply HR|]. wp_steps. cbn [q_head].
  destruct (q (qidx dom p)) as [|t l] eqn:El; [by unfold occupied in Hocc; rewrite El in Hocc|]. cbn [first].
  assert (HT : Top q dom p t l).
  { split; [done|]. split; [done|]. intros p' Hp'. specialize (Hmax p'). unfold occupied in Hmax.
    destruct (q (qidx dom p')); [done|]. unfold NUM_PRIORITIES in *. lia. }
  assert (Htq : t ∈ q (qidx dom p)) by (rewrite El; constructor).
  destruct (HM _ t Hi Htq) as (Hqt & Hbt & Hbud). destruct (rq_member _ _ HR _ t Hi Htq) as [Hplt Eqt].
  assert (Hcq : forall i, 0 <= i < num_queues -> c ∉ q i) by (intros i Hi'; by eapply schedwf_unqueued).
  unfold cur. wp_steps. fold c. destruct (Z.eqb_spec t c) as [->|Htc]; [by destruct (Hcq _ Hi)|]. cbn [negb]. wp_steps.
  apply wp_assert; [apply negb_true_iff, Z.eqb_neq, Hplt|]. cbn beta.
  apply wp_ready_checks; [apply Hplt|done|done|]. wp_steps.
  apply (wp_rd _ _ false); [apply Hc|]. rewrite Hqc. wp_steps. apply (wp_rd _ _ false); [apply Hc|]. wp_steps.
  unfold requeue in HQt. fold c in HQt. unfold smp_idle_thread_object.
  destruct (blocked_of s c) eqn:Eb; cbn [negb andb] in *.
  - wp_steps. apply (wp_rd _ _ false); [apply Hplt|]. rewrite Hqt. wp_steps.
    apply (wp_unbind _ (fun _ => marktcb_as_not_queued t)).
    eapply (wp_dequeue_unmark q t [] l); [done|done|by rewrite Eqt|]. rewrite Eqt. intros s' F HW' Hq' Hb' _.
    wp_steps. eapply HQt; eauto. by rewrite Hq', decide_True.
  - unfold is_t1_higher_prio_than_t2. wp_steps. apply (wp_rd _ _ 0); [apply Hplt|]. wp_steps.
    apply (wp_rd _ _ 0); [apply Hc|]. wp_steps.
    assert (Ept : prior_of s t = p /\ domain_of s t = dom).
    { destruct Hplt as (_ & _ & Hdt & Hpt). apply qidx_inj in Eqt as [-> ->]; done. }
    rewrite (proj1 Ept).
    set (x := if negb (prior_of s c <? p) then c else t).
    assert (Hx : is_tcb s x /\ blocked_of s x = false) by (unfold x; destruct (_ <? _); split; [apply Hplt|done|apply Hc|done]).
    apply wp_should_preempt; [apply Hc|apply Hx|done|apply Hx|].
    wp_steps. rewrite negb_involutive.
    set (r := if cooperative s then c else x).
    assert (Hr : (r = c /\ (p <= prior_of s c \/ cooperative s = true)) \/
                 (r = t /\ prior_of s c < p /\ cooperative s = false)).
    { unfold r, x. destruct (cooperative s); [auto|]. destruct (Z.ltb_spec (prior_of s c) p); cbn; [right|left]; auto. }
    destruct (Z.eqb_spec c (idle_thread_of_cpu s)) as [Ei|Ei]; cbn [negb andb] in *; wp_steps.
    + destruct Hr as [[-> Hk]|(-> & Hlt & Hcp)].
      * apply (wp_rd _ _ false); [apply Hc|]. rewrite Hqc. wp_steps. by eapply HQk.
      * apply (wp_rd _ _ false); [apply Hplt|]. rewrite Hqt. wp_steps.
        apply (wp_unbind _ (fun _ => marktcb_as_not_queued t)).
        eapply (wp_dequeue_unmark q t [] l); [done|done|by rewrite Eqt|]. rewrite Eqt. intros s' F HW' Hq' Hb' _.
        wp_steps. eapply HQt; eauto. by rewrite Hq', decide_True.
    + apply (wp_unbind _ (fun _ => sched_enqueue c)).
      eapply (wp_mark_enqueue q c); [done|done|done|done|apply Hcq; by eapply placeable_queue|].
      intros s1 F1 HW1 Hq1 Hb1 _.
      assert (Hqc1 : queued_of s1 c = true).
      { destruct (wf_member _ _ HW1 (queue_of s c) c) as [? _]; [by eapply placeable_queue| |done].
        unfold upd_q. rewrite Z.eqb_refl. constructor. }
      destruct Hr as [[-> Hk]|(-> & Hlt & Hcp)]; wp_steps.
      * apply (wp_rd _ _ false); [by apply (sframe_is_tcb s s1), Hc|]. rewrite Hqc1. wp_steps.
        apply (wp_unbind _ (fun _ => marktcb_as_not_queued c)).
        eapply (wp_dequeue_unmark _ c [] (q (queue_of s c))); [exact HW1|by eapply sframe_placeable| |].
        { rewrite (sframe_queue_of s s1) by done. unfold upd_q. by rewrite Z.eqb_refl. }
        intros s2 F2 HW2 Hq2 Hb2 _. wp_steps. eapply HQk; [done|done|done|by transitivity s1| | |].
        -- eapply schedwf_q_ext; [|exact HW2]. intros i. rewrite (sframe_queue_of s s1) by done. unfold upd_q.
           by destruct (Z.eqb_spec i (queue_of s c)) as [->|].
        -- intros y. rewrite Hq2. destruct (decide (y = c)) as [->|]; [by rewrite Hqc|by apply Hq1].
        -- intros y. by rewrite Hb2, Hb1.
      * apply (wp_rd _ _ false); [by apply (sframe_is_tcb s s1), Hplt|]. rewrite Hq1, Hqt by done. wp_steps.
        apply (wp_unbind _ (fun _ => marktcb_as_not_queued t)).
        assert (Hneq : qidx dom p <> queue_of s c).
        { unfold queue_of. intros E'. destruct Hc as (_ & _ & Hdc & Hpc). apply qidx_inj in E' as [_ E']; [lia|done..]. }
        eapply (wp_dequeue_unmark _ t [] l); [exact HW1|by eapply sframe_placeable| |].
        { rewrite (sframe_queue_of s s1), Eqt by done. unfold upd_q. apply Z.eqb_neq in Hneq as ->. done. }
        rewrite (sframe_queue_of s s1), Eqt by done. intros s2 F2 HW2 Hq2 Hb2 _. wp_steps.
        eapply HQt; [done|by right|by transitivity s1|done| | |done|done|done].
        -- intros y. by rewrite Hb2, Hb1.
        -- by rewrite Hq2, decide_True.
Qed.

(** ** Installing the choice *)

Lemma wp_update_cache t (Q : unit -> kstate -> Prop) s :
  is_tcb s t -> budgeted s t -> (CONFIG_ASSERT = true -> get_fld is_thread_dummy false s t = false) -> t <> NULL ->
  Q tt (with_swap_ok true (with_ready_thread t s)) -> wp (update_cache t true) Q s.
Proof.
  intros Ht Hb Hdm Hnz HQ. unfold update_cache. wp_steps. apply wp_assert_m.
  { intros Ha. unfold get_thread_state. wp_steps. apply wp_assert; [by apply negb_true_iff, Z.eqb_neq|]. wp_steps.
    apply (wp_rd _ _ 0); [done|]. wp_steps. split; [|done]. specialize (Hdm Ha). unfold get_fld in *.
    destruct Ht as [y Ey]. rewrite Ey in *. unfold is_thread_dummy in Hdm. by apply negb_false_iff in Hdm. }
  wp_steps. apply wp_time_sensitive; [done|done|]. intros ts Hts.
  assert (W : wp (if ts then assert_ready_sufficient t else skip) (fun _ s' => s' = s) s).
  { destruct ts; [|done]. apply wp_assert_ready_sufficient; [done|by apply Hts|done]. }
  eapply wp_seq; [exact W|]. intros _ s1 ->. by wp_steps.
Qed.

(** The domain rotation touches no queue. *)
Definition DFrame (s s' : kstate) : Prop :=
  s' = with_current_domain_time (current_domain_time s') (with_current_domain (current_domain s')
    (with_reprogram (reprogram s') (with_work_units_completed (work_units_completed s')
    (with_current_domain_schedule_idx (current_domain_schedule_idx s') s)))).

Lemma wp_next_domain (Q : unit -> kstate -> Prop) s :
  0 <= current_domain_schedule_idx s < Z.of_nat (length (domain_schedule s)) -> Z.of_nat (length (domain_schedule s)) < 2 ^ 32 ->
  (forall s' d len, DFrame s s' -> current_domain s' = d -> reprogram s' = true ->
     current_domain_time s' = k_us_to_ticks_ceil32 (u32 (len * US_IN_MS)) ->
     0 <= current_domain_schedule_idx s' < Z.of_nat (length (domain_schedule s)) ->
     index (domain_schedule s) (current_domain_schedule_idx s') = Some (d, len) ->
     current_domain_schedule_idx s' = (current_domain_schedule_idx s + 1) mod Z.of_nat (length (domain_schedule s)) ->
     Q tt s') ->
  wp next_domain Q s.
Proof.
  intros Hi Hlen HQ. unfold next_domain, set_reprogram. set (n := Z.of_nat (length (domain_schedule s))) in *.
  set (i := current_domain_schedule_idx s) in *. wp_steps. cbn [domain_schedule current_domain_schedule_idx with_current_domain_schedule_idx].
  fold n i. rewrite u32_small by lia. set (j := (i + 1) mod n).
  assert (Hj : 0 <= j < n) by (apply Z.mod_pos_bound; lia).
  assert (Ej : j = if n <=? i + 1 then 0 else i + 1).
  { unfold j. destruct (Z.leb_spec n (i + 1)); [|apply Z.mod_small; lia]. replace (i + 1) with n by lia. apply Z_mod_same_full. }
  assert (Hex : is_Some (index (domain_schedule s) j)).
  { rewrite index_nonneg by lia. apply lookup_lt_is_Some. lia. }
  destruct Hex as [[d len] Ee].
  apply (wp_mono _ (fun _ s' => s' = with_current_domain_schedule_idx j s)).
  { rewrite Ej. destruct (n <=? i + 1); wp_steps; by destruct s. }
  intros _ s1 ->. wp_steps. eapply wp_arr; [exact Ee|]. wp_steps. cbn [fst snd].
  eapply (HQ _ d len); [by destruct s|done..].
Qed.

End Facts.
