(* ===== verification/SchedTheorems.v ===== *)
(** * Scheduler theorems

    The selection of the next thread, the wake-up of released threads and the hand-over of
    candidates, as statements about complete runs. *)

From Stdlib Require Import ZArith Lia Bool List.
From stdpp Require Import base tactics numbers list gmap sorting.
From S2P Require Import Prelude TimeConv Sporadic DList DNode KState TimeList ReadyQueue ReadyQueueFacts QueueTheorems Sched SchedFacts.

Local Open Scope Z_scope.

Section Select.
Context `{Config} `{Platform}.

(** A thread [update_cache] accepts. *)
Definition cacheable (s : kstate) (t : Z) : Prop :=
  is_tcb s t /\ t <> NULL /\ budgeted s t /\ get_fld is_thread_dummy false s t = false.

(** No released thread is due: the queue is empty or its first refill lies ahead. *)
Definition none_due (s : kstate) (l : list Z) : Prop :=
  match l with [] => True | h :: _ => u64 (current_time s + get_kernel_wcet_ticks) < head_time s h end.

(** The domain timetable can be advanced. *)
Definition timetable (s : kstate) : Prop :=
  0 <= current_domain_schedule_idx s < Z.of_nat (length (domain_schedule s)) /\
  Z.of_nat (length (domain_schedule s)) < 2 ^ 32.

(** What [next_thread] may return from [s], and the queues it leaves. *)
Inductive chosen (s : kstate) (q : Z -> list Z) : Z -> (Z -> list Z) -> Prop :=
| chosen_idle : no_ready q (sel_domain s) -> chosen s q idle_thread q
| chosen_stay p t l :
    Top q (sel_domain s) p t l -> blocked_of s (current_thread s) = false ->
    p <= prior_of s (current_thread s) \/ cooperative s = true ->
    chosen s q (current_thread s) q
| chosen_switch p t l :
    Top q (sel_domain s) p t l ->
    blocked_of s (current_thread s) = true \/ prior_of s (current_thread s) < p /\ cooperative s = false ->
    chosen s q t (upd_q (requeue s q) (qidx (sel_domain s) p) l).

(** Without cooperation no queued thread of the domain has a higher priority. *)
Lemma chosen_highest s q r q' p x :
  ReadyQ s q -> 0 <= sel_domain s < CONFIG_NUM_DOMAINS -> chosen s q r q' -> cooperative s = false ->
  0 <= p < NUM_PRIORITIES -> x ∈ q (qidx (sel_domain s) p) -> p <= prior_of s r.
Proof.
  intros HR Hd Hch Hco Hp Hx.
  assert (Hle : forall p0 t l, Top q (sel_domain s) p0 t l -> p <= p0).
  { intros p0 t l (_ & _ & Hmax). destruct (Z.le_gt_cases p p0); [done|]. rewrite Hmax in Hx by lia. set_solver. }
  destruct Hch as [Hno|p0 t l HT _ [?|?]|p0 t l HT _].
  - rewrite Hno in Hx by done. set_solver.
  - pose proof (Hle _ _ _ HT). lia.
  - congruence.
  - pose proof (Hle _ _ _ HT). destruct HT as (Hp0 & Et & _).
    pose proof (qidx_range _ p0 (proj1 (rq_config _ _ HR)) Hd Hp0) as Hi.
    destruct (rq_member _ _ HR _ t Hi) as [(_ & _ & Hdt & Hpt) Eq]; [rewrite Et; constructor|].
    apply qidx_inj in Eq as [_ ->]; [done|done|done|done|done].
Qed.

Lemma not_blocked_not_dummy s t : blocked_of s t = false -> get_fld is_thread_dummy false s t = false.
Proof.
  unfold get_fld. destruct (threads s !! t) as [x|]; [|done]. rewrite not_running_bits. cbn [existsb].
  intros [E _]%orb_false_iff. unfold is_thread_dummy, state_dummy_state. rewrite land_BIT by lia. by rewrite E.
Qed.

(** A change of globals the invariant does not mention. *)
Lemma schedwf_globals s s' q :
  threads s' = threads s -> scheds s' = scheds s -> current_time s' = current_time s ->
  ready_queues s' = ready_queues s -> ready_queues_l1_bitmap s' = ready_queues_l1_bitmap s ->
  ready_queues_l2_bitmap s' = ready_queues_l2_bitmap s -> SchedWF s q -> SchedWF s' q.
Proof.
  intros Et Es Ec Eq E1 E2 [HR HM]. split; [by eapply readyq_globals|]. intros i t Hi Ht.
  destruct (HM i t Hi Ht) as (? & ? & Hb). unfold get_fld in *. rewrite Et. split; [done|]. split; [done|].
  eapply budgeted_scheds; [done|done| |exact Hb]. unfold get_fld. by rewrite Et.
Qed.

Lemma wp_choose_new_thread q (Q : unit -> kstate -> Prop) s :
  let c := current_thread s in
  SchedWF s q -> 0 <= sel_domain s < CONFIG_NUM_DOMAINS -> placeable s c -> budgeted s c -> queued_of s c = false ->
  cacheable s idle_thread -> current_domain_time s <> 0 \/ timetable s ->
  (forall s' r q', chosen s q r q' -> SchedWF s' q' -> ready_thread s' = r -> swap_ok s' = true ->
     (forall x, blocked_of s' x = blocked_of s x) -> current_thread s' = c ->
     (current_domain_time s <> 0 -> current_domain s' = current_domain s) -> Q tt s') ->
  wp choose_new_thread Q s.
Proof.
  intros c HW Hd Hc Hbc Hqc Hidle Htt HQ. unfold choose_new_thread. wp_steps.
  assert (Htail : forall s1 r q', SFrame s s1 -> SchedWF s1 q' -> chosen s q r q' -> cacheable s1 r ->
    (forall x, blocked_of s1 x = blocked_of s x) ->
    wp (s2 ← get_state; (if current_domain_time s2 =? 0 then next_domain else skip);; update_cache r true) Q s1).
  { intros s1 r q' F HW1 Hch (Hr & Hr0 & Hrb & Hrd) Hbl. destruct F as [EF _]. wp_steps.
    assert (Ed : current_domain_time s1 = current_domain_time s) by (by rewrite EF).
    apply (wp_mono _ (fun _ s2 => DFrame s1 s2 /\ (current_domain_time s <> 0 -> current_domain s2 = current_domain s))).
    { rewrite Ed. destruct (Z.eqb_spec (current_domain_time s) 0) as [E0|E0].
      - destruct Htt as [?|[Ht1 Ht2]]; [done|]. apply wp_next_domain; [by rewrite EF..|]. intros s2 d len HF. intros. split; [done|lia].
      - wp_steps. split; [by destruct s1|]. intros _. by rewrite EF. }
    intros _ s2 [DF Hdom]. unfold DFrame in DF.
    assert (HW2 : SchedWF s2 q') by (eapply schedwf_globals; [..|exact HW1]; by rewrite DF).
    assert (Eth : threads s2 = threads s1) by (by rewrite DF).
    apply wp_update_cache; [by unfold is_tcb; rewrite Eth| |by intros _; unfold get_fld; rewrite Eth|done|].
    { eapply budgeted_scheds; [..|exact Hrb]; [by rewrite DF..|]. unfold get_fld. by rewrite Eth. }
    eapply (HQ _ r q'); [done| |done|done| |by rewrite DF; rewrite EF|done].
    - eapply schedwf_globals; [..|exact HW2]; done.
    - intros x. rewrite <-Hbl. unfold get_fld. cbn. by rewrite Eth. }
  apply (wp_next_thread q); [done|done|done|done|done|..].
  - intros Hno. eapply Htail; [done|done|by apply chosen_idle|done|done].
  - intros p t l s' HT Hb Hk F HW' _ Hbl. eapply Htail; [done|exact HW'|by eapply chosen_stay| |done].
    split; [by apply (sframe_is_tcb s s'), Hc|]. split; [apply Hc|]. split; [by eapply sframe_budgeted|].
    apply not_blocked_not_dummy. by rewrite Hbl.
  - intros p t l s' HT Hk F HW' Hbl Hqt Hplt Hbt Hblt. eapply Htail; [done|exact HW'|by eapply chosen_switch| |done].
    split; [by apply (sframe_is_tcb s s'), Hplt|]. split; [apply Hplt|]. split; [by eapply sframe_budgeted|].
    apply not_blocked_not_dummy. by rewrite Hbl.
Qed.

(** Waking up when nothing is due changes nothing. *)
Lemma wp_awaken_none l (Q : unit -> kstate -> Prop) s :
  ReleaseQ s l -> none_due s l -> Q tt s -> wp awaken Q s.
Proof.
  intros HL Hn HQ. unfold awaken. wp_steps. cbn [awaken_loop]. wp_steps. rewrite (rel_head _ _ HL).
  destruct l as [|h l]; cbn [first]; [by wp_steps|].
  pose proof (rel_dll _ _ HL) as [_ Hz _]. destruct (Z.eqb_spec h NULL) as [->|_]; [set_solver|]. wp_steps.
  destruct (rel_member _ _ HL h) as [Ht [r Hr]]; [constructor|]. apply (wp_rd _ _ 0); [done|]. wp_steps.
  unfold none_due, head_time in Hn. rewrite Hr in Hn. cbn in Hn. unfold head_refill in Hr.
  apply bind_Some in Hr as (sc & Es & Er). unfold thread_refill_ready. wp_steps.
  eapply wp_on_sched_ro; [exact Es|]. unfold refill_ready, REFILL_HEAD, REFILL_INDEX. wp_steps. unfold wp at 1. rewrite Er.
  wp_steps. split; [done|]. by rewrite (proj2 (Z.leb_gt _ _)) by exact Hn.
Qed.

(** C1: the scheduler picks the highest-priority runnable thread.  When a reschedule was requested
    and no released thread is due, [schedule] completes on every well-formed state; it
    installs the idle thread when the domain has no queued thread, keeps the current
    thread when it is active and no queued priority exceeds its own (or it is
    cooperative), and otherwise installs the first thread of the highest non-empty queue,
    removing that thread from the queue and putting an active current thread back at
    the head of its own; so without cooperation no queued thread of the domain has a
    higher priority than the installed one, and the scheduler invariant is preserved. *)
Theorem schedule_selects s q l :
  let c := current_thread s in
  SchedWF s q -> 0 <= sel_domain s < CONFIG_NUM_DOMAINS -> placeable s c -> budgeted s c -> queued_of s c = false ->
  cacheable s idle_thread -> current_domain_time s <> 0 \/ timetable s ->
  ReleaseQ s l -> none_due s l -> scheduler_action s = SCHEDULER_ACTION_CHOOSE_NEW_THREAD ->
  exists s' q', schedule s = Done tt s' /\ chosen s q (ready_thread s') q' /\
    (cooperative s = false -> forall p x, 0 <= p < NUM_PRIORITIES -> x ∈ q (qidx (sel_domain s) p) ->
       p <= prior_of s (ready_thread s')) /\
    SchedWF s' q' /\ swap_ok s' = true /\ scheduler_action s' = SCHEDULER_ACTION_RESUME_CURRENT_THREAD /\ current_thread s' = c.
Proof.
  intros c HW Hd Hc Hbc Hqc Hidle Htt HL Hn Ha.
  enough (W : wp schedule (fun _ s' => exists q', chosen s q (ready_thread s') q' /\ SchedWF s' q' /\
    swap_ok s' = true /\ scheduler_action s' = SCHEDULER_ACTION_RESUME_CURRENT_THREAD /\ current_thread s' = c) s)
    by (apply wp_run in W as ([] & s' & E & q' & Hch & ?); exists s', q'; split; [done|]; split; [done|];
        split; [intros Hco p x Hp Hx; by eapply chosen_highest; [apply HW|..]|done]).
  unfold schedule, set_scheduler_action. wp_steps. eapply wp_awaken_none; [done|done|]. wp_steps. rewrite Ha.
  change (negb (_ =? _)) with true. cbn beta iota. rewrite Z.eqb_refl.
  apply (wp_choose_new_thread q); [done..|]. intros s' r q' Hch HW' Er Esw _ Ec _. wp_steps.
  exists q'. cbn. rewrite Er. split; [done|]. split; [|done]. eapply schedwf_globals; [..|exact HW']; done.
Qed.

End Select.

(** ** Waking up released threads *)

(** Only queues, bitmaps, links, state words, the release queue, the reprogram flag and
    the scheduler action differ. *)
Record WFrame (s s' : kstate) : Prop := {
  wkf_globals : s' = with_threads (threads s') (with_ready_queues (ready_queues s')
    (with_bitmaps (ready_queues_l1_bitmap s') (ready_queues_l2_bitmap s')
    (with_release_queue (release_queue s') (with_reprogram (reprogram s')
    (with_scheduler_action (scheduler_action s') s)))));
  wkf_threads : forall p, core <$> threads s' !! p = core <$> threads s !! p;
}.

#[global] Instance WFrame_preorder : PreOrder WFrame.
Proof.
  split.
  - intros s. split; [by destruct s|done].
  - intros s1 s2 s3 [G1 T1] [G2 T2]. split; [|intros p; by rewrite T2].
    rewrite G2 at 1. rewrite G1. by destruct s3, s1.
Qed.

Lemma sframe_wframe s s' : SFrame s s' -> WFrame s s'.
Proof. intros [G T]. split; [|done]. rewrite G at 1. rewrite G. by destruct s, s'. Qed.

Lemma rframe_wframe s s' : RFrame s s' -> WFrame s s'.
Proof.
  intros [G T]. split; [rewrite G at 1; rewrite G; by destruct s, s'|]. intros p. specialize (T p).
  destruct (threads s' !! p), (threads s !! p); try done. cbn in *. unfold core. apply (inj Some) in T. by rewrite T.
Qed.

Lemma wframe_action s a : WFrame s (with_scheduler_action a s).
Proof. split; [by destruct s|done]. Qed.

Lemma wframe_reprogram s b : WFrame s (with_reprogram b s).
Proof. split; [by destruct s|done]. Qed.

Lemma wframe_fld {A} (f : ktcb -> A) d s s' p :
  WFrame s s' -> (forall t, f (core t) = f t) -> get_fld f d s' p = get_fld f d s p.
Proof.
  intros [_ T] Hf. specialize (T p). unfold get_fld.
  destruct (threads s' !! p) as [t'|], (threads s !! p) as [t|]; try done. cbn in T.
  rewrite <-(Hf t'), <-(Hf t). apply (inj Some) in T. by rewrite T.
Qed.

Lemma wframe_is_tcb s s' p : WFrame s s' -> is_tcb s' p <-> is_tcb s p.
Proof.
  intros [_ T]. specialize (T p). unfold is_tcb.
  destruct (threads s' !! p), (threads s !! p); try done; rewrite ?is_Some_alt; done.
Qed.

Lemma wframe_head s s' t : WFrame s s' -> head_refill s' t = head_refill s t.
Proof.
  intros F. unfold head_refill. rewrite (wframe_fld _ _ s s') by done. destruct F as [G _]. by rewrite G.
Qed.

Section Requests.
Context `{Config} `{Platform}.

Lemma wframe_placeable s s' p : WFrame s s' -> placeable s p -> placeable s' p.
Proof. intros F. unfold placeable. by rewrite (wframe_is_tcb s s'), !(wframe_fld _ _ s s') by done. Qed.

Lemma wframe_queue_of s s' p : WFrame s s' -> queue_of s' p = queue_of s p.
Proof. intros F. unfold queue_of. by rewrite !(wframe_fld _ _ s s') by done. Qed.

(** [reschedule_required] with a pending candidate: it goes to the head of its queue. *)
Lemma wp_reschedule_candidate q (Q : unit -> kstate -> Prop) s :
  let a := scheduler_action s in
  ReadyQ s q -> 2 < a -> placeable s a -> budgeted s a -> (CONFIG_ASSERT = true -> queued_of s a = true) ->
  a ∉ q (queue_of s a) ->
  (forall s', WFrame s s' -> ReadyQ s' (upd_q q (queue_of s a) (a :: q (queue_of s a))) ->
     scheduler_action s' = SCHEDULER_ACTION_CHOOSE_NEW_THREAD -> release_queue s' = release_queue s ->
     links_except (a :: q (queue_of s a)) s s' ->
     (forall x, queued_of s' x = if decide (x = a) then true else queued_of s x) ->
     (forall x, blocked_of s' x = blocked_of s x) -> Q tt s') ->
  wp reschedule_required Q s.
Proof.
  intros a HR Ha Hpl Hb Hq Hnin HQ. unfold reschedule_required, set_scheduler_action. wp_steps. fold a.
  unfold SCHEDULER_ACTION_RESUME_CURRENT_THREAD, SCHEDULER_ACTION_CHOOSE_NEW_THREAD.
  destruct (Z.eqb_spec a 0), (Z.eqb_spec a 1); try lia. cbn [negb andb].
  apply wp_ready_checks; [apply Hpl|done|done|]. apply (wp_mark_enqueue_rq q); [done..|].
  intros s1 (F & HR1 & Hq1 & Hb1 & HL1). wp_steps. apply HQ; [|by eapply readyq_globals; [..|exact HR1]|done| |done|done|done].
  - transitivity s1; [by apply sframe_wframe|apply wframe_action].
  - cbn. by destruct F as [-> _].
Qed.

(** Without one it only records the request. *)
Lemma wp_reschedule_plain (Q : unit -> kstate -> Prop) s :
  scheduler_action s = SCHEDULER_ACTION_RESUME_CURRENT_THREAD \/ scheduler_action s = SCHEDULER_ACTION_CHOOSE_NEW_THREAD ->
  Q tt (with_scheduler_action SCHEDULER_ACTION_CHOOSE_NEW_THREAD s) -> wp reschedule_required Q s.
Proof. intros [E|E] HQ; unfold reschedule_required, set_scheduler_action; wp_steps; rewrite E; cbn; by wp_steps. Qed.

End Requests.

Section Awaken.
Context `{Config} `{Platform}.

(** A thread whose scheduling context, if any, exists. *)
Definition has_sched (s : kstate) (t : Z) : Prop := sched_of s t = NULL \/ is_Some (scheds s !! sched_of s t).

Lemma wframe_has_sched s s' t : WFrame s s' -> has_sched s t -> has_sched s' t.
Proof.
  intros F. unfold has_sched. rewrite (wframe_fld _ _ s s') by done. destruct F as [G _]. by rewrite G.
Qed.

(** A thread that sits in no queue and may be put in one. *)
Record loose (s : kstate) (q : Z -> list Z) (l : list Z) (x : Z) : Prop := {
  lo_place : placeable s x;
  lo_sched : has_sched s x;
  lo_ready : forall i, 0 <= i < num_queues -> x ∉ q i;
  lo_release : x ∉ l;
  lo_addr : 2 < x;
}.

(** Ready queues [q], release queue [l] whose members are loose otherwise, and a pending
    candidate that is loose. *)
Record WakeInv (s : kstate) (q : Z -> list Z) (l : list Z) : Prop := {
  wk_ready : ReadyQ s q;
  wk_release : ReleaseQ s l;
  wk_member : forall x, x ∈ l -> placeable s x /\ has_sched s x /\ queued_of s x = false /\ 2 < x /\
    (forall i, 0 <= i < num_queues -> x ∉ q i);
  wk_action : scheduler_action s = SCHEDULER_ACTION_RESUME_CURRENT_THREAD \/
    scheduler_action s = SCHEDULER_ACTION_CHOOSE_NEW_THREAD \/ loose s q l (scheduler_action s);
}.

(** The release queue is untouched by a change of other threads' links. *)
Lemma releaseq_frame s s' l :
  WFrame s s' -> release_queue s' = release_queue s -> ReleaseQ s l ->
  (forall x, x ∈ l -> rnext s' x = rnext s x /\ rprev s' x = rprev s x) -> ReleaseQ s' l.
Proof.
  intros F Er [Hh Hd Hm Hs] Hl. split; [by rewrite Er|eapply dll_frame; [exact Hd|done]|..].
  - intros t Ht. rewrite (wframe_is_tcb s s'), (wframe_head s s') by done. auto.
  - eapply StronglySorted_impl; [|exact Hs]. intros a b. unfold head_time. by rewrite !(wframe_head s s').
Qed.

(** The ready queues are untouched by a change of the release queue. *)
Lemma readyq_rframe s s' q l :
  RFrame s s' -> ReadyQ s q -> links_except l s s' ->
  (forall i x, 0 <= i < num_queues -> x ∈ q i -> x ∉ l) -> ReadyQ s' q.
Proof.
  intros F [Hc Hq Hd Hm HB] HL Hdis. pose proof (rf_globals _ _ F) as G.
  split; [done|by rewrite G| | |by rewrite G].
  - intros i Hi. eapply dll_frame; [by apply Hd|]. intros x Hx. apply HL. eauto.
  - intros i t Hi Ht. specialize (Hm i t Hi Ht). unfold placeable, queue_of in *.
    by rewrite (rframe_is_tcb s s'), !(rframe_fld _ _ s s') by done.
Qed.

(** The thread is in its ready queue or is the pending candidate. *)
Definition held (s : kstate) (q : Z -> list Z) (x : Z) : Prop := x ∈ q (queue_of s x) \/ scheduler_action s = x.

(** What a wake-up step keeps. *)
Record kept (s : kstate) (q : Z -> list Z) (s' : kstate) (q' : Z -> list Z) : Prop := {
  kp_frame : WFrame s s';
  kp_blocked : forall x, blocked_of s' x = blocked_of s x;
  kp_held : forall x, 2 < x -> held s q x -> held s' q' x;
}.

Lemma kept_trans s1 q1 s2 q2 s3 q3 : kept s1 q1 s2 q2 -> kept s2 q2 s3 q3 -> kept s1 q1 s3 q3.
Proof.
  intros [F1 B1 H1] [F2 B2 H2]. split; [by transitivity s2|intros x; by rewrite B2|auto].
Qed.

Lemma ready_not_blocked s t : is_tcb s t -> get_fld is_thread_ready false s t = negb (blocked_of s t).
Proof. intros [x Ex]. unfold get_fld. by rewrite Ex. Qed.

(** Taking the first thread off the release queue. *)
Lemma wp_wake_dequeue q h l (Q : Z -> kstate -> Prop) s :
  WakeInv s q (h :: l) ->
  (forall s', WakeInv s' q l -> loose s' q l h -> scheduler_action s' <> h -> queued_of s' h = false ->
     kept s q s' q -> scheduler_action s' = scheduler_action s -> Q h s') ->
  wp release_dequeue Q s.
Proof.
  intros [HR HL HM HA] HQ. eapply wp_release_dequeue; [done|]. intros s' F HL' _ _ _ HLk.
  assert (WF : WFrame s s') by (by apply rframe_wframe).
  pose proof (rel_dll _ _ HL) as [Hnd _ _]. apply NoDup_cons in Hnd as [Hhl _].
  assert (Ea : scheduler_action s' = scheduler_action s) by (by destruct F as [-> _]).
  assert (Hmem : forall x, x ∈ h :: l -> placeable s' x /\ has_sched s' x /\ queued_of s' x = false /\ 2 < x /\
    (forall i, 0 <= i < num_queues -> x ∉ q i)).
  { intros x Hx. destruct (HM x Hx) as (? & ? & ? & ? & ?). split; [by eapply wframe_placeable|].
    split; [by eapply wframe_has_sched|]. by rewrite (rframe_fld _ _ s s'). }
  destruct (Hmem h) as (Hph & Hsh & Hqh & H2h & Hnq); [constructor|].
  assert (Hah : scheduler_action s <> h).
  { unfold SCHEDULER_ACTION_RESUME_CURRENT_THREAD, SCHEDULER_ACTION_CHOOSE_NEW_THREAD in *.
    destruct HA as [->|[->|[_ _ _ Hn _]]]; [lia|lia|]. intros E. apply Hn. rewrite E. constructor. }
  apply HQ; [|by split|by rewrite Ea|done| |done].
  - split; [|done|intros x Hx; apply Hmem; by constructor|].
    + eapply readyq_rframe; [done|done|done|]. intros i x Hi Hx Hin.
      destruct (HM x Hin) as (_ & _ & _ & _ & Hny). by apply (Hny i Hi).
    + rewrite Ea. destruct HA as [?|[?|[Hp Hsc Hr Hn Ha2]]]; [by left|by right; left|right; right].
      split; [by eapply wframe_placeable|by eapply wframe_has_sched|done|set_solver|done].
  - split; [done|intros x; by rewrite (rframe_fld _ _ s s')|]. intros x _ [Hx|Hx].
    + left. by rewrite (wframe_queue_of s s').
    + right. by rewrite Ea.
Qed.

(** The head refill of a released thread has come. *)
Definition due (s : kstate) (t : Z) : Prop := head_time s t <= u64 (current_time s + get_kernel_wcet_ticks).

Lemma wp_head_ready {A} h l (k : bool -> K A) (Q : A -> kstate -> Prop) s :
  ReleaseQ s (h :: l) -> wp (k (head_time s h <=? u64 (current_time s + get_kernel_wcet_ticks))) Q s ->
  wp (sp ← rd sched h; ready ← thread_refill_ready sp; k ready) Q s.
Proof.
  intros HL HQ. destruct (rel_member _ _ HL h) as [Ht [r Hr]]; [constructor|]. wp_steps.
  apply (wp_rd _ _ 0); [done|]. wp_steps. unfold head_time in HQ. rewrite Hr in HQ. cbn in HQ.
  unfold head_refill in Hr. apply bind_Some in Hr as (sc & Es & Er). unfold thread_refill_ready. wp_steps.
  eapply wp_on_sched_ro; [exact Es|]. unfold refill_ready, REFILL_HEAD, REFILL_INDEX. wp_steps. unfold wp at 1. rewrite Er.
  by wp_steps.
Qed.

(** The rest is about the builds without assertions. *)
Hypothesis no_assert : CONFIG_ASSERT = false.

Lemma has_sched_budgeted s t : has_sched s t -> budgeted s t.
Proof. intros [?|[sc ?]]; [by left|right]. exists sc. split; [done|]. congruence. Qed.

Lemma has_sched_may s t : has_sched s t -> may_queue s t.
Proof. intros [?|[sc ?]]; [by left|right]. exists sc. split; [done|]. congruence. Qed.

Lemma wp_assert_m_off (m : K bool) (Q : unit -> kstate -> Prop) s : Q tt s -> wp (assert_m m) Q s.
Proof. intros HQ. apply wp_assert_m; [congruence|done]. Qed.

(** A loose thread appended to its queue. *)
Lemma wp_wake_append q l x (Q : unit -> kstate -> Prop) s :
  WakeInv s q l -> loose s q l x -> scheduler_action s <> x -> queued_of s x = false ->
  (forall s' q', WakeInv s' q' l -> kept s q s' q' -> held s' q' x -> scheduler_action s' = scheduler_action s -> Q tt s') ->
  wp (move_to_end_ready_q x) Q s.
Proof.
  intros [HR HL HM HA] [Hpl Hs Hnq Hnl H2x] Hax Hqx HQ. unfold move_to_end_ready_q. wp_steps.
  apply (wp_rd _ _ false); [apply Hpl|]. rewrite Hqx. wp_steps.
  pose proof (placeable_queue _ _ _ HR Hpl) as Hi.
  eapply wp_sched_append; [done|done|by apply has_sched_may|by apply Hnq|]. intros s' F [HR' HLk].
  set (q' := upd_q q (queue_of s x) (q (queue_of s x) ++ [x])) in *.
  assert (WF : WFrame s s') by (by apply sframe_wframe, qframe_sframe).
  assert (Eg : release_queue s' = release_queue s /\ scheduler_action s' = scheduler_action s) by (by destruct F as [-> _]).
  assert (Hq' : forall i y, y ∈ q' i <-> y ∈ q i \/ (i = queue_of s x /\ y = x)).
  { intros i y. unfold q', upd_q. destruct (Z.eqb_spec i (queue_of s x)) as [->|]; [|naive_solver].
    rewrite elem_of_app, list_elem_of_singleton. naive_solver. }
  eapply (HQ s' q'); [| | |apply Eg].
  - split; [done|..].
    + eapply releaseq_frame; [done|apply Eg|done|]. intros y Hy. apply HLk.
      destruct (HM y Hy) as (_ & _ & _ & _ & Hny). intros [->|Hin]%elem_of_cons; [done|by apply (Hny _ Hi)].
    + intros y Hy. destruct (HM y Hy) as (? & ? & ? & ? & Hny).
      split; [by eapply wframe_placeable|]. split; [by eapply wframe_has_sched|].
      rewrite (qframe_fld _ _ s s') by done. split; [done|]. split; [done|].
      intros i Hi' [Hin|[-> ->]]%Hq'; [by apply (Hny i)|done].
    + rewrite (proj2 Eg). destruct HA as [?|[?|[Hp Hsc Hr Hn Ha2]]]; [by left|by right; left|right; right].
      split; [by eapply wframe_placeable|by eapply wframe_has_sched| |done|done].
      intros i Hi' [Hin|[-> Heq]]%Hq'; [by apply (Hr i)|done].
  - split; [done|intros y; by rewrite (qframe_fld _ _ s s')|]. intros y _ [Hy|Hy].
    + left. rewrite (qframe_queue_of s s') by done. apply Hq'. by left.
    + right. by rewrite (proj2 Eg).
  - left. rewrite (qframe_queue_of s s') by done. apply Hq'. by right.
Qed.

(** [reschedule_required] keeps the pending candidate. *)
Lemma wp_wake_reschedule q l (Q : unit -> kstate -> Prop) s :
  WakeInv s q l ->
  (forall s' q', WakeInv s' q' l -> kept s q s' q' -> scheduler_action s' = SCHEDULER_ACTION_CHOOSE_NEW_THREAD -> Q tt s') ->
  wp reschedule_required Q s.
Proof.
  intros [HR HL HM HA] HQ.
  destruct HA as [E|[E|[Hp Hsc Hnr Hn Ha2]]].
  1,2: apply wp_reschedule_plain; [auto|]; eapply (HQ _ q); [| |done].
  1,3: split; [by eapply readyq_globals; [..|exact HR]| |done|by right; left];
    eapply releaseq_frame; [apply wframe_action|done|done|done].
  1,2: split; [apply wframe_action|done|]; intros x Hx [?|Hy]; [by left|]; rewrite E in Hy;
    unfold SCHEDULER_ACTION_RESUME_CURRENT_THREAD, SCHEDULER_ACTION_CHOOSE_NEW_THREAD in *; lia.
  set (a := scheduler_action s) in *. pose proof (placeable_queue _ _ _ HR Hp) as Hi.
  eapply (wp_reschedule_candidate q); [done|done|done|by apply has_sched_budgeted|congruence|by apply Hnr|].
  intros s' F HR' Ea Er HLk Hqd Hbl. fold a in HR', HLk, Hqd.
  set (q' := upd_q q (queue_of s a) (a :: q (queue_of s a))) in *.
  assert (Hq' : forall i y, y ∈ q' i <-> y ∈ q i \/ (i = queue_of s a /\ y = a)).
  { intros i y. unfold q', upd_q. destruct (Z.eqb_spec i (queue_of s a)) as [->|]; [|naive_solver].
    rewrite elem_of_cons. naive_solver. }
  eapply (HQ s' q'); [| |done].
  - split; [done|..].
    + eapply releaseq_frame; [done|done|done|]. intros y Hy. apply HLk.
      destruct (HM y Hy) as (_ & _ & _ & _ & Hny). intros [->|Hin]%elem_of_cons; [done|by apply (Hny _ Hi)].
    + intros y Hy. destruct (HM y Hy) as (? & ? & ? & ? & Hny).
      split; [by eapply wframe_placeable|]. split; [by eapply wframe_has_sched|].
      rewrite Hqd, decide_False by (by intros ->). split; [done|]. split; [done|].
      intros i Hi' [Hin|[-> ->]]%Hq'; [by apply (Hny i)|done].
    + by right; left.
  - split; [done|done|]. intros y _ [Hy|Hy]; left; rewrite (wframe_queue_of s s') by done; apply Hq'; [by left|].
    right. by subst y.
Qed.

Lemma wp_wake_possible q l h (Q : unit -> kstate -> Prop) s :
  WakeInv s q l -> loose s q l h -> scheduler_action s <> h -> queued_of s h = false ->
  (forall s' q', WakeInv s' q' l -> kept s q s' q' -> (blocked_of s h = false -> held s' q' h) -> Q tt s') ->
  wp (possible_switchto h) Q s.
Proof.
  intros HW HLo Hah Hqh HQ. pose proof HLo as [Hpl Hs Hnq Hnl H2].
  assert (Hk0 : kept s q s q) by (split; done).
  unfold possible_switchto, set_scheduler_action. destruct (Z.eqb_spec h NULL); [unfold NULL in *; lia|]. cbn [negb]. wp_steps.
  apply (wp_rd _ _ false); [apply Hpl|]. rewrite ready_not_blocked by apply Hpl.
  destruct (blocked_of s h) eqn:Eb; cbn [negb]; [wp_steps; by eapply HQ|]. wp_steps.
  apply (wp_rd _ _ 0); [apply Hpl|]. destruct (Z.eqb_spec (current_domain s) (domain_of s h)) as [Ed|Ed]; cbn [negb].
  2: { eapply wp_wake_append; [done|done|done|done|]. intros s' q' HW' HK Hh _. by eapply HQ. }
  destruct (Z.eqb_spec (scheduler_action s) SCHEDULER_ACTION_RESUME_CURRENT_THREAD) as [Ea|Ea]; cbn [negb]; wp_steps.
  - eapply (HQ _ q); [| |by right].
    + destruct HW as [HR HL HM HA]. split; [by eapply readyq_globals; [..|exact HR]| |done|].
      * eapply releaseq_frame; [apply wframe_action|done|done|done].
      * right; right. cbn. by split.
    + split; [apply wframe_action|done|]. intros x Hx [?|Hy]; [by left|].
      rewrite Ea in Hy. unfold SCHEDULER_ACTION_RESUME_CURRENT_THREAD in *. lia.
  - eapply wp_wake_append; [done|done|done|done|]. intros s1 q1 HW1 HK1 Hh1 _.
    eapply wp_wake_reschedule; [done|]. intros s2 q2 HW2 HK2 _. eapply (HQ s2 q2); [done|by eapply kept_trans|].
    intros _. by apply HK2.
Qed.

Lemma wp_awaken_loop q w l fuel (Q : unit -> kstate -> Prop) s :
  WakeInv s q (w ++ l) -> Forall (due s) w -> none_due s l -> (length w < fuel)%nat ->
  (forall s' q', WakeInv s' q' l -> kept s q s' q' -> (forall x, x ∈ w -> blocked_of s x = false -> held s' q' x) -> Q tt s') ->
  wp (awaken_loop fuel) Q s.
Proof.
  revert q w s. induction fuel as [|fuel IH]; intros q w s HW Hdue Hn Hf HQ; [lia|]. cbn [awaken_loop]. wp_steps.
  pose proof (wk_release _ _ _ HW) as HL. rewrite (rel_head _ _ HL). pose proof (rel_dll _ _ HL) as [_ Hz _].
  assert (Hk0 : kept s q s q) by (split; done).
  destruct w as [|h w].
  - cbn [app] in *. destruct l as [|h l]; cbn [first]; [wp_steps; eapply HQ; [done|done|set_solver]|].
    destruct (Z.eqb_spec h NULL) as [->|_]; [set_solver|].
    eapply wp_head_ready; [done|]. cbn [none_due] in Hn. rewrite (proj2 (Z.leb_gt _ _)) by exact Hn. wp_steps.
    eapply HQ; [done|done|set_solver].
  - cbn [first app] in *. destruct (Z.eqb_spec h NULL) as [->|_]; [set_solver|].
    apply Forall_cons in Hdue as [Hh Hdue]. eapply wp_head_ready; [done|]. rewrite (proj2 (Z.leb_le _ _)) by exact Hh.
    wp_steps. eapply wp_wake_dequeue; [done|]. intros s1 HW1 HLo Ha Hqh HK1 _. unfold cur. wp_steps.
    apply wp_assert_off; [done|]. wp_steps. apply wp_assert_m_off. wp_steps. apply wp_assert_m_off. wp_steps.
    eapply wp_wake_possible; [done|done|done|done|]. intros s2 q2 HW2 HK2 Hh2. unfold set_reprogram. wp_steps.
    set (s3 := with_reprogram true s2).
    assert (HK3 : kept s q s3 q2).
    { eapply kept_trans; [exact HK1|]. eapply kept_trans; [exact HK2|]. split; [apply wframe_reprogram|done|].
      intros x _ [?|?]; [by left|by right]. }
    assert (HW3 : WakeInv s3 q2 (w ++ l)).
    { destruct HW2 as [HR HL2 HM HA]. split; [by eapply readyq_globals; [..|exact HR]| |exact HM|].
      2: { destruct HA as [?|[?|[? ? ? ? ?]]]; [by left|by right; left|right; right; by split]. }
      eapply releaseq_frame; [apply wframe_reprogram|done|done|done]. }
    pose proof (kp_frame _ _ _ _ HK3) as F3.
    assert (Ec : current_time s3 = current_time s) by (by destruct F3 as [-> _]).
    assert (Eh : forall x, head_time s3 x = head_time s x) by (intros x; unfold head_time; by rewrite (wframe_head s s3)).
    eapply (IH q2 w s3); [done| | |cbn in Hf; lia|].
    + eapply Forall_impl; [exact Hdue|]. intros x. unfold due. by rewrite Eh, Ec.
    + unfold none_due in *. destruct l; [done|]. by rewrite Eh, Ec.
    + intros s' q' HW' HK' Hheld. eapply HQ; [done|by eapply kept_trans|].
      intros x Hx Hb. apply elem_of_cons in Hx as [->|Hx].
      * apply HK'; [by apply HLo|]. destruct (Hh2 ltac:(by rewrite (kp_blocked _ _ _ _ HK1))) as [?|?]; [by left|by right].
      * apply Hheld; [done|]. by rewrite (kp_blocked _ _ _ _ HK3).
Qed.

End Awaken.

Section AwakenTheorem.
Context `{Config}.

(** C6: waking up loses no thread.  In a build without assertions, [awaken] terminates; it takes exactly the due threads off
    the release queue, and every one of them that is not blocked, every thread that was in
    a ready queue and the candidate that was pending, is afterwards in its ready queue
    or is the pending candidate.  Queues stay consistent. *)
Theorem awaken_releases_due s q w l :
  CONFIG_ASSERT = false -> WakeInv s q (w ++ l) -> Forall (due s) w -> none_due s l ->
  exists s' q', awaken s = Done tt s' /\ WakeInv s' q' l /\ WFrame s s' /\
    (forall x, x ∈ w -> blocked_of s x = false -> held s' q' x) /\
    (forall x, 2 < x -> held s q x -> held s' q' x).
Proof.
  intros no_assert HW Hdue Hn.
  enough (W : wp awaken (fun _ s' => exists q', WakeInv s' q' l /\ WFrame s s' /\
    (forall x, x ∈ w -> blocked_of s x = false -> held s' q' x) /\
    (forall x, 2 < x -> held s q x -> held s' q' x)) s)
    by (apply wp_run in W as ([] & s' & E & q' & ?); eauto).
  unfold awaken. wp_steps. eapply wp_awaken_loop; [done|done|done|done| |].
  - pose proof (releaseq_length _ _ (wk_release _ _ _ HW)). rewrite length_app in *. lia.
  - intros s' q' HW' [HF HB HK] Hh. by exists q'.
Qed.

End AwakenTheorem.

(** ** Assertions on the wake-up path *)

Section AwakenAsserts.
Context `{Config} `{Platform}.

(** One due thread, with every assertion on the way satisfied, becomes the candidate. *)
Lemma wp_awaken_one q x sc h rest (Q : unit -> kstate -> Prop) s :
  WakeInv s q [x] -> due s x -> blocked_of s x = false -> domain_of s x = current_domain s ->
  scheduler_action s = SCHEDULER_ACTION_RESUME_CURRENT_THREAD -> x <> current_thread s ->
  scheds s !! sched_of s x = Some sc -> Rep sc (h :: rest) -> is_roundrobin sc = false ->
  MIN_BUDGET <= refill_amount h < 2 ^ 64 ->
  (forall s', scheduler_action s' = x -> queued_of s' x = false -> is_tcb s' x -> Q tt s') ->
  wp awaken Q s.
Proof.
  intros HW Hdue Hb Hd Ha Hxc Esc HR Hrr Ham HQ. unfold awaken. wp_steps.
  pose proof (wk_release _ _ _ HW) as HL. destruct (wk_member _ _ _ HW x) as (Hpl & _ & _ & H2 & _); [constructor|].
  assert (exists n, size (threads s) = S n) as [n ->].
  { destruct (size (threads s)) eqn:E; [|eauto]. pose proof (releaseq_length _ _ HL). cbn in *. lia. }
  cbn [awaken_loop]. wp_steps. rewrite (rel_head _ _ HL). cbn [first].
  destruct (Z.eqb_spec x NULL); [unfold NULL in *; lia|].
  eapply wp_head_ready; [done|]. rewrite (proj2 (Z.leb_le _ _)) by exact Hdue. wp_steps.
  eapply (wp_wake_dequeue q x []); [exact HW|]. intros s1 HW1 [Hpl1 _ _ _ _] Ha1 Hqx HK1 Ea. unfold cur. wp_steps.
  pose proof (kp_frame _ _ _ _ HK1) as F.
  assert (E1 : current_thread s1 = current_thread s /\ scheds s1 = scheds s /\ current_domain s1 = current_domain s) by (by destruct F as [-> _]).
  destruct E1 as (Ec & Es & Edom).
  assert (Esp : sched_of s1 x = sched_of s x) by (by rewrite (wframe_fld _ _ s s1)).
  assert (Esc1 : scheds s1 !! sched_of s1 x = Some sc) by (by rewrite Es, Esp).
  rewrite Ec. apply wp_assert; [by apply negb_true_iff, Z.eqb_neq|]. wp_steps. apply wp_assert_m.
  { intros _. wp_steps. apply (wp_rd _ _ 0); [apply Hpl1|]. wp_steps. eapply wp_rd_sched; [exact Esc1|]. wp_steps. by rewrite Hrr. }
  wp_steps. apply wp_assert_m.
  { intros _. wp_steps. apply (wp_rd _ _ 0); [apply Hpl1|]. unfold thread_refill_sufficient.
    eapply wp_on_sched_ro; [exact Esc1|]. unfold refill_sufficient, refill_capacity. wp_steps.
    eapply wp_REFILL_HEAD; [done|]. wp_steps. pose proof MIN_BUDGET_eq.
    destruct (Z.ltb_spec (refill_amount h) 0); [lia|]. rewrite Z.sub_0_r, u64_small by lia. split; [done|]. split; [|done]. apply Z.leb_le. lia. }
  unfold possible_switchto, set_scheduler_action, set_reprogram. destruct (Z.eqb_spec x NULL); [done|]. cbn [negb]. wp_steps.
  apply (wp_rd _ _ false); [apply Hpl1|]. rewrite ready_not_blocked, (kp_blocked _ _ _ _ HK1), Hb by apply Hpl1. cbn [negb].
  wp_steps. apply (wp_rd _ _ 0); [apply Hpl1|]. rewrite (wframe_fld _ _ s s1) by done. rewrite Hd, Edom, Z.eqb_refl. cbn [negb].
  rewrite Ea, Ha, Z.eqb_refl. cbn [negb]. wp_steps.
  pose proof (wk_release _ _ _ HW1) as HL1. change (release_queue (with_reprogram _ _)) with (release_queue s1).
  rewrite (rel_head _ _ HL1). cbn [first]. rewrite Z.eqb_refl. wp_steps. apply HQ; [done|done|apply Hpl1].
Qed.

(** Lemma: in builds with assertions the scheduler stops on every thread it wakes up.  [postpone_from_ready_q]
    clears the queued mark of a thread that waits for its budget; when the budget is due
    the thread becomes the candidate of [schedule], whose assertion that the candidate
    is marked queued then fails. *)
Theorem schedule_awakened_asserts q x sc h rest s :
  CONFIG_ASSERT = true ->
  WakeInv s q [x] -> due s x -> blocked_of s x = false -> domain_of s x = current_domain s ->
  scheduler_action s = SCHEDULER_ACTION_RESUME_CURRENT_THREAD -> x <> current_thread s ->
  scheds s !! sched_of s x = Some sc -> Rep sc (h :: rest) -> is_roundrobin sc = false ->
  MIN_BUDGET <= refill_amount h < 2 ^ 64 ->
  schedule s = Fail AssertFailed.
Proof.
  intros HA HW Hdue Hb Hd Ha Hxc Esc HR Hrr Ham.
  destruct (wk_member _ _ _ HW x) as (_ & _ & _ & H2 & _); [constructor|].
  assert (W : wp awaken (fun _ s' => scheduler_action s' = x /\ queued_of s' x = false /\ is_tcb s' x) s)
    by (eapply wp_awaken_one; eauto).
  apply wp_run in W as ([] & s' & E & Ea & Hq & [t Et]).
  unfold schedule, mbind, ST_bind. rewrite E. unfold gets. rewrite Ea.
  unfold SCHEDULER_ACTION_RESUME_CURRENT_THREAD, SCHEDULER_ACTION_CHOOSE_NEW_THREAD, SCHEDULER_ACTION_CHOOSE_PRIV_THREAD.
  destruct (Z.eqb_spec x 0), (Z.eqb_spec x 1), (Z.eqb_spec x 2); try lia. cbn [negb].
  unfold schedule_candidate, assert_m, assert_, rd, tcb, mbind, ST_bind, get, ofopt. rewrite HA, Et.
  unfold get_fld in Hq. rewrite Et in Hq. cbn. by rewrite Hq.
Qed.

End AwakenAsserts.

(** ** A kernel to exercise the scheduler

    Thread 100 (priority 10) runs, thread 300 (priority 40) is queued, thread 16 is the
    idle thread and thread 200 waits for a refill that is due. *)

Definition sched_demo_threads (mark : Z) : gmap Z ktcb :=
  {[ 16 := zero_tcb; 100 := with_obj_state 0 (demo_tcb 10 1100);
     200 := with_obj_state 0 (demo_tcb 20 1200); 300 := with_obj_state mark (demo_tcb 40 1300) ]}.

Definition sched_demo (cfg : Config) (action : Z) : kstate :=
  with_idle_thread_of_cpu 16 (with_current_domain_time 5 (with_current_thread 100 (with_scheduler_action action
    (@bss_state cfg (sched_demo_threads state_queued_state) demo_scheds)))).

(** Evaluate a closed fact about a concrete state. *)
Ltac run := vm_compute; repeat split; try discriminate; try reflexivity.
Ltac run_tcb := eexists; vm_compute; reflexivity.

Section SchedDemo.

Lemma sched_demo_budget (cfg : Config) s t ti :
  scheds s !! sched_of s t = Some (one_refill ti 60) -> Rep (one_refill ti 60) [mk_refill ti 60] ->
  0 <= ti <= 10 -> current_time s = 0 -> @budgeted cfg s t.
Proof.
  intros E R Hti Et. right. exists (one_refill ti 60). split; [done|]. intros _ _.
  exists (one_refill ti 60), (mk_refill ti 60), []. split; [done|]. split; [done|].
  cbn [refill_time refill_amount]. rewrite MIN_BUDGET_eq, Et. change (u64 (0 + get_kernel_wcet_ticks)) with 10. lia.
Qed.

Local Existing Instance test_config.
Local Existing Instance sim_platform.

Definition demo_runnable : kstate := after (add_to_ready_q 300) (sched_demo test_config 1).
Definition demo_runnable_q : Z -> list Z := upd_q (fun _ => []) 40 [300].

Lemma demo_runnable_wf : SchedWF demo_runnable demo_runnable_q.
Proof.
  apply (after_wp _ (fun s => SchedWF s demo_runnable_q)).
  eapply (wp_mark_enqueue (fun _ => [])); [| | | |set_solver|].
  - split; [apply readyq_init; done|set_solver].
  - split; [run_tcb|run].
  - eapply (sched_demo_budget _ _ _ 3); [reflexivity|apply repb_sound; vm_compute; reflexivity|lia|reflexivity].
  - reflexivity.
  - intros s' _ HW _ _ _. exact HW.
Qed.

(** The same state where the running thread (priority 10) may be preempted by thread 300. *)
Definition demo_preemptible : kstate := with_swap_ok true demo_runnable.

Lemma schedwf_swap_ok s q b : SchedWF s q -> SchedWF (with_swap_ok b s) q.
Proof. apply schedwf_globals; done. Qed.

Lemma demo_preemptible_wf : SchedWF demo_preemptible demo_runnable_q.
Proof. apply schedwf_swap_ok, demo_runnable_wf. Qed.

Lemma schedule_selects_witness :
  exists s' q', schedule demo_preemptible = Done tt s' /\
    chosen demo_preemptible demo_runnable_q (ready_thread s') q' /\ cooperative demo_preemptible = false /\
    40 <= prior_of demo_preemptible (ready_thread s') /\
    SchedWF s' q' /\ swap_ok s' = true /\ scheduler_action s' = SCHEDULER_ACTION_RESUME_CURRENT_THREAD /\
    current_thread s' = current_thread demo_preemptible.
Proof.
  destruct (schedule_selects demo_preemptible demo_runnable_q []) as (s' & q' & E & Hch & Hmax & Hrest).
  - exact demo_preemptible_wf.
  - run.
  - split; [run_tcb|run].
  - eapply (sched_demo_budget _ _ _ 0); [vm_compute; reflexivity|apply repb_sound; vm_compute; reflexivity|lia|reflexivity].
  - reflexivity.
  - split; [run_tcb|]. split; [done|]. split; [by left|reflexivity].
  - left. run.
  - apply releaseq_init. reflexivity.
  - exact I.
  - reflexivity.
  - exists s', q'. split; [exact E|]. split; [exact Hch|]. split; [reflexivity|]. split; [|exact Hrest].
    apply (Hmax eq_refl 40 300); [unfold NUM_PRIORITIES; lia|]. change (300 ∈ [300]). by constructor.
Defined.

End SchedDemo.

Section WakeDemo.

(** Thread 200 alone in the release queue. *)
Definition demo_sleeping (cfg : Config) : kstate := after (release_enqueue 200) (sched_demo cfg 0).

Lemma demo_sleeping_inv (cfg : Config) :
  CONFIG_NUM_DOMAINS = 1 -> @WakeInv cfg (demo_sleeping cfg) (fun _ => []) [200].
Proof.
  intros En.
  assert (HP : RFrame (sched_demo cfg 0) (demo_sleeping cfg) /\ ReleaseQ (demo_sleeping cfg) [200] /\
    links_except [200] (sched_demo cfg 0) (demo_sleeping cfg)).
  { apply (after_wp (release_enqueue 200) (fun s => RFrame (sched_demo cfg 0) s /\ ReleaseQ s [200] /\
      links_except [200] (sched_demo cfg 0) s)).
    eapply (wp_release_enqueue 200 []); [by apply releaseq_init|run_tcb|run_tcb|done|set_solver|].
    intros s' m1 m2 El _ _ F HR _ HLk. split; [done|]. by destruct m1, m2. }
  destruct HP as (F & HL & HLk).
  assert (HR0 : @ReadyQ cfg (sched_demo cfg 0) (fun _ => [])) by (apply readyq_init; [rewrite En; lia|reflexivity..]).
  assert (HF : WFrame (sched_demo cfg 0) (demo_sleeping cfg)) by (by apply rframe_wframe).
  split; [by eapply readyq_rframe; [exact F|exact HR0|exact HLk|set_solver]|exact HL| |by left; destruct F as [-> _]].
  intros x ->%list_elem_of_singleton. split; [eapply wframe_placeable; [exact HF|]|split; [eapply wframe_has_sched; [exact HF|]|]].
  - split; [run_tcb|]. split; [done|]. rewrite En.
    change (domain_of (sched_demo cfg 0) 200) with 0. change (prior_of (sched_demo cfg 0) 200) with 20.
    unfold NUM_PRIORITIES. lia.
  - right. eexists. reflexivity.
  - rewrite (rframe_fld _ _ (sched_demo cfg 0)) by done. split; [done|]. split; [done|set_solver].
Qed.

Lemma awaken_releases_due_witness :
  exists s' q', @awaken stm32_config (demo_sleeping stm32_config) = Done tt s' /\
    @WakeInv stm32_config s' q' [] /\ WFrame (demo_sleeping stm32_config) s' /\
    (forall x, x ∈ [200] -> blocked_of (demo_sleeping stm32_config) x = false -> @held stm32_config s' q' x) /\
    (forall x, 2 < x -> @held stm32_config (demo_sleeping stm32_config) (fun _ => []) x -> @held stm32_config s' q' x).
Proof.
  apply (@awaken_releases_due stm32_config (demo_sleeping stm32_config) (fun _ => []) [200] []).
  - reflexivity.
  - apply (demo_sleeping_inv stm32_config). reflexivity.
  - constructor; [vm_compute; discriminate|constructor].
  - exact I.
Defined.

Lemma schedule_awakened_asserts_witness :
  @schedule test_config sim_platform (demo_sleeping test_config) = Fail AssertFailed.
Proof.
  apply (@schedule_awakened_asserts test_config sim_platform (fun _ => []) 200 (one_refill 5 60) (mk_refill 5 60) []).
  - reflexivity.
  - apply (demo_sleeping_inv test_config). reflexivity.
  - vm_compute. discriminate.
  - vm_compute. reflexivity.
  - vm_compute. reflexivity.
  - vm_compute. reflexivity.
  - vm_compute. discriminate.
  - vm_compute. reflexivity.
  - apply repb_sound. vm_compute. reflexivity.
  - vm_compute. reflexivity.
  - vm_compute. split; [discriminate|reflexivity].
Defined.

End WakeDemo.
