(* ===== verification/BudgetTheorems.v ===== *)
(** * Budget accounting theorems

    [check_budget], [charge_budget], [commit_time] and [update_timestamp] of
    [src/kernel/thread.c]: time is charged exactly, never created, and a thread that runs
    out of budget ends up in the right queue. *)

From Stdlib Require Import ZArith Lia Bool List.
From stdpp Require Import base tactics numbers list gmap sorting.
From S2P Require Import Prelude TimeConv Sporadic DList DNode KState TimeList ReadyQueue ReadyQueueFacts QueueTheorems Sched SchedFacts SchedTheorems.

Local Open Scope Z_scope.

(** ** Round robin *)

Section RoundRobin.
Context `{Config}.

Lemma wp_roundrobin_recharge h t (Q : unit -> thread_sched -> Prop) sc :
  Rep sc [h; t] -> refill_ok h -> refill_ok t -> refill_amount h + refill_amount t < 2 ^ 64 ->
  (forall sc', Holds (period sc) (refill_max sc) (consumed sc)
     [set_amount (refill_amount h + refill_amount t) h; set_amount 0 t] sc' -> Q tt sc') ->
  wp roundrobin_recharge Q sc.
Proof.
  intros R [Hht Hha] [Htt Hta] Hs HQ. unfold roundrobin_recharge. wp_steps.
  apply wp_assert; [rewrite (rep_refill_size _ _ R); done|]. wp_steps.
  eapply wp_REFILL_HEAD; [done|]. wp_steps. eapply (wp_REFILL_TAIL _ _ _ t [h]); [done|]. wp_steps.
  rewrite u64_small by lia. eapply wp_write_REFILL_HEAD; [done|]. intros sc1 HH1. wp_steps.
  eapply (wp_REFILL_TAIL _ _ _ t [_]); [exact HH1|]. wp_steps.
  eapply (wp_write_REFILL_TAIL _ _ _ t _ [_]); [exact HH1|]. intros sc2 HH2. by apply HQ.
Qed.

Lemma wp_roundrobin_consume h t usage (Q : unit -> thread_sched -> Prop) sc :
  Rep sc [h; t] -> refill_ok h -> refill_ok t -> refill_amount h + refill_amount t < 2 ^ 64 ->
  0 <= usage <= refill_amount h ->
  (forall sc', Holds (period sc) (refill_max sc) (consumed sc)
     [set_amount (refill_amount h - usage) h; set_amount (refill_amount t + usage) t] sc' -> Q tt sc') ->
  wp (roundrobin_consume usage) Q sc.
Proof.
  intros R [Hht Hha] [Htt Hta] Hs Hu HQ. unfold roundrobin_consume. wp_steps.
  apply wp_assert; [rewrite (rep_refill_size _ _ R); done|]. wp_steps.
  eapply wp_REFILL_HEAD; [done|]. wp_steps. rewrite u64_small by lia.
  eapply wp_write_REFILL_HEAD; [done|]. intros sc1 HH1. wp_steps.
  eapply (wp_REFILL_TAIL _ _ _ t [_]); [exact HH1|]. wp_steps. rewrite u64_small by lia.
  eapply (wp_write_REFILL_TAIL _ _ _ t _ [_]); [exact HH1|]. intros sc2 HH2. by apply HQ.
Qed.

End RoundRobin.

(** ** Splitting leaves the head where it is *)

Lemma spec_used_head h rest new :
  rest <> [] \/ refill_time h < refill_time new ->
  exists rest', spec_used (h :: rest) new = h :: rest'.
Proof.
  intros Hc. destruct rest as [|r rest].
  - destruct Hc as [?|Hlt]; [done|]. unfold spec_used, spec_schedule_used. cbn [removelast List.last length].
    rewrite andb_false_r. rewrite (proj2 (Z.leb_gt _ _)) by done. cbn. eauto.
  - unfold spec_used, spec_schedule_used. change (removelast (h :: r :: rest)) with (h :: removelast (r :: rest)).
    repeat case_match; cbn; eauto.
Qed.

Lemma spec_split_head m p h rest usage :
  Z.of_nat (S (length rest)) < m -> 0 < p -> 0 <= refill_time h -> refill_time h + p < 2 ^ 64 ->
  0 <= usage -> usage + MIN_BUDGET <= refill_amount h < 2 ^ 64 ->
  exists rest', spec_split m p h rest usage = set_amount (refill_amount h - usage) h :: rest'.
Proof.
  intros Hm Hp Ht Hov Hu Ha. pose proof MIN_BUDGET_eq. unfold spec_split. rewrite (u64_small (refill_amount h - usage)) by lia.
  destruct (Z.eqb_spec (Z.of_nat (S (length rest))) m); [lia|].
  destruct (Z.ltb_spec (refill_amount h - usage) MIN_BUDGET); [lia|]. cbn [orb].
  apply spec_used_head. right. cbn. rewrite u64_small by lia. lia.
Qed.

Section Commit.
Context `{Config} `{Platform}.

(** The current thread's scheduling context holds [h :: rest]. *)
Record CurBudget (s : kstate) (sp : Z) (sc : thread_sched) (h : refill_t) (rest : list refill_t) : Prop := {
  cb_thread : is_tcb s (current_thread s);
  cb_sched : sched_of s (current_thread s) = sp;
  cb_lookup : scheds s !! sp = Some sc;
  cb_rep : Rep sc (h :: rest);
  cb_valid : valid (h :: rest);
}.

Lemma wp_cur_sched sp sc h rest (Q : Z -> kstate -> Prop) s :
  CurBudget s sp sc h rest -> Q sp s -> wp cur_sched Q s.
Proof. intros [Ht <- _ _ _] HQ. unfold cur_sched, cur. wp_steps. by apply (wp_rd _ _ 0). Qed.

(** A context is unchanged by a query. *)
Lemma wp_sufficient_eq sp sc h rest usage (Q : bool -> kstate -> Prop) s :
  scheds s !! sp = Some sc -> Rep sc (h :: rest) -> 0 <= usage <= refill_amount h -> refill_amount h < 2 ^ 64 ->
  Q (MIN_BUDGET <=? refill_amount h - usage) s -> wp (thread_refill_sufficient sp usage) Q s.
Proof.
  intros E R Hu Hh HQ. unfold thread_refill_sufficient. eapply wp_on_sched_ro; [done|].
  unfold refill_sufficient, refill_capacity. wp_steps. eapply wp_REFILL_HEAD; [done|]. wp_steps. split; [done|].
  destruct (Z.ltb_spec (refill_amount h) usage); [lia|]. by rewrite u64_small by lia.
Qed.

Lemma wp_ready_eq sp sc h rest (Q : bool -> kstate -> Prop) s :
  scheds s !! sp = Some sc -> Rep sc (h :: rest) ->
  Q (refill_time h <=? u64 (current_time s + get_kernel_wcet_ticks)) s -> wp (thread_refill_ready sp) Q s.
Proof.
  intros E R HQ. unfold thread_refill_ready. wp_steps. eapply wp_on_sched_ro; [done|].
  unfold refill_ready. wp_steps. eapply wp_REFILL_HEAD; [done|]. by wp_steps.
Qed.

Definition put_sched (sp : Z) (sc : thread_sched) (s : kstate) : kstate := with_scheds (<[sp := sc]> (scheds s)) s.

(** Charging the head, in both budget disciplines. *)
Lemma wp_commit_charge sp sc h rest usage (Q : unit -> kstate -> Prop) s :
  scheds s !! sp = Some sc -> Rep sc (h :: rest) -> valid (h :: rest) -> ordered (h :: rest) ->
  0 < usage -> usage + MIN_BUDGET <= refill_amount h ->
  (is_roundrobin sc = true /\ length rest = 1%nat) \/
  (current_sched s = sp /\ sp <> NULL /\ 0 < period sc /\ Z.of_nat (S (length rest)) < refill_max sc /\ refill_time h + period sc < 2 ^ 64) ->
  (forall sc' rest', let l' := set_amount (refill_amount h - usage) h :: rest' in
     Holds (period sc) (refill_max sc) (consumed sc) l' sc' -> valid l' -> total l' = total (h :: rest) ->
     Q tt (put_sched sp sc' s)) ->
  wp (if is_roundrobin sc then on_sched sp (roundrobin_consume usage)
      else csp ← gets current_sched; assert_ (negb (csp =? NULL));; on_sched csp (refill_split_check usage)) Q s.
Proof.
  intros E R Hv Ho Hu Ha Hd HQ. pose proof MIN_BUDGET_eq.
  pose proof Hv as [Hok Hlt]. apply Forall_cons in Hok as [[Ht0 Ha0] Hrok]. pose proof (total_nonneg _ Hrok) as Hr0. cbn [total] in Hlt.
  destruct Hd as [[Err Hlen]|(Ecs & Hsp & Hp & Hm & Hov)].
  - rewrite Err. destruct rest as [|t [|]]; try done. apply Forall_singleton in Hrok as [Htt Hta]. cbn [total] in *.
    eapply wp_on_sched; [done|]. eapply wp_roundrobin_consume; [done|done|done|lia|lia|].
    intros sc' HH. eapply (HQ sc'); [exact HH| |cbn; lia]. split; [repeat constructor; cbn; lia|cbn; lia].
  - assert (is_roundrobin sc = false) as -> by (unfold is_roundrobin; apply Z.eqb_neq; lia).
    destruct (spec_split_head (refill_max sc) (period sc) h rest usage) as [rest' Es]; [done|done|lia|done|lia|lia|].
    destruct (spec_split_valid (refill_max sc) (period sc) h rest usage Hv) as [Hv' HT']; [lia|].
    wp_steps. rewrite Ecs. apply wp_assert; [by apply negb_true_iff, Z.eqb_neq|]. eapply wp_on_sched; [done|]. eapply wp_refill_split_check; [done| |].
    + intros _. split; [lia|]. split; [done|]. by apply spec_split_ordered.
    + intros sc' HH. rewrite Es in *. by eapply HQ.
Qed.

(** C9: committing consumed time conserves the budget.  For a running thread whose head refill is
    released and covers the consumed time plus [MIN_BUDGET], [commit_time] passes all its
    assertions, takes exactly the consumed ticks from the head refill and returns them as a
    later refill (the used part, for round robin), so the total budget is unchanged; it adds the ticks to the consumed counter of the
    context, to the domain account when there are several domains, resets the
    counter and changes nothing else. *)
Theorem commit_time_conserves s sp sc h rest :
  let u := consume_time s in
  CurBudget s sp sc h rest -> ordered (h :: rest) ->
  0 < u -> u + MIN_BUDGET <= refill_amount h -> refill_time h <= u64 (current_time s + get_kernel_wcet_ticks) ->
  (is_roundrobin sc = true /\ length rest = 1%nat) \/
  (current_sched s = sp /\ sp <> NULL /\ 0 < period sc /\ Z.of_nat (S (length rest)) < refill_max sc /\ refill_time h + period sc < 2 ^ 64) ->
  (1 < CONFIG_NUM_DOMAINS -> u + MIN_BUDGET <= current_domain_time s < 2 ^ 64) ->
  exists sc' rest',
    commit_time s = Done tt (with_consume_time 0 (with_current_domain_time
      (if 1 <? CONFIG_NUM_DOMAINS then current_domain_time s - u else current_domain_time s) (put_sched sp sc' s))) /\
    Holds (period sc) (refill_max sc) (u64 (consumed sc + u)) (set_amount (refill_amount h - u) h :: rest') sc' /\
    total (set_amount (refill_amount h - u) h :: rest') = total (h :: rest).
Proof.
  intros u HC Ho Hu Ha Htm Hd Hdom. pose proof HC as [Ht Esp Esc R Hv]. pose proof MIN_BUDGET_eq.
  pose proof Hv as [Hok Hlt]. apply Forall_cons in Hok as [[Ht0 Ha0] Hrok]. pose proof (total_nonneg _ Hrok) as Hr0. cbn [total] in Hlt.
  enough (W : wp commit_time (fun _ s' => exists sc' rest', s' = with_consume_time 0 (with_current_domain_time
      (if 1 <? CONFIG_NUM_DOMAINS then current_domain_time s - u else current_domain_time s) (put_sched sp sc' s)) /\
    Holds (period sc) (refill_max sc) (u64 (consumed sc + u)) (set_amount (refill_amount h - u) h :: rest') sc' /\
    total (set_amount (refill_amount h - u) h :: rest') = total (h :: rest)) s)
    by (apply wp_run in W as ([] & s' & E & sc' & rest' & -> & ?); eauto).
  unfold commit_time. wp_steps. eapply wp_cur_sched; [done|]. fold u. rewrite (proj2 (Z.ltb_lt 0 u)) by done. wp_steps.
  apply wp_assert_m; [intros _; eapply wp_sufficient_eq; [done|done|lia|lia|]; split; [apply Z.leb_le; lia|done]|]. wp_steps.
  apply wp_assert_m; [intros _; eapply wp_ready_eq; [done|done|]; split; [by apply Z.leb_le|done]|]. wp_steps.
  eapply wp_rd_sched; [done|]. wp_steps. eapply wp_commit_charge; [done..|]. intros sc1 rest' l' HH1 Hv1 HT1. wp_steps.
  assert (E1 : scheds (put_sched sp sc1 s) !! sp = Some sc1) by apply lookup_insert_eq.
  pose proof HH1 as (R1 & Hp1 & Hm1 & Hc1). unfold l' in *.
  apply wp_assert_m; [intros _; eapply wp_sufficient_eq; [done|exact R1|cbn; lia|cbn; lia|]; split; [apply Z.leb_le; cbn; lia|done]|]. wp_steps.
  apply wp_assert_m; [intros _; eapply wp_ready_eq; [done|exact R1|]; split; [by apply Z.leb_le|done]|]. wp_steps.
  eapply wp_on_sched; [done|]. wp_steps.
  set (sc2 := set_consumed (u64 (consumed sc1 + u)) sc1).
  assert (HH2 : Holds (period sc) (refill_max sc) (u64 (consumed sc + u)) (set_amount (refill_amount h - u) h :: rest') sc2).
  { split; [|unfold sc2; cbn; by rewrite Hp1, Hm1, Hc1]. destruct R1 as [? ? ? ? ? ?]. by split. }
  assert (Eput : with_scheds (<[sp:=sc2]> (scheds (put_sched sp sc1 s))) (put_sched sp sc1 s) = put_sched sp sc2 s).
  { unfold put_sched. cbn. by rewrite insert_insert_eq. }
  rewrite Eput. apply (wp_mono _ (fun _ s' => s' = with_current_domain_time
      (if 1 <? CONFIG_NUM_DOMAINS then current_domain_time s - u else current_domain_time s) (put_sched sp sc2 s))).
  - destruct (Z.ltb_spec 1 CONFIG_NUM_DOMAINS) as [Hn|Hn]; [|wp_steps; by destruct s].
    specialize (Hdom Hn). wp_steps. change (consume_time (put_sched sp sc2 s)) with u.
    change (current_domain_time (put_sched sp sc2 s)) with (current_domain_time s).
    apply wp_assert; [apply Z.ltb_lt; lia|]. wp_steps. rewrite u64_small by lia.
    apply wp_assert; [apply Z.leb_le; lia|]. by wp_steps.
  - intros _ s' ->. wp_steps. exists sc2, rest'. done.
Qed.

End Commit.

(** ** Running out of budget *)

Section Exhaust.
Context `{Config} `{Platform}.

(** Lemma: a thread with enough budget goes on.  When the current thread has no scheduling context, or its
    head refill covers the consumed time plus [MIN_BUDGET] and (unless round robin) its
    buffer has a free slot, and the domain has not expired, [check_budget] answers true
    and changes nothing. *)
Theorem check_budget_sufficient s :
  let c := current_thread s in
  is_tcb s c ->
  (sched_of s c = NULL \/
   exists sc h rest, CurBudget s (sched_of s c) sc h rest /\ 0 <= consume_time s /\
     consume_time s + MIN_BUDGET <= refill_amount h /\ refill_time h <= u64 (current_time s + get_kernel_wcet_ticks) /\
     (is_roundrobin sc = true \/ Z.of_nat (length (h :: rest)) < refill_max sc) /\ is_cur_domain_expired s = false) ->
  check_budget s = Done true s.
Proof.
  intros c Ht Hcase. enough (W : wp check_budget (fun b s' => b = true /\ s' = s) s)
    by (apply wp_run in W as (b & s' & E & -> & ->); done).
  unfold check_budget, cur, is_time_sensitived. wp_steps. fold c. apply (wp_rd _ _ 0); [done|].
  destruct Hcase as [->|(sc & h & rest & HC & Hu & Ha & Htm & Hrr & Hdom)]; [by wp_steps|].
  pose proof HC as [_ Esp Esc R Hv]. destruct (Z.eqb_spec (sched_of s c) NULL); [by wp_steps|]. wp_steps.
  pose proof (rep_max _ _ R). pose proof MIN_BUDGET_eq.
  pose proof Hv as [Hok Hlt]. apply Forall_cons in Hok as [[Ht0 Ha0] Hrok]. pose proof (total_nonneg _ Hrok). cbn [total] in Hlt.
  eapply wp_rd_sched; [done|]. wp_steps. rewrite (proj2 (Z.ltb_lt 0 (refill_max sc))) by lia. wp_steps.
  apply (wp_rd _ _ 0); [done|]. wp_steps.
  apply wp_assert_m; [intros _; eapply wp_ready_eq; [done|done|]; split; [by apply Z.leb_le|done]|]. wp_steps.
  eapply wp_on_sched_ro; [done|]. unfold refill_capacity. wp_steps. eapply wp_REFILL_HEAD; [done|]. wp_steps. split; [done|].
  destruct (Z.ltb_spec (refill_amount h) (consume_time s)); [lia|]. rewrite u64_small by lia.
  wp_steps. eapply wp_rd_sched; [done|]. rewrite (proj2 (Z.leb_le MIN_BUDGET _)) by lia. rewrite (rep_full _ _ R).
  assert (is_roundrobin sc || negb (Z.of_nat (length (h :: rest)) =? refill_max sc) = true) as ->.
  { destruct Hrr as [->|Hm]; [done|]. destruct (Z.eqb_spec (Z.of_nat (length (h :: rest))) (refill_max sc)); [lia|]. apply orb_true_r. }
  cbn [andb]. rewrite Hdom. by wp_steps.
Qed.

(** Replacing one context does not disturb a release queue of other contexts. *)
Lemma releaseq_put sp sc s l :
  ReleaseQ s l -> (forall x, x ∈ l -> sched_of s x <> sp) -> ReleaseQ (put_sched sp sc s) l.
Proof.
  intros [Hh Hd Hm Hs] Hsp.
  assert (E : forall x, x ∈ l -> head_refill (put_sched sp sc s) x = head_refill s x).
  { intros x Hx. unfold head_refill, put_sched. cbn. change (sched_of (with_scheds _ s) x) with (sched_of s x).
    rewrite lookup_insert_ne; [done|]. intros E. by destruct (Hsp x Hx). }
  split; [done|done|..].
  - intros t Ht. rewrite E by done. by apply Hm.
  - clear Hh Hd Hm. induction Hs as [|a l' Hs IH HF]; constructor.
    + apply IH; intros x Hx; [apply Hsp|apply E]; by constructor.
    + apply Forall_forall. intros x Hx. unfold head_time. rewrite !E by (by constructor).
      rewrite Forall_forall in HF. by apply HF.
Qed.

(** Where an exhausted thread goes. *)
Definition requeued (s : kstate) (q : Z -> list Z) (l : list Z) (h : refill_t) (s' : kstate) : Prop :=
  let c := current_thread s in
  if (refill_time h <=? u64 (current_time s + get_kernel_wcet_ticks)) && (MIN_BUDGET <=? refill_amount h)
  then ReadyQ s' (upd_q q (queue_of s c) (q (queue_of s c) ++ [c])) /\ ReleaseQ s' l
  else ReadyQ s' q /\ exists m1 m2, l = m1 ++ m2 /\ ReleaseQ s' (m1 ++ c :: m2).

(** The running thread and the queues it is not in. *)
Record Running (s : kstate) (q : Z -> list Z) (l : list Z) : Prop := {
  rn_ready : ReadyQ s q;
  rn_release : ReleaseQ s l;
  rn_place : placeable s (current_thread s);
  rn_queued : queued_of s (current_thread s) = false;
  rn_active : blocked_of s (current_thread s) = false;
  rn_out : forall i, 0 <= i < num_queues -> current_thread s ∉ q i;
  rn_not_released : current_thread s ∉ l;
  rn_disjoint : forall i x, 0 <= i < num_queues -> x ∈ q i -> x ∉ l;
  rn_contexts : forall x, x ∈ l -> sched_of s x <> sched_of s (current_thread s);
}.

Lemma wp_end_timeslice_soft q l sp sc h rest (Q : unit -> kstate -> Prop) s :
  CONFIG_ASSERT = false -> Running s q l -> CurBudget s sp sc h rest ->
  (forall s', WFrame s s' -> requeued s q l h s' -> scheduler_action s' = scheduler_action s -> Q tt s') ->
  wp (end_timeslice false) Q s.
Proof.
  intros no_assert HRun HC HQ. pose proof HRun as [HR HL Hpl Hqc Hbc Hout Hnl Hdis _]. pose proof HC as [Ht Esp Esc R Hv].
  pose proof MIN_BUDGET_eq. pose proof Hv as [Hok Hlt]. apply Forall_cons in Hok as [[Ht0 Ha0] Hrok].
  pose proof (total_nonneg _ Hrok). cbn [total] in Hlt. pose proof (placeable_queue _ _ _ HR Hpl) as Hi.
  unfold end_timeslice, cur. wp_steps. apply (wp_rd _ _ 0); [done|]. rewrite Esp. wp_steps.
  eapply wp_ready_eq; [done|done|].
  set (r := refill_time h <=? u64 (current_time s + get_kernel_wcet_ticks)).
  eapply (wp_seq _ _ (fun b s' => s' = s /\ b = r && (MIN_BUDGET <=? refill_amount h))).
  { destruct r; [|by wp_steps]. eapply wp_sufficient_eq; [done|done|lia|lia|]. by rewrite Z.sub_0_r. }
  intros b s' [-> ->]. unfold requeued in HQ. fold r in HQ. destruct (r && (MIN_BUDGET <=? refill_amount h)).
  - eapply (wp_mark_append_rq q); [done|done| |by apply Hout|].
    { right. exists sc. split; [by rewrite Esp|]. congruence. }
    intros s' (F & HR' & _ & _ & HLk). pose proof (sframe_wframe _ _ F) as WF.
    apply HQ; [done| |by destruct F as [-> _]]. split; [done|].
    eapply releaseq_frame; [done|by destruct F as [-> _]|done|]. intros x Hx. apply HLk.
    intros [->|Hin]%elem_of_cons; [done|]. by eapply Hdis.
  - unfold postpone_from_ready_q, set_reprogram. wp_steps. apply (wp_rd _ _ false); [done|]. rewrite Hqc. wp_steps.
    assert (Hhd : is_Some (head_refill s (current_thread s))).
    { unfold head_refill. rewrite Esp, Esc. cbn. eexists. by eapply rep_head_at. }
    eapply (wp_release_enqueue _ l); [done|done|done|by apply Hpl|done|].
    intros s' m1 m2 El _ _ F HR' _ HLk. wp_steps. pose proof (rframe_wframe _ _ F) as WF.
    apply HQ; [transitivity s'; [done|apply wframe_reprogram]| |by destruct F as [-> _]]. split.
    + apply (readyq_globals s'); [done..|]. eapply (readyq_rframe s); [exact F|exact HR|exact HLk|].
      intros i x Hi' Hx [->|Hin]%elem_of_cons; [by eapply Hout|by eapply Hdis].
    + exists m1, m2. split; [done|]. eapply releaseq_frame; [apply wframe_reprogram|done|exact HR'|by intros].
Qed.

(** Recharging, in both budget disciplines, conserves the total. *)
Lemma wp_charge sp sc h rest usage (Q : unit -> kstate -> Prop) s :
  CONFIG_ASSERT = false ->
  scheds s !! sp = Some sc -> Rep sc (h :: rest) -> valid (h :: rest) -> 0 <= usage < 2 ^ 64 ->
  (is_roundrobin sc = true /\ length rest = 1%nat) \/
  (is_roundrobin sc = false /\ current_sched s = sp /\ MIN_BUDGET <= total (h :: rest) /\ 2 <= refill_max sc) ->
  (forall sc' h' rest', Holds (period sc) (refill_max sc) (consumed sc) (h' :: rest') sc' -> valid (h' :: rest') ->
     total (h' :: rest') = total (h :: rest) -> Q tt (put_sched sp sc' s)) ->
  wp (if is_roundrobin sc then on_sched sp roundrobin_recharge
      else csp ← gets current_sched; on_sched csp (refill_budget_check (current_time s) usage
             (if refill_amount h <? usage then 0 else u64 (refill_amount h - usage)))) Q s.
Proof.
  intros no_assert E R Hv Hu Hd HQ. pose proof Hv as [Hok Hlt]. destruct Hd as [[-> Hlen]|(-> & Ecs & Hmin & Hm)].
  - destruct rest as [|t [|]]; try done. apply Forall_cons in Hok as [[Ht Ha] [[Htt Hta] _]%Forall_cons]. cbn [total] in *.
    eapply wp_on_sched; [done|]. eapply wp_roundrobin_recharge; [done|done|done|lia|]. intros sc' HH.
    eapply HQ; [exact HH| |cbn; lia]. split; [repeat constructor; cbn; lia|cbn; lia].
  - wp_steps. rewrite Ecs. eapply wp_on_sched; [done|]. eapply wp_refill_budget_check; [done..|]. intros sc' h' rest' HH Hv' HT' _ _. by eapply HQ.
Qed.

(** C8: an exhausted budget.  In a build without assertions, when the head refill does not cover the consumed time plus
    [MIN_BUDGET] (or a sporadic buffer is full), [check_budget] on a running soft
    real-time thread answers false, conserves the total budget while adding the consumed
    ticks to the context's account, resets the consumption counter, requests a
    reschedule, and puts the thread at the tail of its ready queue when its new head
    refill is usable now, or else into the release queue. *)
Theorem check_budget_exhausted s q l sp sc h rest :
  let c := current_thread s in let u := consume_time s in
  CONFIG_ASSERT = false ->
  Running s q l -> CurBudget s sp sc h rest -> sp <> NULL -> 0 <= u < 2 ^ 64 ->
  get_fld level 0 s c <> HARD_PRIOR_ACTION ->
  refill_amount h < u + MIN_BUDGET \/ (is_roundrobin sc = false /\ Z.of_nat (length (h :: rest)) = refill_max sc) ->
  (is_roundrobin sc = true /\ length rest = 1%nat) \/
  (is_roundrobin sc = false /\ current_sched s = sp /\ MIN_BUDGET <= total (h :: rest) /\ 2 <= refill_max sc) ->
  scheduler_action s = SCHEDULER_ACTION_RESUME_CURRENT_THREAD \/ scheduler_action s = SCHEDULER_ACTION_CHOOSE_NEW_THREAD ->
  exists s' sc' h' rest', check_budget s = Done false s' /\
    scheds s' = <[sp := sc']> (scheds s) /\
    Holds (period sc) (refill_max sc) (u64 (consumed sc + u)) (h' :: rest') sc' /\
    total (h' :: rest') = total (h :: rest) /\ consume_time s' = 0 /\ reprogram s' = true /\
    scheduler_action s' = SCHEDULER_ACTION_CHOOSE_NEW_THREAD /\ requeued s q l h' s'.
Proof.
  intros c u no_assert HRun HC Hsp Hu Hsoft Hins Hd Hact. pose proof HRun as [HR HL Hpl Hqc Hbc Hout Hnl Hdis Hctx].
  pose proof HC as [Ht Esp Esc R Hv]. pose proof MIN_BUDGET_eq. pose proof (rep_max _ _ R).
  pose proof Hv as [Hok Hlt]. apply Forall_cons in Hok as [[Ht0 Ha0] Hrok]. pose proof (total_nonneg _ Hrok). cbn [total] in Hlt.
  enough (W : wp check_budget (fun b s' => b = false /\ exists sc' h' rest', scheds s' = <[sp := sc']> (scheds s) /\
    Holds (period sc) (refill_max sc) (u64 (consumed sc + u)) (h' :: rest') sc' /\
    total (h' :: rest') = total (h :: rest) /\ consume_time s' = 0 /\ reprogram s' = true /\
    scheduler_action s' = SCHEDULER_ACTION_CHOOSE_NEW_THREAD /\ requeued s q l h' s') s)
    by (apply wp_run in W as (b & s' & E & -> & sc' & h' & rest' & ?); eauto 10).
  unfold check_budget, cur, is_time_sensitived. wp_steps. fold c. apply (wp_rd _ _ 0); [done|]. fold c in Esp. rewrite Esp.
  destruct (Z.eqb_spec sp NULL); [done|]. wp_steps. eapply wp_rd_sched; [done|]. wp_steps.
  rewrite (proj2 (Z.ltb_lt 0 (refill_max sc))) by lia. wp_steps. apply (wp_rd _ _ 0); [done|]. rewrite Esp. wp_steps.
  apply wp_assert_m_off; [done|]. wp_steps.
  eapply wp_on_sched_ro; [done|]. unfold refill_capacity. wp_steps. eapply wp_REFILL_HEAD; [done|]. wp_steps. split; [done|].
  fold u. set (cap := if refill_amount h <? u then 0 else u64 (refill_amount h - u)). wp_steps.
  eapply wp_rd_sched; [done|]. rewrite (rep_full _ _ R).
  assert ((MIN_BUDGET <=? cap) && (is_roundrobin sc || negb (Z.of_nat (length (h :: rest)) =? refill_max sc)) = false) as ->.
  { apply andb_false_iff. destruct Hins as [Hlow|[-> ->]]; [left|right; by rewrite Z.eqb_refl].
    apply Z.leb_gt. unfold cap. destruct (Z.ltb_spec (refill_amount h) u); [lia|]. rewrite u64_small by lia. lia. }
  unfold get_thread_action. wp_steps. apply wp_assert_off; [done|]. wp_steps. apply (wp_rd _ _ 0); [done|]. wp_steps.
  apply Z.eqb_neq in Hsoft as ->. unfold charge_budget. wp_steps. eapply wp_cur_sched; [done|]. wp_steps.
  eapply wp_rd_sched; [done|]. wp_steps. unfold cap. eapply wp_charge; [done..|]. intros sc1 h1 rest1 HH1 Hv1 HT1. wp_steps.
  apply wp_assert_m_off; [done|]. wp_steps.
  assert (E1 : scheds (put_sched sp sc1 s) !! sp = Some sc1) by apply lookup_insert_eq.
  pose proof HH1 as (R1 & Hp1 & Hm1 & Hc1).
  eapply wp_on_sched; [exact E1|]. unfold cur. wp_steps.
  set (sc2 := set_consumed (u64 (consumed sc1 + u)) sc1).
  assert (HH2 : Holds (period sc) (refill_max sc) (u64 (consumed sc + u)) (h1 :: rest1) sc2).
  { split; [|unfold sc2; cbn; by rewrite Hp1, Hm1, Hc1]. destruct R1 as [? ? ? ? ? ?]. by split. }
  assert (Eput : with_scheds (<[sp:=sc2]> (scheds (put_sched sp sc1 s))) (put_sched sp sc1 s) = put_sched sp sc2 s).
  { unfold put_sched. cbn. by rewrite insert_insert_eq. }
  rewrite Eput. set (s2 := put_sched sp sc2 s).
  assert (HRun2 : Running s2 q l).
  { split; try done; [by eapply readyq_globals; [..|exact HR]|]. apply releaseq_put; [done|].
    intros x Hx. fold c in Hctx. rewrite <-Esp. by apply Hctx. }
  assert (HC2 : CurBudget s2 sp sc2 h1 rest1) by (split; [done|done|apply lookup_insert_eq|apply HH2|done]).
  apply (wp_rd _ _ false); [done|].
  assert (get_fld is_thread_running false s2 (current_thread s2) = true) as ->.
  { pose proof (rn_queued _ _ _ HRun2) as Eq2. pose proof (rn_active _ _ _ HRun2) as Eb2. destruct Ht as [t Et].
    unfold get_fld in *. change (threads s2 !! current_thread s2) with (threads s !! current_thread s) in *.
    rewrite Et in *. unfold is_thread_running. by rewrite Eq2, Eb2. }
  wp_steps. eapply wp_end_timeslice_soft; [done|done|done|]. intros s3 WF Hrq Ea. unfold set_reprogram. wp_steps.
  apply wp_reschedule_plain; [by rewrite Ea|]. wp_steps. split; [done|]. exists sc2, h1, rest1.
  split; [cbn; by destruct WF as [-> _]|]. split; [done|]. split; [done|]. do 3 (split; [done|]).
  unfold requeued in *. cbn in Hrq |- *. destruct (_ && _).
  - destruct Hrq as [HR3 HL3]. split; [by apply (readyq_globals s3)|].
    destruct HL3 as [? ? ? ?]. by split.
  - destruct Hrq as [HR3 (m1 & m2 & El & HL3)]. split; [by apply (readyq_globals s3)|].
    exists m1, m2. split; [done|]. destruct HL3 as [? ? ? ?]. by split.
Qed.

End Exhaust.

Section Hard.
Context `{Config} `{Platform}.
(** [reschedule_required] takes the privilege-thread action for a thread address. *)
Lemma reschedule_privilege_faults s :
  scheduler_action s = SCHEDULER_ACTION_CHOOSE_PRIV_THREAD ->
  threads s !! SCHEDULER_ACTION_CHOOSE_PRIV_THREAD = None -> fails reschedule_required Fault s.
Proof.
  intros Ea Et. unfold reschedule_required. apply fails_step. wp_steps. rewrite Ea. apply fails_bind.
  change (negb _ && negb _) with true. cbn iota. apply fails_bind. unfold is_time_sensitived. apply fails_bind.
  unfold rd. apply fails_bind. unfold fails, tcb, mbind, ST_bind, get, ofopt. by rewrite Et.
Qed.

(** Lemma: an exhausted hard real-time thread brings the kernel down.  For such a thread [check_budget]
    asks for the privilege thread ([scheduler_action = 2]) and then calls
    [reschedule_required], which dereferences that value as a thread address. *)
Theorem check_budget_hard_faults s sp sc h rest :
  let c := current_thread s in let u := consume_time s in
  CONFIG_ASSERT = false ->
  CurBudget s sp sc h rest -> sp <> NULL -> 0 <= u < 2 ^ 64 ->
  get_fld level 0 s c = HARD_PRIOR_ACTION -> get_fld is_thread_running false s c = true ->
  refill_amount h < u + MIN_BUDGET ->
  (is_roundrobin sc = true /\ length rest = 1%nat) \/
  (is_roundrobin sc = false /\ current_sched s = sp /\ MIN_BUDGET <= total (h :: rest) /\ 2 <= refill_max sc) ->
  length (privilege_thread_status s) = Z.to_nat priv_end_priv ->
  threads s !! SCHEDULER_ACTION_CHOOSE_PRIV_THREAD = None ->
  check_budget s = Fail Fault.
Proof.
  intros c u no_assert HC Hsp Hu Hhard Hrun Hlow Hd Hpriv Hno. pose proof HC as [Ht Esp Esc R Hv]. pose proof MIN_BUDGET_eq.
  pose proof (rep_max _ _ R). fold c in Esp.
  pose proof Hv as [Hok Hlt]. apply Forall_cons in Hok as [[Ht0 Ha0] Hrok]. pose proof (total_nonneg _ Hrok). cbn [total] in Hlt.
  change (fails check_budget Fault s). unfold check_budget, cur. apply fails_step. wp_steps. fold c. apply fails_step.
  unfold is_time_sensitived. wp_steps. apply (wp_rd _ _ 0); [done|]. rewrite Esp. destruct (Z.eqb_spec sp NULL); [done|].
  wp_steps. eapply wp_rd_sched; [done|]. wp_steps. rewrite (proj2 (Z.ltb_lt 0 (refill_max sc))) by lia.
  apply fails_step. wp_steps. apply fails_step. apply (wp_rd _ _ 0); [done|]. rewrite Esp. apply fails_step.
  apply wp_assert_m_off; [done|]. apply fails_step. eapply wp_on_sched_ro; [done|]. unfold refill_capacity. wp_steps.
  eapply wp_REFILL_HEAD; [done|]. wp_steps. split; [done|]. fold u.
  set (cap := if refill_amount h <? u then 0 else u64 (refill_amount h - u)).
  apply fails_step. eapply wp_rd_sched; [done|].
  assert (MIN_BUDGET <=? cap = false) as ->.
  { apply Z.leb_gt. unfold cap. destruct (Z.ltb_spec (refill_amount h) u); [lia|]. rewrite u64_small by lia. lia. }
  cbn [andb]. apply fails_step. unfold get_thread_action. wp_steps. apply wp_assert_off; [done|]. wp_steps.
  apply (wp_rd _ _ 0); [done|]. rewrite Hhard, Z.eqb_refl. apply fails_bind.
  unfold charge_budget. apply fails_step. wp_steps. apply fails_step. eapply wp_cur_sched; [done|].
  apply fails_step. eapply wp_rd_sched; [done|]. apply fails_step. unfold cap. eapply wp_charge; [done..|].
  intros sc1 h1 rest1 HH1 Hv1 HT1. apply fails_step. apply wp_assert_m_off; [done|]. apply fails_step.
  assert (E1 : scheds (put_sched sp sc1 s) !! sp = Some sc1) by apply lookup_insert_eq.
  eapply wp_on_sched; [exact E1|]. wp_steps. unfold cur. apply fails_step. wp_steps. apply fails_step.
  apply (wp_rd _ _ false); [done|].
  match goal with |- context [get_fld is_thread_running false ?S ?C] =>
    change (get_fld is_thread_running false S C) with (get_fld is_thread_running false s c) end. rewrite Hrun.
  apply fails_step. unfold end_timeslice, set_scheduler_action, set_privilege_status. wp_steps.
  assert (Hex : is_Some (index (privilege_thread_status s) priv_health_monitor_priv)).
  { rewrite index_nonneg by done. apply lookup_lt_is_Some. rewrite Hpriv. vm_compute. lia. }
  destruct Hex as [v Ev]. eapply wp_arr_set; [exact Ev|]. apply fails_bind.
  apply reschedule_privilege_faults; [done|exact Hno].
Qed.

End Hard.

(** ** Time stamps *)

Section Stamp.
Context `{Config} `{Platform}.

(** Lemma: time stamps account for every tick once.  [update_timestamp(false)] moves [current_time] to
    the clock reading and adds exactly the ticks since the previous stamp to the
    consumption of a thread with an active scheduling context (and nothing for
    others); [update_timestamp(true)] resets the consumption and nothing else. *)
Theorem update_timestamp_exact s now :
  let c := current_thread s in
  is_tcb s c -> (sched_of s c = NULL \/ is_Some (scheds s !! sched_of s c)) ->
  now = u64 (current_tick s + u32 (clock_elapsed s)) ->
  0 <= current_time s <= now -> 0 <= consume_time s -> consume_time s + (now - current_time s) < 2 ^ 64 ->
  (exists charged : bool,
     (charged = true <-> exists sc, sched_of s c <> NULL /\ scheds s !! sched_of s c = Some sc /\ 0 < refill_max sc) /\
     update_timestamp false s = Done tt (with_consume_time
       (if charged then consume_time s + (now - current_time s) else consume_time s) (with_current_time now s))) /\
  update_timestamp true s = Done tt (with_consume_time 0 s).
Proof.
  intros c Ht Hsc En Hcur Hcon Hov. split; [|done]. assert (Hn : 0 <= now < 2 ^ 64) by (rewrite En; apply u64_range).
  enough (W : wp (update_timestamp false) (fun _ s' => exists charged : bool,
     (charged = true <-> exists sc, sched_of s c <> NULL /\ scheds s !! sched_of s c = Some sc /\ 0 < refill_max sc) /\
     s' = with_consume_time (if charged then consume_time s + (now - current_time s) else consume_time s)
            (with_current_time now s)) s)
    by (apply wp_run in W as ([] & s' & E & charged & Hb & ->); eauto).
  unfold update_timestamp, get_current_tick, cur, is_time_sensitived. wp_steps. rewrite <-En. fold c.
  apply (wp_rd _ _ 0); [done|]. change (sched_of (with_current_time now s) (current_thread (with_current_time now s))) with (sched_of s c).
  destruct (Z.eqb_spec (sched_of s c) NULL) as [E0|E0].
  - wp_steps. exists false. split; [|by destruct s]. split; [done|]. by intros (sc & Hne & _).
  - destruct Hsc as [?|[sc Esc]]; [done|]. wp_steps. eapply wp_rd_sched; [done|]. wp_steps.
    destruct (Z.ltb_spec 0 (refill_max sc)) as [Hm|Hm]; wp_steps.
    + exists true. split; [split; [eauto|done]|]. cbn [consume_time with_current_time].
      rewrite (u64_small (now - current_time s)), u64_small by lia. done.
    + exists false. split; [|by destruct s]. split; [done|]. intros (sc' & _ & E' & ?). rewrite Esc in E'. injection E' as <-. lia.
Qed.

End Stamp.

(** ** Witnesses: thread 100 runs with a head refill of 60 ticks *)

Definition budget_demo (cfg : Config) (used level_ : Z) : kstate :=
  with_privilege_thread_status (replicate 3 priv_inactive_priv)
    (with_current_sched 1100 (with_consume_time used (upd_tcb 100 (with_level level_) (sched_demo cfg 0)))).

Lemma budget_demo_cur (cfg : Config) used lv :
  CurBudget (budget_demo cfg used lv) 1100 (one_refill 0 60) (mk_refill 0 60) [].
Proof.
  split; [run_tcb|reflexivity|reflexivity|apply repb_sound; vm_compute; reflexivity|].
  split; [repeat constructor; cbn; lia|reflexivity].
Qed.

Lemma budget_demo_running (cfg : Config) used :
  CONFIG_NUM_DOMAINS = 1 -> @Running cfg (budget_demo cfg used 0) (fun _ => []) [].
Proof.
  intros En. split; try set_solver.
  - apply readyq_init; [rewrite En; lia|reflexivity..].
  - by apply releaseq_init.
  - split; [run_tcb|]. split; [done|]. rewrite En. change (domain_of (budget_demo cfg used 0) _) with 0.
    change (prior_of (budget_demo cfg used 0) _) with 10. unfold NUM_PRIORITIES. lia.
Qed.

Lemma commit_time_conserves_witness :
  exists sc' rest',
    @commit_time test_config (budget_demo test_config 15 0) =
      Done tt (with_consume_time 0 (with_current_domain_time 5 (put_sched 1100 sc' (budget_demo test_config 15 0)))) /\
    Holds 1000 4 15 (mk_refill 0 45 :: rest') sc' /\ total (mk_refill 0 45 :: rest') = 60.
Proof.
  apply (@commit_time_conserves test_config (budget_demo test_config 15 0) 1100 (one_refill 0 60) (mk_refill 0 60) []).
  - apply budget_demo_cur.
  - exact I.
  - reflexivity.
  - vm_compute. discriminate.
  - vm_compute. discriminate.
  - right. vm_compute. repeat split; (discriminate || reflexivity).
  - vm_compute. discriminate.
Defined.

Lemma check_budget_sufficient_witness :
  @check_budget test_config (budget_demo test_config 15 0) = Done true (budget_demo test_config 15 0).
Proof.
  apply (@check_budget_sufficient test_config (budget_demo test_config 15 0)); [run_tcb|].
  right. exists (one_refill 0 60), (mk_refill 0 60), [].
  split; [apply (budget_demo_cur test_config 15 0)|]. vm_compute. repeat split; try discriminate; try reflexivity. by right.
Defined.

Lemma check_budget_exhausted_witness :
  exists s' sc' h' rest', @check_budget stm32_config (budget_demo stm32_config 50 0) = Done false s' /\
    scheds s' = <[1100 := sc']> (scheds (budget_demo stm32_config 50 0)) /\
    Holds 1000 4 50 (h' :: rest') sc' /\ total (h' :: rest') = 60 /\ consume_time s' = 0 /\ reprogram s' = true /\
    scheduler_action s' = SCHEDULER_ACTION_CHOOSE_NEW_THREAD /\
    @requeued stm32_config (budget_demo stm32_config 50 0) (fun _ => []) [] h' s'.
Proof.
  apply (@check_budget_exhausted stm32_config (budget_demo stm32_config 50 0) (fun _ => []) [] 1100
    (one_refill 0 60) (mk_refill 0 60) []).
  - reflexivity.
  - apply (budget_demo_running stm32_config). reflexivity.
  - apply budget_demo_cur.
  - discriminate.
  - vm_compute. split; [discriminate|reflexivity].
  - vm_compute. discriminate.
  - left. vm_compute. reflexivity.
  - right. vm_compute. repeat split; (discriminate || reflexivity).
  - by left.
Defined.

Lemma check_budget_hard_faults_witness :
  @check_budget stm32_config (budget_demo stm32_config 50 HARD_PRIOR_ACTION) = Fail Fault.
Proof.
  apply (@check_budget_hard_faults stm32_config (budget_demo stm32_config 50 HARD_PRIOR_ACTION) 1100
    (one_refill 0 60) (mk_refill 0 60) []).
  - reflexivity.
  - apply budget_demo_cur.
  - discriminate.
  - vm_compute. split; [discriminate|reflexivity].
  - vm_compute. reflexivity.
  - vm_compute. reflexivity.
  - vm_compute. reflexivity.
  - right. vm_compute. repeat split; (discriminate || reflexivity).
  - vm_compute. reflexivity.
  - vm_compute. reflexivity.
Defined.

Lemma update_timestamp_exact_witness :
  exists charged : bool,
    (charged = true <-> exists sc, 1100 <> NULL /\ demo_scheds !! 1100 = Some sc /\ 0 < refill_max sc) /\
    @update_timestamp sim_platform false (with_current_tick 7 (budget_demo test_config 15 0)) =
      Done tt (with_consume_time (if charged then 15 + (7 - 0) else 15)
        (with_current_time 7 (with_current_tick 7 (budget_demo test_config 15 0)))).
Proof.
  apply (@update_timestamp_exact sim_platform (with_current_tick 7 (budget_demo test_config 15 0)) 7);
    [run_tcb|right; run_tcb|vm_compute; reflexivity|vm_compute; split; discriminate|vm_compute; discriminate|vm_compute; reflexivity].
Defined.

(** Lemma: the splitting works on [current_sched], which only a switch to a thread with a
    context sets.  While it names another context, that one is charged and the context of the
    running thread keeps its refill. *)
Theorem stale_context_charged :
  let s := with_current_sched 1200 (budget_demo test_config 15 0) in
  let head s p := sc ← scheds s !! p; refill_amount <$> refill_buffer sc !! Z.to_nat (refill_head sc) in
  head s 1100 = Some 60 /\ head s 1200 = Some 60 /\
  exists s', @commit_time test_config s = Done tt s' /\ head s' 1100 = Some 60 /\ head s' 1200 = Some 45.
Proof. vm_compute. split; [done|]. split; [done|]. eexists. done. Qed.
