(* ===== verification/ThreadTable.v ===== *)
(** * The table of user threads

    Models [find_thread], [add_to_threads], [delete_from_threads] and [get_thread] of
    [src/object/tcb.c]: an array of thread pointers sorted by thread number and searched by
    bisection.  [Table s L] says that the array holds the threads [L]. *)

From Stdlib Require Import ZArith Lia Bool List.
From stdpp Require Import base tactics numbers list gmap sorting.
From S2P Require Import Prelude Sporadic DList DNode KState ReadyQueue ReadyQueueFacts.

Local Open Scope Z_scope.

(** [enum special_thread_id]. *)
Definition id_idle_id : Z := 1.
Definition id_main_id : Z := 2.
Definition id_privilege_id : Z := 3.
Definition id_scheduler_id : Z := 4.
Definition id_spacer_id : Z := 5.
Definition id_irq_request_id : Z := 6.
Definition id_irq_ack_id : Z := 7.
Definition id_end_special_id : Z := 8.

Definition GLOBALID_NILTHREAD : Z := 0.
Definition GLOBALID_ANYTHREAD : Z := 4294967295.
Definition GLOBALID_TO_TID (id : Z) : Z := Z.shiftr id 14.
Definition TID_TO_GLOBALID (id : Z) : Z := u32 (Z.shiftl id 14).
Definition is_user_vaild (id : Z) : bool := id_end_special_id <=? GLOBALID_TO_TID id.

Section Table.
Context `{Platform}.

(** [GLOBALID_TO_TID(record_threads[i]->thread_id)]. *)
Definition tid_at (i : Z) : K Z := p ← arr record_threads i; id ← rd thread_id p; mret (GLOBALID_TO_TID id).

Fixpoint find_thread_loop (fuel : nat) (tid from to : Z) : K Z :=
  match fuel with
  | O => fail OutOfFuel
  | S fuel =>
    if from <=? to then
      if u32 (to - from) <=? 1 then mret to
      else
        let mid := u32 (from + Z.shiftr (u32 (to - from)) 1) in
        t ← tid_at mid;
        if tid <? t then find_thread_loop fuel tid from mid
        else if t <? tid then find_thread_loop fuel tid mid to
        else mret mid
    else mret 0
  end.

(** The search interval halves, so a word bounds the number of rounds. *)
Definition find_thread (tid from to : Z) : K Z :=
  first ← (if from =? to then mret true else t ← tid_at from; mret (tid <=? t));
  if (first : bool) then mret from else find_thread_loop 33 tid from to.

Definition set_record (i p : Z) : K unit := arr_set record_threads with_record_threads i p.

(** [for (; i <= j; j--) record_threads[j] = record_threads[j - 1];] on unsigned words. *)
Fixpoint shift_up_loop (fuel : nat) (i j : Z) : K unit :=
  match fuel with
  | O => fail OutOfFuel
  | S fuel =>
    if i <=? j then
      p ← arr record_threads (u32 (j - 1));
      set_record j p;;
      shift_up_loop fuel i (u32 (j - 1))
    else skip
  end.

Definition add_to_threads (tid thread : Z) : K unit :=
  s ← get_state;
  let n := record_thread_count s in
  if n =? 0 then
    modify (with_record_thread_count (u32 (n + 1)));;
    set_record n thread
  else
    i ← find_thread tid 0 n;
    shift_up_loop (S (S (length (record_threads s)))) i n;;
    set_record i thread;;
    modify (with_record_thread_count (u32 (n + 1))).

(** [for (; i < record_thread_count; i++) record_threads[i] = record_threads[i + 1];]. *)
Fixpoint shift_down_loop (fuel : nat) (i n : Z) : K unit :=
  match fuel with
  | O => fail OutOfFuel
  | S fuel =>
    if i <? n then
      p ← arr record_threads (u32 (i + 1));
      set_record i p;;
      shift_down_loop fuel (u32 (i + 1)) n
    else skip
  end.

Definition delete_from_threads (tid : Z) : K unit :=
  s ← get_state;
  let n := record_thread_count s in
  if n =? 1 then modify (with_record_thread_count (u32 (n - 1)))
  else
    i ← find_thread tid 0 n;
    modify (with_record_thread_count (u32 (n - 1)));;
    shift_down_loop (S (length (record_threads s))) i (u32 (n - 1)).

Definition get_thread (id : Z) : K Z :=
  let target_id := GLOBALID_TO_TID id in
  if target_id =? id_idle_id then mret idle_thread
  else if target_id =? id_main_id then mret main_thread
  else if target_id =? id_privilege_id then mret privilege_thread
  else if (target_id =? id_scheduler_id) || (target_id =? id_spacer_id) then mret NULL
  else
    s ← get_state;
    map_index ← find_thread target_id 0 (record_thread_count s);
    p ← arr record_threads map_index;
    i ← rd thread_id p;
    if negb (i =? id) then mret NULL else mret p.

End Table.

(** ** The table as a list *)

Definition tid_of (s : kstate) (p : Z) : Z := GLOBALID_TO_TID (get_fld thread_id 0 s p).

Definition NUM_RECORDS : Z := 256.

Record Table (s : kstate) (L : list Z) : Prop := {
  tb_count : record_thread_count s = Z.of_nat (length L);
  tb_len : Z.of_nat (length (record_threads s)) = NUM_RECORDS;
  tb_fit : Z.of_nat (length L) <= NUM_RECORDS;
  tb_at : forall i p, L !! i = Some p -> record_threads s !! i = Some p;
  tb_tcb : forall p, p ∈ L -> is_tcb s p;
  tb_sorted : StronglySorted (fun a b => tid_of s a < tid_of s b) L;
}.

(** The number of threads with a smaller thread number. *)
Fixpoint rank (s : kstate) (tid : Z) (L : list Z) : nat :=
  match L with
  | [] => O
  | p :: L => if tid_of s p <? tid then S (rank s tid L) else O
  end.

Lemma rank_le s tid L : (rank s tid L <= length L)%nat.
Proof. induction L; cbn; [lia|]. case_match; lia. Qed.

(** Elements before the rank are smaller, the others are not. *)
Lemma rank_spec s tid L i p :
  StronglySorted (fun a b => tid_of s a < tid_of s b) L -> L !! i = Some p ->
  (tid_of s p < tid <-> (i < rank s tid L)%nat).
Proof.
  intros HS. revert i. induction HS as [|a L HS IH HF]; intros i Hi; [done|]. cbn [rank].
  destruct i as [|i]; cbn in Hi.
  - injection Hi as ->. destruct (Z.ltb_spec (tid_of s p) tid); split; lia.
  - rewrite Forall_forall in HF. assert (tid_of s a < tid_of s p) by (apply HF; by eapply list_elem_of_lookup_2).
    specialize (IH i Hi). destruct (Z.ltb_spec (tid_of s a) tid); [rewrite IH; lia|]. lia.
Qed.

Section TableFacts.
Context `{Platform}.

Lemma wp_tid_at L i p (Q : Z -> kstate -> Prop) s :
  Table s L -> 0 <= i -> L !! Z.to_nat i = Some p -> Q (tid_of s p) s -> wp (tid_at i) Q s.
Proof.
  intros HT Hi Hp HQ. unfold tid_at. wp_steps. eapply wp_arr.
  { rewrite index_nonneg by done. by apply (tb_at _ _ HT). }
  wp_steps. apply (wp_rd _ _ 0); [|by wp_steps]. apply (tb_tcb _ _ HT). by eapply list_elem_of_lookup_2.
Qed.

(** Bisection between an element below [tid] and a bound that is not below it. *)
Lemma wp_find_thread_loop fuel tid from to L (Q : Z -> kstate -> Prop) s :
  Table s L -> 0 <= from < to -> to <= Z.of_nat (length L) ->
  (Z.to_nat from < rank s tid L <= Z.to_nat to)%nat -> to - from <= 2 ^ Z.of_nat fuel ->
  (forall i, i = Z.of_nat (rank s tid L) -> Q i s) ->
  wp (find_thread_loop (S fuel) tid from to) Q s.
Proof.
  intros HT. revert from to. induction fuel as [|fuel IH]; intros from to Hft Hto Hr Hf HQ;
    pose proof (tb_fit _ _ HT) as Hfit; unfold NUM_RECORDS in Hfit; cbn [find_thread_loop].
  { rewrite (proj2 (Z.leb_le from to)) by lia. rewrite u32_small by lia. cbn in Hf.
    rewrite (proj2 (Z.leb_le (to - from) 1)) by lia. wp_steps. apply HQ. lia. }
  change (wp (find_thread_loop (S (S fuel)) tid from to) Q s). remember (S fuel) as fuel1 eqn:Ef. cbn [find_thread_loop].
  rewrite (proj2 (Z.leb_le from to)) by lia. rewrite u32_small by lia.
  destruct (Z.leb_spec (to - from) 1) as [H1|H1]; [wp_steps; apply HQ; lia|].
  rewrite Z.shiftr_div_pow2 by lia. change (2 ^ 1) with 2.
  assert (Hmid : from < from + (to - from) / 2 < to).
  { pose proof (Z.div_le_lower_bound (to - from) 2 1). pose proof (Z.div_lt (to - from) 2). lia. }
  rewrite u32_small by lia. remember (from + (to - from) / 2) as mid eqn:Emid.
  destruct (lookup_lt_is_Some_2 L (Z.to_nat mid)) as [p Hp]; [lia|].
  wp_steps. eapply wp_tid_at; [done|lia|done|].
  pose proof (rank_spec s tid L _ _ (tb_sorted _ _ HT) Hp) as Hrk.
  rewrite Ef, Nat2Z.inj_succ, Z.pow_succ_r in Hf by lia.
  pose proof (Z.div_le_upper_bound (to - from) 2 (2 ^ Z.of_nat fuel)).
  pose proof (Z.mul_div_le (to - from) 2). pose proof (Z.mul_succ_div_gt (to - from) 2).
  destruct (Z.ltb_spec tid (tid_of s p)) as [Hlt|Hge].
  - apply IH; [lia|lia|lia|lia|done].
  - destruct (Z.ltb_spec (tid_of s p) tid) as [Hlt|Hge2].
    + apply IH; [lia|lia|lia|lia|done].
    + wp_steps. apply HQ.
      assert (Z.to_nat mid <= rank s tid L)%nat; [|lia].
      destruct (decide (Z.to_nat mid <= rank s tid L)%nat) as [|Hn]; [done|exfalso].
      destruct (lookup_lt_is_Some_2 L (rank s tid L)) as [p' Hp']; [lia|].
      pose proof (rank_spec s tid L _ _ (tb_sorted _ _ HT) Hp') as Hrk'.
      assert (tid_of s p' < tid_of s p); [|lia].
      pose proof (tb_sorted _ _ HT) as HS. revert HS Hp Hp' Hn. clear. revert L.
      generalize (Z.to_nat mid) (rank s tid). intros m f L HS Hp Hp' Hn. revert Hp' Hn. generalize (f L). clear f.
      revert m Hp. induction HS as [|a L HS IH HF]; intros m Hp k Hk Hn; [done|].
      destruct m as [|m]; [lia|]. destruct k as [|k]; cbn in *.
      * injection Hk as ->. rewrite Forall_forall in HF. apply HF. by eapply list_elem_of_lookup_2.
      * eapply (IH m Hp k Hk). lia.
Qed.

(** [find_thread] computes the rank. *)
Lemma wp_find_thread tid L (Q : Z -> kstate -> Prop) s :
  Table s L -> Q (Z.of_nat (rank s tid L)) s -> wp (find_thread tid 0 (record_thread_count s)) Q s.
Proof.
  intros HT HQ. unfold find_thread. rewrite (tb_count _ _ HT). pose proof (tb_fit _ _ HT) as Hfit. unfold NUM_RECORDS in Hfit.
  pose proof (rank_le s tid L). destruct L as [|p L]; [cbn [length rank Z.of_nat] in *; rewrite Z.eqb_refl; by wp_steps|].
  destruct (Z.eqb_spec 0 (Z.of_nat (length (p :: L)))) as [E|_]; [cbn in E; lia|].
  wp_steps. eapply (wp_tid_at _ 0); [done|lia|done|]. wp_steps.
  pose proof (rank_spec s tid _ 0 p (tb_sorted _ _ HT) eq_refl) as Hr.
  destruct (Z.leb_spec tid (tid_of s p)).
  - wp_steps. assert (rank s tid (p :: L) = 0%nat) as E by lia. by rewrite E in HQ.
  - remember (p :: L) as L' eqn:EL. assert (0 < Z.of_nat (length L')) by (subst; cbn [length]; lia).
    apply (wp_find_thread_loop 32 tid 0 _ L'); [done|lia|lia|lia| |by intros i ->].
    change (2 ^ Z.of_nat 32) with 4294967296. lia.
Qed.

(** A write to the table, as a function of slots. *)
Lemma wp_set_record i p (Q : unit -> kstate -> Prop) s :
  0 <= i < Z.of_nat (length (record_threads s)) ->
  Q tt (with_record_threads (<[Z.to_nat i := p]> (record_threads s)) s) -> wp (set_record i p) Q s.
Proof.
  intros Hi HQ. unfold set_record. destruct (lookup_lt_is_Some_2 (record_threads s) (Z.to_nat i)) as [v Hv]; [lia|].
  eapply wp_arr_set; [by rewrite index_nonneg by lia|done].
Qed.

(** [s'] is [s] with the table contents [A]. *)
Definition reslot (s s' : kstate) (A : list Z) : Prop := s' = with_record_threads A s.

Lemma wp_shift_up fuel i j (Q : unit -> kstate -> Prop) s :
  0 < i -> i <= j + 1 -> j < Z.of_nat (length (record_threads s)) -> Z.of_nat (length (record_threads s)) < 2 ^ 32 ->
  (Z.to_nat (j + 1 - i) < fuel)%nat ->
  (forall A, length A = length (record_threads s) ->
     (forall k, A !! k = if decide (i <= Z.of_nat k <= j) then record_threads s !! (k - 1)%nat else record_threads s !! k) ->
     Q tt (with_record_threads A s)) ->
  wp (shift_up_loop fuel i j) Q s.
Proof.
  revert j s. induction fuel as [|fuel IH]; intros j s Hi Hij Hj Hlen Hf HQ; [lia|]. cbn [shift_up_loop].
  destruct (Z.leb_spec i j) as [Hle|Hgt].
  - rewrite u32_small by lia. wp_steps.
    destruct (lookup_lt_is_Some_2 (record_threads s) (Z.to_nat (j - 1))) as [v Hv]; [lia|].
    eapply wp_arr; [by rewrite index_nonneg by lia|]. wp_steps. apply wp_set_record; [lia|].
    apply IH; [done|lia|cbn; rewrite length_insert; lia|cbn; by rewrite length_insert|lia|].
    cbn [record_threads with_record_threads]. intros A HA HA'.
    apply (HQ A); [by rewrite HA, length_insert|]. intros k. rewrite HA'.
    destruct (decide (i <= Z.of_nat k <= j - 1)) as [H1|H1].
    + rewrite decide_True by lia. rewrite list_lookup_insert_ne by lia. done.
    + destruct (decide (k = Z.to_nat j)) as [->|Hk].
      * rewrite list_lookup_insert_eq by lia. rewrite decide_True by lia. by replace (Z.to_nat j - 1)%nat with (Z.to_nat (j - 1)) by lia.
      * rewrite list_lookup_insert_ne by lia. by rewrite decide_False by lia.
  - wp_steps. replace s with (with_record_threads (record_threads s) s) by (by destruct s).
    apply HQ; [done|]. intros k. by rewrite decide_False by lia.
Qed.

Lemma wp_shift_down fuel i n (Q : unit -> kstate -> Prop) s :
  0 <= i -> i <= n -> n < Z.of_nat (length (record_threads s)) -> Z.of_nat (length (record_threads s)) < 2 ^ 32 ->
  (Z.to_nat (n - i) < fuel)%nat ->
  (forall A, length A = length (record_threads s) ->
     (forall k, A !! k = if decide (i <= Z.of_nat k < n) then record_threads s !! S k else record_threads s !! k) ->
     Q tt (with_record_threads A s)) ->
  wp (shift_down_loop fuel i n) Q s.
Proof.
  revert i s. induction fuel as [|fuel IH]; intros i s Hi Hin Hn Hlen Hf HQ; [lia|]. cbn [shift_down_loop].
  destruct (Z.ltb_spec i n) as [Hlt|Hge].
  - rewrite u32_small by lia. wp_steps.
    destruct (lookup_lt_is_Some_2 (record_threads s) (Z.to_nat (i + 1))) as [v Hv]; [lia|].
    eapply wp_arr; [by rewrite index_nonneg by lia|]. wp_steps. apply wp_set_record; [lia|].
    apply IH; [lia|lia|cbn; rewrite length_insert; lia|cbn; by rewrite length_insert|lia|].
    cbn [record_threads with_record_threads]. intros A HA HA'.
    apply (HQ A); [by rewrite HA, length_insert|]. intros k. rewrite HA'.
    destruct (decide (i + 1 <= Z.of_nat k < n)) as [H1|H1].
    + rewrite decide_True by lia. rewrite list_lookup_insert_ne by lia. done.
    + destruct (decide (k = Z.to_nat i)) as [->|Hk].
      * rewrite list_lookup_insert_eq by lia. rewrite decide_True by lia. by replace (S (Z.to_nat i)) with (Z.to_nat (i + 1)) by lia.
      * rewrite list_lookup_insert_ne by lia. by rewrite decide_False by lia.
  - wp_steps. replace s with (with_record_threads (record_threads s) s) by (by destruct s).
    apply HQ; [done|]. intros k. by rewrite decide_False by lia.
Qed.

End TableFacts.

(** Insertion of a fresh number at its rank keeps a table sorted. *)
Lemma sorted_at_rank s tid t L :
  StronglySorted (fun a b => tid_of s a < tid_of s b) L -> tid_of s t = tid -> (forall p, p ∈ L -> tid_of s p <> tid) ->
  StronglySorted (fun a b => tid_of s a < tid_of s b) (take (rank s tid L) L ++ t :: drop (rank s tid L) L).
Proof.
  intros HS Et Hfresh. induction HS as [|a L HS IH HF]; cbn [rank]; [repeat constructor|].
  destruct (Z.ltb_spec (tid_of s a) tid) as [Hlt|Hge]; cbn [take drop app].
  - constructor; [apply IH; intros p Hp; apply Hfresh; by constructor|].
    rewrite Forall_forall in *. intros x Hx. apply elem_of_app in Hx as [Hx|Hx].
    + apply HF. eapply elem_of_take in Hx as (i & Hi & _). by eapply list_elem_of_lookup_2.
    + apply elem_of_cons in Hx as [->|Hx]; [lia|]. apply HF. apply list_elem_of_lookup in Hx as [i Hi].
      rewrite lookup_drop in Hi. by eapply list_elem_of_lookup_2.
  - assert (tid_of s a <> tid) by (apply Hfresh; constructor). constructor; [by constructor|].
    constructor; [lia|]. rewrite Forall_forall in *. intros x Hx. specialize (HF x Hx). cbn in HF. lia.
Qed.

(** Thread numbers do not change when only the table does. *)
Lemma rank_reslot s A L tid : rank (with_record_threads A s) tid L = rank s tid L.
Proof. induction L; cbn; [done|]. by rewrite IHL. Qed.

Section TableTheorems.
Context `{Platform}.

Lemma table_member_rank s L p :
  Table s L -> p ∈ L -> L !! rank s (tid_of s p) L = Some p.
Proof.
  intros HT Hp. pose proof (tb_sorted _ _ HT) as HS. clear HT. induction HS as [|a L HS IH HF]; [set_solver|].
  cbn [rank]. apply elem_of_cons in Hp as [->|Hp].
  - by rewrite (proj2 (Z.ltb_ge _ _)) by lia.
  - rewrite Forall_forall in HF. rewrite (proj2 (Z.ltb_lt _ _)) by (by apply HF). cbn. auto.
Qed.

(** In a sorted table a thread stands at one index. *)
Lemma sorted_unique_index s L i j p :
  StronglySorted (fun a b => tid_of s a < tid_of s b) L -> L !! i = Some p -> L !! j = Some p -> i = j.
Proof.
  intros HS. revert i j. induction HS as [|a L HS IH HF]; intros i j Hi Hj; [done|]. rewrite Forall_forall in HF.
  assert (forall k, L !! k = Some a -> False).
  { intros k Hk. specialize (HF a (list_elem_of_lookup_2 _ _ _ Hk)). cbn in HF. lia. }
  destruct i, j; cbn in *; [done| | |f_equal; by apply IH]; exfalso; simplify_eq; eauto.
Qed.

(** Lemma: thread lookup is exact.  [get_thread] terminates; for a user thread id it returns the recorded
    thread with exactly that id, and null when the id's thread number is recorded with
    another version or lies below some recorded number; but an id above every recorded
    number reads the slot behind the last thread, and faults when that slot holds no
    thread. *)
Theorem get_thread_exact s L id :
  Table s L -> id_spacer_id < GLOBALID_TO_TID id ->
  (forall p, p ∈ L -> get_fld thread_id 0 s p = id -> get_thread id s = Done p s) /\
  (forall p, p ∈ L -> GLOBALID_TO_TID id <= tid_of s p -> (forall p', p' ∈ L -> get_fld thread_id 0 s p' <> id) ->
     get_thread id s = Done NULL s) /\
  ((forall p, p ∈ L -> tid_of s p < GLOBALID_TO_TID id) ->
   (forall p, record_threads s !! length L = Some p -> threads s !! p = None) -> get_thread id s = Fail Fault).
Proof.
  intros HT Hid. unfold get_thread, id_idle_id, id_main_id, id_privilege_id, id_scheduler_id, id_spacer_id in *.
  destruct (Z.eqb_spec (GLOBALID_TO_TID id) 1), (Z.eqb_spec (GLOBALID_TO_TID id) 2), (Z.eqb_spec (GLOBALID_TO_TID id) 3),
    (Z.eqb_spec (GLOBALID_TO_TID id) 4), (Z.eqb_spec (GLOBALID_TO_TID id) 5); try lia. cbn [orb].
  set (tid := GLOBALID_TO_TID id) in *. set (k := rank s tid L).
  split; [|split].
  - intros p Hp Ep. pose proof (table_member_rank s L p HT Hp) as Hk. unfold tid_of in Hk. rewrite Ep in Hk. fold tid k in Hk.
    apply run_done. wp_steps. eapply wp_find_thread; [done|]. fold k. wp_steps.
    eapply wp_arr; [rewrite index_nonneg, Nat2Z.id by lia; by apply (tb_at _ _ HT)|]. wp_steps.
    apply (wp_rd _ _ 0); [by apply (tb_tcb _ _ HT)|]. rewrite Ep, Z.eqb_refl. by wp_steps.
  - intros p Hp Hle Hno. assert (Hklt : (k < length L)%nat).
    { apply list_elem_of_lookup in Hp as [j Hj]. pose proof (rank_spec s tid L j p (tb_sorted _ _ HT) Hj).
      apply lookup_lt_Some in Hj. unfold k. lia. }
    destruct (lookup_lt_is_Some_2 L k Hklt) as [p' Hp']. pose proof (list_elem_of_lookup_2 _ _ _ Hp') as Hin.
    apply run_done. wp_steps. eapply wp_find_thread; [done|]. fold k. wp_steps.
    eapply wp_arr; [rewrite index_nonneg, Nat2Z.id by lia; by apply (tb_at _ _ HT)|]. wp_steps.
    apply (wp_rd _ _ 0); [by apply (tb_tcb _ _ HT)|]. specialize (Hno p' Hin). apply Z.eqb_neq in Hno as ->. by wp_steps.
  - intros Hall Hslot. assert (Hk : k = length L).
    { pose proof (rank_le s tid L) as Hrl. fold k in Hrl. destruct (decide (k = length L)) as [|Hne]; [done|exfalso].
      destruct (lookup_lt_is_Some_2 L k) as [p' Hp']; [lia|].
      pose proof (rank_spec s tid L k p' (tb_sorted _ _ HT) Hp') as Hrs. pose proof (Hall p' (list_elem_of_lookup_2 _ _ _ Hp')).
      fold k in Hrs. lia. }
    apply (fails_step get). wp_steps. apply fails_step. eapply wp_find_thread; [done|]. fold k. rewrite Hk.
    unfold arr. destruct (record_threads s !! length L) as [p|] eqn:Ep.
    + apply fails_step. wp_steps. rewrite index_nonneg, Nat2Z.id, Ep by lia. wp_steps. apply fails_bind.
      unfold rd, tcb. apply fails_bind, (fails_step get). wp_steps. by rewrite (Hslot p eq_refl).
    + apply fails_bind, (fails_step get). wp_steps. by rewrite index_nonneg, Nat2Z.id, Ep by lia.
Qed.

(** The table after an insertion at the rank of the new number. *)
Definition insert_at (s : kstate) (t : Z) (L : list Z) : list Z :=
  take (rank s (tid_of s t) L) L ++ t :: drop (rank s (tid_of s t) L) L.

Lemma length_insert_at s t L : length (insert_at s t L) = S (length L).
Proof. unfold insert_at. rewrite length_app, length_take. cbn. rewrite length_drop. pose proof (rank_le s (tid_of s t) L). lia. Qed.

Lemma lookup_insert_at s t L i :
  let k := rank s (tid_of s t) L in
  insert_at s t L !! i = if decide (i < k)%nat then L !! i else if decide (i = k) then Some t else L !! (i - 1)%nat.
Proof.
  intros k. unfold insert_at. fold k. pose proof (rank_le s (tid_of s t) L) as Hk. fold k in Hk.
  destruct (decide (i < k)%nat); [rewrite lookup_app_l by (rewrite length_take; lia); by rewrite lookup_take_lt|].
  rewrite lookup_app_r by (rewrite length_take; lia). rewrite length_take, Nat.min_l by lia.
  destruct (decide (i = k)) as [->|Hne]; [by rewrite Nat.sub_diag|].
  destruct (i - k)%nat as [|m] eqn:E; [lia|]. change (drop k L !! m = L !! (i - 1)%nat). rewrite lookup_drop. f_equal. lia.
Qed.

(** An array that holds the list with the new thread in it is a table of it. *)
Lemma table_inserted s A L t :
  Table s L -> is_tcb s t -> (forall p, p ∈ L -> tid_of s p <> tid_of s t) -> Z.of_nat (length L) < NUM_RECORDS ->
  length A = length (record_threads s) -> (forall i p, insert_at s t L !! i = Some p -> A !! i = Some p) ->
  Table (with_record_thread_count (u32 (record_thread_count s + 1)) (with_record_threads A s)) (insert_at s t L).
Proof.
  intros HT Ht Hfresh Hfit HA Hat. pose proof (tb_count _ _ HT) as Hc. pose proof (tb_len _ _ HT) as Hl. unfold NUM_RECORDS in *.
  constructor; cbn [record_thread_count record_threads with_record_thread_count with_record_threads].
  - rewrite length_insert_at, Hc, u32_small by lia. lia.
  - by rewrite HA.
  - rewrite length_insert_at. unfold NUM_RECORDS. lia.
  - exact Hat.
  - intros p Hp. unfold insert_at in Hp. apply elem_of_app in Hp as [Hp|Hp].
    + eapply elem_of_take in Hp as (i & Hi & _). apply (tb_tcb _ _ HT). by eapply list_elem_of_lookup_2.
    + apply elem_of_cons in Hp as [->|Hp]; [done|]. apply list_elem_of_lookup in Hp as [i Hi].
      rewrite lookup_drop in Hi. apply (tb_tcb _ _ HT). by eapply list_elem_of_lookup_2.
  - apply (sorted_at_rank s); [by apply (tb_sorted _ _ HT)|done|done].
Qed.

(** Shifting everything up from slot zero ends by reading the slot before the table. *)
Lemma shift_up_faults fuel j s :
  0 <= j < Z.of_nat (length (record_threads s)) -> Z.of_nat (length (record_threads s)) < 2 ^ 32 ->
  (Z.to_nat j < fuel)%nat -> fails (shift_up_loop fuel 0 j) Fault s.
Proof.
  revert j s. induction fuel as [|fuel IH]; intros j s Hj Hlen Hf; [lia|]. cbn [shift_up_loop].
  rewrite (proj2 (Z.leb_le 0 j)) by lia. destruct (decide (j = 0)) as [->|Hne].
  - apply fails_bind. unfold arr. apply (fails_step get). wp_steps.
    unfold index. change (u32 (0 - 1)) with 4294967295. cbn [Z.ltb Z.compare]. rewrite lookup_ge_None_2 by lia. done.
  - rewrite u32_small by lia. apply fails_step.
    destruct (lookup_lt_is_Some_2 (record_threads s) (Z.to_nat (j - 1))) as [v Hv]; [lia|].
    eapply wp_arr; [by rewrite index_nonneg by lia|]. apply fails_step. apply wp_set_record; [lia|].
    apply IH; [cbn; rewrite length_insert; lia|cbn; by rewrite length_insert|lia].
Qed.

(** Lemma: recording a thread.  When the table has room and does not hold the thread's number yet,
    [add_to_threads] puts the thread at the rank of its number and keeps the table
    sorted, so that the thread is found again, provided the table was empty or the
    new number is not the smallest; a new smallest number makes the loop read the
    slot before the table. *)
Theorem add_to_threads_inserts s L t :
  Table s L -> is_tcb s t -> (forall p, p ∈ L -> tid_of s p <> tid_of s t) -> Z.of_nat (length L) < NUM_RECORDS ->
  (L = [] \/ (0 < rank s (tid_of s t) L)%nat ->
     exists s', add_to_threads (tid_of s t) t s = Done tt s' /\ Table s' (insert_at s t L) /\
                (forall p, threads s' !! p = threads s !! p)) /\
  (L <> [] -> rank s (tid_of s t) L = 0%nat -> add_to_threads (tid_of s t) t s = Fail Fault).
Proof.
  intros HT Ht Hfresh Hfit. pose proof (tb_count _ _ HT) as Hc. pose proof (tb_len _ _ HT) as Hl. unfold NUM_RECORDS in *.
  pose proof (table_inserted s) as Hins. pose proof (rank_le s (tid_of s t) L) as Hrl. split.
  - intros HL. apply run_unit. unfold add_to_threads. wp_steps. destruct (Z.eqb_spec (record_thread_count s) 0) as [E|E].
    + assert (L = []) as -> by (destruct L; [done|cbn in Hc; lia]). wp_steps. apply wp_set_record; [cbn [record_threads with_record_thread_count]; lia|].
      split; [|done]. cbn [record_thread_count record_threads with_record_thread_count].
      apply (Hins (<[Z.to_nat (record_thread_count s) := t]> (record_threads s)) [] t HT); [done|done|done|apply length_insert|].
      rewrite E. intros [|i] p Hp; [|done].
      injection Hp as ->. apply list_lookup_insert_eq. lia.
    + destruct HL as [->|HL]; [by cbn in Hc|]. wp_steps. eapply wp_find_thread; [done|]. wp_steps.
      set (k := rank s (tid_of s t) L) in *.
      apply wp_shift_up; [lia|lia|lia|lia|lia|]. intros A HA HAk. wp_steps. apply wp_set_record; [cbn; lia|]. wp_steps.
      split; [|done]. cbn [record_threads with_record_threads]. rewrite Nat2Z.id.
      change (Table (with_record_thread_count (u32 (record_thread_count s + 1)) (with_record_threads (<[k:=t]> A) s)) (insert_at s t L)).
      apply Hins; [done|done|done|unfold NUM_RECORDS; lia|by rewrite length_insert|].
      intros i p Hi. rewrite lookup_insert_at in Hi. fold k in Hi. destruct (decide (i < k)%nat).
      * rewrite list_lookup_insert_ne, HAk by lia. rewrite decide_False by lia. by apply (tb_at _ _ HT).
      * destruct (decide (i = k)) as [->|]; [injection Hi as ->; by rewrite list_lookup_insert_eq by lia|].
        rewrite list_lookup_insert_ne, HAk by lia. pose proof (lookup_lt_Some _ _ _ Hi). rewrite decide_True by lia.
        by apply (tb_at _ _ HT).
  - intros HL Hk. unfold add_to_threads. apply (fails_step get). wp_steps.
    destruct (Z.eqb_spec (record_thread_count s) 0) as [E|E]; [destruct L; [done|cbn in Hc; lia]|].
    apply fails_step. eapply wp_find_thread; [done|]. rewrite Hk. apply fails_bind.
    apply shift_up_faults; lia.
Qed.

Lemma table_removed s A L1 t L2 :
  Table s (L1 ++ t :: L2) -> length A = length (record_threads s) -> (forall i p, (L1 ++ L2) !! i = Some p -> A !! i = Some p) ->
  Table (with_record_threads A (with_record_thread_count (u32 (record_thread_count s - 1)) s)) (L1 ++ L2).
Proof.
  intros HT HA Hat. pose proof (tb_count _ _ HT) as Hc. pose proof (tb_len _ _ HT) as Hl. pose proof (tb_fit _ _ HT) as Hf.
  rewrite length_app in Hc, Hf. cbn [length] in Hc, Hf. unfold NUM_RECORDS in *.
  constructor; cbn [record_thread_count record_threads with_record_thread_count with_record_threads].
  - rewrite length_app, Hc, u32_small by lia. lia.
  - by rewrite HA.
  - rewrite length_app. unfold NUM_RECORDS. lia.
  - exact Hat.
  - intros p Hp. apply (tb_tcb _ _ HT). set_solver.
  - pose proof (tb_sorted _ _ HT) as HS. clear -HS. induction L1 as [|a L1 IH]; cbn in *; inversion_clear HS; [done|].
    constructor; [by apply IH|]. rewrite Forall_app, Forall_cons in *. tauto.
Qed.

(** Lemma: forgetting a thread.  [delete_from_threads] removes exactly the thread with the given number
    from the table and keeps the others in order; the count drops by one and no thread
    control block changes. *)
Theorem delete_from_threads_removes s L1 t L2 :
  Table s (L1 ++ t :: L2) ->
  exists s', delete_from_threads (tid_of s t) s = Done tt s' /\ Table s' (L1 ++ L2) /\ threads s' = threads s.
Proof.
  intros HT. pose proof (tb_count _ _ HT) as Hc. pose proof (tb_len _ _ HT) as Hl. pose proof (tb_fit _ _ HT) as Hf.
  assert (Hk : rank s (tid_of s t) (L1 ++ t :: L2) = length L1).
  { assert (Hin : t ∈ L1 ++ t :: L2) by set_solver. pose proof (table_member_rank s _ t HT Hin) as Hr.
    apply (sorted_unique_index s (L1 ++ t :: L2) _ _ t); [by apply (tb_sorted _ _ HT)|done|].
    rewrite lookup_app_r, Nat.sub_diag by lia. done. }
  rewrite length_app in Hc, Hf. cbn [length] in Hc, Hf. unfold NUM_RECORDS in *.
  apply run_unit. unfold delete_from_threads. wp_steps. destruct (Z.eqb_spec (record_thread_count s) 1) as [E|E].
  - assert (L1 = []) as -> by (apply length_zero_iff_nil; lia). assert (L2 = []) as -> by (apply length_zero_iff_nil; lia).
    wp_steps. split; [|done]. replace (with_record_thread_count (u32 (record_thread_count s - 1)) s) with
      (with_record_threads (record_threads s) (with_record_thread_count (u32 (record_thread_count s - 1)) s)) by (by destruct s).
    by apply (table_removed s _ [] t []).
  - wp_steps. eapply wp_find_thread; [done|]. rewrite Hk. wp_steps. rewrite (u32_small (record_thread_count s - 1)) by lia.
    apply wp_shift_down; [lia|lia| |cbn [record_threads with_record_thread_count]; lia| |];
      [cbn [record_threads with_record_thread_count]; lia|lia|].
    cbn [record_threads with_record_thread_count]. intros A HA HAk. split; [|done].
    rewrite <- (u32_small (record_thread_count s - 1)) by lia. apply (table_removed s A L1 t L2); [done|done|].
    intros i p Hi. rewrite HAk. destruct (decide (i < length L1)%nat).
    + rewrite decide_False by lia. apply (tb_at _ _ HT). rewrite lookup_app_l in Hi |- * by lia. done.
    + pose proof (lookup_lt_Some _ _ _ Hi) as Hlt. rewrite length_app in Hlt. rewrite decide_True by lia. apply (tb_at _ _ HT).
      rewrite lookup_app_r in Hi |- * by lia. by replace (S i - length L1)%nat with (S (i - length L1)) by lia.
Qed.

End TableTheorems.

(** ** Witnesses *)

(** A kernel with two user threads, numbers 9 and 12, in the table, and a third one,
    number 10, that is not. *)
Definition demo_thread (id : Z) : ktcb := with_thread_id (TID_TO_GLOBALID id) zero_tcb.

Definition demo_table : kstate :=
  with_record_thread_count 2 (with_record_threads (5000 :: 6000 :: replicate 254 0)
    (@bss_state test_config {[5000 := demo_thread 9; 6000 := demo_thread 12; 7000 := demo_thread 10]} ∅)).

Lemma demo_table_ok : Table demo_table [5000; 6000].
Proof.
  constructor; [done|done|done| | |].
  - intros [|[|i]] p Hp; [by injection Hp as <-..|done].
  - intros p Hp. apply elem_of_cons in Hp as [->|Hp]; [by eexists|]. apply list_elem_of_singleton in Hp as ->. by eexists.
  - repeat constructor; vm_compute; done.
Defined.

Section Witnesses.
Local Existing Instance sim_platform.

Lemma get_thread_exact_witness :
  get_thread (TID_TO_GLOBALID 12) demo_table = Done 6000 demo_table /\
  get_thread (TID_TO_GLOBALID 10) demo_table = Done NULL demo_table /\
  get_thread (TID_TO_GLOBALID 13) demo_table = Fail Fault.
Proof.
  pose proof demo_table_ok as HT. split; [|split].
  - apply (proj1 (get_thread_exact demo_table _ (TID_TO_GLOBALID 12) HT ltac:(vm_compute; done)) 6000); [set_solver|done].
  - apply (proj1 (proj2 (get_thread_exact demo_table _ (TID_TO_GLOBALID 10) HT ltac:(vm_compute; done))) 6000);
      [set_solver|vm_compute; done|].
    intros p Hp. apply elem_of_cons in Hp as [->|Hp]; [vm_compute; done|]. apply list_elem_of_singleton in Hp as ->. vm_compute; done.
  - apply (proj2 (proj2 (get_thread_exact demo_table _ (TID_TO_GLOBALID 13) HT ltac:(vm_compute; done)))).
    + intros p Hp. apply elem_of_cons in Hp as [->|Hp]; [vm_compute; done|]. apply list_elem_of_singleton in Hp as ->. vm_compute; done.
    + intros p Hp. injection Hp as <-. done.
Defined.

Lemma add_to_threads_inserts_witness :
  exists s', add_to_threads 10 7000 demo_table = Done tt s' /\ Table s' [5000; 7000; 6000].
Proof.
  destruct (add_to_threads_inserts demo_table [5000; 6000] 7000 demo_table_ok) as [Hins _]; [by eexists| |done|].
  - intros p Hp. apply elem_of_cons in Hp as [->|Hp]; [vm_compute; done|]. apply list_elem_of_singleton in Hp as ->. vm_compute; done.
  - destruct Hins as (s' & Hrun & HT & _); [right; vm_compute; lia|]. exists s'. split; [exact Hrun|exact HT].
Defined.

Lemma delete_from_threads_removes_witness :
  exists s', delete_from_threads 9 demo_table = Done tt s' /\ Table s' [6000].
Proof.
  destruct (delete_from_threads_removes demo_table [] 5000 [6000] demo_table_ok) as (s' & Hrun & HT & _).
  exists s'. split; [exact Hrun|exact HT].
Defined.

End Witnesses.
