(* ===== verification/TcbCore.v ===== *)
(** * Threads: creation, scheduling parameters and resumption

    Models the parts of [src/object/tcb.c] that IPC is built on: initialisation of a
    thread control block, allocation and release, resuming, scheduling contexts, domains,
    yielding and donation.  Stack filling, stack information, names and the monitor list,
    which the kernel keeps only under build options, are not part of the state. *)

From Stdlib Require Import ZArith Lia Bool List.
From stdpp Require Import base tactics numbers list gmap.
From S2P Require Import Prelude TimeConv Sporadic DList DNode KState TimeList ReadyQueue Sched ThreadTable.

Local Open Scope Z_scope.

Definition obj_thread_obj : Z := 14.
Definition obj_sched_context_obj : Z := 16.
Definition option_essential_option : Z := BIT 0.
Definition option_user_option : Z := BIT 2.

Section TcbCore.
Context `{Config} `{Platform}.

Definition is_thread_in_isr : K bool := gets arch_is_in_isr.

(** Without [CONFIG_STACK_POINTER_RANDOM]. *)
Definition adjust_stack_size (stack_size : Z) : Z := stack_size.

(** ** Initialisation *)

Definition set_base (state option : Z) (t : ktcb) : ktcb :=
  let t := with_option_ (u8 option) t in
  let t := with_obj_state (u32 state) t in
  let t := with_sched_prior 0 t in
  let t := with_sched_locked 0 t in
  let t := with_mcp 0 t in
  let t := with_domain 0 t in
  let t := with_level 0 t in
  with_swap_data NULL t.

Definition thread_init (thread options : Z) : K Z :=
  assert_ (negb (thread =? NULL));;
  wr thread (set_base state_restart_state options);;
  wr thread (with_abort_handle false);;
  wr thread (with_ready_q_next NULL);;
  wr thread (with_ready_q_prev NULL);;
  wr thread (with_mesg_q_next NULL);;
  wr thread (with_mesg_q_prev NULL);;
  wr thread (with_yield NULL);;
  wr thread (with_notifation_node NULL);;
  mret thread.

Definition thread_deinit (thread : Z) : K unit :=
  assert_ (negb (thread =? NULL));;
  id ← rd thread_id thread;
  delete_from_threads (GLOBALID_TO_TID id).

(** The option bits of [thread_user_mode_enter]; the mode switch itself does not return. *)
Definition thread_user_mode_enter_options : K unit :=
  c ← cur;
  o ← rd option_ c;
  wr c (with_option_ (u8 (Z.lor o option_user_option)));;
  o ← rd option_ c;
  wr c (with_option_ (u8 (Z.land o (not32 option_essential_option)))).

Definition thread_alloc (id : Z) : K Z :=
  if negb (is_user_vaild id) then mret NULL
  else
    c ← cur;
    cid ← rd thread_id c;
    if id =? cid then mret c
    else
      new_thread ← d_object_alloc obj_thread_obj;
      new_sched ← d_object_alloc obj_sched_context_obj;
      if (new_thread =? NULL) || (new_sched =? NULL) then mret NULL
      else
        wr new_thread (with_thread_id id);;
        wr new_thread (with_sched new_sched);;
        add_to_threads (GLOBALID_TO_TID id) new_thread;;
        mret new_thread.

(** The scheduling context is read from the thread after the thread was freed. *)
Definition thread_free (thread : Z) : K unit :=
  d_object_free thread;;
  sp ← rd sched thread;
  d_object_free sp.

Definition prepare_start_thread (thread : Z) : K unit :=
  st ← rd has_thread_started thread;
  if negb st then
    marktcb_as_started thread;;
    q ← rd is_thread_queued thread;
    r ← rd is_thread_ready thread;
    if negb q && r then add_to_ready_q thread else skip
  else skip.

(** ** Resuming *)

Definition thread_resume (thread : Z) : K unit :=
  assert_ (negb (thread =? NULL));;
  assert_m (w ← get_thread_object_state thread; mret (negb (w =? state_dummy_state)));;
  pending ← rd is_thread_pending thread;
  if (pending : bool) then skip
  else
    r ← rd is_thread_ready thread;
    (if (r : bool) then
       sp ← rd sched thread;
       ready ← thread_refill_ready sp;
       suff ← (if (ready : bool) then thread_refill_sufficient sp 0 else mret false);
       if negb suff then postpone_from_ready_q thread else skip
     else skip);;
    marktcb_as_not_suspended thread;;
    isr ← is_thread_in_isr;
    (if negb isr then reschedule_unlocked else skip);;
    reschedule_required.

Definition update_context_schedule (thread : Z) : K unit :=
  assert_ (negb (thread =? NULL));;
  thread_resume thread;;
  run ← rd is_runnable thread;
  c ← cur;
  (if run && negb (thread =? c) then possible_switchto thread else skip);;
  c ← cur;
  if thread =? c then reschedule_required else skip.

(** [thread->sched->refill_max > 0] guards the update at the end of two routines. *)
Definition update_active_context (thread : Z) : K unit :=
  sp ← rd sched thread;
  sc ← rd_sched sp;
  if 0 <? refill_max sc then update_context_schedule thread else skip.

(** ** Scheduling parameters *)

Definition set_schedule_context (thread budget period max_refills : Z) : K unit :=
  assert_m (if thread =? NULL then mret false else sp ← rd sched thread; mret (negb (sp =? NULL)));;
  b ← is_schedulable thread;
  (if (b : bool) then
     release_remove thread;;
     sched_dequeue thread;;
     c ← cur;
     if c =? thread then
       ok ← check_budget;
       if (ok : bool) then commit_time else skip
     else skip
   else skip);;
  let '(period, max_refills) := if budget =? period then (0, MIN_REFILLS) else (period, max_refills) in
  b ← is_schedulable thread;
  sp ← rd sched thread;
  s ← get_state;
  (if (b : bool) then on_sched sp (refill_update (current_time s) period budget max_refills)
   else on_sched sp (refill_new (current_time s) max_refills budget period));;
  update_active_context thread.

Definition set_domain (thread dom : Z) : K unit :=
  assert_ (negb (thread =? NULL));;
  b ← is_schedulable thread;
  (if (b : bool) then
     sched_dequeue thread;;
     wr thread (with_domain dom);;
     sched_enqueue thread
   else wr thread (with_domain dom));;
  c ← cur;
  if thread =? c then reschedule_required else skip.

(** ** Yielding and donation *)

Definition thread_yield (thread : Z) : K unit :=
  assert_ (negb (thread =? NULL));;
  s ← get_state;
  assert_ (negb (arch_is_in_isr s));;
  y ← rd yield thread;
  (if negb (y =? NULL) then
     update_consumed y;;
     cancel_yield thread;;
     assert_m (y ← rd yield thread; mret (y =? NULL))
   else skip);;
  thread_resume thread;;
  b ← is_schedulable thread;
  return_now ←
    (if (b : bool) then
       sp ← rd sched thread;
       s ← get_state;
       on_sched sp (refill_noblock_check (current_time s));;
       c ← cur;
       p1 ← rd sched_prior thread;
       p2 ← rd sched_prior c;
       if p1 <? p2 then
         sched_dequeue thread;;
         sched_enqueue thread;;
         mret true
       else
         wr c (with_yield thread);;
         sched_dequeue thread;;
         sched_dequeue c;;
         sched_enqueue c;;
         sched_enqueue thread;;
         reschedule_required;;
         mret false
     else mret true);
  if (return_now : bool) then update_consumed thread else skip.

Definition thread_donate (src dest : Z) : K unit :=
  assert_ (negb (src =? NULL));;
  assert_ (negb (dest =? NULL));;
  b1 ← is_schedulable src;
  b2 ← (if (b1 : bool) then is_schedulable dest else mret true);
  (if b1 && negb b2 then
     sched_dequeue src;;
     marktcb_as_not_queued src;;
     wr src (with_sched NULL)
   else skip);;
  c ← cur;
  (if src =? c then reschedule_required else skip);;
  update_active_context dest.

End TcbCore.
