(* ===== verification/Ipc.v ===== *)
(** * Messages and signals

    Models [inc/object/ipc.h] and [src/object/ipc.c] up to [reorder_noticenode]: message
    registers and their encodings, the transfer of a message, sending, receiving and
    cancelling over a message node, and the signals of a notification node.  The page
    operations of typed items ([src/object/anode.c]) are the class [Services]. *)

From Stdlib Require Import ZArith Lia Bool List.
From stdpp Require Import base tactics numbers list gmap.
From S2P Require Import Prelude TimeConv Sporadic DList DNode KState TimeList ReadyQueue Sched ThreadTable TcbCore.

Local Open Scope Z_scope.

(** ** Constants *)

Definition MESSAGE_REGISTER_NUM : Z := 16.
Definition STRING_ITEM : Z := Z.shiftl 1 3.
Definition MAP_ITEM : Z := Z.shiftl 1 3.
Definition GRANT_ITEM : Z := Z.lor (Z.shiftl 1 3) (Z.shiftl 1 1).
Definition CTRLXFER_ITEM : Z := Z.lor (Z.shiftl 1 3) (Z.shiftl 1 2).

Definition TCR_INVAL_PARA : Z := Z.shiftl 1 4.
Definition IPC_SEND_PHASE : Z := Z.shiftl 1 17.
Definition IPC_RECV_PHASE : Z := Z.shiftl 1 18.
Definition IPC_TIMEOUT : Z := Z.shiftl 1 19.
Definition IPC_NOT_EXIST : Z := Z.shiftl 1 20.
Definition IPC_CANCELED : Z := Z.shiftl 1 21.
Definition IPC_MSG_OVERFLOW : Z := Z.shiftl 1 22.

Definition obj_message_obj : Z := 6.
Definition obj_notification_obj : Z := 8.

(** ** Encodings *)

(** [message_tag_t]: u in bits 0-5, t in bits 6-11, flag in bits 12-15, label in bits 16-31. *)
Definition message_get_tag_u (tag : Z) : Z := Z.land tag 63.
Definition message_get_tag_t (tag : Z) : Z := Z.land (Z.shiftr tag 6) 63.
Definition message_get_tag_flag (tag : Z) : Z := Z.land (Z.shiftr tag 12) 15.
Definition message_get_tag_label (tag : Z) : Z := Z.land (Z.shiftr tag 16) 65535.
Definition message_get_tag (tag : Z) : Z := tag.
(** [tag.s.flag |= flag]. *)
Definition tag_or_flag (tag flag : Z) : Z := Z.lor tag (Z.shiftl (Z.land flag 15) 12).

(** The two words of a typed item. *)
Record message_gmsc_items := mk_item { raw0 : Z; raw1 : Z }.

Definition message_get_encode (i : message_gmsc_items) : Z := Z.land (raw0 i) 15.
Definition message_get_base (i : message_gmsc_items) : Z := Z.land (raw0 i) (not32 1023).
Definition message_get_page (i : message_gmsc_items) : Z := Z.shiftr (Z.land (raw1 i) (not32 15)) 4.
Definition message_get_right (i : message_gmsc_items) : Z := Z.land (raw1 i) 15.
Definition message_get_length (i : message_gmsc_items) : Z := Z.shiftr (Z.land (raw0 i) (not32 1023)) 10.
Definition message_get_address (i : message_gmsc_items) : Z := raw1 i.
Definition message_get_id (i : message_gmsc_items) : Z := Z.shiftr (Z.land (raw0 i) 4080) 4.
Definition message_get_mask (i : message_gmsc_items) : Z := Z.shiftr (Z.land (raw0 i) (not32 4095)) 12.
Definition message_get_reg (i : message_gmsc_items) : Z := raw1 i.

(** [message_time_t], a half word: period m in bits 0-9, e in bits 10-14; point m in bits
    0-9, c in bit 10, e in bits 11-14. *)
Definition message_time_period_m (t : Z) : Z := Z.land t 1023.
Definition message_time_period_e (t : Z) : Z := Z.land (Z.shiftr t 10) 31.
Definition message_time_point_m (t : Z) : Z := Z.land t 1023.
Definition message_time_point_c (t : Z) : Z := Z.land (Z.shiftr t 10) 1.
Definition message_time_point_e (t : Z) : Z := Z.land (Z.shiftr t 11) 15.

(** What typed items are handed to, and the contents of automatic variables that are read
    before they are written: [stale i s] is the unwritten half of the item at word [i]. *)
Class Services := {
  do_map_page : Z -> Z -> Z -> Z -> K Z;
  do_guard_page : Z -> Z -> Z -> Z -> Z -> K Z;
  do_map_string : Z -> Z -> Z -> K Z;
  stale : Z -> kstate -> Z;
}.

Section Ipc.
Context `{Config} `{Platform} `{Services}.

(** ** Message registers *)

Definition load_mr (from i : Z) : K Z := m ← rd mr from; ofopt (index m i).
Definition store_mr (to i v : Z) : K unit :=
  m ← rd mr to; ofopt (index m i);; wr to (with_mr (<[Z.to_nat i := v]> m)).

(** [from->user->mr[i]]. *)
Definition load_utcb (from i : Z) : K Z :=
  u ← rd user from; s ← get_state; m ← ofopt (utcbs s !! u); ofopt (index m i).
Definition store_utcb (to i v : Z) : K unit :=
  u ← rd user to; s ← get_state; m ← ofopt (utcbs s !! u); ofopt (index m i);;
  modify (fun s => with_utcbs (<[u := <[Z.to_nat i := v]> m]> (utcbs s)) s).

Definition load_message_registers (from msg_num : Z) : K Z :=
  if msg_num =? 0 then load_mr from 5
  else if msg_num =? 1 then load_mr from 6
  else if msg_num =? 2 then load_mr from 7
  else load_utcb from (u32 (msg_num - 8)).

Definition store_message_registers (to msg_num msg_data : Z) : K unit :=
  if msg_num =? 0 then store_mr to 5 msg_data
  else if msg_num =? 1 then store_mr to 6 msg_data
  else if msg_num =? 2 then store_mr to 7 msg_data
  else store_utcb to (u32 (msg_num - 8)) msg_data.

Definition set_message_ipcflag (thread flag : Z) : K unit :=
  tag ← load_message_registers thread 0;
  store_message_registers thread 0 (tag_or_flag tag flag).

Definition get_message_ipcflag (thread : Z) : K Z :=
  tag ← load_message_registers thread 0; mret (message_get_tag_flag tag).

(** ** Transfer of a message *)

(** [do_control_registers] of [src/arch/registers.c]. *)
Definition do_control_registers (thread id mask reg : Z) : K Z := mret EXCEPTION_NONE.

(** [for (untyped_item_index = 1; untyped_item_index < untyped_item_last; untyped_item_last++)]:
    the bound is incremented, so the loop runs until the bound wraps to zero. *)
Fixpoint untyped_loop (fuel : nat) (s_thread r_thread index last : Z) : K unit :=
  match fuel with
  | O => fail OutOfFuel
  | S fuel =>
    if index <? last then
      w ← load_message_registers s_thread index;
      store_message_registers r_thread index w;;
      untyped_loop fuel s_thread r_thread index (u32 (last + 1))
    else skip
  end.

(** The four encodings a complete item is tested for. *)
Definition typed_item_effect (s_thread r_thread : Z) (item : message_gmsc_items) : K unit :=
  (if message_get_encode item =? MAP_ITEM
   then do_map_page r_thread (message_get_base item) (message_get_page item) (message_get_right item);; skip
   else skip);;
  (if message_get_encode item =? GRANT_ITEM
   then do_guard_page s_thread r_thread (message_get_base item) (message_get_page item) (message_get_right item);; skip
   else skip);;
  (if message_get_encode item =? STRING_ITEM
   then do_map_string r_thread (message_get_length item) (message_get_address item);; skip
   else skip);;
  (if message_get_encode item =? CTRLXFER_ITEM
   then do_control_registers r_thread (message_get_id item) (message_get_mask item) (message_get_reg item);; skip
   else skip).

(** Every round has a fresh item variable: the half that this round does not load is
    indeterminate, and it is the half that is stored in the receiver. *)
Fixpoint typed_loop (fuel : nat) (s_thread r_thread gmsc_item_index gmsc_item_last gmsc_item_word : Z) : K unit :=
  match fuel with
  | O => fail OutOfFuel
  | S fuel =>
    if gmsc_item_index <? gmsc_item_last then
      w ← load_message_registers s_thread gmsc_item_index;
      u ← gets (stale gmsc_item_index);
      if gmsc_item_word =? 0 then
        store_message_registers r_thread gmsc_item_index u;;
        typed_loop fuel s_thread r_thread (gmsc_item_index + 1) gmsc_item_last 1
      else
        store_message_registers r_thread gmsc_item_index u;;
        typed_item_effect s_thread r_thread (mk_item u w);;
        typed_loop fuel s_thread r_thread (gmsc_item_index + 1) gmsc_item_last 0
    else skip
  end.

(** [message_exchange] once the tag is loaded. *)
Definition transfer (s_thread r_thread send_msg_tag : Z) : K Z :=
  let untyped_item_last := message_get_tag_u send_msg_tag + 1 in
  let gmsc_item_last := message_get_tag_t send_msg_tag + untyped_item_last in
  if MESSAGE_REGISTER_NUM <? gmsc_item_last then
    modify (with_current_kernel_status_code IPC_MSG_OVERFLOW);;
    set_thread_state s_thread state_queued_state;;
    set_thread_state r_thread state_queued_state;;
    mret EXCEPTION_FAULT
  else
    store_message_registers r_thread 0 (message_get_tag send_msg_tag);;
    (if 1 <? untyped_item_last
     then untyped_loop (Z.to_nat (2 ^ 32)) s_thread r_thread 1 untyped_item_last
     else skip);;
    typed_loop (Z.to_nat (gmsc_item_last + 1)) s_thread r_thread 1 gmsc_item_last 0;;
    mret EXCEPTION_NONE.

Definition message_exchange (s_thread r_thread : Z) : K Z :=
  assert_ (negb (s_thread =? NULL) && negb (r_thread =? NULL));;
  send_msg_tag ← load_message_registers s_thread 0;
  transfer s_thread r_thread send_msg_tag.

(** ** Message and notification nodes *)

Definition message_node_alloc (thread : Z) : K Z :=
  node ← d_object_alloc obj_message_obj;
  if node =? NULL then mret NULL
  else wr thread (with_message_node node);; mret node.

Definition message_node_free (thread : Z) : K unit :=
  n ← rd message_node thread; d_object_free n;; wr thread (with_message_node NULL).

Definition notifation_node_alloc (thread : Z) : K Z :=
  node ← d_object_alloc obj_notification_obj;
  if node =? NULL then mret NULL
  else wr thread (with_notifation_node node);; mret node.

Definition notifation_node_free (thread : Z) : K unit :=
  n ← rd notifation_node thread; d_object_free n;; wr thread (with_notifation_node NULL).

(** [assert(p->sched == NULL || refill_...(p->sched))]. *)
Definition assert_sched_or (p : Z) (test : Z -> K bool) : K unit :=
  assert_m (sp ← rd sched p; if sp =? NULL then mret true else test sp).

(** The thread waits in the queue of the node, which enters state [st]. *)
Definition block_on_message (thread node blocked : Z) (st : message_state) : K unit :=
  set_thread_state thread blocked;;
  set_thread_state_object thread node;;
  schedule_tcb thread;;
  n ← rd_msg node;
  queue ← message_append thread (msg_queue n);
  wr_msg node (with_msg_state st);;
  wr_msg node (with_msg_queue queue).

(** [queue] becomes the node's queue; an empty one makes the node idle. *)
Definition store_message_queue (node : Z) (queue : tcb_queue) : K unit :=
  (if q_head queue =? NULL then wr_msg node (with_msg_state message_state_idle) else skip);;
  wr_msg node (with_msg_queue queue).

Definition send_ipc (thread : Z) (blocking candonate : bool) (node : Z) : K unit :=
  assert_ (negb (thread =? NULL));;
  assert_ (negb (node =? NULL));;
  n ← rd_msg node;
  match msg_state n with
  | message_state_idle | message_state_send =>
    if blocking then block_on_message thread node state_send_blocked_state message_state_send else skip
  | message_state_recv =>
    let r_thread := q_head (msg_queue n) in
    assert_ (negb (r_thread =? NULL));;
    queue ← message_dequeue r_thread (msg_queue n);
    store_message_queue node queue;;
    e ← message_exchange thread r_thread;
    if e =? EXCEPTION_NONE then
      sp ← rd sched r_thread;
      (if candonate && (sp =? NULL) then thread_donate thread r_thread else skip);;
      assert_sched_or r_thread (fun sp => thread_refill_sufficient sp 0);;
      assert_sched_or r_thread thread_refill_ready;;
      set_thread_state r_thread state_queued_state;;
      possible_switchto r_thread
    else skip
  end.

Definition complete_signal (thread node : Z) : K unit :=
  assert_ (negb (thread =? NULL) && negb (node =? NULL));;
  n ← rd_ntf node;
  if negb (thread =? NULL) && bool_decide (ntf_state n = notifation_state_active) then
    wr_ntf node (with_ntf_state notifation_state_idle);;
    wr thread (with_notifation_node node)
  else skip.

Definition receive_ipc (thread : Z) (blocking : bool) (node : Z) : K unit :=
  assert_ (negb (thread =? NULL));;
  assert_ (negb (node =? NULL));;
  not_node ← rd notifation_node thread;
  signalled ← (if not_node =? NULL then mret false
               else n ← rd_ntf not_node; mret (bool_decide (ntf_state n = notifation_state_active)));
  if (signalled : bool) then complete_signal thread not_node
  else
    n ← rd_msg node;
    match msg_state n with
    | message_state_idle | message_state_recv =>
      if blocking then block_on_message thread node state_recv_blocked_state message_state_recv else skip
    | message_state_send =>
      let s_thread := q_head (msg_queue n) in
      assert_ (negb (s_thread =? NULL));;
      queue ← message_dequeue s_thread (msg_queue n);
      wr_msg node (with_msg_queue queue);;
      (if q_head queue =? NULL then wr_msg node (with_msg_state message_state_idle) else skip);;
      e ← message_exchange s_thread thread;
      if e =? EXCEPTION_NONE then
        set_thread_state s_thread state_queued_state;;
        possible_switchto s_thread;;
        assert_sched_or s_thread (fun sp => thread_refill_sufficient sp 0)
      else skip
    end.

(** ** Signals *)

(** [thread] leaves the queue of the notification node. *)
Definition dequeue_notifation (thread node : Z) : K unit :=
  n ← rd_ntf node;
  queue ← message_dequeue thread (ntf_queue n);
  wr_ntf node (with_ntf_queue queue);;
  if q_head queue =? NULL then wr_ntf node (with_ntf_state notifation_state_idle) else skip.

Definition cancel_signal (thread node : Z) : K unit :=
  assert_m (n ← rd_ntf node;
            mret (bool_decide (ntf_state n = notifation_state_wait) && negb (thread =? NULL) && negb (node =? NULL)));;
  dequeue_notifation thread node;;
  set_thread_state thread state_restart_state.

Definition cancel_ipc (thread : Z) : K unit :=
  assert_ (negb (thread =? NULL));;
  state ← get_thread_object_state thread;
  if (state =? state_send_blocked_state) || (state =? state_recv_blocked_state) then
    node ← get_thread_state_object thread;
    n ← rd_msg node;
    assert_ (negb (bool_decide (msg_state n = message_state_idle)));;
    queue ← message_dequeue thread (msg_queue n);
    wr_msg node (with_msg_queue queue);;
    (if q_head queue =? NULL then wr_msg node (with_msg_state message_state_idle) else skip);;
    set_thread_state thread state_restart_state
  else if state =? state_notify_blocked_state then
    n ← rd notifation_node thread;
    cancel_signal thread n
  else skip.

Definition reorder_message_node (thread : Z) : K unit :=
  assert_ (negb (thread =? NULL));;
  node ← get_thread_state_object thread;
  n ← rd_msg node;
  queue ← message_dequeue thread (msg_queue n);
  queue ← message_append thread queue;
  wr_msg node (with_msg_queue queue).

Definition possible_donate_context (thread node : Z) : K unit :=
  sp ← rd sched thread;
  if sp =? NULL then
    n ← rd_ntf node;
    if negb (bindedtcb n =? NULL) then
      thread_donate (bindedtcb n) thread;;
      sp ← rd sched thread;
      s ← get_state;
      on_sched sp (refill_noblock_check (current_time s));;
      thread_resume thread
    else skip
  else skip.

Definition possible_reset_context (thread node : Z) : K unit :=
  n ← rd_ntf node;
  b ← rd sched (bindedtcb n);
  t ← rd sched thread;
  if b =? t then wr thread (with_sched NULL) else skip.

(** In builds with assertions the active case prints [dest->thread_id] of a variable that was
    never assigned; the access through an undefined pointer is a [Fault]. *)
Definition send_signal (node : Z) : K unit :=
  assert_ (negb (node =? NULL));;
  n ← rd_ntf node;
  let thread := bindedtcb n in
  match ntf_state n with
  | notifation_state_idle =>
    if negb (thread =? NULL) then
      state ← rd obj_state thread;
      if state =? state_recv_blocked_state then
        cancel_ipc thread;;
        set_thread_state thread state_queued_state;;
        possible_donate_context thread node;;
        b ← is_schedulable thread;
        if (b : bool) then possible_switchto thread else skip
      else wr_ntf node (with_ntf_state notifation_state_active)
    else wr_ntf node (with_ntf_state notifation_state_active)
  | notifation_state_wait =>
    let dest := q_head (ntf_queue n) in
    assert_ (negb (dest =? NULL));;
    dequeue_notifation dest node;;
    wr dest (with_notifation_node node);;
    set_thread_state dest state_queued_state;;
    possible_donate_context thread node;;
    b ← is_schedulable dest;
    if (b : bool) then possible_switchto dest else skip
  | notifation_state_active => if CONFIG_ASSERT then fail Fault else skip
  end.

Definition recevie_signal (thread node : Z) (blocking : bool) : K unit :=
  assert_ (negb (thread =? NULL));;
  assert_ (negb (node =? NULL));;
  n ← rd_ntf node;
  match ntf_state n with
  | notifation_state_idle | notifation_state_wait =>
    if blocking then
      set_thread_state thread state_notify_blocked_state;;
      possible_reset_context thread node;;
      schedule_tcb thread;;
      n ← rd_ntf node;
      queue ← message_append thread (ntf_queue n);
      wr_ntf node (with_ntf_state notifation_state_wait);;
      wr_ntf node (with_ntf_queue queue);;
      wr thread (with_notifation_node node)
    else skip
  | notifation_state_active =>
    wr_ntf node (with_ntf_state notifation_state_idle);;
    possible_donate_context thread node
  end.

Definition reorder_noticenode (thread : Z) : K unit :=
  assert_ (negb (thread =? NULL));;
  assert_m (n ← rd notifation_node thread; mret (negb (n =? NULL)));;
  node ← rd notifation_node thread;
  n ← rd_ntf node;
  queue ← message_dequeue thread (ntf_queue n);
  queue ← message_append thread queue;
  wr_ntf node (with_ntf_queue queue).

End Ipc.
