(* ===== verification/Interrupt.v ===== *)
(** * Interrupts

    Models [src/object/interrupt.c]: the table of interrupt objects, the configuration
    request and the acknowledgement a thread sends to itself, and the delivery of an
    interrupt as a signal.  The interrupt controller and the clock driver's handler are
    the class [IrqController]; the lock of the table leaves no trace in the model. *)

From Stdlib Require Import ZArith Lia Bool List.
From stdpp Require Import base tactics numbers list gmap.
From S2P Require Import Prelude TimeConv Sporadic DList DNode KState TimeList ReadyQueue Sched ThreadTable TcbCore Ipc.

Local Open Scope Z_scope.

Definition obj_irq_control_obj : Z := 18.
Definition interrupt_control_label : Z := 2344.

(** [enum interrupt_ipc]. *)
Definition interrupt_message_tag : Z := 0.
Definition interrupt_irq_number : Z := 1.
Definition interrupt_thread_id : Z := 2.
Definition interrupt_irq_action : Z := 3.

(** [enum interrupt_action]. *)
Definition interrupt_signal_enable : Z := 0.
Definition interrupt_timer_enable : Z := 1.
Definition interrupt_disable : Z := 2.
Definition interrupt_free : Z := 3.
Definition interrupt_action_number : Z := 4.

(** [enum interrupt_state]. *)
Definition interrupt_irq_inactive : Z := 0.
Definition interrupt_irq_signal : Z := 1.
Definition interrupt_irq_timer : Z := 2.
Definition interrupt_irq_reserved : Z := 3.

Class IrqController := {
  CONFIG_NUM_IRQS : Z;
  (** [CONFIG_KERNEL_TIMER_INT], when it is defined. *)
  CONFIG_KERNEL_TIMER_INT : option Z;
  irq_enable : Z -> K unit;
  irq_disable : Z -> K unit;
  clock_isr : K unit;
  (** The number [irq_is_pending()] returns, [CONFIG_NUM_IRQS] when there is none. *)
  pending_irq : kstate -> Z;
}.

Section Interrupt.
Context `{Config} `{Platform} `{Services} `{IrqController}.

Definition IRQ_NUM_IS_VAILD (num : Z) : bool := (0 <? num) && (num <? CONFIG_NUM_IRQS).

Definition rd_irq (p : Z) : K interrupt := s ← get_state; ofopt (interrupts s !! p).
Definition wr_irq (p : Z) (g : interrupt -> interrupt) : K unit :=
  i ← rd_irq p; modify (fun s => with_interrupts (<[p := g i]> (interrupts s)) s).

Definition interrupt_array_init : K unit :=
  modify (with_interrupt_array (replicate (Z.to_nat CONFIG_NUM_IRQS) NULL)).
Definition init_interrupt_object_module : K Z := interrupt_array_init;; mret 0.

Definition interrupt_state_of (num : Z) : K Z := arr interrupt_state_array num.
Definition is_interrupt_active (num : Z) : K bool :=
  st ← interrupt_state_of num; mret (negb (st =? interrupt_irq_inactive)).
Definition set_interrupt_active (state num : Z) : K unit :=
  arr_set interrupt_state_array with_interrupt_state_array num state.

(** The object is written without a test for a failed allocation. *)
Definition interrupt_create (num : Z) : K Z :=
  if IRQ_NUM_IS_VAILD num then
    irq ← d_object_alloc obj_irq_control_obj;
    wr_irq irq (with_irq_action interrupt_action_number);;
    wr_irq irq (with_irq_number num);;
    wr_irq irq (with_irq_thread NULL);;
    old ← arr interrupt_array num;
    (if old =? NULL then arr_set interrupt_array with_interrupt_array num irq else skip);;
    mret irq
  else mret NULL.

Definition interrupt_destroy (num : Z) : K bool :=
  if IRQ_NUM_IS_VAILD num then
    irq ← arr interrupt_array num;
    if negb (irq =? NULL) then
      arr_set interrupt_array with_interrupt_array num NULL;;
      d_object_free irq;;
      mret true
    else mret false
  else mret false.

Definition interrupt_request (s_thread : Z) : K unit :=
  tag ← load_message_registers s_thread interrupt_message_tag;
  if message_get_tag_label tag =? interrupt_control_label then
    num ← load_message_registers s_thread interrupt_irq_number;
    let num := s32 num in
    id ← load_message_registers s_thread interrupt_thread_id;
    act ← load_message_registers s_thread interrupt_irq_action;
    let act := u16 act in
    assert_ (IRQ_NUM_IS_VAILD num && is_user_vaild id);;
    assert_ (act <? interrupt_action_number);;
    irq_disable num;;
    irq ← interrupt_create num;
    if negb (irq =? NULL) then
      active ← is_interrupt_active num;
      if negb active then
        wr_irq irq (with_irq_number num);;
        t ← get_thread id;
        wr_irq irq (with_irq_thread t);;
        wr_irq irq (with_irq_action act)
      else skip
    else skip
  else skip.

(** The body of the loop of [interrupt_respond]. *)
Definition respond_irq (r_thread num : Z) : K unit :=
  irq ← arr interrupt_array num;
  if irq =? NULL then skip
  else
    i ← rd_irq irq;
    if negb (irq_thread i =? r_thread) then skip
    else if (irq_action i =? interrupt_signal_enable) || (irq_action i =? interrupt_timer_enable) then
      (if irq_action i =? interrupt_signal_enable
       then set_interrupt_active interrupt_irq_signal num
       else set_interrupt_active interrupt_irq_timer num);;
      irq_enable num
    else if (irq_action i =? interrupt_disable) || (irq_action i =? interrupt_free) then
      set_interrupt_active interrupt_irq_inactive num;;
      (if irq_action i =? interrupt_free then interrupt_destroy num;; skip else skip);;
      irq_disable num
    else
      set_interrupt_active interrupt_irq_reserved num;;
      irq_disable num.

Fixpoint respond_loop (r_thread : Z) (nums : list Z) : K unit :=
  match nums with
  | [] => skip
  | num :: nums => respond_irq r_thread num;; respond_loop r_thread nums
  end.

Definition interrupt_respond (r_thread : Z) : K unit :=
  assert_ (negb (r_thread =? NULL));;
  respond_loop r_thread (map Z.of_nat (seq 0 (Z.to_nat CONFIG_NUM_IRQS))).

Definition interrupt_signal (num : Z) : K unit :=
  irq ← arr interrupt_array num;
  i ← rd_irq irq;
  let thread := irq_thread i in
  assert_ (negb (irq =? NULL) && negb (thread =? NULL));;
  if negb (thread =? NULL) then
    w ← get_thread_state thread (Z.lor state_recv_blocked_state state_send_blocked_state);
    (if negb (w =? 0) then cancel_ipc thread else skip);;
    n ← rd notifation_node thread;
    send_signal n;;
    set_thread_state thread state_queued_state;;
    b ← is_schedulable thread;
    if (b : bool) then possible_switchto thread else skip
  else skip.

Definition interrupt_time (num : Z) : K bool :=
  match CONFIG_KERNEL_TIMER_INT with
  | Some t => if t =? num then clock_isr;; set_reprogram true;; mret true else mret false
  | None => mret false
  end.

Definition do_interrupt_service (num : Z) : K bool :=
  if negb (IRQ_NUM_IS_VAILD num) then irq_disable num;; mret false
  else
    st ← interrupt_state_of num;
    if st =? interrupt_irq_reserved then mret false
    else if st =? interrupt_irq_inactive then mret false
    else
      update_timestamp false;;
      st ← interrupt_state_of num;
      timed ← (if st =? interrupt_irq_timer then interrupt_time num else mret false);
      if (timed : bool) then irq_disable num;; mret true
      else
        ok ← check_budget;
        (if (ok : bool) then
           st ← interrupt_state_of num;
           (if (st =? interrupt_irq_signal) || (st =? interrupt_irq_timer) then interrupt_signal num else skip);;
           irq_disable num
         else skip);;
        mret true.

Definition handle_interrupt : K bool :=
  s ← get_state;
  let irq_num := pending_irq s in
  if negb (irq_num =? CONFIG_NUM_IRQS) then do_interrupt_service (s32 irq_num) else mret false.

End Interrupt.
