(* ===== verification/Tick.v ===== *)
(** * The clock tick

    Models the rest of [src/kernel/time.c]: the expiry of timer events, the deadline
    handler and the system clock call. *)

From Stdlib Require Import ZArith Lia Bool List.
From stdpp Require Import base tactics numbers list gmap.
From S2P Require Import Prelude TimeConv Sporadic DList DNode KState TimeList ReadyQueue Sched ThreadTable TcbCore Ipc.

Local Open Scope Z_scope.

Section Tick.
Context `{Config} `{Platform}.

(** [data] addresses the id of a thread; the model registers the thread's address. *)
Definition deadline_timeout_handler (data : Z) : K Z :=
  gid ← rd thread_id data;
  deadline_thread ← get_thread gid;
  monitor ← (if deadline_thread =? NULL then mret false
             else
               r ← rd is_thread_running deadline_thread;
               if (r : bool) then a ← get_thread_action deadline_thread; mret (a =? HARD_PRIOR_ACTION)
               else mret false);
  if (monitor : bool) then
    set_scheduler_action SCHEDULER_ACTION_CHOOSE_PRIV_THREAD;;
    set_privilege_status priv_health_monitor_priv priv_ready_priv;;
    w ← get_thread_object_state deadline_thread;
    (if w =? state_recv_blocked_state
     then modify (with_current_kernel_status_code (Z.lor IPC_TIMEOUT IPC_RECV_PHASE)) else skip);;
    w ← get_thread_object_state deadline_thread;
    (if w =? state_send_blocked_state
     then modify (with_current_kernel_status_code (Z.lor IPC_TIMEOUT IPC_SEND_PHASE)) else skip);;
    mret 0
  else
    marktcb_as_started deadline_thread;;
    add_to_ready_q deadline_thread;;
    reschedule_required;;
    schedule;;
    reschedule_unlocked;;
    mret 0.

(** [while (first_node() != NULL && first_node()->dvalue <= dvalue_elapse)]. *)
Fixpoint expire_loop (fuel : nat) : K unit :=
  match fuel with
  | O => fail OutOfFuel
  | S fuel =>
    index ← first_node;
    if index =? NULL then skip
    else
      d ← rd_dvalue index;
      s ← get_state;
      if d <=? dvalue_elapse s then
        modify (fun s => with_current_tick (u64 (current_tick s + s32 d)) s);;
        modify (fun s => with_dvalue_elapse (u32 (dvalue_elapse s - s32 d)) s);;
        t ← rd_timer index;
        (match handler t with
         | no_handler => skip
         | deadline_timeout_handler_ptr =>
           period ← deadline_timeout_handler (data t);
           if negb (period =? 0) then readd_to_timelist index period
           else
             wr_dvalue index 0;;
             remove_from_timelist index;;
             d_object_free index
         end);;
        expire_loop fuel
      else skip
  end.

(** A handler may register further deadlines, so the number of rounds is a parameter. *)
Definition update_timelist (fuel : nat) (ticks : Z) : K unit :=
  modify (with_dvalue_elapse (u32 ticks));;
  expire_loop fuel;;
  f ← first_node;
  (if negb (f =? NULL) then
     d ← rd_dvalue f; s ← get_state; wr_dvalue f (u32 (d - dvalue_elapse s))
   else skip);;
  modify (fun s => with_current_tick (u64 (current_tick s + dvalue_elapse s)) s);;
  modify (with_dvalue_elapse 0);;
  n ← next_dvalue;
  clock_set_timeout n false;;
  update_timestamp false.

Definition get_uptime_64 : K Z := t ← get_current_tick; mret (k_ticks_to_ms_floor64 t).

(** The value is stored through [clock]. *)
Definition syscall_system_clock (hw_cycles_per_sec clock : Z) : K Z :=
  update_timestamp false;;
  is_sufficient ← check_budget_restart;
  if (is_sufficient : bool) then
    modify (fun s => with_memory (<[clock := hw_cycles_per_sec]> (memory s)) s);;
    schedule;;
    mret EXCEPTION_NONE
  else mret EXCEPTION_FAULT.

End Tick.
