(* ===== verification/Tcb.v ===== *)
(** * Thread operations and system calls

    Models [set_prior] of [src/kernel/thread.c]; suspending, restarting, aborting and
    destroying threads and the four thread system calls of [src/object/tcb.c]; the IPC
    system call of [src/object/ipc.c] and the privileged thread of
    [src/kernel/privilege.c] that performs it. *)

From Stdlib Require Import ZArith Lia Bool List.
From stdpp Require Import base tactics numbers list gmap.
From S2P Require Import Prelude TimeConv Sporadic DList DNode KState TimeList ReadyQueue Sched ThreadTable TcbCore Ipc Interrupt.

Local Open Scope Z_scope.

Definition CONTROL_BIT_d : Z := Z.shiftl 1 9.
Definition CONTROL_BIT_h : Z := Z.shiftl 1 8.
Definition CONTROL_BIT_f : Z := Z.shiftl 1 5.
Definition CONTROL_BIT_i : Z := Z.shiftl 1 4.
Definition CONTROL_BIT_s : Z := Z.shiftl 1 3.
Definition CONTROL_BIT_S : Z := Z.shiftl 1 2.
Definition CONTROL_BIT_R : Z := Z.shiftl 1 1.
Definition CONTROL_BIT_H : Z := Z.shiftl 1 0.
Definition CONTROL_BIT_MASK (n mask : Z) : bool := negb (Z.land n mask =? 0).
Definition UNDEFINE_VALUE : Z := 4294967295.

Definition SCHEDULER_PRIORITY_MASK : Z := 4095. (* 0x00000FFF *)
Definition SCHEDULER_MCP_MASK : Z := 16773120. (* 0x00FFF000 *)
Definition SCHEDULER_LEVEL_MASK : Z := 4278190080. (* 0xFF000000 *)
Definition SCHEDULER_BUDGET_MASK : Z := 4293918720. (* 0xFFF00000 *)
Definition SCHEDULER_PERIOD_MASK : Z := 1048320. (* 0x000FFF00 *)
Definition SCHEDULER_MAX_REFILLS_MASK : Z := 255.

Definition TCR_NO_PRIVILIGE : Z := Z.shiftl 1 0.
Definition TCR_INVAL_THREAD : Z := Z.shiftl 1 1.
Definition TCR_INVAL_SPACE : Z := Z.shiftl 1 2.
Definition TCR_INVAL_SCHED : Z := Z.shiftl 1 3.
Definition TCR_INVAL_UTCB : Z := Z.shiftl 1 5.
Definition TCR_OUT_OF_MEM : Z := Z.shiftl 1 7.
Definition SCHED_TCR_ERROR : Z := Z.shiftl 1 8.
Definition SCHED_THREAD_NOT_EXIST : Z := Z.shiftl 1 9.
Definition SCHED_THREAD_INAVTIVE : Z := Z.shiftl 1 10.
Definition SCHED_THREAD_RUNNING : Z := Z.shiftl 1 11.
Definition SCHED_THREAD_SEND_BLOCKED : Z := Z.shiftl 1 12.
Definition SCHED_THREAD_RECV_BLOCKED : Z := Z.shiftl 1 14.
Definition SCHED_THREAD_NOTIFY_BLOCKED : Z := Z.shiftl 1 16.

(** The hook of an aborting thread, the permission tables of [src/object/cnode.c] and the
    machine-dependent initialisation of a new thread from a pager context. *)
Class ThreadServices := {
  abort_hook : Z -> K unit;
  k_object_access_revoke : Z -> Z -> K unit;
  set_new_thread : Z -> Z -> K unit;
}.

Section Tcb.
Context `{Config} `{Platform} `{Services} `{IrqController} `{ThreadServices}.

Definition rd_mem (p : Z) : K Z := s ← get_state; ofopt (memory s !! p).
Definition wr_mem (p v : Z) : K unit :=
  rd_mem p;; modify (fun s => with_memory (<[p := v]> (memory s)) s).
(** Word [i] of an array of words at [p]. *)
Definition word_at (p i : Z) : Z := u32 (p + 4 * i).

Definition sys_error (code : Z) : K Z :=
  modify (with_current_syscall_error_code code);; mret EXCEPTION_SYSCALL_ERROR.

(** ** Thread operations *)

(** The scheduler lock is read only when the first part asked for a reschedule. *)
Definition set_prior (thread prio mcp_ : Z) : K unit :=
  assert_ (negb (thread =? NULL));;
  s ← get_state;
  assert_ (negb (arch_is_in_isr s));;
  need_sched ← rd is_thread_ready thread;
  (if (need_sched : bool) then
     q ← rd is_thread_queued thread;
     (if (q : bool) then
        sched_dequeue thread;;
        wr thread (with_sched_prior (u8 prio));;
        wr thread (with_mcp mcp_);;
        assert_m (check_prio prio thread);;
        sched_enqueue thread
      else
        wr thread (with_sched_prior (u8 prio));;
        wr thread (with_mcp mcp_);;
        assert_m (check_prio prio thread));;
     reschedule_required;;
     schedule
   else
     wr thread (with_sched_prior (u8 prio));;
     wr thread (with_mcp mcp_);;
     assert_m (check_prio prio thread));;
  pending ← rd is_thread_pending thread;
  (if (pending : bool) then reorder_message_node thread else skip);;
  c ← cur;
  l ← (if (need_sched : bool) then rd sched_locked c else mret 1);
  if l =? 0 then reschedule_unlocked else skip.

Definition thread_suspend (thread : Z) : K unit :=
  assert_ (negb (thread =? NULL));;
  cancel_ipc thread;;
  cancel_yield thread;;
  set_thread_state thread state_suspended_state;;
  r ← rd is_thread_ready thread;
  (if (r : bool) then
     marktcb_as_not_queued thread;;
     sched_dequeue thread;;
     release_remove thread
   else skip);;
  isr ← is_thread_in_isr;
  (if negb isr then reschedule_unlocked else skip);;
  c ← cur;
  if thread =? c then reschedule_required else skip.

Definition thread_restart (thread : Z) : K unit :=
  assert_ (negb (thread =? NULL));;
  b ← rd is_blocked thread;
  if (b : bool) then
    cancel_ipc thread;;
    set_thread_state thread state_restart_state;;
    prepare_start_thread thread;;
    thread_resume thread
  else skip.

Definition thread_single_abort (thread : Z) : K unit :=
  assert_ (negb (thread =? NULL));;
  h ← rd abort_handle thread;
  (if (h : bool) then abort_hook thread else skip);;
  r ← rd is_thread_ready thread;
  (if (r : bool) then remove_from_ready_q thread else skip);;
  set_thread_state thread state_dead_state;;
  k_object_access_revoke thread thread.

Definition thread_destroy (thread : Z) : K unit :=
  assert_ (negb (thread =? NULL));;
  id ← rd thread_id thread;
  if is_user_vaild id then
    cancel_yield thread;;
    cancel_ipc thread;;
    n ← rd notifation_node thread;
    cancel_signal thread n;;
    q ← rd is_thread_queued thread;
    (if (q : bool) then
       marktcb_as_not_queued thread;;
       sched_dequeue thread;;
       release_remove thread
     else skip);;
    thread_deinit thread;;
    c ← cur;
    if thread =? c then reschedule_required else skip
  else skip.

Definition thread_create (new_thread pager : Z) : K Z :=
  s ← get_state;
  assert_ (negb (arch_is_in_isr s));;
  set_new_thread new_thread pager;;
  prepare_start_thread new_thread;;
  mret new_thread.

(** ** System calls *)

(** The register part of [syscall_exchange_registers]. *)
Definition exchange_frame (dest_thread control sp ip flag : Z) : K unit :=
  q ← rd is_thread_queued dest_thread;
  if (q : bool) then
    sched_dequeue dest_thread;;
    (if CONTROL_BIT_MASK control CONTROL_BIT_f
     then v ← rd_mem flag; p ← rd psp dest_thread; wr_mem (word_at p 15) v else skip);;
    (if CONTROL_BIT_MASK control CONTROL_BIT_i
     then v ← rd_mem ip; p ← rd psp dest_thread; wr_mem (word_at p 14) v else skip);;
    (if CONTROL_BIT_MASK control CONTROL_BIT_s
     then v ← rd_mem sp; wr dest_thread (with_psp v) else skip);;
    sched_enqueue dest_thread;;
    c ← cur;
    if dest_thread =? c then reschedule_required else skip
  else skip.

(** The IPC part: the third branch needs [S] both clear and set. *)
Definition exchange_ipc_control (dest_thread control : Z) : K unit :=
  if CONTROL_BIT_MASK control CONTROL_BIT_S || CONTROL_BIT_MASK control CONTROL_BIT_R then
    modify (with_current_kernel_status_code IPC_CANCELED);;
    cancel_ipc dest_thread
  else if negb (CONTROL_BIT_MASK control CONTROL_BIT_S) then
    w ← get_thread_object_state dest_thread;
    if w =? state_send_blocked_state then
      node ← get_thread_state_object dest_thread;
      n ← rd_msg node;
      if bool_decide (msg_state n = message_state_recv) then send_ipc dest_thread false false node else skip
    else skip
  else if negb (CONTROL_BIT_MASK control CONTROL_BIT_R) then
    w ← get_thread_object_state dest_thread;
    if w =? state_recv_blocked_state then
      node ← get_thread_state_object dest_thread;
      n ← rd_msg node;
      if bool_decide (msg_state n = message_state_send) then receive_ipc dest_thread false node else skip
    else skip
  else skip.

Definition syscall_exchange_registers (dest_thread_id control sp ip flag : Z) : K Z :=
  update_timestamp false;;
  is_sufficient ← check_budget_restart;
  if (is_sufficient : bool) then
    dest_thread ← get_thread dest_thread_id;
    if negb (is_user_vaild dest_thread_id) || (dest_thread =? NULL) then sys_error TCR_INVAL_PARA
    else
      exchange_frame dest_thread control sp ip flag;;
      exchange_ipc_control dest_thread control;;
      (if CONTROL_BIT_MASK control CONTROL_BIT_H then thread_suspend dest_thread else skip);;
      (if CONTROL_BIT_MASK control CONTROL_BIT_h then thread_restart dest_thread else skip);;
      (if CONTROL_BIT_MASK control CONTROL_BIT_d then
         c ← cur;
         p ← rd psp c;
         wr_mem sp p;;
         v ← rd_mem (word_at p 14); wr_mem ip v;;
         v ← rd_mem (word_at p 15); wr_mem flag v
       else
         wr_mem sp UNDEFINE_VALUE;;
         wr_mem ip UNDEFINE_VALUE;;
         wr_mem flag UNDEFINE_VALUE);;
      schedule;;
      reschedule_unlocked;;
      mret EXCEPTION_NONE
  else mret EXCEPTION_FAULT.

(** [pager->virual_user]: the second word of the pager context. *)
Definition create_by_pager (dest_thread_id dest_pager_id : Z) : K (option Z) :=
  new_thread ← thread_alloc dest_thread_id;
  c ← cur;
  if new_thread =? NULL then e ← sys_error TCR_OUT_OF_MEM; mret (Some e)
  else if new_thread =? c then e ← sys_error TCR_NO_PRIVILIGE; mret (Some e)
  else if dest_pager_id =? GLOBALID_NILTHREAD then e ← sys_error TCR_INVAL_UTCB; mret (Some e)
  else
    new_thread ← thread_create new_thread dest_pager_id;
    u ← rd_mem (word_at dest_pager_id 1);
    wr new_thread (with_user u);;
    mret None.

Definition syscall_thread_control (dest_thread_id dest_space_id dest_schedule dest_pager_id : Z) : K Z :=
  update_timestamp false;;
  is_sufficient ← check_budget_restart;
  if (is_sufficient : bool) then
    dest_thread ← get_thread dest_thread_id;
    if negb (is_user_vaild dest_thread_id) then sys_error TCR_INVAL_THREAD
    else if is_user_vaild dest_schedule then sys_error TCR_INVAL_SCHED
    else if is_user_vaild dest_space_id then sys_error TCR_INVAL_SPACE
    else
      failed ←
        (if negb (dest_space_id =? GLOBALID_NILTHREAD) then
           if dest_thread =? NULL then create_by_pager dest_thread_id dest_pager_id
           else
             modify (with_current_kernel_status_code IPC_CANCELED);;
             cancel_ipc dest_thread;;
             thread_restart dest_thread;;
             mret None
         else if dest_thread =? NULL then e ← sys_error TCR_INVAL_THREAD; mret (Some e)
         else
           thread_destroy dest_thread;;
           thread_free dest_thread;;
           reschedule_required;;
           mret None);
      match failed with
      | Some e => mret e
      | None => schedule;; mret EXCEPTION_NONE
      end
  else mret EXCEPTION_FAULT.

Definition syscall_switch_thread (dest_thread_id : Z) : K Z :=
  update_timestamp false;;
  is_sufficient ← check_budget_restart;
  if (is_sufficient : bool) then
    refused ←
      (if dest_thread_id =? GLOBALID_NILTHREAD then
         c ← cur;
         remove_from_ready_q c;;
         set_thread_state c state_restart_state;;
         reschedule_required;;
         mret false
       else
         dest_thread ← get_thread dest_thread_id;
         if negb (is_user_vaild dest_thread_id) || (dest_thread =? NULL) then mret true
         else
           b ← is_schedulable dest_thread;
           (if negb b then move_to_end_ready_q dest_thread;; reschedule_required
            else thread_yield dest_thread);;
           mret false);
    if (refused : bool) then sys_error TCR_INVAL_THREAD
    else
      schedule;;
      reschedule_unlocked;;
      mret EXCEPTION_NONE
  else mret EXCEPTION_FAULT.

(** The tests of [syscall_schedule_control], in the order of the code; [None] admits. *)
Definition schedule_control_check (dest_thread_id dest_thread sched_prior mcp level dest_domain refills : Z) : K (option Z) :=
  if negb (is_user_vaild dest_thread_id) || (dest_thread =? NULL) then mret (Some SCHED_TCR_ERROR)
  else if (mcp <? sched_prior) || (NUM_PRIORITIES <? sched_prior) || (NUM_PRIORITIES <? mcp) then mret (Some TCR_INVAL_PARA)
  else if negb (level =? HARD_PRIOR_ACTION) && negb (level =? SOFT_PRIOR_ACTION) then mret (Some TCR_INVAL_PARA)
  else if (CONFIG_NUM_DOMAINS <? dest_domain) || (NUM_SCHED_REFILLS <? refills) then mret (Some TCR_INVAL_PARA)
  else
    dead ← get_thread_state dest_thread (Z.lor (Z.lor state_dummy_state state_dead_state) state_aborting_state);
    if negb (dead =? 0) then mret (Some SCHED_THREAD_NOT_EXIST)
    else
      inactive ← get_thread_state dest_thread (Z.lor state_suspended_state state_restart_state);
      if negb (inactive =? 0) then mret (Some SCHED_THREAD_INAVTIVE)
      else
        c ← cur;
        if dest_thread =? c then mret (Some SCHED_THREAD_RUNNING)
        else
          w ← get_thread_object_state dest_thread;
          if w =? state_send_blocked_state then mret (Some SCHED_THREAD_SEND_BLOCKED)
          else if w =? state_recv_blocked_state then mret (Some SCHED_THREAD_RECV_BLOCKED)
          else if w =? state_notify_blocked_state then mret (Some SCHED_THREAD_NOTIFY_BLOCKED)
          else mret None.

Definition syscall_schedule_control (dest_thread_id dest_time dest_process dest_prior dest_domain : Z) : K Z :=
  update_timestamp false;;
  is_sufficient ← check_budget_restart;
  if (is_sufficient : bool) then
    dest_thread ← get_thread dest_thread_id;
    let sched_prior := Z.land dest_prior SCHEDULER_PRIORITY_MASK in
    let mcp := Z.shiftr (Z.land dest_prior SCHEDULER_MCP_MASK) 12 in
    let level := Z.shiftr (Z.land dest_prior SCHEDULER_LEVEL_MASK) 24 in
    let budget := Z.shiftr (Z.land dest_time SCHEDULER_BUDGET_MASK) 20 in
    let period := Z.shiftr (Z.land dest_time SCHEDULER_PERIOD_MASK) 8 in
    let refills := Z.land dest_time SCHEDULER_MAX_REFILLS_MASK in
    refused ← schedule_control_check dest_thread_id dest_thread sched_prior mcp level dest_domain refills;
    match refused with
    | Some code => sys_error code
    | None =>
      set_prior dest_thread sched_prior mcp;;
      set_thread_action dest_thread level;;
      set_domain dest_thread dest_domain;;
      set_schedule_context dest_thread budget period refills;;
      reschedule_required;;
      schedule;;
      mret EXCEPTION_NONE
    end
  else mret EXCEPTION_FAULT.

(** ** The IPC system call *)

Definition us_to_ticks (times : Z) : Z := times.

(** The shift is done on a word. *)
Definition exchange_ipc_timeout (t : Z) : K unit :=
  let timeout := u16 t in
  let ticks := us_to_ticks (u32 (Z.shiftl (message_time_period_m timeout) (message_time_period_e timeout))) in
  c ← cur; set_deadline ticks c.

(** The search for a sender among the recorded threads. *)
Fixpoint any_sender_loop (fuel : nat) (thread_index recv_gid r_thread recv_timeout send_any_gid : Z) : K (option Z) :=
  match fuel with
  | O => fail OutOfFuel
  | S fuel =>
    s ← get_state;
    if thread_index <? record_thread_count s then
      s_thread ← arr record_threads thread_index;
      if s_thread =? NULL then e ← sys_error TCR_INVAL_PARA; mret (Some e)
      else
        w ← get_thread_object_state s_thread;
        if w =? state_send_blocked_state then
          (if negb (recv_timeout =? 0) then exchange_ipc_timeout recv_timeout else skip);;
          n ← rd message_node s_thread;
          (if negb (recv_gid =? GLOBALID_NILTHREAD) then receive_ipc r_thread true n
           else c ← cur; receive_ipc c true n);;
          id ← rd thread_id s_thread;
          wr_mem send_any_gid id;;
          mret None
        else any_sender_loop fuel (u32 (thread_index + 1)) recv_gid r_thread recv_timeout send_any_gid
    else mret None
  end.

(** [timeout & 0xFFFF0000 >> 16] parses as [timeout & (0xFFFF0000 >> 16)]. *)
Definition send_part (timeout : Z) : Z := u16 (Z.land timeout 65535).
Definition recv_part (timeout : Z) : Z := u16 (Z.land timeout (Z.shiftr 4294901760 16)).
Definition wait_part (timeout : Z) : Z := u16 timeout.

(** The phases return early with [Some] code. *)
Definition exchange_checks (recv_gid send_gid timeout : Z) : K (option Z) :=
  c ← cur;
  early ←
    (if (recv_gid =? GLOBALID_NILTHREAD) && (send_gid =? GLOBALID_NILTHREAD) then
       if negb (wait_part timeout =? 0) then exchange_ipc_timeout (wait_part timeout);; mret None
       else
         set_thread_state c state_restart_state;;
         e ← sys_error IPC_NOT_EXIST; mret (Some e)
     else mret None);
  match early with
  | Some e => mret (Some e)
  | None =>
    if (recv_gid =? GLOBALID_ANYTHREAD) && (send_gid =? GLOBALID_ANYTHREAD) then
      c ← cur;
      set_thread_state c state_restart_state;;
      e ← sys_error IPC_NOT_EXIST; mret (Some e)
    else mret None
  end.

Definition exchange_send (recv_gid send_gid timeout r_thread s_thread : Z) : K (option Z) :=
  if negb (recv_gid =? GLOBALID_NILTHREAD) then
    if recv_gid =? TID_TO_GLOBALID id_irq_request_id then
      c ← cur; interrupt_request c;; mret (Some EXCEPTION_NONE)
    else if r_thread =? NULL then e ← sys_error TCR_INVAL_PARA; mret (Some e)
    else if negb (send_gid =? GLOBALID_NILTHREAD) then
      if s_thread =? NULL then e ← sys_error TCR_INVAL_PARA; mret (Some e)
      else message_exchange s_thread r_thread;; mret (Some EXCEPTION_NONE)
    else
      (if negb (send_part timeout =? 0) then exchange_ipc_timeout (send_part timeout) else skip);;
      c ← cur;
      n ← rd message_node r_thread;
      send_ipc c true true n;;
      mret None
  else mret None.

Definition exchange_receive (send_gid timeout s_thread : Z) : K (option Z) :=
  if negb (send_gid =? GLOBALID_NILTHREAD) then
    if send_gid =? TID_TO_GLOBALID id_irq_ack_id then
      c ← cur; interrupt_respond c;; mret (Some EXCEPTION_NONE)
    else if s_thread =? NULL then e ← sys_error TCR_INVAL_PARA; mret (Some e)
    else
      (if negb (recv_part timeout =? 0) then exchange_ipc_timeout (recv_part timeout) else skip);;
      c ← cur;
      n ← rd message_node s_thread;
      receive_ipc c true n;;
      mret None
  else mret None.

Definition do_exchange_ipc (recv_gid send_gid timeout send_any_gid : Z) : K Z :=
  r_thread ← get_thread recv_gid;
  s_thread ← get_thread send_gid;
  early ← exchange_checks recv_gid send_gid timeout;
  match early with
  | Some e => mret e
  | None =>
    early ← exchange_send recv_gid send_gid timeout r_thread s_thread;
    match early with
    | Some e => mret e
    | None =>
      early ← exchange_receive send_gid timeout s_thread;
      match early with
      | Some e => mret e
      | None =>
        s ← get_state;
        early ← (if send_gid =? GLOBALID_ANYTHREAD
                 then any_sender_loop (S (length (record_threads s))) 0 recv_gid r_thread (recv_part timeout) send_any_gid
                 else mret None);
        match early with
        | Some e => mret e
        | None => mret EXCEPTION_NONE
        end
      end
    end
  end.

Definition syscall_exchange_ipc (recv_gid send_gid timeout send_any_gid : Z) : K Z :=
  update_timestamp false;;
  is_sufficient ← check_budget_restart;
  if (is_sufficient : bool) then
    modify (with_fastipc_caller (mk_fastipc recv_gid send_gid timeout send_any_gid));;
    set_scheduler_action SCHEDULER_ACTION_CHOOSE_PRIV_THREAD;;
    set_privilege_status priv_fastipc_priv priv_ready_priv;;
    schedule;;
    reschedule_unlocked;;
    mret EXCEPTION_NONE
  else mret EXCEPTION_FAULT.

(** ** The privileged thread *)

Definition do_health_monitor : K Z := mret EXCEPTION_NONE.
Definition do_debugging_monitor : K Z := mret EXCEPTION_NONE.

(** One pending service. *)
Definition serve (p_type : Z) : K unit :=
  st ← get_privilege_status p_type;
  if st =? priv_ready_priv then
    (if p_type =? priv_fastipc_priv then
       s ← get_state;
       let f := fastipc_caller s in
       do_exchange_ipc (fast_receive f) (fast_send f) (fast_timeout f) (fast_anysend f);; skip
     else if p_type =? priv_health_monitor_priv then do_health_monitor;; skip
     else if p_type =? priv_debugging_monitor_priv then do_debugging_monitor;; skip
     else skip);;
    set_privilege_status p_type priv_blocked_priv
  else skip.

(** The two passes of the body, repeated while a service became ready meanwhile. *)
Fixpoint privilege_rounds (fuel : nat) : K unit :=
  match fuel with
  | O => fail OutOfFuel
  | S fuel =>
    serve 0;; serve 1;; serve 2;;
    s0 ← get_privilege_status 0;
    s1 ← get_privilege_status 1;
    s2 ← get_privilege_status 2;
    if (s0 =? priv_ready_priv) || (s1 =? priv_ready_priv) || (s2 =? priv_ready_priv)
    then privilege_rounds fuel
    else skip
  end.

(** One round of the endless loop of [privilege_thread_entry]. *)
Definition privilege_thread_round (fuel : nat) : K unit :=
  privilege_rounds fuel;;
  reschedule_required;;
  schedule;;
  reschedule_unlocked.

End Tcb.
