(* ===== verification/IpcTheorems.v ===== *)
(** * Correctness of message passing

    Blocking on a message node, cancelling, the rendezvous of sender and receiver, the
    transfer of message registers, and the failure of budget donation.  [MsgNode s n st l]
    says that the node [n] is in state [st] with the threads [l] waiting, in that order. *)

From Stdlib Require Import ZArith Lia Bool List.
From stdpp Require Import base tactics numbers list gmap.
From S2P Require Import Prelude TimeConv Sporadic DList DNode KState TimeList ReadyQueue Sched ReadyQueueFacts QueueTheorems.
From S2P Require Import SchedFacts ThreadTable TcbCore Ipc.

Local Open Scope Z_scope.

(** ** Nodes *)

Lemma wp_rd_msg p m (Q : message -> kstate -> Prop) s : messages s !! p = Some m -> Q m s -> wp (rd_msg p) Q s.
Proof. intros E HQ. unfold rd_msg. wp_steps. by eapply wp_ofopt. Qed.

Lemma wp_wr_msg p m g (Q : unit -> kstate -> Prop) s :
  messages s !! p = Some m -> Q tt (with_messages (<[p := g m]> (messages s)) s) -> wp (wr_msg p g) Q s.
Proof. intros E HQ. unfold wr_msg. wp_steps. eapply wp_rd_msg; [done|]. by wp_steps. Qed.

Definition MsgNode (s : kstate) (node : Z) (st : message_state) (l : list Z) : Prop :=
  exists queue, messages s !! node = Some (mk_message st queue) /\ MesgQ s queue l.

(** The state a node is left in when [l] still waits. *)
Definition waiting_state (st : message_state) (l : list Z) : message_state :=
  match l with [] => message_state_idle | _ => st end.

(** A thread that stops being runnable while it is current asks for a new choice. *)
Definition asked (t : Z) (s : kstate) : kstate :=
  if (t =? current_thread s) && (scheduler_action s =? SCHEDULER_ACTION_RESUME_CURRENT_THREAD)
  then with_scheduler_action SCHEDULER_ACTION_CHOOSE_NEW_THREAD s else s.

Lemma asked_threads t s : threads (asked t s) = threads s.
Proof. unfold asked. by case_match. Qed.
Lemma asked_messages t s : messages (asked t s) = messages s.
Proof. unfold asked. by case_match. Qed.
Lemma asked_fld {A} (f : ktcb -> A) d t s p : get_fld f d (asked t s) p = get_fld f d s p.
Proof. unfold get_fld. by rewrite asked_threads. Qed.
Lemma asked_is_tcb t s p : is_tcb (asked t s) p <-> is_tcb s p.
Proof. unfold is_tcb. by rewrite asked_threads. Qed.

(** What an IPC operation by or on [t] at [node] may change: the state word and object of
    [t], message links, the node itself and the scheduling request. *)
Record IFrame (t node : Z) (s s' : kstate) : Prop := {
  if_globals : s' = with_threads (threads s') (with_messages (messages s') (with_scheduler_action (scheduler_action s') s));
  if_action : scheduler_action s' = scheduler_action (asked t s);
  if_others : forall p, p <> t -> unlink_mesg <$> threads s' !! p = unlink_mesg <$> threads s !! p;
  if_self : with_obj_ptr 0 ∘ with_obj_state 0 ∘ unlink_mesg <$> threads s' !! t =
            with_obj_ptr 0 ∘ with_obj_state 0 ∘ unlink_mesg <$> threads s !! t;
  if_nodes : forall n, n <> node -> messages s' !! n = messages s !! n;
}.

Notation mr_of := (get_fld mr []).

Section IpcFacts.
Context `{Config} `{Platform} `{Services}.

Lemma wp_reschedule_resume (Q : unit -> kstate -> Prop) s :
  scheduler_action s = SCHEDULER_ACTION_RESUME_CURRENT_THREAD ->
  Q tt (with_scheduler_action SCHEDULER_ACTION_CHOOSE_NEW_THREAD s) -> wp reschedule_required Q s.
Proof. intros E HQ. unfold reschedule_required. wp_steps. rewrite E. cbn. by wp_steps. Qed.

Lemma wp_not_schedulable t (Q : bool -> kstate -> Prop) s :
  is_tcb s t -> get_fld is_runnable false s t = false -> Q false s -> wp (is_schedulable t) Q s.
Proof.
  intros Ht Hr HQ. unfold is_schedulable. wp_steps. apply (wp_rd _ _ 0); [done|].
  destruct (get_fld sched 0 s t =? NULL); wp_steps; [done|]. apply (wp_rd _ _ false); [done|]. rewrite Hr. by wp_steps.
Qed.

Lemma wp_schedule_tcb_stopped t (Q : unit -> kstate -> Prop) s :
  is_tcb s t -> get_fld is_runnable false s t = false -> Q tt (asked t s) -> wp (schedule_tcb t) Q s.
Proof.
  intros Ht Hr HQ. unfold schedule_tcb, asked in *. wp_steps.
  destruct ((t =? current_thread s) && (scheduler_action s =? SCHEDULER_ACTION_RESUME_CURRENT_THREAD)) eqn:E; [|by wp_steps].
  apply andb_true_iff in E as [_ E%Z.eqb_eq]. wp_steps. apply wp_not_schedulable; [done|done|]. cbn [negb].
  by apply wp_reschedule_resume.
Qed.

(** [set_thread_state] to a state without the queued bit. *)
Lemma wp_stop_thread t st (Q : unit -> kstate -> Prop) s :
  is_tcb s t -> t <> 0 -> Z.land st state_queued_state = 0 ->
  Q tt (asked t (upd_tcb t (with_obj_state st) s)) -> wp (set_thread_state t st) Q s.
Proof.
  intros Ht Ht0 Hst HQ. unfold set_thread_state. wp_steps. apply wp_assert; [by apply negb_true_iff, Z.eqb_neq|].
  wp_steps. apply wp_wr; [done|]. wp_steps. apply wp_schedule_tcb_stopped; [by apply is_tcb_upd| |done].
  unfold get_fld, upd_tcb. cbn. rewrite lookup_alter_eq. destruct (threads s !! t); [|done]. cbn. unfold is_runnable. cbn.
  by rewrite Hst.
Qed.

Lemma asked_upd t p g s : asked t (upd_tcb p g s) = upd_tcb p g (asked t s).
Proof. unfold asked. cbn. by case_match. Qed.

Lemma asked_idem t s : asked t (asked t s) = asked t s.
Proof.
  unfold asked at 2 3. destruct ((t =? current_thread s) && (scheduler_action s =? SCHEDULER_ACTION_RESUME_CURRENT_THREAD)) eqn:E;
    unfold asked; cbn [scheduler_action current_thread with_scheduler_action]; [by rewrite andb_false_r|by rewrite E].
Qed.

(** Queues are read through the links only. *)
Lemma mesgq_same s s' queue l :
  MesgQ s queue l -> (forall x, mnext s' x = mnext s x /\ mprev s' x = mprev s x) -> (forall x, is_tcb s x -> is_tcb s' x) ->
  MesgQ s' queue l.
Proof.
  intros [E Hd Hm] Hl Hi. split; [done| |auto]. eapply dll_frame; [done|]. intros x _. apply Hl.
Qed.

(** Two writes to a thread are one. *)
Lemma upd_tcb_twice t g h s : upd_tcb t h (upd_tcb t g s) = upd_tcb t (fun x => h (g x)) s.
Proof.
  unfold upd_tcb. cbn [threads with_threads].
  enough (alter h t (alter g t (threads s)) = alter (fun x => h (g x)) t (threads s)) as -> by done.
  apply map_eq. intros p. destruct (decide (t = p)) as [->|].
  - rewrite !lookup_alter_eq. by destruct (threads s !! p).
  - by rewrite !lookup_alter_ne.
Qed.

(** The state of [t] between leaving and entering a queue: new state word, new object. *)
Definition moved (t : Z) (g : ktcb -> ktcb) (s : kstate) : kstate := upd_tcb t g (asked t s).

Lemma mesgq_moved t g s queue l :
  (forall x, mesg_q_next (g x) = mesg_q_next x) -> (forall x, mesg_q_prev (g x) = mesg_q_prev x) ->
  MesgQ s queue l -> MesgQ (moved t g s) queue l.
Proof.
  intros Hn Hp HQ. eapply mesgq_same; [done|..]; intros x; unfold moved.
  - by rewrite !get_fld_upd_other, !asked_fld by done.
  - by rewrite is_tcb_upd, asked_is_tcb.
Qed.

(** Link changes commute with the move. *)
Lemma mframe_moved t g s s' :
  (forall x, unlink_mesg (g x) = g (unlink_mesg x)) -> MFrame s s' -> MFrame (moved t g s) (moved t g s').
Proof.
  intros Hg F. pose proof (mf_globals _ _ F) as G. split.
  - unfold moved, upd_tcb, asked. rewrite G. cbn. by case_match.
  - intros p. unfold moved, upd_tcb. cbn. pose proof (mf_threads _ _ F p) as T. destruct (decide (t = p)) as [->|].
    + rewrite !lookup_alter_eq, !asked_threads.
      destruct (threads s' !! p), (threads s !! p); cbn in *; try done. apply (inj Some) in T. by rewrite !Hg, T.
    + rewrite !lookup_alter_ne, !asked_threads by done. done.
Qed.

(** A new state word and object for [t], then changes of message links, then of the node. *)
Lemma iframe_intro t node g s s' M :
  (forall x, with_obj_ptr 0 (with_obj_state 0 (unlink_mesg (g x))) = with_obj_ptr 0 (with_obj_state 0 (unlink_mesg x))) ->
  MFrame (moved t g s) s' -> (forall n, n <> node -> M !! n = messages s !! n) -> IFrame t node s (with_messages M s').
Proof.
  intros Hg [G T] HM. unfold moved in *. split; cbn [threads messages scheduler_action with_messages].
  - rewrite G. unfold upd_tcb, asked. case_match; by destruct s.
  - rewrite G. done.
  - intros p Hp. rewrite T. unfold upd_tcb. cbn. rewrite lookup_alter_ne, asked_threads by done. done.
  - specialize (T t). unfold upd_tcb in T. cbn in T. rewrite lookup_alter_eq, asked_threads in T.
    destruct (threads s' !! t) as [x'|], (threads s !! t) as [x|]; cbn in *; try done. f_equal.
    apply (inj Some) in T. rewrite T. apply Hg.
  - done.
Qed.

Lemma wp_block_on_message t node blocked st st0 l (Q : unit -> kstate -> Prop) s :
  MsgNode s node st0 l -> is_tcb s t -> t <> 0 -> t ∉ l -> Z.land blocked state_queued_state = 0 ->
  (forall s', IFrame t node s s' -> MsgNode s' node st (l ++ [t]) -> get_fld obj_state 0 s' t = blocked ->
     get_fld obj_ptr 0 s' t = node -> mlinks_except (l ++ [t]) s s' -> Q tt s') ->
  wp (block_on_message t node blocked st) Q s.
Proof.
  intros (queue & Em & HM) Ht Ht0 Hnin Hb HQ. unfold block_on_message. wp_steps.
  apply wp_stop_thread; [done|done|done|]. rewrite asked_upd. wp_steps.
  unfold set_thread_state_object. wp_steps. apply wp_assert; [by apply negb_true_iff, Z.eqb_neq|]. wp_steps.
  apply wp_wr; [by rewrite is_tcb_upd, asked_is_tcb|]. wp_steps.
  set (g := fun x => with_obj_ptr node (with_obj_state blocked x)).
  assert (Es : upd_tcb t (with_obj_ptr node) (upd_tcb t (with_obj_state blocked) (asked t s)) = moved t g s).
  { apply upd_tcb_twice. }
  rewrite Es.
  apply wp_schedule_tcb_stopped.
  { unfold moved. by rewrite is_tcb_upd, asked_is_tcb. }
  { unfold moved. unfold get_fld, upd_tcb. cbn. rewrite lookup_alter_eq, asked_threads. destruct (threads s !! t); [|done].
    cbn. unfold is_runnable, g. cbn. by rewrite Hb. }
  unfold moved. rewrite asked_upd, asked_idem. fold (moved t g s). wp_steps. eapply wp_rd_msg.
  { unfold moved, upd_tcb. cbn. by rewrite asked_messages. }
  wp_steps. cbn [msg_queue].
  eapply wp_message_append; [by apply mesgq_moved|by unfold moved; rewrite is_tcb_upd, asked_is_tcb|done|done|].
  intros s' queue' F HM' Hl. wp_steps.
  assert (Em' : messages s' !! node = Some (mk_message st0 queue)).
  { rewrite (mf_globals _ _ F). cbn. unfold moved, upd_tcb. cbn. by rewrite asked_messages. }
  eapply wp_wr_msg; [done|]. wp_steps. eapply wp_wr_msg; [cbn; apply lookup_insert_eq|].
  cbn [messages with_messages]. change (with_messages ?a (with_messages ?b ?c)) with (with_messages a c).
  rewrite insert_insert_eq. unfold with_msg_state, with_msg_queue. cbn.
  apply HQ.
  - apply (iframe_intro t node g); [by intros []|exact F|]. intros n Hn. rewrite lookup_insert_ne by done.
    rewrite (mf_globals _ _ F). cbn. unfold moved, upd_tcb. cbn. by rewrite asked_messages.
  - eexists. split; [apply lookup_insert_eq|]. by eapply mesgq_same.
  - change (get_fld obj_state 0 s' t = blocked). rewrite (mframe_fld _ _ _ _ _ F) by done.
    unfold moved. erewrite get_fld_upd_same; [by rewrite decide_True|by rewrite asked_is_tcb|done].
  - change (get_fld obj_ptr 0 s' t = node). rewrite (mframe_fld _ _ _ _ _ F) by done.
    unfold moved. erewrite get_fld_upd_same; [by rewrite decide_True|by rewrite asked_is_tcb|done].
  - intros x Hx. destruct (Hl x Hx) as [E1 E2]. change (mnext s' x = mnext s x /\ mprev s' x = mprev s x).
    rewrite E1, E2. unfold moved. by rewrite !get_fld_upd_other, !asked_fld by done.
Qed.

(** Nodes whose waiting threads are not touched keep their queues. *)
Lemma iframe_other_node t node s s' n st l links :
  IFrame t node s s' -> mlinks_except links s s' -> n <> node -> MsgNode s n st l -> l ## links -> MsgNode s' n st l.
Proof.
  intros F Hl Hn (queue & Em & [E Hd Hm]) Hdis. exists queue. rewrite (if_nodes _ _ _ _ F) by done. split; [done|split; [done|..]].
  - eapply dll_frame; [done|]. intros x Hx. apply Hl. set_solver.
  - intros x Hx. specialize (Hm x Hx). unfold is_tcb in *. destruct (decide (x = t)) as [->|Hxt].
    + pose proof (if_self _ _ _ _ F) as Es. destruct (threads s' !! t); [by eexists|]. destruct Hm as [? Hm]. by rewrite Hm in Es.
    + pose proof (if_others _ _ _ _ F x Hxt) as Es.
      destruct (threads s' !! x); [by eexists|]. destruct Hm as [? Hm]. by rewrite Hm in Es.
Qed.

(** The queue is stored; an empty one makes the node idle. *)
Lemma wp_store_queue {A} node st queue queue' l (k : unit -> K A) (Q : A -> kstate -> Prop) s :
  messages s !! node = Some (mk_message st queue) -> MesgQ s queue' l ->
  wp (k tt) Q (with_messages (<[node := mk_message (waiting_state st l) queue']> (messages s)) s) ->
  wp (wr_msg node (with_msg_queue queue')) (fun _ => wp
      ((if q_head queue' =? NULL then wr_msg node (with_msg_state message_state_idle) else skip) ≫= k) Q) s.
Proof.
  intros Em [-> Hd _] HQ. wp_steps. eapply wp_wr_msg; [done|]. wp_steps. cbn [q_head].
  pose proof (first_null l (dll_nonnull _ _ _ Hd)) as Hf. destruct (Z.eqb_spec (first 0 l) NULL) as [E|E].
  - apply Hf in E as ->. eapply wp_wr_msg; [cbn; apply lookup_insert_eq|]. cbn [messages with_messages].
    change (with_messages ?a (with_messages ?b ?c)) with (with_messages a c). by rewrite insert_insert_eq.
  - wp_steps. by destruct l.
Qed.

Lemma wp_store_message_queue node st queue queue' l (Q : unit -> kstate -> Prop) s :
  messages s !! node = Some (mk_message st queue) -> MesgQ s queue' l ->
  Q tt (with_messages (<[node := mk_message (waiting_state st l) queue']> (messages s)) s) ->
  wp (store_message_queue node queue') Q s.
Proof.
  intros Em [-> Hd _] HQ. unfold store_message_queue. wp_steps. cbn [q_head].
  pose proof (first_null l (dll_nonnull _ _ _ Hd)) as Hf. destruct (Z.eqb_spec (first 0 l) NULL) as [E|E].
  - apply Hf in E as ->. eapply wp_wr_msg; [done|]. eapply wp_wr_msg; [cbn; apply lookup_insert_eq|].
    cbn [messages with_messages].
    change (with_messages ?a (with_messages ?b ?c)) with (with_messages a c). by rewrite insert_insert_eq.
  - wp_steps. eapply wp_wr_msg; [done|]. by destruct l.
Qed.

(** [t] left the queue of [node], which keeps [l] waiting, and is to be restarted. *)
Lemma wp_cancel_blocked t node st l1 l2 w (Q : unit -> kstate -> Prop) s :
  MsgNode s node st (l1 ++ t :: l2) -> st <> message_state_idle ->
  w = state_send_blocked_state \/ w = state_recv_blocked_state ->
  get_fld obj_state 0 s t = w -> get_fld obj_ptr 0 s t = node ->
  (forall s', IFrame t node s s' -> MsgNode s' node (waiting_state st (l1 ++ l2)) (l1 ++ l2) ->
     get_fld obj_state 0 s' t = state_restart_state -> get_fld obj_ptr 0 s' t = node ->
     mlinks_except (l1 ++ l2) s s' -> Q tt s') ->
  wp (cancel_ipc t) Q s.
Proof.
  intros (queue & Em & HM) Hst Hw Ew En HQ.
  assert (Ht : is_tcb s t) by (apply (mq_member _ _ _ HM); set_solver).
  assert (Ht0 : t <> 0). { destruct (dll_neighbours _ _ _ (mq_dll _ _ _ HM)) as (_ & ? & _). done. }
  assert (Hb : (w =? state_send_blocked_state) || (w =? state_recv_blocked_state) = true) by (destruct Hw as [->| ->]; done).
  unfold cancel_ipc. wp_steps. apply wp_assert; [by apply negb_true_iff, Z.eqb_neq|]. wp_steps.
  unfold get_thread_object_state. wp_steps. apply wp_assert; [by apply negb_true_iff, Z.eqb_neq|]. wp_steps.
  apply (wp_rd _ _ 0); [done|]. rewrite Ew, Hb. wp_steps.
  unfold get_thread_state_object. wp_steps. apply wp_assert; [by apply negb_true_iff, Z.eqb_neq|]. wp_steps.
  apply (wp_rd _ _ 0); [done|]. rewrite En. wp_steps. eapply wp_rd_msg; [done|]. wp_steps.
  apply wp_assert; [cbn; by rewrite bool_decide_eq_false_2|]. wp_steps. cbn [msg_queue].
  eapply wp_message_dequeue; [done|]. intros s1 queue' F1 HM1 Hl1. wp_steps.
  assert (Em1 : messages s1 !! node = Some (mk_message st queue)) by (by rewrite (mf_globals _ _ F1)).
  set (s2 := with_messages (<[node := mk_message (waiting_state st (l1 ++ l2)) queue']> (messages s1)) s1).
  eapply wp_store_queue; [done|done|]. fold s2.
  apply wp_stop_thread; [|done|done|].
  { unfold s2. change (is_tcb s1 t). by rewrite (mframe_is_tcb _ _ _ F1). }
  rewrite asked_upd. fold (moved t (with_obj_state state_restart_state) s2).
  assert (Hc : moved t (with_obj_state state_restart_state) s2 =
    with_messages (messages s2) (moved t (with_obj_state state_restart_state) s1)).
  { unfold moved, upd_tcb, asked, s2. cbn. by case_match. }
  rewrite Hc. set (g := with_obj_state state_restart_state).
  apply HQ.
  - eapply (iframe_intro t node g); [by intros []|apply mframe_moved; [by intros []..|done]|].
    intros n Hn. unfold s2. cbn [messages with_messages]. rewrite lookup_insert_ne by done. by rewrite (mf_globals _ _ F1).
  - eexists. split; [unfold s2; cbn; apply lookup_insert_eq|].
    eapply (mesgq_same (moved t g s1)); [by apply mesgq_moved|done|done].
  - change (get_fld obj_state 0 (moved t g s1) t = state_restart_state). unfold moved.
    erewrite get_fld_upd_same; [by rewrite decide_True|by rewrite asked_is_tcb, (mframe_is_tcb _ _ _ F1)|done].
  - change (get_fld obj_ptr 0 (moved t g s1) t = node). unfold moved.
    rewrite get_fld_upd_other, asked_fld by done. by rewrite (mframe_fld _ _ _ _ _ F1).
  - intros x Hx. change (mnext (moved t g s1) x = mnext s x /\ mprev (moved t g s1) x = mprev s x). unfold moved.
    rewrite !get_fld_upd_other, !asked_fld by done. by apply Hl1.
Qed.

(** ** Message registers *)

(** [to] with message register [i] of the saved context set to [v]. *)
Definition put_mr (to : Z) (i : nat) (v : Z) (s : kstate) : kstate := upd_tcb to (fun x => with_mr (<[i := v]> (mr x)) x) s.

Definition has_regs (s : kstate) (t : Z) : Prop := is_tcb s t /\ length (mr_of s t) = 8%nat.

Lemma put_mr_fld {A} (f : ktcb -> A) d to i v s p :
  (forall m x, f (with_mr m x) = f x) -> get_fld f d (put_mr to i v s) p = get_fld f d s p.
Proof. intros Hf. unfold put_mr. by rewrite get_fld_upd_other. Qed.

Lemma put_mr_mr to i v s p :
  mr_of (put_mr to i v s) p = if decide (p = to) then <[i := v]> (mr_of s p) else mr_of s p.
Proof.
  unfold get_fld, put_mr, upd_tcb. cbn. destruct (decide (p = to)) as [->|].
  - rewrite lookup_alter_eq. by destruct (threads s !! to).
  - by rewrite lookup_alter_ne.
Qed.

Lemma has_regs_put s to i v t : has_regs s t -> has_regs (put_mr to i v s) t.
Proof.
  intros [Ht Hl]. split; [by apply is_tcb_upd|]. rewrite put_mr_mr. case_decide; [|done]. by rewrite length_insert.
Qed.

Lemma put_mr_twice to i v s : put_mr to i v (put_mr to i v s) = put_mr to i v s.
Proof.
  unfold put_mr. rewrite upd_tcb_twice. unfold upd_tcb. f_equal.
  apply map_eq. intros p. destruct (decide (to = p)) as [->|]; [|by rewrite !lookup_alter_ne].
  rewrite !lookup_alter_eq. destruct (threads s !! p) as [x|]; [|done]. cbn. by rewrite list_insert_insert_eq.
Qed.

Lemma wp_load_mr t i v (Q : Z -> kstate -> Prop) s :
  is_tcb s t -> mr_of s t !! Z.to_nat i = Some v -> 0 <= i -> Q v s -> wp (load_mr t i) Q s.
Proof.
  intros Ht Hv Hi HQ. unfold load_mr. wp_steps. apply (wp_rd _ _ []); [done|]. rewrite index_nonneg by done. by eapply wp_ofopt.
Qed.

Lemma wp_store_mr t i v (Q : unit -> kstate -> Prop) s :
  has_regs s t -> 0 <= i < 8 -> Q tt (put_mr t (Z.to_nat i) v s) -> wp (store_mr t i v) Q s.
Proof.
  intros [Ht Hl] Hi HQ. unfold store_mr. wp_steps. apply (wp_rd _ _ []); [done|].
  destruct (lookup_lt_is_Some_2 (mr_of s t) (Z.to_nat i)) as [w Hw]; [lia|].
  rewrite index_nonneg by lia. wp_steps. eapply wp_ofopt; [done|]. wp_steps. apply wp_wr; [done|].
  enough (upd_tcb t (with_mr (<[Z.to_nat i := v]> (mr_of s t))) s = put_mr t (Z.to_nat i) v s) as -> by done.
  unfold put_mr, upd_tcb. f_equal. apply map_eq. intros p. destruct (decide (t = p)) as [->|]; [|by rewrite !lookup_alter_ne].
  rewrite !lookup_alter_eq. unfold get_fld. by destruct (threads s !! p).
Qed.

(** The slot of message registers 0, 1 and 2. *)
Lemma wp_load_message t i v (Q : Z -> kstate -> Prop) s :
  is_tcb s t -> 0 <= i <= 2 -> mr_of s t !! Z.to_nat (i + 5) = Some v -> Q v s -> wp (load_message_registers t i) Q s.
Proof.
  intros Ht Hi Hv HQ. unfold load_message_registers. assert (i = 0 \/ i = 1 \/ i = 2) as [->|[->| ->]] by lia; cbn [Z.eqb];
    by eapply wp_load_mr.
Qed.

Lemma wp_store_message t i v (Q : unit -> kstate -> Prop) s :
  has_regs s t -> 0 <= i <= 2 -> Q tt (put_mr t (Z.to_nat (i + 5)) v s) -> wp (store_message_registers t i v) Q s.
Proof.
  intros Ht Hi HQ. unfold store_message_registers. assert (i = 0 \/ i = 1 \/ i = 2) as [->|[->| ->]] by lia; cbn [Z.eqb];
    by apply wp_store_mr.
Qed.

(** Copying one register again changes nothing, so the long loop is one copy. *)
Lemma wp_untyped_loop fuel st rt last w (Q : unit -> kstate -> Prop) s :
  has_regs s st -> has_regs s rt -> mr_of s st !! 6%nat = Some w -> 1 < last < 2 ^ 32 -> 2 ^ 32 - last < Z.of_nat fuel ->
  Q tt (put_mr rt 6 w s) -> wp (untyped_loop fuel st rt 1 last) Q s.
Proof.
  revert last s. induction fuel as [|fuel IH]; intros last s Hs Hr Hw Hlast Hf HQ; [lia|].
  cbn [untyped_loop]. rewrite (proj2 (Z.ltb_lt 1 last)) by lia. wp_steps.
  apply (wp_load_message st 1 w); [apply Hs|lia|done|]. wp_steps. apply (wp_store_message rt 1); [done|lia|].
  change (Z.to_nat (1 + 5)) with 6%nat. destruct (decide (last = 2 ^ 32 - 1)) as [->|Hl].
  - destruct fuel; [lia|]. cbn [untyped_loop]. change (1 <? u32 (2 ^ 32 - 1 + 1)) with false. by wp_steps.
  - rewrite u32_small by lia. apply IH; [by apply has_regs_put|by apply has_regs_put| |lia|lia|by rewrite put_mr_twice].
    rewrite put_mr_mr. case_decide as Eq; [|done]. rewrite list_lookup_insert_eq; [done|]. destruct Hs as [_ ->]. lia.
Qed.

(** An indeterminate word that encodes no item. *)
Definition no_item (s : kstate) (i : Z) : Prop := Z.land (stale i s) 15 ∉ [8; 10; 12].

Lemma wp_no_item st rt u w (Q : unit -> kstate -> Prop) s :
  Z.land u 15 ∉ [8; 10; 12] -> Q tt s -> wp (typed_item_effect st rt (mk_item u w)) Q s.
Proof.
  intros Hn HQ. unfold typed_item_effect, message_get_encode. cbn [raw0].
  change MAP_ITEM with 8. change STRING_ITEM with 8. change GRANT_ITEM with 10. change CTRLXFER_ITEM with 12.
  rewrite (proj2 (Z.eqb_neq (Z.land u 15) 8)), (proj2 (Z.eqb_neq (Z.land u 15) 10)), (proj2 (Z.eqb_neq (Z.land u 15) 12)) by set_solver.
  by wp_steps.
Qed.

End IpcFacts.

(** ** Theorems *)

(** [t] waits at the tail of [node], with state word [w]; other nodes keep their queues. *)
Record blocks (t node w : Z) (st : message_state) (l : list Z) (s s' : kstate) : Prop := {
  bk_frame : IFrame t node s s';
  bk_node : MsgNode s' node st (l ++ [t]);
  bk_word : get_fld obj_state 0 s' t = w;
  bk_object : get_fld obj_ptr 0 s' t = node;
  bk_others : forall n st' l', n <> node -> MsgNode s n st' l' -> l' ## l ++ [t] -> MsgNode s' n st' l';
}.

(** The notification node of [t], if any, is an object and is not active. *)
Definition not_signalled (s : kstate) (t : Z) : Prop :=
  get_fld notifation_node 0 s t = NULL \/
  exists n, notifations s !! get_fld notifation_node 0 s t = Some n /\ ntf_state n <> notifation_state_active.

Section IpcTheorems.
Context `{Config} `{Platform} `{Services}.

Lemma wp_rd_ntf p n (Q : notifation -> kstate -> Prop) s : notifations s !! p = Some n -> Q n s -> wp (rd_ntf p) Q s.
Proof. intros E HQ. unfold rd_ntf. wp_steps. by eapply wp_ofopt. Qed.

(** The prefix of [receive_ipc] up to the node, when no signal is pending. *)
Lemma wp_receive_unsignalled t (blocking : bool) node m (Q : unit -> kstate -> Prop) s :
  is_tcb s t -> t <> 0 -> node <> 0 -> not_signalled s t -> messages s !! node = Some m ->
  wp (match msg_state m with
      | message_state_idle | message_state_recv =>
        if blocking then block_on_message t node state_recv_blocked_state message_state_recv else skip
      | message_state_send =>
        let s_thread := q_head (msg_queue m) in
        assert_ (negb (s_thread =? NULL));;
        queue ← message_dequeue s_thread (msg_queue m);
        wr_msg node (with_msg_queue queue);;
        (if q_head queue =? NULL then wr_msg node (with_msg_state message_state_idle) else skip);;
        e ← message_exchange s_thread t;
        if e =? EXCEPTION_NONE then
          set_thread_state s_thread state_queued_state;;
          possible_switchto s_thread;;
          assert_sched_or s_thread (fun sp => thread_refill_sufficient sp 0)
        else skip
      end) Q s -> wp (receive_ipc t blocking node) Q s.
Proof.
  intros Ht Ht0 Hn0 Hs Em HQ. unfold receive_ipc. wp_steps. apply wp_assert; [by apply negb_true_iff, Z.eqb_neq|]. wp_steps.
  apply wp_assert; [by apply negb_true_iff, Z.eqb_neq|]. wp_steps. apply (wp_rd _ _ 0); [done|]. wp_steps.
  apply (wp_mono _ (fun b s' => b = false /\ s' = s)).
  - destruct (Z.eqb_spec (get_fld notifation_node 0 s t) NULL) as [E|E]; [by wp_steps|].
    destruct Hs as [?|(n & En & Hna)]; [done|]. wp_steps. eapply wp_rd_ntf; [done|]. wp_steps.
    split; [|done]. by apply bool_decide_eq_false_2.
  - intros ? ? [-> ->]. wp_steps. eapply wp_rd_msg; [done|]. exact HQ.
Qed.

(** Lemma: blocking IPC queues in order.  A blocking send to a node at which nobody waits to receive,
    and a blocking receive from a node at which nobody waits to send (with no signal
    pending), complete; the thread is appended to the node's queue, its state word and
    object name the node, a current thread asks for a new choice, and no other node,
    queue or thread changes. *)
Theorem ipc_blocks_in_order s t node st l donate :
  MsgNode s node st l -> is_tcb s t -> t <> 0 -> node <> 0 -> t ∉ l ->
  (st <> message_state_recv -> exists s', send_ipc t true donate node s = Done tt s' /\
     blocks t node state_send_blocked_state message_state_send l s s') /\
  (st <> message_state_send -> not_signalled s t -> exists s', receive_ipc t true node s = Done tt s' /\
     blocks t node state_recv_blocked_state message_state_recv l s s').
Proof.
  intros HN Ht Ht0 Hn0 Hnin. pose proof HN as (queue & Em & HM). split.
  - intros Hst. apply run_unit. unfold send_ipc. wp_steps. apply wp_assert; [by apply negb_true_iff, Z.eqb_neq|]. wp_steps.
    apply wp_assert; [by apply negb_true_iff, Z.eqb_neq|]. wp_steps. eapply wp_rd_msg; [done|]. cbn [msg_state].
    assert (Hgo : wp (block_on_message t node state_send_blocked_state message_state_send)
      (fun _ => blocks t node state_send_blocked_state message_state_send l s) s).
    { eapply wp_block_on_message; [done|done|done|done|done|]. intros s' F HN' Ew Ep Hl. split; [done..|].
      intros n st' l' Hn HN2 Hd. by eapply iframe_other_node. }
    by destruct st.
  - intros Hst Hsig. apply run_unit. eapply wp_receive_unsignalled; [done..|]. cbn [msg_state].
    assert (Hgo : wp (block_on_message t node state_recv_blocked_state message_state_recv)
      (fun _ => blocks t node state_recv_blocked_state message_state_recv l s) s).
    { eapply wp_block_on_message; [done|done|done|done|done|]. intros s' F HN' Ew Ep Hl. split; [done..|].
      intros n st' l' Hn HN2 Hd. by eapply iframe_other_node. }
    by destruct st.
Qed.

(** Lemma: cancelling IPC.  [cancel_ipc] takes a thread that waits at a node out of the node's queue,
    wherever it stands, keeps the order of the others, makes the node idle exactly when
    nobody waits any more, and leaves the thread to be restarted; other nodes, queues and
    threads do not change. *)
Theorem cancel_ipc_unblocks s t node st l1 l2 :
  MsgNode s node st (l1 ++ t :: l2) -> st <> message_state_idle ->
  get_fld obj_state 0 s t = state_send_blocked_state \/ get_fld obj_state 0 s t = state_recv_blocked_state ->
  get_fld obj_ptr 0 s t = node ->
  exists s', cancel_ipc t s = Done tt s' /\ IFrame t node s s' /\
    MsgNode s' node (waiting_state st (l1 ++ l2)) (l1 ++ l2) /\ get_fld obj_state 0 s' t = state_restart_state /\
    (forall n st' l', n <> node -> MsgNode s n st' l' -> l' ## l1 ++ l2 -> MsgNode s' n st' l').
Proof.
  intros HN Hst Hw Hp. apply run_unit. eapply wp_cancel_blocked; [done|done|done|done|done|].
  intros s' F HN' Ew Ep Hl. split; [done|]. split; [done|]. split; [done|].
  intros n st' l' Hn HN2 Hd. by eapply iframe_other_node.
Qed.

(** A thread without scheduling context, or with one that exists. *)
Definition sched_valid (s : kstate) (t : Z) : Prop := sched_of s t = NULL \/ is_Some (scheds s !! sched_of s t).

(** [set_thread_state] to queued; a current thread without budget asks for a new choice. *)
Lemma wp_set_queued t (Q : unit -> kstate -> Prop) s :
  is_tcb s t -> t <> 0 -> sched_valid s t ->
  (forall a, a = scheduler_action s \/
     t = current_thread s /\ scheduler_action s = SCHEDULER_ACTION_RESUME_CURRENT_THREAD /\ a = SCHEDULER_ACTION_CHOOSE_NEW_THREAD ->
     Q tt (with_scheduler_action a (upd_tcb t (with_obj_state state_queued_state) s))) ->
  wp (set_thread_state t state_queued_state) Q s.
Proof.
  intros Ht Ht0 Hs HQ. unfold set_thread_state. wp_steps. apply wp_assert; [by apply negb_true_iff, Z.eqb_neq|].
  wp_steps. apply wp_wr; [done|]. set (s1 := upd_tcb t (with_obj_state state_queued_state) s).
  assert (Hsame : Q tt s1).
  { replace s1 with (with_scheduler_action (scheduler_action s) s1) by (unfold s1; by destruct s). apply HQ. by left. }
  unfold schedule_tcb. wp_steps. change (current_thread s1) with (current_thread s). change (scheduler_action s1) with (scheduler_action s).
  destruct (Z.eqb_spec t (current_thread s)) as [Ec|]; cbn [andb]; [|by wp_steps].
  destruct (Z.eqb_spec (scheduler_action s) SCHEDULER_ACTION_RESUME_CURRENT_THREAD) as [Ea|]; [|by wp_steps].
  wp_steps. apply (wp_mono _ (fun _ s' => s' = s1)).
  - unfold is_schedulable. wp_steps. apply (wp_rd _ _ 0); [by apply is_tcb_upd|]. unfold s1. fld.
    destruct (Z.eqb_spec (get_fld sched 0 s t) NULL) as [E|E]; [by wp_steps|]. destruct Hs as [?|[sc Esc]]; [done|].
    wp_steps. apply (wp_rd _ _ false); [by apply is_tcb_upd|]. case_match; [|by wp_steps].
    wp_steps. eapply wp_rd_sched; [exact Esc|]. by wp_steps.
  - intros b ? ->. case_match; [|by wp_steps]. apply wp_reschedule_resume; [done|]. apply HQ. by right.
Qed.

Lemma wp_message_exchange st rt tag (Q : Z -> kstate -> Prop) s :
  has_regs s st -> st <> 0 -> rt <> 0 -> mr_of s st !! 5%nat = Some tag -> wp (transfer st rt tag) Q s ->
  wp (message_exchange st rt) Q s.
Proof.
  intros Hs Hs0 Hr0 Htag HQ. unfold message_exchange. wp_steps.
  apply wp_assert; [by rewrite (proj2 (Z.eqb_neq st NULL)), (proj2 (Z.eqb_neq rt NULL))|]. wp_steps.
  by apply (wp_load_message st 0 tag); [apply Hs|lia|done|].
Qed.

Notation tag_words tag := (message_get_tag_u tag + message_get_tag_t tag).

(** C13: transfer of a message.  A message without words transfers its tag, and nothing else changes;
    a message that claims more words than there are registers is refused with an
    overflow status, both parties become runnable, and no register changes. *)
Theorem message_exchange_exact s st rt tag :
  has_regs s st -> has_regs s rt -> st <> 0 -> rt <> 0 -> mr_of s st !! 5%nat = Some tag ->
  (tag_words tag = 0 -> message_exchange st rt s = Done EXCEPTION_NONE (put_mr rt 5 tag s)) /\
  (15 < tag_words tag -> sched_valid s st -> sched_valid s rt ->
     exists s', message_exchange st rt s = Done EXCEPTION_FAULT s' /\ current_kernel_status_code s' = IPC_MSG_OVERFLOW /\
       get_fld obj_state 0 s' st = state_queued_state /\ get_fld obj_state 0 s' rt = state_queued_state /\
       (forall p, mr_of s' p = mr_of s p) /\ utcbs s' = utcbs s).
Proof.
  intros Hs Hr Hs0 Hr0 Htag.
  assert (Hu : 0 <= message_get_tag_u tag) by (apply Z.land_nonneg; lia).
  assert (Hk : 0 <= message_get_tag_t tag) by (apply Z.land_nonneg; lia).
  split.
  - intros E. assert (message_get_tag_u tag = 0) as Eu by lia. assert (message_get_tag_t tag = 0) as Et by lia.
    apply run_done. eapply wp_message_exchange; [done..|]. unfold transfer. cbv zeta.
    unfold MESSAGE_REGISTER_NUM. rewrite (proj2 (Z.ltb_ge 16 _)) by lia. wp_steps.
    apply (wp_store_message rt 0); [done|lia|]. rewrite Eu, Et. by wp_steps.
  - intros Hov Hvs Hvr. 
    enough (W : wp (message_exchange st rt) (fun e s' => e = EXCEPTION_FAULT /\ current_kernel_status_code s' = IPC_MSG_OVERFLOW /\
       get_fld obj_state 0 s' st = state_queued_state /\ get_fld obj_state 0 s' rt = state_queued_state /\
       (forall p, mr_of s' p = mr_of s p) /\ utcbs s' = utcbs s) s).
    { apply wp_run in W as (e & s' & Er & -> & W). eauto. }
    eapply wp_message_exchange; [done..|]. unfold transfer. cbv zeta. unfold MESSAGE_REGISTER_NUM.
    rewrite (proj2 (Z.ltb_lt 16 _)) by lia.
    wp_steps. apply wp_set_queued; [apply Hs|done|done|]. intros a _. wp_steps.
    apply wp_set_queued; [apply is_tcb_upd, Hr|done| |].
    { unfold sched_valid in *. by fld. }
    intros a' _. wp_steps. split; [done|]. split; [done|]. destruct Hs as [Hs _], Hr as [Hr _].
    split; [by fld; repeat case_decide|]. split; [by fld; rewrite decide_True|]. split; [|done]. intros p. by fld.
Qed.

(** The state once the tag and the untyped words were copied. *)
Definition tagged (rt tag w : Z) (s : kstate) : kstate :=
  if 0 <? message_get_tag_u tag then put_mr rt 6 w (put_mr rt 5 tag s) else put_mr rt 5 tag s.

Lemma has_regs_tagged rt tag w s t : has_regs s t -> has_regs (tagged rt tag w s) t.
Proof. intros Ht. unfold tagged. case_match; repeat apply has_regs_put; done. Qed.

Lemma utcbs_tagged rt tag w s : utcbs (tagged rt tag w s) = utcbs s.
Proof. unfold tagged. by case_match. Qed.

(** The register part of [transfer], up to the loop over typed words. *)
Lemma wp_untyped_part st rt tag w (Q : unit -> kstate -> Prop) s :
  has_regs s st -> has_regs s rt -> mr_of s st !! 6%nat = Some w -> Q tt (tagged rt tag w s) ->
  wp (store_message_registers rt 0 (message_get_tag tag)) (fun _ => wp
      (if 1 <? message_get_tag_u tag + 1
       then untyped_loop (Z.to_nat (2 ^ 32)) st rt 1 (message_get_tag_u tag + 1) else skip) Q) s.
Proof.
  intros Hs Hr Hw HQ. apply (wp_store_message rt 0); [done|lia|]. change (Z.to_nat (0 + 5)) with 5%nat.
  unfold tagged, message_get_tag_u in *. pose proof (Z.land_nonneg tag 63) as Hu.
  assert (Z.land tag 63 < 64). { change 63 with (Z.ones 6). rewrite Z.land_ones by lia. apply Z.mod_pos_bound. lia. }
  destruct (Z.ltb_spec 1 (Z.land tag 63 + 1)), (Z.ltb_spec 0 (Z.land tag 63)); try lia; [|by wp_steps].
  apply (wp_untyped_loop _ st rt _ w); [by apply has_regs_put|by apply has_regs_put| |lia|lia|done].
  rewrite put_mr_mr. case_decide; [|done]. by rewrite list_lookup_insert_ne.
Qed.

(** Register 3 is looked up eight words before the start of the user buffer. *)
Lemma load_message_3_faults st s :
  is_tcb s st -> (forall u m, utcbs s !! u = Some m -> length m = 8%nat) -> fails (load_message_registers st 3) Fault s.
Proof.
  intros Ht Hu. unfold load_message_registers, load_utcb. cbn [Z.eqb Pos.eqb]. apply fails_step. apply (wp_rd _ _ 0); [done|].
  apply (fails_step get). wp_steps. destruct (utcbs s !! get_fld user 0 s st) as [m|] eqn:Em; [|by apply fails_bind].
  apply fails_step. eapply wp_ofopt; [done|]. unfold fails, ofopt. change (u32 (3 - 8)) with 4294967291.
  rewrite index_nonneg, lookup_ge_None_2; [done| |lia]. rewrite (Hu _ _ Em). lia.
Qed.

Lemma typed_loop_faults fuel st rt last s :
  has_regs s st -> has_regs s rt -> (3 <= fuel)%nat -> 4 <= last ->
  (forall u m, utcbs s !! u = Some m -> length m = 8%nat) -> (forall s, no_item s 2) ->
  fails (typed_loop fuel st rt 1 last 0) Fault s.
Proof.
  intros Hs Hr Hf Hlast Hu Hn. destruct fuel as [|[|[|fuel]]]; [lia..|].
  assert (Hany : forall s' (i : nat), has_regs s' st -> (i < 8)%nat -> exists v, mr_of s' st !! i = Some v).
  { intros s' i [_ E] Hi. apply lookup_lt_is_Some_2. lia. }
  cbn [typed_loop]. rewrite (proj2 (Z.ltb_lt 1 last)) by lia. apply fails_step.
  destruct (Hany s 6%nat Hs) as [v Hv]; [lia|]. apply (wp_load_message st 1 v); [apply Hs|lia|done|].
  apply (fails_step (gets _)). wp_steps. cbn [Z.eqb]. apply fails_step. apply (wp_store_message rt 1); [done|lia|].
  set (s2 := put_mr rt (Z.to_nat (1 + 5)) (stale 1 s) s). change (1 + 1) with 2.
  assert (Hs2 : has_regs s2 st) by (by apply has_regs_put). assert (Hr2 : has_regs s2 rt) by (by apply has_regs_put).
  rewrite (proj2 (Z.ltb_lt 2 last)) by lia. apply fails_step.
  destruct (Hany s2 7%nat Hs2) as [v2 Hv2]; [lia|]. apply (wp_load_message st 2 v2); [apply Hs2|lia|done|].
  apply (fails_step (gets _)). wp_steps. cbn [Z.eqb]. apply fails_step. apply (wp_store_message rt 2); [done|lia|].
  apply fails_step. apply wp_no_item; [apply Hn|]. change (2 + 1) with 3.
  rewrite (proj2 (Z.ltb_lt 3 last)) by lia. apply fails_bind. apply load_message_3_faults; [|exact Hu].
  by apply is_tcb_upd, Hs2.
Qed.

(** Lemma: message words are lost.  A message of one word delivers an indeterminate word in place of it;
    a message of three to fifteen words reads a register outside the user buffer and
    stops (as long as the indeterminate words do not encode a page operation). *)
Theorem message_words_lost s st rt tag w :
  has_regs s st -> has_regs s rt -> st <> 0 -> rt <> 0 -> mr_of s st !! 5%nat = Some tag -> mr_of s st !! 6%nat = Some w ->
  (tag_words tag = 1 ->
     message_exchange st rt s = Done EXCEPTION_NONE (put_mr rt 6 (stale 1 (tagged rt tag w s)) (tagged rt tag w s))) /\
  (3 <= tag_words tag <= 15 -> (forall u m, utcbs s !! u = Some m -> length m = 8%nat) -> (forall s, no_item s 2) ->
     message_exchange st rt s = Fail Fault).
Proof.
  intros Hs Hr Hs0 Hr0 Htag Hw. pose proof (has_regs_tagged rt tag w s st Hs) as Hs1. pose proof (has_regs_tagged rt tag w s rt Hr) as Hr1.
  set (s1 := tagged rt tag w s) in *.
  assert (Hany : forall s' (i : nat), has_regs s' st -> (i < 8)%nat -> exists v, mr_of s' st !! i = Some v).
  { intros s' i [_ E] Hi. apply lookup_lt_is_Some_2. lia. }
  split.
  - intros E. apply run_done. eapply wp_message_exchange; [done..|]. unfold transfer. cbv zeta.
    unfold MESSAGE_REGISTER_NUM. rewrite (proj2 (Z.ltb_ge 16 _)) by lia. wp_steps.
    eapply wp_mono; [apply (wp_untyped_part st rt tag w (fun _ s' => s' = s1)); done|]. intros u s' HW. wp_steps.
    eapply wp_mono; [exact HW|]. intros u2 s2 E2; change (s2 = s1) in E2. rewrite E2. wp_steps.
    replace (message_get_tag_t tag + (message_get_tag_u tag + 1)) with 2 by lia. change (Z.to_nat (2 + 1)) with 3%nat.
    cbn [typed_loop Z.ltb Z.compare Pos.compare Pos.compare_cont Z.eqb]. wp_steps.
    destruct (Hany s1 6%nat Hs1) as [v Hv]; [lia|]. apply (wp_load_message st 1 v); [apply Hs1|lia|done|]. wp_steps.
    apply (wp_store_message rt 1); [done|lia|]. by wp_steps.
  - intros E Hu Hn. unfold message_exchange. apply fails_step.
    apply wp_assert; [by rewrite (proj2 (Z.eqb_neq st NULL)), (proj2 (Z.eqb_neq rt NULL))|].
    apply fails_step. apply (wp_load_message st 0 tag); [apply Hs|lia|done|]. unfold transfer. cbv zeta.
    unfold MESSAGE_REGISTER_NUM. rewrite (proj2 (Z.ltb_ge 16 _)) by lia. apply fails_step.
    eapply wp_mono; [apply (wp_untyped_part st rt tag w (fun _ s' => s' = s1)); done|]. intros u s' HW. apply fails_step.
    eapply wp_mono; [exact HW|]. intros u2 s2 E2; change (s2 = s1) in E2. rewrite E2. apply fails_bind.
    apply typed_loop_faults; [exact Hs1|exact Hr1|lia|lia| |exact Hn].
    intros u' m. unfold s1. rewrite utcbs_tagged. apply Hu.
Qed.

(** ** Rendezvous *)

(** [set_thread_state] on a thread that is not current. *)
Lemma wp_set_state_other t w (Q : unit -> kstate -> Prop) s :
  is_tcb s t -> t <> 0 -> t <> current_thread s -> Q tt (upd_tcb t (with_obj_state w) s) -> wp (set_thread_state t w) Q s.
Proof.
  intros Ht Ht0 Hc HQ. unfold set_thread_state. wp_steps. apply wp_assert; [by apply negb_true_iff, Z.eqb_neq|].
  wp_steps. apply wp_wr; [done|]. unfold schedule_tcb. wp_steps. cbn. apply Z.eqb_neq in Hc as ->. by wp_steps.
Qed.

(** A thread marked queued becomes the candidate of the next [schedule]. *)
Lemma wp_switchto_candidate t (Q : unit -> kstate -> Prop) s :
  is_tcb s t -> t <> 0 -> get_fld obj_state 0 s t = state_queued_state -> domain_of s t = current_domain s ->
  scheduler_action s = SCHEDULER_ACTION_RESUME_CURRENT_THREAD ->
  Q tt (with_scheduler_action t s) -> wp (possible_switchto t) Q s.
Proof.
  intros Ht Ht0 Ew Ed Ea HQ. unfold possible_switchto. rewrite (proj2 (Z.eqb_neq t NULL) Ht0). cbn [negb]. wp_steps.
  apply (wp_rd _ _ false); [done|]. assert (get_fld is_thread_ready false s t = true) as ->.
  { unfold get_fld in *. destruct (threads s !! t); [|by destruct Ht]. unfold is_thread_ready, is_thread_not_running. by rewrite Ew. }
  wp_steps. apply (wp_rd _ _ 0); [done|]. rewrite Ed, Ea, !Z.eqb_refl. cbn. by apply wp_modify.
Qed.

(** What a completed rendezvous leaves: the waiting thread [x] left the queue of [node] and
    is the scheduler's candidate, the tag went from [from] to [to], nothing else changed. *)
Record delivers (x from to node tag : Z) (st : message_state) (l : list Z) (s s' : kstate) : Prop := {
  dl_node : MsgNode s' node (waiting_state st l) l;
  dl_tag : mr_of s' to !! 5%nat = Some tag;
  dl_word : get_fld obj_state 0 s' x = state_queued_state;
  dl_action : scheduler_action s' = x;
  dl_words : forall p, p <> x -> get_fld obj_state 0 s' p = get_fld obj_state 0 s p;
  dl_regs : forall p, p <> to -> mr_of s' p = mr_of s p;
  dl_queues : ready_queues s' = ready_queues s /\ release_queue s' = release_queue s;
  dl_links : forall p, rnext s' p = rnext s p /\ rprev s' p = rprev s p;
}.

(** The final state of both directions. *)
Definition delivered (x to node tag : Z) (m : message) (s1 : kstate) : kstate :=
  with_scheduler_action x (upd_tcb x (with_obj_state state_queued_state)
    (put_mr to 5 tag (with_messages (<[node := m]> (messages s1)) s1))).

Ltac drop_action := change (get_fld ?f ?d (with_scheduler_action ?a ?b) ?p) with (get_fld f d b p).

Lemma delivers_intro x from to node tag st l queue s s1 :
  MFrame s s1 -> MesgQ s1 queue l -> has_regs s to -> is_tcb s x ->
  delivers x from to node tag st l s (delivered x to node tag (mk_message (waiting_state st l) queue) s1).
Proof.
  intros F HM [Hto Hlen] Hx. pose proof (mf_globals _ _ F) as G. unfold delivered.
  assert (Hx1 : is_tcb s1 x) by (by rewrite (mframe_is_tcb _ _ _ F)).
  assert (Hf : forall A (f : ktcb -> A) d p, (forall m x, f (with_mr m x) = f x) -> (forall w x, f (with_obj_state w x) = f x) ->
    get_fld f d (delivered x to node tag (mk_message (waiting_state st l) queue) s1) p = get_fld f d s1 p).
  { intros A f d p Hm Hw. unfold delivered. drop_action.
    rewrite get_fld_upd_other by done. by rewrite put_mr_fld. }
  split.
  - exists queue. split; [cbn; apply lookup_insert_eq|]. eapply mesgq_same; [done|..]; intros y; fold (delivered x to node tag
      (mk_message (waiting_state st l) queue) s1); [by rewrite !Hf|].
    intros Hy. unfold delivered. change (is_tcb (upd_tcb x (with_obj_state state_queued_state)
      (put_mr to 5 tag (with_messages (<[node := mk_message (waiting_state st l) queue]> (messages s1)) s1))) y).
    apply is_tcb_upd. unfold put_mr. by apply is_tcb_upd.
  - drop_action. rewrite get_fld_upd_other, put_mr_mr, decide_True by done. apply list_lookup_insert_eq.
    change (5 < length (mr_of s1 to))%nat. rewrite (mframe_fld _ _ _ _ _ F) by done. lia.
  - drop_action. erewrite get_fld_upd_same; [by rewrite decide_True| |done]. unfold put_mr. by apply is_tcb_upd.
  - done.
  - intros p Hp. drop_action.
    rewrite (get_fld_upd_same _ _ _ _ state_queued_state), decide_False; [|exact Hp|by unfold put_mr; apply is_tcb_upd|done].
    rewrite put_mr_fld by done. by rewrite <-(mframe_fld _ _ _ _ _ F).
  - intros p Hp. drop_action. rewrite get_fld_upd_other, put_mr_mr, decide_False by done. by rewrite <-(mframe_fld _ _ _ _ _ F).
  - cbn. by rewrite G.
  - intros p. fold (delivered x to node tag (mk_message (waiting_state st l) queue) s1). rewrite !Hf by done.
    by rewrite !(mframe_fld _ _ _ _ _ F).
Qed.

(** The thread at the head of the queue can be woken: it is not running, belongs to the
    current domain, no decision of the scheduler is pending, and its budget is usable. *)
Definition wakeable (s : kstate) (x : Z) : Prop :=
  x <> current_thread s /\ domain_of s x = current_domain s /\ scheduler_action s = SCHEDULER_ACTION_RESUME_CURRENT_THREAD /\
  (CONFIG_ASSERT = true -> sched_of s x = NULL \/ budget_ok s (sched_of s x)).

Lemma budget_ok_scheds s s' sp :
  scheds s' = scheds s -> current_time s' = current_time s -> budget_ok s sp -> budget_ok s' sp.
Proof. unfold budget_ok. by intros -> ->. Qed.

Lemma wp_assert_sched_or x test (Q : unit -> kstate -> Prop) s :
  is_tcb s x -> (CONFIG_ASSERT = true -> sched_of s x = NULL \/ budget_ok s (sched_of s x)) ->
  (forall sp, test sp = thread_refill_ready sp) \/ (forall sp, test sp = thread_refill_sufficient sp 0) ->
  Q tt s -> wp (assert_sched_or x test) Q s.
Proof.
  intros Hx Hb Htest HQ. apply wp_assert_m; [|done]. intros Ha. wp_steps. apply (wp_rd _ _ 0); [done|].
  destruct (Z.eqb_spec (get_fld sched 0 s x) NULL) as [E|E]; [by wp_steps|].
  destruct (Hb Ha) as [?|(sc & h & rest & Esc & R & Htm & Ham)]; [done|].
  destruct (wp_refill_checks _ _ _ _ _ Esc R Htm Ham) as [H1' H2'].
  destruct Htest as [Ht|Ht]; rewrite Ht; [by apply H1'|by apply H2'].
Qed.

(** The common end of both directions, from the state after the dequeue. *)
Lemma wp_exchange_label st rt tag (Q : Z -> kstate -> Prop) s :
  has_regs s st -> has_regs s rt -> st <> 0 -> rt <> 0 -> mr_of s st !! 5%nat = Some tag -> tag_words tag = 0 ->
  Q EXCEPTION_NONE (put_mr rt 5 tag s) -> wp (message_exchange st rt) Q s.
Proof.
  intros Hs Hr Hs0 Hr0 Htag E HQ. eapply wp_message_exchange; [done..|].
  assert (Hu : 0 <= message_get_tag_u tag) by (apply Z.land_nonneg; lia).
  assert (Hk : 0 <= message_get_tag_t tag) by (apply Z.land_nonneg; lia).
  assert (message_get_tag_u tag = 0) as Eu by lia. assert (message_get_tag_t tag = 0) as Et by lia.
  unfold transfer. cbv zeta. unfold MESSAGE_REGISTER_NUM. rewrite (proj2 (Z.ltb_ge 16 _)) by lia. wp_steps.
  apply (wp_store_message rt 0); [done|lia|]. rewrite Eu, Et. by wp_steps.
Qed.

Lemma mframe_has_regs s s' M t : MFrame s s' -> has_regs s t -> has_regs (with_messages M s') t.
Proof.
  intros F [Ht Hl]. split; [change (is_tcb s' t); by rewrite (mframe_is_tcb _ _ _ F)|].
  change (length (mr_of s' t) = 8%nat). by rewrite (mframe_fld _ _ _ _ _ F).
Qed.

Lemma wakeable_put to tag M s s1 x : MFrame s s1 -> wakeable s x -> wakeable (put_mr to 5 tag (with_messages M s1)) x.
Proof.
  intros F (Hc & Hd & Ha & Hb). pose proof (mf_globals _ _ F) as G. unfold wakeable. rewrite !put_mr_fld by done.
  change (get_fld ?f ?d (with_messages M s1) x) with (get_fld f d s1 x). rewrite !(mframe_fld _ _ _ _ _ F) by done.
  assert (scheds s1 = scheds s /\ current_time s1 = current_time s /\ current_thread s1 = current_thread s /\
    current_domain s1 = current_domain s /\ scheduler_action s1 = scheduler_action s) as (E1 & E2 & E3 & E4 & E5) by (by rewrite G).
  unfold put_mr, upd_tcb. cbn. rewrite E3, E4, E5. repeat split; [done..|]. intros HA. destruct (Hb HA) as [|Hok]; [by left|right].
  by apply (budget_ok_scheds s).
Qed.

Lemma wp_ret_id {A} (m : K A) (Q : A -> kstate -> Prop) s : wp (m ≫= mret) Q s -> wp m Q s.
Proof. unfold wp, mbind, ST_bind. by destruct (m s). Qed.

(** Waking the thread, in front of whatever follows. *)
Lemma wp_wake {A} x (k : unit -> K A) (Q : A -> kstate -> Prop) s :
  is_tcb s x -> x <> 0 -> wakeable s x ->
  wp (k tt) Q (with_scheduler_action x (upd_tcb x (with_obj_state state_queued_state) s)) ->
  wp (set_thread_state x state_queued_state) (fun _ => wp (possible_switchto x ≫= k) Q) s.
Proof.
  intros Hx Hx0 (Hc & Hd & Ha & _) HQ. apply wp_set_state_other; [done|done|done|]. wp_steps.
  apply wp_switchto_candidate; [by apply is_tcb_upd|done| | |done|done].
  - by rewrite (get_fld_upd_same _ _ _ _ state_queued_state), decide_True.
  - by rewrite get_fld_upd_other.
Qed.

(** C12: rendezvous.  A receive without a pending signal from a node with waiting senders, and a
    send to a node with waiting receivers (that have a scheduling context of their own), of a
    message without words, while no reschedule is pending and the served thread is of the
    current domain, serve the thread that waited longest: it leaves the queue, the node becomes idle exactly when nobody else waits,
    the tag arrives in the receiver, the served thread becomes runnable and the
    scheduler's candidate, and no other thread's state, registers or ready-queue links
    change. *)
Theorem rendezvous_serves_first s t x node l tag blocking donate :
  has_regs s t -> has_regs s x -> t <> 0 -> node <> 0 -> t <> x -> wakeable s x ->
  (MsgNode s node message_state_send (x :: l) -> not_signalled s t -> mr_of s x !! 5%nat = Some tag -> tag_words tag = 0 ->
     exists s', receive_ipc t blocking node s = Done tt s' /\ delivers x x t node tag message_state_send l s s') /\
  (MsgNode s node message_state_recv (x :: l) -> sched_of s x <> NULL -> mr_of s t !! 5%nat = Some tag -> tag_words tag = 0 ->
     exists s', send_ipc t blocking donate node s = Done tt s' /\ delivers x t x node tag message_state_recv l s s').
Proof.
  intros Ht Hx Ht0 Hn0 Htx (Hc & Hd & Ha & Hb). split.
  - intros (queue & Em & HM) Hsig Htag Hw. apply run_unit.
    eapply wp_receive_unsignalled; [apply Ht|done|done|done|done|]. cbn [msg_state msg_queue].
    assert (Hx0 : x <> 0). { destruct (dll_neighbours [] x l (mq_dll _ _ _ HM)) as (_ & ? & _). done. }
    pose proof (mq_ends _ _ _ HM) as Eq. subst queue. cbn [q_head first]. wp_steps. apply wp_assert; [by apply negb_true_iff, Z.eqb_neq|]. wp_steps.
    eapply (wp_message_dequeue x _ [] l); [exact HM|]. intros s1 queue' F HM1 _. wp_steps.
    eapply wp_store_queue; [by rewrite (mf_globals _ _ F)|done|]. cbn [app] in *.
    set (m := mk_message (waiting_state message_state_send l) queue'). set (s2 := with_messages (<[node := m]> (messages s1)) s1).
    wp_steps. eapply wp_exchange_label; [by apply (mframe_has_regs s)|by apply (mframe_has_regs s)|done|done| |done|].
    { change (mr_of s1 x !! 5%nat = Some tag). by rewrite (mframe_fld _ _ _ _ _ F). }
    cbn [Z.eqb EXCEPTION_NONE]. wp_steps. assert (Hx2 : is_tcb (put_mr t 5 tag s2) x) by (by apply has_regs_put, (mframe_has_regs s)).
    apply wp_wake; [done|done|by apply (wakeable_put _ _ _ s)|]. fold (delivered x t node tag m s1).
    apply wp_assert_sched_or; [by apply is_tcb_upd| |by right|].
    { intros HA. destruct (wakeable_put t tag (<[node := m]> (messages s1)) s s1 x F ltac:(done)) as (_ & _ & _ & Hb2).
      drop_action. rewrite get_fld_upd_other by done. destruct (Hb2 HA) as [|Hok]; [by left|right]. by apply (budget_ok_scheds _ _ _ eq_refl eq_refl Hok). }
    by apply delivers_intro; [| | |apply Hx].
  - intros (queue & Em & HM) Hsp Htag Hw. apply run_unit. unfold send_ipc. wp_steps.
    apply wp_assert; [by apply negb_true_iff, Z.eqb_neq|]. wp_steps.
    apply wp_assert; [by apply negb_true_iff, Z.eqb_neq|]. wp_steps. eapply wp_rd_msg; [done|]. cbn [msg_state msg_queue].
    assert (Hx0 : x <> 0). { destruct (dll_neighbours [] x l (mq_dll _ _ _ HM)) as (_ & ? & _). done. }
    pose proof (mq_ends _ _ _ HM) as Eq. subst queue. cbn [q_head first]. wp_steps. apply wp_assert; [by apply negb_true_iff, Z.eqb_neq|]. wp_steps.
    eapply (wp_message_dequeue x _ [] l); [exact HM|]. intros s1 queue' F HM1 _. wp_steps.
    eapply wp_store_message_queue; [by rewrite (mf_globals _ _ F)|done|]. cbn [app] in *.
    set (m := mk_message (waiting_state message_state_recv l) queue'). set (s2 := with_messages (<[node := m]> (messages s1)) s1).
    wp_steps. eapply wp_exchange_label; [by apply (mframe_has_regs s)|by apply (mframe_has_regs s)|done|done| |done|].
    { change (mr_of s1 t !! 5%nat = Some tag). by rewrite (mframe_fld _ _ _ _ _ F). }
    cbn [Z.eqb EXCEPTION_NONE]. wp_steps. assert (Hx2 : is_tcb (put_mr x 5 tag s2) x) by (by apply has_regs_put, (mframe_has_regs s)).
    pose proof (wakeable_put x tag (<[node := m]> (messages s1)) s s1 x F ltac:(done)) as Hwk. pose proof Hwk as (_ & _ & _ & Hb2).
    apply (wp_rd _ _ 0); [done|]. rewrite put_mr_fld by done. change (get_fld sched 0 s2 x) with (get_fld sched 0 s1 x).
    rewrite (mframe_fld _ _ _ _ _ F) by done. rewrite (proj2 (Z.eqb_neq _ NULL)) by done. rewrite andb_false_r. wp_steps.
    apply wp_assert_sched_or; [done|done|by right|]. wp_steps. apply wp_assert_sched_or; [done|done|by left|]. wp_steps.
    apply (wp_mono _ (fun _ => wp (possible_switchto x ≫= mret) (fun _ => delivers x t x node tag message_state_recv l s)));
      [|intros u s3 W; by apply wp_ret_id].
    apply wp_wake; [done|done|done|]. wp_steps. fold (delivered x x node tag m s1).
    by apply delivers_intro; [| | |apply Hx].
Qed.

(** Lemma: donation fails.  When a running thread sends to a receiver without a scheduling context and
    donation is allowed, the donated context is never attached to the receiver and the
    null context is dereferenced. *)
Theorem donation_faults s t x node l tag blocking :
  has_regs s t -> has_regs s x -> t <> 0 -> node <> 0 -> MsgNode s node message_state_recv (x :: l) ->
  mr_of s t !! 5%nat = Some tag -> tag_words tag = 0 -> sched_of s x = NULL -> scheds s !! NULL = None ->
  get_fld is_runnable false s t = false -> scheduler_action s = SCHEDULER_ACTION_RESUME_CURRENT_THREAD ->
  send_ipc t blocking true node s = Fail Fault.
Proof.
  intros Ht Hx Ht0 Hn0 (queue & Em & HM) Htag Hw Hsp Hnull Hrun Ha.
  assert (Hx0 : x <> 0). { destruct (dll_neighbours [] x l (mq_dll _ _ _ HM)) as (_ & ? & _). done. }
  pose proof (mq_ends _ _ _ HM) as Eq. subst queue. unfold send_ipc.
  apply fails_step, wp_assert; [by apply negb_true_iff, Z.eqb_neq|]. apply fails_step, wp_assert; [by apply negb_true_iff, Z.eqb_neq|].
  apply fails_step. eapply wp_rd_msg; [done|]. cbn [msg_state msg_queue q_head first].
  apply fails_step, wp_assert; [by apply negb_true_iff, Z.eqb_neq|]. apply fails_step.
  eapply (wp_message_dequeue x _ [] l); [exact HM|]. intros s1 queue' F HM1 _. cbn [app] in *. pose proof (mf_globals _ _ F) as G.
  apply fails_step. eapply wp_store_message_queue; [by rewrite G|done|].
  set (s2 := with_messages _ s1).
  apply fails_step. eapply wp_exchange_label; [by apply (mframe_has_regs s)|by apply (mframe_has_regs s)|done|done| |done|].
  { change (mr_of s1 t !! 5%nat = Some tag). by rewrite (mframe_fld _ _ _ _ _ F). }
  cbn [Z.eqb EXCEPTION_NONE]. set (s3 := put_mr x 5 tag s2).
  assert (Hx3 : is_tcb s3 x) by (by apply has_regs_put, (mframe_has_regs s)).
  assert (Ht3 : is_tcb s3 t) by (by apply has_regs_put, (mframe_has_regs s)).
  assert (Hfld : forall A (f : ktcb -> A) d p, (forall m y, f (with_mr m y) = f y) -> (forall y, f (unlink_mesg y) = f y) ->
    get_fld f d s3 p = get_fld f d s p).
  { intros A f d p H1' H2'. unfold s3. rewrite put_mr_fld by done. change (get_fld f d s1 p = get_fld f d s p).
    by rewrite (mframe_fld _ _ _ _ _ F). }
  apply fails_step. apply (wp_rd _ _ 0); [done|]. rewrite Hfld, Hsp by done. cbn [andb Z.eqb NULL]. apply fails_bind.
  unfold thread_donate. apply fails_step, wp_assert; [by apply negb_true_iff, Z.eqb_neq|].
  apply fails_step, wp_assert; [by apply negb_true_iff, Z.eqb_neq|].
  apply fails_step, wp_not_schedulable; [done|by rewrite Hfld|]. apply fails_step, wp_ret. cbn [andb].
  apply fails_step, wp_skip. apply fails_step. unfold cur. apply wp_gets. apply fails_step.
  assert (Hend : forall s4, threads s4 = threads s3 -> scheds s4 = scheds s -> fails (update_active_context x) Fault s4).
  { intros s4 Eth Esc. unfold update_active_context. apply fails_step. apply (wp_rd _ _ 0); [unfold is_tcb; by rewrite Eth|].
    assert (get_fld sched 0 s4 x = NULL) as ->. { unfold get_fld. rewrite Eth. fold (get_fld sched 0 s3 x). by rewrite Hfld. }
    apply fails_bind. unfold rd_sched. apply (fails_step get). wp_steps. by rewrite Esc, Hnull. }
  assert (Hsc : scheds s3 = scheds s) by (cbn; by rewrite G).
  case_match; [|by apply wp_skip, Hend].
  apply wp_reschedule_resume; [cbn; by rewrite G|]. by apply Hend.
Qed.

Lemma readyq_action s q a : ReadyQ s q -> ReadyQ (with_scheduler_action a s) q.
Proof. intros [Hc Hq Hd Hm HB]. by split. Qed.

(** Lemma: a woken thread replaces its ready queue.  [set_thread_state] with the queued state marks a
    thread as queued without queueing it; when a reschedule is already pending,
    [possible_switchto] then first takes the thread out of a queue it is not in, and the
    whole ready queue of its priority is replaced by the woken thread alone. *)
Theorem woken_thread_drops_queue s q t :
  ReadyQ s q -> placeable s t -> budgeted s t -> rnext s t = 0 -> rprev s t = 0 ->
  domain_of s t = current_domain s -> t <> current_thread s ->
  scheduler_action s = SCHEDULER_ACTION_CHOOSE_NEW_THREAD ->
  exists s', (set_thread_state t state_queued_state;; possible_switchto t) s = Done tt s' /\
    exists q', ReadyQ s' q' /\ q' (queue_of s t) = [t] /\ (forall j, j <> queue_of s t -> q' j = q j).
Proof.
  intros HR Hpl Hb En Ep Hd Hc Ha. apply run_unit. wp_steps.
  apply wp_set_state_other; [apply Hpl|apply Hpl|done|].
  set (s1 := upd_tcb t (with_obj_state state_queued_state) s).
  assert (HW : word_only (with_obj_state state_queued_state)) by (intros x; by exists state_queued_state).
  assert (HR1 : ReadyQ s1 q) by (by apply readyq_word).
  assert (Hf : forall A (f : ktcb -> A) d x, (forall w y, f (with_obj_state w y) = f y) -> get_fld f d s1 x = get_fld f d s x).
  { intros. unfold s1. by rewrite get_fld_upd_other. }
  assert (Hpl1 : placeable s1 t). { unfold placeable, s1. rewrite is_tcb_upd. fold s1. by rewrite !Hf. }
  assert (Ew : get_fld obj_state 0 s1 t = state_queued_state).
  { unfold s1. rewrite (get_fld_upd_same _ _ _ _ state_queued_state); [by rewrite decide_True|apply Hpl|done]. }
  assert (Hready : get_fld is_thread_ready false s1 t = true /\ get_fld is_thread_queued false s1 t = true).
  { destruct Hpl1 as [[x Ex] _]. unfold get_fld in *. rewrite Ex in *.
    unfold is_thread_ready, is_thread_not_running, is_thread_queued, is_thread_state_set. by rewrite Ew. }
  destruct Hready as [Hr Hq]. unfold possible_switchto. rewrite (proj2 (Z.eqb_neq t NULL)) by apply Hpl. cbn [negb]. wp_steps.
  apply (wp_rd _ _ false); [apply Hpl1|]. rewrite Hr. wp_steps. apply (wp_rd _ _ 0); [apply Hpl1|].
  change (current_domain s1) with (current_domain s). change (scheduler_action s1) with (scheduler_action s).
  rewrite Hf, Hd, Ha, Z.eqb_refl by done. cbn [negb Z.eqb SCHEDULER_ACTION_CHOOSE_NEW_THREAD SCHEDULER_ACTION_RESUME_CURRENT_THREAD].
  unfold move_to_end_ready_q. wp_steps. apply (wp_rd _ _ false); [apply Hpl1|]. rewrite Hq. wp_steps.
  apply (wp_dequeue_stray q); [done|done|by rewrite Hf|by rewrite Hf|]. intros s2 F2 HR2. wp_steps.
  apply wp_unbind. assert (Eq : queue_of s2 t = queue_of s t).
  { rewrite (qframe_queue_of s1 s2) by done. unfold queue_of. by rewrite !Hf. }
  assert (Eq1 : queue_of s1 t = queue_of s t) by (unfold queue_of; by rewrite !Hf). rewrite Eq1 in HR2.
  eapply (wp_mark_append_rq _ t); [exact HR2|by rewrite qframe_placeable| | |].
  { apply (budgeted_scheds s); [by destruct F2 as [-> _]..| |done]. rewrite (qframe_fld _ _ s1 s2) by done. by rewrite Hf. }
  { rewrite Eq. unfold upd_q. rewrite Z.eqb_refl. set_solver. }
  rewrite Eq. replace (upd_q q (queue_of s t) [] (queue_of s t)) with (@nil Z) by (unfold upd_q; by rewrite Z.eqb_refl).
  cbn [app]. intros s3 (F3 & HR3 & _).
  unfold reschedule_required. wp_steps. assert (scheduler_action s3 = SCHEDULER_ACTION_CHOOSE_NEW_THREAD) as ->.
  { destruct F3 as [-> _]. cbn. destruct F2 as [-> _]. done. }
  cbn. wp_steps. eexists. split; [apply readyq_action, HR3|]. split; [unfold upd_q; by rewrite Eq, Z.eqb_refl|].
  intros j Hj. unfold upd_q. rewrite Eq. by rewrite (proj2 (Z.eqb_neq j _)).
Qed.

End IpcTheorems.

(** ** Witnesses

    Thread 100 runs; thread 200 waits at node 9000, whose state is [st], with state word
    [w]; thread 300 is idle.  Thread 100 holds the tag [tag] and the word 7. *)
Definition ipc_tcb (w ptr sp tag : Z) : ktcb :=
  with_sched sp (with_mr [0; 0; 0; 0; 0; tag; 7; 0] (with_obj_ptr ptr (with_obj_state w zero_tcb))).

Definition ipc_demo (st : message_state) (w sp tag : Z) : kstate :=
  with_current_thread 100 (with_messages {[ 9000 := mk_message st (mk_queue 200 200); 9100 := mk_message message_state_idle (mk_queue 0 0) ]}
    (@bss_state test_config {[ 100 := ipc_tcb 0 0 1100 tag; 200 := ipc_tcb w 9000 sp tag ]} demo_scheds)).

#[global] Instance demo_services : Services := {|
  do_map_page := fun _ _ _ _ => mret 0;
  do_guard_page := fun _ _ _ _ _ => mret 0;
  do_map_string := fun _ _ _ => mret 0;
  stale := fun _ _ => 0;
|}.

Lemma ipc_demo_node st w sp tag : MsgNode (ipc_demo st w sp tag) 9000 st [200].
Proof.
  exists (mk_queue 200 200). split; [done|]. split; [done|split; [apply NoDup_singleton|set_solver|done]|].
  intros t Ht. apply list_elem_of_singleton in Ht as ->. by eexists.
Defined.

Lemma ipc_demo_idle st w sp tag : MsgNode (ipc_demo st w sp tag) 9100 message_state_idle [].
Proof. exists (mk_queue 0 0). split; [done|]. split; [done|by split; [constructor|set_solver|]|set_solver]. Defined.

Lemma ipc_demo_wakeable st w tag : @wakeable test_config (ipc_demo st w 1200 tag) 200.
Proof.
  split; [done|]. split; [done|]. split; [done|]. intros _. right. exists (one_refill 5 60), (mk_refill 5 60), []. split; [done|].
  split; [apply repb_sound; vm_compute; reflexivity|]. cbn [refill_time refill_amount]. rewrite MIN_BUDGET_eq.
  change (u64 (current_time (ipc_demo st w 1200 tag) + get_kernel_wcet_ticks)) with 10. lia.
Defined.

Section IpcWitnesses.
Local Existing Instance test_config.
Local Existing Instance sim_platform.

Lemma ipc_blocks_in_order_witness :
  exists s', send_ipc 100 true true 9100 (ipc_demo message_state_send state_send_blocked_state 1200 65536) = Done tt s' /\
    MsgNode s' 9100 message_state_send [100] /\ MsgNode s' 9000 message_state_send [200].
Proof.
  destruct (ipc_blocks_in_order (ipc_demo message_state_send state_send_blocked_state 1200 65536) 100 9100 message_state_idle []
    true (ipc_demo_idle _ _ _ _)) as [Hsend _]; [by eexists|lia|lia|set_solver|].
  destruct Hsend as (s' & Hrun & B); [done|]. exists s'. split; [exact Hrun|]. split; [exact (bk_node _ _ _ _ _ _ _ B)|].
  apply (bk_others _ _ _ _ _ _ _ B); [lia|apply ipc_demo_node|set_solver].
Defined.

Lemma cancel_ipc_unblocks_witness :
  exists s', cancel_ipc 200 (ipc_demo message_state_send state_send_blocked_state 1200 65536) = Done tt s' /\
    MsgNode s' 9000 message_state_idle [].
Proof.
  destruct (cancel_ipc_unblocks (ipc_demo message_state_send state_send_blocked_state 1200 65536) 200 9000 message_state_send [] []
    (ipc_demo_node _ _ _ _)) as (s' & Hrun & _ & HN & _); [done|by left|done|].
  exists s'. split; [exact Hrun|exact HN].
Defined.

Lemma message_exchange_exact_witness :
  message_exchange 100 200 (ipc_demo message_state_recv state_recv_blocked_state 1200 65536) =
  Done EXCEPTION_NONE (put_mr 200 5 65536 (ipc_demo message_state_recv state_recv_blocked_state 1200 65536)).
Proof.
  apply (message_exchange_exact (ipc_demo message_state_recv state_recv_blocked_state 1200 65536) 100 200 65536);
    [by split; [eexists|]|by split; [eexists|]|lia|lia|done|done].
Defined.

Lemma message_words_lost_witness :
  let s := ipc_demo message_state_recv state_recv_blocked_state 1200 1 in
  message_exchange 100 200 s = Done EXCEPTION_NONE (put_mr 200 6 0 (tagged 200 1 7 s)) /\
  message_exchange 100 200 (ipc_demo message_state_recv state_recv_blocked_state 1200 3) = Fail Fault.
Proof.
  assert (Hregs : forall tag t, t = 100 \/ t = 200 -> has_regs (ipc_demo message_state_recv state_recv_blocked_state 1200 tag) t).
  { intros tag t [->| ->]; (split; [by eexists|done]). }
  split.
  - destruct (message_words_lost (ipc_demo message_state_recv state_recv_blocked_state 1200 1) 100 200 1 7
      (Hregs 1 100 (or_introl eq_refl)) (Hregs 1 200 (or_intror eq_refl)) ltac:(lia) ltac:(lia) eq_refl eq_refl) as [H1 _].
    exact (H1 eq_refl).
  - destruct (message_words_lost (ipc_demo message_state_recv state_recv_blocked_state 1200 3) 100 200 3 7
      (Hregs 3 100 (or_introl eq_refl)) (Hregs 3 200 (or_intror eq_refl)) ltac:(lia) ltac:(lia) eq_refl eq_refl) as [_ H2].
    apply H2; [split; intros E; discriminate E|intros u m Em; change (utcbs _) with (∅ : gmap Z (list Z)) in Em; by rewrite lookup_empty in Em|].
    clear. intros s'. unfold no_item. cbn. set_solver.
Defined.

Lemma rendezvous_serves_first_witness :
  exists s', receive_ipc 100 true 9000 (ipc_demo message_state_send state_send_blocked_state 1200 65536) = Done tt s' /\
    MsgNode s' 9000 message_state_idle [] /\ scheduler_action s' = 200.
Proof.
  destruct (rendezvous_serves_first (ipc_demo message_state_send state_send_blocked_state 1200 65536) 100 200 9000 [] 65536 true true)
    as [Hrecv _]; [by split; [eexists|]|by split; [eexists|]|lia|lia|lia|apply ipc_demo_wakeable|].
  destruct Hrecv as (s' & Hrun & D); [apply ipc_demo_node|by left|done|done|].
  exists s'. split; [exact Hrun|]. split; [exact (dl_node _ _ _ _ _ _ _ _ _ D)|exact (dl_action _ _ _ _ _ _ _ _ _ D)].
Defined.

Lemma donation_faults_witness :
  send_ipc 100 true true 9000 (ipc_demo message_state_recv state_recv_blocked_state 0 65536) = Fail Fault.
Proof.
  apply (donation_faults (ipc_demo message_state_recv state_recv_blocked_state 0 65536) 100 200 9000 [] 65536);
    [by split; [eexists|]|by split; [eexists|]|lia|lia|apply ipc_demo_node|done..].
Defined.

(** Thread 100 is queued at priority 10, where thread 200 belongs too. *)
Definition drop_demo : kstate := with_scheduler_action SCHEDULER_ACTION_CHOOSE_NEW_THREAD (after (sched_append 100) demo_kernel).

Lemma drop_demo_readyq : ReadyQ drop_demo (upd_q (fun _ => []) 10 [100]).
Proof.
  apply readyq_action. apply (after_wp _ (fun s => ReadyQ s (upd_q (fun _ => []) 10 [100]))).
  eapply wp_sched_append; [apply demo_readyq|apply demo_placeable; set_solver|apply demo_may_queue; set_solver|set_solver|].
  by intros s' _ [HR _].
Defined.

Lemma woken_thread_drops_queue_witness :
  exists s' q', (set_thread_state 200 state_queued_state;; possible_switchto 200) drop_demo = Done tt s' /\ ReadyQ s' q' /\ q' 10 = [200].
Proof.
  destruct (woken_thread_drops_queue drop_demo (upd_q (fun _ => []) 10 [100]) 200 drop_demo_readyq) as (s' & Hrun & q' & HR & E & _).
  - split; [by eexists|done].
  - right. exists (one_refill 5 60). split; [vm_compute; reflexivity|]. intros _ _.
    exists (one_refill 5 60), (mk_refill 5 60), []. split; [vm_compute; reflexivity|].
    split; [apply repb_sound; vm_compute; reflexivity|]. cbn [refill_time refill_amount]. rewrite MIN_BUDGET_eq.
    change (u64 (current_time drop_demo + get_kernel_wcet_ticks)) with 10. lia.
  - vm_compute. reflexivity.
  - vm_compute. reflexivity.
  - vm_compute. reflexivity.
  - vm_compute. discriminate.
  - vm_compute. reflexivity.
  - exists s', q'. split; [exact Hrun|]. split; [exact HR|exact E].
Defined.

End IpcWitnesses.
