(* ===== verification/IpcSystem.v ===== *)
(** * The message-passing state machine

    Threads interleave sends, receives, cancellations, reorderings and calls of the
    scheduler in any order.  [IpcInv W s] is the invariant of the whole system, with
    [W n] the threads that wait at node [n]; [ipc_step] is one completed operation,
    [ipc_trace] a sequence of them.  The page operations a message may trigger are
    assumed to leave message passing alone, which is the class [ServicesFrame]. *)

From Stdlib Require Import ZArith Lia Bool List.
From stdpp Require Import base tactics numbers list gmap.
From S2P Require Import Prelude Partial TimeConv Sporadic DList DNode KState TimeList ReadyQueue Sched ReadyQueueFacts QueueTheorems.
From S2P Require Import Frames SchedFacts ThreadTable TcbCore Ipc IpcTheorems.

Local Open Scope Z_scope.

(** ** The invariant *)

Definition waiting_word (st : message_state) : Z :=
  match st with
  | message_state_idle => 0
  | message_state_send => state_send_blocked_state
  | message_state_recv => state_recv_blocked_state
  end.

Notation object_of := (get_fld obj_ptr 0).

Definition node_state (s : kstate) (n : Z) : message_state :=
  match messages s !! n with Some m => msg_state m | None => message_state_idle end.

Record IpcInv (W : Z -> list Z) (s : kstate) : Prop := {
  (** the queue of every node is the list of its waiters; an idle node has none *)
  ii_node : forall n m, messages s !! n = Some m ->
    MesgQ s (msg_queue m) (W n) /\ (msg_state m = message_state_idle <-> W n = []);
  (** every waiter is blocked in the direction of its node and names the node *)
  ii_member : forall n m t, messages s !! n = Some m -> t ∈ W n ->
    word_of s t = waiting_word (msg_state m) /\ object_of s t = n;
  ii_outside : forall n, messages s !! n = None -> W n = [];
  (** every blocked thread is in the queue of the node it names *)
  ii_complete : forall t, waits (word_of s t) = true -> t ∈ W (object_of s t);
  (** the scheduler's candidate is not blocked *)
  ii_candidate : waits (word_of s (scheduler_action s)) = false;
  (** the codes of [scheduler_action] are not thread addresses; null is no context and no node *)
  ii_codes : forall c, 0 <= c <= 2 -> ~ is_tcb s c;
  ii_null : scheds s !! NULL = None /\ messages s !! NULL = None;
}.

Lemma waiting_word_waits st : st <> message_state_idle -> waits (waiting_word st) = true.
Proof. by destruct st. Qed.

Section Invariant.
Context (W : Z -> list Z) (s : kstate) (I : IpcInv W s).

(** Only nodes have waiters, and a node with waiters is not idle. *)
Lemma inv_node n t : t ∈ W n -> exists m, messages s !! n = Some m /\ msg_state m <> message_state_idle.
Proof.
  intros Ht. destruct (messages s !! n) as [m|] eqn:E; [|by rewrite (ii_outside _ _ I n E) in Ht; set_solver].
  exists m. split; [done|]. intros E'. apply (ii_node _ _ I n m E) in E'. rewrite E' in Ht. set_solver.
Qed.

Lemma inv_waiter n t : t ∈ W n -> waits (word_of s t) = true /\ object_of s t = n.
Proof.
  intros Ht. destruct (inv_node n t Ht) as (m & E & Hm). destruct (ii_member _ _ I n m t E Ht) as [-> ->].
  split; [by apply waiting_word_waits|done].
Qed.

(** A thread that does not wait is in no queue. *)
Lemma inv_awake t n : waits (word_of s t) = false -> t ∉ W n.
Proof. intros Hw Ht. destruct (inv_waiter n t Ht) as [E _]. congruence. Qed.

(** A thread waits at one node only, once. *)
Lemma inv_unique t n n' : t ∈ W n -> t ∈ W n' -> n = n'.
Proof. intros H1 H2. destruct (inv_waiter _ _ H1) as [_ <-], (inv_waiter _ _ H2) as [_ E]. congruence. Qed.

Lemma inv_nodup n : NoDup (W n) /\ 0 ∉ W n.
Proof.
  destruct (messages s !! n) as [m|] eqn:E.
  - destruct (ii_node _ _ I n m E) as [[_ Hd _] _]. split; [by destruct Hd|by eapply dll_nonnull].
  - rewrite (ii_outside _ _ I n E). split; [constructor|set_solver].
Qed.

Lemma inv_code_awake c : 0 <= c <= 2 -> waits (word_of s c) = false.
Proof.
  intros Hc. unfold get_fld. destruct (threads s !! c) eqn:E; [|done]. destruct (ii_codes _ _ I c Hc). by eexists.
Qed.

Lemma inv_msgnode n m : messages s !! n = Some m -> MsgNode s n (msg_state m) (W n).
Proof. intros E. exists (msg_queue m). split; [by destruct m|]. by apply (ii_node _ _ I). Qed.

End Invariant.

(** ** Changes that keep the invariant *)

(** One node and one thread [x] change: the node now has the waiters [l]. *)
Record NodeChange (W : Z -> list Z) (n x : Z) (l : list Z) (s s' : kstate) : Prop := {
  nc_nodes : forall k, k <> n -> messages s' !! k = messages s !! k;
  nc_node : exists m m', messages s !! n = Some m /\ messages s' !! n = Some m' /\ MesgQ s' (msg_queue m') l /\
    (msg_state m' = message_state_idle <-> l = []) /\ (forall p, p ∈ l -> p <> x -> msg_state m' = msg_state m) /\
    (x ∈ l -> word_of s' x = waiting_word (msg_state m') /\ object_of s' x = n);
  nc_tcbs : forall p, is_tcb s' p <-> is_tcb s p;
  nc_links : forall p, p ∉ W n -> p ∉ l -> mnext s' p = mnext s p /\ mprev s' p = mprev s p;
  nc_objects : forall p, p <> x -> object_of s' p = object_of s p;
  nc_words : forall p, p <> x -> waits (word_of s p) = true -> word_of s' p = word_of s p;
  nc_awake : forall p, p <> x -> waits (word_of s p) = false -> waits (word_of s' p) = false;
  nc_self : x ∉ l -> waits (word_of s' x) = false;
  nc_members : forall p, p <> x -> p ∈ l <-> p ∈ W n;
  nc_other : forall k, k <> n -> x ∉ W k;
  nc_candidate : waits (word_of s' (scheduler_action s')) = false;
  nc_null : scheds s' !! NULL = None;
}.

Lemma inv_change W n x l s s' : IpcInv W s -> NodeChange W n x l s s' -> IpcInv (upd_q W n l) s'.
Proof.
  intros I [Hnodes (m & m' & Em & Em' & HM & Hidle & Hst & Hx) Htcb Hlinks Hobj Hwords Hawake Hself Hmem Hother Hcand Hnull].
  assert (Hn : forall k, k <> n -> upd_q W n l k = W k) by (intros k Hk; unfold upd_q; by rewrite (proj2 (Z.eqb_neq k n))).
  assert (Hl : upd_q W n l n = l) by (unfold upd_q; by rewrite Z.eqb_refl).
  split; [| | | |done|by intros c Hc; rewrite Htcb; apply (ii_codes _ _ I)|].
  - intros k mk Ek. destruct (decide (k = n)) as [->|Hk].
    { rewrite Hl. rewrite Em' in Ek. by injection Ek as <-. }
    rewrite Hn, Hnodes in * by done. destruct (ii_node _ _ I k mk Ek) as [[E Hd Hm] Hi]. split; [|done]. split; [done| |].
    + eapply dll_frame; [done|]. intros p Hp.
      assert (Hpn : p ∉ W n) by (intros Hp'; by apply Hk, (inv_unique W s I p)). apply Hlinks; [done|].
      intros Hp'. apply Hpn, Hmem; [|done]. intros ->. by apply (Hother k).
    + intros p Hp. rewrite Htcb. auto.
  - intros k mk t Ek Ht. destruct (decide (k = n)) as [->|Hk].
    + rewrite Hl in Ht. rewrite Em' in Ek. injection Ek as <-. destruct (decide (t = x)) as [->|Htx]; [auto|].
      pose proof (proj1 (Hmem t Htx) Ht) as Htn. destruct (ii_member _ _ I n m t Em Htn) as [E1 E2].
      rewrite Hobj, (Hst t), <-E1 by done. split; [|done]. apply Hwords; [done|]. by apply (inv_waiter W s I n).
    + rewrite Hn, Hnodes in * by done. assert (Htx : t <> x) by (intros ->; by apply (Hother k)).
      rewrite Hobj, Hwords; [|done|by apply (inv_waiter W s I k)|done]. by apply (ii_member _ _ I).
  - intros k Ek. assert (Hk : k <> n) by congruence. rewrite Hn by done. apply (ii_outside _ _ I). by rewrite <-Hnodes.
  - intros t Ht. destruct (decide (t = x)) as [->|Htx].
    + destruct (decide (x ∈ l)) as [Hin|Hnin]; [|rewrite Hself in Ht; done]. destruct (Hx Hin) as [_ ->]. by rewrite Hl.
    + destruct (waits (word_of s t)) eqn:E; [|rewrite Hawake in Ht; done].
      rewrite Hobj by done. pose proof (ii_complete _ _ I t E) as Hin. destruct (decide (object_of s t = n)) as [Eo|Ho].
      * rewrite Eo in *. rewrite Hl. by apply Hmem.
      * by rewrite Hn.
  - split; [done|]. rewrite Hnodes; [apply (ii_null _ _ I)|]. intros <-. pose proof (proj2 (ii_null _ _ I)). congruence.
Qed.

(** The invariant holds with any list of the same waiters at every node. *)
Lemma inv_ext W W' s : IpcInv W s -> (forall n, W' n = W n) -> IpcInv W' s.
Proof.
  intros I E. split; [intros n m Em; rewrite E; by apply (ii_node _ _ I)| | | |apply I|apply I|apply I].
  - intros n m t. rewrite E. apply (ii_member _ _ I).
  - intros n. rewrite E. apply (ii_outside _ _ I).
  - intros t. rewrite E. apply (ii_complete _ _ I).
Qed.

(** Changes outside message passing, on threads that do not wait. *)
Lemma inv_same W T s s' :
  IpcInv W s -> IpcSame T s s' -> (forall p, T p -> waits (word_of s p) = false) -> IpcInv W s'.
Proof.
  intros I F HT.
  assert (Hl : forall p, mnext s' p = mnext s p /\ mprev s' p = mprev s p /\ object_of s' p = object_of s p)
    by (intros p; by apply (ipc_same_links T)).
  assert (Hw : forall p, waits (word_of s p) = true -> word_of s' p = word_of s p).
  { intros p Hp. apply (sm_words _ _ _ F). intros Ht. rewrite HT in Hp; done. }
  split.
  - intros n m Em. rewrite (sm_messages _ _ _ F) in Em. destruct (ii_node _ _ I n m Em) as [[E Hd Hm] Hi]. split; [|done].
    split; [done| |intros p Hp; rewrite (ipc_same_tcb T s s') by done; auto].
    eapply dll_frame; [done|]. intros p _. destruct (Hl p) as (E1 & E2 & _). done.
  - intros n m t Em Ht. rewrite (sm_messages _ _ _ F) in Em. destruct (Hl t) as (_ & _ & ->).
    rewrite Hw by (by apply (inv_waiter W s I n)). by apply (ii_member _ _ I).
  - intros n En. rewrite (sm_messages _ _ _ F) in En. by apply (ii_outside _ _ I).
  - intros t Ht. destruct (Hl t) as (_ & _ & ->). destruct (waits (word_of s t)) eqn:E; [by apply (ii_complete _ _ I)|].
    rewrite (sm_awake _ _ _ F) in Ht; done.
  - apply (sm_awake _ _ _ F). destruct (sm_action _ _ _ F) as [->|[->|HT']]; [apply I|by apply (inv_code_awake W s I)|auto].
  - intros c Hc. rewrite (ipc_same_tcb T s s') by done. by apply (ii_codes _ _ I).
  - rewrite (sm_messages _ _ _ F). split; [apply (sm_null _ _ _ F)|]; apply (ii_null _ _ I).
Qed.

(** ** Blocking and leaving a queue *)

Lemma iframe_fld {A} (f : ktcb -> A) d t n s s' p :
  IFrame t n s s' -> (forall x, f (unlink_mesg x) = f x) -> p <> t -> get_fld f d s' p = get_fld f d s p.
Proof.
  intros F Hf Hp. pose proof (if_others _ _ _ _ F p Hp) as E. unfold get_fld.
  destruct (threads s' !! p), (threads s !! p); cbn in E; try done. apply (inj Some) in E. by rewrite <-(Hf k), <-(Hf k0), E.
Qed.

Lemma iframe_is_tcb t n s s' p : IFrame t n s s' -> is_tcb s' p <-> is_tcb s p.
Proof.
  intros F. unfold is_tcb. destruct (decide (p = t)) as [->|Hp].
  - pose proof (if_self _ _ _ _ F) as E. by destruct (threads s' !! t), (threads s !! t); rewrite ?is_Some_alt.
  - pose proof (if_others _ _ _ _ F p Hp) as E. by destruct (threads s' !! p), (threads s !! p); rewrite ?is_Some_alt.
Qed.

Lemma iframe_action t n s s' :
  IFrame t n s s' ->
  scheduler_action s' = scheduler_action s \/ scheduler_action s' = SCHEDULER_ACTION_CHOOSE_NEW_THREAD.
Proof. intros F. rewrite (if_action _ _ _ _ F). unfold asked. case_match; auto. Qed.

(** After an operation on [t], the candidate still does not wait. *)
Lemma iframe_candidate W t n s s' :
  IpcInv W s -> IFrame t n s s' -> t <> scheduler_action s \/ waits (word_of s' t) = false ->
  waits (word_of s' (scheduler_action s')) = false.
Proof.
  intros I F Ht. destruct (iframe_action _ _ _ _ F) as [->| ->].
  - destruct (decide (scheduler_action s = t)) as [<-|Hne]; [by destruct Ht|].
    rewrite (iframe_fld obj_state 0 t n s s') by done. apply I.
  - unfold get_fld. destruct (threads s' !! _) eqn:E; [|done]. destruct (ii_codes _ _ I SCHEDULER_ACTION_CHOOSE_NEW_THREAD); [done|].
    rewrite <-(iframe_is_tcb t n s s') by done. by eexists.
Qed.

Lemma iframe_null W t n s s' : IpcInv W s -> IFrame t n s s' -> scheds s' !! NULL = None.
Proof. intros I F. rewrite (if_globals _ _ _ _ F). apply I. Qed.

Section Operations.
Context `{Config} `{Platform} `{Services}.

(** The caller runs: it waits nowhere and is not the scheduler's candidate. *)
Definition caller (s : kstate) (t : Z) : Prop :=
  is_tcb s t /\ t <> 0 /\ waits (word_of s t) = false /\ t <> scheduler_action s.

Lemma inv_block W n m t st s :
  IpcInv W s -> messages s !! n = Some m -> caller s t -> st <> message_state_idle ->
  msg_state m = message_state_idle \/ msg_state m = st ->
  wp (block_on_message t n (waiting_word st) st) (fun _ s' => NodeChange W n t (W n ++ [t]) s s' /\ node_state s' n = st) s.
Proof.
  intros I Em (Ht & Ht0 & Hw & Hc) Hst Hm. assert (Hnin : forall k, t ∉ W k) by (intros k; by apply (inv_awake W s I)).
  eapply wp_block_on_message; [by apply (inv_msgnode W s I)|done|done|done|by destruct st|].
  intros s' F (queue & Em' & HM) Ew Ep Hl. split; [|unfold node_state; by rewrite Em'].
  split; [| | | | | | |set_solver|set_solver|auto| |by eapply iframe_null].
  - intros k Hk. by apply (if_nodes _ _ _ _ F).
  - exists m, (mk_message st queue). split; [done|]. split; [done|]. split; [done|]. cbn. split; [|split; [|done]].
    + split; [done|]. by destruct (W n).
    + intros p Hp Hpt. destruct Hm as [Hm|Hm]; [|done]. apply (ii_node _ _ I n m Em) in Hm. rewrite Hm in Hp. set_solver.
  - intros p. by eapply iframe_is_tcb.
  - intros p Hp Hp'. by apply Hl.
  - intros p Hp. by eapply iframe_fld.
  - intros p Hp _. by eapply iframe_fld.
  - intros p Hp Hwp. by rewrite (iframe_fld obj_state 0 t n s s').
  - eapply iframe_candidate; [done|done|by left].
Qed.

(** The waiter [x] left the queue, wherever it stood, and everything that followed left
    message passing alone except for waking [x]. *)
Lemma inv_served W n m x l1 l2 s s1 queue T s' :
  IpcInv W s -> messages s !! n = Some m -> W n = l1 ++ x :: l2 ->
  MFrame s s1 -> MesgQ s1 queue (l1 ++ l2) -> mlinks_except (l1 ++ l2) s s1 ->
  IpcSame T (with_messages (<[n := mk_message (waiting_state (msg_state m) (l1 ++ l2)) queue]> (messages s1)) s1) s' ->
  (forall p, T p -> p <> x -> waits (word_of s p) = false) -> waits (word_of s' x) = false ->
  NodeChange W n x (l1 ++ l2) s s'.
Proof.
  intros I Em El F HM Hl F2 HT Hx. pose proof (mf_globals _ _ F) as G. set (s2 := with_messages _ s1) in F2.
  assert (Hobj : forall p, object_of s' p = object_of s p).
  { intros p. destruct (ipc_same_links T s2 s' p F2) as (_ & _ & ->). unfold s2.
    change (object_of s1 p = object_of s p). by apply (mframe_fld _ _ _ _ _ F). }
  assert (Hword : forall p, word_of s2 p = word_of s p).
  { intros p. unfold s2. change (word_of s1 p = word_of s p). by apply (mframe_fld _ _ _ _ _ F). }
  assert (Hnd : NoDup (l1 ++ x :: l2)) by (rewrite <-El; by apply (inv_nodup W s I)).
  assert (Hxn : x ∉ l1 ++ l2) by (apply NoDup_app in Hnd as (_ & Hd & [Hc _]%NoDup_cons); set_solver).
  assert (Hmsg : messages s1 = messages s) by (by rewrite G).
  assert (Htcb : forall p, is_tcb s' p <-> is_tcb s p).
  { intros p. rewrite (ipc_same_tcb T s2 s') by done. unfold s2. change (is_tcb s1 p <-> is_tcb s p). by apply mframe_is_tcb. }
  split; [| |done| |by auto| | | | | | |].
  - intros k Hk. rewrite (sm_messages _ _ _ F2). unfold s2. cbn. by rewrite lookup_insert_ne, Hmsg.
  - exists m, (mk_message (waiting_state (msg_state m) (l1 ++ l2)) queue). split; [done|].
    split; [rewrite (sm_messages _ _ _ F2); apply lookup_insert_eq|]. cbn.
    assert (Hst : msg_state m <> message_state_idle).
    { intros E. apply (ii_node _ _ I n m Em) in E. rewrite El in E. by destruct l1. }
    split; [|split; [|split; [|done]]].
    + destruct HM as [E Hd Hm]. split; [done| |].
      * eapply dll_frame; [exact Hd|]. intros p _. destruct (ipc_same_links T s2 s' p F2) as (-> & -> & _). done.
      * intros p Hp. rewrite Htcb, <-(mframe_is_tcb s s1) by done. auto.
    + destruct (l1 ++ l2); done.
    + intros p Hp _. unfold waiting_state. destruct (l1 ++ l2); [set_solver|done].
  - intros p Hp Hp'. destruct (ipc_same_links T s2 s' p F2) as (-> & -> & _). by apply Hl.
  - intros p Hp Hwp. rewrite <-Hword. apply (sm_words _ _ _ F2). intros HTp. rewrite (HT p) in Hwp; done.
  - intros p Hp Hwp. apply (sm_awake _ _ _ F2). by rewrite Hword.
  - done.
  - intros p Hp. rewrite El. set_solver.
  - intros k Hk Hin. apply Hk. apply (inv_unique W s I x); [done|]. rewrite El. set_solver.
  - assert (Hs2 : forall p, p <> x -> waits (word_of s p) = false -> waits (word_of s' p) = false)
      by (intros p _ Hp; apply (sm_awake _ _ _ F2); by rewrite Hword).
    assert (Hgo : forall p, waits (word_of s p) = false -> waits (word_of s' p) = false).
    { intros p Hp. destruct (decide (p = x)) as [->|]; [done|auto]. }
    assert (Ea : scheduler_action s2 = scheduler_action s) by (unfold s2; cbn; by rewrite G).
    destruct (sm_action _ _ _ F2) as [->|[->|HTa]].
    + rewrite Ea. apply Hgo, I.
    + apply Hgo. by apply (inv_code_awake W s I).
    + destruct (decide (scheduler_action s' = x)) as [->|]; [done|]. auto.
  - apply (sm_null _ _ _ F2). unfold s2. cbn. rewrite G. apply I.
Qed.

(** ** The scheduler as a client *)

(** The pending candidate, if any, is in [T]. *)
Definition okact (T : Z -> Prop) (s : kstate) : Prop :=
  T (scheduler_action s) \/ scheduler_action s = SCHEDULER_ACTION_CHOOSE_NEW_THREAD \/
  scheduler_action s = SCHEDULER_ACTION_RESUME_CURRENT_THREAD.

Lemma okact_same T s s' : okact T s -> IpcSame T s s' -> okact T s'.
Proof. intros Hs F. unfold okact in *. destruct (sm_action _ _ _ F) as [->|[]]; auto. Qed.

Lemma ipc_same_action (T : Z -> Prop) a s :
  a = SCHEDULER_ACTION_CHOOSE_NEW_THREAD \/ T a -> IpcSame T s (with_scheduler_action a s).
Proof. intros Ha. by split; auto. Qed.

Lemma pwp_reschedule_required T s : okact T s -> pwp reschedule_required (fun _ => IpcSame T s) s.
Proof.
  intros Hok. unfold reschedule_required. pwp_steps.
  destruct (Z.eqb_spec (scheduler_action s) SCHEDULER_ACTION_RESUME_CURRENT_THREAD);
    [pwp_steps; apply ipc_same_action; by left|].
  destruct (Z.eqb_spec (scheduler_action s) SCHEDULER_ACTION_CHOOSE_NEW_THREAD);
    [pwp_steps; apply ipc_same_action; by left|]. cbn [negb andb].
  assert (HT : T (scheduler_action s)) by (destruct Hok as [|[]]; done).
  apply (pwp_preserves (IpcSame T)); [frames|]. intros _ s1 F1. unfold set_scheduler_action. pwp_steps.
  transitivity s1; [done|]. apply ipc_same_action. by left.
Qed.

Lemma pwp_schedule_tcb T t s : okact T s -> pwp (schedule_tcb t) (fun _ => IpcSame T s) s.
Proof.
  intros Hok. unfold schedule_tcb. pwp_steps. case_match; [|pwp_steps; reflexivity]. pwp_steps.
  apply (pwp_preserves (IpcSame T)); [frames|]. intros b s1 F1. case_match; [|pwp_steps; done].
  eapply pwp_mono; [apply (pwp_reschedule_required T); by eapply okact_same|]. intros [] s2 F2. by transitivity s1.
Qed.

(** A thread of [T] is made to run or to restart. *)
Lemma pwp_set_thread_state (T : Z -> Prop) t w s :
  T t -> waits w = false -> okact T s ->
  pwp (set_thread_state t w) (fun _ s' => IpcSame T s s' /\ waits (word_of s' t) = false) s.
Proof.
  intros HT Hw Hok. unfold set_thread_state. pwp_steps. apply pwp_wr. intros Ht.
  assert (F1 : IpcSame T s (upd_tcb t (with_obj_state w) s)) by (apply ipc_same_upd; [done|]; by right).
  eapply pwp_mono; [apply (pwp_schedule_tcb T); by eapply okact_same|]. intros [] s2 F2. split; [by etransitivity|].
  apply (sm_awake _ _ _ F2). fld. by rewrite decide_True.
Qed.

Lemma pwp_possible_switchto (T : Z -> Prop) t s :
  (forall x, threads s !! t = Some x -> is_thread_ready x = true -> T t) -> okact T s ->
  pwp (possible_switchto t) (fun _ => IpcSame T s) s.
Proof.
  intros Hready Hok. unfold possible_switchto. case_match; [|pwp_steps; reflexivity]. pwp_steps.
  apply pwp_rd. intros x Ex. case_match eqn:Er; [|pwp_steps; reflexivity]. pose proof (Hready x Ex Er) as HT.
  pwp_steps. apply pwp_rd. intros y _.
  case_match; [apply (pwp_preserves (IpcSame T)); [frames|done]|]. case_match.
  - pwp_steps. apply (pwp_preserves (IpcSame T)); [frames|]. intros _ s1 F1.
    eapply pwp_mono; [apply (pwp_reschedule_required T); by eapply okact_same|]. intros [] s2 F2. by transitivity s1.
  - unfold set_scheduler_action. pwp_steps. apply ipc_same_action. by right.
Qed.

(** ** The scheduler does not disturb message passing *)

Lemma ready_awake x : is_thread_ready x = true -> waits (obj_state x) = false.
Proof.
  unfold is_thread_ready, is_thread_not_running, waits. rewrite negb_involutive. intros E%Z.eqb_eq. apply negb_false_iff, Z.eqb_eq.
  change (Z.lor state_send_blocked_state state_recv_blocked_state) with 6 in *. set (M := Z.lor _ _) in E.
  transitivity (Z.land (Z.land (u8 (obj_state x)) M) 6); [|by rewrite E].
  rewrite <-Z.land_assoc. change (Z.land M 6) with 6. unfold u8. rewrite <-Z.land_ones by lia.
  by rewrite <-Z.land_assoc.
Qed.

Section Schedule.
Context (W : Z -> list Z) (s0 : kstate) (I : IpcInv W s0).

(** The threads that do not wait. *)
Definition awake (p : Z) : Prop := waits (word_of s0 p) = false.

Lemma awake_later s p : IpcSame awake s0 s -> waits (word_of s p) = false -> awake p.
Proof.
  intros F Hp. unfold awake. destruct (waits (word_of s0 p)) eqn:E; [|done].
  rewrite (sm_words _ _ _ F) in Hp; [congruence|]. unfold awake. congruence.
Qed.

(** Waiting words are exactly the two blocked states, so a queued thread is awake. *)
Lemma queued_awake s p x :
  IpcSame awake s0 s -> threads s !! p = Some x -> is_thread_queued x = true -> awake p.
Proof.
  intros F Ex Hq. unfold awake. destruct (waits (word_of s0 p)) eqn:E; [|done].
  assert (Ew : word_of s p = word_of s0 p) by (apply (sm_words _ _ _ F); unfold awake; congruence).
  pose proof (ii_complete _ _ I p E) as Hin. destruct (inv_node W s0 I _ _ Hin) as (m & Em & Hm).
  destruct (ii_member _ _ I _ _ _ Em Hin) as [E2 _]. rewrite E2 in Ew. unfold get_fld in Ew. rewrite Ex in Ew.
  unfold is_thread_queued, is_thread_state_set in Hq. rewrite Ew in Hq. by destruct (msg_state m).
Qed.

Lemma ready_awake_later s p x :
  IpcSame awake s0 s -> threads s !! p = Some x -> is_thread_ready x = true -> awake p.
Proof. intros F Ex Hr. apply (awake_later s); [done|]. unfold get_fld. rewrite Ex. by apply ready_awake. Qed.

Lemma okact_awake s : IpcSame awake s0 s -> okact awake s.
Proof. intros F. apply (okact_same awake s0); [|done]. left. apply (ii_candidate _ _ I). Qed.

Ltac step := eapply (pwp_then (IpcSame awake)); [solve [frames]|eassumption|].

Lemma pwp_awaken_loop fuel s : IpcSame awake s0 s -> pwp (awaken_loop fuel) (fun _ => IpcSame awake s0) s.
Proof.
  revert s. induction fuel as [|fuel IH]; intros s F; cbn [awaken_loop]; [done|]. pwp_steps. case_match; [by pwp_steps|].
  pwp_steps. step. intros sp s1 F1. pwp_steps. step. intros ready s2 F2. destruct ready; [|by pwp_steps]. pwp_steps.
  step. intros x s3 F3. pwp_steps. unfold cur. pwp_steps.
  step. intros ? s4 F4. pwp_steps. step. intros ? s5 F5. pwp_steps.
  eapply pwp_mono; [apply (pwp_possible_switchto awake); [intros y Ey Hr; by apply (ready_awake_later s5 _ y)|by apply okact_awake]|].
  cbn. intros [] s6 F6. unfold set_reprogram. pwp_steps. apply IH. transitivity s5; [done|]. transitivity s6; [done|].
  by apply ipc_same_globals.
Qed.

Lemma preserves_highest T dom : preserves (IpcSame T) (get_highest_prio dom).
Proof. unfold get_highest_prio, invert_l1index, rd_l2. frames. Qed.

Lemma preserves_should_preempt T p ok : preserves (IpcSame T) (should_preempt p ok).
Proof. unfold should_preempt, cur, smp_idle_thread_object. frames. Qed.
Hint Resolve preserves_highest preserves_should_preempt : frames.

Lemma preserves_update_cache T p ok : preserves (IpcSame T) (update_cache p ok).
Proof. unfold update_cache, get_thread_state, cur. frames. Qed.
Hint Resolve preserves_update_cache : frames.

Lemma pwp_next_thread s : IpcSame awake s0 s -> pwp next_thread (fun _ => IpcSame awake s0) s.
Proof.
  intros F. unfold next_thread, cur, is_t1_higher_prio_than_t2. cbv zeta. pwp_steps. step. intros w s1 F1.
  case_match; [|by pwp_steps]. pwp_steps. step. intros prio s2 F2. pwp_steps. step. intros idx s3 F3. pwp_steps.
  step. intros queue s4 F4. pwp_steps. case_match; [|by pwp_steps]. pwp_steps. step. intros ts s5 F5. pwp_steps.
  step. intros ? s6 F6. pwp_steps. apply pwp_rd. intros x Ex. pwp_steps. apply pwp_rd. intros x' Ex'. pwp_steps.
  set (c := current_thread s4) in *. rewrite Ex in Ex'. injection Ex' as <-.
  assert (Hc : is_thread_not_running x = false -> awake c).
  { intros Hr. apply (ready_awake_later s6 c x); [done|done|]. unfold is_thread_ready. by rewrite Hr. }
  step. intros t s7 F7. pwp_steps. unfold smp_idle_thread_object. pwp_steps.
  apply (pwp_mono _ (fun _ => IpcSame awake s0)).
  - destruct (is_thread_not_running x); cbn [negb andb]; [by pwp_steps|]. specialize (Hc eq_refl).
    case_match; [|by pwp_steps]. step. done.
  - cbn. intros [] s8 F8. pwp_steps. apply pwp_rd. intros y Ey. pwp_steps.
    destruct (is_thread_queued y) eqn:Eq; [|by pwp_steps]. pose proof (queued_awake s8 t y F8 Ey Eq) as Ht.
    step. intros ? s9 F9. by pwp_steps.
Qed.

Lemma pwp_choose_new_thread s : IpcSame awake s0 s -> pwp choose_new_thread (fun _ => IpcSame awake s0) s.
Proof.
  intros F. unfold choose_new_thread. pwp_steps. eapply pwp_mono; [by apply pwp_next_thread|]. cbn. intros t s1 F1. pwp_steps.
  step. intros ? s2 F2. by step.
Qed.

Lemma pwp_schedule_candidate s a :
  IpcSame awake s0 s -> awake a -> pwp (schedule_candidate a) (fun _ => IpcSame awake s0) s.
Proof.
  intros F Ha. unfold schedule_candidate, is_highest_prio. cbv zeta. pwp_steps. step. intros ? s1 F1. pwp_steps.
  step. intros b s2 F2. pwp_steps. step. intros h s3 F3. pwp_steps. step. intros ? s4 F4. pwp_steps.
  unfold set_scheduler_action. pwp_steps. apply pwp_choose_new_thread. transitivity s4; [done|]. apply ipc_same_action. by left.
Qed.

(** [schedule] changes nothing that message passing depends on. *)
Lemma pwp_schedule : pwp schedule (fun _ => IpcSame awake s0) s0.
Proof.
  assert (Hz : awake SCHEDULER_ACTION_RESUME_CURRENT_THREAD) by (by apply (inv_code_awake W s0 I)).
  assert (Hend : forall s, IpcSame awake s0 s -> IpcSame awake s0 (with_scheduler_action SCHEDULER_ACTION_RESUME_CURRENT_THREAD s)).
  { intros s F. transitivity s; [done|]. apply ipc_same_action. by right. }
  unfold schedule, awaken. pwp_steps. eapply pwp_mono; [by apply pwp_awaken_loop|]. cbn. intros [] s1 F1. pwp_steps.
  apply (pwp_mono _ (fun _ => IpcSame awake s0)); [|cbn; intros [] s2 F2; unfold set_scheduler_action; pwp_steps; auto].
  case_match eqn:E1; [|by pwp_steps]. case_match eqn:E2; [by apply pwp_choose_new_thread|]. case_match; [by step|].
  apply pwp_schedule_candidate; [done|]. zbool. destruct (okact_awake s1 F1) as [|[]]; done.
Qed.

End Schedule.

End Operations.

(** ** Message transfer *)

(** What message passing relies on in the page operations: they change neither message
    nodes nor the fields of threads that message passing uses. *)
Class ServicesFrame `{Services} : Prop := {
  map_page_frame : forall T a b c d, preserves (IpcSame T) (do_map_page a b c d);
  guard_page_frame : forall T a b c d e, preserves (IpcSame T) (do_guard_page a b c d e);
  map_string_frame : forall T a b c, preserves (IpcSame T) (do_map_string a b c);
}.

Section Transfer.
Context `{Config} `{Platform} `{SV : Services} `{SF : !ServicesFrame}.
Hint Resolve map_page_frame guard_page_frame map_string_frame : frames.

Lemma preserves_load T t i : preserves (IpcSame T) (load_message_registers t i).
Proof. unfold load_message_registers, load_mr, load_utcb. frames. Qed.

Lemma preserves_store T t i v : preserves (IpcSame T) (store_message_registers t i v).
Proof. unfold store_message_registers, store_mr, store_utcb. frames. Qed.
Hint Resolve preserves_load preserves_store : frames.

Lemma preserves_untyped_loop T fuel st rt i last : preserves (IpcSame T) (untyped_loop fuel st rt i last).
Proof. revert last. induction fuel as [|fuel IH]; intros last; cbn [untyped_loop]; frames. Qed.

Lemma preserves_item T st rt item : preserves (IpcSame T) (typed_item_effect st rt item).
Proof. unfold typed_item_effect, do_control_registers. frames. Qed.
Hint Resolve preserves_untyped_loop preserves_item : frames.

Lemma preserves_typed_loop T fuel st rt i last w : preserves (IpcSame T) (typed_loop fuel st rt i last w).
Proof. revert i w. induction fuel as [|fuel IH]; intros i w; cbn [typed_loop]; frames. Qed.
Hint Resolve preserves_typed_loop : frames.

(** A transfer that is refused leaves both parties runnable. *)
Lemma pwp_message_exchange (T : Z -> Prop) st rt s :
  T st -> T rt -> okact T s ->
  pwp (message_exchange st rt) (fun e s' => IpcSame T s s' /\
    (e <> EXCEPTION_NONE -> waits (word_of s' st) = false /\ waits (word_of s' rt) = false)) s.
Proof.
  intros Hst Hrt Hok. unfold message_exchange. pwp_steps. apply (pwp_preserves (IpcSame T)); [frames|]. intros tag s1 F1.
  unfold transfer. cbv zeta. case_match.
  - pwp_steps. set (s2 := with_current_kernel_status_code _ s1).
    assert (F2 : IpcSame T s s2) by (transitivity s1; [done|by apply ipc_same_globals]).
    eapply pwp_mono; [apply (pwp_set_thread_state T); [done|done|by apply (okact_same T s)]|]. cbn. intros [] s3 [F3 H3]. pwp_steps.
    assert (F3' : IpcSame T s s3) by (by transitivity s2).
    eapply pwp_mono; [apply (pwp_set_thread_state T); [done|done|by apply (okact_same T s)]|]. cbn. intros [] s4 [F4 H4]. pwp_steps.
    split; [by transitivity s3|]. intros _. split; [by apply (sm_awake _ _ _ F4)|done].
  - pwp_steps. eapply (pwp_then (IpcSame T) _ _ s); [frames|done|]. intros ? s2 F2. pwp_steps.
    eapply (pwp_then (IpcSame T) _ _ s); [|done|].
    { destruct (1 <? _); [apply preserves_untyped_loop|frames]. }
    intros ? s3 F3. pwp_steps. eapply (pwp_then (IpcSame T) _ _ s); [apply preserves_typed_loop|done|].
    intros ? s4 F4. pwp_steps. split; [done|]. by intros [].
Qed.

End Transfer.

(** ** Operations on the invariant *)

Section Effects.
Context `{Config} `{Platform} `{SV : Services} `{SF : !ServicesFrame}.

(** The threads an operation of [t] that wakes [x] may touch. *)
Definition touched (s : kstate) (t x p : Z) : Prop := p = t \/ p = x \/ p = scheduler_action s.

Lemma touched_okact s t x s' : scheduler_action s' = scheduler_action s -> okact (touched s t x) s'.
Proof. intros E. left. rewrite E. by right; right. Qed.

Lemma touched_awake W s t x p :
  IpcInv W s -> waits (word_of s t) = false -> touched s t x p -> p <> x -> waits (word_of s p) = false.
Proof. intros I Ht [->|[->| ->]] Hx; [done|done|apply I]. Qed.

(** The waiter [x] at the head is taken out of the queue; the rest of the operation runs
    from the state [s2] that stores the shorter queue. *)
Lemma pwp_serve W n m x l s (Q : tcb_queue -> kstate -> Prop) :
  IpcInv W s -> messages s !! n = Some m -> W n = x :: l ->
  (forall s1 queue, MFrame s s1 -> MesgQ s1 queue l -> mlinks_except l s s1 ->
     messages s1 !! n = Some (mk_message (msg_state m) (msg_queue m)) -> Q queue s1) ->
  pwp (message_dequeue x (msg_queue m)) Q s.
Proof.
  intros I Em El HQ. destruct (ii_node _ _ I n m Em) as [HM _]. rewrite El in HM. apply wp_pwp.
  eapply (wp_message_dequeue x _ [] l); [exact HM|]. intros s1 queue F HM1 Hl. apply HQ; [done|done|done|].
  rewrite (mf_globals _ _ F). cbn. rewrite Em. by destruct m.
Qed.

Lemma inv_busy W s n m st :
  IpcInv W s -> messages s !! n = Some m -> msg_state m = st -> st <> message_state_idle ->
  exists x l, W n = x :: l /\ q_head (msg_queue m) = x.
Proof.
  intros I Em Est Hst. destruct (ii_node _ _ I n m Em) as [HM Hi]. rewrite (mq_ends _ _ _ HM).
  destruct (W n) as [|x l]; [naive_solver|]. by exists x, l.
Qed.

(** Donating to a thread without a context never completes: the null context is read. *)
Lemma donate_stops t x s (Q : unit -> kstate -> Prop) :
  scheds s !! NULL = None -> get_fld sched 0 s x = NULL -> pwp (thread_donate t x) Q s.
Proof.
  intros E0 Ex. unfold thread_donate. pwp_steps. pose proof (preserves_wr_ctx x) as Hwr.
  assert (Ha : forall a, preserves (NoContext x) (set_scheduler_action a)) by (intros a; apply preserves_modify; intros s1; by unfold NoContext).
  assert (Hp : preserves (NoContext x) reschedule_required).
  { unfold reschedule_required, marktcb_as_queued, set_thread_states. frames; apply Hwr; by left. }
  assert (F0 : NoContext x s s) by (unfold NoContext; done).
  eapply (pwp_then (NoContext x)); [frames|exact F0|]. intros b1 s1 F1. pwp_steps.
  eapply (pwp_then (NoContext x)); [frames|exact F1|]. intros b2 s2 F2. pwp_steps.
  eapply (pwp_then (NoContext x)); [|exact F2|].
  { unfold marktcb_as_not_queued, reset_thread_states. frames; apply Hwr; auto. }
  intros ? s3 F3. unfold cur. pwp_steps. eapply (pwp_then (NoContext x)); [frames|exact F3|]. intros ? s4 F4.
  destruct (F4 (conj E0 Ex)) as [E4 Ex4]. unfold update_active_context. pwp_steps. apply pwp_rd. intros y Ey.
  unfold get_fld in Ex4. rewrite Ey in Ex4. rewrite Ex4. pwp_steps. unfold rd_sched. pwp_steps. by rewrite E4.
Qed.

Lemma preserves_sched_or T p test :
  (forall sp, preserves (IpcSame T) (test sp)) -> preserves (IpcSame T) (assert_sched_or p test).
Proof. intros Ht. unfold assert_sched_or. frames. Qed.

Lemma inv_send W s t n m donate blocking :
  IpcInv W s -> caller s t -> messages s !! n = Some m ->
  pwp (send_ipc t blocking donate n) (fun _ s' =>
    (msg_state m = message_state_recv -> exists x l, W n = x :: l /\ NodeChange W n x l s s') /\
    (msg_state m <> message_state_recv -> if blocking then NodeChange W n t (W n ++ [t]) s s' /\ node_state s' n = message_state_send else s' = s)) s.
Proof.
  intros I Hcall Em. pose proof Hcall as (Ht & Ht0 & Hw & Hc). unfold send_ipc. pwp_steps.
  unfold rd_msg. pwp_steps. rewrite Em. cbn [ofopt]. pwp_steps.
  assert (Hblock : msg_state m <> message_state_recv -> pwp (if blocking then
      block_on_message t n state_send_blocked_state message_state_send else skip)
      (fun _ s' => if blocking then NodeChange W n t (W n ++ [t]) s s' /\ node_state s' n = message_state_send else s' = s) s).
  { intros Hm. destruct blocking; [|by pwp_steps]. apply wp_pwp.
    apply (inv_block W n m t message_state_send s I Em Hcall); [done|]. destruct (msg_state m); [by left|by right|done]. }
  destruct (msg_state m) eqn:Est; [eapply pwp_mono; [by apply Hblock|]; cbn; intros ? s' HN; by split..|].
  destruct (inv_busy W s n m message_state_recv I Em Est) as (x & l & El & Eh); [done|]. cbv zeta. rewrite Eh. pwp_steps.
  eapply pwp_serve; [done|done|done|]. intros s1 queue F HM Hl Em1. pwp_steps.
  apply wp_pwp. eapply wp_store_message_queue; [exact Em1|exact HM|]. set (s2 := with_messages _ s1).
  assert (Ea : scheduler_action s2 = scheduler_action s) by (unfold s2; cbn; by rewrite (mf_globals _ _ F)).
  assert (Hfin : forall s', IpcSame (touched s t x) s2 s' -> waits (word_of s' x) = false ->
    (message_state_recv = message_state_recv -> exists x l, W n = x :: l /\ NodeChange W n x l s s') /\
    (message_state_recv <> message_state_recv -> if blocking then NodeChange W n t (W n ++ [t]) s s' /\ node_state s' n = message_state_send else s' = s)).
  { intros s' F2 Hx. split; [|done]. intros _. exists x, l. split; [done|].
    apply (inv_served W n m x [] l s s1 queue (touched s t x) s'); [done..| |done].
    intros p Hp Hpx. by apply (touched_awake W s t x). }
  pwp_steps. assert (HT : touched s t x t /\ touched s t x x) by (split; [by left|by right; left]). destruct HT as [HTt HTx].
  eapply pwp_mono; [apply (pwp_message_exchange (touched s t x)); [done|done|by apply touched_okact]|].
  cbn. intros e s3 [F3 He]. destruct (Z.eqb_spec e EXCEPTION_NONE) as [_|Hne]; [|pwp_steps; apply Hfin; [done|by apply He]].
  pwp_steps. apply pwp_rd. intros y Ey. pwp_steps.
  apply (pwp_mono _ (fun _ => IpcSame (touched s t x) s2)).
  { destruct (donate && (sched y =? NULL)) eqn:Ed; [|by pwp_steps]. apply andb_true_iff in Ed as [_ Es%Z.eqb_eq].
    apply donate_stops; [|unfold get_fld; by rewrite Ey]. apply (sm_null _ _ _ F3). unfold s2. cbn.
    rewrite (mf_globals _ _ F). apply I. }
  cbn. intros [] s4 F4. pwp_steps. eapply (pwp_then (IpcSame (touched s t x))); [apply preserves_sched_or; frames|exact F4|].
  intros ? s5 F5. pwp_steps. eapply (pwp_then (IpcSame (touched s t x))); [apply preserves_sched_or; frames|exact F5|].
  intros ? s6 F6. pwp_steps.
  eapply pwp_mono; [apply (pwp_set_thread_state (touched s t x)); [done|done|]|].
  { apply (okact_same _ s2); [by apply touched_okact|done]. }
  cbn. intros [] s7 [F7 Hx7]. eapply pwp_mono; [apply (pwp_possible_switchto (touched s t x)); [done|]|].
  { apply (okact_same _ s6); [|done]. apply (okact_same _ s2); [by apply touched_okact|done]. }
  cbn. intros [] s8 F8. apply Hfin; [|by apply (sm_awake _ _ _ F8)]. transitivity s6; [done|]. by transitivity s7.
Qed.

(** No signal is pending: the notification node is read and passed over. *)
Lemma pwp_unsignalled s t y :
  not_signalled s t -> threads s !! t = Some y ->
  pwp (if notifation_node y =? NULL then mret false
       else n ← rd_ntf (notifation_node y); mret (bool_decide (ntf_state n = notifation_state_active)))
    (fun b s' => b = false /\ s' = s) s.
Proof.
  intros Hsig Ey. unfold not_signalled, get_fld in Hsig. rewrite Ey in Hsig.
  destruct (Z.eqb_spec (notifation_node y) NULL) as [E|E]; [by pwp_steps|]. destruct Hsig as [?|(nt & En & Hna)]; [done|].
  unfold rd_ntf. pwp_steps. rewrite En. cbn [ofopt]. pwp_steps. split; [by apply bool_decide_eq_false_2|done].
Qed.

Lemma inv_receive W s t n m blocking :
  IpcInv W s -> caller s t -> not_signalled s t -> messages s !! n = Some m ->
  pwp (receive_ipc t blocking n) (fun _ s' =>
    (msg_state m = message_state_send -> exists x l, W n = x :: l /\ NodeChange W n x l s s') /\
    (msg_state m <> message_state_send -> if blocking then NodeChange W n t (W n ++ [t]) s s' /\ node_state s' n = message_state_recv else s' = s)) s.
Proof.
  intros I Hcall Hsig Em. pose proof Hcall as (Ht & Ht0 & Hw & Hc). unfold receive_ipc. pwp_steps.
  apply pwp_rd. intros y Ey. pwp_steps. apply (pwp_mono _ (fun b s' => b = false /\ s' = s)).
  { by apply (pwp_unsignalled s t y). }
  intros ? ? [-> ->]. pwp_steps. unfold rd_msg. pwp_steps. rewrite Em. cbn [ofopt]. pwp_steps.
  assert (Hblock : msg_state m <> message_state_send -> pwp (if blocking then
      block_on_message t n state_recv_blocked_state message_state_recv else skip)
      (fun _ s' => if blocking then NodeChange W n t (W n ++ [t]) s s' /\ node_state s' n = message_state_recv else s' = s) s).
  { intros Hm. destruct blocking; [|by pwp_steps]. apply wp_pwp.
    apply (inv_block W n m t message_state_recv s I Em Hcall); [done|]. destruct (msg_state m); [by left|done|by right]. }
  destruct (msg_state m) eqn:Est; [eapply pwp_mono; [by apply Hblock|]; cbn; intros ? s' HN; by split| |
    eapply pwp_mono; [by apply Hblock|]; cbn; intros ? s' HN; by split].
  destruct (inv_busy W s n m message_state_send I Em Est) as (x & l & El & Eh); [done|]. cbv zeta. rewrite Eh. pwp_steps.
  eapply pwp_serve; [done|done|done|]. intros s1 queue F HM Hl Em1. pwp_steps.
  apply wp_pwp. eapply wp_mono; [eapply (wp_store_queue n _ _ _ l mret (fun _ s' => s' = _)); [exact Em1|exact HM|apply wp_ret; reflexivity]|].
  intros ? s2' W2. pwp_steps. apply wp_pwp. apply wp_ret_id in W2. eapply wp_mono; [exact W2|]. cbn. intros ? ? ->.
  set (s2 := with_messages _ s1). pwp_steps.
  assert (Ea : scheduler_action s2 = scheduler_action s) by (unfold s2; cbn; by rewrite (mf_globals _ _ F)).
  assert (Hfin : forall s', IpcSame (touched s t x) s2 s' -> waits (word_of s' x) = false ->
    (message_state_send = message_state_send -> exists x l, W n = x :: l /\ NodeChange W n x l s s') /\
    (message_state_send <> message_state_send -> if blocking then NodeChange W n t (W n ++ [t]) s s' /\ node_state s' n = message_state_recv else s' = s)).
  { intros s' F2 Hx. split; [|done]. intros _. exists x, l. split; [done|].
    apply (inv_served W n m x [] l s s1 queue (touched s t x) s'); [done..| |done].
    intros p Hp Hpx. by apply (touched_awake W s t x). }
  assert (HT : touched s t x t /\ touched s t x x) by (split; [by left|by right; left]). destruct HT as [HTt HTx].
  eapply pwp_mono; [apply (pwp_message_exchange (touched s t x)); [done|done|by apply touched_okact]|].
  cbn. intros e s3 [F3 He]. destruct (Z.eqb_spec e EXCEPTION_NONE) as [_|Hne]; [|pwp_steps; apply Hfin; [done|by apply He]].
  pwp_steps. eapply pwp_mono; [apply (pwp_set_thread_state (touched s t x)); [done|done|]|].
  { apply (okact_same _ s2); [by apply touched_okact|done]. }
  cbn. intros [] s4 [F4 Hx4]. assert (F4' : IpcSame (touched s t x) s2 s4) by (by transitivity s3).
  pwp_steps. eapply pwp_mono; [apply (pwp_possible_switchto (touched s t x)); [done|]|].
  { apply (okact_same _ s2); [by apply touched_okact|done]. }
  cbn. intros [] s5 F5. apply (pwp_preserves (IpcSame (touched s t x))); [apply preserves_sched_or; frames|].
  intros ? s6 F6. apply Hfin; [|by apply (sm_awake _ _ _ F6), (sm_awake _ _ _ F5)]. transitivity s4; [done|]. by transitivity s5.
Qed.

(** A receive that finds a pending signal consumes it and touches no message node. *)
Lemma inv_signal s t n nt blocking :
  notifations s !! get_fld notifation_node 0 s t = Some nt -> ntf_state nt = notifation_state_active ->
  get_fld notifation_node 0 s t <> NULL ->
  pwp (receive_ipc t blocking n) (fun _ s' => IpcSame (fun _ => False) s s') s.
Proof.
  intros En Ha Hn0. unfold receive_ipc. pwp_steps. apply pwp_rd. intros y Ey. unfold get_fld in En, Hn0. rewrite Ey in En, Hn0.
  rewrite (proj2 (Z.eqb_neq (notifation_node y) NULL)) by done. pwp_steps. unfold rd_ntf. pwp_steps. rewrite En. cbn [ofopt]. pwp_steps.
  rewrite bool_decide_eq_true_2 by done. unfold complete_signal, wr_ntf, rd_ntf. apply (pwp_preserves (IpcSame (fun _ => False))); [frames|done].
Qed.

Lemma inv_cancel W s t :
  IpcInv W s -> waits (word_of s t) = true ->
  exists l1 l2, W (object_of s t) = l1 ++ t :: l2 /\
    wp (cancel_ipc t) (fun _ s' => NodeChange W (object_of s t) t (l1 ++ l2) s s') s.
Proof.
  intros I Hw. set (n := object_of s t). pose proof (ii_complete _ _ I t Hw) as Hin. fold n in Hin.
  destruct (inv_node W s I n t Hin) as (m & Em & Hm). destruct (ii_member _ _ I n m t Em Hin) as [Ew _].
  destruct (list_elem_of_split _ _ Hin) as (l1 & l2 & El). exists l1, l2. split; [done|].
  pose proof (inv_nodup W s I n) as [Hnd _]. rewrite El in Hnd.
  assert (Htn : t ∉ l1 ++ l2) by (apply NoDup_app in Hnd as (_ & Hd & [Hc _]%NoDup_cons); set_solver).
  eapply (wp_cancel_blocked t n (msg_state m) l1 l2 (word_of s t)); [|done| |done|done|].
  { rewrite <-El. by apply (inv_msgnode W s I). }
  { rewrite Ew. destruct (msg_state m); [done|by left|by right]. }
  intros s' F (queue & Em' & HM) Ew' _ Hl.
  assert (Hx : waits (word_of s' t) = false) by (by rewrite Ew').
  split; [| | | | | | |done| | | |by eapply iframe_null].
  - intros k Hk. by apply (if_nodes _ _ _ _ F).
  - exists m, (mk_message (waiting_state (msg_state m) (l1 ++ l2)) queue). cbn. split; [done|]. split; [done|]. split; [done|].
    split; [by destruct (l1 ++ l2)|]. split; [|done]. intros p Hp _. destruct (l1 ++ l2); [set_solver|done].
  - intros p. by eapply iframe_is_tcb.
  - intros p Hp Hp'. by apply Hl.
  - intros p Hp. by eapply iframe_fld.
  - intros p Hp _. by eapply iframe_fld.
  - intros p Hp Hwp. by rewrite (iframe_fld obj_state 0 t n s s').
  - intros p Hp. rewrite El. set_solver.
  - intros k Hk Hk'. apply Hk. by apply (inv_unique W s I t).
  - eapply iframe_candidate; [done|done|by right].
Qed.

Lemma inv_reorder W s t :
  IpcInv W s -> waits (word_of s t) = true ->
  exists l1 l2, W (object_of s t) = l1 ++ t :: l2 /\
    wp (reorder_message_node t) (fun _ s' => NodeChange W (object_of s t) t (l1 ++ l2 ++ [t]) s s' /\
      node_state s' (object_of s t) = node_state s (object_of s t)) s.
Proof.
  intros I Hw. set (n := object_of s t). pose proof (ii_complete _ _ I t Hw) as Hin. fold n in Hin.
  destruct (inv_node W s I n t Hin) as (m & Em & Hm). destruct (ii_member _ _ I n m t Em Hin) as [Ew _].
  destruct (list_elem_of_split _ _ Hin) as (l1 & l2 & El). exists l1, l2. split; [done|].
  pose proof (inv_nodup W s I n) as [Hnd Hnz]. destruct (ii_node _ _ I n m Em) as [HM0 _]. rewrite El in Hnd, HM0.
  assert (Htn : t ∉ l1 ++ l2) by (apply NoDup_app in Hnd as (_ & Hd & [Hc _]%NoDup_cons); set_solver).
  assert (Ht : is_tcb s t) by (apply (mq_member _ _ _ HM0); set_solver).
  assert (Ht0 : t <> 0) by (intros ->; done).
  unfold reorder_message_node. wp_steps. apply wp_assert; [by apply negb_true_iff, Z.eqb_neq|]. wp_steps.
  unfold get_thread_state_object. wp_steps. apply wp_assert; [by apply negb_true_iff, Z.eqb_neq|]. wp_steps.
  apply (wp_rd _ _ 0); [done|]. fold n. wp_steps. eapply wp_rd_msg; [done|]. wp_steps.
  eapply wp_message_dequeue; [done|]. intros s1 q1 F1 HM1 Hl1. wp_steps.
  eapply wp_message_append; [done|by rewrite mframe_is_tcb|done|done|]. intros s2 q2 F2 HM2 Hl2.
  assert (F : MFrame s s2) by (by transitivity s1). pose proof (mf_globals _ _ F) as G.
  wp_steps. apply (wp_wr_msg n m); [by rewrite G|]. rewrite <-app_assoc in HM2.
  assert (Hf : forall A (f : ktcb -> A) d p, (forall x, f (unlink_mesg x) = f x) ->
    get_fld f d (with_messages (<[n := with_msg_queue q2 m]> (messages s2)) s2) p = get_fld f d s p).
  { intros A f d p Hf. change (get_fld f d s2 p = get_fld f d s p). by apply (mframe_fld _ _ _ _ _ F). }
  split; [|unfold node_state; cbn; by rewrite lookup_insert_eq; fold n; rewrite Em].
  split.
  - intros k Hk. cbn. by rewrite lookup_insert_ne, G.
  - exists m, (with_msg_queue q2 m). split; [done|]. split; [cbn; apply lookup_insert_eq|]. split; [by eapply mesgq_same|].
    cbn. split; [by split; intros E; [done|destruct l1, l2]|]. split; [done|]. by rewrite !Hf.
  - intros p. by apply (mframe_is_tcb s s2).
  - intros p Hp Hp'. change (mnext s2 p = mnext s p /\ mprev s2 p = mprev s p).
    rewrite <-(proj1 (Hl1 p ltac:(set_solver))), <-(proj2 (Hl1 p ltac:(set_solver))). apply Hl2. set_solver.
  - intros p _. by rewrite Hf.
  - intros p _ _. by rewrite Hf.
  - intros p _. by rewrite Hf.
  - set_solver.
  - intros p Hp. rewrite El. set_solver.
  - intros k Hk Hk'. apply Hk. by apply (inv_unique W s I t).
  - rewrite Hf by done. cbn. rewrite G. apply I.
  - cbn. rewrite G. apply I.
Qed.

End Effects.

(** ** Abstract specification

    A node is an endpoint: a direction and the queue of the threads that wait in it. *)

Definition endpoint : Type := message_state * list Z.

Inductive ipc_event :=
| EvSend (t n : Z) (blocking : bool)
| EvReceive (t n : Z) (blocking : bool)
| EvSignal (t : Z)
| EvCancel (t : Z)
| EvReorder (t : Z)
| EvSchedule
| EvOther.

(** [A'] is [A] with endpoint [n] set to [v]. *)
Definition sets (A A' : Z -> endpoint) (n : Z) (v : endpoint) : Prop := forall k, A' k = if k =? n then v else A k.
Definition unchanged (A A' : Z -> endpoint) : Prop := forall k, A' k = A k.

(** [op_waits st] serves a thread that waits in direction [st], or waits in the other. *)
Inductive spec_meet (A A' : Z -> endpoint) (t n : Z) (blocking : bool) (own other : message_state) : Prop :=
| meet_serves x l : A n = (other, x :: l) -> sets A A' n (waiting_state other l, l) -> spec_meet A A' t n blocking own other
| meet_waits l : A n = (waiting_state own l, l) -> blocking = true -> sets A A' n (own, l ++ [t]) ->
    spec_meet A A' t n blocking own other
| meet_polls l : A n = (waiting_state own l, l) -> blocking = false -> unchanged A A' -> spec_meet A A' t n blocking own other.

Inductive spec_step (A A' : Z -> endpoint) : ipc_event -> Prop :=
| spec_send t n b : spec_meet A A' t n b message_state_send message_state_recv -> spec_step A A' (EvSend t n b)
| spec_receive t n b : spec_meet A A' t n b message_state_recv message_state_send -> spec_step A A' (EvReceive t n b)
| spec_cancel t n st l1 l2 : A n = (st, l1 ++ t :: l2) -> sets A A' n (waiting_state st (l1 ++ l2), l1 ++ l2) ->
    spec_step A A' (EvCancel t)
| spec_cancel_none t : (forall n, t ∉ snd (A n)) -> unchanged A A' -> spec_step A A' (EvCancel t)
| spec_reorder t n st l1 l2 : A n = (st, l1 ++ t :: l2) -> sets A A' n (st, l1 ++ l2 ++ [t]) -> spec_step A A' (EvReorder t)
| spec_idle e : (exists t, e = EvSignal t) \/ e = EvSchedule \/ e = EvOther -> unchanged A A' -> spec_step A A' e.

Definition abs (W : Z -> list Z) (s : kstate) (n : Z) : endpoint := (node_state s n, W n).

Section System.
Context `{Config} `{Platform} `{SV : Services}.

(** A signal is pending for [t]. *)
Definition signalled (s : kstate) (t : Z) : Prop :=
  get_fld notifation_node 0 s t <> NULL /\
  exists nt, notifations s !! get_fld notifation_node 0 s t = Some nt /\ ntf_state nt = notifation_state_active.

(** One completed operation.  [step_other] is any step of the rest of the kernel that
    leaves nodes, links and the state words of blocked threads alone. *)
Inductive ipc_step (s s' : kstate) : ipc_event -> Prop :=
| step_send t n blocking donate : caller s t -> send_ipc t blocking donate n s = Done tt s' -> ipc_step s s' (EvSend t n blocking)
| step_receive t n blocking : caller s t -> not_signalled s t -> receive_ipc t blocking n s = Done tt s' ->
    ipc_step s s' (EvReceive t n blocking)
| step_signal t n blocking : caller s t -> signalled s t -> receive_ipc t blocking n s = Done tt s' -> ipc_step s s' (EvSignal t)
| step_cancel t : word_of s t <> state_notify_blocked_state -> cancel_ipc t s = Done tt s' -> ipc_step s s' (EvCancel t)
| step_reorder t : waits (word_of s t) = true -> reorder_message_node t s = Done tt s' -> ipc_step s s' (EvReorder t)
| step_schedule : schedule s = Done tt s' -> ipc_step s s' EvSchedule
| step_other : IpcSame (fun p => waits (word_of s p) = false) s s' -> ipc_step s s' EvOther.

Inductive ipc_trace : list ipc_event -> kstate -> kstate -> Prop :=
| trace_nil s : ipc_trace [] s s
| trace_cons e tr s1 s2 s3 : ipc_step s1 s2 e -> ipc_trace tr s2 s3 -> ipc_trace (e :: tr) s1 s3.

(** ** Simulation *)

Lemma abs_state W s n m : IpcInv W s -> messages s !! n = Some m -> abs W s n = (msg_state m, W n).
Proof. intros I Em. unfold abs, node_state. by rewrite Em. Qed.

(** The direction of an endpoint is idle exactly when nobody waits. *)
Lemma abs_waiting W s n st l : IpcInv W s -> abs W s n = (st, l) -> st = waiting_state st l /\ (l <> [] -> st <> message_state_idle).
Proof.
  intros I [= <- <-]. unfold node_state. destruct (messages s !! n) as [m|] eqn:E.
  - pose proof (proj2 (ii_node _ _ I n m E)) as Hi. destruct (W n); cbn; [|naive_solver]. split; [|done]. by apply Hi.
  - by rewrite (ii_outside _ _ I n E).
Qed.

Lemma change_sets W n x l s s' :
  IpcInv W s -> NodeChange W n x l s s' -> exists m', messages s' !! n = Some m' /\
  sets (abs W s) (abs (upd_q W n l) s') n (msg_state m', l).
Proof.
  intros I Hc. destruct (nc_node _ _ _ _ _ _ Hc) as (m & m' & Em & Em' & _). exists m'. split; [done|]. intros k.
  unfold abs, upd_q, node_state. destruct (Z.eqb_spec k n) as [->|Hk]; [by rewrite Em'|]. by rewrite (nc_nodes _ _ _ _ _ _ Hc).
Qed.

(** The direction after a change, when somebody other than [x] keeps waiting or nobody does. *)
Lemma change_direction W n m x l s s' :
  IpcInv W s -> messages s !! n = Some m -> NodeChange W n x l s s' -> x ∉ l ->
  sets (abs W s) (abs (upd_q W n l) s') n (waiting_state (msg_state m) l, l).
Proof.
  intros I Em Hc Hx. destruct (change_sets W n x l s s' I Hc) as (m' & Em' & Hs).
  destruct (nc_node _ _ _ _ _ _ Hc) as (m0 & m1 & E0 & E1 & _ & Hi & Hst & _). rewrite Em in E0. rewrite Em' in E1.
  injection E0 as <-. injection E1 as <-. enough (msg_state m' = waiting_state (msg_state m) l) as <- by done.
  destruct l as [|p l]; cbn; [by apply Hi|]. apply (Hst p); set_solver.
Qed.

Lemma change_same W s s' T :
  IpcInv W s -> IpcSame T s s' -> (forall p, T p -> waits (word_of s p) = false) -> IpcInv W s' /\ unchanged (abs W s) (abs W s').
Proof.
  intros I F HT. split; [by eapply inv_same|]. intros k. unfold abs, node_state. by rewrite (sm_messages _ _ _ F).
Qed.

(** The common case distinction of sending and receiving. *)
Lemma meet_simulates W s s' t n m b own other :
  IpcInv W s -> messages s !! n = Some m -> (forall st, st = message_state_idle \/ st = own \/ st = other) ->
  (msg_state m = other -> exists x l, W n = x :: l /\ NodeChange W n x l s s') ->
  (msg_state m <> other -> if b : bool then NodeChange W n t (W n ++ [t]) s s' /\ node_state s' n = own else s' = s) ->
  exists W', IpcInv W' s' /\ spec_meet (abs W s) (abs W' s') t n b own other.
Proof.
  intros I Em Hall Hserve Hblock. pose proof (abs_state W s n m I Em) as Ea.
  destruct (decide (msg_state m = other)) as [E|E].
  - destruct (Hserve E) as (x & l & El & HN). exists (upd_q W n l). split; [by eapply inv_change|].
    apply (meet_serves _ _ _ _ _ _ _ x l); [by rewrite Ea, E, El|]. rewrite <-E. eapply change_direction; [done|done|done|].
    pose proof (proj1 (inv_nodup W s I n)) as Hnd. rewrite El in Hnd. by apply NoDup_cons in Hnd as [].
  - specialize (Hblock E). assert (Ew : abs W s n = (waiting_state own (W n), W n)).
    { rewrite Ea. f_equal. destruct (abs_waiting W s n _ _ I Ea) as [Ew _].
      destruct (Hall (msg_state m)) as [E'|[E'|]]; [|by rewrite E' in *|done].
      apply (ii_node _ _ I n m Em) in E' as E2. by rewrite E2. }
    destruct b; [destruct Hblock as [HN Hst]|subst s'; exists W; split; [done|by apply (meet_polls _ _ _ _ _ _ _ (W n))]].
    exists (upd_q W n (W n ++ [t])). split; [by eapply inv_change|]. destruct (change_sets _ _ _ _ _ _ I HN) as (m' & Em' & Hs).
    apply (meet_waits _ _ _ _ _ _ _ (W n)); [done|done|].
    assert (msg_state m' = own) as <- by (unfold node_state in Hst; by rewrite Em' in Hst). done.
Qed.

(** An address that is no node stops both operations. *)
Lemma send_needs_node s s' t n b d : send_ipc t b d n s = Done tt s' -> is_Some (messages s !! n).
Proof.
  intros Hrun. destruct (messages s !! n) eqn:Em; [by eexists|]. exfalso.
  assert (Hp : pwp (send_ipc t b d n) (fun _ _ => False) s) by (unfold send_ipc, rd_msg; pwp_steps; by rewrite Em).
  exact (pwp_run _ _ _ _ _ Hp Hrun).
Qed.

Lemma receive_needs_node s s' t n b :
  not_signalled s t -> receive_ipc t b n s = Done tt s' -> is_Some (messages s !! n).
Proof.
  intros Hs Hrun. destruct (messages s !! n) eqn:Em; [by eexists|]. exfalso.
  assert (Hp : pwp (receive_ipc t b n) (fun _ _ => False) s); [|exact (pwp_run _ _ _ _ _ Hp Hrun)].
  unfold receive_ipc. pwp_steps. apply pwp_rd. intros y Ey. pwp_steps.
  apply (pwp_mono _ (fun x s' => x = false /\ s' = s)); [by apply (pwp_unsignalled s t y)|].
  intros ? ? [-> ->]. unfold rd_msg. pwp_steps. by rewrite Em.
Qed.

(** Cancelling a thread that does not wait does nothing. *)
Lemma cancel_awake s s' t :
  waits (word_of s t) = false -> word_of s t <> state_notify_blocked_state -> cancel_ipc t s = Done tt s' -> s' = s.
Proof.
  intros Ew Hw Hrun. assert (Hp : pwp (cancel_ipc t) (fun _ s' => s' = s) s); [|exact (pwp_run _ _ _ _ _ Hp Hrun)].
  unfold cancel_ipc, get_thread_object_state. pwp_steps. apply pwp_rd. intros y Ey. unfold get_fld in Ew, Hw. rewrite Ey in Ew, Hw.
  assert ((obj_state y =? state_send_blocked_state) || (obj_state y =? state_recv_blocked_state) = false) as ->.
  { apply orb_false_iff. split; apply Z.eqb_neq; intros E; by rewrite E in Ew. }
  rewrite (proj2 (Z.eqb_neq _ _) Hw). by pwp_steps.
Qed.

(** A queue keeps its threads distinct. *)
Lemma inv_split W s n l1 x l2 : IpcInv W s -> W n = l1 ++ x :: l2 -> x ∉ l1 ++ l2.
Proof.
  intros I El. pose proof (proj1 (inv_nodup W s I n)) as Hnd. rewrite El in Hnd.
  apply NoDup_app in Hnd as (_ & Hd & [Hc _]%NoDup_cons). set_solver.
Qed.

Context `{SF : !ServicesFrame}.

(** Every completed operation is a step of the specification. *)
Lemma step_simulates W s s' e :
  IpcInv W s -> ipc_step s s' e -> exists W', IpcInv W' s' /\ spec_step (abs W s) (abs W' s') e.
Proof.
  intros I [t n b d Hc Hrun|t n b Hc Hs Hrun|t n b Hc (Hn & nt & En & Ha) Hrun|t Hw Hrun|t Hw Hrun|Hrun|F].
  - destruct (send_needs_node _ _ _ _ _ _ Hrun) as [m Em].
    destruct (pwp_run _ _ _ _ _ (inv_send W s t n m d b I Hc Em) Hrun) as [Hr Hb].
    destruct (meet_simulates W s s' t n m b message_state_send message_state_recv) as (W' & I' & HM); [done|done|by intros []; auto|done|done|].
    exists W'. split; [done|by apply spec_send].
  - destruct (receive_needs_node _ _ _ _ _ Hs Hrun) as [m Em].
    destruct (pwp_run _ _ _ _ _ (inv_receive W s t n m b I Hc Hs Em) Hrun) as [Hr Hb].
    destruct (meet_simulates W s s' t n m b message_state_recv message_state_send) as (W' & I' & HM); [done|done|by intros []; auto|done|done|].
    exists W'. split; [done|by apply spec_receive].
  - pose proof (pwp_run _ _ _ _ _ (inv_signal s t n nt b En Ha Hn) Hrun) as F.
    destruct (change_same W s s' _ I F) as [I' HU]; [done|]. exists W. split; [done|]. apply spec_idle; [left; by exists t|done].
  - destruct (waits (word_of s t)) eqn:Ew.
    + destruct (inv_cancel W s t I Ew) as (l1 & l2 & El & Hp). pose proof (pwp_run _ _ _ _ _ (wp_pwp _ _ _ Hp) Hrun) as HN. cbn in HN.
      exists (upd_q W (object_of s t) (l1 ++ l2)). split; [by eapply inv_change|].
      destruct (inv_node W s I (object_of s t) t) as (m & Em & _); [rewrite El; set_solver|].
      apply (spec_cancel _ _ t (object_of s t) (msg_state m) l1 l2); [by rewrite (abs_state W s _ m I Em), El|].
      eapply change_direction; [done|done|done|by eapply inv_split].
    + rewrite (cancel_awake _ _ _ Ew Hw Hrun).
      exists W. split; [done|]. apply spec_cancel_none; [|done]. intros n. by apply (inv_awake W s I).
  - destruct (inv_reorder W s t I Hw) as (l1 & l2 & El & Hp). pose proof (pwp_run _ _ _ _ _ (wp_pwp _ _ _ Hp) Hrun) as [HN Hst].
    exists (upd_q W (object_of s t) (l1 ++ l2 ++ [t])). split; [by eapply inv_change|].
    destruct (inv_node W s I (object_of s t) t) as (m & Em & _); [rewrite El; set_solver|].
    destruct (change_sets _ _ _ _ _ _ I HN) as (m' & Em' & Hs). apply (spec_reorder _ _ t (object_of s t) (msg_state m) l1 l2).
    { by rewrite (abs_state W s _ m I Em), El. }
    assert (msg_state m' = msg_state m) as <-; [|done].
    unfold node_state in Hst. by rewrite Em, Em' in Hst.
  - pose proof (pwp_run _ _ _ _ _ (pwp_schedule W s I) Hrun) as F. cbn in F.
    destruct (change_same W s s' _ I F) as [I' HU]; [done|]. exists W. split; [done|]. apply spec_idle; [auto|done].
  - destruct (change_same W s s' _ I F) as [I' HU]; [done|]. exists W. split; [done|]. apply spec_idle; [auto|done].
Qed.

(** ** Theorems *)

Inductive spec_trace : list ipc_event -> (Z -> endpoint) -> (Z -> endpoint) -> Prop :=
| spec_nil A A' : unchanged A A' -> spec_trace [] A A'
| spec_cons e tr A1 A2 A3 : spec_step A1 A2 e -> spec_trace tr A2 A3 -> spec_trace (e :: tr) A1 A3.

(** Every reachable state satisfies the invariant. *)
Lemma trace_invariant W tr s s' : IpcInv W s -> ipc_trace tr s s' -> exists W', IpcInv W' s'.
Proof.
  intros I Htr. revert W I. induction Htr as [s|e tr s1 s2 s3 Hstep Htr IH]; intros W I; [by exists W|].
  destruct (step_simulates W s1 s2 e I Hstep) as (W2 & I2 & _). by apply (IH W2).
Qed.

(** C2: message passing refines endpoints.  Whatever completed sends, receives, cancellations,
    reorderings, signals and calls of the scheduler follow each other, with messages of
    any content, the kernel moves as the abstract endpoints do: a call meets the thread
    that waited longest in the other direction or queues up behind the others, a
    cancelled thread leaves, a reordered one goes to the back, and nothing else moves. *)
Theorem ipc_refines_endpoints W tr s s' :
  IpcInv W s -> ipc_trace tr s s' -> exists W', IpcInv W' s' /\ spec_trace tr (abs W s) (abs W' s').
Proof.
  intros I Htr. revert W I. induction Htr as [s|e tr s1 s2 s3 Hstep Htr IH]; intros W I.
  - exists W. split; [done|]. by apply spec_nil.
  - destruct (step_simulates W s1 s2 e I Hstep) as (W2 & I2 & Hs). destruct (IH W2 I2) as (W3 & I3 & Ht3).
    exists W3. split; [done|]. by eapply spec_cons.
Qed.

(** Nobody waits: every node is idle and empty, and no state word is blocked. *)
Record ipc_quiet (s : kstate) : Prop := {
  qt_nodes : forall n m, messages s !! n = Some m -> m = mk_message message_state_idle (mk_queue 0 0);
  qt_words : forall t, waits (word_of s t) = false;
  qt_codes : forall c, 0 <= c <= 2 -> ~ is_tcb s c;
  qt_null : scheds s !! NULL = None /\ messages s !! NULL = None;
}.

Lemma quiet_inv s : ipc_quiet s -> IpcInv (fun _ => []) s.
Proof.
  intros [Hn Hw Hc Hnull]. split; [|set_solver|done|by intros t; rewrite Hw|apply Hw|done|done].
  intros n m E. rewrite (Hn n m E). split; [|done]. split; [done|split; [constructor|set_solver|done]|set_solver].
Qed.

(** C4: the invariant of message passing.  In every state reached from a quiet one, a thread is
    blocked on messages exactly when it is in the queue of the node it names; it is in no
    other queue and only once; a node is idle exactly when its queue is empty; and
    [cancel_ipc] on any blocked thread completes. *)
Theorem ipc_invariant tr s s' :
  ipc_quiet s -> ipc_trace tr s s' -> exists W, IpcInv W s' /\
    (forall t, waits (word_of s' t) = true <-> exists n, t ∈ W n) /\
    (forall t n n', t ∈ W n -> t ∈ W n' -> n = n' /\ n = object_of s' t) /\
    (forall n, NoDup (W n) /\ (node_state s' n = message_state_idle <-> W n = [])) /\
    (forall t, waits (word_of s' t) = true -> exists s'', cancel_ipc t s' = Done tt s'' /\ waits (word_of s'' t) = false).
Proof.
  intros Hq Htr. destruct (trace_invariant _ tr s s' (quiet_inv s Hq) Htr) as (W & I). exists W. split; [done|]. repeat split.
  - intros Ht. eexists. by apply (ii_complete _ _ I).
  - intros (n & Hn). by apply (inv_waiter W s' I n).
  - by apply (inv_unique W s' I t).
  - symmetry. by apply (inv_waiter W s' I n).
  - by apply (inv_nodup W s' I).
  - unfold node_state. destruct (messages s' !! n) as [m|] eqn:E; [by apply (ii_node _ _ I)|]. intros _. by apply (ii_outside _ _ I).
  - intros E. unfold node_state. destruct (messages s' !! n) as [m|] eqn:Em; [|done]. by apply (ii_node _ _ I n m Em).
  - intros t Ht. destruct (inv_cancel W s' t I Ht) as (l1 & l2 & El & Hp). apply wp_run in Hp as ([] & s2 & Hrun & HN).
    exists s2. split; [done|]. apply (nc_self _ _ _ _ _ _ HN). by eapply inv_split.
Qed.

(** [e] is an operation that meets threads waiting at [n] in direction [st]. *)
Definition meets (st : message_state) (n : Z) (e : ipc_event) : bool :=
  match e, st with
  | EvSend _ k _, message_state_recv => k =? n
  | EvReceive _ k _, message_state_send => k =? n
  | _, _ => false
  end.

(** Taking out somebody else moves [x] forward or leaves it where it is. *)
Lemma leave_rank (l1 l2 a b : list Z) x t :
  l1 ++ x :: l2 = a ++ t :: b -> t <> x ->
  exists l1' l2', a ++ b = l1' ++ x :: l2' /\ (length l1' <= length l1)%nat.
Proof.
  intros E Ht. apply app_eq_inv in E as [(k & -> & E)|(k & -> & E)].
  - destruct k as [|y k]; [by injection E|]. injection E as -> ->. exists (a ++ k), l2.
    rewrite <-app_assoc. split; [done|]. rewrite !length_app. cbn. lia.
  - destruct k as [|y k]; [by injection E|]. injection E as -> ->. exists l1, (k ++ b). by rewrite <-app_assoc.
Qed.

(** Where [x], which waits at [n] behind [l1], is after a step: served, or still waiting in
    the same direction, behind one thread less if the step met threads waiting at [n]. *)
Definition served_or_forward (A A' : Z -> endpoint) (e : ipc_event) (n : Z) (st : message_state) (l1 : list Z) (x : Z) (l2 : list Z) : Prop :=
  meets st n e = true /\ l1 = [] /\ sets A A' n (waiting_state st l2, l2) \/
  exists l1' l2', A' n = (st, l1' ++ x :: l2') /\ (length l1' + Nat.b2n (meets st n e) <= length l1)%nat.

Section Rank.
Context (A A' : Z -> endpoint) (n : Z) (st : message_state) (l1 : list Z) (x : Z) (l2 : list Z).
Context (En : A n = (st, l1 ++ x :: l2)).

Lemma rank_same e : A' n = A n -> meets st n e = false -> served_or_forward A A' e n st l1 x l2.
Proof. intros E Hm. right. exists l1, l2. rewrite E, Hm. split; [done|cbn; lia]. Qed.

Lemma rank_elsewhere e k v : sets A A' k v -> k <> n -> meets st n e = false -> served_or_forward A A' e n st l1 x l2.
Proof. intros Hset Hk. apply rank_same. by rewrite (Hset n), (proj2 (Z.eqb_neq n k)). Qed.

Lemma rank_meet e t k b own other :
  spec_meet A A' t k b own other -> own <> other -> meets st n e = (k =? n) && bool_decide (st = other) ->
  served_or_forward A A' e n st l1 x l2.
Proof.
  intros Hm Hne Hme. destruct (Z.eqb_spec k n) as [->|Hk].
  - assert (Hw : forall l, A n = (waiting_state own l, l) -> meets st n e = false /\ l = l1 ++ x :: l2 /\ st = own).
    { intros l E. rewrite En in E. injection E as E1 <-. rewrite Hme.
      assert (st = own) as -> by (by destruct l1). by rewrite bool_decide_eq_false_2. }
    destruct Hm as [y l E Hset|l E _ Hset|l E _ Hu].
    + rewrite En in E. injection E as -> E. unfold served_or_forward. rewrite Hme, bool_decide_eq_true_2 by done.
      destruct l1 as [|z l1']; injection E as <- <-; [by left|].
      right. exists l1', l2. split; [rewrite (Hset n), Z.eqb_refl; by destruct l1'|cbn; lia].
    + destruct (Hw l E) as (Ho & -> & ->). right. rewrite Ho. exists l1, (l2 ++ [t]).
      rewrite (Hset n), Z.eqb_refl, <-app_assoc. split; [done|cbn; lia].
    + destruct (Hw l E) as (Ho & _). by apply rank_same.
  - destruct Hm as [y l E Hset|l E _ Hset|l E _ Hu]; [by eapply rank_elsewhere..|by apply rank_same].
Qed.

Lemma spec_rank e :
  spec_step A A' e -> st <> message_state_idle -> e <> EvCancel x -> e <> EvReorder x -> served_or_forward A A' e n st l1 x l2.
Proof.
  intros Hs Hst Hc Hr. destruct Hs as [t k b Hm|t k b Hm|t k st' a c E Hset|t _ Hu|t k st' a c E Hset|e He Hu].
  - apply (rank_meet _ _ _ _ _ _ Hm); [done|]. cbn. destruct st; [done|by rewrite andb_false_r|by rewrite andb_true_r].
  - apply (rank_meet _ _ _ _ _ _ Hm); [done|]. cbn. destruct st; [done|by rewrite andb_true_r|by rewrite andb_false_r].
  - destruct (decide (k = n)) as [->|Hk]; [|by eapply rank_elsewhere]. rewrite En in E. injection E as -> E.
    destruct (leave_rank _ _ _ _ _ _ E) as (l1' & l2' & E' & Hl); [by intros ->|]. right. exists l1', l2'.
    rewrite (Hset n), Z.eqb_refl, E'. split; [by destruct l1'|cbn; lia].
  - by apply rank_same.
  - destruct (decide (k = n)) as [->|Hk]; [|by eapply rank_elsewhere]. rewrite En in E. injection E as -> E.
    destruct (leave_rank _ _ _ _ _ _ E) as (l1' & l2' & E' & Hl); [by intros ->|]. right. exists l1', (l2' ++ [t]).
    rewrite (Hset n), Z.eqb_refl, app_assoc, E', <-app_assoc. split; [done|cbn; lia].
  - apply rank_same; [done|]. by destruct He as [[t ->]|[->| ->]].
Qed.

End Rank.

(** C14: waiting threads are served.  A thread that waits at a node behind [k] others stops waiting
    within the next [k + 1] completed operations that meet waiting threads there, whatever
    else happens in between, unless it is itself cancelled or reordered. *)
Theorem ipc_waiter_served W tr s s' n l1 x l2 :
  IpcInv W s -> W n = l1 ++ x :: l2 -> ipc_trace tr s s' ->
  EvCancel x ∉ tr -> EvReorder x ∉ tr ->
  (length l1 < length (List.filter (meets (node_state s n) n) tr))%nat ->
  exists tr1 tr2 s1, tr = tr1 ++ tr2 /\ ipc_trace tr1 s s1 /\ ipc_trace tr2 s1 s' /\ waits (word_of s1 x) = false.
Proof.
  intros I El Htr. revert W l1 l2 I El. induction Htr as [s|e tr s1 s2 s3 Hstep Htr IH]; intros W l1 l2 I El Hc Hr Hlen;
    [cbn in Hlen; lia|].
  destruct (step_simulates W s1 s2 e I Hstep) as (W2 & I2 & Hs).
  assert (Est : abs W s1 n = (node_state s1 n, l1 ++ x :: l2)) by (unfold abs; by rewrite El).
  destruct (abs_waiting W s1 n _ _ I Est) as [_ Hni].
  destruct (spec_rank _ _ n _ l1 x l2 Est _ Hs) as [(_ & -> & Hset)|(l1' & l2' & E' & Hl)]; [by apply Hni; destruct l1|set_solver|set_solver| |].
  - exists [e], tr, s2. split; [done|]. split; [eapply trace_cons; [done|apply trace_nil]|]. split; [done|].
    destruct (waits (word_of s2 x)) eqn:Ew; [|done]. exfalso. pose proof (ii_complete _ _ I2 x Ew) as Hin.
    pose proof (Hset (object_of s2 x)) as Ek. destruct (Z.eqb_spec (object_of s2 x) n) as [E|E]; injection Ek as _ Ek; rewrite Ek in Hin.
    + pose proof (inv_split W s1 n [] x l2 I El) as Hx. set_solver.
    + apply E. apply (inv_unique W s1 I x); [done|]. rewrite El. set_solver.
  - injection E' as Es2 Ew2. cbn [List.filter] in Hlen.
    destruct (IH W2 l1' l2' I2 Ew2) as (tr1 & tr2 & s4 & -> & Htr1 & Htr2 & Hw); [set_solver|set_solver| |].
    + rewrite Es2. destruct (meets (node_state s1 n) n e); cbn in *; lia.
    + exists (e :: tr1), tr2, s4. split; [done|]. split; [by eapply trace_cons|done].
Qed.

End System.

(** ** Witnesses *)

Section SystemWitnesses.
Local Existing Instance test_config.
Local Existing Instance sim_platform.

#[local] Instance demo_services_frame : @ServicesFrame demo_services.
Proof. split; [intros T a b c d|intros T a b c d e|intros T a b c]; apply preserves_ret; typeclasses eauto. Qed.

Definition demo_waiters (n : Z) : list Z := if n =? 9000 then [200] else [].

(** Thread 200 waits to send at node 9000; thread 100 runs. *)
Lemma ipc_demo_inv : IpcInv demo_waiters (ipc_demo message_state_send state_send_blocked_state 1200 65536).
Proof.
  set (s := ipc_demo _ _ _ _).
  assert (Hm : forall n m, messages s !! n = Some m ->
    n = 9000 /\ m = mk_message message_state_send (mk_queue 200 200) \/ n = 9100 /\ m = mk_message message_state_idle (mk_queue 0 0)).
  { intros n m. cbn. intros [[<- <-]|[_ [<- <-]%lookup_singleton_Some]]%lookup_insert_Some; auto. }
  assert (Hw : forall t, waits (word_of s t) = true -> t = 200).
  { intros t. unfold get_fld. destruct (threads s !! t) as [y|] eqn:E; [|done]. cbn in E.
    apply lookup_insert_Some in E as [[_ <-]|[_ [<- _]%lookup_singleton_Some]]; done. }
  split.
  - intros n m [[-> ->]|[-> ->]]%Hm; (split; [|done]).
    + destruct (ipc_demo_node message_state_send state_send_blocked_state 1200 65536) as (q & [= <-] & HM). exact HM.
    + destruct (ipc_demo_idle message_state_send state_send_blocked_state 1200 65536) as (q & [= <-] & HM). exact HM.
  - intros n m t [[-> ->]|[-> ->]]%Hm; cbn; [|set_solver]. intros ->%list_elem_of_singleton. done.
  - intros n En. unfold demo_waiters. destruct (Z.eqb_spec n 9000) as [->|]; [done|done].
  - intros t Ht%Hw. subst t. by apply list_elem_of_singleton.
  - done.
  - intros c Hc [y Ey]. cbn in Ey. apply lookup_insert_Some in Ey as [[? _]|[_ [? _]%lookup_singleton_Some]]; lia.
  - done.
Defined.

(** Thread 100 receives from the node and thread 200 is served. *)
Lemma demo_trace :
  exists s', ipc_trace [EvReceive 100 9000 true] (ipc_demo message_state_send state_send_blocked_state 1200 65536) s'.
Proof.
  destruct (receive_ipc 100 true 9000 (ipc_demo message_state_send state_send_blocked_state 1200 65536)) as [[] s'|] eqn:E.
  - exists s'. eapply trace_cons; [|apply trace_nil]. apply step_receive; [|by left|exact E].
    split; [by eexists|done].
  - exfalso. revert E. vm_compute. discriminate.
Defined.

Lemma ipc_refines_endpoints_witness :
  exists s' W', IpcInv W' s' /\
    spec_trace [EvReceive 100 9000 true] (abs demo_waiters (ipc_demo message_state_send state_send_blocked_state 1200 65536)) (abs W' s').
Proof.
  destruct demo_trace as [s' Htr]. destruct (ipc_refines_endpoints _ _ _ _ ipc_demo_inv Htr) as (W' & I' & Hs). by exists s', W'.
Defined.

Lemma ipc_waiter_served_witness :
  exists s', ipc_trace [EvReceive 100 9000 true] (ipc_demo message_state_send state_send_blocked_state 1200 65536) s' /\
    waits (word_of s' 200) = false.
Proof.
  destruct demo_trace as [s' Htr].
  destruct (ipc_waiter_served demo_waiters _ _ _ 9000 [] 200 [] ipc_demo_inv eq_refl Htr) as (tr1 & tr2 & s1 & E & Ht1 & _ & Hw);
    [set_solver|set_solver|apply Nat.ltb_lt; vm_compute; reflexivity|].
  destruct tr1 as [|e tr1].
  - exfalso. inversion Ht1; subst. revert Hw. vm_compute. discriminate.
  - destruct tr1; [|by injection E as _ E]. injection E as <- _. by exists s1.
Defined.

(** Two threads and an idle node. *)
Definition quiet_demo : kstate :=
  with_current_thread 100 (with_messages {[ 9100 := mk_message message_state_idle (mk_queue 0 0) ]}
    (@bss_state test_config {[ 100 := ipc_tcb 0 0 1100 65536; 200 := ipc_tcb 0 0 1200 65536 ]} demo_scheds)).

Lemma quiet_demo_quiet : ipc_quiet quiet_demo.
Proof.
  split; [| | |done].
  - intros n m. cbn. intros [_ <-]%lookup_singleton_Some. done.
  - intros t. unfold get_fld. destruct (threads quiet_demo !! t) as [y|] eqn:E; [|done]. cbn in E.
    by apply lookup_insert_Some in E as [[_ <-]|[_ [_ <-]%lookup_singleton_Some]].
  - intros c Hc [y Ey]. cbn in Ey. apply lookup_insert_Some in Ey as [[? _]|[_ [? _]%lookup_singleton_Some]]; lia.
Defined.

(** Thread 100 sends, blocks, and is cancelled. *)
Lemma ipc_invariant_witness :
  exists s1 s2, send_ipc 100 true false 9100 quiet_demo = Done tt s1 /\ waits (word_of s1 100) = true /\
    cancel_ipc 100 s1 = Done tt s2 /\ waits (word_of s2 100) = false.
Proof.
  destruct (send_ipc 100 true false 9100 quiet_demo) as [[] s1|] eqn:E; [|exfalso; revert E; vm_compute; discriminate].
  destruct (ipc_invariant [EvSend 100 9100 true] quiet_demo s1 quiet_demo_quiet) as (W & _ & _ & _ & _ & Hc).
  { eapply trace_cons; [|apply trace_nil]. eapply step_send; [|exact E]. split; [by eexists|done]. }
  assert (Hw : waits (word_of s1 100) = true).
  { assert (Es : match send_ipc 100 true false 9100 quiet_demo with Done _ s => waits (word_of s 100) | _ => false end = true)
      by (vm_compute; reflexivity). by rewrite E in Es. }
  destruct (Hc 100 Hw) as (s2 & Hrun & Hw2). by exists s1, s2.
Defined.

End SystemWitnesses.
