(* ===== verification/TickTheorems.v ===== *)
(** * Theorems on the clock tick

    What [update_timelist] does to the timer events of [TimeList.v]: [expired] are the events a
    tick takes off the list, [advance] is what it leaves.  The theorem covers ticks whose
    due events are deadlines of running hard real-time threads, for which the handler
    reports a missed deadline to the health monitor and starts nothing else; a tick on which
    no event is due is the special case without any.  An event without a handler is never
    taken off the list. *)

From Stdlib Require Import ZArith Lia Bool List.
From stdpp Require Import base tactics numbers list gmap.
From S2P Require Import Prelude TimeConv Sporadic DList DNode KState TimeList ReadyQueue Sched ReadyQueueFacts ThreadTable TcbCore Ipc Tick.

Local Open Scope Z_scope.

(** ** Events that are due *)

Fixpoint expired (e : Z) (l : list (Z * Z)) : list Z :=
  match l with [] => [] | (p, d) :: l => if d <=? e then p :: expired (e - d) l else [] end.

Fixpoint advance (e : Z) (l : list (Z * Z)) : list (Z * Z) :=
  match l with [] => [] | (p, d) :: l => if d <=? e then advance (e - d) l else (p, d - e) :: l end.

(** Ticks and events left when the loop ends. *)
Fixpoint left_over (e : Z) (l : list (Z * Z)) : Z * list (Z * Z) :=
  match l with [] => (e, []) | (p, d) :: l' => if d <=? e then left_over (e - d) l' else (e, l) end.

Definition nonneg (l : list (Z * Z)) : Prop := forall p d, (p, d) ∈ l -> 0 <= d.

Lemma nonneg_cons p d l : nonneg ((p, d) :: l) -> 0 <= d /\ nonneg l.
Proof. intros Hl. split; [apply (Hl p); by constructor|]. intros q x Hx. apply (Hl q). by constructor. Qed.

Lemma expiry_nonneg l p : nonneg l -> 0 <= expiry l p.
Proof. induction l as [|[q d] l IH]; [done|]. intros [Hd Hl]%nonneg_cons. cbn. destruct (q =? p); [done|]. specialize (IH Hl). lia. Qed.

(** Exactly the events whose distance is at most [e] are due. *)
Lemma expired_iff l : forall e p, nonneg l -> NoDup l.*1 -> p ∈ expired e l <-> p ∈ l.*1 /\ expiry l p <= e.
Proof.
  induction l as [|[q d] l IH]; intros e p; cbn; [set_solver|]. intros [Hd Hl]%nonneg_cons [Hq Hnd]%NoDup_cons. destruct (Z.leb_spec d e).
  - rewrite elem_of_cons, IH, elem_of_cons by done. destruct (Z.eqb_spec q p) as [->|Hne]; [set_solver by lia|]. split; [intros [?|[? ?]]; [done|split; [by right|lia]]|intros [[?|?] ?]; [done|right; split; [done|lia]]].
  - split; [set_solver|]. intros [_ He]. pose proof (expiry_nonneg l p Hl). destruct (q =? p); lia.
Qed.

Lemma expired_in l : forall e p, p ∈ expired e l -> p ∈ l.*1.
Proof. induction l as [|[q d] l IH]; intros e p; cbn; [set_solver|]. destruct (d <=? e); [|set_solver]. intros [->|Hp]%elem_of_cons; [by constructor|]. apply IH in Hp. by constructor. Qed.

(** The others stay, and are nearer by [e]. *)
Lemma advance_iff l : forall e p, nonneg l -> NoDup l.*1 -> p ∈ (advance e l).*1 <-> p ∈ l.*1 /\ e < expiry l p.
Proof.
  induction l as [|[q d] l IH]; intros e p; cbn; [set_solver|]. intros [Hd Hl]%nonneg_cons [Hq Hnd]%NoDup_cons. pose proof (expiry_nonneg l p Hl). destruct (Z.leb_spec d e).
  - rewrite IH, elem_of_cons by done. destruct (Z.eqb_spec q p) as [->|Hne]; [split; [by intros [? _]|intros [_ ?]; lia]|]. split; [intros [? ?]; split; [by right|lia]|intros [[?|?] ?]; [done|split; [done|lia]]].
  - cbn. rewrite elem_of_cons. split; [|by intros [? _]]. intros Hp. split; [done|]. destruct (q =? p); lia.
Qed.

Lemma advance_expiry l : forall e p, nonneg l -> NoDup l.*1 -> p ∈ (advance e l).*1 -> expiry (advance e l) p = expiry l p - e.
Proof.
  induction l as [|[q d] l IH]; intros e p Hl0 Hn0 Hp; [set_solver|]. pose proof (proj1 (advance_iff _ _ _ Hl0 Hn0) Hp) as [_ He]. apply nonneg_cons in Hl0 as [Hd Hl]. apply NoDup_cons in Hn0 as [Hq Hnd]. cbn in *. destruct (Z.leb_spec d e).
  - rewrite IH by done. apply advance_iff in Hp as [Hp _]; [|done|done]. destruct (Z.eqb_spec q p) as [->|]; [done|lia].
  - cbn. destruct (q =? p); lia.
Qed.

Lemma advance_left l : forall e, advance e l = match (left_over e l).2 with [] => [] | (p, d) :: l' => (p, d - (left_over e l).1) :: l' end.
Proof. induction l as [|[q d] l IH]; intros e; cbn; [done|]. destruct (d <=? e); [apply IH|done]. Qed.
Lemma left_over_range l : forall e, nonneg l -> 0 <= e -> 0 <= (left_over e l).1 <= e.
Proof. induction l as [|[q d] l IH]; intros e Hl He; cbn; [lia|]. apply nonneg_cons in Hl as [Hd Hl]. destruct (Z.leb_spec d e); [|cbn; lia]. specialize (IH (e - d) Hl ltac:(lia)). lia. Qed.
Lemma left_over_sub l : forall e x, x ∈ (left_over e l).2 -> x ∈ l.
Proof. induction l as [|[q d] l IH]; intros e x; cbn; [done|]. destruct (d <=? e); [|done]. intros Hx%IH. by constructor. Qed.
Lemma left_over_later l : forall e, match (left_over e l).2 with [] => True | (_, d) :: _ => (left_over e l).1 < d end.
Proof. induction l as [|[q d] l IH]; intros e; cbn; [done|]. destruct (Z.leb_spec d e); [apply IH|done]. Qed.

(** ** The loop *)

(** A tick changes the clock, the timers and the request to the health monitor. *)
Definition TickFrame (s s' : kstate) : Prop :=
  s' = with_timers (timers s') (with_dnodes (dnodes s') (with_current_tick (current_tick s') (with_dvalue_elapse (dvalue_elapse s')
         (with_scheduler_action (scheduler_action s') (with_privilege_thread_status (privilege_thread_status s') s))))).

#[global] Instance TickFrame_preorder : PreOrder TickFrame.
Proof.
  split.
  - by intros [].
  - unfold TickFrame. intros s1 s2 s3 E1 E2. rewrite E2 at 1. rewrite E1. by destruct s1, s3.
Qed.

(** The event at [p] is the deadline of a running hard real-time thread of the table. *)
Definition monitored (s : kstate) (L : list Z) (p : Z) : Prop :=
  exists t, timers s !! p = Some t /\ handler t = deadline_timeout_handler_ptr /\ data t ∈ L /\ data t <> NULL /\
    id_spacer_id < GLOBALID_TO_TID (get_fld thread_id 0 s (data t)) /\
    get_fld is_thread_running false s (data t) = true /\ get_fld level 0 s (data t) = HARD_PRIOR_ACTION.

(** The health monitor is asked for. *)
Definition alarm (s : kstate) : kstate :=
  with_privilege_thread_status (<[Z.to_nat priv_health_monitor_priv := priv_ready_priv]> (privilege_thread_status s))
    (with_scheduler_action SCHEDULER_ACTION_CHOOSE_PRIV_THREAD s).

Lemma running_not_blocked t : is_thread_running t = true -> obj_state t <> state_recv_blocked_state /\ obj_state t <> state_send_blocked_state.
Proof. unfold is_thread_running, is_thread_not_running. intros [Hn _]%andb_true_iff. split; intros E; by rewrite E in Hn. Qed.

Section Ticks.
Context `{Config} `{Platform}.

(** The memory of an event is released without a change to the kernel's variables: the release
    works on the object table, where it completes for every timer event
    ([timer_event_release]). *)
Definition releases (p : Z) : Prop := forall s, d_object_free p s = Done tt s.

Lemma table_frame s s' L : TickFrame s s' -> Table s L -> Table s' L.
Proof. intros ->. intros []. by split. Qed.

Lemma monitored_frame s s' L p : TickFrame s s' -> timers s' !! p = timers s !! p -> monitored s L p -> monitored s' L p.
Proof. intros F E (t & Et & Hm). exists t. rewrite E. split; [done|]. rewrite F. exact Hm. Qed.

Lemma wp_handler t L (Q : Z -> kstate -> Prop) s :
  Table s L -> data t ∈ L -> data t <> NULL -> id_spacer_id < GLOBALID_TO_TID (get_fld thread_id 0 s (data t)) ->
  get_fld is_thread_running false s (data t) = true -> get_fld level 0 s (data t) = HARD_PRIOR_ACTION ->
  (1 < length (privilege_thread_status s))%nat -> Q 0 (alarm s) -> wp (deadline_timeout_handler (data t)) Q s.
Proof.
  intros HT Hin H0' Hid Hrun Hlev Hlen HQ. pose proof (tb_tcb _ _ HT _ Hin) as Ht. unfold deadline_timeout_handler. wp_steps. apply (wp_rd _ _ 0); [done|]. wp_steps.
  assert (G := proj1 (get_thread_exact s L _ HT Hid) _ Hin eq_refl). unfold wp at 1. rewrite G. destruct (Z.eqb_spec (data t) NULL); [done|].
  wp_steps. apply (wp_rd _ _ false); [done|]. rewrite Hrun. unfold get_thread_action. wp_steps. apply wp_assert; [by apply negb_true_iff, Z.eqb_neq|]. apply (wp_rd _ _ 0); [done|]. wp_steps. rewrite Hlev, Z.eqb_refl.
  unfold set_scheduler_action, set_privilege_status, get_thread_object_state. wp_steps. destruct (lookup_lt_is_Some_2 _ _ Hlen) as [x Ex]. eapply (wp_arr_set _ _ _ x); [exact Ex|].
  wp_steps. match goal with |- wp ?m ?Q _ => change (wp m Q (alarm s)) end. assert (Ha : is_tcb (alarm s) (data t)) by exact Ht. unfold get_fld in Hrun. destruct Ht as [tcb Et]. rewrite Et in Hrun. apply running_not_blocked in Hrun as [Hr Hs].
  assert (Eo : get_fld obj_state 0 (alarm s) (data t) = obj_state tcb) by (unfold get_fld; change (threads (alarm s)) with (threads s); by rewrite Et).
  wp_steps. apply wp_assert; [by apply negb_true_iff, Z.eqb_neq|]. apply (wp_rd _ _ 0); [done|]. rewrite Eo, (proj2 (Z.eqb_neq _ _) Hr).
  wp_steps. apply wp_assert; [by apply negb_true_iff, Z.eqb_neq|]. apply (wp_rd _ _ 0); [done|]. rewrite Eo, (proj2 (Z.eqb_neq _ _) Hs). by wp_steps.
Qed.

(** What the loop has done to the request to the health monitor. *)
Definition alarmed (es : list Z) (s s' : kstate) : Prop :=
  match es with
  | [] => scheduler_action s' = scheduler_action s /\ privilege_thread_status s' = privilege_thread_status s
  | _ => scheduler_action s' = SCHEDULER_ACTION_CHOOSE_PRIV_THREAD /\
         privilege_thread_status s' = <[Z.to_nat priv_health_monitor_priv := priv_ready_priv]> (privilege_thread_status s)
  end.

Lemma alarmed_cons p es s s1 s' : alarmed [p] s s1 -> alarmed es s1 s' -> alarmed (p :: es) s s'.
Proof. intros [Ea Eb]. destruct es; intros [Ec Ed]; split; try congruence. by rewrite Ed, Eb, list_insert_insert_eq. Qed.

(** The state after the event at [p], at distance [d], was taken off. *)
Definition struck (p d e : Z) (m' : dmem) (s : kstate) : kstate :=
  with_dnodes m' (upd_timer p (with_dvalue 0) (alarm (with_dvalue_elapse (e - d) (with_current_tick (u64 (current_tick s + d)) s)))).

Lemma wp_round p d e l t L fuel (Q : unit -> kstate -> Prop) s :
  TList s ((p, d) :: l) -> Table s L -> timers s !! p = Some t -> monitored s L p -> dvalue_elapse s = e -> 0 <= e < 2 ^ 31 -> d <= e -> releases p ->
  (1 < length (privilege_thread_status s))%nat ->
  (forall m', TList (struck p d e m' s) l -> wp (expire_loop fuel) Q (struck p d e m' s)) -> wp (expire_loop (S fuel)) Q s.
Proof.
  intros HT Htb Et (t' & Et' & Hh & Hin & Hn0 & Hid & Hrun & Hlev) He Her Hde Hfree Hlen HQ. rewrite Et in Et'. injection Et' as <-. pose proof (ring_nonnull _ _ _ (tl_ring _ _ HT)) as Hnn.
  destruct (tl_delta _ _ HT p d ltac:(by constructor)) as [Ed Hd]. assert (Es : s32 d = d) by (apply s32_small; lia).
  cbn [expire_loop]. wp_steps. eapply wp_first_node; [apply HT|]. cbn [first fmap list_fmap fst]. destruct (Z.eqb_spec p NULL) as [->|_]; [set_solver|].
  wp_steps. eapply wp_rd_dvalue; [exact Ed|]. wp_steps. rewrite He, (proj2 (Z.leb_le d e) Hde). wp_steps. rewrite Es. 
  cbn [with_current_tick dvalue_elapse]. rewrite He, u32_small by lia. set (s1 := with_dvalue_elapse (e - d) (with_current_tick (u64 (current_tick s + d)) s)). unfold rd_timer. wp_steps. eapply wp_ofopt; [exact Et|]. rewrite Hh. wp_steps.
  apply (wp_handler t L); [by apply (table_frame s s1)|done..|]. wp_steps. cbn [Z.eqb negb]. wp_steps. apply (wp_wr_dvalue _ _ d); [exact Ed|]. wp_steps.
  assert (HT' : TList (upd_timer p (with_dvalue 0) (alarm s1)) ([] ++ (p, 0) :: l)).
  { pose proof (tl_ring _ _ HT) as HR. split; [exact HR|]. intros q x Hx. assert (Ed1 : dv_of (alarm s1) p = Some d) by exact Ed. rewrite (dv_of_upd p 0 d _ q Ed1). pose proof (ring_nodup _ _ _ HR) as [_ [Hp _]%NoDup_cons]%NoDup_cons.
    apply elem_of_cons in Hx as [[= -> ->]|Hx]; [rewrite decide_True by done; split; [done|lia]|]. rewrite decide_False; [apply (tl_delta _ _ HT); by constructor|]. intros ->. apply Hp. by apply (list_elem_of_fmap_2 fst) in Hx. }
  eapply wp_remove_from_timelist; [exact HT'|]. intros m' Hm'. wp_steps. unfold wp at 1. rewrite Hfree. by apply HQ.
Qed.

Lemma wp_expire L l : forall e fuel (Q : unit -> kstate -> Prop) s,
  TList s l -> Table s L -> dvalue_elapse s = e -> 0 <= e < 2 ^ 31 -> (forall p, p ∈ expired e l -> monitored s L p /\ releases p) ->
  (1 < length (privilege_thread_status s))%nat -> (length (expired e l) < fuel)%nat ->
  (forall s', TickFrame s s' -> TList s' (left_over e l).2 -> dvalue_elapse s' = (left_over e l).1 ->
     u64 (current_tick s' + dvalue_elapse s') = u64 (current_tick s + e) -> alarmed (expired e l) s s' -> Q tt s') ->
  wp (expire_loop fuel) Q s.
Proof.
  induction l as [|[p d] l IH]; intros e [|fuel] Q s HT Htb He Her Hm Hlen Hf HQ; [lia| |lia|].
  - cbn [expire_loop]. wp_steps. eapply wp_first_node; [apply HT|]. cbn. wp_steps. apply HQ; [reflexivity|done|done|by rewrite He|done].
  - cbn [expired left_over] in *. destruct (Z.leb_spec d e) as [Hde|Hde].
    + destruct (Hm p ltac:(by constructor)) as [Hmp Hfree]. pose proof Hmp as (t & Et & _). eapply (wp_round p d e l t L); [done..|]. intros m' HT'.
      assert (F : TickFrame s (struck p d e m' s)) by (by destruct s). pose proof (proj2 (tl_delta _ _ HT p d ltac:(by constructor))) as Hd. cbn [length] in Hf.
      pose proof (ring_nodup _ _ _ (tl_ring _ _ HT)) as [_ [Hp _]%NoDup_cons]%NoDup_cons.
      eapply (IH (e - d)); [exact HT'|by eapply table_frame|done|lia| |cbn; by rewrite length_insert|lia|].
      * intros q Hq. destruct (Hm q ltac:(by constructor)) as [Hmq Hfq]. split; [|done]. apply (monitored_frame s); [done| |done]. cbn. rewrite lookup_alter_ne; [done|]. intros <-. apply Hp. by apply expired_in in Hq.
      * intros s' F' HT2 He' Ht' Ha'. apply HQ; [by etrans|done|done| |eapply alarmed_cons; [|exact Ha']; by split]. rewrite Ht'. cbn. unfold u64. rewrite Zplus_mod_idemp_l. f_equal. lia.
    + cbn [expire_loop]. pose proof (ring_nonnull _ _ _ (tl_ring _ _ HT)) as Hnn. wp_steps. eapply wp_first_node; [apply HT|]. cbn [first fmap list_fmap fst]. destruct (Z.eqb_spec p NULL) as [->|_]; [set_solver|].
      wp_steps. eapply wp_rd_dvalue; [apply (tl_delta _ _ HT); by constructor|]. wp_steps. rewrite He, (proj2 (Z.leb_gt d e)) by lia. wp_steps. apply HQ; [reflexivity|done|done|by rewrite He|done].
Qed.

(** A thread that is charged for the time it runs. *)
Definition sensitive (s : kstate) (p : Z) : bool :=
  negb (get_fld sched 0 s p =? NULL) && match scheds s !! get_fld sched 0 s p with Some sc => 0 <? refill_max sc | None => false end.

(** The time charged up to [now]. *)
Definition charged (s : kstate) (now : Z) : Z :=
  if sensitive s (current_thread s) then u64 (consume_time s + u64 (now - current_time s)) else consume_time s.

(** The stamp at the end of a tick. *)
Lemma wp_stamp (Q : unit -> kstate -> Prop) s :
  is_tcb s (current_thread s) -> (get_fld sched 0 s (current_thread s) = NULL \/ is_Some (scheds s !! get_fld sched 0 s (current_thread s))) ->
  let now := u64 (current_tick s + u32 (clock_elapsed s)) in
  Q tt (with_consume_time (charged s now) (with_current_time now s)) -> wp (update_timestamp false) Q s.
Proof.
  intros Ht Hsc now HQ. unfold update_timestamp, get_current_tick, cur, is_time_sensitived. wp_steps. fold now. apply (wp_rd _ _ 0); [done|].
  change (get_fld sched 0 (with_current_time now s) _) with (get_fld sched 0 s (current_thread s)). unfold charged, sensitive in HQ.
  assert (Hskip : Q tt (with_consume_time (consume_time s) (with_current_time now s)) -> Q tt (with_current_time now s)) by (by destruct s).
  destruct (Z.eqb_spec (get_fld sched 0 s (current_thread s)) NULL) as [E0|E0]; cbn [negb andb] in HQ; [wp_steps; by apply Hskip|]. destruct Hsc as [?|[sc Esc]]; [done|].
  wp_steps. eapply wp_rd_sched; [exact Esc|]. rewrite Esc in HQ. wp_steps. destruct (0 <? refill_max sc); wp_steps; [exact HQ|by apply Hskip].
Qed.

(** What is left at the head loses the ticks left. *)
Lemma tlist_head p d e l s : TList s ((p, d) :: l) -> 0 <= e <= d -> TList (upd_timer p (with_dvalue (d - e)) s) ((p, d - e) :: l).
Proof.
  intros HT He. pose proof (tl_ring _ _ HT) as HR. destruct (tl_delta _ _ HT p d ltac:(by constructor)) as [Ed Hd]. split; [exact HR|]. intros q x Hx. rewrite (dv_of_upd p (d - e) d s q Ed). pose proof (ring_nodup _ _ _ HR) as [_ [Hp _]%NoDup_cons]%NoDup_cons.
  apply elem_of_cons in Hx as [[= -> ->]|Hx]; [rewrite decide_True by done; split; [done|lia]|]. rewrite decide_False; [apply (tl_delta _ _ HT); by constructor|]. intros ->. apply Hp. by apply (list_elem_of_fmap_2 fst) in Hx.
Qed.

Lemma tlist_nonneg s l : TList s l -> nonneg l.
Proof. intros HT p d Hp. apply (tl_delta _ _ HT p d Hp). Qed.

(** What a tick does while the counter reads [e]; outside the timer events and the variables
    named here nothing changes. *)
Record ticked (ticks e : Z) (l : list (Z * Z)) (s s' : kstate) : Prop := {
  tk_list : TList s' (advance ticks l);
  tk_tick : current_tick s' = u64 (current_tick s + ticks);
  tk_elapse : dvalue_elapse s' = 0;
  tk_alarm : alarmed (expired ticks l) s s';
  tk_time : current_time s' = u64 (current_tick s' + u32 e);
  tk_charge : consume_time s' = charged s (current_time s');
  tk_timeout : clock_timeout s' = match advance ticks l with [] => MAX_WAIT | (_, d) :: _ => s32 (Z.max 0 (u32 (d - s32 e))) end;
  tk_frame : TickFrame s (with_clock_timeout (clock_timeout s) (with_consume_time (consume_time s) (with_current_time (current_time s) s')));
}.

Lemma ticked_end ticks e l s s2 timeout :
  TList s2 (advance ticks l) -> u64 (current_tick s2 + dvalue_elapse s2) = u64 (current_tick s + ticks) -> alarmed (expired ticks l) s s2 -> TickFrame s s2 ->
  timeout = match advance ticks l with [] => MAX_WAIT | (_, d) :: _ => s32 (Z.max 0 (u32 (d - s32 e))) end ->
  let s3 := with_clock_timeout timeout (with_dvalue_elapse 0 (with_current_tick (u64 (current_tick s2 + dvalue_elapse s2)) s2)) in
  let now := u64 (current_tick s3 + u32 e) in
  ticked ticks e l s (with_consume_time (charged s3 now) (with_current_time now s3)).
Proof.
  intros [HR HD] Hk Ha F Hto s3 now. assert (Ec : charged s3 now = charged s now) by (unfold s3; clearbody now; clear -F; unfold charged, sensitive, get_fld; cbn; by rewrite F). rewrite Ec.
  assert (En : now = u64 (current_tick s3 + u32 e)) by done. clearbody now. clear Ec. split; [by split|exact Hk|reflexivity|exact Ha|exact En|reflexivity|exact Hto|].
  clear -F. unfold s3, TickFrame in *. clear s3. rewrite F. by destruct s.
Qed.

Lemma wp_update_timelist L l ticks e fuel s :
  TList s l -> Table s L -> 0 <= ticks < 2 ^ 31 -> (forall p, p ∈ expired ticks l -> monitored s L p /\ releases p) ->
  (1 < length (privilege_thread_status s))%nat -> (length (expired ticks l) < fuel)%nat -> is_tcb s (current_thread s) ->
  (get_fld sched 0 s (current_thread s) = NULL \/ is_Some (scheds s !! get_fld sched 0 s (current_thread s))) -> (forall x, clock_elapsed x = e) ->
  wp (update_timelist fuel ticks) (fun _ s' => ticked ticks e l s s') s.
Proof.
  intros HT Htb Ht Hm Hlen Hf Hc Hsc Hclk. unfold update_timelist. wp_steps. rewrite u32_small by lia. eapply (wp_expire L l ticks); [by destruct HT; split|by apply (table_frame s); [by destruct s|]|done|done|exact Hm|exact Hlen|exact Hf|].
  intros s1 F HT1 He1 Hk Ha. pose proof (left_over_range l ticks (tlist_nonneg _ _ HT) ltac:(lia)) as Hr. pose proof (left_over_later l ticks) as Hlt. pose proof (advance_left l ticks) as Hadv.
  wp_steps. eapply wp_first_node; [apply HT1|]. pose proof (ring_nonnull _ _ _ (tl_ring _ _ HT1)) as Hnn. rewrite He1 in Hk.
  assert (Fin : forall s2, TList s2 (advance ticks l) -> (s2 = s1 \/ exists p v, s2 = upd_timer p (with_dvalue v) s1) ->
    wp (modify (fun s => with_current_tick (u64 (current_tick s + dvalue_elapse s)) s);; modify (with_dvalue_elapse 0);; n ← next_dvalue; clock_set_timeout n false;; update_timestamp false)
       (fun _ s' => ticked ticks e l s s') s2).
  { intros s2 HT2 Hs2. wp_steps. eapply (wp_next_dvalue (advance ticks l)); [by destruct HT2; split|]. cbn [dvalue_elapse with_dvalue_elapse]. rewrite Z.eqb_refl, Hclk. intros x ->. wp_steps. apply wp_modify.
    assert (Es2 : threads s2 = threads s /\ scheds s2 = scheds s /\ current_thread s2 = current_thread s /\ current_tick s2 = current_tick s1 /\ dvalue_elapse s2 = (left_over ticks l).1 /\ alarmed (expired ticks l) s s2 /\ TickFrame s s2).
    { destruct Hs2 as [->|(p & v & ->)]; (split_and!; try (by rewrite F)); try done; unfold TickFrame in *; rewrite F; by destruct s. }
    destruct Es2 as (T1 & T2 & T3 & T4 & T5 & T6 & T7). apply wp_stamp; [unfold is_tcb; cbn; by rewrite T1, T3|unfold get_fld; cbn; by rewrite T1, T2, T3|]. rewrite Hclk.
    apply ticked_end; [done|by rewrite T4, T5|done|done|reflexivity]. }
  destruct ((left_over ticks l).2) as [|[p d] l2] eqn:E2; cbn [first fmap list_fmap fst].
  - wp_steps. apply Fin; [by rewrite Hadv|by left].
  - destruct (Z.eqb_spec p NULL) as [->|_]; [set_solver|]. cbn [negb]. destruct (tl_delta _ _ HT1 p d ltac:(by constructor)) as [Ed Hd]. wp_steps. eapply wp_rd_dvalue; [exact Ed|]. wp_steps. rewrite He1, u32_small by lia.
    apply (wp_wr_dvalue _ _ d); [exact Ed|]. apply Fin; [rewrite Hadv; apply tlist_head; [done|lia]|]. right. by exists p, (d - (left_over ticks l).1).
Qed.

(** C7: a tick.  When every due event is the deadline of a running hard real-time thread and its
    release leaves the kernel's variables alone, [update_timelist] ends after one round per due
    event: exactly the events at most [ticks] away are taken off the list, every other one
    comes nearer by [ticks], the clock advances by [ticks], the health monitor is asked for if
    and only if an event was due, the time stamp and the time charged to the running thread are
    brought to the counter's reading, the next timeout is programmed for the first event left,
    less that reading, and nothing outside the timer events and these variables changes. *)
Theorem update_timelist_exact L l ticks e fuel s :
  TList s l -> Table s L -> 0 <= ticks < 2 ^ 31 -> (forall p, p ∈ expired ticks l -> monitored s L p /\ releases p) ->
  (1 < length (privilege_thread_status s))%nat -> (length (expired ticks l) < fuel)%nat -> is_tcb s (current_thread s) ->
  (get_fld sched 0 s (current_thread s) = NULL \/ is_Some (scheds s !! get_fld sched 0 s (current_thread s))) -> (forall x, clock_elapsed x = e) ->
  exists s', update_timelist fuel ticks s = Done tt s' /\ ticked ticks e l s s' /\
    (forall p, p ∈ (advance ticks l).*1 <-> p ∈ l.*1 /\ ticks < expiry l p) /\
    (forall p, p ∈ (advance ticks l).*1 -> expiry (advance ticks l) p = expiry l p - ticks) /\
    (forall p, p ∈ expired ticks l <-> p ∈ l.*1 /\ expiry l p <= ticks).
Proof.
  intros HT Htb Ht Hm Hlen Hf Hc Hsc Hclk. destruct (run_unit _ _ _ (wp_update_timelist L l ticks e fuel s HT Htb Ht Hm Hlen Hf Hc Hsc Hclk)) as (s' & E & Hs'). exists s'.
  pose proof (tlist_nonneg _ _ HT) as Hn. pose proof (ring_nodup _ _ _ (tl_ring _ _ HT)) as [_ Hnd]%NoDup_cons.
  split_and!; [done|done|intros p; by apply advance_iff|intros p; by apply advance_expiry|intros p; by apply expired_iff].
Qed.

(** Lemma: an event without a handler that is due at once is never taken off the list: the loop
    over the due events does not end, whatever the ticks. *)
Theorem unhandled_event_hangs p t l ticks fuel s :
  TList s ((p, 0) :: l) -> timers s !! p = Some t -> handler t = no_handler -> 0 <= ticks < 2 ^ 31 ->
  update_timelist fuel ticks s = Fail OutOfFuel.
Proof.
  intros HT Et Hh Ht. assert (Loop : forall fuel e s, TList s ((p, 0) :: l) -> timers s !! p = Some t -> dvalue_elapse s = e -> 0 <= e < 2 ^ 31 -> fails (expire_loop fuel) OutOfFuel s).
  { clear fuel s HT Et Ht. induction fuel as [|fuel IH]; intros e s HT Et He Her; [done|]. cbn [expire_loop]. pose proof (ring_nonnull _ _ _ (tl_ring _ _ HT)) as Hnn.
    apply fails_step. eapply wp_first_node; [apply HT|]. cbn [first fmap list_fmap fst]. destruct (Z.eqb_spec p NULL) as [->|_]; [set_solver|].
    apply fails_step. eapply wp_rd_dvalue; [apply (tl_delta _ _ HT); by constructor|]. apply fails_step, wp_get. rewrite (proj2 (Z.leb_le 0 _)) by lia.
    apply fails_step, wp_modify, fails_step, wp_modify, fails_step. unfold rd_timer. wp_steps. eapply wp_ofopt; [exact Et|]. rewrite Hh. apply fails_step. wp_steps. change (s32 0) with 0.
    apply (IH e); [by destruct HT; split|done| |done]. cbn. rewrite Z.sub_0_r, He. apply u32_small. lia. }
  apply fails_step, wp_modify, fails_bind. eapply (Loop fuel ticks); [by destruct HT; split|done| |done]. cbn. apply u32_small. lia.
Qed.

End Ticks.

(** ** Examples: a deadline of the running thread 3 ticks away, another event 2 ticks later *)

Definition demo_tick : kstate :=
  with_timers {[ 100 := mk_timer_event 3 6000 deadline_timeout_handler_ptr; 200 := mk_timer_event 2 6000 deadline_timeout_handler_ptr ]}
    (with_dnodes {[ timer_event_list := mk_dnode 100 200; 100 := mk_dnode 200 timer_event_list; 200 := mk_dnode timer_event_list 100 ]}
      (with_privilege_thread_status [2; 2] (with_current_thread 6000 (with_record_thread_count 1 (with_record_threads (6000 :: replicate 255 0)
        (@bss_state test_config {[6000 := with_level HARD_PRIOR_ACTION (demo_thread 12)]} ∅)))))).

Lemma demo_tick_list : TList demo_tick [(100, 3); (200, 2)].
Proof.
  split.
  - split; [apply (bool_decide_unpack _); vm_compute; exact I|set_solver| |done|done|done].
    intros x Hx. repeat (apply elem_of_cons in Hx as [->|Hx]; [by eexists|]). set_solver.
  - intros p e Hp. repeat (apply elem_of_cons in Hp as [Hp|Hp]; [injection Hp as -> ->; done|]). set_solver.
Defined.

Lemma demo_tick_table : Table demo_tick [6000].
Proof.
  constructor; [done|done|done| | |].
  - intros [|i] p Hp; [by injection Hp as <-|done].
  - intros p Hp. apply list_elem_of_singleton in Hp as ->. by eexists.
  - repeat constructor.
Defined.

Lemma update_timelist_exact_witness :
  exists s', @update_timelist test_config sim_platform 2 4 demo_tick = Done tt s' /\ ticked 4 0 [(100, 3); (200, 2)] demo_tick s' /\
    clock_timeout s' = 1 /\ expiry [(200, 1)] 200 = expiry [(100, 3); (200, 2)] 200 - 4.
Proof.
  destruct (@update_timelist_exact test_config sim_platform [6000] [(100, 3); (200, 2)] 4 0 2 demo_tick) as (s' & E & Ht & _ & Hx & _);
    [exact demo_tick_list|exact demo_tick_table|done| |vm_compute; lia|vm_compute; lia|by eexists|by left|done|].
  - intros p Hp. apply list_elem_of_singleton in Hp as ->. split; [|done]. eexists. split; [done|]. split; [done|]. split; [by constructor|]. by vm_compute.
  - exists s'. split; [done|]. split; [done|]. split; [by rewrite (tk_timeout _ _ _ _ _ Ht)|]. apply Hx. by constructor.
Defined.
