(* ===== verification/Boot.v ===== *)
(** * Boot: the first threads

    Models the part of [src/kernel/boot.c] that builds the kernel's own threads and hands
    control to the main thread, with [set_new_thread] of [src/object/tcb.c] and the initial
    context and the switch of [src/arch/arm/aarch32/thread.c].  The build is the board's: user
    mode, MPU regions of a power of two, no stack guard, eight-byte stack alignment and the
    stack sizes of the board's configuration.  The state before is [.bss].

    Proved: boot leaves the scheduler's invariant with the main thread alone in its ready
    queue; the next scheduling decision keeps it; each thread starts from the context built
    for it; and the context of the privileged thread lies outside its stack. *)

From Stdlib Require Import ZArith Lia Bool List.
From stdpp Require Import base tactics numbers list gmap.
From S2P Require Import Prelude TimeConv Sporadic DList DNode KState TimeList ReadyQueue Sched ReadyQueueFacts.
From S2P Require Import QueueTheorems Frames SchedFacts SchedTheorems ThreadTable TcbCore Ipc Interrupt Tick Tcb IpcTheorems.

Local Open Scope Z_scope.

(** ** Build constants *)

Definition CONFIG_MAIN_STACK_SIZE : Z := 1024.
Definition CONFIG_IDLE_STACK_SIZE : Z := 320.
Definition CONFIG_PRIVILEGE_STACK_SIZE : Z := 2048.
Definition CONFIG_ARM_MPU_REGION_MIN_ALIGN_AND_SIZE : Z := 32.
Definition THREAD_STACK_ALIGN_SIZE : Z := 8.
Definition MPU_GUARD_ALIGN_AND_SIZE : Z := 0.

(** [31 - __builtin_clz(x)] is the position of the top bit. *)
Definition POW2_CEIL (x : Z) : Z :=
  if Z.shiftl 1 (Z.log2 x) <? x then Z.shiftl 1 (Z.log2 x + 1) else Z.shiftl 1 (Z.log2 x).

(** The bytes [ARCH_THREAD_STACK_DEFINE] reserves for a stack. *)
Definition ARCH_THREAD_STACK_LEN (size : Z) : Z := POW2_CEIL size.
Definition ARCH_THREAD_STACK_SIZEOF (bytes : Z) : Z := bytes - MPU_GUARD_ALIGN_AND_SIZE.
Definition THREAD_STACK_BUFFER (sym : Z) : Z := u32 (sym + MPU_GUARD_ALIGN_AND_SIZE).
Definition STACK_ROUND_DOWN (x : Z) : Z := Z.land x (not32 (THREAD_STACK_ALIGN_SIZE - 1)).

(** [struct basic_esf]: the words r0, r1, r2, r3, r12, lr, pc, xpsr. *)
Definition sizeof_basic_esf : Z := 32.

(** Addresses the linker chooses, and the routines called on the way that work on state of
    their own: permissions, regions, devices and the console. *)
Class BootImage := {
  _main_stack : Z;
  _idle_stack : Z;
  _privilege_stack : Z;
  dummy_thread : Z; (** a local of [cstart] *)
  main_thread_entry : Z;
  idle_thread_entry : Z;
  privilege_thread_entry : Z;
  thread_entry_point : Z;
  arch_user_mode_enter : Z;
  k_object_access_grant : Z -> Z -> K unit;
  arch_kernel_init : K unit;
  set_app_shmem_bss_zero : K unit;
  (** the initialisation routines of a level, in the order the linker gives them *)
  device_inits : Z -> list (K Z);
  init_serial_object : K unit;
  init_time_object : K unit;
  arm_configure_static_mpu_regions : K unit;
  arm_configure_dynamic_mpu_regions : Z -> K unit;
}.

Definition sys_init_level_pre_kernel_1 : Z := 0.
Definition sys_init_level_pre_kernel_2 : Z := 1.

Section Boot.
Context `{Config} `{Platform} `{IrqController} `{BootImage}.

(** ** A new thread *)

(** The saved context at the top of the stack; the program counter is stored and then
    cleared of its Thumb bit. *)
Definition arch_new_thread (thread stack stack_size entry_ptr para1 para2 para3 options : Z) : K unit :=
  let stack_start := THREAD_STACK_BUFFER stack in
  let stack_size := Z.land stack_size (not32 (CONFIG_ARM_MPU_REGION_MIN_ALIGN_AND_SIZE - 1)) in
  let stack_size := u32 (stack_size - MPU_GUARD_ALIGN_AND_SIZE) in
  let stack_end := u32 (stack_start + stack_size) in
  thread_init thread options;;
  let init_ctx := STACK_ROUND_DOWN (u32 (stack_end - sizeof_basic_esf)) in
  wr_mem (word_at init_ctx 6)
    (if negb (Z.land options option_user_option =? 0) then arch_user_mode_enter else thread_entry_point);;
  pc ← rd_mem (word_at init_ctx 6);
  wr_mem (word_at init_ctx 6) (Z.land pc 4294967294);;
  wr_mem (word_at init_ctx 0) entry_ptr;;
  wr_mem (word_at init_ctx 1) para1;;
  wr_mem (word_at init_ctx 2) para2;;
  wr_mem (word_at init_ctx 3) para3;;
  wr_mem (word_at init_ctx 7) 16777216;;
  wr thread (with_psp init_ctx);;
  wr thread (with_basepri 0).

(** The inheritance of the parent's pages at the end works on the page tables, and is not
    reached while no thread runs. *)
Definition set_new_thread (new_thread stack stack_size entry p1 p2 p3 options : Z) : K unit :=
  k_object_access_grant new_thread new_thread;;
  let stack_size := adjust_stack_size stack_size in
  arch_new_thread new_thread stack stack_size entry p1 p2 p3 options.

(** ** The first threads *)

Definition init_idle_thread (thread stack : Z) : K unit :=
  set_new_thread thread stack CONFIG_IDLE_STACK_SIZE idle_thread_entry NULL NULL NULL option_essential_option;;
  marktcb_as_started thread.

Definition init_privilege_thread (thread stack : Z) : K unit :=
  set_new_thread thread stack CONFIG_PRIVILEGE_STACK_SIZE privilege_thread_entry NULL NULL NULL option_essential_option;;
  marktcb_as_started thread.

Definition init_main_thread (thread stack : Z) : K unit :=
  set_new_thread thread stack CONFIG_MAIN_STACK_SIZE main_thread_entry NULL NULL NULL option_essential_option;;
  set_prior thread 31 31;;
  set_domain thread 0;;
  marktcb_as_started thread;;
  set_ready_thread thread.

Definition prepare_mult_thread : K unit :=
  modify (with_ready_thread main_thread);;
  init_main_thread main_thread _main_stack;;
  init_privilege_thread privilege_thread _privilege_stack;;
  init_idle_thread idle_thread _idle_stack;;
  modify (with_idle_thread_of_cpu idle_thread).

(** Returns the stack pointer the main routine is entered with. *)
Definition arch_switch_to_main_thread (thread stack stack_size : Z) : K Z :=
  arm_configure_static_mpu_regions;;
  let start_of__main_stack := STACK_ROUND_DOWN (u32 (THREAD_STACK_BUFFER stack + stack_size)) in
  modify (with_current_thread thread);;
  arm_configure_dynamic_mpu_regions thread;;
  mret start_of__main_stack.

Definition switch_to_main_thread : K Z :=
  arch_switch_to_main_thread main_thread _main_stack (ARCH_THREAD_STACK_SIZEOF (ARCH_THREAD_STACK_LEN CONFIG_MAIN_STACK_SIZE)).

(** A routine that fails leaves its device without an interface; that is the device's state. *)
Fixpoint device_loop (inits : list (K Z)) : K unit :=
  match inits with [] => skip | init :: inits => init;; device_loop inits end.
Definition do_device_config (level : Z) : K unit := device_loop (device_inits level).

Definition cstart : K Z :=
  arch_kernel_init;;
  modify (with_current_thread dummy_thread);;
  set_app_shmem_bss_zero;;
  do_device_config sys_init_level_pre_kernel_1;;
  do_device_config sys_init_level_pre_kernel_2;;
  init_serial_object;;
  init_time_object;;
  prepare_mult_thread;;
  switch_to_main_thread.

(** ** A new thread's context *)

(** Where the saved context of a thread with this stack is put. *)
Definition context_at (stack stack_size : Z) : Z :=
  STACK_ROUND_DOWN (u32 (u32 (THREAD_STACK_BUFFER stack +
    u32 (Z.land stack_size (not32 (CONFIG_ARM_MPU_REGION_MIN_ALIGN_AND_SIZE - 1)) - MPU_GUARD_ALIGN_AND_SIZE)) - sizeof_basic_esf)).

Definition frame_words : list Z := [0; 1; 2; 3; 6; 7].
Definition frame_mapped (m : gmap Z Z) (ctx : Z) : Prop := Forall (fun i => is_Some (m !! word_at ctx i)) frame_words.

(** Memory with the saved context: entry and arguments in r0 to r3, the start routine in the
    program counter, and the Thumb bit in the status register. *)
Definition framed (ctx pc entry p1 p2 p3 : Z) (m : gmap Z Z) : gmap Z Z :=
  <[word_at ctx 7 := 16777216]> (<[word_at ctx 3 := p3]> (<[word_at ctx 2 := p2]> (<[word_at ctx 1 := p1]>
    (<[word_at ctx 0 := entry]> (<[word_at ctx 6 := Z.land pc 4294967294]> (<[word_at ctx 6 := pc]> m)))))).

(** The control block of a new thread: reset, not started, and its context saved. *)
Definition reset_tcb (options ctx : Z) (t : ktcb) : ktcb :=
  with_basepri 0 (with_psp ctx (with_notifation_node NULL (with_yield NULL (with_mesg_q_prev NULL (with_mesg_q_next NULL
    (with_ready_q_prev NULL (with_ready_q_next NULL (with_abort_handle false (set_base state_restart_state options t))))))))).

(** A state whose memory is [m]; writes change only [m]. *)
Lemma wp_wr_mem p v (Q : unit -> kstate -> Prop) m s :
  is_Some (m !! p) -> Q tt (with_memory (<[p := v]> m) s) -> wp (wr_mem p v) Q (with_memory m s).
Proof. intros [w E] HQ. unfold wr_mem, rd_mem. wp_steps. eapply wp_ofopt; [done|]. by wp_steps. Qed.

Lemma wp_rd_mem p v (Q : Z -> kstate -> Prop) s : memory s !! p = Some v -> Q v s -> wp (rd_mem p) Q s.
Proof. intros E HQ. unfold rd_mem. wp_steps. by eapply wp_ofopt. Qed.

Lemma frame_mapped_at m ctx i : frame_mapped m ctx -> i ∈ frame_words -> is_Some (m !! word_at ctx i).
Proof. intros Hm. revert i. by apply Forall_forall. Qed.

Lemma insert_mapped (m : gmap Z Z) p v q : is_Some (m !! q) -> is_Some (<[p := v]> m !! q).
Proof. intros Hq. destruct (decide (p = q)) as [->|Hne]; [rewrite lookup_insert_eq; eauto|by rewrite lookup_insert_ne]. Qed.

Lemma frame_mapped_framed m ctx' ctx pc e p1 p2 p3 : frame_mapped m ctx' -> frame_mapped (framed ctx pc e p1 p2 p3 m) ctx'.
Proof. intros Hm. eapply Forall_impl; [exact Hm|]. intros i Hi. unfold framed. by repeat apply insert_mapped. Qed.

Lemma wp_thread_init t options (Q : Z -> kstate -> Prop) s :
  is_tcb s t -> t <> NULL ->
  Q t (upd_tcb t (fun x => with_notifation_node NULL (with_yield NULL (with_mesg_q_prev NULL (with_mesg_q_next NULL
    (with_ready_q_prev NULL (with_ready_q_next NULL (with_abort_handle false (set_base state_restart_state options x)))))))) s) ->
  wp (thread_init t options) Q s.
Proof.
  intros Ht Hn HQ. unfold thread_init. wp_steps. apply wp_assert; [by apply negb_true_iff, Z.eqb_neq|].
  wp_steps. repeat (apply wp_wr; [tcb_ok|]; wp_steps). by rewrite !upd_tcb_twice in *.
Qed.

Definition start_pc (options : Z) : Z := if negb (Z.land options option_user_option =? 0) then arch_user_mode_enter else thread_entry_point.

Lemma memory_same s : with_memory (memory s) s = s.
Proof. by destruct s. Qed.

Class QuietImage : Prop := {
  quiet_grant : forall a b s, k_object_access_grant a b s = Done tt s;
  quiet_kernel_init : forall s, arch_kernel_init s = Done tt s;
  quiet_shmem : forall s, set_app_shmem_bss_zero s = Done tt s;
  quiet_serial : forall s, init_serial_object s = Done tt s;
  quiet_time : forall s, init_time_object s = Done tt s;
  quiet_static : forall s, arm_configure_static_mpu_regions s = Done tt s;
  quiet_dynamic : forall t s, arm_configure_dynamic_mpu_regions t s = Done tt s;
}.

Lemma wp_quiet (m : K unit) (Q : unit -> kstate -> Prop) s : m s = Done tt s -> Q tt s -> wp m Q s.
Proof. unfold wp. by intros ->. Qed.

Lemma wp_set_new_thread `{!QuietImage} t stack size entry p1 p2 p3 options (Q : unit -> kstate -> Prop) s :
  let ctx := context_at stack size in
  is_tcb s t -> t <> NULL -> frame_mapped (memory s) ctx ->
  Q tt (with_memory (framed ctx (start_pc options) entry p1 p2 p3 (memory s)) (upd_tcb t (reset_tcb options ctx) s)) ->
  wp (set_new_thread t stack size entry p1 p2 p3 options) Q s.
Proof.
  intros ctx Ht Hn Hm HQ. unfold set_new_thread, arch_new_thread. apply wp_bind, wp_quiet; [apply quiet_grant|]. unfold adjust_stack_size.
  apply wp_bind, wp_thread_init; [done|done|]. fold (context_at stack size). fold ctx. cbv zeta. clearbody ctx.
  assert (Hf : forall i, i ∈ frame_words -> is_Some (memory s !! word_at ctx i)) by (intros i; by apply frame_mapped_at).
  apply wp_bind. set (s1 := upd_tcb t _ s). rewrite <-(memory_same s1). change (memory s1) with (memory s).
  apply wp_wr_mem; [apply Hf; set_solver|]. apply wp_bind. eapply wp_rd_mem; [apply lookup_insert_eq|]. fold (start_pc options).
  apply wp_bind, wp_wr_mem; [rewrite lookup_insert_eq; eauto|].
  do 5 (apply wp_bind, wp_wr_mem; [repeat apply insert_mapped; apply Hf; set_solver|]).
  fold (framed ctx (start_pc options) entry p1 p2 p3 (memory s)). wp_steps. apply wp_wr; [unfold s1; tcb_ok|]. apply wp_wr; [unfold s1; tcb_ok|].
  rewrite upd_tcb_twice. unfold s1. change (upd_tcb t ?f (with_memory ?m ?s)) with (with_memory m (upd_tcb t f s)). by rewrite upd_tcb_twice.
Qed.

(** A word with its low [k] bits cleared. *)
Lemma clear_low x k : 0 <= x < 2 ^ 32 -> 0 <= k <= 32 -> Z.land x (not32 (2 ^ k - 1)) = x / 2 ^ k * 2 ^ k.
Proof.
  intros Hx Hk. rewrite <-Z.shiftl_mul_pow2, <-Z.shiftr_div_pow2 by lia. apply Z.bits_inj'. intros i Hi. unfold not32, u32. replace (2 ^ k - 1) with (Z.ones k) by (rewrite Z.ones_equiv; lia).
  rewrite Z.land_spec, Z.testbit_mod_pow2, Z.lnot_spec, Z.testbit_ones_nonneg, Z.shiftl_spec by lia.
  destruct (Z.lt_ge_cases i k).
  - rewrite (proj2 (Z.ltb_lt i k)), (Z.testbit_neg_r _ (i - k)) by lia. by rewrite andb_false_r, andb_false_r.
  - rewrite (proj2 (Z.ltb_ge i k)), Z.shiftr_spec by lia. replace (i - k + k) with i by lia. destruct (Z.ltb_spec i 32); cbn [andb negb]; [apply andb_true_r|].
    rewrite <-(Z.mod_small _ _ Hx). rewrite Z.mod_pow2_bits_high by lia. done.
Qed.

(** The context is the last 32 bytes of the stack, its size rounded down to a region. *)
Lemma context_exact stack size : 0 <= stack -> stack mod 8 = 0 -> 32 <= size -> stack + size < 2 ^ 32 -> context_at stack size = stack + size / 32 * 32 - 32.
Proof.
  intros Hs Ha Hz Hmax. unfold context_at, THREAD_STACK_BUFFER, STACK_ROUND_DOWN, MPU_GUARD_ALIGN_AND_SIZE, sizeof_basic_esf, CONFIG_ARM_MPU_REGION_MIN_ALIGN_AND_SIZE, THREAD_STACK_ALIGN_SIZE.
  change (32 - 1) with (2 ^ 5 - 1). rewrite clear_low by lia. change (2 ^ 5) with 32. assert (1 <= size / 32) by (apply Z.div_le_lower_bound; lia). pose proof (Z.div_mod size 32 ltac:(lia)). pose proof (Z.mod_pos_bound size 32 ltac:(lia)).
  rewrite Z.add_0_r, Z.sub_0_r, (u32_small stack), (u32_small (size / 32 * 32)), (u32_small (stack + size / 32 * 32)), u32_small by lia. change (8 - 1) with (2 ^ 3 - 1). rewrite clear_low by lia. change (2 ^ 3) with 8.
  pose proof (Z.div_mod (stack + size / 32 * 32 - 32) 8 ltac:(lia)) as E. replace ((stack + size / 32 * 32 - 32) mod 8) with 0 in E; [lia|].
  replace (stack + size / 32 * 32 - 32) with (stack + (size / 32 * 4 - 4) * 8) by lia. by rewrite Z.mod_add by lia.
Qed.

Lemma framed_at ctx pc e p1 p2 p3 m : 0 <= ctx -> ctx + 32 <= 2 ^ 32 ->
  let m' := framed ctx pc e p1 p2 p3 m in
  m' !! ctx = Some e /\ m' !! (ctx + 4) = Some p1 /\ m' !! (ctx + 8) = Some p2 /\ m' !! (ctx + 12) = Some p3 /\
  m' !! (ctx + 24) = Some (Z.land pc 4294967294) /\ m' !! (ctx + 28) = Some 16777216 /\
  forall a, a < ctx \/ ctx + 32 <= a -> m' !! a = m !! a.
Proof.
  intros H0' H1'. assert (Ew : forall i, 0 <= i < 8 -> word_at ctx i = ctx + 4 * i) by (intros i Hi; unfold word_at; apply u32_small; lia).
  unfold framed. rewrite !Ew by lia. replace (ctx + 4 * 0) with ctx by lia. cbv zeta. split_and!.
  all: try (intros a Ha); rewrite ?lookup_insert_ne by lia; try done; apply lookup_insert_eq.
Qed.

(** ** The first threads *)

Lemma wp_rd_at {A} (f : ktcb -> A) p t (Q : A -> kstate -> Prop) s : threads s !! p = Some t -> Q (f t) s -> wp (rd f p) Q s.
Proof. intros E HQ. apply (wp_rd f p (f t)); [by exists t|]. unfold get_fld. by rewrite E. Qed.

Lemma upd_at p g t s : threads s !! p = Some t -> threads (upd_tcb p g s) !! p = Some (g t).
Proof. intros E. unfold upd_tcb. cbn. by rewrite lookup_alter_eq, E. Qed.

Definition prioritised (t : ktcb) : ktcb := with_domain 0 (with_mcp 31 (with_sched_prior 31 t)).
Definition started (t : ktcb) : ktcb := reset_states state_restart_state t.

(** Priority and domain of a thread that has not started and has no scheduling context. *)
Lemma wp_set_prior_new t x (Q : unit -> kstate -> Prop) s :
  t <> NULL -> arch_is_in_isr s = false -> threads s !! t = Some x -> obj_state x = state_restart_state ->
  Q tt (upd_tcb t (fun x => with_mcp 31 (with_sched_prior 31 x)) s) -> wp (set_prior t 31 31) Q s.
Proof.
  intros Hn Hi E Es HQ. unfold set_prior. apply wp_bind, wp_assert; [by apply negb_true_iff, Z.eqb_neq|]. wp_step.
  apply wp_bind, wp_assert; [by rewrite Hi|]. apply wp_bind. eapply wp_rd_at; [exact E|].
  replace (is_thread_ready x) with false by (unfold is_thread_ready, is_thread_not_running; by rewrite Es).
  assert (Ht : is_tcb s t) by (by exists x). pose proof (upd_at t (fun x => with_mcp 31 (with_sched_prior 31 x)) x s E) as E2.
  apply wp_bind, wp_bind, wp_wr; [done|]. apply wp_bind, wp_wr; [tcb_ok|]. rewrite upd_tcb_twice. set (s2 := upd_tcb t _ s) in *. apply wp_assert_m.
  { intros _. unfold check_prio. apply wp_bind. eapply wp_rd_at; [exact E2|]. apply wp_bind, wp_assert; [done|]. by apply wp_ret. }
  apply wp_bind. eapply wp_rd_at; [exact E2|]. replace (is_thread_pending _) with false by (cbn; unfold is_thread_pending; cbn; by rewrite Es).
  apply wp_bind, wp_skip. unfold cur. wp_steps. done.
Qed.

Lemma wp_set_domain_new t x (Q : unit -> kstate -> Prop) s :
  t <> NULL -> current_thread s <> t -> threads s !! t = Some x -> KState.sched x = NULL ->
  Q tt (upd_tcb t (with_domain 0) s) -> wp (set_domain t 0) Q s.
Proof.
  intros Hn Hc E Es HQ. unfold set_domain. apply wp_bind, wp_assert; [by apply negb_true_iff, Z.eqb_neq|]. unfold is_schedulable.
  apply wp_bind, wp_bind. eapply wp_rd_at; [exact E|]. rewrite Es. cbn [Z.eqb NULL]. apply wp_ret. apply wp_bind, wp_wr; [by exists x|].
  unfold cur. wp_steps. change (current_thread (upd_tcb t (with_domain 0) s)) with (current_thread s). rewrite (proj2 (Z.eqb_neq t (current_thread s))) by congruence. by apply wp_skip.
Qed.

(** ** Threads outside the queues *)

Lemma upd_ne {A} (f : ktcb -> A) d p g s q : q <> p -> get_fld f d (upd_tcb p g s) q = get_fld f d s q.
Proof. intros Hn. unfold get_fld, upd_tcb. cbn. by rewrite lookup_alter_ne. Qed.

Lemma fld_memory {A} (f : ktcb -> A) d m s q : get_fld f d (with_memory m s) q = get_fld f d s q.
Proof. done. Qed.

(** Initialising a thread that is in no queue keeps the invariant. *)
Lemma schedwf_outside s q p g : SchedWF s q -> (forall i, 0 <= i < num_queues -> p ∉ q i) -> SchedWF (upd_tcb p g s) q.
Proof.
  intros [[Hc Hq Hd Hm HB] Hmem] Hout. assert (Hne : forall i x, 0 <= i < num_queues -> x ∈ q i -> x <> p) by (intros i x Hi Hx ->; by eapply Hout).
  split; [split; [exact Hc|exact Hq| | |exact HB]|].
  - intros i Hi. eapply dll_frame; [by apply Hd|]. intros x Hx. by rewrite !upd_ne by eauto.
  - intros i x Hi Hx. pose proof (Hne i x Hi Hx) as Hxp. destruct (Hm i x Hi Hx) as [(Ht & Hn & Hdom & Hp) Hqi]. unfold placeable, queue_of in *.
    rewrite !upd_ne by done. split; [split; [by apply is_tcb_upd|done]|done].
  - intros i x Hi Hx. pose proof (Hne i x Hi Hx) as Hxp. rewrite !upd_ne by done. destruct (Hmem i x Hi Hx) as (? & ? & Hb). split_and!; [done|done|].
    apply (budgeted_scheds s); [done|done|by rewrite upd_ne|exact Hb].
Qed.

Lemma schedwf_memory s q m : SchedWF s q -> SchedWF (with_memory m s) q.
Proof. apply schedwf_globals; done. Qed.

(** ** From [.bss] to the main thread *)

(** Zeroed kernel variables, zeroed control blocks [th], and memory [m]. *)
Definition boot_state (th : gmap Z ktcb) (m : gmap Z Z) : kstate :=
  with_domain_schedule (replicate (Z.to_nat CONFIG_NUM_DOMAINS) (0, 0)) (with_memory m (bss_state th ∅)).

(** The initialisation routines that [SYS_INIT] registers: three of them set variables of the
    scheduler's state, all others (regions, pages, pools, drivers) work on state of their own. *)
Inductive kernel_init : K Z -> Prop :=
| init_schedule : kernel_init init_schedule_object_module
| init_privilege : kernel_init init_privilege_status_module
| init_interrupt : kernel_init init_interrupt_object_module
| init_other i : (forall s, exists r, i s = Done r s) -> kernel_init i.

(** The domain schedule of [init_schedule_object_module]. *)
Definition first_schedule : list (Z * Z) := map (fun i => (Z.of_nat i, domain_length i)) (seq 0 (Z.to_nat CONFIG_NUM_DOMAINS)).

Record Bootable (th : gmap Z ktcb) (m : gmap Z Z) : Prop := {
  bo_inits : forall level, Forall kernel_init (device_inits level);
  bo_schedule : init_schedule_object_module ∈ device_inits sys_init_level_pre_kernel_1;
  bo_domains : 1 <= CONFIG_NUM_DOMAINS < 2 ^ 23;
  bo_distinct : NoDup [NULL; dummy_thread; main_thread; privilege_thread; idle_thread];
  bo_main : th !! main_thread = Some zero_tcb;
  bo_privilege : th !! privilege_thread = Some zero_tcb;
  bo_idle : th !! idle_thread = Some zero_tcb;
  bo_thread_mode : forall s, arch_is_in_isr s = false;
  bo_main_frame : frame_mapped m (context_at _main_stack CONFIG_MAIN_STACK_SIZE);
  bo_privilege_frame : frame_mapped m (context_at _privilege_stack CONFIG_PRIVILEGE_STACK_SIZE);
  bo_idle_frame : frame_mapped m (context_at _idle_stack CONFIG_IDLE_STACK_SIZE);
}.

Definition boot_q : Z -> list Z := upd_q (fun _ => []) 31 [main_thread].

(** A thread that has been built and started but is in no queue. *)
Definition parked (s : kstate) (t ctx : Z) : Prop :=
  exists x, threads s !! t = Some x /\ obj_state x = 0 /\ sched_prior x = 0 /\ KState.sched x = NULL /\ psp x = ctx.

Lemma parked_cacheable s t ctx : parked s t ctx -> t <> NULL -> cacheable s t /\ queued_of s t = false /\ blocked_of s t = false.
Proof.
  intros (x & E & Es & _ & Ep & _) Hn. unfold cacheable, budgeted, get_fld, is_tcb. rewrite E. split_and!; [eauto|done|by left| | |];
    unfold is_thread_dummy, is_thread_queued, is_thread_state_set, is_thread_not_running; by rewrite Es.
Qed.

Lemma wp_init_parked `{!QuietImage} t stack size entry (Q : unit -> kstate -> Prop) q s :
  is_tcb s t -> sched_of s t = NULL -> t <> NULL -> frame_mapped (memory s) (context_at stack size) ->
  SchedWF s q -> (forall i, 0 <= i < num_queues -> t ∉ q i) ->
  (forall s' m, s' = with_memory m (upd_tcb t (fun x => started (reset_tcb option_essential_option (context_at stack size) x)) s) ->
     (forall ctx, frame_mapped (memory s) ctx -> frame_mapped m ctx) -> SchedWF s' q -> parked s' t (context_at stack size) -> Q tt s') ->
  wp (set_new_thread t stack size entry NULL NULL NULL option_essential_option;; marktcb_as_started t) Q s.
Proof.
  intros [x E] Hs Hn Hm HW Hout HQ. unfold get_fld in Hs. rewrite E in Hs. apply wp_bind, wp_set_new_thread; [by exists x|done|done|]. unfold marktcb_as_started. apply wp_wr; [tcb_ok; by exists x|].
  change (upd_tcb t ?f (with_memory ?m ?s)) with (with_memory m (upd_tcb t f s)). rewrite upd_tcb_twice.
  eapply HQ; [reflexivity|intros ctx; apply frame_mapped_framed|by apply schedwf_memory, schedwf_outside|].
  eexists. split; [apply upd_at; exact E|]. done.
Qed.

Lemma wp_init_main `{!QuietImage} (Q : unit -> kstate -> Prop) s :
  let ctx := context_at _main_stack CONFIG_MAIN_STACK_SIZE in
  1 <= CONFIG_NUM_DOMAINS < 2 ^ 23 -> threads s !! main_thread = Some zero_tcb -> main_thread <> NULL -> current_thread s <> main_thread ->
  (forall s, arch_is_in_isr s = false) -> frame_mapped (memory s) ctx -> SchedWF s (fun _ => []) ->
  (forall s' m, SFrame (with_memory m (upd_tcb main_thread (fun x => started (prioritised (reset_tcb option_essential_option ctx x))) s)) s' ->
     (forall ctx, frame_mapped (memory s) ctx -> frame_mapped m ctx) -> SchedWF s' boot_q -> Q tt s') ->
  wp (init_main_thread main_thread _main_stack) Q s.
Proof.
  intros ctx Hdom E Hn Hc Hisr Hm HW HQ. unfold init_main_thread. apply wp_bind, wp_set_new_thread; [by exists zero_tcb|done|done|]. fold ctx.
  set (m := framed _ _ _ _ _ _ _). assert (Hm' : forall ctx, frame_mapped (memory s) ctx -> frame_mapped m ctx) by (intros c; apply frame_mapped_framed). clearbody m.
  assert (E1 : threads (with_memory m (upd_tcb main_thread (reset_tcb option_essential_option ctx) s)) !! main_thread = Some (reset_tcb option_essential_option ctx zero_tcb)) by (exact (upd_at main_thread (reset_tcb option_essential_option ctx) _ s E)).
  apply wp_bind. eapply wp_set_prior_new; [done|apply Hisr|exact E1|reflexivity|]. change (upd_tcb main_thread ?f (with_memory ?m ?s)) with (with_memory m (upd_tcb main_thread f s)). rewrite upd_tcb_twice.
  match goal with |- context [with_memory m (upd_tcb main_thread ?f s)] => assert (E2 : threads (with_memory m (upd_tcb main_thread f s)) !! main_thread = Some (f zero_tcb)) by (exact (upd_at main_thread f _ s E)) end.
  apply wp_bind. eapply wp_set_domain_new; [done|exact Hc|exact E2|reflexivity|]. change (upd_tcb main_thread ?f (with_memory ?m ?s)) with (with_memory m (upd_tcb main_thread f s)). rewrite upd_tcb_twice.
  apply wp_bind. unfold marktcb_as_started. apply wp_wr; [tcb_ok; by exists zero_tcb|]. change (upd_tcb main_thread ?f (with_memory ?m ?s)) with (with_memory m (upd_tcb main_thread f s)). rewrite upd_tcb_twice.
  fold (started). set (s1 := with_memory _ _). set (x := started (prioritised (reset_tcb option_essential_option ctx zero_tcb))).
  assert (E3 : threads s1 !! main_thread = Some x) by (exact (upd_at main_thread (fun x => started (prioritised (reset_tcb option_essential_option ctx x))) _ s E)). unfold set_ready_thread. apply wp_bind. eapply wp_rd_at; [exact E3|]. change (is_thread_ready x) with true. cbv iota.
  assert (HW1 : SchedWF s1 (fun _ => [])) by (apply schedwf_memory, schedwf_outside; [done|intros i _; apply not_elem_of_nil]).
  assert (Eq : queue_of s1 main_thread = 31) by (unfold queue_of, get_fld; rewrite E3; unfold qidx; cbn; by destruct (1 <? CONFIG_NUM_DOMAINS)).
  apply (wp_mark_enqueue (fun _ => [])); [exact HW1| | | |apply not_elem_of_nil|].
  - unfold placeable, get_fld, is_tcb. rewrite E3. change (domain x) with 0. change (sched_prior x) with 31. clear -Hdom Hn. unfold NUM_PRIORITIES. split; [by eexists|]. split; [done|]. split; lia.
  - left. unfold get_fld. by rewrite E3.
  - unfold get_fld. by rewrite E3.
  - intros s' F HW' _ _ _. rewrite Eq in HW'. by eapply HQ.
Qed.

Lemma boot_q_member i x : x ∈ boot_q i -> x = main_thread.
Proof. unfold boot_q, upd_q. destruct (i =? 31); [by intros ->%list_elem_of_singleton|by intros ?%not_elem_of_nil]. Qed.

(** What boot leaves behind. *)
Record Booted (s : kstate) : Prop := {
  bd_current : current_thread s = main_thread;
  bd_ready : ready_thread s = main_thread;
  bd_idle : idle_thread_of_cpu s = idle_thread;
  bd_action : scheduler_action s = SCHEDULER_ACTION_RESUME_CURRENT_THREAD;
  bd_queues : SchedWF s boot_q;
  bd_release : ReleaseQ s [];
  bd_main : placeable s main_thread /\ prior_of s main_thread = 31 /\ sched_of s main_thread = NULL;
  bd_privilege : parked s privilege_thread (context_at _privilege_stack CONFIG_PRIVILEGE_STACK_SIZE);
  bd_parked : parked s idle_thread (context_at _idle_stack CONFIG_IDLE_STACK_SIZE);
  bd_domain : current_domain s = 0 /\ timetable s /\ domain_schedule s = first_schedule;
}.

Lemma parked_other s t ctx p g m : parked s t ctx -> t <> p -> parked (with_memory m (upd_tcb p g s)) t ctx.
Proof. intros (x & E & Hx) Hn. exists x. split; [|done]. unfold upd_tcb. cbn. by rewrite lookup_alter_ne. Qed.

(** Nothing has been queued or scheduled yet. *)
Record PreBoot (th : gmap Z ktcb) (m : gmap Z Z) (s : kstate) : Prop := {
  pb_threads : threads s = th;
  pb_memory : memory s = m;
  pb_queues : ready_queues s = replicate (Z.to_nat CONFIG_NUM_DOMAINS * 256) (mk_queue 0 0);
  pb_l1 : ready_queues_l1_bitmap s = replicate (Z.to_nat CONFIG_NUM_DOMAINS) 0;
  pb_l2 : ready_queues_l2_bitmap s = replicate (Z.to_nat CONFIG_NUM_DOMAINS) (replicate 8 0);
  pb_release : release_queue s = NULL;
  pb_action : scheduler_action s = SCHEDULER_ACTION_RESUME_CURRENT_THREAD;
  pb_domain : current_domain s = 0 /\ current_domain_schedule_idx s = 0;
}.

(** The scheduler's module has been initialised. *)
Definition scheduled (s : kstate) : Prop := current_thread s = NULL /\ domain_schedule s = first_schedule.

Lemma preboot_wf th m s : 1 <= CONFIG_NUM_DOMAINS < 2 ^ 23 -> PreBoot th m s -> SchedWF s (fun _ => []).
Proof. intros Hd [_ _ Eq E1 E2 _ _ _]. split; [by apply readyq_init|]. by intros i t _ ?%not_elem_of_nil. Qed.

Lemma wp_init_schedule th m s : PreBoot th m s -> wp init_schedule_object_module (fun _ s' => PreBoot th m s' /\ scheduled s') s.
Proof.
  intros [? ? ? ? ? ? ? ?]. unfold init_schedule_object_module, set_scheduler_action, set_reprogram, get_current_tick. wp_steps. split; [|done].
  split; try done. cbn. f_equal. unfold NUM_PRIORITIES. lia.
Qed.

Lemma wp_kernel_init th m i s : kernel_init i -> PreBoot th m s -> wp i (fun _ s' => PreBoot th m s' /\ (scheduled s -> scheduled s')) s.
Proof.
  intros Hi HP. destruct Hi as [| | |i Hq].
  - eapply wp_mono; [by apply wp_init_schedule|]. by intros r s' [? ?].
  - unfold init_privilege_status_module. wp_steps. by destruct HP.
  - unfold init_interrupt_object_module, interrupt_array_init. wp_steps. by destruct HP.
  - destruct (Hq s) as [r E]. unfold wp. by rewrite E.
Qed.

(** A level whose routines include the scheduler's leaves the scheduler initialised. *)
Lemma wp_device_loop th m l (Q : unit -> kstate -> Prop) s :
  Forall kernel_init l -> PreBoot th m s ->
  (forall s', PreBoot th m s' -> (scheduled s \/ init_schedule_object_module ∈ l -> scheduled s') -> Q tt s') -> wp (device_loop l) Q s.
Proof.
  intros Hl. revert s Q. induction Hl as [|i l Hi Hl IH]; intros s Q HP HQ; cbn [device_loop].
  - apply wp_skip. apply HQ; [done|]. by intros [?|?%not_elem_of_nil].
  - apply wp_bind. destruct (proj1 (wp_run _ _ _) (wp_kernel_init th m i s Hi HP)) as (r & s1 & E & HP1 & Hs1). unfold wp at 1. rewrite E.
    apply IH; [done|]. intros s' HP' Hs'. apply HQ; [done|]. intros [Hs|Hin]; [by apply Hs'; left; apply Hs1|].
    apply elem_of_cons in Hin as [<-|Hin]; [|by apply Hs'; right]. apply Hs'. left.
    destruct (proj1 (wp_run _ _ _) (wp_init_schedule th m s HP)) as (r' & s1' & E' & _ & Hs). congruence.
Qed.

Lemma wp_prepare `{!QuietImage} th m (Q : unit -> kstate -> Prop) s :
  Bootable th m -> PreBoot th m s -> scheduled s ->
  (forall s', Booted (with_current_thread main_thread s') -> Q tt s') ->
  wp prepare_mult_thread Q s.
Proof.
  intros [_ _ Hdom Hnd Emain Epriv Eidle Hisr Hf1 Hf2 Hf3] HP [Hcur Hds] HQ. pose proof HP as [<- <- _ _ _ Erel Eact [Edom Eidx]]. repeat apply NoDup_cons in Hnd as [? Hnd].
  assert (main_thread <> NULL /\ privilege_thread <> NULL /\ idle_thread <> NULL /\ main_thread <> privilege_thread /\ main_thread <> idle_thread /\ privilege_thread <> idle_thread)
    as (Hn1 & Hn2 & Hn3 & H12 & H13 & H23) by (split_and!; intros E; rewrite E in *; set_solver).
  unfold prepare_mult_thread. apply wp_bind, wp_modify. set (s0 := with_ready_thread _ _).
  assert (HW0 : SchedWF s0 (fun _ => [])) by (apply (schedwf_globals s); [done..|by eapply preboot_wf]).
  apply wp_bind, wp_init_main; [done|done|done|by cbn; rewrite Hcur|done|done|done|]. intros s1 m1 F1 Hm1 HW1.
  assert (Ho1 : forall x i, x <> main_thread -> x ∉ boot_q i) by (intros x i Hx ?%boot_q_member; done).
  set (s0' := with_memory m1 _) in F1.
  assert (Hfield : forall x, x <> main_thread -> threads s !! x = Some zero_tcb -> is_tcb s1 x /\ sched_of s1 x = NULL).
  { intros x Hx Ex. rewrite (sframe_is_tcb s0' s1), (sframe_fld _ _ s0' s1) by done. unfold s0', is_tcb, get_fld, upd_tcb. cbn. rewrite lookup_alter_ne by done. rewrite Ex. split; [by eexists|done]. }
  destruct (Hfield privilege_thread ltac:(done) Epriv) as [Tp Sp]. destruct (Hfield idle_thread ltac:(done) Eidle) as [Ti Si].
  assert (Em1 : memory s1 = m1) by (by destruct F1 as [-> _]).
  apply wp_bind, (wp_init_parked _ _ _ _ _ boot_q); [done|done|done|rewrite Em1; by apply Hm1|done|by intros; apply Ho1|].
  intros s2 m2 -> Hm2 HW2 Hpk2. rewrite Em1 in Hm2.
  apply wp_bind, (wp_init_parked _ _ _ _ _ boot_q); [by apply is_tcb_upd|by rewrite fld_memory, upd_ne|done|by apply Hm2, Hm1|done|by intros; apply Ho1|].
  intros s3 m3 -> Hm3 HW3 Hpk3. apply wp_modify. apply HQ.
  pose proof (sf_globals _ _ F1) as G1.
  split; [done|..].
  - cbn. by rewrite G1.
  - done.
  - cbn. by rewrite G1.
  - eapply schedwf_globals; [..|exact HW3]; done.
  - apply releaseq_init. cbn. by rewrite G1.
  - assert (Hfm : forall {A} (f : ktcb -> A) d, (forall t, f (core t) = f t) -> get_fld f d s1 main_thread = f (started (prioritised (reset_tcb option_essential_option (context_at _main_stack CONFIG_MAIN_STACK_SIZE) zero_tcb)))).
    { intros A f d Hf. rewrite (sframe_fld f d s0' s1) by done. unfold s0', get_fld, upd_tcb. cbn. by rewrite lookup_alter_eq, Emain. }
    split; [|split].
    + destruct (rq_member _ _ (wf_ready _ _ HW3) 31 main_thread) as [Hpl _]; [clear -Hdom; unfold num_queues, NUM_PRIORITIES; lia|by apply list_elem_of_singleton|exact Hpl].
    + change (get_fld sched_prior 0 _ _) with (get_fld sched_prior 0 (upd_tcb idle_thread (fun x => started (reset_tcb option_essential_option (context_at _idle_stack CONFIG_IDLE_STACK_SIZE) x)) (upd_tcb privilege_thread (fun x => started (reset_tcb option_essential_option (context_at _privilege_stack CONFIG_PRIVILEGE_STACK_SIZE) x)) s1)) main_thread).
      rewrite !upd_ne by done. by rewrite Hfm.
    + change (get_fld KState.sched 0 _ _) with (get_fld KState.sched 0 (upd_tcb idle_thread (fun x => started (reset_tcb option_essential_option (context_at _idle_stack CONFIG_IDLE_STACK_SIZE) x)) (upd_tcb privilege_thread (fun x => started (reset_tcb option_essential_option (context_at _privilege_stack CONFIG_PRIVILEGE_STACK_SIZE) x)) s1)) main_thread).
      rewrite !upd_ne by done. by rewrite Hfm.
  - exact (parked_other _ _ _ idle_thread _ m3 Hpk2 H23).
  - exact Hpk3.
  - unfold timetable. cbn. rewrite G1. cbn. rewrite Hds, Eidx. split; [done|]. split; [|done]. unfold first_schedule. rewrite length_map, length_seq, Z2Nat.id by lia. lia.
Qed.

Lemma boot_top : Top boot_q 0 31 main_thread [].
Proof.
  assert (Eq : forall p, qidx 0 p = p) by (intros p; unfold qidx; by destruct (1 <? CONFIG_NUM_DOMAINS)). unfold Top, boot_q, upd_q. rewrite Eq.
  split; [unfold NUM_PRIORITIES; lia|]. split; [done|]. intros p' Hp'. rewrite Eq. by rewrite (proj2 (Z.eqb_neq p' 31)) by lia.
Qed.

(** ** Theorems *)

Lemma wp_cstart `{!QuietImage} th m :
  Bootable th m -> wp cstart (fun sp s' => sp = STACK_ROUND_DOWN (u32 (THREAD_STACK_BUFFER _main_stack + CONFIG_MAIN_STACK_SIZE)) /\ Booted s') (boot_state th m).
Proof.
  intros HB. unfold cstart. apply wp_bind, wp_quiet; [apply quiet_kernel_init|]. apply wp_bind, wp_modify. apply wp_bind, wp_quiet; [apply quiet_shmem|].
  apply wp_bind. eapply (wp_device_loop th m); [apply HB|by split|]. intros s1 HP1 Hs1. specialize (Hs1 (or_intror (bo_schedule _ _ HB))).
  apply wp_bind. eapply (wp_device_loop th m); [apply HB|done|]. intros s2 HP2 Hs2. specialize (Hs2 (or_introl Hs1)).
  apply wp_bind, wp_quiet; [apply quiet_serial|]. apply wp_bind, wp_quiet; [apply quiet_time|]. apply wp_bind. apply (wp_prepare th m); [done|done|done|]. intros s' Hs'. unfold switch_to_main_thread, arch_switch_to_main_thread.
  apply wp_bind, wp_quiet; [apply quiet_static|]. apply wp_bind, wp_modify. apply wp_bind, wp_quiet; [apply quiet_dynamic|]. by apply wp_ret.
Qed.

(** C5: Boot completes from zeroed kernel variables and establishes the scheduler's invariant: the
    main thread runs, is the cached choice and is alone in the ready queue of priority 31;
    the release queue is empty; the domain schedule is the one of the scheduler's module; the
    privileged and the idle thread are started, have priority 0 and are in no queue; the main
    routine is entered at the top of its stack.  The processor is in thread mode, the scheduler's
    module is initialised at the first level, the other initialisation routines and the hooks
    of [QuietImage] leave the scheduler's variables alone, and each context that is built lies in mapped memory: the
    privileged thread's is outside its own stack. *)
Theorem boot_establishes_scheduler `{!QuietImage} th m :
  Bootable th m ->
  exists s', cstart (boot_state th m) = Done (STACK_ROUND_DOWN (u32 (THREAD_STACK_BUFFER _main_stack + CONFIG_MAIN_STACK_SIZE))) s' /\ Booted s'.
Proof. intros HB. apply wp_cstart in HB as W. apply wp_run in W as (sp & s' & E & -> & Hb). eauto. Qed.

(** [next_thread] when the running thread is the first of the highest queue: it stays. *)
Lemma wp_next_self q s p c l (Q : Z -> kstate -> Prop) :
  SchedWF s q -> current_thread s = c -> 0 <= sel_domain s < CONFIG_NUM_DOMAINS -> Top q (sel_domain s) p c l -> Q c s -> wp next_thread Q s.
Proof.
  intros [HR HM] Hc Hd (Hp & El & Hmax) HQ. unfold next_thread. wp_steps. fold (sel_domain s). set (dom := sel_domain s) in *.
  destruct (rq_bitmap _ _ HR dom Hd) as (w & row & Ew & _ & _). eapply wp_arr; [exact Ew|].
  destruct (Z.eqb_spec w 0) as [->|E]; cbn [negb].
  { destruct (l1_zero s q dom 0 HR Hd Ew) as [Hz _]. by rewrite (Hz eq_refl p Hp) in El. }
  wp_steps. eapply (wp_get_highest_prio dom (occupied q) _ _ p); [apply HR|done|done|by unfold occupied; rewrite El|].
  intros p' Hp' Hocc Htop. assert (p' = p) as ->.
  { specialize (Htop p Hp). unfold occupied in *. rewrite El in Htop. specialize (Htop eq_refl). unfold NUM_PRIORITIES in *.
    destruct (Z.lt_ge_cases p p'); [|lia]. by rewrite (Hmax p') in Hocc by lia. }
  wp_steps. apply wp_ready_queues_index; [apply HR|done|done|]. wp_steps. eapply wp_arr; [apply HR, qidx_range; [apply HR|done|done]|].
  wp_steps. cbn [q_head]. rewrite El. cbn [first]. unfold cur. wp_steps. rewrite Hc, Z.eqb_refl. cbn [negb]. by wp_steps.
Qed.

(** The next scheduling decision after boot keeps the main thread: it is the first thread of
    the highest queue, and the queues stay as they are. *)
Theorem boot_keeps_main s :
  Booted s -> exists s', (reschedule_required;; schedule) s = Done tt s' /\ ready_thread s' = main_thread /\ current_thread s' = main_thread /\
    scheduler_action s' = SCHEDULER_ACTION_RESUME_CURRENT_THREAD /\ SchedWF s' boot_q.
Proof.
  intros [Hc _ _ Ha HW HL (Hpl & Hp & Hs) _ _ (Hd & Htt & _)]. pose proof (wf_ready _ _ HW) as HR. pose proof (rq_config _ _ HR) as Hdom.
  enough (W : wp (reschedule_required;; schedule) (fun _ s' => ready_thread s' = main_thread /\ current_thread s' = main_thread /\
    scheduler_action s' = SCHEDULER_ACTION_RESUME_CURRENT_THREAD /\ SchedWF s' boot_q) s) by (by apply run_unit in W).
  set (s1 := with_scheduler_action SCHEDULER_ACTION_CHOOSE_NEW_THREAD s).
  assert (HW1 : SchedWF s1 boot_q) by (eapply schedwf_globals; [..|exact HW]; done). assert (HL1 : ReleaseQ s1 []) by (apply releaseq_init; apply (rel_head _ _ HL)).
  apply wp_bind. unfold reschedule_required. apply wp_bind, wp_gets. rewrite Ha. apply wp_bind. cbn [negb andb Z.eqb SCHEDULER_ACTION_RESUME_CURRENT_THREAD]. apply wp_skip. apply wp_modify. fold s1.
  unfold schedule. apply wp_bind. eapply wp_awaken_none; [exact HL1|exact I|]. apply wp_bind, wp_gets. change (scheduler_action s1) with SCHEDULER_ACTION_CHOOSE_NEW_THREAD.
  apply wp_bind. cbn [negb Z.eqb SCHEDULER_ACTION_RESUME_CURRENT_THREAD SCHEDULER_ACTION_CHOOSE_NEW_THREAD]. unfold choose_new_thread. apply wp_bind.
  assert (Hsel : sel_domain s1 = 0) by (unfold sel_domain; change (current_domain s1) with (current_domain s); rewrite Hd; by destruct (1 <? CONFIG_NUM_DOMAINS)).
  apply (wp_next_self boot_q s1 31 main_thread []); [done|done|rewrite Hsel; lia|rewrite Hsel; apply boot_top|]. apply wp_bind, wp_get.
  apply wp_bind. apply (wp_mono _ (fun _ s2 => DFrame s1 s2)).
  { destruct (current_domain_time s1 =? 0); [|apply wp_skip; by destruct s]. destruct Htt as [Ht1 Ht2]. apply wp_next_domain; [done|done|]. by intros. }
  intros _ s2 DF. unfold DFrame in DF. assert (Eth : threads s2 = threads s) by (by rewrite DF). destruct Hpl as (Ht & Hn & _ & _).
  assert (Hmem : main_thread ∈ boot_q 31) by (by apply list_elem_of_singleton). destruct (wf_member _ _ HW 31 main_thread) as (_ & Hb & _); [unfold num_queues, NUM_PRIORITIES; lia|done|].
  apply wp_update_cache; [by unfold is_tcb; rewrite Eth|left; unfold get_fld in *; by rewrite Eth| |done|].
  { intros _. apply not_blocked_not_dummy. unfold get_fld in *. by rewrite Eth. }
  unfold set_scheduler_action. apply wp_modify. cbn. split; [done|]. split; [by rewrite DF|]. split; [done|].
  eapply schedwf_globals; [..|exact HW1]; by (cbn; rewrite DF).
Qed.

(** A new thread starts from the context built for it: the context is the last 32 bytes of
    the stack and lies inside it, holds the entry and its arguments in r0 to r3, the start
    routine without its Thumb bit, and the Thumb state; nothing else of memory changes. *)
Theorem new_thread_context `{!QuietImage} s t stack size entry p1 p2 p3 options :
  let ctx := stack + size / 32 * 32 - 32 in
  0 <= stack -> stack mod 8 = 0 -> 32 <= size -> stack + size < 2 ^ 32 -> is_tcb s t -> t <> NULL -> frame_mapped (memory s) ctx ->
  exists s', set_new_thread t stack size entry p1 p2 p3 options s = Done tt s' /\ stack <= ctx /\ ctx + 32 <= stack + size /\
    get_fld psp 0 s' t = ctx /\ get_fld obj_state 0 s' t = state_restart_state /\
    memory s' !! ctx = Some entry /\ memory s' !! (ctx + 4) = Some p1 /\ memory s' !! (ctx + 8) = Some p2 /\ memory s' !! (ctx + 12) = Some p3 /\
    memory s' !! (ctx + 24) = Some (Z.land (start_pc options) 4294967294) /\ memory s' !! (ctx + 28) = Some 16777216 /\
    forall a, a < ctx \/ ctx + 32 <= a -> memory s' !! a = memory s !! a.
Proof.
  intros ctx Hs Ha Hz Hmax [x Ex] Hn Hm. pose proof (context_exact stack size Hs Ha Hz Hmax) as Ec. fold ctx in Ec.
  assert (1 <= size / 32) by (apply Z.div_le_lower_bound; lia). pose proof (Z.div_mod size 32 ltac:(lia)). pose proof (Z.mod_pos_bound size 32 ltac:(lia)).
  eassert (W : wp (set_new_thread t stack size entry p1 p2 p3 options) (fun _ s' => s' = _) s) by (apply wp_set_new_thread; [by exists x|done|by rewrite Ec|reflexivity]).
  rewrite Ec in W. apply run_unit in W as (s' & E & ->). eexists. split; [exact E|]. unfold get_fld, upd_tcb. cbn. rewrite lookup_alter_eq, Ex.
  split; [lia|]. split; [lia|]. split; [done|]. split; [done|]. apply framed_at; lia.
Qed.

(** The privileged thread's stack is defined with the idle thread's size, 512 bytes after
    rounding, but the thread is built for the size of its own option, 2048 bytes: its saved
    context starts at offset 2016, outside the stack.  Where nothing is mapped there, boot
    faults; otherwise it overwrites what lies there. *)
Theorem privilege_context_outside `{!QuietImage} s t :
  let ctx := _privilege_stack + 2016 in
  0 <= _privilege_stack -> _privilege_stack mod 8 = 0 -> _privilege_stack + 2048 < 2 ^ 32 -> is_tcb s t -> t <> NULL ->
  _privilege_stack + ARCH_THREAD_STACK_LEN CONFIG_IDLE_STACK_SIZE <= ctx /\
  (memory s !! (ctx + 24) = None -> fails (init_privilege_thread t _privilege_stack) Fault s) /\
  (frame_mapped (memory s) ctx -> exists s', init_privilege_thread t _privilege_stack s = Done tt s' /\ get_fld psp 0 s' t = ctx /\ memory s' !! ctx = Some privilege_thread_entry).
Proof.
  intros ctx Hs Ha Hmax [x Ex] Hn. assert (Ec : context_at _privilege_stack CONFIG_PRIVILEGE_STACK_SIZE = ctx) by (rewrite context_exact; [|done|done|done|exact Hmax]; change (CONFIG_PRIVILEGE_STACK_SIZE / 32 * 32) with 2048; unfold ctx; clear; lia).
  split; [unfold ctx; change (ARCH_THREAD_STACK_LEN CONFIG_IDLE_STACK_SIZE) with 512; lia|]. split.
  - intros E. unfold init_privilege_thread. apply fails_bind. unfold set_new_thread. apply fails_step, wp_quiet; [apply quiet_grant|]. unfold adjust_stack_size, arch_new_thread.
    apply fails_step, wp_thread_init; [by exists x|done|]. fold (context_at _privilege_stack CONFIG_PRIVILEGE_STACK_SIZE). cbv zeta. rewrite Ec.
    assert (Ew : word_at ctx 6 = ctx + 24) by (unfold word_at; apply u32_small; unfold ctx; lia). rewrite Ew. apply fails_bind. unfold fails, wr_mem, rd_mem, mbind, ST_bind. cbn. by rewrite E.
  - intros Hm. assert (W : wp (init_privilege_thread t _privilege_stack) (fun _ s' => get_fld psp 0 s' t = ctx /\ memory s' !! ctx = Some privilege_thread_entry) s); [|by apply run_unit in W].
    unfold init_privilege_thread. apply wp_bind, wp_set_new_thread; [by exists x|done|by rewrite Ec|]. rewrite Ec. unfold marktcb_as_started. apply wp_wr; [tcb_ok; by exists x|].
    split; [|apply framed_at; unfold ctx; lia]. unfold get_fld, upd_tcb. cbn. by rewrite !lookup_alter_eq, Ex.
Qed.

End Boot.

(** ** Witnesses *)

Section BootDemo.
Local Existing Instance test_config.
Local Existing Instance sim_platform.

Definition sim_irqs : IrqController := {|
  CONFIG_NUM_IRQS := 4; CONFIG_KERNEL_TIMER_INT := None; irq_enable := fun _ => mret tt; irq_disable := fun _ => mret tt;
  clock_isr := mret tt; pending_irq := fun _ => 4;
|}.
Local Existing Instance sim_irqs.

(** Three stacks in memory; services that work on state of their own do nothing here. *)
Definition sim_image : BootImage := {|
  _main_stack := 4096; _idle_stack := 8192; _privilege_stack := 16384; dummy_thread := 28;
  main_thread_entry := 101; idle_thread_entry := 201; privilege_thread_entry := 301;
  thread_entry_point := 401; arch_user_mode_enter := 501;
  k_object_access_grant := fun _ _ => mret tt; arch_kernel_init := mret tt; set_app_shmem_bss_zero := mret tt;
  device_inits := fun level => if level =? 0 then [init_interrupt_object_module; (mret 0 : K Z); init_schedule_object_module; init_privilege_status_module] else [];
  init_serial_object := mret tt; init_time_object := mret tt;
  arm_configure_static_mpu_regions := mret tt; arm_configure_dynamic_mpu_regions := fun _ => mret tt;
|}.
Local Existing Instance sim_image.

Local Instance sim_quiet : QuietImage.
Proof. by split. Qed.

Definition words (a : Z) (n : nat) : gmap Z Z := list_to_map ((fun i => (a + 4 * Z.of_nat i, 0)) <$> seq 0 n).
Definition boot_threads : gmap Z ktcb := {[ 16 := zero_tcb; 20 := zero_tcb; 24 := zero_tcb; 28 := zero_tcb ]}.
(** The last words of the two stacks, and the words the privileged context overwrites. *)
Definition boot_memory : gmap Z Z := words (4096 + 992) 8 ∪ words (8192 + 288) 8 ∪ words (16384 + 2016) 8.

Definition frame_mappedb (m : gmap Z Z) (ctx : Z) : bool := forallb (fun i => bool_decide (is_Some (m !! word_at ctx i))) frame_words.
Lemma frame_mappedb_ok m ctx : frame_mappedb m ctx = true -> frame_mapped m ctx.
Proof. unfold frame_mappedb. rewrite forallb_forall. intros Hb. apply Forall_forall. intros i Hi. apply (bool_decide_unpack _), Is_true_true, Hb, list_elem_of_In, Hi. Qed.

Lemma boot_demo : Bootable boot_threads boot_memory.
Proof.
  split; [| |by vm_compute|by apply (bool_decide_unpack _); vm_compute|reflexivity|reflexivity|reflexivity|done|apply frame_mappedb_ok; by vm_compute..].
  - intros level. cbn [device_inits sim_image]. destruct (level =? 0); [|done]. repeat constructor. intros s. by exists 0.
  - cbn. set_solver.
Qed.

Lemma boot_establishes_scheduler_witness :
  exists s', cstart (boot_state boot_threads boot_memory) = Done 5120 s' /\ Booted s'.
Proof. exact (boot_establishes_scheduler boot_threads boot_memory boot_demo). Defined.

Definition booted_demo : kstate := after cstart (boot_state boot_threads boot_memory).

Lemma booted_demo_ok : Booted booted_demo.
Proof. unfold booted_demo, after. destruct (proj1 (wp_run _ _ _) (wp_cstart _ _ boot_demo)) as (sp & s' & -> & _ & Hb). exact Hb. Qed.

Lemma boot_keeps_main_witness :
  exists s', (reschedule_required;; schedule) booted_demo = Done tt s' /\ ready_thread s' = 20 /\ current_thread s' = 20 /\
    scheduler_action s' = SCHEDULER_ACTION_RESUME_CURRENT_THREAD /\ SchedWF s' boot_q.
Proof. exact (boot_keeps_main booted_demo booted_demo_ok). Defined.

Lemma new_thread_context_witness :
  exists s', set_new_thread 16 8192 320 201 7 8 9 option_essential_option (boot_state boot_threads boot_memory) = Done tt s' /\
    8192 <= 8480 /\ 8512 <= 8512 /\ get_fld psp 0 s' 16 = 8480 /\ get_fld obj_state 0 s' 16 = state_restart_state /\
    memory s' !! 8480 = Some 201 /\ memory s' !! 8484 = Some 7 /\ memory s' !! 8488 = Some 8 /\ memory s' !! 8492 = Some 9 /\
    memory s' !! 8504 = Some 400 /\ memory s' !! 8508 = Some 16777216 /\
    forall a, a < 8480 \/ 8512 <= a -> memory s' !! a = boot_memory !! a.
Proof.
  assert (Ht : is_tcb (boot_state boot_threads boot_memory) 16) by (by eexists).
  assert (Hf : frame_mapped (memory (boot_state boot_threads boot_memory)) (8192 + 320 / 32 * 32 - 32)) by (apply frame_mappedb_ok; by vm_compute).
  exact (new_thread_context (boot_state boot_threads boot_memory) 16 8192 320 201 7 8 9 option_essential_option ltac:(lia) eq_refl ltac:(lia) ltac:(lia) Ht ltac:(done) Hf).
Defined.

Lemma privilege_context_outside_witness :
  16384 + 512 <= 18400 /\ (boot_memory !! 18424 = None -> fails (init_privilege_thread 24 16384) Fault (boot_state boot_threads boot_memory)) /\
  exists s', init_privilege_thread 24 16384 (boot_state boot_threads boot_memory) = Done tt s' /\ get_fld psp 0 s' 24 = 18400 /\ memory s' !! 18400 = Some 301.
Proof.
  destruct (privilege_context_outside (boot_state boot_threads boot_memory) 24) as (H1' & H2' & H3'); [done|done|done|by eexists|done|].
  split; [exact H1'|]. split; [exact H2'|]. apply H3', frame_mappedb_ok. by vm_compute.
Defined.

End BootDemo.
