(* ===== verification/ObjectTheorems.v ===== *)
(** * Scheduling parameters and signals

    Moving a thread to another domain, the admission test of the schedule-control call,
    and the protocol of notification nodes. *)

From Stdlib Require Import ZArith Lia Bool List.
From stdpp Require Import base tactics numbers list gmap.
From S2P Require Import Prelude Partial TimeConv Sporadic DList DNode KState TimeList ReadyQueue Sched ReadyQueueFacts QueueTheorems.
From S2P Require Import Frames SchedFacts ThreadTable TcbCore Ipc Interrupt Tcb IpcTheorems.

Local Open Scope Z_scope.

(** ** Domains *)

(** [is_schedulable] holds. *)
Definition schedulable (s : kstate) (t : Z) : Prop :=
  is_tcb s t /\ sched_of s t <> NULL /\ get_fld is_runnable false s t = true /\
  exists sc, scheds s !! sched_of s t = Some sc /\ 0 < refill_max sc.

Section Domains.
Context `{Config} `{Platform}.

Lemma wp_schedulable t (Q : bool -> kstate -> Prop) s : schedulable s t -> Q true s -> wp (is_schedulable t) Q s.
Proof.
  intros (Ht & Hsp & Hr & sc & Esc & Hmax) HQ. unfold is_schedulable. wp_steps. apply (wp_rd _ _ 0); [done|].
  rewrite (proj2 (Z.eqb_neq _ NULL)) by done. wp_steps. apply (wp_rd _ _ false); [done|]. rewrite Hr. wp_steps.
  eapply wp_rd_sched; [done|]. rewrite (proj2 (Z.ltb_lt 0 _)) by done. by wp_steps.
Qed.

(** ** The size of the queue array never changes *)

Definition same_size (s s' : kstate) : Prop := length (ready_queues s') = length (ready_queues s).

#[local] Instance same_size_preorder : PreOrder same_size.
Proof. split; [by intros s|]. intros s1 s2 s3 E1 E2. unfold same_size in *. congruence. Qed.

Lemma size_rd {A} (f : ktcb -> A) p : preserves same_size (rd f p).
Proof. intros s. apply pwp_rd. intros x _. reflexivity. Qed.

Lemma size_wr p g : preserves same_size (wr p g).
Proof. intros s. by apply pwp_wr. Qed.

Lemma size_modify f : (forall s, ready_queues (f s) = ready_queues s) -> preserves same_size (modify f).
Proof. intros Hf. apply preserves_modify. intros s. unfold same_size. by rewrite Hf. Qed.

Lemma size_wr_queue i v : preserves same_size (wr_queue i v).
Proof.
  unfold wr_queue, arr_set. intros s. pwp_steps. apply pwp_ofopt. intros a _. pwp_steps. apply length_insert.
Qed.

Hint Resolve size_rd size_wr size_wr_queue : frames.
Hint Extern 1 (preserves same_size (modify _)) => (apply size_modify; reflexivity) : frames.

Lemma size_dequeue t : preserves same_size (sched_dequeue t).
Proof.
  unfold sched_dequeue, ready_queues_index, remove_from_bitmap, invert_l1index, rd_l2, wr_l2, wr_l1, arr, arr_set. cbv zeta. frames.
Qed.

(** A run that completes keeps the size. *)
Lemma wp_same_size {A} (m : K A) (Q : A -> kstate -> Prop) s :
  preserves same_size m -> wp m (fun a s' => same_size s s' -> Q a s') s -> wp m Q s.
Proof. intros Hm. specialize (Hm s). unfold wp, pwp in *. destruct (m s); auto. Qed.

(** A thread that is in no queue may change its domain. *)
Lemma readyq_domain s q t dom :
  ReadyQ s q -> (forall i, 0 <= i < num_queues -> t ∉ q i) -> ReadyQ (upd_tcb t (with_domain dom) s) q.
Proof.
  intros [Hc Hq Hd Hm HB] Hnin. split; [done|done| | |done].
  - intros i Hi. eapply dll_frame; [by apply Hd|]. intros x _. by rewrite !get_fld_upd_other.
  - intros i x Hi Hx. assert (x <> t) by (intros ->; by apply (Hnin i)). destruct (Hm i x Hi Hx) as [Hp He].
    unfold placeable, queue_of in *. rewrite is_tcb_upd. rewrite (get_fld_upd_other sched_prior) by done.
    unfold get_fld, upd_tcb in *. cbn. by rewrite lookup_alter_ne.
Qed.

(** After [sched_dequeue] the thread is in no queue. *)
Lemma dequeued_nowhere s s1 q t l1 l2 :
  ReadyQ s q -> placeable s t -> q (queue_of s t) = l1 ++ t :: l2 -> QFrame s s1 ->
  ReadyQ s1 (upd_q q (queue_of s t) (l1 ++ l2)) ->
  forall i, 0 <= i < num_queues -> t ∉ upd_q q (queue_of s t) (l1 ++ l2) i.
Proof.
  intros HR Hpl El F HR1 i Hi Hin. pose proof (readyq_own s1 _ i t HR1 Hi Hin) as Eq. rewrite (qframe_queue_of s) in Eq by done.
  unfold upd_q in Hin. rewrite <-Eq, Z.eqb_refl in Hin.
  destruct (readyq_member_view s q t l1 l2 HR Hpl El) as (_ & _ & _ & Hnin & _). done.
Qed.

(** The common prefix of both outcomes of [set_domain] on a queued thread. *)
Lemma domain_changed s s1 q t l1 l2 dom :
  ReadyQ s q -> placeable s t -> q (queue_of s t) = l1 ++ t :: l2 -> QFrame s s1 ->
  ReadyQ s1 (upd_q q (queue_of s t) (l1 ++ l2)) -> may_queue s t ->
  let s2 := upd_tcb t (with_domain dom) s1 in
  ReadyQ s2 (upd_q q (queue_of s t) (l1 ++ l2)) /\ is_tcb s2 t /\ may_queue s2 t /\ domain_of s2 t = dom /\ prior_of s2 t = prior_of s t.
Proof.
  intros HR Hpl El F HR1 Hm s2.
  assert (Ht1 : is_tcb s1 t) by (rewrite (qframe_is_tcb s s1) by done; apply Hpl).
  split; [apply readyq_domain; [done|]; by apply (dequeued_nowhere s s1)|]. split; [by apply is_tcb_upd|]. split; [|split].
  - apply (qframe_may_queue s s1) in Hm; [|done]. unfold may_queue, budget_ok, s2 in *. rewrite !get_fld_upd_other by done. done.
  - unfold s2. by rewrite (get_fld_upd_same _ _ _ _ dom), decide_True.
  - unfold s2. rewrite get_fld_upd_other by done. by rewrite (qframe_fld _ _ s s1).
Qed.

(** Lemma: moving to another domain.  [set_domain] takes a queued thread out of its ready queue and puts
    it at the head of the queue of its priority in the new domain, keeping every other
    queue; the domain one past the last, which the schedule-control call admits, indexes
    past the ready queues. *)
Theorem set_domain_requeues s q t l1 l2 dom :
  ReadyQ s q -> placeable s t -> q (queue_of s t) = l1 ++ t :: l2 -> schedulable s t -> may_queue s t -> t <> current_thread s ->
  let q1 := upd_q q (queue_of s t) (l1 ++ l2) in
  let i := qidx dom (prior_of s t) in
  (0 <= dom < CONFIG_NUM_DOMAINS -> exists s', set_domain t dom s = Done tt s' /\ domain_of s' t = dom /\ ReadyQ s' (upd_q q1 i (t :: q1 i))) /\
  (1 < CONFIG_NUM_DOMAINS -> dom = CONFIG_NUM_DOMAINS -> Z.of_nat (length (ready_queues s)) = num_queues ->
     set_domain t dom s = Fail Fault).
Proof.
  intros HR Hpl El Hsch Hm Hc q1 i.
  assert (Ht0 : t <> 0) by apply Hpl. split.
  - intros Hd. apply run_unit. unfold set_domain. wp_steps. apply wp_assert; [by apply negb_true_iff, Z.eqb_neq|]. wp_steps.
    apply wp_schedulable; [done|]. wp_steps. eapply wp_sched_dequeue; [done|done|done|]. intros s1 F [HR1 _]. wp_steps.
    destruct (domain_changed s s1 q t l1 l2 dom HR Hpl El F HR1 Hm) as (HR2 & Ht2 & Hm2 & Ed & Ep).
    apply wp_wr; [by rewrite is_tcb_upd in Ht2|]. set (s2 := upd_tcb t (with_domain dom) s1) in *.
    assert (Hpl2 : placeable s2 t) by (unfold placeable; rewrite Ed, Ep; split; [done|]; split; [done|split; [done|apply Hpl]]).
    assert (Eq2 : queue_of s2 t = i) by (unfold queue_of; by rewrite Ed, Ep).
    pose proof (placeable_queue _ _ _ HR2 Hpl2) as Hi. rewrite Eq2 in Hi.
    eapply wp_sched_enqueue; [exact HR2|done|done|rewrite Eq2; by apply (dequeued_nowhere s s1)|].
    rewrite Eq2. intros s3 F3 [HR3 _]. wp_steps. unfold cur. wp_steps.
    assert (current_thread s3 = current_thread s) as ->. { destruct F3 as [-> _]. cbn. by destruct F as [-> _]. }
    rewrite (proj2 (Z.eqb_neq t _)) by done. wp_steps. split; [|done]. by rewrite (qframe_fld _ _ s2 s3).
  - intros Hmulti -> Hlen. unfold set_domain. apply fails_step, wp_assert; [by apply negb_true_iff, Z.eqb_neq|].
    apply fails_step, wp_schedulable; [done|]. apply fails_bind, fails_step, wp_same_size; [apply size_dequeue|].
    eapply wp_sched_dequeue; [done|done|done|]. intros s1 F [HR1 _] Elen.
    destruct (domain_changed s s1 q t l1 l2 CONFIG_NUM_DOMAINS HR Hpl El F HR1 Hm) as (HR2 & Ht2 & Hm2 & Ed & Ep).
    apply fails_step, wp_wr; [by rewrite is_tcb_upd in Ht2|]. set (s2 := upd_tcb t _ s1) in *.
    unfold sched_enqueue. apply fails_step, wp_assert_sched_ready; [done|done|].
    apply fails_step, (wp_rd _ _ 0); [done|]. apply fails_step, (wp_rd _ _ 0); [done|]. rewrite Ed, Ep.
    unfold ready_queues_index. rewrite (proj2 (Z.ltb_lt 1 _)) by done. apply fails_step, wp_ret. apply fails_bind.
    unfold arr. apply (fails_step get). wp_steps. pose proof (proj2 (proj2 (proj2 Hpl))) as Hp. pose proof (rq_config _ _ HR) as Hcfg.
    unfold num_queues, NUM_PRIORITIES in *. rewrite u32_small by lia.
    rewrite index_nonneg, lookup_ge_None_2; [done| |lia]. change (length (ready_queues s2)) with (length (ready_queues s1)). unfold same_size in Elen. lia.
Qed.

End Domains.

(** ** Admission of scheduling parameters *)

(** What [syscall_schedule_control] requires; the bounds on priorities and on the domain
    are the ones of the code, which include 256 and the number of domains. *)
Record admissible `{Config} (s : kstate) (id t prio mcp level dom refills : Z) : Prop := {
  ad_user : is_user_vaild id = true;
  ad_prio : prio <= mcp <= 256;
  ad_level : level = HARD_PRIOR_ACTION \/ level = SOFT_PRIOR_ACTION;
  ad_domain : dom <= CONFIG_NUM_DOMAINS;
  ad_refills : refills <= NUM_SCHED_REFILLS;
  ad_alive : forall st, st ∈ [state_dummy_state; state_dead_state; state_aborting_state] -> Z.land (get_fld obj_state 0 s t) st = 0;
  ad_active : forall st, st ∈ [state_suspended_state; state_restart_state] -> Z.land (get_fld obj_state 0 s t) st = 0;
  ad_other : t <> current_thread s;
  ad_unblocked : get_fld obj_state 0 s t ∉ [state_send_blocked_state; state_recv_blocked_state; state_notify_blocked_state];
}.

Section Admission.
Context `{Config} `{Platform}.

Lemma wp_thread_state t w (Q : Z -> kstate -> Prop) s :
  is_tcb s t -> t <> 0 -> Q (Z.land (get_fld obj_state 0 s t) w) s -> wp (get_thread_state t w) Q s.
Proof.
  intros Ht Ht0 HQ. unfold get_thread_state. wp_steps. apply wp_assert; [by apply negb_true_iff, Z.eqb_neq|]. wp_steps.
  apply (wp_rd _ _ 0); [done|]. by wp_steps.
Qed.

Lemma wp_object_state t (Q : Z -> kstate -> Prop) s :
  is_tcb s t -> t <> 0 -> Q (get_fld obj_state 0 s t) s -> wp (get_thread_object_state t) Q s.
Proof.
  intros Ht Ht0 HQ. unfold get_thread_object_state. wp_steps. apply wp_assert; [by apply negb_true_iff, Z.eqb_neq|]. wp_steps.
  by apply (wp_rd _ _ 0).
Qed.

(** A mask of several states is clear exactly when each state is. *)
Lemma mask_clear w a b : Z.land w (Z.lor a b) = 0 <-> Z.land w a = 0 /\ Z.land w b = 0.
Proof. rewrite Z.land_lor_distr_r. apply Z.lor_eq_0_iff. Qed.

(** Lemma: the schedule-control call tests its arguments completely.  [schedule_control_check] changes
    nothing and admits a call exactly when the target is another live, unblocked user
    thread and the parameters are within the bounds of the code; those bounds include
    priority 256 and the domain one past the last. *)
Theorem schedule_control_check_exact s id t prio mcp level dom refills :
  is_tcb s t -> t <> 0 ->
  exists r, schedule_control_check id t prio mcp level dom refills s = Done r s /\
    (r = None <-> admissible s id t prio mcp level dom refills).
Proof.
  intros Ht Ht0. enough (W : wp (schedule_control_check id t prio mcp level dom refills)
    (fun r s' => s' = s /\ (r = None <-> admissible s id t prio mcp level dom refills)) s).
  { apply wp_run in W as (r & s' & E & -> & W). by exists r. }
  assert (Hno : forall (code : Z), ~ admissible s id t prio mcp level dom refills ->
    wp (mret (Some code)) (fun r s' => s' = s /\ (r = None <-> admissible s id t prio mcp level dom refills)) s).
  { intros code Hn. wp_steps. done. }
  unfold schedule_control_check. rewrite (proj2 (Z.eqb_neq t NULL)) by done. rewrite orb_false_r.
  destruct (is_user_vaild id) eqn:Eu; cbn [negb]; [|apply Hno; intros []; congruence].
  unfold NUM_PRIORITIES.
  destruct ((mcp <? prio) || (256 <? prio) || (256 <? mcp)) eqn:Ep; [apply Hno; intros []; lia|].
  destruct (negb (level =? HARD_PRIOR_ACTION) && negb (level =? SOFT_PRIOR_ACTION)) eqn:El; [apply Hno; intros []; lia|].
  destruct ((CONFIG_NUM_DOMAINS <? dom) || (NUM_SCHED_REFILLS <? refills)) eqn:Ed; [apply Hno; intros []; lia|].
  wp_steps. apply wp_thread_state; [done|done|].
  assert (Hm1 : Z.land (get_fld obj_state 0 s t) (Z.lor (Z.lor state_dummy_state state_dead_state) state_aborting_state) = 0 <->
    forall st, st ∈ [state_dummy_state; state_dead_state; state_aborting_state] -> Z.land (get_fld obj_state 0 s t) st = 0).
  { rewrite !mask_clear. set_solver. }
  assert (Hm2 : Z.land (get_fld obj_state 0 s t) (Z.lor state_suspended_state state_restart_state) = 0 <->
    forall st, st ∈ [state_suspended_state; state_restart_state] -> Z.land (get_fld obj_state 0 s t) st = 0).
  { rewrite !mask_clear. set_solver. }
  destruct (Z.eqb_spec (Z.land (get_fld obj_state 0 s t) (Z.lor (Z.lor state_dummy_state state_dead_state) state_aborting_state)) 0)
    as [E1|E1]; cbn [negb]; [|apply Hno; intros A; by apply E1, Hm1, A].
  wp_steps. apply wp_thread_state; [done|done|].
  destruct (Z.eqb_spec (Z.land (get_fld obj_state 0 s t) (Z.lor state_suspended_state state_restart_state)) 0)
    as [E2|E2]; cbn [negb]; [|apply Hno; intros A; by apply E2, Hm2, A].
  unfold cur. wp_steps. destruct (Z.eqb_spec t (current_thread s)) as [Ec|Ec]; [apply Hno; intros []; done|].
  wp_steps. apply wp_object_state; [done|done|].
  destruct (Z.eqb_spec (get_fld obj_state 0 s t) state_send_blocked_state) as [Ew|Ew1]; [apply Hno; intros []; set_solver|].
  destruct (Z.eqb_spec (get_fld obj_state 0 s t) state_recv_blocked_state) as [Ew|Ew2]; [apply Hno; intros []; set_solver|].
  destruct (Z.eqb_spec (get_fld obj_state 0 s t) state_notify_blocked_state) as [Ew|Ew3]; [apply Hno; intros []; set_solver|].
  wp_steps. split; [done|]. split; [intros _|done]. split; [done|lia|lia|lia|lia|by apply Hm1|by apply Hm2|done|set_solver].
Qed.

End Admission.

(** ** Signals *)

Definition put_ntf (node : Z) (n : notifation) (s : kstate) : kstate := with_notifations (<[node := n]> (notifations s)) s.

Section Signals.
Context `{Config} `{Platform} `{Services}.

Lemma wp_wr_ntf p n g (Q : unit -> kstate -> Prop) s :
  notifations s !! p = Some n -> Q tt (put_ntf p (g n) s) -> wp (wr_ntf p g) Q s.
Proof. intros E HQ. unfold wr_ntf. wp_steps. eapply wp_rd_ntf; [done|]. by wp_steps. Qed.

(** [x], the first of the waiting threads, leaves the queue of the notification node. *)
Lemma wp_dequeue_notifation x l node n (Q : unit -> kstate -> Prop) s :
  notifations s !! node = Some n -> MesgQ s (ntf_queue n) (x :: l) ->
  (forall s1 n', MFrame s s1 -> bindedtcb n' = bindedtcb n -> Q tt (put_ntf node n' s1)) ->
  wp (dequeue_notifation x node) Q s.
Proof.
  intros En HM HQ. unfold dequeue_notifation. wp_steps. eapply wp_rd_ntf; [done|]. wp_steps.
  eapply (wp_message_dequeue x _ [] l); [exact HM|]. intros s1 queue' F HM1 _. wp_steps.
  assert (En1 : notifations s1 !! node = Some n) by (by rewrite (mf_globals _ _ F)).
  eapply wp_wr_ntf; [done|]. case_match; [|by wp_steps; apply HQ].
  eapply wp_wr_ntf; [unfold put_ntf; cbn; apply lookup_insert_eq|]. unfold put_ntf. cbn [notifations with_notifations].
  rewrite insert_insert_eq. by apply (HQ s1).
Qed.

(** C32: signals are binary.  Sending to an idle node whose bound thread does not wait to receive
    makes the node active and changes nothing else; sending again changes nothing in a build
    without assertions (with them the report dereferences an undefined pointer);
    receiving from an active node, by a thread with a scheduling context, makes it idle
    without blocking.  A node with a waiting thread but no bound thread dereferences null
    when it is signalled. *)
Theorem signal_protocol s node n :
  notifations s !! node = Some n -> node <> 0 ->
  (ntf_state n = notifation_state_idle ->
     bindedtcb n = NULL \/ is_tcb s (bindedtcb n) /\ get_fld obj_state 0 s (bindedtcb n) <> state_recv_blocked_state ->
     send_signal node s = Done tt (put_ntf node (with_ntf_state notifation_state_active n) s)) /\
  (ntf_state n = notifation_state_active -> send_signal node s = if CONFIG_ASSERT then Fail Fault else Done tt s) /\
  (forall t blocking, ntf_state n = notifation_state_active -> is_tcb s t -> t <> 0 -> sched_of s t <> NULL ->
     recevie_signal t node blocking s = Done tt (put_ntf node (with_ntf_state notifation_state_idle n) s)) /\
  (forall x l, ntf_state n = notifation_state_wait -> bindedtcb n = NULL -> MesgQ s (ntf_queue n) (x :: l) ->
     x <> current_thread s -> threads s !! NULL = None -> send_signal node s = Fail Fault).
Proof.
  intros En Hn0. split; [|split; [|split]].
  - intros Est Hb. apply run_done. unfold send_signal. wp_steps. apply wp_assert; [by apply negb_true_iff, Z.eqb_neq|]. wp_steps.
    eapply wp_rd_ntf; [done|]. rewrite Est. destruct (Z.eqb_spec (bindedtcb n) NULL) as [E|E]; cbn [negb].
    + by eapply wp_wr_ntf.
    + destruct Hb as [?|[Ht Hw]]; [done|]. wp_steps. apply (wp_rd _ _ 0); [done|].
      rewrite (proj2 (Z.eqb_neq _ _) Hw). by eapply wp_wr_ntf.
  - intros Est. destruct CONFIG_ASSERT eqn:HA.
    + change (fails (send_signal node) Fault s). unfold send_signal. apply fails_step, wp_assert; [by apply negb_true_iff, Z.eqb_neq|]. apply fails_step. eapply wp_rd_ntf; [done|]. by rewrite Est, HA.
    + apply run_done. unfold send_signal. wp_steps. apply wp_assert_off; [done|]. wp_steps. eapply wp_rd_ntf; [done|]. rewrite Est, HA. by wp_steps.
  - intros t blocking Est Ht Ht0 Hsp. apply run_done. unfold recevie_signal. wp_steps.
    apply wp_assert; [by apply negb_true_iff, Z.eqb_neq|]. wp_steps. apply wp_assert; [by apply negb_true_iff, Z.eqb_neq|]. wp_steps.
    eapply wp_rd_ntf; [done|]. rewrite Est. wp_steps. eapply wp_wr_ntf; [done|]. unfold possible_donate_context. wp_steps.
    apply (wp_rd _ _ 0); [done|]. change (get_fld sched 0 (put_ntf _ _ s) t) with (get_fld sched 0 s t).
    rewrite (proj2 (Z.eqb_neq _ NULL)) by done. by wp_steps.
  - intros x l Est Eb HM Hc Hnull.
    assert (Hx0 : x <> 0). { destruct (dll_neighbours [] x l (mq_dll _ _ _ HM)) as (_ & ? & _). done. }
    assert (Hx : is_tcb s x) by (apply (mq_member _ _ _ HM); set_solver).
    unfold send_signal. apply fails_step, wp_assert; [by apply negb_true_iff, Z.eqb_neq|]. apply fails_step.
    eapply wp_rd_ntf; [done|]. rewrite Est, Eb. rewrite (mq_ends _ _ _ HM). cbn [q_head first].
    apply fails_step, wp_assert; [by apply negb_true_iff, Z.eqb_neq|]. apply fails_step.
    eapply wp_dequeue_notifation; [done|exact HM|]. intros s1 n' F _. pose proof (mf_globals _ _ F) as G.
    assert (Hx1 : is_tcb s1 x) by (by rewrite (mframe_is_tcb _ _ _ F)).
    apply fails_step, wp_wr; [done|]. apply fails_step, wp_set_state_other; [by apply is_tcb_upd|done|cbn; by rewrite G|].
    apply fails_bind. unfold possible_donate_context. apply fails_bind. unfold rd. apply fails_bind. unfold tcb.
    apply (fails_step get). wp_steps. cbn. rewrite !lookup_alter_ne by done.
    assert (threads s1 !! NULL = None) as ->; [|done].
    pose proof (mf_threads _ _ F NULL) as T. rewrite Hnull in T. by destruct (threads s1 !! NULL).
Qed.

End Signals.

(** ** Witnesses *)

Section ObjectWitnesses.
Local Existing Instance test_config.
Local Existing Instance sim_platform.

(** Threads 100 and 200 are queued at priority 10; 100 goes to the head of the queue again. *)
Lemma set_domain_requeues_witness :
  exists s' q', set_domain 200 0 demo_queued = Done tt s' /\ ReadyQ s' q' /\ q' 10 = [200; 100].
Proof.
  pose proof demo_queued_readyq as (HR & _).
  assert (Hpl : placeable demo_queued 200) by (split; [by eexists|done]).
  destruct (set_domain_requeues demo_queued demo_q 200 [100] [] 0 HR Hpl) as [Hok _].
  - vm_compute. reflexivity.
  - split; [by eexists|]. split; [vm_compute; discriminate|]. split; [vm_compute; reflexivity|].
    exists (one_refill 5 60). split; vm_compute; reflexivity.
  - right. exists (one_refill 5 60). split; [vm_compute; reflexivity|]. intros _ _. split; [vm_compute; reflexivity|].
    exists (one_refill 5 60), (mk_refill 5 60), []. split; [vm_compute; reflexivity|].
    split; [apply repb_sound; vm_compute; reflexivity|]. cbn [refill_time refill_amount]. rewrite MIN_BUDGET_eq.
    change (u64 (current_time demo_queued + get_kernel_wcet_ticks)) with 10. lia.
  - vm_compute. discriminate.
  - destruct Hok as (s' & Hrun & _ & HR'); [vm_compute; split; [discriminate|reflexivity]|].
    eexists s', _. split; [exact Hrun|]. split; [exact HR'|]. vm_compute. reflexivity.
Defined.

(** Thread 100 holds a user id and is queued; the domain one past the last is admitted. *)
Lemma schedule_control_check_exact_witness :
  exists r, schedule_control_check (TID_TO_GLOBALID 9) 100 256 256 0 1 8 demo_kernel = Done r demo_kernel /\ r = None.
Proof.
  destruct (schedule_control_check_exact demo_kernel (TID_TO_GLOBALID 9) 100 256 256 0 1 8) as (r & Hrun & Hiff); [by eexists|lia|].
  exists r. split; [exact Hrun|]. apply Hiff. split; try done.
  - by right.
  - intros st Hst. repeat (apply elem_of_cons in Hst as [->|Hst]; [done|]). set_solver.
  - intros st Hst. repeat (apply elem_of_cons in Hst as [->|Hst]; [done|]). set_solver.
  - intros Hst. repeat (apply elem_of_cons in Hst as [Hst|Hst]; [done|]). set_solver.
Defined.

Definition signal_demo (st : notifation_state) : kstate :=
  with_notifations {[ 9500 := mk_notifation st (mk_queue 0 0) 0 ]} demo_kernel.

Lemma signal_protocol_witness :
  send_signal 9500 (signal_demo notifation_state_idle) =
    Done tt (put_ntf 9500 (mk_notifation notifation_state_active (mk_queue 0 0) 0) (signal_demo notifation_state_idle)).
Proof.
  apply (signal_protocol (signal_demo notifation_state_idle) 9500 (mk_notifation notifation_state_idle (mk_queue 0 0) 0));
    [done|lia|done|by left].
Defined.

End ObjectWitnesses.
