(* ===== verification/ObjectCalls.v ===== *)
(** * System calls on objects and untyped memory

    Models the system calls of [src/object/objecttype.c] and [src/object/cnode.c],
    [src/object/untype.c] and [src/object/kip.c] in the build with user mode: the object
    table of [Objects] runs beside the kernel state of the scheduler and the protection
    unit.  A failed check calls [arch_syscall_oops], which does not return: the result is
    [Oops].  Console output leaves no trace. *)

From Stdlib Require Import ZArith Lia Bool List.
From stdpp Require Import base tactics numbers list gmap fin_sets.
From S2P Require Import Prelude Partial DNode Bytes CMem Mpu MpuTheorems KState Sched SchedTheorems BudgetTheorems MemPool MemPoolSystem Objects ObjectTable ObjectSystem.

Local Open Scope Z_scope.

(** ** State *)

(** The scheduler's state and the registers of the protection unit. *)
Record env := mk_env { en_k : kstate; en_mpu : mpu }.

Inductive called (A : Type) := Oops | Ret (a : A).
Arguments Oops {A}.
Arguments Ret {A} a.

Definition EFAULT : Z := 14.
Definition EXCEPTION_LOOKUP_FAULT : Z := 2.

(** [kip], the kernel interface page, as it is initialised: 0x84 << 24 | 7 << 16. *)
Definition kip_apiv : Z := Z.lor (Z.shiftl 132 24) (Z.shiftl 7 16).
Definition kip_apif : Z := 0.
Definition kip_kid : Z := 0.

(** A word of memory, its bytes in little-endian order. *)
Definition ldw (a : Z) : BM Z := b0 ← ldb a; b1 ← ldb (a + 1); b2 ← ldb (a + 2); b3 ← ldb (a + 3); mret (b0 + 256 * b1 + 65536 * b2 + 16777216 * b3).
Definition stw (a w : Z) : BM unit := stb a (u8 w);; stb (a + 1) (u8 (Z.shiftr w 8));; stb (a + 2) (u8 (Z.shiftr w 16));; stb (a + 3) (u8 (Z.shiftr w 24)).

(** [arch_user_string_nlen]: the length, at most [maxlen], and 0, or -1 if a byte cannot be
    read. *)
Fixpoint string_nlen_loop (fuel : nat) (s n maxlen : Z) : BM (Z * Z) := fun m =>
  match fuel with
  | O => Fail OutOfFuel
  | S fuel =>
    match m !! (s + n) with
    | None => Done (n, -1) m
    | Some b => if (b =? 0) || (n =? maxlen) then Done (n, 0) m else string_nlen_loop fuel s (n + 1) maxlen m
    end
  end.
Definition user_string_nlen (src maxlen : Z) : BM (Z * Z) := string_nlen_loop (S (Z.to_nat maxlen)) src 0 maxlen.

Section Calls.
Context `{Config} `{Platform} `{ObjectSizes} {T : Type} `{ObjectHeap T}.
Context (d_obj_dlist : Z) (kernel_mcs : bool) (kip_address : Z).

Notation OM := (ST (objs env T)).

Definition on_k {A} (m : K A) : OM A := on_env (fun e => match m (en_k e) with Done a k => Done a (mk_env k (en_mpu e)) | Fail f => Fail f end).
Definition on_mpu {A} (m : UM A) : OM A := on_env (fun e => match m (en_mpu e) with Done a u => Done a (mk_env (en_k e) u) | Fail f => Fail f end).

(** The preemption point of the object table. *)
Definition env_preemption : ST env Z := fun e => match preemption_point kernel_mcs (en_k e) with Done a k => Done a (mk_env k (en_mpu e)) | Fail f => Fail f end.

(** [update_timestamp(false)] and [check_budget_restart()], with which every call begins. *)
Definition enter : OM bool := on_k (update_timestamp false);; on_k check_budget_restart.

(** ** Objects *)

Definition syscall_dobject_alloc (stale otype untyped_obj_size : Z) : OM (called Z) :=
  is_sufficient ← enter;
  if (is_sufficient : bool) then
    if negb ((obj_any_obj <? otype) && (otype <? obj_last_obj)) then mret Oops
    else if negb ((otype =? obj_untyped_obj) && negb (untyped_obj_size =? 0)) then mret Oops
    else
      obj ← Objects.d_object_alloc d_obj_dlist stale otype untyped_obj_size;
      on_k schedule;;
      mret (Ret obj)
  else mret (Ret 0).

Definition syscall_dobject_free (obj : Z) : OM (called unit) :=
  is_sufficient ← enter;
  if (is_sufficient : bool) then
    if negb (negb (obj =? 0)) then mret Oops
    else Objects.d_object_free d_obj_dlist env_preemption obj;; on_k schedule;; mret (Ret tt)
  else mret (Ret tt).

(** [SYSCALL_OBJ(thread, obj_thread_obj)] passes. *)
Definition thread_object_ok (thread : Z) : OM bool :=
  ko ← k_object_find thread; pass ← obj_validation_check ko thread obj_thread_obj; mret (pass =? 0).

Definition syscall_kobject_access_grant (object thread : Z) : OM (called unit) :=
  is_sufficient ← enter;
  if (is_sufficient : bool) then
    ok ← thread_object_ok thread;
    if negb ok then mret Oops
    else
      k_object_access_grant object thread;;
      ko ← validate_any_k_object object thread;
      if negb (negb (ko =? 0)) then mret Oops
      else on_k schedule;; on_k reschedule_unlocked;; mret (Ret tt)
  else mret (Ret tt).

(** The revocation looks up the descriptor that the validation returned. *)
Definition syscall_kobject_access_revoke (object thread : Z) : OM (called unit) :=
  is_sufficient ← enter;
  if (is_sufficient : bool) then
    ok ← thread_object_ok thread;
    if negb ok then mret Oops
    else
      ko ← validate_any_k_object object thread;
      if negb (negb (ko =? 0)) then mret Oops
      else
        k_object_access_revoke ko thread;;
        on_k schedule;; on_k reschedule_unlocked;; mret (Ret tt)
  else mret (Ret tt).

(** The three results are stored through the caller's pointers, unchecked. *)
Definition syscall_kernel_interface (version flag id : Z) : OM Z :=
  is_sufficient ← enter;
  (if (is_sufficient : bool) then
     on_mem (stw version kip_apiv);;
     on_mem (stw flag kip_apif);;
     on_mem (stw id kip_kid);;
     on_k schedule
   else skip);;
  mret kip_address.

(** ** Untyped memory *)

(** [SYSCALL_MEMORY(ptr, size, write)]: true if the access is denied. *)
Definition SYSCALL_MEMORY (ptr size : Z) (write : bool) : OM bool := r ← on_mpu (arm_core_mpu_buffer_validate ptr size write); mret (negb (r =? 0)).

Definition user_copy (dst src size : Z) (is_to : bool) : OM Z :=
  denied ← ((if is_to then SYSCALL_MEMORY dst size true else SYSCALL_MEMORY src size false) : OM bool);
  if (denied : bool) then mret EFAULT else on_mem (memcpy dst src size);; mret 0.

Definition do_user_from_copy (dst src size : Z) : OM Z := user_copy dst src size false.
Definition do_user_to_copy (dst src size : Z) : OM Z := user_copy dst src size true.

(** [size_add_overflow]. *)
Definition add_overflows (a b : Z) : bool := u32 (a + b) <? a.

Definition do_user_string_copy (dst src maxlen : Z) : OM Z :=
  '(actual_len, err) ← on_mem (user_string_nlen src maxlen);
  if negb (err =? 0) || (actual_len =? maxlen) || add_overflows actual_len 1 then mret EINVAL
  else
    let actual_len := u32 (actual_len + 1) in
    ret ← do_user_from_copy dst src actual_len;
    on_mem (stb (dst + (actual_len - 1)) 0);;
    mret ret.

Definition reset_untyped_object (src src_size : Z) : OM Z :=
  k ← rd_ko src;
  on_mem (memset (k_obj_self src) 0 (get_k_object_size (ko_type k) src_size));;
  status ← on_env env_preemption;
  if negb (status =? EXCEPTION_NONE) then mret status else mret EXCEPTION_NONE.

(** [d_object_alloc] returns the address of the new object itself, so the field [name] read
    through it is the first word of the object. *)
Definition retype_untyped_object (stale dest user_type : Z) (reset : bool) (user_size src : Z) : OM Z :=
  status ← ((if reset then reset_untyped_object src user_size else mret EXCEPTION_NONE) : OM Z);
  if negb (status =? EXCEPTION_NONE) then mret status
  else if src =? 0 then
    wr_ko src (fun k => mk_k_object (ko_name k) (ko_right k) (u8 user_type) (ko_flag k) (ko_data k));;
    mret EXCEPTION_NONE
  else
    dest ← Objects.d_object_alloc d_obj_dlist stale user_type user_size;
    if dest =? 0 then mret EXCEPTION_LOOKUP_FAULT
    else
      name ← on_mem (ldw dest);
      k ← rd_ko src;
      on_mem (memcpy name (ko_name k) user_size);;
      mret EXCEPTION_NONE.

(** The string behind [name] is shorter than [user_size] and may be read. *)
Definition retype_source_ok (name user_size : Z) : OM bool :=
  '(actual_len, err) ← on_mem (user_string_nlen name user_size);
  if negb (err =? 0) || (actual_len =? user_size) || add_overflows actual_len 1 then mret false
  else denied ← SYSCALL_MEMORY name user_size false; mret (negb denied).

(** [dest] is still NULL after the retyping, which gets it by value. *)
Definition syscall_retype_untyped (stale kobject user_size user_type : Z) : OM Z :=
  is_sufficient ← enter;
  if (is_sufficient : bool) then
    if obj_last_obj <=? user_type then mret EXCEPTION_SYSCALL_ERROR
    else
      let obj_size := get_k_object_size user_type user_size in
      kobject ← ((if kobject =? 0 then Objects.d_object_alloc d_obj_dlist stale obj_untyped_obj user_size else mret kobject) : OM Z);
      if kobject =? 0 then mret EXCEPTION_LOOKUP_FAULT
      else
        src ← d_object_find kobject;
        if src =? 0 then mret EXCEPTION_SYSCALL_ERROR
        else
          k ← rd_ko src;
          ok ← retype_source_ok (ko_name k) user_size;
          if negb ok then mret EXCEPTION_SYSCALL_ERROR
          else
            nochild ← is_d_object_no_child d_obj_dlist src;
            on_k (c ← gets current_thread; set_thread_state c state_restart_state);;
            status ← retype_untyped_object stale 0 user_type (negb nochild) obj_size src;
            if negb (status =? EXCEPTION_NONE) then mret status
            else
              d ← rd_ko 0;
              denied ← SYSCALL_MEMORY (ko_name d) user_size true;
              if (denied : bool) then mret EXCEPTION_SYSCALL_ERROR
              else on_k schedule;; mret EXCEPTION_NONE
  else mret EXCEPTION_FAULT.

(** ** Facts *)

Notation Table := (fun D => ObjectTable.Table (X := env) d_obj_dlist D).

Lemma zoom_done {P A} (part : objs env T -> P) put (m : ST P A) s a s' : zoom part put m s = Done a s' -> exists v, s' = put v s.
Proof. unfold zoom. destruct (m (part s)) as [b v|]; [|done]. intros [= <- <-]. by exists v. Qed.

(** The time checks touch the scheduler's state only. *)
Lemma enter_env s b s1 : enter s = Done b s1 -> exists e, s1 = with_ob_env e s.
Proof.
  unfold enter, on_k, on_env, mbind, ST_bind. destruct (zoom _ _ _ s) as [[] s0|] eqn:E0; [|done]. intros E1. apply zoom_done in E0 as [v0 ->], E1 as [v1 ->]. by exists v1.
Qed.

Lemma table_env D s L R e : Table D s L R -> Table D (with_ob_env e s) L R.
Proof. intros [HM HH HS HL Hlive Hdesc]. split; try done. by eapply memory_parts. Qed.

Lemma bind_done {A B} (m : OM A) (k : A -> OM B) s a s' : m s = Done a s' -> (m ≫= k) s = k a s'.
Proof. unfold mbind, ST_bind. by intros ->. Qed.

Lemma wp_thread_object_refused D s L R thread (Q : bool -> objs env T -> Prop) : Table D s L R -> pointer thread -> Q false s -> wp (thread_object_ok thread) Q s.
Proof.
  intros HT [Ht H8] HQ. unfold thread_object_ok, obj_validation_check. apply wp_bind. eapply wp_k_find; [exact HT|done..|]. apply wp_bind. eapply wp_validate; [exact HT|done..|]. by apply wp_ret.
Qed.

(** Address 0 holds no descriptor. *)
Definition null_free (s s' : objs env T) : Prop := ob_ko s !! 0 = None -> ob_ko s' !! 0 = None.
#[local] Instance null_free_preorder : PreOrder null_free.
Proof. split; [intros s E; exact E|]. intros s1 s2 s3 H12 H23 E. by apply H23, H12. Qed.

Lemma null_zoom {P A} part (put : P -> objs env T -> objs env T) (m : ST P A) : (forall v s, ob_ko (put v s) = ob_ko s) -> preserves null_free (zoom part put m).
Proof. intros Hput s. unfold pwp, zoom. destruct (m (part s)) as [a v|]; [|done]. intros E. by rewrite Hput. Qed.

Lemma null_rd d : preserves null_free (rd_ko d).
Proof. unfold rd_ko. frames. Qed.

Lemma null_wr d f : preserves null_free (wr_ko d f).
Proof.
  intros s. unfold wr_ko, rd_ko. apply pwp_bind, pwp_bind. pwp_steps. apply pwp_ofopt. intros k Ek. pwp_steps. intros E0. cbn. rewrite lookup_insert_ne; [done|]. intros ->. by rewrite E0 in Ek.
Qed.

Lemma null_type (ty : Z) : preserves null_free (modify (with_ob_type ty)).
Proof. apply preserves_modify. intros s E. exact E. Qed.

#[local] Hint Resolve null_rd null_wr null_type : frames.
#[local] Hint Extern 1 (preserves null_free (on_k _)) => by apply null_zoom : frames.
#[local] Hint Extern 1 (preserves null_free (on_mpu _)) => by apply null_zoom : frames.
#[local] Hint Extern 1 (preserves null_free (on_env _)) => by apply null_zoom : frames.
#[local] Hint Extern 1 (preserves null_free (on_heap _)) => by apply null_zoom : frames.
#[local] Hint Extern 1 (preserves null_free (on_mem _)) => by apply null_zoom : frames.
#[local] Hint Extern 1 (preserves null_free (on_dl _)) => by apply null_zoom : frames.
#[local] Hint Extern 1 (preserves null_free (on_rb _)) => by apply null_zoom : frames.

Lemma null_alloc stale type usz : preserves null_free (Objects.d_object_alloc d_obj_dlist stale type usz).
Proof. unfold Objects.d_object_alloc. frames. Qed.
Lemma null_find obj : preserves null_free (d_object_find obj).
Proof. unfold d_object_find. frames. Qed.
Lemma null_memory ptr size write : preserves null_free (SYSCALL_MEMORY ptr size write).
Proof. unfold SYSCALL_MEMORY. frames. Qed.
#[local] Hint Resolve null_alloc null_find null_memory : frames.

Lemma null_no_child d : preserves null_free (is_d_object_no_child d_obj_dlist d).
Proof. unfold is_d_object_no_child, is_parent_d_object, is_same_object, is_same_objecttype, same_name_if, is_same_objectname, is_arch_k_obj, get_k_object_type. frames. Qed.
Lemma null_source name size : preserves null_free (retype_source_ok name size).
Proof. unfold retype_source_ok. frames. Qed.
Lemma null_retype stale dest ty reset size src : preserves null_free (retype_untyped_object stale dest ty reset size src).
Proof. unfold retype_untyped_object, reset_untyped_object. frames. Qed.
Lemma null_enter : preserves null_free enter.
Proof. unfold enter. frames. Qed.

Lemma memcpy_null_faults m src n : m !! 0 = None -> 0 < n -> fails (memcpy 0 src n) Fault m.
Proof.
  intros E0 Hn. assert (Hst : forall v m', m' = m -> fails (stb 0 v) Fault m') by (intros v m' ->; unfold fails, stb; by rewrite E0).
  assert (Hld : forall {A} (k : Z -> BM A) a, (forall v, fails (k v) Fault m) -> fails (v ← ldb a; k v) Fault m).
  { intros A k a Hk. unfold fails, mbind, ST_bind, ldb in *. destruct (m !! a); [apply Hk|done]. }
  assert (Hb : forall k, (0 < k)%nat -> fails (copy_bytes k 0 src) Fault m).
  { intros [|k] Hk; [lia|]. cbn [copy_bytes]. apply Hld. intros v. by apply fails_bind, Hst. }
  unfold memcpy. destruct (_ =? 0); [|apply fails_bind, Hb; lia]. cbn [copy_align]. apply fails_step, wp_ret. pose proof (Z.div_mod n 4 ltac:(lia)). pose proof (Z.mod_pos_bound n 4 ltac:(lia)).
  destruct (Z.to_nat (n / 4)) as [|k] eqn:Ek; cbn [copy_words].
  - apply fails_step, wp_skip. assert (n / 4 = 0) as -> by (pose proof (Z.div_pos n 4); lia). apply fails_bind. replace (0 + 4 * 0) with 0 by lia. replace (src + 4 * 0) with src by lia. apply Hb. lia.
  - apply fails_bind, fails_bind. unfold copy_word. do 4 (apply Hld; intros ?). by apply fails_bind, Hst.
Qed.

(** ** Theorems *)

(** Lemma: no user can create an object: the two checks of [syscall_dobject_alloc] ask for a type
    below 4 that is 4, so a caller with budget is stopped and one without gets NULL; the
    object table is left alone. *)
Theorem dobject_alloc_refuses stale otype usz s b s1 :
  enter s = Done b s1 -> syscall_dobject_alloc stale otype usz s = Done (if b then Oops else Ret 0) s1 /\ exists e, s1 = with_ob_env e s.
Proof.
  intros E. split; [|by eapply enter_env]. unfold syscall_dobject_alloc. rewrite (bind_done _ _ _ _ _ E). destruct b; [|done]. change obj_last_obj with 4. change obj_untyped_obj with 4.
  destruct (Z.ltb_spec otype 4); [|by rewrite andb_false_r]. rewrite andb_true_r, (proj2 (Z.eqb_neq otype 4)) by lia. by destruct (negb (obj_any_obj <? otype)).
Qed.

(** Lemma: no user can grant or revoke access: with the object table in any state that its
    operations keep, a caller with budget is stopped at the first check, before anything is
    changed. *)
Theorem access_calls_refuse D s L R object thread b s1 :
  Table D s L R -> pointer thread -> enter s = Done b s1 ->
  syscall_kobject_access_grant object thread s = Done (if b then Oops else Ret tt) s1 /\ syscall_kobject_access_revoke object thread s = Done (if b then Oops else Ret tt) s1.
Proof.
  intros HT Hp E. destruct (enter_env s b s1 E) as [e ->]. pose proof (table_env D s L R e HT) as HT1. unfold syscall_kobject_access_grant, syscall_kobject_access_revoke. rewrite !(bind_done _ _ _ _ _ E). destruct b; [|done].
  split; apply run_done, wp_bind; (eapply wp_thread_object_refused; [exact HT1|done|]; by apply wp_ret).
Qed.

(** Lemma: a user with budget stops the kernel by asking it to release the pointer 8. *)
Theorem dobject_free_8_stops D s L R s1 : Table D s L R -> enter s = Done true s1 -> syscall_dobject_free 8 s = Fail Fault.
Proof.
  intros HT E. destruct (enter_env s true s1 E) as [e ->]. unfold syscall_dobject_free. rewrite (bind_done _ _ _ _ _ E). cbn [Z.eqb negb]. apply fails_bind. eapply free_8_stops. by apply table_env.
Qed.

(** Lemma: retyping never succeeds: a run of [syscall_retype_untyped] that completes returns an
    error, because before success it reads the descriptor of its own NULL [dest]. *)
Theorem retype_never_succeeds stale kobject user_size user_type s r s' :
  ob_ko s !! 0 = None -> syscall_retype_untyped stale kobject user_size user_type s = Done r s' -> r <> EXCEPTION_NONE.
Proof.
  intros E0. apply (pwp_run _ (fun r _ => r <> EXCEPTION_NONE)). unfold syscall_retype_untyped. apply pwp_bind. eapply pwp_preserves; [apply null_enter|]. intros b s1 N1. destruct b; [|by apply wp_pwp, wp_ret].
  destruct (_ <=? _); [by apply wp_pwp, wp_ret|]. apply pwp_bind. eapply (pwp_then null_free); [|exact N1|].
  { destruct (kobject =? 0); frames. }
  intros ko s2 N2. destruct (ko =? 0); [by apply wp_pwp, wp_ret|]. apply pwp_bind. eapply (pwp_then null_free); [apply null_find|exact N2|]. intros src s3 N3. destruct (src =? 0); [by apply wp_pwp, wp_ret|].
  apply pwp_bind. eapply (pwp_then null_free); [apply null_rd|exact N3|]. intros k s4 N4. apply pwp_bind. eapply (pwp_then null_free); [apply null_source|exact N4|]. intros ok s5 N5. destruct ok; cbn [negb]; [|by apply wp_pwp, wp_ret].
  apply pwp_bind. eapply (pwp_then null_free); [apply null_no_child|exact N5|]. intros nc s6 N6. apply pwp_bind. eapply (pwp_then null_free); [by apply null_zoom|exact N6|]. intros [] s7 N7.
  apply pwp_bind. eapply (pwp_then null_free); [apply null_retype|exact N7|]. intros st s8 N8. destruct (Z.eqb_spec st EXCEPTION_NONE) as [|Hst]; cbn [negb]; [|by apply wp_pwp, wp_ret].
  eapply pwp_fails, fails_bind. unfold rd_ko, fails, mbind, ST_bind, get. by rewrite (N8 E0).
Qed.

(** Lemma: retyping an object into one of at least a word stops the kernel once the new object is
    allocated: its address is taken for that of a descriptor, the name read there is 0, and
    the copy goes to address 0. *)
Theorem retype_copies_to_null D s L R stale dest user_type user_size src k :
  Table D s L R -> fits user_type user_size -> 4 <= get_k_object_size user_type user_size -> 0 < user_size -> src <> 0 -> ob_ko s !! src = Some k -> ob_mem s !! 0 = None ->
  retype_untyped_object stale dest user_type false user_size src s = Fail Fault \/
  exists s', retype_untyped_object stale dest user_type false user_size src s = Done EXCEPTION_LOOKUP_FAULT s'.
Proof.
  intros HT (Hf0 & Hf1 & Hf2) H4 Hus Hsrc Ek Em. unfold retype_untyped_object. rewrite (bind_done _ _ _ EXCEPTION_NONE s eq_refl). cbn [Z.eqb negb EXCEPTION_NONE]. rewrite (proj2 (Z.eqb_neq _ _) Hsrc).
  assert (Hw : wp (Objects.d_object_alloc d_obj_dlist stale user_type user_size) (fun r s' => r = 0 \/ r <> 0 /\ is_Some (ob_ko s' !! src) /\ filled (ob_mem s) r (get_k_object_size user_type user_size) 0 (ob_mem s') /\ ob_mem s' !! 0 = None) s).
  { eapply wp_alloc; [exact HT|done..|by left|]. intros d s' Hd Hhi _ _ Eko _ _ Hf. right. pose proof (room_range d Hd). unfold k_obj_self in *. split; [lia|]. split; [|split; [done|]].
    - rewrite Eko. destruct (decide (src = d)) as [->|]; [by rewrite lookup_insert_eq|]. by rewrite lookup_insert_ne, Ek.
    - rewrite (Hf 0). rewrite (proj2 (Z.leb_gt (d + 32) 0)) by lia. done. }
  apply wp_run in Hw as (r & s' & Er & [->|(Hr & [k' Ek'] & Hf & Em')]); rewrite (bind_done _ _ _ _ _ Er); [right; by exists s'|]. left. rewrite (proj2 (Z.eqb_neq _ _) Hr).
  assert (Hz : forall i, 0 <= i < 4 -> ob_mem s' !! (r + i) = Some 0).
  { intros i Hi. rewrite (Hf (r + i)). rewrite (proj2 (Z.leb_le _ _)), (proj2 (Z.ltb_lt _ _)) by lia. done. }
  assert (Hw : wp (ldw r) (fun w m => w = 0 /\ m = ob_mem s') (ob_mem s')).
  { unfold ldw. apply wp_bind. eapply wp_ldb; [rewrite <-(Z.add_0_r r); apply Hz; lia|]. do 3 (apply wp_bind; eapply wp_ldb; [apply Hz; lia|]). by apply wp_ret. }
  apply fails_step, wp_zoom. eapply wp_mono; [exact Hw|]. cbn beta. intros w m [-> ->]. replace (with_ob_mem (ob_mem s') s') with s' by (by destruct s'). apply fails_step. eapply wp_rd_ko; [exact Ek'|].
  apply fails_bind. unfold on_mem. apply fails_zoom. by apply memcpy_null_faults.
Qed.

(** C19: [user_copy] copies between a kernel buffer and a user buffer that no region of the
    protection unit cuts, both mapped and apart, exactly if the hardware lets unprivileged code
    write, respectively read, every byte of the user buffer; otherwise it returns [EFAULT] and
    no byte changes. *)
Theorem user_copy_checked s dst src size (is_to : bool) :
  let user := if is_to then dst else src in let u := en_mpu (ob_env s) in
  length (mpu_regs u) = 8%nat -> Forall tidy (mpu_regs u) -> 0 <= user -> 0 <= size -> user + Z.max 1 size <= 2 ^ 32 -> Forall (unbroken user (Z.max 1 size)) (mpu_regs u) ->
  dst + size <= src \/ src + size <= dst -> mapped (ob_mem s) src size -> mapped (ob_mem s) dst size ->
  exists r s', user_copy dst src size is_to s = Done r s' /\ (forall a, user <= a < user + Z.max 1 size -> user_access is_to a u = (r =? 0)) /\
    (r = 0 /\ copied (ob_mem s) dst src size (ob_mem s') \/ r = EFAULT /\ ob_mem s' = ob_mem s).
Proof.
  intros user u H8 Ht Ha Hs He Hu Hsep Hms Hmd. apply wp_run. unfold user_copy.
  assert (Hd : wp (if is_to then SYSCALL_MEMORY dst size true else SYSCALL_MEMORY src size false) (fun b s' => b = negb (user_access is_to user u) /\ ob_mem s' = ob_mem s) s).
  { assert (Hv : wp (SYSCALL_MEMORY user size is_to) (fun b s' => b = negb (user_access is_to user u) /\ ob_mem s' = ob_mem s) s); [|by destruct is_to].
    unfold SYSCALL_MEMORY. apply wp_bind. unfold on_mpu, on_env. apply wp_zoom. pose proof (wp_buffer_validate u user size is_to H8 Ht Ha Hs He Hu (fun r m' => r = (if user_access is_to user u then 0 else - EPERM)) ltac:(done)) as Hw.
    unfold arm_core_mpu_buffer_validate. apply wp_run in Hw as (r & u' & E & ->). unfold wp at 1. fold u. rewrite E. apply wp_ret. split; [|done]. by destruct (user_access is_to user u). }
  apply wp_bind. eapply wp_mono; [exact Hd|]. cbn beta. intros b s1 [-> Em1]. pose proof (unbroken_access u user size is_to Hu) as Hall.
  destruct (user_access is_to user u); cbn [negb].
  - apply wp_bind, wp_zoom. destruct (memcpy_copied (ob_mem s) dst src size Hs Hsep Hms Hmd) as (m' & Ec & Hc). unfold wp at 1. rewrite Em1, Ec. apply wp_ret. split; [intros a Hin; by rewrite Hall|]. by left.
  - apply wp_ret. split; [intros a Hin; by rewrite Hall|]. by right.
Qed.

End Calls.

(** ** Examples *)

#[local] Existing Instance stm32_config.
#[local] Existing Instance sim_platform.

Lemma table_beside {T} `{ObjectHeap T} {X Y : Type} lst D (s : objs X T) L R (e : Y) (m : bmem) :
  ObjectTable.Table lst D s L R -> (forall x, is_Some (ob_mem s !! x) -> is_Some (m !! x)) ->
  ObjectTable.Table lst D (mk_objs e (ob_heap s) (ob_ko s) (ob_dl s) (ob_rb s) m (ob_type s)) L R.
Proof.
  intros [[Hko Hin Hdl Hrb Hby Ha] HH HS HL Hlive Hdesc] Hm. split; try done. split; try done. intros i Hi. by apply Hm, Hby.
Qed.

(** The objects of [demo_objs2], thread 100 running with 15 or 50 of its 60 ticks used, the
    board's regions, and a user buffer of 100 bytes. *)
Definition user_bytes : bmem := place 536903700 (replicate 100 1) (ob_mem demo_objs2).
Definition call_state (used : Z) : objs env mempool :=
  mk_objs (mk_env (budget_demo stm32_config used 0) running_mpu) (ob_heap demo_objs2) (ob_ko demo_objs2) (ob_dl demo_objs2) (ob_rb demo_objs2) user_bytes (ob_type demo_objs2).

Lemma place_mono bs : forall a (m : bmem) x, is_Some (m !! x) -> is_Some (place a bs m !! x).
Proof.
  induction bs as [|b bs IH]; intros a m x Hx; cbn [place]; [done|]. destruct (decide (x = a)) as [->|]; [by rewrite lookup_insert_eq|]. rewrite lookup_insert_ne by done. by apply IH.
Qed.

Lemma call_table used : ObjectTable.Table 64 demo_nodes (call_state used) demo_live2 [4100; 5124].
Proof. apply (table_beside 64 demo_nodes demo_objs2 _ _ (mk_env (budget_demo stm32_config used 0) running_mpu) user_bytes demo_table2). intros x. apply place_mono. Qed.

(** With 15 ticks used the budget suffices. *)
Definition entered (used : Z) : objs env mempool := match enter (call_state used) with Done _ s => s | Fail _ => call_state used end.

Lemma run_flag {S} (m : ST S bool) (after : S) (v : bool) s :
  after = match m s with Done _ s' => s' | Fail _ => s end -> (match m s with Done r _ => Bool.eqb r v | Fail _ => false end) = true -> m s = Done v after.
Proof. intros -> E. destruct (m s) as [r s'|]; [|done]. apply eqb_prop in E. by subst. Qed.

Lemma enter_sufficient : enter (call_state 15) = Done true (entered 15).
Proof. apply run_flag; [done|by vm_compute]. Qed.

Lemma dobject_alloc_refuses_witness : syscall_dobject_alloc 64 0 obj_untyped_obj 100 (call_state 15) = Done Oops (entered 15).
Proof. exact (proj1 (dobject_alloc_refuses 64 0 obj_untyped_obj 100 (call_state 15) true (entered 15) enter_sufficient)). Defined.

Lemma access_calls_refuse_witness : syscall_kobject_access_grant 5156 4132 (call_state 15) = Done Oops (entered 15) /\ syscall_kobject_access_revoke 5156 4132 (call_state 15) = Done Oops (entered 15).
Proof. exact (access_calls_refuse 64 demo_nodes (call_state 15) demo_live2 [4100; 5124] 5156 4132 true (entered 15) (call_table 15) ltac:(by vm_compute) enter_sufficient). Defined.

Lemma dobject_free_8_stops_witness : syscall_dobject_free 64 false 8 (call_state 15) = Fail Fault.
Proof. exact (dobject_free_8_stops 64 false demo_nodes (call_state 15) demo_live2 [4100; 5124] (entered 15) (call_table 15) enter_sufficient). Defined.

Definition retyped : objs env mempool := match syscall_retype_untyped 64 false 0 4132 20 obj_thread_obj (call_state 15) with Done _ s => s | Fail _ => call_state 15 end.

(** A thread type is rejected. *)
Lemma retype_never_succeeds_witness :
  syscall_retype_untyped 64 false 0 4132 20 obj_thread_obj (call_state 15) = Done EXCEPTION_SYSCALL_ERROR retyped /\ EXCEPTION_SYSCALL_ERROR <> EXCEPTION_NONE.
Proof.
  assert (E : syscall_retype_untyped 64 false 0 4132 20 obj_thread_obj (call_state 15) = Done EXCEPTION_SYSCALL_ERROR retyped) by (apply run_value; [done|by vm_compute]).
  split; [exact E|]. exact (retype_never_succeeds 64 false 0 4132 20 obj_thread_obj (call_state 15) _ retyped ltac:(by vm_compute) E).
Defined.

Lemma retype_copies_to_null_witness :
  retype_untyped_object 64 false 0 0 obj_irq_control_obj false 20 4100 (call_state 15) = Fail Fault \/
  exists s', retype_untyped_object 64 false 0 0 obj_irq_control_obj false 20 4100 (call_state 15) = Done EXCEPTION_LOOKUP_FAULT s'.
Proof.
  assert (Hf : fits obj_irq_control_obj 20) by (by vm_compute). assert (Hk : ob_ko (call_state 15) !! 4100 = Some (new_desc 5 obj_thread_obj 4100)) by (by vm_compute).
  assert (Hm : ob_mem (call_state 15) !! 0 = None) by (by vm_compute). assert (H4 : 4 <= get_k_object_size obj_irq_control_obj 20) by (by vm_compute).
  exact (retype_copies_to_null 64 false demo_nodes (call_state 15) demo_live2 [4100; 5124] 0 0 obj_irq_control_obj 20 4100 (new_desc 5 obj_thread_obj 4100) (call_table 15) Hf H4 ltac:(lia) ltac:(lia) Hk Hm).
Defined.

(** A hundred bytes from the thread object to the user's page. *)
Lemma user_copy_checked_witness : exists r s', user_copy 536903700 4132 100 true (call_state 15) = Done r s' /\
  (forall a, 536903700 <= a < 536903700 + Z.max 1 100 -> user_access true a (en_mpu (ob_env (call_state 15))) = (r =? 0)) /\
  (r = 0 /\ copied (ob_mem (call_state 15)) 536903700 4132 100 (ob_mem s') \/ r = EFAULT /\ ob_mem s' = ob_mem (call_state 15)).
Proof.
  assert (H8 : length (mpu_regs (en_mpu (ob_env (call_state 15)))) = 8%nat) by (by vm_compute).
  assert (Ht : Forall tidy (mpu_regs (en_mpu (ob_env (call_state 15))))) by (apply (Forall_of_check tidy tidyb); [apply tidy_of_check|by vm_compute]).
  assert (Hu : Forall (unbroken 536903700 (Z.max 1 100)) (mpu_regs (en_mpu (ob_env (call_state 15))))) by (apply (Forall_of_check _ (unbrokenb 536903700 (Z.max 1 100))); [apply unbroken_of_check|by vm_compute]).
  assert (Hs : mapped (ob_mem (call_state 15)) 4132 100) by (apply (mappedb_mapped _ _ 100); by vm_compute).
  assert (Hd : mapped (ob_mem (call_state 15)) 536903700 100) by (apply (mappedb_mapped _ _ 100); by vm_compute).
  exact (user_copy_checked (call_state 15) 536903700 4132 100 true H8 Ht ltac:(lia) ltac:(lia) ltac:(lia) Hu ltac:(lia) Hs Hd).
Defined.
